(* ===== verification/_CoqProject ===== *)
-Q . S2P
Prelude.v
Memory.v
Slices.v
Ctype.v
CString.v
CStringFacts.v
SearchFacts.v
CStrings.v
StringProps.v
NumConv.v
NumProps.v
QSort.v
QSortFacts.v
Time.v
TimeFacts.v
StrftimeFacts.v
Format.v
FormatFacts.v
Scan.v
ScanFacts.v
Stream.v
StreamFacts.v
MemStream.v
StreamProps.v
Malloc.v
MallocFacts.v
MallocProps.v
MallocLarge.v
MallocClient.v
Mutex.v
MutexProps.v
Channel.v
ChannelFacts.v
ChannelProps.v
KErrno.v
HandleTable.v
HandleTableFacts.v
Ipc.v
IpcFacts.v
IpcKernel.v
IpcProps.v
PageFrame.v
PageFrameFacts.v
PageFrameProps.v
PageTable.v
PageTableFacts.v
PageTableProps.v
Vm.v
VmFacts.v
VmProtectFacts.v
VmProps.v
KSort.v
KSortFacts.v
Fat.v
FatFacts.v
FatTable.v
FatChain.v
FatFile.v
FatWrite.v
FatProps.v
FatFileProps.v
Dentry.v
DentryFacts.v
DentryTree.v
DentryOps.v
DentryPaths.v
DentryProps.v
KPath.v
KPathFacts.v
FatDir.v
FatDirFacts.v
FatDirOps.v
FatDirProps.v
Resolve.v
ResolveProps.v
Vfs.v
VfsFacts.v
VfsOps.v
PathFs.v
VfsProps.v
