(* ===== verification/Prelude.v ===== *)
(** * A verification of VesperaOS: the C library, memory management, channels,
      FAT32, paths and the virtual file system

    VesperaOS is an operating system for x86-64. This development models parts
    of it that carry their own logic and can be run without hardware: the C
    library that every program links ([src/userspace/lib/src]), the memory
    management of the kernel ([src/kernel/paging], [src/kernel/memory/vm.cpp]),
    channels and pipes with the handles that name them ([src/kernel/ipc],
    [src/kernel/realm], [src/kernel/sys]), the FAT32 driver ([src/filesystem/fat32]) with the sort of the kernel
    library it uses ([src/include/klib/sort.h]), and the paths of realms, the
    cache of path components and the virtual file system above it
    ([src/filesystem/vfs], [src/lib/path.cpp]). The definitions are executable
    functions that follow the source statement by statement; the theorems are
    about these functions.

    ** How code is modelled

    - A [w]-bit integer is a [Z]; where the source can leave its range the
      wrap-around is written out ([u32], [u64], [i32], ... below).
    - A function of the source is a computation in the monad [M] below: it
      passes the state on, or is [Undef] (an access outside memory, a signed
      overflow, a shift out of range, a broken precondition of the language) or
      [NoFuel] (a loop cut off). A theorem that a run is [Done] excludes both, so
      it is a theorem of total correctness.
    - Loops of the source are [while] with fuel. The theorems give enough fuel:
      the length of the data plus one for scans of memory, the number of
      clusters plus one for loops over a FAT, a measure for the rest. Where a
      bound is not a number of the program ([malloc] over a heap of any size),
      [returns] below says that all large enough fuel gives the same result.
    - Memory is a finite map from addresses to bytes ([Memory]); an address
      outside it is an error. Structures of the library that live in memory
      (heap segments, strings, arrays) are read and written there as bytes.
    - What the kernel does for the library (system calls), what a driver does
      for the file system (block devices), and the memory the kernel asks its
      allocators for, are parameters: operations of a class or functions, with
      the laws that are used stated as fields or hypotheses.

    ** The C library

    - [Memory]: bytes, arrays and strings in memory. [Ctype]: the table of
      character classes (ctype.c, ctype.h).
    - [CString], with [CStringFacts], [SearchFacts]: string.c.
      [CStrings]: strings.c and libgen.c. [StringProps]: the claims; the
      word-at-a-time [memchr] finds what a byte-at-a-time search finds,
      [memmove] is right under every overlap.
    - [NumConv], [NumProps]: atoi to strtoll of stdlib.c, with errno and the end
      pointer; [strtol] returns the clamped value of the subject sequence that the C
      standard defines, but for a zero that it takes for a prefix.
    - [QSort], [QSortFacts]: qsort with its explicit stack, and bsearch. For any
      total preorder the result is a sorted permutation, the 64 stack nodes are
      enough, and no byte outside the array is touched.
    - [Time], [TimeFacts], [StrftimeFacts]: time.c; gmtime_r and mktime are
      inverse and name the right day of the Gregorian calendar, strftime stays
      in its buffer.
    - [Format], [FormatFacts]: the printf engine of stdio.c and its two sinks
      refine a formatter on lists. [Scan], [ScanFacts]: sscanf reads back what
      snprintf printed.
    - [Stream], [StreamFacts], [MemStream], [StreamProps]: buffered streams over
      any backend (the class of cookie functions); buffering is transparent, but
      for stdout, whose fflush writes the buffer of printf only.
      open_memstream is one instance.
    - [Malloc], [MallocFacts], [MallocProps]: malloc.c, the heap as a doubly
      linked list in memory, described by a list of blocks. [MallocLarge]: the
      list of blocks from 64 KiB on, which are mapped one by one. [MallocClient]: a
      program that calls malloc (of sizes up to 2^64 - 25: larger ones wrap), free
      and stores to its blocks, as a step relation; blocks never overlap, and every
      call returns. The law for mmap is [fresh_mmap].
    - [Mutex], [MutexProps]: the mutexes of pthread.c over the futex of the kernel
      (sys_futex.cpp, wait_queue.cpp), as a step relation over any number of
      threads. The queue of the kernel is shared with the units of other realms,
      and a wake-up is given to the first unit in it whose address matches the
      global [g_wake_uaddr]. Mutual exclusion holds for every interleaving; no
      wake-up is lost as long as nobody uses timedlock and, the parameter [alone],
      no other futex of the queue is used.

    ** Memory management of the kernel

    - [PageFrame], [PageFrameFacts], [PageFrameProps]: the bitmap and the page
      frame allocator; start-up from the memory map of the firmware, first fit,
      and that frames given out are distinct under any sequence of calls.
    - [PageTable], [PageTableFacts], [PageTableProps]: the four-level tables. A
      class of frame sources is the interface to the allocator; any program of
      map and unmap calls refines a function from virtual addresses to entries; a
      map call has no effect only when a frame it may ask for is refused.
    - [Vm], [VmFacts], [VmProtectFacts], [VmProps]: mmap, munmap, mprotect and
      brk over the list of areas of a unit. A class [Mmu] is the interface to the
      page tables, with the tables above as an instance. The theorems on munmap
      and mprotect are for ranges whose end does not wrap around, and for areas that start and end on page boundaries, as mmap makes them;
      brk can make others, which the model has and the theorems leave out.

    ** Channels, pipes and handles

    - [Slices]: a part of a list and its replacement, shared with the files of
      FAT32. [KErrno]: the errors of the kernel.
    - [Channel]: the ring buffer of channel.cpp and the wait queues. A call on a
      channel is a sequence of turns, one for each time it holds the lock; the
      relation [chan_sys] interleaves the turns, sleeps and wake-ups of any number
      of units. [ChannelFacts]: the ring as a list of bytes, and the effect of a
      turn on it. [ChannelProps]: the invariant under every interleaving; what is
      received is what was sent, no call is stuck, no wake-up is lost with one
      unit at each end, poll tells what the next call will do.
    - [HandleTable], [HandleTableFacts]: the table of a realm with its bitmap, as a
      partial function from slots to entries; resolution, transfer, duplication.
      The objects behind the handles are a parameter, with the functions that
      take and drop references stored in the entries as in the source.
    - [Ipc]: endpoints of channels, and the system calls that make, pass on, use
      and close handles to them, over the tables of all realms. A deleted object is
      gone from the state, and its use undefined. [IpcFacts]: the counts of
      endpoints and channels. [IpcKernel]: one table against the references of all
      others. [IpcProps]: programs of calls of many realms never use a deleted
      object, leave none behind when the realms end, and never gain a right.
      Buffers come from the heap of the kernel, whose rounding of sizes is modelled
      ([align_size]); the theorems are for capacities of at most 2^64 - 4096, for
      which it does not wrap.

    A system call on a handle is one step here, while the source looks the handle
    up and uses the object without holding a reference in between; the theorems
    of [IpcProps] are about calls that do not overlap.

    ** FAT32

    - [KSort], [KSortFacts]: introsort of the kernel library; any strict weak
      order, any range of an array.
    - [Fat]: mounting, the cache of FAT sectors, entries in all copies of the
      table, FSINFO, the search for free clusters, and chains, which are read
      and freed in batches of 128 sectors. The class [BlockDevice] is the
      interface to the driver.
    - [FatFacts]: the class [Disk] says what a working device does to an image of
      bytes; the cache agrees with the image. [FatTable]: entries, the count of
      free clusters, loops (tortoise and hare), the search for a free cluster, the
      scan for free clusters and FSINFO. [FatChain]: reading and freeing chains.
      [FatProps]: the claims, and a disk in memory on which their hypotheses hold.
    - [FatFile]: directory entries and their times, reading a file in runs and
      transfers of 64 KiB, writing it and growing its chain. [FatWrite]: the
      bytes of a chain, reading and writing them, and new
      clusters at the end of a chain. [FatFileProps]: what is read is what the
      chain holds, and what is written reads back with all other files kept.
    - [FatDir]: directories, with long names spread over several entries and the
      short names made from them: reading a directory in runs of clusters,
      finding, creating, deleting and renaming entries, directories, truncation.
      [FatDirFacts]: a directory as a list of entries of 32 bytes, what it lists,
      and that names are read back as they were written. A directory is [tidy]
      when the parts of each long name stand right in front of their entry.
      [FatDirOps]: the operations on a disk. [FatDirProps]: a created file is
      listed under its name, a deleted one is not and its clusters are free, a
      truncated one keeps its first bytes; and what goes wrong in directories that
      are not tidy, on a full disk and with names that differ only in case.

    The theorems assume a boot sector whose geometry does not overflow ([geo_ok]:
    sectors of at most 512 bytes, a table that covers all clusters) and, where
    they say so, a table without damaged entries ([healthy]). Those on directories
    assume in addition that allocations succeed, that the device has no trim where
    clusters are freed, that fewer than 256 files are listed, and for creating that
    the name has a short name ([short_name_exists]) and that the first free place for the entries
    lies in front of the end marker; [entered_unseen] says what happens behind it.
    The claim on deleting is for a search without regard to case that finds the
    entry the listing has. Renaming, making and removing directories are modelled
    and evaluated on examples.

    ** Paths

    - [KPath]: path.cpp and the string functions of the kernel library, on arrays
      of bytes. [KPathFacts]: splitting and normalizing keep a stack of names;
      normalized paths and their names.
    - [Resolve]: resolution of the paths a program gives (vfs_helper.cpp), chdir,
      chroot, and the paths of a spawned realm. [VFS::open] is a parameter here: the
      theorems hold for all its answers. [ResolveProps]: resolution without
      arrays; a realm stays below its root, and resolution is the
      lexical one within the limits of the code (16 names of less than 64 bytes,
      253 bytes in all); what it does beyond them is in the findings.

    ** The cache of paths

    - [Dentry]: dentry_cache.cpp. The same slots are linked as a tree, as a list
      in order of use and as a list of free slots; nodes have counts of
      references, and closing the last one deletes the node.
    - [DentryFacts]: the three structures as a forest and two lists, each reading
      its own fields. [DentryTree]: paths in a forest. [DentryOps]: the invariant,
      the operations on entries, and references to nodes.
      [DentryPaths]: one component, whole paths, and the empty cache.
    - [DentryProps]: programs of operations against a table of paths: what a
      lookup finds was inserted and not invalidated since; an insertion is found,
      and evicts at most the least recently used entry that it does not need.

    The number of slots is any [N]; the theorems on insertion are for paths of at
    most [N] bytes, so that the entries on the way do not fill the cache. Operations
    run one after the other: the source takes its lock once per component, and
    interleavings of two path operations are not modelled.

    ** The virtual file system

    - [Vfs]: vfs.cpp, opening, closing, creating, removing and renaming by path:
      the mount point, the walk through the cache and the file system, the
      insertion, and the invalidations behind a change. The class [FileSystem] is
      the table of operations of a node; the file system behind it is any type.
    - [VfsFacts]: the class [FSLaws] says what a file system promises: a tree of
      inodes, nodes of children with a reference, changes that are local to the
      names they are given. The walk follows that tree whatever is cached.
      [VfsOps]: every operation, with the references it takes and leaves.
      [PathFs]: a file system for which the laws are proved.
    - [VfsProps]: programs of calls on one file system refine its tree; two file
      systems get in each other's way.

    The theorem is for paths as resolution leaves them, with names of at most 31
    bytes, parents of at most 127 bytes (of 255 bytes for [open]) and 16 names: beyond
    these bounds the code opens something else (see the findings). The cache has
    at least 255 slots, and reference counts do not overflow.

    ** What the code does not do

    Some theorems state that the code fails: a repair that never ends
    ([FatProps]), files that are created where no listing sees them or on a
    cluster of their directory, a deletion and a renaming that hit another file
    ([FatDirProps]), wake-ups lost after a timeout, to a unit of another realm and to
    an address that another processor has overwritten ([MutexProps]) and with two
    readers of a channel ([ChannelProps]), a channel with less memory than its
    capacity ([IpcProps]), a zero that is no number ([NumProps]), text that
    fflush(stdout) leaves behind ([StreamProps]), references that
    are never given back ([DentryProps]), file systems that share their cached
    names ([VfsProps]), a root that is not inherited and a parent
    path that is cut ([ResolveProps]), an mmap that
    loops, and an mprotect and a munmap that leave areas overlapping ([VmProps]), page tables
    freed too early ([PageTableProps]), frames behind the end of memory
    ([PageFrameProps]), and a strftime that drops text ([StrftimeFacts]).

    ** Not modelled

    Wrappers around single system calls, wide characters, floating-point
    parsing, and the parts of stdio that only combine modelled ones. Of the
    kernel: the scheduler (interrupt-driven; sleeping and waking are steps of the
    models of mutexes and channels), sockets, signals and terminals, the set-up of
    realms and their standard handles, the heap of the kernel (a parameter that may fail; only its rounding of sizes is
    modelled), drivers and
    everything that touches hardware. Of FAT32: the statistics of files and
    the adapter that hands its operations to the virtual file system; of the
    virtual file system: reading, writing and attributes of nodes, directory
    streams and the mounting of devices; ext4, the device and the realm file
    system. The user programs, the compositor and
    the vendored libraries (Mesa and others) are not part of this development. *)

From stdpp Require Import base tactics list gmap numbers strings.
From Stdlib Require Import ZArith Lia.

#[global] Open Scope Z_scope.

(** ** Machine integers

    A [w]-bit C integer is a [Z] in its range; every place of the source where
    an operation can leave the range wraps it back explicitly. *)

Definition wrapu (w x : Z) : Z := x mod 2 ^ w.
Definition wraps (w x : Z) : Z := (x + 2 ^ (w - 1)) mod 2 ^ w - 2 ^ (w - 1).

Definition u8 (x : Z) : Z := wrapu 8 x.
Definition u16 (x : Z) : Z := wrapu 16 x.
Definition u32 (x : Z) : Z := wrapu 32 x.
Definition u64 (x : Z) : Z := wrapu 64 x.
Definition i8 (x : Z) : Z := wraps 8 x.
Definition i16 (x : Z) : Z := wraps 16 x.
Definition i32 (x : Z) : Z := wraps 32 x.
Definition i64 (x : Z) : Z := wraps 64 x.

Definition UINT64_MAX : Z := 18446744073709551615.
Definition SIZE_MAX : Z := UINT64_MAX.
Definition INT64_MAX : Z := 9223372036854775807.
Definition INT64_MIN : Z := -9223372036854775808.
Definition INT32_MAX : Z := 2147483647.
Definition INT32_MIN : Z := -2147483648.

(** On x86-64 a plain [char] is signed: reading a byte [b] through a
    [char*] and promoting it to [int] gives [schar b]. *)
Definition schar (b : Z) : Z := if b <? 128 then b else b - 256.

(** The [int] value of a C truth value. *)
Definition b2z (b : bool) : Z := if b then 1 else 0.

Lemma wrapu_range w x : 0 <= w -> 0 <= wrapu w x < 2 ^ w.
Proof. intros. apply Z.mod_pos_bound. lia. Qed.

Lemma wrapu_id w x : 0 <= x < 2 ^ w -> wrapu w x = x.
Proof. apply Z.mod_small. Qed.

Lemma wraps_range w x : 0 < w -> - 2 ^ (w - 1) <= wraps w x < 2 ^ (w - 1).
Proof.
  intros Hw. unfold wraps.
  assert (2 ^ w = 2 * 2 ^ (w - 1)) by (rewrite <- Z.pow_succ_r by lia; f_equal; lia).
  pose proof (Z.mod_pos_bound (x + 2 ^ (w - 1)) (2 ^ w)). lia.
Qed.

Lemma wraps_id w x : 0 < w -> - 2 ^ (w - 1) <= x < 2 ^ (w - 1) -> wraps w x = x.
Proof.
  intros Hw Hx. unfold wraps.
  assert (2 ^ w = 2 * 2 ^ (w - 1)) by (rewrite <- Z.pow_succ_r by lia; f_equal; lia).
  rewrite Z.mod_small; lia.
Qed.

Lemma pow_testbit k j : 0 <= k -> 0 <= j -> Z.testbit (2 ^ k) j = bool_decide (k = j).
Proof.
  intros. case_bool_decide; [subst j; by apply Z.pow2_bits_true|by apply Z.pow2_bits_false].
Qed.

Lemma u64_id x : 0 <= x <= UINT64_MAX -> u64 x = x.
Proof. unfold UINT64_MAX. intros. apply wrapu_id. lia. Qed.
Lemma u32_id x : 0 <= x < 4294967296 -> u32 x = x.
Proof. intros. apply wrapu_id. lia. Qed.
Lemma u8_id x : 0 <= x < 256 -> u8 x = x.
Proof. intros. apply wrapu_id. lia. Qed.
Lemma i64_id x : INT64_MIN <= x <= INT64_MAX -> i64 x = x.
Proof. unfold INT64_MIN, INT64_MAX. intros. apply wraps_id; lia. Qed.
Lemma i32_id x : INT32_MIN <= x <= INT32_MAX -> i32 x = x.
Proof. unfold INT32_MIN, INT32_MAX. intros. apply wraps_id; lia. Qed.

Lemma u64_range x : 0 <= u64 x <= UINT64_MAX.
Proof. pose proof (wrapu_range 64 x). unfold u64, UINT64_MAX. lia. Qed.

(** Masking off the low four bits rounds down to a multiple of 16. *)
Lemma land_mask_16 x : 0 <= x < 2 ^ 64 -> Z.land x (UINT64_MAX - 15) = x / 16 * 16.
Proof.
  intros Hx. change (UINT64_MAX - 15) with (Z.shiftl (Z.ones 60) 4).
  change (x / 16) with (x / 2 ^ 4). rewrite <- Z.shiftr_div_pow2 by lia.
  change 16 with (2 ^ 4). rewrite <- Z.shiftl_mul_pow2 by lia.
  apply Z.bits_inj'. intros i Hi. rewrite Z.land_spec, !Z.shiftl_spec by done.
  destruct (Z.ltb_spec i 4).
  - rewrite !(Z.testbit_neg_r _ (i - 4)) by lia. by rewrite andb_false_r.
  - rewrite Z.shiftr_spec by lia. replace (i - 4 + 4) with i by lia.
    destruct (Z.ltb_spec i 64).
    + rewrite Z.ones_spec_low by lia. by rewrite andb_true_r.
    + rewrite (Z.bits_above_log2 x i); [done|lia|].
      destruct (decide (x = 0)) as [->|]; [simpl; lia|]. apply Z.log2_lt_pow2; [lia|].
      assert (2 ^ 64 <= 2 ^ i) by (apply Z.pow_le_mono_r; lia). lia.
Qed.

Lemma schar_inj a b : 0 <= a < 256 -> 0 <= b < 256 -> schar a = schar b -> a = b.
Proof. unfold schar. repeat case_match; lia. Qed.

Lemma schar_zero b : 0 <= b < 256 -> (schar b = 0 <-> b = 0).
Proof. unfold schar. case_match; lia. Qed.

Lemma u8_schar b : 0 <= b < 256 -> u8 (schar b) = b.
Proof.
  intros. unfold schar. destruct (Z.ltb_spec b 128); [rewrite u8_id; lia|].
  unfold u8, wrapu. rewrite <- (Z.mod_add _ 1) by lia. rewrite Z.mod_small; lia.
Qed.

(** ** A state monad with undefined behaviour and fuel

    [M S A] is a C computation over the state [S]. [Undef] is undefined
    behaviour (an access outside mapped memory, for instance) and [NoFuel]
    says that a loop was cut off: a theorem that a run is [Done] excludes both. *)

Inductive outcome (S A : Type) : Type :=
| Done (a : A) (s : S)
| Undef
| NoFuel.
Arguments Done {S A} a s.
Arguments Undef {S A}.
Arguments NoFuel {S A}.

Definition M (S A : Type) : Type := S -> outcome S A.

#[global] Instance M_ret (S : Type) : MRet (M S) := fun A a s => Done a s.
#[global] Instance M_bind (S : Type) : MBind (M S) := fun A B k c s =>
  match c s with
  | Done a s' => k a s'
  | Undef => Undef
  | NoFuel => NoFuel
  end.

Definition get {S} : M S S := fun s => Done s s.
Definition put {S} (s : S) : M S unit := fun _ => Done tt s.
Definition gets {S A} (f : S -> A) : M S A := fun s => Done (f s) s.
Definition modify {S} (f : S -> S) : M S unit := fun s => Done tt (f s).
Definition undefined {S A} : M S A := fun _ => Undef.

(** [if (c) m;] *)
Definition when {S} (c : bool) (m : M S unit) : M S unit := if c then m else mret tt.

(** A C loop: the body either continues with new locals ([inl]) or leaves the
    loop with a result ([inr]: [break], [return] or the exit of the test). *)
Fixpoint while {S X R : Type} (fuel : nat) (body : X -> M S (X + R)) (x : X) : M S R :=
  match fuel with
  | O => fun _ => NoFuel
  | Datatypes.S fuel' => fun s =>
      match body x s with
      | Done (inl x') s' => while fuel' body x' s'
      | Done (inr r) s' => Done r s'
      | Undef => Undef
      | NoFuel => NoFuel
      end
  end.

(** A C [for (i = 0; i < n; i++)] over a known range. *)
Fixpoint for_each {S A : Type} (l : list A) (body : A -> M S unit) : M S unit :=
  match l with
  | [] => mret tt
  | a :: l' => _ ← body a; for_each l' body
  end.

(** Running a computation on a component of a larger state. *)
Definition zoom {S T A} (get : T -> S) (set : S -> T -> T) (c : M S A) : M T A := fun t =>
  match c (get t) with
  | Done a s => Done a (set s t)
  | Undef => Undef
  | NoFuel => NoFuel
  end.

(** ** Total-correctness weakest preconditions *)

Definition wp {S A} (c : M S A) (Q : A -> S -> Prop) (s : S) : Prop :=
  match c s with
  | Done a s' => Q a s'
  | Undef | NoFuel => False
  end.

Section wp_rules.
Context {S : Type}.
Implicit Types (s : S).

Lemma wp_ret {A} (a : A) (Q : A -> S -> Prop) s : Q a s -> wp (mret a) Q s.
Proof. done. Qed.

Lemma wp_bind {A B} (c : M S A) (k : A -> M S B) Q s :
  wp c (fun a => wp (k a) Q) s -> wp (c ≫= k) Q s.
Proof. unfold wp, mbind, M_bind. by destruct (c s). Qed.

Lemma wp_mono {A} (c : M S A) (P Q : A -> S -> Prop) s :
  wp c P s -> (forall a s', P a s' -> Q a s') -> wp c Q s.
Proof. unfold wp. destruct (c s); eauto. Qed.

Lemma wp_done {A} (c : M S A) Q s :
  wp c Q s <-> exists a s', c s = Done a s' /\ Q a s'.
Proof.
  unfold wp. destruct (c s); split; try done; try (by intros (? & ? & ? & ?)).
  - eauto.
  - intros (? & ? & [= -> ->] & ?); done.
Qed.

(** The loop rule: an invariant indexed by a decreasing measure, so that the
    conclusion is that the loop ends and not only that it is right if it ends. *)
Lemma wp_while {X R} (I : nat -> X -> S -> Prop) (body : X -> M S (X + R)) (Q : R -> S -> Prop) :
  (forall n x s, I n x s ->
    wp (body x) (fun r s' => match r with
                             | inl x' => exists n', (n' < n)%nat /\ I n' x' s'
                             | inr r => Q r s'
                             end) s) ->
  forall fuel n x s, (n < fuel)%nat -> I n x s -> wp (while fuel body x) Q s.
Proof.
  intros Hbody fuel. induction fuel as [|fuel IH]; intros n x s Hlt HI; [lia|].
  specialize (Hbody n x s HI). unfold wp in *. simpl.
  destruct (body x s) as [[x'|r] s'| |]; try done.
  destruct Hbody as (n' & ? & ?). eapply (IH n'); [lia|done].
Qed.
End wp_rules.

Lemma while_S {S X R} fuel (body : X -> M S (X + R)) x s :
  while (Datatypes.S fuel) body x s =
  match body x s with
  | Done (inl x') s' => while fuel body x' s'
  | Done (inr r) s' => Done r s'
  | Undef => Undef
  | NoFuel => NoFuel
  end.
Proof. reflexivity. Qed.

Lemma bind_done {S A B} (c : M S A) (k : A -> M S B) s a s' :
  c s = Done a s' -> (c ≫= k) s = k a s'.
Proof. unfold mbind, M_bind. by intros ->. Qed.

Lemma bind_run {S A B} (c : M S A) (k : A -> M S B) s :
  (c ≫= k) s = match c s with
               | Done a s' => k a s'
               | Undef => Undef
               | NoFuel => NoFuel
               end.
Proof. reflexivity. Qed.

Lemma ret_run {S A} (a : A) (s : S) : (mret a : M S A) s = Done a s.
Proof. reflexivity. Qed.

Lemma for_each_app {S A} (l l' : list A) (f : A -> M S unit) s s' :
  for_each l f s = Done tt s' -> for_each (l ++ l') f s = for_each l' f s'.
Proof.
  revert s. induction l as [|y l IH]; intros s H; cbn in *; [by injection H as ->|].
  rewrite bind_run in *. destruct (f y s) as [[] ?| |]; try done. eauto.
Qed.

Lemma for_each_snoc {S A} (l : list A) (f : A -> M S unit) x s s' s'' :
  for_each l f s = Done tt s' -> f x s' = Done tt s'' -> for_each (l ++ [x]) f s = Done tt s''.
Proof.
  intros H1 H2. rewrite (for_each_app _ _ _ _ _ H1). cbn. by rewrite bind_run, H2.
Qed.

(** Symbolic execution of a monadic program applied to its state. *)
Ltac mstep :=
  repeat first
    [ rewrite bind_run
    | rewrite ret_run
    | rewrite Z.eqb_refl
    | progress change (negb true) with false
    | progress change (negb false) with true
    | rewrite andb_true_l | rewrite andb_false_l | rewrite orb_true_l | rewrite orb_false_l
    | progress cbn beta iota zeta delta [get put gets modify when zoom fst snd] ].

(** ** Fuel *)

(** A call returns when it does so with all large enough fuel. *)
Definition returns {S A} (c : nat -> M S A) (h : S) (a : A) (h' : S) : Prop :=
  exists f0, forall f, (f0 <= f)%nat -> c f h = Done a h'.

Lemma returns_at {S A} (c : nat -> M S A) h a h' f1 :
  returns c h a h' -> exists f, (f1 <= f)%nat /\ c f h = Done a h'.
Proof. intros [f0 H]. exists (f0 + f1)%nat. split; [lia|]. apply H. lia. Qed.

(** More fuel changes nothing. *)

Definition mono {S A} (c : nat -> M S A) : Prop :=
  forall f f' s a s', (f <= f')%nat -> c f s = Done a s' -> c f' s = Done a s'.

Lemma mono_const {S A} (c : M S A) : mono (fun _ => c).
Proof. by intros f f' s a s' _. Qed.

Lemma mono_bind {S A B} (c : nat -> M S A) (g : nat -> A -> M S B) :
  mono c -> (forall a, mono (fun f => g f a)) -> mono (fun f => c f ≫= g f).
Proof.
  intros Hc Hg f f' s a s' Hf. unfold mbind, M_bind. destruct (c f s) as [b s1| |] eqn:E; [|done..].
  rewrite (Hc _ f' _ _ _ Hf E). by apply Hg.
Qed.

Lemma mono_while {S X R} (body : X -> M S (X + R)) x : mono (fun f => while f body x).
Proof.
  intros f. revert x. induction f as [|f IH]; intros x f' s a s' Hf; [done|].
  destruct f' as [|f']; [lia|]. rewrite !while_S. destruct (body x s) as [[x'|r] s1| |]; try done.
  apply IH. lia.
Qed.

(** The body of a loop may have loops of its own. *)
Lemma mono_while_body {S X R} (body : nat -> X -> M S (X + R)) x :
  (forall y, mono (fun f => body f y)) -> mono (fun f => while f (body f) x).
Proof.
  intros Hb f f' s a s' Hf.
  enough (forall g g' x s a s', (g <= g')%nat -> while g (body f) x s = Done a s' -> while g' (body f') x s = Done a s') as H
    by (by apply H).
  clear x s a s'. induction g as [|g IH]; intros g' x s a s' Hg; [done|].
  destruct g' as [|g']; [lia|]. rewrite !while_S. destruct (body f x s) as [[x'|r] s1| |] eqn:E; try done;
    rewrite (Hb _ _ _ _ _ _ Hf E); [|done]. apply IH. lia.
Qed.

Lemma mono_if {S A} (b : bool) (c d : nat -> M S A) :
  mono c -> mono d -> mono (fun f => if b then c f else d f).
Proof. by destruct b. Qed.

Lemma mono_returns {S A} (c : nat -> M S A) f h a h' : mono c -> c f h = Done a h' -> returns c h a h'.
Proof. intros Hc R. exists f. intros f' Hf. by eapply Hc. Qed.

Lemma returns_det {S A} (c : nat -> M S A) h a h' b h'' : returns c h a h' -> returns c h b h'' -> a = b /\ h' = h''.
Proof.
  intros [f0 H] [f1 H1]. specialize (H (f0 + f1)%nat ltac:(lia)). specialize (H1 (f0 + f1)%nat ltac:(lia)).
  rewrite H in H1. by injection H1.
Qed.


(** [lia] after beta-reducing hypotheses ([Forall] predicates). *)
Ltac blia := cbn beta in *; lia.

(** ** Generic lemmas *)

Lemma lookup_cons_0 {A} (x : A) l : (x :: l) !! 0%nat = Some x.
Proof. done. Qed.

(** Evaluates the comparisons between constants. *)
Ltac zconst :=
  repeat match goal with
  | |- context [Z.eqb ?a ?b] =>
      let x := constr:(Z.eqb a b) in let v := eval vm_compute in x in
      lazymatch v with true => idtac | false => idtac end; change x with v
  | |- context [Z.leb ?a ?b] =>
      let x := constr:(Z.leb a b) in let v := eval vm_compute in x in
      lazymatch v with true => idtac | false => idtac end; change x with v
  | |- context [Z.ltb ?a ?b] =>
      let x := constr:(Z.ltb a b) in let v := eval vm_compute in x in
      lazymatch v with true => idtac | false => idtac end; change x with v
  end.

Ltac zcase :=
  match goal with
  | |- context [?a =? ?b] => destruct (Z.eqb_spec a b)
  | |- context [?a <? ?b] => destruct (Z.ltb_spec a b)
  | |- context [?a <=? ?b] => destruct (Z.leb_spec a b)
  | |- context [?a >=? ?b] => rewrite (Z.geb_leb a b); destruct (Z.leb_spec b a)
  | |- context [?a >? ?b] => rewrite (Z.gtb_ltb a b); destruct (Z.ltb_spec b a)
  end.
