(* ===== verification/Memory.v ===== *)
(** * Byte-addressed memory

    Pointers are addresses in [Z]; memory maps the addresses of live objects to
    bytes in [0, 255]. Reading or writing an address that is not mapped is
    undefined behaviour. *)

From stdpp Require Import base tactics list gmap numbers strings.
From Stdlib Require Import ZArith Lia.
From S2P Require Import Prelude.

Abbreviation mem := (gmap Z Z).

Definition NULL : Z := 0.

(** ** Accesses *)

Definition load8 (p : Z) : M mem Z := fun m =>
  match m !! p with Some b => Done b m | None => Undef end.

Definition store8 (p v : Z) : M mem unit := fun m =>
  match m !! p with Some _ => Done tt (<[p := u8 v]> m) | None => Undef end.

(** A little-endian load of [n] bytes, as the CPU does it for [*w]. *)
Fixpoint loadn (n : nat) (p : Z) : M mem Z :=
  match n with
  | O => mret 0
  | S n' => b ← load8 p; r ← loadn n' (p + 1); mret (b + 256 * r)
  end.

(** A little-endian store of the low [n] bytes of [v]. *)
Fixpoint storen (n : nat) (p v : Z) : M mem unit :=
  match n with
  | O => mret tt
  | S n' => _ ← store8 p v; storen n' (p + 1) (v / 256)
  end.

(** ** What memory holds *)

(** [arr m p bs]: the bytes [bs] are at [p], [p+1], ... *)
Fixpoint arr (m : mem) (p : Z) (bs : list Z) : Prop :=
  match bs with
  | [] => True
  | b :: r => m !! p = Some b /\ arr m (p + 1) r
  end.

(** [cstr m p bs]: a NUL-terminated C string with the characters [bs] is at [p]. *)
Fixpoint cstr (m : mem) (p : Z) (bs : list Z) : Prop :=
  match bs with
  | [] => m !! p = Some 0
  | b :: r => m !! p = Some b /\ 0 < b < 256 /\ cstr m (p + 1) r
  end.

(** [wr m p bs]: memory after the bytes [bs] were written at [p]. *)
Fixpoint wr (m : mem) (p : Z) (bs : list Z) : mem :=
  match bs with
  | [] => m
  | b :: r => wr (<[p := b]> m) (p + 1) r
  end.

(** [mapped m p n]: the [n] bytes from [p] are part of a live object. *)
Definition mapped (m : mem) (p n : Z) : Prop :=
  forall a, p <= a < p + n -> is_Some (m !! a).

(** The bytes of a range are bytes. *)
Definition bytes (bs : list Z) : Prop := Forall (fun b => 0 <= b < 256) bs.

Abbreviation zlen l := (Z.of_nat (length l)).

(** ** Lemmas *)

Lemma load8_some m p b : m !! p = Some b -> load8 p m = Done b m.
Proof. unfold load8. by intros ->. Qed.

Lemma store8_some m p v : is_Some (m !! p) -> store8 p v m = Done tt (<[p := u8 v]> m).
Proof. unfold store8. by intros [? ->]. Qed.

Lemma arr_app m p l1 l2 : arr m p (l1 ++ l2) <-> arr m p l1 /\ arr m (p + zlen l1) l2.
Proof.
  revert p. induction l1 as [|b l1 IH]; intros p; simpl.
  - rewrite Z.add_0_r. tauto.
  - rewrite IH. replace (p + 1 + zlen l1) with (p + Z.of_nat (S (length l1))) by lia. tauto.
Qed.

Lemma arr_lookup m p bs i b :
  arr m p bs -> bs !! i = Some b -> m !! (p + Z.of_nat i) = Some b.
Proof.
  revert p i. induction bs as [|x bs IH]; intros p i; simpl; [by rewrite lookup_nil|].
  intros [H1 H2]. destruct i as [|i]; simpl.
  - intros [= ->]. by rewrite Z.add_0_r.
  - intros Hi. replace (p + Z.of_nat (S i)) with (p + 1 + Z.of_nat i) by lia. eauto.
Qed.

Lemma arr_intro m p bs :
  (forall i b, bs !! i = Some b -> m !! (p + Z.of_nat i) = Some b) -> arr m p bs.
Proof.
  revert p. induction bs as [|x bs IH]; intros p H; simpl; [done|]. split.
  - specialize (H 0%nat x eq_refl). by rewrite Z.add_0_r in H.
  - apply IH. intros i b Hi. specialize (H (S i) b Hi).
    by replace (p + 1 + Z.of_nat i) with (p + Z.of_nat (S i)) by lia.
Qed.

Lemma cstr_arr m p bs :
  cstr m p bs <-> arr m p (bs ++ [0]) /\ Forall (fun b => 0 < b < 256) bs.
Proof.
  revert p. induction bs as [|b bs IH]; intros p; simpl.
  - split; [intros; split_and!; done | intros [[? ?] ?]; done].
  - rewrite IH, Forall_cons. tauto.
Qed.

Lemma arr_mapped m p bs : arr m p bs -> mapped m p (zlen bs).
Proof.
  intros H a Ha.
  destruct (lookup_lt_is_Some_2 bs (Z.to_nat (a - p))) as [b Hb]; [lia|].
  exists b. replace a with (p + Z.of_nat (Z.to_nat (a - p))) by lia. by eapply arr_lookup.
Qed.

Lemma cstr_mapped m p bs : cstr m p bs -> mapped m p (zlen bs + 1).
Proof.
  rewrite cstr_arr. intros [H _]. apply arr_mapped in H.
  rewrite length_app in H. simpl in H. intros a Ha. apply H. lia.
Qed.

Lemma lookup_wr m p bs a :
  wr m p bs !! a =
  if decide (p <= a < p + zlen bs) then bs !! Z.to_nat (a - p) else m !! a.
Proof.
  revert m p. induction bs as [|b bs IH]; intros m p; simpl.
  - case_decide; [lia|done].
  - rewrite IH. destruct (decide (a = p)) as [->|Hne].
    + rewrite decide_False by lia. rewrite decide_True by lia.
      rewrite lookup_insert_eq. by replace (Z.to_nat (p - p)) with 0%nat by lia.
    + destruct (decide (p + 1 <= a < p + 1 + zlen bs)).
      * rewrite decide_True by lia.
        by replace (Z.to_nat (a - p)) with (S (Z.to_nat (a - (p + 1)))) by lia.
      * rewrite decide_False by lia. by rewrite lookup_insert_ne.
Qed.

Lemma lookup_wr_out m p bs a : ~ (p <= a < p + zlen bs) -> wr m p bs !! a = m !! a.
Proof. intros. rewrite lookup_wr. by case_decide. Qed.

Lemma wr_arr m p bs : arr (wr m p bs) p bs.
Proof.
  apply arr_intro. intros i b Hi. apply lookup_lt_Some in Hi as Hl.
  rewrite lookup_wr, decide_True by lia.
  by replace (Z.to_nat (p + Z.of_nat i - p)) with i by lia.
Qed.

Lemma wr_app m p l1 l2 : wr m p (l1 ++ l2) = wr (wr m p l1) (p + zlen l1) l2.
Proof.
  revert m p. induction l1 as [|b l1 IH]; intros m p; simpl.
  - by rewrite Z.add_0_r.
  - rewrite IH. f_equal. lia.
Qed.

Lemma wr_mapped m p bs a n : mapped m a n -> mapped (wr m p bs) a n.
Proof.
  intros H x Hx. rewrite lookup_wr. case_decide; [|by apply H].
  apply lookup_lt_is_Some_2. lia.
Qed.

Lemma insert_mapped m p b a n : mapped m a n -> mapped (<[p := b]> m) a n.
Proof.
  intros H x Hx. destruct (decide (x = p)) as [->|].
  - rewrite lookup_insert_eq. eauto.
  - rewrite lookup_insert_ne by done. by apply H.
Qed.

Lemma arr_insert_out m p bs a b :
  ~ (p <= a < p + zlen bs) -> arr m p bs -> arr (<[a := b]> m) p bs.
Proof.
  intros Ha H. apply arr_intro. intros i x Hi. apply lookup_lt_Some in Hi as Hl.
  rewrite lookup_insert_ne by lia. by eapply arr_lookup.
Qed.

Lemma arr_wr_out m p bs q cs :
  (p + zlen bs <= q \/ q + zlen cs <= p) -> arr m p bs -> arr (wr m q cs) p bs.
Proof.
  intros Hd H. apply arr_intro. intros i x Hi. apply lookup_lt_Some in Hi as Hl.
  rewrite lookup_wr_out by lia. by eapply arr_lookup.
Qed.

Lemma cstr_wr_out m p bs q cs :
  (p + zlen bs + 1 <= q \/ q + zlen cs <= p) -> cstr m p bs -> cstr (wr m q cs) p bs.
Proof.
  rewrite !cstr_arr. intros Hd [H ?]. split; [|done]. apply arr_wr_out; [|done].
  rewrite length_app. simpl. lia.
Qed.

Lemma cstr_wr m p bs :
  Forall (fun b => 0 < b < 256) bs -> cstr (wr m p (bs ++ [0])) p bs.
Proof. intros. rewrite cstr_arr. split; [apply wr_arr|done]. Qed.

(** The character at offset [i] of a string, its terminator included. *)
Lemma cstr_char m p bs i :
  cstr m p bs -> 0 <= i <= zlen bs ->
  exists b, m !! (p + i) = Some b /\ (bs ++ [0]) !! Z.to_nat i = Some b /\ 0 <= b < 256.
Proof.
  rewrite cstr_arr. intros [Ha Hb] Hi.
  destruct (lookup_lt_is_Some_2 (bs ++ [0]) (Z.to_nat i)) as [b H].
  { rewrite length_app. simpl. lia. }
  exists b. split_and!; try done.
  - replace i with (Z.of_nat (Z.to_nat i)) at 1 by lia. by eapply arr_lookup.
  - apply lookup_app_Some in H as [H|[_ H]].
    + eapply Forall_lookup in Hb; eauto. lia.
    + apply list_lookup_singleton_Some in H. lia.
  - apply lookup_app_Some in H as [H|[_ H]].
    + eapply Forall_lookup in Hb; eauto. lia.
    + apply list_lookup_singleton_Some in H. lia.
Qed.

(** ** Little-endian words *)

Fixpoint le_bytes (bs : list Z) : Z :=
  match bs with
  | [] => 0
  | b :: r => b + 256 * le_bytes r
  end.

Lemma loadn_arr m p bs :
  arr m p bs -> loadn (length bs) p m = Done (le_bytes bs) m.
Proof.
  revert p. induction bs as [|b bs IH]; intros p; simpl; [done|].
  intros [H1 H2]. mstep. rewrite (load8_some _ _ _ H1). mstep. by rewrite IH.
Qed.

(** The low [n] bytes of [v], least significant first. *)
Fixpoint to_le (n : nat) (v : Z) : list Z :=
  match n with
  | O => []
  | S n' => u8 v :: to_le n' (v / 256)
  end.

Lemma length_to_le n v : length (to_le n v) = n.
Proof. revert v. induction n; intros v; simpl; congruence. Qed.

Lemma storen_run n p v m :
  mapped m p (Z.of_nat n) -> storen n p v m = Done tt (wr m p (to_le n v)).
Proof.
  revert p v m. induction n as [|n IH]; intros p v m Hm; simpl; [done|]. mstep.
  rewrite store8_some by (apply Hm; lia). apply IH. apply insert_mapped. intros a Ha. apply Hm. lia.
Qed.

Lemma le_bytes_to_le n v : le_bytes (to_le n v) = v mod 256 ^ Z.of_nat n.
Proof.
  revert v. induction n as [|n IH]; intros v; [by rewrite Z.mod_1_r|].
  simpl to_le. simpl le_bytes. rewrite IH.
  replace (Z.of_nat (S n)) with (Z.succ (Z.of_nat n)) by lia. rewrite Z.pow_succ_r by lia.
  rewrite Z.rem_mul_r by lia. done.
Qed.

(** ** Building concrete memories, for witnesses *)

Definition mem_of (p : Z) (bs : list Z) : mem := wr ∅ p bs.

(** A range of a concrete memory is mapped: checked by evaluation. *)
Lemma mapped_check m p n k :
  forallb (fun i => match m !! (p + Z.of_nat i) with Some _ => true | None => false end) (seq 0 n) = true ->
  k <= Z.of_nat n -> mapped m p k.
Proof.
  rewrite forallb_forall. intros H Hk a Ha. specialize (H (Z.to_nat (a - p))).
  replace (p + Z.of_nat (Z.to_nat (a - p))) with a in H by lia.
  destruct (m !! a); [eauto|]. discriminate H. apply in_seq. lia.
Qed.

Create HintDb cmem.
#[export] Hint Resolve wr_mapped insert_mapped arr_mapped : cmem.
