(* ===== verification/Slices.v ===== *)
(** * Parts of arrays

    [slice] reads a part of an array of bytes and [splice] overwrites one. Disks,
    files and ring buffers are described with them. *)

From Stdlib Require Import ZArith Lia.
From stdpp Require Import base tactics gmap numbers list.
From S2P Require Import Prelude.
From S2P Require Import Memory.

Definition slice (p n : Z) (l : list Z) : list Z := take (Z.to_nat n) (drop (Z.to_nat p) l).
Definition splice (p : Z) (x l : list Z) : list Z := take (Z.to_nat p) l ++ x ++ drop (Z.to_nat (p + zlen x)) l.

Lemma slice_length p n l : 0 <= p -> 0 <= n -> p + n <= zlen l -> zlen (slice p n l) = n.
Proof. intros. unfold slice. rewrite length_take, length_drop. lia. Qed.

Lemma splice_length p x l : 0 <= p -> p + zlen x <= zlen l -> length (splice p x l) = length l.
Proof. intros. unfold splice. rewrite !length_app, length_take, length_drop. lia. Qed.

Lemma splice_lookup p x l i :
  0 <= p -> p + zlen x <= zlen l ->
  splice p x l !! i = if decide (p <= Z.of_nat i < p + zlen x) then x !! Z.to_nat (Z.of_nat i - p) else l !! i.
Proof.
  intros Hp Hl. unfold splice. case_decide as Hd.
  - rewrite lookup_app_r by (rewrite length_take; lia). rewrite lookup_app_l by (rewrite length_take; lia).
    f_equal. rewrite length_take. lia.
  - destruct (decide (Z.of_nat i < p)).
    + rewrite lookup_app_l by (rewrite length_take; lia). apply lookup_take_lt. lia.
    + rewrite !lookup_app_r by (rewrite ?length_take; lia). rewrite lookup_drop. f_equal. rewrite length_take. lia.
Qed.

Lemma slice_lookup p n l i : 0 <= p -> slice p n l !! i = if decide (Z.of_nat i < n) then l !! Z.to_nat (p + Z.of_nat i) else None.
Proof.
  intros Hp. unfold slice. case_decide as Hd.
  - rewrite lookup_take_lt, lookup_drop by lia. f_equal. lia.
  - apply lookup_take_ge. lia.
Qed.

(** A part of a part. *)
Lemma slice_slice p n q m l : 0 <= p -> 0 <= q -> 0 <= m -> q + m <= n -> slice q m (slice p n l) = slice (p + q) m l.
Proof.
  intros. apply list_eq. intros i. rewrite !slice_lookup by lia. case_decide; [|done].
  rewrite decide_True by lia. f_equal. lia.
Qed.

Lemma slice_splice_out p x l q n :
  0 <= p -> p + zlen x <= zlen l -> 0 <= q -> (q + n <= p \/ p + zlen x <= q) -> slice q n (splice p x l) = slice q n l.
Proof.
  intros. apply list_eq. intros i. rewrite !slice_lookup by lia. case_decide; [|done].
  rewrite splice_lookup by lia. rewrite decide_False by lia. done.
Qed.

Lemma slice_splice_same p x l : 0 <= p -> p + zlen x <= zlen l -> slice p (zlen x) (splice p x l) = x.
Proof.
  intros. apply list_eq. intros i. rewrite slice_lookup by lia. case_decide as Hd.
  - rewrite splice_lookup by lia. rewrite decide_True by lia. f_equal. lia.
  - symmetry. apply lookup_ge_None. lia.
Qed.

(** Writing into a part and putting the part back. *)
Lemma splice_slice p n q x l :
  0 <= p -> 0 <= q -> q + zlen x <= n -> p + n <= zlen l -> splice p (splice q x (slice p n l)) l = splice (p + q) x l.
Proof.
  intros Hp Hq Hx Hl. assert (zlen (slice p n l) = n) as Hs by (apply slice_length; lia).
  assert (length (splice q x (slice p n l)) = length (slice p n l)) as Hs2 by (apply splice_length; lia).
  apply list_eq. intros i. rewrite !splice_lookup by lia. rewrite Hs2, Hs.
  repeat case_decide; try lia; try done.
  - f_equal. lia.
  - rewrite slice_lookup, decide_True by lia. f_equal. lia.
Qed.

Lemma slice_app p n m l : 0 <= p -> 0 <= n -> 0 <= m -> slice p n l ++ slice (p + n) m l = slice p (n + m) l.
Proof.
  intros. unfold slice. replace (Z.to_nat (n + m)) with (Z.to_nat n + Z.to_nat m)%nat by lia.
  replace (Z.to_nat (p + n)) with (Z.to_nat p + Z.to_nat n)%nat by lia. by rewrite <- drop_drop, take_take_drop.
Qed.

Lemma slice_nil p l : slice p 0 l = [].
Proof. done. Qed.

Lemma slice_all l : slice 0 (zlen l) l = l.
Proof. unfold slice. rewrite Nat2Z.id. by rewrite take_ge. Qed.

Lemma slice_left p n l1 l2 : 0 <= p -> 0 <= n -> p + n <= zlen l1 -> slice p n (l1 ++ l2) = slice p n l1.
Proof. intros. apply list_eq. intros i. rewrite !slice_lookup by lia. case_decide; [|done]. rewrite lookup_app_l by lia. done. Qed.

Lemma slice_right p n l1 l2 : zlen l1 <= p -> slice p n (l1 ++ l2) = slice (p - zlen l1) n l2.
Proof.
  intros. apply list_eq. intros i. rewrite !slice_lookup by lia. case_decide; [|done]. rewrite lookup_app_r by lia. f_equal. lia.
Qed.

(** Up to the end of the first part, and on. *)
Lemma slice_across p n l1 l2 :
  0 <= p <= zlen l1 -> zlen l1 - p <= n -> slice p n (l1 ++ l2) = slice p (zlen l1 - p) l1 ++ slice 0 (n - (zlen l1 - p)) l2.
Proof.
  intros. replace n with ((zlen l1 - p) + (n - (zlen l1 - p))) at 1 by lia. rewrite <- slice_app by lia.
  rewrite slice_left, slice_right by lia. do 2 f_equal. lia.
Qed.

Lemma splice_left p x l1 l2 : 0 <= p -> p + zlen x <= zlen l1 -> splice p x (l1 ++ l2) = splice p x l1 ++ l2.
Proof.
  intros Hp Hl. unfold splice. rewrite take_app_le by lia. rewrite drop_app_le by lia. by rewrite <- !app_assoc.
Qed.

Lemma splice_across p x y l1 l2 :
  0 <= p -> p + zlen x = zlen l1 -> splice p (x ++ y) (l1 ++ l2) = splice p x l1 ++ splice 0 y l2.
Proof.
  intros Hp Hl. unfold splice. rewrite take_app_le by lia. rewrite (drop_ge l1) by lia. rewrite drop_app_ge by (rewrite length_app; lia).
  change (take (Z.to_nat 0) l2) with (@nil Z). rewrite app_nil_r, app_nil_l, <- !app_assoc. do 3 f_equal. rewrite length_app. f_equal. lia.
Qed.

Lemma splice_none p l : splice p [] l = l.
Proof. unfold splice. cbn. rewrite Z.add_0_r. by rewrite take_drop. Qed.

Lemma splice_right p x l1 l2 : zlen l1 <= p -> splice p x (l1 ++ l2) = l1 ++ splice (p - zlen l1) x l2.
Proof.
  intros Hp. unfold splice. rewrite take_app_ge, drop_app_ge by lia. rewrite <- app_assoc.
  by replace (Z.to_nat (p - zlen l1)) with (Z.to_nat p - length l1)%nat by lia;
    replace (Z.to_nat (p - zlen l1 + zlen x)) with (Z.to_nat (p + zlen x) - length l1)%nat by lia.
Qed.

(** Writing into a part that is then written back. *)
Lemma splice_splice p q x buf l :
  0 <= p -> 0 <= q -> q + zlen x <= zlen buf -> p + zlen buf <= zlen l ->
  splice p (splice q x buf) l = splice (p + q) x (splice p buf l).
Proof.
  intros Hp Hq Hx Hl. pose proof (splice_length q x buf Hq Hx) as Hs. pose proof (splice_length p buf l Hp Hl) as Hs2.
  apply list_eq. intros i. rewrite (splice_lookup p (splice q x buf)), (splice_lookup (p + q)), Hs by lia.
  repeat case_decide; try lia; rewrite ?splice_lookup by lia; repeat case_decide; try lia; try done; f_equal; lia.
Qed.

Lemma splice_slice_id p n l : 0 <= p -> 0 <= n -> p + n <= zlen l -> splice p (slice p n l) l = l.
Proof.
  intros Hp Hn Hl. pose proof (slice_length p n l Hp Hn Hl) as Hs. apply list_eq. intros i. rewrite splice_lookup by lia.
  case_decide; [|done]. rewrite slice_lookup, decide_True by lia. f_equal. lia.
Qed.

(** Replacing a part of the first [size] bytes, perhaps past their end. *)
Lemma splice_prefix (off size : Z) x l1 l2 :
  0 <= off <= size -> size <= zlen l1 -> off + zlen x <= zlen (l1 ++ l2) ->
  slice 0 (Z.max size (off + zlen x)) (splice off x (l1 ++ l2)) =
  take (Z.to_nat off) (slice 0 size l1) ++ x ++ drop (Z.to_nat (off + zlen x)) (slice 0 size l1).
Proof.
  intros Ho Hs Hl. assert (slice 0 size l1 = take (Z.to_nat size) (l1 ++ l2)) as -> by (unfold slice; cbn; by rewrite take_app_le by lia).
  set (l := l1 ++ l2) in *. unfold slice, splice. change (Z.to_nat 0) with 0%nat. rewrite drop_0, take_take, Nat.min_l by lia.
  rewrite (take_app_ge (take _ _)) by (rewrite length_take; lia). f_equal. rewrite take_app_ge by (rewrite length_take; lia). f_equal.
  rewrite length_take, skipn_firstn_comm. f_equal. lia.
Qed.
