(* ===== verification/Ctype.v ===== *)
(** * ctype.c and ctype.h: character classes

    The three 384-entry tables of [ctype.c], copied entry by entry, and the
    macros of [ctype.h] that index them with an offset of 128. *)

From stdpp Require Import base tactics list gmap numbers.
From Stdlib Require Import ZArith Lia.
From S2P Require Import Prelude.

Definition ctype_b : list Z :=
  [0; 0; 0; 0; 0; 0; 0; 0;
   0; 0; 0; 0; 0; 0; 0; 0;
   0; 0; 0; 0; 0; 0; 0; 0;
   0; 0; 0; 0; 0; 0; 0; 0;
   0; 0; 0; 0; 0; 0; 0; 0;
   0; 0; 0; 0; 0; 0; 0; 0;
   0; 0; 0; 0; 0; 0; 0; 0;
   0; 0; 0; 0; 0; 0; 0; 0;
   0; 0; 0; 0; 0; 0; 0; 0;
   0; 0; 0; 0; 0; 0; 0; 0;
   0; 0; 0; 0; 0; 0; 0; 0;
   0; 0; 0; 0; 0; 0; 0; 0;
   0; 0; 0; 0; 0; 0; 0; 0;
   0; 0; 0; 0; 0; 0; 0; 0;
   0; 0; 0; 0; 0; 0; 0; 0;
   0; 0; 0; 0; 0; 0; 0; 0;
   2; 2; 2; 2; 2; 2; 2; 2;
   2; 8195; 8194; 8194; 8194; 8194; 2; 2;
   2; 2; 2; 2; 2; 2; 2; 2;
   2; 2; 2; 2; 2; 2; 2; 2;
   24577; 49156; 49156; 49156; 49156; 49156; 49156; 49156;
   49156; 49156; 49156; 49156; 49156; 49156; 49156; 49156;
   55304; 55304; 55304; 55304; 55304; 55304; 55304; 55304;
   55304; 55304; 49156; 49156; 49156; 49156; 49156; 49156;
   49156; 54536; 54536; 54536; 54536; 54536; 54536; 50440;
   50440; 50440; 50440; 50440; 50440; 50440; 50440; 50440;
   50440; 50440; 50440; 50440; 50440; 50440; 50440; 50440;
   50440; 50440; 50440; 49156; 49156; 49156; 49156; 49156;
   49156; 54792; 54792; 54792; 54792; 54792; 54792; 50696;
   50696; 50696; 50696; 50696; 50696; 50696; 50696; 50696;
   50696; 50696; 50696; 50696; 50696; 50696; 50696; 50696;
   50696; 50696; 50696; 49156; 49156; 49156; 49156; 2;
   0; 0; 0; 0; 0; 0; 0; 0;
   0; 0; 0; 0; 0; 0; 0; 0;
   0; 0; 0; 0; 0; 0; 0; 0;
   0; 0; 0; 0; 0; 0; 0; 0;
   0; 0; 0; 0; 0; 0; 0; 0;
   0; 0; 0; 0; 0; 0; 0; 0;
   0; 0; 0; 0; 0; 0; 0; 0;
   0; 0; 0; 0; 0; 0; 0; 0;
   0; 0; 0; 0; 0; 0; 0; 0;
   0; 0; 0; 0; 0; 0; 0; 0;
   0; 0; 0; 0; 0; 0; 0; 0;
   0; 0; 0; 0; 0; 0; 0; 0;
   0; 0; 0; 0; 0; 0; 0; 0;
   0; 0; 0; 0; 0; 0; 0; 0;
   0; 0; 0; 0; 0; 0; 0; 0;
   0; 0; 0; 0; 0; 0; 0; 0].

Definition ctype_toupper : list Z :=
  [128; 129; 130; 131; 132; 133; 134; 135;
   136; 137; 138; 139; 140; 141; 142; 143;
   144; 145; 146; 147; 148; 149; 150; 151;
   152; 153; 154; 155; 156; 157; 158; 159;
   160; 161; 162; 163; 164; 165; 166; 167;
   168; 169; 170; 171; 172; 173; 174; 175;
   176; 177; 178; 179; 180; 181; 182; 183;
   184; 185; 186; 187; 188; 189; 190; 191;
   192; 193; 194; 195; 196; 197; 198; 199;
   200; 201; 202; 203; 204; 205; 206; 207;
   208; 209; 210; 211; 212; 213; 214; 215;
   216; 217; 218; 219; 220; 221; 222; 223;
   224; 225; 226; 227; 228; 229; 230; 231;
   232; 233; 234; 235; 236; 237; 238; 239;
   240; 241; 242; 243; 244; 245; 246; 247;
   248; 249; 250; 251; 252; 253; 254; 4294967295;
   0; 1; 2; 3; 4; 5; 6; 7;
   8; 9; 10; 11; 12; 13; 14; 15;
   16; 17; 18; 19; 20; 21; 22; 23;
   24; 25; 26; 27; 28; 29; 30; 31;
   32; 33; 34; 35; 36; 37; 38; 39;
   40; 41; 42; 43; 44; 45; 46; 47;
   48; 49; 50; 51; 52; 53; 54; 55;
   56; 57; 58; 59; 60; 61; 62; 63;
   64; 65; 66; 67; 68; 69; 70; 71;
   72; 73; 74; 75; 76; 77; 78; 79;
   80; 81; 82; 83; 84; 85; 86; 87;
   88; 89; 90; 91; 92; 93; 94; 95;
   96; 65; 66; 67; 68; 69; 70; 71;
   72; 73; 74; 75; 76; 77; 78; 79;
   80; 81; 82; 83; 84; 85; 86; 87;
   88; 89; 90; 123; 124; 125; 126; 127;
   128; 129; 130; 131; 132; 133; 134; 135;
   136; 137; 138; 139; 140; 141; 142; 143;
   144; 145; 146; 147; 148; 149; 150; 151;
   152; 153; 154; 155; 156; 157; 158; 159;
   160; 161; 162; 163; 164; 165; 166; 167;
   168; 169; 170; 171; 172; 173; 174; 175;
   176; 177; 178; 179; 180; 181; 182; 183;
   184; 185; 186; 187; 188; 189; 190; 191;
   192; 193; 194; 195; 196; 197; 198; 199;
   200; 201; 202; 203; 204; 205; 206; 207;
   208; 209; 210; 211; 212; 213; 214; 215;
   216; 217; 218; 219; 220; 221; 222; 223;
   224; 225; 226; 227; 228; 229; 230; 231;
   232; 233; 234; 235; 236; 237; 238; 239;
   240; 241; 242; 243; 244; 245; 246; 247;
   248; 249; 250; 251; 252; 253; 254; 255].

Definition ctype_tolower : list Z :=
  [128; 129; 130; 131; 132; 133; 134; 135;
   136; 137; 138; 139; 140; 141; 142; 143;
   144; 145; 146; 147; 148; 149; 150; 151;
   152; 153; 154; 155; 156; 157; 158; 159;
   160; 161; 162; 163; 164; 165; 166; 167;
   168; 169; 170; 171; 172; 173; 174; 175;
   176; 177; 178; 179; 180; 181; 182; 183;
   184; 185; 186; 187; 188; 189; 190; 191;
   192; 193; 194; 195; 196; 197; 198; 199;
   200; 201; 202; 203; 204; 205; 206; 207;
   208; 209; 210; 211; 212; 213; 214; 215;
   216; 217; 218; 219; 220; 221; 222; 223;
   224; 225; 226; 227; 228; 229; 230; 231;
   232; 233; 234; 235; 236; 237; 238; 239;
   240; 241; 242; 243; 244; 245; 246; 247;
   248; 249; 250; 251; 252; 253; 254; 4294967295;
   0; 1; 2; 3; 4; 5; 6; 7;
   8; 9; 10; 11; 12; 13; 14; 15;
   16; 17; 18; 19; 20; 21; 22; 23;
   24; 25; 26; 27; 28; 29; 30; 31;
   32; 33; 34; 35; 36; 37; 38; 39;
   40; 41; 42; 43; 44; 45; 46; 47;
   48; 49; 50; 51; 52; 53; 54; 55;
   56; 57; 58; 59; 60; 61; 62; 63;
   64; 97; 98; 99; 100; 101; 102; 103;
   104; 105; 106; 107; 108; 109; 110; 111;
   112; 113; 114; 115; 116; 117; 118; 119;
   120; 121; 122; 91; 92; 93; 94; 95;
   96; 97; 98; 99; 100; 101; 102; 103;
   104; 105; 106; 107; 108; 109; 110; 111;
   112; 113; 114; 115; 116; 117; 118; 119;
   120; 121; 122; 123; 124; 125; 126; 127;
   128; 129; 130; 131; 132; 133; 134; 135;
   136; 137; 138; 139; 140; 141; 142; 143;
   144; 145; 146; 147; 148; 149; 150; 151;
   152; 153; 154; 155; 156; 157; 158; 159;
   160; 161; 162; 163; 164; 165; 166; 167;
   168; 169; 170; 171; 172; 173; 174; 175;
   176; 177; 178; 179; 180; 181; 182; 183;
   184; 185; 186; 187; 188; 189; 190; 191;
   192; 193; 194; 195; 196; 197; 198; 199;
   200; 201; 202; 203; 204; 205; 206; 207;
   208; 209; 210; 211; 212; 213; 214; 215;
   216; 217; 218; 219; 220; 221; 222; 223;
   224; 225; 226; 227; 228; 229; 230; 231;
   232; 233; 234; 235; 236; 237; 238; 239;
   240; 241; 242; 243; 244; 245; 246; 247;
   248; 249; 250; 251; 252; 253; 254; 255].

(** [_ISbit]: the class bits on a little-endian machine. *)
Definition ISbit (bit : Z) : Z :=
  if bit <? 8 then Z.shiftl (Z.shiftl 1 bit) 8 else Z.shiftr (Z.shiftl 1 bit) 8.

Definition ISupper := ISbit 0.
Definition ISlower := ISbit 1.
Definition ISalpha := ISbit 2.
Definition ISdigit := ISbit 3.
Definition ISxdigit := ISbit 4.
Definition ISspace := ISbit 5.
Definition ISprint := ISbit 6.
Definition ISgraph := ISbit 7.
Definition ISblank := ISbit 8.
Definition IScntrl := ISbit 9.
Definition ISpunct := ISbit 10.
Definition ISalnum := ISbit 11.

(** [__ctype_b_loc()[(int)(c)] & (uint16_t)(type)]; an index outside the table
    is not a value of the macro's domain and reads as 0 here. *)
Definition tab_at (t : list Z) (c : Z) : Z := default 0 (t !! Z.to_nat (c + 128)).
Definition isctype (c type : Z) : Z := Z.land (tab_at ctype_b c) type.

Definition isalnum (c : Z) : bool := negb (isctype c ISalnum =? 0).
Definition isalpha (c : Z) : bool := negb (isctype c ISalpha =? 0).
Definition isblank (c : Z) : bool := negb (isctype c ISblank =? 0).
Definition iscntrl (c : Z) : bool := negb (isctype c IScntrl =? 0).
Definition isdigit (c : Z) : bool := negb (isctype c ISdigit =? 0).
Definition isgraph (c : Z) : bool := negb (isctype c ISgraph =? 0).
Definition islower (c : Z) : bool := negb (isctype c ISlower =? 0).
Definition isprint (c : Z) : bool := negb (isctype c ISprint =? 0).
Definition ispunct (c : Z) : bool := negb (isctype c ISpunct =? 0).
Definition isspace (c : Z) : bool := negb (isctype c ISspace =? 0).
Definition isupper (c : Z) : bool := negb (isctype c ISupper =? 0).
Definition isxdigit (c : Z) : bool := negb (isctype c ISxdigit =? 0).

Definition tolower (c : Z) : Z :=
  if (-128 <=? c) && (c <? 256) then tab_at ctype_tolower c else c.
Definition toupper (c : Z) : Z :=
  if (-128 <=? c) && (c <? 256) then tab_at ctype_toupper c else c.

(** ** The C-locale classes, from the standard's character ranges *)

Definition within (lo hi c : Z) : bool := (lo <=? c) && (c <=? hi).

Definition upper_ref (c : Z) : bool := within 65 90 c.
Definition lower_ref (c : Z) : bool := within 97 122 c.
Definition digit_ref (c : Z) : bool := within 48 57 c.
Definition xdigit_ref (c : Z) : bool := digit_ref c || within 65 70 c || within 97 102 c.
Definition space_ref (c : Z) : bool := (c =? 32) || within 9 13 c.
Definition blank_ref (c : Z) : bool := (c =? 32) || (c =? 9).
Definition cntrl_ref (c : Z) : bool := within 0 31 c || (c =? 127).
Definition graph_ref (c : Z) : bool := within 33 126 c.
Definition alnum_ref (c : Z) : bool := upper_ref c || lower_ref c || digit_ref c.

Definition classes_agree (c : Z) : bool :=
  Bool.eqb (isupper c) (upper_ref c) && Bool.eqb (islower c) (lower_ref c) &&
  Bool.eqb (isalpha c) (upper_ref c || lower_ref c) && Bool.eqb (isdigit c) (digit_ref c) &&
  Bool.eqb (isxdigit c) (xdigit_ref c) && Bool.eqb (isspace c) (space_ref c) &&
  Bool.eqb (isprint c) (graph_ref c || (c =? 32)) && Bool.eqb (isgraph c) (graph_ref c) &&
  Bool.eqb (isblank c) (blank_ref c) && Bool.eqb (iscntrl c) (cntrl_ref c) &&
  Bool.eqb (ispunct c) (graph_ref c && negb (alnum_ref c)) && Bool.eqb (isalnum c) (alnum_ref c).

Definition cases_agree (c : Z) : bool :=
  (tolower c =? if upper_ref c then c + 32 else c) &&
  (toupper c =? if lower_ref c then c - 32 else c).

(** Facts that hold for every byte are checked by running through the bytes. *)
Lemma byte_forall (P : Z -> bool) :
  forallb (fun n => P (Z.of_nat n)) (seq 0 256) = true -> forall c, 0 <= c < 256 -> P c = true.
Proof.
  rewrite forallb_forall. intros H c Hc. specialize (H (Z.to_nat c)).
  rewrite Z2Nat.id in H by lia. apply H, in_seq. lia.
Qed.

Lemma classes_ok c : 0 <= c < 256 -> classes_agree c = true.
Proof. apply byte_forall. vm_compute. reflexivity. Qed.

Lemma cases_ok c : 0 <= c < 256 -> cases_agree c = true.
Proof. apply byte_forall. vm_compute. reflexivity. Qed.

Lemma isspace_ref c : 0 <= c < 256 -> isspace c = space_ref c.
Proof.
  intros H. apply Bool.eqb_prop. revert c H. apply byte_forall. vm_compute. reflexivity.
Qed.

Lemma isxdigit_ref c : 0 <= c < 256 -> isxdigit c = xdigit_ref c.
Proof.
  intros H. apply Bool.eqb_prop. revert c H. apply byte_forall. vm_compute. reflexivity.
Qed.

Lemma tolower_ref c : 0 <= c < 256 -> tolower c = if upper_ref c then c + 32 else c.
Proof.
  intros H. apply Z.eqb_eq. revert c H.
  apply (byte_forall (fun c => tolower c =? if upper_ref c then c + 32 else c)).
  vm_compute. reflexivity.
Qed.

Lemma tolower_byte c : 0 <= c < 256 -> 0 <= tolower c < 256.
Proof. intros H. rewrite tolower_ref by done. unfold upper_ref, within. repeat zcase; simpl; lia. Qed.
