(* ===== verification/CString.v ===== *)
(** * string.c: the string and memory routines

    Every function of [userspace/lib/src/string.c], over byte memory, with its
    loops as written. [fuel] bounds each loop; the theorems give the amount
    that is enough. A [char] comparison for equality is on the bytes (equal
    bytes and equal signed characters are the same thing); where the source
    uses the value of a [char], the model takes [schar]. *)

From stdpp Require Import base tactics list gmap numbers strings.
From Stdlib Require Import ZArith Lia.
From S2P Require Import Prelude.
From S2P Require Import Memory.

(** ** Lengths *)

Definition strlen (fuel : nat) (s : Z) : M mem Z :=
  let start := s in
  e ← while fuel (fun s =>
        c ← load8 s;
        mret (if c =? 0 then inr s else inl (s + 1))) s;
  mret (e - start).

Definition strnlen (fuel : nat) (s maxlen : Z) : M mem Z :=
  let start := s in
  e ← while fuel (fun '(s, maxlen) =>
        if maxlen =? 0 then mret (inr s)
        else c ← load8 s;
             mret (if c =? 0 then inr s else inl (s + 1, maxlen - 1))) (s, maxlen);
  mret (e - start).

(** ** Copies *)

(** [while ( *src ) *d++ = *src++; *d = '\0';] shared by [strcpy] and [strcat]. *)
Definition copy_str_loop (fuel : nat) (d src : Z) : M mem unit :=
  d' ← while fuel (fun '(d, src) =>
         c ← load8 src;
         if c =? 0 then mret (inr d)
         else _ ← store8 d c; mret (inl (d + 1, src + 1))) (d, src);
  store8 d' 0.

Definition strcpy (fuel : nat) (dest src : Z) : M mem Z :=
  if (dest =? NULL) || (src =? NULL) then mret dest
  else _ ← copy_str_loop fuel dest src; mret dest.

Definition strncpy (fuel : nat) (dest src n : Z) : M mem Z :=
  i ← while fuel (fun i =>
        if negb (i <? n) then mret (inr i)
        else c ← load8 (src + i);
             if c =? 0 then mret (inr i)
             else _ ← store8 (dest + i) c; mret (inl (i + 1))) 0;
  _ ← while fuel (fun i =>
        if negb (i <? n) then mret (inr tt)
        else _ ← store8 (dest + i) 0; mret (inl (i + 1))) i;
  mret dest.

Definition strcat (fuel : nat) (dest src : Z) : M mem Z :=
  if (dest =? NULL) || (src =? NULL) then mret dest
  else
    d ← while fuel (fun d =>
          c ← load8 d;
          mret (if c =? 0 then inr d else inl (d + 1))) dest;
    _ ← copy_str_loop fuel d src;
    mret dest.

Definition strncat (fuel : nat) (dest src max : Z) : M mem Z :=
  if (dest =? NULL) || (src =? NULL) || (max =? 0) then mret dest
  else
    dlen ← while fuel (fun dlen =>
             if negb (dlen <? max) then mret (inr dlen)
             else c ← load8 (dest + dlen);
                  mret (if c =? 0 then inr dlen else inl (dlen + 1))) 0;
    if dlen =? max then mret dest
    else
      i ← while fuel (fun i =>
            if negb (i + dlen <? max - 1) then mret (inr i)
            else c ← load8 (src + i);
                 if c =? 0 then mret (inr i)
                 else _ ← store8 (dest + dlen + i) c; mret (inl (i + 1))) 0;
      _ ← store8 (dest + dlen + i) 0;
      mret dest.

(** ** Comparisons *)

Definition strcmp (fuel : nat) (a b : Z) : M mem Z :=
  while fuel (fun '(a, b) =>
    ca ← load8 a;
    if ca =? 0 then cb ← load8 b; mret (inr (schar ca - schar cb))
    else
      cb ← load8 b;
      if negb (cb =? 0) && (ca =? cb) then mret (inl (a + 1, b + 1))
      else mret (inr (schar ca - schar cb))) (a, b).

Definition strncmp (fuel : nat) (a b n : Z) : M mem Z :=
  while fuel (fun '(a, b, n) =>
    if n =? 0 then mret (inr 0)
    else
      ca ← load8 a;
      if ca =? 0 then cb ← load8 b; mret (inr (schar ca - schar cb))
      else
        cb ← load8 b;
        if negb (cb =? 0) && (ca =? cb) then mret (inl (a + 1, b + 1, n - 1))
        else mret (inr (schar ca - schar cb))) (a, b, n).

Definition strcoll (fuel : nat) (s1 s2 : Z) : M mem Z := strcmp fuel s1 s2.

(** ** Searching *)

(** The inner loop of [strstr]: the position of [n] where the match stops. *)
Definition strstr_match (fuel : nat) (h n : Z) : M mem Z :=
  while fuel (fun '(h, n) =>
    ch ← load8 h;
    if ch =? 0 then mret (inr n)
    else
      cn ← load8 n;
      if negb (cn =? 0) && (ch =? cn) then mret (inl (h + 1, n + 1))
      else mret (inr n)) (h, n).

Definition strstr (fuel : nat) (haystack needle : Z) : M mem Z :=
  if (haystack =? NULL) || (needle =? NULL) then mret NULL
  else
    c0 ← load8 needle;
    if c0 =? 0 then mret haystack
    else
      while fuel (fun haystack =>
        c ← load8 haystack;
        if c =? 0 then mret (inr NULL)
        else
          n ← strstr_match fuel haystack needle;
          cn ← load8 n;
          mret (if cn =? 0 then inr haystack else inl (haystack + 1))) haystack.

Definition strchrnul_c (fuel : nat) (s c : Z) : M mem Z :=
  let ch := u8 c in
  while fuel (fun s =>
    x ← load8 s;
    mret (if negb (x =? 0) && negb (x =? ch) then inl (s + 1) else inr s)) s.

(** The 256-entry lookup table of [strcspn] and [strspn]:
    [for (r = set; *r; ++r) table[*r] = 1;]. *)
Definition build_table (fuel : nat) (set : Z) : M mem (list Z) :=
  while fuel (fun '(r, table) =>
    c ← load8 r;
    mret (if c =? 0 then inr table
          else inl (r + 1, <[Z.to_nat c := 1]> table))) (set, replicate 256 0).

Definition table_at (table : list Z) (c : Z) : Z := default 0 (table !! Z.to_nat c).

Definition strcspn (fuel : nat) (s reject : Z) : M mem Z :=
  r0 ← load8 reject;
  if r0 =? 0 then
    p ← while fuel (fun p =>
          c ← load8 p;
          mret (if c =? 0 then inr p else inl (p + 1))) s;
    mret (p - s)
  else
    r1 ← load8 (reject + 1);
    if r1 =? 0 then p ← strchrnul_c fuel s (schar r0); mret (p - s)
    else
      table ← build_table fuel reject;
      p ← while fuel (fun p =>
            c ← load8 p;
            mret (if negb (c =? 0) && (table_at table c =? 0) then inl (p + 1) else inr p)) s;
      mret (p - s).

Definition strspn (fuel : nat) (s accept : Z) : M mem Z :=
  a0 ← load8 accept;
  if a0 =? 0 then mret 0
  else
    a1 ← load8 (accept + 1);
    if a1 =? 0 then
      p ← while fuel (fun p =>
            c ← load8 p;
            mret (if c =? a0 then inl (p + 1) else inr p)) s;
      mret (p - s)
    else
      table ← build_table fuel accept;
      p ← while fuel (fun p =>
            c ← load8 p;
            mret (if negb (c =? 0) && negb (table_at table c =? 0) then inl (p + 1) else inr p)) s;
      mret (p - s).

Definition strpbrk (fuel : nat) (s accept : Z) : M mem Z :=
  n ← strcspn fuel s accept;
  c ← load8 (s + n);
  mret (if c =? 0 then NULL else s + n).

Definition has_zero (x : Z) : bool :=
  let ones := (2 ^ 64 - 1) / 255 in
  let highs := u64 (ones * 128) in
  negb (Z.land (Z.land (u64 (x - ones)) (2 ^ 64 - 1 - x)) highs =? 0).

Definition memchr (fuel : nat) (src c n : Z) : M mem Z :=
  let target := u8 c in
  head ← while fuel (fun '(s, n) =>
           if negb (s mod 8 =? 0) && (0 <? n) then
             x ← load8 s;
             mret (if x =? target then inr (inl s) else inl (s + 1, n - 1))
           else mret (inr (inr (s, n)))) (src, n);
  match head with
  | inl s => mret s
  | inr (s, n) =>
      sn ← (if 8 <=? n then
              let repeated := foldl (fun r _ => Z.lor (u64 (Z.shiftl r 8)) target) 0 (seq 0 8) in
              while fuel (fun '(w, n) =>
                if 8 <=? n then
                  x ← loadn 8 w;
                  mret (if has_zero (Z.lxor x repeated) then inr (w, n) else inl (w + 8, n - 8))
                else mret (inr (w, n))) (s, n)
            else mret (s, n));
      while fuel (fun '(s, n) =>
        if 0 <? n then
          x ← load8 s;
          mret (if x =? target then inr s else inl (s + 1, n - 1))
        else mret (inr NULL)) sn
  end.

Definition strchr (fuel : nat) (s c : Z) : M mem Z :=
  while fuel (fun s =>
    x ← load8 s;
    if x =? 0 then mret (inr (if c =? 0 then s else NULL))
    else mret (if x =? c then inr s else inl (s + 1))) s.

Definition strrchr (fuel : nat) (s c : Z) : M mem Z :=
  n ← strlen fuel s;
  memchr fuel s c (n + 1).

(** ** Tokens

    [strtok_r] returns the token and the new value of [*saveptr]. *)

Definition strtok_r (fuel : nat) (str delim saveptr : Z) : M mem (Z * Z) :=
  let next := if str =? NULL then saveptr else str in
  if next =? NULL then mret (NULL, saveptr)
  else
    next ← while fuel (fun next =>
             c ← load8 next;
             if c =? 0 then mret (inr next)
             else r ← strchr fuel delim (schar c);
                  mret (if r =? NULL then inr next else inl (next + 1))) next;
    c ← load8 next;
    if c =? 0 then mret (NULL, NULL)
    else
      let start := next in
      next ← while fuel (fun next =>
               c ← load8 next;
               if c =? 0 then mret (inr next)
               else r ← strchr fuel delim (schar c);
                    mret (if r =? NULL then inl (next + 1) else inr next)) next;
      c ← load8 next;
      if negb (c =? 0) then _ ← store8 next 0; mret (start, next + 1)
      else mret (start, NULL).

(** [strtok] keeps [saveptr] in a thread-local: the model threads it. *)
Definition strtok (fuel : nat) (s delim saveptr : Z) : M mem (Z * Z) :=
  strtok_r fuel s delim saveptr.

(** ** Memory *)

Definition memset (fuel : nat) (dest c num : Z) : M mem Z :=
  _ ← while fuel (fun i =>
        if i <? num then _ ← store8 (dest + i) (u8 c); mret (inl (i + 1))
        else mret (inr tt)) 0;
  mret dest.

(** [while (len--) *d++ = *s++;] *)
Definition copy_up (fuel : nat) (d s len : Z) : M mem unit :=
  while fuel (fun '(d, s, len) =>
    if len =? 0 then mret (inr tt)
    else x ← load8 s; _ ← store8 d x; mret (inl (d + 1, s + 1, len - 1))) (d, s, len).

(** [while (len--) *lastd-- = *lasts--;] *)
Definition copy_down (fuel : nat) (lastd lasts len : Z) : M mem unit :=
  while fuel (fun '(d, s, len) =>
    if len =? 0 then mret (inr tt)
    else x ← load8 s; _ ← store8 d x; mret (inl (d - 1, s - 1, len - 1))) (lastd, lasts, len).

(** [while (count--) *--d = *--s;] *)
Definition copy_down_pre (fuel : nat) (d s count : Z) : M mem unit :=
  while fuel (fun '(d, s, count) =>
    if count =? 0 then mret (inr tt)
    else x ← load8 (s - 1); _ ← store8 (d - 1) x; mret (inl (d - 1, s - 1, count - 1)))
    (d, s, count).

Definition memcpy (fuel : nat) (dest src len : Z) : M mem Z :=
  _ ← copy_up fuel dest src len; mret dest.

Definition memcmp (fuel : nat) (s1 s2 n : Z) : M mem Z :=
  while fuel (fun i =>
    if i <? n then
      a ← load8 (s1 + i);
      b ← load8 (s2 + i);
      mret (if negb (a =? b) then inr (if a <? b then -1 else 1) else inl (i + 1))
    else mret (inr 0)) 0.

Definition memmove (fuel : nat) (dest src len : Z) : M mem Z :=
  if (len =? 0) || (dest =? src) then mret dest
  else
    _ ← (if dest <? src then copy_up fuel dest src len
         else copy_down fuel (dest + (len - 1)) (src + (len - 1)) len);
    mret dest.

Definition memmove_safe (fuel : nat) (dest dest_len src count : Z) : M mem Z :=
  if (dest =? NULL) || (src =? NULL) then mret (-1)
  else if dest_len <? count then mret (-2)
  else if (count =? 0) || (dest =? src) then mret 0
  else
    _ ← (if dest <? src then copy_up fuel dest src count
         else copy_down_pre fuel (dest + count) (src + count) count);
    mret 0.

Definition strlcpy (fuel : nat) (dest src size : Z) : M mem Z :=
  src_len ← strlen fuel src;
  _ ← (if negb (size =? 0) then
         let min_len := if size <=? src_len then size - 1 else src_len in
         _ ← memcpy fuel dest src min_len;
         store8 (dest + min_len) 0
       else mret tt);
  mret src_len.

Definition stpcpy (fuel : nat) (dest src : Z) : M mem Z :=
  while fuel (fun '(dest, src) =>
    c ← load8 src;
    _ ← store8 dest c;
    mret (if c =? 0 then inr dest else inl (dest + 1, src + 1))) (dest, src).

(** [strndup] and [strdup] call [malloc]: here it is an argument. *)
Definition strndup (fuel : nat) (malloc : Z -> M mem Z) (s n : Z) : M mem Z :=
  if s =? NULL then mret NULL
  else
    len ← strnlen fuel s n;
    dst ← malloc (len + 1);
    if dst =? NULL then mret NULL
    else
      _ ← memcpy fuel dst s len;
      _ ← store8 (dst + len) 0;
      mret dst.

Definition strdup (fuel : nat) (malloc : Z -> M mem Z) (s : Z) : M mem Z :=
  strndup fuel malloc s SIZE_MAX.
