(* ===== verification/CStringFacts.v ===== *)
(** * Correctness of string.c *)

From stdpp Require Import base tactics list gmap numbers strings.
From Stdlib Require Import ZArith Lia.
From S2P Require Import Prelude.
From S2P Require Import Memory.
From S2P Require Import CString.

(** ** Scanning loops *)

(** The length of the longest prefix all of whose characters satisfy [P]. *)
Fixpoint span_len (P : Z -> bool) (bs : list Z) : nat :=
  match bs with
  | [] => 0
  | b :: r => if P b then S (span_len P r) else 0
  end.

Lemma span_len_le P bs : (span_len P bs <= length bs)%nat.
Proof. induction bs; simpl; [lia|]. destruct (P _); lia. Qed.

Lemma span_len_run P bs :
  Forall (fun c => P c = true) (take (span_len P bs) bs) /\
  (forall c, bs !! span_len P bs = Some c -> P c = false).
Proof.
  induction bs as [|b bs [IH1 IH2]]; simpl; [done|]. destruct (P b) eqn:E; simpl.
  - split; [by constructor|done].
  - split; [done|]. by intros c [= <-].
Qed.

Lemma span_len_ext P Q bs : Forall (fun b => P b = Q b) bs -> span_len P bs = span_len Q bs.
Proof. induction 1 as [|b bs Hb _ IH]; simpl; [done|]. by rewrite Hb, IH. Qed.

Lemma span_len_all bs : span_len (fun _ => true) bs = length bs.
Proof. induction bs; simpl; congruence. Qed.

(** A loop that moves a pointer over a string while [P] holds stops after
    [span_len P] characters: every scanning loop of the file is an instance. *)
Lemma scan_spec (P : Z -> bool) (body : Z -> M mem (Z + Z)) m :
  P 0 = false ->
  (forall p c, m !! p = Some c -> 0 <= c < 256 ->
     body p m = Done (if P c then inl (p + 1) else inr p) m) ->
  forall bs fuel s, cstr m s bs -> (length bs < fuel)%nat ->
  while fuel body s m = Done (s + Z.of_nat (span_len P bs)) m.
Proof.
  intros H0 Hbody bs. induction bs as [|b bs IH]; intros fuel s Hs Hf;
    (destruct fuel as [|fuel]; simpl in Hf; [lia|]); rewrite while_S; simpl in Hs.
  - rewrite (Hbody s 0) by (done || lia). rewrite H0. simpl. f_equal. lia.
  - destruct Hs as (Hb & ? & Hs). rewrite (Hbody s b) by (done || lia). simpl.
    destruct (P b); [|f_equal; simpl; lia].
    rewrite IH by (done || lia). f_equal. lia.
Qed.

Ltac scan P :=
  erewrite (scan_spec P); [ | try reflexivity | | eassumption | lia ].

(** Runs a [load8] whose cell is known. *)
Ltac ld H := mstep; rewrite (load8_some _ _ _ H); mstep.

Definition nz (c : Z) : bool := negb (c =? 0).

Lemma nz_span bs : Forall (fun b => 0 < b < 256) bs -> span_len nz bs = length bs.
Proof.
  intros H. rewrite <- span_len_all. apply span_len_ext. eapply Forall_impl; [done|].
  intros b Hb. cbn beta in Hb. unfold nz. by destruct (Z.eqb_spec b 0); [lia|].
Qed.

Lemma cstr_nz m s bs : cstr m s bs -> Forall (fun b => 0 < b < 256) bs.
Proof. rewrite cstr_arr. tauto. Qed.

(** ** strlen and strnlen *)

Lemma strlen_spec m s bs fuel :
  cstr m s bs -> (length bs < fuel)%nat -> strlen fuel s m = Done (zlen bs) m.
Proof.
  intros Hs Hf. unfold strlen. mstep. scan nz.
  - rewrite nz_span by (by eapply cstr_nz). f_equal. lia.
  - intros p c Hp Hc. ld Hp. unfold nz. by destruct (c =? 0).
Qed.

Lemma strnlen_spec m s bs fuel maxlen :
  cstr m s bs -> 0 <= maxlen -> (length bs < fuel)%nat ->
  strnlen fuel s maxlen m = Done (Z.min maxlen (zlen bs)) m.
Proof.
  intros Hs Hmax Hf. unfold strnlen. mstep.
  assert (forall bs fuel p maxlen, cstr m p bs -> 0 <= maxlen -> (length bs < fuel)%nat ->
    while fuel (fun '(s, maxlen) =>
        if maxlen =? 0 then mret (inr s)
        else c ← load8 s;
             mret (if c =? 0 then inr s else inl (s + 1, maxlen - 1))) (p, maxlen) m
    = Done (p + Z.min maxlen (zlen bs)) m) as L.
  { clear. intros bs. induction bs as [|b bs IH]; intros fuel p mx Hs Hm Hf;
      (destruct fuel as [|fuel]; simpl in Hf; [lia|]); rewrite while_S; simpl in Hs |- *;
      destruct (Z.eqb_spec mx 0); mstep; try (f_equal; lia).
    - ld Hs. f_equal. lia.
    - destruct Hs as (Hb & ? & Hs). ld Hb. destruct (Z.eqb_spec b 0); [lia|]. cbn.
      specialize (IH fuel (p + 1) (mx - 1) Hs ltac:(lia) ltac:(lia)). rewrite IH. f_equal. lia. }
  rewrite (L bs) by done. f_equal. lia.
Qed.

(** ** Copies *)

Lemma u8_byte b : 0 <= b < 256 -> u8 b = b.
Proof. apply u8_id. Qed.

Lemma wr_insert_comm m d l a x :
  ~ (d <= a < d + zlen l) -> wr (<[a := x]> m) d l = <[a := x]> (wr m d l).
Proof.
  intros H. apply map_eq. intros k. rewrite lookup_wr.
  destruct (decide (k = a)) as [->|].
  - rewrite decide_False, !lookup_insert_eq by lia. done.
  - rewrite !lookup_insert_ne by done. by rewrite lookup_wr.
Qed.

Lemma wr_id m p bs : arr m p bs -> wr m p bs = m.
Proof.
  intros H. apply map_eq. intros k. rewrite lookup_wr. case_decide; [|done].
  destruct (lookup_lt_is_Some_2 bs (Z.to_nat (k - p))) as [b Hb]; [lia|].
  rewrite Hb. symmetry. replace k with (p + Z.of_nat (Z.to_nat (k - p))) by lia.
  by eapply arr_lookup.
Qed.

(** Copying upwards is right when the destination does not start inside the
    part of the source still to be read. *)
Lemma copy_up_spec m d s bs fuel :
  arr m s bs -> bytes bs -> mapped m d (zlen bs) -> (length bs < fuel)%nat ->
  (d <= s \/ s + zlen bs <= d) ->
  copy_up fuel d s (zlen bs) m = Done tt (wr m d bs).
Proof.
  unfold copy_up. revert m d s fuel. induction bs as [|b bs IH]; intros m d s fuel Ha Hb Hm Hf Hd;
    (destruct fuel as [|fuel]; simpl in Hf; [lia|]); rewrite while_S; simpl.
  - done.
  - destruct Ha as [Hs Ha]. apply Forall_cons in Hb as [Hb0 Hb].
    destruct (Z.eqb_spec (Z.of_nat (S (length bs))) 0); [lia|]. mstep. ld Hs.
    rewrite store8_some by (apply Hm; simpl; lia). mstep. rewrite u8_byte by blia.
    replace (Z.of_nat (S (length bs)) - 1) with (zlen bs) by lia.
    specialize (IH (<[d := b]> m) (d + 1) (s + 1) fuel).
    mstep. apply IH; try done; try lia.
    + apply arr_insert_out; [simpl in Hd; lia|done].
    + intros a Hr. apply (insert_mapped _ _ _ (d + 1) (zlen bs)); [|lia].
      intros x Hx. apply Hm. simpl. lia.
    + simpl in Hd. lia.
Qed.

Lemma copy_down_spec m d s bs fuel :
  arr m s bs -> bytes bs -> mapped m d (zlen bs) -> (length bs < fuel)%nat ->
  (s <= d \/ d + zlen bs <= s) ->
  copy_down fuel (d + zlen bs - 1) (s + zlen bs - 1) (zlen bs) m = Done tt (wr m d bs).
Proof.
  unfold copy_down. revert m fuel. induction bs as [|b bs IH] using rev_ind;
    intros m fuel Ha Hb Hm Hf Hd.
  - destruct fuel; simpl in Hf; [lia|]. done.
  - rewrite length_app in *. simpl in *. destruct fuel as [|fuel]; [lia|]. rewrite while_S.
    apply arr_app in Ha as [Ha [Hs _]]. apply Forall_app in Hb as [Hb Hb0].
    apply Forall_cons in Hb0 as [Hb0 _].
    set (n := zlen bs) in *. assert (0 <= n) by (unfold n; lia). replace (Z.of_nat (length bs + 1)) with (n + 1) in * by lia.
    destruct (Z.eqb_spec (n + 1) 0); [lia|]. mstep.
    replace (s + (n + 1) - 1) with (s + n) by lia. replace (d + (n + 1) - 1) with (d + n) by lia.
    ld Hs. rewrite store8_some by (apply Hm; lia). mstep. rewrite u8_byte by blia.
    replace (n + 1 - 1) with n by lia. rewrite wr_app. simpl. fold n.
    rewrite <- wr_insert_comm by (unfold n; lia).
    specialize (IH (<[d + n := b]> m) fuel).
    apply IH; try done; try lia.
    + apply arr_insert_out; [lia|done].
    + apply insert_mapped. intros x Hx. apply Hm. lia.
Qed.

Lemma copy_down_pre_eq fuel d s n m :
  copy_down_pre fuel (d + 1) (s + 1) n m = copy_down fuel d s n m.
Proof.
  unfold copy_down_pre, copy_down. revert d s n m. induction fuel as [|fuel IH]; intros; [done|].
  rewrite !while_S. destruct (n =? 0); [done|]. mstep.
  replace (s + 1 - 1) with s by lia. replace (d + 1 - 1) with d by lia.
  destruct (load8 s m) as [x m1| |]; mstep; try done.
  destruct (store8 d x m1) as [[] m2| |]; mstep; try done.
  specialize (IH (d - 1) (s - 1) (n - 1) m2). by rewrite !Z.sub_add in IH.
Qed.

Lemma memcpy_spec m d s bs fuel :
  arr m s bs -> bytes bs -> mapped m d (zlen bs) -> (length bs < fuel)%nat ->
  (d <= s \/ s + zlen bs <= d) ->
  memcpy fuel d s (zlen bs) m = Done d (wr m d bs).
Proof. intros. unfold memcpy. by rewrite (bind_done _ _ _ _ _ (copy_up_spec _ _ _ _ _ H H0 H1 H2 H3)). Qed.

(** [memmove] copies correctly however the two ranges overlap. *)
Lemma memmove_spec m d s bs fuel :
  arr m s bs -> bytes bs -> mapped m d (zlen bs) -> (length bs < fuel)%nat ->
  memmove fuel d s (zlen bs) m = Done d (wr m d bs).
Proof.
  intros Ha Hb Hm Hf. unfold memmove.
  destruct (Z.eqb_spec (zlen bs) 0) as [E|E]; simpl.
  { destruct bs; [done|simpl in E; lia]. }
  destruct (Z.eqb_spec d s) as [->|]; simpl.
  { mstep. by rewrite wr_id. }
  mstep. destruct (Z.ltb_spec d s).
  - rewrite copy_up_spec by (done || lia). done.
  - rewrite !Z.add_sub_assoc, copy_down_spec by (done || lia). done.
Qed.

Lemma memmove_safe_spec m d dl s bs fuel :
  d <> NULL -> s <> NULL -> zlen bs <= dl ->
  arr m s bs -> bytes bs -> mapped m d (zlen bs) -> (length bs < fuel)%nat ->
  memmove_safe fuel d dl s (zlen bs) m = Done 0 (wr m d bs).
Proof.
  intros Hd Hs Hl Ha Hb Hm Hf. unfold memmove_safe.
  destruct (Z.eqb_spec d NULL); [done|]. destruct (Z.eqb_spec s NULL); [done|]. simpl.
  destruct (Z.ltb_spec dl (zlen bs)); [lia|].
  destruct (Z.eqb_spec (zlen bs) 0) as [E|E]; simpl.
  { destruct bs; [done|simpl in E; lia]. }
  destruct (Z.eqb_spec d s) as [->|]; simpl.
  { mstep. by rewrite wr_id. }
  mstep. destruct (Z.ltb_spec d s).
  - rewrite copy_up_spec by (done || lia). done.
  - replace (d + zlen bs) with (d + zlen bs - 1 + 1) by lia.
    replace (s + zlen bs) with (s + zlen bs - 1 + 1) by lia.
    rewrite copy_down_pre_eq, copy_down_spec by (done || lia). done.
Qed.

Lemma memset_spec m d c n fuel :
  0 <= n -> mapped m d n -> (Z.to_nat n < fuel)%nat ->
  memset fuel d c n m = Done d (wr m d (replicate (Z.to_nat n) (u8 c))).
Proof.
  intros Hn Hm Hf. unfold memset. mstep.
  assert (forall k fuel i m, Z.of_nat k = n - i -> 0 <= i -> mapped m d n -> (k < fuel)%nat ->
    while fuel (fun i =>
        if i <? n then _ ← store8 (d + i) (u8 c); mret (inl (i + 1))
        else mret (inr tt)) i m = Done tt (wr m (d + i) (replicate k (u8 c)))) as L.
  { clear. induction k as [|k IH]; intros fuel i m Hk Hi Hm Hf;
      (destruct fuel as [|fuel]; [lia|]); rewrite while_S; destruct (Z.ltb_spec i n); try lia.
    - done.
    - mstep. rewrite store8_some by (apply Hm; lia). mstep.
      rewrite IH by (lia || by apply insert_mapped). simpl.
      unfold u8, wrapu. rewrite Z.mod_mod by lia. f_equal. f_equal. lia. }
  rewrite (L (Z.to_nat n)) by (done || lia). by rewrite Z.add_0_r.
Qed.

Lemma copy_str_loop_spec m d s bs fuel :
  cstr m s bs -> mapped m d (zlen bs + 1) -> (length bs < fuel)%nat ->
  (d + zlen bs < s \/ s + zlen bs < d) ->
  copy_str_loop fuel d s m = Done tt (wr m d (bs ++ [0])).
Proof.
  unfold copy_str_loop. revert m d s fuel. induction bs as [|b bs IH]; intros m d s fuel Hs Hm Hf Hd;
    (destruct fuel as [|fuel]; simpl in Hf; [lia|]); rewrite bind_run, while_S; simpl in Hs.
  - ld Hs. rewrite store8_some by (apply Hm; simpl; lia). done.
  - destruct Hs as (Hb & ? & Hs). ld Hb. destruct (Z.eqb_spec b 0); [lia|]. mstep.
    rewrite store8_some by (apply Hm; simpl; lia). mstep. rewrite u8_byte by lia.
    simpl in Hd. rewrite <- bind_run. apply IH.
    + apply (cstr_wr_out m (s + 1) bs d [b]); [simpl; lia|done].
    + apply insert_mapped. intros a Ha. apply Hm. simpl. lia.
    + lia.
    + lia.
Qed.

Lemma strcpy_spec m d s bs fuel :
  d <> NULL -> s <> NULL -> cstr m s bs -> mapped m d (zlen bs + 1) -> (length bs < fuel)%nat ->
  (d + zlen bs < s \/ s + zlen bs < d) ->
  strcpy fuel d s m = Done d (wr m d (bs ++ [0])).
Proof.
  intros Hd Hs. intros. unfold strcpy.
  destruct (Z.eqb_spec d NULL); [done|]. destruct (Z.eqb_spec s NULL); [done|]. simpl.
  mstep. by rewrite (copy_str_loop_spec m d s bs).
Qed.

(** The counted copy loop of [strncpy] and [strncat]: it copies until the
    bound [n] or the end of the source. *)
Lemma copy_while_spec (body : Z -> M mem (Z + Z)) n s d :
  (forall i m, n <= i -> body i m = Done (inr i) m) ->
  (forall i m, i < n -> m !! (s + i) = Some 0 -> body i m = Done (inr i) m) ->
  (forall i c m, i < n -> m !! (s + i) = Some c -> 0 < c < 256 -> is_Some (m !! (d + i)) ->
     body i m = Done (inl (i + 1)) (<[d + i := c]> m)) ->
  forall bs i m fuel,
  cstr m (s + i) bs -> i <= n -> mapped m (d + i) (Z.min (n - i) (zlen bs)) ->
  (d + Z.min (n - i) (zlen bs) <= s \/ s + zlen bs < d) -> (length bs < fuel)%nat ->
  while fuel body i m =
    Done (i + Z.min (n - i) (zlen bs)) (wr m (d + i) (take (Z.to_nat (n - i)) bs)).
Proof.
  intros Hend Hz Hc bs. induction bs as [|b bs IH]; intros i m fuel Hs Hi Hm Hd Hf;
    (destruct fuel as [|fuel]; simpl in Hf; [lia|]); rewrite while_S; simpl in Hs.
  - rewrite take_nil. simpl. destruct (Z.leb_spec n i).
    + rewrite Hend by done. f_equal. lia.
    + rewrite Hz by done. f_equal. lia.
  - destruct Hs as (Hb & ? & Hs). destruct (Z.leb_spec n i).
    { rewrite Hend by done. replace (Z.to_nat (n - i)) with 0%nat by lia. simpl. f_equal. lia. }
    assert (is_Some (m !! (d + i))) by (apply Hm; simpl; lia).
    rewrite (Hc i b) by (done || lia). simpl length in *.
    replace (Z.to_nat (n - i)) with (S (Z.to_nat (n - (i + 1)))) by lia. simpl.
    rewrite IH; try lia.
    + f_equal; [lia|]. f_equal. lia.
    + replace (s + (i + 1)) with (s + i + 1) by lia.
      apply (cstr_wr_out m (s + i + 1) bs (d + i) [b]); [simpl; lia|done].
    + apply insert_mapped. intros a Ha. apply Hm. lia.
Qed.

Lemma zero_fill_spec fuel d n i m :
  0 <= i <= n -> mapped m d n -> (Z.to_nat (n - i) < fuel)%nat ->
  while fuel (fun i =>
        if negb (i <? n) then mret (inr tt)
        else _ ← store8 (d + i) 0; mret (inl (i + 1))) i m
  = Done tt (wr m (d + i) (replicate (Z.to_nat (n - i)) 0)).
Proof.
  remember (Z.to_nat (n - i)) as k. revert i m fuel Heqk.
  induction k as [|k IH]; intros i m fuel Hk Hi Hm Hf;
    (destruct fuel as [|fuel]; [lia|]); rewrite while_S;
    destruct (Z.ltb_spec i n); simpl negb; cbn iota; try lia; mstep; [done|].
  rewrite store8_some by (apply Hm; lia). mstep.
  rewrite IH by (lia || by apply insert_mapped). simpl. f_equal. f_equal. lia.
Qed.

(** [strncpy]: exactly [n] bytes are written, the string cut at [n] or padded
    with NULs up to [n]; no terminator beyond. *)
Lemma strncpy_spec m d s bs n fuel :
  cstr m s bs -> 0 <= n -> mapped m d n -> (length bs < fuel)%nat -> (Z.to_nat n < fuel)%nat ->
  (d + n <= s \/ s + zlen bs < d) ->
  strncpy fuel d s n m =
    Done d (wr m d (take (Z.to_nat n) bs ++ replicate (Z.to_nat n - length bs) 0)).
Proof.
  intros Hs Hn Hm Hf Hf' Hd. unfold strncpy. mstep.
  rewrite (copy_while_spec _ n s d) with (bs := bs); try lia.
  - rewrite Z.add_0_l, Z.sub_0_r, Z.add_0_r. mstep.
    rewrite zero_fill_spec; [|lia|by apply wr_mapped|lia]. mstep. f_equal.
    rewrite wr_app, length_take. f_equal; [lia|]. f_equal. lia.
  - intros i m' Hi. destruct (Z.ltb_spec i n); [lia|]. done.
  - intros i m' Hi Hz. destruct (Z.ltb_spec i n); [|lia]. cbn. by ld Hz.
  - intros i c m' Hi Hc Hc0 Hm'. destruct (Z.ltb_spec i n); [|lia]. cbn. ld Hc.
    destruct (Z.eqb_spec c 0); [lia|]. mstep. rewrite store8_some by done. mstep.
    by rewrite u8_byte by lia.
  - by rewrite Z.add_0_r.
  - rewrite Z.add_0_r. intros a Ha. apply Hm. lia.
Qed.

Lemma cstr_shift m p l1 l2 :
  Forall (fun b => 0 < b < 256) l1 -> arr m p l1 -> cstr m (p + zlen l1) l2 -> cstr m p (l1 ++ l2).
Proof.
  revert p. induction l1 as [|b l1 IH]; intros p; simpl.
  - intros _ _. by rewrite Z.add_0_r.
  - rewrite Forall_cons. intros [? ?] [? ?] Hs. split_and!; try done; try lia.
    apply IH; [done..|]. by replace (p + 1 + zlen l1) with (p + Z.of_nat (S (length l1))) by lia.
Qed.

Lemma strcat_spec m d s ds bs fuel :
  d <> NULL -> s <> NULL -> cstr m d ds -> cstr m s bs ->
  mapped m d (zlen ds + zlen bs + 1) -> (length ds < fuel)%nat -> (length bs < fuel)%nat ->
  (d + zlen ds + zlen bs < s \/ s + zlen bs < d + zlen ds) ->
  strcat fuel d s m = Done d (wr m (d + zlen ds) (bs ++ [0])).
Proof.
  intros Hd0 Hs0 Hd Hs Hm Hf Hf' Hdis. unfold strcat.
  destruct (Z.eqb_spec d NULL); [done|]. destruct (Z.eqb_spec s NULL); [done|]. simpl.
  mstep. rewrite (scan_spec nz _ m) with (bs := ds); try done.
  - rewrite nz_span by (by eapply cstr_nz). mstep.
    rewrite (copy_str_loop_spec m _ s bs); [done|done| |lia|lia].
    intros a Ha. apply Hm. lia.
  - intros p c Hp Hc. ld Hp. unfold nz. by destruct (c =? 0).
Qed.

(** [strncat] of this library takes the size of the whole destination buffer:
    the result is NUL-terminated within [max] bytes. *)
Lemma strncat_spec m d s ds bs max fuel :
  d <> NULL -> s <> NULL -> cstr m d ds -> cstr m s bs -> zlen ds < max ->
  mapped m d max -> (length ds < fuel)%nat -> (length bs < fuel)%nat ->
  (d + max <= s \/ s + zlen bs < d + zlen ds) ->
  strncat fuel d s max m =
    Done d (wr m (d + zlen ds) (take (Z.to_nat (max - 1 - zlen ds)) bs ++ [0])).
Proof.
  intros Hd0 Hs0 Hd Hs Hmax Hm Hf Hf' Hdis. unfold strncat.
  destruct (Z.eqb_spec d NULL); [done|]. destruct (Z.eqb_spec s NULL); [done|].
  destruct (Z.eqb_spec max 0); [lia|]. simpl. mstep.
  assert (forall ds fuel i, cstr m (d + i) ds -> i + zlen ds < max -> (length ds < fuel)%nat ->
    while fuel (fun dlen =>
             if negb (dlen <? max) then mret (inr dlen)
             else c ← load8 (d + dlen);
                  mret (if c =? 0 then inr dlen else inl (dlen + 1))) i m
    = Done (i + zlen ds) m) as L.
  { clear. induction ds as [|b ds IH]; intros fuel i Hs Hi Hf;
      (destruct fuel as [|fuel]; simpl in Hf; [lia|]); rewrite while_S; simpl in Hs, Hi |- *;
      destruct (Z.ltb_spec i max); try lia; cbn.
    - ld Hs. f_equal. lia.
    - destruct Hs as (Hb & ? & Hs). ld Hb. destruct (Z.eqb_spec b 0); [lia|].
      rewrite IH; [f_equal; lia| |lia|lia].
      by replace (d + (i + 1)) with (d + i + 1) by lia. }
  rewrite (L ds) by (done || lia || by rewrite Z.add_0_r). rewrite Z.add_0_l. mstep.
  destruct (Z.eqb_spec (zlen ds) max); [lia|]. mstep.
  rewrite (copy_while_spec _ (max - 1 - zlen ds) s (d + zlen ds)) with (bs := bs); try lia.
  - mstep. rewrite store8_some.
    2: { apply wr_mapped with (a := d) (n := max); [done|lia]. }
    mstep. f_equal. rewrite wr_app, length_take. simpl. rewrite Z.add_0_r, !Z.sub_0_r, Z.add_0_l.
    f_equal. lia.
  - intros i m' Hi. destruct (Z.ltb_spec (i + zlen ds) (max - 1)); [lia|]. done.
  - intros i m' Hi Hz. destruct (Z.ltb_spec (i + zlen ds) (max - 1)); [|lia]. cbn. by ld Hz.
  - intros i c m' Hi Hc Hc0 Hm'. destruct (Z.ltb_spec (i + zlen ds) (max - 1)); [|lia]. cbn. ld Hc.
    destruct (Z.eqb_spec c 0); [lia|]. mstep. rewrite store8_some by done. mstep.
    by rewrite u8_byte by lia.
  - by rewrite Z.add_0_r.
  - rewrite Z.add_0_r. intros a Ha. apply Hm. lia.
Qed.

(** ** Comparisons *)

(** The order [strcmp] decides: the first position where the strings differ,
    compared as signed characters, the terminator being part of the strings. *)
Fixpoint scmp (a b : list Z) : Z :=
  match a, b with
  | x :: a', y :: b' => if x =? y then scmp a' b' else schar x - schar y
  | [], [] => 0
  | x :: _, [] => schar x
  | [], y :: _ => - schar y
  end.

Lemma schar_0 : schar 0 = 0.
Proof. done. Qed.

Lemma strcmp_spec m a b xs ys fuel :
  cstr m a xs -> cstr m b ys -> (length xs < fuel)%nat ->
  strcmp fuel a b m = Done (scmp xs ys) m.
Proof.
  unfold strcmp. revert a b ys fuel. induction xs as [|x xs IH]; intros a b ys fuel Ha Hb Hf;
    (destruct fuel as [|fuel]; simpl in Hf; [lia|]); rewrite while_S; simpl in Ha.
  - ld Ha. rewrite schar_0. destruct ys as [|y ys]; simpl in Hb.
    + ld Hb. done.
    + destruct Hb as (Hb & ? & _). ld Hb. f_equal.
  - destruct Ha as (Hx & ? & Ha). ld Hx. destruct (Z.eqb_spec x 0); [lia|]. mstep.
    destruct ys as [|y ys]; simpl in Hb.
    + ld Hb. rewrite schar_0. f_equal. simpl. lia.
    + destruct Hb as (Hy & ? & Hb). ld Hy. destruct (Z.eqb_spec y 0); [lia|]. simpl.
      destruct (Z.eqb_spec x y) as [->|]; simpl; [by apply IH; [..|lia]|done].
Qed.

Lemma scmp_zero xs ys :
  Forall (fun b => 0 < b < 256) xs -> Forall (fun b => 0 < b < 256) ys ->
  (scmp xs ys = 0 <-> xs = ys).
Proof.
  intros Hx. revert ys. induction Hx as [|x xs Hx _ IH]; intros ys Hy; destruct Hy as [|y ys Hy Hys].
  - done.
  - simpl. unfold schar. case_match; split; [lia|done|lia|done].
  - simpl. unfold schar. case_match; split; [lia|done|lia|done].
  - simpl. destruct (Z.eqb_spec x y) as [->|Hne]; [rewrite (IH _ Hys); naive_solver|].
    split; [|naive_solver]. intros H. exfalso. apply Hne, schar_inj; lia.
Qed.

Lemma strncmp_spec m a b xs ys n fuel :
  cstr m a xs -> cstr m b ys -> 0 <= n -> (length xs < fuel)%nat ->
  strncmp fuel a b n m = Done (scmp (take (Z.to_nat n) xs) (take (Z.to_nat n) ys)) m.
Proof.
  unfold strncmp. revert a b ys n fuel. induction xs as [|x xs IH]; intros a b ys n fuel Ha Hb Hn Hf;
    (destruct fuel as [|fuel]; simpl in Hf; [lia|]); rewrite while_S; simpl in Ha;
    (destruct (Z.eqb_spec n 0) as [->|]; [done|]);
    replace (Z.to_nat n) with (S (Z.to_nat (n - 1))) by lia.
  - ld Ha. rewrite schar_0. destruct ys as [|y ys]; simpl in Hb.
    + ld Hb. done.
    + destruct Hb as (Hb & ? & _). ld Hb. f_equal.
  - destruct Ha as (Hx & ? & Ha). ld Hx. destruct (Z.eqb_spec x 0); [lia|]. mstep.
    destruct ys as [|y ys]; simpl in Hb.
    + ld Hb. rewrite schar_0. f_equal. simpl. lia.
    + destruct Hb as (Hy & ? & Hb). ld Hy. destruct (Z.eqb_spec y 0); [lia|]. simpl.
      destruct (Z.eqb_spec x y) as [->|]; simpl; [by apply IH; [..|lia|lia]|done].
Qed.
