(* ===== verification/SearchFacts.v ===== *)
(** * Searching, tokenising and bounded copies of string.c *)

From stdpp Require Import base tactics list gmap numbers strings.
From Stdlib Require Import ZArith Lia.
From S2P Require Import Prelude.
From S2P Require Import Memory.
From S2P Require Import CString.
From S2P Require Import CStringFacts.

(** ** The word-at-a-time search of memchr

    [memchr] skips whole words with the [has_zero] bit trick. Here: the trick
    never misses a zero byte, and [memchr] agrees with the byte-by-byte search. *)

(** ** Bits of a little-endian word *)

Lemma testbit_cat b x n :
  0 <= b < 256 -> 0 <= n ->
  Z.testbit (b + 256 * x) n = if n <? 8 then Z.testbit b n else Z.testbit x (n - 8).
Proof.
  intros Hb Hn. destruct (Z.ltb_spec n 8).
  - rewrite <- (Z.mod_pow2_bits_low (b + 256 * x) 8) by lia.
    replace ((b + 256 * x) mod 2 ^ 8) with b; [done|].
    rewrite Z.mul_comm, Z.mod_add by lia. symmetry. by apply Z.mod_small.
  - replace x with ((b + 256 * x) / 2 ^ 8) at 2.
    + rewrite Z.div_pow2_bits by lia. f_equal. lia.
    + rewrite Z.mul_comm, Z.div_add by lia. rewrite Z.div_small by lia. lia.
Qed.

Lemma lxor_byte a b : 0 <= a < 256 -> 0 <= b < 256 -> 0 <= Z.lxor a b < 256.
Proof.
  intros Ha Hb. assert (0 <= Z.lxor a b) by (apply Z.lxor_nonneg; lia). split; [done|].
  destruct (Z.eq_dec (Z.lxor a b) 0) as [->|]; [lia|].
  apply (Z.log2_lt_pow2 _ 8); [lia|].
  eapply Z.le_lt_trans; [apply Z.log2_lxor; lia|].
  apply Z.max_lub_lt; [destruct (Z.eq_dec a 0) as [->|]; [done|apply Z.log2_lt_pow2; lia]
                      |destruct (Z.eq_dec b 0) as [->|]; [done|apply Z.log2_lt_pow2; lia]].
Qed.

Lemma lxor_cat a b x y :
  0 <= a < 256 -> 0 <= b < 256 ->
  Z.lxor (a + 256 * x) (b + 256 * y) = Z.lxor a b + 256 * Z.lxor x y.
Proof.
  intros Ha Hb. apply Z.bits_inj'. intros n Hn.
  rewrite Z.lxor_spec, !testbit_cat by (done || by apply lxor_byte).
  destruct (n <? 8); by rewrite Z.lxor_spec.
Qed.

Lemma le_bytes_lxor bs cs :
  bytes bs -> bytes cs -> length bs = length cs ->
  Z.lxor (le_bytes bs) (le_bytes cs) = le_bytes (zip_with Z.lxor bs cs).
Proof.
  intros Hb. revert cs. induction Hb as [|b bs Hb _ IH]; intros cs Hc Hl.
  - by destruct cs.
  - destruct Hc as [|c cs Hc Hcs]; [done|]. simpl in *.
    rewrite lxor_cat, IH by (done || lia). done.
Qed.

Lemma le_bytes_bound bs : bytes bs -> 0 <= le_bytes bs < 256 ^ zlen bs.
Proof.
  induction 1 as [|b bs Hb _ IH]; simpl; [lia|].
  rewrite Nat2Z.inj_succ, Z.pow_succ_r by lia. blia.
Qed.

(** ** The bit trick *)

(** [ones n]: a word of [n] bytes, each 1. *)
Fixpoint ones (n : nat) : Z := match n with O => 0 | S n' => 1 + 256 * ones n' end.

(** If some byte is zero then, at its lowest occurrence, subtracting one from
    every byte sets the high bit, which is clear in the word itself. *)
Lemma zero_byte_bit bs :
  bytes bs -> 0 ∈ bs ->
  exists k, (k < length bs)%nat /\
    Z.testbit (le_bytes bs - ones (length bs)) (8 * Z.of_nat k + 7) = true /\
    Z.testbit (le_bytes bs) (8 * Z.of_nat k + 7) = false.
Proof.
  induction 1 as [|b bs Hb _ IH]; intros Hin; [by apply elem_of_nil in Hin|].
  cbn beta in Hb. simpl. destruct (decide (b = 0)) as [->|Hne].
  - exists 0%nat. split_and!; [lia| |].
    + replace (0 + 256 * le_bytes bs - _) with (255 + 256 * (le_bytes bs - ones (length bs) - 1)) by lia.
      by rewrite testbit_cat by lia.
    + by rewrite testbit_cat by lia.
  - apply elem_of_cons in Hin as [?|Hin]; [done|].
    destruct (IH Hin) as (k & Hk & H1 & H2). exists (S k). split_and!; [lia| |].
    + replace (b + 256 * le_bytes bs - _) with (b - 1 + 256 * (le_bytes bs - ones (length bs))) by lia.
      rewrite testbit_cat by lia. destruct (Z.ltb_spec (8 * Z.of_nat (S k) + 7) 8); [lia|].
      rewrite <- H1. f_equal. lia.
    + rewrite testbit_cat by lia. destruct (Z.ltb_spec (8 * Z.of_nat (S k) + 7) 8); [lia|].
      rewrite <- H2. f_equal. lia.
Qed.

Lemma high_bits k : (k < 8)%nat -> Z.testbit (u64 ((2 ^ 64 - 1) / 255 * 128)) (8 * Z.of_nat k + 7) = true.
Proof. intros H. do 8 (destruct k as [|k]; [reflexivity|]). lia. Qed.

Lemma testbit_compl x n : 0 <= n < 64 -> Z.testbit (2 ^ 64 - 1 - x) n = negb (Z.testbit x n).
Proof.
  intros Hn. replace (2 ^ 64 - 1 - x) with (Z.lnot x + 1 * 2 ^ 64) by (unfold Z.lnot; lia).
  rewrite <- (Z.mod_pow2_bits_low _ 64) by lia.
  rewrite Z.mod_add by lia. rewrite Z.mod_pow2_bits_low by lia. apply Z.lnot_spec. lia.
Qed.

(** The trick has no false negative. *)
Lemma has_zero_complete bs :
  bytes bs -> length bs = 8%nat -> 0 ∈ bs -> has_zero (le_bytes bs) = true.
Proof.
  intros Hb Hl Hin. destruct (zero_byte_bit bs Hb Hin) as (k & Hk & H1 & H2).
  rewrite Hl in *. unfold has_zero. change ((2 ^ 64 - 1) / 255) with (ones 8).
  apply negb_true_iff, Z.eqb_neq. intros E.
  assert (Z.testbit 0 (8 * Z.of_nat k + 7) = true) as C; [|by rewrite Z.bits_0 in C].
  rewrite <- E, !Z.land_spec. unfold u64 at 1, wrapu. rewrite Z.mod_pow2_bits_low by lia.
  rewrite H1, testbit_compl, H2 by lia. change (ones 8) with ((2 ^ 64 - 1) / 255).
  by rewrite high_bits.
Qed.

(** ** The search *)

(** The reference: the address of the first occurrence of [t], or NULL. *)
Fixpoint find_byte (t p : Z) (bs : list Z) : Z :=
  match bs with
  | [] => NULL
  | b :: r => if b =? t then p else find_byte t (p + 1) r
  end.

Lemma find_byte_app t p pre rest :
  Forall (fun b => b <> t) pre -> find_byte t p (pre ++ rest) = find_byte t (p + zlen pre) rest.
Proof.
  intros H. revert p. induction H as [|b pre Hb _ IH]; intros p; simpl.
  - by rewrite Z.add_0_r.
  - destruct (Z.eqb_spec b t); [done|]. rewrite IH. f_equal. lia.
Qed.

Lemma repeated_eq t : 0 <= t < 256 ->
  foldl (fun r _ => Z.lor (u64 (Z.shiftl r 8)) t) 0 (seq 0 8) = le_bytes (replicate 8 t).
Proof.
  intros Ht.
  assert (forallb (fun t => foldl (fun r _ => Z.lor (u64 (Z.shiftl r 8)) (Z.of_nat t)) 0 (seq 0 8)
    =? le_bytes (replicate 8 (Z.of_nat t))) (seq 0 256) = true) as H by (vm_compute; reflexivity).
  rewrite forallb_forall in H. specialize (H (Z.to_nat t)). rewrite Z2Nat.id in H by lia.
  apply Z.eqb_eq, H, in_seq. lia.
Qed.

Lemma zip_lxor_zero t bs : t ∈ bs -> 0 ∈ zip_with Z.lxor bs (replicate (length bs) t).
Proof.
  induction bs as [|b bs IH]; intros H; [by apply elem_of_nil in H|]. simpl.
  apply elem_of_cons in H as [->|H]; [rewrite Z.lxor_nilpotent; left|right; auto].
Qed.

Lemma word_skip bs t :
  bytes bs -> 0 <= t < 256 -> length bs = 8%nat ->
  has_zero (Z.lxor (le_bytes bs) (le_bytes (replicate 8 t))) = false ->
  Forall (fun b => b <> t) bs.
Proof.
  intros Hb Ht Hl H. apply Forall_forall. intros b Hin ->.
  rewrite le_bytes_lxor in H; [|done| |by rewrite length_replicate].
  2: { apply Forall_replicate. lia. }
  rewrite has_zero_complete in H; [done| | |].
  - apply Forall_lookup. intros i x Hx. apply lookup_zip_with_Some in Hx as (a & c & -> & Ha & Hc).
    apply lookup_replicate in Hc as [-> _]. apply lxor_byte; [|done].
    eapply Forall_lookup in Hb; eauto.
  - rewrite length_zip_with, length_replicate. lia.
  - rewrite <- Hl at 1. by apply zip_lxor_zero.
Qed.

Section memchr.
Context (m : mem) (t : Z) (Ht : 0 <= t < 256).

Lemma memchr_tail bs p fuel :
  arr m p bs -> (length bs < fuel)%nat ->
  while fuel (fun '(s, n) =>
      if 0 <? n then
        x ← load8 s;
        mret (if x =? t then inr s else inl (s + 1, n - 1))
      else mret (inr NULL)) (p, zlen bs) m = Done (find_byte t p bs) m.
Proof.
  revert p fuel. induction bs as [|b bs IH]; intros p fuel Ha Hf;
    (destruct fuel as [|fuel]; simpl in Hf; [lia|]); rewrite while_S; [done|].
  destruct Ha as [Hb Ha]. destruct (Z.ltb_spec 0 (zlen (b :: bs))); [|simpl in *; lia].
  ld Hb. simpl. destruct (b =? t); [done|].
  replace (Z.of_nat (S (length bs)) - 1) with (zlen bs) by lia. apply IH; [done|lia].
Qed.

Lemma memchr_words bs w fuel :
  arr m w bs -> bytes bs -> (length bs < fuel)%nat ->
  exists pre rest, bs = pre ++ rest /\ Forall (fun b => b <> t) pre /\
  while fuel (fun '(w, n) =>
      if 8 <=? n then
        x ← loadn 8 w;
        mret (if has_zero (Z.lxor x (le_bytes (replicate 8 t))) then inr (w, n) else inl (w + 8, n - 8))
      else mret (inr (w, n))) (w, zlen bs) m = Done (w + zlen pre, zlen rest) m.
Proof.
  revert w bs. induction fuel as [|fuel IH]; intros w bs Ha Hb Hf; [lia|]. rewrite while_S.
  destruct (Z.leb_spec 8 (zlen bs)).
  2: { exists [], bs. simpl. by rewrite Z.add_0_r. }
  rewrite <- (take_drop 8 bs) in Ha. apply arr_app in Ha as [Ha1 Ha2].
  assert (length (take 8 bs) = 8%nat) as Hl8 by (rewrite length_take; lia).
  rewrite Hl8 in Ha2. mstep.
  pose proof (loadn_arr m w (take 8 bs) Ha1) as Hld. rewrite Hl8 in Hld. rewrite Hld. mstep.
  destruct (has_zero _) eqn:Hz.
  { exists [], bs. simpl. by rewrite Z.add_0_r. }
  apply word_skip in Hz; [|by apply Forall_take|done|done].
  destruct (IH (w + 8) (drop 8 bs)) as (pre & rest & Heq & Hpre & Hw);
    [done|by apply Forall_drop|rewrite length_drop; lia|].
  exists (take 8 bs ++ pre), rest. split_and!.
  - rewrite <- app_assoc, <- Heq. by rewrite take_drop.
  - by apply Forall_app.
  - rewrite length_drop in Hw. replace (zlen bs - 8) with (Z.of_nat (length bs - 8)) by lia.
    rewrite Hw. rewrite length_app, Hl8. f_equal. f_equal. lia.
Qed.

Lemma memchr_head bs p fuel :
  arr m p bs -> (length bs < fuel)%nat ->
  (exists k, find_byte t p bs = k /\
  while fuel (fun '(s, n) =>
         if negb (s mod 8 =? 0) && (0 <? n) then
           x ← load8 s;
           mret (if x =? t then inr (inl s) else inl (s + 1, n - 1))
         else mret (inr (inr (s, n)))) (p, zlen bs) m = Done (inl k) m) \/
  (exists pre rest, bs = pre ++ rest /\ Forall (fun b => b <> t) pre /\
  while fuel (fun '(s, n) =>
         if negb (s mod 8 =? 0) && (0 <? n) then
           x ← load8 s;
           mret (if x =? t then inr (inl s) else inl (s + 1, n - 1))
         else mret (inr (inr (s, n)))) (p, zlen bs) m = Done (inr (p + zlen pre, zlen rest)) m).
Proof.
  revert p fuel. induction bs as [|b bs IH]; intros p fuel Ha Hf;
    (destruct fuel as [|fuel]; simpl in Hf; [lia|]); rewrite while_S.
  { right. exists [], []. rewrite andb_false_r. simpl. by rewrite Z.add_0_r. }
  destruct Ha as [Hb Ha]. destruct (negb _).
  2: { right. exists [], (b :: bs). simpl. by rewrite Z.add_0_r. }
  destruct (Z.ltb_spec 0 (zlen (b :: bs))); [|simpl in *; lia].
  mstep. ld Hb. simpl find_byte. destruct (Z.eqb_spec b t); [left; eauto|].
  replace (zlen (b :: bs) - 1) with (zlen bs) by (simpl; lia).
  destruct (IH (p + 1) fuel Ha ltac:(lia)) as [(k & Hk & ->)|(pre & rest & -> & Hp & ->)].
  - left. eauto.
  - right. exists (b :: pre), rest. split_and!; [done|by constructor|]. simpl length.
    f_equal. f_equal. f_equal. lia.
Qed.

Lemma memchr_find c bs p fuel :
  u8 c = t -> arr m p bs -> bytes bs -> (length bs < fuel)%nat ->
  memchr fuel p c (zlen bs) m = Done (find_byte t p bs) m.
Proof.
  intros Hc Ha Hb Hf. unfold memchr. rewrite Hc. mstep.
  destruct (memchr_head bs p fuel Ha Hf) as [(k & <- & ->)|(pre & rest & -> & Hp & ->)]; [done|].
  mstep. apply arr_app in Ha as [_ Ha]. apply Forall_app in Hb as [_ Hb].
  rewrite length_app in Hf. rewrite find_byte_app by done.
  destruct (Z.leb_spec 8 (zlen rest)).
  2: { mstep. apply memchr_tail; [done|lia]. }
  rewrite repeated_eq by done.
  destruct (memchr_words rest (p + zlen pre) fuel) as (pre' & rest' & -> & Hp' & ->); [done..|lia|].
  mstep. apply arr_app in Ha as [_ Ha]. rewrite length_app in Hf. rewrite find_byte_app by done.
  apply memchr_tail; [done|lia].
Qed.
End memchr.

Lemma u8_range c : 0 <= u8 c < 256.
Proof. apply (wrapu_range 8). lia. Qed.

(** What [find_byte] returns, in terms of positions. *)
Lemma find_byte_some t p bs i :
  bs !! i = Some t -> (forall j, (j < i)%nat -> bs !! j <> Some t) ->
  find_byte t p bs = p + Z.of_nat i.
Proof.
  revert p i. induction bs as [|b bs IH]; intros p i Hi Hj; [by rewrite lookup_nil in Hi|].
  simpl. destruct i as [|i].
  - injection Hi as ->. rewrite Z.eqb_refl. lia.
  - destruct (Z.eqb_spec b t) as [->|]; [exfalso; apply (Hj 0%nat); [lia|done]|].
    rewrite (IH _ i); [lia|done|]. intros j Hlt. apply (Hj (S j)). lia.
Qed.

Lemma find_byte_none t p bs : t ∉ bs -> find_byte t p bs = NULL.
Proof.
  revert p. induction bs as [|b bs IH]; intros p H; [done|]. simpl.
  apply not_elem_of_cons in H as [? ?]. destruct (Z.eqb_spec b t); [done|]. auto.
Qed.

Lemma memchr_spec m p c bs fuel :
  arr m p bs -> bytes bs -> (length bs < fuel)%nat ->
  memchr fuel p c (zlen bs) m = Done (find_byte (u8 c) p bs) m.
Proof. intros. apply memchr_find; auto using u8_range. Qed.

(** [strrchr] searches the bytes of the string and its terminator with [memchr]. *)
Lemma strrchr_spec m s c bs fuel :
  cstr m s bs -> (S (length bs) < fuel)%nat ->
  strrchr fuel s c m = Done (find_byte (u8 c) s (bs ++ [0])) m.
Proof.
  intros Hs Hf. unfold strrchr. mstep. rewrite (strlen_spec _ _ bs) by (done || lia). mstep.
  apply cstr_arr in Hs as [Ha Hb].
  replace (zlen bs + 1) with (zlen (bs ++ [0])) by (rewrite length_app; simpl; lia).
  apply memchr_spec; [done| |rewrite length_app; simpl; lia].
  apply Forall_app. split; [eapply Forall_impl; [done|intros; blia]|]. by repeat constructor.
Qed.

(** ** strchr *)

Lemma strchr_spec m s c bs fuel :
  cstr m s bs -> (length bs < fuel)%nat ->
  strchr fuel s c m = Done (if c =? 0 then s + zlen bs else find_byte c s bs) m.
Proof.
  unfold strchr. revert s fuel. induction bs as [|b bs IH]; intros s fuel Hs Hf;
    (destruct fuel as [|fuel]; simpl in Hf; [lia|]); rewrite while_S; simpl in Hs.
  - ld Hs. simpl. by rewrite Z.add_0_r.
  - destruct Hs as (Hb & ? & Hs). ld Hb. destruct (Z.eqb_spec b 0); [lia|]. mstep. simpl.
    destruct (Z.eqb_spec b c) as [->|].
    + destruct (Z.eqb_spec c 0); [lia|done].
    + rewrite IH by (done || lia). destruct (c =? 0); [f_equal; lia|done].
Qed.

(** ** strcspn, strspn, strpbrk *)

Definition in_set (set : list Z) (c : Z) : bool := bool_decide (c ∈ set).

Lemma build_table_spec m r set fuel table :
  cstr m r set -> (length set < fuel)%nat -> length table = 256%nat ->
  exists table',
    while fuel (fun '(r, table) =>
      c ← load8 r;
      mret (if c =? 0 then inr table
            else inl (r + 1, <[Z.to_nat c := 1]> table))) (r, table) m = Done table' m /\
    forall c, 0 <= c < 256 -> table_at table' c = if in_set set c then 1 else table_at table c.
Proof.
  revert r fuel table. induction set as [|b set IH]; intros r fuel table Hs Hf Ht;
    (destruct fuel as [|fuel]; simpl in Hf; [lia|]); rewrite while_S; simpl in Hs.
  - ld Hs. exists table. split; [done|]. intros c _. unfold in_set. by rewrite bool_decide_false by set_solver.
  - destruct Hs as (Hb & ? & Hs). ld Hb. destruct (Z.eqb_spec b 0); [lia|].
    destruct (IH (r + 1) fuel (<[Z.to_nat b := 1]> table) Hs) as (t' & Hw & Ht'); [lia|by rewrite length_insert|].
    exists t'. split; [done|]. intros c Hc. rewrite Ht' by done. unfold in_set.
    destruct (decide (c ∈ set)).
    { rewrite !bool_decide_true by set_solver. done. }
    rewrite (bool_decide_false (c ∈ set)) by done. unfold table_at.
    destruct (decide (c = b)) as [->|].
    + rewrite bool_decide_true by set_solver. by rewrite list_lookup_insert_eq by lia.
    + rewrite bool_decide_false by set_solver. by rewrite list_lookup_insert_ne by lia.
Qed.

Lemma table_at_init c : 0 <= c < 256 -> table_at (replicate 256 0) c = 0.
Proof.
  intros. unfold table_at.
  by rewrite lookup_replicate_2 by lia.
Qed.

Lemma build_table_full m r set fuel :
  cstr m r set -> (length set < fuel)%nat ->
  exists table, build_table fuel r m = Done table m /\
    forall c, 0 <= c < 256 -> table_at table c = b2z (in_set set c).
Proof.
  intros Hs Hf. destruct (build_table_spec m r set fuel (replicate 256 0)) as (t & Ht & Hc); [done..|].
  exists t. split; [done|]. intros c H. rewrite Hc by done. rewrite table_at_init by done.
  by destruct (in_set set c).
Qed.

Lemma strcspn_spec m s reject bs rs fuel :
  cstr m s bs -> cstr m reject rs -> (length bs < fuel)%nat -> (length rs < fuel)%nat ->
  strcspn fuel s reject m =
    Done (Z.of_nat (span_len (fun c => negb (in_set rs c)) bs)) m.
Proof.
  intros Hs Hr Hf Hf'. pose proof (cstr_nz _ _ _ Hs) as Hnz. unfold strcspn.
  destruct rs as [|r0 rs]; simpl in Hr.
  - ld Hr. scan nz.
    + mstep. f_equal. rewrite nz_span by done.
      rewrite (span_len_ext _ (fun _ => true)); [rewrite span_len_all; lia|].
      apply Forall_forall. intros b _. unfold in_set. by rewrite bool_decide_false by set_solver.
    + intros p c Hp Hc. ld Hp. unfold nz. by destruct (c =? 0).
  - destruct Hr as (Hr0 & ? & Hr). pose proof Hr as Hr'. ld Hr0.
    destruct (Z.eqb_spec r0 0); [lia|]. destruct rs as [|r1 rs]; simpl in Hr.
    + ld Hr. unfold strchrnul_c. scan (fun c => nz c && negb (c =? u8 (schar r0))).
      * mstep. f_equal. rewrite Z.add_simpl_l. f_equal. apply span_len_ext.
        eapply Forall_impl; [done|]. intros b Hb. cbn beta in Hb |- *.
        rewrite u8_schar by lia.
        unfold nz, in_set. destruct (Z.eqb_spec b 0); [lia|]. simpl. f_equal.
        destruct (Z.eqb_spec b r0) as [->|]; [by rewrite bool_decide_true by set_solver|].
        by rewrite bool_decide_false by set_solver.
      * intros p c Hp Hc. ld Hp. done.
    + destruct Hr as (Hr1 & ? & Hr). ld Hr1. destruct (Z.eqb_spec r1 0); [lia|].
      destruct (build_table_full m reject (r0 :: r1 :: rs) fuel) as (table & Ht & Htab); [by simpl|lia|].
      mstep. rewrite Ht. mstep. scan (fun c => nz c && (table_at table c =? 0)).
      * mstep. f_equal. rewrite Z.add_simpl_l. f_equal. apply span_len_ext.
        eapply Forall_impl; [done|]. intros b Hb. cbn beta in Hb |- *.
        rewrite Htab by lia. unfold nz. destruct (Z.eqb_spec b 0); [lia|]. simpl.
        by destruct (in_set _ b).
      * intros p c Hp Hc. ld Hp. done.
Qed.

Lemma strspn_spec m s accept bs xs fuel :
  cstr m s bs -> cstr m accept xs -> (length bs < fuel)%nat -> (length xs < fuel)%nat ->
  strspn fuel s accept m = Done (Z.of_nat (span_len (in_set xs) bs)) m.
Proof.
  intros Hs Hr Hf Hf'. pose proof (cstr_nz _ _ _ Hs) as Hnz. unfold strspn.
  destruct xs as [|r0 rs]; simpl in Hr.
  - ld Hr. f_equal. by destruct bs.
  - destruct Hr as (Hr0 & ? & Hr). pose proof Hr as Hr'. ld Hr0.
    destruct (Z.eqb_spec r0 0); [lia|]. destruct rs as [|r1 rs]; simpl in Hr.
    + ld Hr. scan (fun c => c =? r0).
      * mstep. f_equal. rewrite Z.add_simpl_l. f_equal. apply span_len_ext.
        eapply Forall_impl; [done|]. intros b Hb. unfold in_set.
        destruct (Z.eqb_spec b r0) as [->|]; [by rewrite bool_decide_true by set_solver|].
        by rewrite bool_decide_false by set_solver.
      * destruct (Z.eqb_spec 0 r0); [lia|done].
      * intros p c Hp Hc. by ld Hp.
    + destruct Hr as (Hr1 & ? & Hr). ld Hr1. destruct (Z.eqb_spec r1 0); [lia|].
      destruct (build_table_full m accept (r0 :: r1 :: rs) fuel) as (table & Ht & Htab); [by simpl|lia|].
      mstep. rewrite Ht. mstep. scan (fun c => nz c && negb (table_at table c =? 0)).
      * mstep. f_equal. rewrite Z.add_simpl_l. f_equal. apply span_len_ext.
        eapply Forall_impl; [done|]. intros b Hb. cbn beta in Hb |- *.
        rewrite Htab by lia. unfold nz. destruct (Z.eqb_spec b 0); [lia|]. simpl.
        by destruct (in_set _ b).
      * intros p c Hp Hc. ld Hp. done.
Qed.

(** ** strstr *)

(** The reference: the leftmost position where [ns] occurs, or NULL. *)
Fixpoint find_sub (ns : list Z) (p : Z) (hs : list Z) : Z :=
  match hs with
  | [] => NULL
  | _ :: r => if bool_decide (ns `prefix_of` hs) then p else find_sub ns (p + 1) r
  end.

Fixpoint lcp (hs ns : list Z) : nat :=
  match hs, ns with
  | x :: h, y :: n => if x =? y then S (lcp h n) else 0
  | _, _ => 0
  end.

Lemma lcp_le hs ns : (lcp hs ns <= length ns)%nat.
Proof. revert ns. induction hs; intros [|]; simpl; try lia. case_match; [|lia]. specialize (IHhs l). lia. Qed.

Lemma lcp_prefix hs ns : lcp hs ns = length ns <-> ns `prefix_of` hs.
Proof.
  revert ns. induction hs as [|x hs IH]; intros [|y ns]; simpl.
  - split; [intros; apply prefix_nil|done].
  - split; [done|]. intros H. by apply prefix_nil_inv in H.
  - split; [intros; apply prefix_nil|done].
  - destruct (Z.eqb_spec x y) as [->|].
    + split; [intros [= H]; apply prefix_cons; by apply IH|]. intros H%prefix_cons_inv_2. f_equal. by apply IH.
    + split; [done|]. intros H%prefix_cons_inv_1. congruence.
Qed.

Lemma strstr_match_spec m h n hs ns fuel :
  cstr m h hs -> cstr m n ns -> (length hs < fuel)%nat ->
  strstr_match fuel h n m = Done (n + Z.of_nat (lcp hs ns)) m.
Proof.
  unfold strstr_match. revert h n ns fuel. induction hs as [|x hs IH]; intros h n ns fuel Hh Hn Hf;
    (destruct fuel as [|fuel]; simpl in Hf; [lia|]); rewrite while_S; simpl in Hh.
  - ld Hh. simpl. f_equal. lia.
  - destruct Hh as (Hx & ? & Hh). ld Hx. destruct (Z.eqb_spec x 0); [lia|]. mstep.
    destruct ns as [|y ns]; simpl in Hn.
    + ld Hn. simpl. f_equal. lia.
    + destruct Hn as (Hy & ? & Hn). ld Hy. destruct (Z.eqb_spec y 0); [lia|]. mstep. simpl.
      destruct (Z.eqb_spec x y); mstep; [|f_equal; lia].
      rewrite (IH _ _ ns) by (done || lia). f_equal. lia.
Qed.

Lemma strstr_spec m h n hs ns fuel :
  h <> NULL -> n <> NULL -> cstr m h hs -> cstr m n ns ->
  (length hs < fuel)%nat ->
  strstr fuel h n m = Done (if bool_decide (ns = []) then h else find_sub ns h hs) m.
Proof.
  intros Hh0 Hn0 Hh Hn Hf. unfold strstr.
  destruct (Z.eqb_spec h NULL); [done|]. destruct (Z.eqb_spec n NULL); [done|]. mstep.
  destruct ns as [|y ns].
  { simpl in Hn. ld Hn. done. }
  pose proof Hn as Hn'. simpl in Hn. destruct Hn as (Hy & ? & _). ld Hy.
  destruct (Z.eqb_spec y 0); [lia|]. rewrite bool_decide_false by done. set (nd := y :: ns) in *.
  clear Hh0. assert (forall hs h g, cstr m h hs -> (length hs < g)%nat -> (length hs < fuel)%nat ->
    while g (fun haystack =>
        c ← load8 haystack;
        if c =? 0 then mret (inr NULL)
        else
          n' ← strstr_match fuel haystack n;
          cn ← load8 n';
          mret (if cn =? 0 then inr haystack else inl (haystack + 1))) h m
    = Done (find_sub nd h hs) m) as L; [|by apply L].
  clear - Hn'. induction hs as [|x hs IH]; intros h g Hh Hg Hf;
    (destruct g as [|g]; simpl in Hg; [lia|]); rewrite while_S.
  - simpl in Hh. ld Hh. done.
  - pose proof Hh as Hh'. destruct Hh as (Hx & ? & Hh). ld Hx.
    destruct (Z.eqb_spec x 0); [lia|]. mstep.
    rewrite (strstr_match_spec m h n (x :: hs) nd) by done. mstep.
    destruct (cstr_char m n nd (Z.of_nat (lcp (x :: hs) nd)) Hn') as (b & Hb & Hl & ?).
    { pose proof (lcp_le (x :: hs) nd). lia. }
    ld Hb. rewrite Nat2Z.id in Hl. change (find_sub nd h (x :: hs)) with
      (if bool_decide (nd `prefix_of` x :: hs) then h else find_sub nd (h + 1) hs).
    destruct (decide (lcp (x :: hs) nd = length nd)) as [E|E].
    + rewrite E in Hl. rewrite bool_decide_true by (by apply lcp_prefix).
      rewrite lookup_app_r in Hl by lia. rewrite Nat.sub_diag in Hl. injection Hl as <-. done.
    + rewrite bool_decide_false by (by rewrite <- lcp_prefix).
      pose proof (lcp_le (x :: hs) nd). rewrite lookup_app_l in Hl by lia.
      pose proof (cstr_nz _ _ _ Hn') as Hnz. eapply Forall_lookup in Hnz; [|done].
      destruct (Z.eqb_spec b 0); [blia|]. apply IH; [done|lia|]. simpl in Hf. lia.
Qed.

Lemma find_sub_first ns p hs i :
  (i < length hs)%nat -> ns `prefix_of` drop i hs ->
  (forall j, (j < i)%nat -> ~ ns `prefix_of` drop j hs) -> find_sub ns p hs = p + Z.of_nat i.
Proof.
  revert p i. induction hs as [|x hs IH]; intros p i Hl Hi Hj; simpl in Hl; [lia|].
  change (find_sub ns p (x :: hs)) with
      (if bool_decide (ns `prefix_of` x :: hs) then p else find_sub ns (p + 1) hs).
  destruct i as [|i].
  - rewrite bool_decide_true by done. lia.
  - rewrite bool_decide_false by (apply (Hj 0%nat); lia).
    rewrite (IH _ i); [lia|lia|done|]. intros j Hlt. apply (Hj (S j)). lia.
Qed.

Lemma find_sub_null ns p hs :
  (forall j, (j < length hs)%nat -> ~ ns `prefix_of` drop j hs) -> find_sub ns p hs = NULL.
Proof.
  revert p. induction hs as [|x hs IH]; intros p Hj; [done|].
  change (find_sub ns p (x :: hs)) with
      (if bool_decide (ns `prefix_of` x :: hs) then p else find_sub ns (p + 1) hs).
  rewrite bool_decide_false by (apply (Hj 0%nat); simpl; lia).
  apply IH. intros j Hlt. apply (Hj (S j)). simpl. lia.
Qed.

(** ** memcmp and the bounded copies *)

Fixpoint bcompare (a b : list Z) : Z :=
  match a, b with
  | x :: a', y :: b' => if x =? y then bcompare a' b' else if x <? y then -1 else 1
  | _, _ => 0
  end.

Lemma memcmp_spec m s1 s2 xs ys fuel :
  arr m s1 xs -> arr m s2 ys -> length xs = length ys -> (length xs < fuel)%nat ->
  memcmp fuel s1 s2 (zlen xs) m = Done (bcompare xs ys) m.
Proof.
  intros Hx Hy Hl Hf. unfold memcmp.
  assert (forall xs ys fuel i, arr m (s1 + i) xs -> arr m (s2 + i) ys -> length xs = length ys ->
    (length xs < fuel)%nat -> forall n, n = i + zlen xs ->
    while fuel (fun i =>
      if i <? n then
        a ← load8 (s1 + i);
        b ← load8 (s2 + i);
        mret (if negb (a =? b) then inr (if a <? b then -1 else 1) else inl (i + 1))
      else mret (inr 0)) i m = Done (bcompare xs ys) m) as L.
  { clear. induction xs as [|x xs IH]; intros [|y ys] fuel i Hx Hy Hl Hf n ->; simpl in Hl; try lia;
      (destruct fuel as [|fuel]; simpl in Hf; [lia|]); rewrite while_S.
    - destruct (Z.ltb_spec i (i + zlen (@nil Z))); [simpl in *; lia|]. done.
    - destruct (Z.ltb_spec i (i + zlen (x :: xs))); [|simpl in *; lia].
      destruct Hx as [Hx0 Hx], Hy as [Hy0 Hy]. ld Hx0. ld Hy0. simpl.
      destruct (x =? y); mstep; [|done]. apply IH; try lia.
      + by replace (s1 + (i + 1)) with (s1 + i + 1) by lia.
      + by replace (s2 + (i + 1)) with (s2 + i + 1) by lia. }
  apply L; try done; by rewrite Z.add_0_r.
Qed.

Lemma strlcpy_spec m d s bs size fuel :
  cstr m s bs -> 0 <= size -> mapped m d size -> (length bs < fuel)%nat ->
  (d + size <= s \/ s + zlen bs < d) ->
  strlcpy fuel d s size m =
    Done (zlen bs) (if size =? 0 then m else wr m d (take (Z.to_nat (size - 1)) bs ++ [0])).
Proof.
  intros Hs Hn Hm Hf Hd. unfold strlcpy. mstep. rewrite (strlen_spec _ _ bs) by done. mstep.
  destruct (Z.eqb_spec size 0); mstep; [done|].
  set (k := if size <=? zlen bs then size - 1 else zlen bs).
  assert (k = zlen (take (Z.to_nat (size - 1)) bs)) as ->.
  { unfold k. rewrite length_take. destruct (Z.leb_spec size (zlen bs)); lia. }
  pose proof (length_take bs (Z.to_nat (size - 1))) as Hlt.
  apply cstr_arr in Hs as [Ha Hb]. rewrite memcpy_spec; mstep.
  - rewrite store8_some by (apply wr_mapped with (a := d) (n := size); [done|lia]). mstep. f_equal.
    rewrite wr_app. done.
  - apply arr_app in Ha as [Ha _]. rewrite <- (take_drop (Z.to_nat (size - 1)) bs) in Ha.
    by apply arr_app in Ha as [Ha _].
  - apply Forall_take. eapply Forall_impl; [done|intros; blia].
  - intros a Hr. apply Hm. lia.
  - lia.
  - lia.
Qed.

Lemma stpcpy_spec m d s bs fuel :
  cstr m s bs -> mapped m d (zlen bs + 1) -> (length bs < fuel)%nat ->
  (d + zlen bs < s \/ s + zlen bs < d) ->
  stpcpy fuel d s m = Done (d + zlen bs) (wr m d (bs ++ [0])).
Proof.
  unfold stpcpy. revert m d s fuel. induction bs as [|b bs IH]; intros m d s fuel Hs Hm Hf Hd;
    (destruct fuel as [|fuel]; simpl in Hf; [lia|]); rewrite while_S; simpl in Hs.
  - ld Hs. rewrite store8_some by (apply Hm; simpl; lia). mstep. simpl. f_equal. lia.
  - destruct Hs as (Hb & ? & Hs). ld Hb. rewrite store8_some by (apply Hm; simpl; lia). mstep.
    destruct (Z.eqb_spec b 0); [lia|]. rewrite u8_byte by lia. simpl in Hd. rewrite IH.
    + simpl. f_equal. lia.
    + apply (cstr_wr_out m (s + 1) bs d [b]); [simpl; lia|done].
    + apply insert_mapped. intros a Ha. apply Hm. simpl. lia.
    + lia.
    + lia.
Qed.

(** ** Tokens

    [strtok_r] passes the character to [strchr] as a (signed) [char], and
    [strchr] compares it with unsigned characters, so a delimiter counts only
    when it is below 128. *)

Definition is_delim (ds : list Z) (c : Z) : bool := in_set ds c && (c <? 128).

Lemma find_byte_null c p bs :
  (forall a, p <= a <= p + zlen bs -> a <> NULL) ->
  (find_byte c p bs =? NULL) = negb (in_set bs c).
Proof.
  revert p. induction bs as [|b bs IH]; intros p Hp; simpl find_byte.
  - unfold in_set. by rewrite bool_decide_false by set_solver.
  - unfold in_set. destruct (Z.eqb_spec b c) as [->|].
    + rewrite bool_decide_true by set_solver. apply Z.eqb_neq, Hp. simpl. lia.
    + rewrite IH by (intros; apply Hp; simpl; lia). unfold in_set. f_equal.
      apply bool_decide_ext. set_solver.
Qed.

(** A string does not contain the NULL address. *)
Definition not_null (p n : Z) : Prop := forall a, p <= a <= p + n -> a <> NULL.

Lemma strchr_delim m delim ds c fuel :
  cstr m delim ds -> not_null delim (zlen ds) -> (length ds < fuel)%nat -> 0 < c < 256 ->
  exists r, strchr fuel delim (schar c) m = Done r m /\ (r =? NULL) = negb (is_delim ds c).
Proof.
  intros Hd Hn Hf Hc. rewrite (strchr_spec _ _ _ ds) by done. eexists. split; [done|].
  destruct (Z.eqb_spec (schar c) 0) as [E|].
  { apply (proj1 (schar_zero c ltac:(lia))) in E. lia. }
  rewrite find_byte_null by done. unfold is_delim. f_equal. unfold schar.
  destruct (Z.ltb_spec c 128); [by rewrite andb_true_r|].
  rewrite andb_false_r. apply bool_decide_false. intros Hin.
  pose proof (cstr_nz _ _ _ Hd) as H0. rewrite Forall_forall in H0. specialize (H0 _ Hin). blia.
Qed.

(** One call: skip delimiters, cut the token after its last character. *)
Lemma strtok_r_step m str delim save ds bs fuel :
  (if str =? NULL then save else str) <> NULL ->
  cstr m (if str =? NULL then save else str) bs -> cstr m delim ds ->
  not_null delim (zlen ds) -> (length bs < fuel)%nat -> (length ds < fuel)%nat ->
  let p := if str =? NULL then save else str in
  let k := span_len (is_delim ds) bs in
  let j := span_len (fun c => negb (is_delim ds c)) (drop k bs) in
  strtok_r fuel str delim save m =
    if bool_decide (k = length bs) then Done (NULL, NULL) m
    else if bool_decide (k + j = length bs)%nat then Done (p + Z.of_nat k, NULL) m
    else Done (p + Z.of_nat k, p + Z.of_nat (k + j) + 1) (<[p + Z.of_nat (k + j) := 0]> m).
Proof.
  intros Hnn Hs Hd Hdn Hf Hf' p k j. unfold strtok_r. fold p in Hnn, Hs |- *.
  destruct (Z.eqb_spec p NULL); [done|]. mstep.
  erewrite (scan_spec (fun c => nz c && is_delim ds c)); [|done| |exact Hs|lia].
  2: { intros q c Hq Hc. ld Hq. unfold nz. destruct (Z.eqb_spec c 0) as [->|]; mstep; [done|].
       destruct (strchr_delim m delim ds c fuel) as (r & -> & Hr); [done..|lia|]. mstep.
       rewrite Hr. by destruct (is_delim ds c). }
  mstep. rewrite (span_len_ext _ (is_delim ds)).
  2: { eapply Forall_impl; [by eapply cstr_nz|]. intros b Hb. cbn beta in *. unfold nz.
       by destruct (Z.eqb_spec b 0); [lia|]. }
  fold k. pose proof (span_len_le (is_delim ds) bs) as Hk. fold k in Hk.
  destruct (cstr_char m p bs (Z.of_nat k) Hs ltac:(lia)) as (b & Hb & Hl & ?).
  ld Hb. rewrite Nat2Z.id in Hl. case_bool_decide as E.
  { rewrite E, lookup_app_r, Nat.sub_diag in Hl by lia. injection Hl as <-. done. }
  rewrite lookup_app_l in Hl by lia. pose proof (cstr_nz _ _ _ Hs) as Hnz.
  pose proof (Forall_lookup_1 _ _ _ _ Hnz Hl) as Hb0. cbn beta in Hb0.
  destruct (Z.eqb_spec b 0); [lia|]. mstep.
  assert (cstr m (p + Z.of_nat k) (drop k bs)) as Hrest.
  { rewrite <- (take_drop k bs) in Hs. apply cstr_arr in Hs as [Ha Hfb]. rewrite <- app_assoc in Ha.
    apply arr_app in Ha as [_ Ha]. rewrite length_take, Nat.min_l in Ha by lia.
    apply cstr_arr. split; [done|]. by apply Forall_app in Hfb as [_ ?]. }
  erewrite (scan_spec (fun c => nz c && negb (is_delim ds c))); [|done| |exact Hrest|rewrite length_drop; lia].
  2: { intros q c Hq Hc. ld Hq. unfold nz. destruct (Z.eqb_spec c 0) as [->|]; mstep; [done|].
       destruct (strchr_delim m delim ds c fuel) as (r & -> & Hr); [done..|lia|]. mstep.
       rewrite Hr. by destruct (is_delim ds c). }
  mstep. rewrite (span_len_ext _ (fun c => negb (is_delim ds c))).
  2: { eapply Forall_impl; [by eapply cstr_nz|]. intros c Hc. cbn beta in *. unfold nz.
       by destruct (Z.eqb_spec c 0); [lia|]. }
  fold j. pose proof (span_len_le (fun c => negb (is_delim ds c)) (drop k bs)) as Hj.
  fold j in Hj. rewrite length_drop in Hj.
  replace (p + Z.of_nat k + Z.of_nat j) with (p + Z.of_nat (k + j)) by lia.
  destruct (cstr_char m p bs (Z.of_nat (k + j)) Hs ltac:(lia)) as (c & Hc & Hlc & ?).
  ld Hc. rewrite Nat2Z.id in Hlc. case_bool_decide as E'.
  { rewrite E', lookup_app_r, Nat.sub_diag in Hlc by lia. injection Hlc as <-. done. }
  rewrite lookup_app_l in Hlc by lia.
  pose proof (Forall_lookup_1 _ _ _ _ Hnz Hlc) as Hc0. cbn beta in Hc0.
  destruct (Z.eqb_spec c 0); [lia|]. mstep. by rewrite store8_some by eauto.
Qed.

(** The maximal runs of non-delimiters of a string. *)
Fixpoint words_aux (P : Z -> bool) (bs cur : list Z) : list (list Z) :=
  match bs with
  | [] => match cur with [] => [] | _ => [cur] end
  | b :: r =>
      if P b then match cur with [] => words_aux P r [] | _ => cur :: words_aux P r [] end
      else words_aux P r (cur ++ [b])
  end.
Definition words (P : Z -> bool) (bs : list Z) : list (list Z) := words_aux P bs [].

Lemma words_skip P bs : words P bs = words P (drop (span_len P bs) bs).
Proof.
  unfold words. induction bs as [|b bs IH]; simpl; [done|].
  destruct (P b) eqn:E; simpl; [done|]. by rewrite E.
Qed.

Lemma words_run P bs cur :
  cur <> [] ->
  let j := span_len (fun c => negb (P c)) bs in
  words_aux P bs cur = (cur ++ take j bs) :: words P (drop (S j) bs).
Proof.
  revert cur. induction bs as [|b bs IH]; intros cur Hc; simpl.
  - rewrite app_nil_r. by destruct cur.
  - destruct (P b) eqn:E; simpl.
    + rewrite app_nil_r. by destruct cur.
    + rewrite IH by (by destruct cur). by rewrite <- app_assoc.
Qed.

Lemma words_step P bs :
  let k := span_len P bs in
  let j := span_len (fun c => negb (P c)) (drop k bs) in
  (k < length bs)%nat ->
  words P bs = take j (drop k bs) :: words P (drop (S j) (drop k bs)).
Proof.
  intros k j Hk. rewrite words_skip. fold k.
  assert (forall bs, (span_len P bs < length bs)%nat ->
    exists b r, drop (span_len P bs) bs = b :: r /\ P b = false) as H.
  { clear. induction bs as [|b bs IH]; simpl; [lia|]. destruct (P b) eqn:E; simpl; eauto.
    intros. apply IH. lia. }
  destruct (H bs Hk) as (b & r & Hd & Hb). fold k in Hd. subst j. rewrite Hd. simpl. rewrite Hb. simpl.
  unfold words at 1. simpl. rewrite Hb. by rewrite words_run.
Qed.

Lemma words_none P bs : span_len P bs = length bs -> words P bs = [].
Proof. intros H. rewrite words_skip, H. by rewrite drop_all. Qed.

(** The caller's loop: [for (t = strtok_r(s, d, &sv); t; t = strtok_r(NULL, d, &sv))]. *)
Fixpoint strtok_loop (n fuel : nat) (str delim save : Z) : M mem (list Z) :=
  match n with
  | O => fun _ => NoFuel
  | S n' =>
      ts ← strtok_r fuel str delim save;
      if fst ts =? NULL then mret []
      else r ← strtok_loop n' fuel NULL delim (snd ts); mret (fst ts :: r)
  end.

Lemma cstr_insert_out m p bs a x :
  ~ (p <= a <= p + zlen bs) -> cstr m p bs -> cstr (<[a := x]> m) p bs.
Proof.
  rewrite !cstr_arr. intros Ha [H ?]. split; [|done]. apply arr_insert_out; [|done].
  rewrite length_app. simpl. lia.
Qed.

Lemma cstr_split m p l1 l2 : cstr m p (l1 ++ l2) -> arr m p l1 /\ cstr m (p + zlen l1) l2.
Proof.
  rewrite !cstr_arr. intros [Ha Hb]. rewrite <- app_assoc in Ha. apply arr_app in Ha as [? ?].
  apply Forall_app in Hb as [? ?]. done.
Qed.

Lemma cstr_ext m m' p bs :
  (forall a, p <= a <= p + zlen bs -> m' !! a = m !! a) -> cstr m p bs -> cstr m' p bs.
Proof.
  rewrite !cstr_arr. intros He [H ?]. split; [|done]. apply arr_intro. intros i b Hi.
  apply lookup_lt_Some in Hi as Hl. rewrite length_app in Hl. simpl in Hl.
  rewrite He by lia. by eapply arr_lookup.
Qed.

(** The loop finds exactly the words, in order, each a C string when the loop
    is done: later calls do not disturb earlier tokens. *)
Lemma strtok_loop_spec n fuel m str delim save ds bs :
  let p := if str =? NULL then save else str in
  (p = NULL /\ bs = [] \/ cstr m p bs /\ not_null p (zlen bs)) ->
  cstr m delim ds -> not_null delim (zlen ds) ->
  (delim + zlen ds < p \/ p + zlen bs < delim) ->
  (length bs < fuel)%nat -> (length ds < fuel)%nat -> (length bs < n)%nat ->
  exists ts m', strtok_loop n fuel str delim save m = Done ts m' /\
    Forall2 (cstr m') ts (words (is_delim ds) bs) /\
    (forall a, ~ (p <= a < p + zlen bs) -> m' !! a = m !! a).
Proof.
  revert m str save bs. induction n as [|n IH]; intros m str save bs p Hp Hd Hdn Hdis Hf Hf' Hn; [lia|].
  simpl. mstep. destruct Hp as [[Hp ->]|[Hs Hpn]].
  { unfold strtok_r. fold p. rewrite Hp. mstep. exists [], m. split_and!; [done|constructor|done]. }
  rewrite (strtok_r_step m str delim save ds bs); [|apply Hpn; lia|done..].
  fold p. set (k := span_len (is_delim ds) bs).
  set (j := span_len (fun c => negb (is_delim ds c)) (drop k bs)).
  pose proof (span_len_le (is_delim ds) bs) as Hk. fold k in Hk.
  pose proof (span_len_le (fun c => negb (is_delim ds c)) (drop k bs)) as Hj.
  fold j in Hj. rewrite length_drop in Hj.
  case_bool_decide as E.
  { mstep. exists [], m. rewrite words_none by done. split_and!; [done|constructor|done]. }
  rewrite words_step by (fold k; lia). fold k. fold j.
  assert (p + Z.of_nat k <> NULL) by (apply Hpn; lia).
  pose proof Hs as Hs0.
  assert (bs = take k bs ++ take j (drop k bs) ++ drop j (drop k bs)) as Hsplit
    by (by rewrite !take_drop).
  rewrite Hsplit in Hs. apply cstr_split in Hs as [_ Hs].
  rewrite length_take, Nat.min_l in Hs by lia.
  case_bool_decide as E'; mstep; (destruct (Z.eqb_spec (p + Z.of_nat k) NULL); [done|]); mstep.
  - destruct (IH m NULL NULL [] ltac:(by left) Hd Hdn) as (ts & m' & -> & Hts & Hout);
      [pose proof (Hdn 0); unfold NULL in *; simpl; lia|simpl; lia..|].
    mstep. eexists _, m'. split_and!; [done| |intros a Ha; apply Hout; simpl; lia].
    rewrite (drop_ge (drop k bs)) by (rewrite length_drop; lia).
    rewrite (drop_ge (drop k bs)), app_nil_r in Hs by (rewrite length_drop; lia).
    constructor; [|done]. eapply cstr_ext; [|exact Hs]. intros a Ha. apply Hout. simpl. lia.
  - set (q := p + Z.of_nat (k + j)) in *. set (bs' := drop (S j) (drop k bs)).
    assert (length bs' = length bs - k - S j)%nat as Hl' by (unfold bs'; rewrite !length_drop; lia).
    assert (drop j (drop k bs) = default 0 (bs !! (k + j)%nat) :: bs') as Hdj.
    { unfold bs'. destruct (lookup_lt_is_Some_2 bs (k + j)) as [c Hc]; [lia|].
      rewrite Hc. simpl. rewrite !drop_drop. rewrite (drop_S _ c) by done. f_equal. f_equal. lia. }
    apply cstr_split in Hs as [Htok Hs]. rewrite length_take, length_drop, Nat.min_l in Hs by lia.
    rewrite Hdj in Hs. destruct Hs as (_ & _ & Hs).
    replace (p + Z.of_nat k + Z.of_nat j) with q in Hs by (unfold q; lia).
    destruct (IH (<[q := 0]> m) NULL (q + 1) bs') as (ts & m' & -> & Hts & Hout);
      change (NULL =? NULL) with true in *; cbn iota in *; try lia; try done.
    + right. split; [apply cstr_insert_out; [lia|done]|]. intros a Ha. apply Hpn. lia.
    + apply cstr_insert_out; [lia|done].
    + mstep. eexists _, m'. split_and!; [done| |].
      * constructor; [|done]. apply cstr_arr. split.
        -- apply arr_app. rewrite length_take, length_drop, Nat.min_l by lia. split.
           ++ apply arr_intro. intros i c Hi. apply lookup_lt_Some in Hi as Hli.
              rewrite length_take, length_drop in Hli.
              rewrite Hout by lia. rewrite lookup_insert_ne by lia. by eapply arr_lookup.
           ++ simpl. split; [|done]. rewrite Hout by lia.
              replace (p + Z.of_nat k + Z.of_nat j) with q by (unfold q; lia). apply lookup_insert_eq.
        -- apply Forall_take, Forall_drop. by eapply cstr_nz.
      * intros a Ha. rewrite Hout by lia. apply lookup_insert_ne. lia.
Qed.
