(* ===== verification/CStrings.v ===== *)
(** * strings.c and libgen.c

    The BSD string functions, [ffs] and the path splitting functions. *)

From stdpp Require Import base tactics list gmap numbers strings.
From Stdlib Require Import ZArith Lia.
From S2P Require Import Prelude.
From S2P Require Import Memory.
From S2P Require Import Ctype.
From S2P Require Import CString.
From S2P Require Import CStringFacts.
From S2P Require Import SearchFacts.

(** ** strings.c *)

Definition strcasecmp (fuel : nat) (s1 s2 : Z) : M mem Z :=
  while fuel (fun '(s1, s2) =>
    a ← load8 s1;
    if a =? 0 then b ← load8 s2; mret (inr (u8 (tolower a) - u8 (tolower b)))
    else
      b ← load8 s2;
      if b =? 0 then mret (inr (u8 (tolower a) - u8 (tolower b)))
      else
        let c1 := u8 (tolower a) in
        let c2 := u8 (tolower b) in
        mret (if negb (c1 =? c2) then inr (c1 - c2) else inl (s1 + 1, s2 + 1))) (s1, s2).

Definition strncasecmp (fuel : nat) (s1 s2 n : Z) : M mem Z :=
  while fuel (fun '(s1, s2, n) =>
    if n =? 0 then mret (inr 0)
    else
      a ← load8 s1;
      if a =? 0 then b ← load8 s2; mret (inr (u8 (tolower a) - u8 (tolower b)))
      else
        b ← load8 s2;
        if b =? 0 then mret (inr (u8 (tolower a) - u8 (tolower b)))
        else
          let c1 := u8 (tolower a) in
          let c2 := u8 (tolower b) in
          mret (if negb (c1 =? c2) then inr (c1 - c2) else inl (s1 + 1, s2 + 1, n - 1)))
    (s1, s2, n).

Definition bzero (fuel : nat) (s n : Z) : M mem unit :=
  while fuel (fun '(p, n) =>
    if n =? 0 then mret (inr tt)
    else _ ← store8 p 0; mret (inl (p + 1, n - 1))) (s, n).

Definition bcopy (fuel : nat) (src dst n : Z) : M mem unit :=
  if dst <? src then copy_up fuel dst src n
  else if src <? dst then copy_down_pre fuel (dst + n) (src + n) n
  else mret tt.

Definition bcmp (fuel : nat) (s1 s2 n : Z) : M mem Z := memcmp fuel s1 s2 n.

(** [__builtin_ctz] of a non-zero 32-bit word. *)
Fixpoint ctz (n : nat) (x : Z) : Z :=
  match n with
  | O => 0
  | S n' => if Z.testbit x 0 then 0 else 1 + ctz n' (Z.shiftr x 1)
  end.

Definition ffs (i : Z) : Z := if i =? 0 then 0 else ctz 32 i + 1.

(** The portable tail of [ffs], for compilers without the builtin; [>>] on a
    negative [int] is an arithmetic shift. *)
Definition ffs_step (mask w : Z) (x : Z * Z) : Z * Z :=
  let '(bit, i) := x in
  if Z.land i mask =? 0 then (bit + w, Z.shiftr i w) else (bit, i).

Definition ffs_portable (i : Z) : Z :=
  if i =? 0 then 0
  else
    let '(bit, i) := ffs_step 3 2 (ffs_step 15 4 (ffs_step 255 8 (ffs_step 65535 16 (0, i)))) in
    let bit := if Z.land i 1 =? 0 then bit + 1 else bit in
    bit + 1.

Definition ffsll (val : Z) : Z :=
  let bit := ffs (i32 (u32 (Z.land val 4294967295))) in
  if negb (bit =? 0) then bit
  else
    let bit := ffs (i32 (u32 (Z.shiftr val 32))) in
    if negb (bit =? 0) then 32 + bit else 0.

Definition index (fuel : nat) (s c : Z) : M mem Z :=
  let ch := u8 c in
  while fuel (fun s =>
    x ← load8 s;
    if x =? 0 then mret (inr (if ch =? 0 then s else NULL))
    else mret (if x =? ch then inr s else inl (s + 1))) s.

Definition rindex (fuel : nat) (s c : Z) : M mem Z :=
  let ch := u8 c in
  while fuel (fun '(s, last) =>
    x ← load8 s;
    if x =? 0 then mret (inr (if ch =? 0 then s else last))
    else mret (inl (s + 1, if x =? ch then s else last))) (s, NULL).

(** ** libgen.c

    The functions return either the static string ["."], the literal ["/"], or
    a pointer into the path. *)

Inductive gen_result := dot | root_lit | in_path (p : Z).

Definition dirname (fuel : nat) (path : Z) : M mem gen_result :=
  if path =? NULL then mret dot
  else
    c ← load8 path;
    if c =? 0 then mret dot
    else
      last_slash ← strrchr fuel path 47;
      if last_slash =? NULL then mret dot
      else if last_slash =? path then mret root_lit
      else
        p ← while fuel (fun p =>
              if path <? p then
                x ← load8 p;
                mret (if x =? 47 then inl (p - 1) else inr p)
              else mret (inr p)) last_slash;
        x ← load8 path;
        if (p =? path) && (x =? 47) then mret root_lit
        else _ ← store8 (p + 1) 0; mret (in_path path).

(** [slash] is the address of the literal ["/"] that [basename] compares with. *)
Definition basename (fuel : nat) (slash path : Z) : M mem gen_result :=
  if path =? NULL then mret dot
  else
    c ← load8 path;
    if c =? 0 then mret dot
    else
      len ← strlen fuel path;
      _ ← while fuel (fun len =>
            if 1 <? len then
              x ← load8 (path + (len - 1));
              if x =? 47 then _ ← store8 (path + (len - 1)) 0; mret (inl (len - 1))
              else mret (inr len)
            else mret (inr len)) len;
      r ← strcmp fuel path slash;
      if r =? 0 then mret (in_path path)
      else
        last_slash ← strrchr fuel path 47;
        mret (in_path (if last_slash =? NULL then path else last_slash + 1)).

(** ** Case-insensitive comparison *)

Fixpoint casecmp (a b : list Z) : Z :=
  match a, b with
  | x :: a', y :: b' =>
      if tolower x =? tolower y then casecmp a' b' else tolower x - tolower y
  | [], [] => 0
  | x :: _, [] => tolower x
  | [], y :: _ => - tolower y
  end.

Lemma tolower_0 : tolower 0 = 0.
Proof. reflexivity. Qed.

Lemma strcasecmp_spec m a b xs ys fuel :
  cstr m a xs -> cstr m b ys -> (length xs < fuel)%nat ->
  strcasecmp fuel a b m = Done (casecmp xs ys) m.
Proof.
  unfold strcasecmp. revert a b ys fuel. induction xs as [|x xs IH]; intros a b ys fuel Ha Hb Hf;
    (destruct fuel as [|fuel]; simpl in Hf; [lia|]); rewrite while_S; simpl in Ha.
  - ld Ha. destruct ys as [|y ys]; simpl in Hb.
    + ld Hb. done.
    + destruct Hb as (Hb & ? & _). ld Hb. rewrite tolower_0, (u8_id (tolower y)); [done|].
      apply tolower_byte. lia.
  - destruct Ha as (Hx & ? & Ha). ld Hx. destruct (Z.eqb_spec x 0); [lia|]. mstep.
    assert (0 <= tolower x < 256) by (apply tolower_byte; lia). rewrite (u8_id (tolower x)) by lia.
    destruct ys as [|y ys]; simpl in Hb.
    + ld Hb. rewrite tolower_0. f_equal. simpl. change (u8 0) with 0. lia.
    + destruct Hb as (Hy & ? & Hb). ld Hy. destruct (Z.eqb_spec y 0); [lia|]. mstep.
      assert (0 <= tolower y < 256) by (apply tolower_byte; lia). rewrite (u8_id (tolower y)) by lia.
      simpl. destruct (Z.eqb_spec (tolower x) (tolower y)); mstep; [|done].
      apply IH; [done..|lia].
Qed.

(** ** ffs *)

(** [lowbit i k]: bit [k] is the lowest bit set in [i]. *)
Definition lowbit (i k : Z) : Prop :=
  0 <= k /\ Z.testbit i k = true /\ forall j, 0 <= j < k -> Z.testbit i j = false.

Lemma lowbit_unique i k k' : lowbit i k -> lowbit i k' -> k = k'.
Proof.
  intros (? & H1 & H2) (? & H3 & H4). destruct (Z.lt_trichotomy k k') as [?|[?|?]]; [|done|].
  - rewrite H4 in H1 by lia. done.
  - rewrite H2 in H3 by lia. done.
Qed.

Lemma lowbit_shift i w k : 0 <= w ->
  (forall j, 0 <= j < w -> Z.testbit i j = false) -> lowbit (Z.shiftr i w) k -> lowbit i (w + k).
Proof.
  intros Hw Hz (Hk & H1 & H2). split_and!; [lia| |].
  - rewrite Z.shiftr_spec in H1 by lia. by rewrite Z.add_comm.
  - intros j Hj. destruct (Z.lt_ge_cases j w); [apply Hz; lia|].
    specialize (H2 (j - w) ltac:(lia)). rewrite Z.shiftr_spec in H2 by lia.
    by replace (j - w + w) with j in H2 by lia.
Qed.

Lemma ctz_lowbit n x k : lowbit x k -> k < Z.of_nat n -> ctz n x = k.
Proof.
  revert x k. induction n as [|n IH]; intros x k H Hk; [destruct H; lia|]. cbn [ctz].
  destruct H as (H0 & H1 & H2). destruct (Z.eq_dec k 0) as [->|].
  - by rewrite H1.
  - rewrite H2 by lia. rewrite (IH _ (k - 1)); [lia| |lia]. split_and!; [lia| |].
    + rewrite Z.shiftr_spec by lia. by replace (k - 1 + 1) with k by lia.
    + intros j Hj. rewrite Z.shiftr_spec by lia. apply H2. lia.
Qed.

Lemma low_mask_bits i w : 0 <= w -> Z.land i (2 ^ w - 1) = 0 <-> forall j, 0 <= j < w -> Z.testbit i j = false.
Proof.
  intros Hw. replace (2 ^ w - 1) with (Z.ones w) by (rewrite Z.ones_equiv; lia). split.
  - intros H j Hj. apply (f_equal (fun z => Z.testbit z j)) in H.
    rewrite Z.land_spec, Z.bits_0, Z.ones_spec_low, andb_true_r in H by lia. done.
  - intros H. apply Z.bits_inj'. intros j Hj. rewrite Z.land_spec, Z.bits_0.
    destruct (Z.lt_ge_cases j w); [by rewrite H by lia|].
    by rewrite Z.ones_spec_high, andb_false_r by lia.
Qed.

(** One halving step: the lowest bit of the original word is [bit] plus the
    lowest bit of what is left, and what is left has it below the new width. *)
Lemma ffs_step_lowbit i bit r w k :
  0 < w -> lowbit r k -> k < 2 * w -> lowbit i (bit + k) ->
  exists bit' r' k', ffs_step (2 ^ w - 1) w (bit, r) = (bit', r') /\
    lowbit r' k' /\ k' < w /\ lowbit i (bit' + k').
Proof.
  intros Hw Hr Hk Hi. unfold ffs_step. destruct (Z.eqb_spec (Z.land r (2 ^ w - 1)) 0) as [E|E].
  - rewrite low_mask_bits in E by lia. destruct Hr as (H0 & H1 & H2).
    assert (w <= k) by (destruct (Z.lt_ge_cases k w); [rewrite E in H1 by lia; done|done]).
    exists (bit + w), (Z.shiftr r w), (k - w). split_and!; [done| |lia|].
    + split_and!; [lia|rewrite Z.shiftr_spec by lia; by replace (k - w + w) with k by lia|].
      intros j Hj. rewrite Z.shiftr_spec by lia. apply H2. lia.
    + by replace (bit + w + (k - w)) with (bit + k) by lia.
  - exists bit, r, k. split_and!; try done.
    destruct (Z.lt_ge_cases k w); [done|]. exfalso. apply E, low_mask_bits; [lia|].
    destruct Hr as (_ & _ & H2). intros j Hj. apply H2. lia.
Qed.

Lemma lowbit_exists i : INT32_MIN <= i <= INT32_MAX -> i <> 0 -> exists k, lowbit i k /\ k < 32.
Proof.
  intros Hi Hne.
  assert (forall n : nat, (forall j, 0 <= j < Z.of_nat n -> Z.testbit i j = false) \/
    exists k, lowbit i k /\ k < Z.of_nat n) as H.
  { induction n as [|n [IH|(k & Hk & ?)]]; [left; intros; lia| |right; exists k; split; [done|lia]].
    destruct (Z.testbit i (Z.of_nat n)) eqn:E.
    - right. exists (Z.of_nat n). split; [|lia]. split_and!; [lia|done|]. intros j ?. apply IH. lia.
    - left. intros j Hj. destruct (Z.eq_dec j (Z.of_nat n)) as [->|]; [done|]. apply IH. lia. }
  destruct (H 32%nat) as [H0|(k & ? & ?)]; [|exists k; split; [done|lia]].
  exfalso. change (Z.of_nat 32) with 32 in H0. rewrite <- low_mask_bits in H0 by lia.
  replace (2 ^ 32 - 1) with (Z.ones 32) in H0 by reflexivity. rewrite Z.land_ones in H0 by lia.
  unfold INT32_MIN, INT32_MAX in Hi. apply Z.mod_divide in H0 as [q Hq]; [|lia].
  change (2 ^ 32) with 4294967296 in Hq. lia.
Qed.

Lemma ffs_portable_lowbit i k :
  lowbit i k -> k < 32 -> i <> 0 -> ffs_portable i = k + 1.
Proof.
  intros Hi Hk Hne. unfold ffs_portable. destruct (Z.eqb_spec i 0); [done|].
  destruct (ffs_step_lowbit i 0 i 16 k) as (b1 & r1 & k1 & E1 & L1 & ? & I1); [lia|done|lia|done|].
  change (2 ^ 16 - 1) with 65535 in E1. rewrite E1.
  destruct (ffs_step_lowbit i b1 r1 8 k1) as (b2 & r2 & k2 & E2 & L2 & ? & I2); [lia|done|lia|done|].
  change (2 ^ 8 - 1) with 255 in E2. rewrite E2.
  destruct (ffs_step_lowbit i b2 r2 4 k2) as (b3 & r3 & k3 & E3 & L3 & ? & I3); [lia|done|lia|done|].
  change (2 ^ 4 - 1) with 15 in E3. rewrite E3.
  destruct (ffs_step_lowbit i b3 r3 2 k3) as (b4 & r4 & k4 & E4 & L4 & ? & I4); [lia|done|lia|done|].
  change (2 ^ 2 - 1) with 3 in E4. rewrite E4.
  rewrite (lowbit_unique i k (b4 + k4)) by done. f_equal.
  pose proof (low_mask_bits r4 1 ltac:(lia)) as Hm. change (2 ^ 1 - 1) with 1 in Hm.
  destruct L4 as (? & L4 & L4'). destruct (Z.eqb_spec (Z.land r4 1) 0) as [E|E].
  - rewrite Hm in E. destruct (Z.eq_dec k4 0) as [->|]; [|lia]. rewrite E in L4 by lia. done.
  - destruct (Z.eq_dec k4 0) as [->|]; [lia|]. exfalso. apply E, Hm.
    intros j Hj. apply L4'. lia.
Qed.

Lemma ffs_lowbit i k : lowbit i k -> k < 32 -> i <> 0 -> ffs i = k + 1.
Proof.
  intros H Hk Hne. unfold ffs. destruct (Z.eqb_spec i 0); [done|]. by rewrite (ctz_lowbit 32 i k).
Qed.

(** ** index and rindex *)

Lemma index_spec m s c bs fuel :
  cstr m s bs -> (length bs < fuel)%nat ->
  index fuel s c m = Done (if u8 c =? 0 then s + zlen bs else find_byte (u8 c) s bs) m.
Proof.
  unfold index. generalize (u8 c). intros ch. revert s fuel.
  induction bs as [|b bs IH]; intros s fuel Hs Hf;
    (destruct fuel as [|fuel]; simpl in Hf; [lia|]); rewrite while_S; simpl in Hs.
  - ld Hs. simpl. by rewrite Z.add_0_r.
  - destruct Hs as (Hb & ? & Hs). ld Hb. destruct (Z.eqb_spec b 0); [lia|]. mstep. simpl.
    destruct (Z.eqb_spec b ch) as [->|].
    + destruct (Z.eqb_spec ch 0); [lia|done].
    + rewrite IH by (done || lia). destruct (ch =? 0); [f_equal; lia|done].
Qed.

(** The address of the last occurrence, or [last] when there is none. *)
Fixpoint find_last (t p : Z) (bs : list Z) (last : Z) : Z :=
  match bs with
  | [] => last
  | b :: r => find_last t (p + 1) r (if b =? t then p else last)
  end.

Lemma find_last_none t p bs last : t ∉ bs -> find_last t p bs last = last.
Proof.
  revert p last. induction bs as [|b bs IH]; intros p last H; [done|]. apply not_elem_of_cons in H as [? ?].
  simpl. rewrite (proj2 (Z.eqb_neq b t)) by done. auto.
Qed.

Lemma find_last_some t p bs last i :
  bs !! i = Some t -> (forall j, (i < j)%nat -> bs !! j <> Some t) -> find_last t p bs last = p + Z.of_nat i.
Proof.
  revert p last i. induction bs as [|b bs IH]; intros p last i Hi Hj; [done|]. destruct i as [|i]; simpl in *.
  - injection Hi as ->. rewrite Z.eqb_refl. rewrite find_last_none; [lia|].
    intros [k Hk]%list_elem_of_lookup. by apply (Hj (S k) ltac:(lia)).
  - rewrite (IH _ _ i); [lia|done|]. intros j Hlt. by apply (Hj (S j) ltac:(lia)).
Qed.

(** Of the occurrences of a value there is a first one. *)
Lemma first_occurrence (bs : list Z) t i :
  bs !! i = Some t -> exists f, (f <= i)%nat /\ bs !! f = Some t /\ forall j, (j < f)%nat -> bs !! j <> Some t.
Proof.
  revert i. induction bs as [|b bs IH]; intros i Hi; [done|]. destruct (decide (b = t)) as [->|Hne].
  - exists 0%nat. split_and!; [lia|done|lia].
  - destruct i as [|i]; simpl in Hi; [congruence|]. destruct (IH i Hi) as (f & Hf & Hff & Hmin).
    exists (S f). split_and!; [lia|done|]. intros [|j] Hj; simpl; [congruence|]. apply Hmin. lia.
Qed.

Lemma rindex_spec m s c bs fuel :
  cstr m s bs -> (length bs < fuel)%nat ->
  rindex fuel s c m = Done (if u8 c =? 0 then s + zlen bs else find_last (u8 c) s bs NULL) m.
Proof.
  unfold rindex. generalize (u8 c). generalize NULL. intros l ch. revert l s fuel.
  induction bs as [|b bs IH]; intros l s fuel Hs Hf;
    (destruct fuel as [|fuel]; simpl in Hf; [lia|]); rewrite while_S; simpl in Hs.
  - ld Hs. simpl. by rewrite Z.add_0_r.
  - destruct Hs as (Hb & ? & Hs). ld Hb. destruct (Z.eqb_spec b 0); [lia|]. mstep. simpl.
    rewrite IH by (done || lia). destruct (ch =? 0); [f_equal; lia|done].
Qed.

Lemma bcopy_spec m s d bs fuel :
  arr m s bs -> bytes bs -> mapped m d (zlen bs) -> (length bs < fuel)%nat ->
  bcopy fuel s d (zlen bs) m = Done tt (wr m d bs).
Proof.
  intros Ha Hb Hm Hf. unfold bcopy. destruct (Z.ltb_spec d s).
  - by rewrite copy_up_spec by (done || lia).
  - destruct (Z.ltb_spec s d).
    + replace (d + zlen bs) with (d + zlen bs - 1 + 1) by lia.
      replace (s + zlen bs) with (s + zlen bs - 1 + 1) by lia.
      by rewrite copy_down_pre_eq, copy_down_spec by (done || lia).
    + replace d with s by lia. mstep. by rewrite wr_id.
Qed.
