(* ===== verification/StringProps.v ===== *)
(** * What string.c, strings.c, libgen.c and ctype.c promise *)

From stdpp Require Import base tactics list gmap numbers strings.
From Stdlib Require Import ZArith Lia.
From S2P Require Import Prelude.
From S2P Require Import Memory.
From S2P Require Import Ctype.
From S2P Require Import CString.
From S2P Require Import CStringFacts.
From S2P Require Import SearchFacts.
From S2P Require Import CStrings.

(** The string "a,bc" at 100 and the delimiters "," at 200. *)
Definition demo_mem : mem := wr (wr ∅ 100 [97; 44; 98; 99; 0; 0; 0; 0]) 200 [44; 0].

Lemma demo_str : cstr demo_mem 100 [97; 44; 98; 99].
Proof. vm_compute. intuition congruence. Qed.

Lemma demo_delim : cstr demo_mem 200 [44].
Proof. vm_compute. intuition congruence. Qed.

(** ** Memory *)

(** [memchr], which reads eight bytes at a time with the carry trick once
    it is aligned, finds the first byte equal to [(unsigned char)c] of the
    range, or NULL when there is none, and reads nothing outside the range. *)
Theorem memchr_first m p c bs fuel :
  arr m p bs -> bytes bs -> (length bs < fuel)%nat ->
  (forall i, bs !! i = Some (u8 c) -> (forall j, (j < i)%nat -> bs !! j <> Some (u8 c)) ->
     memchr fuel p c (zlen bs) m = Done (p + Z.of_nat i) m) /\
  (u8 c ∉ bs -> memchr fuel p c (zlen bs) m = Done NULL m).
Proof.
  intros Ha Hb Hf. rewrite (memchr_spec m p c bs fuel Ha Hb Hf). split.
  - intros i Hi Hj. f_equal. by apply find_byte_some.
  - intros Hn. f_equal. by apply find_byte_none.
Qed.

Definition demo_bytes : list Z := [1; 2; 3; 4; 5; 6; 7; 8; 255; 1; 9; 9].

Lemma memchr_first_witness :
  memchr 50 1003 9 12 (wr ∅ 1003 demo_bytes) = Done 1013 (wr ∅ 1003 demo_bytes).
Proof.
  apply (memchr_first _ 1003 9 demo_bytes 50 ltac:(apply wr_arr)
    ltac:(repeat constructor; lia) ltac:(simpl; lia)) with (i := 10%nat); [reflexivity|].
  intros j Hj. do 10 (destruct j as [|j]; [done|]). lia.
Defined.

(** [memmove] copies the bytes as they were before the call for every way
    in which the two ranges overlap, and changes nothing else. *)
Theorem memmove_overlap m d s bs fuel :
  arr m s bs -> bytes bs -> mapped m d (zlen bs) -> (length bs < fuel)%nat ->
  exists m', memmove fuel d s (zlen bs) m = Done d m' /\ arr m' d bs /\
    (forall a, ~ (d <= a < d + zlen bs) -> m' !! a = m !! a).
Proof.
  intros Ha Hb Hm Hf. exists (wr m d bs). split; [by apply memmove_spec|]. split; [apply wr_arr|].
  intros a. apply lookup_wr_out.
Qed.

Lemma memmove_overlap_witness :
  exists m', memmove 9 102 100 4 demo_mem = Done 102 m' /\ arr m' 102 [97; 44; 98; 99] /\
    (forall a, ~ (102 <= a < 102 + 4) -> m' !! a = demo_mem !! a).
Proof.
  apply (memmove_overlap demo_mem 102 100 [97; 44; 98; 99] 9).
  - vm_compute. intuition congruence.
  - repeat constructor; lia.
  - apply (mapped_check _ _ 4); [vm_compute; reflexivity|simpl; lia].
  - simpl. lia.
Defined.

(** ** Strings *)

(** [strlcpy] into a buffer of [size > 0] bytes: the buffer then holds the
    first [size - 1] characters of the source, terminated; the result is the
    source's length, so truncation shows; no byte outside the buffer changes. *)
Theorem strlcpy_bounded m d s bs size fuel :
  cstr m s bs -> 0 < size -> mapped m d size -> (length bs < fuel)%nat ->
  (d + size <= s \/ s + zlen bs < d) ->
  exists m', strlcpy fuel d s size m = Done (zlen bs) m' /\
    cstr m' d (take (Z.to_nat (size - 1)) bs) /\
    (forall a, ~ (d <= a < d + size) -> m' !! a = m !! a).
Proof.
  intros Hs Hsz Hm Hf Hd. exists (wr m d (take (Z.to_nat (size - 1)) bs ++ [0])).
  rewrite (strlcpy_spec m d s bs size fuel Hs ltac:(lia) Hm Hf Hd).
  rewrite (proj2 (Z.eqb_neq size 0)) by lia. split; [done|]. split.
  - apply cstr_arr. split; [apply wr_arr|]. apply Forall_take. by eapply cstr_nz.
  - intros a Ha. apply lookup_wr_out. rewrite length_app, length_take. simpl. lia.
Qed.

Lemma strlcpy_bounded_witness :
  exists m', strlcpy 9 104 100 3 (wr ∅ 100 [97; 98; 99; 0; 0; 0; 0]) = Done 3 m' /\
    cstr m' 104 [97; 98] /\
    (forall a, ~ (104 <= a < 104 + 3) -> m' !! a = wr ∅ 100 [97; 98; 99; 0; 0; 0; 0] !! a).
Proof.
  apply (strlcpy_bounded _ 104 100 [97; 98; 99] 3 9).
  - vm_compute. intuition congruence.
  - lia.
  - apply (mapped_check _ _ 3); [vm_compute; reflexivity|simpl; lia].
  - simpl. lia.
  - simpl. lia.
Defined.

(** [strstr] returns the first position at which the needle occurs, and
    NULL when it occurs at none. *)
Theorem strstr_first m h n hs ns fuel :
  h <> NULL -> n <> NULL -> ns <> [] -> cstr m h hs -> cstr m n ns -> (length hs < fuel)%nat ->
  (forall i, ns `prefix_of` drop i hs -> (forall j, (j < i)%nat -> ~ ns `prefix_of` drop j hs) ->
     strstr fuel h n m = Done (h + Z.of_nat i) m) /\
  ((forall j, ~ ns `prefix_of` drop j hs) -> strstr fuel h n m = Done NULL m).
Proof.
  intros Hh Hn Hne Hch Hcn Hf. rewrite (strstr_spec m h n hs ns fuel Hh Hn Hch Hcn Hf).
  rewrite bool_decide_false by done. split.
  - intros i Hi Hj. f_equal. apply find_sub_first; [|done..].
    destruct (decide (i < length hs)%nat); [done|]. rewrite drop_ge in Hi by lia.
    apply prefix_nil_inv in Hi. done.
  - intros Hj. f_equal. apply find_sub_null. intros j _. apply Hj.
Qed.

Lemma strstr_first_witness : strstr 9 100 200 demo_mem = Done 101 demo_mem.
Proof.
  apply (strstr_first demo_mem 100 200 [97; 44; 98; 99] [44] 9 ltac:(done) ltac:(done) ltac:(done) demo_str demo_delim
    ltac:(simpl; lia)) with (i := 1%nat); [by exists [98; 99]|].
  intros j Hj. replace j with 0%nat by lia. intros [k Hk]. done.
Defined.

(** Calling [strtok_r] until it returns NULL yields, in order, the maximal
    runs of characters that are not delimiters, each as a terminated string. *)
Theorem strtok_words m str delim ds bs fuel :
  cstr m str bs -> not_null str (zlen bs) -> cstr m delim ds -> not_null delim (zlen ds) ->
  (delim + zlen ds < str \/ str + zlen bs < delim) ->
  (length bs < fuel)%nat -> (length ds < fuel)%nat ->
  exists ts m', strtok_loop (S (length bs)) fuel str delim NULL m = Done ts m' /\
    Forall2 (cstr m') ts (words (is_delim ds) bs).
Proof.
  intros Hs Hn Hd Hdn Hdis Hf Hf'. assert (str <> NULL) as Hstr by (apply Hn; lia).
  destruct (strtok_loop_spec (S (length bs)) fuel m str delim NULL ds bs) as (ts & m' & R & H & _);
    rewrite ?(proj2 (Z.eqb_neq str NULL) Hstr); eauto.
Qed.

Lemma strtok_words_witness :
  exists ts m', strtok_loop 5 9 100 200 NULL demo_mem = Done ts m' /\ Forall2 (cstr m') ts [[97]; [98; 99]].
Proof.
  apply (strtok_words demo_mem 100 200 [44] [97; 44; 98; 99] 9 demo_str).
  - intros a Ha. unfold NULL. simpl in Ha. lia.
  - apply demo_delim.
  - intros a Ha. unfold NULL. simpl in Ha. lia.
  - simpl. lia.
  - simpl. lia.
  - simpl. lia.
Defined.

(** [strcmp] is a comparison: its result is zero exactly when the strings
    are equal, and otherwise the difference of the first two characters that
    differ, as signed chars. *)
Theorem strcmp_decides m a b xs ys fuel :
  cstr m a xs -> cstr m b ys -> (length xs < fuel)%nat ->
  exists r, strcmp fuel a b m = Done r m /\ (r = 0 <-> xs = ys) /\
    (forall l x y xs' ys', xs = l ++ x :: xs' -> ys = l ++ y :: ys' -> x <> y -> r = schar x - schar y).
Proof.
  intros Ha Hb Hf. exists (scmp xs ys). split; [by apply strcmp_spec|].
  split; [apply scmp_zero; by eapply cstr_nz|].
  intros l x y xs' ys' -> -> Hxy. clear Ha Hb Hf. induction l as [|z l IH]; simpl.
  - by rewrite (proj2 (Z.eqb_neq x y) Hxy).
  - by rewrite Z.eqb_refl.
Qed.

Lemma strcmp_decides_witness :
  exists r, strcmp 9 100 200 demo_mem = Done r demo_mem /\ (r = 0 <-> [97; 44; 98; 99] = [44]) /\
    (forall l x y xs' ys', [97; 44; 98; 99] = l ++ x :: xs' -> [44] = l ++ y :: ys' -> x <> y -> r = schar x - schar y).
Proof. apply (strcmp_decides demo_mem 100 200 _ _ 9 demo_str demo_delim). simpl. lia. Defined.

(** [strspn] and [strcspn] with the same set measure the two kinds of
    prefix: every character before the result is in the set (is not), and the
    character at it, if any, is not (is). *)
Theorem strspn_strcspn m s set bs xs fuel :
  cstr m s bs -> cstr m set xs -> (length bs < fuel)%nat -> (length xs < fuel)%nat ->
  exists i j, strspn fuel s set m = Done (Z.of_nat i) m /\ strcspn fuel s set m = Done (Z.of_nat j) m /\
    Forall (fun c => c ∈ xs) (take i bs) /\ (forall c, bs !! i = Some c -> c ∉ xs) /\
    Forall (fun c => c ∉ xs) (take j bs) /\ (forall c, bs !! j = Some c -> c ∈ xs).
Proof.
  intros Hs Hx Hf Hf'. do 2 eexists. split; [by apply strspn_spec|]. split; [by apply strcspn_spec|].
  assert (forall c, in_set xs c = true <-> c ∈ xs) as Hin.
  { intros c. unfold in_set. by rewrite bool_decide_eq_true. }
  pose proof (span_len_run (in_set xs) bs) as [H1 H2].
  pose proof (span_len_run (fun c => negb (in_set xs c)) bs) as [H3 H4].
  split_and!.
  - eapply Forall_impl; [exact H1|]. intros c. apply Hin.
  - intros c Hc Hel. apply H2 in Hc. apply Hin in Hel. congruence.
  - eapply Forall_impl; [exact H3|]. intros c Hc Hel. apply Hin in Hel. cbn in Hc. by rewrite Hel in Hc.
  - intros c Hc. apply Hin. apply H4 in Hc. by destruct (in_set xs c).
Qed.

Lemma strspn_strcspn_witness :
  exists i j, strspn 9 100 200 demo_mem = Done (Z.of_nat i) demo_mem /\ strcspn 9 100 200 demo_mem = Done (Z.of_nat j) demo_mem /\
    Forall (fun c => c ∈ [44]) (take i [97; 44; 98; 99]) /\ (forall c, [97; 44; 98; 99] !! i = Some c -> c ∉ [44]) /\
    Forall (fun c => c ∉ [44]) (take j [97; 44; 98; 99]) /\ (forall c, [97; 44; 98; 99] !! j = Some c -> c ∈ [44]).
Proof. apply (strspn_strcspn demo_mem 100 200 _ _ 9 demo_str demo_delim); simpl; lia. Defined.

(** "/a/b" at 100. *)
Definition demo_path : mem := wr ∅ 100 [47; 97; 47; 98; 0].

(** [rindex] of strings.c finds the last occurrence of a character.
    [strrchr] of string.c, meant to do the same, calls [memchr] and returns the
    first: the two agree exactly when the character occurs only once. *)
Theorem rindex_last m s c bs fuel i :
  cstr m s bs -> (S (length bs) < fuel)%nat -> 0 < u8 c -> bs !! i = Some (u8 c) ->
  (forall j, (i < j)%nat -> bs !! j <> Some (u8 c)) ->
  rindex fuel s c m = Done (s + Z.of_nat i) m /\
  (strrchr fuel s c m = rindex fuel s c m <-> forall j, (j < i)%nat -> bs !! j <> Some (u8 c)).
Proof.
  intros Hs Hf Hc Hi Hj.
  assert (rindex fuel s c m = Done (s + Z.of_nat i) m) as R.
  { rewrite (rindex_spec m s c bs fuel Hs ltac:(lia)). rewrite (proj2 (Z.eqb_neq (u8 c) 0)) by lia. f_equal.
    by apply find_last_some. }
  split; [done|]. rewrite R, (strrchr_spec m s c bs fuel Hs Hf). apply lookup_lt_Some in Hi as Hl. split.
  - intros E j Hlt Hcj. injection E as E.
    destruct (first_occurrence bs (u8 c) j Hcj) as (f & Hfj & Hff & Hmin).
    rewrite (find_byte_some _ _ _ f) in E; [lia| |].
    + apply lookup_lt_Some in Hff as Hlf. by rewrite lookup_app_l.
    + intros j' Hj'. apply lookup_lt_Some in Hff as Hlf. rewrite lookup_app_l by lia. by apply Hmin.
  - intros Hmin. f_equal. apply find_byte_some; [by rewrite lookup_app_l|].
    intros j Hlt. rewrite lookup_app_l by lia. by apply Hmin.
Qed.

Lemma rindex_last_witness :
  rindex 9 100 47 demo_path = Done (100 + Z.of_nat 2) demo_path /\
  (strrchr 9 100 47 demo_path = rindex 9 100 47 demo_path <-> forall j, (j < 2)%nat -> [47; 97; 47; 98] !! j <> Some 47).
Proof.
  apply (rindex_last demo_path 100 47 [47; 97; 47; 98] 9 2);
    [vm_compute; intuition congruence|simpl; lia|done|done|].
  intros j Hj. do 3 (destruct j as [|j]; [lia|]). destruct j; done.
Defined.

(** ** strings.c and ctype.c *)

(** The portable binary search of [ffs] and the compiler's count of
    trailing zeros agree on every [int], and both are one more than the index
    of the lowest bit that is set. *)
Theorem ffs_portable_agrees i :
  INT32_MIN <= i <= INT32_MAX ->
  ffs_portable i = ffs i /\
  (i <> 0 -> Z.testbit i (ffs i - 1) = true /\ forall j, 0 <= j < ffs i - 1 -> Z.testbit i j = false).
Proof.
  intros Hi. destruct (decide (i = 0)) as [->|Hne]; [done|].
  destruct (lowbit_exists i Hi Hne) as (b & Hb & Hlt). pose proof Hb as (Hb0 & Hb1 & Hb2).
  rewrite (ffs_portable_lowbit i b Hb Hlt Hne), (ffs_lowbit i b Hb Hlt Hne).
  replace (b + 1 - 1) with b by lia. done.
Qed.

Lemma ffs_portable_agrees_witness :
  ffs_portable INT32_MIN = ffs INT32_MIN /\
  (INT32_MIN <> 0 -> Z.testbit INT32_MIN (ffs INT32_MIN - 1) = true /\
   forall j, 0 <= j < ffs INT32_MIN - 1 -> Z.testbit INT32_MIN j = false).
Proof. apply (ffs_portable_agrees INT32_MIN). unfold INT32_MIN, INT32_MAX. lia. Defined.

(** [strcasecmp] returns zero exactly when the strings are the same up to
    the case of ASCII letters. *)
Theorem strcasecmp_equal m a b xs ys fuel :
  cstr m a xs -> cstr m b ys -> (length xs < fuel)%nat ->
  exists r, strcasecmp fuel a b m = Done r m /\ (r = 0 <-> tolower <$> xs = tolower <$> ys).
Proof.
  intros Ha Hb Hf. exists (casecmp xs ys). split; [by apply strcasecmp_spec|].
  apply cstr_nz in Ha, Hb. clear Hf m a b. revert ys Hb.
  assert (forall x, 0 < x < 256 -> tolower x <> 0) as Hnz.
  { intros x Hx. rewrite tolower_ref by lia. unfold upper_ref, Ctype.within. repeat zcase; simpl; lia. }
  induction Ha as [|x xs Hx _ IH]; intros ys Hb; destruct Hb as [|y ys Hy Hb]; simpl; try done.
  - specialize (Hnz y Hy). split; [lia|done].
  - specialize (Hnz x Hx). split; [lia|done].
  - destruct (Z.eqb_spec (tolower x) (tolower y)) as [E|E].
    + rewrite IH by done. rewrite E. split; [intros H|intros H; injection H as H]; [f_equal|]; exact H.
    + split; [lia|]. intros [= ? ?]. done.
Qed.

Lemma strcasecmp_equal_witness :
  exists r, strcasecmp 9 100 200 demo_mem = Done r demo_mem /\
    (r = 0 <-> tolower <$> [97; 44; 98; 99] = tolower <$> [44]).
Proof. apply (strcasecmp_equal demo_mem 100 200 _ _ 9 demo_str demo_delim). simpl. lia. Defined.

(** The twelve classification macros, which index a 384-entry bit table,
    agree with the C locale's definition on every byte, and the case tables
    shift exactly the ASCII letters. *)
Theorem ctype_c_locale c : 0 <= c < 256 -> classes_agree c = true /\ cases_agree c = true.
Proof. intros Hc. split; [by apply classes_ok|by apply cases_ok]. Qed.

Lemma ctype_c_locale_witness : classes_agree 200 = true /\ cases_agree 200 = true.
Proof. apply (ctype_c_locale 200). lia. Defined.
