(* ===== verification/NumConv.v ===== *)
(** * stdlib.c: number conversions

    [atoi], [atol], [strtoul], [strtol], [strtoull], [strtoll]. A conversion
    returns its value and the pointer it stores through [endptr] (every exit of
    the source stores one when [endptr] is not NULL).

    Tests of a [char] against ASCII bounds give the same answer on the byte and
    on the signed character, so they are written on the byte. *)

From stdpp Require Import base tactics list gmap numbers strings.
From Stdlib Require Import ZArith Lia.
From S2P Require Import Prelude.
From S2P Require Import Memory.
From S2P Require Import Ctype.
From S2P Require Import CStringFacts.

(** Memory and [errno]. *)
Record cst := { c_mem : mem; c_errno : Z }.

Definition set_errno (e : Z) : M cst unit :=
  modify (fun c => {| c_mem := c_mem c; c_errno := e |}).
Definition on_mem {A} (c : M mem A) : M cst A :=
  zoom c_mem (fun m c => {| c_mem := m; c_errno := c_errno c |}) c.
Definition load (p : Z) : M cst Z := on_mem (load8 p).

Definition EINVAL : Z := 22.
Definition ERANGE : Z := 34.
Definition LONG_MAX : Z := INT64_MAX.
Definition LONG_MIN : Z := INT64_MIN.
Definition ULONG_MAX : Z := UINT64_MAX.

(** ** atoi, atol

    Overflow of a signed [int] or [long] is undefined behaviour. *)

Definition is_blank6 (c : Z) : bool :=
  (c =? 32) || (c =? 9) || (c =? 10) || (c =? 13) || (c =? 12) || (c =? 11).

(** [result * 10 + digit] in a signed type with maximum [mx]. *)
Definition acc10 (mx result d : Z) : option Z :=
  if result * 10 + d <=? mx then Some (result * 10 + d) else None.

Definition ato (mx : Z) (fuel : nat) (s : Z) : M mem Z :=
  if s =? NULL then mret 0
  else
    s ← while fuel (fun s => c ← load8 s; mret (if is_blank6 c then inl (s + 1) else inr s)) s;
    c ← load8 s;
    let '(sign, s) := if c =? 45 then (-1, s + 1) else if c =? 43 then (1, s + 1) else (1, s) in
    while fuel (fun '(s, result) =>
      c ← load8 s;
      if (48 <=? c) && (c <=? 57) then
        match acc10 mx result (c - 48) with
        | Some r => mret (inl (s + 1, r))
        | None => undefined
        end
      else mret (inr (sign * result))) (s, 0).

Definition atoi : nat -> Z -> M mem Z := ato INT32_MAX.
Definition atol : nat -> Z -> M mem Z := ato LONG_MAX.

(** ** The common prefix of the four [strto*] functions *)

(** The digit value of a character, as the four loops compute it. *)
Definition digit_of (c : Z) : option Z :=
  if (48 <=? c) && (c <=? 57) then Some (c - 48)
  else if (97 <=? c) && (c <=? 122) then Some (c - 97 + 10)
  else if (65 <=? c) && (c <=? 90) then Some (c - 65 + 10)
  else None.

(** White space, sign, and the base prefix: returns the position, whether the
    number is negative, and the base. *)
Definition strto_prefix (fuel : nat) (nptr base : Z) : M cst (Z * bool * Z) :=
  s ← while fuel (fun s => c ← load s; mret (if isspace c then inl (s + 1) else inr s)) nptr;
  c ← load s;
  let neg := c =? 45 in
  let s := if (c =? 43) || (c =? 45) then s + 1 else s in
  if base =? 0 then
    c0 ← load s;
    if c0 =? 48 then
      c1 ← load (s + 1);
      if (c1 =? 120) || (c1 =? 88) then
        c2 ← load (s + 2);
        mret (if isxdigit c2 then (s + 2, neg, 16) else (s + 1, neg, 8))
      else mret (s + 1, neg, 8)
    else mret (s, neg, 10)
  else if base =? 16 then
    c0 ← load s;
    if c0 =? 48 then
      c1 ← load (s + 1);
      mret (if (c1 =? 120) || (c1 =? 88) then (s + 2, neg, base) else (s, neg, base))
    else mret (s, neg, base)
  else mret (s, neg, base).

(** The digit loop of [strtoul]. *)
Definition strtoul_loop (fuel : nat) (base : Z) : Z * Z * bool -> M cst (Z * Z * bool) :=
  while (X := Z * Z * bool) (R := Z * Z * bool) fuel (fun '(s, result, any) =>
        c ← load s;
        if c =? 0 then mret (inr (s, result, any))
        else match digit_of c with
             | None => mret (inr (s, result, any))
             | Some digit =>
                 if base <=? digit then mret (inr (s, result, any))
                 else if (ULONG_MAX - digit) / u64 base <? result then
                   _ ← set_errno ERANGE;
                   mret (inr (s, ULONG_MAX, true))
                 else mret (inl (s + 1, u64 (result * base + digit), true))
             end).

Definition strtoul (fuel : nat) (nptr base : Z) : M cst (Z * Z) :=
  pre ← strto_prefix fuel nptr base;
  let '(s, neg, base) := (pre : Z * bool * Z) in
  r ← strtoul_loop fuel base (s, 0, false);
  let '(s, result, any) := r in
  if negb any then _ ← set_errno EINVAL; mret (0, nptr)
  else if neg then mret (u64 (- i64 result), s)
  else mret (result, s).

(** The digit loop of [strtol]. *)
Definition strtol_loop (fuel : nat) (neg : bool) (base cutoff cutlim : Z) : Z * Z * Z -> M cst (Z * Z * Z) :=
  while (X := Z * Z * Z) (R := Z * Z * Z) fuel (fun '(s, result, any) =>
          c ← load s;
          if c =? 0 then mret (inr (s, result, any))
          else match digit_of c with
               | None => mret (inr (s, result, any))
               | Some digit =>
                   if base <=? digit then mret (inr (s, result, any))
                   else if 0 <=? any then
                     if (cutoff <? result) || ((result =? cutoff) && (cutlim <? digit)) then
                       _ ← set_errno ERANGE;
                       mret (inl (s + 1, if neg then u64 LONG_MIN else LONG_MAX, -1))
                     else mret (inl (s + 1, u64 (result * base + digit), 1))
                   else mret (inl (s + 1, result, any))
               end).

Definition strtol (fuel : nat) (nptr base : Z) : M cst (Z * Z) :=
  pre ← strto_prefix fuel nptr base;
  let '(s, neg, base) := (pre : Z * bool * Z) in
  if (base <? 2) || (36 <? base) then _ ← set_errno EINVAL; mret (0, nptr)
  else
    let cutoff0 := if neg then u64 (- LONG_MIN) else LONG_MAX in
    let cutlim := cutoff0 mod base in
    let cutoff := cutoff0 / base in
    r ← strtol_loop fuel neg base cutoff cutlim (s, 0, 0);
    let '(s, result, any) := r in
    if any =? 0 then _ ← set_errno EINVAL; mret (0, nptr)
    else if any <? 0 then mret (i64 result, s)
    else mret (if neg then i64 (- i64 result) else i64 result, s).

(** The digit loop of [strtoull]. *)
Definition strtoull_loop (fuel : nat) (base : Z) : Z * Z * bool * bool -> M cst (Z * Z * bool * bool) :=
  while (X := Z * Z * bool * bool) (R := Z * Z * bool * bool) fuel (fun '(s, result, overflowed, any) =>
        c ← load s;
        if c =? 0 then mret (inr (s, result, overflowed, any))
        else match digit_of c with
             | None => mret (inr (s, result, overflowed, any))
             | Some digit =>
                 if base <=? digit then mret (inr (s, result, overflowed, any))
                 else
                   let overflowed :=
                     overflowed || ((ULONG_MAX - digit) / u64 base <? result) in
                   let result := if (overflowed : bool) then ULONG_MAX
                                 else u64 (result * base + digit) in
                   mret (inl (s + 1, result, overflowed, true))
             end).

Definition strtoull (fuel : nat) (nptr base : Z) : M cst (Z * Z) :=
  pre ← strto_prefix fuel nptr base;
  let '(s, neg, base) := (pre : Z * bool * Z) in
  r ← strtoull_loop fuel base (s, 0, false, false);
  let '(s, result, overflowed, any) := r in
  if negb any then _ ← set_errno EINVAL; mret (0, nptr)
  else if (overflowed : bool) then _ ← set_errno ERANGE; mret (ULONG_MAX, s)
  else if neg then mret (u64 (- i64 result), s)
  else mret (result, s).

(** The digit loop of [strtoll]. *)
Definition strtoll_loop (fuel : nat) (base cutoff_div cutlim : Z) : Z * Z * bool * bool -> M cst (Z * Z * bool * bool) :=
  while (X := Z * Z * bool * bool) (R := Z * Z * bool * bool) fuel (fun '(s, result, overflowed, any) =>
          c ← load s;
          if c =? 0 then mret (inr (s, result, overflowed, any))
          else match digit_of c with
               | None => mret (inr (s, result, overflowed, any))
               | Some digit =>
                   if base <=? digit then mret (inr (s, result, overflowed, any))
                   else if negb overflowed then
                     if (cutoff_div <? result) || ((result =? cutoff_div) && (cutlim <? digit))
                     then mret (inl (s + 1, result, true, true))
                     else mret (inl (s + 1, u64 (result * base + digit), overflowed, true))
                   else mret (inl (s + 1, result, overflowed, true))
               end).

Definition strtoll (fuel : nat) (nptr base : Z) : M cst (Z * Z) :=
  pre ← strto_prefix fuel nptr base;
  let '(s, neg, base) := (pre : Z * bool * Z) in
  if (base <? 2) || (36 <? base) then _ ← set_errno EINVAL; mret (0, nptr)
  else
    let cutoff := if neg then LONG_MAX + 1 else LONG_MAX in
    let cutlim := cutoff mod base in
    let cutoff_div := cutoff / base in
    r ← strtoll_loop fuel base cutoff_div cutlim (s, 0, false, false);
    let '(s, result, overflowed, any) := r in
    if negb any then _ ← set_errno EINVAL; mret (0, nptr)
    else if (overflowed : bool) then
      _ ← set_errno ERANGE; mret (if neg then LONG_MIN else LONG_MAX, s)
    else mret (if neg then i64 (- i64 result) else i64 result, s).

(** ** Reference: the digits of a string and their value *)

Fixpoint digits (base : Z) (bs : list Z) : list Z :=
  match bs with
  | [] => []
  | b :: r => match digit_of b with
              | Some d => if base <=? d then [] else d :: digits base r
              | None => []
              end
  end.

Definition dval (base : Z) (ds : list Z) (acc : Z) : Z := foldl (fun a d => a * base + d) acc ds.

Lemma digits_nonneg base bs : Forall (fun d => 0 <= d < base) (digits base bs).
Proof.
  induction bs as [|b bs IH]; simpl; [constructor|].
  destruct (digit_of b) as [d|] eqn:E; [|constructor].
  destruct (Z.leb_spec base d); [constructor|]. constructor; [|done]. split; [|done].
  unfold digit_of in E. repeat case_match; simplify_eq; lia.
Qed.

Lemma dval_ge base ds acc :
  1 <= base -> 0 <= acc -> Forall (fun d => 0 <= d < base) ds -> acc <= dval base ds acc.
Proof.
  intros Hb Ha H. revert acc Ha. induction H as [|d ds Hd _ IH]; intros acc Ha; [done|].
  simpl. cbn beta in Hd. specialize (IH (acc * base + d) ltac:(nia)). unfold dval in *. nia.
Qed.

(** ** Loop lemmas *)

Lemma load_run p c : load p c =
  match c_mem c !! p with Some b => Done b c | None => Undef end.
Proof. destruct c. unfold load, on_mem, zoom, load8. simpl. by destruct (c_mem0 !! p). Qed.

Ltac cld H := mstep; rewrite load_run; cbn [c_mem]; rewrite H; mstep.

Lemma digit_of_0 : digit_of 0 = None.
Proof. reflexivity. Qed.

(** [result * base + digit] exceeds [cutoff] exactly when the division test of
    the source says so. *)
Lemma cutoff_test base cutoff result d :
  1 <= base -> 0 <= cutoff -> 0 <= d < base ->
  ((cutoff / base <? result) || ((result =? cutoff / base) && (cutoff mod base <? d)))
  = (cutoff <? result * base + d).
Proof.
  intros Hb Hc Hd. pose proof (Z.div_mod cutoff base ltac:(lia)).
  pose proof (Z.mod_pos_bound cutoff base ltac:(lia)).
  destruct (Z.ltb_spec (cutoff / base) result); simpl.
  - symmetry. apply Z.ltb_lt. nia.
  - destruct (Z.eqb_spec result (cutoff / base)) as [->|]; simpl.
    + destruct (Z.ltb_spec (cutoff mod base) d); symmetry; [apply Z.ltb_lt|apply Z.ltb_ge]; nia.
    + symmetry. apply Z.ltb_ge. nia.
Qed.

Lemma ull_test base result d :
  1 <= base -> 0 <= d < base -> base <= ULONG_MAX ->
  ((ULONG_MAX - d) / u64 base <? result) = (ULONG_MAX <? result * base + d).
Proof.
  intros Hb Hd Hm. rewrite u64_id by (unfold ULONG_MAX in *; lia). pose proof (Z.div_mod (ULONG_MAX - d) base ltac:(lia)).
  pose proof (Z.mod_pos_bound (ULONG_MAX - d) base ltac:(lia)).
  destruct (Z.ltb_spec ((ULONG_MAX - d) / base) result); symmetry; [apply Z.ltb_lt|apply Z.ltb_ge]; nia.
Qed.

(** ** The prefix *)

Lemma cstr_nth m p bs i :
  cstr m p bs -> (i <= length bs)%nat -> m !! (p + Z.of_nat i) = Some (nth i bs 0).
Proof.
  revert p i. induction bs as [|b bs IH]; intros p i; simpl.
  - intros H Hi. destruct i; [|lia]. by rewrite Z.add_0_r.
  - intros (Hb & _ & H) Hi. destruct i as [|i]; [by rewrite Z.add_0_r|].
    replace (p + Z.of_nat (S i)) with (p + 1 + Z.of_nat i) by lia. apply IH; [done|lia].
Qed.

(** [n] characters of [bs] were read, white space, sign and base prefix. *)
Definition skip_sign (bs : list Z) : nat :=
  let n := span_len isspace bs in
  if (nth n bs 0 =? 43) || (nth n bs 0 =? 45) then S n else n.

Definition prefix_ref (base : Z) (bs : list Z) : nat * bool * Z :=
  let n := skip_sign bs in
  let hex := (nth n bs 0 =? 48) && ((nth (S n) bs 0 =? 120) || (nth (S n) bs 0 =? 88)) in
  let '(n, base) :=
    if base =? 0 then
      if hex && isxdigit (nth (S (S n)) bs 0) then (S (S n), 16)
      else if nth n bs 0 =? 48 then (S n, 8) else (n, 10)
    else if (base =? 16) && hex then (S (S n), base) else (n, base) in
  (n, nth (span_len isspace bs) bs 0 =? 45, base).

Lemma nth_pos_lt (bs : list Z) i : nth i bs 0 <> 0 -> (i < length bs)%nat.
Proof. intros H. destruct (decide (i < length bs)%nat); [done|]. by rewrite nth_overflow in H by lia. Qed.

Lemma load_nth c p bs i :
  cstr (c_mem c) p bs -> (i <= length bs)%nat ->
  load (p + Z.of_nat i) c = Done (nth i bs 0) c.
Proof. intros H Hi. rewrite load_run. by rewrite (cstr_nth _ _ _ _ H Hi). Qed.

(** A scan over [cst] rather than memory alone. *)
Lemma cscan_spec (P : Z -> bool) (body : Z -> M cst (Z + Z)) c :
  P 0 = false ->
  (forall p b, c_mem c !! p = Some b -> 0 <= b < 256 ->
     body p c = Done (if P b then inl (p + 1) else inr p) c) ->
  forall bs fuel s, cstr (c_mem c) s bs -> (length bs < fuel)%nat ->
  while fuel body s c = Done (s + Z.of_nat (span_len P bs)) c.
Proof.
  intros H0 Hbody bs. induction bs as [|b bs IH]; intros fuel s Hs Hf;
    (destruct fuel as [|fuel]; simpl in Hf; [lia|]); rewrite while_S; simpl in Hs.
  - rewrite (Hbody s 0) by (done || lia). rewrite H0. simpl. f_equal. lia.
  - destruct Hs as (Hb & ? & Hs). rewrite (Hbody s b) by (done || lia). simpl.
    destruct (P b); [|f_equal; simpl; lia].
    rewrite IH by (done || lia). f_equal. lia.
Qed.

Lemma skip_sign_le bs : (skip_sign bs <= length bs)%nat.
Proof.
  unfold skip_sign. pose proof (span_len_le isspace bs).
  destruct (_ || _) eqn:E; [|done]. apply nth_pos_lt. lia.
Qed.

Lemma prefix_len base bs : (fst (fst (prefix_ref base bs)) <= length bs)%nat.
Proof.
  unfold prefix_ref. pose proof (skip_sign_le bs) as Hn. set (n := skip_sign bs) in *.
  destruct ((nth n bs 0 =? 48) && _) eqn:Ex.
  - assert (S (S n) <= length bs)%nat by (apply nth_pos_lt; lia).
    destruct (base =? 0); [|destruct (base =? 16)]; simpl; try done.
    destruct (isxdigit _); simpl; [done|]. destruct (nth n bs 0 =? 48); simpl; lia.
  - destruct (base =? 0); simpl; [|by rewrite andb_false_r].
    destruct (Z.eqb_spec (nth n bs 0) 48); simpl; [apply nth_pos_lt; lia|done].
Qed.

Lemma strto_prefix_spec fuel nptr base bs c :
  cstr (c_mem c) nptr bs -> (length bs < fuel)%nat ->
  strto_prefix fuel nptr base c =
  Done (let '(n, neg, b) := prefix_ref base bs in (nptr + Z.of_nat n, neg, b)) c.
Proof.
  intros Hs Hf. unfold strto_prefix. mstep.
  rewrite (cscan_spec isspace _ c) with (bs := bs); try done.
  2:{ intros p b Hb Hr. by cld Hb. }
  unfold prefix_ref. pose proof (span_len_le isspace bs) as Hn.
  mstep. rewrite (load_nth _ _ bs) by done. mstep.
  match goal with |- context [if (?a =? 43) || (?a =? 45) then ?x + 1 else ?x] =>
    replace (if (a =? 43) || (a =? 45) then x + 1 else x) with (nptr + Z.of_nat (skip_sign bs))
      by (unfold skip_sign; case_match; lia) end.
  pose proof (skip_sign_le bs) as Hn1. set (n1 := skip_sign bs) in *.
  assert (nth n1 bs 0 = 48 -> (S n1 <= length bs)%nat) as H1 by (intros; apply nth_pos_lt; lia).
  replace (nptr + Z.of_nat n1 + 1) with (nptr + Z.of_nat (S n1)) by lia.
  replace (nptr + Z.of_nat n1 + 2) with (nptr + Z.of_nat (S (S n1))) by lia.
  destruct (base =? 0); [|destruct (base =? 16); [simpl|done]];
    rewrite (bind_done _ _ _ _ _ (load_nth _ _ bs _ Hs Hn1));
    (destruct (Z.eqb_spec (nth n1 bs 0) 48) as [E|]; [simpl|done]);
    rewrite (bind_done _ _ _ _ _ (load_nth _ _ bs _ Hs (H1 E)));
    destruct ((nth (S n1) bs 0 =? 120) || (nth (S n1) bs 0 =? 88)) eqn:Ex; try done.
  rewrite (bind_done _ _ _ _ _ (load_nth _ _ bs _ Hs (nth_pos_lt bs (S n1) ltac:(lia)))).
  mstep. by destruct (isxdigit _).
Qed.

(** ** The digit loops *)

Definition with_errno (e : Z) (c : cst) : cst := {| c_mem := c_mem c; c_errno := e |}.

Lemma set_errno_run e c : set_errno e c = Done tt (with_errno e c).
Proof. done. Qed.

(** Case analysis of the character the loop looks at: it is the terminator, no
    digit of the base, or the digit [d]. *)
Lemma digits_cons base b bs :
  digits base (b :: bs) =
  match digit_of b with
  | Some d => if base <=? d then [] else d :: digits base bs
  | None => []
  end.
Proof. done. Qed.

Lemma digit_of_range b d : digit_of b = Some d -> 0 <= d < 36.
Proof. unfold digit_of. repeat case_match; intros; simplify_eq; lia. Qed.

(** Opens one iteration of a digit loop on [b :: bs]. *)
Ltac digit_step Hb d :=
  cld Hb;
  match goal with |- context [?b =? 0] => destruct (Z.eqb_spec b 0); [lia|] end;
  rewrite digits_cons;
  match goal with |- context [digit_of ?b] =>
    destruct (digit_of b) as [d|] eqn:?;
    [ match goal with |- context [?base <=? d] =>
        destruct (Z.leb_spec base d); [mstep; simpl; rewrite ?Z.add_0_r; try done|mstep] end
    | mstep; simpl; rewrite ?Z.add_0_r; try done]
  end.

Lemma strtol_loop_over fuel neg base cutoff cutlim bs s r c :
  cstr (c_mem c) s bs -> (length bs < fuel)%nat ->
  strtol_loop fuel neg base cutoff cutlim (s, r, -1) c
  = Done (s + zlen (digits base bs), r, -1) c.
Proof.
  unfold strtol_loop. revert fuel s. induction bs as [|b bs IH]; intros fuel s Hs Hf;
    (destruct fuel as [|fuel]; simpl in Hf; [lia|]); rewrite while_S; simpl in Hs.
  - cld Hs. simpl. by rewrite Z.add_0_r.
  - destruct Hs as (Hb & ? & Hs). digit_step Hb d.
    change (0 <=? -1) with false. mstep. rewrite IH by (done || lia). simpl. do 2 f_equal. f_equal. lia.
Qed.

Lemma strtol_loop_spec fuel neg base cutoff bs s acc any c :
  cstr (c_mem c) s bs -> (length bs < fuel)%nat -> 2 <= base ->
  0 <= acc <= cutoff -> cutoff <= ULONG_MAX -> 0 <= any ->
  let ds := digits base bs in
  strtol_loop fuel neg base (cutoff / base) (cutoff mod base) (s, acc, any) c
  = if dval base ds acc <=? cutoff
    then Done (s + zlen ds, dval base ds acc, if ds then any else 1) c
    else Done (s + zlen ds, if neg then u64 LONG_MIN else LONG_MAX, -1) (with_errno ERANGE c).
Proof.
  unfold strtol_loop. revert fuel s acc any. induction bs as [|b bs IH]; intros fuel s acc any Hs Hf Hb2 Ha Hc Hany;
    (destruct fuel as [|fuel]; simpl in Hf; [lia|]); rewrite while_S; simpl in Hs; cbv zeta.
  - cld Hs. simpl. destruct (Z.leb_spec acc cutoff); [|lia]. by rewrite Z.add_0_r.
  - assert (acc <=? cutoff = true) as Hle by lia.
    destruct Hs as (Hb & ? & Hs). digit_step Hb d; [by rewrite Hle| |by rewrite Hle].
    pose proof (digit_of_range _ _ Heqo) as Hd.
    assert (0 <= acc * base + d) as Hp by (pose proof (Z.mul_nonneg_nonneg acc base); lia).
    rewrite (proj2 (Z.leb_le 0 any)) by lia. rewrite cutoff_test by lia.
    assert (1 <= base) as Hb1 by lia. simpl.
    pose proof (dval_ge base (digits base bs) (acc * base + d) Hb1 Hp (digits_nonneg _ _)) as Hge.
    unfold dval in Hge |- *. simpl in Hge |- *.
    destruct (Z.ltb_spec cutoff (acc * base + d)).
    + rewrite (proj2 (Z.leb_gt _ _)) by lia. mstep. rewrite set_errno_run.
      fold (strtol_loop fuel neg base (cutoff / base) (cutoff mod base)). mstep.
      rewrite (strtol_loop_over _ _ _ _ _ bs) by (done || lia). do 2 f_equal. f_equal. lia.
    + mstep. rewrite (u64_id (acc * base + d)) by (unfold ULONG_MAX in *; lia).
      rewrite IH by (done || lia). unfold dval.
      replace (s + 1 + zlen (digits base bs)) with (s + Z.of_nat (S (length (digits base bs)))) by lia.
      by destruct (digits base bs).
Qed.

Lemma strtoll_loop_over fuel base cutoff cutlim bs s r any c :
  cstr (c_mem c) s bs -> (length bs < fuel)%nat ->
  strtoll_loop fuel base cutoff cutlim (s, r, true, any) c
  = Done (s + zlen (digits base bs), r, true, if digits base bs then any else true) c.
Proof.
  unfold strtoll_loop. revert fuel s any. induction bs as [|b bs IH]; intros fuel s any Hs Hf;
    (destruct fuel as [|fuel]; simpl in Hf; [lia|]); rewrite while_S; simpl in Hs.
  - cld Hs. simpl. by rewrite Z.add_0_r.
  - destruct Hs as (Hb & ? & Hs). digit_step Hb d. rewrite IH by (done || lia). simpl.
    replace (s + 1 + zlen (digits base bs)) with (s + Z.of_nat (S (length (digits base bs)))) by lia.
    by destruct (digits base bs).
Qed.

(** The value [strtoll] keeps when it overflows is never used: the spec leaves
    it open. *)
Lemma strtoll_loop_spec fuel base cutoff bs s acc any c :
  cstr (c_mem c) s bs -> (length bs < fuel)%nat -> 2 <= base ->
  0 <= acc <= cutoff -> cutoff <= ULONG_MAX ->
  let ds := digits base bs in
  if dval base ds acc <=? cutoff
  then strtoll_loop fuel base (cutoff / base) (cutoff mod base) (s, acc, false, any) c
       = Done (s + zlen ds, dval base ds acc, false, if ds then any else true) c
  else exists r, strtoll_loop fuel base (cutoff / base) (cutoff mod base) (s, acc, false, any) c
       = Done (s + zlen ds, r, true, true) c.
Proof.
  revert fuel s acc any. induction bs as [|b bs IH]; intros fuel s acc any Hs Hf Hb2 Ha Hc;
    (destruct fuel as [|fuel]; simpl in Hf; [lia|]); simpl in Hs; cbv zeta.
  - simpl. destruct (Z.leb_spec acc cutoff); [|lia]. unfold strtoll_loop. rewrite while_S.
    cld Hs. simpl. by rewrite Z.add_0_r.
  - destruct Hs as (Hb & ? & Hs). specialize (IH fuel (s + 1)).
    unfold strtoll_loop in IH |- *. rewrite while_S.
    assert (acc <=? cutoff = true) as Hle by lia.
    digit_step Hb d; [by rewrite Hle| |by rewrite Hle].
    pose proof (digit_of_range _ _ Heqo) as Hd.
    assert (0 <= acc * base + d) as Hp by (pose proof (Z.mul_nonneg_nonneg acc base); lia). rewrite cutoff_test by lia.
    pose proof (dval_ge base (digits base bs) (acc * base + d) ltac:(lia) Hp (digits_nonneg _ _)) as Hge.
    unfold dval in *. simpl in Hge |- *.
    destruct (Z.ltb_spec cutoff (acc * base + d)).
    + rewrite (proj2 (Z.leb_gt _ _)) by lia. mstep. exists acc.
      fold (strtoll_loop fuel base (cutoff / base) (cutoff mod base)).
      rewrite (strtoll_loop_over _ _ _ _ bs) by (done || lia).
      replace (s + 1 + zlen (digits base bs)) with (s + Z.of_nat (S (length (digits base bs)))) by lia.
      by destruct (digits base bs).
    + mstep. rewrite (u64_id (acc * base + d)) by (unfold ULONG_MAX in *; lia).
      specialize (IH (acc * base + d) true Hs ltac:(lia) Hb2 ltac:(lia) Hc). simpl in IH.
      replace (s + 1 + zlen (digits base bs)) with (s + Z.of_nat (S (length (digits base bs)))) in IH by lia.
      destruct (_ <=? cutoff); [rewrite IH|done]. by destruct (digits base bs).
Qed.

Lemma strtoull_loop_spec fuel base bs s acc over any c :
  cstr (c_mem c) s bs -> (length bs < fuel)%nat -> 2 <= base <= 36 ->
  0 <= acc <= ULONG_MAX -> (over = true -> acc = ULONG_MAX) ->
  let ds := digits base bs in
  let over' := over || (ULONG_MAX <? dval base ds acc) in
  strtoull_loop fuel base (s, acc, over, any) c
  = Done (s + zlen ds, if over' then ULONG_MAX else dval base ds acc, over', if ds then any else true) c.
Proof.
  unfold strtoull_loop. revert fuel s acc over any.
  induction bs as [|b bs IH]; intros fuel s acc over any Hs Hf Hb2 Ha Ho;
    (destruct fuel as [|fuel]; simpl in Hf; [lia|]); rewrite while_S; simpl in Hs; cbv zeta.
  all: assert (ULONG_MAX <? acc = false) as Hle by lia.
  - cld Hs. simpl. rewrite Z.add_0_r, Hle, orb_false_r. destruct over; [|done]. by rewrite Ho.
  - destruct Hs as (Hb & ? & Hs). digit_step Hb d.
    1,3: rewrite Hle, orb_false_r; destruct over; [by rewrite Ho|done].
    pose proof (digit_of_range _ _ Heqo) as Hd.
    assert (0 <= acc * base + d) as Hp by (pose proof (Z.mul_nonneg_nonneg acc base); lia).
    rewrite ull_test by (unfold ULONG_MAX, UINT64_MAX in *; lia).
    pose proof (dval_ge base (digits base bs) (acc * base + d) ltac:(lia) Hp (digits_nonneg _ _)) as Hge.
    unfold dval in *. simpl in Hge |- *.
    set (o := over || (ULONG_MAX <? acc * base + d)).
    rewrite IH; [|done|lia|done| |].
    + replace (s + 1 + zlen (digits base bs)) with (s + Z.of_nat (S (length (digits base bs)))) by lia.
      assert (o || (ULONG_MAX <? foldl (fun a d => a * base + d) (if o then ULONG_MAX else u64 (acc * base + d)) (digits base bs))
        = over || (ULONG_MAX <? foldl (fun a d => a * base + d) (acc * base + d) (digits base bs))) as E.
      { subst o. destruct over; [done|]. simpl. destruct (Z.ltb_spec ULONG_MAX (acc * base + d)); simpl.
        - symmetry. apply Z.ltb_lt. lia.
        - rewrite (u64_id (acc * base + d)) by (unfold ULONG_MAX in *; lia). done. }
      rewrite E. subst o. destruct over; simpl in *; [by destruct (digits base bs)|].
      destruct (Z.ltb_spec ULONG_MAX (acc * base + d)); simpl.
      * rewrite (proj2 (Z.ltb_lt _ _)) by lia. by destruct (digits base bs).
      * rewrite (u64_id (acc * base + d)) by (unfold ULONG_MAX in *; lia). by destruct (digits base bs).
    + destruct o; [unfold ULONG_MAX, UINT64_MAX; lia|]. apply u64_range.
    + by intros ->.
Qed.

Lemma strtoul_loop_spec fuel base bs s acc any c :
  cstr (c_mem c) s bs -> (length bs < fuel)%nat -> 2 <= base <= 36 -> 0 <= acc ->
  let ds := digits base bs in
  dval base ds acc <= ULONG_MAX ->
  strtoul_loop fuel base (s, acc, any) c
  = Done (s + zlen ds, dval base ds acc, if ds then any else true) c.
Proof.
  unfold strtoul_loop. revert fuel s acc any.
  induction bs as [|b bs IH]; intros fuel s acc any Hs Hf Hb2 Ha;
    (destruct fuel as [|fuel]; simpl in Hf; [lia|]); rewrite while_S; simpl in Hs; cbv zeta; intros Hv.
  - cld Hs. simpl. by rewrite Z.add_0_r.
  - destruct Hs as (Hb & ? & Hs). revert Hv. digit_step Hb d.
    pose proof (digit_of_range _ _ Heqo) as Hd.
    assert (0 <= acc * base + d) as Hp by (pose proof (Z.mul_nonneg_nonneg acc base); lia).
    rewrite ull_test by (unfold ULONG_MAX, UINT64_MAX in *; lia).
    pose proof (dval_ge base (digits base bs) (acc * base + d) ltac:(lia) Hp (digits_nonneg _ _)) as Hge.
    unfold dval in *. simpl in Hge |- *. intros Hv. rewrite (proj2 (Z.ltb_ge _ _)) by lia. mstep.
    rewrite (u64_id (acc * base + d)) by (unfold ULONG_MAX in *; lia). rewrite IH by (done || lia).
    replace (s + 1 + zlen (digits base bs)) with (s + Z.of_nat (S (length (digits base bs)))) by lia.
    by destruct (digits base bs).
Qed.

(** ** The conversions as functions of the string *)

(** Value, number of characters read, and [errno] of a signed conversion. *)
Definition strtol_ref (base : Z) (bs : list Z) (errno : Z) : Z * nat * Z :=
  let '(n, neg, b) := prefix_ref base bs in
  let ds := digits b (drop n bs) in
  if (b <? 2) || (36 <? b) || bool_decide (ds = []) then (0, 0%nat, EINVAL)
  else
    let v := if neg then - dval b ds 0 else dval b ds 0 in
    (Z.max LONG_MIN (Z.min LONG_MAX v), (n + length ds)%nat,
     if (LONG_MIN <=? v) && (v <=? LONG_MAX) then errno else ERANGE).

Definition strtoull_ref (base : Z) (bs : list Z) (errno : Z) : Z * nat * Z :=
  let '(n, neg, b) := prefix_ref base bs in
  let ds := digits b (drop n bs) in
  if bool_decide (ds = []) then (0, 0%nat, EINVAL)
  else
    let v := dval b ds 0 in
    if v <=? ULONG_MAX then (u64 (if neg then - v else v), (n + length ds)%nat, errno)
    else (ULONG_MAX, (n + length ds)%nat, ERANGE).

(** How a result of the reference is returned. *)
Definition ref_done (nptr : Z) (c : cst) (r : Z * nat * Z) : outcome cst (Z * Z) :=
  let '(v, n, e) := r in Done (v, nptr + Z.of_nat n) (with_errno e c).

Lemma with_errno_id c : with_errno (c_errno c) c = c.
Proof. by destruct c. Qed.

Lemma cstr_drop m p bs n :
  cstr m p bs -> (n <= length bs)%nat -> cstr m (p + Z.of_nat n) (drop n bs).
Proof.
  revert p n. induction bs as [|b bs IH]; intros p [|n] H Hn; simpl in *;
    rewrite ?Z.add_0_r; try done; [lia|].
  destruct H as (_ & _ & H). replace (p + Z.of_nat (S n)) with (p + 1 + Z.of_nat n) by lia.
  apply IH; [done|lia].
Qed.

(** Splits a conversion after its prefix. *)
Ltac strto_start base bs Hs Hf n neg b Hd :=
  mstep; rewrite (strto_prefix_spec _ _ _ bs) by done;
  pose proof (prefix_len base bs) as Hn;
  destruct (prefix_ref base bs) as [[n neg] b] eqn:?; cbn [fst] in Hn; mstep;
  pose proof (cstr_drop _ _ _ n Hs Hn) as Hd;
  assert (length (drop n bs) < _)%nat by (eapply Nat.le_lt_trans; [|exact Hf]; rewrite length_drop; lia).

(** The final conversions: a magnitude up to [cut] keeps its value, and the
    clamped one is the end of the range. *)
Definition signed_cut (neg : bool) : Z := if neg then LONG_MAX + 1 else LONG_MAX.
Definition apply_sign (neg : bool) (v : Z) : Z := if neg then - v else v.
Definition clamp_long (v : Z) : Z := Z.max LONG_MIN (Z.min LONG_MAX v).

Lemma i64_min : i64 (- i64 (LONG_MAX + 1)) = LONG_MIN.
Proof. reflexivity. Qed.

Lemma signed_in_range neg v :
  0 <= v <= signed_cut neg ->
  (if neg then i64 (- i64 v) else i64 v) = clamp_long (apply_sign neg v) /\
  (LONG_MIN <=? apply_sign neg v) && (apply_sign neg v <=? LONG_MAX) = true.
Proof.
  unfold signed_cut, clamp_long, apply_sign. intros Hv. split.
  - destruct neg.
    + destruct (decide (v = LONG_MAX + 1)) as [->|]; [reflexivity|].
      rewrite (i64_id v), i64_id; unfold LONG_MAX, LONG_MIN, INT64_MAX, INT64_MIN in *; lia.
    + rewrite i64_id; unfold LONG_MAX, LONG_MIN, INT64_MAX, INT64_MIN in *; lia.
  - unfold LONG_MAX, LONG_MIN, INT64_MAX, INT64_MIN in *. destruct neg; lia.
Qed.

Lemma signed_out_of_range neg v :
  signed_cut neg < v ->
  clamp_long (apply_sign neg v) = (if neg then LONG_MIN else LONG_MAX) /\
  (LONG_MIN <=? apply_sign neg v) && (apply_sign neg v <=? LONG_MAX) = false.
Proof.
  unfold signed_cut, clamp_long, apply_sign, LONG_MAX, LONG_MIN, INT64_MAX, INT64_MIN.
  destruct neg; lia.
Qed.

Lemma strtol_ok fuel nptr base bs c :
  cstr (c_mem c) nptr bs -> (length bs < fuel)%nat ->
  strtol fuel nptr base c = ref_done nptr c (strtol_ref base bs (c_errno c)).
Proof.
  intros Hs Hf. unfold strtol, strtol_ref. strto_start base bs Hs Hf n neg b Hd.
  destruct (Z.ltb_spec b 2); simpl; [mstep; by rewrite Z.add_0_r|].
  destruct (Z.ltb_spec 36 b); simpl; [mstep; by rewrite Z.add_0_r|].
  replace (if neg then u64 (- LONG_MIN) else LONG_MAX) with (signed_cut neg) by (by destruct neg).
  assert (0 <= 0 <= signed_cut neg /\ signed_cut neg <= ULONG_MAX) as [Hc0 Hc1]
    by (destruct neg; vm_compute; repeat split; congruence).
  mstep. rewrite (strtol_loop_spec _ _ _ (signed_cut neg) (drop n bs)) by (done || lia).
  pose proof (dval_ge b (digits b (drop n bs)) 0 ltac:(lia) ltac:(lia) (digits_nonneg _ _)) as Hv.
  change (if neg then - ?v else ?v) with (apply_sign neg v).
  fold (clamp_long (apply_sign neg (dval b (digits b (drop n bs)) 0))).
  destruct (digits b (drop n bs)) as [|d ds] eqn:Eds.
  { simpl. rewrite (proj2 (Z.leb_le _ _)) by lia. mstep. simpl. by rewrite Z.add_0_r. }
  rewrite bool_decide_eq_false_2 by done.
  destruct (Z.leb_spec (dval b (d :: ds) 0) (signed_cut neg)) as [Hle|Hgt]; mstep.
  - destruct (signed_in_range neg _ (conj Hv Hle)) as [<- ->]. simpl. mstep.
    rewrite with_errno_id. do 2 f_equal. lia.
  - destruct (signed_out_of_range neg _ Hgt) as [-> ->]. simpl. mstep.
    replace (i64 (if neg then u64 LONG_MIN else LONG_MAX)) with (if neg then LONG_MIN else LONG_MAX)
      by (by destruct neg). do 2 f_equal. lia.
Qed.

Lemma strtoll_ok fuel nptr base bs c :
  cstr (c_mem c) nptr bs -> (length bs < fuel)%nat ->
  strtoll fuel nptr base c = ref_done nptr c (strtol_ref base bs (c_errno c)).
Proof.
  intros Hs Hf. unfold strtoll, strtol_ref. strto_start base bs Hs Hf n neg b Hd.
  destruct (Z.ltb_spec b 2); simpl; [mstep; by rewrite Z.add_0_r|].
  destruct (Z.ltb_spec 36 b); simpl; [mstep; by rewrite Z.add_0_r|].
  fold (signed_cut neg).
  assert (0 <= 0 <= signed_cut neg /\ signed_cut neg <= ULONG_MAX) as [Hc0 Hc1]
    by (destruct neg; vm_compute; repeat split; congruence).
  pose proof (strtoll_loop_spec fuel b (signed_cut neg) (drop n bs) (nptr + Z.of_nat n) 0 false c
    Hd ltac:(done) ltac:(lia) Hc0 Hc1) as L. cbv zeta in L.
  pose proof (dval_ge b (digits b (drop n bs)) 0 ltac:(lia) ltac:(lia) (digits_nonneg _ _)) as Hv.
  change (if neg then - ?v else ?v) with (apply_sign neg v).
  fold (clamp_long (apply_sign neg (dval b (digits b (drop n bs)) 0))).
  destruct (Z.leb_spec (dval b (digits b (drop n bs)) 0) (signed_cut neg)) as [Hle|Hgt]; mstep.
  - rewrite L. destruct (signed_in_range neg _ (conj Hv Hle)) as [<- ->].
    destruct (digits b (drop n bs)) as [|d ds]; simpl; mstep; [by rewrite Z.add_0_r|].
    rewrite with_errno_id. do 2 f_equal. lia.
  - destruct L as [r L]. rewrite L. destruct (signed_out_of_range neg _ Hgt) as [-> ->]. mstep.
    destruct (digits b (drop n bs)) as [|d ds].
    { simpl in Hgt. lia. }
    simpl. mstep. do 2 f_equal. lia.
Qed.

(** The base, once the prefix is read, is one the digit loops can use. *)
Lemma prefix_base base bs n neg b :
  base = 0 \/ 2 <= base <= 36 -> prefix_ref base bs = (n, neg, b) -> 2 <= b <= 36.
Proof.
  intros Hb. unfold prefix_ref. destruct (Z.eqb_spec base 0).
  - destruct (_ && isxdigit _); [|destruct (_ =? 48)]; intros [= <- <- <-]; lia.
  - destruct (_ && _); intros [= <- <- <-]; lia.
Qed.

Lemma u64_neg_i64 v : u64 (- i64 v) = u64 (- v).
Proof.
  unfold u64, i64, wrapu, wraps. change (2 ^ (64 - 1)) with (2 ^ 63).
  rewrite Z.opp_sub_distr, Z.add_comm, Z.add_opp_r, Zminus_mod_idemp_r. f_equal. lia.
Qed.

Lemma strtoull_ok fuel nptr base bs c :
  cstr (c_mem c) nptr bs -> (length bs < fuel)%nat -> base = 0 \/ 2 <= base <= 36 ->
  strtoull fuel nptr base c = ref_done nptr c (strtoull_ref base bs (c_errno c)).
Proof.
  intros Hs Hf Hb. unfold strtoull, strtoull_ref. strto_start base bs Hs Hf n neg b Hd.
  pose proof (prefix_base _ _ _ _ _ Hb Heqp).
  rewrite (strtoull_loop_spec _ _ (drop n bs)) by (try done; unfold ULONG_MAX, UINT64_MAX; lia).
  pose proof (dval_ge b (digits b (drop n bs)) 0 ltac:(lia) ltac:(lia) (digits_nonneg _ _)) as Hv.
  mstep. destruct (digits b (drop n bs)) as [|d ds] eqn:Eds; simpl; mstep; [by rewrite Z.add_0_r|].
  change (dval b (d :: ds) 0) with (dval b ds (0 * b + d)) in *.
  destruct (Z.ltb_spec ULONG_MAX (dval b ds (0 * b + d))); mstep.
  - rewrite (proj2 (Z.leb_gt _ _)) by lia. simpl. do 2 f_equal. lia.
  - rewrite (proj2 (Z.leb_le _ _)) by lia. simpl. rewrite with_errno_id.
    rewrite u64_neg_i64. destruct neg; mstep; do 2 f_equal; try lia.
    rewrite u64_id; unfold ULONG_MAX in *; lia.
Qed.

Lemma strtoul_ok fuel nptr base bs c n neg b :
  cstr (c_mem c) nptr bs -> (length bs < fuel)%nat -> base = 0 \/ 2 <= base <= 36 ->
  prefix_ref base bs = (n, neg, b) -> dval b (digits b (drop n bs)) 0 <= ULONG_MAX ->
  strtoul fuel nptr base c = ref_done nptr c (strtoull_ref base bs (c_errno c)).
Proof.
  intros Hs Hf Hb Hp Hle. unfold strtoul, strtoull_ref. strto_start base bs Hs Hf n' neg' b' Hd.
  simplify_eq. pose proof (prefix_base _ _ _ _ _ Hb Heqp).
  rewrite (strtoul_loop_spec _ _ (drop n bs)) by (try done; unfold ULONG_MAX, UINT64_MAX; lia).
  pose proof (dval_ge b (digits b (drop n bs)) 0 ltac:(lia) ltac:(lia) (digits_nonneg _ _)) as Hv.
  mstep. destruct (digits b (drop n bs)) as [|d ds] eqn:Eds; simpl; mstep; [by rewrite Z.add_0_r|].
  change (dval b (d :: ds) 0) with (dval b ds (0 * b + d)) in *.
  rewrite (proj2 (Z.leb_le _ _)) by lia. simpl. rewrite with_errno_id.
  rewrite u64_neg_i64. destruct neg; mstep; do 2 f_equal; try lia.
  rewrite u64_id; unfold ULONG_MAX in *; lia.
Qed.

(** ** atoi and atol *)

Lemma blank_isspace c : 0 <= c < 256 -> is_blank6 c = isspace c.
Proof.
  intros H. rewrite isspace_ref by done. unfold is_blank6, space_ref, within. repeat zcase; simpl; lia.
Qed.

Lemma decimal_digit b :
  0 <= b < 256 ->
  digits 10 [b] = if (48 <=? b) && (b <=? 57) then [b - 48] else [].
Proof. intros Hb. simpl. unfold digit_of. repeat (zcase; simpl); try done; lia. Qed.

Lemma digits_10 b bs :
  0 <= b < 256 ->
  digits 10 (b :: bs) = if (48 <=? b) && (b <=? 57) then b - 48 :: digits 10 bs else [].
Proof.
  intros Hb. pose proof (decimal_digit b Hb) as H. simpl in *.
  destruct (digit_of b) as [d|]; [|by destruct (_ && _)].
  destruct (10 <=? d), (_ && _); simplify_eq; done.
Qed.

(** The accumulating loop of [ato]: undefined exactly when the value exceeds
    the type's maximum. *)
Lemma ato_loop fuel mx sign bs s acc m :
  cstr m s bs -> (length bs < fuel)%nat -> 0 <= acc <= mx ->
  while fuel (fun '(s, result) =>
      c ← load8 s;
      if (48 <=? c) && (c <=? 57) then
        match acc10 mx result (c - 48) with
        | Some r => mret (inl (s + 1, r))
        | None => undefined
        end
      else mret (inr (sign * result))) (s, acc) m
  = if dval 10 (digits 10 bs) acc <=? mx then Done (sign * dval 10 (digits 10 bs) acc) m else Undef.
Proof.
  revert fuel s acc. induction bs as [|b bs IH]; intros fuel s acc Hs Hf Ha;
    (destruct fuel as [|fuel]; simpl in Hf; [lia|]); rewrite while_S; simpl in Hs.
  - ld Hs. simpl. by rewrite (proj2 (Z.leb_le acc mx)) by lia.
  - destruct Hs as (Hb & ? & Hs). ld Hb. rewrite digits_10 by lia.
    destruct ((48 <=? b) && (b <=? 57)) eqn:Ed; mstep; simpl.
    2: by rewrite (proj2 (Z.leb_le acc mx)) by lia.
    pose proof (dval_ge 10 (digits 10 bs) (acc * 10 + (b - 48)) ltac:(lia) ltac:(lia) (digits_nonneg _ _)).
    change (dval 10 (b - 48 :: digits 10 bs) acc) with (dval 10 (digits 10 bs) (acc * 10 + (b - 48))).
    unfold acc10. destruct (Z.leb_spec (acc * 10 + (b - 48)) mx); mstep.
    + apply IH; (done || lia).
    + by rewrite (proj2 (Z.leb_gt _ mx)) by lia.
Qed.

Definition ato_ref (bs : list Z) : bool * Z :=
  (nth (span_len isspace bs) bs 0 =? 45, dval 10 (digits 10 (drop (skip_sign bs) bs)) 0).

Lemma ato_ok mx fuel s bs m :
  cstr m s bs -> (length bs < fuel)%nat -> s <> NULL -> 0 <= mx ->
  ato mx fuel s m =
  let '(neg, v) := ato_ref bs in if v <=? mx then Done (apply_sign neg v) m else Undef.
Proof.
  intros Hs Hf Hn Hmx. unfold ato, ato_ref. destruct (Z.eqb_spec s NULL); [done|]. mstep.
  rewrite (scan_spec isspace _ m) with (bs := bs); try done.
  2:{ intros p c Hp Hc. ld Hp. by rewrite blank_isspace. }
  pose proof (span_len_le isspace bs) as Hle.
  rewrite bind_run, (load8_some _ _ _ (cstr_nth _ _ _ _ Hs Hle)). mstep.
  pose proof (skip_sign_le bs) as Hk. pose proof (cstr_drop _ _ _ _ Hs Hk) as Hd.
  assert (length (drop (skip_sign bs) bs) < fuel)%nat by (rewrite length_drop; lia).
  unfold skip_sign in *. unfold apply_sign.
  set (c0 := nth (span_len isspace bs) bs 0) in *. set (k := span_len isspace bs) in *.
  destruct (Z.eqb_spec c0 45); [|destruct (Z.eqb_spec c0 43)]; simpl in *;
    rewrite ?orb_true_r in *; simpl in *;
    replace (s + Z.of_nat (S k)) with (s + Z.of_nat k + 1) in Hd by lia;
    rewrite (ato_loop _ _ _ _ _ _ _ Hd) by (done || lia); case_match; f_equal; lia.
Qed.
