(* ===== verification/NumProps.v ===== *)
(** * What the number conversions of stdlib.c promise *)

From stdpp Require Import base tactics list gmap numbers strings.
From Stdlib Require Import ZArith Lia.
From S2P Require Import Prelude.
From S2P Require Import Memory.
From S2P Require Import Ctype.
From S2P Require Import CString.
From S2P Require Import CStringFacts.
From S2P Require Import NumConv.

(** A C string alone in memory. *)
Definition string_at (p : Z) (bs : list Z) : cst := {| c_mem := wr ∅ p (bs ++ [0]); c_errno := 0 |}.

Lemma string_at_ok p bs : Forall (fun b => 0 < b < 256) bs -> cstr (c_mem (string_at p bs)) p bs.
Proof. intros H. apply cstr_arr. split; [apply wr_arr|done]. Qed.

(** ** Reference: the subject sequence of the C standard (7.22.1.4)

    The characters in front of the digits, whether there is a minus, and the base.
    "0x" is a prefix in base 0 and 16 when a hexadecimal digit follows; a leading
    zero makes base 0 octal, and is itself the first digit. *)
Definition subject (base : Z) (bs : list Z) : nat * bool * Z :=
  let n := skip_sign bs in
  let hex := (nth n bs 0 =? 48) && ((nth (S n) bs 0 =? 120) || (nth (S n) bs 0 =? 88)) && negb (bool_decide (digits 16 (drop (S (S n)) bs) = [])) in
  let neg := nth (span_len isspace bs) bs 0 =? 45 in
  if ((base =? 0) || (base =? 16)) && hex then (S (S n), neg, 16)
  else (n, neg, if base =? 0 then if nth n bs 0 =? 48 then 8 else 10 else base).







(** The exception: "0" in base 0. *)
Theorem strtol_refuses_zero :
  subject 0 [48] = (0%nat, false, 8) /\ digits 8 [48] = [0] /\
  strtol 30 100 0 (string_at 100 [48]) = Done (0, 100) (with_errno EINVAL (string_at 100 [48])).
Proof. by vm_compute. Qed.

(** [strtol] and [strtoll], two different loops (one with a cut-off and its
    remainder and a three-valued flag, the other with two flags), compute the
    same result, end pointer and [errno] on every string and base. *)
Theorem strtoll_is_strtol fuel nptr base bs c :
  cstr (c_mem c) nptr bs -> (length bs < fuel)%nat ->
  strtoll fuel nptr base c = strtol fuel nptr base c.
Proof. intros Hs Hf. by rewrite (strtoll_ok fuel nptr base bs c Hs Hf), (strtol_ok fuel nptr base bs c Hs Hf). Qed.

Lemma strtoll_is_strtol_witness :
  strtoll 30 100 10 (string_at 100 [57; 57]) = strtol 30 100 10 (string_at 100 [57; 57]).
Proof.
  apply (strtoll_is_strtol 30 100 10 [57; 57]); [apply string_at_ok; repeat constructor; lia|simpl; lia].
Defined.

(** [strtoull] gives the value modulo 2^64 with the sign applied, and
    ULONG_MAX with ERANGE exactly when the magnitude does not fit; [strtoul]
    gives the same on every input whose magnitude fits. *)
Theorem strtoull_modular fuel nptr base bs c :
  cstr (c_mem c) nptr bs -> (length bs < fuel)%nat -> base = 0 \/ 2 <= base <= 36 ->
  let '(n, neg, b) := prefix_ref base bs in
  let ds := digits b (drop n bs) in
  let v := dval b ds 0 in
  strtoull fuel nptr base c =
    (if bool_decide (ds = []) then Done (0, nptr) (with_errno EINVAL c)
     else if ULONG_MAX <? v then Done (ULONG_MAX, nptr + Z.of_nat (n + length ds)) (with_errno ERANGE c)
     else Done (((if neg then -1 else 1) * v) mod 2 ^ 64, nptr + Z.of_nat (n + length ds)) c) /\
  (v <= ULONG_MAX -> strtoul fuel nptr base c = strtoull fuel nptr base c).
Proof.
  intros Hs Hf Hb. pose proof (strtoull_ok fuel nptr base bs c Hs Hf Hb) as R.
  destruct (prefix_ref base bs) as [[n neg] b] eqn:E. cbn zeta. split.
  - rewrite R. unfold strtoull_ref. rewrite E. set (ds := digits b (drop n bs)).
    destruct (bool_decide (ds = [])); [unfold ref_done; by rewrite Z.add_0_r|].
    destruct (Z.ltb_spec ULONG_MAX (dval b ds 0)); destruct (Z.leb_spec (dval b ds 0) ULONG_MAX); try lia; unfold ref_done;
      [done|]. rewrite with_errno_id. unfold u64, wrapu. do 3 f_equal. destruct neg; lia.
  - intros Hv. rewrite R. by apply (strtoul_ok _ _ _ _ _ n neg b).
Qed.

Lemma strtoull_modular_witness :
  strtoull 30 100 10 (string_at 100 [45; 49]) = Done (ULONG_MAX, 102) (string_at 100 [45; 49]) /\
  (1 <= ULONG_MAX -> strtoul 30 100 10 (string_at 100 [45; 49]) = strtoull 30 100 10 (string_at 100 [45; 49])).
Proof.
  exact (strtoull_modular 30 100 10 [45; 49] (string_at 100 [45; 49])
    (string_at_ok 100 [45; 49] ltac:(repeat constructor; lia)) ltac:(simpl; lia) ltac:(right; lia)).
Defined.

(** [atoi] returns the decimal number at the start of the string, blanks
    and sign allowed, for every magnitude up to INT_MAX; a larger magnitude,
    -2147483648 included, is a signed overflow. *)
Theorem atoi_decimal fuel s bs m :
  cstr m s bs -> (length bs < fuel)%nat -> s <> NULL ->
  let '(neg, v) := ato_ref bs in
  atoi fuel s m = if v <=? INT32_MAX then Done ((if neg then -1 else 1) * v) m else Undef.
Proof.
  intros Hs Hf Hn. unfold atoi. rewrite (ato_ok INT32_MAX fuel s bs m Hs Hf Hn ltac:(done)).
  destruct (ato_ref bs) as [neg v]. destruct (v <=? INT32_MAX); [|done]. unfold apply_sign. f_equal. destruct neg; lia.
Qed.

Lemma atoi_decimal_witness :
  atoi 30 100 (c_mem (string_at 100 [45; 52; 50; 120])) = Done (-42) (c_mem (string_at 100 [45; 52; 50; 120])).
Proof.
  exact (atoi_decimal 30 100 [45; 52; 50; 120] _
    (string_at_ok 100 [45; 52; 50; 120] ltac:(repeat constructor; lia)) ltac:(simpl; lia) ltac:(done)).
Defined.
