(* ===== verification/QSort.v ===== *)
(** * qsort and bsearch of stdlib.c

    The comparison callback reads its two elements and returns an [int]: it is
    a parameter [compar] on their bytes. *)

From stdpp Require Import base tactics list gmap numbers strings.
From Stdlib Require Import ZArith Lia.
From S2P Require Import Prelude.
From S2P Require Import Memory.

Definition MAX_THRESH : Z := 8.
Definition STACK_SIZE : Z := 64.

(** The [n] bytes at [p]. *)
Fixpoint load_bytes (n : nat) (p : Z) : M mem (list Z) :=
  match n with
  | O => mret []
  | S n' => b ← load8 p; r ← load_bytes n' (p + 1); mret (b :: r)
  end.

Section qsort.
Context (compar : list Z -> list Z -> Z) (fuel : nat).

(** [size_t tmp = *wa; *wa++ = *wb; *wb++ = tmp;] when everything is aligned,
    and the same on chars otherwise. *)
Definition swap_bytes (a b size : Z) : M mem unit :=
  if (a mod 8 =? 0) && (b mod 8 =? 0) && (size mod 8 =? 0) then
    while fuel (fun '(wa, wb, wsize) =>
      if wsize =? 0 then mret (inr tt)
      else
        tmp ← loadn 8 wa;
        y ← loadn 8 wb;
        _ ← storen 8 wa y;
        _ ← storen 8 wb tmp;
        mret (inl (wa + 8, wb + 8, wsize - 1))) (a, b, size / 8)
  else
    while fuel (fun '(a, b, size) =>
      if size =? 0 then mret (inr tt)
      else
        tmp ← load8 a;
        y ← load8 b;
        _ ← store8 a y;
        _ ← store8 b tmp;
        mret (inl (a + 1, b + 1, size - 1))) (a, b, size).

(** [compar(p, q)] *)
Definition call_compar (size p q : Z) : M mem Z :=
  x ← load_bytes (Z.to_nat size) p;
  y ← load_bytes (Z.to_nat size) q;
  mret (compar x y).

(** [if (compar(p, q) < 0) swap_bytes(p, q, size);]: whether it swapped. *)
Definition order (size p q : Z) : M mem bool :=
  c ← call_compar size p q;
  if c <? 0 then _ ← swap_bytes p q size; mret true else mret false.

(** The median of three, up to [pivot_ok]. *)
Definition median (size lo mid hi : Z) : M mem unit :=
  _ ← order size mid lo;
  sw ← order size hi mid;
  if (sw : bool) then _ ← order size mid lo; mret tt else mret tt.

(** [while (compar(left_ptr, mid) < 0) left_ptr += size;] *)
Definition scan_left (size mid : Z) : Z -> M mem Z :=
  while fuel (fun left_ptr =>
    c ← call_compar size left_ptr mid;
    mret (if c <? 0 then inl (left_ptr + size) else inr left_ptr)).

(** [while (compar(mid, right_ptr) < 0) right_ptr -= size;] *)
Definition scan_right (size mid : Z) : Z -> M mem Z :=
  while fuel (fun right_ptr =>
    c ← call_compar size mid right_ptr;
    mret (if c <? 0 then inl (right_ptr - size) else inr right_ptr)).

(** The partition loop: where the two pointers end. *)
Definition partition (size : Z) : Z * Z * Z -> M mem (Z * Z) :=
  while fuel (fun '(left_ptr, right_ptr, mid) =>
    left_ptr ← scan_left size mid left_ptr;
    right_ptr ← scan_right size mid right_ptr;
    if left_ptr <? right_ptr then
      _ ← swap_bytes left_ptr right_ptr size;
      let mid := if mid =? left_ptr then right_ptr else if mid =? right_ptr then left_ptr else mid in
      mret (inl (left_ptr + size, right_ptr - size, mid))
    else mret (inr (left_ptr, right_ptr))).

(** [top->lo = lo; top->hi = hi; top++;]: the stack has [STACK_SIZE] nodes. *)
Definition push (lo hi : Z) (stack : list (Z * Z)) : M mem (list (Z * Z)) :=
  if zlen stack <? STACK_SIZE then mret ((lo, hi) :: stack) else undefined.

(** One turn of the loop over the stack; [lo <= hi], so that the differences of
    pointers, which the code takes as unsigned numbers, are not negative. *)
Definition sort_range (size lo hi : Z) (stack : list (Z * Z)) : M mem (list (Z * Z)) :=
  let mid := lo + size * Z.shiftr ((hi - lo) / size) 1 in
  _ ← median size lo mid hi;
  lr ← partition size (lo + size, hi - size, mid);
  let '(left_ptr, right_ptr) := lr in
  let left_len := (right_ptr - lo) / size in
  let right_len := (hi - left_ptr) / size in
  if left_len <=? MAX_THRESH then
    if MAX_THRESH <? right_len then push left_ptr hi stack else mret stack
  else if right_len <=? MAX_THRESH then push lo right_ptr stack
  else if right_len <? left_len then
    stack ← push lo right_ptr stack; push left_ptr hi stack
  else
    stack ← push left_ptr hi stack; push lo right_ptr stack.

Definition quick_phase (size : Z) : list (Z * Z) -> M mem unit :=
  while fuel (fun stack =>
    match stack with
    | [] => mret (inr tt)
    | (lo, hi) :: stack => stack ← sort_range size lo hi stack; mret (inl stack)
    end).

(** [while (tmp_ptr > base_ptr && compar(tmp_ptr - size, tmp_ptr) > 0) ...] *)
Definition sink (size base_ptr : Z) : Z -> M mem unit :=
  while fuel (fun tmp_ptr =>
    if base_ptr <? tmp_ptr then
      c ← call_compar size (tmp_ptr - size) tmp_ptr;
      if 0 <? c then
        _ ← swap_bytes (tmp_ptr - size) tmp_ptr size;
        mret (inl (tmp_ptr - size))
      else mret (inr tt)
    else mret (inr tt)).

Definition insertion_phase (size base_ptr max_ptr : Z) : M mem unit :=
  while fuel (fun run_ptr =>
    if run_ptr <=? max_ptr then
      _ ← sink size base_ptr run_ptr;
      mret (inl (run_ptr + size))
    else mret (inr tt)) (base_ptr + size).

Definition qsort (base nmemb size : Z) : M mem unit :=
  if (nmemb <? 2) || (size =? 0) then mret tt
  else
    let max_ptr := base + size * (nmemb - 1) in
    _ ← when (MAX_THRESH <? nmemb) (stack ← push base max_ptr []; quick_phase size stack);
    insertion_phase size base max_ptr.

(** [bsearch]: the key is given by its bytes, elements are read in memory. *)
Definition bsearch (key : list Z) (base num size : Z) : M mem Z :=
  while fuel (fun '(p, num) =>
    if 0 <? num then
      let half := Z.shiftr num 1 in
      let mid := p + half * size in
      x ← load_bytes (Z.to_nat size) mid;
      let cmp := compar key x in
      mret (if cmp =? 0 then inr mid
            else if 0 <? cmp then inl (mid + size, num - half - 1)
            else inl (p, half))
    else mret (inr NULL)) (base, num).
End qsort.
