(* ===== verification/QSortFacts.v ===== *)
(** * qsort sorts, bsearch finds *)

From stdpp Require Import base tactics list gmap numbers strings.
From Stdlib Require Import ZArith Lia Sorted.
From S2P Require Import Prelude.
From S2P Require Import Memory.
From S2P Require Import CStringFacts.
From S2P Require Import QSort.

(** ** Swapping bytes *)

Lemma load_bytes_run m p bs : arr m p bs -> load_bytes (length bs) p m = Done bs m.
Proof.
  revert p. induction bs as [|b bs IH]; intros p; [done|]. intros [Hb Ha]. simpl.
  rewrite bind_run, (load8_some _ _ _ Hb). by rewrite bind_run, IH.
Qed.

Lemma wr_comm m p l1 q l2 :
  p + zlen l1 <= q \/ q + zlen l2 <= p -> wr (wr m p l1) q l2 = wr (wr m q l2) p l1.
Proof.
  intros H. apply map_eq. intros a. rewrite !lookup_wr. repeat case_decide; try done; lia.
Qed.

Lemma to_le_le_bytes bs : bytes bs -> to_le (length bs) (le_bytes bs) = bs.
Proof.
  induction 1 as [|b bs Hb _ IH]; [done|]. simpl. f_equal.
  - unfold u8, wrapu. change (2 ^ 8) with 256. rewrite Z.mul_comm, Z.mod_add by lia. by apply Z.mod_small.
  - rewrite Z.mul_comm, Z.div_add by lia. rewrite Z.div_small by lia. simpl. exact IH.
Qed.

(** Both loops exchange chunks of [w] bytes: one chunk after the other. *)
Lemma swap_chunks fuel w (body : Z * Z * Z -> M mem (Z * Z * Z + unit)) :
  (0 < w)%nat ->
  (forall a b m, body (a, b, 0) m = Done (inr tt) m) ->
  (forall a b n m x y, 0 < n -> arr m a x -> arr m b y -> length x = w -> length y = w -> bytes x -> bytes y ->
     a + zlen x <= b \/ b + zlen y <= a ->
     body (a, b, n) m = Done (inl (a + Z.of_nat w, b + Z.of_nat w, n - 1)) (wr (wr m a y) b x)) ->
  forall n a b m x y, (n < fuel)%nat -> arr m a x -> arr m b y -> length x = (n * w)%nat -> length y = (n * w)%nat ->
    bytes x -> bytes y -> a + zlen x <= b \/ b + zlen y <= a ->
    while fuel body (a, b, Z.of_nat n) m = Done tt (wr (wr m a y) b x).
Proof.
  intros Hw H0 Hstep. induction fuel as [|fuel IH]; intros n a b m x y Hn Ha Hb Hx Hy Bx By Hd; [lia|].
  rewrite while_S. destruct n as [|n].
  - rewrite H0. simpl in Hx, Hy. by rewrite (nil_length_inv x), (nil_length_inv y).
  - simpl in Hx, Hy. rewrite <- (take_drop w x) in Ha, Bx |- *. rewrite <- (take_drop w y) in Hb, By |- *.
    pose proof (length_take x w) as L1. pose proof (length_drop x w) as L2.
    pose proof (length_take y w) as L3. pose proof (length_drop y w) as L4.
    apply Forall_app in Bx as [B1 B2]. apply Forall_app in By as [B3 B4].
    apply arr_app in Ha as [A1 A2]. apply arr_app in Hb as [A3 A4].
    set (x1 := take w x) in *. set (x2 := drop w x) in *. set (y1 := take w y) in *. set (y2 := drop w y) in *.
    rewrite (Hstep a b _ m x1 y1) by (done || lia).
    replace (Z.of_nat (S n) - 1) with (Z.of_nat n) by lia.
    replace (a + Z.of_nat w) with (a + zlen x1) by lia. replace (b + Z.of_nat w) with (b + zlen y1) by lia.
    rewrite (IH n _ _ _ x2 y2); try done; try lia.
    + rewrite !wr_app. f_equal. replace (b + zlen y1) with (b + zlen x1) by lia.
      replace (a + zlen y1) with (a + zlen x1) by lia. f_equal. apply wr_comm. lia.
    + apply arr_wr_out; [lia|]. apply arr_wr_out; [lia|]. done.
    + apply arr_wr_out; [lia|]. apply arr_wr_out; [lia|]. done.
Qed.

Lemma storen_bytes m p bs : bytes bs -> mapped m p (zlen bs) -> storen (length bs) p (le_bytes bs) m = Done tt (wr m p bs).
Proof. intros Hb Hm. rewrite storen_run by done. by rewrite to_le_le_bytes. Qed.

Lemma swap_bytes_ok fuel m a b x y :
  arr m a x -> arr m b y -> length x = length y -> bytes x -> bytes y -> (length x < fuel)%nat ->
  a + zlen x <= b \/ b + zlen y <= a ->
  swap_bytes fuel a b (zlen x) m = Done tt (wr (wr m a y) b x).
Proof.
  intros Ha Hb Hl Bx By Hf Hd. unfold swap_bytes.
  destruct ((a mod 8 =? 0) && (b mod 8 =? 0) && (zlen x mod 8 =? 0)) eqn:E.
  - apply andb_true_iff in E as [_ E%Z.eqb_eq].
    assert (zlen x = 8 * (zlen x / 8)) as Hx by (pose proof (Z.div_mod (zlen x) 8 ltac:(lia)); lia).
    replace (zlen x / 8) with (Z.of_nat (Z.to_nat (zlen x / 8))) by (rewrite Z2Nat.id; [done|apply Z.div_pos; lia]).
    apply (swap_chunks fuel 8); try done; try lia.
    clear. intros a b n m x y Hn Ha Hb Lx Ly Bx By Hd. rewrite (proj2 (Z.eqb_neq n 0)) by lia.
    pose proof (loadn_arr _ _ _ Ha) as R1. pose proof (loadn_arr _ _ _ Hb) as R2. rewrite Lx in R1. rewrite Ly in R2.
    rewrite bind_run, R1. rewrite bind_run, R2. rewrite bind_run.
    pose proof (storen_bytes m a y By) as S1. rewrite Ly in S1. rewrite S1.
    2: { pose proof (arr_mapped _ _ _ Ha) as Hm. by rewrite Lx in Hm. }
    rewrite bind_run. pose proof (storen_bytes (wr m a y) b x Bx) as S2. rewrite Lx in S2. rewrite S2; [done|].
    apply wr_mapped. pose proof (arr_mapped _ _ _ Hb) as Hm. by rewrite Ly in Hm.
  - apply (swap_chunks fuel 1); try done; try lia.
    clear. intros a b n m x y Hn Ha Hb Lx Ly Bx By Hd. rewrite (proj2 (Z.eqb_neq n 0)) by lia.
    destruct x as [|x0 [|]]; try done. destruct y as [|y0 [|]]; try done. destruct Ha as [Ha _], Hb as [Hb _].
    rewrite bind_run, (load8_some _ _ _ Ha). rewrite bind_run, (load8_some _ _ _ Hb).
    apply Forall_cons in Bx as [Bx _], By as [By _]. rewrite bind_run, store8_some by eauto. rewrite bind_run. simpl in Hd.
    rewrite store8_some by (rewrite lookup_insert_ne by lia; eauto). simpl. by rewrite !u8_byte.
Qed.

(** ** Comparison functions *)

(** What the C standard asks of [compar]: a total preorder. *)
Class Comparator (cmp : list Z -> list Z -> Z) : Prop := {
  cmp_flip x y : cmp x y < 0 <-> 0 < cmp y x;
  cmp_trans x y z : cmp x y <= 0 -> cmp y z <= 0 -> cmp x z <= 0
}.

(** ** An array in memory *)

Section sorting.
Context (cmp : list Z -> list Z -> Z) `{!Comparator cmp}.
Context (fuel sz : nat) (base : Z) (m0 : mem) (xs0 : list (list Z)).
Context (Hsz : (0 < sz < fuel)%nat).

Abbreviation n := (length xs0).
Abbreviation size := (Z.of_nat sz).

Definition at_ (i : nat) : Z := base + size * Z.of_nat i.

(** The array holds the elements [xs], a rearrangement of the first ones,
    and memory outside it is as it was. *)
Definition holds (m : mem) (xs : list (list Z)) : Prop :=
  xs ≡ₚ xs0 /\ Forall (fun x => length x = sz /\ bytes x) xs /\
  (forall i x, xs !! i = Some x -> arr m (at_ i) x) /\
  (forall a, ~ (base <= a < base + size * Z.of_nat n) -> m !! a = m0 !! a).

(** The list with the elements [x] at [i] and [y] at [j] exchanged. *)
Definition swapped (i j : nat) (x y : list Z) (xs : list (list Z)) : list (list Z) :=
  <[j := x]> (<[i := y]> xs).

Lemma at_S i : at_ (S i) = at_ i + size.
Proof. unfold at_. lia. Qed.

Lemma at_lt i j : at_ i < at_ j <-> (i < j)%nat.
Proof. unfold at_. split; intros; nia. Qed.

Lemma at_ltb i j : (at_ i <? at_ j) = bool_decide (i < j)%nat.
Proof. apply eq_bool_prop_intro. rewrite !Is_true_true, bool_decide_eq_true, Z.ltb_lt. apply at_lt. Qed.

Lemma at_eqb i j : (at_ i =? at_ j) = bool_decide (i = j).
Proof.
  apply eq_bool_prop_intro. rewrite !Is_true_true, bool_decide_eq_true, Z.eqb_eq. unfold at_. split; [nia|by intros ->].
Qed.

Lemma at_dist i j : (i <= j)%nat -> (at_ j - at_ i) / size = Z.of_nat (j - i).
Proof.
  intros H. unfold at_. replace (base + size * Z.of_nat j - (base + size * Z.of_nat i)) with (Z.of_nat (j - i) * size) by nia.
  apply Z.div_mul. lia.
Qed.

Lemma holds_len m xs : holds m xs -> length xs = n.
Proof. intros (HP & _). by apply Permutation_length. Qed.

Lemma holds_elem m xs i x : holds m xs -> xs !! i = Some x -> length x = sz /\ bytes x /\ arr m (at_ i) x /\ (i < n)%nat.
Proof.
  intros H Hi. pose proof (holds_len _ _ H) as Hl. destruct H as (_ & HF & Ha & _).
  pose proof (Forall_lookup_1 _ _ _ _ HF Hi) as [? ?]. split_and!; eauto. apply lookup_lt_Some in Hi. lia.
Qed.

Lemma holds_lookup m xs i : holds m xs -> (i < n)%nat -> exists x, xs !! i = Some x.
Proof. intros H Hi. apply lookup_lt_is_Some_2. by rewrite (holds_len _ _ H). Qed.

Lemma compar_at m xs i j x y :
  holds m xs -> xs !! i = Some x -> xs !! j = Some y -> call_compar cmp size (at_ i) (at_ j) m = Done (cmp x y) m.
Proof.
  intros H Hi Hj. destruct (holds_elem _ _ _ _ H Hi) as (Lx & _ & Ax & _).
  destruct (holds_elem _ _ _ _ H Hj) as (Ly & _ & Ay & _). unfold call_compar. rewrite Nat2Z.id.
  rewrite <- Lx at 1. rewrite bind_run, load_bytes_run by done. rewrite <- Ly. by rewrite bind_run, load_bytes_run.
Qed.

Lemma swap_at m xs i j x y :
  holds m xs -> xs !! i = Some x -> xs !! j = Some y -> i <> j ->
  exists m', swap_bytes fuel (at_ i) (at_ j) size m = Done tt m' /\ holds m' (swapped i j x y xs).
Proof.
  intros H Hi Hj Hne. destruct (holds_elem _ _ _ _ H Hi) as (Lx & Bx & Ax & Hin).
  destruct (holds_elem _ _ _ _ H Hj) as (Ly & By & Ay & Hjn).
  assert (at_ i + size <= at_ j \/ at_ j + size <= at_ i) as Hd by (unfold at_; nia).
  exists (wr (wr m (at_ i) y) (at_ j) x). split.
  { rewrite <- Lx. apply swap_bytes_ok; try done; lia. }
  pose proof (holds_len _ _ H) as Hlen. pose proof H as (HP & HF & Ha & Hout). split_and!.
  - unfold swapped. rewrite Permutation_insert_swap by done. done.
  - apply Forall_insert; [|done]. by apply Forall_insert.
  - intros k z Hk. assert (k < n)%nat as Hkn.
    { apply lookup_lt_Some in Hk. unfold swapped in Hk. rewrite !length_insert in Hk. lia. }
    destruct (decide (k = j)) as [->|Hkj]; [|destruct (decide (k = i)) as [->|Hki]].
    + unfold swapped in Hk. rewrite list_lookup_insert_eq in Hk by (rewrite length_insert; lia). injection Hk as <-. apply wr_arr.
    + unfold swapped in Hk. rewrite list_lookup_insert_ne in Hk by done. rewrite list_lookup_insert_eq in Hk by lia.
      injection Hk as <-. apply arr_wr_out; [lia|]. apply wr_arr.
    + unfold swapped in Hk. rewrite !list_lookup_insert_ne in Hk by done.
      destruct (holds_elem _ _ _ _ H Hk) as (Lz & _ & Az & _).
      apply arr_wr_out; [unfold at_ in *; nia|]. apply arr_wr_out; [unfold at_ in *; nia|done].
  - intros a Hna. rewrite !lookup_wr_out; [by apply Hout|unfold at_ in *; nia|unfold at_ in *; nia].
Qed.

Lemma swapped_i i j x y xs : i <> j -> (i < length xs)%nat -> swapped i j x y xs !! i = Some y.
Proof. intros. unfold swapped. rewrite list_lookup_insert_ne by done. by apply list_lookup_insert_eq. Qed.
Lemma swapped_j i j x y xs : (j < length xs)%nat -> swapped i j x y xs !! j = Some x.
Proof. intros. unfold swapped. apply list_lookup_insert_eq. by rewrite length_insert. Qed.
Lemma swapped_k i j x y xs k : k <> i -> k <> j -> swapped i j x y xs !! k = xs !! k.
Proof. intros. unfold swapped. by rewrite !list_lookup_insert_ne. Qed.

(** ** The quicksort phase *)

Lemma order_at m xs i j x y :
  holds m xs -> xs !! i = Some x -> xs !! j = Some y -> i <> j ->
  exists m', (order cmp fuel size (at_ i) (at_ j) m = Done true m' /\ cmp x y < 0 /\ holds m' (swapped i j x y xs)) \/
    (order cmp fuel size (at_ i) (at_ j) m = Done false m' /\ 0 <= cmp x y /\ holds m' xs).
Proof.
  intros H Hi Hj Hne. unfold order. rewrite bind_run, (compar_at m xs i j x y) by done. destruct (Z.ltb_spec (cmp x y) 0).
  - destruct (swap_at m xs i j x y H Hi Hj Hne) as (m' & R & H'). exists m'. left. by rewrite bind_run, R.
  - exists m. by right.
Qed.

(** The element at [mid] is between those at [lo] and [hi]. *)
Definition pivoted (lo mid hi : nat) (xs : list (list Z)) : Prop :=
  exists a p b, xs !! lo = Some a /\ xs !! mid = Some p /\ xs !! hi = Some b /\ 0 <= cmp p a /\ 0 <= cmp b p.

Ltac swapped_lookups :=
  repeat first [rewrite swapped_k by lia | rewrite swapped_j by (unfold swapped; rewrite ?length_insert; lia)
               | rewrite swapped_i by (unfold swapped; rewrite ?length_insert; lia)].

Lemma cmp_nonneg x y : cmp x y < 0 -> 0 <= cmp y x.
Proof. intros H. apply cmp_flip in H. lia. Qed.

Lemma cmp_nonneg_trans x y z : 0 <= cmp y x -> 0 <= cmp z y -> 0 <= cmp z x.
Proof.
  intros H1 H2. destruct (Z.ltb_spec (cmp z x) 0) as [H3|]; [|done].
  apply cmp_flip in H3. assert (cmp x z <= 0); [|lia].
  apply (cmp_trans x y z); apply Z.nlt_ge; intros H; apply cmp_flip in H; lia.
Qed.

Lemma median_ok m xs lo mid hi :
  holds m xs -> (lo < mid < hi)%nat -> (hi < n)%nat ->
  exists m' xs', median cmp fuel size (at_ lo) (at_ mid) (at_ hi) m = Done tt m' /\ holds m' xs' /\ pivoted lo mid hi xs'.
Proof.
  intros H Hlm Hhi. destruct (holds_lookup m xs lo H ltac:(lia)) as [a Ha].
  destruct (holds_lookup m xs mid H ltac:(lia)) as [p Hp]. destruct (holds_lookup m xs hi H ltac:(lia)) as [b Hb].
  pose proof (holds_len _ _ H) as Hlen.
  assert (exists m1 xs1 a1 p1 b0, order cmp fuel size (at_ mid) (at_ lo) m = Done b0 m1 /\ holds m1 xs1 /\
    xs1 !! lo = Some a1 /\ xs1 !! mid = Some p1 /\ xs1 !! hi = Some b /\ 0 <= cmp p1 a1) as (m1 & xs1 & a1 & p1 & b0 & R1 & H1 & Ha1 & Hp1 & Hb1 & Hc1).
  { destruct (order_at m xs mid lo p a H Hp Ha ltac:(lia)) as (m1 & [(R & Hc & H1)|(R & Hc & H1)]).
    - exists m1, (swapped mid lo p a xs), p, a, true. swapped_lookups. split_and!; try done. by apply cmp_nonneg.
    - exists m1, xs, a, p, false. done. }
  pose proof (holds_len _ _ H1) as Hlen1. unfold median. rewrite bind_run, R1.
  destruct (order_at m1 xs1 hi mid b p1 H1 Hb1 Hp1 ltac:(lia)) as (m2 & [(R & Hc & H2)|(R & Hc & H2)]);
    rewrite bind_run, R; [|by exists m2, xs1; split_and!; [done|done|exists a1, p1, b]].
  pose proof (holds_len _ _ H2) as Hlen2. set (xs2 := swapped hi mid b p1 xs1) in *.
  assert (xs2 !! lo = Some a1) as Ha2 by (unfold xs2; by swapped_lookups).
  assert (xs2 !! mid = Some b) as Hp2 by (unfold xs2; by swapped_lookups).
  assert (xs2 !! hi = Some p1) as Hb2 by (unfold xs2; by swapped_lookups).
  destruct (order_at m2 xs2 mid lo b a1 H2 Hp2 Ha2 ltac:(lia)) as (m3 & [(R3 & Hc3 & H3)|(R3 & Hc3 & H3)]);
    rewrite bind_run, R3; exists m3; eexists; (split; [done|]); (split; [exact H3|]).
  - exists b, a1, p1. swapped_lookups. split_and!; try done. by apply cmp_nonneg.
  - exists a1, b, p1. split_and!; try done. by apply cmp_nonneg.
Qed.

(** The scans stop at the sentinels [hi] and [lo]. *)
Lemma scan_left_ok m xs mid p hi b :
  holds m xs -> xs !! mid = Some p -> xs !! hi = Some b -> 0 <= cmp b p ->
  forall f left, (left <= hi)%nat -> (hi - left < f)%nat ->
  exists left', while f (fun left_ptr =>
      c ← call_compar cmp size left_ptr (at_ mid);
      mret (if c <? 0 then inl (left_ptr + size) else inr left_ptr)) (at_ left) m = Done (at_ left') m /\
    (left <= left' <= hi)%nat.
Proof.
  intros H Hp Hb Hc f. induction f as [|f IH]; intros left Hl Hf; [lia|]. rewrite while_S.
  destruct (holds_elem _ _ _ _ H Hb) as (_ & _ & _ & Hhi).
  destruct (holds_lookup m xs left H ltac:(lia)) as [x Hx]. rewrite bind_run, (compar_at m xs left mid x p) by done.
  destruct (Z.ltb_spec (cmp x p) 0); [|exists left; split; [done|lia]].
  assert (left <> hi) by (intros ->; simplify_eq; lia).
  change (at_ left + size) with (at_ left + size). rewrite <- at_S. destruct (IH (S left)) as (l' & R & Hl'); try lia.
  exists l'. split; [exact R|lia].
Qed.

Lemma scan_right_ok m xs mid p lo a :
  holds m xs -> xs !! mid = Some p -> xs !! lo = Some a -> 0 <= cmp p a ->
  forall f right, (lo <= right < n)%nat -> (right - lo < f)%nat ->
  exists right', while f (fun right_ptr =>
      c ← call_compar cmp size (at_ mid) right_ptr;
      mret (if c <? 0 then inl (right_ptr - size) else inr right_ptr)) (at_ right) m = Done (at_ right') m /\
    (lo <= right' <= right)%nat.
Proof.
  intros H Hp Ha Hc f. induction f as [|f IH]; intros right Hr Hf; [lia|]. rewrite while_S.
  destruct (holds_lookup m xs right H ltac:(lia)) as [x Hx]. rewrite bind_run, (compar_at m xs mid right p x) by done.
  destruct (Z.ltb_spec (cmp p x) 0); [|exists right; split; [done|lia]].
  assert (right <> lo) by (intros ->; simplify_eq; lia).
  destruct right as [|right]; [lia|]. rewrite at_S. replace (at_ right + size - size) with (at_ right) by lia.
  destruct (IH right) as (r' & R & Hr'); try lia. exists r'. split; [exact R|lia].
Qed.

Context (Hfuel : (2 * n < fuel)%nat).

Lemma partition_ok lo hi :
  (hi < n)%nat -> forall f left right mid m xs,
  holds m xs -> pivoted lo mid hi xs -> (lo < mid < hi)%nat ->
  (lo < left <= hi)%nat -> (lo <= right < hi)%nat -> (S right - left < f)%nat ->
  exists left' right' m' xs', while f (fun '(left_ptr, right_ptr, mid) =>
      left_ptr ← scan_left cmp fuel size mid left_ptr;
      right_ptr ← scan_right cmp fuel size mid right_ptr;
      if left_ptr <? right_ptr then
        _ ← swap_bytes fuel left_ptr right_ptr size;
        let mid := if mid =? left_ptr then right_ptr else if mid =? right_ptr then left_ptr else mid in
        mret (inl (left_ptr + size, right_ptr - size, mid))
      else mret (inr (left_ptr, right_ptr))) (at_ left, at_ right, at_ mid) m = Done (at_ left', at_ right') m' /\
    holds m' xs' /\ (lo < left' <= hi)%nat /\ (lo <= right' < hi)%nat /\ (right' <= left')%nat.
Proof.
  intros Hhi f. induction f as [|f IH]; intros left right mid m xs H Hpv Hmid Hl Hr Hf; [lia|].
  pose proof Hpv as (a & p & b & Ha & Hp & Hb & C1 & C2). pose proof (holds_len _ _ H) as Hlen. rewrite while_S.
  destruct (scan_left_ok m xs mid p hi b H Hp Hb C2 fuel left ltac:(lia) ltac:(lia)) as (l' & R1 & Hl').
  unfold scan_left at 1. rewrite bind_run, R1. cbn beta.
  destruct (scan_right_ok m xs mid p lo a H Hp Ha C1 fuel right ltac:(lia) ltac:(lia)) as (r' & R2 & Hr').
  unfold scan_right at 1. rewrite bind_run, R2. cbn beta. rewrite at_ltb. case_bool_decide as Hlt.
  2: { exists l', r', m, xs. split_and!; try done; lia. }
  destruct (holds_lookup m xs l' H ltac:(lia)) as [x Hx]. destruct (holds_lookup m xs r' H ltac:(lia)) as [y Hy].
  destruct (swap_at m xs l' r' x y H Hx Hy ltac:(lia)) as (m' & R3 & H'). rewrite bind_run, R3. cbn beta zeta.
  rewrite !at_eqb. rewrite <- at_S. destruct r' as [|r']; [lia|]. rewrite (at_S r'). replace (at_ r' + size - size) with (at_ r') by lia.
  rewrite <- (at_S r').
  assert (forall mid', (lo < mid' < hi)%nat -> swapped l' (S r') x y xs !! mid' = Some p ->
    pivoted lo mid' hi (swapped l' (S r') x y xs)) as K.
  { intros mid' Hm' Hp'. exists a, p, b. rewrite Hp', (swapped_k _ _ _ _ _ lo), (swapped_k _ _ _ _ _ hi) by lia. done. }
  destruct (decide (mid = l')) as [->|N1]; [|destruct (decide (mid = S r')) as [->|N2]].
  - rewrite bool_decide_true by done.
    apply (IH (S l') r' (S r') m' (swapped l' (S r') x y xs)); try done; try lia.
    apply K; [lia|]. swapped_lookups. congruence.
  - rewrite bool_decide_false by done. rewrite bool_decide_true by done.
    apply (IH (S l') r' l' m' (swapped l' (S r') x y xs)); try done; try lia.
    apply K; [lia|]. swapped_lookups. congruence.
  - rewrite !bool_decide_false by done.
    apply (IH (S l') r' mid m' (swapped l' (S r') x y xs)); try done; try lia.
    apply K; [lia|]. by swapped_lookups.
Qed.

(** The ranges on the stack, in elements, the deepest last; [N] bounds the
    first range and each one further up is at most half of the one below. *)
Fixpoint ranges (N : Z) (st : list (nat * nat)) : Prop :=
  match st with
  | [] => True
  | (lo, hi) :: r =>
      (lo + 8 <= hi < n)%nat /\ Z.of_nat (hi - lo) * 2 ^ Z.of_nat (length r) <= N /\ ranges N r
  end.

Definition ptrs (st : list (nat * nat)) : list (Z * Z) := (fun r => (at_ r.1, at_ r.2)) <$> st.

(** How many turns the loop over the stack still takes at most. *)
Fixpoint turns (st : list (nat * nat)) : nat :=
  match st with [] => 0 | (lo, hi) :: r => (2 * (hi - lo) - 1) + turns r end.

(** A range that is deep in the stack is short: 64 nodes are enough. *)
Lemma push_ok N lo hi st (m : mem) :
  ranges N ((lo, hi) :: st) -> N < 2 ^ 64 ->
  push (at_ lo) (at_ hi) (ptrs st) m = Done (ptrs ((lo, hi) :: st)) m.
Proof.
  intros (H1 & H2 & H3) HN. unfold push, ptrs, STACK_SIZE. rewrite length_fmap.
  rewrite (proj2 (Z.ltb_lt _ _)); [done|].
  destruct (Z.ltb_spec (Z.of_nat (length st)) 64); [done|].
  assert (2 ^ 64 <= 2 ^ Z.of_nat (length st)) by (apply Z.pow_le_mono_r; lia). nia.
Qed.

Lemma ranges_push N lo hi st lo' hi' :
  ranges N ((lo, hi) :: st) -> (lo' + 8 <= hi' < n)%nat -> (hi' - lo' <= hi - lo)%nat -> ranges N ((lo', hi') :: st).
Proof. intros (H1 & H2 & H3) H4 H5. split; [done|]. split; [nia|done]. Qed.

Lemma ranges_push_half N lo hi st lo1 hi1 lo2 hi2 :
  ranges N ((lo, hi) :: st) -> (lo1 + 8 <= hi1 < n)%nat -> (lo2 + 8 <= hi2 < n)%nat ->
  (hi1 - lo1 <= hi - lo)%nat -> (2 * (hi2 - lo2) <= hi - lo)%nat -> ranges N ((lo2, hi2) :: (lo1, hi1) :: st).
Proof.
  intros (H1 & H2 & H3) H4 H5 H6 H7. split; [done|]. split; [|split; [done|split; [nia|done]]].
  cbn [length]. rewrite Nat2Z.inj_succ, Z.pow_succ_r by lia. nia.
Qed.

Lemma sort_range_ok N m xs lo hi st :
  holds m xs -> ranges N ((lo, hi) :: st) -> N < 2 ^ 64 ->
  exists m' xs' st', sort_range cmp fuel size (at_ lo) (at_ hi) (ptrs st) m = Done (ptrs st') m' /\
    holds m' xs' /\ ranges N st' /\ (turns st' < turns ((lo, hi) :: st))%nat.
Proof.
  intros H Hr HN. pose proof Hr as (Hlh & _ & Hrest). unfold sort_range.
  rewrite at_dist by lia. rewrite Z.shiftr_div_pow2 by lia. change (2 ^ 1) with 2.
  set (mid := (lo + (hi - lo) / 2)%nat).
  assert (lo < mid < hi)%nat as Hmid.
  { unfold mid. pose proof (Nat.div_mod (hi - lo) 2 ltac:(lia)). pose proof (Nat.mod_upper_bound (hi - lo) 2 ltac:(lia)). lia. }
  replace (at_ lo + size * (Z.of_nat (hi - lo) / 2)) with (at_ mid)
    by (unfold at_, mid; rewrite Nat2Z.inj_add, Nat2Z.inj_div; lia).
  destruct (median_ok m xs lo mid hi H Hmid ltac:(lia)) as (m1 & xs1 & R1 & H1 & Hpv). rewrite bind_run, R1. cbn beta.
  destruct hi as [|hi']; [lia|]. rewrite <- at_S. rewrite (at_S hi'). replace (at_ hi' + size - size) with (at_ hi') by lia.
  rewrite <- (at_S hi'). set (hi := S hi') in *.
  destruct (partition_ok lo hi ltac:(lia) fuel (S lo) hi' mid m1 xs1 H1 Hpv Hmid ltac:(lia) ltac:(lia) ltac:(lia))
    as (l & r & m2 & xs2 & R2 & H2 & Hl & Hr2 & Hrl).
  change (partition cmp fuel size (at_ (S lo), at_ hi', at_ mid) m1 = Done (at_ l, at_ r) m2) in R2.
  rewrite bind_run, R2. cbn beta iota. rewrite !at_dist by lia. unfold MAX_THRESH.
  destruct (Z.leb_spec (Z.of_nat (r - lo)) 8); [destruct (Z.ltb_spec 8 (Z.of_nat (hi - l)))|
    destruct (Z.leb_spec (Z.of_nat (hi - l)) 8); [|destruct (Z.ltb_spec (Z.of_nat (hi - l)) (Z.of_nat (r - lo)))]].
  - assert (ranges N ((l, hi) :: st)) as Hn by (eapply ranges_push; [exact Hr|lia|lia]).
    rewrite (push_ok N) by done. exists m2, xs2, ((l, hi) :: st). split_and!; try done. simpl. lia.
  - exists m2, xs2, st. split_and!; try done. simpl. lia.
  - assert (ranges N ((lo, r) :: st)) as Hn by (eapply ranges_push; [exact Hr|lia|lia]).
    rewrite (push_ok N) by done. exists m2, xs2, ((lo, r) :: st). split_and!; try done. simpl. lia.
  - assert (ranges N ((l, hi) :: (lo, r) :: st)) as Hn by (eapply ranges_push_half; [exact Hr|lia..]).
    rewrite bind_run, (push_ok N) by (done || apply Hn). cbn beta. rewrite (push_ok N) by done.
    exists m2, xs2, ((l, hi) :: (lo, r) :: st). split_and!; try done. simpl. lia.
  - assert (ranges N ((lo, r) :: (l, hi) :: st)) as Hn by (eapply ranges_push_half; [exact Hr|lia..]).
    rewrite bind_run, (push_ok N) by (done || apply Hn). cbn beta. rewrite (push_ok N) by done.
    exists m2, xs2, ((lo, r) :: (l, hi) :: st). split_and!; try done. simpl. lia.
Qed.

Lemma quick_phase_ok N f st m xs :
  holds m xs -> ranges N st -> N < 2 ^ 64 -> (turns st < f)%nat ->
  exists m' xs', while f (fun stack =>
      match stack with
      | [] => mret (inr tt)
      | (lo, hi) :: stack => stack ← sort_range cmp fuel size lo hi stack; mret (inl stack)
      end) (ptrs st) m = Done tt m' /\ holds m' xs'.
Proof.
  revert st m xs. induction f as [|f IH]; intros st m xs H Hr HN Hf; [lia|]. rewrite while_S.
  destruct st as [|[lo hi] st]; [by exists m, xs|]. cbn [ptrs fmap list_fmap fst snd]. fold (ptrs st).
  destruct (sort_range_ok N m xs lo hi st H Hr HN) as (m1 & xs1 & st1 & R & H1 & Hr1 & Ht).
  rewrite bind_run, R. cbn beta. apply (IH st1 m1 xs1); try done. lia.
Qed.

(** ** The insertion phase *)

(** The first [k] elements are in order. *)
Definition sorted_upto (k : nat) (xs : list (list Z)) : Prop :=
  forall i j x y, (i < j < k)%nat -> xs !! i = Some x -> xs !! j = Some y -> cmp x y <= 0.

(** ... but for the one at [t], which is still on its way down. *)
Definition sinking (k t : nat) (xs : list (list Z)) : Prop :=
  forall i j x y, (i < j < k)%nat -> j <> t -> xs !! i = Some x -> xs !! j = Some y -> cmp x y <= 0.

Lemma cmp_le x y : 0 < cmp y x -> cmp x y <= 0.
Proof. intros H. apply cmp_flip in H. lia. Qed.

Lemma sinking_done k t xs x y :
  sinking k (S t) xs -> xs !! t = Some x -> xs !! S t = Some y -> cmp x y <= 0 -> sorted_upto k xs.
Proof.
  intros Hs Hx Hy Hc i j u v Hij Hu Hv. destruct (decide (j = S t)) as [->|]; [|by eapply Hs].
  simplify_eq. destruct (decide (i = t)) as [->|]; [by simplify_eq|].
  apply (cmp_trans u x y); [|done]. apply (Hs i t); try done; lia.
Qed.

Lemma sinking_step k t xs x y :
  length xs = n -> (S t < k <= n)%nat ->
  sinking k (S t) xs -> xs !! t = Some x -> xs !! S t = Some y -> 0 < cmp x y ->
  sinking k t (swapped t (S t) x y xs).
Proof.
  intros Hl Hk Hs Hx Hy Hc i j u v Hij Hj Hu Hv.
  assert (forall q, q <> t -> q <> S t -> swapped t (S t) x y xs !! q = xs !! q) as Kq by (intros; by apply swapped_k).
  assert (swapped t (S t) x y xs !! t = Some y) as Kt by (apply swapped_i; lia).
  assert (swapped t (S t) x y xs !! S t = Some x) as Ks by (apply swapped_j; lia).
  destruct (decide (j = S t)) as [->|Nj].
  - rewrite Ks in Hv. injection Hv as <-. destruct (decide (i = t)) as [->|Ni].
    + rewrite Kt in Hu. injection Hu as <-. by apply cmp_le.
    + rewrite Kq in Hu by lia. apply (Hs i t); try done; lia.
  - rewrite Kq in Hv by lia. destruct (decide (i = t)) as [->|Ni]; [|destruct (decide (i = S t)) as [->|Ni']].
    + rewrite Kt in Hu. injection Hu as <-. apply (Hs (S t) j); try done; lia.
    + rewrite Ks in Hu. injection Hu as <-. apply (Hs t j); try done; lia.
    + rewrite Kq in Hu by lia. by apply (Hs i j).
Qed.

Lemma sink_ok k f t m xs :
  holds m xs -> (t < k <= n)%nat -> sinking k t xs -> (t < f)%nat ->
  exists m' xs', while f (fun tmp_ptr =>
      if base <? tmp_ptr then
        c ← call_compar cmp size (tmp_ptr - size) tmp_ptr;
        if 0 <? c then
          _ ← swap_bytes fuel (tmp_ptr - size) tmp_ptr size;
          mret (inl (tmp_ptr - size))
        else mret (inr tt)
      else mret (inr tt)) (at_ t) m = Done tt m' /\ holds m' xs' /\ sorted_upto k xs'.
Proof.
  revert t m xs. induction f as [|f IH]; intros t m xs H Hk Hs Hf; [lia|]. rewrite while_S.
  assert ((base <? at_ t) = bool_decide (0 < t)%nat) as -> by (rewrite <- at_ltb; f_equal; unfold at_; lia).
  case_bool_decide as Ht.
  2: { exists m, xs. split_and!; try done. intros i j x y Hij Hx Hy. apply (Hs i j); try done. lia. }
  destruct t as [|t]; [lia|]. rewrite at_S. replace (at_ t + size - size) with (at_ t) by lia. rewrite <- at_S.
  destruct (holds_lookup m xs t H ltac:(lia)) as [x Hx]. destruct (holds_lookup m xs (S t) H ltac:(lia)) as [y Hy].
  rewrite bind_run, (compar_at m xs t (S t) x y) by done. destruct (Z.ltb_spec 0 (cmp x y)).
  - destruct (swap_at m xs t (S t) x y H Hx Hy ltac:(lia)) as (m' & R & H'). rewrite bind_run, R. cbn beta.
    apply (IH t m' (swapped t (S t) x y xs)); try done; try lia. apply sinking_step; try done. by apply (holds_len m).
  - exists m, xs. split_and!; try done. by eapply sinking_done.
Qed.

Lemma insertion_ok f k m xs :
  holds m xs -> (1 <= k <= n)%nat -> sorted_upto k xs -> (n - k < f)%nat ->
  exists m' xs', while f (fun run_ptr =>
      if run_ptr <=? at_ (n - 1) then
        _ ← sink cmp fuel size base run_ptr;
        mret (inl (run_ptr + size))
      else mret (inr tt)) (at_ k) m = Done tt m' /\ holds m' xs' /\ sorted_upto n xs'.
Proof.
  revert k m xs. induction f as [|f IH]; intros k m xs H Hk Hs Hf; [lia|]. rewrite while_S.
  rewrite Z.leb_antisym, at_ltb. case_bool_decide as Hd; cbn [negb].
  - exists m, xs. split_and!; try done. by replace n with k by lia.
  - destruct (sink_ok (S k) fuel k m xs H ltac:(lia)) as (m1 & xs1 & R & H1 & Hs1); [|lia|].
    { intros i j x y Hij Hj. apply (Hs i j). lia. }
    change (sink cmp fuel size base (at_ k) m = Done tt m1) in R. rewrite bind_run, R. cbn beta.
    rewrite <- at_S. apply (IH (S k) m1 xs1); try done; lia.
Qed.

Lemma qsort_ok m :
  holds m xs0 -> Z.of_nat n < 2 ^ 64 ->
  exists m' xs', qsort cmp fuel base (Z.of_nat n) size m = Done tt m' /\ holds m' xs' /\ sorted_upto n xs'.
Proof.
  intros H Hn. unfold qsort. destruct (Z.ltb_spec (Z.of_nat n) 2); simpl.
  { exists m, xs0. split_and!; try done. intros i j x y Hij. lia. }
  rewrite (proj2 (Z.eqb_neq size 0)) by lia.
  replace (base + size * (Z.of_nat n - 1)) with (at_ (n - 1)) by (unfold at_; lia).
  assert (exists m1 xs1, when (MAX_THRESH <? Z.of_nat n)
    (stack ← push base (at_ (n - 1)) []; quick_phase cmp fuel size stack) m = Done tt m1 /\ holds m1 xs1) as (m1 & xs1 & R1 & H1).
  { unfold when, MAX_THRESH. destruct (Z.ltb_spec 8 (Z.of_nat n)); [|by exists m, xs0].
    rewrite bind_run. change (push base (at_ (n - 1)) [] m) with (Done [(base, at_ (n - 1))] m : outcome mem (list (Z * Z))).
    cbn beta iota. replace [(base, at_ (n - 1))] with (ptrs [(0, n - 1)%nat]) by (simpl; do 2 f_equal; unfold at_; lia).
    apply (quick_phase_ok (Z.of_nat n) fuel [(0, n - 1)%nat] m xs0); try done; [|simpl; lia].
    simpl. split; [lia|]. split; [lia|done]. }
  rewrite bind_run, R1. cbn beta. unfold insertion_phase. replace (base + size) with (at_ 1) by (unfold at_; lia).
  apply (insertion_ok fuel 1 m1 xs1); try done; try lia. intros i j x y Hij. lia.
Qed.
End sorting.

(** ** Lists of elements *)

Lemma arr_concat m sz p xs :
  Forall (fun x => length x = sz /\ bytes x) xs ->
  (arr m p (concat xs) <-> forall i x, xs !! i = Some x -> arr m (p + Z.of_nat sz * Z.of_nat i) x).
Proof.
  intros HF. revert p. induction HF as [|x xs [Hx _] _ IH]; intros p; [done|]. simpl. rewrite arr_app, IH, Hx. split.
  - intros [Ha Hr] i y Hi. destruct i as [|i]; simpl in Hi.
    + injection Hi as <-. by replace (p + Z.of_nat sz * Z.of_nat 0) with p by lia.
    + replace (p + Z.of_nat sz * Z.of_nat (S i)) with (p + Z.of_nat sz + Z.of_nat sz * Z.of_nat i) by lia. by apply Hr.
  - intros H. split.
    + specialize (H 0%nat x eq_refl). by replace (p + Z.of_nat sz * Z.of_nat 0) with p in H by lia.
    + intros i y Hi. specialize (H (S i) y Hi).
      by replace (p + Z.of_nat sz + Z.of_nat sz * Z.of_nat i) with (p + Z.of_nat sz * Z.of_nat (S i)) by lia.
Qed.

Lemma sorted_upto_strongly cmp xs :
  sorted_upto cmp (length xs) xs <-> StronglySorted (fun x y => cmp x y <= 0) xs.
Proof.
  split.
  - induction xs as [|x xs IH]; intros H; [constructor|]. constructor.
    + apply IH. intros i j u v Hij Hu Hv. apply (H (S i) (S j)); simpl; try done; lia.
    + apply Forall_forall. intros y [j Hj]%list_elem_of_lookup. apply lookup_lt_Some in Hj as Hl.
      apply (H 0%nat (S j)); simpl; try done; lia.
  - induction 1 as [|x xs HS IH HF]; intros i j u v Hij Hu Hv; [done|].
    destruct j as [|j]; [lia|]. simpl in Hv. destruct i as [|i]; simpl in Hu, Hij.
    + simplify_eq. rewrite Forall_forall in HF. apply HF. by eapply list_elem_of_lookup_2.
    + apply (IH i j); try done. lia.
Qed.

(** ** bsearch *)

(** The array from [p] on is searched; in front of it the key is larger, behind
    it the key is smaller. *)
Lemma bsearch_loop (cmp : list Z -> list Z -> Z) sz base m xs key :
  Forall (fun x => length x = sz /\ bytes x) xs -> arr m base (concat xs) ->
  (forall i j x y, (i < j)%nat -> xs !! i = Some x -> xs !! j = Some y ->
     (0 < cmp key y -> 0 < cmp key x) /\ (cmp key x < 0 -> cmp key y < 0)) ->
  forall fuel lo num, (num < fuel)%nat -> (lo + num <= length xs)%nat ->
  (forall i x, xs !! i = Some x -> cmp key x = 0 -> (lo <= i < lo + num)%nat) ->
  exists r, while fuel (fun '(p, num) =>
      if 0 <? num then
        let half := Z.shiftr num 1 in
        let mid := p + half * Z.of_nat sz in
        x ← load_bytes (Z.to_nat (Z.of_nat sz)) mid;
        let c := cmp key x in
        mret (if c =? 0 then inr mid
              else if 0 <? c then inl (mid + Z.of_nat sz, num - half - 1)
              else inl (p, half))
      else mret (inr NULL)) (base + Z.of_nat sz * Z.of_nat lo, Z.of_nat num) m = Done r m /\
    ((exists i x, r = base + Z.of_nat sz * Z.of_nat i /\ xs !! i = Some x /\ cmp key x = 0) \/
     (r = NULL /\ forall i x, xs !! i = Some x -> cmp key x <> 0)).
Proof.
  intros HF Ha Hmono fuel. induction fuel as [|fuel IH]; intros lo num Hf Hlen Hin; [lia|]. rewrite while_S.
  destruct (Z.ltb_spec 0 (Z.of_nat num)).
  2: { exists NULL. split; [done|]. right. split; [done|]. intros i x Hi Hc. specialize (Hin i x Hi Hc). lia. }
  rewrite Z.shiftr_div_pow2 by lia. change (2 ^ 1) with (Z.of_nat 2). rewrite <- Nat2Z.inj_div.
  set (half := (num / 2)%nat).
  assert (half < num)%nat as Hh by (apply Nat.div_lt; lia).
  destruct (lookup_lt_is_Some_2 xs (lo + half)) as [x Hx]; [lia|].
  pose proof (proj1 (arr_concat m sz base xs HF) Ha _ _ Hx) as Hax.
  pose proof (Forall_lookup_1 _ _ _ _ HF Hx) as [Lx _]. rewrite Nat2Z.id. cbn beta zeta.
  replace (base + Z.of_nat sz * Z.of_nat lo + Z.of_nat half * Z.of_nat sz) with (base + Z.of_nat sz * Z.of_nat (lo + half)) by lia.
  pose proof (load_bytes_run _ _ _ Hax) as R. rewrite Lx in R. rewrite bind_run, R, ret_run.
  destruct (Z.eqb_spec (cmp key x) 0) as [E|E].
  { eexists. split; [done|]. left. exists (lo + half)%nat, x. done. }
  destruct (Z.ltb_spec 0 (cmp key x)).
  - replace (base + Z.of_nat sz * Z.of_nat (lo + half) + Z.of_nat sz) with (base + Z.of_nat sz * Z.of_nat (lo + half + 1)) by lia.
    replace (Z.of_nat num - Z.of_nat half - 1) with (Z.of_nat (num - half - 1)) by lia.
    rewrite Nat2Z.id in IH. apply IH; try lia. intros i y Hi Hc. pose proof (Hin i y Hi Hc).
    destruct (decide (i < lo + half)%nat).
    + pose proof (Hmono i (lo + half)%nat y x ltac:(lia) Hi Hx). lia.
    + destruct (decide (i = lo + half)%nat) as [->|]; [simplify_eq; lia|lia].
  - rewrite Nat2Z.id in IH. apply IH; try lia. intros i y Hi Hc. pose proof (Hin i y Hi Hc).
    destruct (decide (lo + half < i)%nat).
    + pose proof (Hmono (lo + half)%nat i x y ltac:(lia) Hx Hi). lia.
    + destruct (decide (i = lo + half)%nat) as [->|]; [simplify_eq; lia|lia].
Qed.

Lemma bsearch_ok cmp `{!Comparator cmp} sz base m xs key fuel :
  Forall (fun x => length x = sz /\ bytes x) xs -> arr m base (concat xs) ->
  StronglySorted (fun x y => cmp x y <= 0) xs -> (length xs < fuel)%nat ->
  exists r, bsearch cmp fuel key base (zlen xs) (Z.of_nat sz) m = Done r m /\
    ((exists i x, r = base + Z.of_nat sz * Z.of_nat i /\ xs !! i = Some x /\ cmp key x = 0) \/
     (r = NULL /\ forall i x, xs !! i = Some x -> cmp key x <> 0)).
Proof.
  intros HF Ha HS Hf. apply sorted_upto_strongly in HS.
  pose proof (bsearch_loop cmp sz base m xs key HF Ha) as K. unfold bsearch.
  assert (base + Z.of_nat sz * Z.of_nat 0 = base) as E by lia.
  specialize (fun H => K H fuel 0%nat (length xs) Hf). rewrite E in K. apply K; clear K; [|lia|].
  - intros i j x y Hij Hx Hy. assert (cmp x y <= 0) as Hxy.
    { apply lookup_lt_Some in Hy as Hl. by apply (HS i j). }
    split; intros H.
    + apply cmp_flip in H. apply cmp_flip. destruct (Z.ltb_spec (cmp x key) 0); [done|].
      (* key <= x would give key <= y *)
      assert (cmp key x <= 0) as H1 by (apply Z.nlt_ge; rewrite <- cmp_flip; lia).
      pose proof (cmp_trans key x y H1 Hxy) as H2. apply cmp_flip in H. lia.
    + destruct (Z.ltb_spec (cmp key y) 0); [done|].
      assert (cmp y key <= 0) as H1 by (apply Z.nlt_ge; rewrite <- cmp_flip; lia).
      pose proof (cmp_trans x y key Hxy H1) as H2. apply cmp_flip in H. lia.
  - intros i x Hi _. apply lookup_lt_Some in Hi. lia.
Qed.

(** ** Properties *)

(** C13. [qsort] with any total preorder as comparison: the call returns, without
    running past the array or its 64-node stack, the array then holds a sorted
    rearrangement of its elements, and nothing else in memory changes. *)
Theorem qsort_sorts cmp `{!Comparator cmp} fuel sz base m xs :
  (0 < sz)%nat -> Forall (fun x => length x = sz /\ bytes x) xs -> arr m base (concat xs) ->
  zlen xs < 2 ^ 64 -> (sz < fuel)%nat -> (2 * length xs < fuel)%nat ->
  exists m' ys, qsort cmp fuel base (zlen xs) (Z.of_nat sz) m = Done tt m' /\
    arr m' base (concat ys) /\ ys ≡ₚ xs /\ StronglySorted (fun x y => cmp x y <= 0) ys /\
    (forall a, ~ (base <= a < base + Z.of_nat sz * zlen xs) -> m' !! a = m !! a).
Proof.
  intros Hsz HF Ha Hn Hf1 Hf2.
  assert (holds sz base m xs m xs) as H.
  { split_and!; try done. intros i x Hi. by apply (arr_concat m sz base xs HF). }
  destruct (qsort_ok cmp fuel sz base m xs ltac:(lia) Hf2 m H Hn) as (m' & ys & R & (HP & HF' & Ha' & Hout) & HS).
  exists m', ys. split_and!; try done.
  - by apply (arr_concat m' sz base ys HF').
  - apply sorted_upto_strongly. by rewrite (Permutation_length HP).
Qed.

(** On an array that [qsort] leaves behind, [bsearch] returns the address of
    an element that compares equal to the key if there is one, and NULL
    otherwise. *)
Theorem bsearch_after_qsort cmp `{!Comparator cmp} fuel sz base m xs key :
  (0 < sz)%nat -> Forall (fun x => length x = sz /\ bytes x) xs -> arr m base (concat xs) -> base <> NULL ->
  zlen xs < 2 ^ 64 -> (sz < fuel)%nat -> (2 * length xs < fuel)%nat ->
  exists m' r, (_ ← qsort cmp fuel base (zlen xs) (Z.of_nat sz); bsearch cmp fuel key base (zlen xs) (Z.of_nat sz)) m = Done r m' /\
    ((exists x, x ∈ xs /\ cmp key x = 0 /\ arr m' r x) \/
     (r = NULL /\ Forall (fun x => cmp key x <> 0) xs)).
Proof.
  intros Hsz HF Ha Hb Hn Hf1 Hf2.
  assert (holds sz base m xs m xs) as H.
  { split_and!; try done. intros i x Hi. by apply (arr_concat m sz base xs HF). }
  destruct (qsort_ok cmp fuel sz base m xs ltac:(lia) Hf2 m H Hn) as (m' & ys & R & (HP & HF' & Ha' & Hout) & HS).
  rewrite <- (Permutation_length HP) in HS. apply sorted_upto_strongly in HS.
  pose proof (proj2 (arr_concat m' sz base ys HF') Ha') as Hay.
  assert (length ys < fuel)%nat as Hf3 by (rewrite (Permutation_length HP); lia).
  destruct (bsearch_ok cmp sz base m' ys key fuel HF' Hay HS Hf3) as (r & Rb & Hr).
  exists m', r. rewrite bind_run, R. rewrite (Permutation_length HP) in Rb. split; [done|].
  destruct Hr as [(i & x & -> & Hi & Hc)|[-> Hno]].
  - left. exists x. split_and!; try done; [rewrite <- HP; by eapply list_elem_of_lookup_2|]. by apply Ha'.
  - right. split; [done|]. rewrite <- HP. apply Forall_lookup. exact Hno.
Qed.

(** ** A concrete array: twelve bytes *)

Definition byte_cmp (x y : list Z) : Z := le_bytes x - le_bytes y.

#[global] Instance byte_cmp_comparator : Comparator byte_cmp.
Proof. split; unfold byte_cmp; intros; lia. Qed.

Definition demo_array : list (list Z) := (fun b => [b]) <$> [9; 3; 12; 1; 7; 7; 200; 0; 5; 11; 4; 2].

Lemma demo_array_ok : Forall (fun x => length x = 1%nat /\ bytes x) demo_array.
Proof. repeat constructor; lia. Qed.

Lemma qsort_sorts_witness :
  exists m' ys, qsort byte_cmp 30 100 12 1 (wr ∅ 100 (concat demo_array)) = Done tt m' /\
    arr m' 100 (concat ys) /\ ys ≡ₚ demo_array /\ StronglySorted (fun x y => byte_cmp x y <= 0) ys /\
    (forall a, ~ (100 <= a < 100 + 1 * 12) -> m' !! a = wr ∅ 100 (concat demo_array) !! a).
Proof.
  apply (qsort_sorts byte_cmp 30 1 100 (wr ∅ 100 (concat demo_array)) demo_array);
    [lia|apply demo_array_ok|apply wr_arr|done|lia|simpl; lia].
Defined.

Lemma bsearch_after_qsort_witness :
  exists m' r, (_ ← qsort byte_cmp 30 100 12 1; bsearch byte_cmp 30 [7] 100 12 1) (wr ∅ 100 (concat demo_array)) = Done r m' /\
    ((exists x, x ∈ demo_array /\ byte_cmp [7] x = 0 /\ arr m' r x) \/
     (r = NULL /\ Forall (fun x => byte_cmp [7] x <> 0) demo_array)).
Proof.
  apply (bsearch_after_qsort byte_cmp 30 1 100 (wr ∅ 100 (concat demo_array)) demo_array [7]);
    [lia|apply demo_array_ok|apply wr_arr|done|done|lia|simpl; lia].
Defined.
