(* ===== verification/Time.v ===== *)
(** * time.c: the calendar and strftime

    [struct tm] is a record; [int] arithmetic that can overflow is checked
    ([int_]), since signed overflow is undefined. *)

From stdpp Require Import base tactics list gmap numbers strings.
From Stdlib Require Import ZArith Lia.
From S2P Require Import Prelude.
From S2P Require Import Memory.

Record tm := {
  tm_sec : Z; tm_min : Z; tm_hour : Z; tm_mday : Z; tm_mon : Z;
  tm_year : Z; tm_wday : Z; tm_yday : Z; tm_isdst : Z
}.

Definition DAYS_PER_MONTH : list Z := [31; 28; 31; 30; 31; 30; 31; 31; 30; 31; 30; 31].

Definition is_leap (year : Z) : bool :=
  (Z.rem year 4 =? 0) && (negb (Z.rem year 100 =? 0) || (Z.rem year 400 =? 0)).

Definition days_in_month (mon year : Z) : Z :=
  if (mon =? 1) && is_leap year then 29 else nth (Z.to_nat mon) DAYS_PER_MONTH 0.

(** A value of type [int]: overflow is undefined. *)
Definition int_ {S} (x : Z) : M S Z :=
  if (INT32_MIN <=? x) && (x <=? INT32_MAX) then mret x else undefined.

Section calendar.
Context {S : Type} (fuel : nat).

(** The walk through the years: the days left and the year. *)
Definition year_walk : Z * Z -> M S (Z * Z) :=
  while fuel (fun '(t, year) =>
    let days_this_year := if is_leap year then 366 else 365 in
    if t <? days_this_year then mret (inr (t, year))
    else year ← int_ (year + 1); mret (inl (t - days_this_year, year))).

(** The walk through the months. *)
Definition month_walk (year : Z) : Z * Z -> M S (Z * Z) :=
  while fuel (fun '(t, mon) =>
    if mon <? 12 then
      let dim := days_in_month mon year in
      if t <? dim then mret (inr (t, mon)) else mret (inl (t - dim, mon + 1))
    else mret (inr (t, mon))).

Definition gmtime_r (timep : Z) : M S tm :=
  let t := u64 timep in
  let sec := t mod 60 in
  let t := t / 60 in
  let min := t mod 60 in
  let t := t / 60 in
  let hour := t mod 24 in
  let t := t / 24 in
  let wday := u64 (t + 4) mod 7 in
  ty ← year_walk (t, 1970);
  let '(t, year) := ty in
  tm ← month_walk year (t, 0);
  let '(d, mon) := tm in
  mret {| tm_sec := sec; tm_min := min; tm_hour := hour; tm_mday := d + 1; tm_mon := mon;
          tm_year := year - 1900; tm_wday := wday; tm_yday := t; tm_isdst := 0 |}.

Definition localtime_r (timer : Z) : M S tm := gmtime_r timer.

(** [tm_min += tm_sec / 60; tm_sec %= 60;]: the sum and the remainder. *)
Definition carry (hi lo m : Z) : M S (Z * Z) :=
  hi ← int_ (hi + Z.quot lo m); mret (hi, Z.rem lo m).

(** [if (tm_sec < 0) { tm_min--; tm_sec += 60; }] *)
Definition borrow (hi lo m : Z) : M S (Z * Z) :=
  if lo <? 0 then hi ← int_ (hi - 1); mret (hi, lo + m) else mret (hi, lo).

(** Walk backwards while [tm_mday < 1]. *)
Definition walk_back : Z * Z * Z -> M S (Z * Z * Z) :=
  while fuel (fun '(mday, mon, year) =>
    if mday <? 1 then
      my ← (if mon - 1 <? 0 then y ← int_ (year - 1); mret (11, y) else mret (mon - 1, year));
      let '(mon, year) := my in
      y ← int_ (year + 1900);
      mday ← int_ (mday + days_in_month mon y);
      mret (inl (mday, mon, year))
    else mret (inr (mday, mon, year))).

(** Walk forwards while [tm_mday] is behind the month's end. *)
Definition walk_forward : Z * Z * Z -> M S (Z * Z * Z) :=
  while fuel (fun '(mday, mon, year) =>
    y ← int_ (year + 1900);
    let dim := days_in_month mon y in
    if mday <=? dim then mret (inr (mday, mon, year))
    else
      my ← (if 11 <? mon + 1 then y ← int_ (year + 1); mret (0, y) else mret (mon + 1, year));
      let '(mon, year) := my in
      mret (inl (mday - dim, mon, year))).

(** [for (int y = 1970; y < full_year; y++) days += ...] *)
Definition sum_years (full_year : Z) : M S Z :=
  while fuel (fun '(y, days) =>
    if y <? full_year then mret (inl (y + 1, u64 (days + if is_leap y then 366 else 365)))
    else mret (inr days)) (1970, 0).

(** [for (int m = 0; m < tm_mon; m++) ...] *)
Definition sum_months (mon full_year days : Z) : M S (Z * Z) :=
  while fuel (fun '(m, days, yday) =>
    if m <? mon then
      let d := days_in_month m full_year in mret (inl (m + 1, u64 (days + d), yday + d))
    else mret (inr (days, yday))) (0, days, 0).

(** [mktime]: the time, and the normalised fields it leaves behind. *)
Definition mktime (t : tm) : M S (Z * tm) :=
  ms ← carry (tm_min t) (tm_sec t) 60;
  let '(min, sec) := ms in
  hm ← carry (tm_hour t) min 60;
  let '(hour, min) := hm in
  dh ← carry (tm_mday t) hour 24;
  let '(mday, hour) := dh in
  ms ← borrow min sec 60;
  let '(min, sec) := ms in
  hm ← borrow hour min 60;
  let '(hour, min) := hm in
  dh ← borrow mday hour 24;
  let '(mday, hour) := dh in
  ym ← carry (tm_year t) (tm_mon t) 12;
  let '(year, mon) := ym in
  ym ← borrow year mon 12;
  let '(year, mon) := ym in
  dmy ← walk_back (mday, mon, year);
  dmy ← walk_forward dmy;
  let '(mday, mon, year) := dmy in
  full_year ← int_ (year + 1900);
  let fields wday yday isdst :=
    {| tm_sec := sec; tm_min := min; tm_hour := hour; tm_mday := mday; tm_mon := mon;
       tm_year := year; tm_wday := wday; tm_yday := yday; tm_isdst := isdst |} in
  if full_year <? 1970 then mret (-1, fields (tm_wday t) (tm_yday t) (tm_isdst t))
  else
    days ← sum_years full_year;
    dy ← sum_months mon full_year days;
    let '(days, yday) := dy in
    let days := u64 (days + (mday - 1)) in
    let yday := yday + (mday - 1) in
    let wday := u64 (days + 4) mod 7 in
    mret (i64 (u64 (days * 86400 + hour * 3600 + min * 60 + sec)), fields wday yday 0).
End calendar.

(** ** strftime

    The format is the list of its characters; string literals are lists too. *)

Fixpoint chars (x : string) : list Z :=
  match x with EmptyString => [] | String c r => Z.of_nat (Ascii.nat_of_ascii c) :: chars r end.

Definition weekday_full : list string :=
  ["Sunday"; "Monday"; "Tuesday"; "Wednesday"; "Thursday"; "Friday"; "Saturday"]%string.
Definition weekday_abbr : list string := ["Sun"; "Mon"; "Tue"; "Wed"; "Thu"; "Fri"; "Sat"]%string.
Definition month_full : list string :=
  ["January"; "February"; "March"; "April"; "May"; "June"; "July"; "August"; "September"; "October";
   "November"; "December"]%string.
Definition month_abbr : list string :=
  ["Jan"; "Feb"; "Mar"; "Apr"; "May"; "Jun"; "Jul"; "Aug"; "Sep"; "Oct"; "Nov"; "Dec"]%string.

(** The digits [append_int] puts into [tmp], the last one first stored: at most
    ten of them for an [int]. *)
Fixpoint int_digits (n : nat) (v : Z) (acc : list Z) : list Z :=
  match n with
  | O => acc
  | S n' => if 0 <? v then int_digits n' (v / 10) (48 + v mod 10 :: acc) else acc
  end.

Section strftime.
Context (s max : Z).

(** [s[pos++] = c], or leave with 0 when the buffer is full: [None]. *)
Definition put_char (pos c : Z) : M mem (option Z) :=
  if u64 (max - 1) <=? pos then mret None
  else _ ← store8 (s + pos) c; mret (Some (pos + 1)).

Fixpoint append_str (pos : Z) (str : list Z) : M mem (option Z) :=
  match str with
  | [] => mret (Some pos)
  | c :: str' =>
      r ← put_char pos c;
      match (r : option Z) with None => mret None | Some pos => append_str pos str' end
  end.

(** The text of [val], padded on the left. *)
Definition int_text (val width pad : Z) : M mem (list Z) :=
  v ← (if val <? 0 then int_ (- val) else mret val);
  let ds := if val =? 0 then [48] else (if val <? 0 then [45] else []) ++ int_digits 10 v [] in
  mret (replicate (Z.to_nat (width - zlen ds)) pad ++ ds).

Definition append_int (pos val width pad : Z) : M mem (option Z) :=
  tmp ← int_text val width pad; append_str pos tmp.

(** The default case: the two characters as they are. *)
Definition append_unknown (pos spec : Z) : M mem (option Z) :=
  r ← put_char pos 37;
  match (r : option Z) with None => mret None | Some pos => put_char pos spec end.

(** [strftime_impl(s + pos, max - pos, f, tm)], whose result is added to [pos]. *)
Definition append_nested (impl : Z -> Z -> list Z -> M mem Z) (pos : Z) (f : string) : M mem (option Z) :=
  n ← impl (s + pos) (max - pos) (chars f);
  if (n =? 0) && (1 <? max - pos) then mret None else mret (Some (pos + n)).

(** A name from a table, when the index is in range. *)
Definition append_name (pos i : Z) (table : list string) : M mem (option Z) :=
  if (i <? 0) || (zlen table <=? i) then mret None
  else append_str pos (chars (nth (Z.to_nat i) table EmptyString)).

Definition conversion (impl : Z -> Z -> list Z -> M mem Z) (t : tm) (pos spec : Z) : M mem (option Z) :=
  if spec =? 37 (* % *) then put_char pos 37
  else if spec =? 89 (* Y *) then y ← int_ (tm_year t + 1900); append_int pos y 4 48
  else if spec =? 121 (* y *) then y ← int_ (tm_year t + 1900); append_int pos (Z.rem y 100) 2 48
  else if spec =? 109 (* m *) then v ← int_ (tm_mon t + 1); append_int pos v 2 48
  else if spec =? 100 (* d *) then append_int pos (tm_mday t) 2 48
  else if spec =? 101 (* e *) then append_int pos (tm_mday t) 2 32
  else if spec =? 72 (* H *) then append_int pos (tm_hour t) 2 48
  else if spec =? 73 (* I *) then
    let h12 := Z.rem (tm_hour t) 12 in append_int pos (if h12 =? 0 then 12 else h12) 2 48
  else if spec =? 77 (* M *) then append_int pos (tm_min t) 2 48
  else if spec =? 83 (* S *) then append_int pos (tm_sec t) 2 48
  else if spec =? 106 (* j *) then v ← int_ (tm_yday t + 1); append_int pos v 3 48
  else if spec =? 117 (* u *) then append_int pos (if tm_wday t =? 0 then 7 else tm_wday t) 1 48
  else if spec =? 119 (* w *) then append_int pos (tm_wday t) 1 48
  else if spec =? 65 (* A *) then append_name pos (tm_wday t) weekday_full
  else if spec =? 97 (* a *) then append_name pos (tm_wday t) weekday_abbr
  else if spec =? 66 (* B *) then append_name pos (tm_mon t) month_full
  else if (spec =? 98) || (spec =? 104) (* b h *) then append_name pos (tm_mon t) month_abbr
  else if spec =? 112 (* p *) then append_str pos (chars (if tm_hour t <? 12 then "AM" else "PM"))
  else if spec =? 80 (* P *) then append_str pos (chars (if tm_hour t <? 12 then "am" else "pm"))
  else if spec =? 110 (* n *) then append_str pos [10]
  else if spec =? 116 (* t *) then append_str pos [9]
  else if spec =? 70 (* F *) then append_nested impl pos "%Y-%m-%d"
  else if spec =? 84 (* T *) then append_nested impl pos "%H:%M:%S"
  else if spec =? 82 (* R *) then append_nested impl pos "%H:%M"
  else if spec =? 68 (* D *) then append_nested impl pos "%m/%d/%y"
  else if spec =? 99 (* c *) then append_nested impl pos "%F %T"
  else if spec =? 120 (* x *) then append_nested impl pos "%F"
  else if spec =? 88 (* X *) then append_nested impl pos "%T"
  else append_unknown pos spec.

(** The loop over the format. A format that ends with [%] makes the code take
    the terminator for the conversion character and read on behind it. *)
Fixpoint strftime_loop (impl : Z -> Z -> list Z -> M mem Z) (t : tm) (fmt : list Z) (pos : Z) : M mem Z :=
  match fmt with
  | [] => _ ← store8 (s + pos) 0; mret pos
  | c :: fmt' =>
      if negb (c =? 37) then
        r ← put_char pos c;
        match (r : option Z) with None => mret 0 | Some pos => strftime_loop impl t fmt' pos end
      else
        match fmt' with
        | [] => r ← conversion impl t pos 0; match (r : option Z) with None => mret 0 | Some _ => undefined end
        | spec :: fmt'' =>
            r ← conversion impl t pos spec;
            match (r : option Z) with None => mret 0 | Some pos => strftime_loop impl t fmt'' pos end
        end
  end.
End strftime.

(** [depth] bounds the nesting of the composite conversions: [%c] uses [%F]. *)
Fixpoint strftime_impl (depth : nat) (t : tm) (s max : Z) (fmt : list Z) : M mem Z :=
  match depth with
  | O => fun _ => NoFuel
  | S depth' => strftime_loop s max (fun s max fmt => strftime_impl depth' t s max fmt) t fmt 0
  end.

Definition strftime (s max : Z) (fmt : list Z) (t : tm) : M mem Z :=
  if (s =? NULL) || (max =? 0) then mret 0 else strftime_impl 3 t s max fmt.
