(* ===== verification/TimeFacts.v ===== *)
(** * The calendar of time.c is the Gregorian calendar *)

From stdpp Require Import base tactics list gmap numbers strings.
From Stdlib Require Import ZArith Lia.
From S2P Require Import Prelude.
From S2P Require Import Memory.
From S2P Require Import Time.

(** ** The calendar in closed form *)

(** The leap years up to [n]. *)
Definition leaps (n : Z) : Z := n / 4 - n / 100 + n / 400.

(** The days from 1970-01-01 to the first of January of [y]. *)
Definition year_day (y : Z) : Z := 365 * (y - 1970) + (leaps (y - 1) - leaps 1969).

(** The days of the year [y] before the first of month [m]. *)
Fixpoint month_day (m : nat) (y : Z) : Z :=
  match m with O => 0 | S m' => month_day m' y + days_in_month (Z.of_nat m') y end.

(** The seconds from 1970-01-01T00:00:00 to the time the fields name, whatever
    their values: a month outside 0..11 is counted in years, the rest linearly. *)
Definition epoch (t : tm) : Z :=
  let y := tm_year t + 1900 + tm_mon t / 12 in
  86400 * (year_day y + month_day (Z.to_nat (tm_mon t mod 12)) y + tm_mday t - 1)
  + 3600 * tm_hour t + 60 * tm_min t + tm_sec t.

Definition year_len (y : Z) : Z := if is_leap y then 366 else 365.

Lemma rem_zero a b : 0 < b -> (Z.rem a b =? 0) = (a mod b =? 0).
Proof.
  intros Hb. apply eq_bool_prop_intro. rewrite !Is_true_true, !Z.eqb_eq.
  rewrite Z.rem_divide, Z.mod_divide by lia. done.
Qed.

Lemma div_step n b : 0 < b -> n / b - (n - 1) / b = if n mod b =? 0 then 1 else 0.
Proof.
  intros Hb. destruct (Z.eqb_spec (n mod b) 0) as [E|E].
  - apply Z.div_exact in E; [|lia]. rewrite E at 2. replace (b * (n / b) - 1) with (b - 1 + (n / b - 1) * b) by lia.
    rewrite Z.div_add, (Z.div_small (b - 1) b) by lia. lia.
  - pose proof (Z.div_mod n b ltac:(lia)) as H. pose proof (Z.mod_pos_bound n b Hb).
    rewrite H at 2. replace (b * (n / b) + n mod b - 1) with (n mod b - 1 + n / b * b) by lia.
    rewrite Z.div_add, (Z.div_small (n mod b - 1) b) by lia. lia.
Qed.

Lemma year_day_S y : year_day (y + 1) = year_day y + year_len y.
Proof.
  unfold year_day, year_len, is_leap, leaps. rewrite !rem_zero by lia.
  pose proof (div_step y 4 ltac:(lia)). pose proof (div_step y 100 ltac:(lia)). pose proof (div_step y 400 ltac:(lia)).
  replace (y + 1 - 1) with y by lia.
  destruct (Z.eqb_spec (y mod 4) 0), (Z.eqb_spec (y mod 100) 0), (Z.eqb_spec (y mod 400) 0); simpl; try lia;
    exfalso; Z.to_euclidean_division_equations; lia.
Qed.

Lemma year_len_bounds y : 365 <= year_len y <= 366.
Proof. unfold year_len. destruct (is_leap y); lia. Qed.

Lemma month_len m y : 0 <= m < 12 -> 28 <= days_in_month m y <= 31.
Proof.
  intros Hm. unfold days_in_month. destruct ((m =? 1) && is_leap y); [lia|].
  assert (m = 0 \/ m = 1 \/ m = 2 \/ m = 3 \/ m = 4 \/ m = 5 \/ m = 6 \/ m = 7 \/ m = 8 \/ m = 9 \/ m = 10 \/ m = 11) as Hc by lia.
  destruct Hc as [->|[->|[->|[->|[->|[->|[->|[->|[->|[->|[->| ->]]]]]]]]]]]; vm_compute; split; discriminate.
Qed.

Lemma month_day_12 y : month_day 12 y = year_len y.
Proof. unfold year_len. cbn -[is_leap]. unfold days_in_month. cbn -[is_leap]. destruct (is_leap y); done. Qed.

Lemma month_day_mono m m' y : (m <= m' <= 12)%nat -> month_day m y <= month_day m' y.
Proof.
  intros [H1 H2]. induction H1 as [|k Hk IH]; [lia|]. cbn [month_day].
  pose proof (month_len (Z.of_nat k) y ltac:(lia)). lia.
Qed.

Lemma yday_bound m d y : 0 <= m < 12 -> 1 <= d <= days_in_month m y ->
  0 <= month_day (Z.to_nat m) y + d - 1 < year_len y.
Proof.
  intros Hm Hd. pose proof (month_day_mono 0 (Z.to_nat m) y ltac:(lia)) as E1.
  pose proof (month_day_mono (Datatypes.S (Z.to_nat m)) 12 y ltac:(lia)) as E2. rewrite month_day_12 in E2.
  cbn [month_day] in E1, E2. rewrite Z2Nat.id in E2 by lia. lia.
Qed.

Lemma year_day_mono y y' : y <= y' -> year_day y + 365 * (y' - y) <= year_day y'.
Proof.
  intros H. replace y' with (y + Z.of_nat (Z.to_nat (y' - y))) at 2 by lia.
  replace (y' - y) with (Z.of_nat (Z.to_nat (y' - y))) at 1 by lia.
  induction (Z.to_nat (y' - y)) as [|k IH]; [replace (y + Z.of_nat 0) with y by lia; lia|].
  replace (y + Z.of_nat (S k)) with (y + Z.of_nat k + 1) by lia. rewrite year_day_S.
  pose proof (year_len_bounds (y + Z.of_nat k)). lia.
Qed.

Lemma int_ok {S} x (s : S) : INT32_MIN <= x <= INT32_MAX -> int_ x s = Done x s.
Proof.
  intros H. unfold int_. by rewrite (proj2 (Z.leb_le _ _)), (proj2 (Z.leb_le _ _)) by lia.
Qed.

(** ** gmtime_r *)

Section walks.
Context {S : Type} (s : S).

Lemma year_walk_ok fuel t year :
  0 <= t -> 1970 <= year -> year + t / 365 < INT32_MAX -> t / 365 < Z.of_nat fuel ->
  exists d y, year_walk fuel (t, year) s = Done (d, y) s /\ year <= y <= year + t / 365 /\
    0 <= d < year_len y /\ year_day year + t = year_day y + d.
Proof.
  revert t year. induction fuel as [|fuel IH]; intros t year Ht Hy Hmax Hf.
  - pose proof (Z.div_pos t 365). lia.
  - unfold year_walk. rewrite while_S. cbn beta iota. fold (year_len year). pose proof (year_len_bounds year) as Hl.
    assert (0 <= t / 365) by (apply Z.div_pos; lia).
    destruct (Z.ltb_spec t (year_len year)); [exists t, year; split_and!; (done || lia)|].
    assert (365 <= t) by lia.
    assert (t / 365 = (t - 365) / 365 + 1) as E1 by (rewrite <- Z.div_add by lia; f_equal; lia).
    assert ((t - year_len year) / 365 <= (t - 365) / 365) by (apply Z.div_le_mono; lia).
    assert (0 <= (t - year_len year) / 365) by (apply Z.div_pos; lia).
    rewrite bind_run, int_ok by (unfold INT32_MIN, INT32_MAX in *; lia). rewrite ret_run.
    destruct (IH (t - year_len year) (year + 1)) as (d & y & R & K1 & K2 & K3); try lia.
    exists d, y. split; [exact R|]. rewrite year_day_S in K3. split_and!; lia.
Qed.

Lemma month_walk_ok fuel t mon year :
  0 <= t -> (mon <= 12)%nat -> t < month_day 12 year - month_day mon year -> (12 - mon < fuel)%nat ->
  exists d m, month_walk fuel year (t, Z.of_nat mon) s = Done (d, Z.of_nat m) s /\ (m < 12)%nat /\
    0 <= d < days_in_month (Z.of_nat m) year /\ month_day mon year + t = month_day m year + d.
Proof.
  revert t mon. induction fuel as [|fuel IH]; intros t mon Ht Hm Hlt Hf; [lia|].
  unfold month_walk. rewrite while_S. cbn beta iota.
  destruct (Z.ltb_spec (Z.of_nat mon) 12); [|replace mon with 12%nat in Hlt by lia; lia].
  destruct (Z.ltb_spec t (days_in_month (Z.of_nat mon) year)); [exists t, mon; split_and!; (done || lia)|].
  rewrite ret_run. replace (Z.of_nat mon + 1) with (Z.of_nat (Datatypes.S mon)) by lia.
  destruct (IH (t - days_in_month (Z.of_nat mon) year) (Datatypes.S mon)) as (d & m & R & H1 & H2 & H3); try lia; cbn [month_day] in *; try lia.
  exists d, m. split; [exact R|]. split_and!; lia.
Qed.
End walks.

(** Fields that name a time in the usual way. *)
Definition normal (t : tm) : Prop :=
  0 <= tm_sec t < 60 /\ 0 <= tm_min t < 60 /\ 0 <= tm_hour t < 24 /\ 0 <= tm_mon t < 12 /\
  1 <= tm_mday t <= days_in_month (tm_mon t) (tm_year t + 1900) /\
  tm_yday t = month_day (Z.to_nat (tm_mon t)) (tm_year t + 1900) + tm_mday t - 1 /\
  tm_wday t = (epoch t / 86400 + 4) mod 7 /\ tm_isdst t = 0.

Lemma epoch_normal t :
  0 <= tm_mon t < 12 ->
  epoch t = 86400 * (year_day (tm_year t + 1900) + month_day (Z.to_nat (tm_mon t)) (tm_year t + 1900) + tm_mday t - 1)
    + 3600 * tm_hour t + 60 * tm_min t + tm_sec t.
Proof. intros H. unfold epoch. by rewrite Z.div_small, Z.mod_small, Z.add_0_r by done. Qed.

(** Normal fields are determined by the second they name. *)
Lemma normal_unique a b : normal a -> normal b -> epoch a = epoch b -> a = b.
Proof.
  intros (A1 & A2 & A3 & A4 & A5 & A6 & A7 & A8) (B1 & B2 & B3 & B4 & B5 & B6 & B7 & B8) E.
  pose proof E as E0. rewrite (epoch_normal a), (epoch_normal b) in E0 by done. rewrite E in A7.
  set (ya := tm_year a + 1900) in *. set (yb := tm_year b + 1900) in *.
  set (da := year_day ya + month_day (Z.to_nat (tm_mon a)) ya + tm_mday a - 1) in *.
  set (db := year_day yb + month_day (Z.to_nat (tm_mon b)) yb + tm_mday b - 1) in *.
  assert (da = db /\ tm_hour a = tm_hour b /\ tm_min a = tm_min b /\ tm_sec a = tm_sec b) as (Ed & Eh & Em & Es) by lia.
  assert (tm_year a = tm_year b) as Ey.
  { assert (forall y y' d d', 0 <= d < year_len y -> 0 <= d' -> year_day y + d = year_day y' + d' -> y' <= y) as K.
    { intros y y' d d' Hd Hd' He. destruct (Z.leb_spec y' y); [done|]. pose proof (year_day_mono (y + 1) y' ltac:(lia)) as M.
      rewrite year_day_S in M. lia. }
    pose proof (yday_bound (tm_mon a) (tm_mday a) ya A4 A5). pose proof (yday_bound (tm_mon b) (tm_mday b) yb B4 B5).
    pose proof (K ya yb (month_day (Z.to_nat (tm_mon a)) ya + tm_mday a - 1) (month_day (Z.to_nat (tm_mon b)) yb + tm_mday b - 1)).
    pose proof (K yb ya (month_day (Z.to_nat (tm_mon b)) yb + tm_mday b - 1) (month_day (Z.to_nat (tm_mon a)) ya + tm_mday a - 1)). lia. }
  assert (yb = ya) as Eyb by lia. clearbody ya yb. subst yb.
  assert (tm_mon a = tm_mon b) as Emo.
  { assert (forall m m' d d', 0 <= m < 12 -> 0 <= m' < 12 -> 1 <= d <= days_in_month m ya -> 1 <= d' ->
      month_day (Z.to_nat m) ya + d = month_day (Z.to_nat m') ya + d' -> m' <= m) as K.
    { intros m m' d d' Hm Hm' Hd Hd' He. destruct (Z.leb_spec m' m); [done|].
      pose proof (month_day_mono (Datatypes.S (Z.to_nat m)) (Z.to_nat m') ya ltac:(lia)) as M. cbn [month_day] in M.
      rewrite Z2Nat.id in M by lia. lia. }
    pose proof (K (tm_mon a) (tm_mon b) (tm_mday a) (tm_mday b)). pose proof (K (tm_mon b) (tm_mon a) (tm_mday b) (tm_mday a)). lia. }
  destruct a, b; cbn in *. subst. f_equal; lia.
Qed.

Lemma gmtime_ok {S} (s : S) fuel t :
  0 <= t < 2 ^ 55 -> t / 31536000 + 13 < Z.of_nat fuel ->
  exists r, gmtime_r fuel t s = Done r s /\ normal r /\ epoch r = t /\ 0 <= tm_year r - 70 <= t / 31536000.
Proof.
  intros Ht Hf. unfold gmtime_r. rewrite u64_id by (unfold UINT64_MAX; lia).
  set (days := t / 60 / 60 / 24). assert (t = 86400 * days + 3600 * (t / 60 / 60 mod 24) + 60 * (t / 60 mod 60) + t mod 60) as Et.
  { unfold days. pose proof (Z.div_mod t 60). pose proof (Z.div_mod (t / 60) 60). pose proof (Z.div_mod (t / 60 / 60) 24). lia. }
  pose proof (Z.mod_pos_bound t 60). pose proof (Z.mod_pos_bound (t / 60) 60). pose proof (Z.mod_pos_bound (t / 60 / 60) 24).
  assert (0 <= days) by (unfold days; rewrite !Z.div_div by lia; apply Z.div_pos; lia).
  assert (days / 365 = t / 31536000) as Ed by (unfold days; by rewrite !Z.div_div by lia).
  assert (t / 31536000 < 2 ^ 31 - 2000) by (apply Z.div_lt_upper_bound; lia).
  destruct (year_walk_ok s fuel days 1970) as (d & y & R & Hy & Hd & E); [lia|lia|unfold INT32_MAX; lia|lia|].
  rewrite bind_run, R. cbn beta iota.
  destruct (month_walk_ok s fuel d 0 y) as (dd & m & R2 & Hm & Hdd & E2); [lia|lia|rewrite month_day_12; simpl; lia|lia|].
  change (Z.of_nat 0) with 0 in R2. rewrite bind_run, R2. cbn beta iota. rewrite ret_run. eexists. split; [done|].
  change (year_day 1970) with 0 in E. cbn [month_day] in E2.
  match goal with |- normal ?r /\ _ => assert (epoch r = t) as Ee end.
  { rewrite epoch_normal by (simpl; lia). cbn. rewrite Nat2Z.id. replace (y - 1900 + 1900) with y by lia. lia. }
  split; [|split; [exact Ee|cbn; lia]].
  unfold normal. rewrite Ee. cbn. rewrite Nat2Z.id. replace (y - 1900 + 1900) with y by lia.
  split_and!; try lia. rewrite u64_id by (unfold UINT64_MAX; lia). unfold days. by rewrite !Z.div_div by lia.
Qed.

(** ** mktime *)

Section mktime.
Context {S : Type} (s : S).

Lemma carry_ok hi lo m :
  0 < m -> Z.abs hi + Z.abs lo <= INT32_MAX ->
  exists hi' lo', carry hi lo m s = Done (hi', lo') s /\ m * hi' + lo' = m * hi + lo /\ - m < lo' < m /\
    Z.abs hi' <= Z.abs hi + Z.abs lo.
Proof.
  intros Hm Hb. unfold carry. pose proof (Z.quot_rem lo m ltac:(lia)) as E.
  pose proof (Z.rem_bound_abs lo m ltac:(lia)) as Hr.
  assert (Z.abs (Z.quot lo m) <= Z.abs lo) as Hq.
  { pose proof (Z.rem_sign_nz lo m). pose proof (Z.quot_abs lo m ltac:(lia)) as Ea. rewrite (Z.abs_eq m) in Ea by lia.
    rewrite <- Ea, Z.quot_div_nonneg by lia. apply Z.div_le_upper_bound; [lia|nia]. }
  rewrite bind_run, int_ok by (unfold INT32_MIN, INT32_MAX in *; lia). rewrite ret_run.
  do 2 eexists. split; [done|]. split_and!; lia.
Qed.

Lemma borrow_ok hi lo m :
  0 < m -> - m <= lo < m -> INT32_MIN < hi <= INT32_MAX ->
  exists hi' lo', borrow hi lo m s = Done (hi', lo') s /\ m * hi' + lo' = m * hi + lo /\ 0 <= lo' < m /\ hi - 1 <= hi' <= hi.
Proof.
  intros Hm Hlo Hhi. unfold borrow. destruct (Z.ltb_spec lo 0).
  - rewrite bind_run, int_ok by (unfold INT32_MIN, INT32_MAX in *; lia). do 2 eexists. split; [done|]. split_and!; lia.
  - do 2 eexists. split; [done|]. split_and!; lia.
Qed.

(** The number of a day, up to a constant. *)
Definition day_no (mday mon year : Z) : Z :=
  year_day (year + 1900) + month_day (Z.to_nat mon) (year + 1900) + mday.

Lemma day_no_next mday mon year :
  0 <= mon < 12 ->
  day_no mday mon year + days_in_month mon (year + 1900)
  = if 11 <? mon + 1 then day_no mday 0 (year + 1) else day_no mday (mon + 1) year.
Proof.
  intros Hm. unfold day_no.
  assert (month_day (Datatypes.S (Z.to_nat mon)) (year + 1900) = month_day (Z.to_nat mon) (year + 1900) + days_in_month mon (year + 1900)) as E
    by (cbn [month_day]; rewrite Z2Nat.id by lia; done).
  destruct (Z.ltb_spec 11 (mon + 1)).
  - replace mon with 11 in * by lia. change (Datatypes.S (Z.to_nat 11)) with 12%nat in E. rewrite month_day_12 in E.
    replace (year + 1 + 1900) with (year + 1900 + 1) by lia. rewrite year_day_S. change (Z.to_nat 0) with 0%nat. cbn [month_day]. lia.
  - replace (Z.to_nat (mon + 1)) with (Datatypes.S (Z.to_nat mon)) by lia. lia.
Qed.

Lemma walk_back_ok fuel mday mon year :
  0 <= mon < 12 -> - 2 ^ 30 <= year + Z.min mday 1 -> year <= 2 ^ 30 -> - 2 ^ 30 <= mday <= 2 ^ 30 ->
  (Z.to_nat (1 - mday) < fuel)%nat ->
  exists d m y, walk_back fuel (mday, mon, year) s = Done (d, m, y) s /\ day_no d m y = day_no mday mon year /\
    0 <= m < 12 /\ 1 <= d <= Z.max mday 31 /\ year + Z.min mday 1 <= y + 1 /\ y <= year.
Proof.
  revert mday mon year. induction fuel as [|fuel IH]; intros mday mon year Hm H1 H2 H3 Hf; [lia|].
  unfold walk_back. rewrite while_S. cbn beta iota. destruct (Z.ltb_spec mday 1).
  2: { exists mday, mon, year. split; [done|]. split_and!; lia. }
  assert (exists mon' year', (if mon - 1 <? 0 then y ← int_ (year - 1); mret (11, y) else mret (mon - 1, year)) s = Done (mon', year') s /\
    0 <= mon' < 12 /\ year - 1 <= year' <= year /\ day_no (mday + days_in_month mon' (year' + 1900)) mon' year' = day_no mday mon year) as
    (mon' & year' & R & Hm' & Hy' & Ed).
  { destruct (Z.ltb_spec (mon - 1) 0).
    - rewrite bind_run, int_ok by (unfold INT32_MIN, INT32_MAX; lia). exists 11, (year - 1). split; [done|]. split_and!; try lia.
      pose proof (day_no_next mday 11 (year - 1) ltac:(lia)) as E. change (11 <? 11 + 1) with true in E. cbn iota in E.
      replace (year - 1 + 1) with year in E by lia. replace mon with 0 by lia. rewrite <- E. unfold day_no. lia.
    - exists (mon - 1), year. split; [done|]. split_and!; try lia.
      pose proof (day_no_next mday (mon - 1) year ltac:(lia)) as E. rewrite (proj2 (Z.ltb_ge _ _)) in E by lia.
      replace (mon - 1 + 1) with mon in E by lia. rewrite <- E. unfold day_no. lia. }
  rewrite bind_run, R. cbn beta iota. pose proof (month_len mon' (year' + 1900) Hm') as Hl.
  rewrite bind_run, int_ok by (unfold INT32_MIN, INT32_MAX; lia).
  rewrite bind_run, int_ok by (unfold INT32_MIN, INT32_MAX; lia). rewrite ret_run.
  destruct (IH (mday + days_in_month mon' (year' + 1900)) mon' year') as (d & m & y & R' & E1 & E2 & E3 & E4 & E5); try lia.
  exists d, m, y. split; [exact R'|]. split_and!; lia.
Qed.

Lemma walk_forward_ok fuel mday mon year :
  0 <= mon < 12 -> 1 <= mday -> year + mday <= 2 ^ 30 -> - 2 ^ 30 - 1 <= year -> (Z.to_nat mday < fuel)%nat ->
  exists d m y, walk_forward fuel (mday, mon, year) s = Done (d, m, y) s /\ day_no d m y = day_no mday mon year /\
    0 <= m < 12 /\ 1 <= d <= days_in_month m (y + 1900) /\ year <= y /\ y <= year + mday.
Proof.
  revert mday mon year. induction fuel as [|fuel IH]; intros mday mon year Hm H1 H2 H3 Hf; [lia|].
  unfold walk_forward. rewrite while_S. cbn beta iota.
  rewrite bind_run, int_ok by (unfold INT32_MIN, INT32_MAX; lia).
  pose proof (month_len mon (year + 1900) Hm) as Hl. pose proof (day_no_next (mday - days_in_month mon (year + 1900)) mon year Hm) as Ed.
  destruct (Z.leb_spec mday (days_in_month mon (year + 1900))).
  { exists mday, mon, year. split; [done|]. split_and!; lia. }
  destruct (Z.ltb_spec 11 (mon + 1)).
  - rewrite bind_run. rewrite bind_run, int_ok by (unfold INT32_MIN, INT32_MAX; lia). rewrite !ret_run.
    destruct (IH (mday - days_in_month mon (year + 1900)) 0 (year + 1)) as (d & m & y & R' & E1 & E2 & E3 & E4 & E5); try lia.
    exists d, m, y. split; [exact R'|]. rewrite E1, <- Ed. split; [unfold day_no; lia|]. split_and!; lia.
  - rewrite bind_run, !ret_run.
    destruct (IH (mday - days_in_month mon (year + 1900)) (mon + 1) year) as (d & m & y & R' & E1 & E2 & E3 & E4 & E5); try lia.
    exists d, m, y. split; [exact R'|]. rewrite E1, <- Ed. split; [unfold day_no; lia|]. split_and!; lia.
Qed.

Lemma sum_years_ok fuel full_year :
  1970 <= full_year <= 2 ^ 31 -> full_year - 1970 < Z.of_nat fuel ->
  sum_years fuel full_year s = Done (year_day full_year) s.
Proof.
  intros H1 H2. unfold sum_years.
  assert (forall f y, 1970 <= y <= full_year -> full_year - y < Z.of_nat f ->
    while f (fun '(y, days) =>
      if y <? full_year then mret (inl (y + 1, u64 (days + if is_leap y then 366 else 365)))
      else mret (inr days)) (y, year_day y) s = Done (year_day full_year) s) as K.
  { intros f. induction f as [|f IH]; intros y Hy Hf; [lia|]. rewrite while_S. cbn beta iota.
    destruct (Z.ltb_spec y full_year); [|replace y with full_year by lia; done].
    rewrite ret_run. fold (year_len y). rewrite <- year_day_S. pose proof (year_day_mono 1970 (y + 1) ltac:(lia)) as E1.
    pose proof (year_day_mono (y + 1) (2 ^ 31) ltac:(lia)) as E2. change (year_day 1970) with 0 in E1.
    assert (year_day (2 ^ 31) <= 2 ^ 40) by (vm_compute; discriminate).
    rewrite u64_id by (unfold UINT64_MAX; lia). apply IH; lia. }
  apply (K fuel 1970); lia.
Qed.

Lemma sum_months_ok fuel mon year days :
  (mon <= 12)%nat -> 0 <= days <= 2 ^ 41 -> (mon < fuel)%nat ->
  sum_months fuel (Z.of_nat mon) year days s = Done (days + month_day mon year, month_day mon year) s.
Proof.
  intros H1 H2 H3. unfold sum_months.
  assert (forall f m, (m <= mon)%nat -> (mon - m < f)%nat ->
    while f (fun '(m, days, yday) =>
      if m <? Z.of_nat mon then
        let d := days_in_month m year in mret (inl (m + 1, u64 (days + d), yday + d))
      else mret (inr (days, yday))) (Z.of_nat m, days + month_day m year, month_day m year) s
    = Done (days + month_day mon year, month_day mon year) s) as K.
  { intros f. induction f as [|f IH]; intros m Hm Hf; [lia|]. rewrite while_S. cbn beta iota zeta.
    destruct (Z.ltb_spec (Z.of_nat m) (Z.of_nat mon)); [|replace m with mon by lia; done].
    rewrite ret_run. pose proof (month_len (Z.of_nat m) year ltac:(lia)).
    pose proof (month_day_mono 0 m year ltac:(lia)) as E1. pose proof (month_day_mono m 12 year ltac:(lia)) as E2.
    rewrite month_day_12 in E2. pose proof (year_len_bounds year). cbn [month_day] in E1.
    replace (Z.of_nat m + 1) with (Z.of_nat (Datatypes.S m)) by lia.
    rewrite u64_id by (unfold UINT64_MAX; lia).
    replace (days + month_day m year + days_in_month (Z.of_nat m) year) with (days + month_day (Datatypes.S m) year) by (cbn [month_day]; lia).
    apply (IH (Datatypes.S m)); lia. }
  pose proof (K fuel 0%nat ltac:(lia) ltac:(lia)) as R. cbn [month_day] in R. by rewrite Z.add_0_r in R.
Qed.

(** Fields of a size at which no [int] of [mktime] overflows. *)
Definition moderate (t : tm) : Prop :=
  Z.abs (tm_sec t) <= 2 ^ 26 /\ Z.abs (tm_min t) <= 2 ^ 26 /\ Z.abs (tm_hour t) <= 2 ^ 26 /\
  Z.abs (tm_mday t) <= 2 ^ 26 /\ Z.abs (tm_mon t) <= 2 ^ 26 /\ Z.abs (tm_year t) <= 2 ^ 26.

Lemma year_day_sign y d : y < 1970 -> 0 <= d < year_len y -> year_day y + d < 0.
Proof.
  intros Hy Hd. pose proof (year_day_mono (y + 1) 1970 ltac:(lia)) as H. rewrite year_day_S in H.
  change (year_day 1970) with 0 in H. lia.
Qed.

Lemma mktime_ok fuel t :
  moderate t -> 2 ^ 30 < Z.of_nat fuel ->
  exists r, mktime fuel t s = Done (if epoch t <? 0 then -1 else epoch t, r) s /\
    epoch r = epoch t /\ (0 <= epoch t -> normal r).
Proof.
  intros (B1 & B2 & B3 & B4 & B5 & B6) Hf. unfold mktime.
  assert (forall x, Z.abs x <= 2 ^ 29 -> INT32_MIN < x <= INT32_MAX) as Hint by (unfold INT32_MIN, INT32_MAX; lia).
  destruct (carry_ok (tm_min t) (tm_sec t) 60) as (min1 & sec1 & R & E1 & L1 & A1); [lia|unfold INT32_MAX; lia|].
  rewrite bind_run, R. clear R. cbn beta iota.
  destruct (carry_ok (tm_hour t) min1 60) as (hour1 & min2 & R & E2 & L2 & A2); [lia|unfold INT32_MAX; lia|].
  rewrite bind_run, R. clear R. cbn beta iota.
  destruct (carry_ok (tm_mday t) hour1 24) as (mday1 & hour2 & R & E3 & L3 & A3); [lia|unfold INT32_MAX; lia|].
  rewrite bind_run, R. clear R. cbn beta iota.
  destruct (borrow_ok min2 sec1 60) as (min & sec & R & E4 & L4 & A4); [lia|lia|apply Hint; lia|].
  rewrite bind_run, R. clear R. cbn beta iota.
  destruct (borrow_ok hour2 min 60) as (hour & min' & R & E5 & L5 & A5); [lia|lia|apply Hint; lia|].
  rewrite bind_run, R. clear R. cbn beta iota.
  destruct (borrow_ok mday1 hour 24) as (mday & hour' & R & E6 & L6 & A6); [lia|lia|apply Hint; lia|].
  rewrite bind_run, R. clear R. cbn beta iota.
  destruct (carry_ok (tm_year t) (tm_mon t) 12) as (year1 & mon1 & R & E7 & L7 & A7); [lia|unfold INT32_MAX; lia|].
  rewrite bind_run, R. clear R. cbn beta iota.
  destruct (borrow_ok year1 mon1 12) as (year & mon & R & E8 & L8 & A8); [lia|lia|apply Hint; lia|].
  rewrite bind_run, R. clear R. cbn beta iota.
  assert (mon = tm_mon t mod 12) as Em by (apply (Z.mod_unique _ _ (year - tm_year t)); lia).
  assert (year = tm_year t + tm_mon t / 12) as Ey by (rewrite (Z.div_mod (tm_mon t) 12 ltac:(lia)) in E7; lia).
  assert (epoch t = 86400 * (day_no mday mon year - 1) + 3600 * hour' + 60 * min' + sec) as Et.
  { unfold epoch, day_no. rewrite <- Em. replace (tm_year t + 1900 + tm_mon t / 12) with (year + 1900) by lia. lia. }
  assert (Z.abs mday <= 2 ^ 29 /\ Z.abs year <= 2 ^ 28) as [Bd By]
    by (split; [clear - A1 A2 A3 A6 B1 B2 B3 B4|clear - A7 A8 B5 B6]; lia).
  clear Hint E1 E2 E3 E4 E5 E6 E7 E8 L1 L2 L3 L7 A1 A2 A3 A4 A5 A6 A7 A8 B1 B2 B3 B4 B5 B6 Em Ey min1 min2 hour1 hour2 sec1 mday1 mon1 year1 min hour.
  destruct (walk_back_ok fuel mday mon year) as (d & m & y & R & D1 & D2 & D3 & D4 & D5); try lia.
  rewrite bind_run, R. clear R. cbn beta.
  destruct (walk_forward_ok fuel d m y) as (d' & m' & y' & R & F1 & F2 & F3 & F4 & F5); try lia.
  rewrite bind_run, R. clear R. cbn beta iota.
  rewrite bind_run, int_ok by (unfold INT32_MIN, INT32_MAX; lia). rewrite D1 in F1. rewrite <- F1 in Et.
  assert (y' <= 2 ^ 30) as By' by lia. clear D1 D2 D3 D4 D5 F1 F4 F5 L8 Bd By.
  pose proof (yday_bound m' d' (y' + 1900) F2 F3) as Hyd.
  replace (day_no d' m' y' - 1) with (year_day (y' + 1900) + (month_day (Z.to_nat m') (y' + 1900) + d' - 1)) in Et by (unfold day_no; lia).
  destruct (Z.ltb_spec (y' + 1900) 1970).
  - pose proof (year_day_sign (y' + 1900) _ ltac:(lia) Hyd). eexists. split; [rewrite (proj2 (Z.ltb_lt (epoch t) 0)) by lia; done|].
    split; [|lia]. rewrite epoch_normal by (cbn; lia). cbn. lia.
  - pose proof (year_day_mono 1970 (y' + 1900) ltac:(lia)) as M1. pose proof (year_day_mono (y' + 1900) (2 ^ 31) ltac:(lia)) as M2.
    change (year_day 1970) with 0 in M1. assert (year_day (2 ^ 31) <= 2 ^ 40) by (vm_compute; discriminate).
    rewrite bind_run, sum_years_ok by lia. 
    pose proof (sum_months_ok fuel (Z.to_nat m') (y' + 1900) (year_day (y' + 1900)) ltac:(lia) ltac:(lia) ltac:(lia)) as R.
    rewrite Z2Nat.id in R by lia. rewrite bind_run, R. clear R. cbn beta iota. rewrite ret_run.
    pose proof (year_len_bounds (y' + 1900)). set (dd := year_day (y' + 1900)) in *.
    set (md := month_day (Z.to_nat m') (y' + 1900)) in *.
    rewrite !(u64_id (dd + md + (d' - 1))) by (unfold UINT64_MAX; lia).
    rewrite (u64_id (dd + md + (d' - 1) + 4)) by (unfold UINT64_MAX; lia).
    rewrite (u64_id (_ * 86400 + _ + _ + _)) by (unfold UINT64_MAX; lia).
    rewrite i64_id by (unfold INT64_MIN, INT64_MAX; lia).
    eexists. split; [rewrite (proj2 (Z.ltb_ge (epoch t) 0)) by lia; do 2 f_equal; lia|].
    match goal with |- epoch ?r = _ /\ _ => assert (epoch r = epoch t) as Er end.
    { rewrite epoch_normal by (cbn; lia). cbn. fold dd md. lia. }
    split; [exact Er|]. intros _. unfold normal. rewrite Er. cbn. fold md. split_and!; try lia.
    f_equal. rewrite Et. replace (86400 * (dd + (md + d' - 1)) + 3600 * hour' + 60 * min' + sec)
      with (3600 * hour' + 60 * min' + sec + (dd + (md + d' - 1)) * 86400) by lia.
    rewrite Z.div_add, Z.div_small by lia. lia.
Qed.
End mktime.

(** ** Properties *)

(** C31. [gmtime_r] of every time from 1970 on, for a billion years, gives
    in-range fields that name this very second of the Gregorian calendar, with
    the right weekday and day of the year; and [mktime] takes the fields back to
    the time and leaves them as they are. *)
Theorem gmtime_mktime_roundtrip {S} (s : S) fuel t :
  0 <= t < 2 ^ 50 -> 2 ^ 30 < Z.of_nat fuel ->
  exists r, gmtime_r fuel t s = Done r s /\ normal r /\ epoch r = t /\ mktime fuel r s = Done (t, r) s.
Proof.
  intros Ht Hf. assert (t / 31536000 < 2 ^ 25 + 2 ^ 24) by (apply Z.div_lt_upper_bound; lia).
  destruct (gmtime_ok s fuel t) as (r & R & Hn & He & Hy); [lia|lia|]. exists r. split_and!; try done.
  assert (moderate r) as Hm.
  { destruct Hn as (? & ? & ? & ? & Hd & _). pose proof (month_len (tm_mon r) (tm_year r + 1900)). unfold moderate. lia. }
  destruct (mktime_ok s fuel r Hm Hf) as (r' & R' & He' & Hn'). rewrite He in *.
  rewrite (proj2 (Z.ltb_ge t 0)) in R' by lia. rewrite R'. do 2 f_equal.
  apply (normal_unique r' r); [apply Hn'; lia|done|congruence].
Qed.

Lemma gmtime_mktime_roundtrip_witness :
  exists r, gmtime_r (Z.to_nat (2 ^ 31)) 951782400 tt = Done r tt /\ normal r /\ epoch r = 951782400 /\
    mktime (Z.to_nat (2 ^ 31)) r tt = Done (951782400, r) tt.
Proof. apply (gmtime_mktime_roundtrip tt (Z.to_nat (2 ^ 31)) 951782400); lia. Defined.

(** [mktime] of any fields, out of range or negative, returns the second
    they name in the Gregorian calendar when that is not before 1970, and -1
    otherwise; it terminates and rewrites the fields to the normal ones that name
    the same second. *)
Theorem mktime_normalises {S} (s : S) fuel t :
  moderate t -> 2 ^ 30 < Z.of_nat fuel ->
  exists r, mktime fuel t s = Done (if epoch t <? 0 then -1 else epoch t, r) s /\
    epoch r = epoch t /\ (0 <= epoch t -> normal r).
Proof. apply mktime_ok. Qed.

(** The 367th day of year 100, hour -1: 2001-01-01 less an hour. *)
Definition demo_tm : tm :=
  {| tm_sec := 0; tm_min := 0; tm_hour := -1; tm_mday := 367; tm_mon := 0; tm_year := 100; tm_wday := 0; tm_yday := 0; tm_isdst := 0 |}.

Lemma mktime_normalises_witness :
  exists r, mktime (Z.to_nat (2 ^ 31)) demo_tm tt = Done (978303600, r) tt /\
    epoch r = 978303600 /\ (0 <= 978303600 -> normal r).
Proof.
  apply (mktime_normalises tt (Z.to_nat (2 ^ 31)) demo_tm); [|lia]. repeat split; vm_compute; discriminate.
Defined.
