(* ===== verification/StrftimeFacts.v ===== *)
(** * strftime writes the expansion of its format, inside its buffer *)

From stdpp Require Import base tactics list gmap numbers strings.
From Stdlib Require Import ZArith Lia.
From S2P Require Import Prelude.
From S2P Require Import Memory.
From S2P Require Import CStringFacts.
From S2P Require Import Time.
From S2P Require Import TimeFacts.

(** ** The expansion of a format *)

(** A number in decimal, padded on the left. *)
Definition num (val width pad : Z) : list Z :=
  let ds := if val =? 0 then [48] else (if val <? 0 then [45] else []) ++ int_digits 10 (Z.abs val) [] in
  replicate (Z.to_nat (width - zlen ds)) pad ++ ds.

Definition name (i : Z) (table : list string) : option (list Z) :=
  if (i <? 0) || (zlen table <=? i) then None else Some (chars (nth (Z.to_nat i) table EmptyString)).

(** What one conversion stands for; [sub] expands the composite ones. *)
Definition expand1 (sub : string -> option (list Z)) (t : tm) (spec : Z) : option (list Z) :=
  if spec =? 37 then Some [37]
  else if spec =? 89 then Some (num (tm_year t + 1900) 4 48)
  else if spec =? 121 then Some (num (Z.rem (tm_year t + 1900) 100) 2 48)
  else if spec =? 109 then Some (num (tm_mon t + 1) 2 48)
  else if spec =? 100 then Some (num (tm_mday t) 2 48)
  else if spec =? 101 then Some (num (tm_mday t) 2 32)
  else if spec =? 72 then Some (num (tm_hour t) 2 48)
  else if spec =? 73 then Some (num (if Z.rem (tm_hour t) 12 =? 0 then 12 else Z.rem (tm_hour t) 12) 2 48)
  else if spec =? 77 then Some (num (tm_min t) 2 48)
  else if spec =? 83 then Some (num (tm_sec t) 2 48)
  else if spec =? 106 then Some (num (tm_yday t + 1) 3 48)
  else if spec =? 117 then Some (num (if tm_wday t =? 0 then 7 else tm_wday t) 1 48)
  else if spec =? 119 then Some (num (tm_wday t) 1 48)
  else if spec =? 65 then name (tm_wday t) weekday_full
  else if spec =? 97 then name (tm_wday t) weekday_abbr
  else if spec =? 66 then name (tm_mon t) month_full
  else if (spec =? 98) || (spec =? 104) then name (tm_mon t) month_abbr
  else if spec =? 112 then Some (chars (if tm_hour t <? 12 then "AM" else "PM"))
  else if spec =? 80 then Some (chars (if tm_hour t <? 12 then "am" else "pm"))
  else if spec =? 110 then Some [10]
  else if spec =? 116 then Some [9]
  else if spec =? 70 then sub "%Y-%m-%d"
  else if spec =? 84 then sub "%H:%M:%S"
  else if spec =? 82 then sub "%H:%M"
  else if spec =? 68 then sub "%m/%d/%y"
  else if spec =? 99 then sub "%F %T"
  else if spec =? 120 then sub "%F"
  else if spec =? 88 then sub "%T"
  else Some [37; spec].

Fixpoint expand_with (sub : string -> option (list Z)) (t : tm) (fmt : list Z) : option (list Z) :=
  match fmt with
  | [] => Some []
  | c :: fmt' =>
      if negb (c =? 37) then r ← expand_with sub t fmt'; Some (c :: r)
      else
        match fmt' with
        | [] => None
        | spec :: fmt'' => x ← expand1 sub t spec; r ← expand_with sub t fmt''; Some (x ++ r)
        end
  end.

Fixpoint expand (depth : nat) (t : tm) (fmt : list Z) : option (list Z) :=
  match depth with
  | O => None
  | S depth' => expand_with (fun f => expand depth' t (chars f)) t fmt
  end.

(** A format of characters that does not end inside a conversion. *)
Fixpoint well_formed (fmt : list Z) : bool :=
  match fmt with
  | [] => true
  | c :: fmt' =>
      (0 <? c) && (c <? 256) &&
      (if negb (c =? 37) then well_formed fmt'
       else match fmt' with [] => false | spec :: fmt'' => (0 <? spec) && (spec <? 256) && well_formed fmt'' end)
  end.

(** Fields small enough for [int] arithmetic. *)
Definition small (t : tm) : Prop :=
  moderate t /\ Z.abs (tm_wday t) <= 2 ^ 26 /\ Z.abs (tm_yday t) <= 2 ^ 26.

(** ** Appending *)

Section appending.
Context (s max : Z) (Hmax : 1 <= max < 2 ^ 63).

(** Only the buffer changed, and it is still there. *)
Definition in_buffer (m m' : mem) : Prop :=
  (forall a, ~ (s <= a < s + max) -> m' !! a = m !! a) /\ (mapped m s max -> mapped m' s max).

Lemma in_buffer_refl m : in_buffer m m.
Proof. done. Qed.

Lemma in_buffer_trans m1 m2 m3 : in_buffer m1 m2 -> in_buffer m2 m3 -> in_buffer m1 m3.
Proof. intros [H1 H2] [H3 H4]. split; [|auto]. intros a Ha. by rewrite H3, H1. Qed.

(** [c] appends [obs] at a position when it fits; whatever it does, it stays
    in the buffer. *)
Definition appends (c : Z -> M mem (option Z)) (obs : option (list Z)) : Prop :=
  forall m pos, mapped m s max -> 0 <= pos <= max - 1 ->
  exists r m', c pos m = Done r m' /\ in_buffer m m' /\ (forall p, r = Some p -> 0 <= p <= max - 1) /\
    (forall bs e, obs = Some bs -> arr m s e -> zlen e = pos -> pos + zlen bs <= max - 1 ->
       r = Some (pos + zlen bs) /\ arr m' s (e ++ bs)).

Lemma put_char_ok c : 0 <= c < 256 -> appends (fun pos => put_char s max pos c) (Some [c]).
Proof.
  intros Hc m pos Hm Hpos. unfold put_char. rewrite u64_id by (unfold UINT64_MAX; lia).
  destruct (Z.leb_spec (max - 1) pos).
  - exists None, m. split_and!; try done. intros bs e [= <-] _ _ Hle. simpl in Hle. lia.
  - rewrite bind_run, store8_some by (apply Hm; lia). rewrite ret_run. do 2 eexists. split; [done|].
    assert (in_buffer m (<[s + pos := u8 c]> m)) as Hb.
    { split; [intros a Ha; by rewrite lookup_insert_ne by lia|]. intros _ a Ha.
      destruct (decide (a = s + pos)) as [->|]; [rewrite lookup_insert_eq; eauto|rewrite lookup_insert_ne by done; by apply Hm]. }
    split_and!; try done; [intros p [= <-]; lia|]. intros bs e [= <-] Ha He _. simpl. split; [done|].
    rewrite u8_byte by done. apply arr_app. rewrite He. split.
    + apply arr_intro. intros i b Hi. apply lookup_lt_Some in Hi as Hl. rewrite lookup_insert_ne by lia. by eapply arr_lookup.
    + simpl. by rewrite lookup_insert_eq.
Qed.

Lemma appends_nil : appends (fun pos => mret (Some pos)) (Some []).
Proof.
  intros m pos Hm Hpos. exists (Some pos), m. split_and!; try done; [intros p [= <-]; lia|].
  intros bs e [= <-] Ha He _. rewrite app_nil_r. simpl. split; [f_equal; lia|done].
Qed.

(** One after the other, stopping when the first one does. *)
Lemma appends_bind c d bs1 bs2 :
  appends c (Some bs1) -> appends d (Some bs2) ->
  appends (fun pos => r ← c pos; match (r : option Z) with None => mret None | Some pos => d pos end) (Some (bs1 ++ bs2)).
Proof.
  intros Hc Hd m pos Hm Hpos. destruct (Hc m pos Hm Hpos) as (r & m1 & R & B1 & P1 & E1). rewrite bind_run, R. cbn beta.
  destruct r as [p|].
  - destruct (Hd m1 p ltac:(by apply B1) ltac:(by apply P1)) as (r2 & m2 & R2 & B2 & P2 & E2). exists r2, m2.
    split; [done|]. split; [by eapply in_buffer_trans|]. split; [done|].
    intros bs e [= <-] Ha He Hle. rewrite length_app in Hle |- *.
    destruct (E1 bs1 e eq_refl Ha He ltac:(lia)) as [[= ->] Ha1].
    destruct (E2 bs2 (e ++ bs1) eq_refl Ha1) as [-> Ha2]; [rewrite length_app; lia|lia|].
    rewrite app_assoc. split; [f_equal; lia|done].
  - exists None, m1. split_and!; try done. intros bs e [= <-] Ha He Hle. rewrite length_app in Hle.
    destruct (E1 bs1 e eq_refl Ha He ltac:(lia)) as [? _]. done.
Qed.

Lemma append_str_ok str : Forall (fun b => 0 <= b < 256) str -> appends (fun pos => append_str s max pos str) (Some str).
Proof.
  induction 1 as [|c str Hc _ IH]; [apply appends_nil|]. apply (appends_bind _ _ [c] str); [by apply put_char_ok|done].
Qed.

Lemma appends_none : appends (fun _ => mret None) None.
Proof. intros m pos Hm Hpos. exists None, m. split_and!; try done. Qed.

Lemma appends_pure {A} (x : A) (c : M mem A) (f : A -> Z -> M mem (option Z)) obs :
  (forall m, c m = Done x m) -> appends (f x) obs -> appends (fun pos => v ← c; f v pos) obs.
Proof. intros Hx Hf m pos Hm Hpos. rewrite bind_run, Hx. by apply Hf. Qed.

Lemma int_digits_bytes n v acc : 0 <= v -> Forall (fun b => 0 <= b < 256) acc -> Forall (fun b => 0 <= b < 256) (int_digits n v acc).
Proof.
  revert v acc. induction n as [|n IH]; intros v acc Hv Ha; simpl; [done|]. destruct (0 <? v); [|done].
  pose proof (Z.mod_pos_bound v 10). apply IH; [apply Z.div_pos; lia|]. constructor; [lia|done].
Qed.

Lemma num_bytes val width pad : 0 <= pad < 256 -> Forall (fun b => 0 <= b < 256) (num val width pad).
Proof.
  intros Hp. unfold num. apply Forall_app. split; [by apply Forall_replicate|].
  destruct (val =? 0); [repeat constructor; lia|]. apply Forall_app. split.
  - destruct (val <? 0); repeat constructor; lia.
  - apply int_digits_bytes; [lia|constructor].
Qed.

Lemma append_int_ok val width pad :
  Z.abs val <= 2 ^ 30 -> 0 <= pad < 256 -> appends (fun pos => append_int s max pos val width pad) (Some (num val width pad)).
Proof.
  intros Hv Hp. unfold append_int. apply (appends_pure (num val width pad)); [|apply append_str_ok; by apply num_bytes].
  intros m. unfold int_text, num. destruct (Z.ltb_spec val 0).
  - rewrite bind_run, int_ok by (unfold INT32_MIN, INT32_MAX; lia). by rewrite Z.abs_neq by lia.
  - rewrite bind_run, ret_run. by rewrite Z.abs_eq by lia.
Qed.

Lemma chars_bytes x : Forall (fun b => 0 <= b < 256) (chars x).
Proof.
  induction x as [|c x IH]; simpl; constructor; [|done]. pose proof (Ascii.nat_ascii_bounded c). lia.
Qed.

Lemma append_name_ok i table : appends (fun pos => append_name s max pos i table) (name i table).
Proof.
  unfold append_name, name. destruct ((i <? 0) || (zlen table <=? i)); [apply appends_none|apply append_str_ok, chars_bytes].
Qed.

Lemma append_unknown_ok spec : 0 <= spec < 256 -> appends (fun pos => append_unknown s max pos spec) (Some [37; spec]).
Proof. intros H. apply (appends_bind _ _ [37] [spec]); by apply put_char_ok. Qed.
End appending.

(** ** Conversions *)

(** What a call of [strftime_impl] promises for the format [fmt]. *)
Definition formats (impl : Z -> Z -> list Z -> M mem Z) (fmt : list Z) (obs : option (list Z)) : Prop :=
  forall s max m, 1 <= max < 2 ^ 63 -> mapped m s max ->
  exists n m', impl s max fmt m = Done n m' /\ in_buffer s max m m' /\ 0 <= n <= max - 1 /\
    (forall bs, obs = Some bs -> zlen bs <= max - 1 -> n = zlen bs /\ arr m' s (bs ++ [0])).

Definition nested_formats : list string :=
  ["%Y-%m-%d"; "%H:%M:%S"; "%H:%M"; "%m/%d/%y"; "%F %T"; "%F"; "%T"]%string.

(** The format that a composite conversion stands for. *)
Definition composite (spec : Z) : option string :=
  if spec =? 70 then Some "%Y-%m-%d"%string else if spec =? 84 then Some "%H:%M:%S"%string
  else if spec =? 82 then Some "%H:%M"%string else if spec =? 68 then Some "%m/%d/%y"%string
  else if spec =? 99 then Some "%F %T"%string else if spec =? 120 then Some "%F"%string
  else if spec =? 88 then Some "%T"%string else None.

(** The composite conversions of a format all stand for formats in [N]. *)
Fixpoint composites_in (N : list string) (fmt : list Z) : bool :=
  match fmt with
  | [] => true
  | c :: fmt' =>
      if negb (c =? 37) then composites_in N fmt'
      else match fmt' with
           | [] => true
           | spec :: fmt'' => match composite spec with Some f => bool_decide (f ∈ N) | None => true end && composites_in N fmt''
           end
  end.

Section conversions.
Context (s max : Z) (Hmax : 1 <= max < 2 ^ 63).
Context (impl : Z -> Z -> list Z -> M mem Z) (sub : string -> option (list Z)) (t : tm) (Ht : small t).
Context (N : list string) (Himpl : forall f, f ∈ N -> formats impl (chars f) (sub f)).
Context (Hsub : forall f bs, f ∈ N -> sub f = Some bs -> bs <> []).

Lemma append_nested_ok f : f ∈ N -> appends s max (fun pos => append_nested s max impl pos f) (sub f).
Proof.
  intros Hf m pos Hm Hpos. unfold append_nested.
  destruct (Himpl f Hf (s + pos) (max - pos) m) as (n & m' & R & [B1 B2] & Hn & E); [lia|intros a Ha; apply Hm; lia|].
  rewrite bind_run, R. cbn beta.
  assert (in_buffer s max m m') as Hb.
  { split; [intros a Ha; apply B1; lia|]. intros _ a Ha. destruct (decide (s + pos <= a)).
    - apply B2; [intros x Hx; apply Hm; lia|lia].
    - rewrite B1 by lia. apply Hm. lia. }
  destruct ((n =? 0) && (1 <? max - pos)) eqn:Ez.
  - exists None, m'. split_and!; try done. intros bs e Hbs Ha He Hle. destruct (E bs Hbs ltac:(lia)) as [-> _].
    apply andb_true_iff in Ez as [Ez _]. apply Z.eqb_eq in Ez. apply (Hsub f bs Hf) in Hbs. destruct bs; [done|simpl in Ez; lia].
  - exists (Some (pos + n)), m'. split_and!; try done; [intros p [= <-]; lia|]. intros bs e Hbs Ha He Hle.
    destruct (E bs Hbs ltac:(lia)) as [-> Hab]. split; [done|]. apply arr_app in Hab as [Hab _]. apply arr_app. rewrite He.
    split; [|done]. apply arr_intro. intros i b Hi. apply lookup_lt_Some in Hi as Hl. rewrite B1 by lia. by eapply arr_lookup.
Qed.

Lemma conversion_ok spec :
  0 <= spec < 256 -> match composite spec with Some f => f ∈ N | None => True end ->
  appends s max (fun pos => conversion s max impl t pos spec) (expand1 sub t spec).
Proof.
  intros Hspec Hcomp. destruct Ht as ((B1 & B2 & B3 & B4 & B5 & B6) & B7 & B8).
  assert (Z.abs (Z.rem (tm_hour t) 12) < 12) by (apply (Z.rem_bound_abs (tm_hour t) 12); lia).
  assert (Z.abs (Z.rem (tm_year t + 1900) 100) < 100) by (apply (Z.rem_bound_abs _ 100); lia).
  assert (forall x (m : mem), Z.abs x <= 2 ^ 30 -> int_ x m = Done x m) as Hint
    by (intros; apply int_ok; unfold INT32_MIN, INT32_MAX; lia).
  unfold conversion, expand1, composite in *.
  repeat match goal with |- appends _ _ (fun _ => if ?b then _ else _) _ => destruct b end;
    try (by apply append_nested_ok);
    try (by apply append_name_ok); try (by apply append_str_ok; [done|apply chars_bytes]);
    try (by apply append_str_ok; [done|repeat constructor; lia]);
    try (by apply append_unknown_ok); try (apply put_char_ok; lia);
    try (apply append_int_ok; [done| |lia]; repeat case_match; lia).
  - apply (appends_pure s max (tm_year t + 1900)); [intros; apply Hint; lia|]. apply append_int_ok; lia.
  - apply (appends_pure s max (tm_year t + 1900)); [intros; apply Hint; lia|]. apply append_int_ok; lia.
  - apply (appends_pure s max (tm_mon t + 1)); [intros; apply Hint; lia|]. apply append_int_ok; lia.
  - apply (appends_pure s max (tm_yday t + 1)); [intros; apply Hint; lia|]. apply append_int_ok; lia.
Qed.
End conversions.

(** ** The loop *)

Section loop.
Context (s max : Z) (Hmax : 1 <= max < 2 ^ 63).
Context (impl : Z -> Z -> list Z -> M mem Z) (sub : string -> option (list Z)) (t : tm) (Ht : small t).
Context (N : list string) (Himpl : forall f, f ∈ N -> formats impl (chars f) (sub f)).
Context (Hsub : forall f bs, f ∈ N -> sub f = Some bs -> bs <> []).

(** The loop from position [pos] on: it appends the expansion when it fits. *)
Definition loops (fmt : list Z) : Prop :=
  forall m pos, mapped m s max -> 0 <= pos <= max - 1 ->
  exists n m', strftime_loop s max impl t fmt pos m = Done n m' /\ in_buffer s max m m' /\ 0 <= n <= max - 1 /\
    (forall bs e, expand_with sub t fmt = Some bs -> arr m s e -> zlen e = pos -> pos + zlen bs <= max - 1 ->
       n = pos + zlen bs /\ arr m' s (e ++ bs ++ [0])).

(** A step of the loop: an append, then the rest. *)
Lemma loops_step c obs fmt' m pos :
  appends s max c obs -> loops fmt' -> mapped m s max -> 0 <= pos <= max - 1 ->
  exists n m', (r ← c pos; match (r : option Z) with None => mret 0 | Some pos => strftime_loop s max impl t fmt' pos end) m = Done n m' /\
    in_buffer s max m m' /\ 0 <= n <= max - 1 /\
    (forall x bs e, obs = Some x -> expand_with sub t fmt' = Some bs -> arr m s e -> zlen e = pos ->
       pos + zlen (x ++ bs) <= max - 1 -> n = pos + zlen (x ++ bs) /\ arr m' s (e ++ (x ++ bs) ++ [0])).
Proof.
  intros Hc Hl Hm Hpos. destruct (Hc m pos Hm Hpos) as (r & m1 & R & B1 & P1 & E1). rewrite bind_run, R. cbn beta.
  destruct r as [p|].
  - destruct (Hl m1 p ltac:(by apply B1) ltac:(by apply P1)) as (n & m2 & R2 & B2 & P2 & E2). exists n, m2.
    split; [done|]. split; [by eapply in_buffer_trans|]. split; [done|]. intros x bs e Hx Hbs Ha He Hle.
    rewrite length_app in Hle |- *. destruct (E1 x e Hx Ha He ltac:(lia)) as [[= ->] Ha1].
    destruct (E2 bs (e ++ x) Hbs Ha1) as [-> Ha2]; [rewrite length_app; lia|lia|]. split; [lia|]. by rewrite <- !app_assoc in *.
  - exists 0, m1. split_and!; try done; try lia. intros x bs e Hx Hbs Ha He Hle. rewrite length_app in Hle.
    destruct (E1 x e Hx Ha He ltac:(lia)) as [? _]. done.
Qed.

Lemma loop_ok fmt : well_formed fmt = true -> composites_in N fmt = true -> loops fmt.
Proof.
  remember (length fmt) as k eqn:Hk. revert fmt Hk. induction (lt_wf k) as [k _ IH]. intros fmt -> Hwf Hin.
  destruct fmt as [|c fmt]; intros m pos Hm Hpos.
  - simpl. rewrite bind_run, store8_some by (apply Hm; lia). rewrite ret_run. do 2 eexists. split; [done|].
    change (u8 0) with 0. split_and!; try lia.
    + split; [intros a Ha; by rewrite lookup_insert_ne by lia|]. intros _ a Ha.
      destruct (decide (a = s + pos)) as [->|]; [rewrite lookup_insert_eq; eauto|rewrite lookup_insert_ne by done; by apply Hm].
    + intros bs e [= <-] Ha He _. simpl. split; [lia|]. apply arr_app. rewrite He. split.
      * apply arr_intro. intros i b Hi. apply lookup_lt_Some in Hi as Hl. rewrite lookup_insert_ne by lia. by eapply arr_lookup.
      * simpl. by rewrite lookup_insert_eq.
  - simpl in Hwf, Hin |- *. apply andb_true_iff in Hwf as [Hc Hwf].
    assert (0 < c < 256) as Hcb by lia. destruct (negb (c =? 37)).
    + destruct (loops_step (fun pos => put_char s max pos c) (Some [c]) fmt m pos) as (n & m' & R & B & P & E); try done.
      * apply put_char_ok; lia.
      * apply (IH (length fmt)); [simpl; lia|done..].
      * exists n, m'. split_and!; try done; try lia. intros bs e Hbs Ha He Hle.
        destruct (expand_with sub t fmt) as [r|]; [|done]. injection Hbs as <-. by apply (E [c] r e).
    + destruct fmt as [|spec fmt]; [done|]. apply andb_true_iff in Hwf as [Hs Hwf]. apply andb_true_iff in Hin as [Hi Hin].
      destruct (loops_step (fun pos => conversion s max impl t pos spec) (expand1 sub t spec) fmt m pos) as (n & m' & R & B & P & E); try done.
      * apply conversion_ok with (N := N); try done; [lia|]. destruct (composite spec); [by apply bool_decide_eq_true in Hi|done].
      * apply (IH (length fmt)); [simpl; lia|done..].
      * exists n, m'. split_and!; try done; try lia. intros bs e Hbs Ha He Hle.
        destruct (expand1 sub t spec) as [x|]; [|done]. cbn in Hbs.
        destruct (expand_with sub t fmt) as [r|]; [|done]. injection Hbs as <-. by apply (E x r e).
Qed.
End loop.

(** ** strftime_impl *)

Lemma int_digits_not_nil n v acc : acc <> [] -> int_digits n v acc <> [].
Proof.
  revert v acc. induction n as [|n IH]; intros v acc Ha; simpl; [done|]. destruct (0 <? v); [by apply IH|done].
Qed.

Lemma int_digits_pos n v : 0 < v -> int_digits (S n) v [] <> [].
Proof. intros Hv. simpl. rewrite (proj2 (Z.ltb_lt 0 v)) by done. by apply int_digits_not_nil. Qed.

Lemma num_not_nil val width pad : num val width pad <> [].
Proof.
  unfold num. intros E%app_nil. destruct E as [_ E]. destruct (Z.eqb_spec val 0) as [|Hne]; [done|].
  apply app_nil in E as [_ E]. revert E. apply int_digits_pos. lia.
Qed.

(** A format that begins with a conversion expands to its text and more. *)
Lemma expand_first sub t spec fmt bs :
  (forall x, expand1 sub t spec = Some x -> x <> []) -> expand_with sub t (37 :: spec :: fmt) = Some bs -> bs <> [].
Proof.
  intros Hx E. cbn -[expand1] in E. destruct (expand1 sub t spec) as [x|]; [|done]. cbn in E.
  destruct (expand_with sub t fmt) as [r|]; [|done]. injection E as <-. intros [H _]%app_nil. by apply (Hx x).
Qed.

(** The composite formats expand to something: each one begins with a number. *)
Lemma nested_not_nil depth t f bs : f ∈ nested_formats -> expand depth t (chars f) = Some bs -> bs <> [].
Proof.
  intros Hf. revert f bs Hf. induction depth as [|depth IH]; intros f bs Hf; [done|].
  cbn [expand]. repeat (apply elem_of_cons in Hf as [->|Hf]); [..|by apply not_elem_of_nil in Hf];
    apply expand_first; intros x Hx;
    first [injection Hx as <-; apply num_not_nil|revert Hx; apply IH; vm_compute; repeat constructor].
Qed.

Definition plain_formats : list string := ["%Y-%m-%d"; "%H:%M:%S"; "%H:%M"; "%m/%d/%y"]%string.

(** One level more. *)
Lemma impl_step depth t N fmt :
  small t -> (forall f, f ∈ N -> f ∈ nested_formats) ->
  (forall f, f ∈ N -> formats (strftime_impl depth t) (chars f) (expand depth t (chars f))) ->
  well_formed fmt = true -> composites_in N fmt = true -> formats (strftime_impl (S depth) t) fmt (expand (S depth) t fmt).
Proof.
  intros Ht Hsubset HN Hwf Hin s max m Hmax Hm. cbn [strftime_impl].
  destruct (loop_ok s max Hmax (strftime_impl depth t) (fun f => expand depth t (chars f)) t Ht N HN) with (fmt := fmt) (m := m) (pos := 0)
    as (n & m' & R & B & P & E); try done; try lia.
  { intros f bs Hf. apply nested_not_nil. by apply Hsubset. }
  exists n, m'. split_and!; try done; try lia. intros bs Hbs Hle. by apply (E bs []).
Qed.

Lemma composites_all fmt : composites_in nested_formats fmt = true.
Proof.
  remember (length fmt) as k eqn:Hk. revert fmt Hk. induction (lt_wf k) as [k _ IH]. intros fmt ->.
  destruct fmt as [|c fmt]; [done|]. simpl. destruct (negb (c =? 37)); [by apply (IH (length fmt)); simpl; [lia|]|].
  destruct fmt as [|spec fmt]; [done|]. rewrite (IH (length fmt)) by (simpl; lia || done). rewrite andb_true_r.
  unfold composite. repeat case_match; simplify_eq; done.
Qed.

Lemma strftime_impl_ok t fmt : small t -> well_formed fmt = true -> formats (strftime_impl 3 t) fmt (expand 3 t fmt).
Proof.
  intros Ht Hwf.
  assert (forall f, f ∈ plain_formats -> f ∈ nested_formats) as Hpn.
  { intros f Hf. unfold plain_formats, nested_formats in *. set_solver. }
  assert (forall f, f ∈ nested_formats -> well_formed (chars f) = true /\ composites_in plain_formats (chars f) = true) as Hnw.
  { intros f Hf. repeat (apply elem_of_cons in Hf as [->|Hf]; [by vm_compute|]). by apply not_elem_of_nil in Hf. }
  apply (impl_step 2 t nested_formats); try done; [|apply composites_all].
  intros f Hf. apply (impl_step 1 t plain_formats); try done; [|by apply Hnw..].
  clear f Hf. intros f Hf. apply (impl_step 0 t []); try done; [by intros ? ?%not_elem_of_nil|by intros ? ?%not_elem_of_nil|by apply Hnw, Hpn|].
  repeat (apply elem_of_cons in Hf as [->|Hf]; [by vm_compute|]). by apply not_elem_of_nil in Hf.
Qed.

(** ** Properties *)

(** [strftime] with any format that does not end inside a conversion: it
    changes nothing outside the buffer of [max] bytes, and when the expansion of
    the format and its terminator fit it writes them and returns the length. *)
Theorem strftime_expands s max fmt t m :
  s <> NULL -> 1 <= max < 2 ^ 63 -> small t -> well_formed fmt = true -> mapped m s max ->
  exists n m', strftime s max fmt t m = Done n m' /\ 0 <= n < max /\
    (forall a, ~ (s <= a < s + max) -> m' !! a = m !! a) /\
    (forall bs, expand 3 t fmt = Some bs -> zlen bs < max -> n = zlen bs /\ arr m' s (bs ++ [0])).
Proof.
  intros Hs Hmax Ht Hwf Hm. destruct (strftime_impl_ok t fmt Ht Hwf s max m Hmax Hm) as (n & m' & R & [B _] & P & E).
  exists n, m'. unfold strftime. rewrite (proj2 (Z.eqb_neq s NULL)), (proj2 (Z.eqb_neq max 0)) by (done || lia). simpl orb. cbn iota.
  split_and!; try done; try lia. intros bs Hbs Hle. apply E; [done|lia].
Qed.

(** 2024-02-03 13:07:05. *)
Definition demo_time : tm :=
  {| tm_sec := 5; tm_min := 7; tm_hour := 13; tm_mday := 3; tm_mon := 1; tm_year := 124; tm_wday := 6; tm_yday := 33; tm_isdst := 0 |}.
Definition demo_buffer : mem := wr ∅ 100 (replicate 40 7).

Lemma strftime_expands_witness :
  exists n m', strftime 100 40 (chars "%c %A") demo_time demo_buffer = Done n m' /\ 0 <= n < 40 /\
    (forall a, ~ (100 <= a < 100 + 40) -> m' !! a = demo_buffer !! a) /\
    (forall bs, expand 3 demo_time (chars "%c %A") = Some bs -> zlen bs < 40 -> n = zlen bs /\ arr m' 100 (bs ++ [0])).
Proof.
  apply (strftime_expands 100 40 (chars "%c %A") demo_time demo_buffer); [done|lia| |vm_compute; reflexivity|].
  - repeat split; vm_compute; discriminate.
  - apply (mapped_check _ _ 40); [vm_compute; reflexivity|simpl; lia].
Defined.

(** The expansion of the example. *)
Example demo_expansion : expand 3 demo_time (chars "%c %A") = Some (chars "2024-02-03 13:07:05 Saturday").
Proof. reflexivity. Qed.

(** The standard has [strftime] return 0 when the text does not fit. When
    the buffer is exactly full before a composite conversion, time.c drops the
    conversion and returns the shorter text as if it were the whole. *)
Theorem strftime_drops_composite :
  exists m', strftime 100 3 (chars "ab%F") demo_time demo_buffer = Done 2 m' /\ cstr m' 100 (chars "ab") /\
    expand 3 demo_time (chars "ab%F") = Some (chars "ab2024-02-03").
Proof. eexists. split; [vm_compute; reflexivity|]. split; [vm_compute; intuition congruence|reflexivity]. Qed.
