(* ===== verification/Format.v ===== *)
(** * stdio.c: the printf engine

    [uint_to_str], [float_to_str], the two sinks ([sink_putc], [sink_puts],
    [pad]), [vformat_write] and the functions built on it. Local arrays
    ([temp], [int_buf], [tmp]) are lists with their bound checked; the
    destination buffer, the format and the [%s] arguments are in memory.
    Floating-point values are those of the Standard Library's [SpecFloat], with
    the parameters of [float] and [double]. *)

From stdpp Require Import base tactics list gmap numbers strings.
From Stdlib Require Import ZArith Lia.
From Stdlib Require SpecFloat.
From S2P Require Import Prelude.
From S2P Require Import Memory.
From S2P Require Import CString.
Import SpecFloat.

(** ** Number rendering *)

(** [digits[d]] for the string "0123456789ABCDEF". *)
Definition hex_digit (d : Z) : Z := if d <? 10 then 48 + d else 55 + d.

(** The digits of [value], least significant first, as [temp] receives them:
    [None] when [temp[32]] is too small. *)
Fixpoint temp_digits (room : nat) (value base : Z) : option (list Z) :=
  if value =? 0 then Some []
  else match room with
       | O => None
       | S r => ds ← temp_digits r (value / base) base; Some (hex_digit (value mod base) :: ds)
       end.

Definition uint_to_str (value base : Z) (prefix : bool) : option (list Z) :=
  temp ← (if value =? 0 then Some [48] else temp_digits 32 value base);
  Some ((if prefix && (base =? 16) then [48; 120] else []) ++ rev temp).

(** [float] and [double]. *)
Definition f32 : Z * Z := (24, 128).
Definition f64 : Z * Z := (53, 1024).

Definition of_int32 (z : Z) : spec_float := binary_normalize 24 128 z 0 false.
Definition double_to_float (v : spec_float) : spec_float :=
  match v with
  | S754_finite s m e => binary_normalize 24 128 (cond_Zopp s (Zpos m)) e s
  | _ => v
  end.

(** Truncation of a floating value to an integer; [None] for a NaN or an infinity. *)
Definition ftrunc (v : spec_float) : option Z :=
  match v with
  | S754_zero _ => Some 0
  | S754_finite s m e => Some (cond_Zopp s (Z.shiftl (Zpos m) e))
  | _ => None
  end.

(** The [for] loop of [float_to_str]. *)
Fixpoint frac_digits (n : nat) (frac_part : spec_float) : option (list Z) :=
  match n with
  | O => Some []
  | S n' =>
      let frac_part := SFmul 24 128 frac_part (of_int32 10) in
      digit ← ftrunc frac_part;
      let frac_part := SFsub 24 128 frac_part (of_int32 digit) in
      ds ← frac_digits n' frac_part;
      Some (u8 (48 + digit) :: ds)
  end.

(** Conversion of a value outside the range of [uint32_t] is undefined. *)
Definition float_to_str (val : spec_float) (precision : Z) : option (list Z) :=
  let neg := SFltb val (S754_zero false) in
  let val := if neg then SFopp val else val in
  int_part ← ftrunc val;
  if 4294967295 <? int_part then None
  else
    let frac_part := SFsub 24 128 val (of_int32 int_part) in
    int_buf ← uint_to_str int_part 10 false;
    fr ← frac_digits (Z.to_nat precision) frac_part;
    Some ((if neg then [45] else []) ++ int_buf ++ [46] ++ fr).

(** ** Sinks *)

Inductive sink_type := SINK_CONSOLE | SINK_BUFFER.

Record sink := { s_type : sink_type; s_buf : Z; s_size : Z; s_pos : Z; s_written : Z }.

(** A variadic argument: an integer or pointer slot of eight bytes, or a double. *)
Inductive va := VI (slot : Z) | VD (d : spec_float).

(** The state of a formatted write: memory, the arguments still to be read, the
    sink, [printf_buffer[0 .. printf_pos)] and the [sys_write] calls made on
    [HANDLE_STDOUT]. *)
Record pst := {
  p_mem : mem;
  p_args : list va;
  p_sink : sink;
  p_pbuf : list Z;
  p_writes : list (list Z)
}.

Definition set_pmem m (p : pst) : pst :=
  {| p_mem := m; p_args := p_args p; p_sink := p_sink p; p_pbuf := p_pbuf p; p_writes := p_writes p |}.
Definition set_pargs a (p : pst) : pst :=
  {| p_mem := p_mem p; p_args := a; p_sink := p_sink p; p_pbuf := p_pbuf p; p_writes := p_writes p |}.
Definition set_psink s (p : pst) : pst :=
  {| p_mem := p_mem p; p_args := p_args p; p_sink := s; p_pbuf := p_pbuf p; p_writes := p_writes p |}.
Definition set_pbuf b (p : pst) : pst :=
  {| p_mem := p_mem p; p_args := p_args p; p_sink := p_sink p; p_pbuf := b; p_writes := p_writes p |}.

Definition pmem {A} (c : M mem A) : M pst A := zoom p_mem set_pmem c.
Definition pload (p : Z) : M pst Z := pmem (load8 p).

Definition PRINTF_BUFFER_SIZE : Z := 1024.

Definition flush_printf_buffer : M pst unit :=
  modify (fun p =>
    match p_pbuf p with
    | [] => p
    | b => {| p_mem := p_mem p; p_args := p_args p; p_sink := p_sink p;
              p_pbuf := []; p_writes := p_writes p ++ [b] |}
    end).

Definition sink_putc (c : Z) : M pst unit :=
  _ ← modify (fun p => let s := p_sink p in
        set_psink {| s_type := s_type s; s_buf := s_buf s; s_size := s_size s;
                     s_pos := s_pos s; s_written := u64 (s_written s + 1) |} p);
  p ← get;
  let s := p_sink p in
  match s_type s with
  | SINK_CONSOLE =>
      if PRINTF_BUFFER_SIZE <=? zlen (p_pbuf p) then undefined
      else
        _ ← modify (set_pbuf (p_pbuf p ++ [u8 c]));
        p ← get;
        when ((zlen (p_pbuf p) =? PRINTF_BUFFER_SIZE) || (c =? 10)) flush_printf_buffer
  | SINK_BUFFER =>
      when ((0 <? s_size s) && (s_pos s <? s_size s - 1))
        (_ ← pmem (store8 (s_buf s + s_pos s) c);
         modify (fun p => let s := p_sink p in
           set_psink {| s_type := s_type s; s_buf := s_buf s; s_size := s_size s;
                        s_pos := s_pos s + 1; s_written := s_written s |} p))
  end.

(** The literal the engine prints for a NULL string: "<null>". *)
Definition null_text : list Z := [60; 110; 117; 108; 108; 62].

(** [sink_puts] of a local array or a literal: its characters are known. *)
Definition sink_puts (str : list Z) : M pst unit := for_each str sink_putc.

(** [sink_puts] of a string in memory. *)
Definition sink_puts_mem (fuel : nat) (str : Z) : M pst unit :=
  if str =? NULL then sink_puts null_text
  else
    while fuel (fun str =>
      c ← pload str;
      if c =? 0 then mret (inr tt) else _ ← sink_putc c; mret (inl (str + 1))) str.

Definition pad (count ch : Z) : M pst unit := for_each (repeat ch (Z.to_nat count)) sink_putc.

(** ** vformat_write *)

Definition va_int (p : pst) : option (Z * pst) :=
  match p_args p with
  | VI z :: r => Some (z, set_pargs r p)
  | _ => None
  end.

(** [va_arg] of an integer or pointer type. *)
Definition va_slot : M pst Z := fun p =>
  match va_int p with Some (z, p') => Done z p' | None => Undef end.
Definition va_double : M pst spec_float := fun p =>
  match p_args p with
  | VD d :: r => Done d (set_pargs r p)
  | _ => Undef
  end.

Definition is_dec (c : Z) : bool := (48 <=? c) && (c <=? 57).

(** The flag loop. *)
Definition parse_flags (fuel : nat) (fmt : Z) : M pst (Z * bool * bool) :=
  while (X := Z * bool * bool) (R := Z * bool * bool) fuel (fun '(fmt, left_align, zero_pad) =>
    c ← pload fmt;
    mret (if c =? 45 then inl (fmt + 1, true, zero_pad)
          else if c =? 48 then inl (fmt + 1, left_align, true)
          else inr (fmt, left_align, zero_pad))) (fmt, false, false).

(** The loops that read a decimal [int] (width and precision). *)
Definition parse_dec (fuel : nat) (fmt : Z) : M pst (Z * Z) :=
  while (X := Z * Z) (R := Z * Z) fuel (fun '(fmt, n) =>
    c ← pload fmt;
    if is_dec c then
      if n * 10 + (c - 48) <=? INT32_MAX then mret (inl (fmt + 1, n * 10 + (c - 48)))
      else undefined
    else mret (inr (fmt, n))) (fmt, 0).

(** A conversion specification after its '%'. *)
Record directive := {
  d_left : bool; d_zero : bool; d_width : Z; d_prec : Z;
  d_long : bool; d_longlong : bool; d_spec : Z
}.

(** The width: an argument or a decimal number. *)
Definition parse_width (fuel : nat) (fmt : Z) (left_align : bool) : M pst (Z * bool * Z) :=
  c ← pload fmt;
  if c =? 42 then
    a ← va_slot;
    let min_width := i32 a in
    if min_width <? 0 then
      if min_width =? INT32_MIN then undefined
      else mret (fmt + 1, true, - min_width)
    else mret (fmt + 1, left_align, min_width)
  else
    r ← parse_dec fuel fmt; mret (fst (r : Z * Z), left_align, snd r).

(** The precision, -1 when there is none. *)
Definition parse_prec (fuel : nat) (fmt : Z) : M pst (Z * Z) :=
  c ← pload fmt; if c =? 46 then parse_dec fuel (fmt + 1) else mret (fmt, -1).

(** The length modifier. *)
Definition parse_length (fmt : Z) : M pst (Z * bool * bool) :=
  c ← pload fmt;
  if c =? 108 then
    c1 ← pload (fmt + 1);
    mret (if c1 =? 108 then (fmt + 2, false, true) else (fmt + 1, true, false))
  else mret (fmt, false, false).

Definition parse_directive (fuel : nat) (fmt : Z) : M pst (Z * directive) :=
  fl ← parse_flags fuel fmt;
  let '(fmt, left_align, zero_pad) := (fl : Z * bool * bool) in
  let zero_pad := if left_align then false else zero_pad in
  w ← parse_width fuel fmt left_align;
  let '(fmt, left_align, min_width) := (w : Z * bool * Z) in
  pr ← parse_prec fuel fmt;
  let '(fmt, precision) := (pr : Z * Z) in
  l ← parse_length fmt;
  let '(fmt, is_long, is_long_long) := (l : Z * bool * bool) in
  specifier ← pload fmt;
  mret (fmt + 1, {| d_left := left_align; d_zero := zero_pad; d_width := min_width;
                    d_prec := precision; d_long := is_long; d_longlong := is_long_long;
                    d_spec := specifier |}).

(** The bytes a rendering put in [tmp[64]], its terminator included, must fit. *)
Definition in_tmp (r : option (list Z)) : M pst (list Z) :=
  match r with
  | Some l => if zlen l + 1 <=? 64 then mret l else undefined
  | None => undefined
  end.

Definition width_pad (d : directive) (len : Z) : Z :=
  if len <? d_width d then d_width d - len else 0.

(** The common tail of the unsigned and floating conversions. *)
Definition put_number (d : directive) (prefix tmp : list Z) : M pst unit :=
  let p := width_pad d (zlen prefix + zlen tmp) in
  _ ← when (negb (d_left d)) (pad p (if d_zero d then 48 else 32));
  _ ← sink_puts prefix;
  _ ← sink_puts tmp;
  when (d_left d) (pad p 32).

(** The value of an unsigned conversion's argument. *)
Definition va_unsigned (d : directive) : M pst Z :=
  a ← va_slot; mret (if d_longlong d || d_long d then u64 a else u32 a).

Definition conv_s (fuel : nat) (d : directive) : M pst unit :=
  str ← va_slot;
  len ← (if str =? NULL then mret (zlen null_text) else pmem (strlen fuel str));
  let len := if (0 <=? d_prec d) && (d_prec d <? i32 len) then d_prec d else len in
  let p := width_pad d (i32 len) in
  _ ← when (negb (d_left d)) (pad p 32);
  _ ← for_each (seq 0 (Z.to_nat len)) (fun k =>
        c ← (if str =? NULL then
               match null_text !! k with Some c => mret c | None => undefined end
             else pload (str + Z.of_nat k));
        sink_putc c);
  when (d_left d) (pad p 32).

Definition conv_c (d : directive) : M pst unit :=
  a ← va_slot;
  let ch := u8 a in
  let p := width_pad d 1 in
  _ ← when (negb (d_left d)) (pad p 32);
  _ ← sink_putc ch;
  when (d_left d) (pad p 32).

(** [-val] of the smallest number wraps back to it, and prints as an unsigned
    number with the right digits. *)
Definition conv_d (d : directive) : M pst unit :=
  a ← va_slot;
  let val := if d_longlong d || d_long d then i64 a else i32 a in
  let negative := val <? 0 in
  let val := if negative then i64 (- val) else val in
  tmp ← in_tmp (uint_to_str (u64 val) 10 false);
  let total := zlen tmp + b2z negative in
  let p := width_pad d total in
  _ ← when (negb (d_left d) && negb (d_zero d)) (pad p 32);
  _ ← when negative (sink_putc 45);
  _ ← when (negb (d_left d) && d_zero d) (pad p 48);
  _ ← sink_puts tmp;
  when (d_left d) (pad p 32).

Definition conv_u (base : Z) (d : directive) : M pst unit :=
  val ← va_unsigned d;
  tmp ← in_tmp (uint_to_str val base false);
  put_number d [] tmp.

Definition conv_p (d : directive) : M pst unit :=
  a ← va_slot;
  tmp ← in_tmp (uint_to_str (u64 a) 16 false);
  put_number d [48; 120] tmp.

Definition conv_f (d : directive) (prec : Z) : M pst unit :=
  val ← va_double;
  tmp ← in_tmp (float_to_str (double_to_float val) prec);
  put_number d [] tmp.

(** The [switch] on the specifier. *)
Definition convert (fuel : nat) (d : directive) : M pst unit :=
  let c := d_spec d in
  let prec := if 0 <=? d_prec d then d_prec d else 6 in
  if c =? 115 then conv_s fuel d
  else if c =? 99 then conv_c d
  else if (c =? 100) || (c =? 105) then conv_d d
  else if c =? 117 then conv_u 10 d
  else if (c =? 120) || (c =? 88) then conv_u 16 d
  else if c =? 102 then conv_f d prec
  else if (c =? 103) || (c =? 71) || (c =? 101) || (c =? 69) then
    conv_f d (if prec =? 0 then 1 else prec)
  else if c =? 111 then conv_u 8 d
  else if c =? 112 then conv_p d
  else if c =? 37 then sink_putc 37
  else _ ← sink_putc 37; sink_putc c.

(** The main loop; [fuel] bounds the loop and every scan inside it. *)
Definition vformat_step (fuel : nat) (fmt : Z) : M pst (Z + unit) :=
  c ← pload fmt;
  if c =? 0 then mret (inr tt)
  else if negb (c =? 37) then _ ← sink_putc c; mret (inl (fmt + 1))
  else
    r ← parse_directive fuel (fmt + 1);
    let '(fmt, d) := (r : Z * directive) in
    _ ← convert fuel d; mret (inl fmt).

Definition vformat_write (fuel : nat) (fmt : Z) : M pst unit := while fuel (vformat_step fuel) fmt.

(** ** The functions built on the engine *)

Definition with_sink (s : sink) : M pst unit := modify (set_psink s).

(** [NULL] formats and buffers are refused before anything is read. *)
Definition vsnprintf (fuel : nat) (buffer size fmt : Z) : M pst Z :=
  if fmt =? NULL then mret (-1)
  else
    _ ← with_sink {| s_type := SINK_BUFFER; s_buf := buffer; s_size := size; s_pos := 0; s_written := 0 |};
    _ ← vformat_write fuel fmt;
    s ← gets p_sink;
    _ ← when (negb (buffer =? NULL) && (0 <? size))
          (if size <=? s_pos s then pmem (store8 (buffer + size - 1) 0)
           else pmem (store8 (buffer + s_pos s) 0));
    mret (i32 (s_written s)).

Definition snprintf (fuel : nat) (buffer size fmt : Z) : M pst Z :=
  if fmt =? NULL then mret (-1)
  else if size =? 0 then vsnprintf fuel NULL 0 fmt
  else if buffer =? NULL then mret (-1)
  else vsnprintf fuel buffer size fmt.

Definition vsprintf (fuel : nat) (buffer fmt : Z) : M pst Z :=
  if (buffer =? NULL) || (fmt =? NULL) then mret (-1)
  else vsnprintf fuel buffer SIZE_MAX fmt.

Definition sprintf (fuel : nat) (buffer fmt : Z) : M pst Z :=
  if (buffer =? NULL) || (fmt =? NULL) then mret (-1)
  else vsprintf fuel buffer fmt.

Definition console : sink :=
  {| s_type := SINK_CONSOLE; s_buf := NULL; s_size := 0; s_pos := 0; s_written := 0 |}.

Definition vprintf (fuel : nat) (fmt : Z) : M pst Z :=
  _ ← with_sink console;
  _ ← vformat_write fuel fmt;
  _ ← flush_printf_buffer;
  s ← gets p_sink;
  mret (i32 (s_written s)).

Definition puts (fuel : nat) (s : Z) : M pst Z :=
  if s =? NULL then mret (-1)
  else
    _ ← with_sink console;
    _ ← sink_puts_mem fuel s;
    _ ← sink_putc 10;
    _ ← flush_printf_buffer;
    mret 0.

Definition putchar (c : Z) : M pst Z :=
  _ ← with_sink console;
  _ ← sink_putc (u8 c);
  mret c.
