(* ===== verification/FormatFacts.v ===== *)
(** * Correctness of the printf engine

    [format_ref] is a formatter on lists: it reads a format and typed arguments
    and gives the text. The engine of stdio.c is proved to put exactly that
    text into either of its sinks. *)

From stdpp Require Import base tactics list gmap numbers strings.
From Stdlib Require Import ZArith Lia.
From Stdlib Require SpecFloat.
From S2P Require Import Prelude.
From S2P Require Import Memory.
From S2P Require Import CString.
From S2P Require Import CStringFacts.
From S2P Require Import NumConv.
From S2P Require Import Format.
Import SpecFloat.

(** ** Number rendering *)

Lemma digit_of_hex d : 0 <= d < 16 -> digit_of (hex_digit d) = Some d.
Proof.
  intros H. unfold hex_digit, digit_of. destruct (Z.ltb_spec d 10); repeat (zcase; simpl); try lia; f_equal; lia.
Qed.

Lemma hex_digit_range d : 0 <= d < 16 -> 48 <= hex_digit d <= 70.
Proof. unfold hex_digit. case_match; lia. Qed.

Lemma digits_snoc base l d :
  2 <= base <= 16 -> 0 <= d < base -> length (digits base l) = length l ->
  digits base (l ++ [hex_digit d]) = digits base l ++ [d].
Proof.
  intros Hb Hd. induction l as [|x l IH]; simpl.
  - intros _. rewrite digit_of_hex by lia. by rewrite (proj2 (Z.leb_gt base d)) by lia.
  - destruct (digit_of x) as [e|]; simpl; [|done]. destruct (base <=? e); simpl; [done|].
    intros [= H]. by rewrite IH.
Qed.

Lemma dval_snoc base ds d acc : dval base (ds ++ [d]) acc = dval base ds acc * base + d.
Proof. unfold dval. by rewrite foldl_app. Qed.

(** [t] is a numeral of [base] for [v]. *)
Definition numeral (base v : Z) (t : list Z) : Prop :=
  length (digits base t) = length t /\ dval base (digits base t) 0 = v /\
  Forall (fun b => 48 <= b <= 70) t.

Lemma temp_digits_ok room v base :
  2 <= base <= 16 -> 0 <= v < base ^ Z.of_nat room ->
  exists t, temp_digits room v base = Some t /\ (length t <= room)%nat /\ numeral base v (rev t) /\
            (0 < v -> 0 < zlen t).
Proof.
  intros Hb. revert v. induction room as [|room IH]; intros v Hv.
  - change (base ^ Z.of_nat 0) with 1 in Hv. simpl. destruct (Z.eqb_spec v 0); [|lia].
    exists []. repeat split; try done; simpl; lia.
  - simpl. destruct (Z.eqb_spec v 0).
    { subst. exists []. repeat split; try done; simpl; try lia. }
    assert (0 <= v / base < base ^ Z.of_nat room) as Hq.
    { split; [apply Z.div_pos; lia|]. apply Z.div_lt_upper_bound; [lia|].
      replace (Z.of_nat (S room)) with (Z.succ (Z.of_nat room)) in Hv by lia.
      rewrite Z.pow_succ_r in Hv by lia. lia. }
    destruct (IH _ Hq) as (t & -> & Hl & (H1 & H2 & H3) & _). simpl.
    pose proof (Z.mod_pos_bound v base ltac:(lia)) as Hm.
    eexists. split; [done|]. simpl. split_and!; [lia|..|intros; lia].
    unfold numeral. rewrite digits_snoc by (done || lia). split_and!.
    + rewrite !length_app. simpl. lia.
    + rewrite dval_snoc, H2. pose proof (Z.div_mod v base ltac:(lia)). lia.
    + apply Forall_app. split; [done|]. apply Forall_singleton.
      pose proof (hex_digit_range (v mod base) ltac:(lia)). lia.
Qed.

Lemma uint_to_str_ok v base :
  8 <= base <= 16 -> 0 <= v <= UINT64_MAX ->
  exists t, uint_to_str v base false = Some t /\ (1 <= length t <= 22)%nat /\ numeral base v t.
Proof.
  intros Hb Hv. unfold uint_to_str. destruct (Z.eqb_spec v 0) as [->|].
  - exists [48]. split; [done|]. split; [simpl; lia|]. unfold numeral. simpl.
    change (48 - 48) with 0. rewrite (proj2 (Z.leb_gt base 0)) by lia. split_and!; try done. apply Forall_singleton. lia.
  - assert (v < base ^ Z.of_nat 22) as Hlt.
    { assert (8 ^ 22 <= base ^ 22) by (apply Z.pow_le_mono_l; lia).
      change (Z.of_nat 22) with 22. unfold UINT64_MAX in Hv. lia. }
    destruct (temp_digits_ok 22 v base ltac:(lia) ltac:(lia)) as (t & Ht & Hl & Hn & Hp).
    assert (forall r1 r2 v t, temp_digits r1 v base = Some t -> (r1 <= r2)%nat ->
      temp_digits r2 v base = Some t) as Hmono.
    { clear. induction r1 as [|r1 IH]; intros [|r2] v t H Hle; simpl in *; try done; try lia.
      - by destruct (v =? 0).
      - destruct (v =? 0); [done|]. destruct (temp_digits r1 (v / base) base) eqn:E; [|done].
        by rewrite (IH r2 _ _ E) by lia. }
    rewrite (Hmono 22%nat 32%nat v t Ht) by lia. simpl. exists (rev t).
    rewrite length_rev. split_and!; try done; lia.
Qed.

(** ** What a sink holds after a text was put into it *)

Definition emit1 (p : pst) (c : Z) : pst :=
  let s := p_sink p in
  let w := u64 (s_written s + 1) in
  match s_type s with
  | SINK_CONSOLE =>
      let b := p_pbuf p ++ [c] in
      let p := set_psink {| s_type := s_type s; s_buf := s_buf s; s_size := s_size s;
                            s_pos := s_pos s; s_written := w |} p in
      if (zlen b =? PRINTF_BUFFER_SIZE) || (c =? 10)
      then {| p_mem := p_mem p; p_args := p_args p; p_sink := p_sink p;
              p_pbuf := []; p_writes := p_writes p ++ [b] |}
      else set_pbuf b p
  | SINK_BUFFER =>
      if (0 <? s_size s) && (s_pos s <? s_size s - 1) then
        set_pmem (<[s_buf s + s_pos s := c]> (p_mem p))
          (set_psink {| s_type := s_type s; s_buf := s_buf s; s_size := s_size s;
                        s_pos := s_pos s + 1; s_written := w |} p)
      else set_psink {| s_type := s_type s; s_buf := s_buf s; s_size := s_size s;
                        s_pos := s_pos s; s_written := w |} p
  end.

Definition emit (l : list Z) (p : pst) : pst := foldl emit1 p l.

(** The addresses the next [n] characters may be written to. *)
Definition window (p : pst) (n a : Z) : Prop :=
  s_type (p_sink p) = SINK_BUFFER /\
  s_buf (p_sink p) + s_pos (p_sink p) <= a <
    s_buf (p_sink p) + Z.min (s_pos (p_sink p) + n) (s_size (p_sink p) - 1).

(** The sink can take [n] more characters. *)
Definition sink_ok (p : pst) (n : Z) : Prop :=
  (s_type (p_sink p) = SINK_CONSOLE -> zlen (p_pbuf p) < PRINTF_BUFFER_SIZE) /\
  (forall a, window p n a -> is_Some (p_mem p !! a)).

Lemma emit_app l1 l2 p : emit (l1 ++ l2) p = emit l2 (emit l1 p).
Proof. apply foldl_app. Qed.

Lemma window_le p n k a : n <= k -> window p n a -> window p k a.
Proof. unfold window. intros ? [? ?]. split; [done|lia]. Qed.

Lemma sink_ok_le p n k : n <= k -> sink_ok p k -> sink_ok p n.
Proof. intros H [H1 H2]. split; [done|]. intros a Ha. apply H2. by eapply window_le. Qed.

Ltac sink_cases p :=
  destruct p as [m args [ty buf size pos w] pb ws]; unfold emit1, sink_ok, window in *; simpl in *;
  destruct ty; simpl in *.

Lemma putc_emit p c :
  0 <= c < 256 -> sink_ok p 1 -> sink_putc c p = Done tt (emit1 p c).
Proof.
  intros Hc Hok. unfold sink_putc, flush_printf_buffer. mstep. sink_cases p; destruct Hok as [H1 H2].
  - specialize (H1 eq_refl). rewrite (proj2 (Z.leb_gt _ _)) by done. mstep. rewrite (u8_id c) by done.
    destruct (_ || _); mstep; simpl; [|done].
    by destruct (pb ++ [c]) eqn:E; [destruct pb|].
  - destruct (Z.ltb_spec 0 size); simpl; mstep; [|done].
    destruct (Z.ltb_spec pos (size - 1)); simpl; mstep; [|done].
    unfold pmem, zoom. simpl. rewrite store8_some; [|apply H2; split; [done|lia]].
    simpl. mstep. by rewrite u8_id.
Qed.

Lemma emit1_window p c n a : 0 <= n -> window (emit1 p c) n a -> window p (1 + n) a.
Proof.
  sink_cases p; intros Hn.
  - destruct (_ || _); simpl; intros [? ?]; done.
  - destruct ((0 <? size) && _) eqn:E; simpl; intros [_ ?]; (split; [done|lia]).
Qed.

Lemma emit1_lookup p c a : ~ window p 1 a -> p_mem (emit1 p c) !! a = p_mem p !! a.
Proof.
  sink_cases p; intros Hw.
  - by destruct (_ || _).
  - destruct ((0 <? size) && _) eqn:E; simpl; [|done]. rewrite lookup_insert_ne; [done|].
    intros <-. apply Hw. split; [done|lia].
Qed.

Lemma emit1_ok p c n : 0 <= n -> sink_ok p (1 + n) -> sink_ok (emit1 p c) n.
Proof.
  intros Hn [H1 H2]. split.
  - intros Ht. sink_cases p; [|by destruct (_ && _)].
    destruct (_ || _) eqn:E; simpl; [unfold PRINTF_BUFFER_SIZE; lia|].
    rewrite length_app in *. simpl in *. specialize (H1 eq_refl).
    apply orb_false_iff in E as [E%Z.eqb_neq _]. lia.
  - intros a Ha. apply emit1_window in Ha; [|done]. specialize (H2 a Ha). revert H2.
    sink_cases p; [by destruct (_ || _)|]. destruct (_ && _); simpl; [|done]. intros H2.
    destruct (decide (buf + pos = a)) as [->|]; [rewrite lookup_insert_eq|rewrite lookup_insert_ne by done]; eauto.
Qed.

Lemma emit_ok l p n : 0 <= n -> sink_ok p (zlen l + n) -> sink_ok (emit l p) n.
Proof.
  revert p. induction l as [|c l IH]; intros p Hn H; simpl in *; [done|].
  apply IH; [done|]. apply emit1_ok; [lia|]. eapply sink_ok_le; [|done]. lia.
Qed.

Lemma emit_window l p n a : 0 <= n -> window (emit l p) n a -> window p (zlen l + n) a.
Proof.
  revert p. induction l as [|c l IH]; intros p Hn H; simpl in *; [done|].
  apply IH, emit1_window in H; [|lia..]. eapply window_le; [|done]. lia.
Qed.

Lemma emit_lookup l p a : ~ window p (zlen l) a -> p_mem (emit l p) !! a = p_mem p !! a.
Proof.
  revert p. induction l as [|c l IH]; intros p H; simpl in *; [done|].
  rewrite IH, emit1_lookup; [done|..].
  - intros Hw. apply H. eapply window_le; [|done]. lia.
  - intros Hw. apply H. apply emit1_window in Hw; [|lia]. eapply window_le; [|done]. lia.
Qed.

Lemma emit_args l p : p_args (emit l p) = p_args p.
Proof.
  revert p. induction l as [|c l IH]; intros p; simpl; [done|]. rewrite IH.
  sink_cases p; [by destruct (_ || _)|by destruct (_ && _)].
Qed.

Lemma emit_set_args l p a : emit l (set_pargs a p) = set_pargs a (emit l p).
Proof.
  revert p. induction l as [|c l IH]; intros p; simpl; [done|]. rewrite <- IH. f_equal.
  sink_cases p; [by destruct (_ || _)|by destruct (_ && _)].
Qed.

Lemma for_each_emit l p :
  bytes l -> sink_ok p (zlen l) -> for_each l sink_putc p = Done tt (emit l p).
Proof.
  revert p. induction l as [|c l IH]; intros p Hb H; simpl; [done|].
  apply Forall_cons in Hb as [Hc Hb]. simpl in H. mstep.
  rewrite putc_emit; [|blia|eapply sink_ok_le; [|done]; lia].
  apply IH; [done|]. apply emit1_ok; [lia|]. eapply sink_ok_le; [|done]. lia.
Qed.

(** ** The reference formatter *)

(** A typed argument: an integer slot, a pointer to a string with its text, or
    a double. *)
Inductive rarg := RI (slot : Z) | RS (ptr : Z) (text : list Z) | RD (d : spec_float).

Definition rslot (r : rarg) : option Z :=
  match r with RI z => Some z | RS p _ => Some p | RD _ => None end.

(** The text of a [%s] argument. *)
Definition rtext (r : rarg) : option (list Z) :=
  match r with
  | RI z => if z =? 0 then Some null_text else None
  | RS _ t => Some t
  | RD _ => None
  end.

(** The machine argument [v] represents [r] in memory [m]. *)
Definition arg_ok (m : mem) (v : va) (r : rarg) : Prop :=
  match r with
  | RI z => v = VI z
  | RS p t => v = VI p /\ p <> NULL /\ cstr m p t /\ zlen t <= INT32_MAX
  | RD d => v = VD d
  end.

Fixpoint ref_flags (l : list Z) (left_align zero_pad : bool) : list Z * bool * bool :=
  match l with
  | c :: r => if c =? 45 then ref_flags r true zero_pad
              else if c =? 48 then ref_flags r left_align true
              else (l, left_align, zero_pad)
  | [] => ([], left_align, zero_pad)
  end.

Definition ref_dec (l : list Z) : option (list Z * Z) :=
  let ds := digits 10 l in
  if dval 10 ds 0 <=? INT32_MAX then Some (drop (length ds) l, dval 10 ds 0) else None.

(** The first character, the terminator when the string is empty. *)
Definition first (l : list Z) : Z := match l with c :: _ => c | [] => 0 end.

Definition ref_width (l : list Z) (args : list rarg) (left_align : bool)
    : option (list Z * list rarg * bool * Z) :=
  if first l =? 42 then
    match args with
    | a :: args' =>
        z ← rslot a;
        let w := i32 z in
        if w =? INT32_MIN then None
        else Some (tail l, args', if w <? 0 then true else left_align, Z.abs w)
    | [] => None
    end
  else r ← ref_dec l; Some (fst r, args, left_align, snd r).

Definition ref_prec (l : list Z) : option (list Z * Z) :=
  if first l =? 46 then ref_dec (tail l) else Some (l, -1).

Definition ref_length (l : list Z) : list Z * bool * bool :=
  if first l =? 108 then
    if first (tail l) =? 108 then (tail (tail l), false, true) else (tail l, true, false)
  else (l, false, false).

(** A directive ends with its specifier: a format that ends inside a directive
    has no reference meaning. *)
Definition ref_directive (l : list Z) (args : list rarg)
    : option (list Z * list rarg * directive) :=
  let '(l, left_align, zero_pad) := ref_flags l false false in
  let zero_pad := if left_align then false else zero_pad in
  w ← ref_width l args left_align;
  let '(l, args, left_align, width) := w in
  p ← ref_prec l;
  let '(l, prec) := p in
  let '(l, lg, ll) := ref_length l in
  match l with
  | [] => None
  | c :: l => Some (l, args, {| d_left := left_align; d_zero := zero_pad; d_width := width;
                                d_prec := prec; d_long := lg; d_longlong := ll; d_spec := c |})
  end.

Definition spaces (n : Z) : list Z := repeat 32 (Z.to_nat n).
Definition zeros (n : Z) : list Z := repeat 48 (Z.to_nat n).

(** A text in a field: a sign or prefix, then the body. *)
Definition field (d : directive) (sign body : list Z) (zero : bool) : list Z :=
  let n := d_width d - (zlen sign + zlen body) in
  if d_left d then sign ++ body ++ spaces n
  else if zero then sign ++ zeros n ++ body
  else spaces n ++ sign ++ body.

(** Unsigned and floating conversions pad in front of the whole number. *)
Definition ufield (d : directive) (prefix body : list Z) : list Z :=
  let n := d_width d - (zlen prefix + zlen body) in
  if d_left d then prefix ++ body ++ spaces n
  else (if d_zero d then zeros n else spaces n) ++ prefix ++ body.

Definition fits (r : option (list Z)) : option (list Z) :=
  t ← r; if zlen t + 1 <=? 64 then Some t else None.

Definition unsigned_of (d : directive) (z : Z) : Z :=
  if d_longlong d || d_long d then u64 z else u32 z.
Definition signed_of (d : directive) (z : Z) : Z :=
  if d_longlong d || d_long d then i64 z else i32 z.

(** A conversion that takes one argument: [f] reads it, [k] renders it. *)
Definition take_one {A} (args : list rarg) (f : rarg -> option A) (k : A -> option (list Z))
    : option (list Z * list rarg) :=
  match args with
  | a :: r => x ← f a; t ← k x; Some (t, r)
  | [] => None
  end.

(** The text of one directive. *)
Definition render (d : directive) (args : list rarg) : option (list Z * list rarg) :=
  let c := d_spec d in
  let prec := if 0 <=? d_prec d then d_prec d else 6 in
  let dbl r := match r with RD x => Some x | _ => None end in
  let unsigned base := take_one args rslot (fun z =>
    t ← uint_to_str (unsigned_of d z) base false; Some (ufield d [] t)) in
  let floating prec := take_one args dbl (fun x =>
    t ← fits (float_to_str (double_to_float x) prec); Some (ufield d [] t)) in
  if c =? 115 then take_one args rtext (fun t =>
    Some (field d [] (if 0 <=? d_prec d then take (Z.to_nat (d_prec d)) t else t) false))
  else if c =? 99 then take_one args rslot (fun z => Some (field d [] [u8 z] false))
  else if (c =? 100) || (c =? 105) then take_one args rslot (fun z =>
    let v := signed_of d z in
    t ← uint_to_str (Z.abs v) 10 false;
    Some (field d (if v <? 0 then [45] else []) t (d_zero d)))
  else if c =? 117 then unsigned 10
  else if (c =? 120) || (c =? 88) then unsigned 16
  else if c =? 102 then floating prec
  else if (c =? 103) || (c =? 71) || (c =? 101) || (c =? 69) then floating (if prec =? 0 then 1 else prec)
  else if c =? 111 then unsigned 8
  else if c =? 112 then take_one args rslot (fun z =>
    t ← uint_to_str (u64 z) 16 false; Some (ufield d [48; 120] t))
  else if c =? 37 then Some ([37], args)
  else Some ([37; c], args).

Fixpoint format_ref (n : nat) (l : list Z) (args : list rarg) : option (list Z * list rarg) :=
  match n, l with
  | O, _ => None
  | S _, [] => Some ([], args)
  | S n', c :: r =>
      if negb (c =? 37) then
        o ← format_ref n' r args; Some (c :: fst o, snd o)
      else
        x ← ref_directive r args;
        let '(r, args, d) := x in
        t ← render d args;
        let '(t, args) := t in
        o ← format_ref n' r args; Some (t ++ fst o, snd o)
  end.

(** ** Reading the format *)

Lemma pload_run p a : pload a p = match p_mem p !! a with Some b => Done b p | None => Undef end.
Proof. destruct p. unfold pload, pmem, zoom, load8. simpl. by destruct (_ !! a). Qed.

Ltac pld H :=
  mstep; rewrite pload_run;
  repeat match goal with |- context [p_mem (set_pargs ?a ?p)] =>
    change (p_mem (set_pargs a p)) with (p_mem p) end;
  rewrite H; mstep.

Lemma cstr_app_r m f pre l : cstr m f (pre ++ l) -> cstr m (f + zlen pre) l.
Proof.
  intros H. apply (cstr_drop _ _ _ (length pre)) in H; [by rewrite drop_app_length in H|].
  rewrite length_app. lia.
Qed.

Lemma cstr_first m f l : cstr m f l -> m !! f = Some (first l).
Proof. destruct l; simpl; [done|by intros [? _]]. Qed.

Lemma cstr_first_pos m f l : cstr m f l -> first l <> 0 -> exists r, l = first l :: r /\ cstr m (f + 1) r.
Proof. destruct l as [|c r]; simpl; [done|]. intros (_ & _ & H) _. eauto. Qed.

Lemma parse_flags_ok fuel f l a b p :
  cstr (p_mem p) f l -> (length l < fuel)%nat ->
  exists pre, l = pre ++ fst (fst (ref_flags l a b)) /\
  while fuel (fun '(fmt, left_align, zero_pad) =>
    c ← pload fmt;
    mret (if c =? 45 then inl (fmt + 1, true, zero_pad)
          else if c =? 48 then inl (fmt + 1, left_align, true)
          else inr (fmt, left_align, zero_pad))) (f, a, b) p
  = Done (f + zlen pre, snd (fst (ref_flags l a b)), snd (ref_flags l a b)) p.
Proof.
  revert fuel f a b. induction l as [|c l IH]; intros fuel f a b Hs Hf;
    (destruct fuel as [|fuel]; simpl in Hf; [lia|]); rewrite while_S; simpl in Hs.
  - exists []. split; [done|]. pld Hs. simpl. by rewrite Z.add_0_r.
  - destruct Hs as (Hb & ? & Hs). simpl ref_flags. pld Hb.
    destruct (c =? 45); [|destruct (c =? 48)];
      [edestruct (IH fuel (f + 1) true b) as (pre & Hp & Hr)
      |edestruct (IH fuel (f + 1) a true) as (pre & Hp & Hr)|]; try done; try lia.
    3: { exists []. split; [done|]. mstep. simpl. by rewrite Z.add_0_r. }
    all: exists (c :: pre); split; [by rewrite Hp at 1|]; rewrite Hr; simpl; do 2 f_equal; f_equal; lia.
Qed.

Lemma parse_dec_loop fuel f l n p :
  cstr (p_mem p) f l -> (length l < fuel)%nat -> 0 <= n <= INT32_MAX ->
  dval 10 (digits 10 l) n <= INT32_MAX ->
  while fuel (fun '(fmt, n) =>
    c ← pload fmt;
    if is_dec c then
      if n * 10 + (c - 48) <=? INT32_MAX then mret (inl (fmt + 1, n * 10 + (c - 48)))
      else undefined
    else mret (inr (fmt, n))) (f, n) p
  = Done (f + zlen (digits 10 l), dval 10 (digits 10 l) n) p.
Proof.
  revert fuel f n. induction l as [|b l IH]; intros fuel f n Hs Hf Hn Hv;
    (destruct fuel as [|fuel]; simpl in Hf; [lia|]); rewrite while_S; simpl in Hs.
  - pld Hs. simpl. by rewrite Z.add_0_r.
  - destruct Hs as (Hb & ? & Hs). revert Hv. rewrite digits_10 by lia. unfold is_dec. pld Hb.
    destruct ((48 <=? b) && (b <=? 57)) eqn:Ed; intros Hv; mstep.
    2: { simpl. by rewrite Z.add_0_r. }
    change (dval 10 (b - 48 :: digits 10 l) n) with (dval 10 (digits 10 l) (n * 10 + (b - 48))) in *.
    pose proof (dval_ge 10 (digits 10 l) (n * 10 + (b - 48)) ltac:(lia) ltac:(lia) (digits_nonneg _ _)).
    rewrite (proj2 (Z.leb_le _ _)) by lia. mstep. rewrite IH by (done || lia). simpl. do 2 f_equal. lia.
Qed.

Lemma digits_le base l : (length (digits base l) <= length l)%nat.
Proof. induction l as [|b l IH]; simpl; [done|]. repeat case_match; simpl; lia. Qed.

Lemma parse_dec_ok fuel f l l' n p :
  cstr (p_mem p) f l -> (length l < fuel)%nat -> ref_dec l = Some (l', n) ->
  exists pre, l = pre ++ l' /\ parse_dec fuel f p = Done (f + zlen pre, n) p.
Proof.
  unfold ref_dec, parse_dec. intros Hs Hf. destruct (Z.leb_spec (dval 10 (digits 10 l) 0) INT32_MAX); [|done].
  intros [= <- <-]. exists (take (length (digits 10 l)) l). split; [by rewrite take_drop|].
  rewrite (parse_dec_loop _ _ l) by (done || (unfold INT32_MAX; lia)).
  pose proof (digits_le 10 l). rewrite length_take. do 3 f_equal. lia.
Qed.

(** The bytes [q, q + k) are not written by the next [n] characters. *)
Definition outside (p : pst) (n q k : Z) : Prop := forall a, q <= a < q + k -> ~ window p n a.

(** The machine arguments [vs] represent [args], and their strings stay intact
    while [n] more characters are written. *)
Definition args_ok (fuel : nat) (p : pst) (n : Z) (vs : list va) (args : list rarg) : Prop :=
  Forall2 (fun v r => arg_ok (p_mem p) v r /\
    match r with
    | RS q t => (length t < fuel)%nat /\ outside p n q (zlen t + 1)
    | _ => True
    end) vs args.

Lemma outside_set_args p n q k a : outside p n q k <-> outside (set_pargs a p) n q k.
Proof. done. Qed.

Lemma outside_emit p l n q k :
  0 <= n -> outside p (zlen l + n) q k -> outside (emit l p) n q k.
Proof. intros Hn H a Ha Hw. apply (H a Ha). by apply emit_window in Hw. Qed.

Lemma outside_le p n n' q k : n <= n' -> outside p n' q k -> outside p n q k.
Proof. intros Hn H a Ha Hw. apply (H a Ha). by eapply window_le. Qed.

Lemma cstr_emit p l n q t :
  0 <= n -> outside p (zlen l + n) q (zlen t + 1) -> cstr (p_mem p) q t -> cstr (p_mem (emit l p)) q t.
Proof.
  intros Hn Ho. rewrite !cstr_arr. intros [Ha Hb]. split; [|done].
  apply arr_intro. intros i b Hi. rewrite emit_lookup; [by eapply arr_lookup|].
  apply lookup_lt_Some in Hi. rewrite length_app in Hi. simpl in Hi.
  intros Hw. apply (Ho (q + Z.of_nat i)); [lia|]. eapply window_le; [|done]. lia.
Qed.

Lemma args_emit fuel p l n vs args :
  0 <= n -> args_ok fuel p (zlen l + n) vs args -> args_ok fuel (emit l p) n vs args.
Proof.
  intros Hn H. eapply Forall2_impl; [done|]. intros v r [Ha Hr]. cbn beta in *.
  destruct r as [z|q t|d]; [done| |done]. destruct Hr as [Hl Ho].
  destruct Ha as (-> & Hq & Hs & Hz). split; [|split; [done|]].
  - split_and!; try done. by eapply cstr_emit.
  - by apply outside_emit.
Qed.

Lemma rslot_ok m v r z : arg_ok m v r -> rslot r = Some z -> v = VI z.
Proof. destruct r; simpl; intros; naive_solver. Qed.

Lemma va_slot_run z vs p : p_args p = VI z :: vs -> va_slot p = Done z (set_pargs vs p).
Proof. unfold va_slot, va_int. by intros ->. Qed.

Lemma cstr_tail m f l c :
  cstr m f l -> first l = c -> c <> 0 -> l = [c] ++ tail l /\ cstr m (f + 1) (tail l).
Proof. destruct l as [|x l]; simpl; [by intros _ <-|]. intros (_ & _ & H) -> _. done. Qed.

(** The stages of [parse_directive]: each consumes a prefix of the format. *)
Lemma parse_width_ok fuel f l args left_align l' args' left' w p n :
  cstr (p_mem p) f l -> (length l < fuel)%nat -> args_ok fuel p n (p_args p) args ->
  ref_width l args left_align = Some (l', args', left', w) ->
  exists pre vs', l = pre ++ l' /\ args_ok fuel p n vs' args' /\
    parse_width fuel f left_align p = Done (f + zlen pre, left', w) (set_pargs vs' p).
Proof.
  intros Hs Hf Hargs. unfold ref_width, parse_width. pld (cstr_first _ _ _ Hs).
  destruct (Z.eqb_spec (first l) 42) as [E|].
  - destruct args as [|a args0]; [done|]. inversion Hargs as [|v ? vs ? Hv Hrest Evs]; subst.
    destruct (rslot a) as [z|] eqn:Ez; simpl; [|done].
    destruct Hv as [Hv _]. pose proof (rslot_ok _ _ _ _ Hv Ez) as ->.
    destruct (Z.eqb_spec (i32 z) INT32_MIN) as [|Hne]; [done|]. intros [= <- <- <- <-].
    destruct (cstr_tail _ _ _ 42 Hs E ltac:(lia)) as [El Ht].
    exists [42], vs. split; [done|]. split; [done|]. mstep.
    rewrite (va_slot_run z vs) by done. mstep.
    destruct (Z.ltb_spec (i32 z) 0); [rewrite (proj2 (Z.eqb_neq _ _)) by done|]; mstep;
      do 2 f_equal; try lia; f_equal; lia.
  - destruct (ref_dec l) as [[l1 n1]|] eqn:Ed; simpl; [|done]. intros [= <- <- <- <-].
    destruct (parse_dec_ok _ _ _ _ _ _ Hs Hf Ed) as (pre & Ep & Hr).
    exists pre, (p_args p). split_and!; try done. mstep. rewrite Hr. mstep. by destruct p.
Qed.

Lemma parse_prec_ok fuel f l l' n p :
  cstr (p_mem p) f l -> (length l < fuel)%nat -> ref_prec l = Some (l', n) ->
  exists pre, l = pre ++ l' /\ parse_prec fuel f p = Done (f + zlen pre, n) p.
Proof.
  intros Hs Hf. unfold ref_prec, parse_prec. pld (cstr_first _ _ _ Hs).
  destruct (Z.eqb_spec (first l) 46) as [E|].
  - destruct (cstr_tail _ _ _ 46 Hs E ltac:(lia)) as [El Ht]. intros Hd.
    assert (length (tail l) < fuel)%nat as Hf' by (destruct l; simpl in *; lia).
    destruct (parse_dec_ok _ _ _ _ _ _ Ht Hf' Hd) as (pre & Ep & Hr).
    exists (46 :: pre). rewrite El at 1. rewrite Ep at 1. split; [done|]. rewrite Hr.
    replace (f + zlen (46 :: pre)) with (f + 1 + zlen pre) by (simpl; lia). done.
  - intros [= <- <-]. exists []. split; [done|]. mstep. simpl. by rewrite Z.add_0_r.
Qed.

Lemma parse_length_ok f l l' a b p :
  cstr (p_mem p) f l -> ref_length l = (l', a, b) ->
  exists pre, l = pre ++ l' /\ parse_length f p = Done (f + zlen pre, a, b) p.
Proof.
  intros Hs. unfold ref_length, parse_length. pld (cstr_first _ _ _ Hs).
  destruct (Z.eqb_spec (first l) 108) as [E|].
  - destruct (cstr_tail _ _ _ 108 Hs E ltac:(lia)) as [El Ht]. pld (cstr_first _ _ _ Ht).
    destruct (Z.eqb_spec (first (tail l)) 108) as [E1|]; intros [= <- <- <-].
    + destruct (cstr_tail _ _ _ 108 Ht E1 ltac:(lia)) as [El1 _].
      exists [108; 108]. split; [rewrite El, El1 at 1; done|]. done.
    + exists [108]. split; [done|]. done.
  - intros [= <- <- <-]. exists []. split; [done|]. mstep. simpl. by rewrite Z.add_0_r.
Qed.


Lemma parse_directive_ok fuel f l args l' args' d p n :
  cstr (p_mem p) f l -> (length l < fuel)%nat -> args_ok fuel p n (p_args p) args ->
  ref_directive l args = Some (l', args', d) ->
  exists pre vs', l = pre ++ l' /\ args_ok fuel p n vs' args' /\ 0 < d_spec d < 256 /\
    parse_directive fuel f p = Done (f + zlen pre, d) (set_pargs vs' p).
Proof.
  intros Hs Hf Hargs. unfold ref_directive, parse_directive.
  destruct (parse_flags_ok fuel f l false false p Hs Hf) as (p0 & E0 & R0).
  destruct (ref_flags l false false) as [[l0 la] zp]. simpl in E0, R0.
  destruct (ref_width l0 args la) as [[[[l1 args1] lb] w]|] eqn:E1; simpl; [|done].
  destruct (ref_prec l1) as [[l2 prec]|] eqn:E2; simpl; [|done].
  destruct (ref_length l2) as [[l3 lg] ll] eqn:E3.
  destruct l3 as [|c l4]; [done|]. intros [= <- <- <-]. subst l.
  pose proof (cstr_app_r _ _ _ _ Hs) as Hs0. rewrite length_app in Hf.
  assert (length l0 < fuel)%nat as Hf0 by lia.
  destruct (parse_width_ok _ _ _ _ _ _ _ _ _ _ _ Hs0 Hf0 Hargs E1) as (p1 & vs1 & -> & Ha1 & R1).
  pose proof (cstr_app_r _ _ _ _ Hs0) as Hs1. rewrite length_app in Hf.
  destruct (parse_prec_ok fuel (f + zlen p0 + zlen p1) l1 l2 prec (set_pargs vs1 p) Hs1 ltac:(lia) E2) as (p2 & -> & R2).
  pose proof (cstr_app_r _ _ _ _ Hs1) as Hs2.
  destruct (parse_length_ok (f + zlen p0 + zlen p1 + zlen p2) l2 (c :: l4) lg ll (set_pargs vs1 p) Hs2 E3) as (p3 & -> & R3).
  pose proof (cstr_app_r _ _ _ _ Hs2) as Hs3.
  exists (p0 ++ p1 ++ p2 ++ p3 ++ [c]), vs1. split; [by rewrite <- !app_assoc|]. split; [done|].
  split; [apply Hs3|]. unfold parse_flags. mstep. rewrite R0. mstep. rewrite R1. mstep. rewrite R2. mstep. rewrite R3.
  pld (proj1 Hs3). do 2 f_equal. rewrite !length_app. simpl. lia.
Qed.

(** ** Conversions *)

(** [c] puts exactly [l] into the sink. *)
Definition Emits (c : M pst unit) (l : list Z) : Prop :=
  forall p, sink_ok p (zlen l) -> c p = Done tt (emit l p).

Lemma Emits_putc c : 0 <= c < 256 -> Emits (sink_putc c) [c].
Proof. intros Hc p H. by apply putc_emit. Qed.

Lemma Emits_list l : bytes l -> Emits (for_each l sink_putc) l.
Proof. intros Hb p H. by apply for_each_emit. Qed.

Lemma Emits_pad n ch : 0 <= ch < 256 -> Emits (pad n ch) (repeat ch (Z.to_nat n)).
Proof.
  intros Hc. apply Emits_list. by induction (Z.to_nat n); constructor.
Qed.

Lemma Emits_when b c l : (b = true -> Emits c l) -> Emits (when b c) (if b then l else []).
Proof. intros H. destruct b; [by apply H|]. by intros p _. Qed.

Lemma Emits_bind c1 c2 l1 l2 : Emits c1 l1 -> Emits c2 l2 -> Emits (_ ← c1; c2) (l1 ++ l2).
Proof.
  intros H1 H2 p H. rewrite length_app in H. mstep. rewrite H1 by (eapply sink_ok_le; [|done]; lia).
  rewrite emit_app. apply H2. apply emit_ok; [lia|]. eapply sink_ok_le; [|done]. lia.
Qed.

Lemma Emits_eq c l l' : l = l' -> Emits c l -> Emits c l'.
Proof. by intros ->. Qed.

Lemma width_pad_spaces d n : repeat 32 (Z.to_nat (width_pad d n)) = spaces (d_width d - n).
Proof. unfold width_pad, spaces. f_equal. case_match; lia. Qed.
Lemma width_pad_zeros d n : repeat 48 (Z.to_nat (width_pad d n)) = zeros (d_width d - n).
Proof. unfold width_pad, zeros. f_equal. case_match; lia. Qed.

Lemma numeral_bytes base v t : numeral base v t -> bytes t.
Proof. intros (_ & _ & H). eapply Forall_impl; [done|]. intros x ?. blia. Qed.

Create HintDb emits.
#[export] Hint Extern 1 (bytes _) => (eapply numeral_bytes; eassumption) : emits.

(** Structural decomposition of a sequence of sink writes. *)
Ltac emits :=
  first
    [ apply Emits_pad; first [lia | case_match; lia]
    | apply Emits_putc; first [lia | apply (wrapu_range 8); lia]
    | apply Emits_list; eauto with emits
    | apply Emits_when; intros _; emits
    | apply Emits_bind; emits ].

Lemma Emits_number d prefix tmp :
  bytes prefix -> bytes tmp -> Emits (put_number d prefix tmp) (ufield d prefix tmp).
Proof.
  intros Hp Ht. unfold put_number, ufield.
  set (n := zlen prefix + zlen tmp).
  eapply Emits_eq; [|emits].
  rewrite width_pad_spaces. destruct (d_left d), (d_zero d); simpl;
    rewrite ?width_pad_spaces, ?width_pad_zeros, ?app_nil_r; done.
Qed.

Lemma temp_bytes room v base t : 2 <= base <= 16 -> temp_digits room v base = Some t -> bytes t.
Proof.
  intros Hb. revert v t. induction room as [|room IH]; intros v t; simpl; destruct (v =? 0); try done;
    try (intros [= <-]; constructor).
  destruct (temp_digits room (v / base) base) as [l|] eqn:E; simpl; [|done]. intros [= <-].
  constructor; [|by eapply IH].
  pose proof (hex_digit_range (v mod base)). pose proof (Z.mod_pos_bound v base). lia.
Qed.

Lemma temp_nonempty room v base t : temp_digits room v base = Some t -> v <> 0 -> (1 <= length t)%nat.
Proof.
  intros H Hv. destruct room as [|room]; simpl in H; rewrite (proj2 (Z.eqb_neq _ _)) in H by done; [done|].
  destruct (temp_digits room (v / base) base); simpl in H; simplify_eq. simpl. lia.
Qed.

Lemma uint_to_str_bytes v base t :
  2 <= base <= 16 -> uint_to_str v base false = Some t -> bytes t /\ (1 <= length t)%nat.
Proof.
  intros Hb. unfold uint_to_str. destruct (Z.eqb_spec v 0) as [E|E].
  - intros [= <-]. split; [apply Forall_singleton; lia|done].
  - destruct (temp_digits 32 v base) as [l|] eqn:Et; [|done].
    intros [= <-]. split; [apply Forall_rev; by eapply temp_bytes|].
    rewrite length_rev. by eapply temp_nonempty.
Qed.

Lemma frac_digits_spec n f l : frac_digits n f = Some l -> length l = n /\ bytes l.
Proof.
  revert f l. induction n as [|n IH]; intros f l; simpl.
  - intros [= <-]. split; [done|constructor].
  - destruct (ftrunc _) as [z|]; simpl; [|done].
    destruct (frac_digits n _) as [ds|] eqn:E; simpl; [|done]. intros [= <-].
    destruct (IH _ _ E) as [<- Hb]. split; [done|]. constructor; [|done].
    apply (wrapu_range 8). lia.
Qed.

(** A floating number prints as sign, integer digits, point and [precision]
    fraction characters. *)
Lemma float_to_str_spec v prec t :
  float_to_str v prec = Some t -> bytes t /\ zlen t >= 2 + Z.max 0 prec.
Proof.
  unfold float_to_str. set (neg := SFltb _ _). set (v' := if neg then SFopp v else v).
  destruct (ftrunc v') as [z|]; simpl; [|done]. destruct (4294967295 <? z) eqn:Ez; [done|].
  destruct (uint_to_str z 10 false) as [ib|] eqn:Ei; simpl; [|done].
  destruct (frac_digits _ _) as [fr|] eqn:Ef; simpl; [|done]. intros [= <-].
  destruct (frac_digits_spec _ _ _ Ef) as [Hl Hb].
  destruct (uint_to_str_bytes z 10 ib ltac:(lia) Ei) as [Hib Hil].
  split.
  - unfold bytes. rewrite !Forall_app, Forall_cons. split_and!; try done; try lia. destruct neg; [apply Forall_singleton; lia|constructor].
  - rewrite !length_app. simpl. lia.
Qed.

(** The character loop of [%s], for any way of fetching character [k] that
    stays right while the text is written. *)
Lemma fetch_loop (t : list Z) (fetch : nat -> M pst Z) (G : pst -> Z -> Prop) :
  bytes t ->
  (forall p n k c, G p n -> 0 <= n -> t !! k = Some c -> fetch k p = Done c p) ->
  (forall p c n, 0 <= n -> G p (1 + n) -> G (emit1 p c) n) ->
  forall n j p, (j + n <= length t)%nat -> G p (Z.of_nat n) -> sink_ok p (Z.of_nat n) ->
  for_each (seq j n) (fun k => c ← fetch k; sink_putc c) p = Done tt (emit (take n (drop j t)) p).
Proof.
  intros Hb Hfetch Hkeep n. induction n as [|n IH]; intros j p Hj HG Hok; simpl; [done|].
  destruct (lookup_lt_is_Some_2 t j) as [c Hc]; [lia|].
  assert (0 <= c < 256) as Hcb by (by eapply (Forall_lookup_1 _ _ _ _ Hb)).
  rewrite (drop_S _ _ _ Hc). simpl. mstep.
  rewrite (Hfetch _ _ _ _ HG ltac:(lia) Hc). mstep.
  rewrite putc_emit by (done || (eapply sink_ok_le; [|done]; lia)). mstep.
  replace (Z.of_nat (S n)) with (1 + Z.of_nat n) in * by lia.
  apply IH; [lia|apply Hkeep; [lia|done]|apply emit1_ok; [lia|done]].
Qed.

Lemma conv_s_tail fuel d str t p :
  bytes t -> zlen t <= INT32_MAX ->
  (str = NULL /\ t = null_text \/
   str <> NULL /\ cstr (p_mem p) str t /\ (length t < fuel)%nat /\
   outside p (zlen (field d [] (if 0 <=? d_prec d then take (Z.to_nat (d_prec d)) t else t) false)) str (zlen t + 1)) ->
  let out := field d [] (if 0 <=? d_prec d then take (Z.to_nat (d_prec d)) t else t) false in
  sink_ok p (zlen out) ->
  (len ← (if str =? NULL then mret (zlen null_text) else pmem (strlen fuel str));
   let len := if (0 <=? d_prec d) && (d_prec d <? i32 len) then d_prec d else len in
   let p := width_pad d (i32 len) in
   _ ← when (negb (d_left d)) (pad p 32);
   _ ← for_each (seq 0 (Z.to_nat len)) (fun k =>
         c ← (if str =? NULL then
                match null_text !! k with Some c => mret c | None => undefined end
              else pload (str + Z.of_nat k));
         sink_putc c);
   when (d_left d) (pad p 32)) p = Done tt (emit out p).
Proof.
  intros Hb Hz Hsrc out Hok. subst out.
  assert ((if str =? NULL then mret (zlen null_text) else pmem (strlen fuel str)) p = Done (zlen t) p) as Hlen.
  { destruct Hsrc as [[-> ->]|(Hn & Hs & Hf & _)]; [done|].
    rewrite (proj2 (Z.eqb_neq _ _)) by done. unfold pmem, zoom.
    rewrite (strlen_spec _ _ t) by done. by destruct p. }
  rewrite bind_run, Hlen. cbv zeta. rewrite !(i32_id (zlen t)) by (unfold INT32_MAX, INT32_MIN in *; lia).
  set (body := if 0 <=? d_prec d then take (Z.to_nat (d_prec d)) t else t) in *.
  set (len := if (0 <=? d_prec d) && (d_prec d <? zlen t) then d_prec d else zlen t).
  assert (body = take (Z.to_nat len) t /\ 0 <= len <= zlen t /\ zlen body = len) as (Hbody & Hlr & Hbl).
  { subst body len. destruct (Z.leb_spec 0 (d_prec d)); simpl; [destruct (Z.ltb_spec (d_prec d) (zlen t)); simpl|].
    - rewrite length_take. split_and!; try done; lia.
    - rewrite !take_ge by lia. split_and!; try done; lia.
    - rewrite take_ge by lia. split_and!; try done; lia. }
  rewrite (i32_id len) by (unfold INT32_MAX, INT32_MIN in *; lia).
  set (G := fun q n => str = NULL /\ t = null_text \/
    str <> NULL /\ cstr (p_mem q) str t /\ outside q n str (zlen t + 1)).
  set (fetch := fun k : nat => if str =? NULL then
      match null_text !! k with Some c => mret c | None => undefined end else pload (str + Z.of_nat k)).
  assert (forall q, G q (zlen body) -> sink_ok q (zlen body) ->
    for_each (seq 0 (Z.to_nat len)) (fun k => c ← fetch k; sink_putc c) q = Done tt (emit body q)) as Hloop.
  { intros q HG Hq. rewrite Hbody. rewrite <- (drop_0 t) at 1.
    replace (zlen body) with (Z.of_nat (Z.to_nat len)) in * by lia.
    apply (fetch_loop t fetch G); try done; [|..|lia].
    - intros p' n k c HG' Hn Hc. unfold fetch. destruct HG' as [[-> ->]|(Hnn & Hs & _)].
      + simpl. by rewrite Hc.
      + rewrite (proj2 (Z.eqb_neq _ _)) by done. rewrite pload_run.
        apply cstr_arr in Hs as [Ha _]. by rewrite (arr_lookup _ _ _ _ c Ha) by (by apply lookup_app_l_Some).
    - intros p' c n Hn [?|(Hnn & Hs & Ho)]; [by left|right]. split; [done|]. split.
      + apply (cstr_emit p' [c] n); done.
      + by apply (outside_emit p' [c] n). }
  assert (G p (zlen (field d [] body false))) as HG.
  { destruct Hsrc as [?|(? & ? & _ & ?)]; [by left|right; done]. }
  assert (forall l n, 0 <= n -> zlen l + n <= zlen (field d [] body false) -> G (emit l p) n) as HGe.
  { intros l n Hn Hle. destruct HG as [?|(? & ? & Ho)]; [by left|right].
    split_and!; [done|eapply (cstr_emit p l n)|apply outside_emit]; try done;
      (eapply outside_le; [|done]; lia). }
  fold fetch. unfold field in *. simpl in *. rewrite Z.add_0_l, Hbl in *.
  destruct (d_left d); simpl; mstep; rewrite ?app_nil_l in *.
  - rewrite length_app in *. rewrite Hloop.
    + rewrite emit_app, <- width_pad_spaces. apply Emits_pad; [lia|].
      rewrite width_pad_spaces. apply emit_ok; [lia|]. eapply sink_ok_le; [|done]. lia.
    + apply (HGe [] len); simpl; lia.
    + eapply sink_ok_le; [|done]. lia.
  - rewrite length_app in *.
    pose proof (Emits_pad (width_pad d len) 32 ltac:(lia) p) as Hpad. rewrite width_pad_spaces in Hpad.
    rewrite Hpad by (eapply sink_ok_le; [|done]; lia). mstep. rewrite Hloop.
    + by rewrite emit_app.
    + apply HGe; lia.
    + apply emit_ok; [lia|]. eapply sink_ok_le; [|done]. lia.
Qed.

(** The integer conversions after the argument has been read. *)
Lemma in_tmp_ok t p : (length t <= 22)%nat -> in_tmp (Some t) p = Done t p.
Proof. intros H. unfold in_tmp. by rewrite (proj2 (Z.leb_le _ _)) by lia. Qed.

Lemma unsigned_range d z : 0 <= unsigned_of d z <= UINT64_MAX.
Proof.
  unfold unsigned_of. case_match; [apply u64_range|].
  pose proof (wrapu_range 32 z). unfold u32, UINT64_MAX. lia.
Qed.

Lemma Emits_unsigned d v base t prefix :
  8 <= base <= 16 -> 0 <= v <= UINT64_MAX -> bytes prefix -> uint_to_str v base false = Some t ->
  Emits (tmp ← in_tmp (uint_to_str v base false); put_number d prefix tmp) (ufield d prefix t).
Proof.
  intros Hb Hv Hp Ht p Hok. destruct (uint_to_str_ok v base Hb Hv) as (t' & E & Hl & Hn).
  assert (t' = t) as -> by congruence. rewrite E. mstep. rewrite in_tmp_ok by lia.
  by apply Emits_number; [|eapply numeral_bytes|].
Qed.

(** The magnitude [conv_d] prints is the absolute value, [INT64_MIN] included. *)
Lemma magnitude v :
  INT64_MIN <= v <= INT64_MAX -> u64 (if v <? 0 then i64 (- v) else v) = Z.abs v.
Proof.
  intros Hv. destruct (Z.ltb_spec v 0).
  - destruct (decide (v = INT64_MIN)) as [->|]; [reflexivity|].
    rewrite i64_id by (unfold INT64_MIN, INT64_MAX in *; lia).
    rewrite u64_id by (unfold INT64_MIN, INT64_MAX, UINT64_MAX in *; lia). lia.
  - rewrite u64_id by (unfold INT64_MIN, INT64_MAX, UINT64_MAX in *; lia). lia.
Qed.

Lemma signed_range d z : INT64_MIN <= signed_of d z <= INT64_MAX.
Proof.
  unfold signed_of, INT64_MIN, INT64_MAX. case_match;
    [pose proof (wraps_range 64 z)|pose proof (wraps_range 32 z)]; unfold i64, i32; lia.
Qed.

Definition put_signed (d : directive) (val : Z) : M pst unit :=
  let negative := val <? 0 in
  let val := if negative then i64 (- val) else val in
  tmp ← in_tmp (uint_to_str (u64 val) 10 false);
  let total := zlen tmp + b2z negative in
  let p := width_pad d total in
  _ ← when (negb (d_left d) && negb (d_zero d)) (pad p 32);
  _ ← when negative (sink_putc 45);
  _ ← when (negb (d_left d) && d_zero d) (pad p 48);
  _ ← sink_puts tmp;
  when (d_left d) (pad p 32).

Lemma Emits_signed d v t :
  INT64_MIN <= v <= INT64_MAX -> uint_to_str (Z.abs v) 10 false = Some t ->
  Emits (put_signed d v) (field d (if v <? 0 then [45] else []) t (d_zero d)).
Proof.
  intros Hv Ht. unfold put_signed. cbv zeta. rewrite magnitude, Ht by done. intros p Hok. mstep.
  destruct (uint_to_str_ok (Z.abs v) 10 ltac:(lia) ltac:(unfold INT64_MIN, INT64_MAX, UINT64_MAX in *; lia))
    as (t' & E & Hl & Hn). assert (t' = t) as -> by congruence.
  rewrite in_tmp_ok by lia. revert p Hok.
  match goal with |- forall p, sink_ok p (zlen ?l) -> ?c p = _ => change (Emits c l) end.
  eapply Emits_eq; [|emits].
  rewrite width_pad_spaces, width_pad_zeros. unfold field.
  replace (zlen t + b2z (v <? 0)) with (zlen (if v <? 0 then [45] else []) + zlen t)
    by (destruct (v <? 0); simpl; lia).
  destruct (d_left d), (d_zero d), (v <? 0); simpl; rewrite ?app_nil_r; done.
Qed.

Lemma Emits_float d x prec t :
  fits (float_to_str x prec) = Some t ->
  Emits (tmp ← in_tmp (float_to_str x prec); put_number d [] tmp) (ufield d [] t).
Proof.
  intros Ht p Hok. unfold fits in Ht. destruct (float_to_str x prec) as [t'|] eqn:E; simpl in Ht; [|done].
  destruct (zlen t' + 1 <=? 64) eqn:El; simplify_eq. mstep. unfold in_tmp. rewrite El. mstep.
  apply Emits_number; [constructor| |done]. by eapply float_to_str_spec.
Qed.

Lemma Emits_char d z : Emits (_ ← when (negb (d_left d)) (pad (width_pad d 1) 32);
  _ ← sink_putc (u8 z); when (d_left d) (pad (width_pad d 1) 32)) (field d [] [u8 z] false).
Proof.
  eapply Emits_eq; [|emits].
  rewrite width_pad_spaces. unfold field. destruct (d_left d); simpl; rewrite ?app_nil_r; done.
Qed.

(** Running [Emits] code after an argument was taken. *)
Lemma run_emits c l vs p :
  Emits c l -> sink_ok p (zlen l) -> c (set_pargs vs p) = Done tt (set_pargs vs (emit l p)).
Proof. intros Hc Hok. rewrite Hc by done. by rewrite emit_set_args. Qed.

Lemma set_pargs_id p : set_pargs (p_args p) p = p.
Proof. by destruct p. Qed.

Lemma null_text_bytes : bytes null_text.
Proof. repeat constructor; lia. Qed.

Lemma emit_set_args_id l p : set_pargs (p_args p) (emit l p) = emit l p.
Proof. by rewrite <- emit_set_args, set_pargs_id. Qed.

Section convert_cases.
Context (fuel : nat) (d : directive) (p : pst).
Context (v : va) (vs : list va) (r : rarg).
Context (Hargs : p_args p = v :: vs) (Hv : arg_ok (p_mem p) v r).

Lemma conv_unsigned_ok z base t :
  8 <= base <= 16 -> rslot r = Some z -> uint_to_str (unsigned_of d z) base false = Some t ->
  sink_ok p (zlen (ufield d [] t)) ->
  conv_u base d p = Done tt (set_pargs vs (emit (ufield d [] t) p)).
Proof.
  intros Hb Hz Ht Hok. unfold conv_u, va_unsigned. mstep.
  pose proof (rslot_ok _ _ _ _ Hv Hz) as ->. rewrite (va_slot_run _ _ _ Hargs). mstep.
  rewrite <- bind_run. apply run_emits; [|done].
  apply (Emits_unsigned d (unsigned_of d z) base t []); try done; [apply unsigned_range|constructor].
Qed.

Lemma conv_p_ok z t :
  rslot r = Some z -> uint_to_str (u64 z) 16 false = Some t ->
  sink_ok p (zlen (ufield d [48; 120] t)) ->
  conv_p d p = Done tt (set_pargs vs (emit (ufield d [48; 120] t) p)).
Proof.
  intros Hz Ht Hok. unfold conv_p. mstep.
  pose proof (rslot_ok _ _ _ _ Hv Hz) as ->. rewrite (va_slot_run _ _ _ Hargs).
  apply (run_emits _ (ufield d [48; 120] t)); [|done].
  apply Emits_unsigned; try done; [apply u64_range|repeat constructor; lia].
Qed.

Lemma conv_d_ok z t :
  rslot r = Some z -> uint_to_str (Z.abs (signed_of d z)) 10 false = Some t ->
  let out := field d (if signed_of d z <? 0 then [45] else []) t (d_zero d) in
  sink_ok p (zlen out) -> conv_d d p = Done tt (set_pargs vs (emit out p)).
Proof.
  intros Hz Ht out Hok. unfold conv_d. rewrite bind_run.
  pose proof (rslot_ok _ _ _ _ Hv Hz) as ->. rewrite (va_slot_run _ _ _ Hargs).
  apply (run_emits (put_signed d (signed_of d z)) out); [|done].
  apply Emits_signed; [apply signed_range|done].
Qed.

Lemma conv_c_ok z :
  rslot r = Some z -> sink_ok p (zlen (field d [] [u8 z] false)) ->
  conv_c d p = Done tt (set_pargs vs (emit (field d [] [u8 z] false) p)).
Proof.
  intros Hz Hok. unfold conv_c. rewrite bind_run.
  pose proof (rslot_ok _ _ _ _ Hv Hz) as ->. rewrite (va_slot_run _ _ _ Hargs).
  apply run_emits; [apply Emits_char|done].
Qed.

Lemma conv_f_ok x prec t :
  r = RD x -> fits (float_to_str (double_to_float x) prec) = Some t ->
  sink_ok p (zlen (ufield d [] t)) ->
  conv_f d prec p = Done tt (set_pargs vs (emit (ufield d [] t) p)).
Proof.
  intros -> Ht Hok. unfold conv_f. rewrite bind_run. simpl in Hv. subst v.
  unfold va_double. rewrite Hargs.
  apply (run_emits _ (ufield d [] t)); [by apply Emits_float|done].
Qed.

Lemma conv_s_ok t :
  rtext r = Some t ->
  let out := field d [] (if 0 <=? d_prec d then take (Z.to_nat (d_prec d)) t else t) false in
  match r with
  | RS q t => (length t < fuel)%nat /\ outside p (zlen out) q (zlen t + 1)
  | _ => True
  end ->
  sink_ok p (zlen out) -> conv_s fuel d p = Done tt (set_pargs vs (emit out p)).
Proof.
  intros Ht out Ho Hok. subst out. unfold conv_s. rewrite bind_run. destruct r as [z|q t'|x]; simpl in Ht; [| |done].
  - destruct (Z.eqb_spec z 0) as [->|]; [|done]. simplify_eq. simpl in Hv. subst v.
    rewrite (va_slot_run _ _ _ Hargs). rewrite <- emit_set_args.
    apply conv_s_tail; try done; [apply null_text_bytes|by left].
  - simplify_eq. destruct Hv as (-> & Hn & Hs & Hz). destruct Ho as [Hl Ho].
    rewrite (va_slot_run _ _ _ Hargs). rewrite <- emit_set_args.
    apply conv_s_tail; try done.
    + apply cstr_nz in Hs. eapply Forall_impl; [done|]. intros; blia.
    + right. done.
Qed.
End convert_cases.

Lemma take_one_ok {A} fuel p n args args' (f : rarg -> option A) k t :
  take_one args f k = Some (t, args') -> args_ok fuel p n (p_args p) args ->
  exists v vs r x, p_args p = v :: vs /\ arg_ok (p_mem p) v r /\ args_ok fuel p n vs args' /\
    f r = Some x /\ k x = Some t /\
    match r with RS q t => (length t < fuel)%nat /\ outside p n q (zlen t + 1) | _ => True end.
Proof.
  unfold take_one. destruct args as [|r args0]; [done|]. intros Hr Hargs.
  inversion Hargs as [|v ? vs ? [Hv Ho] Hrest E]; subst.
  destruct (f r) as [x|] eqn:Ef; simpl in Hr; [|done].
  destruct (k x) as [t'|] eqn:Ek; simpl in Hr; simplify_eq. exists v, vs, r, x. done.
Qed.

Lemma convert_ok fuel d args args' t p n :
  render d args = Some (t, args') -> 0 < d_spec d < 256 -> zlen t <= n ->
  args_ok fuel p n (p_args p) args -> sink_ok p (zlen t) ->
  exists vs', args_ok fuel p n vs' args' /\
    convert fuel d p = Done tt (set_pargs vs' (emit t p)).
Proof.
  intros Hr Hc Hn Hargs Hok. unfold render, convert in *. cbv zeta in *.
  repeat match type of Hr with (if ?b then _ else _) = _ => destruct b end;
  match type of Hr with
  | take_one _ _ _ = _ =>
      destruct (take_one_ok _ _ _ _ _ _ _ _ Hr Hargs) as (v & vs & r & x & E & Hv & Hrest & Hf & Hk & Ho);
      exists vs; split; [done|]
  | _ => exists (p_args p); simplify_eq; split; [done|]; rewrite emit_set_args_id
  end.
  all: try match type of Hk with (_ ≫= _) = _ =>
    let E := fresh "Et" in apply bind_Some in Hk as (? & E & ?); simplify_eq end.
  - simplify_eq. eapply conv_s_ok; try done.
    destruct r; try done. destruct Ho as [? Ho]. split; [done|]. by eapply outside_le.
  - simplify_eq. by eapply conv_c_ok.
  - by eapply conv_d_ok.
  - by eapply conv_unsigned_ok.
  - by eapply conv_unsigned_ok.
  - destruct r as [| |x']; simplify_eq. by eapply conv_f_ok.
  - destruct r as [| |x']; simplify_eq. by eapply conv_f_ok.
  - by eapply conv_unsigned_ok.
  - by eapply conv_p_ok.
  - by apply (Emits_putc 37); [lia|].
  - by apply (Emits_bind (sink_putc 37) (sink_putc (d_spec d)) [37] [d_spec d]); [apply Emits_putc; lia..|].
Qed.

(** ** The engine refines the reference formatter *)

Lemma set_pargs_twice a b p : set_pargs a (set_pargs b p) = set_pargs a p.
Proof. done. Qed.

Lemma vformat_ok n outer fuel l f args out rest p :
  format_ref n l args = Some (out, rest) ->
  cstr (p_mem p) f l -> (length l < fuel)%nat -> (length l < outer)%nat ->
  args_ok fuel p (zlen out) (p_args p) args ->
  outside p (zlen out) f (zlen l + 1) -> sink_ok p (zlen out) ->
  exists vs, args_ok fuel (emit out p) 0 vs rest /\
    while outer (vformat_step fuel) f p = Done tt (set_pargs vs (emit out p)).
Proof.
  revert outer l f args out rest p. induction n as [|n IH]; intros outer l f args out rest p Href Hs Hf Hout Hargs Hfo Hok;
    [done|]. simpl in Href. (destruct outer as [|outer]; [lia|]). rewrite while_S. unfold vformat_step at 1.
  destruct l as [|c l]; simpl in Hs.
  - simplify_eq. exists (p_args p). split; [done|]. pld Hs. by rewrite emit_set_args_id.
  - destruct Hs as (Hc & Hcr & Hs). pld Hc. rewrite (proj2 (Z.eqb_neq c 0)) by lia. mstep.
    simpl in Hf, Hout, Hfo. destruct (Z.eqb_spec c 37) as [->|Hn37]; simpl in Href |- *.
    + destruct (ref_directive l args) as [[[l' args1] d]|] eqn:Ed; simpl in Href; [|done].
      destruct (render d args1) as [[t args2]|] eqn:Er; simpl in Href; [|done].
      destruct (format_ref n l' args2) as [[o r]|] eqn:Eo; simpl in Href; [|done]. simplify_eq.
      rewrite length_app in *.
      destruct (parse_directive_ok fuel (f + 1) l args l' args1 d p _ Hs ltac:(lia) Hargs Ed)
        as (pre & vs1 & -> & Ha1 & Hd & R1). mstep. rewrite R1. mstep.
      destruct (convert_ok fuel d args1 args2 t (set_pargs vs1 p) (Z.of_nat (length t + length o)))
        as (vs2 & Ha2 & R2); try done; try lia.
      { eapply sink_ok_le; [|exact Hok]. lia. }
      rewrite R2. mstep. rewrite emit_set_args, set_pargs_twice, emit_app.
      rewrite length_app in *.
      destruct (IH outer l' (f + 1 + zlen pre) args2 o rest (set_pargs vs2 (emit t p))) as (vs & Ha & R);
        try done; try lia.
      * apply (cstr_emit p t (zlen o)); [lia| |by apply cstr_app_r].
        intros a Ha. replace (zlen t + zlen o) with (Z.of_nat (length t + length o)) by lia. apply Hfo. lia.
      * apply (args_emit fuel p t (zlen o)); [lia|].
        by replace (zlen t + zlen o) with (Z.of_nat (length t + length o)) by lia.
      * apply (outside_emit p t (zlen o)); [lia|]. intros a Ha.
        replace (zlen t + zlen o) with (Z.of_nat (length t + length o)) by lia. apply Hfo. lia.
      * apply (emit_ok t p (zlen o)); [lia|]. eapply sink_ok_le; [|done]. lia.
      * exists vs. rewrite R, emit_set_args. split; [by rewrite emit_set_args in Ha|done].
    + destruct (format_ref n l args) as [[o r]|] eqn:Eo; simpl in Href; [|done]. simplify_eq. simpl in *.
      mstep. rewrite putc_emit; [|lia|eapply sink_ok_le; [|done]; lia]. mstep.
      replace (Z.of_nat (S (length o))) with (1 + zlen o) in * by lia.
      destruct (IH outer l (f + 1) args o rest (emit1 p c)) as (vs & Ha & R); try done; try lia.
      * apply (cstr_emit p [c] (zlen o)); [lia| |done]. intros a Ha. apply Hfo. lia.
      * pose proof (emit_args [c] p) as Hea. simpl in Hea. rewrite Hea.
        apply (args_emit fuel p [c] (zlen o)); [lia|done].
      * apply (outside_emit p [c] (zlen o)); [lia|]. intros a Ha. apply Hfo. lia.
      * apply (emit_ok [c] p (zlen o)); [lia|done].
      * by exists vs.
Qed.

(** ** The sinks in closed form *)

Lemma u64_add_l a b : u64 (u64 a + b) = u64 (a + b).
Proof. unfold u64, wrapu. by rewrite Zplus_mod_idemp_l. Qed.

Lemma u64_idem a : u64 (u64 a) = u64 a.
Proof. unfold u64, wrapu. by rewrite Zmod_mod. Qed.

(** A buffer sink keeps the first [size - 1] characters and counts them all. *)
Lemma emit_buffer l p :
  s_type (p_sink p) = SINK_BUFFER -> 0 <= s_pos (p_sink p) -> s_written (p_sink p) = u64 (s_written (p_sink p)) ->
  let s := p_sink p in
  let kept := take (Z.to_nat (s_size s - 1 - s_pos s)) l in
  emit l p =
  {| p_mem := wr (p_mem p) (s_buf s + s_pos s) kept; p_args := p_args p;
     p_sink := {| s_type := SINK_BUFFER; s_buf := s_buf s; s_size := s_size s;
                  s_pos := s_pos s + zlen kept; s_written := u64 (s_written s + zlen l) |};
     p_pbuf := p_pbuf p; p_writes := p_writes p |}.
Proof.
  revert p. induction l as [|c l IH]; intros [m args [ty buf size pos w] pb ws] Hty Hpos Hw; cbn in *; subst ty.
  - rewrite take_nil. simpl. by rewrite !Z.add_0_r, <- Hw.
  - match goal with |- foldl emit1 ?q l = _ => change (foldl emit1 q l) with (emit l q) end.
    rewrite IH by (unfold emit1; cbn; destruct (_ && _); cbn; try done; try lia; by rewrite u64_idem).
    unfold emit1; cbn. destruct (Z.ltb_spec 0 size), (Z.ltb_spec pos (size - 1)); cbn; rewrite u64_add_l;
      try lia.
    + replace (Z.to_nat (size - 1 - pos)) with (S (Z.to_nat (size - 1 - (pos + 1)))) by lia. simpl.
      f_equal; [f_equal; lia|]. f_equal; [lia|f_equal; lia].
    + replace (Z.to_nat (size - 1 - pos)) with 0%nat by lia. simpl. f_equal. f_equal. f_equal. lia.
    + replace (Z.to_nat (size - 1 - pos)) with 0%nat by lia. simpl. f_equal. f_equal. f_equal. lia.
Qed.

(** The console sink loses and reorders nothing: what was written to
    [HANDLE_STDOUT] followed by what is still buffered grows by the text. *)
Lemma emit_console l p :
  s_type (p_sink p) = SINK_CONSOLE ->
  concat (p_writes (emit l p)) ++ p_pbuf (emit l p) = concat (p_writes p) ++ p_pbuf p ++ l /\
  s_written (p_sink (emit l p)) = (if l then s_written (p_sink p) else u64 (s_written (p_sink p) + zlen l)) /\
  s_type (p_sink (emit l p)) = SINK_CONSOLE /\ p_mem (emit l p) = p_mem p.
Proof.
  revert p. induction l as [|c l IH]; intros p Hty; cbn.
  { rewrite app_nil_r. done. }
  assert (s_type (p_sink (emit1 p c)) = SINK_CONSOLE) as Ht1.
  { unfold emit1. rewrite Hty. cbn. destruct (_ || _); done. }
  destruct (IH _ Ht1) as (H1 & H2 & H3 & H4). unfold emit in *. rewrite H1, H2, H3, H4.
  unfold emit1. rewrite Hty. cbn. split_and!.
  - destruct (_ || _); cbn; rewrite ?concat_app; simpl; by rewrite ?app_nil_r, <- !app_assoc.
  - replace (Z.pos (Pos.of_succ_nat (length l))) with (1 + zlen l) by lia.
    destruct (_ || _); cbn; (destruct l; [done|rewrite u64_add_l; f_equal; simpl; lia]).
  - done.
  - by destruct (_ || _).
Qed.

(** ** vsnprintf *)

(** The bytes [q, q + k) are clear of the [n] bytes at [buffer]. *)
Definition clear_of (buffer n q k : Z) : Prop := q + k <= buffer \/ buffer + n <= q.

(** What a caller of the printf family provides: the format and the arguments,
    clear of the [n] bytes at [buffer] the call writes. *)
Definition call_ok (fuel : nat) (m : mem) (buffer n f : Z) (l : list Z) (vs : list va) (args : list rarg) : Prop :=
  f <> NULL /\ cstr m f l /\ (length l < fuel)%nat /\ clear_of buffer n f (zlen l + 1) /\
  Forall2 (fun v r => arg_ok m v r /\
    match r with
    | RS q t => (length t < fuel)%nat /\ clear_of buffer n q (zlen t + 1)
    | _ => True
    end) vs args.

Lemma vsnprintf_run fuel buffer size f l args n out rest p :
  format_ref n l args = Some (out, rest) -> 0 <= size -> zlen out <= UINT64_MAX ->
  call_ok fuel (p_mem p) buffer (Z.min (zlen out) (size - 1)) f l (p_args p) args ->
  mapped (p_mem p) buffer (Z.min (zlen out + 1) size) ->
  exists p', vsnprintf fuel buffer size f p = Done (i32 (zlen out)) p' /\
    p_mem p' = (if (buffer =? NULL) || (size =? 0) then wr (p_mem p) buffer (take (Z.to_nat (size - 1)) out)
                else wr (p_mem p) buffer (take (Z.to_nat (size - 1)) out ++ [0])) /\
    p_pbuf p' = p_pbuf p /\ p_writes p' = p_writes p.
Proof.
  intros Href Hsz Hlen (Hf & Hs & Hfl & Hcl & Hargs) Hmap. unfold vsnprintf.
  rewrite (proj2 (Z.eqb_neq _ _)) by done. unfold with_sink. mstep.
  set (p0 := set_psink _ p).
  assert (forall q k, clear_of buffer (Z.min (zlen out) (size - 1)) q k -> outside p0 (zlen out) q k) as Hclear.
  { intros q k Hc a Ha [_ Hw]. cbn in Hw. unfold clear_of in Hc. lia. }
  destruct (vformat_ok n fuel fuel l f args out rest p0) as (vs & _ & R); try done.
  { eapply Forall2_impl; [exact Hargs|]. intros v r [? Hr]. split; [done|]. destruct r; naive_solver. }
  { by apply Hclear. }
  { split; [done|]. intros a [_ Hw]. cbn in Hw. apply Hmap. lia. }
  unfold vformat_write. rewrite R, emit_buffer by (done || cbn; lia). cbn. mstep.
  rewrite !Z.sub_0_r, !Z.add_0_r. rewrite u64_id by lia. rewrite length_take.
  set (kept := take (Z.to_nat (size - 1)) out).
  destruct (buffer =? NULL); simpl; [eexists; split; [done|]; done|].
  destruct (Z.ltb_spec 0 size); mstep.
  2: { rewrite (proj2 (Z.eqb_eq size 0)) by lia. eexists; split; [done|]; done. }
  rewrite (proj2 (Z.leb_gt _ _)) by lia. rewrite (proj2 (Z.eqb_neq size 0)) by lia.
  unfold pmem, zoom. cbn. rewrite store8_some.
  - eexists. split; [done|]. cbn. split_and!; try done.
    rewrite wr_app. simpl. subst kept. rewrite length_take. do 2 f_equal.
  - apply (wr_mapped _ _ _ buffer (Z.min (zlen out + 1) size)); [done|]. lia.
Qed.

(** ** vprintf *)

Lemma vprintf_run fuel f l args n out rest p :
  format_ref n l args = Some (out, rest) -> zlen out <= UINT64_MAX ->
  call_ok fuel (p_mem p) 0 0 f l (p_args p) args ->
  zlen (p_pbuf p) < PRINTF_BUFFER_SIZE ->
  exists p', vprintf fuel f p = Done (i32 (zlen out)) p' /\ p_mem p' = p_mem p /\ p_pbuf p' = [] /\
    concat (p_writes p') = concat (p_writes p) ++ p_pbuf p ++ out.
Proof.
  intros Href Hlen (Hf & Hs & Hfl & Hcl & Hargs) Hpb. unfold vprintf, with_sink. mstep.
  set (p0 := set_psink console p).
  assert (forall q k, outside p0 (zlen out) q k) as Hclear by (intros q k a Ha [? _]; done).
  destruct (vformat_ok n fuel fuel l f args out rest p0) as (vs & _ & R); try done.
  { eapply Forall2_impl; [exact Hargs|]. intros v r [? Hr]. split; [done|]. destruct r; naive_solver. }
  { by split; [|intros a [? _]]. }
  unfold vformat_write. rewrite R.
  destruct (emit_console out p0 eq_refl) as (Hc & Hw & _ & Hm). unfold flush_printf_buffer. mstep. cbn in Hc, Hw, Hm |- *.
  assert (i32 (s_written (p_sink (emit out p0))) = i32 (zlen out)) as Hwr.
  { rewrite Hw. destruct out; [done|]. rewrite Z.add_0_l, u64_id by lia. done. }
  destruct (p_pbuf (emit out p0)) as [|b bs] eqn:Eb; cbn.
  - eexists. rewrite Hwr. split; [done|]. cbn. split_and!; try done. by rewrite app_nil_r in Hc.
  - eexists. rewrite Hwr. split; [done|]. cbn. split_and!; try done.
    rewrite concat_app. simpl. by rewrite app_nil_r, Hc.
Qed.

(** ** Properties *)

(** C14. [vsnprintf] refines the reference formatter: for every format and
    arguments the reference gives the text [out] for, the call returns [out]'s
    length, stores the first [size - 1] characters of [out] and a terminator at
    [buffer], and changes nothing else in memory and nothing on the console. The
    reference takes the texts of numbers from [uint_to_str], which
    [uint_to_str_roundtrip] pins, and from [float_to_str]. *)
Theorem vsnprintf_refines fuel buffer size f l args n out rest p :
  format_ref n l args = Some (out, rest) -> buffer <> NULL -> 0 < size -> zlen out <= INT32_MAX ->
  call_ok fuel (p_mem p) buffer (Z.min (zlen out) (size - 1)) f l (p_args p) args ->
  mapped (p_mem p) buffer (Z.min (zlen out + 1) size) ->
  exists p', vsnprintf fuel buffer size f p = Done (zlen out) p' /\
    p_mem p' = wr (p_mem p) buffer (take (Z.to_nat (size - 1)) out ++ [0]) /\
    p_pbuf p' = p_pbuf p /\ p_writes p' = p_writes p.
Proof.
  intros Href Hb Hsz Hlen Hcall Hmap.
  destruct (vsnprintf_run fuel buffer size f l args n out rest p) as (p' & R & Hm & Hp & Hw);
    try done; try (unfold INT32_MAX, UINT64_MAX in *; lia).
  exists p'. rewrite i32_id in R by (unfold INT32_MAX, INT32_MIN in *; lia).
  rewrite (proj2 (Z.eqb_neq buffer NULL)), (proj2 (Z.eqb_neq size 0)) in Hm by (done || lia). done.
Qed.

(** "%5d|%-4s|%08x" and "hi" in memory, 40 bytes of buffer at 1000. *)
Definition demo_fmt : list Z := [37; 53; 100; 124; 37; 45; 52; 115; 124; 37; 48; 56; 120].
Definition demo_st : pst :=
  {| p_mem := wr (wr (wr ∅ 100 (demo_fmt ++ [0])) 500 [104; 105; 0]) 1000 (repeat 170 40);
     p_args := [VI (-42); VI 500; VI 48879]; p_sink := console; p_pbuf := [65]; p_writes := [] |}.
Definition demo_args : list rarg := [RI (-42); RS 500 [104; 105]; RI 48879].
Definition demo_out : list Z :=
  [32; 32; 45; 52; 50; 124; 104; 105; 32; 32; 124; 48; 48; 48; 48; 66; 69; 69; 70].

Lemma demo_call b n :
  504 <= b \/ b + n <= 0 -> call_ok 20 (p_mem demo_st) b n 100 demo_fmt (p_args demo_st) demo_args.
Proof.
  intros Hc. split; [discriminate|]. split; [vm_compute; repeat split|]. split; [simpl; lia|].
  split; [unfold clear_of; simpl; lia|].
  apply Forall2_cons; split; [split; reflexivity|].
  apply Forall2_cons; split.
  { split; [split; [reflexivity|split; [discriminate|split; [vm_compute; repeat split|vm_compute; discriminate]]]|].
    split; [simpl; lia|unfold clear_of; simpl; lia]. }
  apply Forall2_cons; split; [split; reflexivity|constructor].
Qed.

Lemma vsnprintf_refines_witness :
  exists p', vsnprintf 20 1000 10 100 demo_st = Done 19 p' /\
    p_mem p' = wr (p_mem demo_st) 1000 ([32; 32; 45; 52; 50; 124; 104; 105; 32] ++ [0]).
Proof.
  destruct (vsnprintf_refines 20 1000 10 100 demo_fmt demo_args 20 demo_out [] demo_st) as (p' & R & Hm & _).
  - vm_compute. reflexivity.
  - discriminate.
  - lia.
  - vm_compute. discriminate.
  - apply demo_call. left. lia.
  - apply (mapped_check _ _ 10); vm_compute; [reflexivity|discriminate].
  - exists p'. split; [exact R|exact Hm].
Defined.

(** [vprintf] refines the reference formatter: whatever was pending in the
    static buffer and then exactly the formatted text reach [HANDLE_STDOUT], in
    order, whatever way the flushes cut it up; nothing stays buffered, memory is
    unchanged and the result is the number of characters. *)
Theorem vprintf_refines fuel f l args n out rest p :
  format_ref n l args = Some (out, rest) -> zlen out <= INT32_MAX ->
  call_ok fuel (p_mem p) 0 0 f l (p_args p) args -> zlen (p_pbuf p) < PRINTF_BUFFER_SIZE ->
  exists p', vprintf fuel f p = Done (zlen out) p' /\ p_mem p' = p_mem p /\ p_pbuf p' = [] /\
    concat (p_writes p') = concat (p_writes p) ++ p_pbuf p ++ out.
Proof.
  intros Href Hlen Hcall Hpb.
  destruct (vprintf_run fuel f l args n out rest p) as (p' & R & H); try done;
    try (unfold INT32_MAX, UINT64_MAX in *; lia).
  exists p'. by rewrite i32_id in R by (unfold INT32_MAX, INT32_MIN in *; lia).
Qed.

Lemma vprintf_refines_witness :
  exists p', vprintf 20 100 demo_st = Done 19 p' /\ concat (p_writes p') = 65 :: demo_out.
Proof.
  destruct (vprintf_refines 20 100 demo_fmt demo_args 20 demo_out [] demo_st) as (p' & R & _ & _ & Hw).
  - vm_compute. reflexivity.
  - vm_compute. discriminate.
  - apply demo_call. right. lia.
  - vm_compute. reflexivity.
  - exists p'. split; [exact R|exact Hw].
Defined.

(** The numbers the engine prints are right: for the bases the engine uses,
    [uint_to_str] never overruns [temp[32]], gives at most 22 characters (so
    that [tmp[64]] holds them), all of them digits of the base, and reading
    those digits back gives the value. *)
Theorem uint_to_str_roundtrip v base :
  8 <= base <= 16 -> 0 <= v <= UINT64_MAX ->
  exists t, uint_to_str v base false = Some t /\ (1 <= length t <= 22)%nat /\
    length (digits base t) = length t /\ dval base (digits base t) 0 = v.
Proof.
  intros Hb Hv. destruct (uint_to_str_ok v base Hb Hv) as (t & E & Hl & H1 & H2 & _).
  exists t. done.
Qed.

Lemma uint_to_str_roundtrip_witness :
  exists t, uint_to_str UINT64_MAX 8 false = Some t /\ dval 8 (digits 8 t) 0 = UINT64_MAX.
Proof.
  destruct (uint_to_str_roundtrip UINT64_MAX 8) as (t & E & _ & _ & H).
  - lia.
  - vm_compute. split; discriminate.
  - exists t. split; [exact E|exact H].
Defined.

Ltac zero_tests := change (is_dec 0) with false;
  repeat match goal with |- context [0 =? ?k] =>
    first [constr_eq k 0; fail 1 | change (0 =? k) with false] end.

(** A format that ends in a lone '%' makes the engine read past the
    terminator of the format: with nothing mapped behind the format, every call
    is undefined behaviour. *)
Theorem format_percent_overrun fuel p f :
  p_mem p !! f = Some 37 -> p_mem p !! (f + 1) = Some 0 -> p_mem p !! (f + 2) = None ->
  sink_ok p 2 -> ~ window p 2 (f + 2) -> (2 <= fuel)%nat ->
  vformat_write fuel f p = Undef.
Proof.
  intros H0 H1 H2 Hok Hw Hf. destruct fuel as [|[|fuel]]; [lia..|]. unfold vformat_write.
  rewrite while_S. unfold vformat_step at 1. pld H0. change (37 =? 0) with false. change (37 =? 37) with true. mstep.
  assert (parse_directive (S (S fuel)) (f + 1) p
    = Done (f + 1 + 1, {| d_left := false; d_zero := false; d_width := 0; d_prec := -1;
                      d_long := false; d_longlong := false; d_spec := 0 |}) p) as ->.
  { unfold parse_directive, parse_flags, parse_width, parse_dec, parse_prec, parse_length.
    mstep. rewrite while_S. pld H1. zero_tests. pld H1. zero_tests. mstep. rewrite while_S.
    pld H1. zero_tests. pld H1. zero_tests. pld H1. zero_tests. pld H1. done. }
  mstep. assert (forall d, d_spec d = 0 -> Emits (convert (S (S fuel)) d) [37; 0]) as He.
  { intros d Hd. unfold convert. rewrite Hd.
    apply (Emits_bind (sink_putc 37) (sink_putc 0) [37] [0]); apply Emits_putc; lia. }
  rewrite He by done. mstep. rewrite while_S. unfold vformat_step at 1. mstep.
  rewrite pload_run, emit_lookup; replace (f + 1 + 1) with (f + 2) by lia; [|done]. by rewrite H2.
Qed.

Lemma format_percent_overrun_witness :
  vformat_write 5 100 {| p_mem := wr ∅ 100 [37; 0]; p_args := []; p_sink := console; p_pbuf := []; p_writes := [] |}
  = Undef.
Proof.
  apply format_percent_overrun; try reflexivity.
  - split; [reflexivity|]. intros a [H _]. discriminate H.
  - intros [H _]. discriminate H.
  - lia.
Defined.
