(* ===== verification/Scan.v ===== *)
(** * stdio.c: the scanf engine

    [parse_uint64], [parse_int64], [parse_float] and [vsscanf_internal]. The
    variadic arguments are the addresses results are stored through; stores are
    little-endian at the width of the pointed-to type. *)

From stdpp Require Import base tactics list gmap numbers strings.
From Stdlib Require Import ZArith Lia.
From Stdlib Require SpecFloat.
From S2P Require Import Prelude.
From S2P Require Import Memory.
From S2P Require Import Ctype.
Import SpecFloat.

Definition skip_whitespace (fuel : nat) (str : Z) : M mem Z :=
  while fuel (fun str =>
    c ← load8 str;
    mret (if negb (c =? 0) && isspace c then inl (str + 1) else inr str)) str.

(** Hexadecimal digits only: the scanner's own digit test. *)
Definition scan_digit (c : Z) : option Z :=
  if (48 <=? c) && (c <=? 57) then Some (c - 48)
  else if (97 <=? c) && (c <=? 102) then Some (10 + (c - 97))
  else if (65 <=? c) && (c <=? 70) then Some (10 + (c - 65))
  else None.

(** [Some (p, val)]: success, the position after the digits and the value. *)
Definition parse_uint64_loop (fuel : nat) (base : Z) : Z * Z * bool -> M mem (option (Z * Z)) :=
  while (X := Z * Z * bool) (R := option (Z * Z)) fuel (fun '(p, val, has_digits) =>
    c ← load8 p;
    let stop := if (has_digits : bool) then inr (Some (p, val)) else inr None in
    if c =? 0 then mret stop
    else match scan_digit c with
         | None => mret stop
         | Some digit =>
             if base <=? digit then mret stop
             else if (UINT64_MAX - u64 digit) / u64 base <? val then mret (inr None)
             else mret (inl (p + 1, u64 (val * base + digit), true))
         end).

Definition parse_uint64 (fuel : nat) (s base : Z) : M mem (option (Z * Z)) :=
  parse_uint64_loop fuel base (s, 0, false).

Definition parse_int64 (fuel : nat) (s : Z) : M mem (option (Z * Z)) :=
  c ← load8 s;
  let '(sign, p) := if c =? 45 then (-1, s + 1) else if c =? 43 then (1, s + 1) else (1, s) in
  r ← parse_uint64 fuel p 10;
  mret (match r with
        | None => None
        | Some (p, uval) =>
            if INT64_MAX + (if sign <? 0 then 1 else 0) <? uval then None
            else Some (p, i64 (i64 uval * sign))
        end).

(** Doubles: [0.1] is the nearest binary64 value. *)
Definition d64 (m e : Z) : spec_float := binary_normalize 53 1024 m e false.
Definition d_of (z : Z) : spec_float := d64 z 0.
Definition d_tenth : spec_float := S754_finite false 7205759403792794 (-56).
Definition dmul := SFmul 53 1024.
Definition dadd := SFadd 53 1024.

Definition parse_float (fuel : nat) (s : Z) : M mem (option (Z * spec_float)) :=
  c ← load8 s;
  let '(sign, p) := if c =? 45 then (d_of (-1), s + 1) else if c =? 43 then (d_of 1, s + 1) else (d_of 1, s) in
  r ← while (X := Z * spec_float * bool) (R := Z * spec_float * bool) fuel (fun '(p, val, has) =>
        c ← load8 p;
        mret (if (48 <=? c) && (c <=? 57)
              then inl (p + 1, dadd (dmul val (d_of 10)) (d_of (c - 48)), true)
              else inr (p, val, has))) (p, S754_zero false, false);
  let '(p, val, has) := (r : Z * spec_float * bool) in
  c ← load8 p;
  r ← (if c =? 46 then
         while (X := Z * spec_float * spec_float * bool) (R := Z * spec_float * bool) fuel (fun '(p, val, frac, has) =>
           c ← load8 p;
           mret (if (48 <=? c) && (c <=? 57)
                 then inl (p + 1, dadd val (dmul (d_of (c - 48)) frac), dmul frac d_tenth, true)
                 else inr (p, val, has))) (p + 1, val, d_tenth, has)
       else mret (p, val, has));
  let '(p, val, has) := (r : Z * spec_float * bool) in
  mret (if (has : bool) then Some (p, dmul sign val) else None).

(** The IEEE encoding of a value with [prec] bits of precision. *)
Definition float_bits (prec emax : Z) (v : spec_float) : Z :=
  let fbits := prec - 1 in
  let top (s : bool) := (if s then 1 else 0) * (2 * emax) * 2 ^ fbits in
  match v with
  | S754_zero s => top s
  | S754_infinity s => top s + (2 * emax - 1) * 2 ^ fbits
  | S754_nan => (2 * emax - 1) * 2 ^ fbits + 2 ^ (fbits - 1)
  | S754_finite s m e =>
      if Zpos m <? 2 ^ fbits then top s + Zpos m
      else top s + (e + fbits + emax - 1) * 2 ^ fbits + (Zpos m - 2 ^ fbits)
  end.

Definition to_float32 (v : spec_float) : spec_float :=
  match v with
  | S754_finite s m e => binary_normalize 24 128 (cond_Zopp s (Zpos m)) e s
  | _ => v
  end.

(** ** vsscanf_internal *)

(** Memory and the pointer arguments still to be taken. *)
Record sst := { s_mem : mem; s_args : list Z }.

Definition smem {A} (c : M mem A) : M sst A :=
  zoom s_mem (fun m s => {| s_mem := m; s_args := s_args s |}) c.
Definition sload (p : Z) : M sst Z := smem (load8 p).

Definition va_ptr : M sst Z := fun s =>
  match s_args s with
  | a :: r => Done a {| s_mem := s_mem s; s_args := r |}
  | [] => Undef
  end.

(** [*va_arg(args, T* ) = v] for a type of [n] bytes. *)
Definition assign (n : nat) (v : Z) : M sst unit := a ← va_ptr; smem (storen n a v).

(** A conversion's options. *)
Record scan_opts := {
  o_suppress : bool; o_width : Z; o_long : bool; o_longlong : bool; o_short : bool; o_spec : Z
}.

Definition parse_opts (fuel : nat) (fmt : Z) : M sst (Z * scan_opts) :=
  r ← while (X := Z * bool) (R := Z * bool) fuel (fun '(fmt, suppress) =>
        c ← sload fmt;
        mret (if c =? 42 then inl (fmt + 1, true) else inr (fmt, suppress))) (fmt, false);
  let '(fmt, suppress) := (r : Z * bool) in
  r ← while (X := Z * Z) (R := Z * Z) fuel (fun '(fmt, width) =>
        c ← sload fmt;
        if (48 <=? c) && (c <=? 57) then
          if width * 10 + (c - 48) <=? INT32_MAX then mret (inl (fmt + 1, width * 10 + (c - 48)))
          else undefined
        else mret (inr (fmt, width))) (fmt, 0);
  let '(fmt, width) := (r : Z * Z) in
  c ← sload fmt;
  r ← (if c =? 104 then mret (fmt + 1, false, false, true)
       else if c =? 108 then
         c1 ← sload (fmt + 1);
         mret (if c1 =? 108 then (fmt + 2, false, true, false) else (fmt + 1, true, false, false))
       else if c =? 122 then mret (fmt + 1, false, true, false)
       else mret (fmt, false, false, false));
  let '(fmt, is_long, is_long_long, is_short) := (r : Z * bool * bool * bool) in
  spec ← sload fmt;
  mret (fmt + 1, {| o_suppress := suppress; o_width := width; o_long := is_long;
                    o_longlong := is_long_long; o_short := is_short; o_spec := spec |}).

(** The width of an integer result; [%x], [%o] and [%n] have no short form. *)
Definition int_size (o : scan_opts) (short : bool) : nat :=
  if o_longlong o then 8 else if o_long o then 8 else if short && o_short o then 2 else 4.

Definition store_unless_suppressed (o : scan_opts) (n : nat) (v matches : Z) : M sst Z :=
  if o_suppress o then mret matches else _ ← assign n v; mret (matches + 1).

(** Where the local array [wbuf[32]] is taken to be: it is a memory of its own. *)
Definition wbuf_addr : Z := 4096.

(** A conversion gives [Some (s, matches)] to go on and [None] for [goto done].
    [%d] with a width that cuts the number parses a copy of the first
    characters in [wbuf]. *)
Definition scan_capped (fuel : nat) (s width : Z) : M sst (option (Z * Z)) :=
  let wlen := if width <? 31 then width else 31 in
  bs ← smem (fun m =>
    match mapM (fun i => m !! (s + Z.of_nat i)) (seq 0 (Z.to_nat wlen)) with
    | Some bs => Done bs m
    | None => Undef
    end);
  match parse_int64 fuel wbuf_addr (mem_of wbuf_addr (bs ++ [0])) with
  | Done (Some (wp, v)) _ => mret (Some (s + (wp - wbuf_addr), v))
  | Done None _ => mret None
  | Undef => undefined
  | NoFuel => fun _ => NoFuel
  end.

Definition scan_int (fuel : nat) (o : scan_opts) (s matches : Z) : M sst (option (Z * Z)) :=
  r ← smem (parse_int64 fuel s);
  match r with
  | None => mret None
  | Some (tmp, v) =>
      r ← (if (0 <? o_width o) && (o_width o <? tmp - s) then scan_capped fuel s (o_width o)
           else mret (Some (tmp, v)));
      match (r : option (Z * Z)) with
      | None => mret None
      | Some (s, v) => m ← store_unless_suppressed o (int_size o true) v matches; mret (Some (s, m))
      end
  end.

Definition scan_uint (fuel : nat) (base : Z) (short : bool) (o : scan_opts) (s matches : Z)
    : M sst (option (Z * Z)) :=
  r ← smem (parse_uint64 fuel s base);
  match r with
  | None => mret None
  | Some (s, v) => m ← store_unless_suppressed o (int_size o short) v matches; mret (Some (s, m))
  end.

(** The optional "0x" of [%x] and [%p]. *)
Definition skip_0x (s : Z) : M sst Z :=
  c0 ← sload s;
  if c0 =? 48 then
    c1 ← sload (s + 1);
    mret (if (c1 =? 120) || (c1 =? 88) then s + 2 else s)
  else mret s.

Definition scan_ptr (fuel : nat) (o : scan_opts) (s matches : Z) : M sst (option (Z * Z)) :=
  r ← smem (parse_uint64 fuel s 16);
  match r with
  | None => mret None
  | Some (s, v) => m ← store_unless_suppressed o 8 v matches; mret (Some (s, m))
  end.

Definition scan_float (fuel : nat) (o : scan_opts) (s matches : Z) : M sst (option (Z * Z)) :=
  r ← smem (parse_float fuel s);
  match r with
  | None => mret None
  | Some (s, v) =>
      m ← (if o_long o then store_unless_suppressed o 8 (float_bits 53 1024 v) matches
           else store_unless_suppressed o 4 (float_bits 24 128 (to_float32 v)) matches);
      mret (Some (s, m))
  end.

(** [%s]: copies up to white space; [ptr] is NULL when suppressed. *)
Definition scan_str (fuel : nat) (o : scan_opts) (s matches : Z) : M sst (option (Z * Z)) :=
  ptr ← (if o_suppress o then mret NULL else va_ptr);
  r ← while (X := Z * Z * Z) (R := Z * Z * Z) fuel (fun '(s, ptr, n) =>
        c ← sload s;
        if negb (c =? 0) && negb (isspace c) then
          if (0 <? o_width o) && (o_width o <=? n) then mret (inr (s, ptr, n))
          else
            _ ← when (negb (ptr =? NULL)) (smem (store8 ptr c));
            mret (inl (s + 1, if ptr =? NULL then ptr else ptr + 1, n + 1))
        else mret (inr (s, ptr, n))) (s, ptr, 0);
  let '(s, ptr, n) := (r : Z * Z * Z) in
  if n =? 0 then mret None
  else
    _ ← when (negb (ptr =? NULL)) (smem (store8 ptr 0));
    mret (Some (s, if o_suppress o then matches else matches + 1)).

Definition scan_chars (fuel : nat) (o : scan_opts) (s matches : Z) : M sst (option (Z * Z)) :=
  let count := if 0 <? o_width o then o_width o else 1 in
  ptr ← (if o_suppress o then mret NULL else va_ptr);
  r ← while (X := Z * Z * Z) (R := option Z) fuel (fun '(k, s, ptr) =>
        if k <? count then
          c ← sload s;
          if c =? 0 then mret (inr None)
          else
            _ ← when (negb (ptr =? NULL)) (smem (store8 ptr c));
            mret (inl (k + 1, s + 1, if ptr =? NULL then ptr else ptr + 1))
        else mret (inr (Some s))) (0, s, ptr);
  match (r : option Z) with
  | None => mret None
  | Some s => mret (Some (s, if o_suppress o then matches else matches + 1))
  end.

Definition scan_n (str : Z) (o : scan_opts) (s matches : Z) : M sst (option (Z * Z)) :=
  _ ← (if o_suppress o then mret tt else assign (int_size o false) (s - str));
  mret (Some (s, matches)).

(** The [switch] on the specifier. *)
Definition scan_convert (fuel : nat) (str : Z) (o : scan_opts) (s matches : Z) : M sst (option (Z * Z)) :=
  let c := o_spec o in
  if (c =? 100) || (c =? 105) then scan_int fuel o s matches
  else if c =? 117 then scan_uint fuel 10 true o s matches
  else if (c =? 120) || (c =? 88) then s ← skip_0x s; scan_uint fuel 16 false o s matches
  else if c =? 111 then scan_uint fuel 8 false o s matches
  else if c =? 112 then s ← skip_0x s; scan_ptr fuel o s matches
  else if (c =? 102) || (c =? 103) || (c =? 71) || (c =? 101) || (c =? 69) then scan_float fuel o s matches
  else if c =? 115 then scan_str fuel o s matches
  else if c =? 99 then scan_chars fuel o s matches
  else if c =? 110 then scan_n str o s matches
  else mret None.

(** One turn of the loop; [inr] leaves it with the number of matches. *)
Definition scan_step (fuel : nat) (str : Z) : Z * Z * Z -> M sst (Z * Z * Z + Z) := fun '(fmt, s, matches) =>
  c ← sload fmt;
  if c =? 0 then mret (inr matches)
  else if isspace c then
    s ← smem (skip_whitespace fuel s); mret (inl (fmt + 1, s, matches))
  else if negb (c =? 37) then
    b ← sload s;
    mret (if negb (b =? c) then inr matches else inl (fmt + 1, s + 1, matches))
  else
    c1 ← sload (fmt + 1);
    if c1 =? 37 then
      b ← sload s;
      mret (if negb (b =? 37) then inr matches else inl (fmt + 2, s + 1, matches))
    else
      r ← parse_opts fuel (fmt + 1);
      let '(fmt, o) := (r : Z * scan_opts) in
      s ← (if negb (o_spec o =? 99) then smem (skip_whitespace fuel s) else mret s);
      b ← sload s;
      if (b =? 0) && negb (o_spec o =? 110) then mret (inr matches)
      else
        r ← scan_convert fuel str o s matches;
        match (r : option (Z * Z)) with
        | None => mret (inr matches)
        | Some (s, m) => mret (inl (fmt, s, m))
        end.

Definition vsscanf_internal (fuel : nat) (str fmt : Z) : M sst Z :=
  if (str =? NULL) || (fmt =? NULL) then mret (-1)
  else while fuel (scan_step fuel str) (fmt, str, 0).

Definition sscanf : nat -> Z -> Z -> M sst Z := vsscanf_internal.
