(* ===== verification/ScanFacts.v ===== *)
(** * Correctness of the scanf engine *)

From stdpp Require Import base tactics list gmap numbers strings.
From Stdlib Require Import ZArith Lia.
From S2P Require Import Prelude.
From S2P Require Import Memory.
From S2P Require Import Ctype.
From S2P Require Import CStringFacts.
From S2P Require Import NumConv.
From S2P Require Import Format.
From S2P Require Import FormatFacts.
From S2P Require Import Scan.

(** ** Numbers *)

(** The scanner's digit test agrees with the general one below base 16. *)
Lemma scan_digit_ok base b :
  base <= 16 ->
  match scan_digit b with Some d => if base <=? d then None else Some d | None => None end
  = match digit_of b with Some d => if base <=? d then None else Some d | None => None end.
Proof.
  intros Hb. unfold scan_digit, digit_of.
  destruct ((48 <=? b) && (b <=? 57)) eqn:E1; [done|].
  destruct ((97 <=? b) && (b <=? 102)) eqn:E2.
  { rewrite (proj2 (andb_true_iff _ _)) by lia. by replace (10 + (b - 97)) with (b - 97 + 10) by lia. }
  destruct ((65 <=? b) && (b <=? 70)) eqn:E3.
  { replace ((97 <=? b) && (b <=? 122)) with false by lia. replace ((65 <=? b) && (b <=? 90)) with true by lia.
    by replace (10 + (b - 65)) with (b - 65 + 10) by lia. }
  destruct ((97 <=? b) && (b <=? 122)) eqn:E4; [|destruct ((65 <=? b) && (b <=? 90)) eqn:E5; [|done]];
    rewrite (proj2 (Z.leb_le base _)) by lia; done.
Qed.

Lemma parse_uint64_loop_ok fuel base bs s acc has m :
  cstr m s bs -> (length bs < fuel)%nat -> 2 <= base <= 16 -> 0 <= acc <= UINT64_MAX ->
  let ds := digits base bs in
  parse_uint64_loop fuel base (s, acc, has) m =
  Done (if dval base ds acc <=? UINT64_MAX then
          if (if ds then has else true) then Some (s + zlen ds, dval base ds acc) else None
        else None) m.
Proof.
  unfold parse_uint64_loop. revert fuel s acc has. induction bs as [|b bs IH]; intros fuel s acc has Hs Hf Hb Ha;
    (destruct fuel as [|fuel]; simpl in Hf; [lia|]); rewrite while_S; simpl in Hs; cbv zeta.
  all: assert (acc <=? UINT64_MAX = true) as Hle by lia.
  - ld Hs. simpl. rewrite Hle. destruct has; mstep; by rewrite ?Z.add_0_r.
  - destruct Hs as (Hb0 & ? & Hs). ld Hb0. rewrite (proj2 (Z.eqb_neq b 0)) by lia.
    pose proof (scan_digit_ok base b ltac:(lia)) as Hd. rewrite digits_cons.
    destruct (digit_of b) as [d|] eqn:Ed; [destruct (Z.leb_spec base d)|];
      (destruct (scan_digit b) as [d'|]; [destruct (Z.leb_spec base d')|]); simplify_eq; simpl;
      rewrite ?Hle; try (destruct has; mstep; by rewrite ?Z.add_0_r).
    pose proof (digit_of_range _ _ Ed) as Hdr.
    assert (0 <= acc * base + d) as Hp by (pose proof (Z.mul_nonneg_nonneg acc base); lia).
    pose proof (dval_ge base (digits base bs) (acc * base + d) ltac:(lia) Hp (digits_nonneg _ _)) as Hge.
    rewrite (u64_id d) by (unfold UINT64_MAX; lia). change UINT64_MAX with ULONG_MAX at 1.
    rewrite ull_test by (unfold ULONG_MAX, UINT64_MAX; lia). unfold dval in *. simpl. unfold ULONG_MAX.
    destruct (Z.ltb_spec UINT64_MAX (acc * base + d)).
    + rewrite (proj2 (Z.leb_gt _ _)) by lia. by mstep.
    + mstep. rewrite (u64_id (acc * base + d)) by lia. rewrite IH by (done || lia).
      replace (s + 1 + zlen (digits base bs)) with (s + Z.of_nat (S (length (digits base bs)))) by lia.
      by destruct (digits base bs).
Qed.

Definition scan_uint_ref (base : Z) (bs : list Z) : option (nat * Z) :=
  let ds := digits base bs in
  if bool_decide (ds = []) || (UINT64_MAX <? dval base ds 0) then None
  else Some (length ds, dval base ds 0).

Lemma parse_uint64_ok fuel base bs s m :
  cstr m s bs -> (length bs < fuel)%nat -> 2 <= base <= 16 ->
  parse_uint64 fuel s base m =
  Done (match scan_uint_ref base bs with Some (n, v) => Some (s + Z.of_nat n, v) | None => None end) m.
Proof.
  intros Hs Hf Hb. unfold parse_uint64, scan_uint_ref.
  rewrite (parse_uint64_loop_ok _ _ bs) by (done || (unfold UINT64_MAX; lia)).
  destruct (digits base bs) as [|d ds]; [done|]. rewrite bool_decide_eq_false_2 by done. simpl.
  rewrite Z.ltb_antisym. by destruct (_ <=? UINT64_MAX).
Qed.

(** A signed number: its length and value. *)
Definition scan_int_ref (bs : list Z) : option (nat * Z) :=
  let neg := first bs =? 45 in
  let k := if neg || (first bs =? 43) then 1%nat else 0%nat in
  match scan_uint_ref 10 (drop k bs) with
  | None => None
  | Some (n, v) =>
      if signed_cut neg <? v then None else Some ((k + n)%nat, apply_sign neg v)
  end.

Lemma parse_int64_ok fuel bs s m :
  cstr m s bs -> (length bs < fuel)%nat ->
  parse_int64 fuel s m =
  Done (match scan_int_ref bs with Some (n, v) => Some (s + Z.of_nat n, v) | None => None end) m.
Proof.
  intros Hs Hf. unfold parse_int64, scan_int_ref. ld (cstr_first _ _ _ Hs).
  set (k := if (first bs =? 45) || (first bs =? 43) then 1%nat else 0%nat).
  assert (k <= length bs)%nat as Hk.
  { subst k. destruct bs; simpl; [done|]. case_match; lia. }
  pose proof (cstr_drop _ _ _ _ Hs Hk) as Hd.
  assert (length (drop k bs) < fuel)%nat as Hl by (rewrite length_drop; lia).
  assert ((if first bs =? 45 then (-1, s + 1) else if first bs =? 43 then (1, s + 1) else (1, s))
    = (if first bs =? 45 then -1 else 1, s + Z.of_nat k)) as ->.
  { subst k. destruct (first bs =? 45), (first bs =? 43); simpl; f_equal; lia. }
  mstep. rewrite (parse_uint64_ok _ _ _ _ _ Hd Hl) by lia. mstep.
  unfold scan_uint_ref. destruct (bool_decide (digits 10 (drop k bs) = [])); [done|]. rewrite orb_false_l.
  destruct (Z.ltb_spec UINT64_MAX (dval 10 (digits 10 (drop k bs)) 0)) as [|E]; [done|].
  pose proof (dval_ge 10 (digits 10 (drop k bs)) 0 ltac:(lia) ltac:(lia) (digits_nonneg _ _)) as Hv.
  set (v := dval 10 (digits 10 (drop k bs)) 0) in *.
  replace (INT64_MAX + (if (if first bs =? 45 then -1 else 1) <? 0 then 1 else 0)) with (signed_cut (first bs =? 45))
    by (by destruct (first bs =? 45)).
  destruct (Z.ltb_spec (signed_cut (first bs =? 45)) v) as [|Hle]; [done|].
  do 2 f_equal. f_equal; [lia|]. destruct (signed_in_range _ v (conj Hv Hle)) as [H1 H2].
  unfold apply_sign, clamp_long in *. unfold LONG_MAX, LONG_MIN, INT64_MIN, INT64_MAX in *.
  destruct (first bs =? 45).
  - replace (i64 v * -1) with (- i64 v) by lia. rewrite H1. lia.
  - rewrite Z.mul_1_r, H1, i64_id; unfold INT64_MIN, INT64_MAX; lia.
Qed.

(** ** sscanf of one decimal number *)

Lemma sload_run p s : sload p s = match s_mem s !! p with Some b => Done b s | None => Undef end.
Proof. destruct s. unfold sload, smem, zoom, load8. simpl. by destruct (_ !! p). Qed.

Lemma smem_run {A} (c : M mem A) a m m' args :
  c m = Done a m' ->
  smem c {| s_mem := m; s_args := args |} = Done a {| s_mem := m'; s_args := args |}.
Proof. unfold smem, zoom. simpl. by intros ->. Qed.

Ltac sld H := mstep; rewrite sload_run; cbn [s_mem]; rewrite H; zconst; mstep.

(** The format "%d" at [f]. *)
Definition fmt_d : list Z := [37; 100].

Lemma skip_whitespace_none fuel s bs m :
  cstr m s bs -> isspace (first bs) = false -> (0 < fuel)%nat -> skip_whitespace fuel s m = Done s m.
Proof.
  intros Hs Hn Hf. destruct fuel; [lia|]. unfold skip_whitespace. rewrite while_S.
  ld (cstr_first _ _ _ Hs). by rewrite Hn, andb_false_r.
Qed.

Lemma parse_opts_d fuel f m args :
  cstr m f fmt_d -> (0 < fuel)%nat ->
  parse_opts fuel (f + 1) {| s_mem := m; s_args := args |} =
  Done (f + 2, {| o_suppress := false; o_width := 0; o_long := false; o_longlong := false;
                  o_short := false; o_spec := 100 |}) {| s_mem := m; s_args := args |}.
Proof.
  intros Hf Hfu. destruct fuel; [lia|]. destruct Hf as (_ & _ & Hd & _). unfold parse_opts. mstep.
  rewrite while_S. sld Hd. zconst. mstep. rewrite while_S. sld Hd. zconst. sld Hd. zconst. sld Hd.
  by replace (f + 1 + 1) with (f + 2) by lia.
Qed.

Lemma sscanf_d fuel str f a bs v n m :
  str <> NULL -> f <> NULL -> cstr m str bs -> cstr m f fmt_d -> (length bs < fuel)%nat -> (2 <= fuel)%nat ->
  isspace (first bs) = false -> scan_int_ref bs = Some (n, v) ->
  mapped m a 4 -> clear_of a 4 f 3 ->
  sscanf fuel str f {| s_mem := m; s_args := [a] |} =
  Done 1 {| s_mem := wr m a (to_le 4 v); s_args := [] |}.
Proof.
  intros Hn1 Hn2 Hs Hf Hl Hfu Hsp Hv Hm Hc. unfold sscanf, vsscanf_internal.
  rewrite (proj2 (Z.eqb_neq str NULL)), (proj2 (Z.eqb_neq f NULL)) by done. mstep.
  destruct fuel as [|[|fuel]]; [lia..|]. rewrite while_S. unfold scan_step at 1.
  pose proof Hf as (Hp & _ & Hd & _ & H0). sld Hp. change (isspace 37) with false. mstep. sld Hd.
  rewrite (parse_opts_d (S (S fuel)) f m [a] Hf ltac:(lia)). mstep. cbn [o_spec]. zconst. mstep.
  assert (0 < S (S fuel))%nat as Hpos by lia.
  rewrite (smem_run _ _ _ _ _ (skip_whitespace_none _ _ _ _ Hs Hsp Hpos)). cbn [s_mem s_args].
  sld (cstr_first _ _ _ Hs).
  assert (first bs <> 0) as Hnz by (intros E; destruct bs; [done|]; simpl in *; lia).
  rewrite (proj2 (Z.eqb_neq _ _)) by done. unfold scan_convert. cbn [o_spec]. zconst. mstep.
  unfold scan_int. pose proof (parse_int64_ok _ _ _ _ Hs Hl) as Hpi. rewrite Hv in Hpi. mstep.
  rewrite (smem_run _ _ _ _ _ Hpi). cbn [o_width s_args]. zconst. mstep.
  unfold store_unless_suppressed, assign. cbn [o_suppress]. mstep. unfold va_ptr. cbn [s_args]. mstep.
  change (int_size _ true) with 4%nat. cbn [s_mem].
  rewrite (smem_run _ _ _ _ _ (storen_run 4 a v m Hm)). cbn [s_args]. mstep.
  rewrite while_S. unfold scan_step at 1.
  replace (f + 1 + 1) with (f + 2) in H0 by lia.
  assert (wr m a (to_le 4 v) !! (f + 2) = Some 0) as H0'.
  { rewrite lookup_wr_out; [done|]. rewrite length_to_le. unfold clear_of in Hc. lia. }
  sld H0'. done.
Qed.

(** ** Printing and scanning *)

Definition decimal_text (v : Z) (t : list Z) : list Z := (if v <? 0 then [45] else []) ++ t.

Lemma format_d v t :
  INT32_MIN <= v <= INT32_MAX -> uint_to_str (Z.abs v) 10 false = Some t ->
  format_ref 3 fmt_d [RI v] = Some (decimal_text v t, []).
Proof.
  intros Hv Ht. unfold fmt_d, format_ref. zconst. simpl negb. cbv iota.
  change (ref_directive [100] [RI v]) with
    (Some ([] : list Z, [RI v], {| d_left := false; d_zero := false; d_width := 0; d_prec := -1;
                        d_long := false; d_longlong := false; d_spec := 100 |})).
  cbn [mbind option_bind]. unfold render, take_one. cbn [d_spec d_long d_longlong rslot]. zconst.
  cbn [orb mbind option_bind]. unfold signed_of. cbn [d_long d_longlong orb].
  rewrite i32_id, Ht by done. cbn [mbind option_bind fst snd]. unfold field, decimal_text. cbn [d_left d_width d_zero].
  rewrite app_nil_r. unfold spaces.
  replace (Z.to_nat (0 - _)) with 0%nat by lia. done.
Qed.

Lemma numeral_scan v t :
  INT32_MIN <= v <= INT32_MAX -> numeral 10 (Z.abs v) t -> (1 <= length t)%nat ->
  scan_int_ref (decimal_text v t) = Some (length (decimal_text v t), v) /\
  isspace (first (decimal_text v t)) = false /\ Forall (fun b => 0 < b < 256) (decimal_text v t).
Proof.
  intros Hv (H1 & H2 & H3) Hl. unfold scan_int_ref, decimal_text.
  assert (Forall (fun b => 0 < b < 256) t) as Hb by (eapply Forall_impl; [done|]; intros; blia).
  assert (scan_uint_ref 10 t = Some (length t, Z.abs v)) as Hs.
  { unfold scan_uint_ref. rewrite H2. destruct (digits 10 t) eqn:E; [simpl in H1; lia|].
    rewrite bool_decide_eq_false_2 by done. rewrite <- H1.
    replace (UINT64_MAX <? Z.abs v) with false by (unfold UINT64_MAX, INT32_MIN, INT32_MAX in *; lia). done. }
  assert (48 <= first t <= 70) as Hf by (destruct t; simpl in *; [lia|]; by apply Forall_cons in H3 as [? _]).
  destruct (Z.ltb_spec v 0); simpl.
  - split_and!; [|done|constructor; [lia|done]]. rewrite drop_0, Hs.
    rewrite (proj2 (Z.ltb_ge _ _)) by (unfold signed_cut, LONG_MAX, INT64_MAX, INT32_MIN, INT32_MAX in *; lia).
    unfold apply_sign. do 2 f_equal. lia.
  - split_and!; [|rewrite isspace_ref by lia; unfold space_ref, within; lia|done].
    rewrite (proj2 (Z.eqb_neq (first t) 45)), (proj2 (Z.eqb_neq (first t) 43)) by lia. simpl. rewrite drop_0, Hs.
    rewrite (proj2 (Z.ltb_ge _ _)) by (unfold signed_cut, LONG_MAX, INT64_MAX, INT32_MIN, INT32_MAX in *; lia).
    unfold apply_sign. do 2 f_equal. lia.
Qed.

(** Printing and scanning are inverse: an [int] printed with [snprintf]
    and "%d" into a buffer of at least 24 bytes and read back with [sscanf] and
    "%d" gives one match and stores the same four bytes. *)
Theorem print_scan_roundtrip fuel buffer size f a v p :
  INT32_MIN <= v <= INT32_MAX -> p_args p = [VI v] -> (24 <= fuel)%nat -> 24 <= size ->
  buffer <> NULL -> f <> NULL -> cstr (p_mem p) f fmt_d ->
  mapped (p_mem p) buffer 24 -> mapped (p_mem p) a 4 ->
  clear_of buffer 24 f 3 -> clear_of a 4 f 3 ->
  exists n p', snprintf fuel buffer size f p = Done n p' /\
    sscanf fuel buffer f {| s_mem := p_mem p'; s_args := [a] |} =
    Done 1 {| s_mem := wr (p_mem p') a (to_le 4 v); s_args := [] |}.
Proof.
  intros Hv Hargs Hfu Hsz Hb Hf Hs Hmb Hma Hcb Hca. unfold snprintf.
  rewrite (proj2 (Z.eqb_neq f NULL)), (proj2 (Z.eqb_neq size 0)), (proj2 (Z.eqb_neq buffer NULL)) by (done || lia).
  destruct (uint_to_str_ok (Z.abs v) 10) as (t & Et & Hl & Hn); [lia|unfold UINT64_MAX, INT32_MIN, INT32_MAX in *; lia|].
  destruct (numeral_scan v t Hv Hn ltac:(lia)) as (Hscan & Hsp & Hbytes).
  assert (length (decimal_text v t) <= 23)%nat as Hlen
    by (unfold decimal_text; rewrite length_app; destruct (v <? 0); simpl; lia).
  destruct (vsnprintf_run fuel buffer size f fmt_d [RI v] 3 (decimal_text v t) [] p) as (p' & R & Hm & _).
  - by apply format_d.
  - lia.
  - unfold UINT64_MAX. lia.
  - split_and!; try done; [simpl; lia| |].
    + unfold clear_of in *. simpl. lia.
    + rewrite Hargs. apply Forall2_cons. split; [done|constructor].
  - intros x Hx. apply Hmb. lia.
  - rewrite (proj2 (Z.eqb_neq buffer NULL)), (proj2 (Z.eqb_neq size 0)) in Hm by (done || lia). simpl in Hm.
    rewrite take_ge in Hm by lia. do 2 eexists. split; [exact R|].
    assert (cstr (p_mem p') buffer (decimal_text v t)) as Hbuf by (rewrite Hm; by apply cstr_wr).
    apply (sscanf_d _ _ _ _ (decimal_text v t) _ (length (decimal_text v t))); try done; try lia.
    + rewrite Hm. apply cstr_wr_out; [|done]. rewrite length_app. unfold clear_of in Hcb. simpl. lia.
    + rewrite Hm. by apply wr_mapped.
Qed.

Lemma print_scan_roundtrip_witness :
  exists n p', snprintf 30 1000 30 100
      {| p_mem := wr (wr (wr ∅ 100 (fmt_d ++ [0])) 1000 (repeat 170 30)) 2000 [0; 0; 0; 0];
         p_args := [VI (-2147483648)]; p_sink := console; p_pbuf := []; p_writes := [] |} = Done n p' /\
    sscanf 30 1000 100 {| s_mem := p_mem p'; s_args := [2000] |} =
    Done 1 {| s_mem := wr (p_mem p') 2000 [0; 0; 0; 128]; s_args := [] |}.
Proof.
  apply (print_scan_roundtrip 30 1000 30 100 2000 (-2147483648)); try discriminate.
  - vm_compute. split; discriminate.
  - reflexivity.
  - lia.
  - vm_compute. repeat split.
  - apply (mapped_check _ _ 24); vm_compute; [reflexivity|discriminate].
  - apply (mapped_check _ _ 4); vm_compute; [reflexivity|discriminate].
  - left. vm_compute. discriminate.
  - left. vm_compute. discriminate.
Defined.
