(* ===== verification/Stream.v ===== *)
(** * stdio.c: streams

    A [FILE] over a backend: the backend's state has a type [B], and the
    vtable [cookie_io_functions_t] is a record of optional operations on it. The
    block the stream buffers writes in is private to the stream, so it is the
    list of its first [buf_pos] bytes; caller memory is byte-addressed. A malloc
    can fail: the operations that allocate take whether it does not. *)

From stdpp Require Import base tactics list gmap numbers strings.
From Stdlib Require Import ZArith Lia.
From S2P Require Import Prelude.
From S2P Require Import Memory.
From S2P Require Import CString.
From S2P Require Import NumConv.
From S2P Require Import Format.

(** ** Data *)

Definition FILE_EOF : Z := -1.
Definition EBADH : Z := 9.
Definition ENOMEM : Z := 12.
Definition SEEK_SET : Z := 0.
Definition SEEK_CUR : Z := 1.
Definition SEEK_END : Z := 2.

(** [read] returns its result and the bytes it stored, [seek] its result and
    the new value of [*offset]. *)
Record io_funcs (B : Type) := {
  io_read : option (Z -> M B (Z * list Z));
  io_write : option (list Z -> M B Z);
  io_seek : option (Z -> Z -> M B (Z * Z));
  io_close : option (M B Z)
}.
Arguments io_read {B}.
Arguments io_write {B}.
Arguments io_seek {B}.
Arguments io_close {B}.

Record FILE (B : Type) := {
  handle : Z;
  error : Z;
  eof : Z;
  unget_char : Z;
  buffer : option (list Z);
  buf_size : Z;
  io : io_funcs B
}.
Arguments handle {B}.
Arguments error {B}.
Arguments eof {B}.
Arguments unget_char {B}.
Arguments buffer {B}.
Arguments buf_size {B}.
Arguments io {B}.

(** [buf_pos]: how much of the block is filled. *)
Definition buf_pos {B} (f : FILE B) : Z :=
  match buffer f with Some l => zlen l | None => 0 end.

(** What [fflush] looks at besides the stream: whether the stream is [stdout],
    [printf_buffer[0 .. printf_pos)], and what was written to [HANDLE_STDOUT]
    from there. *)
Record std := { is_stdout : bool; printf_buffer : list Z; console : list (list Z) }.

Record sys (B : Type) := {
  y_file : FILE B;
  y_be : B;
  y_mem : mem;
  y_errno : Z;
  y_std : std
}.
Arguments y_file {B}.
Arguments y_be {B}.
Arguments y_mem {B}.
Arguments y_errno {B}.
Arguments y_std {B}.

Section ops.
Context {B : Type}.
Implicit Types (f : FILE B).

Definition set_file f (y : sys B) : sys B :=
  {| y_file := f; y_be := y_be y; y_mem := y_mem y; y_errno := y_errno y; y_std := y_std y |}.
Definition set_be b (y : sys B) : sys B :=
  {| y_file := y_file y; y_be := b; y_mem := y_mem y; y_errno := y_errno y; y_std := y_std y |}.
Definition set_yerrno e (y : sys B) : sys B :=
  {| y_file := y_file y; y_be := y_be y; y_mem := y_mem y; y_errno := e; y_std := y_std y |}.
Definition ymem {A} (c : M mem A) : M (sys B) A :=
  zoom y_mem (fun m y => {| y_file := y_file y; y_be := y_be y; y_mem := m; y_errno := y_errno y; y_std := y_std y |}) c.

Definition upd_error f e : FILE B :=
  {| handle := handle f; error := e; eof := eof f; unget_char := unget_char f;
     buffer := buffer f; buf_size := buf_size f; io := io f |}.
Definition upd_eof f e : FILE B :=
  {| handle := handle f; error := error f; eof := e; unget_char := unget_char f;
     buffer := buffer f; buf_size := buf_size f; io := io f |}.
Definition upd_unget f c : FILE B :=
  {| handle := handle f; error := error f; eof := eof f; unget_char := c;
     buffer := buffer f; buf_size := buf_size f; io := io f |}.
Definition upd_buffer f b n : FILE B :=
  {| handle := handle f; error := error f; eof := eof f; unget_char := unget_char f;
     buffer := b; buf_size := n; io := io f |}.

Definition on_file (g : FILE B -> FILE B) : M (sys B) unit := modify (fun y => set_file (g (y_file y)) y).

(** The bytes at a pointer of the caller. *)
Definition fetch (ptr : Z) (n : Z) : M (sys B) (list Z) := fun y =>
  match mapM (fun i => y_mem y !! (ptr + Z.of_nat i)) (seq 0 (Z.to_nat n)) with
  | Some l => Done l y
  | None => Undef
  end.

(** Stores bytes at a pointer of the caller. *)
Definition put_bytes (ptr : Z) (l : list Z) : M (sys B) unit :=
  for_each (imap (fun i b => (ptr + Z.of_nat i, b)) l) (fun '(a, b) => ymem (store8 a b)).

(** A call through the vtable. *)
Definition call_be {A} (c : M B A) : M (sys B) A := zoom y_be set_be c.

(** ** Reading *)

Definition fgetc : M (sys B) Z :=
  f ← gets y_file;
  if negb (unget_char f =? -1) then
    _ ← on_file (fun f => upd_unget f (-1)); mret (unget_char f)
  else if negb (eof f =? 0) then mret (-1)
  else match io_read (io f) with
       | None => _ ← on_file (fun f => upd_error f 1); mret (-1)
       | Some rd =>
           r ← call_be (rd 1);
           let '(n, l) := (r : Z * list Z) in
           if n =? 0 then _ ← on_file (fun f => upd_eof f 1); mret (-1)
           else if n <? 0 then _ ← on_file (fun f => upd_error f 1); mret (-1)
           else match l with c :: _ => mret c | [] => undefined end
       end.

Definition ungetc (c : Z) : M (sys B) Z :=
  if c =? -1 then mret (-1)
  else
    _ ← on_file (fun f => upd_eof (upd_unget f (u8 c)) 0);
    mret (u8 c).

(** The loop of [fgets]: what it stored at [buf]. *)
Definition fgets_loop (fuel : nat) (buf n : Z) : Z -> M (sys B) Z :=
  while fuel (fun i =>
    if i <? n - 1 then
      c ← fgetc;
      if c =? -1 then mret (inr i)
      else
        _ ← ymem (store8 (buf + i) c);
        mret (if c =? 10 then inr (i + 1) else inl (i + 1))
    else mret (inr i)).

Definition fgets (fuel : nat) (buf n : Z) : M (sys B) Z :=
  if (buf =? NULL) || (n <=? 0) then mret NULL
  else
    i ← fgets_loop fuel buf n 0;
    if i =? 0 then mret NULL
    else _ ← ymem (store8 (buf + i) 0); mret buf.

Definition fread (ptr size nmemb : Z) : M (sys B) Z :=
  if ptr =? NULL then mret 0
  else
    f ← gets y_file;
    match io_read (io f) with
    | None => _ ← on_file (fun f => upd_error f 1); mret 0
    | Some rd =>
        let total := u64 (size * nmemb) in
        r ← call_be (rd total);
        let '(n, l) := (r : Z * list Z) in
        _ ← put_bytes ptr l;
        if n =? 0 then _ ← on_file (fun f => upd_eof f 1); mret 0
        else if n <? 0 then _ ← on_file (fun f => upd_error f 1); mret 0
        else if size =? 0 then undefined else mret (n / size)
    end.

(** ** Writing *)

Definition FILE_BUFFER_SIZE : Z := 4096.

Definition ensure_buffer (can_alloc : bool) : M (sys B) Z :=
  f ← gets y_file;
  match buffer f with
  | Some _ => mret 0
  | None =>
      if can_alloc then _ ← on_file (fun f => upd_buffer f (Some []) FILE_BUFFER_SIZE); mret 0
      else _ ← on_file (fun f => upd_error f 1); mret (-1)
  end.

Definition flush_file_buffer : M (sys B) Z :=
  f ← gets y_file;
  match buffer f with
  | None => mret 0
  | Some [] => mret 0
  | Some l =>
      match io_write (io f) with
      | None => _ ← on_file (fun f => upd_error f 1); mret (-1)
      | Some wrf =>
          written ← call_be (wrf l);
          if written <? 0 then _ ← on_file (fun f => upd_error f 1); mret (-1)
          else _ ← on_file (fun f => upd_buffer f (Some []) (buf_size f)); mret 0
      end
  end.

(** [memcpy(f->buffer + f->buf_pos, ...)]: undefined past the block's size. *)
Definition buffer_append (l : list Z) : M (sys B) unit :=
  f ← gets y_file;
  match buffer f with
  | Some b =>
      if zlen b + zlen l <=? buf_size f
      then on_file (fun f => upd_buffer f (Some (b ++ l)) (buf_size f))
      else undefined
  | None => undefined
  end.

(** The copy loop of [fwrite]. *)
Definition fwrite_loop (fuel : nat) (ptr size nmemb total : Z) : Z -> M (sys B) Z :=
  while fuel (fun written_total =>
    if written_total <? total then
      f ← gets y_file;
      let space := buf_size f - buf_pos f in
      r ← (if space =? 0 then x ← flush_file_buffer; mret (x, buf_size f) else mret (0, space));
      let '(x, space) := (r : Z * Z) in
      if x <? 0 then
        if size =? 0 then undefined else mret (inr (written_total / size))
      else
        let to_copy := total - written_total in
        let to_copy := if space <? to_copy then space else to_copy in
        l ← fetch (ptr + written_total) to_copy;
        _ ← buffer_append l;
        mret (inl (written_total + to_copy))
    else mret (inr nmemb)).

Definition fwrite (fuel : nat) (can_alloc : bool) (ptr size nmemb : Z) : M (sys B) Z :=
  if ptr =? NULL then mret 0
  else
    let total := u64 (size * nmemb) in
    f ← gets y_file;
    if buf_size f <=? total then
      x ← flush_file_buffer;
      if x <? 0 then mret 0
      else match io_write (io f) with
           | None => _ ← on_file (fun f => upd_error f 1); mret 0
           | Some wrf =>
               l ← fetch ptr total;
               written ← call_be (wrf l);
               if written <? 0 then _ ← on_file (fun f => upd_error f 1); mret 0
               else if size =? 0 then undefined else mret (written / size)
           end
    else
      x ← ensure_buffer can_alloc;
      if x <? 0 then mret 0 else fwrite_loop fuel ptr size nmemb total 0.

Definition fputc (can_alloc : bool) (c : Z) : M (sys B) Z :=
  x ← ensure_buffer can_alloc;
  if x <? 0 then mret FILE_EOF
  else
    f ← gets y_file;
    x ← (if buf_size f <=? buf_pos f then flush_file_buffer else mret 0);
    if x <? 0 then mret FILE_EOF
    else
      _ ← buffer_append [u8 c];
      _ ← (if c =? 10 then x ← flush_file_buffer; mret tt else mret tt);
      mret (u8 c).

Definition fputs (fuel : nat) (can_alloc : bool) (s : Z) : M (sys B) Z :=
  if s =? NULL then mret FILE_EOF
  else
    len ← ymem (strlen fuel s);
    x ← ensure_buffer can_alloc;
    if x <? 0 then mret FILE_EOF
    else
      f ← gets y_file;
      if buf_size f <=? len then
        x ← flush_file_buffer;
        if x <? 0 then mret FILE_EOF
        else match io_write (io f) with
             | None => _ ← on_file (fun f => upd_error f 1); mret FILE_EOF
             | Some wrf =>
                 l ← fetch s len;
                 written ← call_be (wrf l);
                 if written <? 0 then _ ← on_file (fun f => upd_error f 1); mret FILE_EOF
                 else mret 0
             end
      else
        x ← (if buf_size f <? buf_pos f + len then flush_file_buffer else mret 0);
        if x <? 0 then mret FILE_EOF
        else
          l ← fetch s len;
          _ ← buffer_append l;
          mret 0.

Definition ferror : M (sys B) Z := gets (fun y => error (y_file y)).
Definition feof : M (sys B) Z := gets (fun y => eof (y_file y)).

Definition flush_printf_buffer : M (sys B) unit :=
  modify (fun y =>
    match printf_buffer (y_std y) with
    | [] => y
    | b => {| y_file := y_file y; y_be := y_be y; y_mem := y_mem y; y_errno := y_errno y;
              y_std := {| is_stdout := is_stdout (y_std y); printf_buffer := []; console := console (y_std y) ++ [b] |} |}
    end).

(** [f] is NULL when [null] is true, and else the stream of the state. *)
Definition fflush (null : bool) : M (sys B) Z :=
  y ← get;
  if null || is_stdout (y_std y) then _ ← flush_printf_buffer; mret 0
  else x ← flush_file_buffer; mret (if x <? 0 then FILE_EOF else 0).

(** ** Positioning *)

Definition fseek (offset whence : Z) : M (sys B) Z :=
  _ ← on_file (fun f => upd_unget f (-1));
  f ← gets y_file;
  match io_seek (io f) with
  | None => _ ← modify (set_yerrno EINVAL); mret (-1)
  | Some sk =>
      _ ← flush_file_buffer;
      r ← call_be (sk offset whence);
      let '(ret, _) := (r : Z * Z) in
      if ret =? 0 then _ ← on_file (fun f => upd_eof f 0); mret 0
      else _ ← modify (set_yerrno EINVAL); mret (-1)
  end.

Definition ftell : M (sys B) Z :=
  f ← gets y_file;
  match io_seek (io f) with
  | None => mret (-1)
  | Some sk =>
      r ← call_be (sk 0 SEEK_CUR);
      let '(ret, off) := (r : Z * Z) in
      mret (if negb (ret =? 0) then -1 else off)
  end.

Definition rewind : M (sys B) unit :=
  _ ← on_file (fun f => upd_unget f (-1));
  _ ← flush_file_buffer;
  f ← gets y_file;
  _ ← match io_seek (io f) with
      | None => mret tt
      | Some sk => r ← call_be (sk 0 SEEK_SET); mret tt
      end;
  on_file (fun f => upd_error (upd_eof f 0) 0).

Definition clearerr : M (sys B) unit :=
  on_file (fun f => upd_unget (upd_eof (upd_error f 0) 0) (-1)).

(** [fclose]: flushes, closes the backend and frees the stream (the caller
    must not use it afterwards). *)
Definition fclose : M (sys B) Z :=
  _ ← fflush false;
  f ← gets y_file;
  res ← match io_close (io f) with Some cl => call_be cl | None => mret 0 end;
  if res <? 0 then _ ← modify (set_yerrno res); mret (-1) else mret 0.
End ops.
