(* ===== verification/StreamFacts.v ===== *)
(** * Correctness of streams

    A backend that takes all the bytes it is given is described by the class
    [FullWriter]: its state stands for an abstract file, and writing patches
    that file. Against that interface a buffered stream is proved to behave as
    the abstract file with its pending bytes written. *)

From stdpp Require Import base tactics list gmap numbers strings.
From Stdlib Require Import ZArith Lia.
From S2P Require Import Prelude.
From S2P Require Import Memory.
From S2P Require Import CString.
From S2P Require Import CStringFacts.
From S2P Require Import Stream.

(** ** Abstract files *)

Record afile := { a_data : list Z; a_pos : nat }.

(** [l] written over [data] at [pos]; a gap is filled with zeros. *)
Definition patch (data : list Z) (pos : nat) (l : list Z) : list Z :=
  take pos (data ++ replicate (pos - length data) 0) ++ l ++ drop (pos + length l) data.

Definition a_write (a : afile) (l : list Z) : afile :=
  match l with
  | [] => a
  | _ => {| a_data := patch (a_data a) (a_pos a) l; a_pos := a_pos a + length l |}
  end.

Lemma length_patch data pos l : length (patch data pos l) = Nat.max (pos + length l) (length data).
Proof. unfold patch. rewrite !length_app, length_take, length_drop, length_app, length_replicate. lia. Qed.

Lemma patch_app data pos l1 l2 : patch (patch data pos l1) (pos + length l1) l2 = patch data pos (l1 ++ l2).
Proof.
  unfold patch at 1. rewrite length_patch.
  replace (pos + length l1 - Nat.max (pos + length l1) (length data))%nat with 0%nat by lia.
  simpl. rewrite app_nil_r. unfold patch.
  set (h := take pos (data ++ replicate (pos - length data) 0)).
  assert (length h = pos) as Hh by (subst h; rewrite length_take, length_app, length_replicate; lia).
  rewrite (app_assoc h l1). rewrite take_app_length' by (rewrite length_app; lia).
  rewrite <- !app_assoc. f_equal. f_equal. f_equal.
  rewrite (app_assoc h l1), drop_app_ge by (rewrite length_app; lia).
  rewrite drop_drop, !length_app. f_equal. lia.
Qed.

Lemma a_write_app a l1 l2 : a_write (a_write a l1) l2 = a_write a (l1 ++ l2).
Proof.
  destruct l1 as [|x l1]; [done|]. destruct l2 as [|y l2]; [by rewrite app_nil_r|].
  unfold a_write. cbn [a_data a_pos]. simpl app. cbv iota.
  f_equal; [apply (patch_app _ _ (x :: l1) (y :: l2))|]. simpl. rewrite length_app. simpl. lia.
Qed.

(** ** Backends that take everything *)

(** [abs b] is the file a backend state stands for, [room b n] that it can take
    [n] more bytes. *)
Class FullWriter {B : Type} (wrf : list Z -> M B Z) (abs : B -> afile) (room : B -> Z -> Prop) := {
  fw_write b l : l <> [] -> room b (zlen l) ->
    exists b', wrf l b = Done (zlen l) b' /\ abs b' = a_write (abs b) l /\
      (forall k, 0 <= k -> room b (zlen l + k) -> room b' k);
  fw_less b n k : 0 <= n <= k -> room b k -> room b n
}.

Section buffered.
Context {B : Type} (wrf : list Z -> M B Z) (abs : B -> afile) (room : B -> Z -> Prop).
Context `{!FullWriter wrf abs room}.

(** The bytes of a stream that have not reached the backend. *)
Definition pending (y : sys B) : list Z := default [] (buffer (y_file y)).

(** A stream over the backend: no block yet, or a block that is not overfull. *)
Definition stream_wf (y : sys B) : Prop :=
  io_write (io (y_file y)) = Some wrf /\
  match buffer (y_file y) with
  | None => buf_size (y_file y) = 0
  | Some l => buf_size (y_file y) = FILE_BUFFER_SIZE /\ zlen l <= FILE_BUFFER_SIZE
  end.

(** What the stream stands for. *)
Definition stream_abs (y : sys B) : afile := a_write (abs (y_be y)) (pending y).

(** The stream can take [n] more bytes. *)
Definition stream_room (y : sys B) (n : Z) : Prop := room (y_be y) (zlen (pending y) + n).

(** [y'] is [y] with [l] written: same memory, same flags. *)
Definition wrote (y y' : sys B) (l : list Z) : Prop :=
  stream_wf y' /\ stream_abs y' = a_write (stream_abs y) l /\ y_mem y' = y_mem y /\
  error (y_file y') = error (y_file y) /\ io (y_file y') = io (y_file y) /\ y_errno y' = y_errno y /\ y_std y' = y_std y /\
  forall k, 0 <= k -> stream_room y (zlen l + k) -> stream_room y' k.

Lemma wrote_nil y : stream_wf y -> wrote y y [].
Proof. intros H. repeat split; try apply H. intros k Hk Hr. by rewrite Z.add_0_l in Hr. Qed.

Lemma wrote_app y1 y2 y3 l1 l2 : wrote y1 y2 l1 -> wrote y2 y3 l2 -> wrote y1 y3 (l1 ++ l2).
Proof.
  intros (H1 & H2 & H3 & H4 & H5 & H6 & H8 & H7) (K1 & K2 & K3 & K4 & K5 & K6 & K8 & K7).
  split; [done|]. split; [by rewrite K2, H2, a_write_app|]. split_and!; try congruence.
  intros k Hk Hr. apply K7; [done|]. apply H7; [lia|]. rewrite length_app in Hr.
  by replace (zlen l1 + (zlen l2 + k)) with (Z.of_nat (length l1 + length l2) + k) by lia.
Qed.

Lemma flush_ok y :
  stream_wf y -> stream_room y 0 ->
  exists y', flush_file_buffer y = Done 0 y' /\ wrote y y' [] /\ pending y' = [] /\
    (is_Some (buffer (y_file y)) -> is_Some (buffer (y_file y'))) /\ buf_size (y_file y') = buf_size (y_file y).
Proof.
  intros Hwf Hr. unfold flush_file_buffer. mstep. pose proof Hwf as [Hio Hb].
  destruct (buffer (y_file y)) as [[|c l]|] eqn:Eb.
  - exists y. unfold pending. rewrite Eb. split_and!; try done; by apply wrote_nil.
  - rewrite Hio. mstep. unfold call_be, zoom. unfold stream_room, pending in Hr. rewrite Eb, Z.add_0_r in Hr. simpl in Hr.
    destruct (fw_write (y_be y) (c :: l) ltac:(done) Hr) as (b' & -> & Ha & Hk).
    rewrite (proj2 (Z.ltb_ge _ _)) by lia. unfold on_file. mstep.
    eexists. split; [done|]. split_and!; try done; try (by eauto).
    split; [split; [done|split; [apply Hb|done]]|].
    unfold stream_abs, stream_room, pending. cbn. rewrite Eb. cbn. by split_and!.
  - exists y. unfold pending. rewrite Eb. split_and!; try done; by apply wrote_nil.
Qed.

Lemma ensure_ok y :
  stream_wf y ->
  exists y', ensure_buffer true y = Done 0 y' /\ wrote y y' [] /\ pending y' = pending y /\
    is_Some (buffer (y_file y')) /\ buf_size (y_file y') = FILE_BUFFER_SIZE /\ io (y_file y') = io (y_file y).
Proof.
  intros Hwf. pose proof Hwf as [Hio Hb]. unfold ensure_buffer. mstep.
  destruct (buffer (y_file y)) as [l|] eqn:Eb.
  - exists y. split_and!; try done; first [by apply wrote_nil|by eauto|tauto].
  - unfold on_file. mstep. eexists. split; [done|]. unfold pending. rewrite Eb. cbn.
    split_and!; try done; try (by eauto).
    split; [split; [done|split; done]|].
    unfold stream_abs, stream_room, pending. cbn. rewrite Eb. cbn. by split_and!.
Qed.

Lemma append_ok y l :
  stream_wf y -> is_Some (buffer (y_file y)) -> zlen (pending y) + zlen l <= FILE_BUFFER_SIZE ->
  exists y', buffer_append l y = Done tt y' /\ wrote y y' l /\ is_Some (buffer (y_file y')) /\
    pending y' = pending y ++ l.
Proof.
  intros Hwf [b Eb] Hl. pose proof Hwf as [Hio Hb]. unfold buffer_append. mstep. rewrite Eb in Hb |- *.
  unfold pending in Hl. rewrite Eb in Hl. simpl in Hl. destruct Hb as [Hbs Hb].
  rewrite (proj2 (Z.leb_le _ _)) by lia. unfold on_file. mstep. eexists. split; [done|].
  unfold pending. rewrite Eb. cbn. split_and!; try done; try (by eauto).
  split; [split; [done|split; [done|rewrite length_app; lia]]|].
  unfold stream_abs, stream_room, pending. cbn. rewrite Eb. cbn.
  split_and!; try done; [by rewrite a_write_app|].
  intros k Hk Hr. rewrite length_app.
  by replace (Z.of_nat (length b + length l) + k) with (zlen b + (zlen l + k)) by lia.
Qed.

Lemma stream_room_less y n k : 0 <= n <= k -> stream_room y k -> stream_room y n.
Proof. intros H Hr. unfold stream_room in *. eapply fw_less; [|exact Hr]. lia. Qed.

Lemma stream_room_0 y n : stream_room y (Z.of_nat n) -> stream_room y 0.
Proof. apply stream_room_less. lia. Qed.

Lemma direct_ok y l :
  stream_wf y -> pending y = [] -> l <> [] -> stream_room y (zlen l) ->
  exists y', call_be (wrf l) y = Done (zlen l) y' /\ wrote y y' l /\ y_file y' = y_file y.
Proof.
  intros Hwf Hp Hl Hr. unfold stream_room in Hr. rewrite Hp in Hr. simpl in Hr. rewrite Z.add_0_l in Hr.
  destruct (fw_write (y_be y) l Hl Hr) as (b' & E & Ha & Hk). unfold call_be, zoom. rewrite E.
  eexists. split; [done|]. split; [|done]. split; [done|].
  unfold stream_abs, stream_room, pending in *. cbn. rewrite Hp. cbn. by split_and!.
Qed.

(** A flush, when one is needed, and an append. *)
Lemma flush_when_ok (b : bool) y :
  stream_wf y -> stream_room y 0 ->
  exists y', (if b then flush_file_buffer else mret 0) y = Done 0 y' /\ wrote y y' [] /\
    (is_Some (buffer (y_file y)) -> is_Some (buffer (y_file y'))) /\
    pending y' = (if b then [] else pending y).
Proof.
  intros Hwf Hr. destruct b.
  - destruct (flush_ok y Hwf Hr) as (y' & -> & Hw & Hp & Hb & _). exists y'. done.
  - exists y. split_and!; try done; by apply wrote_nil.
Qed.

Lemma wrote_room y y' l n : wrote y y' l -> 0 <= n -> stream_room y (zlen l + n) -> stream_room y' n.
Proof. intros (_ & _ & _ & _ & _ & _ & _ & H). apply H. Qed.

Lemma wrote_wf y y' l : wrote y y' l -> stream_wf y'.
Proof. by intros [H _]. Qed.

Lemma wrote_io y y' l : wrote y y' l -> io (y_file y') = io (y_file y).
Proof. intros H. apply H. Qed.

Lemma wrote_std y y' l : wrote y y' l -> y_std y' = y_std y.
Proof. intros H. apply H. Qed.

Lemma wrote_mem y y' l : wrote y y' l -> y_mem y' = y_mem y.
Proof. intros H. apply H. Qed.

Lemma fputc_ok y c :
  stream_wf y -> stream_room y 1 ->
  exists y', fputc true c y = Done (u8 c) y' /\ wrote y y' [u8 c].
Proof.
  intros Hwf Hr. unfold fputc. mstep.
  destruct (ensure_ok y Hwf) as (y1 & -> & W1 & P1 & B1 & S1 & _). zconst. mstep.
  pose proof (wrote_wf _ _ _ W1) as Hwf1.
  pose proof (wrote_room _ _ _ 1 W1 ltac:(lia) Hr) as Hr1.
  destruct (flush_when_ok (buf_size (y_file y1) <=? buf_pos (y_file y1)) y1 Hwf1
    (stream_room_less _ 0 1 ltac:(lia) Hr1)) as (y2 & -> & W2 & B2 & P2). zconst. mstep.
  pose proof (wrote_wf _ _ _ W2) as Hwf2.
  assert (zlen (pending y2) + zlen [u8 c] <= FILE_BUFFER_SIZE) as Hfit.
  { destruct B1 as [l Hl]. unfold buf_pos in P2. rewrite Hl in P2. rewrite S1 in P2.
    destruct Hwf1 as [_ Hb1]. rewrite Hl in Hb1. rewrite P2. unfold FILE_BUFFER_SIZE in *. simpl length.
    unfold pending. rewrite Hl. simpl. destruct (Z.leb_spec 4096 (zlen l)); simpl; lia. }
  destruct (append_ok y2 [u8 c] Hwf2 (B2 B1) Hfit) as (y3 & -> & W3 & B3 & _). mstep.
  pose proof (wrote_app _ _ _ _ _ W1 (wrote_app _ _ _ _ _ W2 W3)) as W. simpl in W.
  pose proof (wrote_room _ _ _ 0 W ltac:(lia) Hr) as Hr3.
  pose proof (wrote_wf _ _ _ W3) as Hwf3.
  destruct (c =? 10); mstep.
  - destruct (flush_ok y3 Hwf3 Hr3) as (y4 & -> & W4 & _). mstep. exists y4. split; [done|].
    exact (wrote_app _ _ _ _ _ W W4).
  - by exists y3.
Qed.

(** What the caller's memory holds at a pointer. *)
Lemma fetch_ok (y : sys B) ptr l : arr (y_mem y) ptr l -> fetch ptr (zlen l) y = Done l y.
Proof.
  intros Ha. unfold fetch. rewrite Nat2Z.id.
  assert (forall k, mapM (fun i => y_mem y !! (ptr + Z.of_nat i)) (seq k (length l - k)) = Some (drop k l)) as H.
  { intros k. remember (length l - k)%nat as n eqn:En. revert k En.
    induction n as [|n IH]; intros k En; simpl.
    - by rewrite drop_ge by lia.
    - destruct (lookup_lt_is_Some_2 l k) as [c Hc]; [lia|].
      rewrite (arr_lookup _ _ _ _ _ Ha Hc). simpl. rewrite (IH (S k)) by lia. simpl.
      by rewrite (drop_S _ _ _ Hc). }
  specialize (H 0%nat). rewrite Nat.sub_0_r in H. by rewrite H.
Qed.

Lemma fflush_ok y :
  stream_wf y -> stream_room y 0 -> is_stdout (y_std y) = false ->
  exists y', fflush false y = Done 0 y' /\ wrote y y' [] /\ pending y' = [].
Proof.
  intros Hwf Hr Ho. unfold fflush. mstep. rewrite Ho. cbn [orb]. mstep. destruct (flush_ok y Hwf Hr) as (y' & -> & Hw & Hp & _).
  exists y'. done.
Qed.

Lemma fputs_ok fuel y s l :
  stream_wf y -> s <> NULL -> cstr (y_mem y) s l -> (length l < fuel)%nat -> stream_room y (zlen l) ->
  exists y', fputs fuel true s y = Done 0 y' /\ wrote y y' l.
Proof.
  intros Hwf Hs Hc Hf Hr. unfold fputs. rewrite (proj2 (Z.eqb_neq _ _)) by done. mstep.
  assert (ymem (strlen fuel s) y = Done (zlen l) y) as ->.
  { unfold ymem, zoom. rewrite (strlen_spec _ _ l) by done. by destruct y. }
  mstep. destruct (ensure_ok y Hwf) as (y1 & -> & W1 & P1 & B1 & S1 & I1). zconst. mstep.
  pose proof (wrote_wf _ _ _ W1) as Hwf1. pose proof (wrote_room _ _ _ (zlen l) W1 ltac:(lia) Hr) as Hr1.
  apply cstr_arr in Hc as [Ha _]. apply arr_app in Ha as [Ha _]. rewrite S1.
  destruct (Z.leb_spec FILE_BUFFER_SIZE (zlen l)); mstep.
  - destruct (flush_ok y1 Hwf1 (stream_room_0 _ _ Hr1)) as (y2 & -> & W2 & P2 & _). zconst. mstep.
    pose proof (wrote_wf _ _ _ W2) as Hwf2. rewrite (proj1 Hwf1). mstep.
    assert (arr (y_mem y2) s l) as Ha2 by (by rewrite (wrote_mem _ _ _ W2), (wrote_mem _ _ _ W1)).
    rewrite (fetch_ok _ _ _ Ha2). mstep.
    pose proof (wrote_room _ _ _ (zlen l) W2 ltac:(lia) Hr1) as Hr2.
    destruct (direct_ok y2 l Hwf2 P2) as (y3 & -> & W3 & _); [|done|].
    { intros ->. simpl in *. unfold FILE_BUFFER_SIZE in *. lia. }
    rewrite (proj2 (Z.ltb_ge _ _)) by lia. mstep. exists y3. split; [done|].
    exact (wrote_app _ _ _ _ _ W1 (wrote_app _ _ _ _ _ W2 W3)).
  - destruct (flush_when_ok (FILE_BUFFER_SIZE <? buf_pos (y_file y1) + zlen l) y1 Hwf1
      (stream_room_0 _ _ Hr1)) as (y2 & -> & W2 & B2 & P2). zconst. mstep.
    pose proof (wrote_wf _ _ _ W2) as Hwf2.
    assert (arr (y_mem y2) s l) as Ha2 by (by rewrite (wrote_mem _ _ _ W2), (wrote_mem _ _ _ W1)).
    rewrite (fetch_ok _ _ _ Ha2). mstep.
    assert (zlen (pending y2) + zlen l <= FILE_BUFFER_SIZE) as Hfit.
    { rewrite P2. destruct B1 as [b Hb]. unfold buf_pos, pending. rewrite Hb. simpl.
      destruct (Z.ltb_spec FILE_BUFFER_SIZE (zlen b + zlen l)); simpl; lia. }
    destruct (append_ok y2 l Hwf2 (B2 B1) Hfit) as (y3 & -> & W3 & _). mstep.
    exists y3. split; [done|]. exact (wrote_app _ _ _ _ _ W1 (wrote_app _ _ _ _ _ W2 W3)).
Qed.

(** The loop of [fwrite]: each turn writes at least one more byte. *)
Lemma fwrite_loop_ok fuel ptr size nmemb l k y :
  stream_wf y -> is_Some (buffer (y_file y)) -> (k <= length l)%nat -> (length l - k < fuel)%nat ->
  arr (y_mem y) ptr l -> stream_room y (zlen (drop k l)) ->
  exists y', fwrite_loop fuel ptr size nmemb (zlen l) (Z.of_nat k) y = Done nmemb y' /\ wrote y y' (drop k l).
Proof.
  revert k y. unfold fwrite_loop. induction fuel as [|fuel IH]; intros k y Hwf Hbuf Hk Hf Ha Hr; [lia|].
  rewrite while_S. destruct (Z.ltb_spec (Z.of_nat k) (zlen l)); mstep.
  2: { exists y. rewrite drop_ge by lia. split; [done|]. by apply wrote_nil. }
  rewrite length_drop in Hr. destruct Hbuf as [b Hb]. pose proof Hwf as [_ Hsz]. rewrite Hb in Hsz.
  assert (exists y1, (if buf_size (y_file y) - buf_pos (y_file y) =? 0
      then x ← flush_file_buffer; mret (x, buf_size (y_file y))
      else mret (0, buf_size (y_file y) - buf_pos (y_file y))) y
    = Done (0, FILE_BUFFER_SIZE - zlen (pending y1)) y1 /\ wrote y y1 [] /\ is_Some (buffer (y_file y1)) /\
      zlen (pending y1) < FILE_BUFFER_SIZE) as (y1 & -> & W1 & B1 & Hlt).
  { unfold buf_pos. rewrite Hb. destruct Hsz as [-> Hsz].
    destruct (Z.eqb_spec (FILE_BUFFER_SIZE - zlen b) 0).
    - mstep. destruct (flush_ok y Hwf (stream_room_0 _ _ Hr)) as (y1 & -> & W & P & Bs & _).
      mstep. exists y1. rewrite P. simpl. rewrite Z.sub_0_r. split_and!; try done. apply Bs. by rewrite Hb.
    - exists y. unfold pending. rewrite Hb. simpl. split_and!; try done; first [by apply wrote_nil|lia]. }
  zconst. mstep. pose proof (wrote_wf _ _ _ W1) as Hwf1.
  set (n := if FILE_BUFFER_SIZE - zlen (pending y1) <? zlen l - Z.of_nat k
            then FILE_BUFFER_SIZE - zlen (pending y1) else zlen l - Z.of_nat k).
  assert (1 <= n <= zlen l - Z.of_nat k /\ zlen (pending y1) + n <= FILE_BUFFER_SIZE) as [Hn Hfit]
    by (subst n; zcase; lia).
  assert (zlen (take (Z.to_nat n) (drop k l)) = n) as Hlen by (rewrite length_take, length_drop; lia).
  assert (arr (y_mem y1) (ptr + Z.of_nat k) (take (Z.to_nat n) (drop k l))) as Hap.
  { rewrite (wrote_mem _ _ _ W1). rewrite <- (take_drop k l) in Ha. apply arr_app in Ha as [_ Ha].
    rewrite length_take in Ha. rewrite <- (take_drop (Z.to_nat n) (drop k l)) in Ha. apply arr_app in Ha as [Ha _].
    by replace (Nat.min k (length l)) with k in Ha by lia. }
  pose proof (fetch_ok _ _ _ Hap) as Hfetch. rewrite Hlen in Hfetch. rewrite Hfetch. mstep.
  destruct (append_ok y1 (take (Z.to_nat n) (drop k l)) Hwf1 B1 ltac:(lia)) as (y2 & -> & W2 & B2 & _). mstep.
  pose proof (wrote_app _ _ _ _ _ W1 W2) as W. simpl in W.
  replace (Z.of_nat k + n) with (Z.of_nat (k + Z.to_nat n)) by lia.
  destruct (IH (k + Z.to_nat n)%nat y2) as (y3 & R & W3); try done; try lia.
  - by eapply wrote_wf.
  - by rewrite (wrote_mem _ _ _ W).
  - apply (wrote_room _ _ _ _ W); [lia|]. rewrite Hlen, length_drop.
    replace (n + Z.of_nat (length l - (k + Z.to_nat n))) with (Z.of_nat (length l - k)) by lia. done.
  - exists y3. split; [exact R|]. pose proof (wrote_app _ _ _ _ _ W W3) as W'.
    by rewrite <- drop_drop, take_drop in W'.
Qed.

Lemma fwrite_ok fuel ptr size nmemb l y :
  stream_wf y -> ptr <> NULL -> 0 < size -> zlen l = size * nmemb -> zlen l <= UINT64_MAX -> l <> [] ->
  (length l < fuel)%nat -> arr (y_mem y) ptr l -> stream_room y (zlen l) ->
  exists y', fwrite fuel true ptr size nmemb y = Done nmemb y' /\ wrote y y' l.
Proof.
  intros Hwf Hptr Hsz Hl Hmax Hne Hf Ha Hr. unfold fwrite. rewrite (proj2 (Z.eqb_neq _ _)) by done. mstep.
  rewrite <- Hl, u64_id by lia. destruct (Z.leb_spec (buf_size (y_file y)) (zlen l)); mstep.
  - destruct (flush_ok y Hwf (stream_room_0 _ _ Hr)) as (y1 & -> & W1 & P1 & _). zconst. mstep.
    rewrite (proj1 Hwf). mstep. assert (arr (y_mem y1) ptr l) as Ha1 by (by rewrite (wrote_mem _ _ _ W1)).
    rewrite (fetch_ok _ _ _ Ha1). mstep.
    destruct (direct_ok y1 l (wrote_wf _ _ _ W1) P1 Hne (wrote_room _ _ _ (zlen l) W1 ltac:(lia) Hr)) as (y2 & -> & W2 & _).
    rewrite (proj2 (Z.ltb_ge _ _)), (proj2 (Z.eqb_neq size 0)) by lia. mstep. exists y2.
    split; [|exact (wrote_app _ _ _ _ _ W1 W2)]. rewrite Hl, Z.mul_comm, Z.div_mul by lia. done.
  - destruct (ensure_ok y Hwf) as (y1 & -> & W1 & P1 & B1 & _). zconst. mstep.
    destruct (fwrite_loop_ok fuel ptr size nmemb l 0 y1) as (y2 & R & W2); try done; try lia.
    + by eapply wrote_wf.
    + by rewrite (wrote_mem _ _ _ W1).
    + by apply (wrote_room _ _ _ _ W1); [lia|].
    + exists y2. split; [exact R|]. exact (wrote_app _ _ _ _ _ W1 W2).
Qed.
End buffered.
