(* ===== verification/MemStream.v ===== *)
(** * stdio.c: the memory-stream backend

    [memstream_reserve], [memstream_write], [memstream_seek], [memstream_close]
    and [open_memstream]. The backing block is a list of [cap] cells, [None] for
    a cell that was never written; [realloc] is a parameter that says which
    sizes it can give. A memory stream is shown to be a backend that takes
    everything, so the theorems on buffered streams apply to it. *)

From stdpp Require Import base tactics list gmap numbers strings.
From Stdlib Require Import ZArith Lia.
From S2P Require Import Prelude.
From S2P Require Import Memory.
From S2P Require Import Stream.
From S2P Require Import StreamFacts.

(** [published] is what the caller's [*bufp] and [*sizep] show: the block as it
    is when it is looked at, and the length last stored. *)
Record memstream := {
  ms_buf : list (option Z);
  ms_len : Z;
  ms_pos : Z;
  ms_size_out : Z;
  ms_freed : bool
}.

Definition ms_cap (mc : memstream) : Z := zlen (ms_buf mc).

Section memstream.
(** Which sizes [realloc] can give. *)
Context (can_realloc : Z -> bool).

Definition set_ms_buf b (mc : memstream) : memstream :=
  {| ms_buf := b; ms_len := ms_len mc; ms_pos := ms_pos mc; ms_size_out := ms_size_out mc; ms_freed := ms_freed mc |}.

(** [while (new_cap < needed + 1) new_cap *= 2]. *)
Definition grow_cap (fuel : nat) (need : Z) : Z -> M memstream Z :=
  while fuel (fun new_cap => mret (if new_cap <? need then inl (u64 (new_cap * 2)) else inr new_cap)).

Definition memstream_reserve (needed : Z) : M memstream Z :=
  mc ← get;
  if u64 (needed + 1) <=? ms_cap mc then mret 0
  else
    new_cap ← grow_cap 65 (u64 (needed + 1)) (if ms_cap mc =? 0 then 128 else ms_cap mc);
    if can_realloc new_cap then
      _ ← modify (set_ms_buf (ms_buf mc ++ replicate (Z.to_nat new_cap - length (ms_buf mc)) None));
      mret 0
    else mret (-1).

Definition memstream_flush_ptrs : M memstream unit :=
  modify (fun mc => {| ms_buf := ms_buf mc; ms_len := ms_len mc; ms_pos := ms_pos mc;
                       ms_size_out := ms_len mc; ms_freed := ms_freed mc |}).

(** [memcpy], [memset] and the terminator: writes [l] at [off] of the block;
    undefined past its end. *)
Definition ms_store (off : Z) (l : list Z) : M memstream unit :=
  mc ← get;
  if off + zlen l <=? ms_cap mc then
    put (set_ms_buf (take (Z.to_nat off) (ms_buf mc) ++ (Some <$> l) ++
                     drop (Z.to_nat off + length l) (ms_buf mc)) mc)
  else undefined.

Definition memstream_write (buf : list Z) : M memstream Z :=
  mc ← get;
  let size := zlen buf in
  let pos := ms_pos mc in
  let finish := u64 (pos + size) in
  r ← memstream_reserve finish;
  if r <? 0 then mret (-1)
  else
    _ ← (if ms_len mc <? pos then ms_store (ms_len mc) (replicate (Z.to_nat (pos - ms_len mc)) 0)
         else mret tt);
    _ ← ms_store pos buf;
    _ ← modify (fun mc => {| ms_buf := ms_buf mc; ms_len := if ms_len mc <? finish then finish else ms_len mc;
                             ms_pos := finish; ms_size_out := ms_size_out mc; ms_freed := ms_freed mc |});
    mc ← get;
    _ ← ms_store (ms_len mc) [0];
    _ ← memstream_flush_ptrs;
    mret size.

Definition memstream_seek (offset whence : Z) : M memstream (Z * Z) :=
  mc ← get;
  match (if whence =? SEEK_SET then Some 0
         else if whence =? SEEK_CUR then Some (i64 (ms_pos mc))
         else if whence =? SEEK_END then Some (i64 (ms_len mc))
         else None) with
  | None => mret (-1, offset)
  | Some base =>
      let new_pos := i64 (base + offset) in
      if new_pos <? 0 then mret (-1, offset)
      else
        _ ← put {| ms_buf := ms_buf mc; ms_len := ms_len mc; ms_pos := new_pos;
                   ms_size_out := ms_size_out mc; ms_freed := ms_freed mc |};
        mret (0, new_pos)
  end.

Definition memstream_close : M memstream Z :=
  _ ← memstream_flush_ptrs;
  _ ← modify (fun mc => {| ms_buf := ms_buf mc; ms_len := ms_len mc; ms_pos := ms_pos mc;
                           ms_size_out := ms_size_out mc; ms_freed := true |});
  mret 0.

Definition memstream_io : io_funcs memstream :=
  {| io_read := None; io_write := Some memstream_write; io_seek := Some memstream_seek;
     io_close := Some memstream_close |}.

(** [fopencookie]: a stream without a block over any backend. *)
Definition fopencookie {B} (f : io_funcs B) : FILE B :=
  {| handle := 0; error := 0; eof := 0; unget_char := -1; buffer := None; buf_size := 0; io := f |}.

(** The cookie of a new memory stream: an empty string. *)
Definition ms_new : memstream :=
  {| ms_buf := [Some 0]; ms_len := 0; ms_pos := 0; ms_size_out := 0; ms_freed := false |}.

(** [open_memstream]: the three allocations can fail; the caller's out
    parameters are set at once. *)
Definition open_memstream (bufp sizep : Z) (alloc_cookie alloc_buf alloc_file : bool)
    : option (memstream * FILE memstream) + Z :=
  if (bufp =? NULL) || (sizep =? NULL) then inr NumConv.EINVAL
  else if negb alloc_cookie then inl None
  else if negb alloc_buf then inl None
  else if negb alloc_file then inl None
  else inl (Some (ms_new, fopencookie memstream_io)).

End memstream.

(** ** A memory stream takes everything *)

(** The block holds [data] and a terminator after it. *)
Definition ms_rep (mc : memstream) (data : list Z) : Prop :=
  ms_len mc = zlen data /\ 0 <= ms_pos mc /\
  (forall i, (i < length data)%nat -> ms_buf mc !! i = Some (data !! i)) /\
  ms_buf mc !! length data = Some (Some 0).

(** The abstract file of a memory stream. *)
Definition ms_abs (mc : memstream) : afile :=
  {| a_data := omap id (take (Z.to_nat (ms_len mc)) (ms_buf mc)); a_pos := Z.to_nat (ms_pos mc) |}.

Lemma omap_Some {A} (l : list A) : omap id (Some <$> l) = l.
Proof. induction l as [|x l IH]; csimpl; [done|]. by rewrite IH. Qed.

Lemma ms_rep_abs mc data : ms_rep mc data -> a_data (ms_abs mc) = data.
Proof.
  intros (Hl & _ & Hd & _). unfold ms_abs. cbn. rewrite Hl, Nat2Z.id.
  replace (take (length data) (ms_buf mc)) with (Some <$> data); [apply omap_Some|].
  apply list_eq. intros i. rewrite list_lookup_fmap. destruct (decide (i < length data)%nat) as [Hi|].
  - rewrite lookup_take_lt, Hd by done. destruct (lookup_lt_is_Some_2 data i Hi) as [x ->]. done.
  - rewrite lookup_take_ge, (proj2 (lookup_ge_None data i)) by lia. done.
Qed.

Lemma lookup_patch data pos l i :
  patch data pos l !! i =
  if decide (pos <= i < pos + length l)%nat then l !! (i - pos)%nat
  else if decide (i < length data)%nat then data !! i
  else if decide (i < pos)%nat then Some 0 else None.
Proof.
  unfold patch. set (h := take pos _).
  assert (length h = pos) as Hh by (subst h; rewrite length_take, length_app, length_replicate; lia).
  destruct (decide (i < pos)%nat).
  - rewrite decide_False by lia. rewrite lookup_app_l by lia. subst h. rewrite lookup_take_lt by lia.
    case_decide; [by rewrite lookup_app_l|]. rewrite lookup_app_r by lia.
    apply lookup_replicate_2. lia.
  - rewrite lookup_app_r by lia. rewrite Hh. case_decide.
    + by rewrite lookup_app_l by lia.
    + rewrite lookup_app_r by lia. rewrite lookup_drop.
      replace (pos + length l + (i - pos - length l))%nat with i by lia.
      case_decide; [done|]. apply lookup_ge_None_2. lia.
Qed.

(** A store into the block. *)
Definition overwrite (off : nat) (l : list Z) (b : list (option Z)) : list (option Z) :=
  take off b ++ (Some <$> l) ++ drop (off + length l) b.

Lemma lookup_overwrite off l b i :
  (off + length l <= length b)%nat ->
  overwrite off l b !! i =
  if decide (off <= i < off + length l)%nat then Some (l !! (i - off)%nat) else b !! i.
Proof.
  intros Hb. unfold overwrite.
  assert (length (take off b) = off) as Hh by (rewrite length_take; lia).
  destruct (decide (i < off)%nat).
  - rewrite decide_False by lia. rewrite lookup_app_l by lia. by rewrite lookup_take_lt by lia.
  - rewrite lookup_app_r by lia. rewrite Hh. case_decide.
    + rewrite lookup_app_l by (rewrite length_fmap; lia). rewrite list_lookup_fmap.
      destruct (lookup_lt_is_Some_2 l (i - off)) as [x ->]; [lia|done].
    + rewrite lookup_app_r by (rewrite length_fmap; lia). rewrite length_fmap, lookup_drop. f_equal. lia.
Qed.

Lemma length_overwrite off l b :
  (off + length l <= length b)%nat -> length (overwrite off l b) = length b.
Proof. intros H. unfold overwrite. rewrite !length_app, length_take, length_fmap, length_drop. lia. Qed.

Lemma ms_store_run off l mc :
  0 <= off -> off + zlen l <= ms_cap mc ->
  ms_store off l mc = Done tt (set_ms_buf (overwrite (Z.to_nat off) l (ms_buf mc)) mc).
Proof. intros Ho Hc. unfold ms_store. mstep. by rewrite (proj2 (Z.leb_le _ _)) by done. Qed.

(** The geometric growth ends with enough room, and less than twice that. *)
Lemma grow_cap_ok fuel need c mc :
  (0 < fuel)%nat -> 0 < c -> 0 <= need <= 2 ^ 62 -> need <= c * 2 ^ (Z.of_nat fuel - 1) -> c < 2 * need ->
  exists c', grow_cap fuel need c mc = Done c' mc /\ need <= c' < 2 * need.
Proof.
  unfold grow_cap. revert c. induction fuel as [|fuel IH]; intros c Hf Hc Hn Hlt Hc2; [lia|].
  rewrite while_S. destruct (Z.ltb_spec c need); mstep.
  - destruct fuel as [|fuel]; [simpl in Hlt; lia|]. rewrite u64_id by (unfold UINT64_MAX; lia).
    apply IH; try lia.
    replace (Z.of_nat (S (S fuel)) - 1) with (Z.succ (Z.of_nat (S fuel) - 1)) in Hlt by lia.
    rewrite Z.pow_succ_r in Hlt by lia. lia.
  - exists c. split; [done|lia].
Qed.

Section full_writer.
Context (can_realloc : Z -> bool) (limit : Z).
Context (Hlimit : 0 <= limit <= 2 ^ 62).
(** What malloc.c's [realloc] is relied on for: sizes up to [limit]. *)
Context (Hrealloc : forall c, 0 < c <= limit -> can_realloc c = true).

Definition ms_room (mc : memstream) (n : Z) : Prop :=
  (exists data, ms_rep mc data) /\ 2 * (Z.max (ms_pos mc + n) (ms_len mc) + 1) <= limit.

Lemma ms_new_room n : 0 <= n -> 2 * (n + 1) <= limit -> ms_room ms_new n.
Proof. intros Hn Hl. split; [|cbn; lia]. exists []. repeat split; simpl; lia. Qed.

Lemma ms_rep_cap mc data : ms_rep mc data -> zlen data + 1 <= ms_cap mc.
Proof. intros (_ & _ & _ & H). apply lookup_lt_Some in H. unfold ms_cap. lia. Qed.

Lemma reserve_ok mc data needed :
  ms_rep mc data -> 0 <= needed -> 2 * (needed + 1) <= limit ->
  exists mc', memstream_reserve can_realloc needed mc = Done 0 mc' /\
    ms_rep mc' data /\ ms_pos mc' = ms_pos mc /\ ms_freed mc' = ms_freed mc /\ needed + 1 <= ms_cap mc'.
Proof.
  intros Hrep Hn Hlim. pose proof (ms_rep_cap _ _ Hrep) as Hcap.
  unfold memstream_reserve. mstep. rewrite u64_id by (unfold UINT64_MAX; lia).
  destruct (Z.leb_spec (needed + 1) (ms_cap mc)); mstep; [by exists mc|].
  rewrite (proj2 (Z.eqb_neq _ _)) by lia.
  destruct (grow_cap_ok 65 (needed + 1) (ms_cap mc) mc) as (c' & -> & Hc'); try lia.
  rewrite Hrealloc by lia. mstep. eexists. split; [done|]. destruct Hrep as (H1 & H2 & H3 & H4).
  unfold ms_cap in *. split_and!; try done.
  - split_and!; try done; cbn.
    + intros i Hi. rewrite lookup_app_l by lia. by apply H3.
    + rewrite lookup_app_l by lia. done.
  - cbn. rewrite length_app, length_replicate. lia.
Qed.

Lemma write_ok mc data l :
  ms_rep mc data -> 2 * (Z.max (ms_pos mc + zlen l) (ms_len mc) + 1) <= limit ->
  exists mc', memstream_write can_realloc l mc = Done (zlen l) mc' /\
    ms_rep mc' (patch data (Z.to_nat (ms_pos mc)) l) /\ ms_pos mc' = ms_pos mc + zlen l /\
    ms_size_out mc' = ms_len mc'.
Proof.
  intros Hrep Hlim. pose proof Hrep as (HL & HP & _ & _).
  unfold memstream_write. mstep. rewrite !(u64_id (ms_pos mc + zlen l)) by (unfold UINT64_MAX; lia).
  destruct (reserve_ok mc data (ms_pos mc + zlen l) Hrep) as (mc1 & -> & Hrep1 & Hp1 & Hf1 & Hcap1); try lia.
  pose proof (ms_rep_cap _ _ Hrep1) as Hcd1. destruct Hrep1 as (HL1 & _ & Hd1 & Ht1). unfold ms_cap in *.
  zconst. mstep.
  set (P := Z.to_nat (ms_pos mc)). set (L := length data).
  set (gap := if decide (L < P)%nat then replicate (P - L) 0 else []).
  assert (exists mc2, (if ms_len mc <? ms_pos mc
      then ms_store (ms_len mc) (replicate (Z.to_nat (ms_pos mc - ms_len mc)) 0) else mret tt) mc1 = Done tt mc2 /\
    ms_buf mc2 = overwrite L gap (ms_buf mc1) /\ ms_len mc2 = ms_len mc1 /\ ms_pos mc2 = ms_pos mc1) as (mc2 & -> & Hb2 & HL2 & HP2).
  { subst gap. destruct (Z.ltb_spec (ms_len mc) (ms_pos mc)).
    - rewrite ms_store_run by (rewrite ?length_replicate; unfold ms_cap; lia). eexists. split; [done|]. cbn.
      rewrite decide_True by lia. split_and!; try done. f_equal; [lia|]. f_equal. lia.
    - exists mc1. rewrite decide_False by lia. split_and!; try done.
      unfold overwrite. simpl. by rewrite Nat.add_0_r, take_drop. }
  assert (L + length gap <= length (ms_buf mc1))%nat as Hgl
    by (subst gap; destruct (decide (L < P)%nat); rewrite ?length_replicate; simpl; lia).
  assert (length (ms_buf mc2) = length (ms_buf mc1)) as Hl2 by (rewrite Hb2; by apply length_overwrite).
  mstep. rewrite ms_store_run by (unfold ms_cap; lia). mstep. cbn [ms_len set_ms_buf].
  set (b3 := overwrite (Z.to_nat (ms_pos mc)) l (ms_buf mc2)).
  assert (length b3 = length (ms_buf mc1)) as Hl3 by (subst b3; rewrite length_overwrite; lia).
  cbn [ms_buf ms_pos ms_size_out ms_freed].
  set (len' := if ms_len mc2 <? ms_pos mc + zlen l then ms_pos mc + zlen l else ms_len mc2).
  assert (len' = Z.of_nat (Nat.max (P + length l) L)) as Hlen' by (subst len'; zcase; lia).
  rewrite ms_store_run by (unfold ms_cap; cbn; simpl; lia). mstep. unfold memstream_flush_ptrs. mstep.
  eexists. split; [done|]. cbn. split_and!; try done.
  unfold ms_rep. cbn. rewrite length_patch. fold P L. split_and!; try done; try lia.
  - intros i Hi. rewrite lookup_overwrite by (simpl; lia). rewrite decide_False by (simpl; lia).
    subst b3. rewrite lookup_overwrite by lia. rewrite lookup_patch. fold P L.
    case_decide as Hin; [done|]. rewrite Hb2, lookup_overwrite by lia. subst gap.
    destruct (decide (i < L)%nat).
    + rewrite decide_False by lia. by apply Hd1.
    + rewrite (decide_True (P := (i < P)%nat)) by lia.
      destruct (decide (L < P)%nat) as [HLP|]; [|lia].
      rewrite length_replicate, decide_True by lia. f_equal. apply lookup_replicate_2. lia.
  - rewrite lookup_overwrite by (simpl; lia). rewrite decide_True by (simpl; lia).
    by replace (_ - Z.to_nat len')%nat with 0%nat by lia.
Qed.

#[export] Instance memstream_full_writer :
  FullWriter (memstream_write can_realloc) ms_abs ms_room.
Proof.
  split.
  - intros mc l Hl [[data Hrep] Hlim].
    destruct (write_ok mc data l Hrep Hlim) as (mc' & R & Hrep' & HP' & _).
    exists mc'. split; [done|]. pose proof Hrep as (HL & HP & _).
    pose proof Hrep' as (HL' & _ & _). split.
    + unfold a_write. destruct l as [|x l]; [done|].
      rewrite (ms_rep_abs _ _ Hrep).
      destruct (ms_abs mc') as [d p] eqn:E. f_equal.
      * pose proof (ms_rep_abs _ _ Hrep') as H. rewrite E in H. exact H.
      * change p with (a_pos {| a_data := d; a_pos := p |}). rewrite <- E. cbn. rewrite HP'. simpl. lia.
    + intros k Hk [_ Hlim']. split; [by eexists|]. rewrite HP', HL', length_patch. lia.
  - intros mc n k Hnk [Hrep Hlim]. split; [done|]. lia.
Qed.
End full_writer.
