(* ===== verification/StreamProps.v ===== *)
(** * Properties of streams *)

From stdpp Require Import base tactics list gmap numbers strings.
From Stdlib Require Import ZArith Lia.
From S2P Require Import Prelude.
From S2P Require Import Memory.
From S2P Require Import CString.
From S2P Require Import CStringFacts.
From S2P Require Import Stream.
From S2P Require Import StreamFacts.
From S2P Require Import MemStream.

(** ** Programs of writes *)

(** A call that writes to a stream. *)
Inductive wcall :=
| CPutc (c : Z)
| CPuts (s : Z)
| CWrite (ptr size nmemb : Z)
| CFlush.

Definition run_call {B} (fuel : nat) (c : wcall) : M (sys B) Z :=
  match c with
  | CPutc c => fputc true c
  | CPuts s => fputs fuel true s
  | CWrite ptr size nmemb => fwrite fuel true ptr size nmemb
  | CFlush => fflush false
  end.

Fixpoint run_calls {B} (fuel : nat) (cs : list wcall) : M (sys B) (list Z) :=
  match cs with
  | [] => mret []
  | c :: r => x ← run_call fuel c; xs ← run_calls fuel r; mret (x :: xs)
  end.

(** The bytes a call writes, and its result when it succeeds. *)
Inductive call_text (fuel : nat) (m : mem) : wcall -> list Z -> Z -> Prop :=
| text_putc c : call_text fuel m (CPutc c) [u8 c] (u8 c)
| text_puts s l :
    s <> NULL -> cstr m s l -> (length l < fuel)%nat -> call_text fuel m (CPuts s) l 0
| text_write ptr size nmemb l :
    ptr <> NULL -> 0 < size -> l <> [] -> zlen l = size * nmemb -> zlen l <= UINT64_MAX ->
    (length l < fuel)%nat -> arr m ptr l -> call_text fuel m (CWrite ptr size nmemb) l nmemb
| text_flush : call_text fuel m CFlush [] 0.

(** A program of calls with its bytes and results. *)
Inductive prog_text (fuel : nat) (m : mem) : list wcall -> list Z -> list Z -> Prop :=
| prog_nil : prog_text fuel m [] [] []
| prog_cons c cs l ls r rs :
    call_text fuel m c l r -> prog_text fuel m cs ls rs ->
    prog_text fuel m (c :: cs) (l ++ ls) (r :: rs).

Section programs.
Context {B : Type} (wrf : list Z -> M B Z) (abs : B -> afile) (room : B -> Z -> Prop).
Context `{!FullWriter wrf abs room}.

Lemma run_call_ok fuel y c l r :
  stream_wf wrf y -> call_text fuel (y_mem y) c l r -> stream_room room y (zlen l) -> is_stdout (y_std y) = false ->
  exists y', run_call fuel c y = Done r y' /\ wrote wrf abs room y y' l.
Proof.
  intros Hwf Ht Hr Ho. destruct Ht; simpl.
  - by eapply fputc_ok.
  - by eapply fputs_ok.
  - by eapply fwrite_ok.
  - destruct (fflush_ok wrf abs room y Hwf Hr Ho) as (y' & R & W & _). by exists y'.
Qed.

Lemma run_calls_ok fuel cs ls rs y :
  stream_wf wrf y -> prog_text fuel (y_mem y) cs ls rs -> stream_room room y (zlen ls) -> is_stdout (y_std y) = false ->
  exists y', run_calls fuel cs y = Done rs y' /\ wrote wrf abs room y y' ls.
Proof.
  revert ls rs y. induction cs as [|c cs IH]; intros ls rs y Hwf Hp Hr Ho; inversion Hp; subst; simpl.
  - exists y. split; [done|]. by apply wrote_nil.
  - rewrite length_app in Hr.
    destruct (run_call_ok fuel y c l r Hwf) as (y1 & R1 & W1); try done.
    { eapply (stream_room_less wrf abs room); [|exact Hr]. lia. }
    mstep. rewrite R1. mstep.
    destruct (IH ls0 rs0 y1) as (y2 & R2 & W2).
    + by eapply wrote_wf.
    + by rewrite (wrote_mem _ _ _ _ _ _ W1).
    + eapply wrote_room; [exact W1|lia|].
      by replace (zlen l + zlen ls0) with (Z.of_nat (length l + length ls0)) by lia.
    + by rewrite (wrote_std _ _ _ _ _ _ W1).
    + rewrite R2. mstep. exists y2. split; [done|]. by eapply wrote_app.
Qed.

End programs.

(** ** A program on a memory stream *)

Definition always (c : Z) : bool := true.

(** "Hi\n" at 100, then calls that write "A", "Hi\n" and "Hi". *)
Definition demo_calls : list wcall := [CPutc 65; CPuts 100; CWrite 100 1 2].
Definition demo_mem : mem := wr ∅ 100 [72; 105; 10; 0].
Definition no_std : std := {| is_stdout := false; printf_buffer := []; console := [] |}.

Lemma demo_prog : prog_text 10 demo_mem demo_calls [65; 72; 105; 10; 72; 105] [65; 0; 2].
Proof.
  apply (prog_cons _ _ _ _ [65] [72; 105; 10; 72; 105]); [apply (text_putc _ _ 65)|].
  apply (prog_cons _ _ _ _ [72; 105; 10] [72; 105]).
  { apply text_puts; [discriminate| |simpl; lia]. vm_compute. repeat split. }
  apply (prog_cons _ _ _ _ [72; 105] []); [|constructor].
  apply text_write; try discriminate; try reflexivity; [simpl; lia|vm_compute; repeat split].
Qed.


(** On [stdout], and without a stream, [fflush] empties the buffer of [printf]
    only: it reports success, and what [fputc], [fputs] and [fwrite] left in the
    buffer of the stream stays there. *)
Theorem stdout_not_flushed {B} null (y : sys B) :
  null = true \/ is_stdout (y_std y) = true ->
  exists y', fflush null y = Done 0 y' /\ pending y' = pending y /\ y_be y' = y_be y /\ printf_buffer (y_std y') = [].
Proof.
  intros H. unfold fflush, flush_printf_buffer. mstep. replace (null || is_stdout (y_std y)) with true by (destruct H as [-> | ->]; by rewrite ?orb_true_r).
  mstep. eexists. split; [done|]. destruct (printf_buffer (y_std y)) eqn:E; by split_and!.
Qed.

Lemma stdout_not_flushed_witness :
  exists y', fflush false {| y_file := upd_buffer (fopencookie (memstream_io always)) (Some [65]) 4096; y_be := ms_new; y_mem := ∅; y_errno := 0;
      y_std := {| is_stdout := true; printf_buffer := [66]; console := [] |} |} = Done 0 y' /\ pending y' = [65].
Proof. destruct (@stdout_not_flushed memstream false {| y_file := upd_buffer (fopencookie (memstream_io always)) (Some [65]) 4096; y_be := ms_new; y_mem := ∅; y_errno := 0;
      y_std := {| is_stdout := true; printf_buffer := [66]; console := [] |} |}) as (y' & R & P & _); [right; reflexivity|]. exists y'. split; [exact R|exact P]. Defined.

(** [open_memstream] collects a program's output: when its allocations
    succeed and [realloc] gives the sizes needed, every program of write calls
    followed by [fclose] succeeds and leaves the caller with a block that holds
    exactly the program's bytes and a terminator, and with their number in
    [*sizep]; the cookie is released. *)
Theorem memstream_collects can_realloc limit bufp sizep fuel cs ls rs m :
  0 <= limit <= 2 ^ 62 -> (forall c, 0 < c <= limit -> can_realloc c = true) ->
  bufp <> NULL -> sizep <> NULL ->
  prog_text fuel m cs ls rs -> 2 * (zlen ls + 1) <= limit ->
  exists mc f y1 y', open_memstream can_realloc bufp sizep true true true = inl (Some (mc, f)) /\
    run_calls fuel cs {| y_file := f; y_be := mc; y_mem := m; y_errno := 0; y_std := no_std |} = Done rs y1 /\
    fclose y1 = Done 0 y' /\
    ms_rep (y_be y') ls /\ ms_size_out (y_be y') = zlen ls /\ ms_freed (y_be y') = true.
Proof.
  intros Hlim Hre Hb Hs Hp Hl. unfold open_memstream.
  rewrite (proj2 (Z.eqb_neq bufp NULL)), (proj2 (Z.eqb_neq sizep NULL)) by done. simpl.
  pose proof (memstream_full_writer can_realloc limit Hlim Hre) as HFW.
  exists ms_new, (fopencookie (memstream_io can_realloc)). set (y0 := {| y_file := _ |}).
  assert (stream_room (ms_room limit) y0 (zlen ls)) as Hr0 by (apply ms_new_room; simpl; lia).
  destruct (run_calls_ok (memstream_write can_realloc) ms_abs (ms_room limit) fuel cs ls rs y0) as (y1 & R1 & W1);
    [by split|done|done|done|].
  destruct (fflush_ok (memstream_write can_realloc) ms_abs (ms_room limit) y1) as (y2 & R2 & W2 & P2).
  { by eapply wrote_wf. }
  { eapply wrote_room; [exact W1|lia|]. by rewrite Z.add_0_r. }
  { by rewrite (wrote_std _ _ _ _ _ _ W1). }
  pose proof (wrote_app _ _ _ _ _ _ _ _ W1 W2) as W. rewrite app_nil_r in W.
  assert (ms_room limit (y_be y2) 0) as [[data Hrep] _].
  { assert (stream_room (ms_room limit) y2 0) as H by (eapply wrote_room; [exact W|lia|by rewrite Z.add_0_r]).
    unfold stream_room in H. by rewrite P2 in H. }
  assert (data = ls) as ->.
  { rewrite <- (ms_rep_abs _ _ Hrep). destruct W as (_ & Ha & _). unfold stream_abs in Ha. rewrite P2 in Ha.
    simpl in Ha. rewrite Ha. cbn. destruct ls as [|x l]; [done|]. cbn. change (Z.to_nat 0) with 0%nat. simpl. by rewrite app_nil_r. }
  unfold fclose. eexists y1, _. split; [done|]. split; [done|]. mstep. rewrite R2. mstep.
  rewrite (wrote_io _ _ _ _ _ _ W). cbn. split; [done|]. cbn. destruct Hrep as (H1 & H2 & H3 & H4). done.
Qed.

Lemma memstream_collects_witness :
  exists mc f y1 y', open_memstream always 8 16 true true true = inl (Some (mc, f)) /\
    run_calls 10 demo_calls {| y_file := f; y_be := mc; y_mem := demo_mem; y_errno := 0; y_std := no_std |} = Done [65; 0; 2] y1 /\
    fclose y1 = Done 0 y' /\ ms_rep (y_be y') [65; 72; 105; 10; 72; 105].
Proof.
  destruct (memstream_collects always (2 ^ 20) 8 16 10 demo_calls [65; 72; 105; 10; 72; 105] [65; 0; 2] demo_mem)
    as (mc & f & y1 & y' & R0 & R1 & R2 & Hrep & _).
  - vm_compute. split; discriminate.
  - intros; reflexivity.
  - discriminate.
  - discriminate.
  - exact demo_prog.
  - vm_compute. discriminate.
  - exists mc, f, y1, y'. split; [exact R0|]. split; [exact R1|]. split; [exact R2|exact Hrep].
Defined.

(** ** Reading lines *)

(** A backend that delivers the bytes of [rest] one at a time. *)
Class ByteReader {B : Type} (rd : Z -> M B (Z * list Z)) (rest : B -> list Z) := {
  br_next b c r : rest b = c :: r ->
    0 <= c < 256 /\ exists b', rd 1 b = Done (1, [c]) b' /\ rest b' = r;
  br_end b : rest b = [] -> exists b', rd 1 b = Done (0, []) b' /\ rest b' = []
}.

(** The line [fgets] takes from [l] with room for [k] characters. *)
Fixpoint line (k : nat) (l : list Z) : list Z :=
  match k, l with
  | S k', c :: r => if c =? 10 then [c] else c :: line k' r
  | _, _ => []
  end.

Lemma line_length k l : (length (line k l) <= k)%nat.
Proof.
  revert l. induction k as [|k IH]; intros [|c l]; simpl; try lia.
  destruct (c =? 10); simpl; [lia|]. specialize (IH l). lia.
Qed.

Section reading.
Context {B : Type} (rd : Z -> M B (Z * list Z)) (rest : B -> list Z).
Context `{!ByteReader rd rest}.

(** What is still to be read: a character pushed back, then the backend. *)
Definition input (y : sys B) : list Z :=
  (if unget_char (y_file y) =? -1 then [] else [unget_char (y_file y)]) ++ rest (y_be y).

Definition reader_wf (y : sys B) : Prop :=
  io_read (io (y_file y)) = Some rd /\ -1 <= unget_char (y_file y) < 256 /\
  (eof (y_file y) <> 0 -> rest (y_be y) = []).

Lemma fgetc_next y c r :
  reader_wf y -> input y = c :: r ->
  0 <= c < 256 /\ exists y', fgetc y = Done c y' /\ reader_wf y' /\ input y' = r /\ y_mem y' = y_mem y.
Proof.
  intros (Hio & Hu & He) Hin. unfold input, fgetc in *. mstep.
  destruct (Z.eqb_spec (unget_char (y_file y)) (-1)); simpl in Hin; mstep.
  - destruct (br_next _ _ _ Hin) as [Hc (b' & R & Hr)]. split; [done|].
    destruct (Z.eqb_spec (eof (y_file y)) 0) as [E0|]; mstep.
    2: { rewrite He in Hin by done. done. }
    rewrite Hio. mstep. unfold call_be, zoom. rewrite R. mstep. zconst. mstep.
    eexists. split; [done|]. cbn. rewrite (proj2 (Z.eqb_eq _ _)) by done. split_and!; try done.
  - injection Hin as <- <-. split; [lia|]. eexists. split; [done|]. done.
Qed.

Lemma fgetc_end y :
  reader_wf y -> input y = [] ->
  exists y', fgetc y = Done (-1) y' /\ reader_wf y' /\ input y' = [] /\ y_mem y' = y_mem y.
Proof.
  intros (Hio & Hu & He) Hin. unfold input, fgetc in *. mstep.
  destruct (Z.eqb_spec (unget_char (y_file y)) (-1)) as [Eu|]; simpl in Hin; [|done]. mstep.
  destruct (Z.eqb_spec (eof (y_file y)) 0) as [E0|]; mstep.
  - destruct (br_end _ Hin) as (b' & R & Hr). rewrite Hio. mstep. unfold call_be, zoom. rewrite R. mstep. zconst.
    unfold on_file. mstep. eexists. split; [done|]. cbn. by rewrite Eu.
  - exists y. split; [done|]. rewrite Eu. done.
Qed.

Lemma ymem_store8 a v (y : sys B) :
  is_Some (y_mem y !! a) ->
  ymem (store8 a v) y =
  Done tt {| y_file := y_file y; y_be := y_be y; y_mem := <[a := u8 v]> (y_mem y); y_errno := y_errno y; y_std := y_std y |}.
Proof. intros H. unfold ymem, zoom. by rewrite store8_some. Qed.

Lemma fgets_loop_ok fuel buf n i y :
  reader_wf y -> 0 <= i <= n - 1 -> (Z.to_nat (n - 1 - i) < fuel)%nat -> mapped (y_mem y) buf n ->
  let l := line (Z.to_nat (n - 1 - i)) (input y) in
  exists y', fgets_loop fuel buf n i y = Done (i + zlen l) y' /\ reader_wf y' /\
    y_mem y' = wr (y_mem y) (buf + i) l /\ input y' = drop (length l) (input y).
Proof.
  revert i y. unfold fgets_loop. induction fuel as [|fuel IH]; intros i y Hwf Hi Hf Hm; [lia|].
  rewrite while_S. destruct (Z.ltb_spec i (n - 1)); mstep.
  2: { replace (Z.to_nat (n - 1 - i)) with 0%nat by lia. simpl. exists y. by rewrite Z.add_0_r. }
  replace (Z.to_nat (n - 1 - i)) with (S (Z.to_nat (n - 1 - (i + 1)))) by lia.
  destruct (input y) as [|c r] eqn:Ein; simpl.
  - destruct (fgetc_end y Hwf Ein) as (y1 & -> & Hwf1 & Hin1 & Hm1). zconst. mstep.
    exists y1. by rewrite Z.add_0_r, Hin1, Hm1.
  - destruct (fgetc_next y c r Hwf Ein) as [Hc (y1 & -> & Hwf1 & Hin1 & Hm1)].
    rewrite (proj2 (Z.eqb_neq c (-1))) by lia. mstep.
    rewrite ymem_store8 by (rewrite Hm1; apply Hm; lia). rewrite u8_id, Hm1 by done. mstep.
    set (y2 := {| y_file := y_file y1 |}).
    assert (reader_wf y2) as Hwf2 by done. assert (input y2 = r) as Hin2 by done.
    destruct (c =? 10); mstep; simpl.
    + by exists y2.
    + destruct (IH (i + 1) y2) as (y3 & R & Hwf3 & Hm3 & Hin3); try done; try lia.
      { by apply insert_mapped. }
      exists y3. rewrite R, Hin3, Hin2 in *. rewrite Hm3. cbn [y_mem].
      replace (buf + (i + 1)) with (buf + i + 1) by lia. split_and!; try done. f_equal. lia.
Qed.

(** [fgets] reads one line: over any byte source, with [n] bytes mapped at
    [buf], it takes characters up to and including a newline, at most [n - 1]
    of them, a pushed-back one first; stores exactly these and a terminator;
    leaves the rest of the input; and returns NULL, storing nothing, when
    there is none. *)
Theorem fgets_reads_line fuel buf n y :
  reader_wf y -> buf <> NULL -> 0 < n -> (Z.to_nat n <= fuel)%nat -> mapped (y_mem y) buf n ->
  let l := line (Z.to_nat (n - 1)) (input y) in
  exists y', fgets fuel buf n y = Done (if bool_decide (l = []) then NULL else buf) y' /\ reader_wf y' /\
    input y' = drop (length l) (input y) /\
    y_mem y' = (if bool_decide (l = []) then y_mem y else wr (y_mem y) buf (l ++ [0])).
Proof.
  intros Hwf Hb Hn Hf Hm l. unfold fgets. rewrite (proj2 (Z.eqb_neq buf NULL)), (proj2 (Z.leb_gt n 0)) by (done || lia).
  mstep. destruct (fgets_loop_ok fuel buf n 0 y Hwf ltac:(lia) ltac:(lia) Hm) as (y1 & R & Hwf1 & Hm1 & Hin1).
  rewrite Z.sub_0_r in *. fold l in R, Hm1, Hin1. rewrite R. mstep. rewrite Z.add_0_l, Z.add_0_r in *.
  pose proof (line_length (Z.to_nat (n - 1)) (input y)) as Hlen. fold l in Hlen.
  destruct l as [|c l'] eqn:El; simpl.
  - exists y1. split_and!; try done.
  - mstep. rewrite ymem_store8; rewrite Hm1.
    2: { apply (wr_mapped _ _ _ buf n); [done|]. simpl in *. lia. }
    mstep. eexists. split; [done|]. cbn. split_and!; try done.
    change (<[buf := c]> (y_mem y)) with (wr (y_mem y) buf [c]). 
    rewrite wr_app. simpl. f_equal. lia.
Qed.
End reading.

(** A byte source for the witness: a list of bytes. *)
Definition list_read (n : Z) : M (list Z) (Z * list Z) := fun l =>
  match l with [] => Done (0, []) [] | c :: r => Done (1, [u8 c]) r end.

#[export] Instance list_reader : ByteReader list_read (fmap u8).
Proof.
  split.
  - intros [|x b] c r; csimpl; [done|]. intros [= <- <-]. split; [apply (wrapu_range 8); lia|eauto].
  - intros [|x b]; csimpl; [eauto|done].
Qed.

Definition line_stream : sys (list Z) :=
  {| y_file := {| handle := 0; error := 0; eof := 0; unget_char := 62; buffer := None; buf_size := 0;
                  io := {| io_read := Some list_read; io_write := None; io_seek := None; io_close := None |} |};
     y_be := [72; 105; 10; 79; 75]; y_mem := wr ∅ 100 (repeat 170 10); y_errno := 0; y_std := no_std |}.

Lemma fgets_reads_line_witness :
  exists y', fgets 10 100 10 line_stream = Done 100 y' /\
    y_mem y' = wr (y_mem line_stream) 100 [62; 72; 105; 10; 0] /\ input (fmap u8) y' = [79; 75].
Proof.
  destruct (fgets_reads_line list_read (fmap u8) 10 100 10 line_stream) as (y' & R & _ & Hin & Hm).
  - split; [reflexivity|]. split; [split; [discriminate|reflexivity]|]. intros H. contradiction H. reflexivity.
  - discriminate.
  - lia.
  - simpl. lia.
  - apply (mapped_check _ _ 10); vm_compute; [reflexivity|discriminate].
  - exists y'. split; [exact R|]. split; [exact Hm|exact Hin].
Defined.
