(* ===== verification/Malloc.v ===== *)
(** * malloc.c: the user-space heap

    The allocator's headers live in the byte memory they describe, as in the C
    code: [heap_seg] is 32 bytes in front of each block of the break area, and
    [large_seg] 24 bytes in front of each mapped block. The kernel's [sys_brk],
    [mmap] and [munmap] are parameters ([kernel]). *)

From stdpp Require Import base tactics list gmap numbers strings.
From Stdlib Require Import ZArith Lia.
From S2P Require Import Prelude.
From S2P Require Import Memory.
From S2P Require Import CString.

Definition HEAP_MAGIC : Z := 3735928559.
Definition MIN_ALLOC_SIZE : Z := 16.
Definition HEAP_ALIGN : Z := 16.
Definition LARGE_ALLOC_THRESHOLD : Z := 65536.
Definition sizeof_heap_seg : Z := 32.
Definition sizeof_large_seg : Z := 24.
Definition MAP_FAILED : Z := UINT64_MAX.

(** What the kernel decides: which breaks it grants, where it puts a mapping,
    and what fresh memory holds. *)
Record kernel := {
  k_brk_ok : Z -> bool;
  k_mmap : mem -> Z -> option Z;
  k_byte : Z -> Z
}.

(** The globals of malloc.c, memory, and the kernel's current break. *)
Record heap := {
  h_mem : mem;
  g_heap_head : Z;
  g_heap_base : Z;
  g_heap_end : Z;
  g_large_alloc_list : Z;
  h_brk : Z
}.

Definition set_hmem m (h : heap) : heap :=
  {| h_mem := m; g_heap_head := g_heap_head h; g_heap_base := g_heap_base h;
     g_heap_end := g_heap_end h; g_large_alloc_list := g_large_alloc_list h; h_brk := h_brk h |}.
Definition set_end e (h : heap) : heap :=
  {| h_mem := h_mem h; g_heap_head := g_heap_head h; g_heap_base := g_heap_base h;
     g_heap_end := e; g_large_alloc_list := g_large_alloc_list h; h_brk := h_brk h |}.
Definition set_large p (h : heap) : heap :=
  {| h_mem := h_mem h; g_heap_head := g_heap_head h; g_heap_base := g_heap_base h;
     g_heap_end := g_heap_end h; g_large_alloc_list := p; h_brk := h_brk h |}.

Definition hmem {A} (c : M mem A) : M heap A := zoom h_mem set_hmem c.

(** ** Fields of a header *)

Definition get_length (seg : Z) : M heap Z := hmem (loadn 8 seg).
Definition get_free (seg : Z) : M heap Z := hmem (loadn 4 (seg + 8)).
Definition get_magic (seg : Z) : M heap Z := hmem (loadn 4 (seg + 12)).
Definition get_next (seg : Z) : M heap Z := hmem (loadn 8 (seg + 16)).
Definition get_prev (seg : Z) : M heap Z := hmem (loadn 8 (seg + 24)).
Definition set_length (seg v : Z) : M heap unit := hmem (storen 8 seg v).
Definition set_free (seg v : Z) : M heap unit := hmem (storen 4 (seg + 8) v).
Definition set_magic (seg v : Z) : M heap unit := hmem (storen 4 (seg + 12) v).
Definition set_next (seg v : Z) : M heap unit := hmem (storen 8 (seg + 16) v).
Definition set_prev (seg v : Z) : M heap unit := hmem (storen 8 (seg + 24) v).

(** [lb->addr], [lb->size], [lb->next]. *)
Definition get_addr (lb : Z) : M heap Z := hmem (loadn 8 lb).
Definition get_size (lb : Z) : M heap Z := hmem (loadn 8 (lb + 8)).
Definition get_lnext (lb : Z) : M heap Z := hmem (loadn 8 (lb + 16)).
Definition set_addr (lb v : Z) : M heap unit := hmem (storen 8 lb v).
Definition set_size (lb v : Z) : M heap unit := hmem (storen 8 (lb + 8) v).
Definition set_lnext (lb v : Z) : M heap unit := hmem (storen 8 (lb + 16) v).

(** [(n + (HEAP_ALIGN - 1)) & ~(size_t)(HEAP_ALIGN - 1)] *)
Definition align_up (n : Z) : Z :=
  Z.land (u64 (n + (HEAP_ALIGN - 1))) (UINT64_MAX - (HEAP_ALIGN - 1)).

Section malloc.
Context (k : kernel) (fuel : nat).

(** Fresh memory of [n] bytes at [a]. *)
Fixpoint fresh_bytes (n : nat) (a : Z) : list Z :=
  match n with O => [] | S n' => u8 (k_byte k a) :: fresh_bytes n' (a + 1) end.
Definition fresh (a n : Z) : list Z := fresh_bytes (Z.to_nat n) a.

Definition sys_brk (b : Z) : M heap Z := fun h =>
  if b =? 0 then Done (h_brk h) h
  else if k_brk_ok k b && (h_brk h <=? b) then
    Done b {| h_mem := wr (h_mem h) (h_brk h) (fresh (h_brk h) (b - h_brk h));
              g_heap_head := g_heap_head h; g_heap_base := g_heap_base h; g_heap_end := g_heap_end h;
              g_large_alloc_list := g_large_alloc_list h; h_brk := b |}
  else Done (h_brk h) h.

(** An anonymous mapping of [total] bytes. *)
Definition mmap (total : Z) : M heap Z := fun h =>
  match k_mmap k (h_mem h) total with
  | Some a => Done a (set_hmem (wr (h_mem h) a (fresh a total)) h)
  | None => Done MAP_FAILED h
  end.

Fixpoint unmap_bytes (n : nat) (a : Z) (m : mem) : mem :=
  match n with O => m | S n' => unmap_bytes n' (a + 1) (delete a m) end.
Definition munmap (a n : Z) : M heap unit :=
  modify (fun h => set_hmem (unmap_bytes (Z.to_nat n) a (h_mem h)) h).

Definition find_free_segment (size : Z) : M heap Z :=
  head ← gets g_heap_head;
  while fuel (fun seg =>
    if seg =? NULL then mret (inr NULL)
    else
      mg ← get_magic seg;
      if negb (mg =? HEAP_MAGIC) then mret (inr NULL)
      else
        fr ← get_free seg;
        len ← get_length seg;
        if negb (fr =? 0) && (size <=? len) then mret (inr seg)
        else nx ← get_next seg; mret (inl nx)) head.

Definition split_segment (seg size : Z) : M heap unit :=
  if seg =? NULL then mret tt
  else
    len ← get_length seg;
    if len <=? u64 (size + sizeof_heap_seg + MIN_ALLOC_SIZE) then mret tt
    else
      let new_seg := seg + sizeof_heap_seg + size in
      _ ← set_length new_seg (u64 (len - size - sizeof_heap_seg));
      _ ← set_free new_seg 1;
      _ ← set_magic new_seg HEAP_MAGIC;
      nx ← get_next seg;
      _ ← set_next new_seg nx;
      _ ← set_prev new_seg seg;
      nx ← get_next seg;
      _ ← (if nx =? NULL then mret tt else set_prev nx new_seg);
      _ ← set_next seg new_seg;
      set_length seg size.

(** [next && next->free && next->magic == HEAP_MAGIC] *)
Definition is_free_seg (seg : Z) : M heap bool :=
  if seg =? NULL then mret false
  else
    fr ← get_free seg;
    if fr =? 0 then mret false
    else mg ← get_magic seg; mret (mg =? HEAP_MAGIC).

(** Joins [other], the segment after [seg], to [seg]. *)
Definition absorb (seg other : Z) : M heap unit :=
  len ← get_length seg;
  olen ← get_length other;
  _ ← set_length seg (u64 (len + (sizeof_heap_seg + olen)));
  onx ← get_next other;
  _ ← set_next seg onx;
  nx ← get_next seg;
  if nx =? NULL then mret tt else set_prev nx seg.

Definition combine_segments (seg : Z) : M heap unit :=
  next ← get_next seg;
  b ← is_free_seg next;
  _ ← when b (absorb seg next);
  prev ← get_prev seg;
  b ← is_free_seg prev;
  when b (absorb prev seg).

Definition heap_lazy_init : M heap unit :=
  head ← gets g_heap_head;
  if negb (head =? NULL) then mret tt
  else
    base ← sys_brk 0;
    _ ← modify (fun h => {| h_mem := h_mem h; g_heap_head := g_heap_head h; g_heap_base := base;
                            g_heap_end := g_heap_end h; g_large_alloc_list := g_large_alloc_list h;
                            h_brk := h_brk h |});
    let new_brk := u64 (base + 131072) in
    r ← sys_brk new_brk;
    if negb (r =? new_brk) then mret tt
    else
      _ ← modify (fun h => {| h_mem := h_mem h; g_heap_head := base; g_heap_base := base;
                              g_heap_end := new_brk; g_large_alloc_list := g_large_alloc_list h;
                              h_brk := h_brk h |});
      _ ← set_length base (131072 - sizeof_heap_seg);
      _ ← set_free base 1;
      _ ← set_magic base HEAP_MAGIC;
      _ ← set_next base NULL;
      set_prev base NULL.

Definition malloc_large (size : Z) : M heap Z :=
  let total := u64 (size + sizeof_large_seg) in
  addr ← mmap total;
  if addr =? MAP_FAILED then mret NULL
  else
    _ ← set_addr addr (addr + sizeof_large_seg);
    _ ← set_size addr size;
    l ← gets g_large_alloc_list;
    _ ← set_lnext addr l;
    _ ← modify (set_large addr);
    get_addr addr.

(** The walk to the last segment: [None] when a header is damaged. *)
Definition last_segment : M heap (option Z) :=
  head ← gets g_heap_head;
  while fuel (fun last =>
    nx ← get_next last;
    if nx =? NULL then mret (inr (Some last))
    else
      mg ← get_magic last;
      if negb (mg =? HEAP_MAGIC) then mret (inr None)
      else nx ← get_next last; mret (inl nx)) head.

(** No segment fits: the break area grows. *)
Definition grow_heap (size : Z) : M heap Z :=
  let grow_size := align_up (if 4096 <? size then size else 4096) in
  r ← last_segment;
  match (r : option Z) with
  | None => mret NULL
  | Some last =>
      fr ← get_free last;
      mg ← get_magic last;
      e ← gets g_heap_end;
      if negb (fr =? 0) && (mg =? HEAP_MAGIC) then
        let new_brk := u64 (e + grow_size) in
        b ← sys_brk new_brk;
        if negb (b =? new_brk) then mret NULL
        else
          len ← get_length last;
          _ ← set_length last (u64 (len + grow_size));
          _ ← modify (set_end new_brk);
          mret last
      else
        let new_brk := u64 (e + sizeof_heap_seg + grow_size) in
        b ← sys_brk new_brk;
        if negb (b =? new_brk) then mret NULL
        else
          _ ← set_length e grow_size;
          _ ← set_free e 1;
          _ ← set_magic e HEAP_MAGIC;
          _ ← set_next e NULL;
          _ ← set_prev e last;
          _ ← set_next last e;
          _ ← modify (set_end new_brk);
          mret e
  end.

(** The size a request is rounded to. *)
Definition round_size (size : Z) : Z :=
  let size := align_up size in if size <? MIN_ALLOC_SIZE then MIN_ALLOC_SIZE else size.

Definition malloc (size : Z) : M heap Z :=
  if size =? 0 then mret NULL
  else if LARGE_ALLOC_THRESHOLD <=? size then malloc_large size
  else
    _ ← heap_lazy_init;
    head ← gets g_heap_head;
    if head =? NULL then mret NULL
    else
      let size := round_size size in
      seg ← find_free_segment size;
      seg ← (if seg =? NULL then grow_heap size else mret seg);
      if seg =? NULL then mret NULL
      else
        _ ← split_segment seg size;
        _ ← set_free seg 0;
        mret (seg + sizeof_heap_seg).

Definition heap_free (ptr : Z) : M heap unit :=
  if ptr =? NULL then mret tt
  else
    let seg := ptr - sizeof_heap_seg in
    mg ← get_magic seg;
    if negb (mg =? HEAP_MAGIC) then mret tt
    else
      fr ← get_free seg;
      if negb (fr =? 0) then mret tt
      else
        _ ← set_free seg 1;
        combine_segments seg.

(** [cur] of [free]: the list head, or the [next] field of a node. *)
Definition get_cur (cur : option Z) : M heap Z :=
  match cur with None => gets g_large_alloc_list | Some lb => get_lnext lb end.
Definition set_cur (cur : option Z) (v : Z) : M heap unit :=
  match cur with None => modify (set_large v) | Some lb => set_lnext lb v end.

(** The search of [free] in the list of large blocks: whether it was there. *)
Definition free_large_step (ptr : Z) (cur : option Z) : M heap (option Z + bool) :=
  lb ← get_cur cur;
  if lb =? NULL then mret (inr false)
  else
    a ← get_addr lb;
    if a =? ptr then
      sz ← get_size lb;
      nx ← get_lnext lb;
      _ ← munmap (ptr - sizeof_large_seg) (u64 (sz + sizeof_large_seg));
      _ ← set_cur cur nx;
      mret (inr true)
    else mret (inl (Some lb)).
Definition free_large (ptr : Z) : M heap bool := while fuel (free_large_step ptr) None.

Definition free (ptr : Z) : M heap unit :=
  if ptr =? NULL then mret tt
  else b ← free_large ptr; if (b : bool) then mret tt else heap_free ptr.

(** The large block at [ptr], if there is one: its size. *)
Definition find_large (ptr : Z) : M heap (option Z) :=
  head ← gets g_large_alloc_list;
  while fuel (fun lb =>
    if lb =? NULL then mret (inr None)
    else
      a ← get_addr lb;
      if a =? ptr then sz ← get_size lb; mret (inr (Some sz))
      else nx ← get_lnext lb; mret (inl nx)) head.

(** [memcpy] in caller memory; [fuel] bounds its loop. *)
Definition copy (d s n : Z) : M heap unit := hmem (_ ← memcpy fuel d s n; mret tt).

Definition realloc (ptr new_size : Z) : M heap Z :=
  if ptr =? NULL then malloc new_size
  else if new_size =? 0 then _ ← free ptr; mret NULL
  else
    lg ← find_large ptr;
    match (lg : option Z) with
    | Some size =>
        if new_size <=? size then mret ptr
        else
          new_ptr ← malloc new_size;
          if new_ptr =? NULL then mret NULL
          else _ ← copy new_ptr ptr size; _ ← free ptr; mret new_ptr
    | None =>
        let seg := ptr - sizeof_heap_seg in
        mg ← get_magic seg;
        if negb (mg =? HEAP_MAGIC) then mret NULL
        else
          let aligned_new := round_size new_size in
          len ← get_length seg;
          if aligned_new <=? len then _ ← split_segment seg aligned_new; mret ptr
          else
            new_ptr ← malloc new_size;
            if new_ptr =? NULL then mret NULL
            else
              len ← get_length seg;
              _ ← copy new_ptr ptr (if len <? new_size then len else new_size);
              _ ← free ptr;
              mret new_ptr
    end.

Definition calloc (nmemb size : Z) : M heap Z :=
  if (nmemb =? 0) || (size =? 0) then mret NULL
  else if SIZE_MAX / nmemb <? size then mret NULL
  else
    let total := u64 (nmemb * size) in
    ptr ← malloc total;
    if ptr =? NULL then mret NULL
    else
      _ ← when (total <? LARGE_ALLOC_THRESHOLD) (hmem (_ ← memset fuel ptr 0 total; mret tt));
      mret ptr.
End malloc.
