(* ===== verification/MallocFacts.v ===== *)
(** * The heap's layout

    The break area is a row of blocks, each with its header: the layout is the
    list of their sizes and states, and [lseg] says that the doubly linked list
    of headers in memory is that row. Every operation of malloc.c is a small
    change of the list. *)

From stdpp Require Import base tactics list gmap numbers strings.
From Stdlib Require Import ZArith Lia Sorted.
From S2P Require Import Prelude.
From S2P Require Import Memory.
From S2P Require Import Malloc.

(** ** Words in memory *)

Lemma loadn_le m a n v :
  arr m a (to_le n v) -> 0 <= v < 256 ^ Z.of_nat n -> loadn n a m = Done v m.
Proof.
  intros Ha Hv. pose proof (loadn_arr _ _ _ Ha) as H. rewrite length_to_le in H.
  by rewrite H, le_bytes_to_le, Z.mod_small.
Qed.

(** Memory changed only in [P], and nothing was unmapped. *)
Definition changed (m m' : mem) (P : Z -> Prop) : Prop :=
  (forall x, ~ P x -> m' !! x = m !! x) /\ (forall x, is_Some (m !! x) -> is_Some (m' !! x)).

Definition within (a n x : Z) : Prop := a <= x < a + n.

(** Memory is the same outside [P]; inside, bytes may have been unmapped too. *)
Definition same_outside (P : Z -> Prop) (m m' : mem) : Prop := forall x, ~ P x -> m' !! x = m !! x.

Lemma changed_refl m P : changed m m P.
Proof. done. Qed.

Lemma changed_weaken m m' (P Q : Z -> Prop) : (forall x, P x -> Q x) -> changed m m' P -> changed m m' Q.
Proof. intros H [H1 H2]. split; [|done]. intros x Hx. apply H1. intros Hp. by apply Hx, H. Qed.

Lemma changed_trans m1 m2 m3 P : changed m1 m2 P -> changed m2 m3 P -> changed m1 m3 P.
Proof.
  intros [H1 H2] [H3 H4]. split; [|by intros; apply H4, H2].
  intros x Hx. by rewrite H3, H1.
Qed.

Lemma changed_wr m a l : changed m (wr m a l) (within a (zlen l)).
Proof.
  split.
  - intros x Hx. apply lookup_wr_out. done.
  - intros x Hx. rewrite lookup_wr. case_decide; [|done]. apply lookup_lt_is_Some_2. lia.
Qed.

Lemma arr_same m m' P a l :
  same_outside P m m' -> (forall x, within a (zlen l) x -> ~ P x) -> arr m a l -> arr m' a l.
Proof.
  intros H Hd Ha. apply arr_intro. intros i b Hi. apply lookup_lt_Some in Hi as Hl.
  rewrite H by (apply Hd; unfold within; lia). by eapply arr_lookup.
Qed.

Lemma changed_arr m m' P a l :
  changed m m' P -> (forall x, within a (zlen l) x -> ~ P x) -> arr m a l -> arr m' a l.
Proof. intros [H _]. by apply arr_same. Qed.

Lemma mapped_same m m' P a n :
  same_outside P m m' -> (forall x, within a n x -> ~ P x) -> mapped m a n -> mapped m' a n.
Proof. intros H Hd Hm x Hx. rewrite H by (by apply Hd). by apply Hm. Qed.

Lemma changed_mapped m m' P a n : changed m m' P -> mapped m a n -> mapped m' a n.
Proof. intros [_ H] Hm x Hx. apply H, Hm, Hx. Qed.

(** ** Headers *)

Record seg := { sg_len : Z; sg_free : bool; sg_next : Z; sg_prev : Z }.

Definition word64 (v : Z) : Prop := 0 <= v < 2 ^ 64.

Definition hdr (m : mem) (a : Z) (s : seg) : Prop :=
  arr m a (to_le 8 (sg_len s)) /\ arr m (a + 8) (to_le 4 (b2z (sg_free s))) /\
  arr m (a + 12) (to_le 4 HEAP_MAGIC) /\ arr m (a + 16) (to_le 8 (sg_next s)) /\
  arr m (a + 24) (to_le 8 (sg_prev s)) /\
  word64 (sg_len s) /\ word64 (sg_next s) /\ word64 (sg_prev s).

Lemma hdr_same m m' P a s :
  same_outside P m m' -> (forall x, within a 32 x -> ~ P x) -> hdr m a s -> hdr m' a s.
Proof.
  intros Hc Hd (H1 & H2 & H3 & H4 & H5 & H6).
  assert (forall o n v, 0 <= o -> o + Z.of_nat n <= 32 -> arr m (a + o) (to_le n v) -> arr m' (a + o) (to_le n v)) as K.
  { intros o n v Ho Hn Ha. eapply arr_same; [exact Hc| |exact Ha].
    rewrite length_to_le. intros x Hx. apply Hd. unfold within in *. lia. }
  pose proof (K 0 8%nat) as K0. rewrite Z.add_0_r in K0.
  split_and!; try (apply K0); try (apply K); try done; try lia; apply H6.
Qed.

Lemma hdr_changed m m' P a s :
  changed m m' P -> (forall x, within a 32 x -> ~ P x) -> hdr m a s -> hdr m' a s.
Proof. intros [H _]. by apply hdr_same. Qed.

Lemma hmem_run {A} (c : M mem A) h a m' :
  c (h_mem h) = Done a m' -> hmem c h = Done a (set_hmem m' h).
Proof. unfold hmem, zoom. by intros ->. Qed.

Lemma set_hmem_id h : set_hmem (h_mem h) h = h.
Proof. by destruct h. Qed.

Lemma hmem_load h n a v :
  arr (h_mem h) a (to_le n v) -> 0 <= v < 256 ^ Z.of_nat n -> hmem (loadn n a) h = Done v h.
Proof.
  intros Ha Hv. rewrite (hmem_run _ h v (h_mem h)) by (by apply loadn_le). by rewrite set_hmem_id.
Qed.

(** Reading the fields of a header. *)
Section get_fields.
Context (h : heap) (a : Z) (s : seg).
Context (H : hdr (h_mem h) a s).

Lemma get_length_ok : get_length a h = Done (sg_len s) h.
Proof. destruct H as (H1 & _ & _ & _ & _ & ? & _). by apply hmem_load. Qed.
Lemma get_free_ok : get_free a h = Done (b2z (sg_free s)) h.
Proof. destruct H as (_ & H1 & _). apply hmem_load; [done|]. destruct (sg_free s); done. Qed.
Lemma get_magic_ok : get_magic a h = Done HEAP_MAGIC h.
Proof. destruct H as (_ & _ & H1 & _). by apply hmem_load. Qed.
Lemma get_next_ok : get_next a h = Done (sg_next s) h.
Proof. destruct H as (_ & _ & _ & H1 & _ & _ & ? & _). by apply hmem_load. Qed.
Lemma get_prev_ok : get_prev a h = Done (sg_prev s) h.
Proof. destruct H as (_ & _ & _ & _ & H1 & _ & _ & ?). by apply hmem_load. Qed.
End get_fields.

(** A store into part of a header leaves the other fields alone. *)
Lemma store_field h n a v :
  mapped (h_mem h) a (Z.of_nat n) ->
  exists m', hmem (storen n a v) h = Done tt (set_hmem m' h) /\ arr m' a (to_le n v) /\
    changed (h_mem h) m' (within a (Z.of_nat n)).
Proof.
  intros Hm. exists (wr (h_mem h) a (to_le n v)). split; [|split].
  - apply hmem_run. by apply storen_run.
  - apply wr_arr.
  - pose proof (changed_wr (h_mem h) a (to_le n v)) as Hc. by rewrite length_to_le in Hc.
Qed.

Lemma hdr_mapped m a s : hdr m a s -> mapped m a 32.
Proof.
  intros (H1 & H2 & H3 & H4 & H5 & _) x Hx.
  apply arr_mapped in H1, H2, H3, H4, H5. rewrite !length_to_le in *. simpl in *.
  destruct (decide (x < a + 8)); [apply H1; lia|]. destruct (decide (x < a + 12)); [apply H2; lia|].
  destruct (decide (x < a + 16)); [apply H3; lia|]. destruct (decide (x < a + 24)); [apply H4; lia|].
  apply H5. lia.
Qed.

Definition with_len v s := {| sg_len := v; sg_free := sg_free s; sg_next := sg_next s; sg_prev := sg_prev s |}.
Definition with_free v s := {| sg_len := sg_len s; sg_free := v; sg_next := sg_next s; sg_prev := sg_prev s |}.
Definition with_next v s := {| sg_len := sg_len s; sg_free := sg_free s; sg_next := v; sg_prev := sg_prev s |}.
Definition with_prev v s := {| sg_len := sg_len s; sg_free := sg_free s; sg_next := sg_next s; sg_prev := v |}.

(** The result of a store into the header at [a]. *)
Definition stored (c : M heap unit) (h : heap) (a : Z) (s : seg) : Prop :=
  exists m', c h = Done tt (set_hmem m' h) /\ hdr m' a s /\ changed (h_mem h) m' (within a 32).

Ltac field_store o n v :=
  match goal with H : hdr (h_mem ?h) ?a ?s |- _ =>
    let m' := fresh "m'" in let R := fresh "R" in let Ha := fresh "Ha" in let Hc := fresh "Hc" in
    destruct (store_field h n (a + o) v) as (m' & R & Ha & Hc);
    [intros x Hx; apply (hdr_mapped _ _ _ H); simpl in Hx; lia|];
    exists m'; rewrite ?Z.add_0_r in R, Ha, Hc; split; [exact R|]; split;
    [|eapply changed_weaken; [|exact Hc]; intros x; unfold within; simpl; lia];
    destruct H as (? & ? & ? & ? & ? & ? & ? & ?);
    split_and!; try done;
    eapply changed_arr; try exact Hc; try done; rewrite length_to_le; intros x; unfold within; simpl; lia
  end.

Lemma set_length_ok h a s v : hdr (h_mem h) a s -> word64 v -> stored (set_length a v) h a (with_len v s).
Proof. intros H Hv. unfold stored, set_length. field_store 0 8%nat v. Qed.
Lemma set_free_ok h a s (v : bool) : hdr (h_mem h) a s -> stored (set_free a (b2z v)) h a (with_free v s).
Proof. intros H. unfold stored, set_free. field_store 8 4%nat (b2z v). Qed.
Lemma set_next_ok h a s v : hdr (h_mem h) a s -> word64 v -> stored (set_next a v) h a (with_next v s).
Proof. intros H Hv. unfold stored, set_next. field_store 16 8%nat v. Qed.
Lemma set_prev_ok h a s v : hdr (h_mem h) a s -> word64 v -> stored (set_prev a v) h a (with_prev v s).
Proof. intros H Hv. unfold stored, set_prev. field_store 24 8%nat v. Qed.

(** The first three fields of a new header. *)
Definition hdr3 (m : mem) (a len : Z) : Prop :=
  arr m a (to_le 8 len) /\ arr m (a + 8) (to_le 4 1) /\ arr m (a + 12) (to_le 4 HEAP_MAGIC) /\ mapped m a 32.

Lemma init3_ok h a len :
  mapped (h_mem h) a 32 ->
  exists m', (_ ← set_length a len; _ ← set_free a 1; set_magic a HEAP_MAGIC) h = Done tt (set_hmem m' h) /\
    hdr3 m' a len /\ changed (h_mem h) m' (within a 32).
Proof.
  intros Hm. unfold set_length, set_free, set_magic. mstep.
  destruct (store_field h 8 a len) as (m1 & R1 & A1 & C1); [intros x Hx; apply Hm; lia|]. rewrite R1.
  destruct (store_field (set_hmem m1 h) 4 (a + 8) 1) as (m2 & R2 & A2 & C2).
  { intros x Hx. eapply (changed_mapped _ _ _ a 32); [exact C1|done|lia]. }
  mstep. rewrite R2. simpl in C2.
  destruct (store_field (set_hmem m2 (set_hmem m1 h)) 4 (a + 12) HEAP_MAGIC) as (m3 & R3 & A3 & C3).
  { intros x Hx. eapply (changed_mapped _ _ _ a 32); [exact C2| |lia]. by eapply changed_mapped. }
  mstep. rewrite R3. simpl in C3. exists m3. split; [done|].
  assert (mapped m3 a 32) as Hm3 by (eapply changed_mapped, changed_mapped, changed_mapped; eauto).
  split; [split_and!; try done|].
  - eapply changed_arr; [exact C3| |eapply changed_arr; [exact C2| |exact A1]];
      rewrite length_to_le; intros x; unfold within; simpl; lia.
  - eapply changed_arr; [exact C3| |exact A2]; rewrite length_to_le; intros x; unfold within; simpl; lia.
  - eapply changed_trans; [eapply changed_weaken; [|exact C1]|eapply changed_trans; eapply changed_weaken; [|exact C2| |exact C3]];
      intros x; unfold within; simpl; lia.
Qed.

Lemma init2_ok h a len nx pv :
  hdr3 (h_mem h) a len -> word64 len -> word64 nx -> word64 pv ->
  stored (_ ← set_next a nx; set_prev a pv) h a {| sg_len := len; sg_free := true; sg_next := nx; sg_prev := pv |}.
Proof.
  intros (H1 & H2 & H3 & Hm) Hl Hn Hp. unfold stored, set_next, set_prev. mstep.
  destruct (store_field h 8 (a + 16) nx) as (m1 & R1 & A1 & C1); [intros x Hx; apply Hm; lia|]. rewrite R1.
  destruct (store_field (set_hmem m1 h) 8 (a + 24) pv) as (m2 & R2 & A2 & C2).
  { intros x Hx. eapply (changed_mapped _ _ _ a 32); [exact C1|done|lia]. }
  mstep. rewrite R2. simpl in C2. exists m2. split; [done|].
  assert (changed (h_mem h) m2 (fun x => a + 16 <= x < a + 32)) as C.
  { eapply changed_trans; eapply changed_weaken; [|exact C1| |exact C2]; intros x; unfold within; simpl; lia. }
  split; [|eapply changed_weaken; [|exact C]; intros x; unfold within; lia].
  split_and!; try done;
    try (eapply changed_arr; [exact C| |done]; rewrite length_to_le; intros x; unfold within; simpl; lia).
  eapply changed_arr; [exact C2| |exact A1]; rewrite length_to_le; intros x; unfold within; simpl; lia.
Qed.

(** ** Layouts *)

(** A block: its size and whether it is free. *)
Abbreviation block := (Z * bool)%type.

(** The bytes a row of blocks takes, headers included. *)
Fixpoint span (l : list block) : Z :=
  match l with [] => 0 | (n, _) :: r => 32 + n + span r end.

Lemma span_app l1 l2 : span (l1 ++ l2) = span l1 + span l2.
Proof. induction l1 as [|[n f] l1 IH]; simpl; lia. Qed.

(** The address of the last block of a row, [p] when there is none. *)
Fixpoint last_addr (p a : Z) (l : list block) : Z :=
  match l with [] => p | (n, _) :: r => last_addr a (a + 32 + n) r end.

(** Sizes are multiples of 16, at least 16. *)
Definition block_ok (b : block) : Prop := 16 <= b.1 /\ b.1 mod 16 = 0.

(** The headers of the row [l] at [a]: the first one's [prev] is [p] and the
    last one's [next] is [z]. *)
Fixpoint lseg (m : mem) (a p : Z) (l : list block) (z : Z) : Prop :=
  match l with
  | [] => True
  | (n, f) :: r =>
      hdr m a {| sg_len := n; sg_free := f; sg_next := match r with [] => z | _ => a + 32 + n end; sg_prev := p |} /\
      lseg m (a + 32 + n) a r z
  end.

(** The header bytes of a row. *)
Fixpoint hdrs (a : Z) (l : list block) (x : Z) : Prop :=
  match l with
  | [] => False
  | (n, _) :: r => within a 32 x \/ hdrs (a + 32 + n) r x
  end.

(** The payload bytes of the used blocks of a row. *)
Fixpoint live (a : Z) (l : list block) (x : Z) : Prop :=
  match l with
  | [] => False
  | (n, f) :: r => (f = false /\ within (a + 32) n x) \/ live (a + 32 + n) r x
  end.

(** The used blocks of a row: their addresses and sizes. *)
Fixpoint used (a : Z) (l : list block) : list (Z * Z) :=
  match l with
  | [] => []
  | (n, f) :: r => (if f then [] else [(a + 32, n)]) ++ used (a + 32 + n) r
  end.

(** ** Rows *)

Lemma span_nonneg l : Forall block_ok l -> 0 <= span l.
Proof. induction 1 as [|[n f] l [Hn _] _ IH]; simpl in *; lia. Qed.

Lemma hdrs_range a l x : Forall block_ok l -> hdrs a l x -> a <= x < a + span l.
Proof.
  intros H. revert a. induction H as [|[n f] l [Hn _] Hl IH]; intros a; simpl in *; [done|].
  pose proof (span_nonneg _ Hl). intros [Hx|Hx]; [unfold within in Hx; lia|]. apply IH in Hx. lia.
Qed.

Lemma live_range a l x : Forall block_ok l -> live a l x -> a + 32 <= x < a + span l.
Proof.
  intros H. revert a. induction H as [|[n f] l [Hn _] Hl IH]; intros a; simpl in *; [done|].
  pose proof (span_nonneg _ Hl). intros [[_ Hx]|Hx]; [unfold within in Hx; lia|]. apply IH in Hx. lia.
Qed.

Lemma live_not_hdr a l x : Forall block_ok l -> live a l x -> ~ hdrs a l x.
Proof.
  intros H. revert a. induction H as [|[n f] l [Hn _] Hl IH]; intros a; simpl in *; [done|].
  intros [[_ Hx]|Hx] [Hy|Hy]; unfold within in *.
  - lia.
  - apply hdrs_range in Hy; [lia|done].
  - apply live_range in Hx; [lia|done].
  - by eapply IH.
Qed.

Lemma hdrs_app a l1 l2 x : hdrs a (l1 ++ l2) x <-> hdrs a l1 x \/ hdrs (a + span l1) l2 x.
Proof.
  revert a. induction l1 as [|[n f] l1 IH]; intros a; simpl.
  - rewrite Z.add_0_r. tauto.
  - rewrite IH. replace (a + 32 + n + span l1) with (a + (32 + n + span l1)) by lia. tauto.
Qed.

Lemma live_app a l1 l2 x : live a (l1 ++ l2) x <-> live a l1 x \/ live (a + span l1) l2 x.
Proof.
  revert a. induction l1 as [|[n f] l1 IH]; intros a; simpl.
  - rewrite Z.add_0_r. tauto.
  - rewrite IH. replace (a + 32 + n + span l1) with (a + (32 + n + span l1)) by lia. tauto.
Qed.

Lemma used_app a l1 l2 : used a (l1 ++ l2) = used a l1 ++ used (a + span l1) l2.
Proof.
  revert a. induction l1 as [|[n f] l1 IH]; intros a; simpl.
  - by rewrite Z.add_0_r.
  - rewrite IH, app_assoc. do 2 f_equal. lia.
Qed.

(** A byte is live when it belongs to a used block. *)
Lemma live_used a l x : live a l x <-> exists p n, (p, n) ∈ used a l /\ within p n x.
Proof.
  revert a. induction l as [|[n f] l IH]; intros a; simpl.
  - split; [done|]. intros (p & n & H & _). by apply not_elem_of_nil in H.
  - rewrite IH. split.
    + intros [[-> Hx]|(p & m & H & Hx)].
      * exists (a + 32), n. simpl. split; [left|done].
      * exists p, m. split; [|done]. apply elem_of_app. by right.
    + intros (p & m & H & Hx). apply elem_of_app in H as [H|H]; [left|right; eauto].
      destruct f; [by apply not_elem_of_nil in H|]. apply list_elem_of_singleton in H as [= -> ->]. done.
Qed.

Lemma used_range a l p n : Forall block_ok l -> (p, n) ∈ used a l -> a + 32 <= p /\ p + n <= a + span l /\ 16 <= n.
Proof.
  intros H. revert a. induction H as [|[k f] l [Hk _] Hl IH]; intros a; simpl in *.
  - intros H. by apply not_elem_of_nil in H.
  - pose proof (span_nonneg _ Hl). intros H'. apply elem_of_app in H' as [H'|H'].
    + destruct f; [by apply not_elem_of_nil in H'|]. apply list_elem_of_singleton in H' as [= -> ->]. lia.
    + apply IH in H'. lia.
Qed.

(** Used blocks are in address order, with a header between any two. *)
Lemma used_sorted a l :
  Forall block_ok l -> StronglySorted (fun b c => b.1 + b.2 + 32 <= c.1) (used a l).
Proof.
  intros H. revert a. induction H as [|[k f] l [Hk _] Hl IH]; intros a; simpl in *; [constructor|].
  destruct f; simpl; [done|]. constructor; [done|]. apply Forall_forall. intros [p n] Hp.
  apply used_range in Hp; [|done]. simpl. lia.
Qed.

Lemma last_addr_snoc p a l n f : last_addr p a (l ++ [(n, f)]) = a + span l.
Proof.
  revert p a. induction l as [|[k g] l IH]; intros p a; simpl; [lia|]. rewrite IH. lia.
Qed.

Lemma lseg_app m a p l1 b l2 z :
  lseg m a p (l1 ++ b :: l2) z <->
  lseg m a p l1 (a + span l1) /\ lseg m (a + span l1) (last_addr p a l1) (b :: l2) z.
Proof.
  revert a p. induction l1 as [|[n f] l1 IH]; intros a p.
  - simpl app. simpl span. simpl last_addr. rewrite Z.add_0_r. simpl. tauto.
  - simpl app. simpl lseg at 1 2. simpl span. simpl last_addr. rewrite IH.
    replace (a + 32 + n + span l1) with (a + (32 + n + span l1)) by lia.
    assert (match l1 ++ b :: l2 with [] => z | _ => a + 32 + n end
      = match l1 with [] => a + (32 + n + span l1) | _ => a + 32 + n end) as E.
    { destruct l1; simpl; [lia|done]. }
    rewrite E. tauto.
Qed.

Lemma lseg_same m m' P a p l z :
  Forall block_ok l -> same_outside P m m' -> (forall x, hdrs a l x -> ~ P x) -> lseg m a p l z -> lseg m' a p l z.
Proof.
  intros Hok. revert a p. induction Hok as [|[n f] l _ Hl IH]; intros a p Hc Hd; simpl in *; [done|].
  intros [Hh Hs]. split.
  - eapply hdr_same; [exact Hc| |exact Hh]. intros x Hx. apply Hd. by left.
  - apply IH; [done| |done]. intros x Hx. apply Hd. by right.
Qed.

Lemma lseg_changed m m' P a p l z :
  Forall block_ok l -> changed m m' P -> (forall x, hdrs a l x -> ~ P x) -> lseg m a p l z -> lseg m' a p l z.
Proof. intros Hok [H _]. by apply lseg_same. Qed.

(** Changes outside a row, by position. *)
Lemma lseg_changed_range m m' lo hi a p l z :
  Forall block_ok l -> changed m m' (fun x => lo <= x < hi) -> (a + span l <= lo \/ hi <= a) ->
  lseg m a p l z -> lseg m' a p l z.
Proof.
  intros Hok Hc Hd. eapply lseg_changed; [done|exact Hc|]. intros x Hx. apply hdrs_range in Hx; [blia|done].
Qed.

(** [next] of a block in front of the row [l] at [a]. *)
Definition link (a : Z) (l : list block) : Z := match l with [] => NULL | _ => a end.

(** Relinking the row behind a block: its first header gets a new [prev]. *)
Lemma relink_ok h a p p' l :
  Forall block_ok l -> 0 < a -> word64 p' -> lseg (h_mem h) a p l NULL ->
  exists m', (if link a l =? NULL then mret tt else set_prev (link a l) p') h = Done tt (set_hmem m' h) /\
    lseg m' a p' l NULL /\ changed (h_mem h) m' (within a 32) /\ (l = [] -> m' = h_mem h).
Proof.
  intros Hok Ha Hp Hs. destruct l as [|[n f] l]; simpl.
  - exists (h_mem h). mstep. rewrite set_hmem_id. split_and!; try done.
  - rewrite (proj2 (Z.eqb_neq a NULL)) by (unfold NULL; lia). destruct Hs as [Hh Hs].
    destruct (set_prev_ok h a _ p' Hh Hp) as (m' & R & Hh' & Hc).
    exists m'. split_and!; try done.
    apply Forall_cons in Hok as [[Hn _] Hok]. simpl in Hn.
    eapply lseg_changed; [done|exact Hc| |done]. intros x Hx. apply hdrs_range in Hx; [|done]. unfold within. lia.
Qed.

(** ** Splitting *)

Definition carve (f : bool) (n size : Z) : list block :=
  if n <=? size + 48 then [(n, f)] else [(size, f); (n - size - 32, true)].

Lemma carve_span f n size : span (carve f n size) = 32 + n.
Proof. unfold carve. case_match; simpl; lia. Qed.

Lemma carve_ok f n size : block_ok (n, f) -> block_ok (size, f) -> size <= n -> Forall block_ok (carve f n size).
Proof.
  intros [H1 H2] [H3 H4] Hle. unfold carve. simpl in *. destruct (Z.leb_spec n (size + 48)).
  - by apply Forall_singleton.
  - repeat constructor; simpl; try done; [lia|]. rewrite <- (Z.mod_add _ 2) by lia.
    replace (n - size - 32 + 2 * 16) with (n - size) by lia. by rewrite Zminus_mod, H2, H4.
Qed.

Lemma set_hmem_set m m' h : set_hmem m' (set_hmem m h) = set_hmem m' h.
Proof. done. Qed.

Lemma link_word a l : 0 < a < 2 ^ 63 -> word64 (link a l).
Proof. unfold link, word64, NULL. destruct l; lia. Qed.

(** The part of a split in which headers change, at the block's address [x]. *)
Lemma split_run h x p n f size l2 :
  Forall block_ok ((n, f) :: l2) -> block_ok (size, f) -> size + 48 < n ->
  0 < x -> x + 32 + n + span l2 < 2 ^ 63 -> mapped (h_mem h) x (32 + n) ->
  lseg (h_mem h) x p ((n, f) :: l2) NULL ->
  exists m', split_segment x size h = Done tt (set_hmem m' h) /\
    lseg m' x p ((size, f) :: (n - size - 32, true) :: l2) NULL /\
    changed (h_mem h) m' (fun a => hdrs x ((size, f) :: (n - size - 32, true) :: l2) a).
Proof.
  intros Hok [Hs16 _] Hlt Hx Hmax Hm [Hh Hl2]. simpl in Hs16.
  apply Forall_cons in Hok as [[Hn _] Hok]. simpl in Hn. pose proof (span_nonneg _ Hok) as Hsp.
  set (y := x + 32 + size) in *. unfold split_segment.
  rewrite (proj2 (Z.eqb_neq x NULL)) by (unfold NULL; lia). mstep.
  rewrite (get_length_ok _ _ _ Hh). mstep. cbn [sg_len].
  unfold sizeof_heap_seg, MIN_ALLOC_SIZE. rewrite u64_id by (unfold UINT64_MAX; lia).
  rewrite (proj2 (Z.leb_gt n _)) by lia. fold y.
  rewrite (u64_id (n - size - 32)) by (unfold UINT64_MAX; lia).
  destruct (init3_ok h y (n - size - 32)) as (m1 & R1 & H3 & C1).
  { intros a Ha. apply Hm. lia. }
  revert R1. mstep. intros R1.
  destruct (set_length y (n - size - 32) h) as [[] ha| |]; try done. revert R1. mstep. intros R1.
  destruct (set_free y 1 ha) as [[] hb| |]; try done. mstep. rewrite R1. mstep.
  assert (hdr m1 x {| sg_len := n; sg_free := f; sg_next := link (x + 32 + n) l2; sg_prev := p |}) as Hh1.
  { eapply hdr_changed; [exact C1| |by destruct l2]. intros a. unfold within. lia. }
  rewrite (get_next_ok (set_hmem m1 h) _ _ Hh1). mstep. cbn [sg_next].
  assert (word64 (link (x + 32 + n) l2)) as Hw by (apply link_word; lia).
  destruct (init2_ok (set_hmem m1 h) y (n - size - 32) (link (x + 32 + n) l2) x) as (m2 & R2 & Hy & C2);
    try done; try (unfold word64; lia).
  revert R2. mstep. intros R2.
  destruct (set_next y (link (x + 32 + n) l2) (set_hmem m1 h)) as [[] hc| |]; try done. mstep. rewrite R2. mstep.
  rewrite set_hmem_set. cbn [h_mem set_hmem] in C2.
  assert (changed (h_mem h) m2 (within y 32)) as C12 by (by eapply changed_trans).
  assert (hdr m2 x {| sg_len := n; sg_free := f; sg_next := link (x + 32 + n) l2; sg_prev := p |}) as Hh2.
  { eapply hdr_changed; [exact C2| |exact Hh1]. intros a. unfold within. lia. }
  rewrite (get_next_ok (set_hmem m2 h) _ _ Hh2). mstep. cbn [sg_next].
  assert (lseg m2 (x + 32 + n) x l2 NULL) as Hl2'.
  { eapply lseg_changed; [done|exact C12| |exact Hl2]. intros a Ha. apply hdrs_range in Ha; [|done]. unfold within. lia. }
  destruct (relink_ok (set_hmem m2 h) (x + 32 + n) x y l2) as (m3 & -> & Hl3 & C3 & C3'); try done; try lia.
  { unfold word64. lia. }
  mstep. rewrite set_hmem_set. cbn [h_mem set_hmem] in C3, C3'.
  assert (forall a s, a + 32 <= x + 32 + n -> hdr m2 a s -> hdr m3 a s) as K3.
  { intros a s Ha. eapply hdr_changed; [exact C3|]. intros b. unfold within. lia. }
  assert (x + 32 <= x + 32 + n) as Hxx by lia.
  destruct (set_next_ok (set_hmem m3 h) x _ y (K3 _ _ Hxx Hh2)) as (m4 & -> & Hx4 & C4); [unfold word64; lia|].
  mstep. rewrite set_hmem_set. cbn [h_mem set_hmem] in C4.
  destruct (set_length_ok (set_hmem m4 h) x _ size Hx4) as (m5 & -> & Hx5 & C5); [unfold word64; lia|].
  rewrite set_hmem_set. cbn [h_mem set_hmem] in C5.
  assert (changed m3 m5 (within x 32)) as C35 by (by eapply changed_trans).
  exists m5. split; [done|]. split.
  - cbn [lseg]. fold y. split; [exact Hx5|]. replace (y + 32 + (n - size - 32)) with (x + 32 + n) by lia. split.
    + eapply hdr_changed; [exact C35| |]; [intros a; unfold within; lia|].
      apply K3; [lia|]. by destruct l2.
    + eapply lseg_changed; [done|exact C35| |exact Hl3]. intros a Ha. apply hdrs_range in Ha; [|done]. unfold within. lia.
  - assert (changed m2 m3 (hdrs x ((size, f) :: (n - size - 32, true) :: l2))) as C3h.
    { destruct l2 as [|[n2 f2] l2]; [by rewrite C3' by done|].
      eapply changed_weaken; [|exact C3]. intros a Ha. simpl. fold y.
      replace (y + 32 + (n - size - 32)) with (x + 32 + n) by lia. tauto. }
    eapply changed_trans; [|eapply changed_trans; [exact C3h|]].
    + eapply changed_weaken; [|exact C12]. intros a Ha. simpl. fold y. tauto.
    + eapply changed_weaken; [|exact C35]. intros a Ha. simpl. tauto.
Qed.

(** ** The break area *)

(** The break area of [h] is the row [l]. *)
Definition row (h : heap) (l : list block) : Prop :=
  Forall block_ok l /\ 0 < g_heap_head h /\ g_heap_head h + span l < 2 ^ 63 /\
  mapped (h_mem h) (g_heap_head h) (span l) /\ lseg (h_mem h) (g_heap_head h) NULL l NULL.

(** The address of the block behind the row [l1]. *)
Definition addr_of (h : heap) (l1 : list block) : Z := g_heap_head h + span l1.

Lemma row_at h l1 b l2 :
  row h (l1 ++ b :: l2) ->
  Forall block_ok l1 /\ block_ok b /\ Forall block_ok l2 /\ 0 < addr_of h l1 /\
  addr_of h l1 + span (b :: l2) < 2 ^ 63 /\ mapped (h_mem h) (addr_of h l1) (span (b :: l2)) /\
  lseg (h_mem h) (g_heap_head h) NULL l1 (addr_of h l1) /\
  lseg (h_mem h) (addr_of h l1) (last_addr NULL (g_heap_head h) l1) (b :: l2) NULL.
Proof.
  intros (Hok & Hpos & Hmax & Hm & Hs). apply Forall_app in Hok as [H1 H2]. apply Forall_cons in H2 as [Hb H2].
  apply lseg_app in Hs as [Hs1 Hs2]. rewrite span_app in *. pose proof (span_nonneg _ H1) as Hsp.
  unfold addr_of. split_and!; try done; try lia.
  intros x Hx. apply Hm. lia.
Qed.

(** Replacing the blocks from one on, by as many bytes. *)
Lemma row_change h l1 b l2 l' m' :
  row h (l1 ++ b :: l2) -> Forall block_ok l' -> span l' = span (b :: l2) -> l' <> [] ->
  lseg m' (addr_of h l1) (last_addr NULL (g_heap_head h) l1) l' NULL ->
  changed (h_mem h) m' (hdrs (addr_of h l1) l') ->
  row (set_hmem m' h) (l1 ++ l') /\ changed (h_mem h) m' (hdrs (g_heap_head h) (l1 ++ l')).
Proof.
  intros Hrow Hok Hsp Hne Hs Hc. pose proof (row_at _ _ _ _ Hrow) as (H1 & _ & _ & Hx & _ & _ & Hs1 & _).
  destruct Hrow as (_ & Hpos & Hmax & Hm & _). rewrite span_app in *.
  split.
  - split; [by apply Forall_app|]. cbn. rewrite span_app, Hsp. split; [done|]. split; [lia|].
    split; [by eapply changed_mapped|]. destruct l' as [|b' l']; [done|]. apply lseg_app. split; [|done].
    eapply lseg_changed; [done|exact Hc| |done]. intros a Ha Hb.
    apply hdrs_range in Ha; [|done]. apply hdrs_range in Hb; [|done]. unfold addr_of in *. lia.
  - eapply changed_weaken; [|exact Hc]. intros a Ha. apply hdrs_app. by right.
Qed.

(** [split_segment] on a block of the row. *)
Lemma split_ok h l1 n f l2 size :
  row h (l1 ++ (n, f) :: l2) -> block_ok (size, f) -> size <= n ->
  exists m', split_segment (addr_of h l1) size h = Done tt (set_hmem m' h) /\
    row (set_hmem m' h) (l1 ++ carve f n size ++ l2) /\
    changed (h_mem h) m' (hdrs (g_heap_head h) (l1 ++ carve f n size ++ l2)).
Proof.
  intros Hrow Hsz Hle. pose proof (row_at _ _ _ _ Hrow) as (H1 & Hb & H2 & Hx & Hmax & Hm & Hs1 & Hs2).
  pose proof (span_nonneg _ H2) as Hsp. simpl in Hmax. pose proof Hsz as [Hs16 _]. simpl in Hs16. unfold carve.
  destruct (Z.leb_spec n (size + 48)).
  - exists (h_mem h). rewrite set_hmem_id. split; [|split; [done|apply changed_refl]].
    unfold split_segment. rewrite (proj2 (Z.eqb_neq _ NULL)) by (unfold NULL; lia).
    destruct Hs2 as [Hh _]. mstep. rewrite (get_length_ok _ _ _ Hh). mstep. cbn [sg_len].
    unfold sizeof_heap_seg, MIN_ALLOC_SIZE. rewrite u64_id by (unfold UINT64_MAX; lia).
    by rewrite (proj2 (Z.leb_le n _)) by lia.
  - destruct (split_run h (addr_of h l1) (last_addr NULL (g_heap_head h) l1) n f size l2) as (m' & R & Hs & Hc);
      try done; try lia.
    { by constructor. }
    { intros a Ha. apply Hm. simpl. lia. }
    exists m'. split; [done|]. apply (row_change _ _ _ _ _ _ Hrow); try done; [|simpl; lia].
    pose proof (carve_ok f n size Hb Hsz Hle) as Hc'. unfold carve in Hc'.
    rewrite (proj2 (Z.leb_gt n _)) in Hc' by lia. by apply (Forall_app_2 _ _ l2 Hc').
Qed.

(** Changing a block's state. *)
Lemma free_flag_ok h l1 n f l2 (v : bool) :
  row h (l1 ++ (n, f) :: l2) ->
  exists m', set_free (addr_of h l1) (b2z v) h = Done tt (set_hmem m' h) /\
    row (set_hmem m' h) (l1 ++ (n, v) :: l2) /\
    changed (h_mem h) m' (hdrs (g_heap_head h) (l1 ++ (n, v) :: l2)).
Proof.
  intros Hrow. pose proof (row_at _ _ _ _ Hrow) as (H1 & Hb & H2 & Hx & Hmax & Hm & Hs1 & Hh & Hs2).
  destruct (set_free_ok h _ _ v Hh) as (m' & R & Hh' & Hc). exists m'. split; [done|].
  destruct Hb as [Hn Hn']. simpl in Hn.
  apply (row_change _ _ _ _ _ _ Hrow); try done.
  - by constructor.
  - split; [done|]. eapply lseg_changed; [done|exact Hc| |done].
    intros a Ha. apply hdrs_range in Ha; [|done]. unfold within. lia.
  - eapply changed_weaken; [|exact Hc]. intros a Ha. by left.
Qed.

(** ** Coalescing *)

Lemma absorb_ok h l1 n f n2 f2 l2 :
  row h (l1 ++ (n, f) :: (n2, f2) :: l2) ->
  exists m', absorb (addr_of h l1) (addr_of h l1 + 32 + n) h = Done tt (set_hmem m' h) /\
    row (set_hmem m' h) (l1 ++ (n + 32 + n2, f) :: l2) /\
    changed (h_mem h) m' (hdrs (g_heap_head h) (l1 ++ (n + 32 + n2, f) :: l2)).
Proof.
  intros Hrow. pose proof (row_at _ _ _ _ Hrow) as (H1 & Hb & H2 & Hx & Hmax & Hm & Hs1 & Hs).
  apply Forall_cons in H2 as [Hb2 H2]. pose proof (span_nonneg _ H2) as Hsp.
  destruct Hb as [Hn Hn']. destruct Hb2 as [Hn2 Hn2']. simpl in Hn, Hn', Hn2, Hn2', Hmax.
  set (x := addr_of h l1) in *. set (p := last_addr NULL (g_heap_head h) l1) in *.
  destruct Hs as [Hh [Hh2 Hs2]]. unfold absorb. mstep.
  rewrite (get_length_ok _ _ _ Hh). mstep. rewrite (get_length_ok _ _ _ Hh2). mstep. cbn [sg_len].
  unfold sizeof_heap_seg. rewrite u64_id by (unfold UINT64_MAX; lia).
  replace (n + (32 + n2)) with (n + 32 + n2) by lia.
  destruct (set_length_ok h x _ (n + 32 + n2) Hh) as (m1 & -> & Hx1 & C1); [unfold word64; lia|]. mstep.
  assert (hdr m1 (x + 32 + n) {| sg_len := n2; sg_free := f2; sg_next := link (x + 32 + n + 32 + n2) l2; sg_prev := x |}) as Hh21.
  { eapply hdr_changed; [exact C1| |by destruct l2]. intros a. unfold within. lia. }
  rewrite (get_next_ok (set_hmem m1 h) _ _ Hh21). mstep. cbn [sg_next].
  set (z := x + 32 + n + 32 + n2) in *.
  assert (word64 (link z l2)) as Hw by (apply link_word; lia).
  destruct (set_next_ok (set_hmem m1 h) x _ (link z l2) Hx1 Hw) as (m2 & -> & Hx2 & C2). mstep.
  rewrite set_hmem_set. cbn [h_mem set_hmem] in C2.
  rewrite (get_next_ok (set_hmem m2 h) _ _ Hx2). mstep. cbn [sg_next with_next].
  assert (changed (h_mem h) m2 (within x 32)) as C12 by (by eapply changed_trans).
  assert (lseg m2 z (x + 32 + n) l2 NULL) as Hs2'.
  { eapply lseg_changed; [done|exact C12| |exact Hs2]. intros a Ha. apply hdrs_range in Ha; [|done]. unfold within. lia. }
  destruct (relink_ok (set_hmem m2 h) z (x + 32 + n) x l2) as (m3 & -> & Hs3 & C3 & C3'); try done; try lia.
  { unfold word64. lia. }
  rewrite set_hmem_set. cbn [h_mem set_hmem] in C3, C3'. exists m3. split; [done|].
  replace z with (x + 32 + (n + 32 + n2)) in * by lia.
  apply (row_change _ _ _ _ _ _ Hrow); try done.
  - constructor; [|done]. split; simpl; [lia|].
    rewrite <- (Z.mod_add _ (-2)) by lia. replace (n + 32 + n2 + -2 * 16) with (n + n2) by lia.
    by rewrite Zplus_mod, Hn', Hn2'.
  - simpl. lia.
  - split; [|done]. eapply hdr_changed; [exact C3| |].
    + intros a. unfold within. lia.
    + by destruct l2.
  - eapply changed_trans; [eapply changed_weaken; [|exact C12]; intros a Ha; by left|].
    destruct l2 as [|[n3 f3] l2]; [by rewrite C3' by done|].
    eapply changed_weaken; [|exact C3]. intros a Ha. right. by left.
Qed.

Lemma changed_hdrs_merge m m' a l1 n f n2 f2 l2 :
  changed m m' (hdrs a (l1 ++ (n + 32 + n2, f) :: l2)) -> changed m m' (hdrs a (l1 ++ (n, f) :: (n2, f2) :: l2)).
Proof.
  apply changed_weaken. intros x. rewrite !hdrs_app. simpl.
  replace (a + span l1 + 32 + (n + 32 + n2)) with (a + span l1 + 32 + n + 32 + n2) by lia. tauto.
Qed.

(** A free block and its neighbours, joined. *)
Definition join_next (n : Z) (l2 : list block) : Z * list block :=
  match l2 with (n2, true) :: r => (n + 32 + n2, r) | _ => (n, l2) end.
Definition join_prev (l1 : list block) (n : Z) (l2 : list block) : list block :=
  match reverse l1 with (n0, true) :: q => reverse q ++ (n0 + 32 + n, true) :: l2 | _ => l1 ++ (n, true) :: l2 end.
Definition coalesce (l1 : list block) (n : Z) (l2 : list block) : list block :=
  let '(n', r) := join_next n l2 in join_prev l1 n' r.

Lemma is_free_seg_ok h a s : hdr (h_mem h) a s -> a <> NULL -> is_free_seg a h = Done (sg_free s) h.
Proof.
  intros Hh Ha. unfold is_free_seg. rewrite (proj2 (Z.eqb_neq a NULL)) by done. mstep.
  rewrite (get_free_ok _ _ _ Hh). mstep. destruct (sg_free s); simpl; zconst; mstep; [|done].
  by rewrite (get_magic_ok _ _ _ Hh).
Qed.

Lemma combine_next h l1 n l2 :
  row h (l1 ++ (n, true) :: l2) ->
  exists m', (next ← get_next (addr_of h l1); b ← is_free_seg next; when b (absorb (addr_of h l1) next)) h
    = Done tt (set_hmem m' h) /\
    row (set_hmem m' h) (l1 ++ (fst (join_next n l2), true) :: snd (join_next n l2)) /\
    changed (h_mem h) m' (hdrs (g_heap_head h) (l1 ++ (n, true) :: l2)).
Proof.
  intros Hrow. pose proof (row_at _ _ _ _ Hrow) as (_ & Hb & H2 & Hx & _ & _ & _ & Hh & Hs2).
  destruct Hb as [Hn _]. simpl in Hn. mstep. rewrite (get_next_ok _ _ _ Hh). mstep. cbn [sg_next].
  destruct l2 as [|[n2 f2] l2]; simpl.
  - exists (h_mem h). rewrite set_hmem_id. split_and!; try done; apply changed_refl.
  - destruct Hs2 as [Hh2 _]. rewrite (is_free_seg_ok _ _ _ Hh2) by (unfold NULL; lia). mstep. cbn [sg_free].
    destruct f2; simpl.
    + destruct (absorb_ok _ _ _ _ _ _ _ Hrow) as (m' & -> & Hrow' & Hc). exists m'. split; [done|].
      split; [done|]. by eapply changed_hdrs_merge.
    + exists (h_mem h). rewrite set_hmem_id. split_and!; try done; apply changed_refl.
Qed.

Lemma combine_prev h l1 n l2 :
  row h (l1 ++ (n, true) :: l2) ->
  exists m', (prev ← get_prev (addr_of h l1); b ← is_free_seg prev; when b (absorb prev (addr_of h l1))) h
    = Done tt (set_hmem m' h) /\ row (set_hmem m' h) (join_prev l1 n l2) /\
    changed (h_mem h) m' (hdrs (g_heap_head h) (l1 ++ (n, true) :: l2)).
Proof.
  intros Hrow. pose proof (row_at _ _ _ _ Hrow) as (H1 & _ & _ & Hx & _ & _ & _ & Hh & _).
  mstep. rewrite (get_prev_ok _ _ _ Hh). mstep. cbn [sg_prev]. unfold join_prev.
  destruct l1 as [|[n0 f0] q] using rev_ind.
  - simpl. exists (h_mem h). rewrite set_hmem_id. split_and!; try done; apply changed_refl.
  - clear IHq. rewrite last_addr_snoc, reverse_app. simpl reverse. simpl app.
    rewrite <- app_assoc in Hrow. simpl in Hrow.
    pose proof (row_at _ _ _ _ Hrow) as (_ & _ & _ & Hx0 & _ & _ & _ & Hh0 & _). fold (addr_of h q).
    rewrite (is_free_seg_ok _ _ _ Hh0) by (unfold NULL; lia). mstep. cbn [sg_free].
    replace (addr_of h (q ++ [(n0, f0)])) with (addr_of h q + 32 + n0) by (unfold addr_of; rewrite span_app; simpl; lia).
    rewrite <- (app_assoc q). simpl app. destruct f0; simpl.
    + destruct (absorb_ok _ _ _ _ _ _ _ Hrow) as (m' & -> & Hrow' & Hc). exists m'. split; [done|].
      rewrite reverse_involutive. split; [done|]. by eapply changed_hdrs_merge.
    + exists (h_mem h). rewrite set_hmem_id. split_and!; try done; apply changed_refl.
Qed.

Lemma hdrs_join_next a l1 n l2 x :
  hdrs a (l1 ++ (fst (join_next n l2), true) :: snd (join_next n l2)) x -> hdrs a (l1 ++ (n, true) :: l2) x.
Proof.
  destruct l2 as [|[n2 [|]] l2]; simpl; try done. rewrite !hdrs_app. simpl.
  replace (a + span l1 + 32 + (n + 32 + n2)) with (a + span l1 + 32 + n + 32 + n2) by lia. tauto.
Qed.

Lemma combine_ok h l1 n l2 :
  row h (l1 ++ (n, true) :: l2) ->
  exists m', combine_segments (addr_of h l1) h = Done tt (set_hmem m' h) /\
    row (set_hmem m' h) (coalesce l1 n l2) /\
    changed (h_mem h) m' (hdrs (g_heap_head h) (l1 ++ (n, true) :: l2)).
Proof.
  intros Hrow. destruct (combine_next _ _ _ _ Hrow) as (m1 & R1 & Hrow1 & C1). unfold combine_segments.
  destruct (combine_prev _ _ _ _ Hrow1) as (m2 & R2 & Hrow2 & C2).
  revert R1 R2. mstep. destruct (get_next (addr_of h l1) h) as [nx ha| |]; try done. mstep.
  destruct (is_free_seg nx ha) as [b hb| |]; try done. mstep. intros R1 R2. rewrite R1. mstep.
  change (addr_of (set_hmem m1 h) l1) with (addr_of h l1) in R2. rewrite R2. rewrite set_hmem_set.
  exists m2. split; [done|]. unfold coalesce. destruct (join_next n l2) as [n' r] eqn:E. split; [exact Hrow2|].
  eapply changed_trans; [exact C1|]. eapply changed_weaken; [|exact C2]. intros x Hx.
  apply hdrs_join_next. by rewrite E.
Qed.

(** ** Searching *)

Fixpoint first_fit (size : Z) (l : list block) : option (list block * Z * list block) :=
  match l with
  | [] => None
  | (n, f) :: r =>
      if f && (size <=? n) then Some ([], n, r)
      else match first_fit size r with
           | Some (l1, k, l2) => Some ((n, f) :: l1, k, l2)
           | None => None
           end
  end.

Lemma first_fit_Some size l l1 n l2 :
  first_fit size l = Some (l1, n, l2) -> l = l1 ++ (n, true) :: l2 /\ size <= n /\
  Forall (fun b => b.2 = true -> b.1 < size) l1.
Proof.
  revert l1. induction l as [|[k f] l IH]; intros l1; simpl; [done|].
  destruct (f && (size <=? k)) eqn:E.
  - intros [= <- <- <-]. apply andb_true_iff in E as [-> E]. split_and!; [done|lia|constructor].
  - destruct (first_fit size l) as [[[q j] r]|]; [|done]. intros [= <- <- <-].
    destruct (IH q eq_refl) as (-> & H & Hq). split_and!; try done. constructor; [|done].
    simpl. intros ->. simpl in E. lia.
Qed.

Lemma first_fit_None size l : first_fit size l = None -> Forall (fun b => b.2 = true -> b.1 < size) l.
Proof.
  induction l as [|[k f] l IH]; simpl; [constructor|].
  destruct (f && (size <=? k)) eqn:E; [done|]. destruct (first_fit size l) as [[[q j] r]|]; [done|].
  intros _. constructor; [|by apply IH]. simpl. intros ->. simpl in E. lia.
Qed.

Lemma find_loop fuel h l a p size :
  Forall block_ok l -> 0 < a -> lseg (h_mem h) a p l NULL -> (length l < fuel)%nat ->
  while fuel (fun seg =>
    if seg =? NULL then mret (inr NULL)
    else
      mg ← get_magic seg;
      if negb (mg =? HEAP_MAGIC) then mret (inr NULL)
      else
        fr ← get_free seg;
        len ← get_length seg;
        if negb (fr =? 0) && (size <=? len) then mret (inr seg)
        else nx ← get_next seg; mret (inl nx)) (link a l) h
  = Done (match first_fit size l with Some (l1, _, _) => a + span l1 | None => NULL end) h.
Proof.
  intros Hok. revert fuel a p. induction Hok as [|[n f] l [Hn _] Hok IH]; intros fuel a p Ha Hs Hf;
    (destruct fuel as [|fuel]; simpl in Hf; [lia|]); rewrite while_S.
  - done.
  - change (link a ((n, f) :: l)) with a. destruct Hs as [Hh Hs]. simpl in Hn. rewrite (proj2 (Z.eqb_neq a NULL)) by (unfold NULL; lia). mstep.
    rewrite (get_magic_ok _ _ _ Hh). mstep. rewrite (get_free_ok _ _ _ Hh). mstep.
    rewrite (get_length_ok _ _ _ Hh). mstep. cbn [sg_free sg_len]. simpl first_fit.
    replace (negb (b2z f =? 0)) with f by (by destruct f).
    destruct (f && (size <=? n)); mstep; [simpl; by rewrite Z.add_0_r|].
    rewrite (get_next_ok _ _ _ Hh). mstep. cbn [sg_next]. change (match l with [] => NULL | _ => a + 32 + n end) with (link (a + 32 + n) l).
    rewrite (IH fuel (a + 32 + n) a) by (done || lia).
    destruct (first_fit size l) as [[[q k] r]|]; [|done]. simpl. f_equal. lia.
Qed.

Lemma find_ok fuel h l size :
  row h l -> l <> [] -> (length l < fuel)%nat ->
  find_free_segment fuel size h =
  Done (match first_fit size l with Some (l1, _, _) => addr_of h l1 | None => NULL end) h.
Proof.
  intros (Hok & Hpos & _ & _ & Hs) Hne Hf. unfold find_free_segment, addr_of. mstep.
  replace (g_heap_head h) with (link (g_heap_head h) l) at 1 by (by destruct l). by eapply find_loop.
Qed.

Lemma last_loop fuel h l n f a p :
  Forall block_ok l -> 0 < a -> lseg (h_mem h) a p (l ++ [(n, f)]) NULL -> (length l < fuel)%nat ->
  while fuel (fun last =>
    nx ← get_next last;
    if nx =? NULL then mret (inr (Some last))
    else
      mg ← get_magic last;
      if negb (mg =? HEAP_MAGIC) then mret (inr None)
      else nx ← get_next last; mret (inl nx)) a h
  = Done (Some (a + span l)) h.
Proof.
  intros Hok. revert fuel a p. induction Hok as [|[k g] l [Hk _] Hok IH]; intros fuel a p Ha [Hh Hs] Hf;
    (destruct fuel as [|fuel]; simpl in Hf; [lia|]); rewrite while_S; mstep; rewrite (get_next_ok _ _ _ Hh); mstep; cbn [sg_next].
  - zconst. simpl. by rewrite Z.add_0_r.
  - simpl in Hk. replace (match l ++ [(n, f)] with [] => NULL | _ => a + 32 + k end) with (a + 32 + k) by (by destruct l).
    rewrite (proj2 (Z.eqb_neq _ NULL)) by (unfold NULL; lia). mstep. rewrite (get_magic_ok _ _ _ Hh). mstep.
    rewrite (get_next_ok _ _ _ Hh). mstep. cbn [sg_next].
    replace (match l ++ [(n, f)] with [] => NULL | _ => a + 32 + k end) with (a + 32 + k) by (by destruct l).
    rewrite (IH fuel (a + 32 + k) a) by (done || lia). simpl. do 2 f_equal. lia.
Qed.

Lemma last_segment_ok fuel h l n f :
  row h (l ++ [(n, f)]) -> (length l < fuel)%nat -> last_segment fuel h = Done (Some (addr_of h l)) h.
Proof.
  intros (Hok & Hpos & _ & _ & Hs) Hf. apply Forall_app in Hok as [Hok _].
  unfold last_segment. mstep. by eapply last_loop.
Qed.
