(* ===== verification/MallocProps.v ===== *)
(** * Correctness of malloc, free, realloc and calloc *)

From stdpp Require Import base tactics list gmap numbers strings.
From Stdlib Require Import ZArith Lia Sorted.
From S2P Require Import Prelude.
From S2P Require Import Memory.
From S2P Require Import CString.
From S2P Require Import CStringFacts.
From S2P Require Import Malloc.
From S2P Require Import MallocFacts.

(** ** Rounding *)

Lemma align_up_ok n : 0 <= n <= 2 ^ 63 -> align_up n = (n + 15) / 16 * 16.
Proof.
  intros Hn. unfold align_up. change (HEAP_ALIGN - 1) with 15 at 1.
  rewrite u64_id by (unfold UINT64_MAX; lia). apply land_mask_16. lia.
Qed.

Lemma align_up_bounds n :
  0 <= n <= 2 ^ 63 -> n <= align_up n < n + 16 /\ align_up n mod 16 = 0.
Proof.
  intros Hn. rewrite align_up_ok by done. split; [|by rewrite Z.mod_mul].
  pose proof (Z.div_mod (n + 15) 16 ltac:(lia)). pose proof (Z.mod_pos_bound (n + 15) 16 ltac:(lia)). lia.
Qed.

Lemma round_size_ok n f :
  0 < n <= 2 ^ 62 -> block_ok (round_size n, f) /\ n <= round_size n < n + 32.
Proof.
  intros Hn. unfold round_size, MIN_ALLOC_SIZE. destruct (align_up_bounds n ltac:(lia)) as [H1 H2].
  unfold block_ok. destruct (Z.ltb_spec (align_up n) 16); simpl; split; try split; try done; lia.
Qed.

(** ** The invariant *)

(** The list of large blocks: nodes with their sizes. *)
Fixpoint larges (m : mem) (p : Z) (L : list (Z * Z)) : Prop :=
  match L with
  | [] => p = NULL
  | (a, sz) :: r =>
      p = a /\ arr m a (to_le 8 (a + 24)) /\ arr m (a + 8) (to_le 8 sz) /\
      (exists nx, word64 nx /\ arr m (a + 16) (to_le 8 nx) /\ larges m nx r)
  end.

(** A large block lies above [lim]. *)
Definition large_ok (lim : Z) (b : Z * Z) : Prop :=
  lim <= b.1 /\ 0 < b.1 /\ 0 <= b.2 /\ b.1 + 24 + b.2 < 2 ^ 63.

(** The fields of a node, where memory stays the same. *)
Lemma node_same m m' P a o v :
  same_outside P m m' -> (forall x, within a 24 x -> ~ P x) -> 0 <= o <= 16 -> arr m (a + o) (to_le 8 v) -> arr m' (a + o) (to_le 8 v).
Proof. intros Hc Hd Ho. eapply arr_same; [exact Hc|]. rewrite length_to_le. intros x Hx. apply Hd. unfold within in *. lia. Qed.

Lemma larges_same m m' P p L :
  same_outside P m m' -> (forall b x, b ∈ L -> within b.1 24 x -> ~ P x) -> larges m p L -> larges m' p L.
Proof.
  intros Hc. revert p. induction L as [|[a sz] L IH]; intros p Hd; cbn [larges]; [done|]. intros (-> & Ha & Hs & nx & Hw & Hx & Hr).
  assert (forall o v, 0 <= o <= 16 -> arr m (a + o) (to_le 8 v) -> arr m' (a + o) (to_le 8 v)) as K.
  { intros o v Ho. eapply node_same; [exact Hc| |done]. intros x. apply (Hd (a, sz)). left. }
  pose proof (K 0) as K0. rewrite Z.add_0_r in K0.
  split; [done|]. split; [by apply K0|]. split; [by apply K|]. exists nx.
  split; [done|]. split; [by apply K|]. apply IH; [|done]. intros b x Hb. apply Hd. by right.
Qed.

Lemma larges_changed m m' P lim p L :
  Forall (large_ok lim) L -> changed m m' P -> (forall x, lim <= x -> ~ P x) -> larges m p L -> larges m' p L.
Proof.
  intros Hok [Hc _] Hd. eapply larges_same; [exact Hc|]. intros b x Hb Hx. rewrite Forall_forall in Hok. destruct (Hok b Hb). apply Hd. unfold within in Hx. lia.
Qed.

(** Memory from [lim] on is untouched. *)
Definition kept_above (lim : Z) (m m' : mem) : Prop := forall x, lim <= x -> m' !! x = m !! x.

Lemma changed_above lim m m' P : changed m m' P -> (forall x, P x -> x < lim) -> kept_above lim m m'.
Proof. intros [Hc _] HP x Hx. apply Hc. intros Hp%HP. lia. Qed.

Section kernel_laws.
Context (k : kernel) (fuel : nat) (lim : Z).
(** The kernel grants breaks up to [lim] at most. *)
Context (Hlim : 0 < lim < 2 ^ 62).
Context (Hbrk : forall b, k_brk_ok k b = true -> b <= lim).

Definition inv (h : heap) (l : list block) (L : list (Z * Z)) : Prop :=
  row h l /\ l <> [] /\ g_heap_end h = g_heap_head h + span l /\ h_brk h = g_heap_end h /\
  g_heap_head h mod 16 = 0 /\ h_brk h <= lim /\
  larges (h_mem h) (g_large_alloc_list h) L /\ Forall (large_ok lim) L.

(** A change of headers keeps the invariant. *)
Lemma inv_change h l L l' m' :
  inv h l L -> row (set_hmem m' h) l' -> l' <> [] -> span l' = span l ->
  changed (h_mem h) m' (fun x => g_heap_head h <= x < h_brk h) -> inv (set_hmem m' h) l' L.
Proof.
  intros (Hrow & Hne & He & Hb & Ha & Hl & HL & HLok) Hrow' Hne' Hsp Hc. unfold inv. cbn.
  rewrite Hsp. split_and!; try done.
  eapply larges_changed; [done|exact Hc| |done]. intros x Hx. cbn beta. lia.
Qed.

Lemma hdrs_in_break h l L l' x :
  inv h l L -> Forall block_ok l' -> span l' = span l -> hdrs (g_heap_head h) l' x ->
  g_heap_head h <= x < h_brk h.
Proof.
  intros (Hrow & _ & He & Hb & _) Hok Hsp Hx. apply hdrs_range in Hx; [|done]. lia.
Qed.

(** Live bytes are kept by a change of headers that are headers afterwards. *)
Lemma live_kept (a : Z) (l' : list block) (m m' : mem) (x : Z) :
  Forall block_ok l' -> changed m m' (hdrs a l') -> live a l' x -> m' !! x = m !! x.
Proof. intros Hok [Hc _] Hx. apply Hc. by apply live_not_hdr. Qed.

Lemma split_live a l1 n size l2 x :
  Forall block_ok (l1 ++ (n, true) :: l2) ->
  live a (l1 ++ (n, true) :: l2) x -> live a (l1 ++ carve false n size ++ l2) x.
Proof.
  intros Hok. rewrite !live_app, carve_span. simpl.
  intros [?|[[? _]|Hx]]; [by left|done|right; right].
  by replace (a + span l1 + (32 + n)) with (a + span l1 + 32 + n) by lia.
Qed.

(** The last part of [malloc]: a free block that fits is carved up and marked. *)
Lemma take_block h l1 n l2 L size :
  inv h (l1 ++ (n, true) :: l2) L -> block_ok (size, false) -> size <= n ->
  exists m', (_ ← split_segment (addr_of h l1) size; _ ← set_free (addr_of h l1) 0;
              mret (addr_of h l1 + sizeof_heap_seg)) h = Done (addr_of h l1 + 32) (set_hmem m' h) /\
    inv (set_hmem m' h) (l1 ++ carve false n size ++ l2) L /\
    (forall x, live (g_heap_head h) (l1 ++ (n, true) :: l2) x -> m' !! x = h_mem h !! x) /\
    kept_above lim (h_mem h) m'.
Proof.
  intros Hinv Hsz Hle. pose proof Hinv as (Hrow & _).
  destruct (split_ok h l1 n true l2 size Hrow ltac:(done) Hle) as (m1 & R1 & Hrow1 & C1).
  assert (exists n' r, carve true n size = (n', true) :: r /\ carve false n size = (n', false) :: r) as (n' & r & Ec & Ec').
  { unfold carve. destruct (n <=? size + 48); eauto. }
  rewrite Ec in Hrow1, C1. simpl in Hrow1, C1.
  destruct (free_flag_ok (set_hmem m1 h) l1 n' true (r ++ l2) false Hrow1) as (m2 & R2 & Hrow2 & C2).
  change (addr_of (set_hmem m1 h) l1) with (addr_of h l1) in R2. cbn [b2z] in R2.
  cbn [h_mem set_hmem g_heap_head] in C2. mstep. rewrite R1. mstep. rewrite R2. mstep. rewrite set_hmem_set.
  assert (forall x, hdrs (g_heap_head h) (l1 ++ (n', true) :: r ++ l2) x <-> hdrs (g_heap_head h) (l1 ++ (n', false) :: r ++ l2) x) as Hh
    by (intros x; rewrite !hdrs_app; simpl; tauto).
  assert (changed (h_mem h) m2 (hdrs (g_heap_head h) (l1 ++ carve false n size ++ l2))) as C.
  { rewrite Ec'. simpl. eapply changed_trans; [|exact C2]. eapply changed_weaken; [|exact C1]. intros x. by rewrite Hh. }
  assert (Forall block_ok (l1 ++ carve false n size ++ l2)) as Hok2 by (rewrite Ec'; apply Hrow2).
  assert (span (l1 ++ carve false n size ++ l2) = span (l1 ++ (n, true) :: l2)) as Hspan
    by (rewrite !span_app, carve_span; simpl; lia).
  assert (changed (h_mem h) m2 (fun x => g_heap_head h <= x < h_brk h)) as Cb.
  { eapply changed_weaken; [|exact C]. intros x Hx. by eapply hdrs_in_break. }
  exists m2. split; [done|]. split; [|split].
  - eapply inv_change; try done; [by rewrite Ec'|rewrite Ec'; by destruct l1].
  - intros x Hx. eapply live_kept; [exact Hok2|exact C|]. apply split_live; [apply Hrow|done].
  - eapply changed_above; [exact Cb|]. cbn beta. intros x Hx. destruct Hinv as (_ & _ & _ & _ & _ & ? & _). lia.
Qed.

(** ** Growing the break area *)

Lemma length_fresh a n : 0 <= n -> zlen (fresh k a n) = n.
Proof.
  intros Hn. unfold fresh. assert (forall m a, length (fresh_bytes k m a) = m) as ->; [|lia].
  induction m; intros; simpl; congruence.
Qed.

Lemma sys_brk_ok h b :
  h_brk h < b -> 0 < b ->
  (k_brk_ok k b = true /\ b <= lim /\ exists h', sys_brk k b h = Done b h' /\
     changed (h_mem h) (h_mem h') (within (h_brk h) (b - h_brk h)) /\
     mapped (h_mem h') (h_brk h) (b - h_brk h) /\
     g_heap_head h' = g_heap_head h /\ g_heap_end h' = g_heap_end h /\ g_heap_base h' = g_heap_base h /\
     g_large_alloc_list h' = g_large_alloc_list h /\ h_brk h' = b) \/
  (k_brk_ok k b = false /\ sys_brk k b h = Done (h_brk h) h).
Proof.
  intros Hlt Hb. unfold sys_brk. rewrite (proj2 (Z.eqb_neq b 0)) by lia.
  destruct (k_brk_ok k b) eqn:E; [left|by right].
  rewrite (proj2 (Z.leb_le _ _)) by lia. simpl. split; [done|]. split; [by apply Hbrk|]. eexists. split; [done|]. cbn.
  pose proof (length_fresh (h_brk h) (b - h_brk h) ltac:(lia)) as Hl.
  pose proof (changed_wr (h_mem h) (h_brk h) (fresh k (h_brk h) (b - h_brk h))) as Hc. rewrite Hl in Hc.
  split_and!; try done. pose proof (arr_mapped _ _ _ (wr_arr (h_mem h) (h_brk h) (fresh k (h_brk h) (b - h_brk h)))) as Hm.
  by rewrite Hl in Hm.
Qed.

Definition grow_size (size : Z) : Z := align_up (if 4096 <? size then size else 4096).

Lemma grow_size_ok size f : 0 < size < 2 ^ 62 -> block_ok (grow_size size, f) /\ size <= grow_size size < 2 ^ 63.
Proof.
  intros Hs. unfold grow_size, block_ok. simpl. destruct (Z.ltb_spec 4096 size).
  - destruct (align_up_bounds size ltac:(lia)) as [H1 H2]. split; [split; [lia|done]|lia].
  - destruct (align_up_bounds 4096 ltac:(lia)) as [H1 H2]. split; [split; [lia|done]|lia].
Qed.

(** The row after the break area grew by [g] bytes of payload. *)
Definition grown (g : Z) (l : list block) : list block * Z :=
  match reverse l with
  | (n, true) :: q => (reverse q, n + g)
  | _ => (l, g)
  end.

Lemma grown_snoc g l n (f : bool) :
  grown g (l ++ [(n, f)]) = if f then (l, n + g) else (l ++ [(n, f)], g).
Proof. unfold grown. rewrite reverse_app. simpl. destruct f; [by rewrite reverse_involutive|done]. Qed.

(** The row of the old headers survives the growth. *)
Lemma row_grow h h' l :
  row h l -> h_brk h = g_heap_head h + span l -> g_heap_head h' = g_heap_head h ->
  changed (h_mem h) (h_mem h') (within (h_brk h) (h_brk h' - h_brk h)) -> row h' l.
Proof.
  intros (Hok & Hp & Hm & Hma & Hs) Hb Hh Hc. unfold row. rewrite Hh. split_and!; try done.
  - by eapply changed_mapped.
  - eapply lseg_changed; [done|exact Hc| |done]. intros x Hx. apply hdrs_range in Hx; [|done]. unfold within. lia.
Qed.

(** The last block, free, gets longer. *)
Lemma extend_last h h' l1 n L g :
  inv h (l1 ++ [(n, true)]) L -> block_ok (g, true) -> g < 2 ^ 63 -> g_heap_head h' = g_heap_head h ->
  g_large_alloc_list h' = g_large_alloc_list h -> h_brk h' = h_brk h + g -> h_brk h' <= lim ->
  changed (h_mem h) (h_mem h') (within (h_brk h) g) -> mapped (h_mem h') (h_brk h) g ->
  exists m', (len ← get_length (addr_of h l1); _ ← set_length (addr_of h l1) (u64 (len + g));
              _ ← modify (set_end (h_brk h')); mret (addr_of h l1)) h'
    = Done (addr_of h l1) (set_end (h_brk h') (set_hmem m' h')) /\
    inv (set_end (h_brk h') (set_hmem m' h')) (l1 ++ [(n + g, true)]) L /\
    changed (h_mem h) m' (fun x => hdrs (g_heap_head h) (l1 ++ [(n + g, true)]) x \/ h_brk h <= x < h_brk h').
Proof.
  intros Hinv Hg Hg63 Hhd Hlg Hbrk' Hlim' Hc Hm. pose proof Hinv as (Hrow & _ & He & Hb & Hal & _ & HL & HLok).
  assert (row h' (l1 ++ [(n, true)])) as Hrow'.
  { apply (row_grow h); try done; [lia|]. by replace (h_brk h' - h_brk h) with g by lia. }
  pose proof (row_at _ _ _ _ Hrow') as (H1 & [Hn Hn'] & _ & Hx & _ & _ & Hs1 & Hh & _). simpl in Hn, Hn'.
  destruct Hg as [Hg Hg']. simpl in Hg, Hg'.
  replace (addr_of h' l1) with (addr_of h l1) in * by (unfold addr_of; by rewrite Hhd).
  assert (addr_of h l1 + 32 + n = h_brk h) as Hend by (unfold addr_of; rewrite Hb, He, span_app; simpl; lia).
  mstep. rewrite (get_length_ok _ _ _ Hh). mstep. cbn [sg_len]. rewrite u64_id by (unfold UINT64_MAX; lia).
  destruct (set_length_ok h' _ _ (n + g) Hh) as (m' & -> & Hh' & Hc'); [unfold word64; lia|]. mstep.
  exists m'. split; [done|]. rewrite Hhd in *.
  assert (changed (h_mem h) m' (fun x => hdrs (g_heap_head h) (l1 ++ [(n + g, true)]) x \/ h_brk h <= x < h_brk h')) as C.
  { eapply changed_trans; eapply changed_weaken; [|exact Hc| |exact Hc'].
    - intros x. unfold within. right. lia.
    - intros x Hx'. left. rewrite hdrs_app. right. by left. }
  split; [|done].
  assert (row (set_hmem m' h') (l1 ++ [(n + g, true)])) as Hrow2.
  { split; [apply Forall_app; split; [done|]; apply Forall_singleton; split; simpl; [lia|];
      by rewrite Zplus_mod, Hn', Hg'|].
    cbn. rewrite Hhd. pose proof (span_nonneg _ H1). unfold addr_of in *.
    split; [apply Hrow|]. split; [rewrite span_app; simpl; lia|]. split.
    - intros x Hx'. rewrite span_app in Hx'. simpl in Hx'. destruct (decide (x < h_brk h)).
      + apply (changed_mapped _ _ _ (g_heap_head h) (span (l1 ++ [(n, true)])) C); [apply Hrow|].
        rewrite span_app. simpl. lia.
      + apply (changed_mapped _ _ _ (h_brk h) g Hc'); [done|lia].
    - apply lseg_app. split; [|split; [exact Hh'|done]].
      eapply lseg_changed; [done|exact Hc'| |exact Hs1].
      intros x Hx'. apply hdrs_range in Hx'; [|done]. unfold within. lia. }
  split; [exact Hrow2|]. cbn. rewrite Hhd. split; [by destruct l1|]. rewrite span_app in *. simpl in *.
  split_and!; try done; try lia. rewrite Hlg.
  eapply larges_changed; [exact HLok|exact C| |exact HL]. cbn beta. intros x Hx' [Hh2|Hh2]; [|lia].
  apply hdrs_range in Hh2; [|apply Hrow2]. rewrite span_app in Hh2. simpl in Hh2. lia.
Qed.

(** A new block behind the last one. *)
Lemma add_block h h' l1 n f L g :
  inv h (l1 ++ [(n, f)]) L -> block_ok (g, true) -> g < 2 ^ 63 -> g_heap_head h' = g_heap_head h ->
  g_large_alloc_list h' = g_large_alloc_list h -> h_brk h' = h_brk h + 32 + g -> h_brk h' <= lim ->
  changed (h_mem h) (h_mem h') (within (h_brk h) (32 + g)) -> mapped (h_mem h') (h_brk h) (32 + g) ->
  let e := h_brk h in
  exists m', (_ ← set_length e g; _ ← set_free e 1; _ ← set_magic e HEAP_MAGIC; _ ← set_next e NULL;
              _ ← set_prev e (addr_of h l1); _ ← set_next (addr_of h l1) e;
              _ ← modify (set_end (h_brk h')); mret e) h'
    = Done e (set_end (h_brk h') (set_hmem m' h')) /\
    inv (set_end (h_brk h') (set_hmem m' h')) (l1 ++ [(n, f); (g, true)]) L /\
    changed (h_mem h) m' (fun x => hdrs (g_heap_head h) (l1 ++ [(n, f); (g, true)]) x \/ h_brk h <= x < h_brk h').
Proof.
  intros Hinv Hg Hg63 Hhd Hlg Hbrk' Hlim' Hc Hm e. pose proof Hinv as (Hrow & _ & He & Hb & Hal & _ & HL & HLok).
  assert (row h' (l1 ++ [(n, f)])) as Hrow'.
  { apply (row_grow h); try done; [lia|]. by replace (h_brk h' - h_brk h) with (32 + g) by lia. }
  pose proof (row_at _ _ _ _ Hrow') as (H1 & Hbn & _ & Hx & _ & _ & Hs1 & Hh & _). pose proof Hbn as [Hn Hn']. simpl in Hn, Hn'.
  pose proof Hg as [Hg16 Hg']. simpl in Hg16, Hg'. pose proof (span_nonneg _ H1) as Hsp1.
  replace (addr_of h' l1) with (addr_of h l1) in * by (unfold addr_of; by rewrite Hhd). rewrite Hhd in *.
  assert (addr_of h l1 + 32 + n = e) as Hend by (unfold addr_of, e; rewrite Hb, He, span_app; simpl; lia).
  set (x := addr_of h l1) in *.
  destruct (init3_ok h' e g) as (m1 & R1 & H3 & C1); [intros a Ha; apply Hm; unfold e in *; lia|].
  destruct (init2_ok (set_hmem m1 h') e g NULL x H3) as (m2 & R2 & He2 & C2); try (unfold word64, NULL; lia).
  rewrite set_hmem_set in R2. cbn [h_mem set_hmem] in C2.
  assert (changed (h_mem h') m2 (within e 32)) as C12 by (by eapply changed_trans).
  assert (hdr m2 x {| sg_len := n; sg_free := f; sg_next := NULL; sg_prev := last_addr NULL (g_heap_head h) l1 |}) as Hx2.
  { eapply hdr_changed; [exact C12| |exact Hh]. intros a. unfold within. lia. }
  destruct (set_next_ok (set_hmem m2 h') x _ e Hx2) as (m3 & R3 & Hx3 & C3); [unfold word64; lia|].
  rewrite set_hmem_set in R3. cbn [h_mem set_hmem] in C3.
  assert (changed (h_mem h') m3 (fun a => x <= a < e + 32)) as C3r.
  { eapply changed_trans; eapply changed_weaken; [|exact C12| |exact C3]; intros a; unfold within; lia. }
  exists m3. split.
  { revert R1 R2. mstep. destruct (set_length e g h') as [[] ha| |]; try done. mstep.
    destruct (set_free e 1 ha) as [[] hb| |]; try done. mstep. intros ->. mstep.
    destruct (set_next e NULL (set_hmem m1 h')) as [[] hc| |]; try done. mstep. intros ->. mstep. by rewrite R3. }
  assert (changed (h_mem h') m3 (hdrs (g_heap_head h) (l1 ++ [(n, f); (g, true)]))) as C13.
  { eapply changed_trans; eapply changed_weaken; [|exact C12| |exact C3]; intros a Ha; rewrite hdrs_app; right.
    - right. left. fold (addr_of h l1). fold x. by replace (x + 32 + n) with e by lia.
    - by left. }
  assert (changed (h_mem h) m3 (fun x => hdrs (g_heap_head h) (l1 ++ [(n, f); (g, true)]) x \/ h_brk h <= x < h_brk h')) as C.
  { eapply changed_trans; eapply changed_weaken; [|exact Hc| |exact C13].
    - intros a. unfold within. right. lia.
    - intros a Ha. by left. }
  split; [|done].
  assert (row (set_hmem m3 h') (l1 ++ [(n, f); (g, true)])) as Hrow2.
  { split; [apply Forall_app; split; [done|]; by repeat constructor|].
    cbn. rewrite Hhd. subst x. unfold addr_of in *.
    split; [apply Hrow|]. split; [rewrite span_app; simpl; unfold e in *; lia|]. split.
    - intros a Ha. rewrite span_app in Ha. simpl in Ha. destruct (decide (a < h_brk h)).
      + apply (changed_mapped _ _ _ (g_heap_head h) (span (l1 ++ [(n, f)])) C); [apply Hrow|].
        rewrite span_app. simpl. unfold e in *. lia.
      + apply (changed_mapped _ _ _ (h_brk h) (32 + g) C13); [done|unfold e in *; lia].
    - apply lseg_app. split; [|split; [|split; [|done]]].
      + eapply lseg_changed_range; [done|exact C3r| |exact Hs1]. lia.
      + rewrite Hend. exact Hx3.
      + rewrite Hend. eapply hdr_changed; [exact C3| |exact He2]. intros a. unfold within. lia. }
  split; [exact Hrow2|]. cbn. rewrite Hhd. split; [by destruct l1|]. rewrite span_app in *. simpl in *.
  subst x e. unfold addr_of in *. split_and!; try done; try lia. rewrite Hlg.
  eapply larges_changed; [exact HLok|exact C| |exact HL]. cbn beta. intros a Ha [Hh2|Hh2]; [|lia].
  apply hdrs_range in Hh2; [|apply Hrow2]. rewrite span_app in Hh2. simpl in Hh2. lia.
Qed.

(** Bytes of used blocks, when a change touched only headers of the new row
    and memory above the old break. *)
Lemma live_kept_grow h l L l' m' hi x :
  inv h l L -> Forall block_ok l' -> used (g_heap_head h) l' = used (g_heap_head h) l ->
  changed (h_mem h) m' (fun x => hdrs (g_heap_head h) l' x \/ h_brk h <= x < hi) ->
  live (g_heap_head h) l x -> m' !! x = h_mem h !! x.
Proof.
  intros (Hrow & _ & He & Hb & _) Hok Hsub [Hc _] Hx. apply Hc. intros [Hh|Hh].
  - eapply live_not_hdr; [exact Hok| |done]. apply live_used. rewrite Hsub. by apply live_used.
  - apply live_range in Hx; [lia|apply Hrow].
Qed.

Lemma grow_above h l' h' m' hi L :
  inv h' l' L -> g_heap_head h' = g_heap_head h -> h_brk h' = hi ->
  changed (h_mem h) m' (fun x => hdrs (g_heap_head h) l' x \/ h_brk h <= x < hi) -> kept_above lim (h_mem h) m'.
Proof.
  intros ((Hok & _) & _ & He & Hb & _ & Hl & _) Hhd Hhi C. eapply changed_above; [exact C|]. cbn beta. intros x [Hx|Hx]; [|lia].
  apply hdrs_range in Hx; [lia|done].
Qed.

Lemma grow_ok h l L size :
  inv h l L -> 0 < size < 2 ^ 61 -> (length l <= fuel)%nat ->
  let '(l1, n) := grown (grow_size size) l in
  (exists h', grow_heap k fuel size h = Done (addr_of h l1) h' /\ g_heap_head h' = g_heap_head h /\
     inv h' (l1 ++ [(n, true)]) L /\ size <= n /\
     used (g_heap_head h) (l1 ++ [(n, true)]) = used (g_heap_head h) l /\
     (forall x, live (g_heap_head h) l x -> h_mem h' !! x = h_mem h !! x) /\ kept_above lim (h_mem h) (h_mem h')) \/
  grow_heap k fuel size h = Done NULL h.
Proof.
  intros Hinv Hsz Hfuel. pose proof Hinv as (Hrow & Hne & He & Hb & _ & Hl & _).
  destruct (grow_size_ok size true ltac:(lia)) as [Hg [Hg1 Hg2]].
  destruct l as [|[n f] l0] using rev_ind; [done|]. clear IHl0. rewrite grown_snoc.
  rewrite length_app in Hfuel. simpl in Hfuel.
  pose proof (row_at _ _ _ _ Hrow) as (H1 & [Hn _] & _ & Hx & _ & _ & _ & Hh & _). simpl in Hn.
  pose proof Hrow as (_ & Hpos & _). pose proof (span_nonneg _ H1) as Hsp.
  assert (g_heap_end h < lim + 1) as Hel by lia. pose proof Hg as [Hg16 _]. simpl in Hg16.
  assert (forall b, 0 < b -> g_heap_end h < g_heap_end h + b) as Hlt by lia.
  assert (0 < g_heap_end h) as Hep by (rewrite He, span_app; simpl; lia).
  assert (grow_size size < 2 ^ 62) as Hg62.
  { unfold grow_size. destruct (Z.ltb_spec 4096 size).
    - destruct (align_up_bounds size ltac:(lia)). lia.
    - destruct (align_up_bounds 4096 ltac:(lia)). lia. }
  unfold grow_heap. fold (grow_size size). rewrite bind_run, (last_segment_ok _ _ _ _ _ Hrow) by lia.
  rewrite bind_run, (get_free_ok _ _ _ Hh). rewrite bind_run, (get_magic_ok _ _ _ Hh). cbn [sg_free].
  rewrite bind_run. cbn [gets]. destruct f; cbn [b2z]; zconst; cbn [negb andb].
  - rewrite (u64_id (g_heap_end h + grow_size size)) by (unfold UINT64_MAX; lia). rewrite bind_run.
    destruct (sys_brk_ok h (g_heap_end h + grow_size size)) as [(_ & Hgl & h1 & R & C & Hm & E1 & E2 & E3 & E4 & E5)|[_ R]]; try lia.
    2: { right. rewrite R. by rewrite (proj2 (Z.eqb_neq _ _)) by lia. }
    rewrite R, Z.eqb_refl. cbn [negb]. left.
    replace (g_heap_end h + grow_size size - h_brk h) with (grow_size size) in * by lia.
    destruct (extend_last h h1 l0 n L (grow_size size)) as (m' & R' & Hinv' & C'); try done; try lia.
    rewrite E5 in R'. rewrite R'. eexists. split; [done|]. split; [done|]. rewrite E5 in Hinv'. split; [done|].
    split; [lia|]. rewrite E5 in C'.
    assert (used (g_heap_head h) (l0 ++ [(n + grow_size size, true)]) = used (g_heap_head h) (l0 ++ [(n, true)])) as Hsub
      by (rewrite !used_app; done).
    split; [done|]. cbn. split; [intros x Hx'; eapply live_kept_grow; [exact Hinv|apply Hinv'|done|exact C'|done]|by eapply grow_above].
  - unfold sizeof_heap_seg. rewrite (u64_id (g_heap_end h + 32 + grow_size size)) by (unfold UINT64_MAX; lia). rewrite bind_run.
    destruct (sys_brk_ok h (g_heap_end h + 32 + grow_size size)) as [(_ & Hgl & h1 & R & C & Hm & E1 & E2 & E3 & E4 & E5)|[_ R]]; try lia.
    2: { right. rewrite R. by rewrite (proj2 (Z.eqb_neq _ _)) by lia. }
    rewrite R, Z.eqb_refl. cbn [negb]. left.
    replace (g_heap_end h + 32 + grow_size size - h_brk h) with (32 + grow_size size) in * by lia.
    destruct (add_block h h1 l0 n false L (grow_size size)) as (m' & R' & Hinv' & C'); try done; try lia.
    rewrite E5, Hb in R'. rewrite R'. rewrite E5 in Hinv', C'.
    assert (addr_of h (l0 ++ [(n, false)]) = g_heap_end h) as -> by (unfold addr_of; lia).
    rewrite <- app_assoc. simpl app. eexists. split; [done|]. split; [done|]. split; [done|].
    split; [lia|].
    assert (used (g_heap_head h) (l0 ++ [(n, false); (grow_size size, true)]) = used (g_heap_head h) (l0 ++ [(n, false)])) as Hsub
      by (rewrite !used_app; done).
    split; [done|]. cbn. split; [intros x Hx'; eapply live_kept_grow; [exact Hinv|apply Hinv'|done|exact C'|done]|by eapply grow_above].
Qed.

(** ** malloc *)

(** The outcome of a successful allocation of [size] bytes at [p]: a block
    that holds them joins the used ones, whose bytes stay as they were. *)
Definition allocated (h h' : heap) (l l' : list block) (L : list (Z * Z)) (size p : Z) : Prop :=
  inv h' l' L /\ g_heap_head h' = g_heap_head h /\ p mod 16 = 0 /\
  (exists U1 U2 n, used (g_heap_head h) l = U1 ++ U2 /\
     used (g_heap_head h) l' = U1 ++ (p, n) :: U2 /\ size <= n) /\
  (forall x, live (g_heap_head h) l x -> h_mem h' !! x = h_mem h !! x) /\ kept_above lim (h_mem h) (h_mem h').

Lemma span_mod16 l : Forall block_ok l -> span l mod 16 = 0.
Proof.
  induction 1 as [|[n f] l [_ Hn] _ IH]; simpl in *; [done|].
  replace (32 + n + span l) with (n + span l + 2 * 16) by lia. by rewrite Z.mod_add, Zplus_mod, Hn, IH by lia.
Qed.

Lemma used_carve a l1 n size l2 :
  exists n', used a (l1 ++ carve false n size ++ l2) = used a l1 ++ (a + span l1 + 32, n') :: used (a + span l1 + 32 + n) l2 /\
    Z.min size n <= n'.
Proof.
  rewrite !used_app, carve_span. unfold carve. replace (a + span l1 + (32 + n)) with (a + span l1 + 32 + n) by lia.
  destruct (n <=? size + 48); simpl; eexists; (split; [done|lia]).
Qed.

Lemma take_allocated h0 h l0 l1 n l2 L size :
  inv h (l1 ++ (n, true) :: l2) L -> g_heap_head h = g_heap_head h0 -> 0 < size < 65536 -> round_size size <= n ->
  used (g_heap_head h0) (l1 ++ (n, true) :: l2) = used (g_heap_head h0) l0 ->
  (forall x, live (g_heap_head h0) l0 x -> h_mem h !! x = h_mem h0 !! x) -> kept_above lim (h_mem h0) (h_mem h) ->
  exists h' l', (_ ← split_segment (addr_of h l1) (round_size size); _ ← set_free (addr_of h l1) 0;
              mret (addr_of h l1 + sizeof_heap_seg)) h = Done (addr_of h l1 + 32) h' /\
    allocated h0 h' l0 l' L size (addr_of h l1 + 32).
Proof.
  intros Hinv Hhd Hsz Hle Hused Hkeep Hab. destruct (round_size_ok size false ltac:(lia)) as [Hrs Hrs2].
  destruct (take_block h l1 n l2 L (round_size size) Hinv Hrs Hle) as (m' & R & Hinv' & Hk & Hka).
  pose proof Hinv as (Hrow & _ & _ & _ & Hal & _).
  pose proof (row_at _ _ _ _ Hrow) as (H1 & _ & _ & Hx & _).
  do 2 eexists. split; [exact R|]. split; [exact Hinv'|]. cbn. split_and!; try done.
  - unfold addr_of. replace (g_heap_head h + span l1 + 32) with (g_heap_head h + span l1 + 2 * 16) by lia.
    rewrite Z.mod_add by lia. by rewrite Zplus_mod, Hal, span_mod16.
  - rewrite <- Hused, <- Hhd. destruct (used_carve (g_heap_head h) l1 n (round_size size) l2) as (n' & E & Hn').
    do 2 eexists. exists n'. split; [apply used_app|]. split; [exact E|lia].
  - intros x Hlx. rewrite Hk; [by apply Hkeep|]. rewrite Hhd. apply live_used. apply live_used in Hlx. by rewrite Hused.
  - intros x Hx'. rewrite Hka by done. by apply Hab.
Qed.

Lemma malloc_small_ok h l L size :
  inv h l L -> 0 < size < 65536 -> (length l < fuel)%nat ->
  (exists h' l' p, malloc k fuel size h = Done p h' /\ allocated h h' l l' L size p) \/
  (malloc k fuel size h = Done NULL h /\ Forall (fun b => b.2 = true -> b.1 < round_size size) l).
Proof.
  intros Hinv Hsz Hf. pose proof Hinv as (Hrow & Hne & _). pose proof Hrow as (_ & Hpos & _).
  unfold malloc. rewrite (proj2 (Z.eqb_neq size 0)) by lia. unfold LARGE_ALLOC_THRESHOLD.
  rewrite (proj2 (Z.leb_gt _ _)) by lia. unfold heap_lazy_init. mstep.
  rewrite (proj2 (Z.eqb_neq (g_heap_head h) NULL)) by (unfold NULL; lia). mstep.
  rewrite (proj2 (Z.eqb_neq (g_heap_head h) NULL)) by (unfold NULL; lia). mstep.
  rewrite (find_ok fuel h l) by done. mstep.
  destruct (first_fit (round_size size) l) as [[[l1 n] l2]|] eqn:Ef.
  - destruct (first_fit_Some _ _ _ _ _ Ef) as (-> & Hle & _).
    pose proof (row_at _ _ _ _ Hrow) as (_ & _ & _ & Hx & _).
    rewrite (proj2 (Z.eqb_neq (addr_of h l1) NULL)) by (unfold NULL; lia). mstep.
    rewrite (proj2 (Z.eqb_neq (addr_of h l1) NULL)) by (unfold NULL; lia).
    destruct (take_allocated h h (l1 ++ (n, true) :: l2) l1 n l2 L size) as (h' & l' & R & Ha); try done.
    left. exists h', l', (addr_of h l1 + 32). done.
  - apply first_fit_None in Ef. zconst.
    destruct (round_size_ok size true ltac:(lia)) as [[Hr16 _] Hr2]. simpl in Hr16.
    pose proof (grow_ok h l L (round_size size) Hinv ltac:(lia) ltac:(lia)) as Hg.
    destruct (grown (grow_size (round_size size)) l) as [l1 n].
    destruct Hg as [(h1 & -> & Hhd & Hinv1 & Hle & Hsub & Hkeep & Hab)| -> ].
    + pose proof Hinv1 as (Hrow1 & _). pose proof (row_at _ _ _ _ Hrow1) as (_ & _ & _ & Hx & _).
      replace (addr_of h1 l1) with (addr_of h l1) in Hx by (unfold addr_of; by rewrite Hhd).
      rewrite (proj2 (Z.eqb_neq (addr_of h l1) NULL)) by (unfold NULL; lia).
      destruct (take_allocated h h1 l l1 n [] L size) as (h' & l' & R & Ha); try done.
      replace (addr_of h1 l1) with (addr_of h l1) in * by (unfold addr_of; by rewrite Hhd).
      left. exists h', l', (addr_of h l1 + 32). done.
    + right. by zconst.
Qed.

(** ** free *)

Lemma free_large_miss h L ptr :
  larges (h_mem h) (g_large_alloc_list h) L -> Forall (large_ok lim) L -> (length L < fuel)%nat ->
  Forall (fun b => b.1 + 24 <> ptr) L -> free_large fuel ptr h = Done false h.
Proof.
  intros HL Hok Hf Hne. unfold free_large.
  assert (forall L fuel cur p, get_cur cur h = Done p h -> larges (h_mem h) p L -> Forall (large_ok lim) L ->
    (length L < fuel)%nat -> Forall (fun b => b.1 + 24 <> ptr) L -> while fuel (free_large_step ptr) cur h = Done false h) as K.
  { clear -Hlim. intros L. induction L as [|[a sz] L IH]; intros fuel cur p Hc HL Hok Hf Hne;
      (destruct fuel as [|fuel]; simpl in Hf; [lia|]); rewrite while_S; unfold free_large_step at 1; mstep; rewrite Hc; mstep.
    - simpl in HL. subst p. by zconst.
    - destruct HL as (-> & Ha & Hs & nx & Hw & Hx & Hr).
      apply Forall_cons in Hok as [(H1 & H2 & H3 & H4) Hok]. apply Forall_cons in Hne as [Hn Hne]. simpl in *.
      rewrite (proj2 (Z.eqb_neq a NULL)) by (unfold NULL; lia). mstep.
      unfold get_addr. rewrite (hmem_load h 8 a (a + 24)) by (done || simpl; lia). mstep.
      rewrite (proj2 (Z.eqb_neq _ _)) by done. mstep. apply (IH fuel (Some a) nx); try done; [|lia].
      simpl. unfold get_lnext. by apply hmem_load. }
  by apply (K L fuel None (g_large_alloc_list h)).
Qed.

Lemma coalesce_span l1 n l2 : span (coalesce l1 n l2) = span (l1 ++ (n, true) :: l2).
Proof.
  assert (forall l n l2, span (join_prev l n l2) = span (l ++ (n, true) :: l2)) as Hp.
  { intros l m r. unfold join_prev. destruct l as [|[n0 [|]] q _] using rev_ind; [done| |];
      rewrite reverse_app; simpl; [|done]. rewrite reverse_involutive, !span_app. simpl. lia. }
  unfold coalesce, join_next. destruct l2 as [|[n2 [|]] l2]; rewrite Hp; [done| |done].
  rewrite !span_app. simpl. lia.
Qed.

Lemma coalesce_not_nil l1 n l2 : coalesce l1 n l2 <> [].
Proof.
  assert (forall l n l2, join_prev l n l2 <> []) as Hp.
  { intros l m r. unfold join_prev. destruct (reverse l) as [|[n0 [|]] q]; intros E;
      apply (f_equal length) in E; rewrite length_app in E; simpl in E; lia. }
  unfold coalesce, join_next. destruct l2 as [|[n2 [|]] l2]; apply Hp.
Qed.

(** Joining free blocks changes no used block. *)
Lemma coalesce_used a l1 n l2 : used a (coalesce l1 n l2) = used a (l1 ++ (n, true) :: l2).
Proof.
  assert (forall l n l2, used a (join_prev l n l2) = used a (l ++ (n, true) :: l2)) as Hp.
  { intros l m r. unfold join_prev. destruct l as [|[n0 [|]] q _] using rev_ind; [done| |];
      rewrite reverse_app; simpl; [|done]. rewrite reverse_involutive, <- app_assoc, !used_app. simpl.
    do 2 f_equal. lia. }
  unfold coalesce, join_next. destruct l2 as [|[n2 [|]] l2]; rewrite Hp; [done| |done].
  rewrite !used_app. simpl. do 2 f_equal. lia.
Qed.

Lemma hdrs_flag a l1 n (f g : bool) l2 x :
  hdrs a (l1 ++ (n, f) :: l2) x <-> hdrs a (l1 ++ (n, g) :: l2) x.
Proof. rewrite !hdrs_app. simpl. tauto. Qed.

Lemma free_ok h l1 n l2 L :
  inv h (l1 ++ (n, false) :: l2) L -> (length L < fuel)%nat ->
  exists h', free fuel (addr_of h l1 + 32) h = Done tt h' /\ g_heap_head h' = g_heap_head h /\
    inv h' (coalesce l1 n l2) L /\
    (forall x, live (g_heap_head h) (l1 ++ (n, true) :: l2) x -> h_mem h' !! x = h_mem h !! x) /\ kept_above lim (h_mem h) (h_mem h').
Proof.
  intros Hinv Hf. pose proof Hinv as (Hrow & _ & He & Hb & _ & Hl & HL & HLok).
  pose proof (row_at _ _ _ _ Hrow) as (H1 & [Hn _] & H2 & Hx & _ & _ & _ & Hh & _). simpl in Hn.
  pose proof (span_nonneg _ H2) as Hsp2.
  assert (addr_of h l1 + 32 <= h_brk h) as Hin by (unfold addr_of; rewrite Hb, He, span_app; simpl; lia).
  unfold free. rewrite (proj2 (Z.eqb_neq _ NULL)) by (unfold NULL; lia). mstep.
  rewrite (free_large_miss h L); try done.
  2: { eapply Forall_impl; [exact HLok|]. intros [a sz] (Ha & _). simpl in *. lia. }
  unfold heap_free. rewrite (proj2 (Z.eqb_neq _ NULL)) by (unfold NULL; lia). unfold sizeof_heap_seg.
  replace (addr_of h l1 + 32 - 32) with (addr_of h l1) by lia. mstep.
  rewrite (get_magic_ok _ _ _ Hh). mstep. rewrite (get_free_ok _ _ _ Hh). cbn [sg_free b2z]. zconst. mstep.
  destruct (free_flag_ok h l1 n false l2 true Hrow) as (m1 & R1 & Hrow1 & C1). cbn [b2z] in R1. rewrite R1. mstep.
  destruct (combine_ok (set_hmem m1 h) l1 n l2 Hrow1) as (m2 & R2 & Hrow2 & C2).
  change (addr_of (set_hmem m1 h) l1) with (addr_of h l1) in R2. rewrite R2. cbn [h_mem set_hmem g_heap_head] in C2.
  assert (changed (h_mem h) m2 (hdrs (g_heap_head h) (l1 ++ (n, true) :: l2))) as C by (by eapply changed_trans).
  assert (changed (h_mem h) m2 (fun x => g_heap_head h <= x < h_brk h)) as Cb.
  { eapply changed_weaken; [|exact C]. intros x Hx'. eapply hdrs_in_break; [exact Hinv|apply Hrow1| |exact Hx']. by rewrite !span_app. }
  exists (set_hmem m2 h). split; [done|]. split; [done|]. split; [|split].
  - apply (inv_change h (l1 ++ (n, false) :: l2)); try done; [apply coalesce_not_nil|]. rewrite coalesce_span, !span_app. done.
  - cbn. intros x Hlx. eapply live_kept; [apply Hrow1|exact C|done].
  - eapply changed_above; [exact Cb|]. cbn beta. lia.
Qed.

(** ** Properties *)

(** [malloc] of a small size, on any heap that satisfies the invariant:
    either it returns NULL, changes nothing, and no free block was large
    enough; or it returns a 16-aligned address at which a block of at least
    that size joins the used blocks - which are otherwise the same, and whose
    every byte is unchanged - and the invariant holds again. *)
Theorem malloc_allocates h l L size :
  inv h l L -> 0 < size < 65536 -> (length l < fuel)%nat ->
  (exists h' l' p, malloc k fuel size h = Done p h' /\ allocated h h' l l' L size p) \/
  (malloc k fuel size h = Done NULL h /\ Forall (fun b => b.2 = true -> b.1 < round_size size) l).
Proof. apply malloc_small_ok. Qed.

(** [free] of a used block's address: exactly that block leaves the used
    ones, its space is joined with the free neighbours it has on either side,
    every byte of the other used blocks is unchanged and the invariant holds. *)
Theorem free_releases h l1 n l2 L :
  inv h (l1 ++ (n, false) :: l2) L -> (length L < fuel)%nat ->
  exists h', free fuel (addr_of h l1 + 32) h = Done tt h' /\ g_heap_head h' = g_heap_head h /\
    inv h' (coalesce l1 n l2) L /\
    used (g_heap_head h) (coalesce l1 n l2) = used (g_heap_head h) l1 ++ used (addr_of h l1 + 32 + n) l2 /\
    (forall p s x, (p, s) ∈ used (g_heap_head h) (coalesce l1 n l2) -> within p s x -> h_mem h' !! x = h_mem h !! x).
Proof.
  intros Hinv Hf. destruct (free_ok h l1 n l2 L Hinv Hf) as (h' & R & Hhd & Hinv' & Hk & _).
  exists h'. split_and!; try done.
  - rewrite coalesce_used, used_app. done.
  - intros p s x Hp Hx. apply Hk. apply live_used. rewrite coalesce_used in Hp. eauto.
Qed.
End kernel_laws.

(** ** A concrete heap *)

Definition demo_kernel : kernel :=
  {| k_brk_ok := fun b => b <=? 2 ^ 20; k_mmap := fun _ _ => None; k_byte := fun _ => 0 |}.

(** One block of 64 bytes at 4096. *)
Definition demo_heap (f : bool) : heap :=
  {| h_mem := wr ∅ 4096 (to_le 8 64 ++ to_le 4 (b2z f) ++ to_le 4 HEAP_MAGIC ++ to_le 8 0 ++ to_le 8 0 ++ replicate 64 0);
     g_heap_head := 4096; g_heap_base := 4096; g_heap_end := 4192; g_large_alloc_list := NULL; h_brk := 4192 |}.

Lemma demo_inv f : inv (2 ^ 20) (demo_heap f) [(64, f)] [].
Proof.
  unfold inv, row. split_and!; try done; try (apply Forall_singleton; by split).
  apply (mapped_check _ _ 96); [destruct f; vm_compute; reflexivity|simpl; lia].
Qed.

Lemma demo_brk b : k_brk_ok demo_kernel b = true -> b <= 2 ^ 20.
Proof. apply Z.leb_le. Qed.

Lemma malloc_allocates_witness :
  (exists h' l' p, malloc demo_kernel 9 24 (demo_heap true) = Done p h' /\
     allocated (2 ^ 20) (demo_heap true) h' [(64, true)] l' [] 24 p) \/
  (malloc demo_kernel 9 24 (demo_heap true) = Done NULL (demo_heap true) /\
    Forall (fun b => b.2 = true -> b.1 < round_size 24) [(64, true)]).
Proof.
  apply (malloc_allocates demo_kernel 9 (2 ^ 20) ltac:(lia) demo_brk (demo_heap true) [(64, true)] [] 24);
    [apply demo_inv|lia|simpl; lia].
Defined.

Lemma free_releases_witness :
  exists h', free 9 4128 (demo_heap false) = Done tt h' /\ g_heap_head h' = 4096 /\
    inv (2 ^ 20) h' [(64, true)] [] /\ used 4096 [(64, true)] = [] /\
    (forall p s x, (p, s) ∈ used 4096 [(64, true)] -> within p s x -> h_mem h' !! x = h_mem (demo_heap false) !! x).
Proof.
  exact (free_releases 9 (2 ^ 20) (demo_heap false) [] 64 [] [] (demo_inv false) ltac:(simpl; lia)).
Defined.
