(* ===== verification/MallocLarge.v ===== *)
(** * The large blocks of the heap

    Blocks of 64 KiB and more are mapped one by one and kept in a singly linked
    list, whose nodes are the first 24 bytes of each mapping. A new block is put in
    front of the list; releasing one unlinks its node and unmaps it. *)

From stdpp Require Import base tactics list gmap numbers strings.
From Stdlib Require Import ZArith Lia Sorted.
From S2P Require Import Prelude.
From S2P Require Import Memory.
From S2P Require Import Malloc.
From S2P Require Import MallocFacts.
From S2P Require Import MallocProps.

(** ** Ranges that do not overlap *)

Definition disj (u v : Z * Z) : Prop := u.1 + u.2 <= v.1 \/ v.1 + v.2 <= u.1.

Fixpoint apart (U : list (Z * Z)) : Prop :=
  match U with [] => True | u :: r => Forall (disj u) r /\ apart r end.

Lemma apart_app U V : apart (U ++ V) <-> apart U /\ apart V /\ Forall (fun u => Forall (disj u) V) U.
Proof.
  induction U as [|u U IH]; cbn; [split; [intros; split_and!; done|tauto]|]. rewrite Forall_app, Forall_cons, IH. tauto.
Qed.

#[export] Instance apart_perm : Proper (Permutation ==> iff) apart.
Proof.
  assert (forall U V, Permutation U V -> apart U -> apart V) as K; [|intros U V H; split; apply K; [done|by symmetry]].
  induction 1 as [|u U V HP IH|u v U|U V W _ IH1 _ IH2]; cbn.
  - done.
  - intros [H1 H2]. split; [by rewrite <- HP|auto].
  - intros [H1 [H2 H3]]. apply Forall_cons in H1 as [H0 H1]. split_and!; try done. constructor; [|done]. unfold disj in *. tauto.
  - auto.
Qed.

Lemma apart_shrink A U : Forall2 (fun a u => a.1 = u.1 /\ a.2 <= u.2) A U -> apart U -> apart A.
Proof.
  induction 1 as [|a u A U [E1 E2] HF IH]; cbn; [done|]. intros [H1 H2]. split; [|auto]. clear IH H2.
  induction HF as [|b v B V [E3 E4] HF IH]; constructor; apply Forall_cons in H1 as [H1 H3]; [|auto]. unfold disj in *. lia.
Qed.

Lemma apart_sorted U : StronglySorted (fun b c => b.1 + b.2 + 32 <= c.1) U -> apart U.
Proof. induction 1 as [|u U HS IH HF]; cbn; [done|]. split; [|done]. eapply Forall_impl; [exact HF|]. intros v Hv. left. cbn in Hv. lia. Qed.

Lemma apart_lookup U i j u v : apart U -> i <> j -> U !! i = Some u -> U !! j = Some v -> disj u v.
Proof.
  revert i j. induction U as [|w U IH]; intros i j HA Hij Hi Hj; [done|]. destruct HA as [HF HU]. rewrite Forall_forall in HF.
  destruct i as [|i], j as [|j]; cbn in *; try done; simplify_eq.
  - apply HF. by eapply list_elem_of_lookup_2.
  - assert (disj v u) as H by (apply HF; by eapply list_elem_of_lookup_2). unfold disj in *. tauto.
  - apply (IH i j); try done. congruence.
Qed.

(** ** The list of large blocks *)

(** The mapping of a large block, and the part the program gets. *)
Definition extent (b : Z * Z) : Z * Z := (b.1, 24 + b.2).
Definition payload (b : Z * Z) : Z * Z := (b.1 + 24, b.2).

Record larges_ok (lim : Z) (m : mem) (p : Z) (L : list (Z * Z)) : Prop := {
  lo_list : larges m p L;
  lo_range : Forall (large_ok lim) L;
  lo_mapped : Forall (fun b => mapped m b.1 (24 + b.2)) L;
  lo_apart : apart (extent <$> L)
}.

Lemma extents_other L1 b L2 c : apart (extent <$> (L1 ++ b :: L2)) -> c ∈ L1 ++ L2 -> disj (extent b) (extent c).
Proof.
  rewrite <- Permutation_middle. cbn. intros [H _] Hc. rewrite Forall_fmap, Forall_forall in H. by apply (H c).
Qed.

(** A change of memory that spares every mapping. *)
Lemma larges_ok_same lim m m' P p L :
  same_outside P m m' -> (forall b x, b ∈ L -> within b.1 (24 + b.2) x -> ~ P x) -> larges_ok lim m p L -> larges_ok lim m' p L.
Proof.
  intros Hs Hd [H1 H2 H3 H4]. split; [|done| |done].
  - eapply larges_same; [exact Hs| |exact H1]. intros b x Hb Hx. apply (Hd b x Hb). rewrite Forall_forall in H2. destruct (H2 b Hb) as (_ & _ & ? & _). unfold within in *. lia.
  - rewrite Forall_forall in H3 |- *. intros b Hb. eapply mapped_same; [exact Hs| |by apply H3]. intros x. by apply Hd.
Qed.

Lemma larges_ok_above lim m m' p L : kept_above lim m m' -> larges_ok lim m p L -> larges_ok lim m' p L.
Proof.
  intros Hk H. eapply (larges_ok_same lim m m' (fun x => x < lim)); [intros x Hx; apply Hk; lia| |done]. intros b x Hb Hx.
  pose proof (lo_range _ _ _ _ H) as Hr. rewrite Forall_forall in Hr. destruct (Hr b Hb). unfold within in *. lia.
Qed.

(** ** A new block *)

(** What the allocator relies on: [mmap] without an address gives page-aligned,
    unmapped memory of the user half, above the breaks that are granted. (The kernel
    searches from 0x600000000000 on, and a break up to there takes 96 TiB.) *)
Definition fresh_mmap (lim : Z) (k : kernel) : Prop := forall m n a, k_mmap k m n = Some a ->
  a mod 4096 = 0 /\ lim <= a /\ a + n < 2 ^ 63 /\ forall x, within a n x -> m !! x = None.

(** The node at the start of a mapping. *)
Lemma init_node h a size nx :
  mapped (h_mem h) a (24 + size) -> 0 <= size -> word64 (a + 24) -> word64 size -> word64 nx -> g_large_alloc_list h = nx ->
  exists m', (_ ← set_addr a (a + sizeof_large_seg); _ ← set_size a size; l ← gets g_large_alloc_list; _ ← set_lnext a l;
              _ ← modify (set_large a); get_addr a) h = Done (a + 24) (set_large a (set_hmem m' h)) /\
    changed (h_mem h) m' (within a 24) /\ arr m' a (to_le 8 (a + 24)) /\ arr m' (a + 8) (to_le 8 size) /\ arr m' (a + 16) (to_le 8 nx).
Proof.
  intros Hm Hs W1 W2 W3 Hl. unfold sizeof_large_seg, set_addr, set_size, set_lnext.
  assert (forall m', changed (h_mem h) m' (within a 24) -> forall o, 0 <= o <= 16 -> mapped m' (a + o) 8) as Hmap.
  { intros m' Hc o Ho x Hx. apply (changed_mapped _ _ _ _ _ Hc Hm). lia. }
  destruct (store_field h 8 a (a + 24)) as (m1 & R1 & A1 & C1); [intros x Hx; apply Hm; lia|].
  assert (changed (h_mem h) m1 (within a 24)) as D1 by (eapply changed_weaken; [|exact C1]; unfold within; lia).
  destruct (store_field (set_hmem m1 h) 8 (a + 8) size) as (m2 & R2 & A2 & C2); [apply (Hmap m1); [done|lia]|].
  assert (changed (h_mem h) m2 (within a 24)) as D2 by (eapply changed_trans; [exact D1|]; eapply changed_weaken; [|exact C2]; unfold within; lia).
  destruct (store_field (set_hmem m2 h) 8 (a + 16) nx) as (m3 & R3 & A3 & C3); [apply (Hmap m2); [done|lia]|].
  assert (changed (h_mem h) m3 (within a 24)) as D3 by (eapply changed_trans; [exact D2|]; eapply changed_weaken; [|exact C3]; unfold within; lia).
  cbn [h_mem set_hmem] in C2, C3. assert (arr m3 a (to_le 8 (a + 24))) as A.
  { eapply changed_arr; [exact C3|rewrite length_to_le; unfold within; lia|]. eapply changed_arr; [exact C2|rewrite length_to_le; unfold within; lia|done]. }
  exists m3. split; [|split_and!; try done; eapply changed_arr; [exact C3|rewrite length_to_le; unfold within; lia|done]].
  mstep. rewrite R1. mstep. rewrite R2, set_hmem_set. mstep. cbn [g_large_alloc_list set_hmem]. rewrite Hl. rewrite set_hmem_set in R3. rewrite R3. mstep. unfold get_addr. by apply hmem_load.
Qed.

Lemma list_word lim m p L : larges m p L -> Forall (large_ok lim) L -> word64 p.
Proof. destruct L as [|[a sz] L]; [by intros -> _|]. intros (-> & _) [(? & ? & ? & ?) _]%Forall_cons. cbn in *. unfold word64. lia. Qed.

(** The head of the list is the address of its first block. *)
Lemma larges_head m m' p p' L : larges m p L -> larges m' p' L -> p = p'.
Proof. destruct L as [|[a sz] L]; [by intros -> ->|]. by intros (-> & _) (-> & _). Qed.

Lemma malloc_large_ok k lim h L size :
  fresh_mmap lim k -> 0 < lim -> larges_ok lim (h_mem h) (g_large_alloc_list h) L -> 0 < size -> size + 24 < 2 ^ 64 ->
  malloc_large k size h = Done NULL h \/
  exists a m', malloc_large k size h = Done (a + 24) (set_large a (set_hmem m' h)) /\ a mod 4096 = 0 /\ lim <= a /\
    larges_ok lim m' a ((a, size) :: L) /\ changed (h_mem h) m' (within a (24 + size)) /\ (forall x, within a (24 + size) x -> h_mem h !! x = None).
Proof.
  intros Hk Hlim HL Hs1 Hs2. unfold malloc_large, mmap, sizeof_large_seg. rewrite u64_id by (unfold UINT64_MAX; lia). cbv zeta. rewrite bind_run.
  replace (size + 24) with (24 + size) in * by lia. destruct (k_mmap k (h_mem h) (24 + size)) as [a|] eqn:E; [|left; by rewrite Z.eqb_refl].
  destruct (Hk _ _ _ E) as (Ha & Hla & Hb & Hf). right. rewrite (proj2 (Z.eqb_neq a MAP_FAILED)) by (unfold MAP_FAILED, UINT64_MAX; lia).
  pose proof HL as [L1 L2 L3 L4]. set (h1 := set_hmem _ h).
  assert (zlen (fresh k a (24 + size)) = 24 + size) as Hfl by (apply length_fresh; lia).
  assert (mapped (h_mem h1) a (24 + size)) as Hm by (unfold h1; cbn; pose proof (arr_mapped _ _ _ (wr_arr (h_mem h) a (fresh k a (24 + size)))) as H; by rewrite Hfl in H).
  assert (changed (h_mem h) (h_mem h1) (within a (24 + size))) as C1 by (unfold h1; cbn; pose proof (changed_wr (h_mem h) a (fresh k a (24 + size))) as H; by rewrite Hfl in H).
  destruct (init_node h1 a size (g_large_alloc_list h)) as (m' & R & C & A1 & A2 & A3); try done; try (unfold word64; lia); [by eapply list_word|].
  exists a, m'. unfold sizeof_large_seg in R. rewrite R. unfold h1. rewrite set_hmem_set. split; [done|]. split; [done|]. split; [done|].
  assert (changed (h_mem h) m' (within a (24 + size))) as D by (eapply changed_trans; [exact C1|]; eapply changed_weaken; [|exact C]; unfold within; lia).
  assert (larges_ok lim m' (g_large_alloc_list h) L) as [K1 K2 K3 K4].
  { eapply larges_ok_same; [exact (proj1 D)| |exact HL]. intros b x Hbl Hx Hin. rewrite Forall_forall in L3. destruct (L3 b Hbl x Hx) as [v Hv]. by rewrite (Hf x Hin) in Hv. }
  split; [|done]. split.
  - cbn [larges]. split; [done|]. split; [done|]. split; [done|]. exists (g_large_alloc_list h). split; [by eapply list_word|done].
  - constructor; [|done]. unfold large_ok. cbn. lia.
  - constructor; [|done]. cbn. eapply changed_mapped; [exact C|done].
  - cbn. split; [|done]. apply Forall_fmap, Forall_forall. intros b Hbl. rewrite Forall_forall in L2, L3. destruct (L2 b Hbl) as (_ & _ & Hn & _). unfold disj. cbn.
    destruct (decide (a + (24 + size) <= b.1)); [by left|]. destruct (decide (b.1 + (24 + b.2) <= a)); [by right|].
    destruct (L3 b Hbl (Z.max a b.1)) as [v Hv]; [lia|]. rewrite (Hf (Z.max a b.1)) in Hv; [done|]. unfold within. lia.
Qed.

(** ** Releasing a block *)

Lemma unmap_lookup n a m x : unmap_bytes n a m !! x = if decide (within a (Z.of_nat n) x) then None else m !! x.
Proof.
  revert a m. induction n as [|n IH]; intros a m; cbn [unmap_bytes]; [rewrite decide_False; [done|unfold within; lia]|].
  rewrite IH. unfold within. repeat case_decide; try lia; try done; destruct (decide (x = a)) as [->|].
  all: rewrite ?lookup_delete_eq, ?lookup_delete_ne by done; done || lia.
Qed.

(** The node of a block in the list. *)
Lemma node_at m p L1 a sz L2 :
  larges m p (L1 ++ (a, sz) :: L2) -> arr m a (to_le 8 (a + 24)) /\ arr m (a + 8) (to_le 8 sz) /\ exists nx, word64 nx /\ arr m (a + 16) (to_le 8 nx) /\ larges m nx L2.
Proof. revert p. induction L1 as [|[b s] L1 IH]; intros p; cbn [app larges]; [by intros (-> & ? & ? & ?)|]. intros (_ & _ & _ & nx & _ & _ & H). by apply (IH nx). Qed.

(** The cursor of [free] after it passed the nodes [L1]. *)
Definition cursor (cur : option Z) (L1 : list (Z * Z)) : option Z := match last L1 with Some b => Some b.1 | None => cur end.

Lemma cursor_cons cur b L1 : cursor cur (b :: L1) = cursor (Some b.1) L1.
Proof. unfold cursor. rewrite last_cons. by destruct (last L1). Qed.

(** The search stops at the node of the block. *)
Lemma free_large_walk fuel lim h cur p L1 a sz L2 nx :
  get_cur cur h = Done p h -> larges (h_mem h) p (L1 ++ (a, sz) :: L2) -> Forall (large_ok lim) (L1 ++ (a, sz) :: L2) -> apart (extent <$> (L1 ++ (a, sz) :: L2)) ->
  (length L1 < fuel)%nat -> word64 nx -> arr (h_mem h) (a + 16) (to_le 8 nx) ->
  while fuel (free_large_step (a + 24)) cur h = (_ ← munmap a (24 + sz); _ ← set_cur (cursor cur L1) nx; mret true) h.
Proof.
  revert fuel cur p. induction L1 as [|[b s] L1 IH]; intros fuel cur p Hc HL Hok Hap Hf Hw Hnx; (destruct fuel as [|fuel]; [cbn in Hf; lia|]); rewrite while_S; unfold free_large_step at 1; mstep; rewrite Hc; mstep.
  - cbn [app larges] in HL, Hok. destruct HL as (-> & A1 & A2 & _). apply Forall_cons in Hok as [(K1 & K2 & K3 & K4) _]. cbn in K1, K2, K3, K4.
    rewrite (proj2 (Z.eqb_neq a NULL)) by (unfold NULL; lia). mstep. unfold get_addr. rewrite (hmem_load h 8 a (a + 24)) by (done || cbn; lia). mstep.
    unfold get_size, get_lnext. rewrite (hmem_load h 8 (a + 8) sz) by (done || cbn; lia). mstep. rewrite (hmem_load h 8 (a + 16) nx) by done. mstep.
    unfold sizeof_large_seg. rewrite u64_id by (unfold UINT64_MAX; lia). replace (a + 24 - 24) with a by lia. replace (sz + 24) with (24 + sz) by lia. change (cursor cur []) with cur.
    unfold munmap, modify. cbn beta iota. mstep. by destruct (set_cur cur nx (set_hmem _ h)).
  - pose proof (extents_other [] (b, s) (L1 ++ (a, sz) :: L2) (a, sz) Hap) as Hdis. cbn [app larges] in HL, Hok, Hap. destruct HL as (-> & A1 & A2 & nb & Wb & Ab & HL). apply Forall_cons in Hok as [(K1 & K2 & K3 & K4) Hok].
    destruct Hap as [_ Hap]. cbn in K1, K2, K3, K4. rewrite (proj2 (Z.eqb_neq b NULL)) by (unfold NULL; lia). mstep. unfold get_addr. rewrite (hmem_load h 8 b (b + 24)) by (done || cbn; lia). mstep.
    rewrite (proj2 (Z.eqb_neq (b + 24) (a + 24))).
    2: { assert (large_ok lim (a, sz)) as (_ & _ & ? & _) by (rewrite Forall_forall in Hok; apply Hok; set_solver). destruct Hdis; [set_solver|cbn in *; lia..]. }
    mstep. rewrite cursor_cons. apply (IH fuel (Some b) nb); try done; [|cbn in Hf; lia]. cbn. unfold get_lnext. by apply hmem_load.
Qed.

(** Unlinking the node behind [q]. *)
Lemma larges_unlink m m' p L1 q s a sz L2 nx P :
  larges m p (L1 ++ (q, s) :: (a, sz) :: L2) -> larges m' nx L2 -> same_outside P m m' -> word64 nx ->
  (forall b x, b ∈ L1 -> within b.1 24 x -> ~ P x) -> (forall x, within q 16 x -> ~ P x) -> arr m' (q + 16) (to_le 8 nx) -> larges m' p (L1 ++ (q, s) :: L2).
Proof.
  intros HL H2 Hs Hw. revert p HL. induction L1 as [|[b t] L1 IH]; intros p; cbn [app larges].
  - intros (-> & A1 & A2 & _) _ Hq Hn. split; [done|]. split; [|split; [|by exists nx]];
      (eapply arr_same; [exact Hs| |done]; rewrite length_to_le; intros x Hx; apply Hq; unfold within in *; lia).
  - intros (-> & A1 & A2 & nb & Wb & Ab & HL) Hd Hq Hn.
    assert (forall o v, 0 <= o <= 16 -> arr m (b + o) (to_le 8 v) -> arr m' (b + o) (to_le 8 v)) as K.
    { intros o v Ho. eapply node_same; [exact Hs| |done]. intros x. apply (Hd (b, t)). left. }
    pose proof (K 0) as K0. rewrite Z.add_0_r in K0. split; [done|]. split; [by apply K0|]. split; [by apply K|]. exists nb. split; [done|]. split; [by apply K|].
    apply IH; try done. intros c x Hc. apply Hd. by right.
Qed.

(** What releasing the block [b] behind the nodes [L1] changes. *)
Definition freed (L1 : list (Z * Z)) (b : Z * Z) (x : Z) : Prop := within b.1 (24 + b.2) x \/ exists c, c ∈ L1 /\ within c.1 24 x.

Lemma free_large_ok fuel lim h L1 a sz L2 :
  larges_ok lim (h_mem h) (g_large_alloc_list h) (L1 ++ (a, sz) :: L2) -> (length L1 < fuel)%nat ->
  exists g m', free_large fuel (a + 24) h = Done true (set_large g (set_hmem m' h)) /\ larges_ok lim m' g (L1 ++ L2) /\ same_outside (freed L1 (a, sz)) (h_mem h) m' /\
    (forall b x, b ∈ L1 ++ L2 -> within b.1 (24 + b.2) x -> is_Some (m' !! x)).
Proof.
  intros [HL Hok Hm Hap] Hf. destruct (node_at _ _ _ _ _ _ HL) as (_ & _ & nx & Hw & Hnx & H2). unfold free_large.
  rewrite (free_large_walk fuel lim h None (g_large_alloc_list h) L1 a sz L2 nx) by done. unfold munmap. mstep. set (m1 := unmap_bytes _ a (h_mem h)).
  assert (large_ok lim (a, sz)) as (_ & _ & Hsz & _) by (rewrite Forall_forall in Hok; apply Hok; set_solver). cbn in Hsz.
  assert (same_outside (within a (24 + sz)) (h_mem h) m1) as S1.
  { intros x Hx. unfold m1. rewrite unmap_lookup, Z2Nat.id by lia. by rewrite decide_False. }
  assert (forall b x, b ∈ L1 ++ L2 -> within b.1 (24 + b.2) x -> ~ within a (24 + sz) x) as Hout.
  { intros b x Hb Hx Hin. destruct (extents_other L1 (a, sz) L2 b Hap Hb); cbn in *; unfold within in *; lia. }
  assert (larges m1 nx L2) as H2'.
  { eapply larges_same; [exact S1| |done]. intros b x Hb Hx. apply (Hout b); [set_solver|]. rewrite Forall_forall in Hok. destruct (Hok b) as (_ & _ & ? & _); [set_solver|]. unfold within in *. lia. }
  assert (Forall (large_ok lim) (L1 ++ L2)) as Hok' by (apply Forall_app in Hok as [? [_ ?]%Forall_cons]; by apply Forall_app).
  assert (apart (extent <$> (L1 ++ L2))) as Hap' by (rewrite <- Permutation_middle in Hap; cbn in Hap; tauto).
  assert (Forall (fun b => mapped m1 b.1 (24 + b.2)) (L1 ++ L2)) as Hm1.
  { rewrite Forall_forall in Hm |- *. intros b Hb. eapply mapped_same; [exact S1| |apply Hm; set_solver]. intros x. by apply Hout. }
  destruct L1 as [|[q s] L0 _] using rev_ind.
  { exists nx, m1. change (cursor None []) with (None : option Z). cbn [set_cur]. unfold modify. mstep. split; [done|]. split; [done|]. split; [intros x Hx; apply S1; intros H; apply Hx; by left|].
    intros b x Hb. rewrite Forall_forall in Hm1. by apply Hm1. }
  unfold cursor. rewrite last_snoc. cbn [set_cur fst]. unfold set_lnext.
  assert (0 <= s /\ mapped m1 q (24 + s)) as [Hs0 Hmq].
  { split; [rewrite Forall_forall in Hok; destruct (Hok (q, s)) as (_ & _ & ? & _); [set_solver|done]|]. rewrite Forall_forall in Hm1. apply (Hm1 (q, s)). set_solver. }
  destruct (store_field (set_hmem m1 h) 8 (q + 16) nx) as (m2 & R & A & C); [cbn; intros x Hx; apply Hmq; lia|]. rewrite R, set_hmem_set. cbn [h_mem set_hmem] in C. mstep.
  exists (g_large_alloc_list h), m2. split; [by destruct h|].
  assert (same_outside (fun x => within a (24 + sz) x \/ within (q + 16) 8 x) (h_mem h) m2) as S2.
  { intros x Hx. rewrite (proj1 C) by tauto. apply S1. tauto. }
  assert (forall b x, b ∈ L0 ++ L2 -> within b.1 (24 + b.2) x -> ~ within q (24 + s) x) as Hq.
  { intros b x Hb Hx Hin. rewrite <- app_assoc in Hap'. destruct (extents_other L0 (q, s) L2 b Hap' Hb); cbn in *; unfold within in *; lia. }
  assert (forall b, b ∈ L0 ++ [(q, s)] ++ (a, sz) :: L2 -> 0 <= b.2) as Hnn by (intros b Hb; rewrite Forall_forall in Hok; destruct (Hok b) as (_ & _ & ? & _); [set_solver|done]).
  split_and!; [split; [|done| |done]| |].
  - rewrite <- app_assoc. cbn [app]. rewrite <- app_assoc in HL. cbn [app] in HL. eapply larges_unlink; [exact HL| |exact S2|done| | |done].
    + eapply larges_same; [exact (proj1 C)| |exact H2']. intros b x Hb Hx Hin. apply (Hq b x); [set_solver|specialize (Hnn b); unfold within in *; cbn in *|unfold within in *; lia]. assert (0 <= b.2) by (apply Hnn; set_solver). lia.
    + intros b x Hb Hx. assert (0 <= b.2) by (apply Hnn; set_solver). assert (within b.1 (24 + b.2) x) as Hx' by (unfold within in *; lia).
      intros [Hc|Hc]; [by apply (Hout b x); [set_solver|..]|]. apply (Hq b x); [set_solver|done|unfold within in *; lia].
    + intros x Hx [H|H]; [|unfold within in *; lia]. apply (Hout (q, s) x); [set_solver|unfold within in *; cbn; lia|done].
  - rewrite Forall_forall in Hm1 |- *. intros b Hb. eapply changed_mapped; [exact C|by apply Hm1].
  - intros x Hx. apply S2. intros [H|H]; apply Hx; [by left|]. right. exists (q, s). split; [set_solver|]. unfold within in *. cbn. lia.
  - intros b x Hb Hx. rewrite Forall_forall in Hm1. apply (changed_mapped _ _ _ b.1 (24 + b.2) C); [by apply Hm1|done].
Qed.
