(* ===== verification/MallocClient.v ===== *)
(** * Programs that use the heap

    A client starts with the untouched globals of malloc.c and allocates,
    writes to and releases blocks in any order. By induction on its steps, the
    blocks it holds never overlap and keep what it wrote into them, and none
    of its calls is undefined or fails to return. *)

From stdpp Require Import base tactics list gmap numbers strings relations fin_maps.
From Stdlib Require Import ZArith Lia Sorted.
From S2P Require Import Prelude.
From S2P Require Import Memory.
From S2P Require Import CString.
From S2P Require Import Malloc.
From S2P Require Import MallocFacts.
From S2P Require Import MallocProps.
From S2P Require Import MallocLarge.

(** ** Clients *)

Lemma malloc_mono k size : mono (fun f => malloc k f size).
Proof.
  unfold malloc. repeat (apply mono_if; [apply mono_const|]).
  apply mono_bind; [apply mono_const|intros _]. apply mono_bind; [apply mono_const|intros head].
  apply mono_if; [apply mono_const|].
  apply mono_bind; [apply mono_bind; [apply mono_const|intros ?; apply mono_while]|intros seg].
  apply mono_bind; [apply mono_if; [|apply mono_const]|intros ?; apply mono_const].
  unfold grow_heap. apply mono_bind; [apply mono_bind; [apply mono_const|intros ?; apply mono_while]|intros r].
  destruct r; apply mono_const.
Qed.

Lemma free_mono p : mono (fun f => free f p).
Proof.
  unfold free. apply mono_if; [apply mono_const|]. apply mono_bind; [apply mono_while|intros ?; apply mono_const].
Qed.

(** *** The client's steps *)

(** A client's state: the heap, the blocks it holds (address and size asked
    for) and the bytes it has written to them. *)
Record client := { c_heap : heap; c_held : list (Z * Z); c_wrote : gmap Z Z }.

(** What is left of the written bytes when the block is released. *)
Definition forget (p size : Z) (w : gmap Z Z) : gmap Z Z :=
  filter (fun xv => ~ (p <= xv.1 < p + size)) w.

Inductive client_step (k : kernel) : client -> client -> Prop :=
| step_malloc h A W size p h' :
    0 < size -> size + 24 < 2 ^ 64 -> returns (fun f => malloc k f size) h p h' -> p <> NULL ->
    client_step k (Build_client h A W) (Build_client h' ((p, size) :: A) W)
| step_refused h A W size h' :
    0 < size -> size + 24 < 2 ^ 64 -> returns (fun f => malloc k f size) h NULL h' ->
    client_step k (Build_client h A W) (Build_client h' A W)
| step_free h A1 p size A2 W h' :
    returns (fun f => free f p) h tt h' ->
    client_step k (Build_client h (A1 ++ (p, size) :: A2) W) (Build_client h' (A1 ++ A2) (forget p size W))
| step_write h A W p size x v h' :
    (p, size) ∈ A -> within p size x -> hmem (store8 x v) h = Done tt h' ->
    client_step k (Build_client h A W) (Build_client h' A (<[x := u8 v]> W)).

(** The break area before the first small block. *)
Definition unset (h : heap) : Prop :=
  g_heap_head h = NULL /\ 0 < h_brk h /\ h_brk h mod 16 = 0 /\ h_brk h + 131072 < 2 ^ 62.

(** The state before the first call. *)
Definition untouched (h : heap) : Prop := unset h /\ g_large_alloc_list h = NULL.

(** Where a block of a size lies: small ones are 16-aligned, large ones 24 bytes
    behind the start of a page. *)
Definition placed (a : Z * Z) : Prop := a.1 mod 16 = if LARGE_ALLOC_THRESHOLD <=? a.2 then 8 else 0.

(** The blocks in use, small and large. *)
Definition blocks (h : heap) (l : list block) (L : list (Z * Z)) : list (Z * Z) := used (g_heap_head h) l ++ (payload <$> L).

Definition heap_ok (lim : Z) (h : heap) (l : list block) (L : list (Z * Z)) : Prop :=
  (l = [] /\ unset h \/ inv lim h l L) /\ larges_ok lim (h_mem h) (g_large_alloc_list h) L.

(** The bytes of blocks stay as they were. *)
Definition kept_in (U : list (Z * Z)) (m m' : mem) : Prop := forall b x, b ∈ U -> within b.1 b.2 x -> m' !! x = m !! x.

(** The held blocks are blocks in use, one for one. *)
Definition backed (A : list (Z * Z)) (U : list (Z * Z)) : Prop :=
  exists U', U' ≡ₚ U /\ Forall2 (fun a u => a.1 = u.1 /\ a.2 <= u.2) A U'.

Definition client_inv (lim : Z) (c : client) : Prop :=
  exists l L, heap_ok lim (c_heap c) l L /\ backed (c_held c) (blocks (c_heap c) l L) /\ Forall placed (c_held c) /\
    forall x v, c_wrote c !! x = Some v -> h_mem (c_heap c) !! x = Some v /\ exists a, a ∈ c_held c /\ within a.1 a.2 x.

#[export] Instance backed_perm A : Proper (Permutation ==> iff) (backed A).
Proof. intros U V H. split; intros (U' & HP & HF); exists U'; (split; [|done]); by rewrite HP. Qed.

Lemma backed_new a n U A : backed A U -> a.2 <= n -> backed (a :: A) ((a.1, n) :: U).
Proof. intros (U' & HP & HF) Hn. exists ((a.1, n) :: U'). split; [by rewrite HP|by constructor]. Qed.

Lemma backed_in A U a : backed A U -> a ∈ A -> exists n, (a.1, n) ∈ U /\ a.2 <= n.
Proof.
  intros (U' & HP & HF) Ha. apply list_elem_of_lookup in Ha as [i Hi].
  destruct (Forall2_lookup_l _ _ _ _ _ HF Hi) as ([q n] & Hu & E & Hn). simpl in *. subst q.
  exists n. split; [|done]. rewrite <- HP. by eapply list_elem_of_lookup_2.
Qed.

(** The block behind a held one, and the rest behind the others. *)
Lemma backed_remove A1 a A2 U :
  backed (A1 ++ a :: A2) U -> exists n V, U ≡ₚ (a.1, n) :: V /\ a.2 <= n /\ backed (A1 ++ A2) V.
Proof.
  intros (U' & HP & HF). apply Forall2_app_inv_l in HF as (V1 & V & F1 & F2 & ->).
  apply Forall2_cons_inv_l in F2 as ([q n] & V2 & [Hq Hn] & F2 & ->). simpl in *. subst q.
  exists n, (V1 ++ V2). split; [by rewrite <- HP, Permutation_middle|]. split; [done|]. exists (V1 ++ V2). split; [done|by apply Forall2_app].
Qed.

Lemma backed_apart A U : backed A U -> apart U -> apart A.
Proof. intros (U' & HP & HF) HU. eapply apart_shrink; [exact HF|]. by rewrite HP. Qed.

(** A used block is a block of the row. *)
Lemma used_split a l U1 p n U2 :
  used a l = U1 ++ (p, n) :: U2 ->
  exists l1 l2, l = l1 ++ (n, false) :: l2 /\ U1 = used a l1 /\ p = a + span l1 + 32 /\ U2 = used (a + span l1 + 32 + n) l2.
Proof.
  revert a U1. induction l as [|[m f] l IH]; intros a U1 E; [by destruct U1|]. simpl in E. destruct f.
  - destruct (IH _ _ E) as (l1 & l2 & -> & -> & -> & ->). exists ((m, true) :: l1), l2. simpl.
    split_and!; try done; [|f_equal]; lia.
  - destruct U1 as [|u U1]; simpl in E; [injection E as <- <- <-|injection E as <- E].
    + exists [], l. simpl. split_and!; try done; [|f_equal]; lia.
    + destruct (IH _ _ E) as (l1 & l2 & -> & -> & -> & ->). exists ((m, false) :: l1), l2. simpl.
      split_and!; try done; [|f_equal]; lia.
Qed.

Section clients.
Context (k : kernel) (lim : Z).
Context (Hlim : 0 < lim < 2 ^ 62).
Context (Hbrk : forall b, k_brk_ok k b = true -> b <= lim).
Context (Hmmap : fresh_mmap lim k).

(** ** The blocks in use *)

Lemma heap_small h l L : heap_ok lim h l L -> Forall block_ok l /\ (l <> [] -> inv lim h l L).
Proof. intros [[[-> _]|Hi] _]; [split; [done|by intros []]|]. split; [apply Hi|done]. Qed.

(** Small blocks end below [lim], large ones begin above. *)
Lemma used_below h l L b : heap_ok lim h l L -> b ∈ used (g_heap_head h) l -> 0 < b.1 /\ b.1 + b.2 <= lim /\ inv lim h l L.
Proof.
  intros [[[-> _]|Hi] _] Hb; [by apply not_elem_of_nil in Hb|]. pose proof Hi as ((Hok & Hp & _) & _ & He & Hbr & _ & Hl & _). destruct b as [p n]. apply used_range in Hb; [|done]. cbn. split_and!; try done; lia.
Qed.

Lemma payload_above h l L b : heap_ok lim h l L -> b ∈ payload <$> L -> lim <= b.1.
Proof. intros [_ [_ Hr _ _]] Hb. apply list_elem_of_fmap in Hb as (c & -> & Hc). rewrite Forall_forall in Hr. destruct (Hr c Hc). cbn. lia. Qed.

Lemma blocks_apart h l L : heap_ok lim h l L -> apart (blocks h l L).
Proof.
  intros Hh. apply apart_app. split_and!.
  - apply apart_sorted, used_sorted, (proj1 (heap_small h l L Hh)).
  - destruct Hh as [_ [_ Hr _ Ha]]. clear Hr. induction L as [|b L IH]; cbn in *; [done|]. destruct Ha as [H1 H2]. split; [|auto].
    rewrite Forall_fmap in H1 |- *. eapply Forall_impl; [exact H1|]. intros c Hc. unfold disj in *. cbn in *. lia.
  - apply Forall_forall. intros u Hu. apply Forall_forall. intros v Hv. left. pose proof (used_below h l L u Hh Hu). pose proof (payload_above h l L v Hh Hv). lia.
Qed.

Lemma blocks_mapped h l L b x : heap_ok lim h l L -> b ∈ blocks h l L -> within b.1 b.2 x -> is_Some (h_mem h !! x).
Proof.
  intros Hh [Hb|Hb]%elem_of_app Hx.
  - destruct (used_below h l L b Hh Hb) as (_ & _ & ((Hok & _ & _ & Hm & _) & _)). destruct b as [p n]. apply used_range in Hb; [|done]. apply Hm. unfold within in Hx. cbn in Hx. lia.
  - destruct Hh as [_ [_ _ Hm _]]. apply list_elem_of_fmap in Hb as (c & -> & Hc). rewrite Forall_forall in Hm. apply (Hm c Hc). unfold within, payload in *. cbn in Hx. lia.
Qed.

(** ** Changes above [lim], and of bytes of blocks *)

Lemma heap_ok_above h l L L' m' g :
  heap_ok lim h l L -> larges_ok lim m' g L' -> same_outside (fun x => lim <= x) (h_mem h) m' -> heap_ok lim (set_large g (set_hmem m' h)) l L'.
Proof.
  intros [[[-> Hu]|Hi] _] HL Hs; (split; [|done]); [by left|right]. destruct Hi as ((Hok & Hp & Hs63 & Hm & Hl) & Hne & He & Hb & Ha & Hlm & _).
  unfold inv, row. cbn. split_and!; try done; try apply HL.
  - eapply mapped_same; [exact Hs| |done]. unfold within. lia.
  - eapply lseg_same; [done|exact Hs| |done]. intros x Hx%hdrs_range; cbn beta; [lia|done].
Qed.

Lemma heap_ok_write h l L b x v :
  heap_ok lim h l L -> b ∈ blocks h l L -> within b.1 b.2 x -> heap_ok lim (set_hmem (<[x := v]> (h_mem h)) h) l L.
Proof.
  intros Hh Hb Hx. pose proof Hh as [Hsm HL].
  assert (same_outside (fun y => y = x) (h_mem h) (<[x := v]> (h_mem h))) as Hs by (intros y Hy; by rewrite lookup_insert_ne).
  apply elem_of_app in Hb as [Hb|Hb].
  - destruct (used_below h l L b Hh Hb) as (_ & Hbl & Hi). assert (x < lim) as Hxl by (unfold within in Hx; lia).
    assert (larges_ok lim (<[x := v]> (h_mem h)) (g_large_alloc_list h) L) as HL'.
    { eapply larges_ok_above; [|exact HL]. intros y Hy. rewrite lookup_insert_ne by lia. done. }
    split; [right|done]. pose proof Hi as ((Hok & Hp & Hs63 & Hm & Hl) & Hne & He & Hbr & Ha & Hlm & _).
    unfold inv, row. cbn. split_and!; try done; [by apply insert_mapped| |apply HL'|apply HL'].
    eapply lseg_same; [done|exact Hs| |done]. intros y Hy ->. destruct b as [p n]. eapply live_not_hdr; [done| |done]. apply live_used. eauto.
  - pose proof (payload_above h l L b Hh Hb) as Hab. apply list_elem_of_fmap in Hb as (c & -> & Hc). unfold payload, within in Hx, Hab. cbn in Hx, Hab.
    replace (set_hmem _ h) with (set_large (g_large_alloc_list h) (set_hmem (<[x := v]> (h_mem h)) h)) by by destruct h.
    apply (heap_ok_above h l L); [done| |intros y Hy; rewrite lookup_insert_ne by lia; done]. destruct HL as [H1 H2 H3 H4]. split; [|done| |done].
    + eapply larges_same; [exact Hs| |done]. intros d y Hd Hy ->. apply list_elem_of_split in Hc as (L1 & L2 & ->).
      destruct (decide (d ∈ L1 ++ L2)) as [Hd'|Hd']; [|assert (d = c) as -> by set_solver; unfold within in *; lia].
      rewrite Forall_forall in H2. destruct (H2 d) as (_ & _ & Hd2 & _); [done|]. destruct (extents_other L1 c L2 d H4 Hd'); cbn in *; unfold within in *; lia.
    + eapply Forall_impl; [exact H3|]. intros d Hd. by apply insert_mapped.
Qed.

(** ** The first small block *)

Lemma lazy_init_ok h L :
  unset h -> larges_ok lim (h_mem h) (g_large_alloc_list h) L ->
  exists h', heap_lazy_init k h = Done tt h' /\ (inv lim h' [(131040, true)] L \/ unset h') /\ kept_above lim (h_mem h) (h_mem h') /\ g_large_alloc_list h' = g_large_alloc_list h.
Proof.
  intros (H1 & H3 & H4 & H5) HL. unfold heap_lazy_init. mstep. rewrite H1. zconst. mstep.
  change (sys_brk k 0 h) with (Done (h_brk h) h : outcome heap Z). mstep. rewrite u64_id by (unfold UINT64_MAX; lia).
  destruct (sys_brk_ok k lim Hbrk
    {| h_mem := h_mem h; g_heap_head := g_heap_head h; g_heap_base := h_brk h; g_heap_end := g_heap_end h;
       g_large_alloc_list := g_large_alloc_list h; h_brk := h_brk h |} (h_brk h + 131072))
    as [(_ & Hgl & h1 & R & C & Hm & E1 & E2 & E3 & E4 & E5)|[_ R]]; cbn in *; try lia; unfold NULL in *; rewrite H1 in R |- *; rewrite R; mstep.
  2: { rewrite (proj2 (Z.eqb_neq _ _)) by lia. mstep. eexists. split; [done|]. split; [right; by unfold unset|]. by split. }
  replace (h_brk h + 131072 - h_brk h) with 131072 in * by lia. unfold NULL in *.
  set (h2 := {| h_mem := h_mem h1; g_heap_head := h_brk h; g_heap_base := h_brk h; g_heap_end := h_brk h + 131072;
       g_large_alloc_list := g_large_alloc_list h1; h_brk := h_brk h1 |}).
  destruct (init3_ok h2 (h_brk h) 131040) as (m1 & R1 & A1 & C1).
  { intros x Hx. apply Hm. lia. }
  destruct (init2_ok (set_hmem m1 h2) (h_brk h) 131040 0 0) as (m2 & R2 & A2 & C2); try done.
  assert (kept_above lim (h_mem h) m2) as Hab.
  { cbn in C1, C2. eapply changed_above; [|intros x; exact (fun H : within (h_brk h) 131072 x => ltac:(unfold within in H; lia))].
    eapply changed_trans; [exact C|]. eapply changed_trans; eapply changed_weaken; [|exact C1| |exact C2]; unfold within; lia. }
  exists (set_hmem m2 h2). split; [|split; [left|by split]].
  - change (131072 - sizeof_heap_seg) with 131040.
    revert R1 R2. unfold mbind, M_bind. cbn beta.
    destruct (set_length (h_brk h) 131040 h2) as [[] ?| |]; try done.
    destruct (set_free (h_brk h) 1 s) as [[] ?| |]; try done.
    destruct (set_magic (h_brk h) HEAP_MAGIC s0) as [[] ?| |]; try done. intros [= ->] ->. done.
  - assert (mapped m2 (h_brk h) 131072) as Hm2 by (eapply changed_mapped; [exact C2|]; cbn; by eapply changed_mapped).
    pose proof (larges_ok_above _ _ _ _ _ Hab HL) as HL2. unfold inv, row. cbn. rewrite E4, E5.
    split_and!; try done; try lia; try apply HL2. by repeat constructor.
Qed.

Lemma lazy_init_again h l L : inv lim h l L -> heap_lazy_init k h = Done tt h.
Proof.
  intros ((_ & Hp & _) & _). unfold heap_lazy_init. mstep. by rewrite (proj2 (Z.eqb_neq (g_heap_head h) NULL)) by (unfold NULL; lia).
Qed.

(** ** malloc *)

(** What an allocation does to the blocks: a block that holds the size joins them,
    or NULL is returned and they stay. *)
Definition malloced (h : heap) (U : list (Z * Z)) (size p : Z) (h' : heap) (l' : list block) (L' : list (Z * Z)) : Prop :=
  heap_ok lim h' l' L' /\ kept_in U (h_mem h) (h_mem h') /\
  (p = NULL /\ blocks h' l' L' = U \/
   p <> NULL /\ placed (p, size) /\ exists n, size <= n /\ blocks h' l' L' ≡ₚ (p, n) :: U).

Lemma malloc_row h l L size :
  inv lim h l L -> larges_ok lim (h_mem h) (g_large_alloc_list h) L -> 0 < size < LARGE_ALLOC_THRESHOLD ->
  exists p h' l', returns (fun f => malloc k f size) h p h' /\ malloced h (blocks h l L) size p h' l' L.
Proof.
  intros Hi HL Hs. pose proof (conj (or_intror Hi) HL : heap_ok lim h l L) as Hh. unfold LARGE_ALLOC_THRESHOLD in Hs.
  destruct (malloc_small_ok k (S (length l)) lim Hlim Hbrk h l L size Hi Hs ltac:(lia)) as [(h' & l' & p & R & Hi' & Hhd & Hal & (U1 & U2 & n & E1 & E2 & Hn) & Hk & Ha)|[R _]].
  - exists p, h', l'. split; [by eapply mono_returns; [apply malloc_mono|]|]. assert (g_large_alloc_list h' = g_large_alloc_list h) as Hg by (eapply larges_head; [apply Hi'|apply HL]).
    assert (heap_ok lim h' l' L) as Hh' by (split; [by right|]; rewrite Hg; by eapply larges_ok_above). split; [done|]. split.
    + intros b x [Hb|Hb]%elem_of_app Hx; [apply Hk, live_used; destruct b; eauto|]. apply Ha. pose proof (payload_above h l L b Hh Hb). unfold within in Hx. lia.
    + right. assert ((p, n) ∈ used (g_heap_head h') l') as Hp by (rewrite Hhd, E2; set_solver). pose proof (used_below h' l' L (p, n) Hh' Hp) as (Hp0 & _). cbn in Hp0.
      split; [unfold NULL; lia|]. split; [unfold placed, LARGE_ALLOC_THRESHOLD; cbn; by rewrite (proj2 (Z.leb_gt _ _)) by lia|]. exists n. split; [done|]. unfold blocks. rewrite Hhd, E1, E2, <- !app_assoc. cbn [app]. by rewrite <- Permutation_middle.
  - exists NULL, h, l. split; [by eapply mono_returns; [apply malloc_mono|]|]. split; [done|]. split; [done|by left].
Qed.

Lemma malloc_any h l L size :
  heap_ok lim h l L -> 0 < size -> size + 24 < 2 ^ 64 ->
  exists p h' l' L', returns (fun f => malloc k f size) h p h' /\ malloced h (blocks h l L) size p h' l' L'.
Proof.
  intros Hh Hs1 Hs2. pose proof Hh as [Hsm HL]. destruct (decide (LARGE_ALLOC_THRESHOLD <= size)) as [Hbig|Hsmall].
  - assert (forall f, malloc k f size h = malloc_large k size h) as E by (intros f; unfold malloc; by rewrite (proj2 (Z.eqb_neq size 0)), (proj2 (Z.leb_le _ _)) by lia).
    destruct (malloc_large_ok k lim h L size Hmmap ltac:(lia) HL Hs1 Hs2) as [R|(a & m' & R & Ha & Hla & HL' & C & Hf)].
    { exists NULL, h, l, L. split; [exists 0%nat; intros f _; by rewrite E|]. split; [done|]. split; [done|by left]. }
    exists (a + 24), (set_large a (set_hmem m' h)), l, ((a, size) :: L). split; [exists 0%nat; intros f _; by rewrite E|]. split; [|split].
    + apply (heap_ok_above h l L); [done|done|]. intros x Hx. apply (proj1 C). unfold within. lia.
    + intros b x Hb Hx. apply (proj1 C). intros Hin. destruct (blocks_mapped h l L b x Hh Hb Hx) as [v Hv]. by rewrite (Hf x Hin) in Hv.
    + right. split; [unfold NULL; lia|]. split; [unfold placed; cbn; rewrite (proj2 (Z.leb_le _ _)) by done; Z.to_euclidean_division_equations; lia|].
      exists size. split; [done|]. unfold blocks. cbn. by rewrite <- Permutation_middle.
  - destruct Hsm as [[-> Hu]|Hi]; [|destruct (malloc_row h l L size Hi HL ltac:(lia)) as (p & h' & l' & H); eauto].
    destruct (lazy_init_ok h L Hu HL) as (h1 & R & H1 & Hab & Hg). pose proof (larges_ok_above _ _ _ _ _ Hab HL) as HL1. rewrite <- Hg in HL1.
    assert (kept_in (blocks h [] L) (h_mem h) (h_mem h1)) as Hk1. { intros b x Hb Hx. apply Hab. pose proof (payload_above h [] L b Hh Hb). unfold within in Hx. lia. }
    destruct H1 as [Hi|Hu1].
    + destruct (malloc_row h1 _ L size Hi HL1 ltac:(lia)) as (p & h' & l' & [f0 Hr] & Hh' & Hk & Hp). exists p, h', l', L. split; [|split; [done|split; [|exact Hp]]].
      * exists f0. intros f Hf. rewrite <- (Hr f Hf). unfold malloc. rewrite (proj2 (Z.eqb_neq size 0)), (proj2 (Z.leb_gt _ _)) by lia. rewrite bind_run, R. rewrite (bind_run (heap_lazy_init k)). by rewrite (lazy_init_again h1 _ _ Hi).
      * intros b x Hb Hx. rewrite (Hk b x Hb Hx). by apply (Hk1 b).
    + exists NULL, h1, [], L. split; [|split; [by split; [left|]|split; [done|by left]]]. exists 0%nat. intros f _. unfold malloc. rewrite (proj2 (Z.eqb_neq size 0)), (proj2 (Z.leb_gt _ _)) by lia. rewrite bind_run, R. mstep. destruct Hu1 as (-> & _). done.
Qed.

(** ** free *)

Lemma free_any h l L p n V :
  heap_ok lim h l L -> blocks h l L ≡ₚ (p, n) :: V ->
  exists h' l' L', returns (fun f => free f p) h tt h' /\ heap_ok lim h' l' L' /\ blocks h' l' L' ≡ₚ V /\ kept_in V (h_mem h) (h_mem h').
Proof.
  intros Hh HP. pose proof Hh as [Hsm HL]. pose proof (blocks_apart h l L Hh) as Hap. assert ((p, n) ∈ blocks h l L) as Hp by (rewrite HP; left). apply elem_of_app in Hp as [Hp|Hp].
  - destruct (used_below h l L _ Hh Hp) as (_ & _ & Hi). apply list_elem_of_split in Hp as (U1 & U2 & EU). destruct (used_split _ _ _ _ _ _ EU) as (l1 & l2 & -> & -> & -> & ->).
    destruct (free_ok (S (length L)) lim h l1 n l2 L Hi ltac:(lia)) as (h' & R & Hhd & Hi' & Hk & Ha).
    assert (blocks h' (coalesce l1 n l2) L ≡ₚ V) as HV.
    { apply (Permutation_cons_inv (a := (g_heap_head h + span l1 + 32, n))). rewrite <- HP. unfold blocks. rewrite coalesce_used, Hhd, !used_app. cbn [used]. rewrite <- !app_assoc. cbn [app]. by rewrite Permutation_middle. }
    assert (g_large_alloc_list h' = g_large_alloc_list h) as Hg by (eapply larges_head; [apply Hi'|apply HL]).
    exists h', (coalesce l1 n l2), L. split; [by eapply mono_returns; [apply free_mono|exact R]|]. split; [split; [by right|rewrite Hg; by eapply larges_ok_above]|]. split; [done|].
    intros b x Hb Hx. rewrite <- HV in Hb. apply elem_of_app in Hb as [Hb|Hb].
    + apply Hk, live_used. rewrite coalesce_used, Hhd in Hb. destruct b; eauto.
    + apply Ha. pose proof (payload_above _ _ _ b Hh Hb). unfold within in Hx. lia.
  - apply list_elem_of_fmap in Hp as ([a sz] & [= -> ->] & Hin). apply list_elem_of_split in Hin as (L1 & L2 & ->).
    destruct (free_large_ok (S (length L1)) lim h L1 a sz L2 HL ltac:(lia)) as (g & m' & R & HL' & Hs & _).
    pose proof (lo_range _ _ _ _ HL) as Hr. rewrite Forall_forall in Hr. assert (large_ok lim (a, sz)) as (Hr1 & Hr2 & Hr3 & _) by (apply Hr; set_solver). cbn in Hr1, Hr2, Hr3.
    assert (blocks (set_large g (set_hmem m' h)) l (L1 ++ L2) ≡ₚ V) as HV.
    { apply (Permutation_cons_inv (a := (a + 24, sz))). rewrite <- HP. unfold blocks. rewrite !fmap_app, fmap_cons. cbn. rewrite !app_assoc. by rewrite Permutation_middle. }
    exists (set_large g (set_hmem m' h)), l, (L1 ++ L2). split; [|split; [|split; [done|]]].
    + eapply mono_returns; [apply free_mono|]. unfold free. rewrite (proj2 (Z.eqb_neq (a + 24) NULL)) by (unfold NULL; lia). rewrite bind_run, R. done.
    + apply (heap_ok_above h l (L1 ++ (a, sz) :: L2)); [done|done|]. intros x Hx. apply Hs. intros [H|(c & Hc & H)]; [unfold within in H; cbn in H; lia|].
      destruct (Hr c) as (? & _); [set_solver|]. unfold within in H. lia.
    + rewrite HP in Hap. destruct Hap as [Hap _]. rewrite Forall_forall in Hap. intros b x Hb Hx. apply Hs. rewrite <- HV in Hb. apply elem_of_app in Hb as [Hb|Hb].
      * pose proof (used_below h l _ b Hh Hb) as (_ & Hbl & _). intros [H|(c & Hc & H)]; [unfold within in *; cbn in *; lia|]. destruct (Hr c) as (? & _); [set_solver|]. unfold within in *. lia.
      * apply list_elem_of_fmap in Hb as (d & -> & Hd). unfold within, payload in Hx. cbn in Hx. pose proof (lo_apart _ _ _ _ HL) as Ha. intros [H|(c & Hc & H)].
        { destruct (extents_other L1 (a, sz) L2 d Ha Hd); unfold within in *; cbn in *; lia. }
        destruct (decide (d = c)) as [->|Hne]; [unfold within in H; lia|]. pose proof (lo_apart _ _ _ _ HL') as Ha'. apply list_elem_of_split in Hc as (K1 & K2 & ->). rewrite <- app_assoc in Ha', Hd. cbn [app] in Ha', Hd.
        assert (d ∈ K1 ++ K2 ++ L2) as Hd' by set_solver. destruct (Hr c) as (_ & _ & ? & _); [set_solver|].
        destruct (extents_other K1 c (K2 ++ L2) d Ha' Hd'); unfold within in *; cbn in *; lia.
Qed.

(** ** Steps keep the invariant *)

Lemma client_malloc h A W size p h' :
  client_inv lim (Build_client h A W) -> 0 < size -> size + 24 < 2 ^ 64 -> returns (fun f => malloc k f size) h p h' ->
  client_inv lim (Build_client h' (if p =? NULL then A else (p, size) :: A) W).
Proof.
  intros (l & L & Hh & HB & HA & HW) Hs1 Hs2 Hr. cbn in *. destruct (malloc_any h l L size Hh Hs1 Hs2) as (q & h2 & l' & L' & Hr' & Hh' & Hk & Hp).
  destruct (returns_det _ _ _ _ _ _ Hr Hr') as [<- <-]. exists l', L'. cbn. split; [done|].
  assert (forall x v, W !! x = Some v -> h_mem h' !! x = Some v /\ exists a, a ∈ A /\ within a.1 a.2 x) as HW'.
  { intros x v Hx. destruct (HW x v Hx) as (Hm & a & Ha & Hin). split; [|eauto]. rewrite <- Hm. destruct (backed_in _ _ _ HB Ha) as (n & Hn & Hle). apply (Hk (a.1, n)); [done|]. unfold within in *. cbn. lia. }
  destruct Hp as [[-> HU]|(Hp & Hpl & n & Hn & HU)]; [rewrite Z.eqb_refl, HU; done|]. rewrite (proj2 (Z.eqb_neq _ _)) by done. split; [rewrite HU; by apply (backed_new (p, size))|].
  split; [by constructor|]. intros x v Hx. destruct (HW' x v Hx) as (Hm & a & Ha & Hin). split; [done|]. exists a. split; [by right|done].
Qed.

Lemma client_free h A1 p size A2 W h' :
  client_inv lim (Build_client h (A1 ++ (p, size) :: A2) W) -> returns (fun f => free f p) h tt h' ->
  client_inv lim (Build_client h' (A1 ++ A2) (forget p size W)).
Proof.
  intros (l & L & Hh & HB & HA & HW) Hr. cbn in *. destruct (backed_remove _ _ _ _ HB) as (n & V & HV & Hn & HB2). cbn in HV, Hn.
  destruct (free_any h l L p n V Hh HV) as (h2 & l' & L' & Hr' & Hh' & HV' & Hk). destruct (returns_det _ _ _ _ _ _ Hr Hr') as [_ <-].
  exists l', L'. cbn. split; [done|]. split; [by rewrite HV'|]. split; [by apply Forall_app in HA as [? [? ?]%Forall_cons]; apply Forall_app|].
  intros x v Hx. unfold forget in Hx. apply map_lookup_filter_Some in Hx as [Hx Hout]. simpl in Hout. destruct (HW x v Hx) as (Hm & a & Ha & Hin).
  assert (a ∈ A1 ++ A2) as Ha2.
  { apply elem_of_app in Ha as [Ha|Ha]; [apply elem_of_app; by left|]. apply elem_of_cons in Ha as [->|Ha]; [done|apply elem_of_app; by right]. }
  split; [|by exists a]. rewrite <- Hm. destruct (backed_in _ _ _ HB2 Ha2) as (m & Hu & Hle). apply (Hk (a.1, m)); [done|]. unfold within in *. cbn. lia.
Qed.

Lemma client_write h A W p size x v h' :
  client_inv lim (Build_client h A W) -> (p, size) ∈ A -> within p size x ->
  hmem (store8 x v) h = Done tt h' -> client_inv lim (Build_client h' A (<[x := u8 v]> W)).
Proof.
  intros (l & L & Hh & HB & HA & HW) Hp Hx R; cbn in *. unfold hmem, zoom, store8 in R. destruct (h_mem h !! x) eqn:E; simplify_eq.
  destruct (backed_in _ _ _ HB Hp) as (n & Hu & Hn). cbn in *. exists l, L. cbn. split; [|split; [done|split; [done|]]].
  - eapply heap_ok_write; [done|exact Hu|]. unfold within in *. cbn. lia.
  - intros y w. destruct (decide (x = y)) as [->|Hne].
    + rewrite !lookup_insert_eq. intros [= <-]. split; [done|]. by exists (p, size).
    + rewrite !lookup_insert_ne by done. apply HW.
Qed.

Lemma client_step_inv c c' : client_inv lim c -> client_step k c c' -> client_inv lim c'.
Proof.
  intros Hi Hs. destruct Hs as [h A W size p h' Hs1 Hs2 Hr Hp|h A W size h' Hs1 Hs2 Hr| |].
  - pose proof (client_malloc h A W size p h' Hi Hs1 Hs2 Hr) as K. by rewrite (proj2 (Z.eqb_neq _ _)) in K.
  - exact (client_malloc h A W size NULL h' Hi Hs1 Hs2 Hr).
  - by eapply client_free.
  - by eapply client_write.
Qed.

Definition start (h : heap) : client := Build_client h [] ∅.

Lemma client_reach_inv h0 c : untouched h0 -> rtc (client_step k) (start h0) c -> client_inv lim c.
Proof.
  intros [Hu Hl] Hr. assert (client_inv lim (start h0)) as Hi.
  { exists [], []. cbn. split; [|split; [by exists []|done]]. split; [by left|]. by split. }
  induction Hr; [done|]. by eapply IHHr, client_step_inv.
Qed.

(** ** Properties *)

(** C1. Whatever a program that starts on the untouched heap has allocated (any
    sizes up to 2^64 - 25), written and released: the blocks it holds are pairwise
    disjoint, those of less than 64 KiB are 16-aligned and the larger ones, which
    are mapped one by one, lie at an address that is 8 modulo 16; and every byte it
    wrote to a block it still holds reads back. *)
Theorem heap_client_safe h0 c :
  untouched h0 -> rtc (client_step k) (start h0) c ->
  (forall i j a b, i <> j -> c_held c !! i = Some a -> c_held c !! j = Some b ->
     a.1 + a.2 <= b.1 \/ b.1 + b.2 <= a.1) /\
  Forall (fun a => a.1 mod 16 = if a.2 <? 65536 then 0 else 8) (c_held c) /\
  (forall x v, c_wrote c !! x = Some v -> h_mem (c_heap c) !! x = Some v).
Proof.
  intros Hu Hr. destruct (client_reach_inv h0 c Hu Hr) as (l & L & Hh & HB & HA & HW). split_and!; [| |by intros x v Hx; apply HW].
  - intros i j a b. apply apart_lookup. eapply backed_apart; [exact HB|]. by apply blocks_apart.
  - eapply Forall_impl; [exact HA|]. unfold placed, LARGE_ALLOC_THRESHOLD. intros a ->. rewrite Z.ltb_antisym. by destruct (65536 <=? a.2).
Qed.

(** C2. No call of such a program is undefined or fails to return: an
    allocation of any size up to 2^64 - 25 returns, with a block or with NULL, a
    held block can be released, and every byte of a held block can be written. *)
Theorem heap_client_progress h0 c :
  untouched h0 -> rtc (client_step k) (start h0) c ->
  (forall size, 0 < size -> size + 24 < 2 ^ 64 -> exists p h', returns (fun f => malloc k f size) (c_heap c) p h') /\
  (forall p size, (p, size) ∈ c_held c ->
     (exists h', returns (fun f => free f p) (c_heap c) tt h') /\
     forall x v, within p size x -> exists h', hmem (store8 x v) (c_heap c) = Done tt h').
Proof.
  intros Hu Hr. destruct (client_reach_inv h0 c Hu Hr) as (l & L & Hh & HB & _). split.
  - intros size Hs1 Hs2. destruct (malloc_any _ l L size Hh Hs1 Hs2) as (p & h' & _ & _ & R & _). eauto.
  - intros p size Hp. split.
    + apply list_elem_of_split in Hp as (A1 & A2 & E). rewrite E in HB. destruct (backed_remove _ _ _ _ HB) as (n & V & HV & _). destruct (free_any _ l L p n V Hh HV) as (h' & _ & _ & R & _). eauto.
    + intros x v Hx. destruct (backed_in _ _ _ HB Hp) as (n & Hn & Hle). cbn in *. unfold hmem, zoom. rewrite store8_some; [eauto|]. apply (blocks_mapped _ l L (p, n) x Hh Hn). unfold within in *. cbn. lia.
Qed.
End clients.

(** ** A concrete client *)

(** A kernel that maps at 2 MiB when nothing is mapped there or above. *)
Definition mmap_kernel : kernel :=
  {| k_brk_ok := fun b => b <=? 2 ^ 20;
     k_mmap := fun m n => if (n <=? 2 ^ 20) && forallb (fun xv => xv.1 <? 2097152) (map_to_list m) then Some 2097152 else None;
     k_byte := fun _ => 0 |}.

Lemma mmap_kernel_brk b : k_brk_ok mmap_kernel b = true -> b <= 2 ^ 20.
Proof. apply Z.leb_le. Qed.

Lemma mmap_kernel_fresh : fresh_mmap (2 ^ 20) mmap_kernel.
Proof.
  intros m n a. cbn [k_mmap mmap_kernel]. destruct (_ && _) eqn:E; [|done]. intros [= <-]. apply andb_true_iff in E as [E1%Z.leb_le E2]. split_and!; [done|done|lia|].
  intros x Hx. unfold within in Hx. rewrite forallb_forall in E2. destruct (m !! x) as [v|] eqn:Ev; [|done]. apply elem_of_map_to_list, list_elem_of_In in Ev. specialize (E2 _ Ev). apply Z.ltb_lt in E2. cbn in E2. lia.
Qed.

Definition demo_untouched : heap :=
  {| h_mem := ∅; g_heap_head := NULL; g_heap_base := NULL; g_heap_end := NULL;
     g_large_alloc_list := NULL; h_brk := 4096 |}.

Lemma demo_untouched_ok : untouched demo_untouched.
Proof. by vm_compute. Qed.

(** A large block, two small ones and a write. *)
Lemma demo_run :
  exists h1 h2 h3 h4, malloc mmap_kernel 9 70000 demo_untouched = Done 2097176 h1 /\ malloc mmap_kernel 9 100 h1 = Done 4128 h2 /\
    malloc mmap_kernel 9 24 h2 = Done 4272 h3 /\ hmem (store8 4275 7) h3 = Done tt h4.
Proof.
  assert (match malloc mmap_kernel 9 70000 demo_untouched with
          | Done o h1 => (o =? 2097176) &&
            match malloc mmap_kernel 9 100 h1 with
            | Done p h2 => (p =? 4128) &&
                match malloc mmap_kernel 9 24 h2 with
                | Done q h3 => (q =? 4272) && match hmem (store8 4275 7) h3 with Done _ _ => true | _ => false end
                | _ => false
                end
            | _ => false
            end
          | _ => false end = true) as E by (vm_compute; reflexivity).
  destruct (malloc mmap_kernel 9 70000 demo_untouched) as [o h1| |]; try done.
  apply andb_true_iff in E as [->%Z.eqb_eq E]. exists h1.
  destruct (malloc mmap_kernel 9 100 h1) as [p h2| |]; try done.
  apply andb_true_iff in E as [->%Z.eqb_eq E]. exists h2.
  destruct (malloc mmap_kernel 9 24 h2) as [q h3| |]; try done.
  apply andb_true_iff in E as [->%Z.eqb_eq E]. exists h3.
  destruct (hmem (store8 4275 7) h3) as [[] h4| |]; try done. by exists h4.
Qed.

Lemma demo_reach :
  exists h, rtc (client_step mmap_kernel) (start demo_untouched)
    (Build_client h [(4272, 24); (4128, 100); (2097176, 70000)] {[4275 := 7]}).
Proof.
  destruct demo_run as (h1 & h2 & h3 & h4 & R1 & R2 & R3 & R4). exists h4.
  eapply rtc_l; [eapply (step_malloc _ _ _ _ 70000); [lia|lia|eapply mono_returns; [apply malloc_mono|exact R1]|done]|].
  eapply rtc_l; [eapply (step_malloc _ _ _ _ 100); [lia|lia|eapply mono_returns; [apply malloc_mono|exact R2]|done]|].
  eapply rtc_l; [eapply (step_malloc _ _ _ _ 24); [lia|lia|eapply mono_returns; [apply malloc_mono|exact R3]|done]|].
  apply rtc_once. eapply (step_write _ _ _ _ 4272 24 4275 7); [left|unfold within; lia|exact R4].
Qed.

Lemma heap_client_safe_witness :
  exists c, c_held c = [(4272, 24); (4128, 100); (2097176, 70000)] /\ h_mem (c_heap c) !! 4275 = Some 7 /\
    forall i j a b, i <> j -> c_held c !! i = Some a -> c_held c !! j = Some b ->
       a.1 + a.2 <= b.1 \/ b.1 + b.2 <= a.1.
Proof.
  destruct demo_reach as [h Hr].
  destruct (heap_client_safe mmap_kernel (2 ^ 20) ltac:(lia) mmap_kernel_brk mmap_kernel_fresh demo_untouched _ demo_untouched_ok Hr) as (H1 & _ & H3).
  eexists. split; [|split; [|exact H1]]; [done|]. apply H3. done.
Defined.

Lemma heap_client_progress_witness :
  exists c, c_held c = [(4272, 24); (4128, 100); (2097176, 70000)] /\
    (forall size, 0 < size -> size + 24 < 2 ^ 64 -> exists p h', returns (fun f => malloc mmap_kernel f size) (c_heap c) p h') /\
    exists h', returns (fun f => free f 2097176) (c_heap c) tt h'.
Proof.
  destruct demo_reach as [h Hr].
  destruct (heap_client_progress mmap_kernel (2 ^ 20) ltac:(lia) mmap_kernel_brk mmap_kernel_fresh demo_untouched _ demo_untouched_ok Hr) as (H1 & H2).
  eexists. split; [|split; [exact H1|]]; [done|]. apply (H2 2097176 70000). simpl. right. right. left.
Defined.
