(* ===== verification/Mutex.v ===== *)
(** * pthread.c: mutexes

    Every atomic access and every system call of a mutex operation is one step
    of the calling thread; threads interleave freely. The fields [owner] and
    [rec_count] are written by the thread that holds the mutex, and other threads
    only compare [owner] with their own unit: the plain accesses of one block are
    one step.

    The futexes are those of the kernel, sys_futex.cpp: a queue for each hash of a
    virtual address, which units of all realms share, and one variable,
    [g_wake_uaddr], that wakers of all queues share. *)

From stdpp Require Import base tactics list gmap numbers relations.
From Stdlib Require Import ZArith Lia.
From S2P Require Import Prelude.

Definition PTHREAD_MUTEX_NORMAL : Z := 0.
Definition PTHREAD_MUTEX_ERRORCHECK : Z := 1.
Definition PTHREAD_MUTEX_RECURSIVE : Z := 2.
Definition EPERM : Z := 1.
Definition EBUSY : Z := 16.
Definition ETIMEDOUT : Z := 116.

Record mutex := { mx_state : Z; mx_type : Z; mx_owner : Z; mx_rec : Z }.

Definition set_state v m := {| mx_state := v; mx_type := mx_type m; mx_owner := mx_owner m; mx_rec := mx_rec m |}.
Definition set_owner v r m := {| mx_state := mx_state m; mx_type := mx_type m; mx_owner := v; mx_rec := r |}.

Definition pthread_mutex_init (type : Z) : mutex :=
  {| mx_state := 0; mx_type := type; mx_owner := 0; mx_rec := 0 |}.

(** Which of the three lock functions is running. *)
Inductive how := Plain | Try | Timed.

(** Where a thread is: [Idle] outside the code; [Entry] at the start of a lock
    function; [Fast] at the compare-and-exchange; [Xchg] at the exchange of the
    slow path; [Wait] at the call of [futex_wait]; [Sleep] in the kernel's queue;
    [Woken] taken off the queue; [Own] behind the acquisition; [U_entry], [U_xchg]
    and [U_wake] in [pthread_mutex_unlock]. *)
Inductive pc :=
| Idle
| Entry (h : how) | Fast (h : how) | Xchg (h : how) | Wait (h : how) | Sleep (h : how) | Woken (h : how)
| Own
| U_entry | U_xchg | U_wake.

#[global] Instance how_eq_dec : EqDecision how.
Proof. solve_decision. Defined.
#[global] Instance pc_eq_dec : EqDecision pc.
Proof. solve_decision. Defined.

(** What a step does to its thread: go on, or return to the caller. *)
Inductive next := Goto (p : pc) | Return (r : Z).

Definition owned_type (m : mutex) : bool :=
  (mx_type m =? PTHREAD_MUTEX_RECURSIVE) || (mx_type m =? PTHREAD_MUTEX_ERRORCHECK).

(** The recursive case in front of each lock function. *)
Definition lock_entry (h : how) (self : Z) (m : mutex) : mutex * next :=
  if (mx_type m =? PTHREAD_MUTEX_RECURSIVE) && (mx_owner m =? self)
  then (set_owner (mx_owner m) (u32 (mx_rec m + 1)) m, Return 0)
  else (m, Goto (Fast h)).

(** [mutex_try_fastpath] *)
Definition mutex_try_fastpath (m : mutex) : mutex * bool :=
  if mx_state m =? 0 then (set_state 1 m, true) else (m, false).

Definition lock_fast (h : how) (m : mutex) : mutex * next :=
  let '(m, ok) := mutex_try_fastpath m in
  (m, if ok then Goto Own else match h with Try => Return EBUSY | _ => Goto (Xchg h) end).

(** One turn of the slow path's loop: [__atomic_exchange_n(&mutex->state, 2)]. *)
Definition mutex_lock_slow (h : how) (m : mutex) : mutex * next :=
  (set_state 2 m, if mx_state m =? 0 then Goto Own else Goto (Wait h)).

(** [FUTEX_WAIT]: the kernel compares under the lock of the queue. Whether the unit is
    queued; if not, EAGAIN is returned. *)
Definition futex_wait (current val : Z) : bool := current =? val.

(** The call of [futex_wait] in the loops of the lock functions. *)
Definition lock_wait (h : how) (m : mutex) : next :=
  if futex_wait (mx_state m) 2 then Goto (Sleep h)
  else match h with Timed => Return ETIMEDOUT | _ => Goto (Xchg h) end.

(** [owner = get_unit_id(); rec_count = 1;] for the types that track the owner. *)
Definition lock_own (self : Z) (m : mutex) : mutex * next :=
  (if owned_type m then set_owner self 1 m else m, Return 0).

Definition unlock_entry (self : Z) (m : mutex) : mutex * next :=
  if (mx_type m =? PTHREAD_MUTEX_RECURSIVE) && (0 <? mx_rec m) then
    let r := mx_rec m - 1 in
    if 0 <? r then (set_owner (mx_owner m) r m, Return 0) else (set_owner 0 r m, Goto U_xchg)
  else if mx_type m =? PTHREAD_MUTEX_ERRORCHECK then
    if negb (mx_owner m =? self) then (m, Return EPERM) else (set_owner 0 0 m, Goto U_xchg)
  else (m, Goto U_xchg).

Definition unlock_xchg (m : mutex) : mutex * next :=
  (set_state 0 m, if mx_state m =? 2 then Goto U_wake else Return 0).

(** A step of the code that involves no other thread. *)
Definition mutex_step (self : Z) (m : mutex) (p : pc) : option (mutex * next) :=
  match p with
  | Entry h => Some (lock_entry h self m)
  | Fast h => Some (lock_fast h m)
  | Xchg h => Some (mutex_lock_slow h m)
  | Wait h => Some (m, lock_wait h m)
  | Woken h => Some (m, Goto (Xchg h))
  | Own => Some (lock_own self m)
  | U_entry => Some (unlock_entry self m)
  | U_xchg => Some (unlock_xchg m)
  | Idle | Sleep _ | U_wake => None
  end.

(** ** The system: a mutex, its threads and the queue of its futex *)

(** A thread: where it is, and how many locks it holds. *)
Record thread := { th_pc : pc; th_depth : Z }.

(** An entry of the queue: a thread that uses the mutex, or any other unit that
    hashes to the same queue, with the address it waits at. *)
Inductive waiter := Own_unit (t : Z) | Other_unit (uaddr : Z).

Record sys := { s_mx : mutex; s_th : Z -> thread; s_queue : list waiter }.

Definition upd (s : sys) (m : mutex) (t : Z) (th : thread) : sys :=
  {| s_mx := m; s_th := fun u => if decide (u = t) then th else s_th s u; s_queue := s_queue s |}.
Definition set_queue (q : list waiter) (s : sys) : sys := {| s_mx := s_mx s; s_th := s_th s; s_queue := q |}.
Definition set_pc (s : sys) (t : Z) (p : pc) : sys := upd s (s_mx s) t {| th_pc := p; th_depth := th_depth (s_th s t) |}.

(** Returning from a lock function with 0 gives a lock; the step of
    [pthread_mutex_unlock] that gives the lock up takes one away. *)
Definition after (p : pc) (d : Z) (nx : next) : thread :=
  match p, nx with
  | (Entry _ | Own), Return 0 => {| th_pc := Idle; th_depth := d + 1 |}
  | U_entry, Return 0 => {| th_pc := Idle; th_depth := d - 1 |}
  | U_entry, Goto q => {| th_pc := q; th_depth := d - 1 |}
  | _, Return _ => {| th_pc := Idle; th_depth := d |}
  | _, Goto q => {| th_pc := q; th_depth := d |}
  end.

(** [bucket.queue.add_wait(self)] of a thread that goes to sleep. *)
Definition add_wait (t : Z) (nx : next) (s : sys) : sys :=
  match nx with Goto (Sleep _) => set_queue (s_queue s ++ [Own_unit t]) s | _ => s end.

(** The first [max_wake] entries that match, and the rest. *)
Fixpoint wake_matching (max_wake : nat) (matches : waiter -> bool) (q : list waiter) : list waiter * list waiter :=
  match max_wake, q with
  | O, _ | _, [] => ([], q)
  | S n, w :: q' =>
      if matches w then let '(woken, rest) := wake_matching n matches q' in (w :: woken, rest)
      else let '(woken, rest) := wake_matching max_wake matches q' in (woken, w :: rest)
  end.

(** A woken thread runs; an entry of a thread that does not sleep any more is
    dropped. *)
Definition wake_unit (s : sys) (w : waiter) : sys :=
  match w with
  | Own_unit u => match th_pc (s_th s u) with Sleep h => set_pc s u (Woken h) | _ => s end
  | Other_unit _ => s
  end.

Section system.
(** [&mutex->state] *)
Context (uaddr : Z).

(** [u->futex_uaddr == g_wake_uaddr]: a thread of the mutex has its address there
    from before it sleeps until it runs again. *)
Definition match_futex_uaddr (s : sys) (g_wake_uaddr : Z) (w : waiter) : bool :=
  match w with
  | Own_unit t => match th_pc (s_th s t) with Sleep _ | Woken _ => uaddr | _ => 0 end =? g_wake_uaddr
  | Other_unit a => a =? g_wake_uaddr
  end.

(** [FUTEX_WAKE] with the given value of [g_wake_uaddr]. *)
Definition futex_wake (g_wake_uaddr : Z) (val : nat) (s : sys) : sys :=
  let '(woken, rest) := wake_matching val (match_futex_uaddr s g_wake_uaddr) (s_queue s) in
  foldl wake_unit (set_queue rest s) woken.

(** Threads are named by their units, which are not 0. A thread unlocks only what it
    holds, unless the mutex checks this itself. [timed] says whether
    [pthread_mutex_timedlock] is called at all, [alone] that no unit of any realm
    uses another futex meanwhile, nor one at the same virtual address: otherwise
    others wait in the queue and give up waiting, their wakers look for sleepers in
    it, and a waker of another queue overwrites [g_wake_uaddr] between its store and the search. *)
Inductive mutex_sys (timed alone : bool) : sys -> sys -> Prop :=
| do_call s t h :
    0 < t -> th_pc (s_th s t) = Idle -> th_depth (s_th s t) < 2 ^ 32 - 2 -> (h = Timed -> timed = true) ->
    mutex_sys timed alone s (set_pc s t (Entry h))
| do_unlock s t :
    0 < t -> th_pc (s_th s t) = Idle ->
    (0 < th_depth (s_th s t) \/ mx_type (s_mx s) = PTHREAD_MUTEX_ERRORCHECK) ->
    mutex_sys timed alone s (set_pc s t U_entry)
| do_step s t m nx :
    0 < t -> mutex_step t (s_mx s) (th_pc (s_th s t)) = Some (m, nx) ->
    mutex_sys timed alone s (add_wait t nx (upd s m t (after (th_pc (s_th s t)) (th_depth (s_th s t)) nx)))
| do_wake s t g :
    0 < t -> th_pc (s_th s t) = U_wake -> (alone = true -> g = uaddr) ->
    mutex_sys timed alone s (set_pc (futex_wake g 1 s) t Idle)
| do_timeout s t :
    0 < t -> th_pc (s_th s t) = Sleep Timed \/ th_pc (s_th s t) = Woken Timed ->
    mutex_sys timed alone s (set_pc s t Idle)
| do_other_wait s a : alone = false -> mutex_sys timed alone s (set_queue (s_queue s ++ [Other_unit a]) s)
| do_other_moves s q1 a a' q2 :
    alone = false -> s_queue s = q1 ++ Other_unit a :: q2 -> mutex_sys timed alone s (set_queue (q1 ++ Other_unit a' :: q2) s)
| do_other_wake s g n : alone = false -> mutex_sys timed alone s (futex_wake g n s).
End system.

Definition mutex_start (type : Z) : sys :=
  {| s_mx := pthread_mutex_init type; s_th := fun _ => {| th_pc := Idle; th_depth := 0 |}; s_queue := [] |}.

(** A thread holds the mutex from the acquisition to the exchange that frees it. *)
Definition holds (th : thread) : bool :=
  (0 <? th_depth th) || bool_decide (th_pc th = Own) || bool_decide (th_pc th = U_xchg).
