(* ===== verification/MutexProps.v ===== *)
(** * Mutual exclusion and wake-ups of the pthread mutex *)

From stdpp Require Import base tactics list gmap numbers relations.
From Stdlib Require Import ZArith Lia.
From S2P Require Import Prelude.
From S2P Require Import Mutex.

Lemma upd_eq s m t th : s_th (upd s m t th) t = th.
Proof. simpl. by rewrite decide_True. Qed.
Lemma upd_ne s m t th u : u <> t -> s_th (upd s m t th) u = s_th s u.
Proof. intros. simpl. by rewrite decide_False. Qed.

(** ** The invariant *)

(** Nobody holds a free mutex, and exactly one thread holds one that is not. *)
Definition exclusive (m : mutex) (f : Z -> thread) : Prop :=
  (mx_state m = 0 \/ mx_state m = 1 \/ mx_state m = 2) /\
  (mx_state m = 0 -> forall t, holds (f t) = false) /\
  (mx_state m <> 0 -> exists t, holds (f t) = true /\ forall u, holds (f u) = true -> u = t).

(** The fields that track the owner. *)
Definition owner_ok (m : mutex) (f : Z -> thread) : Prop :=
  (mx_type m = PTHREAD_MUTEX_RECURSIVE -> forall t, 0 < th_depth (f t) -> mx_owner m = t /\ mx_rec m = th_depth (f t)) /\
  (mx_type m = PTHREAD_MUTEX_ERRORCHECK -> forall t, 0 < th_depth (f t) -> mx_owner m = t) /\
  (owned_type m = true -> mx_owner m <> 0 -> 0 < th_depth (f (mx_owner m))).

(** Each thread by itself. *)
Definition thread_ok (m : mutex) (t : Z) (th : thread) : Prop :=
  0 <= th_depth th <= 2 ^ 32 - 2 /\ (t <= 0 -> th = {| th_pc := Idle; th_depth := 0 |}) /\
  (mx_type m <> PTHREAD_MUTEX_RECURSIVE -> th_depth th <= 1) /\
  match th_pc th with
  | Own | U_xchg => th_depth th = 0
  | Entry _ => th_depth th < 2 ^ 32 - 2
  | Fast _ | Xchg _ | Wait _ | Sleep _ | Woken _ => mx_type m = PTHREAD_MUTEX_RECURSIVE -> th_depth th = 0
  | U_entry => 0 < th_depth th \/ mx_type m = PTHREAD_MUTEX_ERRORCHECK
  | Idle | U_wake => True
  end.

Definition mutex_inv (s : sys) : Prop :=
  exclusive (s_mx s) (s_th s) /\ owner_ok (s_mx s) (s_th s) /\ forall t, thread_ok (s_mx s) t (s_th s t).

(** A step that neither takes nor frees the mutex. *)
Lemma exclusive_same s m t th :
  exclusive (s_mx s) (s_th s) -> holds th = holds (s_th s t) ->
  (mx_state m = 0 <-> mx_state (s_mx s) = 0) -> (mx_state m = 0 \/ mx_state m = 1 \/ mx_state m = 2) ->
  exclusive m (s_th (upd s m t th)).
Proof.
  intros (H1 & H2 & H3) Hh Hs Hr.
  assert (forall u, holds (s_th (upd s m t th) u) = holds (s_th s u)) as K.
  { intros u. destruct (decide (u = t)) as [->|]; [by rewrite upd_eq|by rewrite upd_ne]. }
  split_and!; [done|intros; rewrite K; apply H2; by apply Hs|].
  intros Hn. destruct H3 as (u & Hu & Hun); [by rewrite <- Hs|]. exists u. rewrite K. split; [done|].
  intros v. rewrite K. apply Hun.
Qed.

Lemma exclusive_take s m t th :
  exclusive (s_mx s) (s_th s) -> mx_state (s_mx s) = 0 -> holds th = true -> mx_state m = 1 \/ mx_state m = 2 ->
  exclusive m (s_th (upd s m t th)).
Proof.
  intros (_ & H2 & _) H0 Hh Hs. split_and!; [lia|lia|]. intros _. exists t. rewrite upd_eq. split; [done|].
  intros u. destruct (decide (u = t)) as [->|]; [done|]. rewrite upd_ne by done. by rewrite H2.
Qed.

Lemma exclusive_free s m t th :
  exclusive (s_mx s) (s_th s) -> holds (s_th s t) = true -> holds th = false -> mx_state m = 0 ->
  exclusive m (s_th (upd s m t th)).
Proof.
  intros (H1 & H2 & H3) Ht Hh Hs. split_and!; [lia| |lia]. intros _ u.
  destruct (decide (u = t)) as [->|]; [by rewrite upd_eq|rewrite upd_ne by done].
  destruct (holds (s_th s u)) eqn:E; [|done]. destruct H3 as (v & Hv & Hu).
  - intros H0. by rewrite H2 in E.
  - apply Hu in E, Ht. congruence.
Qed.

(** A step that leaves the owner's fields and everybody's locks. *)
Lemma owner_same s m t th :
  owner_ok (s_mx s) (s_th s) -> th_depth th = th_depth (s_th s t) ->
  mx_type m = mx_type (s_mx s) -> mx_owner m = mx_owner (s_mx s) -> mx_rec m = mx_rec (s_mx s) ->
  owner_ok m (s_th (upd s m t th)).
Proof.
  intros (H1 & H2 & H3) Hd Ht Ho Hr.
  assert (forall u, th_depth (s_th (upd s m t th) u) = th_depth (s_th s u)) as K.
  { intros u. destruct (decide (u = t)) as [->|]; [by rewrite upd_eq|by rewrite upd_ne]. }
  unfold owner_ok, owned_type in *. rewrite Ht, Ho, Hr. split_and!.
  - intros E u. rewrite K. by apply H1.
  - intros E u. rewrite K. by apply H2.
  - intros E Hne. rewrite K. by apply H3.
Qed.

Lemma threads_upd s m t th :
  (forall u, thread_ok (s_mx s) u (s_th s u)) -> mx_type m = mx_type (s_mx s) -> thread_ok m t th ->
  forall u, thread_ok m u (s_th (upd s m t th) u).
Proof.
  intros H Ht Hth u. destruct (decide (u = t)) as [->|]; [by rewrite upd_eq|]. rewrite upd_ne by done.
  specialize (H u). unfold thread_ok in *. by rewrite Ht.
Qed.

(** A step that is neither an acquisition nor a release, and keeps the depth. *)
Lemma inv_quiet s m t p :
  mutex_inv s -> th_pc (s_th s t) <> Own -> th_pc (s_th s t) <> U_xchg -> p <> Own -> p <> U_xchg ->
  mx_type m = mx_type (s_mx s) -> mx_owner m = mx_owner (s_mx s) -> mx_rec m = mx_rec (s_mx s) ->
  (mx_state m = 0 <-> mx_state (s_mx s) = 0) -> (mx_state m = 0 \/ mx_state m = 1 \/ mx_state m = 2) ->
  thread_ok m t {| th_pc := p; th_depth := th_depth (s_th s t) |} ->
  mutex_inv (upd s m t {| th_pc := p; th_depth := th_depth (s_th s t) |}).
Proof.
  intros (HE & HO & HT) N1 N2 N3 N4 E1 E2 E3 Hs Hr Hok. split_and!; simpl s_mx.
  - apply exclusive_same; try done. unfold holds. simpl. by rewrite !bool_decide_false.
  - by apply owner_same.
  - by apply threads_upd.
Qed.

(** ** Steps keep it *)

Lemma holds_depth th : holds th = false -> 0 <= th_depth th -> th_depth th = 0.
Proof. unfold holds. destruct (Z.ltb_spec 0 (th_depth th)); [done|lia]. Qed.

(** Any thread with a lock is the one that holds the mutex. *)
Lemma holder_unique s t u :
  exclusive (s_mx s) (s_th s) -> holds (s_th s t) = true -> holds (s_th s u) = true -> u = t.
Proof.
  intros (_ & H2 & H3) Ht Hu. destruct H3 as (v & _ & Hv); [intros H0; by rewrite H2 in Ht|].
  apply Hv in Ht, Hu. congruence.
Qed.

Lemma holds_pos th : 0 < th_depth th -> holds th = true.
Proof. intros H. unfold holds. by rewrite (proj2 (Z.ltb_lt _ _)). Qed.

(** Only the holder's depth changes: the owner's fields follow it. *)
Lemma owner_moves s m t th :
  mutex_inv s -> holds (s_th s t) = true -> mx_type m = mx_type (s_mx s) -> 0 < t ->
  (owned_type m = true -> 0 < th_depth th -> mx_owner m = t) ->
  (mx_type m = PTHREAD_MUTEX_RECURSIVE -> 0 < th_depth th -> mx_rec m = th_depth th) ->
  (owned_type m = true -> th_depth th <= 0 -> mx_owner m = 0) ->
  owner_ok m (s_th (upd s m t th)).
Proof.
  intros (HE & (H1 & H2 & H3) & HT) Hh Ht Hpos K1 K2 K3.
  assert (forall u, 0 < th_depth (s_th (upd s m t th) u) -> u = t /\ 0 < th_depth th) as K.
  { intros u Hu. destruct (decide (u = t)) as [->|]; [by rewrite upd_eq in Hu|]. rewrite upd_ne in Hu by done.
    apply holds_pos in Hu. by apply (holder_unique s t u) in Hu. }
  unfold owned_type in *. split_and!.
  - intros E u Hu. destruct (K u Hu) as [-> Hd]. rewrite upd_eq. split; [|by apply K2]. apply K1; [|done]. rewrite E. done.
  - intros E u Hu. destruct (K u Hu) as [-> Hd]. apply K1; [|done]. rewrite E. done.
  - intros E Hne. destruct (Z.ltb_spec 0 (th_depth th)); [|exfalso; apply Hne; apply K3; [done|lia]].
    rewrite K1 by done. by rewrite upd_eq.
Qed.

Ltac quiet := apply inv_quiet; try done; try (by intros ->); try lia.

Lemma step_entry s t h m nx :
  mutex_inv s -> 0 < t -> th_pc (s_th s t) = Entry h -> lock_entry h t (s_mx s) = (m, nx) ->
  mutex_inv (upd s m t (after (Entry h) (th_depth (s_th s t)) nx)).
Proof.
  intros Hinv Ht Hp. pose proof Hinv as (HE & (O1 & O2 & O3) & HT). pose proof (HT t) as (D1 & D2 & D3 & D4). rewrite Hp in D4.
  unfold lock_entry. destruct (Z.eqb_spec (mx_type (s_mx s)) PTHREAD_MUTEX_RECURSIVE) as [E|E]; simpl.
  - destruct (Z.eqb_spec (mx_owner (s_mx s)) t) as [Eo|Eo]; intros [= <- <-].
    + assert (0 < th_depth (s_th s t)) as Hd.
      { rewrite <- Eo. apply O3; [unfold owned_type; by rewrite E|lia]. }
      destruct (O1 E t Hd) as [_ Hrec]. simpl. split_and!; simpl s_mx.
      * apply exclusive_same; simpl; try done; [by rewrite !holds_pos by (simpl; lia)|apply HE].
      * apply owner_moves; simpl; try done; [by apply holds_pos|by intros; rewrite Hrec, u32_id by lia|lia].
      * apply threads_upd; [done|done|]. split_and!; simpl; try done; try lia.
    + simpl. assert (th_depth (s_th s t) = 0) as Hd0.
      { destruct (Z.ltb_spec 0 (th_depth (s_th s t))) as [H|]; [|lia]. by destruct (O1 E t H). }
      apply inv_quiet; try done; try (by rewrite Hp); [apply HE|]. split_and!; simpl; try done; try lia.
  - intros [= <- <-]. simpl. apply inv_quiet; try done; try (by rewrite Hp); [apply HE|]. split_and!; simpl; try done; try lia.
Qed.

Lemma free_depth s t : mutex_inv s -> mx_state (s_mx s) = 0 -> th_depth (s_th s t) = 0.
Proof. intros ((_ & H & _) & _ & HT) H0. apply holds_depth; [by apply H|apply (HT t)]. Qed.

Lemma step_take s t v :
  mutex_inv s -> 0 < t -> mx_state (s_mx s) = 0 -> v = 1 \/ v = 2 ->
  mutex_inv (upd s (set_state v (s_mx s)) t {| th_pc := Own; th_depth := th_depth (s_th s t) |}).
Proof.
  intros Hinv Ht H0 Hv. pose proof (free_depth s t Hinv H0) as Hd. pose proof Hinv as (HE & HO & HT). split_and!; simpl s_mx.
  - apply exclusive_take; try done. unfold holds. simpl. by rewrite orb_true_r.
  - by apply owner_same.
  - apply threads_upd; [done|done|]. split_and!; simpl; try done; try lia.
Qed.

Lemma step_fast s t h m nx :
  mutex_inv s -> 0 < t -> th_pc (s_th s t) = Fast h -> lock_fast h (s_mx s) = (m, nx) ->
  mutex_inv (upd s m t (after (Fast h) (th_depth (s_th s t)) nx)).
Proof.
  intros Hinv Ht Hp. pose proof Hinv as (HE & _ & HT). pose proof (HT t) as (D1 & D2 & D3 & D4). rewrite Hp in D4.
  unfold lock_fast, mutex_try_fastpath. destruct (Z.eqb_spec (mx_state (s_mx s)) 0); intros [= <- <-].
  - apply step_take; try done. by left.
  - destruct h; simpl; apply inv_quiet; try done; try (by rewrite Hp); try apply HE; split_and!; simpl; try done; try lia.
Qed.

Lemma step_xchg s t h m nx :
  mutex_inv s -> 0 < t -> th_pc (s_th s t) = Xchg h -> mutex_lock_slow h (s_mx s) = (m, nx) ->
  mutex_inv (upd s m t (after (Xchg h) (th_depth (s_th s t)) nx)).
Proof.
  intros Hinv Ht Hp. pose proof Hinv as (HE & _ & HT). pose proof (HT t) as (D1 & D2 & D3 & D4). rewrite Hp in D4.
  unfold mutex_lock_slow. destruct (Z.eqb_spec (mx_state (s_mx s)) 0) as [E|E]; intros [= <- <-].
  - apply step_take; try done. by right.
  - simpl. apply inv_quiet; try done; try (by rewrite Hp); simpl; try lia. split_and!; simpl; try done; try lia.
Qed.

Lemma step_own s t m nx :
  mutex_inv s -> 0 < t -> th_pc (s_th s t) = Own -> lock_own t (s_mx s) = (m, nx) ->
  mutex_inv (upd s m t (after Own (th_depth (s_th s t)) nx)).
Proof.
  intros Hinv Ht Hp. pose proof Hinv as (HE & HO & HT). pose proof (HT t) as (D1 & D2 & D3 & D4). rewrite Hp in D4. simpl in D4.
  assert (holds (s_th s t) = true) as Hh by (unfold holds; rewrite Hp; by rewrite orb_true_r).
  unfold lock_own. intros [= <- <-]. rewrite D4. simpl.
  assert (mx_type (if owned_type (s_mx s) then set_owner t 1 (s_mx s) else s_mx s) = mx_type (s_mx s)) as Et by (by case_match).
  assert (mx_state (if owned_type (s_mx s) then set_owner t 1 (s_mx s) else s_mx s) = mx_state (s_mx s)) as Es by (by case_match).
  split_and!; simpl s_mx.
  - apply exclusive_same; rewrite ?Es; try done; apply HE.
  - apply owner_moves; try done; simpl.
    + unfold owned_type at 1. rewrite Et. fold (owned_type (s_mx s)). by intros ->.
    + rewrite Et. unfold owned_type. by intros ->.
  - apply threads_upd; [done|done|]. split_and!; simpl; try done; try lia.
Qed.

Lemma step_u_entry s t m nx :
  mutex_inv s -> 0 < t -> th_pc (s_th s t) = U_entry -> unlock_entry t (s_mx s) = (m, nx) ->
  mutex_inv (upd s m t (after U_entry (th_depth (s_th s t)) nx)).
Proof.
  intros Hinv Ht Hp. pose proof Hinv as (HE & (O1 & O2 & O3) & HT). pose proof (HT t) as (D1 & D2 & D3 & D4). rewrite Hp in D4.
  assert (0 < th_depth (s_th s t) -> forall th, holds th = true -> holds th = holds (s_th s t)) as Hsame
    by (intros H th ->; by rewrite holds_pos).
  assert (forall d, holds {| th_pc := U_xchg; th_depth := d |} = true) as Hux by (intros; unfold holds; simpl; by rewrite orb_true_r).
  unfold unlock_entry. destruct (Z.eqb_spec (mx_type (s_mx s)) PTHREAD_MUTEX_RECURSIVE) as [E|E].
  - destruct D4 as [Hd|D4]; [|rewrite D4 in E; done]. destruct (O1 E t Hd) as [Eo Er]. rewrite Er.
    rewrite (proj2 (Z.ltb_lt 0 (th_depth (s_th s t)))) by lia. simpl andb. cbn iota.
    destruct (Z.ltb_spec 0 (th_depth (s_th s t) - 1)); intros [= <- <-]; simpl; split_and!; simpl s_mx.
    + apply exclusive_same; try done; [|apply HE]. apply Hsame; [done|]. apply holds_pos. simpl. lia.
    + apply owner_moves; simpl; try done; [by apply holds_pos|lia].
    + apply threads_upd; [done|done|]. split_and!; simpl; try done; try lia.
    + apply exclusive_same; try done; [by apply Hsame|apply HE].
    + apply owner_moves; simpl; try done; [by apply holds_pos|lia..].
    + apply threads_upd; [done|done|]. split_and!; simpl; try done; try lia.
  - simpl andb. cbn iota. destruct (Z.eqb_spec (mx_type (s_mx s)) PTHREAD_MUTEX_ERRORCHECK) as [E'|E'].
    + destruct (Z.eqb_spec (mx_owner (s_mx s)) t) as [Eo|Eo]; intros [= <- <-]; simpl.
      * assert (0 < th_depth (s_th s t)) as Hd.
        { rewrite <- Eo. apply O3; [unfold owned_type; rewrite E'; done|lia]. }
        split_and!; simpl s_mx.
        -- apply exclusive_same; try done; [by apply Hsame|apply HE].
        -- apply owner_moves; simpl; try done; [by apply holds_pos|lia..].
        -- apply threads_upd; [done|done|]. split_and!; simpl; try done; try lia.
      * apply inv_quiet; try done; try (by rewrite Hp); [apply HE|]. split_and!; simpl; try done; try lia.
    + destruct D4 as [Hd|D4]; [|done]. intros [= <- <-]. simpl. split_and!; simpl s_mx.
      * apply exclusive_same; try done; [by apply Hsame|apply HE].
      * unfold owner_ok, owned_type. rewrite (proj2 (Z.eqb_neq _ _) E), (proj2 (Z.eqb_neq _ _) E'). done.
      * apply threads_upd; [done|done|]. split_and!; simpl; try done; try lia.
Qed.

Lemma step_u_xchg s t m nx :
  mutex_inv s -> 0 < t -> th_pc (s_th s t) = U_xchg -> unlock_xchg (s_mx s) = (m, nx) ->
  mutex_inv (upd s m t (after U_xchg (th_depth (s_th s t)) nx)).
Proof.
  intros Hinv Ht Hp. pose proof Hinv as (HE & HO & HT). pose proof (HT t) as (D1 & D2 & D3 & D4). rewrite Hp in D4. simpl in D4.
  unfold unlock_xchg. intros [= <- <-]. rewrite D4. split_and!; simpl s_mx.
  - apply exclusive_free; try done; [unfold holds; rewrite Hp; by rewrite orb_true_r|by destruct (mx_state (s_mx s) =? 2)].
  - apply owner_same; try done. rewrite D4. by destruct (mx_state (s_mx s) =? 2).
  - apply threads_upd; [done|done|]. destruct (mx_state (s_mx s) =? 2); split_and!; simpl; try done; try lia.
Qed.

Lemma step_quiet s t p :
  mutex_inv s -> 0 < t -> th_pc (s_th s t) <> Own -> th_pc (s_th s t) <> U_xchg -> p <> Own -> p <> U_xchg ->
  thread_ok (s_mx s) t {| th_pc := p; th_depth := th_depth (s_th s t) |} ->
  mutex_inv (upd s (s_mx s) t {| th_pc := p; th_depth := th_depth (s_th s t) |}).
Proof. intros Hinv. intros. apply inv_quiet; try done. apply Hinv. Qed.

Lemma mutex_step_inv s t m nx :
  mutex_inv s -> 0 < t -> mutex_step t (s_mx s) (th_pc (s_th s t)) = Some (m, nx) ->
  mutex_inv (upd s m t (after (th_pc (s_th s t)) (th_depth (s_th s t)) nx)).
Proof.
  intros Hinv Ht Hs. pose proof Hinv as (_ & _ & HT). pose proof (HT t) as (D1 & D2 & D3 & D4).
  destruct (th_pc (s_th s t)) eqn:Hp; cbn [mutex_step] in Hs; try done; apply (inj Some) in Hs.
  - by eapply step_entry.
  - by eapply step_fast.
  - by eapply step_xchg.
  - injection Hs as <- <-. unfold lock_wait, futex_wait.
    destruct (mx_state (s_mx s) =? 2); [|destruct h]; simpl; apply step_quiet; try done; try (by rewrite Hp);
      split_and!; simpl; try done; try lia.
  - injection Hs as <- <-. simpl. apply step_quiet; try done; try (by rewrite Hp). split_and!; simpl; try done; try lia.
  - by eapply step_own.
  - by eapply step_u_entry.
  - by eapply step_u_xchg.
Qed.

(** Waking keeps the invariant, and touches only threads that sleep. *)
Lemma inv_wake_unit s w : mutex_inv s -> mutex_inv (wake_unit s w).
Proof.
  intros Hinv. pose proof Hinv as (_ & _ & HT). destruct w as [u|a]; [|done]. simpl. destruct (th_pc (s_th s u)) as [| | | | |h| | | | |] eqn:Hu; try done.
  pose proof (HT u) as (D1 & D2 & D3 & D4). rewrite Hu in D4. assert (0 < u) as Hu0.
  { destruct (Z.leb_spec u 0) as [H|]; [|lia]. rewrite D2 in Hu by done. done. }
  apply step_quiet; try done; try (by rewrite Hu). split_and!; simpl; try done; try lia.
Qed.

Lemma wake_unit_awake s w t : (forall h, th_pc (s_th s t) <> Sleep h) -> s_th (wake_unit s w) t = s_th s t.
Proof.
  intros Ht. destruct w as [u|a]; [|done]. simpl. destruct (th_pc (s_th s u)) as [| | | | |h| | | | |] eqn:Hu; try done.
  unfold set_pc. rewrite upd_ne; [done|]. intros ->. by apply (Ht h).
Qed.

Lemma inv_futex_wake uaddr g n s : mutex_inv s -> mutex_inv (futex_wake uaddr g n s).
Proof.
  intros Hinv. unfold futex_wake. destruct (wake_matching _ _ _) as [woken rest].
  assert (mutex_inv (set_queue rest s)) as H by done. revert H. generalize (set_queue rest s). clear Hinv.
  induction woken as [|w l IH]; intros s0 H; [done|]. simpl. by apply IH, inv_wake_unit.
Qed.

Lemma futex_wake_awake uaddr g n s t : (forall h, th_pc (s_th s t) <> Sleep h) -> s_th (futex_wake uaddr g n s) t = s_th s t.
Proof.
  intros Ht. unfold futex_wake. destruct (wake_matching _ _ _) as [woken rest].
  change (s_th s t) with (s_th (set_queue rest s) t) in *. revert Ht. generalize (set_queue rest s).
  induction woken as [|w l IH]; intros s0 Ht; [done|]. simpl. rewrite IH; rewrite wake_unit_awake; done.
Qed.

Lemma mutex_sys_inv uaddr timed alone s s' : mutex_inv s -> mutex_sys uaddr timed alone s s' -> mutex_inv s'.
Proof.
  intros Hinv Hs. pose proof Hinv as (_ & _ & HT).
  destruct Hs as [s t h Ht Hp Hd _|s t Ht Hp Hd|s t m nx Ht Hs|s t g Ht Hp _|s t Ht Hp|s a _|s q1 a a' q2 _ _|s g n _]; unfold set_pc; try done.
  - pose proof (HT t) as (D1 & D2 & D3 & D4). apply step_quiet; try done; try (by rewrite Hp). split_and!; simpl; try done; try lia.
  - pose proof (HT t) as (D1 & D2 & D3 & D4). apply step_quiet; try done; try (by rewrite Hp). split_and!; simpl; try done; try lia.
  - pose proof (mutex_step_inv s t m nx Hinv Ht Hs) as H. by destruct nx as [[]|]; simpl.
  - pose proof (inv_futex_wake uaddr g 1 s Hinv) as H. assert (s_th (futex_wake uaddr g 1 s) t = s_th s t) as E by (apply futex_wake_awake; by rewrite Hp).
    pose proof H as (_ & _ & HT1). pose proof (HT1 t) as (D1 & D2 & D3 & D4). rewrite E in D1, D2, D3.
    apply step_quiet; try done; rewrite E; try (by rewrite Hp). split_and!; simpl; try done; try lia.
  - pose proof (HT t) as (D1 & D2 & D3 & D4). apply step_quiet; try done; try (destruct Hp as [-> | ->]; done). split_and!; simpl; try done; try lia.
  - by apply inv_futex_wake.
Qed.

Lemma mutex_start_inv type : mutex_inv (mutex_start type).
Proof.
  unfold mutex_inv, mutex_start. simpl. split_and!.
  - split_and!; simpl; try done; by left.
  - split_and!; simpl; try done; lia.
  - intros t. split_and!; simpl; try done; lia.
Qed.

Lemma mutex_reach_inv uaddr timed alone type s : rtc (mutex_sys uaddr timed alone) (mutex_start type) s -> mutex_inv s.
Proof.
  intros Hr. assert (forall a b, rtc (mutex_sys uaddr timed alone) a b -> mutex_inv a -> mutex_inv b) as K.
  { intros a b H. induction H; [done|]. intros Ha. apply IHrtc. by eapply mutex_sys_inv. }
  eapply K; [exact Hr|apply mutex_start_inv].
Qed.

Lemma futex_wake_mx uaddr g n s : s_mx (futex_wake uaddr g n s) = s_mx s.
Proof.
  unfold futex_wake. destruct (wake_matching _ _ _) as [woken rest]. change (s_mx s) with (s_mx (set_queue rest s)). generalize (set_queue rest s).
  induction woken as [|w l IH]; intros s0; [done|]. simpl. rewrite IH. destruct w as [u|]; [|done]. simpl. by case_match.
Qed.

Lemma mutex_type_kept uaddr timed alone s s' : rtc (mutex_sys uaddr timed alone) s s' -> mx_type (s_mx s') = mx_type (s_mx s).
Proof.
  induction 1 as [|a b c Hab _ IH]; [done|]. rewrite IH. clear IH.
  destruct Hab as [| |s t m nx Ht Hs| | | | |]; try done; [|by rewrite <- (futex_wake_mx uaddr g 1 s)|by rewrite futex_wake_mx].
  assert (s_mx (add_wait t nx (upd s m t (after (th_pc (s_th s t)) (th_depth (s_th s t)) nx))) = m) as -> by (by destruct nx as [[]|]).
  destruct (th_pc (s_th s t)); simpl in Hs; try done; injection Hs as <- _ || (injection Hs as Hs); try done;
    unfold lock_entry, lock_fast, mutex_try_fastpath, lock_own, unlock_entry in *; repeat case_match; simplify_eq/=; done.
Qed.

(** ** No lost wake-ups *)

(** Somebody who sleeps will be woken: the state says so, or a thread on its way
    to wake or to announce itself does. *)
Definition stirring (th : thread) : Prop := th_pc th = U_wake \/ exists h, th_pc th = Xchg h \/ th_pc th = Woken h.

Definition wakeable (s : sys) : Prop :=
  (forall u h, th_pc (s_th s u) = Sleep h -> mx_state (s_mx s) = 2 \/ exists t, stirring (s_th s t)) /\
  (forall u h, th_pc (s_th s u) = Entry h \/ th_pc (s_th s u) = Fast h \/ th_pc (s_th s u) = Xchg h \/ th_pc (s_th s u) = Wait h \/
     th_pc (s_th s u) = Sleep h \/ th_pc (s_th s u) = Woken h -> h <> Timed).

Definition untimed (p : pc) : Prop :=
  match p with Entry h | Fast h | Xchg h | Wait h | Sleep h | Woken h => h <> Timed | _ => True end.

Lemma wakeable_untimed s u : wakeable s -> untimed (th_pc (s_th s u)).
Proof. intros [_ H]. specialize (H u). destruct (th_pc (s_th s u)); simpl; try done; apply H; naive_solver. Qed.

(** Three ways a step keeps sleepers wakeable: the state is 2 afterwards, the
    thread itself is on its way, or it was not and nothing else changed. *)
Lemma wakeable_step s m t th :
  wakeable s -> untimed (th_pc th) ->
  (mx_state m = 2 \/ stirring th \/
   ((forall h, th_pc th <> Sleep h) /\ ~ stirring (s_th s t) /\ (mx_state (s_mx s) = 2 -> mx_state m = 2))) ->
  wakeable (upd s m t th).
Proof.
  intros Hw Hu Hc. split.
  - intros u h Hs. simpl s_mx. destruct Hc as [Hc|[Hc|(C1 & C2 & C3)]].
    + by left.
    + right. exists t. by rewrite upd_eq.
    + destruct (decide (u = t)) as [->|]; [by rewrite upd_eq in Hs; destruct (C1 h)|]. rewrite upd_ne in Hs by done.
      destruct (proj1 Hw u h Hs) as [H2|[v Hv]]; [left; by apply C3|]. right. exists v.
      rewrite upd_ne; [done|]. by intros ->.
  - intros u h Hs. destruct (decide (u = t)) as [->|].
    + rewrite upd_eq in Hs. destruct (th_pc th); naive_solver.
    + rewrite upd_ne in Hs by done. by apply (proj2 Hw u).
Qed.

Lemma not_stirring th : (forall h, th_pc th <> Xchg h) -> (forall h, th_pc th <> Woken h) -> th_pc th <> U_wake -> ~ stirring th.
Proof. intros H1 H2 H3 [H|[h [H|H]]]; [done|by apply (H1 h)|by apply (H2 h)]. Qed.

Ltac calm Hp := right; right; split_and!; [done|apply not_stirring; rewrite Hp; done|done].

Lemma wakeable_code s t m nx :
  wakeable s -> mutex_step t (s_mx s) (th_pc (s_th s t)) = Some (m, nx) ->
  wakeable (upd s m t (after (th_pc (s_th s t)) (th_depth (s_th s t)) nx)).
Proof.
  intros Hw Hs. pose proof (wakeable_untimed s t Hw) as Hu.
  destruct (th_pc (s_th s t)) eqn:Hp; cbn [mutex_step] in Hs; try done; apply (inj Some) in Hs; simpl in Hu.
  - unfold lock_entry in Hs. destruct ((mx_type (s_mx s) =? PTHREAD_MUTEX_RECURSIVE) && (mx_owner (s_mx s) =? t));
      injection Hs as <- <-; apply wakeable_step; simpl; try done; calm Hp.
  - unfold lock_fast, mutex_try_fastpath in Hs. destruct (Z.eqb_spec (mx_state (s_mx s)) 0) as [E|E]; injection Hs as <- <-.
    + apply wakeable_step; simpl; try done. right. right. split_and!; [done|apply not_stirring; rewrite Hp; done|lia].
    + destruct h; simpl; apply wakeable_step; simpl; try done; calm Hp.
  - unfold mutex_lock_slow in Hs. injection Hs as <- <-. destruct (mx_state (s_mx s) =? 0); apply wakeable_step; simpl; try done; by left.
  - injection Hs as <- <-. unfold lock_wait, futex_wait. destruct (Z.eqb_spec (mx_state (s_mx s)) 2) as [E|E].
    + apply wakeable_step; simpl; try done. by left.
    + destruct h; [| |done]; apply wakeable_step; simpl; try done; right; left; right; eexists; by left.
  - injection Hs as <- <-. apply wakeable_step; simpl; try done. right; left; right; eexists; by left.
  - unfold lock_own in Hs. injection Hs as <- <-. apply wakeable_step; simpl; try done. right. right.
    split_and!; [done|apply not_stirring; rewrite Hp; done|]. by destruct (owned_type (s_mx s)).
  - unfold unlock_entry in Hs. repeat case_match; injection Hs as <- <-; apply wakeable_step; simpl; try done; calm Hp.
  - unfold unlock_xchg in Hs. injection Hs as <- <-. destruct (Z.eqb_spec (mx_state (s_mx s)) 2) as [E|E]; apply wakeable_step; simpl; try done.
    + right. left. by left.
    + right. right. split_and!; [done|apply not_stirring; rewrite Hp; done|done].
Qed.

(** Without others and without timeouts the queue holds the threads that sleep,
    each once. *)
Definition queue_ok (s : sys) : Prop :=
  NoDup (s_queue s) /\ forall w, w ∈ s_queue s <-> exists t h, w = Own_unit t /\ th_pc (s_th s t) = Sleep h.

Lemma queue_upd s m t th :
  queue_ok s -> (forall h, th_pc (s_th s t) <> Sleep h) -> (forall h, th_pc th <> Sleep h) -> queue_ok (upd s m t th).
Proof.
  intros [Hn Hq] H1 H2. split; [done|]. intros w. simpl s_queue. rewrite Hq. split; intros (u & h & -> & Hu); exists u, h; (split; [done|]).
  - rewrite upd_ne; [done|]. intros ->. by apply (H1 h).
  - destruct (decide (u = t)) as [->|]; [rewrite upd_eq in Hu; by apply H2 in Hu|by rewrite upd_ne in Hu].
Qed.

Lemma futex_queue_sleep s m t h d :
  queue_ok s -> (forall h, th_pc (s_th s t) <> Sleep h) ->
  queue_ok (set_queue (s_queue s ++ [Own_unit t]) (upd s m t {| th_pc := Sleep h; th_depth := d |})).
Proof.
  intros [Hn Hq] Ht. assert (Own_unit t ∉ s_queue s) as Hnin by (intros (u & k & [= <-] & Hu)%Hq; by apply (Ht k)). split.
  - apply NoDup_app. split; [done|]. split; [set_solver|apply NoDup_singleton].
  - intros w. simpl s_queue. rewrite elem_of_app, list_elem_of_singleton, Hq. split.
    + intros [(u & k & -> & Hu)| ->]; [|exists t, h; split; [done|]; simpl; by rewrite decide_True].
      exists u, k. split; [done|]. simpl. destruct (decide (u = t)) as [->|]; [by apply Ht in Hu|done].
    + intros (u & k & -> & Hu). simpl in Hu. destruct (decide (u = t)) as [->|]; [by right|]. left. by exists u, k.
Qed.

Lemma queue_step s t m nx :
  queue_ok s -> mutex_step t (s_mx s) (th_pc (s_th s t)) = Some (m, nx) ->
  queue_ok (add_wait t nx (upd s m t (after (th_pc (s_th s t)) (th_depth (s_th s t)) nx))).
Proof.
  intros Hq Hs. assert (forall h, th_pc (s_th s t) <> Sleep h) as Ht by (intros h E; rewrite E in Hs; done).
  destruct nx as [p|r].
  - destruct p as [| | | | |h| | | | |]; try (apply queue_upd; [done|done|]; intros k; by destruct (th_pc (s_th s t))).
    cbn [add_wait]. assert (exists k, th_pc (s_th s t) = Wait k) as [k Hk].
    { destruct (th_pc (s_th s t)); simpl in Hs; try done; unfold lock_entry, lock_fast, mutex_lock_slow, lock_own, unlock_entry, unlock_xchg in Hs; repeat case_match; simplify_eq; eauto. }
    rewrite Hk. exact (futex_queue_sleep s m t h (th_depth (s_th s t)) Hq Ht).
  - apply queue_upd; [done|done|]. intros k. destruct (th_pc (s_th s t)), r; done.
Qed.

(** The waker takes the first sleeper. *)
Lemma wake_alone uaddr s :
  queue_ok s -> futex_wake uaddr uaddr 1 s = match s_queue s with [] => set_queue [] s | w :: q => wake_unit (set_queue q s) w end.
Proof.
  intros [_ Hq]. unfold futex_wake. destruct (s_queue s) as [|w q] eqn:E; [done|]. destruct (proj1 (Hq w)) as (t & h & -> & Ht); [by left|].
  cbn [wake_matching match_futex_uaddr]. rewrite Ht, Z.eqb_refl. by destruct q.
Qed.

Lemma wakeable_sys uaddr s s' : wakeable s -> queue_ok s -> mutex_sys uaddr false true s s' -> wakeable s' /\ queue_ok s'.
Proof.
  intros Hw Hq Hs.
  destruct Hs as [s t h Ht Hp Hd Hh|s t Ht Hp Hd|s t m nx Ht Hs|s t g Ht Hp Hg|s t Ht Hp| | |]; try done; unfold set_pc.
  - split; [|apply queue_upd; [done|by rewrite Hp|done]]. apply wakeable_step; simpl; try done; [|calm Hp]. intros ->. by discriminate Hh.
  - split; [|apply queue_upd; [done|by rewrite Hp|done]]. apply wakeable_step; simpl; try done. calm Hp.
  - split; [|by apply queue_step]. pose proof (wakeable_code s t m nx Hw Hs) as H. by destruct nx as [[]|].
  - rewrite Hg by done. rewrite (wake_alone uaddr s Hq). destruct Hq as [Hn Hq]. destruct (s_queue s) as [|w q] eqn:E.
    + assert (forall u h, th_pc (s_th s u) <> Sleep h) as Hno by (intros u h Hu; apply (not_elem_of_nil (Own_unit u)), Hq; by exists u, h).
      split; [|apply queue_upd; [split; [done|intros w; simpl; by rewrite <- Hq]|simpl; by rewrite Hp|done]].
      split; intros v k; (destruct (decide (v = t)) as [->|]; [rewrite upd_eq; naive_solver|rewrite upd_ne by done]).
      * intros Hv. by apply Hno in Hv.
      * apply (proj2 Hw v).
    + destruct (proj1 (Hq w)) as (u & h & -> & Hu); [by left|]. apply NoDup_cons in Hn as [Hnin Hn]. simpl wake_unit. simpl s_th at 1. rewrite Hu. simpl s_th.
      assert (t <> u) as Hne by (intros ->; congruence). pose proof (wakeable_untimed s u Hw) as Hut. rewrite Hu in Hut. split; [split|].
      * intros v k Hv. right. exists u. rewrite upd_ne by done. unfold set_pc. rewrite upd_eq. right. exists h. by right.
      * intros v k. destruct (decide (v = t)) as [->|]; [rewrite upd_eq; naive_solver|]. rewrite upd_ne by done. unfold set_pc.
        destruct (decide (v = u)) as [->|]; [rewrite upd_eq; naive_solver|]. rewrite upd_ne by done. apply (proj2 Hw v).
      * apply queue_upd; [|unfold set_pc; rewrite upd_ne by done; simpl; by rewrite Hp|done]. split; [done|]. intros w. simpl s_queue. unfold set_pc. split.
        -- intros Hw'. destruct (proj1 (Hq w)) as (v & k & -> & Hv); [by right|]. exists v, k. split; [done|]. rewrite upd_ne; [done|]. by intros ->.
        -- intros (v & k & -> & Hv). destruct (decide (v = u)) as [->|]; [by rewrite upd_eq in Hv|]. rewrite upd_ne in Hv by done.
           assert (Own_unit v ∈ Own_unit u :: q) as [[= ->]|]%elem_of_cons by (apply Hq; by exists v, k); done.
  - pose proof (wakeable_untimed s t Hw) as Hut. destruct Hp as [Hp|Hp]; rewrite Hp in Hut; done.
Qed.

Lemma wakeable_reach uaddr type s : rtc (mutex_sys uaddr false true) (mutex_start type) s -> wakeable s.
Proof.
  intros Hr. assert (forall a b, rtc (mutex_sys uaddr false true) a b -> wakeable a -> queue_ok a -> wakeable b) as K.
  { intros a b H. induction H; [done|]. intros Ha Hq. destruct (wakeable_sys uaddr x y) as [? ?]; try done. by apply IHrtc. }
  eapply K; [exact Hr|split; simpl; intros u h; naive_solver|]. split; [apply NoDup_nil_2|]. intros w. simpl. split; [by intros ?%not_elem_of_nil|naive_solver].
Qed.

(** ** Properties *)

(** C3. Mutual exclusion, for all three types of mutex and any interleaving of
    any number of threads that lock, try, lock with a timeout, nest and unlock,
    whatever other units of the system do with futexes: two threads never hold the
    mutex at the same time, and it is held exactly when its state is not 0. Threads
    unlock only what they hold; a mutex of type ERRORCHECK keeps this even when
    threads unlock it that do not hold it. *)
Theorem mutex_exclusion uaddr timed alone type s t u :
  rtc (mutex_sys uaddr timed alone) (mutex_start type) s ->
  (holds (s_th s t) = true -> holds (s_th s u) = true -> t = u) /\
  (mx_state (s_mx s) = 0 <-> forall v, holds (s_th s v) = false).
Proof.
  intros Hr. apply mutex_reach_inv in Hr as (HE & _ & _). split.
  - intros Ht Hu. symmetry. by apply (holder_unique s t u).
  - destruct HE as (_ & H2 & H3). split; [done|]. intros Hn. destruct (Z.eq_dec (mx_state (s_mx s)) 0) as [|Hne]; [done|].
    destruct (H3 Hne) as (v & Hv & _). by rewrite Hn in Hv.
Qed.

(** A recursive mutex counts: whoever holds locks is its owner, and
    [rec_count] is the number of locks it holds. *)
Theorem mutex_recursion uaddr timed alone s t :
  rtc (mutex_sys uaddr timed alone) (mutex_start PTHREAD_MUTEX_RECURSIVE) s -> 0 < th_depth (s_th s t) ->
  mx_owner (s_mx s) = t /\ mx_rec (s_mx s) = th_depth (s_th s t).
Proof.
  intros Hr Hd. assert (mx_type (s_mx s) = PTHREAD_MUTEX_RECURSIVE) as Et by (by eapply mutex_type_kept in Hr).
  apply mutex_reach_inv in Hr as (_ & (H & _) & _). by apply H.
Qed.

(** C4. As long as no other futex of the system is used, no wake-up is lost between
    [pthread_mutex_lock], [trylock] and [unlock] of a mutex: when nobody holds the
    mutex and no thread is inside the code but asleep, no thread is asleep. With
    other futexes it fails: [other_unit_takes_wakeup] and [wake_address_overwritten]
    below. *)
Theorem mutex_no_lost_wakeup uaddr type s :
  rtc (mutex_sys uaddr false true) (mutex_start type) s ->
  (forall t, holds (s_th s t) = false) ->
  (forall t, th_pc (s_th s t) = Idle \/ exists h, th_pc (s_th s t) = Sleep h) ->
  forall t, th_pc (s_th s t) = Idle.
Proof.
  intros Hr Hfree Hq t. destruct (Hq t) as [|[h Hs]]; [done|]. exfalso.
  destruct (mutex_reach_inv _ _ _ _ _ Hr) as ((_ & _ & H3) & _). apply wakeable_reach in Hr as [Hw _].
  destruct (Hw t h Hs) as [H2|[u Hu]].
  - destruct H3 as (v & Hv & _); [lia|]. by rewrite Hfree in Hv.
  - destruct (Hq u) as [E|[k E]]; destruct Hu as [H|[k' [H|H]]]; congruence.
Qed.

(** ** Runs *)

(** Runs of the system given as lists of moves; a waker is given the value of
    [g_wake_uaddr]. *)
Inductive move := M_call (t : Z) (h : how) | M_unlock (t : Z) | M_code (t : Z) | M_wake (t g : Z) | M_timeout (t : Z) | M_other (a : Z).

Definition at_pc (s : sys) (t : Z) (p : pc) : bool := bool_decide (th_pc (s_th s t) = p).

(** The address of the mutex. *)
Definition here : Z := 4096.

Definition do_move (s : sys) (v : move) : option sys :=
  match v with
  | M_call t h => if (0 <? t) && at_pc s t Idle && (th_depth (s_th s t) <? 2 ^ 32 - 2) then Some (set_pc s t (Entry h)) else None
  | M_unlock t => if (0 <? t) && at_pc s t Idle && (0 <? th_depth (s_th s t)) then Some (set_pc s t U_entry) else None
  | M_code t =>
      if 0 <? t then
        match mutex_step t (s_mx s) (th_pc (s_th s t)) with
        | Some (m, nx) => Some (add_wait t nx (upd s m t (after (th_pc (s_th s t)) (th_depth (s_th s t)) nx)))
        | None => None
        end
      else None
  | M_wake t g => if (0 <? t) && at_pc s t U_wake then Some (set_pc (futex_wake here g 1 s) t Idle) else None
  | M_timeout t => if (0 <? t) && (at_pc s t (Sleep Timed) || at_pc s t (Woken Timed)) then Some (set_pc s t Idle) else None
  | M_other a => Some (set_queue (s_queue s ++ [Other_unit a]) s)
  end.

Fixpoint do_moves (s : sys) (vs : list move) : option sys :=
  match vs with [] => Some s | v :: vs' => match do_move s v with Some s' => do_moves s' vs' | None => None end end.

Definition calls_timed (v : move) : bool := match v with M_call _ Timed => true | _ => false end.
Definition meets_others (v : move) : bool := match v with M_wake _ g => negb (g =? here) | M_other _ => true | _ => false end.

Lemma do_move_sys timed alone s v s' :
  (calls_timed v = true -> timed = true) -> (meets_others v = true -> alone = false) -> do_move s v = Some s' -> mutex_sys here timed alone s s'.
Proof.
  intros Hv Ho. destruct v; simpl in *; unfold at_pc.
  - destruct ((0 <? t) && _ && _) eqn:E; [|done]. intros [= <-].
    apply andb_true_iff in E as [[H1 H2]%andb_true_iff H3]. apply bool_decide_eq_true in H2.
    apply do_call; try done; try lia. intros ->. by apply Hv.
  - destruct ((0 <? t) && _ && _) eqn:E; [|done]. intros [= <-].
    apply andb_true_iff in E as [[H1 H2]%andb_true_iff H3]. apply bool_decide_eq_true in H2. apply do_unlock; try done; lia.
  - destruct (Z.ltb_spec 0 t); [|done]. destruct (mutex_step t (s_mx s) (th_pc (s_th s t))) as [[m nx]|] eqn:E; [|done].
    intros [= <-]. by apply do_step.
  - destruct ((0 <? t) && _) eqn:E; [|done]. apply andb_true_iff in E as [H1 H2%bool_decide_eq_true].
    intros [= <-]. apply do_wake; [lia|done|]. intros ->. destruct (Z.eqb_spec g here); [done|]. by specialize (Ho eq_refl).
  - destruct ((0 <? t) && _) eqn:E; [|done]. intros [= <-]. apply andb_true_iff in E as [H1 H2].
    apply do_timeout; [lia|]. apply orb_true_iff in H2 as [H2|H2]; apply bool_decide_eq_true in H2; auto.
  - intros [= <-]. apply do_other_wait. by apply Ho.
Qed.

Lemma do_moves_rtc timed alone s vs s' :
  (existsb calls_timed vs = true -> timed = true) -> (existsb meets_others vs = true -> alone = false) -> do_moves s vs = Some s' -> rtc (mutex_sys here timed alone) s s'.
Proof.
  revert s. induction vs as [|v vs IH]; intros s; simpl; [by intros _ _ [= ->]|]. rewrite !orb_true_iff. intros Hv Ho.
  destruct (do_move s v) as [s1|] eqn:E; [|done]. intros H. eapply rtc_l; [eapply do_move_sys; [..|done]; auto|by apply IH; auto].
Qed.

(** A thread that no move is about stays as it is, unless it is woken. *)
Definition mover (v : move) : option Z :=
  match v with M_call t _ | M_unlock t | M_code t | M_timeout t | M_wake t _ => Some t | M_other _ => None end.

Lemma do_moves_others s vs s' t :
  do_moves s vs = Some s' -> th_pc (s_th s t) = Idle -> Forall (fun v => mover v <> Some t) vs -> s_th s' t = s_th s t.
Proof.
  revert s. induction vs as [|v vs IH]; intros s; simpl; [by intros [= ->]|].
  destruct (do_move s v) as [s1|] eqn:E; [|done]. intros H Hp [Hv Hvs]%Forall_cons.
  assert (s_th s1 t = s_th s t) as H1; [|rewrite (IH s1 H); [done|by rewrite H1|done]].
  destruct v; simpl in E, Hv; unfold set_pc in E; repeat case_match; simplify_eq; rewrite ?upd_ne by congruence; try done.
  - rewrite <- (upd_ne s m t0 (after (th_pc (s_th s t0)) (th_depth (s_th s t0)) n) t) by congruence. by destruct n as [[]|].
  - apply futex_wake_awake. by rewrite Hp.
Qed.

(** A run whose end satisfies a check. *)
Lemma run_check timed alone type vs (check : sys -> bool) :
  (existsb calls_timed vs = true -> timed = true) -> (existsb meets_others vs = true -> alone = false) ->
  match do_moves (mutex_start type) vs with Some s => check s | None => false end = true ->
  exists s, rtc (mutex_sys here timed alone) (mutex_start type) s /\ check s = true /\
    forall t, Forall (fun v => mover v <> Some t) vs -> s_th s t = {| th_pc := Idle; th_depth := 0 |}.
Proof.
  intros Hv Ho. destruct (do_moves (mutex_start type) vs) as [s|] eqn:E; [|done]. intros H. exists s.
  split; [by eapply do_moves_rtc|]. split; [done|]. intros t Ht. by rewrite (do_moves_others _ _ _ _ E).
Qed.

#[global] Instance thread_eq_dec : EqDecision thread.
Proof. solve_decision. Defined.

(** The end of a run in which a wake-up was lost: thread [v] sleeps on a free mutex,
    and no other thread is inside the code. *)
Definition stranded (v : Z) (s : sys) : Prop :=
  mx_state (s_mx s) = 0 /\ (forall t, holds (s_th s t) = false) /\
  th_pc (s_th s v) = Sleep Plain /\ (forall t, t <> v -> th_pc (s_th s t) = Idle).

Lemma stranded_run timed alone vs u v :
  (existsb calls_timed vs = true -> timed = true) -> (existsb meets_others vs = true -> alone = false) ->
  Forall (fun x => match mover x with Some t => t = 1 \/ t = u \/ t = v | None => True end) vs ->
  match do_moves (mutex_start PTHREAD_MUTEX_NORMAL) vs with
  | Some s => (mx_state (s_mx s) =? 0) && bool_decide (s_th s v = {| th_pc := Sleep Plain; th_depth := 0 |}) &&
      bool_decide (s_th s 1 = {| th_pc := Idle; th_depth := 0 |}) && bool_decide (u = v \/ s_th s u = {| th_pc := Idle; th_depth := 0 |})
  | None => false
  end = true ->
  exists s, rtc (mutex_sys here timed alone) (mutex_start PTHREAD_MUTEX_NORMAL) s /\ stranded v s.
Proof.
  intros Hv Ho Hm Hc. destruct (run_check timed alone _ vs _ Hv Ho Hc) as (s & Hr & Hs & Hoth). exists s. split; [done|].
  apply andb_true_iff in Hs as [[[H0%Z.eqb_eq H3]%andb_true_iff H1]%andb_true_iff H2]. apply bool_decide_eq_true in H1, H2, H3.
  assert (forall t, t <> v -> s_th s t = {| th_pc := Idle; th_depth := 0 |}) as K.
  { intros t Hne. destruct (decide (t = 1)) as [->|]; [done|]. destruct (decide (t = u)) as [->|]; [by destruct H2|].
    apply Hoth. eapply Forall_impl; [exact Hm|]. cbn beta. intros x Hx E. rewrite E in Hx. naive_solver. }
  split_and!; try done.
  - intros t. destruct (decide (t = v)) as [->|]; [by rewrite H3|by rewrite K].
  - by rewrite H3.
  - intros t Hne. by rewrite K.
Qed.

(** Thread [t] locks at once; thread [t] finds the mutex held and sleeps; thread 1
    unlocks and wakes whom it finds with [g_wake_uaddr]. *)
Definition locks (t : Z) : list move := [M_call t Plain; M_code t; M_code t; M_code t].
Definition sleeps (t : Z) (h : how) : list move := [M_call t h; M_code t; M_code t; M_code t; M_code t].
Definition unlocks (t g : Z) : list move := [M_unlock t; M_code t; M_code t; M_wake t g].

(** C37. With [pthread_mutex_timedlock] a wake-up can be lost: the kernel reports
    a timeout to a thread that was woken after its deadline, the thread returns
    ETIMEDOUT without passing the wake-up on, and another thread sleeps on a free
    mutex that nobody holds and no thread is about to lock or unlock. *)
Theorem timedlock_loses_wakeup :
  exists s, rtc (mutex_sys here true true) (mutex_start PTHREAD_MUTEX_NORMAL) s /\ stranded 3 s.
Proof.
  apply (stranded_run true true (locks 1 ++ sleeps 2 Timed ++ sleeps 3 Plain ++ unlocks 1 here ++ [M_timeout 2]) 2 3);
    [done|done|cbn; repeat apply Forall_cons_2; simpl; auto|vm_compute; reflexivity].
Qed.

(** The kernel looks for sleepers by their virtual address, in all realms. A unit
    of another process that waits at the same address - the same program started
    twice is enough - takes the wake-up, and the thread that waits for the mutex
    sleeps on although the mutex is free. *)
Theorem other_unit_takes_wakeup :
  exists s, rtc (mutex_sys here false false) (mutex_start PTHREAD_MUTEX_NORMAL) s /\ stranded 2 s.
Proof.
  apply (stranded_run false false (locks 1 ++ [M_other here] ++ sleeps 2 Plain ++ unlocks 1 here) 2 2);
    [done|done|cbn; repeat apply Forall_cons_2; simpl; auto|vm_compute; reflexivity].
Qed.

(** [g_wake_uaddr] is one variable for all queues, while each queue has a lock of
    its own. A waker of another queue overwrites it between the store and the
    search, the search finds nobody, and the sleeper is not woken. *)
Theorem wake_address_overwritten :
  exists s, rtc (mutex_sys here false false) (mutex_start PTHREAD_MUTEX_NORMAL) s /\ stranded 2 s.
Proof.
  apply (stranded_run false false (locks 1 ++ sleeps 2 Plain ++ unlocks 1 8192) 2 2);
    [done|done|cbn; repeat apply Forall_cons_2; simpl; auto|vm_compute; reflexivity].
Qed.

Lemma demo_run_exclusive : exists s, rtc (mutex_sys here true false) (mutex_start PTHREAD_MUTEX_RECURSIVE) s /\
  th_depth (s_th s 1) = 2 /\ th_pc (s_th s 2) = Sleep Plain.
Proof.
  destruct (run_check true false PTHREAD_MUTEX_RECURSIVE (locks 1 ++ [M_other here] ++ sleeps 2 Plain ++ [M_call 1 Try; M_code 1])
    (fun s => (th_depth (s_th s 1) =? 2) && bool_decide (th_pc (s_th s 2) = Sleep Plain))) as (s & Hr & Hc & _); [done|done|vm_compute; reflexivity|].
  apply andb_true_iff in Hc as [H1%Z.eqb_eq H2%bool_decide_eq_true]. by exists s.
Qed.

Lemma mutex_exclusion_witness :
  exists s, th_depth (s_th s 1) = 2 /\
    (holds (s_th s 1) = true -> holds (s_th s 2) = true -> 1 = 2) /\
    (mx_state (s_mx s) = 0 <-> forall v, holds (s_th s v) = false).
Proof.
  destruct demo_run_exclusive as (s & Hr & Hd & _). exists s. split; [done|].
  exact (mutex_exclusion here true false PTHREAD_MUTEX_RECURSIVE s 1 2 Hr).
Defined.

Lemma mutex_recursion_witness :
  exists s, th_depth (s_th s 1) = 2 /\ mx_owner (s_mx s) = 1 /\ mx_rec (s_mx s) = th_depth (s_th s 1).
Proof.
  destruct demo_run_exclusive as (s & Hr & Hd & _). exists s. split; [done|].
  apply (mutex_recursion here true false s 1 Hr). rewrite Hd. lia.
Defined.

(** A run without timeouts: the waiter is woken, gets the mutex and frees it. *)
Lemma demo_run_woken : exists s, rtc (mutex_sys here false true) (mutex_start PTHREAD_MUTEX_NORMAL) s /\
  forall t, s_th s t = {| th_pc := Idle; th_depth := 0 |}.
Proof.
  destruct (run_check false true PTHREAD_MUTEX_NORMAL (locks 1 ++ sleeps 2 Plain ++ unlocks 1 here ++ [M_code 2; M_code 2; M_code 2] ++ unlocks 2 here)
    (fun s => bool_decide (s_th s 1 = {| th_pc := Idle; th_depth := 0 |}) && bool_decide (s_th s 2 = {| th_pc := Idle; th_depth := 0 |})))
    as (s & Hr & Hc & Ho); [done|done|vm_compute; reflexivity|].
  apply andb_true_iff in Hc as [H1%bool_decide_eq_true H2%bool_decide_eq_true]. exists s. split; [done|].
  intros t. destruct (decide (t = 1)) as [->|]; [done|]. destruct (decide (t = 2)) as [->|]; [done|].
  apply Ho. repeat constructor; simpl; congruence.
Qed.

Lemma mutex_no_lost_wakeup_witness :
  exists s, rtc (mutex_sys here false true) (mutex_start PTHREAD_MUTEX_NORMAL) s /\ forall t, th_pc (s_th s t) = Idle.
Proof.
  destruct demo_run_woken as (s & Hr & Hs). exists s. split; [done|].
  apply (mutex_no_lost_wakeup here PTHREAD_MUTEX_NORMAL s Hr); intros t; rewrite Hs; [done|by left].
Defined.
