(* ===== verification/Channel.v ===== *)
(** * kernel/ipc/channel.cpp, kernel/sync/wait_queue.cpp: channels

    A channel is a ring buffer with counts of its readers and writers and three
    queues of waiting units. Everything between [lock_.lock()] and
    [lock_.unlock()] is one step: a function of the channel, run by one unit.
    What a unit does between two such sections (going to sleep, running again,
    waking another unit) is a step of the system below, and units interleave
    freely. *)

From Stdlib Require Import ZArith Lia.
From stdpp Require Import base tactics gmap numbers list relations.
From S2P Require Import Prelude.
From S2P Require Import Memory.
From S2P Require Import Slices.

Definition EAGAIN : Z := 11.
Definition EPIPE : Z := 32.
Definition POLLIN : Z := 0x01.
Definition POLLOUT : Z := 0x02.
Definition POLLERR : Z := 0x04.
Definition POLLHUP : Z := 0x08.

(** ** Wait queues *)

(** The units of a queue, the first to be woken in front. *)
Definition queue : Type := list Z.

Definition add_wait (u : Z) (q : queue) : queue := q ++ [u].

(** The units to wake, and the queue left. *)
Definition wake_one (q : queue) : list Z * queue :=
  match q with [] => ([], []) | u :: q' => ([u], q') end.

Definition wake_all (q : queue) : list Z * queue := (q, []).

Fixpoint remove (u : Z) (q : queue) : bool * queue :=
  match q with
  | [] => (false, [])
  | v :: q' => if v =? u then (true, q') else let '(r, q'') := remove u q' in (r, v :: q'')
  end.

Fixpoint wake_matching (max_wake : nat) (predicate : Z -> bool) (q : queue) : list Z * queue :=
  match q with
  | [] => ([], [])
  | u :: q' =>
      match max_wake with
      | O => ([], q)
      | S n =>
          if predicate u then let '(woken, rest) := wake_matching n predicate q' in (u :: woken, rest)
          else let '(woken, rest) := wake_matching max_wake predicate q' in (woken, u :: rest)
      end
  end.

(** ** The channel *)

Record channel := {
  buf_ : list Z;
  head_ : Z;
  tail_ : Z;
  used : Z;
  capacity : Z;
  reader_count_ : Z;
  writer_count_ : Z;
  reader_generation_ : Z;
  writer_generation_ : Z;
  open_wait_ : queue;
  read_wait_ : queue;
  write_wait_ : queue
}.

(** [Channel::Channel] on the block that [malloc(cap)] returned. *)
Definition new_channel (cap : Z) (block : list Z) : channel := {|
  buf_ := block; head_ := 0; tail_ := 0; used := 0; capacity := cap;
  reader_count_ := 0; writer_count_ := 0; reader_generation_ := 0; writer_generation_ := 0;
  open_wait_ := []; read_wait_ := []; write_wait_ := [] |}.

Definition set_ring (b : list Z) (h t n : Z) (c : channel) : channel := {|
  buf_ := b; head_ := h; tail_ := t; used := n; capacity := capacity c;
  reader_count_ := reader_count_ c; writer_count_ := writer_count_ c;
  reader_generation_ := reader_generation_ c; writer_generation_ := writer_generation_ c;
  open_wait_ := open_wait_ c; read_wait_ := read_wait_ c; write_wait_ := write_wait_ c |}.

Definition set_counts (r w rg wg : Z) (c : channel) : channel := {|
  buf_ := buf_ c; head_ := head_ c; tail_ := tail_ c; used := used c; capacity := capacity c;
  reader_count_ := r; writer_count_ := w; reader_generation_ := rg; writer_generation_ := wg;
  open_wait_ := open_wait_ c; read_wait_ := read_wait_ c; write_wait_ := write_wait_ c |}.

Definition set_queues (o r w : queue) (c : channel) : channel := {|
  buf_ := buf_ c; head_ := head_ c; tail_ := tail_ c; used := used c; capacity := capacity c;
  reader_count_ := reader_count_ c; writer_count_ := writer_count_ c;
  reader_generation_ := reader_generation_ c; writer_generation_ := writer_generation_ c;
  open_wait_ := o; read_wait_ := r; write_wait_ := w |}.

Definition has_writers (c : channel) : bool := 0 <? writer_count_ c.
Definition has_readers (c : channel) : bool := 0 <? reader_count_ c.

(** Opening and closing an end. The result is the units that are woken; closing
    also says whether the channel is deleted. *)
Definition add_reader : M channel (list Z) := fun c =>
  let c := set_counts (i32 (reader_count_ c + 1)) (writer_count_ c) (u32 (reader_generation_ c + 1)) (writer_generation_ c) c in
  let '(woken, o) := wake_all (open_wait_ c) in
  Done woken (set_queues o (read_wait_ c) (write_wait_ c) c).

Definition add_writer : M channel (list Z) := fun c =>
  let c := set_counts (reader_count_ c) (i32 (writer_count_ c + 1)) (reader_generation_ c) (u32 (writer_generation_ c + 1)) c in
  let '(woken, o) := wake_all (open_wait_ c) in
  Done woken (set_queues o (read_wait_ c) (write_wait_ c) c).

Definition remove_reader : M channel (list Z * bool) := fun c =>
  let r := i32 (reader_count_ c - 1) in
  let w := writer_count_ c in
  let c := set_counts r w (reader_generation_ c) (writer_generation_ c) c in
  if r =? 0 then
    let '(woken1, ww) := wake_all (write_wait_ c) in
    let '(woken2, o) := wake_all (open_wait_ c) in
    Done (woken1 ++ woken2, w =? 0) (set_queues o (read_wait_ c) ww c)
  else Done ([], false) c.

Definition remove_writer : M channel (list Z * bool) := fun c =>
  let w := i32 (writer_count_ c - 1) in
  let r := reader_count_ c in
  let c := set_counts r w (reader_generation_ c) (writer_generation_ c) c in
  if w =? 0 then
    let '(woken1, rw) := wake_all (read_wait_ c) in
    let '(woken2, o) := wake_all (open_wait_ c) in
    Done (woken1 ++ woken2, r =? 0) (set_queues o rw (write_wait_ c) c)
  else Done ([], false) c.

Definition free_space : M channel Z := gets (fun c => u64 (capacity c - used c)).

Definition poll (is_reader is_writer : bool) : M channel Z := gets (fun c =>
  let writers_exist := has_writers c in
  let readers_exist := has_readers c in
  let mask := 0 in
  let mask :=
    if is_reader then
      let mask := if (0 <? used c) || negb writers_exist then Z.lor mask POLLIN else mask in
      if negb writers_exist then Z.lor mask POLLHUP else mask
    else mask in
  if is_writer then
    let mask := if (used c <? capacity c) && readers_exist then Z.lor mask POLLOUT else mask in
    if negb readers_exist then Z.lor mask POLLERR else mask
  else mask).

(** [memcpy] into and out of the buffer; undefined outside of it. *)
Definition in_buffer (pos n : Z) (c : channel) : bool := (0 <=? pos) && (0 <=? n) && (pos + n <=? zlen (buf_ c)).

Definition copy_in (pos : Z) (bytes : list Z) : M channel unit := fun c =>
  if in_buffer pos (zlen bytes) c then Done tt (set_ring (splice pos bytes (buf_ c)) (head_ c) (tail_ c) (used c) c) else Undef.

Definition copy_out (pos n : Z) : M channel (list Z) := fun c =>
  if in_buffer pos n c then Done (slice pos n (buf_ c)) c else Undef.

(** What a turn of the loop of [send] or [recv] comes to: a result, sleeping in
    a queue, or bytes that were moved. *)
Inductive turn := Returns (r : Z) | Sleeps | Moves (bytes : list Z).

(** A turn of [send]. [cur] is the calling unit when the call may block. *)
Definition send_turn (cur : option Z) (data : list Z) : M channel turn :=
  c ← get;
  if negb (has_readers c) then mret (Returns (- EPIPE))
  else
    let space := u64 (capacity c - used c) in
    if space =? 0 then
      match cur with
      | None => mret (Returns (- EAGAIN))
      | Some u => _ ← modify (fun c => set_queues (open_wait_ c) (read_wait_ c) (add_wait u (write_wait_ c)) c); mret Sleeps
      end
    else
      let len := zlen data in
      let to_write := if len <? space then len else space in
      let first := Z.min to_write (u64 (capacity c - head_ c)) in
      _ ← copy_in (head_ c) (slice 0 first data);
      _ ← (if first <? to_write then copy_in 0 (slice first (to_write - first) data) else mret tt);
      _ ← modify (fun c => set_ring (buf_ c) (u64 (head_ c + to_write) mod capacity c) (tail_ c) (u64 (used c + to_write)) c);
      mret (Moves (slice 0 to_write data)).

(** A turn of [recv]. *)
Definition recv_turn (cur : option Z) (len : Z) : M channel turn :=
  c ← get;
  let block :=
    match cur with
    | None => mret (Returns (- EAGAIN))
    | Some u => _ ← modify (fun c => set_queues (open_wait_ c) (add_wait u (read_wait_ c)) (write_wait_ c) c); mret Sleeps
    end in
  if used c =? 0 then
    if has_writers c then block
    else
      let writer_ever_existed := 0 <? writer_generation_ c in
      if negb writer_ever_existed then block else mret (Returns 0)
  else
    let to_read := if len <? used c then len else used c in
    let first := Z.min to_read (u64 (capacity c - tail_ c)) in
    out1 ← copy_out (tail_ c) first;
    out2 ← (if first <? to_read then copy_out 0 (to_read - first) else mret []);
    _ ← modify (fun c => set_ring (buf_ c) (head_ c) (u64 (tail_ c + to_read) mod capacity c) (u64 (used c - to_read)) c);
    mret (Moves (out1 ++ out2)).

(** A turn of [wait_for_writer]; [None] in the first one, which takes the
    snapshot of the generation. The result is [None] when the call is over. *)
Definition wait_for_writer_turn (u : Z) (start_gen : option Z) : M channel (option Z) :=
  c ← get;
  let start_gen := match start_gen with Some g => g | None => writer_generation_ c end in
  if negb (has_writers c) && (writer_generation_ c =? start_gen) then
    _ ← modify (fun c => set_queues (add_wait u (open_wait_ c)) (read_wait_ c) (write_wait_ c) c); mret (Some start_gen)
  else mret None.

Definition wait_for_reader_turn (u : Z) (start_gen : option Z) : M channel (option Z) :=
  c ← get;
  let start_gen := match start_gen with Some g => g | None => reader_generation_ c end in
  if negb (has_readers c) && (reader_generation_ c =? start_gen) then
    _ ← modify (fun c => set_queues (add_wait u (open_wait_ c)) (read_wait_ c) (write_wait_ c) c); mret (Some start_gen)
  else mret None.

(** ** Calls that do not block *)

(** [send(data, len, false)] and [recv(out, len, false)] as a whole, the unit
    they wake included. *)
Definition send (data : list Z) : M channel (Z * list Z) :=
  if zlen data =? 0 then mret (0, [])
  else
    t ← send_turn None data;
    match t with
    | Returns r => mret (r, [])
    | Sleeps => undefined
    | Moves bytes => fun c =>
        let '(woken, q) := wake_one (read_wait_ c) in
        Done (zlen bytes, woken) (set_queues (open_wait_ c) q (write_wait_ c) c)
    end.

Definition recv (len : Z) : M channel (Z * list Z * list Z) :=
  if len =? 0 then mret (0, [], [])
  else
    t ← recv_turn None len;
    match t with
    | Returns r => mret (r, [], [])
    | Sleeps => undefined
    | Moves bytes => fun c =>
        let '(woken, q) := wake_one (write_wait_ c) in
        Done (zlen bytes, bytes, woken) (set_queues (open_wait_ c) (read_wait_ c) q c)
    end.

(** ** The system: a channel and its units *)

Inductive call :=
| Send (data : list Z)
| Recv (len : Z)
| Wait_writer (start_gen : option Z)
| Wait_reader (start_gen : option Z).

(** Where a unit is: outside the code; in front of the lock of a call, which may
    block or not; in a wait queue; behind the unlock, about to wake a reader or a
    writer. *)
Inductive pc := Idle | Run (cl : call) (blocking : bool) | Asleep (cl : call) | Wake_reader | Wake_writer.

#[global] Instance call_eq_dec : EqDecision call.
Proof. solve_decision. Defined.
#[global] Instance pc_eq_dec : EqDecision pc.
Proof. solve_decision. Defined.

(** A turn of a call as a step of its unit. The bytes are those sent, or those
    received. *)
Definition run_turn (u : Z) (cl : call) (blocking : bool) : M channel (pc * list Z * list Z) :=
  let cur := if blocking then Some u else None in
  match cl with
  | Send data =>
      t ← send_turn cur data;
      mret (match t with Returns _ => (Idle, [], []) | Sleeps => (Asleep cl, [], []) | Moves bytes => (Wake_reader, bytes, []) end)
  | Recv len =>
      t ← recv_turn cur len;
      mret (match t with Returns _ => (Idle, [], []) | Sleeps => (Asleep cl, [], []) | Moves bytes => (Wake_writer, [], bytes) end)
  | Wait_writer g =>
      r ← wait_for_writer_turn u g;
      mret (match r with Some g => (Asleep (Wait_writer (Some g)), [], []) | None => (Idle, [], []) end)
  | Wait_reader g =>
      r ← wait_for_reader_turn u g;
      mret (match r with Some g => (Asleep (Wait_reader (Some g)), [], []) | None => (Idle, [], []) end)
  end.

(** The channel, its units, and all bytes sent and received so far. *)
Record sys := { s_ch : channel; s_pc : Z -> pc; s_sent : list Z; s_received : list Z }.

(** A unit taken off a queue runs again: at the top of its loop. *)
Definition resume (p : pc) : pc := match p with Asleep cl => Run cl true | p => p end.
Definition wake (us : list Z) (f : Z -> pc) : Z -> pc := fun v => if decide (v ∈ us) then resume (f v) else f v.
Definition set_pc (u : Z) (p : pc) (f : Z -> pc) : Z -> pc := fun v => if decide (v = u) then p else f v.

(** What a call needs: bytes to send, room to receive into. *)
Definition call_ok (cl : call) : Prop :=
  match cl with
  | Send data => data <> [] /\ zlen data <= SIZE_MAX
  | Recv len => 0 < len <= SIZE_MAX
  | Wait_writer g | Wait_reader g => g = None
  end.

(** One step; [may u cl] says which units make which calls. *)
Inductive chan_sys (may : Z -> call -> Prop) : sys -> sys -> Prop :=
| do_call s u cl blocking :
    s_pc s u = Idle -> call_ok cl -> may u cl -> (blocking = true \/ exists data len, cl = Send data \/ cl = Recv len) ->
    chan_sys may s {| s_ch := s_ch s; s_pc := set_pc u (Run cl blocking) (s_pc s); s_sent := s_sent s; s_received := s_received s |}
| do_turn s u cl blocking p out inp c :
    s_pc s u = Run cl blocking -> run_turn u cl blocking (s_ch s) = Done (p, out, inp) c ->
    chan_sys may s {| s_ch := c; s_pc := set_pc u p (s_pc s); s_sent := s_sent s ++ out; s_received := s_received s ++ inp |}
| do_wake_reader s u woken q :
    s_pc s u = Wake_reader -> wake_one (read_wait_ (s_ch s)) = (woken, q) ->
    chan_sys may s {| s_ch := set_queues (open_wait_ (s_ch s)) q (write_wait_ (s_ch s)) (s_ch s);
                      s_pc := set_pc u Idle (wake woken (s_pc s)); s_sent := s_sent s; s_received := s_received s |}
| do_wake_writer s u woken q :
    s_pc s u = Wake_writer -> wake_one (write_wait_ (s_ch s)) = (woken, q) ->
    chan_sys may s {| s_ch := set_queues (open_wait_ (s_ch s)) (read_wait_ (s_ch s)) q (s_ch s);
                      s_pc := set_pc u Idle (wake woken (s_pc s)); s_sent := s_sent s; s_received := s_received s |}
| do_add_reader s woken c :
    reader_count_ (s_ch s) < INT32_MAX -> add_reader (s_ch s) = Done woken c ->
    chan_sys may s {| s_ch := c; s_pc := wake woken (s_pc s); s_sent := s_sent s; s_received := s_received s |}
| do_add_writer s woken c :
    writer_count_ (s_ch s) < INT32_MAX -> add_writer (s_ch s) = Done woken c ->
    chan_sys may s {| s_ch := c; s_pc := wake woken (s_pc s); s_sent := s_sent s; s_received := s_received s |}
| do_remove_reader s woken c :
    0 < reader_count_ (s_ch s) -> remove_reader (s_ch s) = Done (woken, false) c ->
    chan_sys may s {| s_ch := c; s_pc := wake woken (s_pc s); s_sent := s_sent s; s_received := s_received s |}
| do_remove_writer s woken c :
    0 < writer_count_ (s_ch s) -> remove_writer (s_ch s) = Done (woken, false) c ->
    chan_sys may s {| s_ch := c; s_pc := wake woken (s_pc s); s_sent := s_sent s; s_received := s_received s |}.

Definition chan_start (block : list Z) : sys :=
  {| s_ch := new_channel (zlen block) block; s_pc := fun _ => Idle; s_sent := []; s_received := [] |}.
