(* ===== verification/ChannelFacts.v ===== *)
(** * Channels: the ring buffer as a queue of bytes, and the turns of the calls *)

From Stdlib Require Import ZArith Lia.
From stdpp Require Import base tactics gmap numbers list.
From S2P Require Import Prelude.
From S2P Require Import Memory.
From S2P Require Import Slices.
From S2P Require Import Channel.

(** ** The ring *)

(** The bytes of a ring of [n] bytes from [t] on. *)
Definition ring (t n : Z) (b : list Z) : list Z := slice t n (b ++ b).

Definition contents (c : channel) : list Z := ring (tail_ c) (used c) (buf_ c).

(** The type of the fields: indices in the buffer, counts in their ranges. *)
Record ring_ok (c : channel) : Prop := {
  ro_cap : 0 < capacity c <= INT64_MAX;
  ro_buf : zlen (buf_ c) = capacity c;
  ro_tail : 0 <= tail_ c < capacity c;
  ro_used : 0 <= used c <= capacity c;
  ro_head : head_ c = (tail_ c + used c) mod capacity c;
  ro_readers : 0 <= reader_count_ c <= INT32_MAX;
  ro_writers : 0 <= writer_count_ c <= INT32_MAX
}.

(** Once around the ring. *)
Lemma mod_around x n : 0 <= x < 2 * n -> x mod n = if decide (x < n) then x else x - n.
Proof.
  intros Hx. case_decide; [apply Z.mod_small; lia|]. replace x with (x - n + 1 * n) at 1 by lia. rewrite Z.mod_add by lia. apply Z.mod_small. lia.
Qed.

Lemma ring_lookup t n b i :
  0 <= t < zlen b -> n <= zlen b ->
  ring t n b !! i = if decide (Z.of_nat i < n) then b !! Z.to_nat ((t + Z.of_nat i) mod zlen b) else None.
Proof.
  intros Ht Hn. unfold ring. rewrite slice_lookup by lia. case_decide; [|done]. rewrite mod_around by lia. case_decide.
  - rewrite lookup_app_l by lia. done.
  - rewrite lookup_app_r by lia. f_equal. lia.
Qed.

Lemma ring_length t n b : 0 <= t < zlen b -> 0 <= n <= zlen b -> zlen (ring t n b) = n.
Proof. intros. unfold ring. apply slice_length; rewrite ?length_app; lia. Qed.

Lemma contents_length c : ring_ok c -> zlen (contents c) = used c.
Proof. intros []. apply ring_length; lia. Qed.

(** Reading wraps at the end of the buffer. *)
Lemma ring_read t n b :
  0 <= t < zlen b -> 0 <= n <= zlen b ->
  ring t n b = slice t (Z.min n (zlen b - t)) b ++ slice 0 (n - Z.min n (zlen b - t)) b.
Proof.
  intros Ht Hn. unfold ring. destruct (Z.leb_spec n (zlen b - t)).
  - rewrite Z.min_l, Z.sub_diag, slice_nil, app_nil_r by lia. apply slice_left; lia.
  - rewrite Z.min_r by lia. apply slice_across; lia.
Qed.

(** Taking bytes off the front. *)
Lemma ring_split t m n b :
  0 <= t < zlen b -> 0 <= m <= n -> n <= zlen b -> ring t n b = ring t m b ++ ring ((t + m) mod zlen b) (n - m) b.
Proof.
  intros Ht Hm Hn. apply list_eq. intros i. pose proof (ring_length t m b Ht) as Hl.
  pose proof (Z.mod_pos_bound (t + m) (zlen b)) as Hb. rewrite ring_lookup by lia. destruct (decide (Z.of_nat i < m)).
  - rewrite lookup_app_l by lia. rewrite ring_lookup by lia. rewrite !decide_True by lia. done.
  - rewrite lookup_app_r by lia. rewrite ring_lookup by lia. rewrite (mod_around (t + m)) by lia.
    repeat case_decide; try lia; try done; do 2 f_equal; rewrite !mod_around by lia; repeat case_decide; lia.
Qed.

(** Writing [x] at [h], wrapping at the end. *)
Definition ring_put (h : Z) (x b : list Z) : list Z :=
  let first := Z.min (zlen x) (zlen b - h) in splice 0 (slice first (zlen x - first) x) (splice h (slice 0 first x) b).

Lemma ring_put_length h x b : 0 <= h < zlen b -> zlen x <= zlen b -> zlen (ring_put h x b) = zlen b.
Proof.
  intros Hh Hx. unfold ring_put. rewrite splice_length; [rewrite splice_length|lia|]; rewrite ?splice_length; rewrite ?slice_length by lia; lia.
Qed.

Lemma ring_put_lookup h x b j :
  0 <= h < zlen b -> zlen x <= zlen b -> (j < length b)%nat ->
  ring_put h x b !! j = if decide ((Z.of_nat j - h) mod zlen b < zlen x) then x !! Z.to_nat ((Z.of_nat j - h) mod zlen b) else b !! j.
Proof.
  intros Hh Hx Hj. unfold ring_put. set (f := Z.min _ _). rewrite splice_lookup; [|lia|rewrite splice_length; rewrite ?slice_length by lia; lia].
  rewrite slice_length by lia. rewrite splice_lookup by (rewrite ?slice_length by lia; lia). rewrite slice_length by lia.
  assert ((Z.of_nat j - h) mod zlen b = if decide (Z.of_nat j < h) then Z.of_nat j - h + zlen b else Z.of_nat j - h) as ->.
  { case_decide; [|apply Z.mod_small; lia]. rewrite <- (Z.mod_add _ 1) by lia. rewrite Z.mod_small; lia. }
  repeat case_decide; try lia; try done; rewrite slice_lookup by lia; rewrite decide_True by lia; f_equal; lia.
Qed.

(** Bytes written behind the contents are contents. *)
Lemma ring_append t n x b :
  0 <= t < zlen b -> 0 <= n -> n + zlen x <= zlen b -> ring t (n + zlen x) (ring_put ((t + n) mod zlen b) x b) = ring t n b ++ x.
Proof.
  intros Ht Hn Hx. set (h := (t + n) mod zlen b). assert (0 <= h < zlen b) as Hh by (apply Z.mod_pos_bound; lia).
  pose proof (ring_put_length h x b Hh) as Hl. apply list_eq. intros i. rewrite ring_lookup by lia. rewrite Hl by lia.
  pose proof (ring_length t n b Ht) as Hrl. assert (h = if decide (t + n < zlen b) then t + n else t + n - zlen b) as Eh by (unfold h; rewrite mod_around by lia; done).
  destruct (decide (Z.of_nat i < n + zlen x)) as [Hi|Hi].
  2: { symmetry. apply lookup_ge_None. rewrite length_app. lia. }
  set (j := (t + Z.of_nat i) mod zlen b). assert (j = if decide (t + Z.of_nat i < zlen b) then t + Z.of_nat i else t + Z.of_nat i - zlen b) as Ej by (unfold j; rewrite mod_around by lia; done).
  assert (0 <= j < zlen b) as Hj by (unfold j; apply Z.mod_pos_bound; lia). rewrite ring_put_lookup by lia. rewrite Z2Nat.id by lia.
  assert ((j - h) mod zlen b = if decide (Z.of_nat i < n) then Z.of_nat i - n + zlen b else Z.of_nat i - n) as Ed.
  { rewrite Eh, Ej. repeat case_decide; (rewrite Z.mod_small by lia; lia) || (rewrite <- (Z.mod_add _ 1) by lia; rewrite Z.mod_small by lia; lia) ||
    (rewrite <- (Z.mod_add _ (-1)) by lia; rewrite Z.mod_small by lia; lia). }
  rewrite Ed. destruct (decide (Z.of_nat i < n)).
  - rewrite decide_False by lia. rewrite lookup_app_l by lia. rewrite ring_lookup by lia. rewrite decide_True by lia. done.
  - rewrite decide_True by lia. rewrite lookup_app_r by lia. f_equal. lia.
Qed.

(** ** The turns *)

(** The ring of [c'] is that of [c] but for its bytes. *)
Definition same_rest (c c' : channel) : Prop :=
  capacity c' = capacity c /\ reader_count_ c' = reader_count_ c /\ writer_count_ c' = writer_count_ c /\
  writer_generation_ c' = writer_generation_ c /\ reader_generation_ c' = reader_generation_ c /\
  open_wait_ c' = open_wait_ c /\ read_wait_ c' = read_wait_ c /\ write_wait_ c' = write_wait_ c.

Lemma copy_in_run pos x c :
  0 <= pos -> pos + zlen x <= zlen (buf_ c) -> copy_in pos x c = Done tt (set_ring (splice pos x (buf_ c)) (head_ c) (tail_ c) (used c) c).
Proof. intros. unfold copy_in, in_buffer. rewrite !(proj2 (Z.leb_le _ _)) by lia. done. Qed.

Lemma copy_out_run pos n c : 0 <= pos -> 0 <= n -> pos + n <= zlen (buf_ c) -> copy_out pos n c = Done (slice pos n (buf_ c)) c.
Proof. intros. unfold copy_out, in_buffer. rewrite !(proj2 (Z.leb_le _ _)) by lia. done. Qed.

(** Room for [n] bytes of [data], and these bytes moved. *)
Definition room (c : channel) : Z := capacity c - used c.
Definition fitting (data : list Z) (c : channel) : list Z := slice 0 (Z.min (zlen data) (room c)) data.

Lemma send_moves cur data c :
  ring_ok c -> 0 < reader_count_ c -> used c < capacity c -> data <> [] -> zlen data <= SIZE_MAX ->
  exists c', send_turn cur data c = Done (Moves (fitting data c)) c' /\ ring_ok c' /\ contents c' = contents c ++ fitting data c /\ same_rest c c'.
Proof.
  intros [Hcap Hbuf Htail Hused Hhead Hr Hw] Hre Hroom Hne Hlen. unfold SIZE_MAX, UINT64_MAX, INT64_MAX, INT32_MAX in *.
  assert (0 < zlen data) as Hpos by (destruct data; [done|cbn [length]; lia]).
  unfold send_turn. unfold has_readers. cbv zeta. rewrite bind_run; unfold get at 1; cbn iota beta; rewrite (proj2 (Z.ltb_lt _ _)) by lia. cbn [negb].
  rewrite (u64_id (capacity c - used c)) by (unfold UINT64_MAX; lia). rewrite (proj2 (Z.eqb_neq _ _)) by lia.
  unfold fitting, room. set (w := Z.min (zlen data) (capacity c - used c)).
  assert ((if zlen data <? capacity c - used c then zlen data else capacity c - used c) = w) as -> by (unfold w; zcase; lia).
  assert (0 <= head_ c < capacity c) as Hh by (rewrite Hhead; apply Z.mod_pos_bound; lia).
  rewrite (u64_id (capacity c - head_ c)) by (unfold UINT64_MAX; lia). set (x := slice 0 w data). set (f := Z.min w (capacity c - head_ c)).
  assert (zlen x = w) as Hx by (apply slice_length; lia).
  assert (slice 0 f data = slice 0 f x) as -> by (unfold x; rewrite slice_slice by lia; done).
  assert (slice f (w - f) data = slice f (w - f) x) as -> by (unfold x; rewrite slice_slice by lia; done).
  rewrite bind_run, copy_in_run by (rewrite ?slice_length; lia). set (c1 := set_ring _ _ _ _ c).
  assert ((if f <? w then copy_in 0 (slice f (w - f) x) else mret tt) c1 = Done tt (set_ring (ring_put (head_ c) x (buf_ c)) (head_ c) (tail_ c) (used c) c)) as E2.
  { unfold ring_put. rewrite Hx, Hbuf. fold f. destruct (Z.ltb_spec f w).
    - rewrite copy_in_run; [done|lia|]. unfold c1. cbn [buf_ set_ring]. rewrite slice_length by lia. rewrite splice_length; rewrite ?slice_length by lia; lia.
    - replace (w - f) with 0 by lia. rewrite slice_nil, splice_none. done. }
  rewrite bind_run, E2, bind_run; unfold modify; rewrite ret_run. cbn [buf_ head_ tail_ used capacity set_ring].
  rewrite (u64_id (used c + w)) by (unfold UINT64_MAX; lia). rewrite (u64_id (head_ c + w)) by (unfold UINT64_MAX; lia).
  eexists. split; [done|]. split; [|split; [|by split_and!]].
  - split; cbn; try done; rewrite ?ring_put_length by lia; try lia. rewrite Hhead, Zplus_mod_idemp_l. f_equal. lia.
  - unfold contents. cbn. rewrite Hhead. rewrite <- Hbuf, <- Hx. apply ring_append; lia.
Qed.

Lemma recv_moves cur len c :
  ring_ok c -> 0 < used c -> 0 < len ->
  exists c', recv_turn cur len c = Done (Moves (slice 0 (Z.min len (used c)) (contents c))) c' /\ ring_ok c' /\
    contents c = slice 0 (Z.min len (used c)) (contents c) ++ contents c' /\ same_rest c c'.
Proof.
  intros [Hcap Hbuf Htail Hused Hhead Hr Hw] Hpos Hlen. unfold INT64_MAX, INT32_MAX in *.
  unfold recv_turn. cbv zeta. rewrite bind_run; unfold get at 1; cbn iota beta; rewrite (proj2 (Z.eqb_neq _ _)) by lia. set (n := Z.min len (used c)).
  assert ((if len <? used c then len else used c) = n) as -> by (unfold n; zcase; lia).
  rewrite (u64_id (capacity c - tail_ c)) by (unfold UINT64_MAX; lia). set (f := Z.min n (capacity c - tail_ c)).
  rewrite bind_run, copy_out_run by lia.
  assert ((if f <? n then copy_out 0 (n - f) else mret []) c = Done (slice 0 (n - f) (buf_ c)) c) as E2.
  { destruct (Z.ltb_spec f n); [apply copy_out_run; lia|]. replace (n - f) with 0 by lia. by rewrite slice_nil. }
  rewrite bind_run, E2, bind_run; unfold modify; rewrite ret_run. cbn [buf_ head_ tail_ used capacity set_ring].
  rewrite (u64_id (used c - n)) by (unfold UINT64_MAX; lia). rewrite (u64_id (tail_ c + n)) by (unfold UINT64_MAX; lia).
  assert (slice (tail_ c) f (buf_ c) ++ slice 0 (n - f) (buf_ c) = ring (tail_ c) n (buf_ c)) as Er by (rewrite ring_read by lia; by rewrite Hbuf).
  assert (slice 0 n (contents c) = ring (tail_ c) n (buf_ c)) as Es by (unfold contents, ring; rewrite slice_slice by lia; f_equal; lia).
  eexists. split; [by rewrite Es, Er|]. split; [|split; [|by split_and!]].
  - pose proof (Z.mod_pos_bound (tail_ c + n) (capacity c)). split; cbn; try done; try lia. rewrite Hhead, Zplus_mod_idemp_l. f_equal. lia.
  - rewrite Es. unfold contents. cbn. rewrite <- Hbuf. apply ring_split; lia.
Qed.

(** Putting a unit into a queue leaves the ring alone. *)
Lemma contents_queues o r w c : contents (set_queues o r w c) = contents c.
Proof. done. Qed.

Lemma ring_ok_queues o r w c : ring_ok c -> ring_ok (set_queues o r w c).
Proof. intros []. by split. Qed.

(** Every turn ends; what it comes to on each branch. *)
Lemma send_turn_ok cur data c :
  ring_ok c -> data <> [] -> zlen data <= SIZE_MAX ->
  exists t c', send_turn cur data c = Done t c' /\
    match t with
    | Returns r => c' = c /\ (r = - EPIPE /\ reader_count_ c = 0 \/ r = - EAGAIN /\ cur = None /\ used c = capacity c /\ 0 < reader_count_ c)
    | Sleeps => exists u, cur = Some u /\ used c = capacity c /\ 0 < reader_count_ c /\ c' = set_queues (open_wait_ c) (read_wait_ c) (add_wait u (write_wait_ c)) c
    | Moves bytes => bytes = fitting data c /\ 0 < reader_count_ c /\ used c < capacity c /\ ring_ok c' /\ contents c' = contents c ++ bytes /\ same_rest c c'
    end.
Proof.
  intros Hc Hne Hlen. pose proof Hc as []. unfold INT64_MAX in *. destruct (decide (reader_count_ c = 0)) as [Hr|Hr].
  { exists (Returns (- EPIPE)), c. unfold send_turn, has_readers. rewrite bind_run. unfold get at 1. cbn iota beta. rewrite Hr. split; [done|]. split; [done|by left]. }
  destruct (decide (used c = capacity c)) as [Hu|Hu].
  - unfold send_turn, has_readers. rewrite bind_run. unfold get at 1. cbn iota beta. rewrite (proj2 (Z.ltb_lt _ _)) by lia. cbn [negb]. cbv zeta.
    rewrite Hu, Z.sub_diag. change (u64 0 =? 0) with true. cbn iota. destruct cur as [u|].
    + eexists Sleeps, _. split; [done|]. exists u. split_and!; (done || lia).
    + exists (Returns (- EAGAIN)), c. split; [done|]. split; [done|]. right. split_and!; (done || lia).
  - destruct (send_moves cur data c) as (c' & E & H1 & H2 & H3); try done; try lia. exists (Moves (fitting data c)), c'. split_and!; try done; lia.
Qed.

Lemma recv_turn_ok cur len c :
  ring_ok c -> 0 < len ->
  exists t c', recv_turn cur len c = Done t c' /\
    match t with
    | Returns r => c' = c /\ used c = 0 /\ (r = 0 /\ writer_count_ c = 0 /\ 0 < writer_generation_ c \/ r = - EAGAIN /\ cur = None /\ (0 < writer_count_ c \/ writer_generation_ c <= 0))
    | Sleeps => exists u, cur = Some u /\ used c = 0 /\ (0 < writer_count_ c \/ writer_generation_ c <= 0) /\ c' = set_queues (open_wait_ c) (add_wait u (read_wait_ c)) (write_wait_ c) c
    | Moves bytes => bytes = slice 0 (Z.min len (used c)) (contents c) /\ 0 < used c /\ ring_ok c' /\ contents c = bytes ++ contents c' /\ same_rest c c'
    end.
Proof.
  intros Hc Hlen. pose proof Hc as []. destruct (decide (used c = 0)) as [Hu|Hu].
  - unfold recv_turn, has_writers. rewrite bind_run. unfold get at 1. cbn iota beta. cbv zeta. rewrite Hu. change (0 =? 0) with true. cbn iota.
    assert ((0 <? writer_count_ c) = false -> (0 <? writer_generation_ c) = true -> writer_count_ c = 0 /\ 0 < writer_generation_ c) as Hend by (rewrite Z.ltb_ge, Z.ltb_lt; lia).
    assert ((0 <? writer_count_ c) = true \/ (0 <? writer_generation_ c) = false -> 0 < writer_count_ c \/ writer_generation_ c <= 0) as Hmore by (rewrite Z.ltb_ge, Z.ltb_lt; lia).
    destruct (0 <? writer_count_ c), (0 <? writer_generation_ c), cur as [u|]; cbn [negb];
      first [eexists Sleeps, _; split; [done|]; exists u; split_and!; naive_solver|eexists (Returns (- EAGAIN)), c; split; [done|]; split_and!; naive_solver|eexists (Returns 0), c; split; [done|]; split_and!; naive_solver].
  - destruct (recv_moves cur len c) as (c' & E & H1 & H2 & H3); try done; try lia. eexists (Moves _), c'. split; [done|]. split_and!; try done; lia.
Qed.
