(* ===== verification/ChannelProps.v ===== *)
(** * Channels: what units can rely on under every interleaving

    The bytes that went in come out once and in order, and a sleeping unit is
    woken, as long as a channel has one reading and one writing unit. *)

From Stdlib Require Import ZArith Lia.
From stdpp Require Import base tactics gmap numbers list relations.
From S2P Require Import Prelude.
From S2P Require Import Memory.
From S2P Require Import Slices.
From S2P Require Import Channel.
From S2P Require Import ChannelFacts.

(** ** Units and queues *)

Lemma set_pc_eq u p f : set_pc u p f u = p.
Proof. unfold set_pc. by rewrite decide_True. Qed.
Lemma set_pc_ne u p f v : v <> u -> set_pc u p f v = f v.
Proof. intros. unfold set_pc. by rewrite decide_False. Qed.
Lemma wake_out us f v : v ∉ us -> wake us f v = f v.
Proof. intros. unfold wake. by rewrite decide_False. Qed.
Lemma wake_app a b f v : wake (a ++ b) f v = wake b (wake a f) v.
Proof. unfold wake. repeat case_decide; try set_solver; destruct (f v); done. Qed.
Lemma wake_nil f v : wake [] f v = f v.
Proof. apply wake_out. set_solver. Qed.

(** The call a unit sleeps in. *)
Definition sleeping (p : pc) : option call := match p with Asleep cl => Some cl | _ => None end.

Lemma sleeping_wake us f v cl : sleeping (wake us f v) = Some cl <-> v ∉ us /\ sleeping (f v) = Some cl.
Proof. unfold wake. case_decide; [destruct (f v); naive_solver|naive_solver]. Qed.

(** A queue holds, once each, the units that sleep in the calls of a kind. *)
Definition queue_ok (kind : call -> bool) (q : queue) (f : Z -> pc) : Prop :=
  NoDup q /\ forall u, u ∈ q <-> exists cl, sleeping (f u) = Some cl /\ kind cl = true.

Definition is_recv (cl : call) : bool := match cl with Recv _ => true | _ => false end.
Definition is_send (cl : call) : bool := match cl with Send _ => true | _ => false end.
Definition is_open (cl : call) : bool := match cl with Wait_writer _ | Wait_reader _ => true | _ => false end.

Section queues.
Context (kind : call -> bool) (f : Z -> pc).

Lemma queue_ext g q : (forall v, f v = g v) -> queue_ok kind q f -> queue_ok kind q g.
Proof. intros He [Hnd Hq]. split; [done|]. intros u. by rewrite Hq, He. Qed.

Lemma queue_sleep q u cl : sleeping (f u) = None -> kind cl = true -> queue_ok kind q f -> queue_ok kind (add_wait u q) (set_pc u (Asleep cl) f).
Proof.
  intros Hu Hk [Hnd Hq]. assert (u ∉ q) as Huq by (rewrite Hq; naive_solver). split.
  - apply NoDup_app. split_and!; [done| |apply NoDup_singleton]. intros x Hx ->%list_elem_of_singleton. done.
  - intros v. unfold add_wait. rewrite elem_of_app, list_elem_of_singleton. destruct (decide (v = u)) as [->|Hne]; [rewrite set_pc_eq; naive_solver|].
    rewrite set_pc_ne, Hq by done. naive_solver.
Qed.

Lemma queue_stay q u p : sleeping (f u) = None -> (forall cl, sleeping p = Some cl -> kind cl = false) -> queue_ok kind q f -> queue_ok kind q (set_pc u p f).
Proof.
  intros Hu Hp [Hnd Hq]. split; [done|]. intros v. rewrite Hq. destruct (decide (v = u)) as [->|Hne]; [rewrite set_pc_eq|by rewrite set_pc_ne].
  split; [naive_solver|]. intros (cl & Hs & Hk). rewrite (Hp cl Hs) in Hk. done.
Qed.

Lemma queue_take w q : queue_ok kind (w ++ q) f -> queue_ok kind q (wake w f).
Proof.
  intros [Hnd Hq]. apply NoDup_app in Hnd as (_ & Hd & Hnd). split; [done|]. intros u. setoid_rewrite sleeping_wake.
  specialize (Hq u). rewrite elem_of_app in Hq. split; [intros Hu; destruct (proj1 Hq) as (cl & ? & ?); [by right|]; exists cl; split; [split; [intros Hw; by apply (Hd u)|done]|done]|].
  intros (cl & [Hw Hs] & Hk). destruct (proj2 Hq); [by exists cl|done|done].
Qed.

Lemma queue_apart w q : (forall u cl, u ∈ w -> sleeping (f u) = Some cl -> kind cl = false) -> queue_ok kind q f -> queue_ok kind q (wake w f).
Proof.
  intros Hw [Hnd Hq]. split; [done|]. intros u. setoid_rewrite sleeping_wake. rewrite Hq. split; [|naive_solver].
  intros (cl & Hs & Hk). exists cl. split; [|done]. split; [|done]. intros Hu. rewrite (Hw u cl Hu Hs) in Hk. done.
Qed.
End queues.

Lemma wake_one_app q woken q' : wake_one q = (woken, q') -> q = woken ++ q'.
Proof. destruct q; cbn; by intros [= <- <-]. Qed.

(** Units of another queue. *)
Lemma queue_kind kind kind' q f : (forall cl, kind cl = true -> kind' cl = false) -> queue_ok kind q f ->
  forall w q', q = w ++ q' -> forall u cl, u ∈ w -> sleeping (f u) = Some cl -> kind' cl = false.
Proof.
  intros Hk [_ Hq] w q' -> u cl Hu Hs. apply Hk. destruct (proj1 (Hq u)) as (cl' & Hs' & Hk'); [apply elem_of_app; by left|]. congruence.
Qed.

(** ** The invariant *)

Definition call_live (cl : call) : Prop :=
  match cl with Send data => data <> [] /\ zlen data <= SIZE_MAX | Recv len => 0 < len | _ => True end.

Definition in_call (p : pc) : option call := match p with Run cl _ | Asleep cl => Some cl | _ => None end.

Definition queues_ok (c : channel) (f : Z -> pc) : Prop :=
  queue_ok is_recv (read_wait_ c) f /\ queue_ok is_send (write_wait_ c) f /\ queue_ok is_open (open_wait_ c) f.

Record chan_inv (s : sys) : Prop := {
  ci_ring : ring_ok (s_ch s);
  ci_stream : s_sent s = s_received s ++ contents (s_ch s);
  ci_calls u cl : in_call (s_pc s u) = Some cl -> call_live cl;
  ci_queues : queues_ok (s_ch s) (s_pc s)
}.

Lemma in_call_wake us f v : in_call (wake us f v) = in_call (f v).
Proof. unfold wake. case_decide; [by destruct (f v)|done]. Qed.

Lemma calls_set u p f :
  (forall cl, in_call p = Some cl -> call_live cl) -> (forall v cl, in_call (f v) = Some cl -> call_live cl) ->
  forall v cl, in_call (set_pc u p f v) = Some cl -> call_live cl.
Proof. intros Hp Hf v cl. destruct (decide (v = u)) as [->|?]; [rewrite set_pc_eq; apply Hp|rewrite set_pc_ne by done; apply Hf]. Qed.

(** A unit that does not sleep goes where nobody sleeps. *)
Lemma queues_stay c f u p : sleeping (f u) = None -> sleeping p = None -> queues_ok c f -> queues_ok c (set_pc u p f).
Proof. intros Hu Hp (H1 & H2 & H3). split_and!; apply queue_stay; try done; by rewrite Hp. Qed.

(** Waking the units at the front of each queue. *)
Lemma queues_wake c f w1 q1 w2 q2 w3 q3 :
  read_wait_ c = w1 ++ q1 -> write_wait_ c = w2 ++ q2 -> open_wait_ c = w3 ++ q3 -> queues_ok c f ->
  queues_ok (set_queues q3 q1 q2 c) (wake (w1 ++ w2 ++ w3) f).
Proof.
  intros E1 E2 E3 (H1 & H2 & H3). rewrite E1 in H1. rewrite E2 in H2. rewrite E3 in H3.
  assert (forall v, wake w3 (wake w2 (wake w1 f)) v = wake (w1 ++ w2 ++ w3) f v) as He by (intros v; by rewrite !wake_app).
  assert (forall kind kind' w q g, (forall cl, kind cl = true -> kind' cl = false) -> queue_ok kind (w ++ q) f -> (forall v cl, sleeping (g v) = Some cl -> sleeping (f v) = Some cl) ->
    forall u cl, u ∈ w -> sleeping (g u) = Some cl -> kind' cl = false) as Hap.
  { intros kind kind' w q g Hk Hq Hg u cl Hu Hs. eapply (queue_kind kind kind'); [done|exact Hq|done|exact Hu|by apply Hg]. }
  assert (forall v cl, sleeping (wake w1 f v) = Some cl -> sleeping (f v) = Some cl) as S1 by (intros v cl; rewrite sleeping_wake; naive_solver).
  assert (forall v cl, sleeping (wake w2 (wake w1 f) v) = Some cl -> sleeping (f v) = Some cl) as S2 by (intros v cl; rewrite !sleeping_wake; naive_solver).
  split_and!; cbn; eapply queue_ext; try exact He.
  - apply queue_apart; [eapply (Hap is_open); [by intros []|done|done]|]. apply queue_apart; [eapply (Hap is_send); [by intros []|done|done]|]. by apply queue_take.
  - apply queue_apart; [eapply (Hap is_open); [by intros []|done|done]|]. apply queue_take. apply queue_apart; [eapply (Hap is_recv); [by intros []|done|done]|]. done.
  - apply queue_take. apply queue_apart; [eapply (Hap is_send); [by intros []|done|done]|]. apply queue_apart; [eapply (Hap is_recv); [by intros []|done|done]|]. done.
Qed.

Lemma queues_same c c' f : same_rest c c' -> queues_ok c f -> queues_ok c' f.
Proof. intros (_ & _ & _ & _ & _ & E1 & E2 & E3). unfold queues_ok. by rewrite E1, E2, E3. Qed.

(** What a turn does, in one place. *)
Inductive turn_effect (u : Z) (cl : call) (blocking : bool) (c : channel) : pc -> list Z -> list Z -> channel -> Prop :=
| te_return : turn_effect u cl blocking c Idle [] [] c
| te_sent data bytes c' : cl = Send data -> ring_ok c' -> contents c' = contents c ++ bytes -> same_rest c c' -> turn_effect u cl blocking c Wake_reader bytes [] c'
| te_received len bytes c' : cl = Recv len -> ring_ok c' -> contents c = bytes ++ contents c' -> same_rest c c' -> turn_effect u cl blocking c Wake_writer [] bytes c'
| te_sleep_send data : cl = Send data -> used c = capacity c -> 0 < reader_count_ c ->
    turn_effect u cl blocking c (Asleep cl) [] [] (set_queues (open_wait_ c) (read_wait_ c) (add_wait u (write_wait_ c)) c)
| te_sleep_recv len : cl = Recv len -> used c = 0 -> 0 < writer_count_ c \/ writer_generation_ c <= 0 ->
    turn_effect u cl blocking c (Asleep cl) [] [] (set_queues (open_wait_ c) (add_wait u (read_wait_ c)) (write_wait_ c) c)
| te_sleep_writer g : writer_count_ c <= 0 -> writer_generation_ c = g ->
    turn_effect u cl blocking c (Asleep (Wait_writer (Some g))) [] [] (set_queues (add_wait u (open_wait_ c)) (read_wait_ c) (write_wait_ c) c)
| te_sleep_reader g : reader_count_ c <= 0 -> reader_generation_ c = g ->
    turn_effect u cl blocking c (Asleep (Wait_reader (Some g))) [] [] (set_queues (add_wait u (open_wait_ c)) (read_wait_ c) (write_wait_ c) c).

Lemma run_turn_ok u cl blocking c :
  ring_ok c -> call_live cl -> exists p out inp c', run_turn u cl blocking c = Done (p, out, inp) c' /\ turn_effect u cl blocking c p out inp c'.
Proof.
  intros Hc Hl. destruct cl as [data|len|g|g]; unfold run_turn; rewrite bind_run.
  - destruct Hl as [Hne Hlen]. destruct (send_turn_ok (if blocking then Some u else None) data c Hc Hne Hlen) as (t & c' & -> & Ht). destruct t as [r| |bytes]; do 4 eexists; (split; [done|]).
    + destruct Ht as [-> _]. constructor.
    + destruct Ht as (v & Hv & Hu & Hr & ->). destruct blocking; [injection Hv as <-|done]. by eapply te_sleep_send.
    + destruct Ht as (_ & _ & _ & H1 & H2 & H3). by eapply te_sent.
  - destruct (recv_turn_ok (if blocking then Some u else None) len c Hc Hl) as (t & c' & -> & Ht). destruct t as [r| |bytes]; do 4 eexists; (split; [done|]).
    + destruct Ht as [-> _]. constructor.
    + destruct Ht as (v & Hv & Hu & Hr & ->). destruct blocking; [injection Hv as <-|done]. by eapply te_sleep_recv.
    + destruct Ht as (_ & _ & H1 & H2 & H3). by eapply te_received.
  - unfold wait_for_writer_turn, has_writers. rewrite bind_run. unfold get at 1. cbn iota beta. cbv zeta.
    destruct (negb _ && _) eqn:E; [|do 4 eexists; split; [done|constructor]]. apply andb_true_iff in E as [E1%negb_true_iff%Z.ltb_ge E2%Z.eqb_eq].
    do 4 eexists. split; [done|]. by constructor.
  - unfold wait_for_reader_turn, has_readers. rewrite bind_run. unfold get at 1. cbn iota beta. cbv zeta.
    destruct (negb _ && _) eqn:E; [|do 4 eexists; split; [done|constructor]]. apply andb_true_iff in E as [E1%negb_true_iff%Z.ltb_ge E2%Z.eqb_eq].
    do 4 eexists. split; [done|]. by constructor.
Qed.

Lemma run_turn_effect u cl blocking c p out inp c' :
  ring_ok c -> call_live cl -> run_turn u cl blocking c = Done (p, out, inp) c' -> turn_effect u cl blocking c p out inp c'.
Proof. intros Hc Hl E. destruct (run_turn_ok u cl blocking c Hc Hl) as (? & ? & ? & ? & E' & H). rewrite E in E'. by simplify_eq. Qed.

Lemma turn_inv s u cl blocking p out inp c :
  chan_inv s -> s_pc s u = Run cl blocking -> turn_effect u cl blocking (s_ch s) p out inp c ->
  chan_inv {| s_ch := c; s_pc := set_pc u p (s_pc s); s_sent := s_sent s ++ out; s_received := s_received s ++ inp |}.
Proof.
  intros [Hr Hs Hc Hq] Hu He. assert (sleeping (s_pc s u) = None) as Hns by (by rewrite Hu).
  assert (call_live cl) as Hl by (apply (Hc u); by rewrite Hu). pose proof Hq as (Q1 & Q2 & Q3).
  destruct He; split; cbn; rewrite ?app_nil_r; try done; try (by apply ring_ok_queues); try (apply calls_set; [cbn; naive_solver|done]);
    try (by apply queues_stay); try (eapply queues_same; [done|by apply queues_stay]).
  - by rewrite Hs, H1, app_assoc.
  - by rewrite Hs, H1, app_assoc.
  - split_and!; cbn; [by apply queue_stay; [|intros ? [= <-]; subst|]|by apply queue_sleep; subst|by apply queue_stay; [|intros ? [= <-]; subst|]].
  - split_and!; cbn; [by apply queue_sleep; subst|by apply queue_stay; [|intros ? [= <-]; subst|]|by apply queue_stay; [|intros ? [= <-]; subst|]].
  - split_and!; cbn; [by apply queue_stay; [|intros ? [= <-]; subst|]|by apply queue_stay; [|intros ? [= <-]; subst|]|by apply queue_sleep].
  - split_and!; cbn; [by apply queue_stay; [|intros ? [= <-]; subst|]|by apply queue_stay; [|intros ? [= <-]; subst|]|by apply queue_sleep].
Qed.

(** Waking, with changes to the counts. *)
Lemma wake_inv s w1 q1 w2 q2 w3 q3 c :
  chan_inv s -> read_wait_ (s_ch s) = w1 ++ q1 -> write_wait_ (s_ch s) = w2 ++ q2 -> open_wait_ (s_ch s) = w3 ++ q3 ->
  ring_ok c -> contents c = contents (s_ch s) -> read_wait_ c = q1 -> write_wait_ c = q2 -> open_wait_ c = q3 ->
  chan_inv {| s_ch := c; s_pc := wake (w1 ++ w2 ++ w3) (s_pc s); s_sent := s_sent s; s_received := s_received s |}.
Proof.
  intros [Hr Hs Hc Hq] E1 E2 E3 Hr' Hc' F1 F2 F3. split; cbn; [done|by rewrite Hc'|intros u cl; rewrite in_call_wake; apply Hc|].
  pose proof (queues_wake (s_ch s) (s_pc s) w1 q1 w2 q2 w3 q3 E1 E2 E3 Hq) as (K1 & K2 & K3). unfold queues_ok. by rewrite F1, F2, F3.
Qed.

Lemma idle_inv s u : chan_inv s -> sleeping (s_pc s u) = None -> chan_inv {| s_ch := s_ch s; s_pc := set_pc u Idle (s_pc s); s_sent := s_sent s; s_received := s_received s |}.
Proof. intros [Hr Hs Hc Hq] Hu. split; cbn; [done|done|apply calls_set; [done|apply Hc]|by apply queues_stay]. Qed.

Lemma counts_ok c r w rg wg o q1 q2 :
  ring_ok c -> 0 <= r <= INT32_MAX -> 0 <= w <= INT32_MAX -> ring_ok (set_queues o q1 q2 (set_counts r w rg wg c)).
Proof. intros [] ? ?. by split. Qed.

Section steps.
Context (may : Z -> call -> Prop).

Lemma chan_step_inv s s' : chan_inv s -> chan_sys may s s' -> chan_inv s'.
Proof.
  intros Hi Hstep. pose proof Hi as [Hr Hs Hc Hq]. pose proof Hr as [? ? ? ? ? HR HW]. unfold INT32_MAX in HR, HW. destruct Hstep.
  - split; cbn; [done|done|apply calls_set; [|apply Hc]; destruct cl; cbn in *; naive_solver lia|apply queues_stay; [by rewrite H|done|done]].
  - eapply turn_inv; [done..|]. apply run_turn_effect; [done| |done]. apply (Hc u). by rewrite H.
  - apply wake_one_app in H0. assert (sleeping (s_pc s u) = None) as Hu by (by rewrite H).
    pose proof (wake_inv s woken q [] (write_wait_ (s_ch s)) [] (open_wait_ (s_ch s)) (set_queues (open_wait_ (s_ch s)) q (write_wait_ (s_ch s)) (s_ch s)) Hi) as Hw.
    rewrite app_nil_r in Hw. apply (idle_inv {| s_ch := _; s_pc := _; s_sent := s_sent s; s_received := s_received s |}); [apply Hw; try done; by apply ring_ok_queues|].
    cbn. unfold wake. rewrite H. by case_decide.
  - apply wake_one_app in H0. assert (sleeping (s_pc s u) = None) as Hu by (by rewrite H).
    pose proof (wake_inv s [] (read_wait_ (s_ch s)) woken q [] (open_wait_ (s_ch s)) (set_queues (open_wait_ (s_ch s)) (read_wait_ (s_ch s)) q (s_ch s)) Hi) as Hw.
    rewrite app_nil_r in Hw. apply (idle_inv {| s_ch := _; s_pc := _; s_sent := s_sent s; s_received := s_received s |}); [apply Hw; try done; by apply ring_ok_queues|].
    cbn. unfold wake. rewrite H. by case_decide.
  - injection H0 as <- <-. apply (wake_inv s [] (read_wait_ (s_ch s)) [] (write_wait_ (s_ch s)) (open_wait_ (s_ch s)) []); try done; [by rewrite app_nil_r|].
    apply counts_ok; [done| |done]. rewrite i32_id; unfold INT32_MIN, INT32_MAX in *; lia.
  - injection H0 as <- <-. apply (wake_inv s [] (read_wait_ (s_ch s)) [] (write_wait_ (s_ch s)) (open_wait_ (s_ch s)) []); try done; [by rewrite app_nil_r|].
    apply counts_ok; [done|done|]. rewrite i32_id; unfold INT32_MIN, INT32_MAX in *; lia.
  - unfold remove_reader in H0. rewrite i32_id in H0 by (unfold INT32_MIN, INT32_MAX; lia). cbn in H0. destruct (_ - 1 =? 0); [injection H0 as <- _ <-|injection H0 as <- <-].
    + apply (wake_inv s [] (read_wait_ (s_ch s)) (write_wait_ (s_ch s)) [] (open_wait_ (s_ch s)) []); try done; [by rewrite app_nil_r..|].
      apply counts_ok; [done| |done]. unfold INT32_MAX. lia.
    + apply (wake_inv s [] (read_wait_ (s_ch s)) [] (write_wait_ (s_ch s)) [] (open_wait_ (s_ch s))); try done. split; cbn; try done. unfold INT32_MAX. lia.
  - unfold remove_writer in H0. rewrite i32_id in H0 by (unfold INT32_MIN, INT32_MAX; lia). cbn in H0. destruct (_ - 1 =? 0); [injection H0 as <- _ <-|injection H0 as <- <-].
    + apply (wake_inv s (read_wait_ (s_ch s)) [] [] (write_wait_ (s_ch s)) (open_wait_ (s_ch s)) []); try done; [by rewrite app_nil_r..|].
      apply counts_ok; [done|done|]. unfold INT32_MAX. lia.
    + apply (wake_inv s [] (read_wait_ (s_ch s)) [] (write_wait_ (s_ch s)) [] (open_wait_ (s_ch s))); try done. split; cbn; try done. unfold INT32_MAX. lia.
Qed.

Lemma chan_start_inv block : 0 < zlen block <= INT64_MAX -> chan_inv (chan_start block).
Proof.
  intros Hb. split; cbn; [split; cbn; try done; unfold INT32_MAX; lia|done|done|]. split_and!; cbn; (split; [constructor|]); intros u; (split; [by intros ?%not_elem_of_nil|by intros (? & ? & _)]).
Qed.

Lemma chan_reach_inv block s : 0 < zlen block <= INT64_MAX -> rtc (chan_sys may) (chan_start block) s -> chan_inv s.
Proof. intros Hb. apply (rtc_ind_r chan_inv); [by apply chan_start_inv|]. intros s1 s2 _ Hs Hi. by eapply chan_step_inv. Qed.
End steps.

(** ** Waking up *)

(** Why a reader may sleep, and why a writer may. *)
Definition nothing_to_read (c : channel) : Prop := used c = 0 /\ (0 < writer_count_ c \/ writer_generation_ c <= 0).
Definition no_room (c : channel) : Prop := used c = capacity c /\ 0 < reader_count_ c.

Definition readers_wake (s : sys) : Prop :=
  forall u len, sleeping (s_pc s u) = Some (Recv len) -> nothing_to_read (s_ch s) \/ exists v, s_pc s v = Wake_reader.
Definition writers_wake (s : sys) : Prop :=
  forall u data, sleeping (s_pc s u) = Some (Send data) -> no_room (s_ch s) \/ exists v, s_pc s v = Wake_writer.

(** The calls units are in are calls they make. *)
Definition calls_may (may : Z -> call -> Prop) (s : sys) : Prop :=
  forall u cl, in_call (s_pc s u) = Some cl -> is_recv cl || is_send cl = true -> may u cl.

Definition awake_pc (p : pc) : bool := match p with Wake_reader | Wake_writer => true | _ => false end.

Lemma wake_keep us f v p : awake_pc p = true -> f v = p -> wake us f v = p.
Proof. intros Hp Hv. unfold wake. rewrite Hv. case_decide; [by destruct p|done]. Qed.

Lemma set_keep u f v p q : awake_pc p = true -> f u <> p -> f v = p -> set_pc u q f v = p.
Proof. intros Hp Hu Hv. rewrite set_pc_ne; [done|]. intros ->. done. Qed.

Lemma sleeping_set u p f v cl : sleeping p = None -> sleeping (set_pc u p f v) = Some cl -> v <> u /\ sleeping (f v) = Some cl.
Proof. intros Hp. destruct (decide (v = u)) as [->|?]; [rewrite set_pc_eq, Hp; done|by rewrite set_pc_ne]. Qed.

Lemma in_call_set u p f v cl : in_call (set_pc u p f v) = Some cl -> v = u /\ in_call p = Some cl \/ in_call (f v) = Some cl.
Proof. destruct (decide (v = u)) as [->|?]; [rewrite set_pc_eq; by left|rewrite set_pc_ne by done; by right]. Qed.

Lemma sleeping_in_call p cl : sleeping p = Some cl -> in_call p = Some cl.
Proof. by destruct p. Qed.

(** The old reason still holds: the unit has nothing to do, or its waker is [k]ept. *)
Ltac same_reason Hw Hx k := let v := fresh in destruct (Hw _ _ Hx) as [?|[v ?]]; [by left|right; exists v; by apply k].

(** The unit that took the turn sleeps in another call. *)
Ltac not_the_sleeper Hx := match type of Hx with sleeping (set_pc ?u _ _ ?x) = _ => destruct (decide (x = u)) as [->|?]; [rewrite set_pc_eq in Hx; simplify_eq/=|rewrite set_pc_ne in Hx by done] end.

Section wakeups.
Context (may : Z -> call -> Prop).

Lemma calls_may_step s s' : chan_inv s -> calls_may may s -> chan_sys may s s' -> calls_may may s'.
Proof.
  intros Hi Hm Hstep u cl. destruct Hstep; cbn; rewrite ?in_call_wake; try apply Hm.
  - intros [[-> [= ->]]|Hc]%in_call_set Hk; [done|by apply Hm].
  - intros [[-> Hc]|Hc]%in_call_set Hk; [|by apply Hm].
    apply run_turn_effect in H0; [|apply Hi|apply (ci_calls s Hi u0); by rewrite H]. apply (Hm u0); [|done]. rewrite H. destruct H0; cbn in *; simplify_eq; done.
  - intros [[-> Hc]|Hc]%in_call_set Hk; [done|]. rewrite in_call_wake in Hc. by apply Hm.
  - intros [[-> Hc]|Hc]%in_call_set Hk; [done|]. rewrite in_call_wake in Hc. by apply Hm.
Qed.

Lemma readers_wake_step s s' :
  (forall u v l l', may u (Recv l) -> may v (Recv l') -> u = v) ->
  chan_inv s -> calls_may may s -> readers_wake s -> chan_sys may s s' -> readers_wake s'.
Proof.
  intros Hone Hi Hm Hw Hstep. pose proof (chan_step_inv may s s' Hi Hstep) as Hi'. pose proof Hi as [Hr _ Hc _]. pose proof Hr as [_ _ _ _ _ HR HW]. unfold INT32_MAX in *.
  assert (forall u v l l', in_call (s_pc s u) = Some (Recv l) -> in_call (s_pc s v) = Some (Recv l') -> u = v) as Huniq.
  { intros u v l l' H1 H2. eapply Hone; [by apply (Hm u)|by apply (Hm v)]. }
  destruct Hstep; intros x l Hx; cbn [s_ch s_pc] in *.
  - apply sleeping_set in Hx as [Hne Hx]; [|done]. destruct (Hw x l Hx) as [?|[v Hv]]; [by left|right]. exists v. apply set_keep; [done|congruence|done].
  - assert (call_live cl) as Hl by (apply (Hc u); by rewrite H). apply run_turn_effect in H0; [|done|done].
    assert (forall v, s_pc s v = Wake_reader -> set_pc u p (s_pc s) v = Wake_reader) as Hk by (intros v; apply set_keep; [done|congruence]).
    destruct H0.
    + apply sleeping_set in Hx as [Hne Hx]; [|done]. same_reason Hw Hx Hk.
    + right. exists u. apply set_pc_eq.
    + apply sleeping_set in Hx as [Hne Hx]; [|done]. destruct Hne. eapply Huniq; [by apply sleeping_in_call|]. by rewrite H, H0.
    + not_the_sleeper Hx. same_reason Hw Hx Hk.
    + by left.
    + not_the_sleeper Hx. same_reason Hw Hx Hk.
    + not_the_sleeper Hx. same_reason Hw Hx Hk.
  - apply sleeping_set in Hx as [Hne [Hnw Hx]%sleeping_wake]; [|done]. destruct Hnw.
    destruct (ci_queues s Hi) as [[_ Hq] _]. assert (x ∈ read_wait_ (s_ch s)) as Hin by (apply Hq; eauto).
    destruct (read_wait_ (s_ch s)) as [|y q0] eqn:Eq; [by apply not_elem_of_nil in Hin|]. injection H0 as <- <-.
    destruct (proj1 (Hq y)) as ([] & Hy & ?); [set_solver|done| |done|done]. rewrite (Huniq x y l len) by (by apply sleeping_in_call). set_solver.
  - apply sleeping_set in Hx as [Hne [Hnw Hx]%sleeping_wake]; [|done]. destruct (Hw x l Hx) as [?|[v Hv]]; [by left|right].
    exists v. apply set_keep; [done| |by apply wake_keep]. rewrite (wake_keep _ _ _ Wake_writer); done.
  - apply sleeping_wake in Hx as [_ Hx]. injection H0 as <- <-. same_reason Hw Hx wake_keep.
  - apply sleeping_wake in Hx as [_ Hx]. injection H0 as <- <-. destruct (Hw x l Hx) as [[Hu _]|[v Hv]]; [left|right; exists v; by apply wake_keep].
    split; [done|]. left. cbn. rewrite i32_id; unfold INT32_MIN, INT32_MAX in *; lia.
  - apply sleeping_wake in Hx as [_ Hx]. unfold remove_reader in H0. cbn in H0. destruct (_ =? 0); simplify_eq/=; same_reason Hw Hx wake_keep.
  - destruct (ci_queues _ Hi') as [[_ Hq'] _]. cbn in Hq'. assert (x ∈ read_wait_ c) as Hin by (apply Hq'; eauto).
    apply sleeping_wake in Hx as [_ Hx]. unfold remove_writer in H0. rewrite i32_id in H0 by (unfold INT32_MIN, INT32_MAX; lia). cbn in H0.
    destruct (Z.eqb_spec (writer_count_ (s_ch s) - 1) 0); simplify_eq/=; [by apply not_elem_of_nil in Hin|].
    destruct (Hw x l Hx) as [[Hu _]|[v Hv]]; [left; split; [done|left; cbn; lia]|right; exists v; by apply wake_keep].
Qed.

Lemma writers_wake_step s s' :
  (forall u v d d', may u (Send d) -> may v (Send d') -> u = v) ->
  chan_inv s -> calls_may may s -> writers_wake s -> chan_sys may s s' -> writers_wake s'.
Proof.
  intros Hone Hi Hm Hw Hstep. pose proof (chan_step_inv may s s' Hi Hstep) as Hi'. pose proof Hi as [Hr _ Hc _]. pose proof Hr as [_ _ _ _ _ HR HW]. unfold INT32_MAX in *.
  assert (forall u v l l', in_call (s_pc s u) = Some (Send l) -> in_call (s_pc s v) = Some (Send l') -> u = v) as Huniq.
  { intros u v l l' H1 H2. eapply Hone; [by apply (Hm u)|by apply (Hm v)]. }
  destruct Hstep; intros x l Hx; cbn [s_ch s_pc] in *.
  - apply sleeping_set in Hx as [Hne Hx]; [|done]. destruct (Hw x l Hx) as [?|[v Hv]]; [by left|right]. exists v. apply set_keep; [done|congruence|done].
  - assert (call_live cl) as Hl by (apply (Hc u); by rewrite H). apply run_turn_effect in H0; [|done|done].
    assert (forall v, s_pc s v = Wake_writer -> set_pc u p (s_pc s) v = Wake_writer) as Hk by (intros v; apply set_keep; [done|congruence]).
    destruct H0.
    + apply sleeping_set in Hx as [Hne Hx]; [|done]. same_reason Hw Hx Hk.
    + apply sleeping_set in Hx as [Hne Hx]; [|done]. destruct Hne. eapply Huniq; [by apply sleeping_in_call|]. by rewrite H, H0.
    + right. exists u. apply set_pc_eq.
    + by left.
    + not_the_sleeper Hx. same_reason Hw Hx Hk.
    + not_the_sleeper Hx. same_reason Hw Hx Hk.
    + not_the_sleeper Hx. same_reason Hw Hx Hk.
  - apply sleeping_set in Hx as [Hne [Hnw Hx]%sleeping_wake]; [|done]. destruct (Hw x l Hx) as [?|[v Hv]]; [by left|right].
    exists v. apply set_keep; [done| |by apply wake_keep]. rewrite (wake_keep _ _ _ Wake_reader); done.
  - apply sleeping_set in Hx as [Hne [Hnw Hx]%sleeping_wake]; [|done]. destruct Hnw.
    destruct (ci_queues s Hi) as (_ & [_ Hq] & _). assert (x ∈ write_wait_ (s_ch s)) as Hin by (apply Hq; eauto).
    destruct (write_wait_ (s_ch s)) as [|y q0] eqn:Eq; [by apply not_elem_of_nil in Hin|]. injection H0 as <- <-.
    destruct (proj1 (Hq y)) as ([] & Hy & ?); [set_solver| |done|done|done]. rewrite (Huniq x y l data) by (by apply sleeping_in_call). set_solver.
  - apply sleeping_wake in Hx as [_ Hx]. injection H0 as <- <-. destruct (Hw x l Hx) as [[Hu _]|[v Hv]]; [left|right; exists v; by apply wake_keep].
    split; [done|]. cbn. rewrite i32_id; unfold INT32_MIN, INT32_MAX in *; lia.
  - apply sleeping_wake in Hx as [_ Hx]. injection H0 as <- <-. same_reason Hw Hx wake_keep.
  - destruct (ci_queues _ Hi') as (_ & [_ Hq'] & _). cbn in Hq'. assert (x ∈ write_wait_ c) as Hin by (apply Hq'; eauto).
    apply sleeping_wake in Hx as [_ Hx]. unfold remove_reader in H0. rewrite i32_id in H0 by (unfold INT32_MIN, INT32_MAX; lia). cbn in H0.
    destruct (Z.eqb_spec (reader_count_ (s_ch s) - 1) 0); simplify_eq/=; [by apply not_elem_of_nil in Hin|].
    destruct (Hw x l Hx) as [[Hu _]|[v Hv]]; [left; split; [done|cbn; lia]|right; exists v; by apply wake_keep].
  - apply sleeping_wake in Hx as [_ Hx]. unfold remove_writer in H0. cbn in H0. destruct (_ =? 0); simplify_eq/=; same_reason Hw Hx wake_keep.
Qed.

Lemma calls_may_reach block s : 0 < zlen block <= INT64_MAX -> rtc (chan_sys may) (chan_start block) s -> chan_inv s /\ calls_may may s.
Proof.
  intros Hb. apply (rtc_ind_r (fun s => chan_inv s /\ calls_may may s)); [split; [by apply chan_start_inv|done]|].
  intros s1 s2 _ Hs [Hi Hm]. split; [by eapply chan_step_inv|by eapply calls_may_step].
Qed.
End wakeups.

(** ** The claims *)

(** C7. Whatever units send and receive on a channel, blocking or not, and
    whoever opens and closes ends meanwhile: the bytes received so far, followed
    by those in the buffer, are exactly the bytes sent so far, in order; the
    buffer never holds more than its capacity, and no index leaves it. *)
Theorem channel_stream may block s :
  0 < zlen block <= INT64_MAX -> rtc (chan_sys may) (chan_start block) s ->
  s_sent s = s_received s ++ contents (s_ch s) /\ ring_ok (s_ch s).
Proof. intros Hb Hs. pose proof (chan_reach_inv may block s Hb Hs) as []. done. Qed.

(** C33. A call never gets stuck: in every reachable state each unit in front of
    the lock can take its turn, no access leaves the buffer, and a unit that
    sleeps is in the queue of its call, once. *)
Theorem channel_progress may block s u cl blocking :
  0 < zlen block <= INT64_MAX -> rtc (chan_sys may) (chan_start block) s ->
  (s_pc s u = Run cl blocking -> exists p out inp c, run_turn u cl blocking (s_ch s) = Done (p, out, inp) c) /\ queues_ok (s_ch s) (s_pc s).
Proof.
  intros Hb Hs. pose proof (chan_reach_inv may block s Hb Hs) as [Hr _ Hc Hq]. split; [|done]. intros Hu.
  destruct (run_turn_ok u cl blocking (s_ch s) Hr) as (p & out & inp & c & E & _); [apply (Hc u); by rewrite Hu|]. eauto.
Qed.

(** C8. No wake-up is lost on a channel with one receiving and one sending unit:
    a receiver sleeps only while the buffer is empty and a writer may still come,
    a sender only while it is full and a reader is there, or a unit is about to
    wake them. *)
Theorem channel_no_lost_wakeup may block s u :
  0 < zlen block <= INT64_MAX -> rtc (chan_sys may) (chan_start block) s ->
  (forall v w l l', may v (Recv l) -> may w (Recv l') -> v = w) -> (forall v w d d', may v (Send d) -> may w (Send d') -> v = w) ->
  (forall len, s_pc s u = Asleep (Recv len) -> nothing_to_read (s_ch s) \/ exists v, s_pc s v = Wake_reader) /\
  (forall data, s_pc s u = Asleep (Send data) -> no_room (s_ch s) \/ exists v, s_pc s v = Wake_writer).
Proof.
  intros Hb Hs H1 H2. enough (readers_wake s /\ writers_wake s) as [Hr Hw] by (split; intros x Hx; [apply (Hr u x)|apply (Hw u x)]; by rewrite Hx).
  revert Hs. apply (rtc_ind_r (fun s => readers_wake s /\ writers_wake s)); [by split|]. intros s1 s2 Hs1 Hst [IH1 IH2].
  destruct (calls_may_reach may block s1 Hb Hs1) as [Hi Hm]. split; [by eapply readers_wake_step|by eapply writers_wake_step].
Qed.

(** ** Polling *)

Definition flag (mask bit : Z) : bool := negb (Z.land mask bit =? 0).

Lemma poll_flags c :
  exists mask, poll true true c = Done mask c /\ flag mask POLLIN = (0 <? used c) || negb (has_writers c) /\ flag mask POLLHUP = negb (has_writers c) /\
    flag mask POLLOUT = (used c <? capacity c) && has_readers c /\ flag mask POLLERR = negb (has_readers c).
Proof.
  eexists. split; [done|]. cbv beta. destruct (has_writers c), (has_readers c), (0 <? used c), (used c <? capacity c); by vm_compute.
Qed.

(** The ends of a channel, which sending and receiving leave alone. *)
Definition same_ends (c c' : channel) : Prop :=
  reader_count_ c' = reader_count_ c /\ writer_count_ c' = writer_count_ c /\ writer_generation_ c' = writer_generation_ c /\ capacity c' = capacity c.

Lemma same_rest_ends c c' : same_rest c c' -> same_ends c c'.
Proof. unfold same_rest, same_ends. naive_solver. Qed.

(** A call that does not block never waits in a queue. *)
Lemma recv_ok len c :
  ring_ok c -> 0 < len -> exists r bytes woken c', recv len c = Done (r, bytes, woken) c' /\ ring_ok c' /\ contents c = bytes ++ contents c' /\ same_ends c c' /\
    r = (if 0 <? used c then Z.min len (used c) else if negb (has_writers c) && (0 <? writer_generation_ c) then 0 else - EAGAIN) /\
    bytes = slice 0 (Z.max 0 r) (contents c).
Proof.
  intros Hc Hl. pose proof Hc as []. unfold recv. rewrite (proj2 (Z.eqb_neq _ _)), bind_run by lia. destruct (recv_turn_ok None len c Hc Hl) as (t & c' & -> & Ht).
  destruct t as [r| |bytes]; [|by destruct Ht as (? & ? & _)|].
  - destruct Ht as (-> & Hu & Hr). exists r, [], [], c. rewrite ret_run. split_and!; try done; [rewrite Hu; cbn|by destruct Hr as [(-> & _)|(-> & _)]].
    unfold has_writers. destruct Hr as [(-> & -> & Hg)|(-> & _ & Hg)]; [by rewrite (proj2 (Z.ltb_lt _ _) Hg)|]. zcase; zcase; cbn; (done || lia).
  - destruct Ht as (Hb & Hu & Hr & Hcont & He%same_rest_ends). destruct (wake_one (write_wait_ c')) as [woken q] eqn:E. do 4 eexists. split; [done|].
    split; [by apply ring_ok_queues|]. split; [done|]. split; [done|]. rewrite (proj2 (Z.ltb_lt _ _)) by done. assert (zlen bytes = Z.min len (used c)) as Hz by (rewrite Hb; apply slice_length; [lia|lia|]; rewrite contents_length by done; lia).
    split; [done|]. rewrite Hz, Z.max_r by lia. done.
Qed.

Lemma send_ok data c :
  ring_ok c -> data <> [] -> zlen data <= SIZE_MAX -> exists r woken c', send data c = Done (r, woken) c' /\ ring_ok c' /\ contents c' = contents c ++ slice 0 (Z.max 0 r) data /\ same_ends c c' /\
    r = (if negb (has_readers c) then - EPIPE else if used c <? capacity c then Z.min (zlen data) (capacity c - used c) else - EAGAIN).
Proof.
  intros Hc Hne Hlen. pose proof Hc as []. assert (0 < zlen data) by (destruct data; [done|cbn [length]; lia]).
  unfold send. rewrite (proj2 (Z.eqb_neq _ _)), bind_run by lia. destruct (send_turn_ok None data c Hc Hne Hlen) as (t & c' & -> & Ht).
  unfold has_readers. destruct t as [r| |bytes]; [|by destruct Ht as (? & ? & _)|].
  - destruct Ht as (-> & Hr). exists r, [], c. rewrite ret_run. destruct Hr as [(-> & ->)|(-> & _ & -> & Hr)]; [by rewrite app_nil_r|].
    rewrite Z.ltb_irrefl, (proj2 (Z.ltb_lt _ _)) by lia. by rewrite app_nil_r.
  - destruct Ht as (Hb & Hr & Hu & Hr' & Hcont & He%same_rest_ends). destruct (wake_one (read_wait_ c')) as [woken q] eqn:E. do 3 eexists. split; [done|].
    split; [by apply ring_ok_queues|]. assert (zlen bytes = Z.min (zlen data) (capacity c - used c)) as Hz by (rewrite Hb; apply slice_length; unfold room; lia).
    rewrite Hz. rewrite !(proj2 (Z.ltb_lt _ _)) by lia. split; [|by split]. rewrite Z.max_r by lia. rewrite contents_queues, Hcont, Hb. done.
Qed.

(** [poll] says what the next call will do, for a channel that has had a
    writer: POLLIN is set exactly when [recv] does not answer EAGAIN, POLLOUT
    exactly when [send] takes at least one byte, POLLERR exactly when it answers
    EPIPE, and POLLHUP without data exactly when [recv] reports the end. *)
Theorem poll_predicts c len data :
  ring_ok c -> 0 < writer_generation_ c -> 0 < len -> data <> [] -> zlen data <= SIZE_MAX ->
  exists mask r bytes woken c1 r' woken' c2,
    poll true true c = Done mask c /\ recv len c = Done (r, bytes, woken) c1 /\ send data c = Done (r', woken') c2 /\
    (flag mask POLLIN = true <-> r <> - EAGAIN) /\ (flag mask POLLOUT = true <-> 0 < r') /\ (flag mask POLLERR = true <-> r' = - EPIPE) /\
    (flag mask POLLHUP = true /\ used c = 0 <-> r = 0).
Proof.
  intros Hc Hg Hl Hne Hlen. pose proof Hc as []. assert (0 < zlen data) by (destruct data; [done|cbn [length]; lia]).
  destruct (poll_flags c) as (mask & Em & F1 & F2 & F3 & F4). destruct (recv_ok len c Hc Hl) as (r & bytes & woken & c1 & E1 & _ & _ & _ & Hr).
  destruct (send_ok data c Hc Hne Hlen) as (r' & woken' & c2 & E2 & _ & _ & _ & Hr'). do 8 eexists. split; [done|]. split; [done|]. split; [done|]. rewrite F1, F2, F3, F4.
  rewrite (proj2 (Z.ltb_lt 0 (writer_generation_ c)) Hg), andb_true_r in Hr. unfold EAGAIN, EPIPE in *.
  destruct (has_writers c), (has_readers c), (Z.ltb_spec 0 (used c)), (Z.ltb_spec (used c) (capacity c)); cbn in *; subst; split_and!; split; intros; (done || lia || naive_solver lia).
Qed.

(** ** Runs *)

(** Runs of the system given as lists of moves. *)
Inductive move := M_call (u : Z) (cl : call) | M_turn (u : Z) | M_wake (u : Z) | M_add_reader | M_add_writer | M_remove_writer.

Definition call_okb (cl : call) : bool :=
  match cl with Send data => (0 <? zlen data) && (zlen data <=? SIZE_MAX) | Recv len => (0 <? len) && (len <=? SIZE_MAX) | Wait_writer None | Wait_reader None => true | _ => false end.

Definition with_ch (c : channel) (f : Z -> pc) (s : sys) : sys := {| s_ch := c; s_pc := f; s_sent := s_sent s; s_received := s_received s |}.

Definition do_move (s : sys) (v : move) : option sys :=
  match v with
  | M_call u cl => if bool_decide (s_pc s u = Idle) && call_okb cl then Some (with_ch (s_ch s) (set_pc u (Run cl true) (s_pc s)) s) else None
  | M_turn u =>
      match s_pc s u with
      | Run cl blocking =>
          match run_turn u cl blocking (s_ch s) with
          | Done (p, out, inp) c => Some {| s_ch := c; s_pc := set_pc u p (s_pc s); s_sent := s_sent s ++ out; s_received := s_received s ++ inp |}
          | _ => None
          end
      | _ => None
      end
  | M_wake u =>
      let c := s_ch s in
      match s_pc s u with
      | Wake_reader => let '(woken, q) := wake_one (read_wait_ c) in Some (with_ch (set_queues (open_wait_ c) q (write_wait_ c) c) (set_pc u Idle (wake woken (s_pc s))) s)
      | Wake_writer => let '(woken, q) := wake_one (write_wait_ c) in Some (with_ch (set_queues (open_wait_ c) (read_wait_ c) q c) (set_pc u Idle (wake woken (s_pc s))) s)
      | _ => None
      end
  | M_add_reader => if reader_count_ (s_ch s) <? INT32_MAX then match add_reader (s_ch s) with Done woken c => Some (with_ch c (wake woken (s_pc s)) s) | _ => None end else None
  | M_add_writer => if writer_count_ (s_ch s) <? INT32_MAX then match add_writer (s_ch s) with Done woken c => Some (with_ch c (wake woken (s_pc s)) s) | _ => None end else None
  | M_remove_writer => if 0 <? writer_count_ (s_ch s) then match remove_writer (s_ch s) with Done (woken, false) c => Some (with_ch c (wake woken (s_pc s)) s) | _ => None end else None
  end.

Definition do_moves (s : sys) (vs : list move) : option sys := foldl (fun o v => s ← o; do_move s v) (Some s) vs.

Definition caller (v : move) : list Z := match v with M_call u _ | M_turn u | M_wake u => [u] | _ => [] end.

Lemma call_okb_ok cl : call_okb cl = true -> call_ok cl.
Proof. destruct cl as [d|l|[]|[]]; cbn; try done; rewrite andb_true_iff, Z.ltb_lt, Z.leb_le; [|done]. intros []. split; [by destruct d|done]. Qed.

Lemma chan_move_sys may s v s' : (forall u cl, v = M_call u cl -> may u cl) -> do_move s v = Some s' -> chan_sys may s s'.
Proof.
  intros Hm. destruct v; cbn.
  - destruct (bool_decide _ && _) eqn:E; [|done]. intros [= <-]. apply andb_true_iff in E as [E1%bool_decide_eq_true E2]. apply do_call; try done; [by apply call_okb_ok|by apply Hm|by left].
  - destruct (s_pc s u) eqn:Eu; try done. destruct (run_turn u cl blocking (s_ch s)) as [[[p out] inp] c| |] eqn:E; try done. intros [= <-]. by eapply do_turn.
  - destruct (s_pc s u) eqn:Eu; try done; [destruct (wake_one (read_wait_ _)) as [woken q] eqn:E|destruct (wake_one (write_wait_ _)) as [woken q] eqn:E]; intros [= <-]; [by apply do_wake_reader|by apply do_wake_writer].
  - destruct (Z.ltb_spec (reader_count_ (s_ch s)) INT32_MAX); [|done]. intros [= <-]. by apply do_add_reader.
  - destruct (Z.ltb_spec (writer_count_ (s_ch s)) INT32_MAX); [|done]. intros [= <-]. by apply do_add_writer.
  - destruct (Z.ltb_spec 0 (writer_count_ (s_ch s))); [|done]. destruct (remove_writer (s_ch s)) as [[woken []] c| |] eqn:E; try done. intros [= <-]. by apply do_remove_writer.
Qed.

Lemma chan_moves_rtc may vs s s' : (forall u cl, M_call u cl ∈ vs -> may u cl) -> do_moves s vs = Some s' -> rtc (chan_sys may) s s'.
Proof.
  revert s'. induction vs as [|v vs IH] using rev_ind; intros s' Hm; unfold do_moves; [by intros [= ->]|]. rewrite foldl_app. cbn.
  fold (do_moves s vs). destruct (do_moves s vs) as [s1|] eqn:E; [|done]. cbn. intros H. eapply rtc_r; [apply IH; [|done]; intros; apply Hm; set_solver|].
  eapply chan_move_sys; [|done]. intros u cl ->. apply Hm. set_solver.
Qed.

(** A unit that makes no call and is not asleep stays as it is. *)
Lemma chan_moves_others vs s s' u : do_moves s vs = Some s' -> s_pc s u = Idle -> Forall (fun v => u ∉ caller v) vs -> s_pc s' u = Idle.
Proof.
  revert s'. induction vs as [|v vs IH] using rev_ind; intros s'; unfold do_moves; [by intros [= ->]|]. rewrite foldl_app. cbn.
  fold (do_moves s vs). destruct (do_moves s vs) as [s1|] eqn:E; [|done]. cbn. intros H Hu [Hvs [Hv _]%Forall_cons]%Forall_app. specialize (IH s1 eq_refl Hu Hvs).
  assert (forall w, wake w (s_pc s1) u = Idle) as Hw by (intros w; unfold wake; rewrite IH; by case_decide).
  destruct v; cbn in H, Hv; repeat case_match; simplify_eq; cbn; rewrite ?set_pc_ne by set_solver; done.
Qed.

Definition demo_block : list Z := replicate 4 0.

(** Units 1 and 2 wait for data; unit 3 sends three bytes and wakes unit 1, which
    takes one of them and goes on. *)
Definition stranding : list move :=
  [M_add_reader; M_add_writer; M_call 1 (Recv 1); M_turn 1; M_call 2 (Recv 1); M_turn 2; M_call 3 (Send [10; 11; 12]); M_turn 3; M_wake 3; M_turn 1; M_wake 1].

(** C38. With two receivers a wake-up can be lost: [send] wakes one of them, and a
    receiver that leaves bytes behind wakes nobody. A receiver then sleeps although
    the buffer holds data, and no unit is about to do anything. *)
Theorem channel_strands_reader :
  exists s, rtc (chan_sys (fun _ _ => True)) (chan_start demo_block) s /\ contents (s_ch s) = [11; 12] /\
    s_pc s 2 = Asleep (Recv 1) /\ forall u, u <> 2 -> s_pc s u = Idle.
Proof.
  destruct (do_moves (chan_start demo_block) stranding) as [s|] eqn:E; [|by vm_compute in E]. exists s. split; [by eapply chan_moves_rtc|].
  assert (s_pc s 1 = Idle /\ s_pc s 3 = Idle /\ s_pc s 2 = Asleep (Recv 1) /\ contents (s_ch s) = [11; 12]) as (H1 & H3 & H2 & Hc) by (vm_compute in E; injection E as <-; done).
  split; [exact Hc|]. split; [exact H2|]. intros u Hu. destruct (decide (u = 1)) as [->|]; [exact H1|]. destruct (decide (u = 3)) as [->|]; [exact H3|].
  eapply chan_moves_others; [exact E|reflexivity|]. clear - Hu n n0. unfold stranding. repeat constructor; cbn [caller]; rewrite ?list_elem_of_singleton; (by apply not_elem_of_nil) || lia.
Qed.

(** ** The hypotheses can be met *)

(** Unit 1 receives and unit 2 sends. *)
Definition pair_may (u : Z) (cl : call) : Prop := match cl with Recv _ => u = 1 | Send _ => u = 2 | _ => True end.

(** The receiver waits, is woken by the sender, takes two bytes, and waits for
    the third; the sender fills the buffer and waits. *)
Definition pair_run : list move :=
  [M_add_reader; M_add_writer; M_call 1 (Recv 2); M_turn 1; M_call 2 (Send [1; 2; 3; 4; 5; 6]); M_turn 2; M_wake 2; M_turn 1; M_wake 1;
   M_call 2 (Send [5; 6; 7]); M_turn 2; M_wake 2; M_call 2 (Send [7]); M_turn 2].

Lemma pair_reach : exists s, rtc (chan_sys pair_may) (chan_start demo_block) s /\ s_received s = [1; 2] /\ s_sent s = [1; 2; 3; 4; 5; 6] /\ s_pc s 2 = Asleep (Send [7]).
Proof.
  destruct (do_moves (chan_start demo_block) pair_run) as [s|] eqn:E; [|by vm_compute in E]. exists s. split.
  - apply (chan_moves_rtc pair_may pair_run); [clear E s|exact E]. intros u cl Hin. unfold pair_run in Hin. repeat (apply elem_of_cons in Hin as [Hin|Hin]; [by (injection Hin as -> ->) || done|]). by apply not_elem_of_nil in Hin.
  - vm_compute in E. injection E as <-. split_and!; reflexivity.
Qed.

Lemma channel_stream_witness : exists s, s_received s = [1; 2] /\ s_sent s = s_received s ++ contents (s_ch s) /\ ring_ok (s_ch s).
Proof. destruct pair_reach as (s & Hs & Hr & _). exists s. split; [done|]. by apply (channel_stream pair_may demo_block s). Defined.

Lemma channel_progress_witness : exists s, s_received s = [1; 2] /\
  ((s_pc s 1 = Run (Recv 2) true -> exists p out inp c, run_turn 1 (Recv 2) true (s_ch s) = Done (p, out, inp) c) /\ queues_ok (s_ch s) (s_pc s)).
Proof. destruct pair_reach as (s & Hs & Hr & _). exists s. split; [done|]. by apply (channel_progress pair_may demo_block s). Defined.

Lemma channel_no_lost_wakeup_witness : exists s, s_pc s 2 = Asleep (Send [7]) /\
  ((forall len, s_pc s 2 = Asleep (Recv len) -> nothing_to_read (s_ch s) \/ exists v, s_pc s v = Wake_reader) /\
   (forall data, s_pc s 2 = Asleep (Send data) -> no_room (s_ch s) \/ exists v, s_pc s v = Wake_writer)).
Proof. destruct pair_reach as (s & Hs & _ & _ & Hp). exists s. split; [done|]. apply (channel_no_lost_wakeup pair_may demo_block s); cbn; (done || lia). Defined.

Definition demo_channel : channel := set_ring [7; 0; 0; 6] 1 3 2 (set_counts 1 0 1 1 (new_channel 4 demo_block)).

Lemma demo_channel_ok : ring_ok demo_channel.
Proof. by split. Qed.

Lemma poll_predicts_witness :
  exists mask r bytes woken c1 r' woken' c2,
    poll true true demo_channel = Done mask demo_channel /\ recv 5 demo_channel = Done (r, bytes, woken) c1 /\ send [8] demo_channel = Done (r', woken') c2 /\
    (flag mask POLLIN = true <-> r <> - EAGAIN) /\ (flag mask POLLOUT = true <-> 0 < r') /\ (flag mask POLLERR = true <-> r' = - EPIPE) /\
    (flag mask POLLHUP = true /\ used demo_channel = 0 <-> r = 0).
Proof. apply (poll_predicts demo_channel 5 [8]); [apply demo_channel_ok|done..]. Defined.

(** Without a writer so far [poll] reports data although [recv] asks to try again. *)
Example poll_before_first_writer :
  poll true false (new_channel 4 demo_block) = Done (Z.lor POLLIN POLLHUP) (new_channel 4 demo_block) /\
  recv 1 (new_channel 4 demo_block) = Done (- EAGAIN, [], []) (new_channel 4 demo_block).
Proof. split; reflexivity. Qed.
