(* ===== verification/KErrno.v ===== *)
(** * include/klib/result.h, include/vespera_errno.h: errors of the kernel

    [Result<T>] is a sum of [error] and [T]; success is not an error here. *)

From Stdlib Require Import ZArith.
From stdpp Require Import base tactics.
From S2P Require Import Prelude.

(** [enum class Error] *)
Inductive error :=
| Perm | NoEnt | Srch | Intr | Io | NxIo | TooBig | NoExec | BadH | Child | Again | NoMem | Acces
| Fault | Busy | Exist | XDev | NoDev | NotDir | IsDir | Inval | NFile | MFile | NotTty | TxtBsy
| FBig | NoSpc | SPipe | RoFs | MLink | Pipe | Dom | Range | NameTooLong | NoLck | NoSys
| NotEmpty | Loop | NoMsg | Overflow | IlSeq | AddrInUse | ConnRefused | WouldBlock | ConnAborted
| NotConn | AfNoSupport | Unknown | Unsupported | Deadlock.

Definition errno (e : error) : Z :=
  match e with
  | Perm => 1 | NoEnt => 2 | Srch => 3 | Intr => 4 | Io => 5 | NxIo => 6 | TooBig => 7 | NoExec => 8
  | BadH => 9 | Child => 10 | Again => 11 | NoMem => 12 | Acces => 13 | Fault => 14 | Busy => 16
  | Exist => 17 | XDev => 18 | NoDev => 19 | NotDir => 20 | IsDir => 21 | Inval => 22
  | NFile => 23 | MFile => 24 | NotTty => 25 | TxtBsy => 26 | FBig => 27 | NoSpc => 28
  | SPipe => 29 | RoFs => 30 | MLink => 31 | Pipe => 32 | Dom => 33 | Range => 34
  | NameTooLong => 36 | NoLck => 37 | NoSys => 38 | NotEmpty => 39 | Loop => 40 | NoMsg => 42
  | Overflow => 75 | IlSeq => 84 | AddrInUse => 98 | ConnRefused => 111 | WouldBlock => 11
  | ConnAborted => 103 | NotConn => 107 | AfNoSupport => 97 | Unknown => 1000
  | Unsupported => 1001 | Deadlock => 1002
  end.

(** What a system call returns for an error. *)
Definition to_errno (e : error) : Z := - errno e.

Lemma to_errno_neg e : to_errno e < 0.
Proof. by destruct e. Qed.
