(* ===== verification/HandleTable.v ===== *)
(** * kernel/realm/handle_table.cpp, handle_transfer.cpp, sys/handle_resolution.cpp

    The table of handles of a realm: an array of entries and a bitmap of the
    entries in use. [W] is the state of the objects handles refer to; an entry
    carries the functions that take and drop a reference to its object. Every
    public function runs under the lock of the table. *)

From Stdlib Require Import ZArith Lia.
From stdpp Require Import base tactics gmap numbers list.
From S2P Require Import Prelude.
From S2P Require Import Memory.
From S2P Require Import KErrno.

Definition HANDLE_TYPE_MASK : Z := 0xFFFF000000000000.
Definition HANDLE_ID_MASK : Z := 0x0000FFFFFFFFFFFF.
Definition MAX_HANDLES_PER_REALM : Z := 4096.

Section table.
Context {W : Type}.

Record entry := {
  he_hid : Z;
  he_type : Z;
  he_resource : Z;
  he_caps : Z;
  he_refcount : Z;
  he_transferable : bool;
  he_destroy : option (Z -> M W unit);
  he_acquire : option (Z -> M W unit)
}.

Definition zero_entry : entry := {|
  he_hid := 0; he_type := 0; he_resource := 0; he_caps := 0; he_refcount := 0; he_transferable := false; he_destroy := None; he_acquire := None |}.

Definition set_refcount (n : Z) (e : entry) : entry := {|
  he_hid := he_hid e; he_type := he_type e; he_resource := he_resource e; he_caps := he_caps e; he_refcount := n;
  he_transferable := he_transferable e; he_destroy := he_destroy e; he_acquire := he_acquire e |}.

Record table := { entries_ : list entry; bitmap_ : list Z }.

(** [init] *)
Definition init : table := {|
  entries_ := replicate (Z.to_nat MAX_HANDLES_PER_REALM) zero_entry;
  bitmap_ := replicate (Z.to_nat (MAX_HANDLES_PER_REALM / 8)) 0 |}.

(** ** The bitmap; an index behind its end is undefined *)

Definition bitmap_byte (i : Z) : M table Z := fun t =>
  match bitmap_ t !! Z.to_nat (Z.shiftr i 3) with Some b => Done b t | None => Undef end.

Definition set_bitmap_byte (i b : Z) : M table unit := fun t =>
  Done tt {| entries_ := entries_ t; bitmap_ := <[Z.to_nat (Z.shiftr i 3) := b]> (bitmap_ t) |}.

Definition test_bit (i : Z) : M table bool :=
  b ← bitmap_byte i; mret (Z.land (Z.shiftr b (Z.land i 7)) 1 =? 1).

Definition set_bit (i : Z) : M table unit :=
  b ← bitmap_byte i; set_bitmap_byte i (u8 (Z.lor b (Z.shiftl 1 (Z.land i 7)))).

Definition clear_bit (i : Z) : M table unit :=
  b ← bitmap_byte i; set_bitmap_byte i (u8 (Z.land b (u8 (Z.lnot (Z.shiftl 1 (Z.land i 7)))))).

(** Slots 0 to 3 are reserved; -1 when there is none. *)
Definition find_free_slot : M table Z :=
  while (S (Z.to_nat MAX_HANDLES_PER_REALM)) (fun i =>
    if i <? MAX_HANDLES_PER_REALM then
      b ← test_bit i;
      if negb b then mret (inr i) else mret (inl (i + 1))
    else mret (inr (-1))) 4.

(** ** Entries *)

Definition get_entry (slot : Z) : M table entry := fun t =>
  match entries_ t !! Z.to_nat slot with Some e => Done e t | None => Undef end.

Definition put_entry (slot : Z) (e : entry) : M table unit := fun t =>
  Done tt {| entries_ := <[Z.to_nat slot := e]> (entries_ t); bitmap_ := bitmap_ t |}.

Definition slot_of (hid : Z) : Z := Z.land hid HANDLE_ID_MASK.

Definition add (type resource caps : Z) (transferable : bool) (destroy acquire : option (Z -> M W unit)) : M table (error + Z) :=
  slot ← find_free_slot;
  if slot <? 0 then mret (inl NoMem)
  else
    _ ← set_bit slot;
    let hid := Z.lor type (Z.land slot HANDLE_ID_MASK) in
    _ ← put_entry slot {| he_hid := hid; he_type := type; he_resource := resource; he_caps := caps; he_refcount := 1;
                          he_transferable := transferable; he_destroy := destroy; he_acquire := acquire |};
    mret (inr hid).

Definition add_at (fixed_id type resource caps : Z) (transferable : bool) (destroy acquire : option (Z -> M W unit)) : M table (option error) :=
  let slot := slot_of fixed_id in
  if MAX_HANDLES_PER_REALM <=? slot then mret (Some BadH)
  else
    b ← test_bit slot;
    if b : bool then mret (Some BadH)
    else
      _ ← set_bit slot;
      _ ← put_entry slot {| he_hid := fixed_id; he_type := type; he_resource := resource; he_caps := caps; he_refcount := 1;
                            he_transferable := transferable; he_destroy := destroy; he_acquire := acquire |};
      mret None.

Definition lookup (hid : Z) : M table (option entry) :=
  let slot := slot_of hid in
  if MAX_HANDLES_PER_REALM <=? slot then mret None
  else
    b ← test_bit slot;
    if negb b then mret None
    else
      he ← get_entry slot;
      if negb (he_hid he =? hid) then mret None else mret (Some he).

Definition acquire (hid : Z) : M table unit :=
  he ← lookup hid;
  match (he : option entry) with
  | Some he => put_entry (slot_of hid) (set_refcount (u64 (he_refcount he + 1)) he)
  | None => mret tt
  end.

(** Dropping the last reference to a handle destroys what it refers to. The
    functions that do so work on the objects. *)
Definition on_table {A} (c : M table A) : M (table * W) A := zoom fst (fun t s => (t, snd s)) c.
Definition on_objects {A} (c : M W A) : M (table * W) A := zoom snd (fun w s => (fst s, w)) c.

Definition destroy_resource (he : entry) : M W unit :=
  match he_destroy he with
  | Some d => if negb (he_resource he =? 0) then d (he_resource he) else mret tt
  | None => mret tt
  end.

Definition release (hid : Z) : M (table * W) unit :=
  let slot := slot_of hid in
  if MAX_HANDLES_PER_REALM <=? slot then mret tt
  else
    b ← on_table (test_bit slot);
    if negb b then mret tt
    else
      he ← on_table (get_entry slot);
      if negb (he_hid he =? hid) then mret tt
      else
        let n := u64 (he_refcount he - 1) in
        if n =? 0 then
          _ ← on_objects (destroy_resource he);
          _ ← on_table (put_entry slot zero_entry);
          on_table (clear_bit slot)
        else on_table (put_entry slot (set_refcount n he)).

Definition clear : M (table * W) unit :=
  for_each (seqZ 0 MAX_HANDLES_PER_REALM) (fun i =>
    b ← on_table (test_bit i);
    if negb b then mret tt
    else
      he ← on_table (get_entry i);
      _ ← on_objects (destroy_resource he);
      _ ← on_table (put_entry i zero_entry);
      on_table (clear_bit i)).

(** ** Resolution *)

Definition resolve_handle (hid type_mask required_caps : Z) : M table (error + entry) :=
  he ← lookup hid;
  match (he : option entry) with
  | None => mret (inl BadH)
  | Some he =>
      if negb (required_caps =? 0) && (Z.land (he_caps he) required_caps =? 0) then mret (inl Acces)
      else if negb (type_mask =? 0) && negb (Z.land (he_type he) HANDLE_TYPE_MASK =? type_mask) then mret (inl NotTty)
      else mret (inr he)
  end.

(** ** Transfer *)

(** [transfer_handle_to_realm] on the table of the destination. *)
Definition transfer_handle_to_realm (src_entry : entry) (caps_mask : Z) : M (table * W) (error + Z) :=
  if negb (he_transferable src_entry) then mret (inl Acces)
  else
    let granted := Z.land (he_caps src_entry) caps_mask in
    if granted =? 0 then mret (inl Acces)
    else
      match he_acquire src_entry with
      | None => mret (inl Inval)
      | Some acq =>
          if he_resource src_entry =? 0 then mret (inl Inval)
          else
            _ ← on_objects (acq (he_resource src_entry));
            r ← on_table (add (he_type src_entry) (he_resource src_entry) granted true (he_destroy src_entry) (he_acquire src_entry));
            match (r : error + Z) with
            | inl e =>
                match he_destroy src_entry with
                | Some d => _ ← on_objects (d (he_resource src_entry)); mret (inl e)
                | None => undefined
                end
            | inr hid => mret (inr hid)
            end
      end.

(** ** Duplication *)

(** [do_dup] on the table of the current realm; [None] for [K_INVALID_HANDLE]. *)
Definition do_dup (src_hid : Z) (dst_hid : option Z) : M (table * W) Z :=
  src ← on_table (lookup src_hid);
  match (src : option entry) with
  | None => mret (to_errno BadH)
  | Some src =>
      if match dst_hid with Some d => d =? src_hid | None => false end then mret (i64 src_hid)
      else
        let counted := match he_acquire src with Some _ => negb (he_resource src =? 0) | None => false end in
        _ ← (match he_acquire src with
             | Some acq => if counted then on_objects (acq (he_resource src)) else mret tt
             | None => mret tt
             end);
        _ ← (match dst_hid with
             | Some d =>
                 he ← on_table (lookup d);
                 match (he : option entry) with Some _ => release d | None => mret tt end
             | None => mret tt
             end);
        result ← on_table (match dst_hid with
          | None => add (he_type src) (he_resource src) (he_caps src) (he_transferable src) (he_destroy src) (he_acquire src)
          | Some d =>
              vr ← add_at d (he_type src) (he_resource src) (he_caps src) (he_transferable src) (he_destroy src) (he_acquire src);
              mret (match (vr : option error) with None => inr d | Some e => inl e end)
          end);
        match (result : error + Z) with
        | inl e =>
            _ ← (if counted then match he_destroy src with Some d => on_objects (d (he_resource src)) | None => undefined end else mret tt);
            mret (to_errno e)
        | inr hid => mret (i64 hid)
        end
  end.
End table.
Arguments entry : clear implicits.
Arguments table : clear implicits.
