(* ===== verification/HandleTableFacts.v ===== *)
(** * Handle tables as finite maps from slots to entries *)

From Stdlib Require Import ZArith Lia.
From stdpp Require Import base tactics gmap numbers list.
From S2P Require Import Prelude.
From S2P Require Import Memory.
From S2P Require Import KErrno.
From S2P Require Import HandleTable.

Lemma u8_testbit x j : 0 <= j < 8 -> Z.testbit (u8 x) j = Z.testbit x j.
Proof. intros. apply Z.mod_pow2_bits_low. lia. Qed.

Section facts.
Context {W : Type}.
Implicit Types (t : table W) (e : entry W).

Definition is_slot (i : Z) : Prop := 0 <= i < MAX_HANDLES_PER_REALM.

(** ** The bitmap *)

Definition used_bit t (i : Z) : bool :=
  match bitmap_ t !! Z.to_nat (i / 8) with Some b => Z.testbit b (i mod 8) | None => false end.

Record shape_ok t : Prop := {
  so_entries : length (entries_ t) = Z.to_nat MAX_HANDLES_PER_REALM;
  so_bitmap : length (bitmap_ t) = Z.to_nat (MAX_HANDLES_PER_REALM / 8)
}.

Lemma slot_byte i : Z.shiftr i 3 = i / 8.
Proof. by rewrite Z.shiftr_div_pow2 by lia. Qed.

Lemma slot_bit i : Z.land i 7 = i mod 8.
Proof. change 7 with (Z.ones 3). by rewrite Z.land_ones by lia. Qed.

Lemma bitmap_byte_ok t i : shape_ok t -> is_slot i -> exists b, bitmap_ t !! Z.to_nat (i / 8) = Some b /\ bitmap_byte i t = Done b t.
Proof.
  intros [_ Hb] Hi. unfold is_slot, MAX_HANDLES_PER_REALM in *. destruct (lookup_lt_is_Some_2 (bitmap_ t) (Z.to_nat (i / 8))) as [b E].
  { rewrite Hb. change (4096 / 8) with 512. assert (0 <= i / 8 < 512) by (Z.div_mod_to_equations; lia). lia. }
  exists b. split; [done|]. unfold bitmap_byte. by rewrite slot_byte, E.
Qed.

Lemma test_bit_ok t i : shape_ok t -> is_slot i -> test_bit i t = Done (used_bit t i) t.
Proof.
  intros Ht Hi. destruct (bitmap_byte_ok t i Ht Hi) as (b & E & R). unfold test_bit, used_bit. rewrite bind_run, R, E, ret_run. f_equal.
  pose proof (Z.mod_pos_bound i 8). rewrite slot_bit. change 1 with (Z.ones 1) at 1. rewrite Z.land_ones by lia. change (2 ^ 1) with 2.
  rewrite <- Z.bit0_mod, Z.shiftr_spec, Z.add_0_l by lia. by destruct (Z.testbit b (i mod 8)).
Qed.

(** Writing the byte of a bit. *)
Lemma bit_write t i (v : bool) b b' :
  shape_ok t -> is_slot i -> bitmap_ t !! Z.to_nat (i / 8) = Some b -> (forall k, 0 <= k < 8 -> Z.testbit b' k = if decide (k = i mod 8) then v else Z.testbit b k) ->
  let t' := {| entries_ := entries_ t; bitmap_ := <[Z.to_nat (i / 8) := b']> (bitmap_ t) |} in
  shape_ok t' /\ forall j, is_slot j -> used_bit t' j = if decide (j = i) then v else used_bit t j.
Proof.
  intros [He Hb] Hi E Hbits t'. split; [split; cbn; rewrite ?length_insert; done|]. intros j Hj. unfold is_slot in *. unfold used_bit, t'. cbn.
  assert (0 <= i / 8 /\ 0 <= j / 8 /\ 0 <= j mod 8 < 8) as (? & ? & ?) by (Z.div_mod_to_equations; lia).
  destruct (decide (j / 8 = i / 8)) as [Hd|Hd].
  - rewrite Hd, E, list_lookup_insert_eq by (by eapply lookup_lt_Some). rewrite Hbits by lia. destruct (decide (j = i)) as [->|Hne]; [by rewrite decide_True|].
    rewrite decide_False; [done|]. intros Hm. apply Hne. rewrite (Z.div_mod j 8), (Z.div_mod i 8) by lia. lia.
  - rewrite list_lookup_insert_ne by lia. rewrite decide_False; [done|]. intros ->. done.
Qed.

Lemma set_bit_ok t i :
  shape_ok t -> is_slot i -> exists t', set_bit i t = Done tt t' /\ shape_ok t' /\ entries_ t' = entries_ t /\ forall j, is_slot j -> used_bit t' j = if decide (j = i) then true else used_bit t j.
Proof.
  intros Ht Hi. destruct (bitmap_byte_ok t i Ht Hi) as (b & E & R). unfold set_bit. rewrite bind_run, R. unfold set_bitmap_byte. rewrite slot_byte.
  pose proof (Z.mod_pos_bound i 8). destruct (bit_write t i true b (u8 (Z.lor b (Z.shiftl 1 (Z.land i 7)))) Ht Hi E) as [H1 H2]; [|eexists; split_and!; done].
  intros k Hk. rewrite u8_testbit, Z.lor_spec, slot_bit, Z.shiftl_1_l, pow_testbit by lia.
  case_decide as Hd; [subst k; by rewrite bool_decide_eq_true_2, orb_true_r|]. by rewrite bool_decide_eq_false_2, orb_false_r by lia.
Qed.

Lemma clear_bit_ok t i :
  shape_ok t -> is_slot i -> exists t', clear_bit i t = Done tt t' /\ shape_ok t' /\ entries_ t' = entries_ t /\ forall j, is_slot j -> used_bit t' j = if decide (j = i) then false else used_bit t j.
Proof.
  intros Ht Hi. destruct (bitmap_byte_ok t i Ht Hi) as (b & E & R). unfold clear_bit. rewrite bind_run, R. unfold set_bitmap_byte. rewrite slot_byte.
  pose proof (Z.mod_pos_bound i 8). destruct (bit_write t i false b (u8 (Z.land b (u8 (Z.lnot (Z.shiftl 1 (Z.land i 7)))))) Ht Hi E) as [H1 H2]; [|eexists; split_and!; done].
  intros k Hk. rewrite u8_testbit, Z.land_spec, u8_testbit, Z.lnot_spec, slot_bit, Z.shiftl_1_l, pow_testbit by lia.
  case_decide as Hd; [subst k; by rewrite bool_decide_eq_true_2, andb_false_r|]. by rewrite bool_decide_eq_false_2, andb_true_r by lia.
Qed.

(** ** The table as a map *)

Definition view t (i : Z) : option (entry W) := if used_bit t i then entries_ t !! Z.to_nat i else None.

(** Entries sit in the slots their handles name. *)
Record entry_ok (i : Z) e : Prop := {
  eo_slot : slot_of (he_hid e) = i;
  eo_type : Z.land (he_type e) HANDLE_ID_MASK = 0;
  eo_refs : 0 < he_refcount e < 2 ^ 64
}.

Record table_ok t : Prop := {
  to_shape : shape_ok t;
  to_entries i e : is_slot i -> view t i = Some e -> entry_ok i e
}.

(** [t'] is [t] with another entry, or none, in slot [i]. *)
Definition view_set t t' (i : Z) (o : option (entry W)) : Prop :=
  shape_ok t' /\ forall j, is_slot j -> view t' j = if decide (j = i) then o else view t j.

Lemma view_set_ok t t' i o : table_ok t -> view_set t t' i o -> (forall e, o = Some e -> entry_ok i e) -> table_ok t'.
Proof. intros [_ Ht] [Hs Hv] Ho. split; [done|]. intros j e Hj. rewrite Hv by done. case_decide; [subst; apply Ho|by apply Ht]. Qed.

Lemma slot_of_nonneg hid : 0 <= slot_of hid.
Proof. apply Z.land_nonneg. right. done. Qed.

Lemma init_ok : table_ok (init : table W).
Proof.
  split; [split; unfold init; cbn [entries_ bitmap_]; by rewrite length_replicate|]. intros i e Hi. unfold view, used_bit, init. cbn [bitmap_].
  rewrite lookup_replicate_2; [by rewrite Z.bits_0|]. unfold is_slot, MAX_HANDLES_PER_REALM in *. change (4096 / 8) with 512.
  assert (0 <= i / 8 < 512) by (Z.div_mod_to_equations; lia). lia.
Qed.

Lemma init_view i : is_slot i -> view (init : table W) i = None.
Proof.
  intros Hi. unfold view, used_bit, init. cbn [bitmap_]. rewrite lookup_replicate_2; [by rewrite Z.bits_0|].
  unfold is_slot, MAX_HANDLES_PER_REALM in *. change (4096 / 8) with 512. assert (0 <= i / 8 < 512) by (Z.div_mod_to_equations; lia). lia.
Qed.

Lemma get_entry_ok t i e : view t i = Some e -> get_entry i t = Done e t.
Proof. unfold view, get_entry. destruct (used_bit t i); [|done]. by intros ->. Qed.

Lemma used_view t i : shape_ok t -> is_slot i -> used_bit t i = match view t i with Some _ => true | None => false end.
Proof.
  intros [He _] Hi. unfold view. destruct (used_bit t i); [|done]. destruct (lookup_lt_is_Some_2 (entries_ t) (Z.to_nat i)) as [e ->]; [|done].
  unfold is_slot in Hi. lia.
Qed.

(** Putting an entry into a slot that is in use. *)
Lemma put_entry_ok t i e : shape_ok t -> is_slot i -> used_bit t i = true -> exists t', put_entry i e t = Done tt t' /\ view_set t t' i (Some e).
Proof.
  intros [He Hb] Hi Hu. unfold put_entry. eexists. split; [done|]. split; [split; cbn; rewrite ?length_insert; done|]. unfold is_slot in *.
  intros j Hj. unfold view. change (used_bit {| entries_ := _; bitmap_ := bitmap_ t |} j) with (used_bit t j). cbn [entries_]. case_decide as Hd.
  - subst j. rewrite Hu. rewrite list_lookup_insert_eq by lia. done.
  - rewrite list_lookup_insert_ne by lia. done.
Qed.

(** Taking a free slot, and giving one back. *)
Lemma place_ok {A} t i e (k : M (table W) A) :
  shape_ok t -> is_slot i -> exists t', view_set t t' i (Some e) /\ (set_bit i ≫= fun _ => put_entry i e ≫= fun _ => k) t = k t'.
Proof.
  intros Ht Hi. destruct (set_bit_ok t i Ht Hi) as (t1 & E1 & H1 & He1 & Hb1). assert (used_bit t1 i = true) as Hu by (rewrite Hb1 by done; by rewrite decide_True).
  destruct (put_entry_ok t1 i e H1 Hi Hu) as (t2 & E2 & H2 & Hv2). exists t2. split; [|by rewrite bind_run, E1, bind_run, E2]. split; [done|].
  intros j Hj. rewrite Hv2 by done. case_decide; [done|]. unfold view. rewrite Hb1, He1 by done. by rewrite decide_False.
Qed.

Lemma vacate_ok t i :
  shape_ok t -> is_slot i -> used_bit t i = true -> exists t1 t2, put_entry i zero_entry t = Done tt t1 /\ clear_bit i t1 = Done tt t2 /\ view_set t t2 i None.
Proof.
  intros Ht Hi Hu. destruct (put_entry_ok t i zero_entry Ht Hi Hu) as (t1 & E1 & H1 & Hv1). destruct (clear_bit_ok t1 i H1 Hi) as (t2 & E2 & H2 & He2 & Hb2).
  exists t1, t2. split; [done|]. split; [done|]. split; [done|]. intros j Hj. specialize (Hv1 j Hj). unfold view in *. rewrite Hb2, He2 by done. by case_decide.
Qed.

(** ** The operations *)

(** The entry a handle names. *)
Definition find t (hid : Z) : option (entry W) :=
  if slot_of hid <? MAX_HANDLES_PER_REALM then
    match view t (slot_of hid) with Some e => if he_hid e =? hid then Some e else None | None => None end
  else None.

Lemma table_find_some t hid e : find t hid = Some e -> is_slot (slot_of hid) /\ view t (slot_of hid) = Some e /\ he_hid e = hid.
Proof.
  unfold find, is_slot. pose proof (slot_of_nonneg hid). destruct (Z.ltb_spec (slot_of hid) MAX_HANDLES_PER_REALM); [|done].
  destruct (view t (slot_of hid)) as [e'|]; [|done]. destruct (Z.eqb_spec (he_hid e') hid); [|done]. intros [= ->]. done.
Qed.

Lemma lookup_ok t hid : shape_ok t -> HandleTable.lookup hid t = Done (find t hid) t.
Proof.
  intros Ht. unfold HandleTable.lookup, find. cbv zeta. pose proof (slot_of_nonneg hid). destruct (Z.leb_spec MAX_HANDLES_PER_REALM (slot_of hid)) as [Hge|Hlt].
  - by rewrite (proj2 (Z.ltb_ge _ _)).
  - rewrite (proj2 (Z.ltb_lt _ _)) by done. assert (is_slot (slot_of hid)) as Hi by (by split). rewrite bind_run, test_bit_ok, used_view by done.
    destruct (view t (slot_of hid)) as [e|] eqn:Ev; [|done]. cbn [negb]. rewrite bind_run, (get_entry_ok _ _ _ Ev). by destruct (he_hid e =? hid).
Qed.

Lemma find_free_slot_ok t :
  shape_ok t -> exists r, find_free_slot t = Done r t /\
    (r = -1 /\ (forall i, 4 <= i -> is_slot i -> view t i <> None) \/ 4 <= r /\ is_slot r /\ view t r = None /\ forall i, 4 <= i < r -> view t i <> None).
Proof.
  intros Ht. unfold find_free_slot.
  enough (wp (while (S (Z.to_nat MAX_HANDLES_PER_REALM)) (fun i => if i <? MAX_HANDLES_PER_REALM then b ← test_bit i; if negb b then mret (inr i) else mret (inl (i + 1)) else mret (inr (-1))) 4)
    (fun r t' => t' = t /\ (r = -1 /\ (forall i, 4 <= i -> is_slot i -> view t i <> None) \/ 4 <= r /\ is_slot r /\ view t r = None /\ forall i, 4 <= i < r -> view t i <> None)) t) as Hwp.
  { apply wp_done in Hwp as (r & ? & E & -> & H). by exists r. }
  apply (wp_while (fun n i t' => t' = t /\ n = Z.to_nat (MAX_HANDLES_PER_REALM - i) /\ 4 <= i <= MAX_HANDLES_PER_REALM /\ forall j, 4 <= j < i -> view t j <> None)) with (n := Z.to_nat (MAX_HANDLES_PER_REALM - 4)).
  - intros n i t' (-> & -> & Hi & Hj). destruct (Z.ltb_spec i MAX_HANDLES_PER_REALM) as [Hlt|Hge].
    + assert (is_slot i) as Hs by (split; lia). unfold wp. rewrite bind_run, test_bit_ok, used_view by done. destruct (view t i) as [e|] eqn:Ev; cbn [negb]; rewrite ret_run.
      * exists (Z.to_nat (MAX_HANDLES_PER_REALM - (i + 1))). split; [lia|]. split_and!; try done; try lia. intros j Hj'. destruct (decide (j = i)) as [->|]; [by rewrite Ev|apply Hj; lia].
      * split; [done|]. right. split_and!; try done; lia.
    + unfold wp. rewrite ret_run. split; [done|]. left. split; [done|]. intros j Hj1 Hj2. apply Hj. unfold is_slot in Hj2. lia.
  - unfold MAX_HANDLES_PER_REALM. lia.
  - split_and!; try done; unfold MAX_HANDLES_PER_REALM; lia.
Qed.

Lemma slot_of_new type slot : Z.land type HANDLE_ID_MASK = 0 -> is_slot slot -> slot_of (Z.lor type (Z.land slot HANDLE_ID_MASK)) = slot.
Proof.
  intros Ht Hs. unfold slot_of, is_slot, MAX_HANDLES_PER_REALM in *. rewrite Z.land_lor_distr_l, Ht, Z.lor_0_l, <- Z.land_assoc, Z.land_diag.
  change HANDLE_ID_MASK with (Z.ones 48). rewrite Z.land_ones by lia. apply Z.mod_small. lia.
Qed.

Definition new_entry (hid type resource caps : Z) (tr : bool) (d a : option (Z -> M W unit)) : entry W :=
  {| he_hid := hid; he_type := type; he_resource := resource; he_caps := caps; he_refcount := 1; he_transferable := tr; he_destroy := d; he_acquire := a |}.

Lemma add_ok t type resource caps tr d a :
  table_ok t -> Z.land type HANDLE_ID_MASK = 0 ->
  exists r t', add type resource caps tr d a t = Done r t' /\
    match r with
    | inl e => e = NoMem /\ t' = t /\ forall i, 4 <= i -> is_slot i -> view t i <> None
    | inr hid => table_ok t' /\ is_slot (slot_of hid) /\ 4 <= slot_of hid /\ view t (slot_of hid) = None /\
        view_set t t' (slot_of hid) (Some (new_entry hid type resource caps tr d a)) /\ (forall i, 4 <= i < slot_of hid -> view t i <> None) /\ hid = Z.lor type (slot_of hid)
    end.
Proof.
  intros Ht Hty. destruct (find_free_slot_ok t (to_shape _ Ht)) as (r & E & Hr). unfold add. rewrite bind_run, E. destruct Hr as [[-> Hfull]|(H4 & Hs & Hv & Hlow)].
  - exists (inl NoMem), t. done.
  - rewrite (proj2 (Z.ltb_ge _ _)) by lia. cbv zeta. set (hid := Z.lor type _). assert (slot_of hid = r) as Hh by (by apply slot_of_new).
    destruct (place_ok t r (new_entry hid type resource caps tr d a) (mret (inr hid : error + Z)) (to_shape _ Ht) Hs) as (t' & Hset & E').
    exists (inr hid), t'. split; [exact E'|]. rewrite Hh. split_and!; try done; try apply Hs.
    + eapply view_set_ok; [done|done|]. intros e [= <-]. by split.
    + unfold hid. f_equal. change HANDLE_ID_MASK with (Z.ones 48). unfold is_slot, MAX_HANDLES_PER_REALM in Hs. rewrite Z.land_ones by lia. apply Z.mod_small. lia.
Qed.

Lemma add_at_ok t fixed type resource caps tr d a :
  table_ok t -> Z.land type HANDLE_ID_MASK = 0 ->
  exists r t', add_at fixed type resource caps tr d a t = Done r t' /\
    match r with
    | Some e => e = BadH /\ t' = t /\ (~ is_slot (slot_of fixed) \/ view t (slot_of fixed) <> None)
    | None => table_ok t' /\ is_slot (slot_of fixed) /\ view t (slot_of fixed) = None /\ view_set t t' (slot_of fixed) (Some (new_entry fixed type resource caps tr d a))
    end.
Proof.
  intros Ht Hty. unfold add_at. cbv zeta. pose proof (slot_of_nonneg fixed). destruct (Z.leb_spec MAX_HANDLES_PER_REALM (slot_of fixed)) as [Hge|Hlt].
  { exists (Some BadH), t. split_and!; try done. left. intros [_ ?]. lia. }
  assert (is_slot (slot_of fixed)) as Hs by (by split). rewrite bind_run, test_bit_ok, used_view by (done || apply Ht).
  destruct (view t (slot_of fixed)) as [e|] eqn:Ev.
  { exists (Some BadH), t. split_and!; try done. by right. }
  destruct (place_ok t (slot_of fixed) (new_entry fixed type resource caps tr d a) (mret (None : option error)) (to_shape _ Ht) Hs) as (t' & Hset & E').
  exists None, t'. split; [exact E'|]. split_and!; try done; try apply Hs. eapply view_set_ok; [done|done|]. intros e [= <-]. by split.
Qed.
End facts.
