(* ===== verification/Ipc.v ===== *)
(** * Channels behind handles

    kernel/ipc/channel.cpp (endpoints), and the system calls that make, pass on,
    use and close handles to them: sys_pipe.cpp, sys_channel_create.cpp,
    sys_channel_send.cpp, sys_channel_recv.cpp, sys_dup.cpp, sys_close.cpp,
    sys_handle_transfer.cpp, and the branches of sys_read.cpp and sys_write.cpp
    for pipes. A use of an object that was deleted is undefined here, so a theorem
    that a call returns excludes it. *)

From Stdlib Require Import ZArith Lia.
From stdpp Require Import base tactics gmap numbers list.
From S2P Require Import Prelude.
From S2P Require Import Memory.
From S2P Require Import Channel.
From S2P Require Import KErrno.
From S2P Require Import HandleTable.

Definition HANDLE_TYPE_CHANNEL : Z := 0x4000000000000000.
Definition HANDLE_TYPE_PIPE : Z := 0x8000000000000000.
Definition CAP_READ : Z := 0x1.
Definition CAP_WRITE : Z := 0x2.
Definition PIPE_CAPACITY : Z := 65536.
Definition MIN_ALIGNMENT : Z := 16.
Definition MIN_ALLOC_SIZE : Z := 16.

(** ** Objects *)

Record endpoint := { ep_channel : Z; ep_is_reader : bool; ep_is_writer : bool; ep_refcount : Z }.

(** Endpoints and channels by address; the next address, and the number of
    allocations so far. Addresses are not used again, so that a stale one shows. *)
Record objs := { o_eps : gmap Z endpoint; o_chs : gmap Z channel; o_next : Z; o_allocs : Z }.

Definition set_eps (m : gmap Z endpoint) (o : objs) : objs := {| o_eps := m; o_chs := o_chs o; o_next := o_next o; o_allocs := o_allocs o |}.
Definition set_chs (m : gmap Z channel) (o : objs) : objs := {| o_eps := o_eps o; o_chs := m; o_next := o_next o; o_allocs := o_allocs o |}.

Section ipc.
(** Which allocations of the kernel heap succeed. *)
Context (can_alloc : Z -> bool).

(** [new]: an address, or the null pointer. *)
Definition new_object : M objs (option Z) := fun o =>
  let o' := {| o_eps := o_eps o; o_chs := o_chs o; o_next := o_next o; o_allocs := o_allocs o + 1 |} in
  if can_alloc (o_allocs o) then Done (Some (o_next o)) {| o_eps := o_eps o'; o_chs := o_chs o'; o_next := o_next o + 1; o_allocs := o_allocs o' |}
  else Done None o'.

(** The size the kernel heap reserves for a request. *)
Definition align_size (size : Z) : Z :=
  if size =? 0 then MIN_ALLOC_SIZE
  else
    let size := if negb (size mod MIN_ALIGNMENT =? 0) then Z.land (u64 (size + MIN_ALIGNMENT - 1)) (u64 (Z.lnot (MIN_ALIGNMENT - 1))) else size in
    if size <? MIN_ALLOC_SIZE then MIN_ALLOC_SIZE else size.

(** [kmalloc] of a buffer: null for 0 bytes, and when no segment has the aligned
    size; none has more than half of the address space. The bytes the caller may
    touch are those of its request that the segment has, and they are not read
    before they are written. *)
Definition new_block (size : Z) : M objs (option (list Z)) := fun o =>
  let o' := {| o_eps := o_eps o; o_chs := o_chs o; o_next := o_next o; o_allocs := o_allocs o + 1 |} in
  if (0 <? size) && can_alloc (o_allocs o) && (align_size size <=? INT64_MAX) then Done (Some (replicate (Z.to_nat (Z.min size (align_size size))) 0)) o'
  else Done None o'.

(** An operation on a channel; the units it wakes are of no concern here. *)
Definition with_channel {A} (ch : Z) (c : M channel A) : M objs A := fun o =>
  match o_chs o !! ch with
  | None => Undef
  | Some x => match c x with Done a x' => Done a (set_chs (<[ch := x']> (o_chs o)) o) | Undef => Undef | NoFuel => NoFuel end
  end.

(** [Channel::create] *)
Definition channel_create (cap : Z) : M objs (option Z) :=
  ch ← new_object;
  match ch with
  | None => mret None
  | Some ch =>
      b ← new_block cap;
      match b with
      | None => mret None
      | Some b => _ ← modify (fun o => set_chs (<[ch := new_channel cap b]> (o_chs o)) o); mret (Some ch)
      end
  end.

(** [delete ch] *)
Definition channel_delete (ch : Z) : M objs unit := modify (fun o => set_chs (base.delete ch (o_chs o)) o).

Definition channel_remove (rm : M channel (list Z * bool)) (ch : Z) : M objs unit :=
  r ← with_channel ch rm;
  if snd (r : list Z * bool) then channel_delete ch else mret tt.

Definition create_with_channel (ch : Z) (r w : bool) : M objs (option Z) :=
  ep ← new_object;
  match ep with
  | None => mret None
  | Some ep =>
      _ ← modify (fun o => set_eps (<[ep := {| ep_channel := ch; ep_is_reader := r; ep_is_writer := w; ep_refcount := 1 |}]> (o_eps o)) o);
      _ ← (if r then _ ← with_channel ch add_reader; mret tt else mret tt);
      _ ← (if w then _ ← with_channel ch add_writer; mret tt else mret tt);
      mret (Some ep)
  end.

(** [ChannelEndpoint::create] *)
Definition endpoint_create (capacity : Z) (r w : bool) : M objs (option Z) :=
  ch ← channel_create capacity;
  match ch with
  | None => mret None
  | Some ch =>
      ep ← create_with_channel ch r w;
      match ep with
      | None => _ ← channel_delete ch; mret None
      | Some ep => mret (Some ep)
      end
  end.

Definition set_ep_refcount (n : Z) (e : endpoint) : endpoint :=
  {| ep_channel := ep_channel e; ep_is_reader := ep_is_reader e; ep_is_writer := ep_is_writer e; ep_refcount := n |}.

(** [ChannelEndpoint::ref] and [ChannelEndpoint::destroy]; the pointer is not null. *)
Definition endpoint_ref (ep : Z) : M objs unit := fun o =>
  match o_eps o !! ep with
  | None => Undef
  | Some e => Done tt (set_eps (<[ep := set_ep_refcount (i32 (ep_refcount e + 1)) e]> (o_eps o)) o)
  end.

Definition endpoint_destroy (ep : Z) : M objs unit := fun o =>
  match o_eps o !! ep with
  | None => Undef
  | Some e =>
      let n := i32 (ep_refcount e - 1) in
      if negb (n =? 0) then Done tt (set_eps (<[ep := set_ep_refcount n e]> (o_eps o)) o)
      else
        (_ ← modify (fun o => set_eps (base.delete ep (o_eps o)) o);
         _ ← (if ep_is_reader e then channel_remove remove_reader (ep_channel e) else mret tt);
         (if ep_is_writer e then channel_remove remove_writer (ep_channel e) else mret tt)) o
  end.

(** [Channel::create_pipe] *)
Definition create_pipe (capacity : Z) : M objs (error + (Z * Z)) :=
  ch ← channel_create capacity;
  match ch with
  | None => mret (inl NoMem)
  | Some ch =>
      read_end ← create_with_channel ch true false;
      match read_end with
      | None => _ ← channel_delete ch; mret (inl NoMem)
      | Some read_end =>
          write_end ← create_with_channel ch false true;
          match write_end with
          | None => _ ← endpoint_destroy read_end; mret (inl NoMem)
          | Some write_end => mret (inr (read_end, write_end))
          end
      end
  end.

(** ** System calls *)

(** The tables of the realms, by realm, and the objects. *)
Record kern := { k_tables : gmap Z (table objs); k_objs : objs }.

(** A computation on the table of a realm that exists. *)
Definition at_realm {A} (r : Z) (c : M (table objs * objs) A) : M kern A := fun k =>
  match k_tables k !! r with
  | None => Undef
  | Some t =>
      match c (t, k_objs k) with
      | Done a (t', o) => Done a {| k_tables := <[r := t']> (k_tables k); k_objs := o |}
      | Undef => Undef
      | NoFuel => NoFuel
      end
  end.

Definition add_endpoint (type ep caps : Z) : M (table objs * objs) (error + Z) :=
  on_table (add type ep caps true (Some endpoint_destroy) (Some endpoint_ref)).

(** The result, and the two handles stored for the caller. *)
Definition sys_pipe (r : Z) : M kern (Z * option (Z * Z)) := at_realm r (
  pair ← on_objects (create_pipe PIPE_CAPACITY);
  match (pair : error + (Z * Z)) with
  | inl e => mret (to_errno e, None)
  | inr (read_end, write_end) =>
      read_result ← add_endpoint HANDLE_TYPE_PIPE read_end CAP_READ;
      match (read_result : error + Z) with
      | inl e =>
          _ ← on_objects (endpoint_destroy read_end);
          _ ← on_objects (endpoint_destroy write_end);
          mret (to_errno e, None)
      | inr rh =>
          write_result ← add_endpoint HANDLE_TYPE_PIPE write_end CAP_WRITE;
          match (write_result : error + Z) with
          | inl e => _ ← on_objects (endpoint_destroy write_end); mret (to_errno e, None)
          | inr wh => mret (0, Some (i64 rh, i64 wh))
          end
      end
  end).

Definition sys_channel_create (r capacity : Z) : M kern Z := at_realm r (
  let capacity := if capacity =? 0 then 4096 else capacity in
  ep ← on_objects (endpoint_create capacity true true);
  match ep with
  | None => mret (to_errno NoMem)
  | Some ep =>
      result ← add_endpoint HANDLE_TYPE_CHANNEL ep (Z.lor CAP_READ CAP_WRITE);
      match (result : error + Z) with
      | inl e => _ ← on_objects (endpoint_destroy ep); mret (to_errno e)
      | inr hid => mret (i64 hid)
      end
  end).

Definition K_INVALID_HANDLE : Z := UINT64_MAX.

Definition sys_dup (r old_hid : Z) : M kern Z := at_realm r (do_dup old_hid None).
Definition sys_dup2 (r old_hid new_hid : Z) : M kern Z :=
  at_realm r (do_dup old_hid (if new_hid =? K_INVALID_HANDLE then None else Some new_hid)).

Definition sys_close (r hid : Z) : M kern Z := at_realm r (
  rh ← on_table (resolve_handle hid 0 0);
  match (rh : error + entry objs) with
  | inl e => mret (to_errno e)
  | inr he => _ ← release (he_hid he); mret 0
  end).

Definition sys_handle_transfer (r hid target_realm_id caps_mask : Z) : M kern Z :=
  rh ← at_realm r (on_table (resolve_handle hid 0 0));
  match (rh : error + entry objs) with
  | inl e => mret (to_errno e)
  | inr he => fun k =>
      match k_tables k !! target_realm_id with
      | None => Done (to_errno Child) k
      | Some _ =>
          (result ← at_realm target_realm_id (transfer_handle_to_realm he caps_mask);
           mret (match (result : error + Z) with inl e => to_errno e | inr h => i64 h end)) k
      end
  end.

(** The endpoint behind a resource, and its channel. *)
Definition get_endpoint (ep : Z) : M objs endpoint := fun o => match o_eps o !! ep with Some e => Done e o | None => Undef end.

Definition sys_channel_send (r hid : Z) (data : list Z) : M kern Z := at_realm r (
  rh ← on_table (resolve_handle hid HANDLE_TYPE_CHANNEL CAP_WRITE);
  match (rh : error + entry objs) with
  | inl e => mret (to_errno e)
  | inr he =>
      if he_resource he =? 0 then mret (to_errno Inval)
      else
        ep ← on_objects (get_endpoint (he_resource he));
        x ← on_objects (with_channel (ep_channel ep) (send data));
        let res := i32 (fst (x : Z * list Z)) in
        mret (if res <? 0 then - EAGAIN else res)
  end).

(** The result, and the bytes stored for the caller. *)
Definition sys_channel_recv (r hid len : Z) : M kern (Z * list Z) := at_realm r (
  rh ← on_table (resolve_handle hid HANDLE_TYPE_CHANNEL CAP_READ);
  match (rh : error + entry objs) with
  | inl e => mret (to_errno e, [])
  | inr he =>
      if he_resource he =? 0 then mret (to_errno Inval, [])
      else
        ep ← on_objects (get_endpoint (he_resource he));
        x ← on_objects (with_channel (ep_channel ep) (recv len));
        let '(res, bytes, _) := (x : Z * list Z * list Z) in
        let res := i32 res in
        mret (if res <? 0 then - EAGAIN else res, bytes)
  end).

(** A turn of the loops of [sys_write] and [sys_read] on a pipe; with -EAGAIN the
    unit yields and takes another turn. *)
Definition pipe_write (r hid : Z) (buf : list Z) : M kern Z := at_realm r (
  if zlen buf =? 0 then mret 0
  else
    rh ← on_table (resolve_handle hid 0 CAP_WRITE);
    match (rh : error + entry objs) with
    | inl e => mret (to_errno e)
    | inr he =>
        if negb (Z.land (he_type he) HANDLE_TYPE_MASK =? HANDLE_TYPE_PIPE) then mret (to_errno BadH)
        else if he_resource he =? 0 then mret (to_errno Inval)
        else
          ep ← on_objects (get_endpoint (he_resource he));
          if negb (ep_is_writer ep) then mret (to_errno BadH)
          else x ← on_objects (with_channel (ep_channel ep) (send buf)); mret (fst (x : Z * list Z))
    end).

Definition pipe_read (r hid count : Z) : M kern (Z * list Z) := at_realm r (
  if count =? 0 then mret (to_errno Inval, [])
  else
    rh ← on_table (resolve_handle hid 0 CAP_READ);
    match (rh : error + entry objs) with
    | inl e => mret (to_errno e, [])
    | inr he =>
        if negb (Z.land (he_type he) HANDLE_TYPE_MASK =? HANDLE_TYPE_PIPE) then mret (to_errno BadH, [])
        else if he_resource he =? 0 then mret (to_errno Inval, [])
        else
          ep ← on_objects (get_endpoint (he_resource he));
          if ep_is_writer ep then mret (to_errno BadH, [])
          else
            x ← on_objects (with_channel (ep_channel ep) (recv count));
            let '(res, bytes, _) := (x : Z * list Z * list Z) in mret (res, bytes)
    end).

(** A realm that ends drops all its handles. *)
Definition realm_clear (r : Z) : M kern unit := at_realm r clear.
End ipc.
