(* ===== verification/IpcFacts.v ===== *)
(** * Endpoints and channels: who refers to what

    The reference count of an endpoint is the number of its references, the
    counts of a channel are the numbers of its endpoints, and whatever is referred
    to exists. *)

From Stdlib Require Import ZArith Lia.
From stdpp Require Import base tactics gmap numbers list.
From S2P Require Import Prelude.
From S2P Require Import Memory.
From S2P Require Import Channel.
From S2P Require Import ChannelFacts.
From S2P Require Import KErrno.
From S2P Require Import HandleTable.
From S2P Require Import Ipc.

(** ** Counting endpoints *)

Definition ends (P : endpoint -> bool) (m : gmap Z endpoint) : Z := Z.of_nat (size (filter (fun kv : Z * endpoint => P (snd kv) = true) m)).

Lemma ends_nonneg P m : 0 <= ends P m.
Proof. unfold ends. lia. Qed.

Lemma ends_new P m k e : m !! k = None -> ends P (<[k := e]> m) = ends P m + b2z (P e).
Proof.
  intros Hk. unfold ends. destruct (P e) eqn:E; cbn [b2z].
  - rewrite map_filter_insert_True by done. rewrite map_size_insert_None; [lia|]. apply map_lookup_filter_None. by left.
  - rewrite map_filter_insert_False by (cbn; congruence). rewrite delete_id by done. lia.
Qed.

Lemma ends_delete P m k e : m !! k = Some e -> ends P (base.delete k m) = ends P m - b2z (P e).
Proof. intros Hk. rewrite <- (insert_delete_id m k e Hk) at 2. rewrite ends_new by apply lookup_delete_eq. lia. Qed.

Lemma ends_update P m k e e' : m !! k = Some e -> P e' = P e -> ends P (<[k := e']> m) = ends P m.
Proof.
  intros Hk HP. rewrite <- insert_delete_eq. rewrite ends_new by apply lookup_delete_eq. rewrite (ends_delete P m k e Hk), HP. lia.
Qed.

Lemma ends_some P m k e : m !! k = Some e -> P e = true -> 0 < ends P m.
Proof. intros Hk HP. pose proof (ends_delete P m k e Hk) as H. rewrite HP in H. pose proof (ends_nonneg P (base.delete k m)). cbn in H. lia. Qed.

Lemma ends_other P Q m : (forall k e, m !! k = Some e -> P e = Q e) -> ends P m = ends Q m.
Proof. intros H. unfold ends. f_equal. f_equal. apply map_filter_ext. intros k e He. cbn. by rewrite (H k e He). Qed.

Lemma ends_none P m : (forall k e, m !! k = Some e -> P e = false) -> ends P m = 0.
Proof. intros H. unfold ends. assert (filter (fun kv : Z * endpoint => P (snd kv) = true) m = ∅) as ->; [|done]. apply map_empty. intros k. apply map_lookup_filter_None. right. intros e He. cbn. by rewrite (H k e He). Qed.

Definition reads (ch : Z) (e : endpoint) : bool := (ep_channel e =? ch) && ep_is_reader e.
Definition writes (ch : Z) (e : endpoint) : bool := (ep_channel e =? ch) && ep_is_writer e.

(** ** The invariant of the objects *)

(** A reference more or less. *)
Definition refs_plus (d : Z) (ep : Z) (refs : Z -> Z) : Z -> Z := fun x => if decide (x = ep) then refs x + d else refs x.

Record endpoint_ok (o : objs) (refs : Z -> Z) (ep : Z) (e : endpoint) : Prop := {
  eo_addr : 0 < ep < o_next o;
  eo_count : ep_refcount e = refs ep;
  eo_alive : 0 < refs ep;
  eo_chan : is_Some (o_chs o !! ep_channel e);
  eo_end : ep_is_reader e || ep_is_writer e = true
}.

Record channel_ok (o : objs) (ch : Z) (c : channel) : Prop := {
  co_addr : 0 < ch < o_next o;
  co_ring : ring_ok c;
  co_readers : reader_count_ c = ends (reads ch) (o_eps o);
  co_writers : writer_count_ c = ends (writes ch) (o_eps o);
  co_alive : 0 < ends (reads ch) (o_eps o) + ends (writes ch) (o_eps o)
}.

Record objs_ok (o : objs) (refs : Z -> Z) : Prop := {
  oo_next : 0 < o_next o;
  oo_eps ep e : o_eps o !! ep = Some e -> endpoint_ok o refs ep e;
  oo_none ep : o_eps o !! ep = None -> refs ep = 0;
  oo_chs ch c : o_chs o !! ch = Some c -> channel_ok o ch c
}.

Lemma objs_ok_ext o refs refs' : (forall x, refs x = refs' x) -> objs_ok o refs -> objs_ok o refs'.
Proof.
  intros He [Hn H1 H2 H3]. split; [done| |intros; rewrite <- He; auto|done]. intros ep e Hep. destruct (H1 ep e Hep). split; rewrite <- ?He; done.
Qed.

(** ** References *)

(** What endpoints allow does not change: an endpoint at an address in use before
    was there, with the same ends. *)
Definition flags_stay (o o' : objs) : Prop :=
  o_next o <= o_next o' /\ forall x e', x < o_next o -> o_eps o' !! x = Some e' -> exists e, o_eps o !! x = Some e /\ ep_is_reader e' = ep_is_reader e /\ ep_is_writer e' = ep_is_writer e.

Lemma flags_stay_refl o : flags_stay o o.
Proof. split; [done|]. eauto. Qed.

Lemma flags_stay_trans o1 o2 o3 : flags_stay o1 o2 -> flags_stay o2 o3 -> flags_stay o1 o3.
Proof.
  intros [N1 H1] [N2 H2]. split; [lia|]. intros x e3 Hx E3. destruct (H2 x e3) as (e2 & E2 & ? & ?); [lia|done|]. destruct (H1 x e2 Hx E2) as (e1 & E1 & ? & ?). exists e1. split_and!; congruence.
Qed.

Lemma flags_stay_eps o o' : o_next o <= o_next o' -> (forall x, x < o_next o -> o_eps o' !! x = o_eps o !! x) -> flags_stay o o'.
Proof. intros Hn He. split; [done|]. intros x e' Hx. rewrite He by done. eauto. Qed.

(** Changing the count of an endpoint that stays alive. *)
Lemma refcount_ok o refs ep e d :
  objs_ok o refs -> o_eps o !! ep = Some e -> 0 < refs ep + d ->
  let o' := set_eps (<[ep := set_ep_refcount (refs ep + d) e]> (o_eps o)) o in objs_ok o' (refs_plus d ep refs) /\ flags_stay o o'.
Proof.
  intros [Hn H1 H2 H3] E Hr o'. pose proof (H1 ep e E) as [A1 A2 A3 A4 A5].
  assert (forall P, P (set_ep_refcount (refs ep + d) e) = P e -> ends P (o_eps o') = ends P (o_eps o)) as Hends by (intros P; by apply ends_update).
  split; [split|]; cbn.
  - done.
  - intros x e' Hx. unfold refs_plus. destruct (decide (x = ep)) as [->|Hne].
    + rewrite lookup_insert_eq in Hx. injection Hx as <-. split; cbn; rewrite ?decide_True; (done || lia).
    + rewrite lookup_insert_ne in Hx by done. destruct (H1 x e' Hx). split; cbn; rewrite ?decide_False; done.
  - intros x. destruct (decide (x = ep)) as [->|Hne]; [by rewrite lookup_insert_eq|]. rewrite lookup_insert_ne by done. unfold refs_plus. rewrite decide_False by done. apply H2.
  - intros ch c Hc. destruct (H3 ch c Hc). split; rewrite ?Hends; done.
  - split; [done|]. intros x e' _. cbn. destruct (decide (x = ep)) as [->|Hne]; [rewrite lookup_insert_eq|rewrite lookup_insert_ne by done; eauto].
    intros [= <-]. eexists. split; [done|done].
Qed.

Lemma endpoint_ref_ok o refs ep :
  objs_ok o refs -> 0 < refs ep < INT32_MAX -> exists o', endpoint_ref ep o = Done tt o' /\ objs_ok o' (refs_plus 1 ep refs) /\ flags_stay o o'.
Proof.
  intros Ho Hr. unfold endpoint_ref. destruct (o_eps o !! ep) as [e|] eqn:E; [|rewrite (oo_none o refs Ho ep E) in Hr; lia].
  eexists. split; [done|]. rewrite (eo_count _ _ _ _ (oo_eps o refs Ho ep e E)), i32_id by (unfold INT32_MIN, INT32_MAX in *; lia). apply refcount_ok; [done|done|lia].
Qed.

(** ** Closing an end *)

Lemma remove_reader_run c :
  ring_ok c -> 0 < reader_count_ c -> exists woken c', remove_reader c = Done (woken, (reader_count_ c - 1 =? 0) && (writer_count_ c =? 0)) c' /\ ring_ok c' /\
    reader_count_ c' = reader_count_ c - 1 /\ writer_count_ c' = writer_count_ c.
Proof.
  intros [] Hr. unfold remove_reader, INT32_MAX in *. rewrite i32_id by (unfold INT32_MIN, INT32_MAX; lia). cbn. destruct (reader_count_ c - 1 =? 0); do 2 eexists; (split; [done|]); (split; [split; cbn; try done; unfold INT32_MAX; lia|done]).
Qed.

Lemma remove_writer_run c :
  ring_ok c -> 0 < writer_count_ c -> exists woken c', remove_writer c = Done (woken, (writer_count_ c - 1 =? 0) && (reader_count_ c =? 0)) c' /\ ring_ok c' /\
    reader_count_ c' = reader_count_ c /\ writer_count_ c' = writer_count_ c - 1.
Proof.
  intros [] Hr. unfold remove_writer, INT32_MAX in *. rewrite i32_id by (unfold INT32_MIN, INT32_MAX; lia). cbn. destruct (writer_count_ c - 1 =? 0); do 2 eexists; (split; [done|]); (split; [split; cbn; try done; unfold INT32_MAX; lia|done]).
Qed.

(** A channel with one end less; it goes with its last end. *)
Definition put_channel (ch : Z) (c : channel) (m : gmap Z channel) : gmap Z channel :=
  if (reader_count_ c =? 0) && (writer_count_ c =? 0) then base.delete ch m else <[ch := c]> m.

Lemma close_reader o ch c :
  o_chs o !! ch = Some c -> ring_ok c -> 0 < reader_count_ c ->
  exists c', channel_remove remove_reader ch o = Done tt (set_chs (put_channel ch c' (o_chs o)) o) /\ ring_ok c' /\ reader_count_ c' = reader_count_ c - 1 /\ writer_count_ c' = writer_count_ c.
Proof.
  intros E Hc Hr. destruct (remove_reader_run c Hc Hr) as (woken & c' & R & Hc' & H1 & H2). exists c'. split; [|done].
  unfold channel_remove, with_channel, put_channel. rewrite bind_run, E, R, H1, H2. cbn [snd]. destruct (_ && _); [|done]. unfold channel_delete, modify, set_chs. cbn. by rewrite delete_insert_eq.
Qed.

Lemma close_writer o ch c :
  o_chs o !! ch = Some c -> ring_ok c -> 0 < writer_count_ c ->
  exists c', channel_remove remove_writer ch o = Done tt (set_chs (put_channel ch c' (o_chs o)) o) /\ ring_ok c' /\ reader_count_ c' = reader_count_ c /\ writer_count_ c' = writer_count_ c - 1.
Proof.
  intros E Hc Hr. destruct (remove_writer_run c Hc Hr) as (woken & c' & R & Hc' & H1 & H2). exists c'. split; [|done].
  unfold channel_remove, with_channel, put_channel. rewrite bind_run, E, R, H1, H2. cbn [snd]. rewrite (andb_comm (reader_count_ c =? 0)). destruct (_ && _); [|done].
  unfold channel_delete, modify, set_chs. cbn. by rewrite delete_insert_eq.
Qed.

(** The last reference: the endpoint goes, and its ends are closed. *)
Lemma last_ref_ok o refs ep e c c' :
  objs_ok o refs -> o_eps o !! ep = Some e -> refs ep = 1 -> o_chs o !! ep_channel e = Some c -> ring_ok c' ->
  reader_count_ c' = reader_count_ c - b2z (ep_is_reader e) -> writer_count_ c' = writer_count_ c - b2z (ep_is_writer e) ->
  objs_ok {| o_eps := base.delete ep (o_eps o); o_chs := put_channel (ep_channel e) c' (o_chs o); o_next := o_next o; o_allocs := o_allocs o |} (refs_plus (-1) ep refs).
Proof.
  intros [Hn H1 H2 H3] E Hr Ec Hc' HR HW. set (ch := ep_channel e) in *. pose proof (H3 ch c Ec) as [B1 B2 B3 B4 B5].
  assert (forall P, ends P (base.delete ep (o_eps o)) = ends P (o_eps o) - b2z (P e)) as Hd by (intros P; by apply ends_delete).
  assert (reads ch e = ep_is_reader e /\ writes ch e = ep_is_writer e) as [Er Ew] by (unfold reads, writes, ch; by rewrite Z.eqb_refl).
  assert (forall ch', ch' <> ch -> reads ch' e = false /\ writes ch' e = false) as Hother by (intros ch' Hne; unfold reads, writes; by rewrite (proj2 (Z.eqb_neq _ _)) by done).
  split; cbn.
  - done.
  - intros x e' Hx. apply lookup_delete_Some in Hx as [Hne Hx]. destruct (H1 x e' Hx) as [A1 A2 A3 A4 A5]. unfold refs_plus. split; cbn; rewrite ?decide_False by done; try done.
    unfold put_channel. destruct ((_ =? 0) && _) eqn:Ez; [|destruct (decide (ep_channel e' = ch)) as [->|]; [rewrite lookup_insert_eq; eauto|by rewrite lookup_insert_ne]].
    apply andb_true_iff in Ez as [Z1%Z.eqb_eq Z2%Z.eqb_eq]. rewrite lookup_delete_ne; [done|]. intros Heq.
    pose proof (ends_some (reads ch) (base.delete ep (o_eps o)) x e') as S1. pose proof (ends_some (writes ch) (base.delete ep (o_eps o)) x e') as S2.
    rewrite lookup_delete_ne in S1, S2 by done. specialize (S1 Hx). specialize (S2 Hx). 
    rewrite Hd, Er in S1. rewrite Hd, Ew in S2. assert (reads ch e' = ep_is_reader e' /\ writes ch e' = ep_is_writer e') as [F1 F2] by (unfold reads, writes; by rewrite Heq, Z.eqb_refl).
    rewrite F1 in S1. rewrite F2 in S2. destruct (ep_is_reader e'), (ep_is_writer e'); try done; try specialize (S1 eq_refl); try specialize (S2 eq_refl); lia.
  - intros x Hx. unfold refs_plus. case_decide; [subst; lia|]. apply H2. by rewrite lookup_delete_ne in Hx.
  - intros ch' c0. unfold put_channel. destruct ((_ =? 0) && _) eqn:Ez.
    + intros [Hne Hc0]%lookup_delete_Some. destruct (H3 ch' c0 Hc0) as [D1 D2 D3 D4 D5]. destruct (Hother ch') as [O1 O2]; [done|]. split; cbn; rewrite ?Hd, ?O1, ?O2; cbn; (done || lia).
    + destruct (decide (ch' = ch)) as [->|Hne].
      * rewrite lookup_insert_eq. intros [= <-]. split; cbn; rewrite ?Hd, ?Er, ?Ew; try done; try lia.
        apply andb_false_iff in Ez. pose proof (ro_readers _ Hc'). pose proof (ro_writers _ Hc'). rewrite <- B3, <- B4. destruct Ez as [Ez%Z.eqb_neq|Ez%Z.eqb_neq]; lia.
      * rewrite lookup_insert_ne by done. intros Hc0. destruct (H3 ch' c0 Hc0) as [D1 D2 D3 D4 D5]. destruct (Hother ch') as [O1 O2]; [done|]. split; cbn; rewrite ?Hd, ?O1, ?O2; cbn; (done || lia).
Qed.

Lemma endpoint_destroy_ok o refs ep :
  objs_ok o refs -> 0 < refs ep <= INT32_MAX -> exists o', endpoint_destroy ep o = Done tt o' /\ objs_ok o' (refs_plus (-1) ep refs) /\
    flags_stay o o' /\ (forall x e, x <> ep -> o_eps o !! x = Some e -> o_eps o' !! x = Some e).
Proof.
  intros Ho Hr. unfold endpoint_destroy. destruct (o_eps o !! ep) as [e|] eqn:E; [|rewrite (oo_none o refs Ho ep E) in Hr; lia].
  pose proof (oo_eps o refs Ho ep e E) as [A1 A2 A3 [c Ec] A5]. rewrite A2, i32_id by (unfold INT32_MIN, INT32_MAX in *; lia). cbv zeta.
  destruct (Z.eqb_spec (refs ep - 1) 0) as [Hz|Hz]; cbn [negb].
  2: { eexists. split; [done|]. destruct (refcount_ok o refs ep e (-1) Ho E) as [H1 H2]; [lia|]. split_and!; [done|done|]. intros x e' Hne Hx. cbn. by rewrite lookup_insert_ne. }
  pose proof (oo_chs o refs Ho _ c Ec) as [B1 B2 B3 B4 B5].
  assert (ep_is_reader e = true -> 0 < reader_count_ c) as HR. { intros H. rewrite B3. eapply ends_some; [done|]. unfold reads. by rewrite Z.eqb_refl. }
  assert (ep_is_writer e = true -> 0 < writer_count_ c) as HW. { intros H. rewrite B4. eapply ends_some; [done|]. unfold writes. by rewrite Z.eqb_refl. }
  rewrite bind_run. unfold modify at 1. cbn iota beta. set (o1 := set_eps _ o). rewrite bind_run.
  enough (exists c', (match (if ep_is_reader e then channel_remove remove_reader (ep_channel e) else mret tt) o1 with
      | Done _ s' => (if ep_is_writer e then channel_remove remove_writer (ep_channel e) else mret tt) s' | Undef => Undef | NoFuel => NoFuel end) =
      Done tt {| o_eps := base.delete ep (o_eps o); o_chs := put_channel (ep_channel e) c' (o_chs o); o_next := o_next o; o_allocs := o_allocs o |} /\ ring_ok c' /\
      reader_count_ c' = reader_count_ c - b2z (ep_is_reader e) /\ writer_count_ c' = writer_count_ c - b2z (ep_is_writer e)) as (c' & -> & Hc' & H1 & H2).
  { eexists. split; [done|]. split; [eapply last_ref_ok; try done; lia|]. split; [split; [done|intros x e' _ Hx; cbn in Hx; apply lookup_delete_Some in Hx as [_ Hx]; eauto]|]. intros x e' Hne Hx. cbn. by rewrite lookup_delete_ne. }
  destruct (ep_is_reader e), (ep_is_writer e); try done.
  - destruct (close_reader o1 (ep_channel e) c Ec B2) as (c1 & -> & K1 & K2 & K3); [auto|].
    assert (put_channel (ep_channel e) c1 (o_chs o1) = <[ep_channel e := c1]> (o_chs o)) as Ep.
    { unfold put_channel. rewrite K3, (proj2 (Z.eqb_neq (writer_count_ c) 0)), andb_false_r; [done|]. specialize (HW eq_refl). lia. }
    rewrite Ep. destruct (close_writer (set_chs (<[ep_channel e := c1]> (o_chs o)) o1) (ep_channel e) c1) as (c2 & -> & L1 & L2 & L3); [apply lookup_insert_eq|done|rewrite K3; auto|].
    exists c2. split; [|split_and!; cbn; (done || lia)]. unfold set_chs. cbn. do 2 f_equal. unfold put_channel. destruct (_ && _); [by rewrite delete_insert_eq|by rewrite insert_insert_eq].
  - destruct (close_reader o1 (ep_channel e) c Ec B2) as (c1 & -> & K1 & K2 & K3); [auto|]. exists c1. split; [done|]. split_and!; cbn; (done || lia).
  - rewrite ret_run. destruct (close_writer o1 (ep_channel e) c Ec B2) as (c1 & -> & K1 & K2 & K3); [auto|]. exists c1. split; [done|]. split_and!; cbn; (done || lia).
Qed.

(** ** New objects *)

Lemma objs_ok_bump o refs k a :
  objs_ok o refs -> 0 <= k -> objs_ok {| o_eps := o_eps o; o_chs := o_chs o; o_next := o_next o + k; o_allocs := a |} refs.
Proof.
  intros [Hn H1 H2 H3] Hk. split; cbn; [lia| |done|].
  - intros x e Hx. destruct (H1 x e Hx). split; cbn; (done || lia).
  - intros x c Hx. destruct (H3 x c Hx). split; cbn; (done || lia).
Qed.

Lemma fresh_addr o refs : objs_ok o refs -> o_chs o !! o_next o = None /\ forall k, 0 <= k -> o_eps o !! (o_next o + k) = None.
Proof.
  intros [Hn H1 H2 H3]. split; [|intros k Hk].
  - destruct (o_chs o !! o_next o) as [c|] eqn:E; [|done]. destruct (H3 _ c E). lia.
  - destruct (o_eps o !! (o_next o + k)) as [e|] eqn:E; [|done]. destruct (H1 _ e E). lia.
Qed.

(** An endpoint more, of a channel that is there, or that comes with it. *)
Lemma new_endpoint_ok o refs ch c ep r w next a :
  objs_ok o refs -> o_next o <= ep < next -> o_eps o !! ep = None -> 0 < ch < next -> r || w = true -> ring_ok c ->
  reader_count_ c = ends (reads ch) (o_eps o) + b2z r -> writer_count_ c = ends (writes ch) (o_eps o) + b2z w ->
  objs_ok {| o_eps := <[ep := {| ep_channel := ch; ep_is_reader := r; ep_is_writer := w; ep_refcount := 1 |}]> (o_eps o); o_chs := <[ch := c]> (o_chs o);
             o_next := next; o_allocs := a |} (refs_plus 1 ep refs).
Proof.
  intros [Hn H1 H2 H3] Hep Hnone Hch Hrw Hc HR HW. set (e := {| ep_channel := ch |}). pose proof (H2 ep Hnone) as Hz.
  assert (forall P, ends P (<[ep := e]> (o_eps o)) = ends P (o_eps o) + b2z (P e)) as Hd by (intros P; by apply ends_new).
  assert (reads ch e = r /\ writes ch e = w) as [Er Ew] by (unfold reads, writes; cbn; by rewrite Z.eqb_refl). split; cbn.
  - lia.
  - intros x e'. unfold refs_plus. destruct (decide (x = ep)) as [->|Hne].
    + rewrite lookup_insert_eq. intros [= <-]. split; cbn; rewrite ?decide_True by done; rewrite ?lookup_insert_eq; (done || lia || eauto).
    + rewrite lookup_insert_ne by done. intros Hx. destruct (H1 x e' Hx) as [A1 A2 A3 A4 A5]. split; cbn; rewrite ?decide_False by done; try done; [lia|].
      destruct (decide (ep_channel e' = ch)) as [->|]; [rewrite lookup_insert_eq; eauto|by rewrite lookup_insert_ne].
  - intros x Hx. unfold refs_plus. destruct (decide (x = ep)) as [->|Hne]; [by rewrite lookup_insert_eq in Hx|]. rewrite lookup_insert_ne in Hx by done. by apply H2.
  - intros ch' c'. destruct (decide (ch' = ch)) as [->|Hne].
    + rewrite lookup_insert_eq. intros [= <-]. pose proof (ends_nonneg (reads ch) (o_eps o)). pose proof (ends_nonneg (writes ch) (o_eps o)).
      split; cbn; rewrite ?Hd, ?Er, ?Ew; try done; try lia. destruct r, w; cbn; (done || lia).
    + rewrite lookup_insert_ne by done. intros Hx. destruct (H3 ch' c' Hx) as [D1 D2 D3 D4 D5].
      assert (reads ch' e = false /\ writes ch' e = false) as [O1 O2] by (unfold reads, writes; cbn; by rewrite (proj2 (Z.eqb_neq _ _)) by done).
      split; cbn; rewrite ?Hd, ?O1, ?O2; cbn; (done || lia).
Qed.

(** A channel nobody uses yet. *)
Lemma no_ends o refs ch : objs_ok o refs -> o_chs o !! ch = None -> ends (reads ch) (o_eps o) = 0 /\ ends (writes ch) (o_eps o) = 0.
Proof.
  intros [Hn H1 H2 H3] Hch. split; apply ends_none; intros k e He; destruct (H1 k e He) as [_ _ _ [c Hc] _]; unfold reads, writes;
    rewrite (proj2 (Z.eqb_neq _ _)); (done || congruence).
Qed.

Lemma new_channel_ok b : 0 < zlen b <= INT64_MAX -> ring_ok (new_channel (zlen b) b).
Proof. intros. split; cbn; unfold INT32_MAX; (done || lia). Qed.

(** The bytes of a channel, which opening ends leaves alone. *)
Definition same_ring (c c' : channel) : Prop := contents c' = contents c /\ capacity c' = capacity c.

Lemma add_ends_ok c (r w : bool) :
  ring_ok c -> reader_count_ c < INT32_MAX -> writer_count_ c < INT32_MAX -> exists c', ring_ok c' /\ reader_count_ c' = reader_count_ c + b2z r /\ writer_count_ c' = writer_count_ c + b2z w /\ same_ring c c' /\
    forall o ch, o_chs o !! ch = Some c ->
      ((if r then _ ← with_channel ch add_reader; mret tt else mret tt) ≫= fun _ : unit => (if w then _ ← with_channel ch add_writer; mret tt else mret tt)) o = Done tt (set_chs (<[ch := c']> (o_chs o)) o).
Proof.
  intros Hc HR HW. pose proof Hc as []. unfold INT32_MAX in *.
  assert (exists c1, ring_ok c1 /\ reader_count_ c1 = reader_count_ c + b2z r /\ writer_count_ c1 = writer_count_ c /\ same_ring c c1 /\
    forall o ch, o_chs o !! ch = Some c -> (if r then _ ← with_channel ch add_reader; mret tt else mret tt) o = Done tt (set_chs (<[ch := c1]> (o_chs o)) o)) as (c1 & K1 & K2 & K3 & K5 & K4).
  { destruct r; [|exists c; split_and!; try done; [cbn; lia|]; intros o ch E; unfold set_chs; rewrite insert_id by done; by destruct o].
    eexists. split; [|split; [|split; [|split; [|intros o ch E; rewrite bind_run; unfold with_channel; rewrite E; cbn; done]]]]; cbn; rewrite ?i32_id by (unfold INT32_MIN, INT32_MAX; lia); try done.
    by split; cbn; unfold INT32_MAX; try lia. }
  pose proof K1 as []. unfold INT32_MAX in *.
  destruct w.
  - eexists. split; [|split; [|split; [|split; [|intros o ch E; rewrite bind_run, (K4 o ch E), bind_run; unfold with_channel; cbn [o_chs set_chs]; rewrite lookup_insert_eq; cbn; unfold set_chs; cbn; rewrite insert_insert_eq; done]]]];
      cbn; rewrite ?i32_id by (unfold INT32_MIN, INT32_MAX; lia); try lia; [by split; cbn; unfold INT32_MAX; try lia|exact K5].
  - exists c1. split_and!; try done; [cbn; lia|]. intros o ch E. by rewrite bind_run, (K4 o ch E).
Qed.

Section create.
Context (can_alloc : Z -> bool).

(** Up to [MAX_CAPACITY] neither [align_size] nor the page rounding of [expand_heap] wraps. *)
Definition MAX_CAPACITY : Z := UINT64_MAX - 0xFFF.

Lemma align_size_ge size : 0 < size <= MAX_CAPACITY -> size <= align_size size.
Proof.
  intros H. unfold MAX_CAPACITY, UINT64_MAX in H. unfold align_size, MIN_ALIGNMENT, MIN_ALLOC_SIZE. rewrite (proj2 (Z.eqb_neq size 0)) by lia. cbv zeta.
  destruct (Z.eqb_spec (size mod 16) 0) as [E|E]; cbn [negb]; [case_match eqn:E2; [apply Z.ltb_lt in E2; lia|lia]|].
  rewrite (u64_id (size + 16 - 1)) by (unfold UINT64_MAX; lia).
  change (u64 (Z.lnot (16 - 1))) with (UINT64_MAX - 15). rewrite land_mask_16 by lia.
  case_match eqn:E2; [apply Z.ltb_lt in E2|]; Z.to_euclidean_division_equations; lia.
Qed.

Lemma channel_create_run cap o :
  cap <= MAX_CAPACITY -> exists x o', channel_create can_alloc cap o = Done x o' /\ exists k a, 0 <= k /\
    match x with
    | None => o' = {| o_eps := o_eps o; o_chs := o_chs o; o_next := o_next o + k; o_allocs := a |}
    | Some ch => ch = o_next o /\ k = 1 /\ exists b, 0 < zlen b <= INT64_MAX /\ zlen b = cap /\
        o' = {| o_eps := o_eps o; o_chs := <[ch := new_channel cap b]> (o_chs o); o_next := o_next o + 1; o_allocs := a |}
    end.
Proof.
  intros Hcap. unfold channel_create, new_object. rewrite bind_run. destruct (can_alloc (o_allocs o)).
  2: { eexists None, _. split; [done|]. exists 0, (o_allocs o + 1). split; [lia|]. by rewrite Z.add_0_r. }
  unfold new_block. rewrite bind_run. cbn [o_allocs]. destruct ((0 <? cap) && _ && _) eqn:E.
  - apply andb_true_iff in E as [[E1%Z.ltb_lt _]%andb_true_iff E2%Z.leb_le]. pose proof (align_size_ge cap (conj E1 Hcap)). eexists (Some (o_next o)), _. split; [done|]. eexists 1, _. split; [lia|]. split; [done|]. split; [done|].
    eexists. split; [|split; [|done]]; rewrite length_replicate; lia.
  - eexists None, _. split; [done|]. exists 1, (o_allocs o + 1 + 1). split; [lia|done].
Qed.

Lemma create_with_channel_run o ch c r w :
  o_chs o !! ch = Some c -> ring_ok c -> reader_count_ c < INT32_MAX -> writer_count_ c < INT32_MAX ->
  exists x o', create_with_channel can_alloc ch r w o = Done x o' /\
    match x with
    | None => o' = {| o_eps := o_eps o; o_chs := o_chs o; o_next := o_next o; o_allocs := o_allocs o + 1 |}
    | Some ep => ep = o_next o /\ exists c', ring_ok c' /\ reader_count_ c' = reader_count_ c + b2z r /\ writer_count_ c' = writer_count_ c + b2z w /\ same_ring c c' /\
        o' = {| o_eps := <[ep := {| ep_channel := ch; ep_is_reader := r; ep_is_writer := w; ep_refcount := 1 |}]> (o_eps o); o_chs := <[ch := c']> (o_chs o);
                o_next := o_next o + 1; o_allocs := o_allocs o + 1 |}
    end.
Proof.
  intros E Hc HR HW. destruct (add_ends_ok c r w Hc HR HW) as (c' & K1 & K2 & K3 & K5 & K4). unfold create_with_channel, new_object. rewrite bind_run.
  destruct (can_alloc (o_allocs o)); [|by eexists None, _]. rewrite bind_run. unfold modify at 1. cbn iota beta. set (o1 := set_eps _ _). specialize (K4 o1 ch E). rewrite bind_run in K4.
  eexists (Some (o_next o)), _. split; [|split; [done|exists c'; split_and!; done]]. rewrite bind_run.
  destruct ((if r then _ ← with_channel ch add_reader; mret tt else mret tt) o1) as [[] o2| |]; try done. by rewrite bind_run, K4.
Qed.

(** The endpoint made by [endpoint_create]. *)
Definition new_ep (ch : Z) (r w : bool) : endpoint := {| ep_channel := ch; ep_is_reader := r; ep_is_writer := w; ep_refcount := 1 |}.

Lemma endpoint_create_ok o refs cap r w :
  objs_ok o refs -> r || w = true -> cap <= MAX_CAPACITY -> exists x o', endpoint_create can_alloc cap r w o = Done x o' /\
    match x with
    | None => objs_ok o' refs /\ flags_stay o o'
    | Some ep => 0 < ep /\ o_eps o !! ep = None /\ objs_ok o' (refs_plus 1 ep refs) /\ flags_stay o o' /\ exists ch, o_eps o' !! ep = Some (new_ep ch r w)
    end.
Proof.
  intros Ho Hrw Hcap. unfold endpoint_create. rewrite bind_run. pose proof (oo_next _ _ Ho) as Hn. destruct (fresh_addr o refs Ho) as [Hfc Hfe].
  destruct (channel_create_run cap o Hcap) as ([ch|] & o1 & -> & k & a & Hk & H).
  2: { rewrite H. eexists None, _. split; [done|]. split; [by apply objs_ok_bump|apply flags_stay_eps; cbn; (done || lia)]. }
  destruct H as (-> & -> & b & Hb & <- & ->). set (o1 := {| o_next := o_next o + 1 |}). pose proof (new_channel_ok b Hb) as Hnc.
  destruct (create_with_channel_run o1 (o_next o) (new_channel (zlen b) b) r w) as (x & o2 & E2 & H2); [apply lookup_insert_eq|done|done|done|].
  rewrite bind_run, E2. destruct x as [ep|].
  - destruct H2 as (-> & c' & K1 & K2 & K3 & K5 & ->). eexists (Some _), _. split; [done|]. destruct (no_ends o refs (o_next o) Ho Hfc) as [N1 N2].
    split; [cbn; lia|]. split; [apply (Hfe 1); lia|]. split; [|split; [|exists (o_next o); cbn; apply lookup_insert_eq]].
    2: { apply flags_stay_eps; cbn; [lia|]. intros x Hx. rewrite lookup_insert_ne by lia. done. }
    cbn [o_chs o1]. rewrite insert_insert_eq.
    apply (new_endpoint_ok o refs); cbn; try done; try lia; [apply (Hfe 1); lia|rewrite K2, N1; done|rewrite K3, N2; done].
  - rewrite H2, bind_run. eexists None, _. split; [done|]. cbn. rewrite delete_insert_id by done. split; [by apply (objs_ok_bump o)|apply flags_stay_eps; cbn; (done || lia)].
Qed.

Lemma create_pipe_ok o refs cap :
  objs_ok o refs -> cap <= MAX_CAPACITY -> exists x o', create_pipe can_alloc cap o = Done x o' /\
    match x with
    | inl e => objs_ok o' refs /\ flags_stay o o'
    | inr (a, b) => 0 < a /\ 0 < b /\ a <> b /\ o_eps o !! a = None /\ o_eps o !! b = None /\ objs_ok o' (refs_plus 1 b (refs_plus 1 a refs)) /\
        flags_stay o o' /\ exists ch c, o_eps o' !! a = Some (new_ep ch true false) /\ o_eps o' !! b = Some (new_ep ch false true) /\
          o_chs o' !! ch = Some c /\ contents c = [] /\ capacity c = cap
    end.
Proof.
  intros Ho Hcap. unfold create_pipe. rewrite bind_run. pose proof (oo_next _ _ Ho) as Hn. destruct (fresh_addr o refs Ho) as [Hfc Hfe].
  destruct (channel_create_run cap o Hcap) as ([ch|] & o1 & -> & k & a & Hk & H).
  2: { rewrite H. eexists (inl _), _. split; [done|]. split; [by apply objs_ok_bump|apply flags_stay_eps; cbn; (done || lia)]. }
  destruct H as (-> & -> & b & Hb & <- & ->). set (o1 := {| o_next := o_next o + 1 |}). pose proof (new_channel_ok b Hb) as Hnc.
  destruct (create_with_channel_run o1 (o_next o) (new_channel (zlen b) b) true false) as (x & o2 & E2 & H2); [apply lookup_insert_eq|done|done|done|]. rewrite bind_run, E2. destruct x as [ra|].
  2: { rewrite H2, bind_run. eexists (inl _), _. split; [done|]. cbn. rewrite delete_insert_id by done. split; [by apply (objs_ok_bump o)|apply flags_stay_eps; cbn; (done || lia)]. }
  destruct H2 as (-> & c' & K1 & K2 & K3 & K5 & ->). cbn [o_next o1] in *. destruct (no_ends o refs (o_next o) Ho Hfc) as [N1 N2]. cbn in K2, K3.
  set (o2 := {| o_next := o_next o + 1 + 1 |}). assert (objs_ok o2 (refs_plus 1 (o_next o + 1) refs)) as Ho2.
  { unfold o2. cbn [o_chs o_eps o1]. rewrite insert_insert_eq. apply (new_endpoint_ok o refs); cbn; try done; try lia. apply (Hfe 1). lia. }
  destruct (create_with_channel_run o2 (o_next o) c' false true) as (x & o3 & E3 & H3); [cbn; apply lookup_insert_eq|done|rewrite K2; done|rewrite K3; done|]. rewrite bind_run, E3. destruct x as [wb|].
  - destruct H3 as (-> & c'' & L1 & L2 & L3 & L5 & ->). eexists (inr _), _. split; [done|]. cbn [o_next o2].
    assert (ends (reads (o_next o)) (o_eps o2) = 1 /\ ends (writes (o_next o)) (o_eps o2) = 0) as [N3 N4].
    { unfold o2. cbn [o_eps o1]. rewrite !ends_new by (apply (Hfe 1); lia). rewrite N1, N2. unfold reads, writes. cbn. by rewrite Z.eqb_refl. }
    split_and!; try lia; [apply (Hfe 1); lia|rewrite <- Z.add_assoc; apply (Hfe 2); lia| |
      |exists (o_next o), c''; cbn; rewrite !lookup_insert_eq, lookup_insert_ne, lookup_insert_eq by lia; destruct K5 as [F1 F2], L5 as [G1 G2]; rewrite G1, G2, F1, F2; done].
    2: { apply flags_stay_eps; cbn; [lia|]. intros x Hx. rewrite !lookup_insert_ne by lia. done. }
    apply (new_endpoint_ok o2 (refs_plus 1 (o_next o + 1) refs)); cbn [o_next o2]; try done; try (rewrite ?N3, ?N4; cbn in *; lia).
    unfold o2. cbn [o_eps o1]. rewrite lookup_insert_ne by lia. rewrite <- Z.add_assoc. apply (Hfe 2). lia.
  - rewrite H3, bind_run. clear E3 H3 o3. set (o3 := {| o_next := o_next o2 |}). assert (objs_ok o3 (refs_plus 1 (o_next o + 1) refs)) as Ho3.
    { pose proof (objs_ok_bump o2 _ 0 (o_allocs o2 + 1) Ho2) as Hb2. rewrite Z.add_0_r in Hb2. apply Hb2. lia. }
    assert (refs (o_next o + 1) = 0) as Hz by (apply (oo_none _ _ Ho), (Hfe 1); lia).
    destruct (endpoint_destroy_ok o3 _ (o_next o + 1) Ho3) as (o4 & -> & Ho4 & Hf4 & _); [unfold refs_plus; rewrite decide_True by done; rewrite Hz; done|].
    eexists (inl _), o4. split; [done|]. split; [eapply objs_ok_ext; [|exact Ho4]; intros x; unfold refs_plus; case_decide; [subst; lia|done]|].
    eapply flags_stay_trans; [|exact Hf4]. apply flags_stay_eps; cbn; [lia|]. intros x Hx. rewrite !lookup_insert_ne by lia. done.
Qed.
End create.
