(* ===== verification/IpcKernel.v ===== *)
(** * Handles to channels: the invariant of tables and objects together

    [base] counts the references to an endpoint that the table at hand does not
    hold: those of other realms, and those a call has taken and not yet stored. *)

From Stdlib Require Import ZArith Lia.
From stdpp Require Import base tactics gmap numbers list.
From S2P Require Import Prelude.
From S2P Require Import Memory.
From S2P Require Import Channel.
From S2P Require Import ChannelFacts.
From S2P Require Import ChannelProps.
From S2P Require Import KErrno.
From S2P Require Import HandleTable.
From S2P Require Import HandleTableFacts.
From S2P Require Import Ipc.
From S2P Require Import IpcFacts.

(** ** Sums *)

Fixpoint zsum (f : Z -> Z) (l : list Z) : Z := match l with [] => 0 | i :: l' => f i + zsum f l' end.

Lemma zsum_ext f g l : (forall i, i ∈ l -> f i = g i) -> zsum f l = zsum g l.
Proof. induction l as [|i l IH]; intros H; cbn; [done|]. rewrite (H i), IH by set_solver. done. Qed.

Lemma zsum_update f g l i : NoDup l -> i ∈ l -> (forall j, j ∈ l -> j <> i -> g j = f j) -> zsum g l = zsum f l - f i + g i.
Proof.
  induction l as [|j l IH]; intros Hnd Hi Hfg; [by apply not_elem_of_nil in Hi|]. apply NoDup_cons in Hnd as [Hj Hnd]. cbn. destruct (decide (j = i)) as [->|Hne].
  - rewrite (zsum_ext g f l); [lia|]. intros k Hk. apply Hfg; [set_solver|]. intros ->. done.
  - rewrite IH; [|done|set_solver|intros; apply Hfg; set_solver]. rewrite (Hfg j) by set_solver. lia.
Qed.

Lemma zsum_bounds f l m : (forall i, i ∈ l -> 0 <= f i <= m) -> 0 <= zsum f l <= m * zlen l.
Proof. induction l as [|i l IH]; intros H; cbn [zsum length]; [lia|]. specialize (IH ltac:(intros; apply H; set_solver)). assert (0 <= f i <= m) by (apply H; set_solver). lia. Qed.

Lemma zsum_ge f l i : (forall i, i ∈ l -> 0 <= f i) -> i ∈ l -> f i <= zsum f l.
Proof.
  induction l as [|j l IH]; intros H Hi; [by apply not_elem_of_nil in Hi|]. cbn. assert (0 <= f j) by (apply H; set_solver).
  assert (0 <= zsum f l). { clear -H. induction l as [|k l IH]; cbn; [done|]. assert (0 <= f k) by (apply H; set_solver). assert (0 <= zsum f l) by (apply IH; set_solver). lia. }
  apply elem_of_cons in Hi as [->|Hi]; [lia|]. specialize (IH ltac:(set_solver) Hi). lia.
Qed.

(** ** References held by a table *)

Definition slots : list Z := seqZ 0 MAX_HANDLES_PER_REALM.

Lemma elem_slots i : i ∈ slots <-> is_slot i.
Proof. unfold slots, is_slot. rewrite elem_of_seqZ. lia. Qed.

Definition has_ref (t : table objs) (x i : Z) : Z := match view t i with Some e => if he_resource e =? x then 1 else 0 | None => 0 end.
Definition table_refs (t : table objs) (x : Z) : Z := zsum (has_ref t x) slots.

Lemma has_ref_bounds t x i : 0 <= has_ref t x i <= 1.
Proof. unfold has_ref. repeat case_match; lia. Qed.

Lemma table_refs_bounds t x : 0 <= table_refs t x <= 4096.
Proof. pose proof (zsum_bounds (has_ref t x) slots 1 (fun i _ => has_ref_bounds t x i)) as H. assert (zlen slots = 4096) as Hl by (unfold slots; by rewrite length_seqZ). unfold table_refs. lia. Qed.

Lemma table_refs_set t t' i o x :
  is_slot i -> view_set t t' i o ->
  table_refs t' x = table_refs t x - has_ref t x i + match o with Some e => if he_resource e =? x then 1 else 0 | None => 0 end.
Proof.
  intros Hi [_ Hv]. unfold table_refs. rewrite (zsum_update (has_ref t x) (has_ref t' x) slots i).
  - f_equal. unfold has_ref at 1. by rewrite Hv, decide_True by done.
  - apply NoDup_seqZ.
  - by apply elem_slots.
  - intros j Hj%elem_slots Hne. unfold has_ref. by rewrite Hv, decide_False.
Qed.

Lemma table_refs_pos t i e : is_slot i -> view t i = Some e -> 0 < table_refs t (he_resource e).
Proof.
  intros Hi Hv. pose proof (zsum_ge (has_ref t (he_resource e)) slots i) as H. unfold has_ref at 2 in H. rewrite Hv, Z.eqb_refl in H. unfold table_refs.
  enough (1 <= zsum (has_ref t (he_resource e)) slots) by lia. apply H; [intros; apply has_ref_bounds|by apply elem_slots].
Qed.

(** ** Handles *)

(** What an endpoint allows, as capabilities. *)
Definition rights (e : endpoint) : Z := Z.lor (if ep_is_reader e then CAP_READ else 0) (if ep_is_writer e then CAP_WRITE else 0).

(** A handle to an endpoint: one reference, and no capability the endpoint lacks. *)
Record handle_ok (o : objs) (e : entry objs) : Prop := {
  ho_resource : he_resource e <> 0;
  ho_destroy : he_destroy e = Some endpoint_destroy;
  ho_acquire : he_acquire e = Some endpoint_ref;
  ho_refcount : he_refcount e = 1;
  ho_type : Z.land (he_type e) HANDLE_ID_MASK = 0;
  ho_rights : exists ep, o_eps o !! he_resource e = Some ep /\ Z.land (he_caps e) (rights ep) = he_caps e
}.

Definition handles_ok (t : table objs) (o : objs) : Prop := forall i e, is_slot i -> view t i = Some e -> handle_ok o e.

Record realm_inv (base : Z -> Z) (t : table objs) (o : objs) : Prop := {
  ri_table : table_ok t;
  ri_handles : handles_ok t o;
  ri_objs : objs_ok o (fun x => base x + table_refs t x)
}.

(** The references of others leave room in the counters. *)
Definition roomy (n : Z) (base : Z -> Z) : Prop := forall x, 0 <= base x <= INT32_MAX - n.
Definition base_ok : (Z -> Z) -> Prop := roomy 4200.

Lemma roomy_plus ep base : roomy 5000 base -> base_ok (refs_plus 1 ep base).
Proof. intros H x. specialize (H x). unfold refs_plus. case_decide; lia. Qed.

Lemma roomy_ok base : roomy 5000 base -> base_ok base.
Proof. intros H x. specialize (H x). lia. Qed.

Lemma rights_flags e e' : ep_is_reader e' = ep_is_reader e -> ep_is_writer e' = ep_is_writer e -> rights e' = rights e.
Proof. unfold rights. by intros -> ->. Qed.

(** A handle stays good while its endpoint is referred to. *)
Lemma handle_keep o o' refs refs' e : objs_ok o refs -> flags_stay o o' -> objs_ok o' refs' -> 0 < refs' (he_resource e) -> handle_ok o e -> handle_ok o' e.
Proof.
  intros Ho [_ Hf] Ho' Hr [H1 H2 H3 H4 H5 (ep & Hep & Hc)]. split; try done. destruct (o_eps o' !! he_resource e) as [ep'|] eqn:E; [|rewrite (oo_none _ _ Ho' _ E) in Hr; lia].
  exists ep'. split; [done|]. destruct (Hf _ _ (proj2 (eo_addr _ _ _ _ (oo_eps _ _ Ho _ _ Hep))) E) as (ep2 & E2 & F1 & F2). rewrite Hep in E2. injection E2 as <-. by rewrite (rights_flags ep ep').
Qed.

Lemma handles_keep base t o o' refs : objs_ok o refs -> flags_stay o o' -> objs_ok o' (fun x => base x + table_refs t x) -> (forall x, 0 <= base x) -> handles_ok t o -> handles_ok t o'.
Proof.
  intros Ho Hf Ho' Hb Hh i e Hi Hv. eapply handle_keep; [exact Ho|exact Hf|exact Ho'| |by eapply Hh]. cbn. pose proof (table_refs_pos t i e Hi Hv). specialize (Hb (he_resource e)). lia.
Qed.

Lemma handle_alive base t i e : base_ok base -> is_slot i -> view t i = Some e -> 0 < base (he_resource e) + table_refs t (he_resource e).
Proof. intros Hb Hi Hv. pose proof (table_refs_pos t i e Hi Hv). specialize (Hb (he_resource e)). lia. Qed.

(** ** Taking, storing and dropping references *)

Lemma take_ref base t o ep :
  realm_inv base t o -> base_ok base -> 0 < base ep + table_refs t ep ->
  exists o', endpoint_ref ep o = Done tt o' /\ realm_inv (refs_plus 1 ep base) t o' /\ flags_stay o o'.
Proof.
  intros [Ht Hh Ho] Hb Ha. pose proof (table_refs_bounds t ep). pose proof (Hb ep). unfold INT32_MAX in *.
  destruct (endpoint_ref_ok o _ ep Ho) as (o' & E & Ho' & Hf); [unfold INT32_MAX; lia|]. exists o'. split; [done|]. split; [|done].
  assert (objs_ok o' (fun x => refs_plus 1 ep base x + table_refs t x)) as Ho2 by (eapply objs_ok_ext; [|exact Ho']; intros x; unfold refs_plus; case_decide; lia).
  split; [done| |done]. eapply handles_keep; [exact Ho|done|exact Ho2| |done]. intros x. unfold refs_plus. specialize (Hb x). case_decide; lia.
Qed.

(** Dropping a reference that is not in the table. *)
Lemma drop_ref base t o ep :
  realm_inv (refs_plus 1 ep base) t o -> base_ok base -> exists o', endpoint_destroy ep o = Done tt o' /\ realm_inv base t o' /\ flags_stay o o'.
Proof.
  intros [Ht Hh Ho] Hb. pose proof (table_refs_bounds t ep) as Htr. pose proof (Hb ep) as Hbe.
  destruct (endpoint_destroy_ok o _ ep Ho) as (o' & E & Ho' & Hf & _); [unfold refs_plus; rewrite decide_True by done; unfold INT32_MAX in *; lia|].
  assert (objs_ok o' (fun x => base x + table_refs t x)) as Ho2 by (eapply objs_ok_ext; [|exact Ho']; intros x; unfold refs_plus; case_decide; lia).
  exists o'. split; [done|]. split; [|done]. split; [done| |done]. eapply handles_keep; [exact Ho|done|exact Ho2| |done]. intros x. apply Hb.
Qed.

(** Storing a reference as a handle. *)
Lemma store_ref base t t' o i e :
  realm_inv (refs_plus 1 (he_resource e) base) t o -> base_ok base -> is_slot i -> view t i = None -> table_ok t' -> view_set t t' i (Some e) -> handle_ok o e -> realm_inv base t' o.
Proof.
  intros [Ht Hh Ho] Hb Hi Hv Ht' Hset He. split; [done| |].
  - intros j e' Hj. destruct Hset as [_ Hset]. rewrite Hset by done. case_decide; [intros [= <-]; done|by apply Hh].
  - eapply objs_ok_ext; [|exact Ho]. intros x. cbn. rewrite (table_refs_set t t' i (Some e) x Hi Hset). unfold has_ref, refs_plus. rewrite Hv. destruct (Z.eqb_spec (he_resource e) x), (decide (x = he_resource e)); subst; (done || lia).
Qed.

(** Taking a handle out of the table. *)
Lemma unstore_ref base t t' o i e :
  realm_inv base t o -> is_slot i -> view t i = Some e -> table_ok t' -> view_set t t' i None -> realm_inv (refs_plus 1 (he_resource e) base) t' o.
Proof.
  intros [Ht Hh Ho] Hi Hv Ht' Hset. split; [done| |].
  - intros j e' Hj. destruct Hset as [_ Hset]. rewrite Hset by done. case_decide; [done|by apply Hh].
  - eapply objs_ok_ext; [|exact Ho]. intros x. cbn. rewrite (table_refs_set t t' i None x Hi Hset). unfold has_ref, refs_plus. rewrite Hv. destruct (Z.eqb_spec (he_resource e) x), (decide (x = he_resource e)); subst; (done || lia).
Qed.

(** ** The calls on one realm *)

Lemma on_table_run {W A} (c : M (table W) A) t (o : W) a t' : c t = Done a t' -> on_table c (t, o) = Done a (t', o).
Proof. unfold on_table, zoom. cbn. by intros ->. Qed.

Lemma on_objects_run {W A} (c : M W A) (t : table W) o a o' : c o = Done a o' -> on_objects c (t, o) = Done a (t, o').
Proof. unfold on_objects, zoom. cbn. by intros ->. Qed.

(** A call that returns and keeps the invariant of its realm. *)
Definition keeps {A} (base : Z -> Z) (c : M (table objs * objs) A) : Prop :=
  forall t o, realm_inv base t o -> exists a t' o', c (t, o) = Done a (t', o') /\ realm_inv base t' o' /\ flags_stay o o'.

Lemma keeps_ret {A} base (a : A) : keeps base (mret a).
Proof. intros t o H. exists a, t, o. split; [done|]. split; [done|apply flags_stay_refl]. Qed.

Section calls.
Context (base : Z -> Z).
Hypothesis (Hb : base_ok base).

(** [destroy] on the object of a handle, and the slot given back. *)
Lemma drop_handle t o i e :
  realm_inv base t o -> is_slot i -> view t i = Some e ->
  exists o' t1 t2, destroy_resource e o = Done tt o' /\ put_entry i zero_entry t = Done tt t1 /\ clear_bit i t1 = Done tt t2 /\
    view_set t t2 i None /\ realm_inv base t2 o' /\ flags_stay o o'.
Proof.
  intros Hi Hs Hv. pose proof (ri_table _ _ _ Hi) as Ht. assert (used_bit t i = true) as Hu by (rewrite used_view, Hv by (done || apply Ht); done).
  destruct (vacate_ok t i (to_shape _ Ht) Hs Hu) as (t1 & t2 & E1 & E2 & Hset). assert (table_ok t2) as Ht2 by (eapply view_set_ok; [done|done|done]).
  destruct (drop_ref base t2 o (he_resource e)) as (o' & E3 & Hi' & Hf); [by eapply unstore_ref|done|]. pose proof (ri_handles _ _ _ Hi i e Hs Hv) as [H1 H2 H3 H4 H5 H6].
  exists o', t1, t2. split_and!; try done. unfold destroy_resource. rewrite H2, (proj2 (Z.eqb_neq _ _)) by done. done.
Qed.

Lemma release_ok hid t o :
  realm_inv base t o -> exists t' o', release hid (t, o) = Done tt (t', o') /\ realm_inv base t' o' /\ flags_stay o o' /\
    match find t hid with Some e => view_set t t' (slot_of hid) None | None => t' = t /\ o' = o end.
Proof.
  intros Hi. pose proof (ri_table _ _ _ Hi) as Ht. unfold release, find. cbv zeta. pose proof (slot_of_nonneg hid) as Hn.
  destruct (Z.leb_spec MAX_HANDLES_PER_REALM (slot_of hid)) as [Hge|Hlt].
  { rewrite (proj2 (Z.ltb_ge _ _)) by done. exists t, o. split_and!; try done. apply flags_stay_refl. }
  rewrite (proj2 (Z.ltb_lt _ _)) by done. assert (is_slot (slot_of hid)) as Hs by (by split). rewrite bind_run, (on_table_run _ t o (used_bit t (slot_of hid)) t) by (apply test_bit_ok; [apply Ht|done]).
  rewrite used_view by (done || apply Ht). destruct (view t (slot_of hid)) as [e|] eqn:Ev; cbn [negb].
  2: { exists t, o. split_and!; try done. apply flags_stay_refl. }
  rewrite bind_run, (on_table_run _ t o e t) by (by apply get_entry_ok). destruct (Z.eqb_spec (he_hid e) hid); cbn [negb].
  2: { exists t, o. split_and!; try done. apply flags_stay_refl. }
  rewrite (ho_refcount _ _ (ri_handles _ _ _ Hi _ e Hs Ev)). change (u64 (1 - 1) =? 0) with true. cbn iota.
  destruct (drop_handle t o (slot_of hid) e Hi Hs Ev) as (o' & t1 & t2 & E1 & E2 & E3 & Hset & Hi' & Hf).
  exists t2, o'. rewrite bind_run, (on_objects_run _ t o tt o') by done. rewrite bind_run, (on_table_run _ t o' tt t1) by done. rewrite (on_table_run _ t1 o' tt t2) by done. done.
Qed.

(** A new handle for a reference at hand, or the reference is dropped again. *)
Lemma handle_for o t e hid type caps tr :
  realm_inv (refs_plus 1 (he_resource e) base) t o -> handle_ok o e -> Z.land type HANDLE_ID_MASK = 0 -> Z.land caps (he_caps e) = caps ->
  handle_ok o (new_entry hid type (he_resource e) caps tr (Some endpoint_destroy) (Some endpoint_ref)).
Proof.
  intros _ [H1 H2 H3 H4 H5 (ep & Hep & Hc)] Hty Hcaps. split; cbn; try done. exists ep. split; [done|]. rewrite <- Hcaps at 1. rewrite <- Z.land_assoc, Hc. done.
Qed.

Lemma add_handle t o ep type caps tr :
  realm_inv (refs_plus 1 ep base) t o -> Z.land type HANDLE_ID_MASK = 0 ->
  (forall hid, handle_ok o (new_entry hid type ep caps tr (Some endpoint_destroy) (Some endpoint_ref))) ->
  exists r t', add type ep caps tr (Some endpoint_destroy) (Some endpoint_ref) t = Done r t' /\
    match r with
    | inl e => t' = t /\ e = NoMem
    | inr hid => realm_inv base t' o /\ view_set t t' (slot_of hid) (Some (new_entry hid type ep caps tr (Some endpoint_destroy) (Some endpoint_ref))) /\ is_slot (slot_of hid) /\ view t (slot_of hid) = None /\ hid = Z.lor type (slot_of hid)
    end.
Proof.
  intros Hi Hty He. destruct (add_ok t type ep caps tr (Some endpoint_destroy) (Some endpoint_ref) (ri_table _ _ _ Hi) Hty) as (r & t' & E & Hr). exists r, t'. split; [done|].
  destruct r as [e|hid]; [by destruct Hr as (-> & -> & _)|]. destruct Hr as (Ht' & Hs & _ & Hv & Hset & _ & Hh). split; [|done]. by apply (store_ref base t t' o (slot_of hid) (new_entry hid type ep caps tr (Some endpoint_destroy) (Some endpoint_ref))).
Qed.

Lemma add_handle_at t o fixed ep type caps tr :
  realm_inv (refs_plus 1 ep base) t o -> Z.land type HANDLE_ID_MASK = 0 ->
  (forall hid, handle_ok o (new_entry hid type ep caps tr (Some endpoint_destroy) (Some endpoint_ref))) ->
  exists r t', add_at fixed type ep caps tr (Some endpoint_destroy) (Some endpoint_ref) t = Done r t' /\
    match r with Some e => t' = t | None => realm_inv base t' o end.
Proof.
  intros Hi Hty He. destruct (add_at_ok t fixed type ep caps tr (Some endpoint_destroy) (Some endpoint_ref) (ri_table _ _ _ Hi) Hty) as (r & t' & E & Hr). exists r, t'. split; [done|].
  destruct r as [e|]; [by destruct Hr as (_ & -> & _)|]. destruct Hr as (Ht' & Hs & Hv & Hset).
  by apply (store_ref base t t' o (slot_of fixed) (new_entry fixed type ep caps tr (Some endpoint_destroy) (Some endpoint_ref))).
Qed.
End calls.

(** ** Duplication and transfer *)

Section passing.
Context (base : Z -> Z).
Hypothesis (Hb : roomy 5000 base).

Lemma do_dup_keeps src_hid dst : keeps base (do_dup src_hid dst).
Proof.
  intros t o Hi. pose proof (ri_table _ _ _ Hi) as Ht. unfold do_dup. rewrite bind_run, (on_table_run _ t o (find t src_hid) t) by (apply lookup_ok, Ht).
  destruct (find t src_hid) as [src|] eqn:Ef; [|by apply keeps_ret]. apply table_find_some in Ef as (Hs & Hv & Hh).
  destruct (match dst with Some d => d =? src_hid | None => false end) eqn:Ed; [by apply keeps_ret|].
  pose proof (ri_handles _ _ _ Hi _ src Hs Hv) as [H1 H2 H3 H4 H5 _]. rewrite H3, (proj2 (Z.eqb_neq _ _)) by done. cbv zeta. cbn [negb].
  destruct (take_ref base t o (he_resource src) Hi (roomy_ok _ Hb)) as (o1 & E1 & Hi1 & Hf1); [by eapply handle_alive; [apply roomy_ok|..]|]. rewrite bind_run, (on_objects_run _ t o tt o1) by done.
  assert (exists t2 o2, (match dst with Some d => he ← on_table (HandleTable.lookup d); match (he : option (entry objs)) with Some _ => release d | None => mret tt end | None => mret tt end) (t, o1) = Done tt (t2, o2) /\
    realm_inv (refs_plus 1 (he_resource src) base) t2 o2 /\ flags_stay o1 o2 /\ view t2 (slot_of src_hid) = Some src) as (t2 & o2 & E2 & Hi2 & Hf2 & Hv2).
  { destruct dst as [d|]; [|exists t, o1; split_and!; (done || apply flags_stay_refl)]. rewrite bind_run, (on_table_run _ t o1 (find t d) t) by (apply lookup_ok, Ht).
    destruct (release_ok _ (roomy_plus (he_resource src) base Hb) d t o1 Hi1) as (t2 & o2 & E2 & Hi2 & Hf2 & Hr). destruct (find t d) as [e|] eqn:Efd; [|exists t, o1; split_and!; (done || apply flags_stay_refl)].
    exists t2, o2. split_and!; try done. destruct Hr as [_ Hr]. apply table_find_some in Efd as (Hsd & Hvd & Hhd). rewrite Hr by done. rewrite decide_False; [done|].
    intros Heq. rewrite <- Heq, Hv in Hvd. injection Hvd as <-. rewrite Hh in Hhd. subst. by rewrite Z.eqb_refl in Ed. }
  rewrite bind_run, E2. pose proof (ri_handles _ _ _ Hi2 _ src Hs Hv2) as Hok2. rewrite H2.
  assert (forall hid, handle_ok o2 (new_entry hid (he_type src) (he_resource src) (he_caps src) (he_transferable src) (Some endpoint_destroy) (Some endpoint_ref))) as Hnew
    by (intros hid; eapply handle_for; [exact Hi2|done|done|apply Z.land_diag]).
  assert (exists r t3, (match dst with
      | None => add (he_type src) (he_resource src) (he_caps src) (he_transferable src) (Some endpoint_destroy) (Some endpoint_ref)
      | Some d => vr ← add_at d (he_type src) (he_resource src) (he_caps src) (he_transferable src) (Some endpoint_destroy) (Some endpoint_ref);
                  mret (match (vr : option error) with None => inr d | Some e => inl e end) end) t2 = Done r t3 /\
      match r with inl e => t3 = t2 | inr hid => realm_inv base t3 o2 end) as (r & t3 & E3 & Hr).
  { destruct dst as [d|].
    - destruct (add_handle_at base (roomy_ok _ Hb) t2 o2 d (he_resource src) (he_type src) (he_caps src) (he_transferable src) Hi2 H5 Hnew) as (vr & t3 & E3 & Hr).
      rewrite bind_run, E3. destruct vr as [e|]; eexists _, t3; (split; [done|]); done.
    - destruct (add_handle base (roomy_ok _ Hb) t2 o2 (he_resource src) (he_type src) (he_caps src) (he_transferable src) Hi2 H5 Hnew) as (r & t3 & E3 & Hr).
      exists r, t3. split; [done|]. destruct r; by destruct Hr. }
  rewrite bind_run, (on_table_run _ t2 o2 r t3) by done. pose proof (flags_stay_trans _ _ _ Hf1 Hf2) as Hf. destruct r as [e|hid].
  - subst t3. destruct (drop_ref base t2 o2 (he_resource src) Hi2 (roomy_ok _ Hb)) as (o3 & E4 & Hi3 & Hf3). rewrite bind_run, (on_objects_run _ t2 o2 tt o3) by done.
    eexists _, t2, o3. split; [done|]. split; [done|]. by eapply flags_stay_trans.
  - eexists _, t3, o2. split; [done|]. done.
Qed.

(** A handle passed on: the same object, and no capability more. *)
Lemma transfer_ok t o src mask :
  realm_inv base t o -> handle_ok o src -> 0 < base (he_resource src) + table_refs t (he_resource src) ->
  exists r t' o', transfer_handle_to_realm src mask (t, o) = Done r (t', o') /\ realm_inv base t' o' /\ flags_stay o o' /\
    match r with
    | inl e => t' = t /\ (e = Acces /\ (he_transferable src = false \/ Z.land (he_caps src) mask = 0) \/ e = NoMem)
    | inr hid => he_transferable src = true /\ Z.land (he_caps src) mask <> 0 /\ is_slot (slot_of hid) /\ view t (slot_of hid) = None /\
        view_set t t' (slot_of hid) (Some (new_entry hid (he_type src) (he_resource src) (Z.land (he_caps src) mask) true (Some endpoint_destroy) (Some endpoint_ref)))
    end.
Proof.
  intros Hi Hok Ha. pose proof Hok as [H1 H2 H3 H4 H5 H6]. unfold transfer_handle_to_realm.
  destruct (he_transferable src); cbn [negb]; [|exists (inl Acces), t, o; split_and!; auto using flags_stay_refl]. cbv zeta.
  destruct (Z.eqb_spec (Z.land (he_caps src) mask) 0) as [Hz|Hz]; [exists (inl Acces), t, o; split_and!; auto using flags_stay_refl|].
  rewrite H3, (proj2 (Z.eqb_neq _ _)), H2 by done. destruct (take_ref base t o (he_resource src) Hi (roomy_ok _ Hb) Ha) as (o1 & E1 & Hi1 & Hf1).
  rewrite bind_run, (on_objects_run _ t o tt o1) by done.
  assert (handle_ok o1 src) as Hok1. { eapply (handle_keep o o1); [apply Hi|exact Hf1|apply Hi1| |done]. cbn. unfold refs_plus. rewrite decide_True by done. lia. }
  destruct (add_handle base (roomy_ok _ Hb) t o1 (he_resource src) (he_type src) (Z.land (he_caps src) mask) true Hi1 H5) as (r & t' & E2 & Hr).
  { intros hid. eapply handle_for; [exact Hi1|done|done|]. by rewrite <- Z.land_assoc, (Z.land_comm mask), Z.land_assoc, Z.land_diag. }
  rewrite bind_run, (on_table_run _ t o1 r t') by done. destruct r as [e|hid].
  - destruct Hr as [-> ->]. destruct (drop_ref base t o1 (he_resource src) Hi1 (roomy_ok _ Hb)) as (o2 & E3 & Hi2 & Hf2). rewrite bind_run, (on_objects_run _ t o1 tt o2) by done.
    exists (inl NoMem), t, o2. split_and!; try done; [by eapply flags_stay_trans|by right].
  - destruct Hr as (Hi2 & Hset & Hs & Hv & _). exists (inr hid), t', o1. split_and!; (done || apply Hs).
Qed.

(** ** Giving up all handles *)

Lemma clear_slots_ok l t o :
  (forall i, i ∈ l -> is_slot i) -> realm_inv base t o -> exists t' o', for_each l (fun i =>
    b ← on_table (test_bit i); if negb b then mret tt else he ← on_table (get_entry i); _ ← on_objects (destroy_resource he); _ ← on_table (put_entry i zero_entry); on_table (clear_bit i)) (t, o) = Done tt (t', o') /\
    realm_inv base t' o' /\ flags_stay o o' /\ (forall i, is_slot i -> view t' i = if decide (i ∈ l) then None else view t i).
Proof.
  revert t o. induction l as [|i l IH]; intros t o Hl Hi; cbn [for_each].
  { exists t, o. split_and!; try done. apply flags_stay_refl. }
  pose proof (ri_table _ _ _ Hi) as Ht. assert (is_slot i) as Hs by (apply Hl; set_solver).
  assert (exists t1 o1, (b ← on_table (test_bit i); if negb b then mret tt else he ← on_table (get_entry i); _ ← on_objects (destroy_resource he); _ ← on_table (put_entry i zero_entry); on_table (clear_bit i)) (t, o) = Done tt (t1, o1) /\
    realm_inv base t1 o1 /\ flags_stay o o1 /\ (forall j, is_slot j -> view t1 j = if decide (j = i) then None else view t j)) as (t1 & o1 & E1 & Hi1 & Hf1 & Hv1).
  { rewrite bind_run, (on_table_run _ t o (used_bit t i) t) by (apply test_bit_ok; [apply Ht|done]). rewrite used_view by (done || apply Ht). destruct (view t i) as [e|] eqn:Ev; cbn [negb].
    - rewrite bind_run, (on_table_run _ t o e t) by (by apply get_entry_ok). destruct (drop_handle base (roomy_ok _ Hb) t o i e Hi Hs Ev) as (o' & t1 & t2 & E1 & E2 & E3 & Hset & Hi' & Hf).
      exists t2, o'. rewrite bind_run, (on_objects_run _ t o tt o') by done. rewrite bind_run, (on_table_run _ t o' tt t1) by done. rewrite (on_table_run _ t1 o' tt t2) by done. split_and!; try done. apply Hset.
    - exists t, o. split_and!; try done; [apply flags_stay_refl|]. intros j Hj. case_decide; [by subst|done]. }
  rewrite bind_run, E1. destruct (IH t1 o1) as (t2 & o2 & E2 & Hi2 & Hf2 & Hv2); [intros; apply Hl; set_solver|done|]. exists t2, o2. split_and!; try done; [by eapply flags_stay_trans|].
  intros j Hj. rewrite Hv2, Hv1 by done. repeat case_decide; set_solver.
Qed.

Lemma clear_ok t o :
  realm_inv base t o -> exists t' o', clear (t, o) = Done tt (t', o') /\ realm_inv base t' o' /\ flags_stay o o' /\ forall i, is_slot i -> view t' i = None.
Proof.
  intros Hi. destruct (clear_slots_ok slots t o (fun i => proj1 (elem_slots i)) Hi) as (t' & o' & E & Hi' & Hf & Hv). exists t', o'. split_and!; try done.
  intros i Hs. rewrite Hv by done. by rewrite decide_True by (by apply elem_slots).
Qed.
End passing.
