(* ===== verification/IpcProps.v ===== *)
(** * Channels behind handles: what the system calls promise

    Realms make, duplicate, pass on, use and close handles to channels in any
    order. No call uses an object that is gone, nothing is left behind when the
    last handle goes, and no handle ever allows more than its end of the channel. *)

From Stdlib Require Import ZArith Lia.
From stdpp Require Import base tactics gmap numbers list.
From S2P Require Import Prelude.
From S2P Require Import Memory.
From S2P Require Import Slices.
From S2P Require Import Channel.
From S2P Require Import ChannelFacts.
From S2P Require Import ChannelProps.
From S2P Require Import KErrno.
From S2P Require Import HandleTable.
From S2P Require Import HandleTableFacts.
From S2P Require Import Ipc.
From S2P Require Import IpcFacts.
From S2P Require Import IpcKernel.

Lemma realm_inv_ext base base' t o : (forall x, base x = base' x) -> realm_inv base t o -> realm_inv base' t o.
Proof. intros He [H1 H2 H3]. split; [done|done|]. eapply objs_ok_ext; [|exact H3]. intros x. cbn. by rewrite He. Qed.

Lemma resolve_ok (t : table objs) hid mask caps : shape_ok t -> resolve_handle hid mask caps t = Done (match find t hid with
    | None => inl BadH
    | Some he => if negb (caps =? 0) && (Z.land (he_caps he) caps =? 0) then inl Acces
                 else if negb (mask =? 0) && negb (Z.land (he_type he) HANDLE_TYPE_MASK =? mask) then inl NotTty else inr he
    end) t.
Proof. intros Ht. unfold resolve_handle. rewrite bind_run, lookup_ok by done. destruct (find t hid); [|done]. by repeat case_match. Qed.

(** A resolved handle is one of the table. *)
Lemma resolve_run base t o hid mask caps :
  realm_inv base t o -> exists r, on_table (resolve_handle hid mask caps) (t, o) = Done r (t, o) /\
    match r with inl _ => True | inr e => is_slot (slot_of hid) /\ view t (slot_of hid) = Some e /\ he_hid e = hid /\ (caps <> 0 -> Z.land (he_caps e) caps <> 0) end.
Proof.
  intros Hi. eexists. split; [apply on_table_run, resolve_ok, Hi|]. destruct (find t hid) as [e|] eqn:Ef; [|done]. apply table_find_some in Ef as (Hs & Hv & Hh).
  destruct (negb (caps =? 0) && _) eqn:E1; [done|]. destruct (negb (mask =? 0) && _); [done|]. split_and!; try done; try apply Hs. intros Hc. rewrite (proj2 (Z.eqb_neq _ _)) in E1 by done. by apply Z.eqb_neq in E1.
Qed.

(** ** Using a channel through a handle *)

Lemma set_channel_ok base t o ch c c' :
  realm_inv base t o -> o_chs o !! ch = Some c -> ring_ok c' -> same_ends c c' -> realm_inv base t (set_chs (<[ch := c']> (o_chs o)) o) /\ flags_stay o (set_chs (<[ch := c']> (o_chs o)) o).
Proof.
  intros [Ht Hh [Hn H1 H2 H3]] Ec Hc' (E1 & E2 & _). split; [|by apply flags_stay_eps]. split; [done| |split; cbn; [done| |done|]].
  - intros i e Hi Hv. destruct (Hh i e Hi Hv). by split.
  - intros x e Hx. destruct (H1 x e Hx) as [A1 A2 A3 A4 A5]. split; cbn; try done. destruct (decide (ep_channel e = ch)) as [->|]; [rewrite lookup_insert_eq; eauto|by rewrite lookup_insert_ne].
  - intros x c0. destruct (decide (x = ch)) as [->|]; [rewrite lookup_insert_eq; intros [= <-]|rewrite lookup_insert_ne by done; intros Hx; destruct (H3 x c0 Hx); by split]. destruct (H3 ch c Ec). split; cbn; congruence.
Qed.

Lemma handle_channel base t o i e :
  realm_inv base t o -> is_slot i -> view t i = Some e -> exists ep c, get_endpoint (he_resource e) o = Done ep o /\ o_eps o !! he_resource e = Some ep /\ o_chs o !! ep_channel ep = Some c /\ ring_ok c /\
    he_resource e <> 0 /\ Z.land (he_caps e) (rights ep) = he_caps e.
Proof.
  intros [Ht Hh Ho] Hi Hv. destruct (Hh i e Hi Hv) as [H1 _ _ _ _ (ep & Hep & Hc)]. destruct (oo_eps _ _ Ho _ _ Hep) as [_ _ _ [c Ec] _].
  exists ep, c. unfold get_endpoint. rewrite Hep. split_and!; try done. by destruct (oo_chs _ _ Ho _ _ Ec).
Qed.

Lemma with_channel_run {A} o ch c (op : M channel A) a c' : o_chs o !! ch = Some c -> op c = Done a c' -> with_channel ch op o = Done a (set_chs (<[ch := c']> (o_chs o)) o).
Proof. intros Ec E. unfold with_channel. by rewrite Ec, E. Qed.

(** [send] and [recv] on any channel of the system; empty requests too. *)
Lemma send_any data c : ring_ok c -> zlen data <= SIZE_MAX -> exists r woken c', send data c = Done (r, woken) c' /\ ring_ok c' /\ same_ends c c'.
Proof.
  intros Hc Hl. destruct (decide (data = [])) as [->|Hne]; [by exists 0, [], c|]. destruct (send_ok data c Hc Hne Hl) as (r & woken & c' & E & H1 & _ & H2 & _). eauto 10.
Qed.

Lemma recv_any len c : ring_ok c -> 0 <= len -> exists r bytes woken c', recv len c = Done (r, bytes, woken) c' /\ ring_ok c' /\ same_ends c c'.
Proof.
  intros Hc Hl. destruct (decide (len = 0)) as [->|Hne]; [by exists 0, [], [], c|]. destruct (recv_ok len c Hc) as (r & bytes & woken & c' & E & H1 & _ & H2 & _); [lia|]. eauto 10.
Qed.

Lemma send_through base t o i e data :
  realm_inv base t o -> is_slot i -> view t i = Some e -> zlen data <= SIZE_MAX -> exists ep x o', get_endpoint (he_resource e) o = Done ep o /\ he_resource e <> 0 /\
    with_channel (ep_channel ep) (send data) o = Done x o' /\ realm_inv base t o' /\ flags_stay o o'.
Proof.
  intros Hi Hs Hv Hl. destruct (handle_channel base t o i e Hi Hs Hv) as (ep & c & E1 & _ & Ec & Hc & Hr & _). destruct (send_any data c Hc Hl) as (r & woken & c' & E2 & Hc' & He).
  destruct (set_channel_ok base t o _ c c' Hi Ec Hc' He) as [H1 H2]. exists ep, (r, woken). eexists. split_and!; try done. by eapply with_channel_run.
Qed.

Lemma recv_through base t o i e len :
  realm_inv base t o -> is_slot i -> view t i = Some e -> 0 <= len -> exists ep x o', get_endpoint (he_resource e) o = Done ep o /\ he_resource e <> 0 /\
    with_channel (ep_channel ep) (recv len) o = Done x o' /\ realm_inv base t o' /\ flags_stay o o'.
Proof.
  intros Hi Hs Hv Hl. destruct (handle_channel base t o i e Hi Hs Hv) as (ep & c & E1 & _ & Ec & Hc & Hr & _). destruct (recv_any len c Hc Hl) as (r & bytes & woken & c' & E2 & Hc' & He).
  destruct (set_channel_ok base t o _ c c' Hi Ec Hc' He) as [H1 H2]. exists ep, (r, bytes, woken). eexists. split_and!; try done. by eapply with_channel_run.
Qed.

(** ** Every call keeps the invariant of its realm *)

Section calls.
Context (can_alloc : Z -> bool) (base : Z -> Z).
Hypothesis (Hb : roomy 5000 base).

Lemma new_ref t o o1 ep :
  realm_inv base t o -> flags_stay o o1 -> objs_ok o1 (refs_plus 1 ep (fun x => base x + table_refs t x)) -> realm_inv (refs_plus 1 ep base) t o1.
Proof.
  intros [Ht Hh Ho] Hf Ho1. assert (objs_ok o1 (fun x => refs_plus 1 ep base x + table_refs t x)) as Ho2 by (eapply objs_ok_ext; [|exact Ho1]; intros x; unfold refs_plus; case_decide; lia).
  split; [done| |done]. eapply handles_keep; [exact Ho|exact Hf|exact Ho2| |done]. intros x. specialize (Hb x). unfold refs_plus. case_decide; lia.
Qed.

Lemma no_ref t o o1 : realm_inv base t o -> flags_stay o o1 -> objs_ok o1 (fun x => base x + table_refs t x) -> realm_inv base t o1.
Proof. intros [Ht Hh Ho] Hf Ho1. split; [done| |done]. eapply handles_keep; [exact Ho|exact Hf|exact Ho1| |done]. intros x. specialize (Hb x). lia. Qed.

(** A handle with the rights of a new endpoint. *)
Lemma end_handle o ep ch r w hid type caps :
  0 < ep -> o_eps o !! ep = Some (new_ep ch r w) -> Z.land type HANDLE_ID_MASK = 0 -> caps = rights (new_ep ch r w) ->
  handle_ok o (new_entry hid type ep caps true (Some endpoint_destroy) (Some endpoint_ref)).
Proof. intros Hp He Hty ->. split; cbn; try done; [lia|]. eexists. split; [done|]. apply Z.land_diag. Qed.

Lemma channel_create_keeps r cap k t :
  k_tables k !! r = Some t -> cap <= MAX_CAPACITY -> realm_inv base t (k_objs k) ->
  exists a t' o', sys_channel_create can_alloc r cap k = Done a {| k_tables := <[r := t']> (k_tables k); k_objs := o' |} /\ realm_inv base t' o' /\ flags_stay (k_objs k) o'.
Proof.
  intros Et Hcap Hi. unfold sys_channel_create, at_realm. rewrite Et, bind_run. set (o := k_objs k) in *. cbv zeta. set (n := if cap =? 0 then 4096 else cap).
  destruct (endpoint_create_ok can_alloc o _ n true true (ri_objs _ _ _ Hi) eq_refl) as (x & o1 & E1 & H1); [unfold n; by case_match|]. rewrite (on_objects_run _ t o x o1) by done.
  destruct x as [ep|]; [|destruct H1 as [Ho1 Hf1]; eexists _, t, o1; split; [done|]; split; [by eapply no_ref|done]].
  destruct H1 as (Hp & Hn & Ho1 & Hf1 & ch & He). pose proof (new_ref t o o1 ep Hi Hf1 Ho1) as Hi1.
  destruct (add_handle base (roomy_ok _ Hb) t o1 ep HANDLE_TYPE_CHANNEL (Z.lor CAP_READ CAP_WRITE) true Hi1 eq_refl) as (res & t' & E2 & Hr); [intros hid; by eapply end_handle|].
  unfold add_endpoint. rewrite bind_run, (on_table_run _ t o1 res t') by done. destruct res as [e|hid].
  - destruct Hr as [-> _]. destruct (drop_ref base t o1 ep Hi1 (roomy_ok _ Hb)) as (o2 & E3 & Hi2 & Hf2). rewrite bind_run, (on_objects_run _ t o1 tt o2) by done.
    eexists _, t, o2. split; [done|]. split; [done|]. by eapply flags_stay_trans.
  - destruct Hr as (Hi2 & _). eexists _, t', o1. split; [done|]. done.
Qed.

(** A pipe: both ends stored, or nothing. *)
Lemma pipe_keeps r k t :
  k_tables k !! r = Some t -> realm_inv base t (k_objs k) ->
  exists a t' o', sys_pipe can_alloc r k = Done a {| k_tables := <[r := t']> (k_tables k); k_objs := o' |} /\ realm_inv base t' o' /\ flags_stay (k_objs k) o' /\
    match a with
    | (res, None) => res < 0
    | (res, Some (rh, wh)) => res = 0 /\ exists h1 h2 a b ch c, contents c = [] /\ capacity c = PIPE_CAPACITY /\ h1 = Z.lor HANDLE_TYPE_PIPE (slot_of h1) /\ h2 = Z.lor HANDLE_TYPE_PIPE (slot_of h2) /\ rh = i64 h1 /\ wh = i64 h2 /\ is_slot (slot_of h1) /\ is_slot (slot_of h2) /\ slot_of h1 <> slot_of h2 /\
        view t' (slot_of h1) = Some (new_entry h1 HANDLE_TYPE_PIPE a CAP_READ true (Some endpoint_destroy) (Some endpoint_ref)) /\
        view t' (slot_of h2) = Some (new_entry h2 HANDLE_TYPE_PIPE b CAP_WRITE true (Some endpoint_destroy) (Some endpoint_ref)) /\
        o_eps o' !! a = Some (new_ep ch true false) /\ o_eps o' !! b = Some (new_ep ch false true) /\ o_chs o' !! ch = Some c
    end.
Proof.
  intros Et Hi. unfold sys_pipe, at_realm. rewrite Et, bind_run. set (o := k_objs k) in *.
  destruct (create_pipe_ok can_alloc o _ PIPE_CAPACITY (ri_objs _ _ _ Hi)) as (x & o1 & E1 & H1); [done|]. rewrite (on_objects_run _ t o x o1) by done.
  destruct x as [e|[a b]]; [destruct H1 as [Ho1 Hf1]; eexists _, t, o1; split; [done|]; split; [by eapply no_ref|]; split; [done|apply to_errno_neg]|].
  destruct H1 as (Ha & Hbp & Hab & Hna & Hnb & Ho1 & Hf1 & ch & c & Hea & Heb & Hec & Hcont & Hcap).
  assert (realm_inv (refs_plus 1 a (refs_plus 1 b base)) t o1) as Hi1.
  { destruct Hi as [Ht Hh Ho]. assert (objs_ok o1 (fun x => refs_plus 1 a (refs_plus 1 b base) x + table_refs t x)) as Ho2 by (eapply objs_ok_ext; [|exact Ho1]; intros x; unfold refs_plus; repeat case_decide; lia).
    split; [done| |done]. eapply handles_keep; [exact Ho|exact Hf1|exact Ho2| |done]. intros x. specialize (Hb x). unfold refs_plus. repeat case_decide; lia. }
  pose proof (roomy_plus b base Hb) as Hb1. unfold add_endpoint.
  destruct (add_handle (refs_plus 1 b base) Hb1 t o1 a HANDLE_TYPE_PIPE CAP_READ true Hi1 eq_refl) as (r1 & t1 & E2 & Hr1); [intros hid; by eapply end_handle|].
  rewrite bind_run, (on_table_run _ t o1 r1 t1) by done. destruct r1 as [e|h1].
  { destruct Hr1 as [-> _]. destruct (drop_ref (refs_plus 1 b base) t o1 a Hi1 Hb1) as (o2 & E3 & Hi2 & Hf2). destruct (drop_ref base t o2 b Hi2 (roomy_ok _ Hb)) as (o3 & E4 & Hi3 & Hf3).
    rewrite bind_run, (on_objects_run _ t o1 tt o2), bind_run, (on_objects_run _ t o2 tt o3) by done. eexists _, t, o3. split; [done|]. split; [done|].
    split; [eapply flags_stay_trans; [exact Hf1|by eapply flags_stay_trans]|apply to_errno_neg]. }
  destruct Hr1 as (Hi2 & Hset1 & Hs1 & Hv1 & Hh1).
  destruct (add_handle base (roomy_ok _ Hb) t1 o1 b HANDLE_TYPE_PIPE CAP_WRITE true Hi2 eq_refl) as (r2 & t2 & E3 & Hr2); [intros hid; by eapply end_handle|].
  rewrite bind_run, (on_table_run _ t1 o1 r2 t2) by done. destruct r2 as [e|h2].
  { destruct Hr2 as [-> _]. destruct (drop_ref base t1 o1 b Hi2 (roomy_ok _ Hb)) as (o2 & E4 & Hi3 & Hf3). rewrite bind_run, (on_objects_run _ t1 o1 tt o2) by done.
    eexists _, t1, o2. split; [done|]. split; [done|]. split; [by eapply flags_stay_trans|apply to_errno_neg]. }
  destruct Hr2 as (Hi3 & Hset2 & Hs2 & Hv2 & Hh2). eexists _, t2, o1. split; [done|]. split; [done|]. split; [done|]. split; [done|].
  exists h1, h2, a, b, ch, c.
  assert (view t1 (slot_of h1) = Some (new_entry h1 HANDLE_TYPE_PIPE a CAP_READ true (Some endpoint_destroy) (Some endpoint_ref))) as Hv1' by (destruct Hset1 as [_ Hset1]; rewrite Hset1 by done; by rewrite decide_True).
  assert (slot_of h1 <> slot_of h2) as Hne by (intros Heq; rewrite Heq in Hv1'; congruence).
  destruct Hset2 as [_ Hset2]. split_and!; try done; try apply Hs1; try apply Hs2; rewrite Hset2 by done; [by rewrite decide_False|by rewrite decide_True].
Qed.

Lemma close_keeps hid : keeps base (rh ← on_table (resolve_handle hid 0 0); match (rh : error + entry objs) with inl e => mret (to_errno e) | inr he => _ ← release (he_hid he); mret 0 end).
Proof.
  intros t o Hi. destruct (resolve_run base t o hid 0 0 Hi) as (r & E & Hr). rewrite bind_run, E. destruct r as [e|e]; [by apply keeps_ret|].
  destruct (release_ok base (roomy_ok _ Hb) (he_hid e) t o Hi) as (t' & o' & E2 & Hi' & Hf & _). rewrite bind_run, E2. eexists _, t', o'. split; [done|]. done.
Qed.

Lemma at_realm_same {A} r (c : M (table objs * objs) A) k t a : k_tables k !! r = Some t -> c (t, k_objs k) = Done a (t, k_objs k) -> at_realm r c k = Done a k.
Proof. intros Et E. unfold at_realm. rewrite Et, E, (insert_id _ _ _ Et). by destruct k. Qed.

(** A call on the table of a realm, seen from the kernel. *)
Definition keeps_in {A} (r : Z) (c : M kern A) : Prop :=
  forall k t, k_tables k !! r = Some t -> realm_inv base t (k_objs k) ->
  exists a t' o', c k = Done a {| k_tables := <[r := t']> (k_tables k); k_objs := o' |} /\ realm_inv base t' o' /\ flags_stay (k_objs k) o'.

Lemma keeps_at {A} r (c : M (table objs * objs) A) : keeps base c -> keeps_in r (at_realm r c).
Proof. intros H k t Et Hi. destruct (H t (k_objs k) Hi) as (a & t' & o' & E & H1 & H2). exists a, t', o'. unfold at_realm. by rewrite Et, E. Qed.

Lemma channel_send_keeps r hid data : zlen data <= SIZE_MAX -> keeps_in r (sys_channel_send r hid data).
Proof.
  intros Hl. apply keeps_at. intros t o Hi. destruct (resolve_run base t o hid HANDLE_TYPE_CHANNEL CAP_WRITE Hi) as (x & E & Hx). rewrite bind_run, E.
  destruct x as [e|e]; [by apply keeps_ret|]. destruct Hx as (Hs & Hv & _). destruct (send_through base t o _ e data Hi Hs Hv Hl) as (ep & y & o' & E1 & Hr & E2 & Hi' & Hf).
  rewrite (proj2 (Z.eqb_neq _ _)), bind_run, (on_objects_run _ t o ep o), bind_run, (on_objects_run _ t o y o') by done. by eexists _, t, o'.
Qed.

Lemma channel_recv_keeps r hid len : 0 <= len -> keeps_in r (sys_channel_recv r hid len).
Proof.
  intros Hl. apply keeps_at. intros t o Hi. destruct (resolve_run base t o hid HANDLE_TYPE_CHANNEL CAP_READ Hi) as (x & E & Hx). rewrite bind_run, E.
  destruct x as [e|e]; [by apply keeps_ret|]. destruct Hx as (Hs & Hv & _). destruct (recv_through base t o _ e len Hi Hs Hv Hl) as (ep & y & o' & E1 & Hr & E2 & Hi' & Hf).
  rewrite (proj2 (Z.eqb_neq _ _)), bind_run, (on_objects_run _ t o ep o), bind_run, (on_objects_run _ t o y o') by done. destruct y as [[? ?] ?]. by eexists _, t, o'.
Qed.

Lemma pipe_write_keeps r hid data : zlen data <= SIZE_MAX -> keeps_in r (pipe_write r hid data).
Proof.
  intros Hl. apply keeps_at. intros t o Hi. destruct (zlen data =? 0); [by apply keeps_ret|]. destruct (resolve_run base t o hid 0 CAP_WRITE Hi) as (x & E & Hx). rewrite bind_run, E.
  destruct x as [e|e]; [by apply keeps_ret|]. destruct Hx as (Hs & Hv & _). destruct (send_through base t o _ e data Hi Hs Hv Hl) as (ep & y & o' & E1 & Hr & E2 & Hi' & Hf).
  destruct (negb (_ =? HANDLE_TYPE_PIPE)); [by apply keeps_ret|]. rewrite (proj2 (Z.eqb_neq _ _)), bind_run, (on_objects_run _ t o ep o) by done.
  destruct (ep_is_writer ep); [|by apply keeps_ret]. cbn [negb]. rewrite bind_run, (on_objects_run _ t o y o') by done. by eexists _, t, o'.
Qed.

Lemma pipe_read_keeps r hid len : 0 <= len -> keeps_in r (pipe_read r hid len).
Proof.
  intros Hl. apply keeps_at. intros t o Hi. destruct (len =? 0); [by apply keeps_ret|]. destruct (resolve_run base t o hid 0 CAP_READ Hi) as (x & E & Hx). rewrite bind_run, E.
  destruct x as [e|e]; [by apply keeps_ret|]. destruct Hx as (Hs & Hv & _). destruct (recv_through base t o _ e len Hi Hs Hv Hl) as (ep & y & o' & E1 & Hr & E2 & Hi' & Hf).
  destruct (negb (_ =? HANDLE_TYPE_PIPE)); [by apply keeps_ret|]. rewrite (proj2 (Z.eqb_neq _ _)), bind_run, (on_objects_run _ t o ep o) by done.
  destruct (ep_is_writer ep); [by apply keeps_ret|]. rewrite bind_run, (on_objects_run _ t o y o') by done. destruct y as [[? ?] ?]. by eexists _, t, o'.
Qed.
End calls.

(** ** The kernel: all realms together *)

Definition realms (k : kern) : list Z := elements (dom (k_tables k)).
Definition refs_of (k : kern) (x : Z) : Z := zsum (fun r => match k_tables k !! r with Some t => table_refs t x | None => 0 end) (realms k).

Record kern_ok (k : kern) : Prop := {
  ko_realms : 4096 * zlen (realms k) <= INT32_MAX - 5000;
  ko_tables r t : k_tables k !! r = Some t -> table_ok t /\ handles_ok t (k_objs k);
  ko_objs : objs_ok (k_objs k) (refs_of k)
}.

Definition base_of (k : kern) (t : table objs) (x : Z) : Z := refs_of k x - table_refs t x.

Lemma elem_realms k r t : k_tables k !! r = Some t -> r ∈ realms k.
Proof. intros Et. unfold realms. apply elem_of_elements, elem_of_dom. eauto. Qed.

Lemma refs_of_ge k r t x : k_tables k !! r = Some t -> table_refs t x <= refs_of k x.
Proof.
  intros Et. unfold refs_of. pose proof (zsum_ge (fun r => match k_tables k !! r with Some t => table_refs t x | None => 0 end) (realms k) r) as H. cbn in H. rewrite Et in H. apply H.
  - intros j _. destruct (k_tables k !! j); [apply table_refs_bounds|done].
  - by eapply elem_realms.
Qed.

Lemma kern_realm k r t : kern_ok k -> k_tables k !! r = Some t -> roomy 5000 (base_of k t) /\ realm_inv (base_of k t) t (k_objs k).
Proof.
  intros [Hn Ht Ho] Et. split.
  - intros x. unfold base_of. pose proof (refs_of_ge k r t x Et). pose proof (table_refs_bounds t x).
    assert (refs_of k x <= 4096 * zlen (realms k)) by (apply zsum_bounds; intros j _; destruct (k_tables k !! j); [apply table_refs_bounds|done]). lia.
  - destruct (Ht r t Et) as [H1 H2]. split; [done|done|]. eapply objs_ok_ext; [|exact Ho]. intros x. unfold base_of. lia.
Qed.

Lemma realms_insert k r t t' o : k_tables k !! r = Some t -> realms {| k_tables := <[r := t']> (k_tables k); k_objs := o |} = realms k.
Proof. intros Et. unfold realms. cbn. f_equal. apply leibniz_equiv. rewrite dom_insert. assert (r ∈ dom (k_tables k)) by (apply elem_of_dom; eauto). set_solver. Qed.

Lemma kern_back k r t t' o' :
  kern_ok k -> k_tables k !! r = Some t -> realm_inv (base_of k t) t' o' -> flags_stay (k_objs k) o' -> kern_ok {| k_tables := <[r := t']> (k_tables k); k_objs := o' |}.
Proof.
  intros [Hn Ht Ho] Et [Ht' Hh' Ho'] Hf. set (k' := {| k_tables := _ |}). assert (realms k' = realms k) as Er by (by eapply realms_insert).
  assert (forall x, refs_of k' x = base_of k t x + table_refs t' x) as Hrefs.
  { intros x. unfold refs_of. rewrite Er. rewrite (zsum_update (fun r => match k_tables k !! r with Some t => table_refs t x | None => 0 end) _ (realms k) r).
    - unfold base_of, refs_of, k'. cbn [k_tables]. rewrite Et, lookup_insert_eq. lia.
    - unfold realms. apply NoDup_elements.
    - by eapply elem_realms.
    - intros j _ Hne. unfold k'. cbn [k_tables]. by rewrite lookup_insert_ne. }
  assert (objs_ok o' (refs_of k')) as Hok by (eapply objs_ok_ext; [|exact Ho']; intros x; by rewrite Hrefs). split; [by rewrite Er| |done].
  intros j tj. cbn [k_tables k' k_objs]. destruct (decide (j = r)) as [->|Hne]; [rewrite lookup_insert_eq; intros [= <-]; done|]. rewrite lookup_insert_ne by done. intros Ej. destruct (Ht j tj Ej) as [H1 H2].
  split; [done|]. intros i e Hi Hv. eapply handle_keep; [exact Ho|exact Hf|exact Hok| |by eapply H2]. pose proof (table_refs_pos tj i e Hi Hv) as Hp.
  pose proof (refs_of_ge k' j tj (he_resource e)) as Hge. unfold k' in Hge at 1. cbn [k_tables] in Hge. rewrite lookup_insert_ne in Hge by done. specialize (Hge Ej). lia.
Qed.

(** A call that keeps every realm's invariant keeps the kernel's. *)
Lemma call_ok_kern {A} r (c : M kern A) k :
  kern_ok k -> is_Some (k_tables k !! r) -> (forall base, roomy 5000 base -> keeps_in base r c) -> exists a k', c k = Done a k' /\ kern_ok k' /\ dom (k_tables k') = dom (k_tables k).
Proof.
  intros Hk [t Et] Hc. destruct (kern_realm k r t Hk Et) as [Hb Hi]. destruct (Hc _ Hb k t Et Hi) as (a & t' & o' & E & Hi' & Hf).
  eexists _, _. split; [exact E|]. split; [by eapply kern_back|]. cbn. apply leibniz_equiv. rewrite dom_insert. assert (r ∈ dom (k_tables k)) by (apply elem_of_dom; eauto). set_solver.
Qed.

(** ** Passing a handle on *)

Lemma drop_result {A} (c : M kern A) k a k' : c k = Done a k' -> (_ ← c; mret tt) k = Done tt k'.
Proof. intros E. by rewrite bind_run, E. Qed.

(** The transfer works on two tables. *)
Lemma transfer_run k r t hid target mask : shape_ok t -> k_tables k !! r = Some t -> sys_handle_transfer r hid target mask k =
  match find t hid with
  | None => Done (to_errno BadH) k
  | Some he =>
      match k_tables k !! target with
      | None => Done (to_errno Child) k
      | Some _ => (result ← at_realm target (transfer_handle_to_realm he mask); mret (match (result : error + Z) with inl e => to_errno e | inr h => i64 h end)) k
      end
  end.
Proof.
  intros Ht Et. unfold sys_handle_transfer. unfold mbind at 1, M_bind at 1. rewrite (at_realm_same r _ k t (match find t hid with Some he => inr he | None => inl BadH end)); [by destruct (find t hid)|done|].
  apply on_table_run. rewrite resolve_ok by done. by destruct (find t hid).
Qed.

Lemma transfer_found k r t hid target t2 mask he :
  kern_ok k -> k_tables k !! r = Some t -> find t hid = Some he -> k_tables k !! target = Some t2 ->
  exists res t2' o', sys_handle_transfer r hid target mask k = Done (match res with inl e => to_errno e | inr h => i64 h end) {| k_tables := <[target := t2']> (k_tables k); k_objs := o' |} /\
    kern_ok {| k_tables := <[target := t2']> (k_tables k); k_objs := o' |} /\
    match res with
    | inl e => t2' = t2 /\ (e = Acces /\ (he_transferable he = false \/ Z.land (he_caps he) mask = 0) \/ e = NoMem)
    | inr h => Z.land (he_caps he) mask <> 0 /\ is_slot (slot_of h) /\ view t2 (slot_of h) = None /\
        view_set t2 t2' (slot_of h) (Some (new_entry h (he_type he) (he_resource he) (Z.land (he_caps he) mask) true (Some endpoint_destroy) (Some endpoint_ref)))
    end.
Proof.
  intros Hk Et Hf E2. destruct (kern_realm k r t Hk Et) as [Hb Hi]. destruct (kern_realm k target t2 Hk E2) as [Hb2 Hi2]. destruct (table_find_some t hid he Hf) as (Hs & Hv & _).
  rewrite (transfer_run k r t) by (done || apply Hi). rewrite Hf, E2.
  pose proof (ri_handles _ _ _ Hi _ he Hs Hv) as Hok. destruct (transfer_ok _ Hb2 t2 (k_objs k) he mask Hi2 Hok) as (res & t' & o' & E3 & Hi' & Hfl & Hres).
  { unfold base_of. pose proof (table_refs_pos t _ he Hs Hv). pose proof (refs_of_ge k r t (he_resource he) Et). lia. }
  exists res, t', o'. rewrite bind_run. unfold at_realm. rewrite E2, E3. split; [done|]. split; [by eapply kern_back|]. destruct res; tauto.
Qed.

Lemma transfer_kern r h target mask k :
  kern_ok k -> is_Some (k_tables k !! r) -> exists a k', sys_handle_transfer r h target mask k = Done a k' /\ kern_ok k' /\ dom (k_tables k') = dom (k_tables k).
Proof.
  intros Hk [t Et]. destruct (kern_realm k r t Hk Et) as [_ Hi]. destruct (find t h) as [he|] eqn:Ef; [destruct (k_tables k !! target) as [t2|] eqn:E2|].
  - destruct (transfer_found k r t h target t2 mask he Hk Et Ef E2) as (res & t2' & o' & E & Hk' & _). eexists _, _. split_and!; [done|done|]. cbn. apply leibniz_equiv. rewrite dom_insert.
    assert (target ∈ dom (k_tables k)) by (apply elem_of_dom; eauto). set_solver.
  - eexists _, k. split; [|done]. rewrite (transfer_run k r t) by (done || apply Hi). by rewrite Ef, E2.
  - eexists _, k. split; [|done]. rewrite (transfer_run k r t) by (done || apply Hi). by rewrite Ef.
Qed.

(** ** Programs of system calls *)

Inductive sc :=
| Sc_pipe | Sc_create (capacity : Z) | Sc_dup (h : Z) | Sc_dup2 (h d : Z) | Sc_close (h : Z) | Sc_transfer (h target mask : Z)
| Sc_send (h : Z) (data : list Z) | Sc_recv (h len : Z) | Sc_write (h : Z) (data : list Z) | Sc_read (h len : Z) | Sc_exit.

Definition sc_ok (c : sc) : Prop :=
  match c with Sc_create capacity => capacity <= MAX_CAPACITY | Sc_send _ data | Sc_write _ data => zlen data <= SIZE_MAX | Sc_recv _ len | Sc_read _ len => 0 <= len | _ => True end.

Section programs.
Context (can_alloc : Z -> bool).

(** A call of a realm; results do not matter here. *)
Definition run_sc (rc : Z * sc) : M kern unit :=
  let r := fst rc in
  match snd rc with
  | Sc_pipe => _ ← sys_pipe can_alloc r; mret tt
  | Sc_create capacity => _ ← sys_channel_create can_alloc r capacity; mret tt
  | Sc_dup h => _ ← sys_dup r h; mret tt
  | Sc_dup2 h d => _ ← sys_dup2 r h d; mret tt
  | Sc_close h => _ ← sys_close r h; mret tt
  | Sc_transfer h target mask => _ ← sys_handle_transfer r h target mask; mret tt
  | Sc_send h data => _ ← sys_channel_send r h data; mret tt
  | Sc_recv h len => _ ← sys_channel_recv r h len; mret tt
  | Sc_write h data => _ ← pipe_write r h data; mret tt
  | Sc_read h len => _ ← pipe_read r h len; mret tt
  | Sc_exit => realm_clear r
  end.

Lemma run_sc_ok rc k :
  kern_ok k -> is_Some (k_tables k !! fst rc) -> sc_ok (snd rc) -> exists k', run_sc rc k = Done tt k' /\ kern_ok k' /\ dom (k_tables k') = dom (k_tables k).
Proof.
  destruct rc as [r c]. cbn [fst snd]. intros Hk Hr Hc. unfold run_sc. cbn [fst snd].
  assert (forall A (op : M kern A), (exists a k', op k = Done a k' /\ kern_ok k' /\ dom (k_tables k') = dom (k_tables k)) ->
    exists k', (_ ← op; mret tt) k = Done tt k' /\ kern_ok k' /\ dom (k_tables k') = dom (k_tables k)) as Hd.
  { intros A op (a & k' & E & H). exists k'. split; [by eapply drop_result|done]. }
  destruct c; cbn in Hc; try (by apply Hd, transfer_kern); try apply Hd; try (apply (call_ok_kern r); [done|done|intros base Hb]).
  - intros k0 t Et Hi. destruct (pipe_keeps can_alloc base Hb r k0 t Et Hi) as (a & t' & o' & E & H1 & H2 & _). eauto 10.
  - intros k0 t Et Hi. by eapply channel_create_keeps.
  - by apply keeps_at, do_dup_keeps.
  - by apply keeps_at, do_dup_keeps.
  - by apply keeps_at, close_keeps.
  - by apply channel_send_keeps.
  - by apply channel_recv_keeps.
  - by apply pipe_write_keeps.
  - by apply pipe_read_keeps.
  - destruct (call_ok_kern r (realm_clear r) k Hk Hr) as ([] & k' & E & H); [|eauto].
    intros base Hb. apply keeps_at. intros t o Hi. destruct (clear_ok base Hb t o Hi) as (t' & o' & E & H1 & H2 & _). eauto 10.
Qed.

Lemma run_scs_ok l k :
  kern_ok k -> (forall rc, rc ∈ l -> is_Some (k_tables k !! fst rc) /\ sc_ok (snd rc)) -> exists k', for_each l run_sc k = Done tt k' /\ kern_ok k' /\ dom (k_tables k') = dom (k_tables k).
Proof.
  revert k. induction l as [|rc l IH]; intros k Hk Hl; cbn [for_each]; [by exists k|]. destruct (run_sc_ok rc k Hk) as (k1 & E1 & Hk1 & Hd1); [apply Hl; set_solver..|].
  rewrite bind_run, E1. destruct (IH k1 Hk1) as (k2 & E2 & Hk2 & Hd2); [|exists k2; split_and!; congruence].
  intros rc' Hin. destruct (Hl rc') as [H1 H2]; [set_solver|]. split; [|done]. apply elem_of_dom. rewrite Hd1. by apply elem_of_dom.
Qed.
End programs.

(** The start: realms with empty tables, and no objects. *)
Definition empty_kern (rs : list Z) : kern :=
  {| k_tables := list_to_map ((fun r => (r, init)) <$> rs); k_objs := {| o_eps := ∅; o_chs := ∅; o_next := 1; o_allocs := 0 |} |}.

Lemma empty_table rs r t : k_tables (empty_kern rs) !! r = Some t -> t = init.
Proof. unfold empty_kern. cbn. intros H%elem_of_list_to_map_2. apply list_elem_of_fmap in H as (x & [= -> ->] & _). done. Qed.

Lemma empty_has rs r : r ∈ rs -> is_Some (k_tables (empty_kern rs) !! r).
Proof. intros Hr. unfold empty_kern. cbn. apply elem_of_dom. rewrite dom_list_to_map_L. apply elem_of_list_to_set. rewrite <- list_fmap_compose. apply list_elem_of_fmap. by exists r. Qed.

Lemma empty_realms rs : zlen (realms (empty_kern rs)) <= zlen rs.
Proof.
  unfold realms. rewrite <- (length_fmap (fun r => (r, init : table objs)) rs). unfold empty_kern. cbn. generalize ((fun r : Z => (r, init : table objs)) <$> rs). intros l.
  assert (length (elements (dom (list_to_map l : gmap Z (table objs)))) = size (list_to_map l : gmap Z (table objs))) as -> by exact (size_dom (list_to_map l : gmap Z (table objs))).
  induction l as [|[r t] l IH]; [done|]. cbn [list_to_map foldr fst snd length uncurry]. rewrite map_size_insert. destruct (list_to_map l !! r); unfold id; lia.
Qed.

Lemma empty_ok rs : 4096 * zlen rs <= INT32_MAX - 5000 -> kern_ok (empty_kern rs).
Proof.
  intros Hn. pose proof (empty_realms rs). split; [lia| |].
  - intros r t Et. rewrite (empty_table rs r t Et). split; [apply init_ok|]. intros i e Hi. by rewrite init_view.
  - split; cbn; [done|done| |done]. intros x _. unfold refs_of. rewrite (zsum_ext _ (fun _ => 0)).
    + generalize (realms (empty_kern rs)). intros l. induction l; cbn; lia.
    + intros r _. destruct (k_tables (empty_kern rs) !! r) as [t|] eqn:Et; [|done]. rewrite (empty_table rs r t Et). unfold table_refs. rewrite (zsum_ext _ (fun _ => 0)).
      * generalize slots. intros l. induction l; cbn; lia.
      * intros i Hi%elem_slots. unfold has_ref. by rewrite init_view.
Qed.

(** ** The claims *)


(** Ending all realms, one after the other. *)
Lemma exits_ok can_alloc rs k :
  kern_ok k -> (forall r, r ∈ rs -> is_Some (k_tables k !! r)) ->
  exists k', for_each ((fun r => (r, Sc_exit)) <$> rs) (run_sc can_alloc) k = Done tt k' /\ kern_ok k' /\
    (forall r t, k_tables k' !! r = Some t -> r ∈ rs /\ (forall i, is_slot i -> view t i = None) \/ r ∉ rs /\ k_tables k !! r = Some t \/ (forall i, is_slot i -> view t i = None)).
Proof.
  revert k. induction rs as [|r rs IH]; intros k Hk Hr; cbn [fmap list_fmap for_each].
  { exists k. split_and!; try done. intros r t Et. right. left. split; [set_solver|done]. }
  destruct (Hr r) as [t Et]; [set_solver|]. destruct (kern_realm k r t Hk Et) as [Hb Hi]. destruct (clear_ok _ Hb t (k_objs k) Hi) as (t' & o' & E & Hi' & Hf & Hv).
  set (k1 := {| k_tables := <[r := t']> (k_tables k); k_objs := o' |}). assert (kern_ok k1) as Hk1 by (by eapply kern_back).
  assert (run_sc can_alloc (r, Sc_exit) k = Done tt k1) as E1 by (unfold run_sc; cbn [fst snd]; unfold realm_clear, at_realm; by rewrite Et, E).
  rewrite bind_run, E1. destruct (IH k1 Hk1) as (k2 & E2 & Hk2 & Hall).
  { intros x Hx. unfold k1. cbn [k_tables]. destruct (decide (x = r)) as [->|]; [rewrite lookup_insert_eq; eauto|rewrite lookup_insert_ne by done; apply Hr; set_solver]. }
  exists k2. split_and!; try done. intros x tx Hx. destruct (Hall x tx Hx) as [[? ?]|[[Hn Hx1]|?]]; [left; split; [set_solver|done]| |by right; right].
  unfold k1 in Hx1. cbn [k_tables] in Hx1. destruct (decide (x = r)) as [->|Hne]; [rewrite lookup_insert_eq in Hx1; injection Hx1 as <-; by right; right|].
  rewrite lookup_insert_ne in Hx1 by done. right. left. split; [set_solver|done].
Qed.

(** With no handles there are no objects. *)
Lemma no_handles_no_objects k : kern_ok k -> (forall r t i, k_tables k !! r = Some t -> is_slot i -> view t i = None) -> o_eps (k_objs k) = ∅ /\ o_chs (k_objs k) = ∅.
Proof.
  intros Hk Hnone. pose proof (ko_objs k Hk) as [_ H1 H2 H3]. assert (forall x, refs_of k x = 0) as Hz.
  { intros x. unfold refs_of. rewrite (zsum_ext _ (fun _ => 0)); [induction (realms k); cbn; lia|]. intros r _. destruct (k_tables k !! r) as [t|] eqn:Et; [|done].
    unfold table_refs. rewrite (zsum_ext _ (fun _ => 0)); [induction slots; cbn; lia|]. intros i Hi%elem_slots. unfold has_ref. by rewrite (Hnone r t i Et Hi). }
  assert (o_eps (k_objs k) = ∅) as He. { apply map_empty. intros x. destruct (o_eps (k_objs k) !! x) as [e|] eqn:E; [|done]. destruct (H1 x e E). rewrite Hz in eo_alive. lia. }
  split; [done|]. apply map_empty. intros x. destruct (o_chs (k_objs k) !! x) as [c|] eqn:E; [|done]. destruct (H3 x c E). rewrite He in co_alive. rewrite !ends_none in co_alive by (intros ? ?; by rewrite lookup_empty). lia.
Qed.

(** C6. Nothing leaks: whatever the realms did with pipes and channels, of
    capacities up to 2^64 - 4096, once all of them have ended no endpoint and no
    channel is left. *)
Theorem ipc_no_leak can_alloc rs l :
  4096 * zlen rs <= INT32_MAX - 5000 -> (forall rc, rc ∈ l -> fst rc ∈ rs /\ sc_ok (snd rc)) ->
  exists k, for_each (l ++ ((fun r => (r, Sc_exit)) <$> rs)) (run_sc can_alloc) (empty_kern rs) = Done tt k /\ o_eps (k_objs k) = ∅ /\ o_chs (k_objs k) = ∅.
Proof.
  intros Hn Hl. pose proof (empty_has rs) as Hrs.
  destruct (run_scs_ok can_alloc l (empty_kern rs)) as (k1 & E1 & Hk1 & Hd1); [by apply empty_ok|intros rc Hrc; destruct (Hl rc Hrc); auto|].
  destruct (exits_ok can_alloc rs k1 Hk1) as (k2 & E2 & Hk2 & Hall); [intros r Hr; apply elem_of_dom; rewrite Hd1; apply elem_of_dom; auto|].
  exists k2. split.
  - by rewrite (for_each_app _ _ _ _ _ E1).
  - apply no_handles_no_objects; [done|]. intros r t i Et Hi. destruct (Hall r t Et) as [[_ H]|[[Hr Et1]|H]]; [by apply H| |by apply H].
    exfalso. apply Hr. assert (r ∈ dom (k_tables k1)) as Hdom by (apply elem_of_dom; eauto). rewrite Hd1 in Hdom. unfold empty_kern in Hdom. cbn in Hdom. rewrite dom_list_to_map_L in Hdom.
    apply elem_of_list_to_set in Hdom. rewrite <- list_fmap_compose in Hdom. apply list_elem_of_fmap in Hdom as (x & -> & ?). done.
Qed.

(** Handles of an endpoint allow what the endpoint allows. *)
Lemma rights_writer e caps : Z.land caps (rights e) = caps -> ep_is_writer e = false -> Z.land caps CAP_WRITE = 0.
Proof. intros <- Hw. unfold rights. rewrite Hw, Z.lor_0_r, <- Z.land_assoc. by destruct (ep_is_reader e); rewrite Z.land_0_r. Qed.

Lemma rights_reader e caps : Z.land caps (rights e) = caps -> ep_is_reader e = false -> Z.land caps CAP_READ = 0.
Proof. intros <- Hw. unfold rights. rewrite Hw, Z.lor_0_l, <- Z.land_assoc. by destruct (ep_is_writer e); rewrite Z.land_0_r. Qed.

(** The call is refused for want of the capability. *)
Lemma resolve_refused (t : table objs) (o : objs) hid mask caps he :
  table_ok t -> find t hid = Some he -> caps <> 0 -> Z.land (he_caps he) caps = 0 -> on_table (resolve_handle hid mask caps) (t, o) = Done (inl Acces) (t, o).
Proof. intros Ht Hf Hc Hz. apply on_table_run. rewrite resolve_ok by apply Ht. rewrite Hf, Hz, (proj2 (Z.eqb_neq caps 0)) by done. done. Qed.

(** C25. No handle grants more than its end: after any program of system calls
    (capacities up to 2^64 - 4096), a handle to an endpoint that does not write
    cannot be used to write, in whatever realm the handle is and however it was passed on, and likewise for
    reading; the refused call gives EACCES and changes nothing. *)
Theorem ipc_rights_confined can_alloc rs l :
  4096 * zlen rs <= INT32_MAX - 5000 -> (forall rc, rc ∈ l -> is_Some (k_tables (empty_kern rs) !! fst rc) /\ sc_ok (snd rc)) ->
  exists k, for_each l (run_sc can_alloc) (empty_kern rs) = Done tt k /\
    forall r t hid he, k_tables k !! r = Some t -> find t hid = Some he -> exists ep, o_eps (k_objs k) !! he_resource he = Some ep /\
      (ep_is_writer ep = false -> forall data, data <> [] -> sys_channel_send r hid data k = Done (-13) k /\ pipe_write r hid data k = Done (-13) k) /\
      (ep_is_reader ep = false -> forall n, 0 < n -> sys_channel_recv r hid n k = Done (-13, []) k /\ pipe_read r hid n k = Done (-13, []) k).
Proof.
  intros Hn Hl. destruct (run_scs_ok can_alloc l (empty_kern rs)) as (k & E & Hk & _); [by apply empty_ok|done|]. exists k. split; [done|].
  intros r t hid he Et Hf. destruct (ko_tables k Hk r t Et) as [Ht Hh]. destruct (table_find_some t hid he Hf) as (Hs & Hv & _). destruct (Hh _ he Hs Hv) as [_ _ _ _ _ (ep & Hep & Hr)].
  exists ep. split; [done|]. split; intros Hno.
  - intros data Hne. pose proof (rights_writer ep _ Hr Hno) as Hz. assert (zlen data <> 0) by (destruct data; [done|cbn [length]; lia]).
    split; apply (at_realm_same _ _ k t); try done; rewrite ?(proj2 (Z.eqb_neq (zlen data) 0)) by done; by rewrite bind_run, (resolve_refused t _ _ _ _ he).
  - intros n Hn0. pose proof (rights_reader ep _ Hr Hno) as Hz.
    split; apply (at_realm_same _ _ k t); try done; rewrite ?(proj2 (Z.eqb_neq n 0)) by lia; by rewrite bind_run, (resolve_refused t _ _ _ _ he).
Qed.

(** Passing a handle on: in a system in order, the transfer either fails and
    changes no table, or the target realm has one more handle, in a slot that was
    free, to the same endpoint, of the same type, with the capabilities of both the
    handle and the mask and at least one of them; every other handle is as before. *)
Theorem transfer_narrows k r t hid target t2 mask he :
  kern_ok k -> k_tables k !! r = Some t -> find t hid = Some he -> k_tables k !! target = Some t2 ->
  exists res k', sys_handle_transfer r hid target mask k = Done res k' /\ kern_ok k' /\
    ((he_transferable he = false \/ Z.land (he_caps he) mask = 0) /\ res = -13 /\ k_tables k' = k_tables k \/
     res = to_errno NoMem /\ k_tables k' = k_tables k \/
     exists h t2', res = i64 h /\ k_tables k' = <[target := t2']> (k_tables k) /\ view t2 (slot_of h) = None /\ Z.land (he_caps he) mask <> 0 /\
       find t2' h = Some (new_entry h (he_type he) (he_resource he) (Z.land (he_caps he) mask) true (Some endpoint_destroy) (Some endpoint_ref)) /\
       forall i, is_slot i -> i <> slot_of h -> view t2' i = view t2 i).
Proof.
  intros Hk Et Hf E2. destruct (transfer_found k r t hid target t2 mask he Hk Et Hf E2) as (res & t2' & o' & E & Hk' & Hres). eexists _, _. split; [exact E|]. split; [done|]. cbn [k_tables].
  destruct res as [e|h]; [destruct Hres as [-> [[-> H]| ->]]; rewrite insert_id by done; auto|]. destruct Hres as (Hc & Hs & Hfree & Hset & Hv). right. right. exists h, t2'. split_and!; try done.
  - unfold find. rewrite (proj2 (Z.ltb_lt _ _)), Hv, decide_True by (done || apply Hs). cbn. by rewrite Z.eqb_refl.
  - intros i Hi Hne. by rewrite Hv, decide_False.
Qed.

(** ** A pipe from end to end *)

Lemma find_view (t : table objs) hid e : is_slot (slot_of hid) -> view t (slot_of hid) = Some e -> he_hid e = hid -> find t hid = Some e.
Proof. intros Hs Hv Hh. unfold find. rewrite (proj2 (Z.ltb_lt _ _)), Hv by apply Hs. by rewrite Hh, Z.eqb_refl. Qed.

(** A handle of a pipe has its top bit set: it is negative as a result, and the
    same number again as an argument. *)
Lemma pipe_handle_arg h : is_slot (slot_of h) -> h = Z.lor HANDLE_TYPE_PIPE (slot_of h) -> u64 (i64 h) = h.
Proof.
  intros Hs Hh. unfold is_slot, MAX_HANDLES_PER_REALM in Hs. assert (Z.land HANDLE_TYPE_PIPE (slot_of h) = 0) as Hz by (unfold slot_of; by rewrite (Z.land_comm h), Z.land_assoc).
  rewrite <- Z.lxor_lor, <- Z.add_nocarry_lxor in Hh by done. rewrite Hh. generalize dependent (slot_of h). intros s Hs _ _.
  unfold u64, i64, wrapu, wraps, HANDLE_TYPE_PIPE. change (2 ^ (64 - 1)) with 9223372036854775808. change (2 ^ 64) with 18446744073709551616. Z.div_mod_to_equations. lia.
Qed.

Lemma pipe_write_run k r t h he ep c data :
  shape_ok t -> k_tables k !! r = Some t -> find t h = Some he -> he_caps he = CAP_WRITE -> he_type he = HANDLE_TYPE_PIPE -> he_resource he <> 0 ->
  o_eps (k_objs k) !! he_resource he = Some ep -> ep_is_writer ep = true -> o_chs (k_objs k) !! ep_channel ep = Some c ->
  ring_ok c -> has_readers c = true -> used c = 0 -> data <> [] -> zlen data <= capacity c ->
  exists c', pipe_write r h data k = Done (zlen data) {| k_tables := k_tables k; k_objs := set_chs (<[ep_channel ep := c']> (o_chs (k_objs k))) (k_objs k) |} /\
    ring_ok c' /\ contents c' = contents c ++ data.
Proof.
  intros Ht Et Hf Hcaps Hty Hr Hep Hw Hc Hring Hrd Hu Hne Hl. pose proof Hring as []. assert (0 < zlen data) by (destruct data; [done|cbn [length]; lia]).
  destruct (send_ok data c Hring Hne) as (res & woken & c' & E & Hring' & Hcont & _ & Hres); [unfold SIZE_MAX, INT64_MAX, UINT64_MAX in *; lia|].
  rewrite Hrd, Hu in Hres. cbn [negb] in Hres. rewrite (proj2 (Z.ltb_lt _ _)), Z.sub_0_r, Z.min_l in Hres by lia. subst res. exists c'. split; [|split; [done|]].
  - unfold pipe_write, at_realm. rewrite Et, (proj2 (Z.eqb_neq _ _)), bind_run, (on_table_run _ t _ (inr he) t) by (lia || (rewrite resolve_ok by done; rewrite Hf, Hcaps; done)).
    rewrite Hty, (proj2 (Z.eqb_neq (he_resource he) 0)) by done. cbn [negb]. change (Z.land HANDLE_TYPE_PIPE HANDLE_TYPE_MASK =? HANDLE_TYPE_PIPE) with true. cbn [negb].
    rewrite bind_run, (on_objects_run _ t _ ep (k_objs k)) by (unfold get_endpoint; by rewrite Hep). rewrite Hw. cbn [negb].
    rewrite bind_run, (on_objects_run _ t _ (zlen data, woken) (set_chs (<[ep_channel ep := c']> (o_chs (k_objs k))) (k_objs k))) by (by eapply with_channel_run). by rewrite ret_run, insert_id.
  - rewrite Hcont, Z.max_r by lia. by rewrite slice_all.
Qed.

Lemma pipe_read_run k r t h he ep c n :
  shape_ok t -> k_tables k !! r = Some t -> find t h = Some he -> he_caps he = CAP_READ -> he_type he = HANDLE_TYPE_PIPE -> he_resource he <> 0 ->
  o_eps (k_objs k) !! he_resource he = Some ep -> ep_is_writer ep = false -> o_chs (k_objs k) !! ep_channel ep = Some c ->
  ring_ok c -> contents c <> [] -> zlen (contents c) <= n ->
  exists k', pipe_read r h n k = Done (zlen (contents c), contents c) k'.
Proof.
  intros Ht Et Hf Hcaps Hty Hr Hep Hw Hc Hring Hne Hl. assert (0 < zlen (contents c)) as Hpos by (destruct (contents c); [done|cbn [length]; lia]).
  pose proof (contents_length c Hring) as Hlen. destruct (recv_ok n c Hring) as (res & bytes & woken & c' & E & Hring' & Hcont & _ & Hres & Hb); [lia|].
  rewrite (proj2 (Z.ltb_lt _ _)), Z.min_r in Hres by lia. subst res. rewrite Z.max_r, <- Hlen, slice_all in Hb by lia. subst bytes.
  eexists. unfold pipe_read, at_realm. rewrite Et, (proj2 (Z.eqb_neq _ _)), bind_run, (on_table_run _ t _ (inr he) t) by (lia || (rewrite resolve_ok by done; rewrite Hf, Hcaps; done)).
  rewrite Hty, (proj2 (Z.eqb_neq (he_resource he) 0)) by done. change (Z.land HANDLE_TYPE_PIPE HANDLE_TYPE_MASK =? HANDLE_TYPE_PIPE) with true. cbn [negb].
  rewrite bind_run, (on_objects_run _ t _ ep (k_objs k)) by (unfold get_endpoint; by rewrite Hep). rewrite Hw.
  rewrite bind_run, (on_objects_run _ t _ (used c, contents c, woken) (set_chs (<[ep_channel ep := c']> (o_chs (k_objs k))) (k_objs k))) by (by eapply with_channel_run). rewrite ret_run, Hlen. done.
Qed.

(** C26. A pipe carries its bytes: when [sys_pipe] succeeds, whatever the state of
    the system, bytes written to the writing handle it stored come back, all and in
    order, from the reading handle; the handles are passed as the caller got them,
    as signed numbers. *)
Theorem pipe_roundtrip can_alloc k r t rh wh k1 data n :
  kern_ok k -> k_tables k !! r = Some t -> sys_pipe can_alloc r k = Done (0, Some (rh, wh)) k1 -> 0 < zlen data <= PIPE_CAPACITY -> zlen data <= n ->
  exists k2 k3, pipe_write r (u64 wh) data k1 = Done (zlen data) k2 /\ pipe_read r (u64 rh) n k2 = Done (zlen data, data) k3.
Proof.
  intros Hk Et E Hd Hn. destruct (kern_realm k r t Hk Et) as [Hb Hi]. destruct (pipe_keeps can_alloc _ Hb r k t Et Hi) as (a & t' & o' & E' & Hi' & _ & Hres).
  rewrite E in E'. injection E' as <- ->. destruct Hres as (_ & h1 & h2 & a & b & ch & c & Hcont & Hcap & Hh1 & Hh2 & -> & -> & Hs1 & Hs2 & _ & Hv1 & Hv2 & Ha & Hbb & Hc).
  rewrite !pipe_handle_arg by done. destruct (oo_chs _ _ (ri_objs _ _ _ Hi') _ _ Hc) as [_ Hring Hrd _ _]. pose proof (contents_length c Hring) as Hlen. rewrite Hcont in Hlen.
  assert (data <> []) as Hne by (intros ->; cbn in Hd; lia). cbn in Hlen.
  set (k1 := {| k_tables := <[r := t']> (k_tables k); k_objs := o' |}). pose proof (ri_table _ _ _ Hi') as [Hsh _].
  assert (forall h x caps, view t' (slot_of h) = Some (new_entry h HANDLE_TYPE_PIPE x caps true (Some endpoint_destroy) (Some endpoint_ref)) -> is_slot (slot_of h) -> x <> 0) as Hnz.
  { intros h x caps Hv Hs. exact (ho_resource _ _ (ri_handles _ _ _ Hi' _ _ Hs Hv)). }
  destruct (pipe_write_run k1 r t' h2 (new_entry h2 HANDLE_TYPE_PIPE b CAP_WRITE true (Some endpoint_destroy) (Some endpoint_ref)) (new_ep ch false true) c data) as (c' & E1 & Hring' & Hcont');
    try done; try lia; [apply lookup_insert_eq|by apply find_view|by eapply Hnz| |].
  { unfold has_readers. rewrite Hrd. apply Z.ltb_lt. eapply ends_some; [exact Ha|]. unfold reads. cbn. by rewrite Z.eqb_refl. }
  rewrite Hcont in Hcont'. cbn [app] in Hcont'. set (k2 := {| k_tables := k_tables k1; k_objs := _ |}) in E1.
  destruct (pipe_read_run k2 r t' h1 (new_entry h1 HANDLE_TYPE_PIPE a CAP_READ true (Some endpoint_destroy) (Some endpoint_ref)) (new_ep ch true false) c' n) as (k3 & E2); try done;
    [apply lookup_insert_eq|by apply find_view|by eapply Hnz|apply lookup_insert_eq|by rewrite Hcont'|by rewrite Hcont'|].
  rewrite Hcont' in E2. eauto.
Qed.

(** ** The claims on examples *)

(** Two realms: the first makes a pipe, a channel and a copy of the reading end,
    hands the writing end to the second and closes its own; the second writes. *)
Definition demo_realms : list Z := [1; 2].
Definition demo_program : list (Z * sc) :=
  [(1, Sc_pipe); (1, Sc_create 64); (1, Sc_dup (HANDLE_TYPE_PIPE + 4)); (1, Sc_transfer (HANDLE_TYPE_PIPE + 5) 2 CAP_WRITE); (1, Sc_close (HANDLE_TYPE_PIPE + 5));
   (2, Sc_write (HANDLE_TYPE_PIPE + 4) [104; 105]); (1, Sc_read (HANDLE_TYPE_PIPE + 4) 16); (2, Sc_exit)].

Lemma demo_program_ok rc : rc ∈ demo_program -> fst rc ∈ demo_realms /\ sc_ok (snd rc).
Proof.
  revert rc. apply Forall_forall. unfold demo_program, demo_realms. repeat (apply Forall_cons; split; [cbn; split; [set_solver|done]|]). by apply Forall_nil.
Qed.


Lemma ipc_no_leak_witness :
  exists k, for_each (demo_program ++ ((fun r => (r, Sc_exit)) <$> demo_realms)) (run_sc (fun _ => true)) (empty_kern demo_realms) = Done tt k /\ o_eps (k_objs k) = ∅ /\ o_chs (k_objs k) = ∅.
Proof. apply ipc_no_leak; [done|]. apply demo_program_ok. Defined.

Lemma ipc_rights_confined_witness :
  exists k, for_each demo_program (run_sc (fun n => n <? 7)) (empty_kern demo_realms) = Done tt k /\
    forall r t hid he, k_tables k !! r = Some t -> find t hid = Some he -> exists ep, o_eps (k_objs k) !! he_resource he = Some ep /\
      (ep_is_writer ep = false -> forall data, data <> [] -> sys_channel_send r hid data k = Done (-13) k /\ pipe_write r hid data k = Done (-13) k) /\
      (ep_is_reader ep = false -> forall n, 0 < n -> sys_channel_recv r hid n k = Done (-13, []) k /\ pipe_read r hid n k = Done (-13, []) k).
Proof. apply ipc_rights_confined; [done|]. intros rc [H1 H2]%demo_program_ok. split; [by apply empty_has|done]. Defined.

(** ** Capacities next to 2^64 *)

(** A capacity that [align_size] wraps around: the channel is made with a buffer of
    16 bytes and the capacity 2^64 - 1, and sending 17 bytes writes past the buffer. *)
Theorem channel_create_overruns :
  exists k, sys_channel_create (fun _ => true) 1 UINT64_MAX (empty_kern [1]) = Done (HANDLE_TYPE_CHANNEL + 4) k /\
    (exists ch c, o_chs (k_objs k) !! ch = Some c /\ zlen (buf_ c) = 16 /\ capacity c = UINT64_MAX) /\
    sys_channel_send 1 (HANDLE_TYPE_CHANNEL + 4) (replicate 17 0) k = Undef.
Proof.
  assert (match sys_channel_create (fun _ => true) 1 UINT64_MAX (empty_kern [1]) with
          | Done h k => (h =? HANDLE_TYPE_CHANNEL + 4) &&
              match o_chs (k_objs k) !! 1 with Some c => (zlen (buf_ c) =? 16) && (capacity c =? UINT64_MAX) | None => false end &&
              match sys_channel_send 1 (HANDLE_TYPE_CHANNEL + 4) (replicate 17 0) k with Undef => true | _ => false end
          | _ => false end = true) as H by (vm_compute; reflexivity).
  destruct (sys_channel_create _ _ _ _) as [h k| |]; try discriminate H. apply andb_true_iff in H as [[->%Z.eqb_eq H1]%andb_true_iff H2].
  exists k. split; [done|]. split; [|by destruct (sys_channel_send _ _ _ _)]. destruct (o_chs (k_objs k) !! 1) as [c|] eqn:Ec; [|discriminate H1].
  apply andb_true_iff in H1 as [E1%Z.eqb_eq E2%Z.eqb_eq]. by exists 1, c.
Qed.

(** After the first call: the handles are [HANDLE_TYPE_PIPE + 4] and [+ 5]. *)
Definition demo_kern : kern := match sys_pipe (fun _ => true) 1 (empty_kern demo_realms) with Done _ k => k | _ => empty_kern demo_realms end.

Lemma demo_kern_ok : kern_ok demo_kern.
Proof.
  unfold demo_kern. destruct (call_ok_kern 1 (sys_pipe (fun _ => true) 1) (empty_kern demo_realms)) as (a & k' & -> & Hk & _); [by apply empty_ok|apply empty_has; set_solver| |done].
  intros base Hb k t Et Hi. destruct (pipe_keeps (fun _ => true) base Hb 1 k t Et Hi) as (a & t' & o' & E & H1 & H2 & _). eauto 10.
Qed.

Lemma transfer_narrows_witness :
  exists t he t2, k_tables demo_kern !! 1 = Some t /\ find t (HANDLE_TYPE_PIPE + 4) = Some he /\ k_tables demo_kern !! 2 = Some t2 /\
  exists res k', sys_handle_transfer 1 (HANDLE_TYPE_PIPE + 4) 2 CAP_READ demo_kern = Done res k' /\ kern_ok k' /\
    ((he_transferable he = false \/ Z.land (he_caps he) CAP_READ = 0) /\ res = -13 /\ k_tables k' = k_tables demo_kern \/
     res = to_errno NoMem /\ k_tables k' = k_tables demo_kern \/
     exists h t2', res = i64 h /\ k_tables k' = <[2 := t2']> (k_tables demo_kern) /\ view t2 (slot_of h) = None /\ Z.land (he_caps he) CAP_READ <> 0 /\
       find t2' h = Some (new_entry h (he_type he) (he_resource he) (Z.land (he_caps he) CAP_READ) true (Some endpoint_destroy) (Some endpoint_ref)) /\
       forall i, is_slot i -> i <> slot_of h -> view t2' i = view t2 i).
Proof.
  assert (match k_tables demo_kern !! 1, k_tables demo_kern !! 2 with Some t, Some _ => match find t (HANDLE_TYPE_PIPE + 4) with Some _ => true | None => false end | _, _ => false end = true) as H by (vm_compute; reflexivity).
  destruct (k_tables demo_kern !! 1) as [t|] eqn:E1; [|done]. destruct (k_tables demo_kern !! 2) as [t2|] eqn:E2; [|done]. destruct (find t (HANDLE_TYPE_PIPE + 4)) as [he|] eqn:Ef; [|done].
  exists t, he, t2. split; [reflexivity|]. split; [exact Ef|]. split; [reflexivity|]. exact (transfer_narrows demo_kern 1 t (HANDLE_TYPE_PIPE + 4) 2 t2 CAP_READ he demo_kern_ok E1 Ef E2).
Defined.

Lemma pipe_roundtrip_witness :
  exists rh wh k1 k2 k3, sys_pipe (fun _ => true) 2 demo_kern = Done (0, Some (rh, wh)) k1 /\ pipe_write 2 (u64 wh) [104; 105] k1 = Done 2 k2 /\ pipe_read 2 (u64 rh) 80 k2 = Done (2, [104; 105]) k3.
Proof.
  assert (0 < zlen [104; 105] <= PIPE_CAPACITY /\ zlen [104; 105] <= 80) as [L1 L2] by done.
  assert (match k_tables demo_kern !! 2 with Some _ => match sys_pipe (fun _ => true) 2 demo_kern with Done (0, Some _) _ => true | _ => false end | None => false end = true) as H by (vm_compute; reflexivity).
  destruct (k_tables demo_kern !! 2) as [t|] eqn:Et; [|discriminate H]. destruct (sys_pipe (fun _ => true) 2 demo_kern) as [[[| |] [[rh wh]|]] k1| |] eqn:E; try discriminate H.
  destruct (pipe_roundtrip (fun _ => true) demo_kern 2 t rh wh k1 [104; 105] 80 demo_kern_ok Et E L1 L2) as (k2 & k3 & E1 & E2). exists rh, wh, k1, k2, k3. split; [reflexivity|]. split; [exact E1|exact E2].
Defined.
