(* ===== verification/PageFrame.v ===== *)
(** * kernel/paging: the page frame allocator

    bitmap.cpp and page_frame_allocator.cpp. Every public function runs under
    the allocator's spinlock with interrupts off, so that a call is one atomic
    step. A memory map is the list of its EFI descriptors. *)

From stdpp Require Import base tactics list gmap numbers.
From Stdlib Require Import ZArith Lia.
From S2P Require Import Prelude.
From S2P Require Import Memory.

Definition PAGE_SIZE : Z := 4096.
Definition FOUR_GB : Z := 4294967296.

(** [EFI_MEMORY_DESCRIPTOR], the fields the allocator reads. *)
Record descriptor := { d_type : Z; d_phys_addr : Z; d_num_pages : Z }.

(** The fields of [PageFrameAllocator]; [page_bitmap.size] is the length of
    [bm_buffer], and [bm_at] the address the buffer lies at. *)
Record pfa := {
  bm_buffer : list Z;
  bm_at : Z;
  free_memory_ : Z;
  reserved_memory_ : Z;
  used_memory_ : Z;
  total_memory_ : Z;
  page_bitmap_index_ : Z;
  initialized_ : bool
}.

Definition bm_size (p : pfa) : Z := zlen (bm_buffer p).

Definition set_buffer b (p : pfa) : pfa :=
  {| bm_buffer := b; bm_at := bm_at p; free_memory_ := free_memory_ p; reserved_memory_ := reserved_memory_ p;
     used_memory_ := used_memory_ p; total_memory_ := total_memory_ p;
     page_bitmap_index_ := page_bitmap_index_ p; initialized_ := initialized_ p |}.
Definition set_hint i (p : pfa) : pfa :=
  {| bm_buffer := bm_buffer p; bm_at := bm_at p; free_memory_ := free_memory_ p; reserved_memory_ := reserved_memory_ p;
     used_memory_ := used_memory_ p; total_memory_ := total_memory_ p;
     page_bitmap_index_ := i; initialized_ := initialized_ p |}.
Definition set_counts f r u (p : pfa) : pfa :=
  {| bm_buffer := bm_buffer p; bm_at := bm_at p; free_memory_ := f; reserved_memory_ := r;
     used_memory_ := u; total_memory_ := total_memory_ p;
     page_bitmap_index_ := page_bitmap_index_ p; initialized_ := initialized_ p |}.

(** ** Bitmap *)

Definition bit_indexer (index : Z) : Z := Z.shiftr 128 (index mod 8).

(** [buffer[i]] behind the end of the buffer is undefined. *)
Definition bitmap_get (index : Z) : M pfa bool :=
  p ← get;
  if bm_size p * 8 <? index then mret false
  else match bm_buffer p !! Z.to_nat (index / 8) with
       | None => undefined
       | Some b => mret (0 <? Z.land b (bit_indexer index))
       end.

Definition bitmap_set (index : Z) (value : bool) : M pfa bool :=
  p ← get;
  if bm_size p * 8 <? index then mret false
  else
    let k := Z.to_nat (index / 8) in
    match bm_buffer p !! k with
    | None => undefined
    | Some b =>
        let b := Z.land b (Z.lnot (bit_indexer index)) in
        let b := if value then Z.lor b (bit_indexer index) else b in
        _ ← put (set_buffer (<[k := b]> (bm_buffer p)) p);
        mret true
    end.

(** ** One page *)

Definition lock_page_nolock (address : Z) : M pfa unit :=
  let index := address / PAGE_SIZE in
  b ← bitmap_get index;
  if (b : bool) then mret tt
  else
    ok ← bitmap_set index true;
    when ok (modify (fun p => set_counts (u64 (free_memory_ p - PAGE_SIZE)) (reserved_memory_ p) (u64 (used_memory_ p + PAGE_SIZE)) p)).

Definition free_page_nolock (phys_addr : Z) : M pfa unit :=
  let index := phys_addr / PAGE_SIZE in
  b ← bitmap_get index;
  if negb b then mret tt
  else
    ok ← bitmap_set index false;
    when ok
      (_ ← modify (fun p => set_counts (u64 (free_memory_ p + PAGE_SIZE)) (reserved_memory_ p) (u64 (used_memory_ p - PAGE_SIZE)) p);
       modify (fun p => if index <? page_bitmap_index_ p then set_hint index p else p)).

Definition reserve_page_nolock (address : Z) : M pfa unit :=
  let index := address / PAGE_SIZE in
  b ← bitmap_get index;
  if (b : bool) then mret tt
  else
    ok ← bitmap_set index true;
    when ok (modify (fun p => set_counts (u64 (free_memory_ p - PAGE_SIZE)) (u64 (reserved_memory_ p + PAGE_SIZE)) (used_memory_ p) p)).

Definition unreserve_page_nolock (address : Z) : M pfa unit :=
  let index := address / PAGE_SIZE in
  b ← bitmap_get index;
  if negb b then mret tt
  else
    ok ← bitmap_set index false;
    when ok
      (_ ← modify (fun p => set_counts (u64 (free_memory_ p + PAGE_SIZE)) (u64 (reserved_memory_ p - PAGE_SIZE)) (used_memory_ p) p);
       modify (fun p => if index <? page_bitmap_index_ p then set_hint index p else p)).

(** [for (t = 0; t < page_count; t++) f(address + t * PAGE_SIZE);] *)
Definition for_pages (f : Z -> M pfa unit) (address page_count : Z) : M pfa unit :=
  for_each (seqZ 0 page_count) (fun t => f (u64 (address + t * PAGE_SIZE))).

Definition free_page (phys_addr : Z) : M pfa unit := free_page_nolock phys_addr.
Definition free_pages (address page_count : Z) : M pfa unit := for_pages free_page_nolock address page_count.
Definition lock_page (address : Z) : M pfa unit := lock_page_nolock address.
Definition lock_pages (address page_count : Z) : M pfa unit := for_pages lock_page_nolock address page_count.
Definition reserve_page (address : Z) : M pfa unit := reserve_page_nolock address.
Definition reserve_pages (address page_count : Z) : M pfa unit := for_pages reserve_page_nolock address page_count.
Definition unreserve_page (address : Z) : M pfa unit := unreserve_page_nolock address.
Definition unreserve_pages (address page_count : Z) : M pfa unit := for_pages unreserve_page_nolock address page_count.

(** ** Requests *)

Definition request_page_nolock (fuel : nat) : M pfa Z :=
  while fuel (fun _ : unit =>
    p ← get;
    if page_bitmap_index_ p <? bm_size p * 8 then
      b ← bitmap_get (page_bitmap_index_ p);
      if (b : bool) then _ ← put (set_hint (page_bitmap_index_ p + 1) p); mret (inl tt)
      else
        _ ← lock_page_nolock (page_bitmap_index_ p * PAGE_SIZE);
        mret (inr (page_bitmap_index_ p * PAGE_SIZE))
    else mret (inr 0)) tt.

Definition request_page (fuel : nat) : M pfa Z := request_page_nolock fuel.

(** The check of a block that starts at [i]: the first [j] at which it is
    blocked, or [None]. *)
Definition block_free (fuel : nat) (max_pages page_count i : Z) : M pfa (option Z) :=
  while fuel (fun j =>
    if j <? page_count then
      if max_pages <=? i + j then mret (inr (Some j))
      else
        b ← bitmap_get (i + j);
        mret (if (b : bool) then inr (Some j) else inl (j + 1))
    else mret (inr None)) 0.

Definition request_pages (fuel : nat) (page_count : Z) : M pfa Z :=
  if page_count =? 0 then mret 0
  else if page_count =? 1 then request_page fuel
  else
    p ← get;
    let max_pages := bm_size p * 8 in
    while fuel (fun i =>
      if i <? max_pages then
        blocked ← block_free fuel max_pages page_count i;
        match blocked with
        | Some j => mret (inl (i + j + 1))
        | None =>
            _ ← for_each (seqZ 0 page_count) (fun j => lock_page_nolock ((i + j) * PAGE_SIZE));
            mret (inr (i * PAGE_SIZE))
        end
      else mret (inr 0)) 0.

(** ** Start-up *)

Definition get_memory_size (m_map : list descriptor) : Z :=
  foldl (fun bytes d => u64 (bytes + d_num_pages d * 4096)) 0 m_map.

(** Where the bitmap goes: the largest free segment that ends below 4 GB, or the
    largest one. *)
Definition pick_segments (m_map : list descriptor) : (Z * Z) * (Z * Z) :=
  foldl (fun '(largest, bitmap) d =>
    if negb (d_type d =? 7) then (largest, bitmap)
    else
      let seg_size := u64 (d_num_pages d * PAGE_SIZE) in
      let largest := if snd largest <? seg_size then (d_phys_addr d, seg_size) else largest in
      let fits_below_4g := u64 (d_phys_addr d + seg_size) <=? FOUR_GB in
      let bitmap := if fits_below_4g && (snd bitmap <? seg_size) then (d_phys_addr d, seg_size) else bitmap in
      (largest, bitmap)) ((0, 0), (0, 0)) m_map.

Definition bitmap_segment (m_map : list descriptor) : Z :=
  let '(largest, bitmap) := pick_segments m_map in
  if fst bitmap =? 0 then fst largest else fst bitmap.

Definition init_bitmap (bitmap_size buffer_address : Z) : M pfa unit :=
  modify (fun p =>
    {| bm_buffer := replicate (Z.to_nat bitmap_size) 0; bm_at := buffer_address;
       free_memory_ := free_memory_ p; reserved_memory_ := reserved_memory_ p;
       used_memory_ := used_memory_ p; total_memory_ := total_memory_ p;
       page_bitmap_index_ := page_bitmap_index_ p; initialized_ := initialized_ p |}).

Definition usable_type (t : Z) : bool := (t =? 7) || (t =? 1) || (t =? 2) || (t =? 3) || (t =? 4).

Definition read_efi_memory_map (m_map : list descriptor) : M pfa unit :=
  done ← gets initialized_;
  if (done : bool) then mret tt
  else
    let bitmap_seg := bitmap_segment m_map in
    let memory_size := get_memory_size m_map in
    _ ← modify (fun p =>
          {| bm_buffer := bm_buffer p; bm_at := bm_at p; free_memory_ := memory_size; reserved_memory_ := 0;
             used_memory_ := 0; total_memory_ := memory_size;
             page_bitmap_index_ := page_bitmap_index_ p; initialized_ := true |});
    _ ← init_bitmap (memory_size / PAGE_SIZE / 8 + 1) bitmap_seg;
    _ ← reserve_pages 0 (memory_size / PAGE_SIZE + 1);
    _ ← for_each m_map (fun d => when (usable_type (d_type d)) (unreserve_pages (d_phys_addr d) (d_num_pages d)));
    _ ← reserve_pages 0 256;
    p ← get;
    lock_pages (bm_at p) (bm_size p / PAGE_SIZE + 1).

(** The allocator before start-up. *)
Definition pfa_zero : pfa :=
  {| bm_buffer := []; bm_at := 0; free_memory_ := 0; reserved_memory_ := 0; used_memory_ := 0;
     total_memory_ := 0; page_bitmap_index_ := 0; initialized_ := false |}.
