(* ===== verification/PageFrameFacts.v ===== *)
(** * The page frame allocator: its bitmap and its operations, frame by frame *)

From Stdlib Require Import ZArith Lia.
From stdpp Require Import base tactics gmap numbers list.
From S2P Require Import Prelude.
From S2P Require Import Memory.
From S2P Require Import PageFrame.

(** The frames the bitmap has a bit for, and the bit of a frame. *)
Definition cap (p : pfa) : Z := bm_size p * 8.

Definition bit (p : pfa) (i : Z) : bool :=
  match bm_buffer p !! Z.to_nat (i / 8) with
  | Some b => Z.testbit b (7 - i mod 8)
  | None => false
  end.

(** ** Bits *)

Lemma bit_indexer_pow i : bit_indexer i = 2 ^ (7 - i mod 8).
Proof.
  unfold bit_indexer. pose proof (Z.mod_pos_bound i 8).
  rewrite Z.shiftr_div_pow2 by lia. change 128 with (2 ^ 7).
  replace 7 with (7 - i mod 8 + i mod 8) at 1 by lia.
  rewrite Z.pow_add_r by lia. apply Z.div_mul. lia.
Qed.

Lemma land_pow b k : 0 <= k -> (0 <? Z.land b (2 ^ k)) = Z.testbit b k.
Proof.
  intros Hk.
  assert (Z.land b (2 ^ k) = if Z.testbit b k then 2 ^ k else 0) as ->.
  { apply Z.bits_inj'. intros j Hj. rewrite Z.land_spec, pow_testbit by lia.
    case_bool_decide as Hc; [subst j|].
    - destruct (Z.testbit b k) eqn:E; [|by rewrite Z.bits_0]. by rewrite pow_testbit, bool_decide_eq_true_2 by lia.
    - rewrite andb_false_r. destruct (Z.testbit b k); [|by rewrite Z.bits_0].
      by rewrite pow_testbit, bool_decide_eq_false_2 by lia. }
  destruct (Z.testbit b k); [apply Z.ltb_lt; lia|done].
Qed.

Lemma byte_index p i : 0 <= i < cap p -> (Z.to_nat (i / 8) < length (bm_buffer p))%nat.
Proof. unfold cap, bm_size. intros. assert (i / 8 < zlen (bm_buffer p)) by (apply Z.div_lt_upper_bound; lia). lia. Qed.

Lemma bitmap_get_ok p i : 0 <= i < cap p -> bitmap_get i p = Done (bit p i) p.
Proof.
  intros Hi. unfold bitmap_get, bit. mstep. unfold cap in Hi.
  destruct (Z.ltb_spec (bm_size p * 8) i); [lia|].
  destruct (lookup_lt_is_Some_2 _ _ (byte_index p i Hi)) as [b Hb]. rewrite Hb.
  pose proof (Z.mod_pos_bound i 8). by rewrite bit_indexer_pow, land_pow by lia.
Qed.

(** [p'] has the bits of [p], but for those of [S], which are [v]. *)
Definition bits_set (p p' : pfa) (S : Z -> Prop) (v : bool) : Prop :=
  (bm_size p', bm_at p') = (bm_size p, bm_at p) /\ forall j, 0 <= j ->
    (S j -> bit p' j = v) /\ (~ S j -> bit p' j = bit p j).

Lemma bitmap_set_ok p i v :
  0 <= i < cap p -> exists b, bitmap_set i v p = Done true (set_buffer b p) /\ bits_set p (set_buffer b p) (eq i) v.
Proof.
  intros Hi. unfold bitmap_set. mstep. pose proof (byte_index p i Hi) as Hk. unfold cap in Hi.
  destruct (Z.ltb_spec (bm_size p * 8) i); [lia|].
  destruct (lookup_lt_is_Some_2 _ _ Hk) as [b Hb]. rewrite Hb. mstep.
  eexists. split; [reflexivity|]. split; [unfold bm_size; cbn; by rewrite length_insert|].
  intros j Hj. pose proof (Z.mod_pos_bound i 8). pose proof (Z.mod_pos_bound j 8).
  unfold bit. cbn [bm_buffer set_buffer]. rewrite bit_indexer_pow.
  assert (forall k, 0 <= k -> Z.testbit (if v then Z.lor (Z.land b (Z.lnot (2 ^ (7 - i mod 8)))) (2 ^ (7 - i mod 8))
                     else Z.land b (Z.lnot (2 ^ (7 - i mod 8)))) k =
                   if decide (7 - i mod 8 = k) then v else Z.testbit b k) as Hbit.
  { intros k Hk'. destruct v; rewrite ?Z.lor_spec, Z.land_spec, Z.lnot_spec, pow_testbit by lia;
      destruct (decide (7 - i mod 8 = k)) as [->|Hne]; rewrite ?bool_decide_eq_true_2, ?bool_decide_eq_false_2 by done;
      cbn; by rewrite ?andb_false_r, ?andb_true_r, ?orb_false_r, ?orb_true_r. }
  split.
  - intros <-. rewrite list_lookup_insert_eq by done. rewrite Hbit by lia. by rewrite decide_True.
  - intros Hne. destruct (decide (Z.to_nat (j / 8) = Z.to_nat (i / 8))) as [He|He].
    + rewrite He, list_lookup_insert_eq, Hb by done. rewrite Hbit by lia. rewrite decide_False; [done|].
      intros Hm. apply Hne. assert (j / 8 = i / 8) by (pose proof (Z.div_pos i 8); pose proof (Z.div_pos j 8); lia).
      pose proof (Z.div_mod i 8). pose proof (Z.div_mod j 8). lia.
    + rewrite list_lookup_insert_ne by done. done.
Qed.

Lemma bits_set_trans p q r (S T : Z -> Prop) v :
  (forall j, Decision (T j)) ->
  bits_set p q S v -> bits_set q r T v -> bits_set p r (fun j => S j \/ T j) v.
Proof.
  intros Hdec [H1 H2] [H3 H4]. split; [congruence|]. intros j Hj.
  destruct (H2 j Hj) as [H2a H2b], (H4 j Hj) as [H4a H4b], (Hdec j) as [HT|HT].
  - split; [auto|]. tauto.
  - split; [|intros; rewrite H4b, H2b; tauto]. intros [HS|]; [|done]. rewrite H4b; auto.
Qed.

Lemma bits_set_ext p q (S T : Z -> Prop) v :
  (forall j, 0 <= j -> S j <-> T j) -> bits_set p q S v -> bits_set p q T v.
Proof. intros He [H1 H2]. split; [done|]. intros j Hj. specialize (He j Hj). destruct (H2 j Hj). tauto. Qed.

Lemma bits_set_same p q i v : bits_set p q (eq i) v -> 0 <= i -> bit q i = v.
Proof. intros [_ H] Hi. by destruct (H i Hi) as [-> _]. Qed.

Lemma bits_set_cap p q S v : bits_set p q S v -> cap q = cap p.
Proof. unfold cap. by intros [[= -> _] _]. Qed.

Lemma bits_set_at p q S v : bits_set p q S v -> bm_at q = bm_at p.
Proof. by intros [[= _ ->] _]. Qed.

(** Setting a bit to what it is changes nothing. *)
Lemma bits_set_noop p i v : bit p i = v -> bits_set p p (eq i) v.
Proof. intros Hv. split; [done|]. intros j Hj. split; [by intros <-|done]. Qed.

(** ** The hint: every frame below it is taken *)

Definition hint_ok (p : pfa) : Prop :=
  0 <= page_bitmap_index_ p <= cap p /\ forall j, 0 <= j < page_bitmap_index_ p -> bit p j = true.

Lemma hint_ok_true p q S :
  (forall j, Decision (S j)) ->
  bits_set p q S true -> page_bitmap_index_ q = page_bitmap_index_ p -> hint_ok p -> hint_ok q.
Proof.
  intros Hdec Hb Hi [H1 H2]. split; [rewrite Hi, (bits_set_cap _ _ _ _ Hb); lia|]. rewrite Hi. intros j Hj.
  destruct Hb as [_ Hb]. destruct (Hb j) as [Ha Hn]; [lia|]. destruct (Hdec j); [auto|rewrite Hn; auto].
Qed.

Lemma hint_ok_false p q i :
  bits_set p q (eq i) false -> 0 <= i < cap p -> page_bitmap_index_ q = Z.min i (page_bitmap_index_ p) ->
  hint_ok p -> hint_ok q.
Proof.
  intros Hb Hi Hq [H1 H2]. split; [rewrite Hq, (bits_set_cap _ _ _ _ Hb); lia|]. rewrite Hq. intros j Hj.
  destruct Hb as [_ Hb]. destruct (Hb j) as [_ Hn]; [lia|]. rewrite Hn by lia. apply H2. lia.
Qed.

(** ** One page *)

(** What an operation on frame [i] does, when it gives the bit the value [v]:
    the other frames keep theirs, the hint stays right, and the counters move
    by a page if the bit did change. *)
Definition moved (p q : pfa) (f r u : Z) : Prop :=
  u64 (free_memory_ q) = u64 (free_memory_ p + f * PAGE_SIZE) /\
  u64 (reserved_memory_ q) = u64 (reserved_memory_ p + r * PAGE_SIZE) /\
  u64 (used_memory_ q) = u64 (used_memory_ p + u * PAGE_SIZE).

Lemma u64_u64_add x y : u64 (u64 x + y) = u64 (x + y).
Proof. unfold u64, wrapu. by rewrite Zplus_mod_idemp_l. Qed.

Lemma u64_twice x : u64 (u64 x) = u64 x.
Proof. unfold u64, wrapu. by rewrite Zmod_mod. Qed.

Lemma moved_refl p : moved p p 0 0 0.
Proof. split_and!; f_equal; lia. Qed.

Lemma moved_trans p q r f1 r1 u1 f2 r2 u2 :
  moved p q f1 r1 u1 -> moved q r f2 r2 u2 -> moved p r (f1 + f2) (r1 + r2) (u1 + u2).
Proof.
  intros (A1 & A2 & A3) (B1 & B2 & B3). split_and!.
  - rewrite B1, <- u64_u64_add, A1, u64_u64_add. f_equal. lia.
  - rewrite B2, <- u64_u64_add, A2, u64_u64_add. f_equal. lia.
  - rewrite B3, <- u64_u64_add, A3, u64_u64_add. f_equal. lia.
Qed.

Section one_page.
Context (p : pfa) (a : Z).
Let i := a / PAGE_SIZE.
Hypothesis (Hi : 0 <= a / PAGE_SIZE < cap p).

(** The four operations, on a frame whose bit changes. *)
Lemma lock_page_ok :
  bit p i = false ->
  exists q, lock_page_nolock a p = Done tt q /\ bits_set p q (eq i) true /\
    page_bitmap_index_ q = page_bitmap_index_ p /\ moved p q (-1) 0 1.
Proof.
  intros Hb. unfold lock_page_nolock. fold i. mstep. rewrite bitmap_get_ok, Hb by done.
  destruct (bitmap_set_ok p i true Hi) as (b & Hs & Hbs). rewrite bind_run, Hs. mstep.
  eexists. split_and!; [reflexivity|exact Hbs|done|]. split_and!; cbn; rewrite ?u64_twice; f_equal; lia.
Qed.

Lemma reserve_page_ok :
  bit p i = false ->
  exists q, reserve_page_nolock a p = Done tt q /\ bits_set p q (eq i) true /\
    page_bitmap_index_ q = page_bitmap_index_ p /\ moved p q (-1) 1 0.
Proof.
  intros Hb. unfold reserve_page_nolock. fold i. mstep. rewrite bitmap_get_ok, Hb by done.
  destruct (bitmap_set_ok p i true Hi) as (b & Hs & Hbs). rewrite bind_run, Hs. mstep.
  eexists. split_and!; [reflexivity|exact Hbs|done|]. split_and!; cbn; rewrite ?u64_twice; f_equal; lia.
Qed.

Lemma free_page_ok :
  bit p i = true ->
  exists q, free_page_nolock a p = Done tt q /\ bits_set p q (eq i) false /\
    page_bitmap_index_ q = Z.min i (page_bitmap_index_ p) /\ moved p q 1 0 (-1).
Proof.
  intros Hb. unfold free_page_nolock. fold i. mstep. rewrite bitmap_get_ok, Hb by done. mstep.
  destruct (bitmap_set_ok p i false Hi) as (b & Hs & Hbs). rewrite Hs. mstep.
  eexists. split; [reflexivity|]. cbn [page_bitmap_index_ set_counts set_buffer].
  destruct (Z.ltb_spec i (page_bitmap_index_ p)); split_and!; try exact Hbs; try (cbn; lia);
    split_and!; cbn; rewrite ?u64_twice; f_equal; lia.
Qed.

Lemma unreserve_page_ok :
  bit p i = true ->
  exists q, unreserve_page_nolock a p = Done tt q /\ bits_set p q (eq i) false /\
    page_bitmap_index_ q = Z.min i (page_bitmap_index_ p) /\ moved p q 1 (-1) 0.
Proof.
  intros Hb. unfold unreserve_page_nolock. fold i. mstep. rewrite bitmap_get_ok, Hb by done. mstep.
  destruct (bitmap_set_ok p i false Hi) as (b & Hs & Hbs). rewrite Hs. mstep.
  eexists. split; [reflexivity|]. cbn [page_bitmap_index_ set_counts set_buffer].
  destruct (Z.ltb_spec i (page_bitmap_index_ p)); split_and!; try exact Hbs; try (cbn; lia);
    split_and!; cbn; rewrite ?u64_twice; f_equal; lia.
Qed.
End one_page.

(** ** Runs of pages *)

(** The operation gives the bit of its frame the value [v], whatever it was. *)
Definition gives (op : Z -> M pfa unit) (v : bool) : Prop := forall p a,
  0 <= a / PAGE_SIZE < cap p ->
  exists q, op a p = Done tt q /\ bits_set p q (eq (a / PAGE_SIZE)) v /\ (hint_ok p -> hint_ok q).

Ltac noop_page :=
  match goal with H : bit ?p ?i = ?v |- _ =>
    exists p; split; [mstep; rewrite bitmap_get_ok by done; by rewrite H|]; split; [by apply bits_set_noop|done]
  end.

Lemma lock_gives : gives lock_page_nolock true.
Proof.
  intros p a Hi. destruct (bit p (a / PAGE_SIZE)) eqn:Hb.
  - unfold lock_page_nolock. noop_page.
  - destruct (lock_page_ok p a Hi Hb) as (q & Hq & Hs & Hh & _). exists q. split_and!; [done..|].
    by apply (hint_ok_true _ _ _ _ Hs).
Qed.

Lemma reserve_gives : gives reserve_page_nolock true.
Proof.
  intros p a Hi. destruct (bit p (a / PAGE_SIZE)) eqn:Hb.
  - unfold reserve_page_nolock. noop_page.
  - destruct (reserve_page_ok p a Hi Hb) as (q & Hq & Hs & Hh & _). exists q. split_and!; [done..|].
    by apply (hint_ok_true _ _ _ _ Hs).
Qed.

Lemma free_gives : gives free_page_nolock false.
Proof.
  intros p a Hi. destruct (bit p (a / PAGE_SIZE)) eqn:Hb.
  - destruct (free_page_ok p a Hi Hb) as (q & Hq & Hs & Hh & _). exists q. split_and!; [done..|].
    by apply (hint_ok_false _ _ _ Hs).
  - unfold free_page_nolock. noop_page.
Qed.

Lemma unreserve_gives : gives unreserve_page_nolock false.
Proof.
  intros p a Hi. destruct (bit p (a / PAGE_SIZE)) eqn:Hb.
  - destruct (unreserve_page_ok p a Hi Hb) as (q & Hq & Hs & Hh & _). exists q. split_and!; [done..|].
    by apply (hint_ok_false _ _ _ Hs).
  - unfold unreserve_page_nolock. noop_page.
Qed.

Lemma page_of i : i * PAGE_SIZE / PAGE_SIZE = i.
Proof. by apply Z.div_mul. Qed.

(** The frames from [i] on, [n] of them. *)
Definition run (i n j : Z) : Prop := i <= j < i + n.
#[global] Instance run_dec i n j : Decision (run i n j).
Proof. unfold run. solve_decision. Defined.

Lemma each_gives {A} (l : list A) (at_ : A -> Z) op v : gives op v -> forall p,
  Forall (fun x => 0 <= at_ x / PAGE_SIZE < cap p) l ->
  exists q, for_each l (fun x => op (at_ x)) p = Done tt q /\
    bits_set p q (fun j => exists x, x ∈ l /\ at_ x / PAGE_SIZE = j) v /\ (hint_ok p -> hint_ok q).
Proof.
  intros Hop. induction l as [|x l IH]; intros p Hl; cbn [for_each].
  - exists p. split_and!; [done| |done]. split; [done|]. intros j Hj. split; [|done].
    intros (y & Hy & _). by apply not_elem_of_nil in Hy.
  - inversion Hl; subst. destruct (Hop p (at_ x)) as (q & Hq & Hs & Hh); [done|].
    rewrite bind_run, Hq. destruct (IH q) as (r & Hr & Ht & Hh').
    { by rewrite (bits_set_cap _ _ _ _ Hs). }
    exists r. split_and!; [done| |tauto].
    eapply bits_set_ext; [|eapply (bits_set_trans _ _ _ _ _ _ _ Hs Ht)].
    intros j Hj. cbn. setoid_rewrite elem_of_cons. naive_solver.
  Unshelve. intros j. destruct (decide (Exists (fun x => at_ x / PAGE_SIZE = j) l)) as [He|He];
    rewrite Exists_exists in He; [left|right]; exact He.
Qed.

Lemma for_pages_gives op v p i n :
  gives op v -> 0 <= i -> 0 <= n -> i + n <= cap p -> cap p * PAGE_SIZE <= UINT64_MAX ->
  exists q, for_pages op (i * PAGE_SIZE) n p = Done tt q /\ bits_set p q (run i n) v /\ (hint_ok p -> hint_ok q).
Proof.
  intros Hop Hi Hn Hc Hw. unfold for_pages, PAGE_SIZE in *.
  assert (forall t, 0 <= t < n -> u64 (i * 4096 + t * 4096) / 4096 = i + t) as Hat.
  { intros t Ht. rewrite u64_id by lia. rewrite <- Z.mul_add_distr_r. by apply Z.div_mul. }
  destruct (each_gives (seqZ 0 n) (fun t => u64 (i * 4096 + t * 4096)) op v Hop p) as (q & Hq & Hs & Hh).
  { apply Forall_forall. intros t Ht%elem_of_seqZ. unfold PAGE_SIZE. rewrite Hat; lia. }
  exists q. split_and!; [done| |done]. eapply bits_set_ext; [|done].
  intros j Hj. unfold run, PAGE_SIZE. split.
  - intros (t & Ht%elem_of_seqZ & <-). rewrite Hat; lia.
  - intros Hr. exists (j - i). rewrite elem_of_seqZ. rewrite Hat by lia. lia.
Qed.

(** ** Requests *)

(** Locking a run of free frames. *)
Lemma lock_run_ok i n : 0 <= i -> forall p,
  (forall j, run i (Z.of_nat n) j -> 0 <= j < cap p /\ bit p j = false) ->
  exists q, for_each (seqZ 0 (Z.of_nat n)) (fun j => lock_page_nolock ((i + j) * PAGE_SIZE)) p = Done tt q /\
    bits_set p q (run i (Z.of_nat n)) true /\ page_bitmap_index_ q = page_bitmap_index_ p /\
    moved p q (- Z.of_nat n) 0 (Z.of_nat n).
Proof.
  intros Hi. induction n as [|n IH]; intros p Hr.
  - exists p. split_and!; [done| |done|apply moved_refl]. split; [done|]. intros j Hj. unfold run. split; [lia|done].
  - rewrite seqZ_S, Z.add_0_l.
    destruct (IH p) as (q & Hq & Hs & Hh & Hm). { intros j Hj. apply Hr. unfold run in *. lia. }
    assert (0 <= i + Z.of_nat n < cap p /\ bit p (i + Z.of_nat n) = false) as [Hc Hb] by (apply Hr; unfold run; lia).
    destruct (lock_page_ok q ((i + Z.of_nat n) * PAGE_SIZE)) as (r & Hr' & Ht & Hh' & Hm').
    { rewrite page_of, (bits_set_cap _ _ _ _ Hs). done. }
    { rewrite page_of. destruct Hs as [_ Hs]. destruct (Hs (i + Z.of_nat n)) as [_ ->]; [lia|done|]. unfold run. lia. }
    exists r. split_and!.
    + eapply for_each_snoc; [exact Hq|exact Hr'].
    + eapply bits_set_ext; [|eapply (bits_set_trans _ _ _ _ _ _ _ Hs Ht)].
      intros j Hj. cbn. rewrite page_of. unfold run. lia.
    + congruence.
    + pose proof (moved_trans _ _ _ _ _ _ _ _ _ Hm Hm') as H.
      replace (- Z.of_nat (S n)) with (- Z.of_nat n + -1) by lia. replace (Z.of_nat (S n)) with (Z.of_nat n + 1) by lia.
      exact H.
Qed.

Definition no_bits (_ : Z) : Prop := False.

Lemma bits_set_none p v : bits_set p p no_bits v.
Proof. by split; [|intros j Hj; split]. Qed.

(** What [request_page] found: the lowest free frame, or that there is none. *)
Definition page_found (p q : pfa) (r : Z) : Prop :=
  hint_ok q /\
  ((exists i, r = i * PAGE_SIZE /\ 0 <= i < cap p /\ bit p i = false /\ (forall j, 0 <= j < i -> bit p j = true) /\
      bits_set p q (eq i) true /\ moved p q (-1) 0 1) \/
   (r = 0 /\ (forall j, 0 <= j < cap p -> bit p j = true) /\ bits_set p q no_bits true /\ moved p q 0 0 0)).

Lemma request_page_ok fuel p :
  hint_ok p -> (Z.to_nat (cap p - page_bitmap_index_ p) < fuel)%nat ->
  exists r q, request_page fuel p = Done r q /\ page_found p q r.
Proof.
  unfold request_page, request_page_nolock. revert p.
  induction fuel as [|fuel IH]; intros p [Hh1 Hh2] Hf; [lia|]. rewrite while_S. mstep. fold (cap p).
  destruct (Z.ltb_spec (page_bitmap_index_ p) (cap p)).
  - rewrite bind_run, bitmap_get_ok by lia. destruct (bit p (page_bitmap_index_ p)) eqn:Hb.
    + mstep. set (p' := set_hint _ p).
      assert (hint_ok p') as Hok.
      { split; [unfold p', cap, bm_size in *; cbn; lia|]. intros j Hj. change (bit p' j) with (bit p j).
        cbn in Hj. destruct (decide (j = page_bitmap_index_ p)) as [->|]; [done|]. apply Hh2. lia. }
      destruct (IH p') as (r & q & Hq & Hok' & Hr); [done|unfold p', cap, bm_size in *; cbn; lia|].
      exists r, q. split; [done|]. split; [done|]. exact Hr.
    + destruct (lock_page_ok p (page_bitmap_index_ p * PAGE_SIZE)) as (q & Hq & Hs & Hi & Hm); rewrite ?page_of in *; [lia|done|].
      rewrite bind_run, Hq. mstep. eexists _, _. split; [reflexivity|]. split.
      * by eapply (hint_ok_true _ _ _ _ Hs).
      * left. exists (page_bitmap_index_ p). split_and!; try done; lia.
  - eexists _, _. split; [reflexivity|]. split; [done|]. right. split_and!; [done| |apply bits_set_none|apply moved_refl].
    intros j Hj. apply Hh2. lia.
Qed.

(** The free runs of [n] frames. *)
Definition free_run (p : pfa) (n i : Z) : Prop := forall j, run i n j -> 0 <= j < cap p /\ bit p j = false.

Lemma block_free_ok fuel p n i :
  0 <= i -> 0 <= n -> (Z.to_nat n < fuel)%nat ->
  exists b, block_free fuel (cap p) n i p = Done b p /\
    match b with
    | None => free_run p n i
    | Some j => 0 <= j < n /\ ~ (0 <= i + j < cap p /\ bit p (i + j) = false)
    end.
Proof.
  intros Hi Hn Hf. unfold block_free.
  enough (forall f k, 0 <= k <= n -> (Z.to_nat (n - k) < f)%nat -> (forall j, run i k j -> 0 <= j < cap p /\ bit p j = false) ->
    exists b, while f (fun j => if j <? n then if cap p <=? i + j then mret (inr (Some j))
        else b ← bitmap_get (i + j); mret (if (b : bool) then inr (Some j) else inl (j + 1)) else mret (inr None)) k p = Done b p /\
      match b with None => free_run p n i | Some j => 0 <= j < n /\ ~ (0 <= i + j < cap p /\ bit p (i + j) = false) end) as H.
  { apply H; [lia..|]. unfold run. lia. }
  induction f as [|f IH]; intros k Hk Hf' Hr; [lia|]. rewrite while_S.
  destruct (Z.ltb_spec k n); mstep.
  - destruct (Z.leb_spec (cap p) (i + k)); mstep.
    + eexists. split; [done|]. split; [lia|]. lia.
    + rewrite bitmap_get_ok by lia. destruct (bit p (i + k)) eqn:Hb; mstep.
      * eexists. split; [done|]. split; [lia|]. intros [_ ?]. congruence.
      * apply IH; [lia..|]. intros j Hj. unfold run in *.
        destruct (decide (j = i + k)) as [->|]; [split; [lia|done]|]. apply Hr. lia.
  - eexists. split; [done|]. assert (k = n) as -> by lia. exact Hr.
Qed.

(** What [request_pages] found: the lowest free run, or that there is none. *)
Definition run_found (p q : pfa) (n r : Z) : Prop :=
  (exists i, r = i * PAGE_SIZE /\ 0 <= i /\ free_run p n i /\ (forall k, 0 <= k < i -> ~ free_run p n k) /\
     bits_set p q (run i n) true /\ moved p q (- n) 0 n) \/
  (r = 0 /\ (forall k, 0 <= k -> ~ free_run p n k) /\ bits_set p q no_bits true /\ moved p q 0 0 0).

Lemma request_pages_ok fuel p n :
  2 <= n -> (Z.to_nat n < fuel)%nat -> (Z.to_nat (cap p) < fuel)%nat ->
  exists r q, request_pages fuel n p = Done r q /\ run_found p q n r /\ page_bitmap_index_ q = page_bitmap_index_ p.
Proof.
  intros Hn Hf Hc. unfold request_pages. repeat (zcase; [lia|]). mstep. fold (cap p).
  enough (forall f i, 0 <= i -> (Z.to_nat (cap p - i) < f)%nat -> (forall k, 0 <= k < i -> ~ free_run p n k) ->
    exists r q, while f (fun i => if i <? cap p then
        blocked ← block_free fuel (cap p) n i;
        match blocked with
        | Some j => mret (inl (i + j + 1))
        | None => _ ← for_each (seqZ 0 n) (fun j => lock_page_nolock ((i + j) * PAGE_SIZE)); mret (inr (i * PAGE_SIZE))
        end else mret (inr 0)) i p = Done r q /\ run_found p q n r /\ page_bitmap_index_ q = page_bitmap_index_ p) as H.
  { apply H; lia. }
  induction f as [|f IH]; intros i Hi Hf' Hk; [lia|]. rewrite while_S.
  destruct (Z.ltb_spec i (cap p)); mstep.
  - destruct (block_free_ok fuel p n i) as (b & -> & Hb); [lia..|]. destruct b as [j|]; mstep.
    + destruct Hb as [Hj Hb]. apply IH; [lia..|]. intros k Hk' Hr.
      destruct (decide (k < i)); [by apply (Hk k); [lia|]|]. apply Hb, Hr. unfold run. lia.
    + destruct (lock_run_ok i (Z.to_nat n)) with (p := p) as (q & Hq & Hs & Hh & Hm); [lia|rewrite Z2Nat.id by lia; exact Hb|].
      rewrite Z2Nat.id in * by lia. rewrite Hq. eexists _, _. split; [reflexivity|]. split; [|done].
      left. exists i. done.
  - eexists _, _. split; [reflexivity|]. split; [|done]. right.
    split_and!; [done| |apply bits_set_none|apply moved_refl].
    intros k Hk' Hr. destruct (decide (k < i)); [by apply (Hk k); [lia|]|]. assert (run k n k) as [? _]%Hr by (unfold run; lia). lia.
Qed.
