(* ===== verification/PageFrameProps.v ===== *)
(** * The page frame allocator: what its callers can rely on

    Callers on all processors request and free frames; the allocator's lock
    makes every call one step. *)

From Stdlib Require Import ZArith Lia.
From stdpp Require Import base tactics gmap numbers relations list.
From S2P Require Import Prelude.
From S2P Require Import Memory.
From S2P Require Import PageFrame.
From S2P Require Import PageFrameFacts.

(** The addresses of [n] frames from [a] on. *)
Definition pages (a n : Z) : list Z := (fun t => a + t * PAGE_SIZE) <$> seqZ 0 n.

(** The allocator and the frames handed out and not yet freed. *)
Record holders := { ho_pfa : pfa; ho_own : list Z }.

Inductive frame_step : holders -> holders -> Prop :=
| fs_page c r q :
    returns request_page (ho_pfa c) r q -> r <> 0 ->
    frame_step c {| ho_pfa := q; ho_own := r :: ho_own c |}
| fs_page_none c q :
    returns request_page (ho_pfa c) 0 q -> frame_step c {| ho_pfa := q; ho_own := ho_own c |}
| fs_pages c n r q :
    2 <= n -> returns (fun f => request_pages f n) (ho_pfa c) r q -> r <> 0 ->
    frame_step c {| ho_pfa := q; ho_own := pages r n ++ ho_own c |}
| fs_pages_none c n q :
    2 <= n -> returns (fun f => request_pages f n) (ho_pfa c) 0 q ->
    frame_step c {| ho_pfa := q; ho_own := ho_own c |}
| fs_free c a q l1 l2 :
    ho_own c = l1 ++ a :: l2 -> free_page a (ho_pfa c) = Done tt q ->
    frame_step c {| ho_pfa := q; ho_own := l1 ++ l2 |}
| fs_free_pages c a n q l1 l2 :
    0 < n -> ho_own c = l1 ++ pages a n ++ l2 -> free_pages a n (ho_pfa c) = Done tt q ->
    frame_step c {| ho_pfa := q; ho_own := l1 ++ l2 |}.

(** An allocator as start-up leaves it: the hint is right, frame 0 is reserved,
    and the addresses of the frames fit in 64 bits. *)
Definition pfa_ready (p : pfa) : Prop :=
  hint_ok p /\ bit p 0 = true /\ cap p * PAGE_SIZE <= UINT64_MAX.

Section holders.
Context (p0 : pfa).

(** The bit of a frame is set when it was at the start or somebody owns it. *)
Record holders_inv (c : holders) : Prop := {
  hi_hint : hint_ok (ho_pfa c);
  hi_cap : cap (ho_pfa c) = cap p0;
  hi_nodup : NoDup (ho_own c);
  hi_own : forall a, a ∈ ho_own c -> exists i, a = i * PAGE_SIZE /\ 0 < i < cap p0 /\ bit p0 i = false;
  hi_bits : forall j, 0 <= j -> bit (ho_pfa c) j = bit p0 j || bool_decide (j * PAGE_SIZE ∈ ho_own c);
  hi_moved : moved p0 (ho_pfa c) (- zlen (ho_own c)) 0 (zlen (ho_own c))
}.

Lemma elem_pages i n a : a ∈ pages (i * PAGE_SIZE) n <-> exists j, run i n j /\ a = j * PAGE_SIZE.
Proof.
  unfold pages. rewrite list_elem_of_fmap. setoid_rewrite elem_of_seqZ. unfold run. split.
  - intros (t & -> & Ht). exists (i + t). split; lia.
  - intros (j & Hj & ->). exists (j - i). split; lia.
Qed.

Lemma page_inj i j : i * PAGE_SIZE = j * PAGE_SIZE -> i = j.
Proof. unfold PAGE_SIZE. lia. Qed.

Lemma NoDup_pages i n : NoDup (pages (i * PAGE_SIZE) n).
Proof. apply NoDup_fmap_2_strong; [|apply NoDup_seqZ]. unfold PAGE_SIZE. lia. Qed.

Lemma length_pages a n : 0 <= n -> zlen (pages a n) = n.
Proof. intros. unfold pages. rewrite length_fmap, length_seqZ. lia. Qed.

Lemma pages_one a : pages a 1 = [a].
Proof. unfold pages. change (seqZ 0 1) with [0]. cbn [fmap list_fmap]. f_equal. lia. Qed.

(** Frames taken: those of a run that was free. *)
Lemma inv_take c q i n :
  pfa_ready p0 -> holders_inv c -> 0 <= i -> 0 < n -> hint_ok q -> free_run (ho_pfa c) n i ->
  bits_set (ho_pfa c) q (run i n) true -> moved (ho_pfa c) q (- n) 0 n ->
  holders_inv {| ho_pfa := q; ho_own := pages (i * PAGE_SIZE) n ++ ho_own c |}.
Proof.
  intros (_ & H0 & _) [] Hi Hn Hh Hr Hs Hm.
  assert (forall j, run i n j -> 0 < j < cap p0 /\ bit p0 j = false /\ j * PAGE_SIZE ∉ ho_own c) as Hfree.
  { intros j Hj. destruct (Hr j Hj) as [Hc Hb]. rewrite hi_bits0 in Hb by lia.
    apply orb_false_iff in Hb as [Hb Hb']. apply bool_decide_eq_false in Hb'. rewrite hi_cap0 in Hc.
    destruct (decide (j = 0)) as [->|]; [congruence|]. split_and!; try done; lia. }
  split; cbn [ho_pfa ho_own].
  - done.
  - by rewrite (bits_set_cap _ _ _ _ Hs).
  - apply NoDup_app. split_and!; [apply NoDup_pages| |done].
    intros a (j & Hj & ->)%elem_pages. by apply Hfree.
  - intros a [(j & Hj & ->)%elem_pages|]%elem_of_app; [|auto]. exists j. destruct (Hfree j Hj) as (? & ? & ?). done.
  - intros j Hj. destruct Hs as [_ Hs]. destruct (Hs j Hj) as [Ha Hb]. destruct (decide (run i n j)).
    + rewrite Ha by done. rewrite (bool_decide_eq_true_2 (j * PAGE_SIZE ∈ _)); [by rewrite orb_true_r|].
      apply elem_of_app. left. apply elem_pages. eauto.
    + rewrite Hb, hi_bits0 by done. f_equal. apply bool_decide_ext. rewrite elem_of_app. split; [auto|].
      intros [(j' & Hj' & He%page_inj)%elem_pages|]; [by subst|done].
  - rewrite length_app, Nat2Z.inj_add, length_pages by lia.
    replace (- (n + zlen (ho_own c))) with (- zlen (ho_own c) + - n) by lia. rewrite (Z.add_comm n).
    exact (moved_trans _ _ _ _ _ _ _ _ _ hi_moved0 Hm).
Qed.

(** No frame taken. *)
Lemma inv_keep c q :
  holders_inv c -> hint_ok q -> bits_set (ho_pfa c) q no_bits true -> moved (ho_pfa c) q 0 0 0 ->
  holders_inv {| ho_pfa := q; ho_own := ho_own c |}.
Proof.
  intros [] Hh Hs Hm. split; cbn; try done.
  - by rewrite (bits_set_cap _ _ _ _ Hs).
  - intros j Hj. destruct Hs as [_ Hs]. destruct (Hs j Hj) as [_ Hb]. rewrite Hb; auto.
  - pose proof (moved_trans _ _ _ _ _ _ _ _ _ hi_moved0 Hm) as H. by rewrite !Z.add_0_r in H.
Qed.

(** A frame given back. *)
Lemma inv_free c q i l1 l2 :
  holders_inv c -> ho_own c = l1 ++ i * PAGE_SIZE :: l2 -> 0 <= i ->
  hint_ok q -> bits_set (ho_pfa c) q (eq i) false -> moved (ho_pfa c) q 1 0 (-1) ->
  holders_inv {| ho_pfa := q; ho_own := l1 ++ l2 |}.
Proof.
  intros [] Ho Hi Hh Hs Hm. rewrite Ho in *.
  apply NoDup_app in hi_nodup0 as Hnd. destruct Hnd as (Hn1 & Hn2 & Hn3).
  apply NoDup_cons in Hn3 as [Hn3 Hn4].
  assert (i * PAGE_SIZE ∉ l1) as Hn5. { intros Hx. apply (Hn2 _ Hx). set_solver. }
  destruct (hi_own0 (i * PAGE_SIZE)) as (i' & He%page_inj & Hi' & Hb0); [set_solver|]. subst i'.
  split; cbn [ho_pfa ho_own].
  - done.
  - by rewrite (bits_set_cap _ _ _ _ Hs).
  - apply NoDup_app. split_and!; [done| |done]. intros x Hx Hx2. apply (Hn2 x Hx). set_solver.
  - intros a Ha. apply hi_own0. set_solver.
  - intros j Hj. destruct Hs as [_ Hs]. destruct (Hs j Hj) as [Ha Hb]. destruct (decide (i = j)) as [->|Hne].
    + rewrite Ha, Hb0, bool_decide_eq_false_2 by (try done; set_solver). done.
    + rewrite Hb, hi_bits0 by done. f_equal. apply bool_decide_ext. rewrite !elem_of_app, elem_of_cons.
      assert (j * PAGE_SIZE <> i * PAGE_SIZE) by (intros ?%page_inj; congruence). naive_solver.
  - rewrite length_app in *. cbn [length] in *.
    pose proof (moved_trans _ _ _ _ _ _ _ _ _ hi_moved0 Hm) as H.
    replace (- Z.of_nat (length l1 + length l2)) with (- Z.of_nat (length l1 + S (length l2)) + 1) by lia.
    replace (Z.of_nat (length l1 + length l2)) with (Z.of_nat (length l1 + S (length l2)) + -1) by lia. exact H.
Qed.

Lemma free_owned c a l1 l2 :
  holders_inv c -> ho_own c = l1 ++ a :: l2 ->
  exists q, free_page a (ho_pfa c) = Done tt q /\ holders_inv {| ho_pfa := q; ho_own := l1 ++ l2 |}.
Proof.
  intros Hc Ho. destruct (hi_own c Hc a) as (i & -> & Hi & Hb); [rewrite Ho; set_solver|].
  destruct (free_page_ok (ho_pfa c) (i * PAGE_SIZE)) as (q & Hq & Hs & Hh & Hm); rewrite ?page_of, ?(hi_cap c Hc) in *.
  - lia.
  - rewrite (hi_bits c Hc) by lia. rewrite bool_decide_eq_true_2 by (rewrite Ho; set_solver). apply orb_true_r.
  - exists q. split; [done|]. eapply inv_free; try done; [lia|].
    eapply hint_ok_false; try done; [rewrite (hi_cap c Hc); lia|apply Hc].
Qed.

Lemma free_owned_list (ts : list Z) l1 l2 : forall c,
  holders_inv c -> ho_own c = l1 ++ ts ++ l2 ->
  exists q, for_each ts free_page_nolock (ho_pfa c) = Done tt q /\ holders_inv {| ho_pfa := q; ho_own := l1 ++ l2 |}.
Proof.
  induction ts as [|a ts IH]; intros c Hc Ho.
  - exists (ho_pfa c). split; [done|]. destruct c as [p own]. cbn in *. by subst own.
  - destruct (free_owned c a l1 (ts ++ l2) Hc Ho) as (q & Hq & Hinv).
    destruct (IH _ Hinv eq_refl) as (q' & Hq' & Hinv'). exists q'. split; [|done].
    cbn [for_each]. unfold free_page in Hq. by rewrite bind_run, Hq.
Qed.

Lemma free_owned_pages c a n l1 l2 :
  pfa_ready p0 -> holders_inv c -> ho_own c = l1 ++ pages a n ++ l2 ->
  exists q, free_pages a n (ho_pfa c) = Done tt q /\ holders_inv {| ho_pfa := q; ho_own := l1 ++ l2 |}.
Proof.
  intros (_ & _ & Hw) Hc Ho. destruct (free_owned_list (pages a n) l1 l2 c Hc Ho) as (q & Hq & Hinv).
  exists q. split; [|done]. rewrite <- Hq. unfold free_pages, for_pages, pages.
  assert (forall t, t ∈ seqZ 0 n -> u64 (a + t * PAGE_SIZE) = a + t * PAGE_SIZE) as He.
  { intros t Ht. destruct (hi_own c Hc (a + t * PAGE_SIZE)) as (i & -> & Hi & _).
    - rewrite Ho. apply elem_of_app. right. apply elem_of_app. left. apply list_elem_of_fmap. eauto.
    - apply u64_id. unfold PAGE_SIZE in *. lia. }
  clear Hq Hinv Ho. generalize (ho_pfa c). induction (seqZ 0 n) as [|t ts IH]; intros p; [done|].
  cbn [for_each fmap list_fmap]. rewrite !bind_run, He by set_solver.
  destruct (free_page_nolock (a + t * PAGE_SIZE) p) as [[] p'| |]; [|done..]. apply IH. intros. apply He. set_solver.
Qed.

Lemma request_page_returns p : hint_ok p -> exists r q, returns request_page p r q /\ page_found p q r.
Proof.
  intros Hh. destruct (request_page_ok (S (Z.to_nat (cap p - page_bitmap_index_ p))) p Hh) as (r & q & Hq & Hf); [lia|].
  exists r, q. split; [|done]. eapply mono_returns; [|exact Hq]. apply mono_while.
Qed.

Lemma request_pages_returns p n : 2 <= n ->
  exists r q, returns (fun f => request_pages f n) p r q /\ run_found p q n r /\ page_bitmap_index_ q = page_bitmap_index_ p.
Proof.
  intros Hn.
  destruct (request_pages_ok (S (Z.to_nat n + Z.to_nat (cap p))) p n) as (r & q & Hq & Hf & Hh); [lia..|].
  exists r, q. split; [|done]. eapply mono_returns; [|exact Hq]. unfold request_pages, request_page, request_page_nolock.
  apply mono_if; [apply mono_const|]. apply mono_if; [apply mono_while|].
  apply mono_bind; [apply mono_const|]. intros p'. apply mono_while_body. intros i.
  apply mono_if; [|apply mono_const]. apply mono_bind; [apply mono_while|]. intros []; apply mono_const.
Qed.

Lemma frame_step_inv c c' : pfa_ready p0 -> holders_inv c -> frame_step c c' -> holders_inv c'.
Proof.
  intros Hp Hc Hstep. destruct Hstep as [c r q Hr H0|c q Hr|c n r q Hn Hr H0|c n q Hn Hr|c a q l1 l2 Ho Hq|c a n q l1 l2 Hn Ho Hq].
  - destruct (request_page_returns (ho_pfa c) (hi_hint c Hc)) as (r' & q' & Hr' & Hh & [(i & -> & Hi & Hb & _ & Hs & Hm)|(-> & _)]);
      destruct (returns_det _ _ _ _ _ _ Hr Hr') as [-> ->]; [|done].
    change (i * PAGE_SIZE :: ho_own c) with ([i * PAGE_SIZE] ++ ho_own c). rewrite <- (pages_one (i * PAGE_SIZE)).
    apply inv_take; try done; [lia| |].
    + intros j Hj. assert (j = i) as -> by (unfold run in Hj; lia). done.
    + eapply bits_set_ext; [|exact Hs]. unfold run. lia.
  - destruct (request_page_returns (ho_pfa c) (hi_hint c Hc)) as (r' & q' & Hr' & Hh & [(i & -> & Hi & Hb & _)|(-> & _ & Hs & Hm)]);
      destruct (returns_det _ _ _ _ _ _ Hr Hr') as [He ->].
    + exfalso. rewrite (hi_bits c Hc) in Hb by lia. assert (i = 0) as -> by (unfold PAGE_SIZE in He; lia).
      destruct Hp as (_ & H0 & _). by rewrite H0 in Hb.
    + by apply inv_keep.
  - destruct (request_pages_returns (ho_pfa c) n Hn) as (r' & q' & Hr' & [(i & -> & Hi & Hfr & _ & Hs & Hm)|(-> & _)] & Hh);
      destruct (returns_det _ _ _ _ _ _ Hr Hr') as [-> ->]; [|done].
    apply inv_take; try done; [lia|]. eapply hint_ok_true; [|exact Hs|done|apply Hc]. apply _.
  - destruct (request_pages_returns (ho_pfa c) n Hn) as (r' & q' & Hr' & [(i & -> & Hi & Hfr & _)|(-> & _ & Hs & Hm)] & Hh);
      destruct (returns_det _ _ _ _ _ _ Hr Hr') as [He ->].
    + exfalso. assert (i = 0) as -> by (unfold PAGE_SIZE in He; lia).
      destruct (Hfr 0) as [_ Hb]; [unfold run; lia|]. rewrite (hi_bits c Hc) in Hb by lia.
      destruct Hp as (_ & H0 & _). by rewrite H0 in Hb.
    + apply inv_keep; try done. eapply hint_ok_true; [|exact Hs|done|apply Hc]. unfold no_bits. apply _.
  - destruct (free_owned c a l1 l2 Hc Ho) as (q' & Hq' & Hinv). rewrite Hq in Hq'. by injection Hq' as ->.
  - destruct (free_owned_pages c a n l1 l2 Hp Hc Ho) as (q' & Hq' & Hinv). rewrite Hq in Hq'. by injection Hq' as ->.
Qed.

Lemma holders_start : pfa_ready p0 -> holders_inv {| ho_pfa := p0; ho_own := [] |}.
Proof.
  intros (Hh & _ & _). split; cbn; try done.
  - apply NoDup_nil_2.
  - intros a Ha. by apply not_elem_of_nil in Ha.
  - intros j Hj. rewrite bool_decide_eq_false_2 by apply not_elem_of_nil. by rewrite orb_false_r.
  - apply moved_refl.
Qed.

Lemma frame_reach c :
  pfa_ready p0 -> rtc frame_step {| ho_pfa := p0; ho_own := [] |} c -> holders_inv c.
Proof.
  intros Hp. apply (rtc_ind_r (fun c => holders_inv c)); [by apply holders_start|].
  intros c1 c2 _ Hs Hc. by eapply frame_step_inv.
Qed.
End holders.

(** ** Start-up *)

(** The pages the map describes. *)
Definition total_pages (m : list descriptor) : Z := foldr (fun d n => d_num_pages d + n) 0 m.

Definition in_desc (d : descriptor) (i : Z) : Prop :=
  usable_type (d_type d) = true /\ run (d_phys_addr d / PAGE_SIZE) (d_num_pages d) i.

(** A frame of usable memory. *)
Definition usable (m : list descriptor) (i : Z) : Prop := Exists (fun d => in_desc d i) m.

#[global] Instance usable_dec m i : Decision (usable m i).
Proof. unfold usable, in_desc. apply _. Defined.

Definition desc_ok (n : Z) (d : descriptor) : Prop :=
  0 <= d_num_pages d /\ exists i, d_phys_addr d = i * PAGE_SIZE /\ 0 <= i /\ i + d_num_pages d <= n.

(** A memory map without holes: aligned descriptors that lie within the memory
    they add up to, at least 2 MB of it, with room for the bitmap where it goes. *)
Record map_ok (m : list descriptor) : Prop := {
  mo_desc : Forall (desc_ok (total_pages m)) m;
  mo_min : 512 <= total_pages m;
  mo_max : total_pages m * PAGE_SIZE <= 2 ^ 60;
  mo_bitmap : exists b, bitmap_segment m = b * PAGE_SIZE /\ 0 <= b /\
    b + ((total_pages m / 8 + 1) / PAGE_SIZE + 1) <= total_pages m
}.

(** The frames of the bitmap itself. *)
Definition bitmap_run (m : list descriptor) : Z -> Prop :=
  run (bitmap_segment m / PAGE_SIZE) ((total_pages m / 8 + 1) / PAGE_SIZE + 1).

Lemma memory_size_total m n :
  Forall (fun d => 0 <= d_num_pages d) m -> 0 <= n -> (n + total_pages m) * 4096 <= 2 ^ 60 ->
  foldl (fun bytes d => u64 (bytes + d_num_pages d * 4096)) (n * 4096) m = (n + total_pages m) * 4096 /\ 0 <= total_pages m.
Proof.
  revert n. induction m as [|d m IH]; intros n Hm Hn Hb; cbn in *; [split; [f_equal; lia|lia]|].
  inversion Hm as [|? ? Hd Hm']; subst. fold (total_pages m) in *.
  assert (0 <= total_pages m).
  { clear -Hm'. induction Hm'; cbn; [lia|]. fold (total_pages l). lia. }
  rewrite u64_id by (unfold UINT64_MAX; lia). rewrite <- Z.mul_add_distr_r.
  destruct (IH (n + d_num_pages d)) as [-> ?]; [done|lia|lia|]. split; lia.
Qed.

Lemma for_each_descs ds n : Forall (desc_ok n) ds -> forall p,
  n <= cap p -> cap p * PAGE_SIZE <= UINT64_MAX ->
  exists q, for_each ds (fun d => when (usable_type (d_type d)) (unreserve_pages (d_phys_addr d) (d_num_pages d))) p = Done tt q /\
    bits_set p q (usable ds) false /\ (hint_ok p -> hint_ok q).
Proof.
  induction 1 as [|d ds (Hn & i & Hi & H0 & Hle) Hds IH]; intros p Hc Hw; cbn [for_each].
  - exists p. split_and!; [done| |done]. eapply bits_set_ext; [|apply bits_set_none]. intros j _.
    unfold usable, no_bits. by rewrite Exists_nil.
  - rewrite bind_run. destruct (usable_type (d_type d)) eqn:Hu; cbn [when].
    + unfold unreserve_pages. rewrite Hi.
      destruct (for_pages_gives _ _ p i (d_num_pages d) unreserve_gives) as (q & Hq & Hs & Hh); [lia..|].
      rewrite Hq. destruct (IH q) as (r & Hr & Ht & Hh').
      { by rewrite (bits_set_cap _ _ _ _ Hs). } { by rewrite (bits_set_cap _ _ _ _ Hs). }
      exists r. split_and!; [done| |tauto]. eapply bits_set_ext; [|eapply (bits_set_trans _ _ _ _ _ _ _ Hs Ht)].
      intros j Hj. unfold usable at 2. rewrite Exists_cons. unfold in_desc at 1. rewrite Hi, page_of. tauto.
    + rewrite ret_run. destruct (IH p) as (r & Hr & Ht & Hh'); [done..|].
      exists r. split_and!; [done| |tauto]. eapply bits_set_ext; [|exact Ht].
      intros j Hj. unfold usable at 2. rewrite Exists_cons. unfold in_desc at 1. rewrite Hu. intuition done.
Qed.

Lemma bit_zero n p j : bit (set_buffer (replicate n 0) p) j = false.
Proof.
  unfold bit. cbn [bm_buffer set_buffer]. destruct (replicate n 0 !! Z.to_nat (j / 8)) as [b|] eqn:E; [|done].
  apply lookup_replicate in E as [-> _]. apply Z.bits_0.
Qed.

(** The frames start-up leaves taken: what usable memory does not cover, the
    first megabyte and the bitmap. Bits behind the end of memory stay clear. *)
Definition boot_bits (m : list descriptor) (p : pfa) : Prop :=
  cap p = (total_pages m / 8 + 1) * 8 /\
  forall i, 0 <= i < cap p ->
    bit p i = bool_decide (i < 256 \/ bitmap_run m i \/ (i <= total_pages m /\ ~ usable m i)).

Lemma boot_ok m :
  map_ok m -> exists p, read_efi_memory_map m pfa_zero = Done tt p /\ pfa_ready p /\ boot_bits m p.
Proof.
  intros [Hd Hmin Hmax (b & Hb & Hb0 & Hbn)].
  assert (get_memory_size m = total_pages m * PAGE_SIZE) as Hms.
  { unfold get_memory_size, PAGE_SIZE in *. destruct (memory_size_total m 0) as [H _]; [|lia..|].
    - eapply Forall_impl; [exact Hd|]. by intros d [? _].
    - exact H. }
  unfold read_efi_memory_map. mstep. cbn [initialized_ pfa_zero]. mstep. unfold init_bitmap. mstep.
  rewrite Hms, !page_of.
  set (T := total_pages m) in *. set (p1 := {| bm_buffer := replicate _ 0 |}).
  assert (0 <= T / 8 < T) as HT by (split; [apply Z.div_pos; lia|apply Z.div_lt; lia]).
  pose proof (Z.div_mod T 8). pose proof (Z.mod_pos_bound T 8).
  assert (cap p1 = (T / 8 + 1) * 8) as Hc1.
  { unfold cap, bm_size, p1. cbn [bm_buffer]. rewrite length_replicate. lia. }
  assert (cap p1 * PAGE_SIZE <= UINT64_MAX) as Hw by (unfold PAGE_SIZE, UINT64_MAX in *; lia).
  assert (forall j, bit p1 j = false) as Hz by (intros j; apply (bit_zero _ p1)).
  assert (hint_ok p1) as Hh1. { split; change (page_bitmap_index_ p1) with 0; lia. }
  unfold reserve_pages. destruct (for_pages_gives _ _ p1 0 (T + 1) reserve_gives) as (p2 & R2 & S2 & H2); [lia..|].
  change (0 * PAGE_SIZE) with 0 in R2. rewrite R2. pose proof (bits_set_cap _ _ _ _ S2) as C2.
  destruct (for_each_descs m T Hd p2) as (p3 & R3 & S3 & H3); [rewrite C2; lia|by rewrite C2|].
  rewrite bind_run, R3. pose proof (bits_set_cap _ _ _ _ S3) as C3. rewrite C2 in C3.
  destruct (for_pages_gives _ _ p3 0 256 reserve_gives) as (p4 & R4 & S4 & H4); [lia..|rewrite C3; lia|by rewrite C3|].
  change (0 * PAGE_SIZE) with 0 in R4. rewrite bind_run, R4. mstep. pose proof (bits_set_cap _ _ _ _ S4) as C4. rewrite C3 in C4.
  assert (bm_size p4 = T / 8 + 1) as Hsz by (unfold cap in C4, Hc1; lia).
  assert (bm_at p4 = b * PAGE_SIZE) as Hat. { by rewrite (bits_set_at _ _ _ _ S4), (bits_set_at _ _ _ _ S3), (bits_set_at _ _ _ _ S2). }
  unfold lock_pages. rewrite Hat, Hsz.
  destruct (for_pages_gives _ _ p4 b ((T / 8 + 1) / PAGE_SIZE + 1) lock_gives) as (p5 & R5 & S5 & H5);
    [lia|unfold PAGE_SIZE; pose proof (Z.div_pos (T / 8 + 1) 4096); lia|rewrite C4; lia|by rewrite C4|].
  exists p5. split; [exact R5|]. pose proof (bits_set_cap _ _ _ _ S5) as C5. rewrite C4 in C5.
  assert (forall i, 0 <= i < cap p5 ->
    bit p5 i = bool_decide (i < 256 \/ bitmap_run m i \/ (i <= T /\ ~ usable m i))) as Hbits.
  { intros i Hi. unfold bitmap_run. rewrite Hb, page_of. fold T.
    destruct S2 as [_ S2], S3 as [_ S3], S4 as [_ S4], S5 as [_ S5].
    destruct (S2 i) as [A2 B2], (S3 i) as [A3 B3], (S4 i) as [A4 B4], (S5 i) as [A5 B5]; [lia..|].
    unfold run in *. symmetry.
    destruct (decide (b <= i < b + ((T / 8 + 1) / PAGE_SIZE + 1))) as [Hr|Hr].
    { rewrite A5 by done. apply bool_decide_eq_true_2. auto. }
    rewrite B5 by done. destruct (decide (0 <= i < 0 + 256)) as [Hl|Hl].
    { rewrite A4 by done. apply bool_decide_eq_true_2. lia. }
    rewrite B4 by done. destruct (decide (usable m i)) as [Hu|Hu].
    { rewrite A3 by done. apply bool_decide_eq_false_2. intros [?|[?|[_ ?]]]; [lia|done..]. }
    rewrite B3 by done. destruct (decide (0 <= i < 0 + (T + 1))) as [Ht|Ht].
    { rewrite A2 by done. apply bool_decide_eq_true_2. right; right. split; [lia|done]. }
    rewrite B2, Hz by done. apply bool_decide_eq_false_2. intros [?|[?|[? _]]]; [lia|done|lia]. }
  split; [|split; [by rewrite C5|done]].
  split_and!; [auto|rewrite Hbits by lia; apply bool_decide_eq_true_2; lia|by rewrite C5].
Qed.

(** ** Properties *)

(** C17. No frame is handed out twice: whatever callers request and free, in any
    order, the frames out at any time are distinct, page-aligned, none of them
    was taken at the start, and the free and used counters moved by exactly the
    number of pages out. *)
Theorem frames_exclusive p0 c :
  pfa_ready p0 -> rtc frame_step {| ho_pfa := p0; ho_own := [] |} c ->
  NoDup (ho_own c) /\
  (forall a, a ∈ ho_own c -> exists i, a = i * PAGE_SIZE /\ 0 < i < cap p0 /\ bit p0 i = false) /\
  moved p0 (ho_pfa c) (- zlen (ho_own c)) 0 (zlen (ho_own c)).
Proof. intros Hp Hr. destruct (frame_reach p0 c Hp Hr). done. Qed.

(** First fit, and no false alarm: in every state callers can reach,
    [request_page] returns the lowest frame that was free at the start and is not
    out, and 0 only when there is none; [request_pages] returns the start of the
    lowest run of such frames, and 0 only when there is no such run. *)
Theorem frames_first_fit p0 c n :
  pfa_ready p0 -> rtc frame_step {| ho_pfa := p0; ho_own := [] |} c -> 2 <= n ->
  let avail j := 0 <= j < cap p0 /\ bit p0 j = false /\ j * PAGE_SIZE ∉ ho_own c in
  (exists r q, returns request_page (ho_pfa c) r q /\
     ((exists i, r = i * PAGE_SIZE /\ avail i /\ forall j, 0 <= j < i -> ~ avail j) \/
      (r = 0 /\ forall j, ~ avail j))) /\
  (exists r q, returns (fun f => request_pages f n) (ho_pfa c) r q /\
     ((exists i, r = i * PAGE_SIZE /\ (forall j, run i n j -> avail j) /\
         forall k, 0 <= k < i -> ~ (forall j, run k n j -> avail j)) \/
      (r = 0 /\ forall k, 0 <= k -> ~ (forall j, run k n j -> avail j)))).
Proof.
  intros Hp Hr Hn avail. pose proof (frame_reach p0 c Hp Hr) as Hc.
  assert (forall j, 0 <= j < cap (ho_pfa c) /\ bit (ho_pfa c) j = false <-> avail j) as Hav.
  { intros j. unfold avail. rewrite (hi_cap _ _ Hc). split; intros [Hj Hb]; (split; [done|]).
    - rewrite (hi_bits _ _ Hc) in Hb by lia. apply orb_false_iff in Hb as [? ?%bool_decide_eq_false]. done.
    - rewrite (hi_bits _ _ Hc), bool_decide_eq_false_2 by (try lia; tauto). rewrite orb_false_r. tauto. }
  assert (forall k, free_run (ho_pfa c) n k <-> forall j, run k n j -> avail j) as Hfr.
  { intros k. unfold free_run. by setoid_rewrite Hav. }
  split.
  - destruct (request_page_returns (ho_pfa c) (hi_hint _ _ Hc)) as (r & q & Hq & _ & [(i & -> & Hi & Hb & Hl & _)|(-> & Ha & _)]);
      eexists _, _; (split; [exact Hq|]); [left; exists i|right]; (split; [done|]).
    + split; [by apply Hav|]. intros j Hj [_ Hav']%Hav. rewrite Hl in Hav' by done. done.
    + intros j [Hj Hb]%Hav. rewrite Ha in Hb; done.
  - destruct (request_pages_returns (ho_pfa c) n Hn) as (r & q & Hq & [(i & -> & Hi & Hb & Hl & _)|(-> & Ha & _)] & _);
      eexists _, _; (split; [exact Hq|]); [left; exists i|right]; (split; [done|]).
    + rewrite <- Hfr. split; [done|]. intros k Hk. rewrite <- Hfr. by apply Hl.
    + intros k Hk. rewrite <- Hfr. by apply Ha.
Qed.

(** Start-up from a memory map without holes leaves an allocator that is
    ready, in which every frame up to the end of memory is free exactly when
    usable memory covers it and it lies neither in the first megabyte nor in the
    bitmap. *)
Theorem boot_frees_usable m :
  map_ok m -> exists p, read_efi_memory_map m pfa_zero = Done tt p /\ pfa_ready p /\
    forall i, 0 <= i <= total_pages m ->
      (bit p i = false <-> usable m i /\ 256 <= i /\ ~ bitmap_run m i).
Proof.
  intros Hm. destruct (boot_ok m Hm) as (p & Hp & Hr & Hc & Hb). exists p. split_and!; [done..|].
  intros i Hi. pose proof (Z.div_mod (total_pages m) 8). pose proof (Z.mod_pos_bound (total_pages m) 8).
  rewrite Hb by lia. rewrite bool_decide_eq_false. destruct (decide (usable m i)); intuition lia.
Qed.

Definition demo_map : list descriptor := [ {| d_type := 7; d_phys_addr := 0; d_num_pages := 512 |} ].

(** The bitmap has bits for frames behind the end of memory, and start-up
    leaves them clear: with 512 pages of memory the allocator counts one free
    page too few, and after the 256 pages that are free it hands out an address
    behind the end of memory. *)
Theorem boot_hands_out_missing_frame :
  exists s,
    (_ ← read_efi_memory_map demo_map;
     free ← gets free_memory_;
     _ ← for_each (seqZ 0 256) (fun _ => _ ← request_page 300; mret tt);
     r ← request_page 300;
     total ← gets total_memory_;
     mret (free, r, total)) pfa_zero = Done (255 * PAGE_SIZE, 513 * PAGE_SIZE, 512 * PAGE_SIZE) s.
Proof.
  match goal with |- exists s, ?c pfa_zero = Done ?x s =>
    assert (match c pfa_zero with Done y _ => y = x | _ => False end) as H by (vm_compute; reflexivity);
    revert H; destruct (c pfa_zero) as [y s| |]; [intros ->; by exists s|done..]
  end.
Qed.

(** ** Witnesses *)

Lemma demo_map_ok : map_ok demo_map.
Proof.
  split.
  - repeat constructor; cbn; [lia|]. exists 0. cbn. split_and!; reflexivity || lia.
  - cbn. lia.
  - cbn. unfold PAGE_SIZE. lia.
  - exists 0. split_and!; vm_compute; congruence || reflexivity.
Defined.

(** An allocator with 16 frames, the first of them reserved. *)
Definition demo_pfa : pfa :=
  {| bm_buffer := [128; 0]; bm_at := 0; free_memory_ := 15 * PAGE_SIZE; reserved_memory_ := PAGE_SIZE;
     used_memory_ := 0; total_memory_ := 16 * PAGE_SIZE; page_bitmap_index_ := 0; initialized_ := true |}.

Lemma demo_pfa_ready : pfa_ready demo_pfa.
Proof. split_and!; [|reflexivity|vm_compute; congruence]. split; cbn; [unfold cap, bm_size; cbn|]; lia. Defined.

Definition demo_after : pfa := match request_page 20 demo_pfa with Done _ q => q | _ => demo_pfa end.

Lemma demo_request : rtc frame_step {| ho_pfa := demo_pfa; ho_own := [] |} {| ho_pfa := demo_after; ho_own := [PAGE_SIZE] |}.
Proof.
  eapply rtc_l; [|apply rtc_refl]. apply (fs_page {| ho_pfa := demo_pfa; ho_own := [] |}); [|done].
  apply (mono_returns request_page 20); [apply mono_while|reflexivity].
Qed.

Lemma frames_exclusive_witness : NoDup [PAGE_SIZE].
Proof. apply (frames_exclusive demo_pfa _ demo_pfa_ready demo_request). Defined.

Lemma frames_first_fit_witness :
  exists r q, returns request_page demo_after r q.
Proof.
  destruct (frames_first_fit demo_pfa _ 2 demo_pfa_ready demo_request) as [(r & q & H & _) _]; [lia|]. by exists r, q.
Defined.

Lemma boot_frees_usable_witness : exists p, read_efi_memory_map demo_map pfa_zero = Done tt p.
Proof. destruct (boot_frees_usable demo_map demo_map_ok) as (p & H & _). by exists p. Defined.
