(* ===== verification/PageTable.v ===== *)
(** * kernel/paging: four-level page tables

    paging.cpp, page_map_indexer.cpp and page_table_manager.cpp. Physical memory
    is its 64-bit words; tables are reached through the direct map, so that a
    table is named by its physical address. The lock of the manager makes every
    call one step. Frames come from an interface, [FrameSource]. *)

From Stdlib Require Import ZArith Lia.
From stdpp Require Import base tactics gmap numbers list.
From S2P Require Import Prelude.
From S2P Require Import PageFrame.

(** ** What the page tables need of the frame allocator

    [fr_request] is [request_page_phys] (0 when there is no frame) and
    [fr_free] is [free_page_phys]; [fr_out] are the frames handed out. *)
Class FrameSource (F : Type) := {
  fr_request : F -> Z * F;
  fr_free : Z -> F -> F;
  fr_ok : F -> Prop;
  fr_out : F -> Z -> Prop;
  fr_request_ok f : fr_ok f ->
    let '(r, f') := fr_request f in
    fr_ok f' /\
    (r = 0 /\ (forall x, fr_out f' x <-> fr_out f x) \/
     r mod PAGE_SIZE = 0 /\ 0 < r < 2 ^ 52 /\ ~ fr_out f r /\ (forall x, fr_out f' x <-> x = r \/ fr_out f x));
  fr_free_ok f a : fr_ok f -> fr_out f a ->
    fr_ok (fr_free a f) /\ (forall x, fr_out (fr_free a f) x <-> x <> a /\ fr_out f x)
}.

(** ** Entries *)

Definition Present : Z := 0.
Definition ReadWrite : Z := 1.
Definition UserSuper : Z := 2.

Definition set_flag (value flag : Z) (enabled : bool) : Z :=
  let bit_selector := Z.shiftl 1 flag in
  let value := Z.land value (Z.lnot bit_selector) in
  if enabled then Z.lor value bit_selector else value.

Definition get_flag (value flag : Z) : bool := negb (Z.land value (Z.shiftl 1 flag) =? 0).

Definition get_address (value : Z) : Z := Z.land value 0x000ffffffffff000.

Definition set_address (value phys_addr : Z) : Z :=
  let raw := Z.land (Z.shiftr phys_addr 12) 0x000000ffffffffff in
  Z.lor (Z.land value 0xfff0000000000fff) (Z.shiftl raw 12).

(** [PageMapIndexer]: the indices into the four levels, the top one first. *)
Record indexer := { pdp_i : Z; pd_i : Z; pt_i : Z; p_i : Z }.

Definition PageMapIndexer (virt_addr : Z) : indexer :=
  let addr := Z.shiftr virt_addr 12 in
  {| p_i := Z.land addr 0x1ff;
     pt_i := Z.land (Z.shiftr addr 9) 0x1ff;
     pd_i := Z.land (Z.shiftr (Z.shiftr addr 9) 9) 0x1ff;
     pdp_i := Z.land (Z.shiftr (Z.shiftr (Z.shiftr addr 9) 9) 9) 0x1ff |}.

Section page_tables.
Context {F : Type} `{!FrameSource F}.

(** Physical memory and the frame allocator. *)
Record machine := { words : Z -> Z; source : F }.

(** [table->entries[index].value] *)
Definition load_entry (table index : Z) : M machine Z := fun m => Done (words m (table + 8 * index)) m.

Definition store_entry (table index v : Z) : M machine unit := fun m =>
  Done tt {| words := fun a => if decide (a = table + 8 * index) then v else words m a; source := source m |}.

(** [memset(table, 0, 0x1000)] *)
Definition zero_table (table : Z) : M machine unit := fun m =>
  Done tt {| words := fun a => if decide (table <= a < table + 4096) then 0 else words m a; source := source m |}.

Definition request_page_phys : M machine Z := fun m =>
  let '(r, f) := fr_request (source m) in Done r {| words := words m; source := f |}.
Definition free_page_phys (a : Z) : M machine unit := fun m =>
  Done tt {| words := words m; source := fr_free a (source m) |}.

(** The lambda of [map_memory]: the next table, [None] for [nullptr]. *)
Definition ensure_table (parent index : Z) : M machine (option Z) :=
  snap ← load_entry parent index;
  if negb (get_flag snap Present) then
    new_phys ← request_page_phys;
    if new_phys =? 0 then mret None
    else
      _ ← zero_table new_phys;
      let new_e := set_address 0 new_phys in
      let new_e := set_flag new_e Present true in
      let new_e := set_flag new_e ReadWrite true in
      let new_e := set_flag new_e UserSuper true in
      _ ← store_entry parent index new_e;
      mret (Some new_phys)
  else mret (Some (get_address snap)).

(** The leaf entry [map_memory] writes. *)
Definition leaf_entry (phys_addr flags : Z) (present : bool) : Z :=
  let flags := if present then Z.lor flags (Z.shiftl 1 Present) else flags in
  foldl (fun pte bit => if negb (Z.land flags (Z.shiftl 1 bit) =? 0) then set_flag pte bit true else pte)
    (set_address 0 phys_addr) (seqZ 0 64).

Definition map_memory (pml4 virt_addr phys_addr flags : Z) (present : bool) : M machine unit :=
  let ix := PageMapIndexer virt_addr in
  pdp ← ensure_table pml4 (pdp_i ix);
  match (pdp : option Z) with
  | None => mret tt
  | Some pdp =>
      pd ← ensure_table pdp (pd_i ix);
      match (pd : option Z) with
      | None => mret tt
      | Some pd =>
          pt ← ensure_table pd (pt_i ix);
          match (pt : option Z) with
          | None => mret tt
          | Some pt => store_entry pt (p_i ix) (leaf_entry phys_addr flags present)
          end
      end
  end.

(** [for (offset = 0; offset < size; offset += PAGE_SIZE)] *)
Definition for_offsets (size : Z) (f : Z -> M machine unit) : M machine unit :=
  for_each (seqZ 0 ((size + PAGE_SIZE - 1) / PAGE_SIZE)) (fun k => f (k * PAGE_SIZE)).

Definition map_range (pml4 virt_start phys_start size flags : Z) : M machine unit :=
  for_offsets size (fun offset => map_memory pml4 (virt_start + offset) (u64 (phys_start + offset)) flags true).

Definition is_table_empty (table : Z) : M machine bool := fun m =>
  Done (forallb (fun i => negb (get_flag (words m (table + 8 * i)) Present)) (seqZ 0 512)) m.

Definition unmap_memory (pml4 virt_addr : Z) : M machine unit :=
  let ix := PageMapIndexer virt_addr in
  pml4_entry ← load_entry pml4 (pdp_i ix);
  if negb (get_flag pml4_entry Present) then mret tt
  else
  let pdp := get_address pml4_entry in
  pdp_entry ← load_entry pdp (pd_i ix);
  if negb (get_flag pdp_entry Present) then mret tt
  else
  let pd := get_address pdp_entry in
  pd_entry ← load_entry pd (pt_i ix);
  if negb (get_flag pd_entry Present) then mret tt
  else
  let pt := get_address pd_entry in
  page_entry ← load_entry pt (p_i ix);
  if negb (get_flag page_entry Present) then mret tt
  else
  _ ← store_entry pt (p_i ix) 0;
  e ← is_table_empty pt;
  if negb e then mret tt
  else
  _ ← free_page_phys pt;
  _ ← store_entry pd (pt_i ix) 0;
  e ← is_table_empty pd;
  if negb e then mret tt
  else
  _ ← free_page_phys pd;
  _ ← store_entry pdp (pd_i ix) 0;
  e ← is_table_empty pdp;
  if negb e then mret tt
  else
  _ ← free_page_phys pdp;
  store_entry pml4 (pdp_i ix) 0.

Definition unmap_range (pml4 virt_start size : Z) : M machine unit :=
  for_offsets size (fun offset => unmap_memory pml4 (virt_start + offset)).

(** The walk the three lookups share: the leaf entry, when the tables exist. *)
Definition walk (pml4 virt_addr : Z) : M machine (option Z) :=
  let ix := PageMapIndexer virt_addr in
  pde ← load_entry pml4 (pdp_i ix);
  if negb (get_flag pde Present) then mret None
  else
  pde ← load_entry (get_address pde) (pd_i ix);
  if negb (get_flag pde Present) then mret None
  else
  pde ← load_entry (get_address pde) (pt_i ix);
  if negb (get_flag pde Present) then mret None
  else
  pde ← load_entry (get_address pde) (p_i ix);
  mret (Some pde).

Definition is_mapped (pml4 virt_addr : Z) : M machine bool :=
  w ← walk pml4 virt_addr;
  mret (match w with None => false | Some pde => get_flag pde Present end).

Definition get_physical_address (pml4 virt_addr : Z) : M machine Z :=
  w ← walk pml4 virt_addr;
  mret (match w with
        | None => 0
        | Some pde =>
            if negb (get_flag pde Present) then 0
            else u64 (get_address pde + Z.land virt_addr 0xFFF)
        end).

Definition get_physical_address_ignore_present (pml4 virt_addr : Z) : M machine Z :=
  w ← walk pml4 virt_addr;
  mret (match w with
        | None => 0
        | Some pde =>
            if get_address pde =? 0 then 0
            else u64 (get_address pde + Z.land virt_addr 0xFFF)
        end).

(** [destroy_level]; the levels go down to 1. *)
Fixpoint destroy_level (level : nat) (table : Z) : M machine unit :=
  for_each (seqZ 0 512) (fun i =>
    entry ← load_entry table i;
    if negb (get_flag entry Present) then mret tt
    else
      let phys := get_address entry in
      _ ← (match level with
           | O | 1%nat => free_page_phys phys
           | Datatypes.S level' => _ ← destroy_level level' phys; free_page_phys phys
           end);
      store_entry table i 0).

(** The entries of the top table are copies: clearing them has no effect. *)
Definition destroy_userspace (pml4 : Z) : M machine unit :=
  _ ← for_each (seqZ 0 256) (fun i =>
    entry ← load_entry pml4 i;
    if negb (get_flag entry Present) then mret tt
    else _ ← destroy_level 3 (get_address entry); free_page_phys (get_address entry));
  free_page_phys pml4.
End page_tables.

Arguments machine F : clear implicits.
