(* ===== verification/PageTableFacts.v ===== *)
(** * Page tables: entries, the tree they form and its operations *)

From Stdlib Require Import ZArith Lia.
From stdpp Require Import base tactics gmap numbers list.
From S2P Require Import Prelude.
From S2P Require Import PageFrame.
From S2P Require Import PageTable.

(** ** Bits of entries *)

Lemma shiftl1_testbit f k : 0 <= f -> 0 <= k -> Z.testbit (Z.shiftl 1 f) k = bool_decide (f = k).
Proof.
  intros. rewrite Z.shiftl_1_l. case_bool_decide; [subst; by apply Z.pow2_bits_true|by apply Z.pow2_bits_false].
Qed.

Lemma get_flag_testbit v f : 0 <= f -> get_flag v f = Z.testbit v f.
Proof.
  intros Hf. unfold get_flag.
  assert (Z.land v (Z.shiftl 1 f) = if Z.testbit v f then Z.shiftl 1 f else 0) as ->.
  { apply Z.bits_inj'. intros k Hk. rewrite Z.land_spec, shiftl1_testbit by lia. case_bool_decide as H; [subst k|].
    - destruct (Z.testbit v f) eqn:E; [|by rewrite Z.bits_0]. rewrite shiftl1_testbit by lia. by rewrite bool_decide_eq_true_2.
    - rewrite andb_false_r. destruct (Z.testbit v f); [|by rewrite Z.bits_0].
      rewrite shiftl1_testbit by lia. by rewrite bool_decide_eq_false_2. }
  destruct (Z.testbit v f); [|done]. rewrite Z.shiftl_1_l. destruct (Z.eqb_spec (2 ^ f) 0); [lia|done].
Qed.

Lemma set_flag_testbit v f k :
  0 <= f -> 0 <= k -> Z.testbit (set_flag v f true) k = bool_decide (f = k) || Z.testbit v k.
Proof.
  intros. unfold set_flag. rewrite Z.lor_spec, Z.land_spec, Z.lnot_spec, !shiftl1_testbit by lia.
  case_bool_decide; cbn; by rewrite ?andb_false_r, ?andb_true_r, ?orb_false_r.
Qed.

(** The bits of an entry that hold the address. *)
Definition addr_bit (k : Z) : bool := (12 <=? k) && (k <? 52).

Lemma addr_mask k : 0 <= k -> Z.testbit 0x000ffffffffff000 k = addr_bit k.
Proof.
  intros. change 0x000ffffffffff000 with (Z.shiftl (Z.ones 40) 12). unfold addr_bit.
  rewrite Z.shiftl_spec, Z.testbit_ones by lia. repeat zcase; cbn; done || lia.
Qed.

Lemma get_address_testbit v k : 0 <= k -> Z.testbit (get_address v) k = Z.testbit v k && addr_bit k.
Proof. intros. unfold get_address. by rewrite Z.land_spec, addr_mask. Qed.

Lemma set_address_testbit p k : 0 <= k -> Z.testbit (set_address 0 p) k = Z.testbit p k && addr_bit k.
Proof.
  intros. unfold set_address. rewrite Z.land_0_l, Z.lor_0_l. change 0x000000ffffffffff with (Z.ones 40).
  rewrite Z.shiftl_spec by lia. unfold addr_bit. destruct (Z.leb_spec 12 k); cbn.
  - rewrite Z.land_spec, Z.shiftr_spec, Z.testbit_ones by lia. replace (k - 12 + 12) with k by lia.
    f_equal. repeat zcase; cbn; done || lia.
  - rewrite andb_false_r. rewrite Z.testbit_neg_r by lia. done.
Qed.

(** An aligned physical address has address bits only. *)
Definition frame (p : Z) : Prop := p mod PAGE_SIZE = 0 /\ 0 <= p < 2 ^ 52.

Lemma frame_testbit p k : frame p -> 0 <= k -> Z.testbit p k = Z.testbit p k && addr_bit k.
Proof.
  intros [Ha Hp] Hk. unfold addr_bit, PAGE_SIZE in *. destruct (Z.leb_spec 12 k); cbn.
  - destruct (Z.ltb_spec k 52); [by rewrite andb_true_r|]. rewrite andb_false_r.
    destruct (decide (p = 0)) as [->|]; [apply Z.bits_0|]. apply Z.bits_above_log2; [lia|].
    apply Z.log2_lt_pow2; [lia|]. apply Z.lt_le_trans with (2 ^ 52); [lia|]. apply Z.pow_le_mono_r; lia.
  - rewrite andb_false_r. apply Z.mod_divide in Ha as [q ->]; [|lia]. change 4096 with (2 ^ 12).
    apply Z.mul_pow2_bits_low. lia.
Qed.

Lemma entry_address e p :
  frame p -> (forall k, 12 <= k < 52 -> Z.testbit e k = Z.testbit p k) -> get_address e = p.
Proof.
  intros Hp He. apply Z.bits_inj'. intros k Hk. rewrite get_address_testbit, (frame_testbit p) by done.
  unfold addr_bit. destruct (Z.leb_spec 12 k), (Z.ltb_spec k 52); cbn; rewrite ?andb_false_r; try done.
  by rewrite He by lia.
Qed.

Definition table_entry (p : Z) : Z :=
  set_flag (set_flag (set_flag (set_address 0 p) Present true) ReadWrite true) UserSuper true.

Lemma table_entry_ok p : frame p -> get_flag (table_entry p) Present = true /\ get_address (table_entry p) = p.
Proof.
  intros Hp. unfold table_entry, Present, ReadWrite, UserSuper. split.
  - rewrite get_flag_testbit, !set_flag_testbit by lia. done.
  - apply entry_address; [done|]. intros k Hk. rewrite !set_flag_testbit by lia.
    rewrite !bool_decide_eq_false_2 by lia. cbn. rewrite set_address_testbit by lia. by rewrite <- frame_testbit by (done || lia).
Qed.

Lemma leaf_bits flags v l k : 0 <= k -> Forall (Z.le 0) l ->
  Z.testbit (foldl (fun pte bit => if negb (Z.land flags (Z.shiftl 1 bit) =? 0) then set_flag pte bit true else pte) v l) k =
  Z.testbit v k || (bool_decide (k ∈ l) && Z.testbit flags k).
Proof.
  intros Hk. revert v. induction l as [|b l IH]; intros v Hl; cbn [foldl].
  - rewrite bool_decide_eq_false_2 by apply not_elem_of_nil. by rewrite orb_false_r.
  - inversion Hl; subst. rewrite IH by done. fold (get_flag flags b). rewrite get_flag_testbit by done.
    destruct (decide (k = b)) as [->|Hne].
    + rewrite (bool_decide_eq_true_2 (b ∈ b :: l)) by set_solver. destruct (Z.testbit flags b) eqn:E.
      * rewrite set_flag_testbit, bool_decide_eq_true_2 by done. cbn. by rewrite orb_true_r.
      * rewrite !andb_false_r. done.
    + assert (Z.testbit (if Z.testbit flags b then set_flag v b true else v) k = Z.testbit v k) as ->.
      { destruct (Z.testbit flags b); [|done]. rewrite set_flag_testbit by done. by rewrite bool_decide_eq_false_2. }
      f_equal. f_equal. apply bool_decide_ext. rewrite elem_of_cons. naive_solver.
Qed.

Lemma leaf_entry_testbit p flags present k : 0 <= k < 64 ->
  Z.testbit (leaf_entry p flags present) k =
  (Z.testbit p k && addr_bit k) || Z.testbit (if present then Z.lor flags (Z.shiftl 1 Present) else flags) k.
Proof.
  intros Hk. unfold leaf_entry. rewrite leaf_bits; [|lia|].
  - rewrite set_address_testbit by lia. rewrite bool_decide_eq_true_2 by (apply elem_of_seqZ; lia). done.
  - apply Forall_forall. intros x Hx%elem_of_seqZ. lia.
Qed.

(** Flags that do not reach into the address. *)
Lemma leaf_entry_address p flags present :
  frame p -> (forall k, 12 <= k < 52 -> Z.testbit flags k = false) -> get_address (leaf_entry p flags present) = p.
Proof.
  intros Hp Hf. apply entry_address; [done|]. intros k Hk. rewrite leaf_entry_testbit by lia.
  rewrite <- frame_testbit by (done || lia).
  assert (Z.testbit (if present then Z.lor flags (Z.shiftl 1 Present) else flags) k = false) as ->.
  { destruct present; [|auto]. rewrite Z.lor_spec, Hf, shiftl1_testbit by (unfold Present; lia). unfold Present.
    by rewrite bool_decide_eq_false_2 by lia. }
  by rewrite orb_false_r.
Qed.

Lemma leaf_entry_present p flags present :
  get_flag (leaf_entry p flags present) Present = present || Z.testbit flags 0.
Proof.
  rewrite get_flag_testbit by done. unfold Present at 1. rewrite leaf_entry_testbit by lia.
  change (addr_bit 0) with false. rewrite andb_false_r, orb_false_l.
  destruct present; [|done]. rewrite Z.lor_spec, shiftl1_testbit by done. rewrite bool_decide_eq_true_2 by done.
  by rewrite orb_true_r.
Qed.

(** ** The tree of tables

    [G] names every table of an address space by the indices that lead to it:
    the empty path is the top table, paths of length three are page tables. *)

Section tree.
Context {F : Type} `{!FrameSource F}.
Implicit Types (m : machine F) (G : gmap (list Z) Z).

Definition slot (i : Z) : Prop := 0 <= i < 512.

Record tree (root : Z) (m : machine F) (G : gmap (list Z) Z) : Prop := {
  t_src : fr_ok (source m);
  t_root : G !! [] = Some root;
  t_frame : forall p f, G !! p = Some f -> frame f /\ f <> 0 /\ fr_out (source m) f;
  t_inj : forall p q f, G !! p = Some f -> G !! q = Some f -> p = q;
  t_depth : forall p f, G !! p = Some f -> (length p <= 3)%nat;
  t_parent : forall p i f, G !! (p ++ [i]) = Some f -> is_Some (G !! p) /\ slot i;
  t_entry : forall p f i, G !! p = Some f -> (length p < 3)%nat -> slot i ->
    match G !! (p ++ [i]) with
    | Some g => get_flag (words m (f + 8 * i)) Present = true /\ get_address (words m (f + 8 * i)) = g
    | None => get_flag (words m (f + 8 * i)) Present = false
    end
}.

(** The entry of page [d] of the page table at path [q], 0 without a table. *)
Definition entry m G (q : list Z) (d : Z) : Z :=
  match G !! q with Some f => words m (f + 8 * d) | None => 0 end.

(** Leaf entries are those below paths of length three. *)
Definition leaf (q : list Z) (d : Z) : Prop := length q = 3%nat /\ slot d.

Lemma slot_inj f g i j : frame f -> frame g -> slot i -> slot j -> f + 8 * i = g + 8 * j -> f = g /\ i = j.
Proof.
  unfold frame, slot, PAGE_SIZE. intros [Hf _] [Hg _] Hi Hj He.
  apply Z.mod_divide in Hf as [a ->]; [|lia]. apply Z.mod_divide in Hg as [b ->]; [|lia]. lia.
Qed.

Lemma slot_in f g i : frame f -> frame g -> slot i -> g <= f + 8 * i < g + 4096 -> f = g.
Proof.
  unfold frame, slot, PAGE_SIZE. intros [Hf _] [Hg _] Hi Hr.
  apply Z.mod_divide in Hf as [a ->]; [|lia]. apply Z.mod_divide in Hg as [b ->]; [|lia]. lia.
Qed.

Lemma snoc_inj (p q : list Z) i j : p ++ [i] = q ++ [j] -> p = q /\ i = j.
Proof. intros H. apply app_inj_tail in H. done. Qed.

Lemma snoc_self (p : list Z) i : p <> p ++ [i].
Proof. intros H%(f_equal length). rewrite length_app in H. cbn in H. lia. Qed.

(** A machine that differs in the frame source only, with the same frames out. *)
Lemma tree_source root m G f' :
  tree root m G -> fr_ok f' -> (forall x, fr_out f' x <-> fr_out (source m) x) ->
  tree root {| words := words m; source := f' |} G.
Proof. intros [] Hf Ho. split; cbn; try done. intros p f Hp. rewrite Ho. exact (t_frame0 p f Hp). Qed.

(** *** A new table *)

Lemma tree_add root m G p f i g f' v :
  tree root m G -> G !! p = Some f -> (length p < 3)%nat -> slot i -> G !! (p ++ [i]) = None ->
  frame g -> g <> 0 -> ~ fr_out (source m) g -> fr_ok f' -> (forall x, fr_out f' x <-> x = g \/ fr_out (source m) x) ->
  get_flag v Present = true -> get_address v = g ->
  let m' := {| words := fun a => if decide (a = f + 8 * i) then v
                                 else if decide (g <= a < g + 4096) then 0 else words m a; source := f' |} in
  tree root m' (<[p ++ [i] := g]> G) /\ forall q d, leaf q d -> entry m' (<[p ++ [i] := g]> G) q d = entry m G q d.
Proof.
  intros [] Hp Hl Hi Hn Hg Hg0 Hno Hf' Ho Hv Ha m'.
  assert (forall q f0, G !! q = Some f0 -> f0 <> g) as Hfresh.
  { intros q f0 Hq ->. by apply t_frame0 in Hq as (_ & _ & ?). }
  assert (forall q f0 j, G !! q = Some f0 -> slot j -> (q, j) <> (p, i) -> words m' (f0 + 8 * j) = words m (f0 + 8 * j)) as Hw.
  { intros q f0 j Hq Hj Hne. cbn. destruct (t_frame0 _ _ Hq) as (Hf0 & _). destruct (t_frame0 _ _ Hp) as (Hf & _).
    destruct (decide (f0 + 8 * j = f + 8 * i)) as [He|].
    - apply slot_inj in He as [-> ->]; try done. by rewrite (t_inj0 _ _ _ Hq Hp) in Hne.
    - destruct (decide (g <= f0 + 8 * j < g + 4096)) as [Hr|]; [|done]. exfalso. apply (Hfresh _ _ Hq). by eapply slot_in. }
  assert (forall j, slot j -> words m' (g + 8 * j) = 0) as Hz.
  { intros j Hj. cbn. destruct (decide (g + 8 * j = f + 8 * i)) as [He|].
    - exfalso. apply slot_inj in He as [He _]; try done; [|by apply t_frame0 in Hp as (? & _)]. by apply (Hfresh _ _ Hp).
    - rewrite decide_True; [done|]. unfold slot in Hj. lia. }
  split.
  - split.
    + done.
    + rewrite lookup_insert_ne; [done|]. by destruct p.
    + intros q f0. rewrite lookup_insert. case_decide as Hq.
      * intros [= <-]. cbn. rewrite Ho. auto.
      * intros Hq0. cbn. rewrite Ho. destruct (t_frame0 _ _ Hq0) as (? & ? & ?). auto.
    + intros q q' f0. rewrite !lookup_insert. do 2 case_decide; intros H1 H2; simplify_eq; try done.
      * exfalso. by apply (Hfresh _ _ H2).
      * exfalso. by apply (Hfresh _ _ H1).
      * by eapply t_inj0.
    + intros q f0. rewrite lookup_insert. case_decide as Hq; [|by apply t_depth0].
      intros _. subst q. rewrite length_app. cbn. lia.
    + intros q j f0. rewrite lookup_insert. case_decide as Hq.
      * intros _. apply snoc_inj in Hq as [<- <-]. rewrite lookup_insert_ne by (apply not_eq_sym, snoc_self). eauto.
      * intros [[f1 Hf1] Hj]%t_parent0. split; [|done]. rewrite lookup_insert. case_decide; eauto.
    + intros q f0 j. rewrite (lookup_insert _ _ q). case_decide as Hq.
      * intros [= <-] Hlq Hj. subst q. rewrite Hz by done. rewrite lookup_insert_ne by apply snoc_self.
        assert (G !! ((p ++ [i]) ++ [j]) = None) as ->.
        { destruct (G !! ((p ++ [i]) ++ [j])) eqn:E; [|done]. apply t_parent0 in E as [[? E] _]. congruence. }
        done.
      * intros Hq0 Hlq Hj. destruct (decide ((q, j) = (p, i))) as [[= -> ->]|Hne].
        { rewrite lookup_insert_eq. assert (f0 = f) as -> by congruence. cbn. rewrite decide_True by done. done. }
        rewrite lookup_insert_ne by (intros [<- <-]%snoc_inj; done). rewrite (Hw _ _ _ Hq0 Hj Hne). by apply t_entry0.
  - intros q d [Hq Hd]. unfold entry. rewrite lookup_insert. case_decide as He.
    + subst q. rewrite Hn. by apply Hz.
    + destruct (G !! q) as [f0|] eqn:E; [|done]. apply (Hw q); [done..|]. intros [= -> ->]. lia.
Qed.

(** The source after [k] requests. *)
Definition requested (k : nat) (f : F) : F := Nat.iter k (fun f => snd (fr_request f)) f.

(** One of the next three requests, which are as many as [map_memory] makes, is
    refused. *)
Definition refused (f : F) : Prop := exists k, (k < 3)%nat /\ fst (fr_request (requested k f)) = 0.

Lemma requested_add j k f : requested j (requested k f) = requested (j + k) f.
Proof. unfold requested. by rewrite Nat.iter_add. Qed.

Lemma ensure_table_ok root m G p f i :
  tree root m G -> G !! p = Some f -> (length p < 3)%nat -> slot i ->
  exists r m' G', ensure_table f i m = Done r m' /\ tree root m' G' /\
    (forall q x, G !! q = Some x -> G' !! q = Some x) /\
    (forall q d, leaf q d -> entry m' G' q d = entry m G q d) /\
    match r with
    | Some g => G' !! (p ++ [i]) = Some g /\ exists k, (k <= 1)%nat /\ source m' = requested k (source m)
    | None => fst (fr_request (source m)) = 0
    end.
Proof.
  intros Ht Hp Hl Hi. pose proof (t_entry _ _ _ Ht p f i Hp Hl Hi) as He.
  unfold ensure_table, load_entry. mstep. destruct (G !! (p ++ [i])) as [g|] eqn:Hg.
  - destruct He as [-> ->]. mstep. exists (Some g), m, G. split_and!; try done. by exists 0%nat; split; [lia|].
  - rewrite He. mstep. unfold request_page_phys.
    pose proof (fr_request_ok (source m) (t_src _ _ _ Ht)) as Hr. destruct (fr_request (source m)) as [r f'] eqn:Hreq.
    destruct Hr as [Hf' [[-> Ho]|(Ha & Hr & Hno & Ho)]]; mstep.
    + exists None. eexists _, G. split_and!; [reflexivity|by apply tree_source|done..].
    + destruct (Z.eqb_spec r 0); [lia|]. unfold zero_table, store_entry. mstep. fold (table_entry r).
      assert (frame r) as Hfr by (split; [done|lia]). destruct (table_entry_ok r Hfr) as [Hv1 Hv2].
      destruct (tree_add root m G p f i r f' (table_entry r)) as [Ht' He']; try done.
      eexists (Some r), _, _. split_and!; [reflexivity|exact Ht'| |exact He'| |].
      * intros q x Hq. rewrite lookup_insert_ne; [done|]. intros <-. congruence.
      * apply lookup_insert_eq.
      * exists 1%nat. split; [done|]. cbn. by rewrite Hreq.
Qed.

(** *** Entries change *)

Lemma tree_store_leaf root m G q f d v :
  tree root m G -> G !! q = Some f -> leaf q d ->
  exists m', store_entry f d v m = Done tt m' /\ tree root m' G /\ source m' = source m /\
    forall q' d', leaf q' d' -> entry m' G q' d' = if decide ((q', d') = (q, d)) then v else entry m G q' d'.
Proof.
  intros [] Hq [Hlen Hd]. eexists. split; [reflexivity|].
  assert (forall q' f' j, G !! q' = Some f' -> slot j -> (q', j) <> (q, d) -> f' + 8 * j <> f + 8 * d) as Hne.
  { intros q' f' j Hq' Hj Hne He. apply slot_inj in He as [-> ->]; try done.
    - by rewrite (t_inj0 _ _ _ Hq' Hq) in Hne.
    - by apply t_frame0 in Hq' as (? & _).
    - by apply t_frame0 in Hq as (? & _). }
  split_and!; [|done|].
  - split; cbn; try done. intros p f0 j Hp Hl Hj. rewrite decide_False; [by apply t_entry0|].
    eapply Hne; [done..|]. intros [= -> ->]. lia.
  - intros q' d' [Hl' Hd']. unfold entry. cbn. case_decide as He.
    + simplify_eq. rewrite Hq. by rewrite decide_True.
    + destruct (G !! q') as [f'|] eqn:E; [|done]. rewrite decide_False; [done|]. by eapply Hne.
Qed.

(** A table without tables below it leaves the tree. *)
Lemma tree_drop root m G p f i g :
  tree root m G -> G !! p = Some f -> (length p < 3)%nat -> slot i -> G !! (p ++ [i]) = Some g ->
  (forall j, G !! (p ++ [i] ++ [j]) = None) ->
  exists m', (_ ← free_page_phys g; store_entry f i 0) m = Done tt m' /\
    tree root m' (delete (p ++ [i]) G) /\
    (forall a, (forall j, slot j -> a <> f + 8 * j) -> words m' a = words m a) /\
    (forall q d, leaf q d -> q <> p ++ [i] -> entry m' (delete (p ++ [i]) G) q d = entry m G q d).
Proof.
  intros [] Hp Hl Hi Hg Hc. unfold free_page_phys, store_entry. mstep. eexists. split; [reflexivity|].
  destruct (fr_free_ok (source m) g t_src0) as [Hok Ho]; [by apply t_frame0 in Hg as (_ & _ & ?)|].
  assert (forall q' f' j, G !! q' = Some f' -> slot j -> (q', j) <> (p, i) -> f' + 8 * j <> f + 8 * i) as Hne.
  { intros q' f' j Hq' Hj Hne He. apply slot_inj in He as [-> ->]; try done.
    - by rewrite (t_inj0 _ _ _ Hq' Hp) in Hne.
    - by apply t_frame0 in Hq' as (? & _).
    - by apply t_frame0 in Hp as (? & _). }
  split_and!.
  - split; cbn.
    + done.
    + rewrite lookup_delete_ne; [done|]. by destruct p.
    + intros q f0 [Hne' Hq]%lookup_delete_Some. rewrite Ho. destruct (t_frame0 _ _ Hq) as (? & ? & ?).
      split_and!; try done. intros ->. apply Hne'. by eapply t_inj0.
    + intros q q' f0 [_ H1]%lookup_delete_Some [_ H2]%lookup_delete_Some. by eapply t_inj0.
    + intros q f0 [_ H1]%lookup_delete_Some. by eapply t_depth0.
    + intros q j f0 [Hne' H1]%lookup_delete_Some. destruct (t_parent0 _ _ _ H1) as [Hs Hj]. split; [|done].
      rewrite lookup_delete_ne; [done|]. intros <-. rewrite <- app_assoc in H1. by rewrite Hc in H1.
    + intros q f0 j [Hne' H1]%lookup_delete_Some Hlq Hj. destruct (decide ((q, j) = (p, i))) as [[= -> ->]|Hqj].
      * rewrite lookup_delete_eq. assert (f0 = f) as -> by congruence. by rewrite decide_True.
      * rewrite lookup_delete_ne by (intros [<- <-]%snoc_inj; done). rewrite decide_False by (by eapply Hne). by apply t_entry0.
  - intros a Ha. cbn. rewrite decide_False; [done|]. by apply Ha.
  - intros q d [Hlq Hd] Hq. unfold entry. rewrite lookup_delete_ne by done. cbn.
    destruct (G !! q) as [f0|] eqn:E; [|done]. rewrite decide_False; [done|]. eapply Hne; [done..|]. intros [= -> ->]. lia.
Qed.

(** ** Lookups *)

(** The path and the page of a virtual address. *)
Definition path_of (va : Z) : list Z := let ix := PageMapIndexer va in [pdp_i ix; pd_i ix; pt_i ix].
Definition page_of_va (va : Z) : Z := p_i (PageMapIndexer va).

Lemma land_slot x : slot (Z.land x 0x1ff).
Proof. unfold slot. change 0x1ff with (Z.ones 9). rewrite Z.land_ones by lia. apply Z.mod_pos_bound. lia. Qed.

Lemma va_leaf va : leaf (path_of va) (page_of_va va).
Proof. split; [done|]. apply land_slot. Qed.

(** Reading an entry of a table of the tree. *)
Lemma step_down root m G p f i :
  tree root m G -> G !! p = Some f -> (length p < 3)%nat -> slot i ->
  (get_flag (words m (f + 8 * i)) Present = false /\ G !! (p ++ [i]) = None) \/
  (get_flag (words m (f + 8 * i)) Present = true /\ G !! (p ++ [i]) = Some (get_address (words m (f + 8 * i)))).
Proof.
  intros Ht Hp Hl Hi. pose proof (t_entry _ _ _ Ht p f i Hp Hl Hi) as He.
  destruct (G !! (p ++ [i])); [right|left; done]. by destruct He as [? ->].
Qed.

Lemma no_child root m G p i q : tree root m G -> G !! (p ++ [i]) = None -> G !! (p ++ i :: q) = None.
Proof.
  intros Ht Hn. replace (p ++ i :: q) with ((p ++ [i]) ++ q) by (by rewrite <- app_assoc).
  induction q as [|x q IH] using rev_ind; [by rewrite app_nil_r|]. rewrite app_assoc.
  destruct (G !! (((p ++ [i]) ++ q) ++ [x])) eqn:E; [|done]. apply (t_parent _ _ _ Ht) in E as [[? E] _]. congruence.
Qed.

Lemma walk_ok root m G va :
  tree root m G -> exists w, walk root va m = Done w m /\ default 0 w = entry m G (path_of va) (page_of_va va).
Proof.
  intros Ht. unfold walk, load_entry, entry, path_of, page_of_va. mstep.
  pose proof (t_root _ _ _ Ht) as H0.
  set (ix := PageMapIndexer va).
  assert (slot (pdp_i ix) /\ slot (pd_i ix) /\ slot (pt_i ix)) as (S1 & S2 & S3) by (split_and!; apply land_slot).
  destruct (step_down root m G [] root _ Ht H0 ltac:(cbn; lia) S1) as [[-> Hn]|[-> H1]]; mstep.
  { exists None. split; [done|]. pose proof (no_child _ _ _ [] _ [pd_i ix; pt_i ix] Ht Hn) as Hc. cbn [app] in Hc. by rewrite Hc. }
  destruct (step_down root m G _ _ _ Ht H1 ltac:(cbn; lia) S2) as [[-> Hn]|[-> H2]]; mstep.
  { exists None. split; [done|]. pose proof (no_child _ _ _ [pdp_i ix] _ [pt_i ix] Ht Hn) as Hc. cbn [app] in Hc. by rewrite Hc. }
  destruct (step_down root m G _ _ _ Ht H2 ltac:(cbn; lia) S3) as [[-> Hn]|[-> H3]]; mstep.
  { exists None. split; [done|]. cbn [app] in Hn. by rewrite Hn. }
  eexists. split; [reflexivity|]. cbn [app] in H3. by rewrite H3.
Qed.

Lemma get_physical_ok root m G va :
  tree root m G ->
  let e := entry m G (path_of va) (page_of_va va) in
  get_physical_address root va m =
    Done (if get_flag e Present then u64 (get_address e + Z.land va 0xFFF) else 0) m /\
  is_mapped root va m = Done (get_flag e Present) m.
Proof.
  intros Ht e. destruct (walk_ok root m G va Ht) as (w & Hw & He). unfold get_physical_address, is_mapped.
  mstep. rewrite Hw. mstep. fold e in He. rewrite <- He. destruct w as [v|]; cbn [default id]; [|done].
  by destruct (get_flag v Present).
Qed.

(** ** map_memory *)

Lemma map_ok root m G va pa flags present :
  tree root m G ->
  exists m' G', map_memory root va pa flags present m = Done tt m' /\ tree root m' G' /\
    ((forall q d, leaf q d -> entry m' G' q d =
        if decide ((q, d) = (path_of va, page_of_va va)) then leaf_entry pa flags present else entry m G q d) \/
     refused (source m) /\ (forall q d, leaf q d -> entry m' G' q d = entry m G q d)).
Proof.
  intros Ht. unfold map_memory, path_of, page_of_va. set (ix := PageMapIndexer va).
  assert (slot (pdp_i ix) /\ slot (pd_i ix) /\ slot (pt_i ix) /\ slot (p_i ix)) as (S1 & S2 & S3 & S4) by (split_and!; apply land_slot).
  destruct (ensure_table_ok root m G [] root _ Ht (t_root _ _ _ Ht) ltac:(cbn; lia) S1) as (r1 & m1 & G1 & R1 & T1 & _ & E1 & H1).
  rewrite bind_run, R1. destruct r1 as [pdp|]; [destruct H1 as (H1 & k1 & K1 & F1)|exists m1, G1; split_and!; [done..|]; right; split; [by exists 0%nat; split; [lia|]|done]].
  destruct (ensure_table_ok root m1 G1 _ _ _ T1 H1 ltac:(cbn; lia) S2) as (r2 & m2 & G2 & R2 & T2 & _ & E2 & H2).
  rewrite bind_run, R2. destruct r2 as [pd|];
    [destruct H2 as (H2 & k2 & K2 & F2)|exists m2, G2; split_and!; [done..|]; right; split; [exists k1; split; [lia|by rewrite <- F1]|intros q d Hl; by rewrite E2, E1]].
  destruct (ensure_table_ok root m2 G2 _ _ _ T2 H2 ltac:(cbn; lia) S3) as (r3 & m3 & G3 & R3 & T3 & _ & E3 & H3).
  rewrite bind_run, R3. destruct r3 as [pt|];
    [destruct H3 as [H3 _]|exists m3, G3; split_and!; [done..|]; right; split;
       [exists (k2 + k1)%nat; split; [lia|by rewrite <- requested_add, <- F1, <- F2]|intros q d Hl; by rewrite E3, E2, E1]].
  cbn [app] in H3.
  destruct (tree_store_leaf root m3 G3 _ _ (p_i ix) (leaf_entry pa flags present) T3 H3) as (m4 & R4 & T4 & _ & E4); [done|].
  exists m4, G3. split_and!; [done..|]. left. intros q d Hl. rewrite E4 by done. case_decide; [done|]. by rewrite E3, E2, E1.
Qed.

(** ** unmap_memory *)

(** Present entries stay, but for the one at [x]; no entry becomes present. *)
Definition shrinks (x : list Z * Z) (e e' : list Z -> Z -> Z) : Prop :=
  forall q d, leaf q d -> (q, d) <> x ->
    (get_flag (e q d) Present = true -> e' q d = e q d) /\
    (get_flag (e q d) Present = false -> get_flag (e' q d) Present = false).

Lemma shrinks_trans x e1 e2 e3 : shrinks x e1 e2 -> shrinks x e2 e3 -> shrinks x e1 e3.
Proof.
  intros H1 H2 q d Hl Hx. destruct (H1 q d Hl Hx) as [A1 B1], (H2 q d Hl Hx) as [A2 B2]. split.
  - intros Hp. specialize (A1 Hp). rewrite A2; congruence.
  - auto.
Qed.

Lemma empty_entries f m : is_table_empty f m = Done true m -> forall j, slot j -> get_flag (words m (f + 8 * j)) Present = false.
Proof.
  unfold is_table_empty. destruct (forallb _ _) eqn:H; [|discriminate]. intros _ j Hj. rewrite forallb_forall in H.
  specialize (H j). apply negb_true_iff, H, list_elem_of_In, elem_of_seqZ. unfold slot in Hj. lia.
Qed.

Lemma empty_children root m G p f :
  tree root m G -> G !! p = Some f -> (length p < 3)%nat -> is_table_empty f m = Done true m ->
  forall j, G !! (p ++ [j]) = None.
Proof.
  intros Ht Hp Hl He j. destruct (G !! (p ++ [j])) eqn:E; [|done].
  destruct (t_parent _ _ _ Ht _ _ _ E) as [_ Hj]. pose proof (t_entry _ _ _ Ht p f j Hp Hl Hj) as Hen.
  rewrite E, (empty_entries _ _ He) in Hen by done. by destruct Hen.
Qed.

(** Dropping an empty table, by the two statements of [unmap_memory]. *)
Lemma drop_step root m G p f i g x :
  tree root m G -> G !! p = Some f -> (length p < 3)%nat -> slot i -> G !! (p ++ [i]) = Some g ->
  is_table_empty g m = Done true m ->
  exists m', store_entry f i 0 {| words := words m; source := fr_free g (source m) |} = Done tt m' /\
    tree root m' (delete (p ++ [i]) G) /\ shrinks x (entry m G) (entry m' (delete (p ++ [i]) G)) /\
    (forall d, entry m' (delete (p ++ [i]) G) (p ++ [i]) d = 0).
Proof.
  intros Ht Hp Hl Hi Hg He.
  destruct (tree_drop root m G p f i g Ht Hp Hl Hi Hg) as (m' & R & T & _ & E).
  { intros j. rewrite app_assoc. destruct (decide (length (p ++ [i]) < 3)%nat).
    - by eapply empty_children.
    - destruct (G !! ((p ++ [i]) ++ [j])) eqn:Ej; [|done]. apply (t_depth _ _ _ Ht) in Ej.
      rewrite length_app in Ej. cbn in Ej. lia. }
  exists m'. split_and!; [by revert R; mstep|done| |].
  - intros q d Hlf Hx. destruct (decide (q = p ++ [i])) as [->|]; [|by rewrite E].
    unfold entry. rewrite lookup_delete_eq, Hg. destruct Hlf as [_ Hd]. rewrite (empty_entries _ _ He) by done. done.
  - intros d. unfold entry. by rewrite lookup_delete_eq.
Qed.

Lemma free_run g m : free_page_phys g m = Done tt {| words := words m; source := fr_free g (source m) |}.
Proof. done. Qed.

Lemma not_empty_or f m : is_table_empty f m = Done true m \/ is_table_empty f m = Done false m.
Proof. unfold is_table_empty. destruct (forallb _ _); auto. Qed.

Lemma unmap_ok root m G va :
  tree root m G ->
  let x := (path_of va, page_of_va va) in
  exists m' G', unmap_memory root va m = Done tt m' /\ tree root m' G' /\
    shrinks x (entry m G) (entry m' G') /\ get_flag (entry m' G' (path_of va) (page_of_va va)) Present = false.
Proof.
  intros Ht x. unfold unmap_memory, load_entry. subst x. unfold path_of, page_of_va. set (ix := PageMapIndexer va).
  set (x := ([pdp_i ix; pd_i ix; pt_i ix], p_i ix)).
  assert (slot (pdp_i ix) /\ slot (pd_i ix) /\ slot (pt_i ix) /\ slot (p_i ix)) as (S1 & S2 & S3 & S4) by (split_and!; apply land_slot).
  assert (forall m G, shrinks x (entry m G) (entry m G)) as Hrefl by (by intros ? ? q d).
  assert (forall p, G !! p = None -> p = [pdp_i ix; pd_i ix; pt_i ix] -> get_flag (entry m G [pdp_i ix; pd_i ix; pt_i ix] (p_i ix)) Present = false) as Hnone.
  { intros p Hp ->. unfold entry. by rewrite Hp. }
  pose proof (t_root _ _ _ Ht) as H0. mstep.
  destruct (step_down root m G [] root _ Ht H0 ltac:(cbn; lia) S1) as [[-> Hn]|[-> H1]]; mstep.
  { exists m, G. split_and!; try done. by apply (Hnone _ (no_child _ _ _ [] _ [pd_i ix; pt_i ix] Ht Hn)). }
  destruct (step_down root m G _ _ _ Ht H1 ltac:(cbn; lia) S2) as [[-> Hn]|[-> H2]]; mstep.
  { exists m, G. split_and!; try done. by apply (Hnone _ (no_child _ _ _ [pdp_i ix] _ [pt_i ix] Ht Hn)). }
  destruct (step_down root m G _ _ _ Ht H2 ltac:(cbn; lia) S3) as [[-> Hn]|[-> H3]]; mstep.
  { exists m, G. split_and!; try done. by apply (Hnone _ Hn). }
  set (pdp := get_address (words m (root + 8 * pdp_i ix))) in *.
  set (pd := get_address (words m (pdp + 8 * pd_i ix))) in *.
  set (pt := get_address (words m (pd + 8 * pt_i ix))) in *. cbn [app] in H1, H2, H3.
  assert (entry m G [pdp_i ix; pd_i ix; pt_i ix] (p_i ix) = words m (pt + 8 * p_i ix)) as He by (unfold entry; by rewrite H3).
  destruct (get_flag (words m (pt + 8 * p_i ix)) Present) eqn:Hpr; mstep; [|exists m, G; rewrite He; done].
  (* the leaf *)
  destruct (tree_store_leaf root m G _ _ (p_i ix) 0 Ht H3) as (m1 & R1 & T1 & _ & E1); [done|]. rewrite R1.
  assert (shrinks x (entry m G) (entry m1 G)) as K1.
  { intros q d Hl Hx. rewrite E1 by done. rewrite decide_False by done. done. }
  assert (get_flag (entry m1 G [pdp_i ix; pd_i ix; pt_i ix] (p_i ix)) Present = false) as N1.
  { rewrite E1 by done. by rewrite decide_True. }
  rewrite bind_run. destruct (not_empty_or pt m1) as [Hpt|Hpt]; rewrite Hpt; mstep; [|exists m1, G; done].
  (* the page table *)
  destruct (drop_step root m1 G [pdp_i ix; pd_i ix] pd (pt_i ix) pt x T1 H2 ltac:(cbn; lia) S3 H3 Hpt)
    as (m2 & R2 & T2 & K2 & N2).
  cbn [app] in T2, K2, N2. set (G2 := delete [pdp_i ix; pd_i ix; pt_i ix] G) in *.
  assert (G2 !! [pdp_i ix; pd_i ix] = Some pd /\ G2 !! [pdp_i ix] = Some pdp) as [H2' H1'].
  { unfold G2. by rewrite !lookup_delete_ne. }
  assert (get_flag (entry m2 G2 [pdp_i ix; pd_i ix; pt_i ix] (p_i ix)) Present = false) as N2' by (by rewrite N2).
  rewrite free_run, bind_run, R2. mstep. pose proof (shrinks_trans _ _ _ _ K1 K2) as K2'.
  destruct (not_empty_or pd m2) as [Hpd|Hpd]; rewrite Hpd; mstep; [|exists m2, G2; done].
  (* the page directory *)
  destruct (drop_step root m2 G2 [pdp_i ix] pdp (pd_i ix) pd x T2 H1' ltac:(cbn; lia) S2 H2' Hpd)
    as (m3 & R3 & T3 & K3 & _).
  cbn [app] in T3, K3. set (G3 := delete [pdp_i ix; pd_i ix] G2) in *.
  assert (G3 !! [pdp_i ix] = Some pdp) as H1'' by (unfold G3; by rewrite lookup_delete_ne).
  assert (G3 !! [pdp_i ix; pd_i ix; pt_i ix] = None) as Hn3.
  { unfold G3, G2. rewrite lookup_delete_ne by done. apply lookup_delete_eq. }
  rewrite free_run, bind_run, R3. mstep. pose proof (shrinks_trans _ _ _ _ K2' K3) as K3'.
  destruct (not_empty_or pdp m3) as [Hpdp|Hpdp]; rewrite Hpdp; mstep.
  2: { exists m3, G3. split_and!; try done. unfold entry. by rewrite Hn3. }
  (* the page directory pointer table *)
  destruct (drop_step root m3 G3 [] root (pdp_i ix) pdp x T3 (t_root _ _ _ T3) ltac:(cbn; lia) S1 H1'' Hpdp)
    as (m4 & R4 & T4 & K4 & _).
  cbn [app] in T4, K4. rewrite free_run, R4. eexists _, _. split_and!; [reflexivity|exact T4| |].
  - exact (shrinks_trans _ _ _ _ K3' K4).
  - unfold entry. rewrite lookup_delete_ne, Hn3; done.
Qed.
End tree.
