(* ===== verification/PageTableProps.v ===== *)
(** * Page tables: what the kernel can rely on

    The page frame allocator is a [FrameSource]; over any frame source, programs
    of [map_memory] and [unmap_memory] calls behave like updates of a function
    from virtual to physical addresses. *)

From Stdlib Require Import ZArith Lia.
From stdpp Require Import base tactics gmap numbers relations list.
From S2P Require Import Prelude.
From S2P Require Import Memory.
From S2P Require Import PageFrame.
From S2P Require Import PageFrameFacts.
From S2P Require Import PageFrameProps.
From S2P Require Import PageTable.
From S2P Require Import PageTableFacts.

(** ** The page frame allocator as a source of frames *)

Section pfa_source.
Context (p0 : pfa) (Hp0 : pfa_ready p0) (Hmax : cap p0 * PAGE_SIZE <= 2 ^ 52).

Definition pfa_request (c : holders) : Z * holders :=
  match request_page (S (Z.to_nat (cap (ho_pfa c)))) (ho_pfa c) with
  | Done r q => (r, {| ho_pfa := q; ho_own := if r =? 0 then ho_own c else r :: ho_own c |})
  | _ => (0, c)
  end.

Definition pfa_free (a : Z) (c : holders) : holders :=
  match free_page a (ho_pfa c) with
  | Done _ q => {| ho_pfa := q; ho_own := filter (fun x => x <> a) (ho_own c) |}
  | _ => c
  end.

Lemma filter_out (a : Z) l1 l2 : NoDup (l1 ++ a :: l2) -> filter (fun x => x <> a) (l1 ++ a :: l2) = l1 ++ l2.
Proof.
  intros (H1 & H2 & [H3 H4]%NoDup_cons)%NoDup_app. rewrite filter_app, filter_cons_False by naive_solver.
  assert (forall l : list Z, a ∉ l -> filter (fun x : Z => x <> a) l = l) as Hf.
  { induction l as [|y l IH]; intros Hl; [done|]. rewrite filter_cons_True by set_solver. f_equal. apply IH. set_solver. }
  rewrite !Hf; set_solver.
Qed.

Lemma pfa_request_ok c : holders_inv p0 c ->
  let '(r, c') := pfa_request c in
  holders_inv p0 c' /\
  (r = 0 /\ (forall x, x ∈ ho_own c' <-> x ∈ ho_own c) \/
   r mod PAGE_SIZE = 0 /\ 0 < r < 2 ^ 52 /\ r ∉ ho_own c /\ (forall x, x ∈ ho_own c' <-> x = r \/ x ∈ ho_own c)).
Proof.
  intros Hc. unfold pfa_request.
  destruct (request_page_ok (S (Z.to_nat (cap (ho_pfa c)))) (ho_pfa c) (hi_hint _ _ Hc)) as (r & q & Hq & _).
  { destruct (hi_hint _ _ Hc) as [? _]. lia. }
  rewrite Hq. pose proof (mono_returns _ _ _ _ _ (mono_while _ tt) Hq) as Hr.
  destruct (Z.eqb_spec r 0) as [->|Hr0].
  - split; [by eapply frame_step_inv; [..|apply fs_page_none]|]. left. done.
  - assert (holders_inv p0 {| ho_pfa := q; ho_own := r :: ho_own c |}) as Hc' by (by eapply frame_step_inv; [..|apply fs_page]).
    split; [done|]. right. destruct (hi_own _ _ Hc' r) as (i & -> & Hi & _); [set_solver|].
    split_and!; [by apply Z.mod_mul|unfold PAGE_SIZE in *; lia..| |cbn; set_solver].
    apply (NoDup_cons _ (ho_own c)), (hi_nodup _ _ Hc').
Qed.

Lemma pfa_free_ok c a : holders_inv p0 c -> a ∈ ho_own c ->
  holders_inv p0 (pfa_free a c) /\ (forall x, x ∈ ho_own (pfa_free a c) <-> x <> a /\ x ∈ ho_own c).
Proof.
  intros Hc Ha. apply list_elem_of_split in Ha as (l1 & l2 & Hl).
  destruct (free_owned p0 c a l1 l2 Hc Hl) as (q & Hq & Hinv). unfold pfa_free. rewrite Hq. cbn [ho_own].
  pose proof (hi_nodup _ _ Hc) as Hn. rewrite Hl in *. rewrite filter_out by done. split; [done|].
  intros x. apply NoDup_app in Hn as (_ & H2 & [H3 _]%NoDup_cons). specialize (H2 a). set_solver.
Qed.

#[local] Instance pfa_source : FrameSource holders := {|
  fr_request := pfa_request;
  fr_free := pfa_free;
  fr_ok := holders_inv p0;
  fr_out c x := x ∈ ho_own c;
  fr_request_ok := pfa_request_ok;
  fr_free_ok := pfa_free_ok
|}.
End pfa_source.

(** ** Virtual pages *)

(** The 36 bits of a virtual address that select its page. *)
Definition vpn (va : Z) : Z := (va / PAGE_SIZE) mod 2 ^ 36.

Lemma vpn_indices va :
  let ix := PageMapIndexer va in vpn va = ((pdp_i ix * 512 + pd_i ix) * 512 + pt_i ix) * 512 + p_i ix.
Proof.
  cbn. unfold vpn, PAGE_SIZE. change 511 with (Z.ones 9). rewrite !Z.land_ones, !Z.shiftr_div_pow2 by lia.
  change (2 ^ 12) with 4096. change (2 ^ 9) with 512. change (2 ^ 36) with 68719476736.
  generalize (va / 4096). intros a. Z.to_euclidean_division_equations. lia.
Qed.

Lemma vpn_inj va vb : (path_of va, page_of_va va) = (path_of vb, page_of_va vb) <-> vpn va = vpn vb.
Proof.
  unfold path_of, page_of_va. rewrite !vpn_indices.
  pose proof (land_slot (Z.shiftr va 12)). pose proof (land_slot (Z.shiftr (Z.shiftr va 12) 9)).
  pose proof (land_slot (Z.shiftr (Z.shiftr (Z.shiftr va 12) 9) 9)).
  pose proof (land_slot (Z.shiftr (Z.shiftr (Z.shiftr (Z.shiftr va 12) 9) 9) 9)).
  pose proof (land_slot (Z.shiftr vb 12)). pose proof (land_slot (Z.shiftr (Z.shiftr vb 12) 9)).
  pose proof (land_slot (Z.shiftr (Z.shiftr (Z.shiftr vb 12) 9) 9)).
  pose proof (land_slot (Z.shiftr (Z.shiftr (Z.shiftr (Z.shiftr vb 12) 9) 9) 9)).
  unfold slot in *. cbn in *. split; [by intros [= -> -> -> ->]|]. intros He.
  apply pair_equal_spec. split; [|lia]. f_equal; [lia|]. f_equal; [lia|]. f_equal. lia.
Qed.

(** ** Programs of map and unmap calls *)

Inductive pt_op :=
| Map (va pa flags : Z) (present : bool)
| Unmap (va : Z).

(** Frames for addresses, and flags that do not reach into the address. *)
Definition op_ok (op : pt_op) : Prop :=
  match op with
  | Map _ pa flags _ => frame pa /\ forall k, 12 <= k < 52 -> Z.testbit flags k = false
  | Unmap _ => True
  end.

(** What a call does to the translation [T] of virtual addresses: a mapping of
    the page of [va], or nothing when the source is [starved] of frames for
    tables; and no mapping of it after [Unmap]. *)
Inductive effect (starved : Prop) : pt_op -> (Z -> Z) -> (Z -> Z) -> Prop :=
| eff_map va pa flags present T T' :
    (forall v, T' v = if decide (vpn v = vpn va)
                      then if present || Z.testbit flags 0 then u64 (pa + Z.land v 0xFFF) else 0
                      else T v) ->
    effect starved (Map va pa flags present) T T'
| eff_no_frame va pa flags present T T' :
    starved -> (forall v, T' v = T v) -> effect starved (Map va pa flags present) T T'
| eff_unmap va T T' :
    (forall v, T' v = if decide (vpn v = vpn va) then 0 else T v) -> effect starved (Unmap va) T T'.

Section programs.
Context {F : Type} `{!FrameSource F} (root : Z).
Implicit Types (m : machine F).

Definition run_op (op : pt_op) : M (machine F) unit :=
  match op with
  | Map va pa flags present => map_memory root va pa flags present
  | Unmap va => unmap_memory root va
  end.

(** The translation the lookups show. *)
Definition translate m (va : Z) : Z :=
  match get_physical_address root va m with Done a _ => a | _ => 0 end.

(** The translation in terms of a leaf entry. *)
Definition shown (e va : Z) : Z := if get_flag e Present then u64 (get_address e + Z.land va 0xFFF) else 0.

Lemma translate_entry m G va :
  tree root m G -> translate m va = shown (entry m G (path_of va) (page_of_va va)) va.
Proof. intros Ht. unfold translate. by rewrite (proj1 (get_physical_ok root m G va Ht)). Qed.

(** The calls one after the other: each changes the translation as it should, and
    only a call in front of which one of the next three requests for a frame is
    refused may leave it. *)
Inductive effects : list pt_op -> machine F -> machine F -> Prop :=
| effs_nil m : effects [] m m
| effs_cons op ops m m1 m' :
    run_op op m = Done tt m1 -> effect (refused (source m)) op (translate m) (translate m1) -> effects ops m1 m' -> effects (op :: ops) m m'.

Lemma run_op_ok op m G :
  tree root m G -> op_ok op ->
  exists m' G', run_op op m = Done tt m' /\ tree root m' G' /\ effect (refused (source m)) op (translate m) (translate m').
Proof.
  intros Ht Hop. destruct op as [va pa flags present|va]; cbn [run_op].
  - destruct (map_ok root m G va pa flags present Ht) as (m' & G' & R & T & [E|[Hno E]]); exists m', G'; split_and!; try done.
    + apply eff_map. intros v. rewrite (translate_entry m' G'), (translate_entry m G), E by (done || apply va_leaf).
      destruct Hop as [Hpa Hf]. destruct (decide (vpn v = vpn va)) as [Hv|Hv].
      * rewrite decide_True by (by apply vpn_inj). unfold shown. by rewrite leaf_entry_present, leaf_entry_address.
      * rewrite decide_False by (by rewrite vpn_inj). done.
    + apply eff_no_frame; [done|]. intros v. by rewrite (translate_entry m' G'), (translate_entry m G), E by (done || apply va_leaf).
  - destruct (unmap_ok root m G va Ht) as (m' & G' & R & T & K & N). exists m', G'. split_and!; try done.
    apply eff_unmap. intros v. rewrite (translate_entry m' G'), (translate_entry m G) by done. case_decide as Hv.
    + apply vpn_inj, pair_equal_spec in Hv as [-> ->]. unfold shown. by rewrite N.
    + destruct (K (path_of v) (page_of_va v) (va_leaf v)) as [A B].
      { intros He. apply Hv. by apply vpn_inj. }
      unfold shown. destruct (get_flag (entry m G (path_of v) (page_of_va v)) Present) eqn:Hp.
      * by rewrite A, Hp by done.
      * by rewrite B.
Qed.

(** C16. Page tables refine a translation function: over any frame source and
    from any well-formed tree of tables, every program of [map_memory] and
    [unmap_memory] calls runs without following a wrong pointer, keeps the tree
    well-formed, and changes what [get_physical_address] shows call by call as
    the calls say - at every virtual address, tables allocated, shared and freed
    on the way notwithstanding. A [map_memory] call may leave the translation as it
    is only when the frame source refuses one of the three frames it may ask for. *)
Theorem page_tables_refine ops m G :
  tree root m G -> Forall op_ok ops ->
  exists m' G', for_each ops run_op m = Done tt m' /\ tree root m' G' /\ effects ops m m'.
Proof.
  intros Ht Hops. revert m G Ht. induction Hops as [|op ops Hop _ IH]; intros m G Ht; cbn [for_each].
  - exists m, G. split_and!; [done..|]. by apply effs_nil.
  - destruct (run_op_ok op m G Ht Hop) as (m1 & G1 & R1 & T1 & E1). rewrite bind_run, R1.
    destruct (IH m1 G1 T1) as (m' & G' & R & T & E). exists m', G'. split_and!; [done..|]. by eapply effs_cons.
Qed.
End programs.

(** ** A new address space *)

(** A zeroed frame is a tree of its own. *)
Lemma fresh_tree {F} `{!FrameSource F} root (f : F) w :
  fr_ok f -> fr_out f root -> frame root -> root <> 0 -> (forall i, slot i -> w (root + 8 * i) = 0) ->
  tree root {| words := w; source := f |} {[ [] := root ]}.
Proof.
  intros Hf Ho Hr H0 Hw. split; cbn; try done.
  - intros p g [<- <-]%lookup_singleton_Some. done.
  - intros p q g [<- <-]%lookup_singleton_Some [<- _]%lookup_singleton_Some. done.
  - intros p g [<- <-]%lookup_singleton_Some. cbn. lia.
  - intros p i g [He _]%lookup_singleton_Some. by destruct p.
  - intros p g i [<- <-]%lookup_singleton_Some _ Hi. rewrite lookup_singleton_ne by done. by rewrite Hw.
Qed.

(** Memory that is all zero, the demo allocator after it gave out the top table. *)
#[local] Instance demo_source : FrameSource holders := pfa_source demo_pfa demo_pfa_ready ltac:(vm_compute; congruence).

Definition demo_machine : machine holders :=
  {| words := fun _ => 0; source := {| ho_pfa := demo_after; ho_own := [PAGE_SIZE] |} |}.

Lemma demo_tree : tree PAGE_SIZE demo_machine {[ [] := PAGE_SIZE ]}.
Proof.
  apply fresh_tree; cbn; try done.
  - apply (frame_reach demo_pfa _ demo_pfa_ready demo_request).
  - by apply list_elem_of_singleton.
Defined.

Definition demo_ops : list pt_op :=
  [Map 0x600000000000 0x9000 4 false; Map 0x600000001000 0xA000 6 true; Unmap 0x600000001000].

Lemma low_flags f k : 0 < f < 4096 -> 12 <= k -> Z.testbit f k = false.
Proof.
  intros Hf Hk. apply Z.bits_above_log2; [lia|]. apply Z.log2_lt_pow2; [lia|].
  apply Z.lt_le_trans with (2 ^ 12); [lia|]. apply Z.pow_le_mono_r; lia.
Qed.

Lemma demo_ops_ok : Forall op_ok demo_ops.
Proof.
  unfold demo_ops. repeat apply Forall_cons_2; [..|apply Forall_nil_2]; [..|done];
    (split; [by split|intros k Hk; apply low_flags; lia]).
Defined.

Lemma page_tables_refine_witness :
  exists m' G', for_each demo_ops (run_op PAGE_SIZE) demo_machine = Done tt m' /\ tree PAGE_SIZE m' G'.
Proof.
  destruct (page_tables_refine PAGE_SIZE demo_ops demo_machine _ demo_tree demo_ops_ok) as (m' & G' & R & T & _).
  exists m', G'. exact (conj R T).
Defined.

(** [unmap_memory] frees a page table that has no present entry left. A page
    that [mprotect] made inaccessible is not present and keeps its address in its
    entry only: unmapping the other pages of its table loses it, and the lookup
    that is meant to find such pages finds nothing any more. *)
Theorem unmap_loses_prot_none :
  exists s,
    (_ ← map_memory PAGE_SIZE 0x600000000000 0x9000 4 false;
     _ ← map_memory PAGE_SIZE 0x600000001000 0xA000 6 true;
     before ← get_physical_address_ignore_present PAGE_SIZE 0x600000000000;
     _ ← unmap_memory PAGE_SIZE 0x600000001000;
     after ← get_physical_address_ignore_present PAGE_SIZE 0x600000000000;
     mret (before, after)) demo_machine = Done (0x9000, 0) s.
Proof.
  match goal with |- exists s, ?c demo_machine = Done ?x s =>
    assert (match c demo_machine with Done y _ => y = x | _ => False end) as H by (vm_compute; reflexivity);
    revert H; destruct (c demo_machine) as [y s| |]; [intros ->; by exists s|done..]
  end.
Qed.
