(* ===== verification/Vm.v ===== *)
(** * kernel/memory/vm.cpp and kernel/units/vm_area_list.cpp

    The address space of a unit: the list of its areas, its program break, and
    [mmap], [munmap], [mprotect] and [brk]. The list is the linked list of the
    code: areas in order, each under its address, by which the code compares and
    follows them. What the code calls - page tables and frames, backing objects,
    the kernel heap - are operations of a class or parameters. *)

From Stdlib Require Import ZArith Lia.
From stdpp Require Import base tactics gmap numbers list.
From S2P Require Import Prelude.
From S2P Require Import PageFrame.

Definition EACCES : Z := 13.
Definition EINVAL : Z := 22.
Definition ENOMEM : Z := 12.
Definition EBADH : Z := 9.
Definition PROT_NONE : Z := 0.
Definition PROT_WRITE : Z := 2.
Definition MAP_ANONYMOUS : Z := 32.
Definition HANDLE_TYPE_DEVICE : Z := 0x7000000000000000.

Definition MMAP_BASE : Z := 0x0000600000000000.
Definition MMAP_END : Z := 0x00007FFFFF000000.
Definition USER_HEAP_MAX : Z := 0x00007FFE00000000.

(** [x & ~(PAGE_SIZE - 1)] and [(x + PAGE_SIZE - 1) & ~(PAGE_SIZE - 1)] *)
Definition page_down (x : Z) : Z := x - x mod PAGE_SIZE.
Definition page_up (x : Z) : Z := page_down (u64 (x + PAGE_SIZE - 1)).

(** [VmArea] *)
Record area := {
  a_start : Z; a_length : Z; a_prot : Z; a_flags : Z; a_file_off : Z; a_handle : Z; a_backing : Z
}.

Definition set_span start length off (v : area) : area :=
  {| a_start := start; a_length := length; a_prot := a_prot v; a_flags := a_flags v;
     a_file_off := off; a_handle := a_handle v; a_backing := a_backing v |}.
Definition set_length length (v : area) : area := set_span (a_start v) length (a_file_off v) v.
Definition set_prot prot (v : area) : area :=
  {| a_start := a_start v; a_length := a_length v; a_prot := prot; a_flags := a_flags v;
     a_file_off := a_file_off v; a_handle := a_handle v; a_backing := a_backing v |}.

Definition a_end (v : area) : Z := u64 (a_start v + a_length v).
Definition anonymous (v : area) : bool := negb (Z.land (a_flags v) MAP_ANONYMOUS =? 0).

(** ** VmAreaList *)

Definition vmas := list (Z * area).

Definition vma_add (p : Z) (v : area) (l : vmas) : vmas := (p, v) :: l.

Definition vma_find (addr len : Z) (l : vmas) : option (Z * area) :=
  List.find (fun '(_, v) => (a_start v <=? addr) && (u64 (addr + len) <=? a_end v)) l.

(** The first area with this start and length leaves the list. *)
Fixpoint vma_remove (addr len : Z) (l : vmas) : vmas :=
  match l with
  | [] => []
  | (p, v) :: l' => if (a_start v =? addr) && (a_length v =? len) then l' else (p, v) :: vma_remove addr len l'
  end.

Definition vma_free_all (l : vmas) : vmas := [].

(** [*p], and [p->next] for the pointer to an area of the list. *)
Definition vma_at (p : Z) (l : vmas) : option area := snd <$> List.find (fun '(q, _) => q =? p) l.

Fixpoint vma_next (p : Z) (l : vmas) : option (option Z) :=
  match l with
  | [] => None
  | (q, _) :: l' => if q =? p then Some (fst <$> head l') else vma_next p l'
  end.

Definition vma_head (l : vmas) : option Z := fst <$> head l.

Definition vma_set (p : Z) (v : area) (l : vmas) : vmas :=
  (fun '(q, w) => if q =? p then (q, v) else (q, w)) <$> l.

(** ** The state of a unit *)

(** Page tables and frames, as vm.cpp uses them. *)
Class Mmu (P : Type) := {
  mmu_request : P -> Z * P;
  mmu_free : Z -> P -> P;
  mmu_zero : Z -> P -> P;
  mmu_map : Z -> Z -> Z -> bool -> P -> P;
  mmu_unmap : Z -> P -> P;
  mmu_phys : Z -> P -> Z;
  mmu_phys_ignore_present : Z -> P -> Z
}.

Section vm.
Context {P : Type} `{!Mmu P}.

(** [u_refs] counts the mappings of the backing objects, [u_next] names the next
    area the kernel heap gives out. *)
Record uvm := {
  u_vmas : vmas;
  u_mmu : P;
  u_refs : Z -> Z;
  u_next : Z;
  u_is_user : bool;
  u_heap_start : Z;
  u_heap_end : Z
}.

Definition set_vmas l (u : uvm) : uvm :=
  {| u_vmas := l; u_mmu := u_mmu u; u_refs := u_refs u; u_next := u_next u; u_is_user := u_is_user u;
     u_heap_start := u_heap_start u; u_heap_end := u_heap_end u |}.
Definition set_mmu m (u : uvm) : uvm :=
  {| u_vmas := u_vmas u; u_mmu := m; u_refs := u_refs u; u_next := u_next u; u_is_user := u_is_user u;
     u_heap_start := u_heap_start u; u_heap_end := u_heap_end u |}.
Definition set_refs r (u : uvm) : uvm :=
  {| u_vmas := u_vmas u; u_mmu := u_mmu u; u_refs := r; u_next := u_next u; u_is_user := u_is_user u;
     u_heap_start := u_heap_start u; u_heap_end := u_heap_end u |}.
Definition set_next n (u : uvm) : uvm :=
  {| u_vmas := u_vmas u; u_mmu := u_mmu u; u_refs := u_refs u; u_next := n; u_is_user := u_is_user u;
     u_heap_start := u_heap_start u; u_heap_end := u_heap_end u |}.
Definition set_heap_end e (u : uvm) : uvm :=
  {| u_vmas := u_vmas u; u_mmu := u_mmu u; u_refs := u_refs u; u_next := u_next u; u_is_user := u_is_user u;
     u_heap_start := u_heap_start u; u_heap_end := e |}.

(** What the calls depend on: whether the kernel heap has an area to give, the
    object a handle stands for (its type and address), and the objects' sizes
    and pages. *)
Context (can_alloc : Z -> bool) (resolve : Z -> Z -> option (Z * Z))
        (backing_size : Z -> Z) (backing_page : Z -> Z -> P -> Z * P).

Definition on_vmas (f : vmas -> vmas) : M uvm unit := modify (fun u => set_vmas (f (u_vmas u)) u).
Definition on_mmu (f : P -> P) : M uvm unit := modify (fun u => set_mmu (f (u_mmu u)) u).
Definition ask {A} (f : P -> A * P) : M uvm A := fun u => let '(a, m) := f (u_mmu u) in Done a (set_mmu m u).

(** [malloc(sizeof(VmArea))] *)
Definition alloc_area : M uvm (option Z) := fun u =>
  Done (if can_alloc (u_next u) then Some (u_next u) else None) (set_next (u_next u + 1) u).

Definition add_mapping (obj : Z) : M uvm unit :=
  modify (fun u => set_refs (fun o => if decide (o = obj) then u_refs u o + 1 else u_refs u o) u).
Definition remove_mapping (obj : Z) : M uvm unit :=
  modify (fun u => set_refs (fun o => if decide (o = obj) then u_refs u o - 1 else u_refs u o) u).

(** [for (a = start; a < end; a += PAGE_SIZE)] *)
Definition page_addrs (start end_ : Z) : list Z :=
  (fun k => start + k * PAGE_SIZE) <$> seqZ 0 ((end_ - start + PAGE_SIZE - 1) / PAGE_SIZE).

(** ** mmap *)

(** The lowest start of an area from [current] on, [MMAP_END] without one. *)
Definition next_start (current : Z) (l : vmas) : Z :=
  foldl (fun n '(_, v) => if (current <=? a_start v) && (a_start v <? n) then a_start v else n) MMAP_END l.

Definition find_free_range (fuel : nat) (length : Z) : M uvm Z :=
  l ← gets u_vmas;
  while fuel (fun current =>
    let next := next_start current l in
    if u64 (current + length) <=? next then
      mret (inr (if u64 (current + length) <=? MMAP_END then current else 0))
    else
      let current := match List.find (fun '(_, v) => a_start v =? next) l with
                     | Some (_, v) => page_up (u64 (next + a_length v))
                     | None => current
                     end in
      if MMAP_END <=? current then mret (inr 0) else mret (inl current)) MMAP_BASE.

Definition pt_flags (prot : Z) : Z :=
  Z.lor (Z.shiftl 1 2) (if Z.land prot PROT_WRITE =? 0 then 0 else Z.shiftl 1 1).

(** The loop that maps the pages of [mmap]: whether all of them got a frame. *)
Definition map_pages (backing : option Z) (page_offset base prot npages : Z) : M uvm bool :=
  while (S (Z.to_nat npages)) (fun i =>
    if i <? npages then
      phys ← (match backing with
              | None => ask mmu_request
              | Some obj => ask (backing_page obj (u64 (page_offset + i * PAGE_SIZE)))
              end);
      if phys =? 0 then
        _ ← for_each (seqZ 0 i) (fun j => on_mmu (mmu_unmap (u64 (base + j * PAGE_SIZE))));
        mret (inr false)
      else
        _ ← on_mmu (mmu_map (u64 (base + i * PAGE_SIZE)) phys (pt_flags prot) true);
        mret (inl (i + 1))
    else mret (inr true)) 0.

(** The object behind the mapping, or the error. *)
Definition mmap_backing (flags handle offset length : Z) : (Z * option Z) + Z :=
  if negb (Z.land flags MAP_ANONYMOUS =? 0) then inl (0, None)
  else match resolve handle offset with
       | None => inr (- EBADH)
       | Some (hdl_type, obj) =>
           let aligned := page_up (backing_size obj) in
           if hdl_type =? HANDLE_TYPE_DEVICE then
             if aligned <? length then inr (- EINVAL) else inl (hdl_type, Some obj)
           else if aligned <? u64 (offset + length) then inr (- EINVAL)
           else inl (hdl_type, Some obj)
       end.

Definition mmap (fuel : nat) (addr length prot flags handle offset : Z) : M uvm Z :=
  u ← get;
  if length =? 0 then mret (- EINVAL)
  else if negb (u_is_user u) then mret (- EACCES)
  else
    let addr := page_down addr in
    let length := page_up length in
    let npages := length / PAGE_SIZE in
    base ← (if negb (addr =? 0) then mret addr else find_free_range fuel length);
    if base =? 0 then mret (- ENOMEM)
    else match mmap_backing flags handle offset length with
    | inr e => mret e
    | inl (hdl_type, backing) =>
        _ ← match backing with Some obj => add_mapping obj | None => mret tt end;
        let drop := match backing with Some obj => remove_mapping obj | None => mret tt end in
        let page_offset := if hdl_type =? HANDLE_TYPE_DEVICE then 0 else offset in
        ok ← map_pages backing page_offset base prot npages;
        if negb ok then _ ← drop; mret (- ENOMEM)
        else
          a ← alloc_area;
          match (a : option Z) with
          | None =>
              _ ← for_each (seqZ 0 npages) (fun i => on_mmu (mmu_unmap (u64 (base + i * PAGE_SIZE))));
              _ ← drop; mret (- ENOMEM)
          | Some p =>
              _ ← on_vmas (vma_add p {| a_start := base; a_length := length; a_prot := prot; a_flags := flags;
                                        a_file_off := offset; a_handle := handle; a_backing := default 0 backing |});
              mret (i64 base)
          end
    end.

(** ** munmap *)

(** The pages of one area that lie in the range. *)
Definition unmap_pages (v : area) (from to : Z) : M uvm unit :=
  for_each (page_addrs from to) (fun a =>
    phys ← gets (fun u => mmu_phys a (u_mmu u));
    if phys =? 0 then mret tt
    else
      _ ← on_mmu (mmu_unmap a);
      when (anonymous v) (on_mmu (mmu_free phys))).

Definition has_backing (v : area) : bool := negb (anonymous v) && negb (a_backing v =? 0).

(** The body of the second loop for the area [v] at [p]; [split] is the spare
    area and the address of the area to split. *)
Definition munmap_area (base end_ : Z) (split : option (Z * Z)) (p : Z) (v : area) : M uvm unit :=
  let vma_end := a_end v in
  if (end_ <=? a_start v) || (vma_end <=? base) then mret tt
  else
    _ ← unmap_pages v (Z.max (a_start v) base) (Z.min vma_end end_);
    if (base <=? a_start v) && (vma_end <=? end_) then
      _ ← when (has_backing v) (remove_mapping (a_backing v));
      on_vmas (vma_remove (a_start v) (a_length v))
    else if match split with Some (_, q) => q =? p | None => false end then
      let tail := match split with Some (t, _) => t | None => 0 end in
      _ ← when (has_backing v) (add_mapping (a_backing v));
      _ ← on_vmas (vma_add tail (set_span end_ (u64 (vma_end - end_)) (u64 (a_file_off v + u64 (end_ - a_start v))) v));
      on_vmas (vma_set p (set_length (u64 (base - a_start v)) v))
    else if base <=? a_start v then
      on_vmas (vma_set p (set_span end_ (u64 (vma_end - end_)) (u64 (a_file_off v + u64 (end_ - a_start v))) v))
    else on_vmas (vma_set p (set_length (u64 (base - a_start v)) v)).

(** A loop over the list that remembers the next area before it runs its body. *)
Definition each_area (fuel : nat) (body : Z -> area -> M uvm (option Z)) : M uvm (option Z) :=
  l ← gets u_vmas;
  while fuel (fun cur =>
    match cur with
    | None => mret (inr None)
    | Some p =>
        l ← gets u_vmas;
        match vma_at p l, vma_next p l with
        | Some v, Some next =>
            r ← body p v;
            match (r : option Z) with Some e => mret (inr (Some e)) | None => mret (inl next) end
        | _, _ => undefined
        end
    end) (vma_head l).

Definition munmap (fuel : nat) (addr length : Z) : M uvm Z :=
  u ← get;
  if negb (u_is_user u) then mret (- EACCES)
  else if length =? 0 then mret (- EINVAL)
  else
    let base := page_down addr in
    let len := page_up length in
    let end_ := u64 (base + len) in
    let to_split := List.find (fun '(_, v) => (a_start v <? base) && (end_ <? a_end v)) (u_vmas u) in
    split ← match to_split with
            | None => mret (inl None)
            | Some (q, _) =>
                t ← alloc_area;
                mret (match (t : option Z) with Some t => inl (Some (t, q)) | None => inr tt end)
            end;
    match split with
    | inr _ => mret (- ENOMEM)
    | inl split =>
        _ ← each_area fuel (fun p v => _ ← munmap_area base end_ split p v; mret None);
        mret 0
    end.

(** ** mprotect *)

(** The first pass: is every address of the range in an area? *)
Definition covered (fuel : nat) (base end_ : Z) : M uvm bool :=
  l ← gets u_vmas;
  while fuel (fun at_ =>
    if at_ <? end_ then
      match List.find (fun '(_, v) => (a_start v <=? at_) && (at_ <? a_end v)) l with
      | None => mret (inr false)
      | Some (_, v) => mret (inl (a_end v))
      end
    else mret (inr true)) base.

Definition protect_pages (prot from to : Z) : M uvm unit :=
  for_each (page_addrs from to) (fun a =>
    phys ← gets (fun u => mmu_phys_ignore_present a (u_mmu u));
    if phys =? 0 then mret tt
    else on_mmu (mmu_map a phys (pt_flags prot) (negb (prot =? PROT_NONE)))).

(** One area of the second pass; an error when an area cannot be allocated. *)
Definition mprotect_area (base end_ prot : Z) (p : Z) (v : area) : M uvm (option Z) :=
  let vma_start := a_start v in
  let vma_end := a_end v in
  if (end_ <=? vma_start) || (vma_end <=? base) then mret None
  else
    let change_start := Z.max vma_start base in
    let change_end := Z.min vma_end end_ in
    _ ← protect_pages prot change_start change_end;
    r ← (if change_end <? vma_end then
           t ← alloc_area;
           match (t : option Z) with
           | None => mret (Some (- ENOMEM))
           | Some t =>
               _ ← when (has_backing v) (add_mapping (a_backing v));
               _ ← on_vmas (vma_add t (set_span change_end (u64 (vma_end - change_end))
                                         (u64 (a_file_off v + u64 (change_end - vma_start))) v));
               mret None
           end
         else mret None);
    match (r : option Z) with
    | Some e => mret (Some e)
    | None =>
        if vma_start <? change_start then
          t ← alloc_area;
          match (t : option Z) with
          | None => mret (Some (- ENOMEM))
          | Some t =>
              _ ← when (has_backing v) (add_mapping (a_backing v));
              _ ← on_vmas (vma_add t (set_prot prot (set_span change_start (u64 (change_end - change_start))
                                        (u64 (a_file_off v + u64 (change_start - vma_start))) v)));
              _ ← on_vmas (vma_set p (set_length (u64 (change_start - vma_start)) v));
              mret None
          end
        else
          _ ← on_vmas (vma_set p (set_prot prot (set_length (u64 (change_end - vma_start)) v)));
          mret None
    end.

Definition mprotect (fuel : nat) (addr length prot : Z) : M uvm Z :=
  u ← get;
  if negb (u_is_user u) then mret (- EACCES)
  else if length =? 0 then mret (- EINVAL)
  else
    let base := page_down addr in
    let len := page_up length in
    let end_ := u64 (base + len) in
    ok ← covered fuel base end_;
    if negb ok then mret (- ENOMEM)
    else
      r ← each_area fuel (mprotect_area base end_ prot);
      mret (match (r : option Z) with Some e => e | None => 0 end).

(** ** brk *)

Definition brk_grow (addr : Z) : M uvm bool :=
  u ← get;
  let pages := page_addrs (page_up (u_heap_end u)) (page_up addr) in
  while (S (length pages)) (fun l =>
    match l with
    | [] => mret (inr true)
    | a :: l' =>
        phys ← ask mmu_request;
        if phys =? 0 then mret (inr false)
        else
          _ ← on_mmu (mmu_zero phys);
          _ ← on_mmu (mmu_map a phys 7 true);
          mret (inl l')
    end) pages.

Definition brk (addr : Z) : M uvm Z :=
  u ← get;
  if negb (u_is_user u) then mret (- EACCES)
  else if u_heap_start u =? 0 then mret (- EINVAL)
  else if addr =? 0 then mret (i64 (u_heap_end u))
  else if addr <? u_heap_start u then mret (i64 (u_heap_end u))
  else if USER_HEAP_MAX <? addr then mret (- ENOMEM)
  else if u_heap_end u <? addr then
    ok ← brk_grow addr;
    if negb ok then mret (- ENOMEM)
    else
      _ ← (match vma_find (u_heap_end u) 0 (u_vmas u) with
           | Some (p, v) => on_vmas (vma_set p (set_length (u64 (addr - a_start v)) v))
           | None =>
               t ← alloc_area;
               match (t : option Z) with
               | None => undefined
               | Some t =>
                   on_vmas (vma_add t {| a_start := u_heap_end u; a_length := addr - u_heap_end u; a_prot := 0;
                                         a_flags := 0; a_file_off := 0; a_handle := 0; a_backing := 0 |})
               end
           end);
      _ ← modify (set_heap_end addr);
      mret (i64 addr)
  else
    _ ← for_each (page_addrs (page_up addr) (page_up (u_heap_end u))) (fun a =>
          phys ← gets (fun u => mmu_phys a (u_mmu u));
          if phys =? 0 then mret tt else _ ← on_mmu (mmu_unmap a); on_mmu (mmu_free phys));
    _ ← (match vma_find addr 0 (u_vmas u) with
         | Some (p, v) =>
             let v' := set_length (u64 (addr - a_start v)) v in
             _ ← on_vmas (vma_set p v');
             when (a_length v' =? 0) (on_vmas (vma_remove (a_start v') 0))
         | None => mret tt
         end);
    _ ← modify (set_heap_end addr);
    mret (i64 addr).
End vm.

Arguments uvm P : clear implicits.
