(* ===== verification/VmFacts.v ===== *)
(** * Address spaces: the list of areas and the loops over it *)

From Stdlib Require Import ZArith Lia.
From stdpp Require Import base tactics gmap numbers list.
From S2P Require Import Prelude.
From S2P Require Import PageFrame.
From S2P Require Import Vm.

(** ** What an address space shows

    The attributes of an address: protection, flags, the offset in the object,
    its handle and the object. *)

Definition attr : Type := Z * Z * Z * Z * Z.

Definition attr_of (v : area) (a : Z) : attr :=
  (a_prot v, a_flags v, u64 (a_file_off v + (a - a_start v)), a_handle v, a_backing v).

Definition covers (v : area) (a : Z) : Prop := a_start v <= a < a_start v + a_length v.

Definition shows (l : vmas) (a : Z) (x : attr) : Prop :=
  exists p v, (p, v) ∈ l /\ covers v a /\ x = attr_of v a.

(** Areas are not empty, page-aligned, and lie in the lower half. *)
Definition area_ok (v : area) : Prop :=
  0 <= a_start v /\ 0 < a_length v /\ a_start v + a_length v <= 2 ^ 63 /\
  a_start v mod PAGE_SIZE = 0 /\ a_length v mod PAGE_SIZE = 0.

Definition disjoint (v w : area) : Prop := forall a, covers v a -> covers w a -> False.

(** No area reaches over the bottom of the region for mappings. *)
Definition mmap_base_clear (l : vmas) : Prop :=
  forall p v, (p, v) ∈ l -> a_start v < MMAP_BASE -> a_start v + a_length v <= MMAP_BASE.

Record vmas_ok (n : Z) (l : vmas) : Prop := {
  vo_nodup : NoDup l.*1;
  vo_fresh : Forall (fun p => p < n) l.*1;
  vo_area : Forall (fun e => area_ok e.2) l;
  vo_disj : forall p q v w, (p, v) ∈ l -> (q, w) ∈ l -> p <> q -> disjoint v w;
  vo_clear : mmap_base_clear l
}.

Lemma shows_nil a x : ~ shows [] a x.
Proof. intros (p & v & H & _). by apply not_elem_of_nil in H. Qed.

Lemma shows_app l1 l2 a x : shows (l1 ++ l2) a x <-> shows l1 a x \/ shows l2 a x.
Proof. unfold shows. setoid_rewrite elem_of_app. naive_solver. Qed.

Lemma shows_cons p v l a x : shows ((p, v) :: l) a x <-> (covers v a /\ x = attr_of v a) \/ shows l a x.
Proof. unfold shows. setoid_rewrite elem_of_cons. naive_solver. Qed.

(** ** Rebuilding a list *)

Lemma disjoint_sym v w : disjoint v w -> disjoint w v.
Proof. intros H a Ha Hb. by apply (H a). Qed.

Lemma elem_ptr p v (l : vmas) : (p, v) ∈ l -> p ∈ l.*1.
Proof. intros H. apply list_elem_of_fmap. by exists (p, v). Qed.

Lemma vmas_ok_perm n l l' : l ≡ₚ l' -> vmas_ok n l -> vmas_ok n l'.
Proof.
  intros Hp []. split.
  - by rewrite <- Hp.
  - by rewrite <- Hp.
  - by rewrite <- Hp.
  - intros p q v w. rewrite <- Hp. apply vo_disj0.
  - intros p v. rewrite <- Hp. apply vo_clear0.
Qed.

(** An area of the list gives way to areas inside it. *)
Lemma vmas_ok_replace n n' p v l0 l :
  vmas_ok n ((p, v) :: l0) -> n <= n' ->
  NoDup l.*1 -> (forall q, q ∈ l.*1 -> q < n' /\ (q = p \/ q ∉ ((p, v) :: l0).*1)) ->
  (forall q w, (q, w) ∈ l -> area_ok w /\ forall a, covers w a -> covers v a) ->
  (forall q r w z, (q, w) ∈ l -> (r, z) ∈ l -> q <> r -> disjoint w z) ->
  vmas_ok n' (l ++ l0).
Proof.
  intros [] Hn Hnd Hq Hin Hd. cbn in vo_nodup0, vo_fresh0. apply NoDup_cons in vo_nodup0 as [N1 N2].
  apply Forall_cons in vo_fresh0 as [F1 F2]. apply Forall_cons in vo_area0 as [A1 A2]. split.
  - rewrite fmap_app. apply NoDup_app. split_and!; [done| |done]. intros q Hq1 Hq2.
    destruct (Hq q Hq1) as [_ [->|Hnot]]; [done|]. apply Hnot. set_solver.
  - rewrite fmap_app. apply Forall_app. split; [apply Forall_forall; intros q Hq1; by apply Hq|].
    eapply Forall_impl; [exact F2|]. cbn. lia.
  - apply Forall_app. split; [|done]. apply Forall_forall. intros [q w] Hqw. by apply (Hin q w).
  - intros q r w z [Hw|Hw]%elem_of_app [Hz|Hz]%elem_of_app Hne.
    + by eapply Hd.
    + intros a Ha Hb. apply (Hin q w Hw) in Ha. eapply (vo_disj0 p r v z); [set_solver..| |done|done].
      intros ->. apply N1. by eapply elem_ptr.
    + intros a Ha Hb. apply (Hin r z Hz) in Hb. eapply (vo_disj0 p q v w); [set_solver..| |done|done].
      intros ->. apply N1. by eapply elem_ptr.
    + eapply (vo_disj0 q r); set_solver.
  - intros q w [Hw|Hw]%elem_of_app Hlt; [|apply (vo_clear0 q); set_solver]. destruct (Hin q w Hw) as [(? & ? & _) Hsub].
    pose proof (Hsub (a_start w)) as S1. pose proof (Hsub (a_start w + a_length w - 1)) as S2.
    specialize (vo_clear0 p v). unfold covers in S1, S2. assert (a_start v + a_length v <= MMAP_BASE); [|lia]. apply vo_clear0; [set_solver|lia].
Qed.

(** ** The operations of the list *)

Section at_pointer.
Context (l1 : vmas) (p : Z) (v : area) (l2 : vmas).
Hypothesis (Hnd : NoDup (l1 ++ (p, v) :: l2).*1).

Lemma ptr_not_before : p ∉ l1.*1.
Proof. rewrite fmap_app in Hnd. apply NoDup_app in Hnd as (_ & H & _). intros Hp. apply (H p Hp). cbn. set_solver. Qed.

Lemma ptr_not_after : p ∉ l2.*1.
Proof. rewrite fmap_app in Hnd. apply NoDup_app in Hnd as (_ & _ & H). cbn in H. by apply NoDup_cons in H as [? _]. Qed.

Lemma vma_at_ok : vma_at p (l1 ++ (p, v) :: l2) = Some v.
Proof.
  unfold vma_at. pose proof ptr_not_before as Hp. clear Hnd. induction l1 as [|[q w] l IH]; cbn.
  - by rewrite Z.eqb_refl.
  - destruct (Z.eqb_spec q p) as [->|]; [exfalso; apply Hp; cbn; set_solver|]. apply IH. set_solver.
Qed.

Lemma vma_next_ok : vma_next p (l1 ++ (p, v) :: l2) = Some (vma_head l2).
Proof.
  pose proof ptr_not_before as Hp. clear Hnd. induction l1 as [|[q w] l IH]; cbn.
  - by rewrite Z.eqb_refl.
  - destruct (Z.eqb_spec q p) as [->|]; [exfalso; apply Hp; cbn; set_solver|]. apply IH. set_solver.
Qed.

Lemma vma_set_ok w : vma_set p w (l1 ++ (p, v) :: l2) = l1 ++ (p, w) :: l2.
Proof.
  assert (forall l : vmas, p ∉ l.*1 -> vma_set p w l = l) as Hid.
  { unfold vma_set. induction l as [|[q z] l IH]; intros Hp; [done|]. cbn in *.
    destruct (Z.eqb_spec q p) as [->|]; [set_solver|]. f_equal. apply IH. set_solver. }
  unfold vma_set in *. rewrite fmap_app, Hid by apply ptr_not_before. cbn. rewrite Z.eqb_refl. do 2 f_equal.
  by rewrite Hid by apply ptr_not_after.
Qed.
End at_pointer.

Lemma vma_remove_ok n l1 p v l2 :
  vmas_ok n (l1 ++ (p, v) :: l2) -> vma_remove (a_start v) (a_length v) (l1 ++ (p, v) :: l2) = l1 ++ l2.
Proof.
  intros []. assert (forall q w, (q, w) ∈ l1 -> a_start w <> a_start v) as Hne.
  { intros q w Hw He. assert (q <> p) as Hqp.
    { intros ->. apply (ptr_not_before _ _ _ _ vo_nodup0). by eapply elem_ptr. }
    rewrite Forall_forall in vo_area0.
    destruct (vo_area0 (q, w)) as (_ & Hl1 & _); [set_solver|]. destruct (vo_area0 (p, v)) as (_ & Hl2 & _); [set_solver|].
    cbn in *. apply (vo_disj0 q p w v) with (a_start v); [set_solver..|done| |]; unfold covers; lia. }
  clear -Hne. induction l1 as [|[q w] l IH]; cbn.
  - by rewrite !Z.eqb_refl.
  - destruct (Z.eqb_spec (a_start w) (a_start v)); cbn; [exfalso; eapply (Hne q w); set_solver|].
    f_equal. apply IH. intros q' w' Hw'. apply (Hne q' w'). set_solver.
Qed.

Lemma ptr_below n p v l : vmas_ok n l -> (p, v) ∈ l -> p < n.
Proof. intros [] Hp%elem_ptr. rewrite Forall_forall in vo_fresh0. by apply vo_fresh0. Qed.

Lemma ptr_unique p v w (l : vmas) : NoDup l.*1 -> (p, v) ∈ l -> (p, w) ∈ l -> v = w.
Proof.
  induction l as [|[q z] l IH]; [intros _ []%not_elem_of_nil|]. cbn. intros [Hq Hnd]%NoDup_cons.
  intros [[= -> ->]|Hv]%elem_of_cons [[= ->]|Hw]%elem_of_cons; [done| | |by apply IH].
  - apply elem_ptr in Hw. done.
  - subst. apply elem_ptr in Hv. done.
Qed.

Lemma area_in n p v l : vmas_ok n l -> (p, v) ∈ l -> area_ok v.
Proof. intros [] Hp. rewrite Forall_forall in vo_area0. by apply (vo_area0 (p, v)). Qed.

Lemma vma_set_add p w t z l : t <> p -> vma_set p w (vma_add t z l) = (t, z) :: vma_set p w l.
Proof. intros Ht. unfold vma_set, vma_add. cbn. by destruct (Z.eqb_spec t p). Qed.

Lemma area_end v : area_ok v -> a_end v = a_start v + a_length v.
Proof. intros (? & ? & ? & _). unfold a_end. apply u64_id. unfold UINT64_MAX. lia. Qed.

(** ** The loop over the areas *)

Section loops.
Context {P : Type} `{!Mmu P}.
Implicit Types (u : uvm P).

(** [T] says what an area shows once the body has run on it; [J] is what the body
    needs to know of the areas still to come. *)
Lemma each_area_ok (body : Z -> area -> M (uvm P) (option Z)) (T : area -> Z -> attr -> Prop) (J : vmas -> uvm P -> Prop) :
  (forall u l1 p v rest,
     u_vmas u = l1 ++ (p, v) :: rest -> vmas_ok (u_next u) (u_vmas u) -> J ((p, v) :: rest) u ->
     exists u' l1', body p v u = Done None u' /\ u_vmas u' = l1' ++ rest /\ vmas_ok (u_next u') (u_vmas u') /\
       J rest u' /\ forall a x, shows l1' a x <-> shows l1 a x \/ T v a x) ->
  forall fuel u, vmas_ok (u_next u) (u_vmas u) -> J (u_vmas u) u -> (length (u_vmas u) < fuel)%nat ->
  exists u', each_area fuel body u = Done None u' /\ vmas_ok (u_next u') (u_vmas u') /\
    forall a x, shows (u_vmas u') a x <-> exists p v, (p, v) ∈ u_vmas u /\ T v a x.
Proof.
  intros Hbody fuel u Hok HJ Hf. unfold each_area. mstep.
  enough (forall rest f u l1, u_vmas u = l1 ++ rest -> vmas_ok (u_next u) (u_vmas u) -> J rest u -> (length rest < f)%nat ->
    exists u', while f (fun cur => match cur with
        | None => mret (inr None)
        | Some p => l ← gets u_vmas;
            match vma_at p l, vma_next p l with
            | Some v, Some next => r ← body p v; match (r : option Z) with Some e => mret (inr (Some e)) | None => mret (inl next) end
            | _, _ => undefined
            end
        end) (vma_head rest) u = Done None u' /\ vmas_ok (u_next u') (u_vmas u') /\
      forall a x, shows (u_vmas u') a x <-> shows l1 a x \/ exists p v, (p, v) ∈ rest /\ T v a x) as H.
  { destruct (H (u_vmas u) fuel u []) as (u' & R & Hok' & Hs); try done. exists u'. split_and!; [done..|].
    intros a x. rewrite Hs. split; [intros [?%shows_nil|]; done|auto]. }
  clear u Hok HJ Hf. induction rest as [|[p v] rest IH]; intros f u l1 Hu Hok HJ Hf; (destruct f as [|f]; [lia|]); rewrite while_S.
  - cbn. exists u. split_and!; [done..|]. rewrite Hu, app_nil_r. intros a x. split; [auto|].
    intros [|(q & w & Hw & _)]; [done|]. by apply not_elem_of_nil in Hw.
  - cbn [vma_head fmap option_fmap option_map head fst]. mstep. rewrite Hu in Hok |- *.
    rewrite vma_at_ok, vma_next_ok by apply Hok. rewrite <- Hu in Hok. mstep.
    destruct (Hbody u l1 p v rest Hu Hok HJ) as (u1 & l1' & R1 & Hu1 & Hok1 & HJ1 & Hs1). rewrite R1. mstep.
    destruct (IH f u1 l1' Hu1 Hok1 HJ1) as (u' & R & Hok' & Hs); [cbn in Hf; lia|]. exists u'. split_and!; [done..|].
    intros a x. rewrite Hs, Hs1. split.
    + intros [[?|?]|(q & w & ? & ?)]; [by left|right; exists p, v; set_solver|right; exists q, w; set_solver].
    + intros [?|(q & w & [[= -> ->]|?]%elem_of_cons & ?)]; [by do 2 left|by left; right|right; eauto].
Qed.

(** Calls into the page tables leave the rest of the unit alone. *)
Definition same_but_mmu u u' : Prop := exists m, u' = set_mmu m u.

Lemma same_refl u : same_but_mmu u u.
Proof. exists (u_mmu u). by destruct u. Qed.

Lemma same_trans u1 u2 u3 : same_but_mmu u1 u2 -> same_but_mmu u2 u3 -> same_but_mmu u1 u3.
Proof. intros [m1 ->] [m2 ->]. by exists m2. Qed.

Lemma for_each_same {A} (l : list A) (f : A -> M (uvm P) unit) :
  (forall a u, exists u', f a u = Done tt u' /\ same_but_mmu u u') ->
  forall u, exists u', for_each l f u = Done tt u' /\ same_but_mmu u u'.
Proof.
  intros Hf. induction l as [|a l IH]; intros u; cbn [for_each]; [exists u; split; [done|apply same_refl]|].
  destruct (Hf a u) as (u1 & R1 & S1). rewrite bind_run, R1. destruct (IH u1) as (u' & R & S).
  exists u'. split; [done|by eapply same_trans].
Qed.

Lemma unmap_pages_same v from to u : exists u', unmap_pages v from to u = Done tt u' /\ same_but_mmu u u'.
Proof.
  apply for_each_same. intros a u0. mstep. zcase; [exists u0; split; [done|apply same_refl]|].
  unfold on_mmu. mstep. destruct (anonymous v); mstep; eexists; (split; [reflexivity|]); by eexists.
Qed.

Lemma protect_pages_same prot from to u : exists u', protect_pages prot from to u = Done tt u' /\ same_but_mmu u u'.
Proof.
  apply for_each_same. intros a u0. mstep. zcase; [exists u0; split; [done|apply same_refl]|].
  unfold on_mmu. mstep. eexists; (split; [reflexivity|]); by eexists.
Qed.
End loops.

(** ** Pieces of an area *)

Lemma attr_set_length n v a : attr_of (set_length n v) a = attr_of v a.
Proof. done. Qed.

Lemma u64_sub_add off s start a : u64 (u64 (off + u64 (s - start)) + (a - s)) = u64 (off + (a - start)).
Proof.
  unfold u64, wrapu. rewrite Zplus_mod_idemp_l.
  replace (off + (s - start) mod 2 ^ 64 + (a - s)) with ((s - start) mod 2 ^ 64 + (off + (a - s))) by lia.
  rewrite Zplus_mod_idemp_l. f_equal. lia.
Qed.

(** The part of an area from [s] on. *)
Definition tail_at (s : Z) (v : area) : area :=
  set_span s (u64 (a_end v - s)) (u64 (a_file_off v + u64 (s - a_start v))) v.

Lemma attr_tail s v a : attr_of (tail_at s v) a = attr_of v a.
Proof. unfold attr_of, tail_at. cbn. by rewrite u64_sub_add. Qed.

Lemma aligned_sub x y : x mod PAGE_SIZE = 0 -> y mod PAGE_SIZE = 0 -> (x - y) mod PAGE_SIZE = 0.
Proof. unfold PAGE_SIZE. intros. rewrite Zminus_mod, H, H0. done. Qed.

Lemma aligned_add x y : x mod PAGE_SIZE = 0 -> y mod PAGE_SIZE = 0 -> (x + y) mod PAGE_SIZE = 0.
Proof. unfold PAGE_SIZE. intros. rewrite Zplus_mod, H, H0. done. Qed.

(** Both parts of an area cut at an aligned address inside it. *)
Lemma tail_ok s v :
  area_ok v -> s mod PAGE_SIZE = 0 -> a_start v <= s < a_start v + a_length v ->
  area_ok (tail_at s v) /\ forall a, covers (tail_at s v) a <-> covers v a /\ s <= a.
Proof.
  intros Hv Hs Hr. pose proof (area_end v Hv) as He. destruct Hv as (H1 & H2 & H3 & H4 & H5).
  assert (u64 (a_end v - s) = a_start v + a_length v - s) as Hlen by (rewrite He, u64_id; unfold UINT64_MAX; lia).
  split.
  - unfold area_ok, tail_at. cbn. rewrite Hlen. split_and!; try done; try lia.
    apply aligned_sub; [by apply aligned_add|done].
  - intros a. unfold covers, tail_at. cbn. rewrite Hlen. lia.
Qed.

Lemma head_ok s v :
  area_ok v -> s mod PAGE_SIZE = 0 -> a_start v < s <= a_start v + a_length v ->
  area_ok (set_length (u64 (s - a_start v)) v) /\
  forall a, covers (set_length (u64 (s - a_start v)) v) a <-> covers v a /\ a < s.
Proof.
  intros (H1 & H2 & H3 & H4 & H5) Hs Hr. rewrite u64_id by (unfold UINT64_MAX; lia). split.
  - unfold area_ok. cbn. split_and!; try done; try lia. by apply aligned_sub.
  - intros a. unfold covers. cbn. lia.
Qed.

(** ** One area of munmap *)

Section munmap.
Context {P : Type} `{!Mmu P} (base end_ : Z) (split : option (Z * Z)).
Hypothesis (Hbase : 0 <= base) (Hrange : base < end_) (Hend : end_ <= UINT64_MAX)
           (Hbm : base mod PAGE_SIZE = 0) (Hem : end_ mod PAGE_SIZE = 0).
Implicit Types (u : uvm P).

Definition inside (v : area) : Prop := a_start v < base /\ end_ < a_start v + a_length v.

(** The spare area is there exactly for the area around the range, and unused. *)
Definition spare (rest : vmas) u : Prop := forall p v, (p, v) ∈ rest ->
  (inside v -> exists t, split = Some (t, p) /\ t ∉ (u_vmas u).*1 /\ t < u_next u) /\
  (forall t, split = Some (t, p) -> inside v).

Definition left_by_munmap (v : area) (a : Z) (x : attr) : Prop :=
  covers v a /\ x = attr_of v a /\ ~ (base <= a < end_).

Lemma spare_less rest u u' p v :
  spare ((p, v) :: rest) u -> (forall q, q ∈ (u_vmas u').*1 -> q ∈ (u_vmas u).*1) -> u_next u' = u_next u -> spare rest u'.
Proof.
  intros Hs Hsub Hn q w Hq. destruct (Hs q w) as [H1 H2]; [set_solver|]. split; [|done].
  intros Hi. destruct (H1 Hi) as (t & ? & ? & ?). exists t. rewrite Hn. split_and!; [done| |done]. intros Ht. auto.
Qed.

(** The area at [p] becomes [w], a part of it. *)
Lemma replace_one u u' l1 p v w rest :
  u_vmas u = l1 ++ (p, v) :: rest -> vmas_ok (u_next u) (u_vmas u) -> u_next u' = u_next u ->
  u_vmas u' = vma_set p w (u_vmas u) -> area_ok w -> (forall a, covers w a -> covers v a) ->
  u_vmas u' = (l1 ++ [(p, w)]) ++ rest /\ vmas_ok (u_next u') (u_vmas u') /\
  (forall q, q ∈ (u_vmas u').*1 -> q ∈ (u_vmas u).*1) /\
  (forall a x, shows (l1 ++ [(p, w)]) a x <-> shows l1 a x \/ (covers w a /\ x = attr_of w a)).
Proof.
  intros Hu Hok Hn Hset Hw Hsub. rewrite Hset, Hu in *. rewrite vma_set_ok by apply Hok. rewrite <- app_assoc. cbn.
  split_and!; [done| | |].
  - rewrite Hn. eapply vmas_ok_perm; [apply Permutation_middle|]. change ((p, w) :: l1 ++ rest) with ([(p, w)] ++ l1 ++ rest).
    eapply (vmas_ok_replace _ _ p v); [eapply vmas_ok_perm; [|exact Hok]; symmetry; by apply Permutation_middle|done|apply NoDup_singleton| | |].
    + cbn. intros q ->%list_elem_of_singleton. split; [|by left].
      destruct Hok. rewrite Forall_forall in vo_fresh0. apply vo_fresh0. rewrite fmap_app. cbn. set_solver.
    + intros q z [= -> ->]%list_elem_of_singleton. done.
    + intros q r z y [= -> ->]%list_elem_of_singleton [= -> ->]%list_elem_of_singleton. done.
  - intros q. rewrite !fmap_app. cbn. set_solver.
  - intros a x. rewrite shows_app, shows_cons. split; [intros [|[|[]%shows_nil]]; auto|tauto].
Qed.

Lemma when_refs (b : bool) o u :
  (exists u', when b (remove_mapping o) u = Done tt u' /\ u_vmas u' = u_vmas u /\ u_next u' = u_next u) /\
  (exists u', when b (add_mapping o) u = Done tt u' /\ u_vmas u' = u_vmas u /\ u_next u' = u_next u).
Proof. destruct b; cbn; split; eexists; (split; [reflexivity|]); done. Qed.

(** The four ways an area can meet the range, on the state before and after. *)
Section cases.
Context (u u' : uvm P) (l1 : vmas) (p : Z) (v : area) (rest : vmas).
Hypothesis (Hu : u_vmas u = l1 ++ (p, v) :: rest) (Hok : vmas_ok (u_next u) (u_vmas u))
           (Hsp : spare ((p, v) :: rest) u) (Hv : area_ok v) (Hn : u_next u' = u_next u).

Definition leaves : Prop := exists l1', u_vmas u' = l1' ++ rest /\ vmas_ok (u_next u') (u_vmas u') /\ spare rest u' /\
  forall a x, shows l1' a x <-> shows l1 a x \/ left_by_munmap v a x.

Lemma elem_u : (p, v) ∈ u_vmas u.
Proof. rewrite Hu. set_solver. Qed.

Lemma perm_u : u_vmas u ≡ₚ (p, v) :: l1 ++ rest.
Proof. rewrite Hu. symmetry. apply Permutation_middle. Qed.

Lemma leaves_removed :
  base <= a_start v -> a_start v + a_length v <= end_ ->
  u_vmas u' = vma_remove (a_start v) (a_length v) (u_vmas u) -> leaves.
Proof.
  intros Hb Hc Hrem. pose proof Hok as Hok'. rewrite Hu in Hok'. rewrite Hu, (vma_remove_ok _ _ _ _ _ Hok') in Hrem.
  exists l1. split_and!; [done| | |].
  - rewrite Hrem, Hn. change (l1 ++ rest) with ([] ++ l1 ++ rest).
    eapply (vmas_ok_replace (u_next u) _ p v); [|done|apply NoDup_nil_2|set_solver..].
    eapply vmas_ok_perm; [apply perm_u|done].
  - eapply spare_less; [done| |done]. rewrite Hrem, Hu, !fmap_app. cbn. set_solver.
  - intros a x. split; [by left|]. intros [|(Hcv & _ & Hnot)]; [done|]. exfalso. apply Hnot. unfold covers in Hcv. lia.
Qed.

Lemma leaves_part w :
  u_vmas u' = vma_set p w (u_vmas u) -> area_ok w -> (forall a, attr_of w a = attr_of v a) ->
  (forall a, covers w a <-> covers v a /\ ~ (base <= a < end_)) -> leaves.
Proof.
  intros Hset Hw Ha Hc. edestruct (replace_one u u' l1 p v w rest) as (A & B & C & D); try done; [intros a; rewrite Hc; tauto|].
  exists (l1 ++ [(p, w)]). split_and!; [done|done|by eapply spare_less|]. intros a x. rewrite D, Ha, Hc. unfold left_by_munmap. tauto.
Qed.

Lemma leaves_split t :
  split = Some (t, p) -> t ∉ (u_vmas u).*1 -> t < u_next u -> inside v ->
  u_vmas u' = vma_set p (set_length (u64 (base - a_start v)) v) (vma_add t (tail_at end_ v) (u_vmas u)) -> leaves.
Proof.
  intros Hs Ht Htn [Hi1 Hi2] Hset.
  destruct (tail_ok end_ v Hv Hem) as [Hok1 Hc1]; [lia|]. destruct (head_ok base v Hv Hbm) as [Hok2 Hc2]; [lia|].
  assert (t <> p) as Htp. { intros ->. apply Ht. eapply elem_ptr, elem_u. }
  set (h := set_length (u64 (base - a_start v)) v) in *.
  assert (u_vmas u' = ((t, tail_at end_ v) :: l1 ++ [(p, h)]) ++ rest) as Hu'.
  { rewrite Hset, Hu. change (vma_add t (tail_at end_ v) (l1 ++ (p, v) :: rest)) with (((t, tail_at end_ v) :: l1) ++ (p, v) :: rest).
    rewrite vma_set_ok; [cbn; by rewrite <- app_assoc|]. cbn. apply NoDup_cons. rewrite <- Hu. split; [done|apply Hok]. }
  exists ((t, tail_at end_ v) :: l1 ++ [(p, h)]). split_and!; [done| | |].
  - rewrite Hu', Hn. eapply (vmas_ok_perm _ ([(t, tail_at end_ v); (p, h)] ++ l1 ++ rest)).
    { cbn. f_equiv. rewrite <- app_assoc. cbn. apply Permutation_middle. }
    eapply (vmas_ok_replace (u_next u) _ p v); [eapply vmas_ok_perm; [apply perm_u|done]|done|..].
    + cbn. apply NoDup_cons. split; [set_solver|apply NoDup_singleton].
    + cbn. intros q Hq. pose proof (elem_ptr _ _ _ elem_u) as Hpu. destruct Hok. rewrite Forall_forall in vo_fresh0.
      apply elem_of_cons in Hq as [-> | ->%list_elem_of_singleton]; [split; [done|right]|split; [auto|by left]].
      rewrite Hu, fmap_app in Ht. cbn in Ht. rewrite fmap_app. set_solver.
    + intros q w [[= -> ->]|[= -> ->]%list_elem_of_singleton]%elem_of_cons; (split; [done|]); intros a; rewrite ?Hc1, ?Hc2; tauto.
    + intros q r w z [[= -> ->]|[= -> ->]%list_elem_of_singleton]%elem_of_cons
        [[= -> ->]|[= -> ->]%list_elem_of_singleton]%elem_of_cons Hne a; rewrite ?Hc1, ?Hc2; try done; lia.
  - intros q w Hq. destruct (Hsp q w) as [H1 H2]; [set_solver|]. split; [|done].
    intros Hi. destruct (H1 Hi) as (t' & Hs' & _). rewrite Hs in Hs'. injection Hs' as <- <-. exfalso. destruct Hok. rewrite Hu in vo_nodup0.
    apply (ptr_not_after _ _ _ _ vo_nodup0). by eapply elem_ptr.
  - intros a x. rewrite shows_cons, shows_app, shows_cons, attr_tail, Hc1. unfold h at 2. rewrite attr_set_length, Hc2.
    pose proof (shows_nil a x). unfold left_by_munmap, covers. split.
    + intros [[[? ?] ?]|[?|[[[? ?] ?]|?]]]; try tauto; right; split_and!; try done; lia.
    + intros [?|(? & -> & ?)]; [tauto|]. destruct (decide (a < base)); [right; right; left|left]; split_and!; done || lia.
Qed.
End cases.

Lemma munmap_area_ok u l1 p v rest :
  u_vmas u = l1 ++ (p, v) :: rest -> vmas_ok (u_next u) (u_vmas u) -> spare ((p, v) :: rest) u ->
  exists u' l1', (_ ← munmap_area base end_ split p v; mret None) u = Done (None : option Z) u' /\
    u_vmas u' = l1' ++ rest /\ vmas_ok (u_next u') (u_vmas u') /\ spare rest u' /\
    forall a x, shows l1' a x <-> shows l1 a x \/ left_by_munmap v a x.
Proof.
  intros Hu Hok Hsp. assert (area_ok v) as Hv by (eapply (area_in _ p); [done|]; rewrite Hu; set_solver).
  pose proof (area_end v Hv) as He. pose proof Hv as (Hv1 & Hv2 & Hv3 & Hv4 & Hv5).
  destruct (Hsp p v) as [Hin Hin']; [set_solver|].
  cut (exists u', munmap_area base end_ split p v u = Done tt u' /\ leaves u' l1 v rest).
  { intros (u' & R & l1' & H). exists u', l1'. by rewrite bind_run, R. }
  unfold munmap_area. fold (tail_at end_ v). destruct (orb _ _) eqn:Hout.
  { exists u. split; [done|]. exists (l1 ++ [(p, v)]). rewrite Hu, <- app_assoc. apply orb_true_iff in Hout.
    rewrite !Z.leb_le in Hout. split_and!; try done; [by rewrite <- Hu|by eapply spare_less|].
    intros a x. rewrite shows_app, shows_cons. unfold left_by_munmap, covers. split.
    - intros [|[[? ?]|[]%shows_nil]]; [by left|right]. split_and!; try done; lia.
    - intros [|(? & ? & ?)]; auto. }
  apply orb_false_iff in Hout as [Hout1%Z.leb_gt Hout2%Z.leb_gt].
  destruct (unmap_pages_same v (Z.max (a_start v) base) (Z.min (a_end v) end_) u) as (u1 & R1 & [m1 Hu1]).
  rewrite bind_run, R1. clear R1. subst u1. set (u1 := set_mmu m1 u).
  assert (~ inside v -> match split with Some (_, q) => q =? p | None => false end = false) as Hno.
  { intros Hi. destruct split as [[t q]|] eqn:Hs; [|done]. destruct (Z.eqb_spec q p) as [->|]; [|done]. destruct Hi. by eapply Hin'. }
  destruct (Z.leb_spec base (a_start v)) as [Hb|Hb], (Z.leb_spec (a_end v) end_) as [Hc|Hc]; cbn [andb].
  - destruct (when_refs (has_backing v) (a_backing v) u1) as [(u2 & R2 & Hv2' & Hn2) _].
    rewrite bind_run, R2. eexists. split; [reflexivity|].
    apply (leaves_removed u1 _ l1 p v rest); try done; [lia|cbn; by rewrite Hv2'].
  - rewrite Hno by (unfold inside; lia). eexists. split; [reflexivity|]. destruct (tail_ok end_ v Hv Hem) as [Hok' Hc']; [lia|].
    apply (leaves_part u1 _ l1 p v rest) with (tail_at end_ v); try done; [apply attr_tail|].
    intros a. rewrite Hc'. unfold covers. lia.
  - rewrite Hno by (unfold inside; lia). eexists. split; [reflexivity|]. destruct (head_ok base v Hv Hbm) as [Hok' Hc']; [lia|].
    apply (leaves_part u1 _ l1 p v rest) with (set_length (u64 (base - a_start v)) v); try done.
    intros a. rewrite Hc'. unfold covers. lia.
  - destruct Hin as (t & Hs & Ht & Htn); [split; lia|]. rewrite Hs, Z.eqb_refl.
    destruct (when_refs (has_backing v) (a_backing v) u1) as [_ (u2 & R2 & Hv2' & Hn2)].
    rewrite bind_run, R2. eexists. split; [reflexivity|].
    apply (leaves_split u1 _ l1 p v rest) with t; try done; [split; lia|cbn; by rewrite Hv2'].
Qed.
End munmap.
