(* ===== verification/VmProtectFacts.v ===== *)
(** * Address spaces: mprotect, the coverage check and the search for a free range *)

From Stdlib Require Import ZArith Lia.
From stdpp Require Import base tactics gmap numbers list.
From S2P Require Import Prelude.
From S2P Require Import PageFrame.
From S2P Require Import Vm.
From S2P Require Import VmFacts.

(** ** An area becomes several

    The area at [p] is cut down to [w], and the new areas [ns] go to the front. *)

Lemma split_area {P} `{!Mmu P} (u u' : uvm P) l1 p v rest ns w :
  u_vmas u = l1 ++ (p, v) :: rest -> vmas_ok (u_next u) (u_vmas u) ->
  u_vmas u' = ns ++ l1 ++ (p, w) :: rest -> u_next u <= u_next u' ->
  NoDup ns.*1 -> (forall q, q ∈ ns.*1 -> u_next u <= q < u_next u') ->
  (forall q z, (q, z) ∈ (p, w) :: ns -> area_ok z /\ forall a, covers z a -> covers v a) ->
  (forall q r z y, (q, z) ∈ (p, w) :: ns -> (r, y) ∈ (p, w) :: ns -> q <> r -> disjoint z y) ->
  vmas_ok (u_next u') (u_vmas u') /\
  forall a x, shows (ns ++ l1 ++ [(p, w)]) a x <-> shows l1 a x \/ shows ((p, w) :: ns) a x.
Proof.
  intros Hu Hok Hu' Hn Hnd Hfr Hin Hd. assert (forall q, q ∈ (u_vmas u).*1 -> q < u_next u) as Hold.
  { destruct Hok. by apply Forall_forall. }
  assert (p ∈ (u_vmas u).*1) as Hp by (rewrite Hu, fmap_app; cbn; set_solver). split.
  - rewrite Hu'. eapply (vmas_ok_perm _ (((p, w) :: ns) ++ l1 ++ rest)).
    { cbn. rewrite !app_assoc. apply Permutation_middle. }
    eapply (vmas_ok_replace (u_next u) _ p v); [|done|..|done|done].
    + eapply vmas_ok_perm; [|exact Hok]. rewrite Hu. symmetry. apply Permutation_middle.
    + cbn. apply NoDup_cons. split; [|done]. intros Hq%Hfr. apply Hold in Hp. lia.
    + cbn. intros q [->|Hq]%elem_of_cons; [split; [apply Hold in Hp; lia|by left]|]. apply Hfr in Hq. split; [lia|right].
      intros Hq'. enough (q ∈ (u_vmas u).*1) as Hq2%Hold by lia. rewrite Hu, fmap_app. rewrite fmap_app in Hq'. cbn. set_solver.
  - intros a x. rewrite !shows_app, !shows_cons. pose proof (shows_nil a x). tauto.
Qed.

(** ** One area of mprotect *)

Section mprotect.
Context {P : Type} `{!Mmu P} (can_alloc : Z -> bool) (base end_ prot : Z).
Hypothesis (Halloc : forall n, can_alloc n = true).
Hypothesis (Hbase : 0 <= base) (Hrange : base < end_) (Hend : end_ <= UINT64_MAX)
           (Hbm : base mod PAGE_SIZE = 0) (Hem : end_ mod PAGE_SIZE = 0).
Implicit Types (u : uvm P).

Definition with_prot (x : attr) : attr := let '(_, f, o, h, b) := x in (prot, f, o, h, b).

Definition set_by_mprotect (v : area) (a : Z) (x : attr) : Prop :=
  covers v a /\ x = if decide (base <= a < end_) then with_prot (attr_of v a) else attr_of v a.

Definition middle (cs ce : Z) (v : area) : area :=
  set_prot prot (set_span cs (u64 (ce - cs)) (u64 (a_file_off v + u64 (cs - a_start v))) v).

Lemma attr_middle cs ce v a : attr_of (middle cs ce v) a = with_prot (attr_of v a).
Proof. unfold attr_of, middle. cbn. by rewrite u64_sub_add. Qed.

Lemma attr_set_prot v a : attr_of (set_prot prot v) a = with_prot (attr_of v a).
Proof. done. Qed.

Lemma middle_ok cs ce v :
  area_ok v -> cs mod PAGE_SIZE = 0 -> ce mod PAGE_SIZE = 0 -> a_start v <= cs < ce -> ce <= a_start v + a_length v ->
  area_ok (middle cs ce v) /\ forall a, covers (middle cs ce v) a <-> cs <= a < ce.
Proof.
  intros (H1 & H2 & H3 & H4 & H5) Hcs Hce Hr Hl.
  assert (u64 (ce - cs) = ce - cs) as Hlen by (apply u64_id; unfold UINT64_MAX; lia). split.
  - unfold area_ok. cbn. rewrite Hlen. split_and!; try done; try lia. by apply aligned_sub.
  - intros a. unfold covers. cbn. rewrite Hlen. lia.
Qed.

Lemma first_ok ce v :
  area_ok v -> ce mod PAGE_SIZE = 0 -> a_start v < ce <= a_start v + a_length v ->
  area_ok (set_prot prot (set_length (u64 (ce - a_start v)) v)) /\
  forall a, covers (set_prot prot (set_length (u64 (ce - a_start v)) v)) a <-> covers v a /\ a < ce.
Proof. intros Hv Hce Hr. by destruct (head_ok ce v Hv Hce Hr). Qed.

Lemma add_refs (b : bool) o u :
  exists r, when b (add_mapping o) u = Done tt (set_refs r u).
Proof. destruct b; [eexists; reflexivity|exists (u_refs u); by destruct u]. Qed.

Section cases.
Context (u u' : uvm P) (l1 : vmas) (p : Z) (v : area) (rest : vmas) (cs ce : Z).
Hypothesis (Hu : u_vmas u = l1 ++ (p, v) :: rest) (Hok : vmas_ok (u_next u) (u_vmas u)) (Hv : area_ok v)
           (Hcs : cs = Z.max (a_start v) base) (Hce : ce = Z.min (a_start v + a_length v) end_) (Hmeet : cs < ce).

Definition protects : Prop := exists l1', u_vmas u' = l1' ++ rest /\ vmas_ok (u_next u') (u_vmas u') /\
  forall a x, shows l1' a x <-> shows l1 a x \/ set_by_mprotect v a x.

(** What a piece of [v] has to be. *)
Definition piece (z : area) : Prop := area_ok z /\ (forall a, covers z a -> covers v a) /\
  forall a, covers z a -> attr_of z a = if decide (base <= a < end_) then with_prot (attr_of v a) else attr_of v a.

(** [ns] and [w] are the pieces of [v]. *)
Lemma protects_pieces ns w :
  u_vmas u' = ns ++ l1 ++ (p, w) :: rest -> u_next u <= u_next u' ->
  NoDup ns.*1 -> (forall q, q ∈ ns.*1 -> u_next u <= q < u_next u') ->
  Forall (fun e => piece e.2) ((p, w) :: ns) ->
  (forall q r z y, (q, z) ∈ (p, w) :: ns -> (r, y) ∈ (p, w) :: ns -> q <> r -> disjoint z y) ->
  (forall a, covers v a -> Exists (fun e => covers e.2 a) ((p, w) :: ns)) -> protects.
Proof.
  intros Hu' Hn Hnd Hfr Hin Hd Hall. rewrite Forall_forall in Hin.
  destruct (split_area u u' l1 p v rest ns w) as [Hok' Hsh]; try done.
  { intros q z Hz. by destruct (Hin (q, z) Hz) as (? & ? & _). }
  exists (ns ++ l1 ++ [(p, w)]). split_and!; [by rewrite Hu', <- !app_assoc|done|]. intros a x. rewrite Hsh.
  apply or_iff_compat_l. unfold set_by_mprotect. split.
  - intros (q & z & Hz & Hc & ->). destruct (Hin (q, z) Hz) as (_ & Hsub & Ha). split; [by apply Hsub|by apply Ha].
  - intros [Hc ->]. apply Hall in Hc. apply Exists_exists in Hc as ([q z] & Hz & Hc). exists q, z. split_and!; [done..|].
    by rewrite (proj2 (proj2 (Hin (q, z) Hz))).
Qed.

Lemma aligned_bounds : cs mod PAGE_SIZE = 0 /\ ce mod PAGE_SIZE = 0.
Proof.
  destruct Hv as (_ & _ & _ & ? & ?). split; subst cs ce.
  - by destruct (Z.max_spec (a_start v) base) as [[_ ->]|[_ ->]].
  - destruct (Z.min_spec (a_start v + a_length v) end_) as [[_ ->]|[_ ->]]; [by apply aligned_add|done].
Qed.

Lemma piece_tail : ce < a_start v + a_length v -> piece (tail_at ce v) /\ forall a, covers (tail_at ce v) a <-> covers v a /\ ce <= a.
Proof.
  intros Hlt. destruct (tail_ok ce v Hv) as [Hok' Hc]; [apply aligned_bounds|lia|]. split; [|done].
  split_and!; [done|intros a; rewrite Hc; tauto|]. intros a. rewrite Hc, attr_tail. intros [Ha ?]. unfold covers in Ha.
  rewrite decide_False by lia. done.
Qed.

Lemma piece_first :
  a_start v = cs -> let w := set_prot prot (set_length (u64 (ce - a_start v)) v) in
  piece w /\ forall a, covers w a <-> covers v a /\ a < ce.
Proof.
  intros He w. subst w. destruct (first_ok ce v Hv) as [Hok' Hc]; [apply aligned_bounds|lia|]. split; [|done].
  split_and!; [done|intros a; rewrite Hc; tauto|]. intros a. rewrite Hc. intros [Ha ?]. unfold covers in Ha.
  rewrite decide_True by lia. done.
Qed.

Lemma piece_middle : piece (middle cs ce v) /\ forall a, covers (middle cs ce v) a <-> cs <= a < ce.
Proof.
  destruct aligned_bounds. destruct (middle_ok cs ce v Hv) as [Hok' Hc]; [done..|lia|lia|]. split; [|done].
  split_and!; [done|intros a; rewrite Hc; unfold covers; lia|]. intros a. rewrite Hc, attr_middle. intros Ha.
  rewrite decide_True by lia. done.
Qed.

Lemma piece_head :
  a_start v < cs -> let w := set_length (u64 (cs - a_start v)) v in
  piece w /\ forall a, covers w a <-> covers v a /\ a < cs.
Proof.
  intros Hlt w. subst w. destruct (head_ok cs v Hv) as [Hok' Hc]; [apply aligned_bounds|lia|]. split; [|done].
  split_and!; [done|intros a; rewrite Hc; tauto|]. intros a. rewrite Hc. intros [Ha ?]. unfold covers in Ha.
  rewrite decide_False by lia. done.
Qed.

(** The side conditions of [protects_pieces] for pieces written out. *)
Ltac each_piece H := repeat (apply elem_of_cons in H as [H|H]); try (by apply not_elem_of_nil in H).

Lemma elem_v : (p, v) ∈ u_vmas u.
Proof. rewrite Hu. set_solver. Qed.

Lemma protects_whole :
  a_start v = cs -> ce = a_start v + a_length v -> u_next u <= u_next u' ->
  u_vmas u' = vma_set p (set_prot prot (set_length (u64 (ce - a_start v)) v)) (u_vmas u) -> protects.
Proof.
  intros He Hc Hn Hset. destruct (piece_first He) as [Hp Hcv]. rewrite Hu, vma_set_ok in Hset by (rewrite <- Hu; apply Hok).
  eapply (protects_pieces []); [exact Hset|done|apply NoDup_nil_2|intros q []%not_elem_of_nil| | |].
  - repeat apply Forall_cons_2; by try apply Forall_nil_2.
  - intros q r z y Hz Hy Hne. each_piece Hz; each_piece Hy. congruence.
  - intros a Ha. apply Exists_cons_hd. cbn. rewrite Hcv. split; [done|]. unfold covers in Ha. lia.
Qed.

Lemma protects_with_tail t :
  a_start v = cs -> ce < a_start v + a_length v -> u_next u <= t < u_next u' ->
  u_vmas u' = vma_set p (set_prot prot (set_length (u64 (ce - a_start v)) v)) (vma_add t (tail_at ce v) (u_vmas u)) -> protects.
Proof.
  intros He Hc Hn Hset. destruct (piece_first He) as [Hp Hcv], (piece_tail Hc) as [Hpt Hct].
  assert (t <> p) as Htp by (pose proof (ptr_below _ _ _ _ Hok elem_v); lia).
  rewrite vma_set_add, Hu, vma_set_ok in Hset by (done || rewrite <- Hu; apply Hok).
  eapply (protects_pieces [(t, tail_at ce v)]); [exact Hset|lia|apply NoDup_singleton|intros q ->%list_elem_of_singleton; cbn; lia| | |].
  - repeat apply Forall_cons_2; by try apply Forall_nil_2.
  - intros q r z y Hz Hy Hne a. each_piece Hz; each_piece Hy; simplify_eq; rewrite Hcv, Hct; lia.
  - intros a Ha. rewrite !Exists_cons. cbn. rewrite Hcv, Hct. unfold covers in Ha |- *. lia.
Qed.

Lemma protects_with_head t :
  a_start v < cs -> ce = a_start v + a_length v -> u_next u <= t < u_next u' ->
  u_vmas u' = vma_set p (set_length (u64 (cs - a_start v)) v) (vma_add t (middle cs ce v) (u_vmas u)) -> protects.
Proof.
  intros He Hc Hn Hset. destruct (piece_head He) as [Hp Hcv], piece_middle as [Hpt Hct].
  assert (t <> p) as Htp by (pose proof (ptr_below _ _ _ _ Hok elem_v); lia).
  rewrite vma_set_add, Hu, vma_set_ok in Hset by (done || rewrite <- Hu; apply Hok).
  eapply (protects_pieces [(t, middle cs ce v)]); [exact Hset|lia|apply NoDup_singleton|intros q ->%list_elem_of_singleton; cbn; lia| | |].
  - repeat apply Forall_cons_2; by try apply Forall_nil_2.
  - intros q r z y Hz Hy Hne a. each_piece Hz; each_piece Hy; simplify_eq; rewrite Hcv, Hct; lia.
  - intros a Ha. rewrite !Exists_cons. cbn. rewrite Hcv, Hct. unfold covers in Ha |- *. lia.
Qed.

Lemma protects_with_both t1 t2 :
  a_start v < cs -> ce < a_start v + a_length v -> u_next u <= t1 < t2 -> t2 < u_next u' ->
  u_vmas u' = vma_set p (set_length (u64 (cs - a_start v)) v) (vma_add t2 (middle cs ce v) (vma_add t1 (tail_at ce v) (u_vmas u))) ->
  protects.
Proof.
  intros He Hc Hn Hn' Hset. destruct (piece_head He) as [Hp Hcv], (piece_tail Hc) as [Hpt Hct], piece_middle as [Hpm Hcm].
  pose proof (ptr_below _ _ _ _ Hok elem_v) as Hlt.
  rewrite !vma_set_add, Hu, vma_set_ok in Hset by (lia || rewrite <- Hu; apply Hok).
  eapply (protects_pieces [(t2, middle cs ce v); (t1, tail_at ce v)]); [exact Hset|lia| | | | |].
  - apply NoDup_cons. split; [|apply NoDup_singleton]. intros Ht%list_elem_of_singleton. cbn in Ht. lia.
  - intros q Hq. cbn in Hq. each_piece Hq; lia.
  - repeat apply Forall_cons_2; by try apply Forall_nil_2.
  - intros q r z y Hz Hy Hne a. each_piece Hz; each_piece Hy; simplify_eq; rewrite ?Hcv, ?Hct, ?Hcm; lia.
  - intros a Ha. rewrite !Exists_cons. cbn. rewrite Hcv, Hct, Hcm. unfold covers in Ha |- *. lia.
Qed.
End cases.

Lemma alloc_ok u : alloc_area can_alloc u = Done (Some (u_next u)) (set_next (u_next u + 1) u).
Proof. unfold alloc_area. by rewrite Halloc. Qed.

Lemma mprotect_area_ok u l1 p v rest :
  u_vmas u = l1 ++ (p, v) :: rest -> vmas_ok (u_next u) (u_vmas u) ->
  exists u' l1', mprotect_area can_alloc base end_ prot p v u = Done None u' /\
    u_vmas u' = l1' ++ rest /\ vmas_ok (u_next u') (u_vmas u') /\
    forall a x, shows l1' a x <-> shows l1 a x \/ set_by_mprotect v a x.
Proof.
  intros Hu Hok. assert (area_ok v) as Hv by (eapply (area_in _ p); [done|]; rewrite Hu; set_solver).
  pose proof (area_end v Hv) as He. pose proof Hv as (Hv1 & Hv2 & Hv3 & Hv4 & Hv5).
  cut (exists u', mprotect_area can_alloc base end_ prot p v u = Done None u' /\ protects u' l1 v rest).
  { intros (u' & R & l1' & H). by exists u', l1'. }
  unfold mprotect_area. destruct (orb _ _) eqn:Hout.
  { exists u. split; [done|]. exists (l1 ++ [(p, v)]). rewrite Hu, <- app_assoc. apply orb_true_iff in Hout.
    rewrite !Z.leb_le in Hout. split_and!; try done; [by rewrite <- Hu|].
    intros a x. rewrite shows_app, shows_cons. unfold set_by_mprotect, covers. pose proof (shows_nil a x). case_decide; [|tauto].
    assert (~ (a_start v <= a < a_start v + a_length v)) by lia. tauto. }
  apply orb_false_iff in Hout as [Hout1%Z.leb_gt Hout2%Z.leb_gt]. set (cs := Z.max _ _). set (ce := Z.min _ _).
  assert (cs < ce) as Hmeet by lia. assert (ce = Z.min (a_start v + a_length v) end_) as Hce by (unfold ce; by rewrite He).
  destruct (protect_pages_same prot cs ce u) as (u1 & R1 & [m1 ->]). rewrite bind_run, R1. clear R1.
  fold (tail_at ce v) (middle cs ce v). set (u1 := set_mmu m1 u).
  destruct (Z.ltb_spec ce (a_end v)) as [Ht|Ht], (Z.ltb_spec (a_start v) cs) as [Hh|Hh]; unfold on_vmas; mstep; rewrite ?alloc_ok; mstep.
  - destruct (add_refs (has_backing v) (a_backing v) (set_next (u_next u1 + 1) u1)) as [r ->]. mstep. rewrite alloc_ok. mstep.
    edestruct add_refs as [r2 ->]. mstep. eexists. split; [reflexivity|].
    apply (protects_with_both u1 _ l1 p v rest cs ce) with (u_next u) (u_next u + 1); try done; cbn; lia.
  - destruct (add_refs (has_backing v) (a_backing v) (set_next (u_next u1 + 1) u1)) as [r ->]. mstep. eexists. split; [reflexivity|].
    apply (protects_with_tail u1 _ l1 p v rest cs ce) with (u_next u); try done; cbn; lia.
  - destruct (add_refs (has_backing v) (a_backing v) (set_next (u_next u1 + 1) u1)) as [r ->]. mstep. eexists. split; [reflexivity|].
    apply (protects_with_head u1 _ l1 p v rest cs ce) with (u_next u); try done; cbn; lia.
  - eexists. split; [reflexivity|]. apply (protects_whole u1 _ l1 p v rest cs ce); try done; cbn; lia.
Qed.
End mprotect.

(** ** The coverage check *)

Section search.
Context {P : Type} `{!Mmu P}.
Implicit Types (u : uvm P).

(** Finding an area that satisfies a test, and counting those above an address. *)
Lemma find_some (f : Z * area -> bool) (l : vmas) p v : List.find f l = Some (p, v) -> (p, v) ∈ l /\ f (p, v) = true.
Proof. intros [H1%list_elem_of_In H2]%find_some. done. Qed.

Lemma find_none (f : Z * area -> bool) (l : vmas) p v : List.find f l = None -> (p, v) ∈ l -> f (p, v) = false.
Proof. intros H Hp%list_elem_of_In. by eapply find_none in H. Qed.

Definition above (key : area -> Z) (c : Z) (l : list (Z * area)) : nat := length (filter (fun e => c <= key e.2) l).

Lemma above_le key c l : (above key c l <= length l)%nat.
Proof. apply length_filter. Qed.

Lemma above_less key c c' l p v : c <= c' -> (p, v) ∈ l -> c <= key v < c' -> (above key c' l < above key c l)%nat.
Proof.
  intros Hc Hp Hv. unfold above. induction l as [|[q w] l IH]; [by apply not_elem_of_nil in Hp|].
  rewrite !filter_cons. cbn. assert (above key c' l <= above key c l)%nat as Hle.
  { clear -Hc. unfold above. induction l as [|[q w] l IH]; [done|]. rewrite !filter_cons. cbn. repeat case_decide; cbn; lia. }
  unfold above in Hle. apply elem_of_cons in Hp as [[= <- <-]|Hp].
  - rewrite decide_False, decide_True by lia. cbn. lia.
  - specialize (IH Hp). repeat case_decide; cbn; lia.
Qed.

Definition last_of (v : area) : Z := a_end v - 1.

Lemma covered_ok fuel base end_ u :
  vmas_ok (u_next u) (u_vmas u) -> (length (u_vmas u) < fuel)%nat ->
  exists b, covered fuel base end_ u = Done b u /\
    if b then forall a, base <= a < end_ -> exists x, shows (u_vmas u) a x
    else exists a, base <= a < end_ /\ forall x, ~ shows (u_vmas u) a x.
Proof.
  intros Hok Hf. unfold covered. mstep. set (l := u_vmas u) in *.
  enough (forall n f c, base <= c -> (above last_of c l <= n)%nat -> (n < f)%nat ->
    (forall a, base <= a < Z.min c end_ -> exists x, shows l a x) ->
    exists b, while f (fun at_ => if at_ <? end_ then
        match List.find (fun '(_, v) => (a_start v <=? at_) && (at_ <? a_end v)) l with
        | None => mret (inr false) | Some (_, v) => mret (inl (a_end v)) end
      else mret (inr true)) c u = Done b u /\
      if b then forall a, base <= a < end_ -> exists x, shows l a x
      else exists a, base <= a < end_ /\ forall x, ~ shows l a x) as H.
  { apply (H (length l) fuel base); [lia|apply above_le|done|]. intros a ?. lia. }
  induction n as [n IH] using lt_wf_ind. intros f c Hc Hn Hnf Hpre. destruct f as [|f]; [lia|]. rewrite while_S.
  destruct (Z.ltb_spec c end_) as [Hlt|Hge].
  2:{ exists true. split; [done|]. intros a Ha. apply Hpre. lia. }
  destruct (List.find _ _) as [[p v]|] eqn:Hfind.
  - apply find_some in Hfind as [Hp Hv]. apply andb_true_iff in Hv as [Hv1%Z.leb_le Hv2%Z.ltb_lt].
    pose proof (above_less last_of c (a_end v) l p v) as Hless. unfold last_of at 1 2 in Hless.
    mstep. apply (IH (above last_of (a_end v) l)); try lia.
    + apply Nat.lt_le_trans with (above last_of c l); [apply Hless; [lia|done|lia]|done].
    + enough (above last_of (a_end v) l < above last_of c l)%nat by lia. apply Hless; [lia|done|lia].
    + intros a Ha. destruct (decide (a < c)) as [?|?]; [apply Hpre; lia|]. exists (attr_of v a), p, v. split_and!; [done| |done].
      unfold covers. rewrite <- (area_end v) by (eapply area_in; eauto). lia.
  - exists false. split; [done|]. exists c. split; [lia|]. intros x (p & v & Hp & Hv & _).
    eapply find_none in Hfind; [|exact Hp]. cbn in Hfind. pose proof (area_end v (area_in _ _ _ _ Hok Hp)) as He.
    unfold covers in Hv. destruct (Z.leb_spec (a_start v) c), (Z.ltb_spec c (a_end v)); cbn in Hfind; done || lia.
Qed.

(** ** The search for a free range *)

Definition free_at (l : vmas) (c n : Z) : Prop := forall p v a, (p, v) ∈ l -> c <= a < c + n -> ~ covers v a.

Lemma next_start_spec c l :
  let n := next_start c l in
  n <= MMAP_END /\ (n = MMAP_END \/ exists p v, (p, v) ∈ l /\ a_start v = n /\ c <= n) /\
  forall p v, (p, v) ∈ l -> c <= a_start v -> n <= a_start v \/ MMAP_END <= a_start v.
Proof.
  unfold next_start. set (f := fun (n : Z) '(_, v) => if (c <=? a_start v) && (a_start v <? n) then a_start v else n : Z).
  enough (forall l n0, let n := foldl f n0 l in n <= n0 /\ (n = n0 \/ exists p v, (p, v) ∈ l /\ a_start v = n /\ c <= n) /\
    forall p v, (p, v) ∈ l -> c <= a_start v -> n <= a_start v) as H.
  { destruct (H l MMAP_END) as (H1 & H2 & H3). split_and!; [done..|]. eauto. }
  clear l. induction l as [|[q w] l IH]; intros n0; cbn [foldl].
  - split_and!; [lia|by left|]. intros p v []%not_elem_of_nil.
  - destruct (IH (f n0 (q, w))) as (H1 & H2 & H3). set (m := f n0 (q, w)) in *. set (n := foldl f m l) in *.
    assert (m <= n0 /\ (m = n0 \/ m = a_start w /\ c <= m) /\ (c <= a_start w -> m <= a_start w)) as (M1 & M2 & M3).
    { unfold m, f. destruct (Z.leb_spec c (a_start w)), (Z.ltb_spec (a_start w) n0); cbn [andb]; lia. }
    split_and!; [lia| |].
    + destruct H2 as [->|(p & v & ? & ? & ?)]; [|right; exists p, v; set_solver].
      destruct M2 as [->|[M2 ?]]; [by left|right; exists q, w; set_solver].
    + intros p v [[= -> ->]|Hv]%elem_of_cons Hc; [specialize (M3 Hc); lia|by eapply H3].
Qed.
Lemma page_up_id x : 0 <= x <= 2 ^ 63 -> x mod PAGE_SIZE = 0 -> page_up x = x.
Proof.
  intros Hx Hm. unfold page_up, page_down. rewrite u64_id by (unfold UINT64_MAX, PAGE_SIZE; lia).
  unfold PAGE_SIZE in *. Z.div_mod_to_equations. lia.
Qed.

Definition gap (l : vmas) (g n : Z) : Prop := MMAP_BASE <= g /\ g + n <= MMAP_END /\ free_at l g n.

(** One round: either the range at [c] is free, or an area starts inside it and
    every gap lies behind that area. *)
Lemma search_round l k c g n :
  vmas_ok k l -> 0 < n -> gap l g n -> MMAP_BASE <= c <= g ->
  (forall p v, (p, v) ∈ l -> a_start v < c -> a_start v + a_length v <= c) ->
  let next := next_start c l in
  (c + n <= next /\ free_at l c n) \/
  (next < c + n /\ exists p v, List.find (fun '(_, w) => a_start w =? next) l = Some (p, v) /\ (p, v) ∈ l /\
     c <= a_start v /\ a_start v + a_length v <= g /\ a_start v = next /\
     forall q w, (q, w) ∈ l -> a_start w < a_start v + a_length v -> a_start w + a_length w <= a_start v + a_length v).
Proof.
  intros Hok Hn (Hg1 & Hg2 & Hg) Hc Hbelow next. destruct (next_start_spec c l) as (N1 & N2 & N3). fold next in N1, N2, N3.
  assert (forall p v, (p, v) ∈ l -> a_start v < c \/ next <= a_start v \/ MMAP_END <= a_start v) as Hn3.
  { intros p v Hp. destruct (decide (a_start v < c)) as [|Hge]; [by left|right]. apply (N3 p v); [done|lia]. }
  destruct (decide (c + n <= next)) as [Hle|Hgt]; [left|right].
  { split; [done|]. intros p v a Hp Ha Hcv. unfold covers in Hcv. pose proof (Hbelow p v Hp). destruct (Hn3 p v Hp); lia. }
  split; [lia|]. destruct N2 as [N2|(p0 & v0 & Hp0 & Hs0 & Hc0)]; [lia|].
  destruct (List.find (fun '(_, w) => a_start w =? next) l) as [[p v]|] eqn:Hf.
  2:{ eapply find_none in Hf; [|exact Hp0]. cbn in Hf. lia. }
  apply find_some in Hf as [Hp Hs%Z.eqb_eq]. exists p, v.
  pose proof (area_in _ _ _ _ Hok Hp) as (A1 & A2 & A3 & A4 & A5).
  split_and!; try done; try lia.
  - destruct (decide (a_start v + a_length v <= g)); [done|]. exfalso. apply (Hg p v (Z.max g (a_start v)) Hp); unfold covers; lia.
  - intros q w Hq Hlt. destruct (decide (q = p)) as [->|Hne].
    { destruct Hok. assert (w = v) as ->; [|lia]. by eapply ptr_unique. }
    pose proof (area_in _ _ _ _ Hok Hq) as (B1 & B2 & B3 & _). destruct (Hn3 q w Hq) as [?|?].
    + specialize (Hbelow q w Hq). lia.
    + exfalso. destruct Hok. apply (vo_disj q p w v Hq Hp Hne (a_start w)); unfold covers; lia.
Qed.
Lemma find_free_range_at fuel n g u :
  vmas_ok (u_next u) (u_vmas u) -> 0 < n -> gap (u_vmas u) g n ->
  (length (u_vmas u) < fuel)%nat ->
  exists r, find_free_range fuel n u = Done r u /\ MMAP_BASE <= r <= g /\ r mod PAGE_SIZE = 0 /\ free_at (u_vmas u) r n.
Proof.
  intros Hok Hn Hg Hf. unfold find_free_range. mstep. set (l := u_vmas u) in *. match goal with |- context [while fuel ?b] => set (body := b) end.
  enough (forall k f c, MMAP_BASE <= c <= g -> c mod PAGE_SIZE = 0 ->
    (forall p v, (p, v) ∈ l -> a_start v < c -> a_start v + a_length v <= c) ->
    (above a_start c l <= k)%nat -> (k < f)%nat ->
    exists r, while f body c u = Done r u /\ MMAP_BASE <= r <= g /\ r mod PAGE_SIZE = 0 /\ free_at l r n) as H.
  { apply (H (length l) fuel); [destruct Hg; lia|done|apply Hok|apply above_le|done]. }
  induction k as [k IH] using lt_wf_ind. intros f c Hc Hcm Hbelow Hk Hkf. destruct f as [|f]; [lia|]. rewrite while_S.
  pose proof Hg as (Hg1 & Hg2 & _). unfold body at 1.
  assert (u64 (c + n) = c + n) as -> by (apply u64_id; unfold MMAP_BASE, MMAP_END, UINT64_MAX in *; lia).
  destruct (search_round l (u_next u) c g n) as [[Hle Hfree]|(Hgt & p & v & Hfind & Hp & Hv1 & Hv2 & Hv3 & Hv4)]; try done.
  - rewrite (proj2 (Z.leb_le _ _)) by done. exists c. rewrite (proj2 (Z.leb_le _ _)) by lia. done.
  - rewrite (proj2 (Z.leb_gt _ _)) by done. rewrite Hfind, <- Hv3. cbv zeta.
    destruct (area_in _ _ _ _ Hok Hp) as (A1 & A2 & A3 & A4 & A5).
    rewrite u64_id, page_up_id by (first [unfold UINT64_MAX; lia | by apply aligned_add]).
    rewrite (proj2 (Z.leb_gt _ _)) by lia. mstep.
    assert (above a_start (a_start v + a_length v) l < above a_start c l)%nat by (eapply above_less; [lia|done|lia]).
    apply (IH (above a_start (a_start v + a_length v) l)); [lia|lia|by apply aligned_add|done|done|lia].
Qed.

(** The search takes the lowest range, whenever there is one. *)
Lemma find_free_range_ok fuel n g u :
  vmas_ok (u_next u) (u_vmas u) -> 0 < n -> gap (u_vmas u) g n ->
  (length (u_vmas u) < fuel)%nat ->
  exists r, find_free_range fuel n u = Done r u /\ gap (u_vmas u) r n /\ r mod PAGE_SIZE = 0 /\
    forall g', gap (u_vmas u) g' n -> r <= g'.
Proof.
  intros Hok Hn Hg Hf. destruct (find_free_range_at fuel n g u) as (r & R & Hr & Hm & Hfr); try done.
  exists r. split_and!; [done|split_and!; [lia|destruct Hg; lia|done]|done|].
  intros g' Hg'. destruct (find_free_range_at fuel n g' u) as (r' & R' & Hr' & _); try done.
  rewrite R in R'. injection R' as <-. lia.
Qed.
End search.

(** ** Whole calls *)

(** The range a call works on does not wrap around: neither the length, rounded up,
    nor the end of the range exceeds 64 bits. *)
Definition in_reach (addr len : Z) : Prop :=
  0 <= addr /\ 0 < len /\ len + PAGE_SIZE - 1 <= UINT64_MAX /\ page_down addr + page_up len <= UINT64_MAX.

Lemma low_in_reach addr len : 0 <= addr -> 0 < len -> addr + len <= 2 ^ 62 -> in_reach addr len.
Proof.
  intros H1 H2 H3. unfold in_reach, page_up, page_down. rewrite (u64_id (len + PAGE_SIZE - 1)) by (unfold UINT64_MAX, PAGE_SIZE; lia).
  unfold UINT64_MAX, PAGE_SIZE in *. split_and!; Z.div_mod_to_equations; lia.
Qed.

Lemma call_range addr len :
  in_reach addr len -> let base := page_down addr in let n := page_up len in
  0 <= base /\ base < u64 (base + n) /\ u64 (base + n) = base + n /\ base + n <= UINT64_MAX /\
  base mod PAGE_SIZE = 0 /\ n mod PAGE_SIZE = 0 /\ (base + n) mod PAGE_SIZE = 0 /\ len <= n < len + PAGE_SIZE.
Proof.
  intros (H1 & H2 & H3 & H4). cbv zeta. unfold page_up, page_down in *. rewrite (u64_id (len + PAGE_SIZE - 1)) in * by (unfold UINT64_MAX, PAGE_SIZE in *; lia).
  rewrite u64_id by (unfold UINT64_MAX, PAGE_SIZE in *; Z.div_mod_to_equations; lia).
  unfold UINT64_MAX, PAGE_SIZE in *. split_and!; Z.div_mod_to_equations; lia.
Qed.
