(* ===== verification/VmProps.v ===== *)
(** * Address spaces: what mmap, munmap and mprotect do *)

From Stdlib Require Import ZArith Lia.
From stdpp Require Import base tactics gmap numbers list.
From S2P Require Import Prelude.
From S2P Require Import PageFrame.
From S2P Require Import PageFrameProps.
From S2P Require Import PageTable.
From S2P Require Import PageTableProps.
From S2P Require Import Vm.
From S2P Require Import VmFacts.
From S2P Require Import VmProtectFacts.

Section calls.
Context {P : Type} `{!Mmu P} (can_alloc : Z -> bool).
Implicit Types (u : uvm P).

(** ** munmap *)

Lemma inside_unique n l base end_ p v q w :
  vmas_ok n l -> base < end_ -> (p, v) ∈ l -> (q, w) ∈ l -> inside base end_ v -> inside base end_ w -> p = q.
Proof.
  intros Hok Hr Hp Hq [] []. destruct (decide (p = q)) as [|Hne]; [done|]. destruct Hok.
  exfalso. apply (vo_disj p q v w Hp Hq Hne base); unfold covers; lia.
Qed.

(** The test of the first loop. *)
Lemma inside_test n l base end_ p v :
  vmas_ok n l -> (p, v) ∈ l -> (a_start v <? base) && (end_ <? a_end v) = true <-> inside base end_ v.
Proof.
  intros Hok Hp. rewrite (area_end v) by (by eapply area_in). unfold inside. rewrite andb_true_iff, !Z.ltb_lt. done.
Qed.

Lemma spare_none u base end_ :
  vmas_ok (u_next u) (u_vmas u) ->
  List.find (fun '(_, v) => (a_start v <? base) && (end_ <? a_end v)) (u_vmas u) = None -> spare base end_ None (u_vmas u) u.
Proof.
  intros Hok Hf p v Hp. split; [|done]. intros Hi. eapply find_none in Hf; [|exact Hp]. cbn in Hf.
  apply (inside_test _ _ base end_ p v Hok Hp) in Hi. congruence.
Qed.

Lemma spare_some u base end_ q w :
  vmas_ok (u_next u) (u_vmas u) -> base < end_ -> (q, w) ∈ u_vmas u -> inside base end_ w ->
  spare base end_ (Some (u_next u, q)) (u_vmas u) (set_next (u_next u + 1) u).
Proof.
  intros Hok Hr Hq Hi p v Hp. split.
  - intros Hi'. exists (u_next u). cbn. assert (p = q) as -> by (by eapply inside_unique). split_and!; [done| |lia].
    intros ([t z] & Ht & Hz)%list_elem_of_fmap. cbn in Ht. subst t. pose proof (ptr_below _ _ _ _ Hok Hz). lia.
  - intros t [= <- ->]. destruct Hok. assert (v = w) as -> by (by eapply ptr_unique). done.
Qed.

Lemma vmas_ok_next n n' l : vmas_ok n l -> n <= n' -> vmas_ok n' l.
Proof. intros [] Hn. split; try done. eapply Forall_impl; [done|]. cbn. lia. Qed.

(** C28. [munmap] on a well-formed list of areas always returns. It fails only when
    the range lies strictly inside one area and the kernel heap has no room for
    the second half, and then leaves every area as it was; otherwise it returns 0,
    exactly the addresses of the rounded range are gone, every other address keeps
    its protection, flags, offset, handle and object, and the areas stay
    well-formed and disjoint. This is for a range whose end does not wrap around;
    [munmap_wrap_overlaps] below is one whose end does. *)
Theorem munmap_exact fuel addr len u :
  u_is_user u = true -> vmas_ok (u_next u) (u_vmas u) -> in_reach addr len -> (length (u_vmas u) < fuel)%nat ->
  let base := page_down addr in let end_ := base + page_up len in
  exists r u', munmap can_alloc fuel addr len u = Done r u' /\ vmas_ok (u_next u') (u_vmas u') /\
    ((r = - ENOMEM /\ u_vmas u' = u_vmas u /\ can_alloc (u_next u) = false /\
      exists p v, (p, v) ∈ u_vmas u /\ a_start v < base /\ end_ < a_start v + a_length v) \/
     (r = 0 /\ forall a x, shows (u_vmas u') a x <-> shows (u_vmas u) a x /\ ~ (base <= a < end_))).
Proof.
  intros Huser Hok Hr Hf base end_. destruct (call_range addr len Hr) as (R1 & R2 & R3 & R4 & R5 & R6 & R7 & R8). unfold munmap. mstep.
  rewrite Huser. destruct Hr as (_ & Hlen & _). destruct (Z.eqb_spec len 0) as [|_]; [lia|]. cbn [negb]. rewrite R3 in *.
  fold base in R1, R2, R3, R4, R5, R7 |- *. fold end_ in R2, R4, R7 |- *.
  assert (forall split u1, u_vmas u1 = u_vmas u -> vmas_ok (u_next u1) (u_vmas u1) -> spare base end_ split (u_vmas u1) u1 ->
    exists u', each_area fuel (fun p v => _ ← munmap_area base end_ split p v; mret None) u1 = Done None u' /\
      vmas_ok (u_next u') (u_vmas u') /\
      forall a x, shows (u_vmas u') a x <-> shows (u_vmas u) a x /\ ~ (base <= a < end_)) as Hloop.
  { intros split u1 Hu1 Hok1 Hsp. edestruct (each_area_ok (fun p v => _ ← munmap_area base end_ split p v; mret None)
      (left_by_munmap base end_) (spare base end_ split)) as (u' & E & Hok' & Hs); [|exact Hok1|exact Hsp| |].
    { intros. by apply munmap_area_ok. }
    { by rewrite Hu1. }
    exists u'. split_and!; [done..|]. intros a x. rewrite Hs, Hu1. unfold left_by_munmap, shows. naive_solver. }
  destruct (List.find _ (u_vmas u)) as [[q w]|] eqn:Hfind.
  - apply find_some in Hfind as [Hq Hi]. apply (inside_test _ _ _ _ _ _ Hok Hq) in Hi. unfold alloc_area. mstep.
    destruct (can_alloc (u_next u)) eqn:Hca; mstep.
    + edestruct (Hloop (Some (u_next u, q)) (set_next (u_next u + 1) u)) as (u' & E & Hok' & Hs);
        [done|cbn; eapply vmas_ok_next; [done|lia]|by apply (spare_some u base end_ q w)|].
      rewrite E. exists 0, u'. auto.
    + exists (- ENOMEM), (set_next (u_next u + 1) u). split_and!; [done|cbn; eapply vmas_ok_next; [done|lia]|].
      left. split_and!; [done..|]. by exists q, w.
  - mstep. edestruct (Hloop None u) as (u' & E & Hok' & Hs); [done..|by apply spare_none|].
    rewrite E. exists 0, u'. auto.
Qed.
(** ** mprotect *)

(** C29. [mprotect] on a well-formed list of areas, for a range whose end does not
    wrap around and as long as the kernel heap has room, always returns. A hole in
    the rounded range makes it fail before anything has changed; otherwise it
    returns 0, every address of the range has the new protection and everything
    else it had before, every other address is as it was, and the areas stay
    well-formed and disjoint. Without room the areas may overlap afterwards:
    [mprotect_failure_overlaps] below. *)
Theorem mprotect_exact fuel addr len prot u :
  u_is_user u = true -> vmas_ok (u_next u) (u_vmas u) -> in_reach addr len -> (length (u_vmas u) < fuel)%nat ->
  (forall n, can_alloc n = true) ->
  let base := page_down addr in let end_ := base + page_up len in
  exists r u', mprotect can_alloc fuel addr len prot u = Done r u' /\ vmas_ok (u_next u') (u_vmas u') /\
    ((r = - ENOMEM /\ u' = u /\ exists a, base <= a < end_ /\ forall x, ~ shows (u_vmas u) a x) \/
     (r = 0 /\ (forall a, base <= a < end_ -> exists x, shows (u_vmas u) a x) /\
      forall a x, shows (u_vmas u') a x <->
        exists y, shows (u_vmas u) a y /\ x = if decide (base <= a < end_) then with_prot prot y else y)).
Proof.
  intros Huser Hok Hr Hf Hca base end_. destruct (call_range addr len Hr) as (R1 & R2 & R3 & R4 & R5 & R6 & R7 & R8). unfold mprotect. mstep.
  rewrite Huser. destruct Hr as (_ & Hlen & _). destruct (Z.eqb_spec len 0) as [|_]; [lia|]. cbn [negb]. rewrite R3 in *.
  fold base in R1, R2, R3, R4, R5, R7 |- *. fold end_ in R2, R4, R7 |- *. mstep.
  destruct (covered_ok fuel base end_ u Hok Hf) as (b & E & Hb). rewrite E. destruct b; cbn [negb]; mstep.
  - edestruct (each_area_ok (mprotect_area can_alloc base end_ prot) (set_by_mprotect base end_ prot) (fun _ _ => True))
      as (u' & E' & Hok' & Hs); [|exact Hok|done|exact Hf|].
    { intros. edestruct (mprotect_area_ok can_alloc base end_ prot) as (u' & l1' & ? & ? & ? & ?); try done. exists u', l1'. auto. }
    rewrite E'. exists 0, u'. split_and!; [done|done|]. right. split_and!; [done|done|].
    intros a x. rewrite Hs. unfold set_by_mprotect, shows. naive_solver.
  - exists (- ENOMEM), u. split_and!; [done..|]. by left.
Qed.

(** ** mmap *)

Context (resolve : Z -> Z -> option (Z * Z)) (backing_size : Z -> Z) (backing_page : Z -> Z -> P -> Z * P).

Lemma map_pages_same prot off base npages u :
  0 <= npages ->
  exists b u', map_pages backing_page None off base prot npages u = Done b u' /\ same_but_mmu u u' /\
    ((forall m : P, fst (mmu_request m) <> 0) -> b = true).
Proof.
  intros Hn. unfold map_pages. match goal with |- context [while _ ?b] => set (body := b) end.
  enough (forall f i u, 0 <= i <= npages -> npages - i < Z.of_nat f ->
    exists b u', while f body i u = Done b u' /\ same_but_mmu u u' /\ ((forall m : P, fst (mmu_request m) <> 0) -> b = true)) as H.
  { apply H; lia. }
  clear u. induction f as [|f IH]; intros i u Hi Hf; [lia|]. rewrite while_S. unfold body at 1.
  destruct (Z.ltb_spec i npages) as [Hlt|_].
  2:{ exists true, u. split_and!; [done|apply same_refl|done]. }
  unfold ask. mstep. destruct (mmu_request (u_mmu u)) as [phys m] eqn:Em.
  destruct (Z.eqb_spec phys 0) as [->|Hp]; mstep.
  - edestruct (for_each_same (seqZ 0 i) (fun j => on_mmu (mmu_unmap (u64 (base + j * PAGE_SIZE))))) as (u' & E & S).
    { intros j v. eexists. split; [reflexivity|by eexists]. }
    rewrite E. exists false, u'. split_and!; [done|eapply same_trans; [by eexists|exact S]|].
    intros H. exfalso. apply (H (u_mmu u)). by rewrite Em.
  - unfold on_mmu. mstep. edestruct (IH (i + 1)) as (b & u' & E & S & T); [lia..|]. rewrite E. exists b, u'. split_and!; [done| |done].
    destruct S as [m' ->]. by exists m'.
Qed.
Lemma vmas_ok_add n l p v :
  vmas_ok n l -> area_ok v -> n = p -> (forall a, a_start v <= a < a_start v + a_length v -> forall x, ~ shows l a x) ->
  MMAP_BASE <= a_start v -> vmas_ok (n + 1) (vma_add p v l).
Proof.
  intros Hok Hv -> Hfree Hb. assert (p ∉ l.*1) as Hp.
  { intros ([q w] & Hq & Hw)%list_elem_of_fmap. cbn in Hq. subst q. pose proof (ptr_below _ _ _ _ Hok Hw). lia. }
  assert (forall q w, (q, w) ∈ l -> disjoint v w) as Hd.
  { intros q w Hw a Ha Hwa. eapply (Hfree a Ha). by exists q, w. }
  destruct Hok. unfold vma_add. split; cbn.
  - by apply NoDup_cons.
  - apply Forall_cons. split; [lia|]. eapply Forall_impl; [done|]. cbn. lia.
  - by apply Forall_cons.
  - intros q r w z [[= -> ->]|Hw]%elem_of_cons [[= -> ->]|Hz]%elem_of_cons Hne; [done|by eapply Hd|by eapply disjoint_sym, Hd|by eapply vo_disj].
  - intros q w [[= -> ->]|Hw]%elem_of_cons Hlt; [lia|by eapply vo_clear].
Qed.

(** [mmap] of anonymous memory without an address, when some range of the
    region for mappings is free: the search ends, and takes the lowest free range.
    Either every page got a frame and the new area a place, and exactly the
    addresses of that range are added, with the protection and flags asked for,
    or the call fails with the areas as they were - and only when frames or
    kernel heap ran out. The areas stay well-formed and disjoint. *)
Theorem mmap_lowest_gap fuel len prot flags handle offset g u :
  u_is_user u = true -> vmas_ok (u_next u) (u_vmas u) -> in_reach 0 len -> Z.land flags MAP_ANONYMOUS <> 0 ->
  gap (u_vmas u) g (page_up len) -> (length (u_vmas u) < fuel)%nat ->
  let n := page_up len in
  exists r u', mmap can_alloc resolve backing_size backing_page fuel 0 len prot flags handle offset u = Done r u' /\
    vmas_ok (u_next u') (u_vmas u') /\
    ((r = - ENOMEM /\ u_vmas u' = u_vmas u /\ ((forall m : P, fst (mmu_request m) <> 0) -> can_alloc (u_next u) = false)) \/
     (gap (u_vmas u) r n /\ (forall g', gap (u_vmas u) g' n -> r <= g') /\ r mod PAGE_SIZE = 0 /\
      forall a x, shows (u_vmas u') a x <-> shows (u_vmas u) a x \/
        r <= a < r + n /\ x = (prot, flags, u64 (offset + (a - r)), handle, 0))).
Proof.
  intros Huser Hok Hr Hfl Hg Hf n. destruct (call_range 0 len Hr) as (_ & _ & _ & R4 & _ & R6 & _ & R8). fold n in R4, R6, R8, Hg.
  unfold mmap. mstep. rewrite Huser. destruct Hr as (_ & Hlen & _). destruct (Z.eqb_spec len 0) as [|_]; [lia|]. cbn [negb].
  fold n. change (page_down 0 =? 0) with true. cbn [negb]. mstep.
  destruct (find_free_range_ok fuel n g u) as (r & E & Hgap & Hm & Hlow); try done; [lia|]. rewrite E.
  pose proof Hgap as (G1 & G2 & Hfree). destruct (Z.eqb_spec r 0) as [->|_]; [unfold MMAP_BASE in G1; lia|].
  unfold mmap_backing. destruct (Z.eqb_spec (Z.land flags MAP_ANONYMOUS) 0) as [|_]; [done|]. cbn [negb]. mstep.
  change (0 =? HANDLE_TYPE_DEVICE) with false. cbn iota.
  destruct (map_pages_same prot offset r (n / PAGE_SIZE) u) as (b & u1 & E1 & [m1 ->] & Hb);
    [apply Z.div_pos; [lia|done]|]. rewrite E1. destruct b; cbn [negb]; mstep.
  2:{ exists (- ENOMEM), (set_mmu m1 u). split_and!; [done..|]. left. split_and!; [done..|]. intros Hreq. by specialize (Hb Hreq). }
  unfold alloc_area. mstep. change (u_next (set_mmu m1 u)) with (u_next u). destruct (can_alloc (u_next u)) eqn:Hca; mstep.
  - unfold on_vmas. mstep. rewrite i64_id by (unfold MMAP_BASE, MMAP_END, INT64_MIN, INT64_MAX in *; lia).
    eexists _, _. split; [reflexivity|].
    cbn [u_vmas set_vmas u_next set_next set_mmu default]. set (v := {| a_start := r |}). split.
    + apply vmas_ok_add; try done. 1:{ split_and!; cbn; try done; unfold MMAP_BASE, MMAP_END in *; lia. }
      intros a Ha x (p & w & Hp & Hw & _). by apply (Hfree p w a).
    + right. split_and!; try done. intros a x. unfold vma_add. rewrite shows_cons. unfold covers, attr_of, v. cbn. tauto.
  - edestruct (for_each_same (seqZ 0 (n / PAGE_SIZE)) (fun i => on_mmu (mmu_unmap (u64 (r + i * PAGE_SIZE))))) as (u' & E2 & [m2 ->]).
    { intros j w. eexists. split; [reflexivity|by eexists]. }
    rewrite E2. eexists _, _. split; [reflexivity|]. cbn. split; [eapply vmas_ok_next; [done|lia]|]. left. done.
Qed.
(** ** A search that does not end *)

(** A request longer than the region for mappings makes the kernel loop for
    ever: as long as no area lies in the region, the search finds no next area,
    leaves its position alone and tries again - [mmap] returns for no amount of
    fuel. *)
Theorem mmap_too_long_hangs fuel len prot flags handle offset u :
  u_is_user u = true -> (forall p v, (p, v) ∈ u_vmas u -> a_start v < MMAP_BASE) ->
  MMAP_END - MMAP_BASE < len <= 2 ^ 62 ->
  mmap can_alloc resolve backing_size backing_page fuel 0 len prot flags handle offset u = NoFuel.
Proof.
  intros Huser Hl Hlen. assert (in_reach 0 len) as Hr by (apply low_in_reach; unfold MMAP_END, MMAP_BASE in *; lia).
  destruct (call_range 0 len Hr) as (_ & _ & R3 & R4 & _ & _ & _ & R8). change (page_down 0) with 0 in *.
  unfold mmap. mstep. rewrite Huser. destruct (Z.eqb_spec len 0) as [->|_]; [unfold MMAP_END, MMAP_BASE in *; lia|]. cbn [negb].
  change (page_down 0 =? 0) with true. cbn [negb]. rewrite bind_run.
  assert (find_free_range fuel (page_up len) u = NoFuel) as ->; [|done].
  unfold find_free_range. mstep. match goal with |- while _ ?b _ _ = _ => set (body := b) end.
  enough (body MMAP_BASE u = Done (inl MMAP_BASE) u) as H by (induction fuel as [|f IH]; [done|by rewrite while_S, H]).
  unfold body. assert (next_start MMAP_BASE (u_vmas u) = MMAP_END) as ->.
  { destruct (next_start_spec MMAP_BASE (u_vmas u)) as (_ & [N|(p & v & Hp & Hs & Hc)] & _); [done|]. specialize (Hl p v Hp). lia. }
  rewrite u64_id by (unfold UINT64_MAX, PAGE_SIZE, MMAP_END, MMAP_BASE in *; lia). rewrite (proj2 (Z.leb_gt _ _)) by lia.
  destruct (List.find _ (u_vmas u)) as [[p v]|] eqn:Hf; [|done].
  apply find_some in Hf as [Hp Hs%Z.eqb_eq]. specialize (Hl p v Hp). unfold MMAP_END, MMAP_BASE in *. lia.
Qed.
End calls.

(** ** vm.cpp over the page tables *)

(** A call whose result is known to exist. *)
Definition run_now {S A} (d : A) (c : M S A) (s : S) : A * S :=
  match c s with Done a s' => (a, s') | _ => (d, s) end.

#[export] Instance tables_mmu {F} `{!FrameSource F} (root : Z) : Mmu (machine F) := {|
  mmu_request := run_now 0 request_page_phys;
  mmu_free a m := snd (run_now tt (free_page_phys a) m);
  mmu_zero a m := snd (run_now tt (zero_table a) m);
  mmu_map va pa flags present m := snd (run_now tt (map_memory root va pa flags present) m);
  mmu_unmap va m := snd (run_now tt (unmap_memory root va) m);
  mmu_phys va m := fst (run_now 0 (get_physical_address root va) m);
  mmu_phys_ignore_present va m := fst (run_now 0 (get_physical_address_ignore_present root va) m)
|}.

(** A unit with three pages of anonymous memory. *)
#[local] Existing Instance demo_source.
#[local] Instance demo_mmu : Mmu (machine holders) := tables_mmu PAGE_SIZE.

Definition demo_area : area :=
  {| a_start := MMAP_BASE; a_length := 3 * PAGE_SIZE; a_prot := 3; a_flags := 34; a_file_off := 0; a_handle := 0; a_backing := 0 |}.

Definition demo_unit : uvm (machine holders) :=
  {| u_vmas := [(1, demo_area)]; u_mmu := demo_machine; u_refs := fun _ => 0; u_next := 5; u_is_user := true;
     u_heap_start := 0; u_heap_end := 0 |}.

Lemma demo_vmas_ok : vmas_ok (u_next demo_unit) (u_vmas demo_unit).
Proof.
  split; cbn.
  - apply NoDup_singleton.
  - by repeat constructor.
  - apply Forall_singleton. by split_and!.
  - intros p q v w [= -> ->]%list_elem_of_singleton [= -> ->]%list_elem_of_singleton. done.
  - intros p v [= -> ->]%list_elem_of_singleton. done.
Defined.

(** [munmap] of the middle page. *)
Lemma munmap_exact_witness :
  exists r u', munmap (fun _ => true) 2 (MMAP_BASE + 4096) 4096 demo_unit = Done r u' /\ vmas_ok (u_next u') (u_vmas u').
Proof.
  destruct (munmap_exact (fun _ => true) 2 (MMAP_BASE + 4096) 4096 demo_unit eq_refl demo_vmas_ok) as (r & u' & R & Hok & _).
  - apply low_in_reach; unfold MMAP_BASE; lia.
  - cbn. lia.
  - exists r, u'. exact (conj R Hok).
Defined.

Lemma mprotect_exact_witness :
  exists r u', mprotect (fun _ => true) 2 (MMAP_BASE + 4096) 4096 1 demo_unit = Done r u' /\ vmas_ok (u_next u') (u_vmas u').
Proof.
  destruct (mprotect_exact (fun _ => true) 2 (MMAP_BASE + 4096) 4096 1 demo_unit eq_refl demo_vmas_ok) as (r & u' & R & Hok & _).
  - apply low_in_reach; unfold MMAP_BASE; lia.
  - cbn. lia.
  - done.
  - exists r, u'. exact (conj R Hok).
Defined.

Lemma demo_gap : gap (u_vmas demo_unit) (MMAP_BASE + 3 * PAGE_SIZE) (page_up 5000).
Proof.
  split_and!; try done. intros p v a [= -> ->]%list_elem_of_singleton Ha Hc. unfold covers in Hc. cbn in Hc. lia.
Defined.

Lemma mmap_lowest_gap_witness :
  exists r u', mmap (fun _ => true) (fun _ _ => None) (fun _ => 0) (fun _ _ m => (0, m)) 2 0 5000 3 34 0 0 demo_unit = Done r u' /\
    vmas_ok (u_next u') (u_vmas u').
Proof.
  destruct (mmap_lowest_gap (fun _ => true) (fun _ _ => None) (fun _ => 0) (fun _ _ m => (0, m)) 2 5000 3 34 0 0
    (MMAP_BASE + 3 * PAGE_SIZE) demo_unit eq_refl demo_vmas_ok) as (r & u' & R & Hok & _).
  - apply low_in_reach; lia.
  - done.
  - exact demo_gap.
  - cbn. lia.
  - exists r, u'. exact (conj R Hok).
Defined.

Lemma mmap_too_long_hangs_witness :
  mmap (fun _ => true) (fun _ _ => None) (fun _ => 0) (fun _ _ m => (0, m)) 100 0 (2 ^ 46) 3 34 0 0 (set_vmas [] demo_unit) = NoFuel.
Proof.
  apply mmap_too_long_hangs.
  - reflexivity.
  - intros p v []%not_elem_of_nil.
  - vm_compute. split; congruence.
Defined.

(** When the kernel heap runs out between the two areas [mprotect] needs to
    cut a piece out of the middle of an area, the call fails after it has added
    the tail and before it has shortened the area: the unit is left with two
    areas that both cover the tail. *)
Theorem mprotect_failure_overlaps :
  exists u' v w, mprotect (fun n => n =? 5) 2 (MMAP_BASE + 4096) 4096 1 demo_unit = Done (- ENOMEM) u' /\
    u_vmas u' = [(5, v); (1, w)] /\ covers v (MMAP_BASE + 8192) /\ covers w (MMAP_BASE + 8192).
Proof.
  match goal with |- context [?c demo_unit = Done ?x _] =>
    assert (match c demo_unit with Done y u' => y = x /\ u_vmas u' = [(5, tail_at (MMAP_BASE + 8192) demo_area); (1, demo_area)] | _ => False end)
      as H by (vm_compute; split; reflexivity);
    revert H; destruct (c demo_unit) as [y s| |]; [intros [-> Hv]|done..]
  end.
  eexists _, _, _. split_and!; [done|exact Hv|done..].
Qed.

(** The end of the range is computed without a look at overflow. A length close to
    2^64 makes it wrap around below the start: [munmap] then takes the area that
    holds the start for one to be split, reports success, and leaves two areas
    that both cover the addresses from the wrapped end to the start. *)
Theorem munmap_wrap_overlaps :
  exists u' v w, munmap (fun _ => true) 3 (MMAP_BASE + 8192) (2 ^ 64 - 4096) demo_unit = Done 0 u' /\
    u_vmas u' = [(5, v); (1, w)] /\ covers v (MMAP_BASE + 4096) /\ covers w (MMAP_BASE + 4096).
Proof.
  match goal with |- context [?c demo_unit = Done ?x _] =>
    let r := eval vm_compute in (match c demo_unit with Done _ u' => u_vmas u' | _ => [] end) in
    assert (match c demo_unit with Done y u' => y = x /\ u_vmas u' = r | _ => False end)
      as H by (vm_compute; split; reflexivity);
    revert H; destruct (c demo_unit) as [y s| |]; [intros [-> Hv]|done..]
  end.
  eexists _, _, _. split_and!; [done|exact Hv|done..].
Qed.
