(* ===== verification/KSort.v ===== *)
(** * include/klib/sort.h: the kernel's introsort

    The array is the state; an iterator is an index into it. Reading or writing
    outside the array is undefined behaviour. *)

From Stdlib Require Import ZArith Lia.
From stdpp Require Import base tactics numbers list.
From S2P Require Import Prelude.
From S2P Require Import Memory.

Section ksort.
Context {A : Type} (comp : A -> A -> bool).

(** [*it] and [*it = x] *)
Definition load (i : Z) : M (list A) A := fun l =>
  if 0 <=? i then match l !! Z.to_nat i with Some x => Done x l | None => Undef end else Undef.
Definition store (i : Z) (x : A) : M (list A) unit := fun l =>
  if (0 <=? i) && (i <? zlen l) then Done tt (<[Z.to_nat i := x]> l) else Undef.

Definition swap (i j : Z) : M (list A) unit :=
  tmp ← load i; x ← load j; _ ← store i x; store j tmp.

Definition INSERTION_SORT_THRESHOLD : Z := 16.

(** [while (n >>= 1) ++log;] on a 64-bit number. *)
Fixpoint log2_loop (fuel : nat) (n log : Z) : Z :=
  match fuel with
  | O => log
  | S fuel' => let n := Z.shiftr n 1 in if n =? 0 then log else log2_loop fuel' n (log + 1)
  end.
Definition log2_floor (n : Z) : Z := log2_loop 64 n 0.

(** The place for [val] among the elements before [i], which move up. *)
Definition shift_back (first : Z) (val : A) (i : Z) : M (list A) Z :=
  while (S (Z.to_nat (i - first))) (fun j =>
    if j =? first then mret (inr j)
    else
      x ← load (j - 1);
      if comp val x then _ ← store j x; mret (inl (j - 1)) else mret (inr j)) i.

Definition insertion_sort (first last : Z) : M (list A) unit :=
  if first =? last then mret tt
  else for_each (seqZ (first + 1) (last - (first + 1))) (fun i =>
    val ← load i; j ← shift_back first val i; store j val).

Definition median_of_three (a b c : Z) : M (list A) Z :=
  va ← load a; vb ← load b; vc ← load c;
  mret (if comp va vb then
          if comp vb vc then b else if comp va vc then c else a
        else if comp va vc then a else if comp vb vc then c else b).

(** [do ++i; while (comp( *i, pivot))] and [do --j; while (comp(pivot, *j))] *)
Definition scan_up (fuel : nat) (pivot : A) (i : Z) : M (list A) Z :=
  while fuel (fun i => x ← load (i + 1); mret (if comp x pivot then inl (i + 1) else inr (i + 1))) i.
Definition scan_down (fuel : nat) (pivot : A) (j : Z) : M (list A) Z :=
  while fuel (fun j => x ← load (j - 1); mret (if comp pivot x then inl (j - 1) else inr (j - 1))) j.

Definition partition (first last : Z) : M (list A) Z :=
  let fuel := Z.to_nat (last - first + 2) in
  let mid := first + (last - first) / 2 in
  pivot_it ← median_of_three first mid (last - 1);
  pivot ← load pivot_it;
  _ ← swap pivot_it (last - 1);
  while fuel (fun '(i, j) =>
    i ← scan_up fuel pivot i;
    j ← scan_down fuel pivot j;
    if j <=? i then mret (inr (j + 1))
    else _ ← swap i j; mret (inl (i, j))) (first - 1, last).

(** The hole at [parent] moves down a heap of [n] elements until [val] fits. *)
Definition sift (first n parent : Z) : M (list A) unit :=
  val ← load (first + parent);
  parent ← while (S (Z.to_nat n)) (fun parent =>
    let child := 2 * parent + 1 in
    if n <=? child then mret (inr parent)
    else
      child ← (if child + 1 <? n then
                 x ← load (first + child); y ← load (first + (child + 1));
                 mret (if comp x y then child + 1 else child)
               else mret child);
      x ← load (first + child);
      if negb (comp val x) then mret (inr parent)
      else _ ← store (first + parent) x; mret (inl child)) parent;
  store (first + parent) val.

Definition heapsort (first last : Z) : M (list A) unit :=
  let n := last - first in
  _ ← for_each (reverse (seqZ 0 (n / 2))) (fun i => sift first n i);
  for_each (reverse (seqZ 1 (n - 1))) (fun i =>
    _ ← swap (first + 0) (first + i); sift first i 0).

(** The loop continues with the larger part: one recursion for each of the two,
    both with the smaller depth. *)
Fixpoint introsort_impl (depth_limit : nat) (first last : Z) : M (list A) unit :=
  if INSERTION_SORT_THRESHOLD <? u64 (last - first) then
    match depth_limit with
    | O => heapsort first last
    | S depth_limit =>
        cut ← partition first last;
        if cut - first <? last - cut then
          _ ← introsort_impl depth_limit first cut; introsort_impl depth_limit cut last
        else
          _ ← introsort_impl depth_limit cut last; introsort_impl depth_limit first cut
    end
  else mret tt.

Definition sort (first last : Z) : M (list A) unit :=
  if first =? last then mret tt
  else
    let n := u64 (last - first) in
    _ ← introsort_impl (Z.to_nat (2 * log2_floor n)) first last;
    insertion_sort first last.
End ksort.

(** [klib::sort(chain, chain + count)] on numbers, with [a < b]. *)
Definition sort_lt (first last : Z) : M (list Z) unit := sort Z.ltb first last.
