(* ===== verification/KSortFacts.v ===== *)
(** * The kernel's introsort: safety, permutation and order

    No pass reads outside the range, every pass only rearranges it, and the
    insertion sort at the end puts it in order whatever the passes before did. *)

From Stdlib Require Import ZArith Lia.
From stdpp Require Import base tactics numbers list sets sorting.
From S2P Require Import Prelude.
From S2P Require Import Memory.
From S2P Require Import KSort.

(** What the comparison has to be: a strict weak order. *)
Record strict_weak {A} (comp : A -> A -> bool) : Prop := {
  sw_asym x y : comp x y = true -> comp y x = false;
  sw_trans x y z : comp y x = false -> comp z y = false -> comp z x = false
}.

Section ksort_facts.
Context {A : Type} (comp : A -> A -> bool).
Implicit Types (l : list A).

(** ** Rearrangements *)

(** [l'] is [l] with the elements of the range in another order. *)
Definition shuffled (first last : Z) l l' : Prop :=
  l' ≡ₚ l /\ forall i, ~ (first <= Z.of_nat i < last) -> l' !! i = l !! i.

#[local] Instance shuffled_preorder first last : PreOrder (shuffled first last).
Proof.
  split; [done|]. intros l1 l2 l3 [P1 E1] [P2 E2]. split; [by rewrite P2|]. intros i Hi. rewrite E2, E1; done.
Qed.

Lemma shuffled_weaken first last first' last' l l' :
  first' <= first -> last <= last' -> shuffled first last l l' -> shuffled first' last' l l'.
Proof. intros H1 H2 [P E]. split; [done|]. intros i Hi. apply E. lia. Qed.

Lemma shuffled_len first last l l' : shuffled first last l l' -> length l' = length l.
Proof. intros [P _]. by apply Permutation_length. Qed.

Lemma lookup_in l (i : Z) : 0 <= i < zlen l -> exists x, l !! Z.to_nat i = Some x.
Proof. intros Hi. apply lookup_lt_is_Some_2. lia. Qed.

Lemma karr_load_run l i x : 0 <= i -> l !! Z.to_nat i = Some x -> load i l = Done x l.
Proof. intros H0 Hx. unfold load. rewrite (proj2 (Z.leb_le _ _)) by done. by rewrite Hx. Qed.

Lemma karr_store_run l i x : 0 <= i < zlen l -> store i x l = Done tt (<[Z.to_nat i := x]> l).
Proof. intros Hi. unfold store. rewrite (proj2 (Z.leb_le _ _)), (proj2 (Z.ltb_lt _ _)) by lia. done. Qed.

(** Exchanging what is at two places; moving a hole from one to another. *)
Lemma hole_moves l i j (val x : A) :
  i <> j -> l !! i = Some x -> (j < length l)%nat -> <[i := val]> (<[j := x]> l) ≡ₚ <[j := val]> l.
Proof.
  intros Hne Hi Hj. rewrite <- (Permutation_insert_swap (<[j := val]> l) i j x val);
    [|by rewrite list_lookup_insert_ne|by apply list_lookup_insert_eq].
  by rewrite (list_insert_insert_ne _ j i) , list_insert_insert_eq by done.
Qed.

Lemma swap_ok first last l i j :
  0 <= first -> last <= zlen l -> first <= i < last -> first <= j < last ->
  exists x y, l !! Z.to_nat i = Some x /\ l !! Z.to_nat j = Some y /\
    let l' := <[Z.to_nat j := x]> (<[Z.to_nat i := y]> l) in swap i j l = Done tt l' /\ shuffled first last l l'.
Proof.
  intros H0 Hl Hi Hj. destruct (lookup_in l i) as [x Hx]; [lia|]. destruct (lookup_in l j) as [y Hy]; [lia|].
  exists x, y. split; [done|]. split; [done|]. cbv zeta. split; [|split].
  - unfold swap. rewrite bind_run, (karr_load_run l i x), bind_run, (karr_load_run l j y), bind_run, karr_store_run by (done || lia).
    apply karr_store_run. rewrite length_insert. lia.
  - by apply Permutation_insert_swap.
  - intros k Hk. rewrite !list_lookup_insert_ne by lia. done.
Qed.

(** A pass that leaves a value out and puts it back. *)
Lemma hole_filled first last l l' i val :
  <[Z.to_nat i := val]> l' ≡ₚ l -> (forall k, ~ (first <= Z.of_nat k < last) -> l' !! k = l !! k) -> 0 <= i -> first <= i < last ->
  shuffled first last l (<[Z.to_nat i := val]> l').
Proof. intros HP HE H0 Hi. split; [done|]. intros k Hk. rewrite list_lookup_insert_ne by lia. by apply HE. Qed.

(** ** The partition *)

Lemma scan_up_ok fuel pivot l i k x :
  -1 <= i < k -> l !! Z.to_nat k = Some x -> comp x pivot = false -> k - i < Z.of_nat fuel ->
  exists i' y, scan_up comp fuel pivot i l = Done i' l /\ i < i' <= k /\ l !! Z.to_nat i' = Some y /\ comp y pivot = false.
Proof.
  intros Hi Hk Hx Hf. revert i Hi Hf. unfold scan_up. induction fuel as [|fuel IH]; intros i Hi Hf; [lia|].
  assert (k < zlen l) by (apply lookup_lt_Some in Hk; lia). destruct (lookup_in l (i + 1)) as [y Hy]; [lia|].
  rewrite while_S, bind_run, (karr_load_run _ _ y) by (done || lia). mstep. destruct (comp y pivot) eqn:Hc.
  - assert (i + 1 <> k) by (intros <-; congruence). destruct (IH (i + 1)) as (i' & z & E & ? & ?); [lia..|].
    exists i', z. split; [exact E|]. split; [lia|done].
  - exists (i + 1), y. split_and!; try done; lia.
Qed.

Lemma scan_down_ok fuel pivot l j k x :
  0 <= k < j -> j <= zlen l -> l !! Z.to_nat k = Some x -> comp pivot x = false -> j - k < Z.of_nat fuel ->
  exists j' y, scan_down comp fuel pivot j l = Done j' l /\ k <= j' < j /\ l !! Z.to_nat j' = Some y /\ comp pivot y = false.
Proof.
  intros Hj Hl Hk Hx Hf. revert j Hj Hl Hf. unfold scan_down. induction fuel as [|fuel IH]; intros j Hj Hl Hf; [lia|].
  destruct (lookup_in l (j - 1)) as [y Hy]; [lia|].
  rewrite while_S, bind_run, (karr_load_run _ _ y) by (done || lia). mstep. destruct (comp pivot y) eqn:Hc.
  - assert (j - 1 <> k) by (intros <-; congruence). destruct (IH (j - 1)) as (j' & z & E & ? & ?); [lia..|].
    exists j', z. split; [exact E|]. split; [lia|done].
  - exists (j - 1), y. split_and!; try done; lia.
Qed.

Hypothesis (Hsw : strict_weak comp).

Lemma comp_irrefl x : comp x x = false.
Proof. destruct (comp x x) eqn:E; [|done]. by rewrite (sw_asym _ Hsw _ _ E) in E. Qed.

(** An element that stops the scan up from [i], and one that stops the scan
    down from [j]. *)
Definition guarded (first last : Z) (pivot : A) (i j : Z) l : Prop :=
  (exists k x, i < k < last /\ l !! Z.to_nat k = Some x /\ comp x pivot = false) /\
  (exists k x, first <= k < j /\ l !! Z.to_nat k = Some x /\ comp pivot x = false).

Lemma kpartition_ok first last l :
  0 <= first -> first + 1 < last -> last <= zlen l ->
  exists cut l', partition comp first last l = Done cut l' /\ shuffled first last l l' /\ first <= cut <= last.
Proof.
  intros H0 Hn Hl. unfold partition. set (fuel := Z.to_nat (last - first + 2)).
  assert (first <= first + (last - first) / 2 < last) as Hmid by (Z.div_mod_to_equations; lia). set (mid := first + (last - first) / 2) in *.
  assert (exists pit, median_of_three comp first mid (last - 1) l = Done pit l /\ first <= pit < last) as (pit & Em & Hpit).
  { unfold median_of_three. destruct (lookup_in l first) as [x Hx], (lookup_in l mid) as [y Hy], (lookup_in l (last - 1)) as [z Hz]; [lia..|].
    rewrite bind_run, (karr_load_run _ _ x), bind_run, (karr_load_run _ _ y), bind_run, (karr_load_run _ _ z) by (done || lia). mstep.
    eexists. split; [reflexivity|]. repeat case_match; lia. }
  rewrite bind_run, Em, bind_run. destruct (swap_ok first last l pit (last - 1)) as (pivot & y & Hp & Hy & Es & Hs); [lia..|].
  set (l1 := insert _ _ _) in *. rewrite (karr_load_run _ _ pivot), bind_run, Es by (done || lia).
  assert (guarded first last pivot (first - 1) last l1) as Hg.
  { assert (l1 !! Z.to_nat (last - 1) = Some pivot) as Hl1 by (apply list_lookup_insert_eq; rewrite length_insert; lia).
    split; exists (last - 1), pivot; split_and!; (done || apply comp_irrefl || lia). }
  match goal with |- context [while _ ?bd] => set (body := bd) end.
  enough (forall f i j l1, shuffled first last l l1 -> guarded first last pivot i j l1 -> first - 1 <= i -> j <= last -> i < j -> j - i < Z.of_nat f ->
    exists cut l', while f body (i, j) l1 = Done cut l' /\ shuffled first last l l' /\ first <= cut <= last) as Hw by (apply Hw; (done || lia)).
  clear l1 Es Hs Hg. induction f as [|f IH]; intros i j l1 Hs [(k & x & Hk & Hlk & Hx) (k' & x' & Hk' & Hlk' & Hx')] Hi Hj Hij Hf; [lia|].
  pose proof (shuffled_len _ _ _ _ Hs) as Hlen. rewrite while_S. unfold body at 1.
  destruct (scan_up_ok fuel pivot l1 i k x) as (i' & y1 & E1 & Hi' & Hy1 & Hc1); try done; [lia..|].
  rewrite bind_run, E1. destruct (scan_down_ok fuel pivot l1 j k' x') as (j' & y2 & E2 & Hj' & Hy2 & Hc2); try done; [lia..|].
  rewrite bind_run, E2. destruct (Z.leb_spec j' i') as [Hle|Hlt]; [exists (j' + 1), l1; split_and!; (done || lia)|].
  destruct (swap_ok first last l1 i' j') as (z1 & z2 & Hz1 & Hz2 & E3 & Hs3); [lia..|]. simplify_eq.
  rewrite bind_run, E3. apply IH; [by etransitivity| |lia..]. split.
  - exists j', y1. split; [lia|]. split; [|done]. apply list_lookup_insert_eq. rewrite length_insert. lia.
  - exists i', y2. split; [lia|]. split; [|done]. rewrite list_lookup_insert_ne by lia. apply list_lookup_insert_eq. lia.
Qed.

(** ** The heap *)

Lemma sift_ok first n parent l :
  0 <= first -> 0 <= parent < n -> first + n <= zlen l ->
  exists l', sift comp first n parent l = Done tt l' /\ shuffled first (first + n) l l'.
Proof.
  intros H0 Hp Hl. unfold sift. destruct (lookup_in l (first + parent)) as [val Hval]; [lia|].
  rewrite bind_run, (karr_load_run _ _ val) by (done || lia). rewrite bind_run. match goal with |- context [while _ ?bd] => set (body := bd) end.
  enough (forall f parent l1, 0 <= parent < n -> n - parent < Z.of_nat f -> <[Z.to_nat (first + parent) := val]> l1 ≡ₚ l ->
    (forall k, ~ (first <= Z.of_nat k < first + n) -> l1 !! k = l !! k) ->
    exists parent' l2, while f body parent l1 = Done parent' l2 /\ 0 <= parent' < n /\
      <[Z.to_nat (first + parent') := val]> l2 ≡ₚ l /\ (forall k, ~ (first <= Z.of_nat k < first + n) -> l2 !! k = l !! k)) as Hw.
  { destruct (Hw (S (Z.to_nat n)) parent l) as (parent' & l2 & -> & Hp' & HP & HE); [lia|lia|by rewrite list_insert_id|done|].
    assert (length l2 = length l) as Hlen by (rewrite <- HP; by rewrite length_insert).
    eexists. split; [apply karr_store_run; lia|]. apply hole_filled; (done || lia). }
  clear parent Hp Hval. induction f as [|f IH]; intros parent l1 Hp Hf HP HE; [lia|]. rewrite while_S. unfold body at 1.
  assert (length l1 = length l) as Hlen by (rewrite <- HP; by rewrite length_insert).
  destruct (Z.leb_spec n (2 * parent + 1)) as [Hch|Hch]; [by exists parent, l1|].
  set (pick := if 2 * parent + 1 + 1 <? n then _ else mret _). assert (exists child, pick l1 = Done child l1 /\ parent < child < n) as (child & E & Hc).
  { unfold pick. destruct (Z.ltb_spec (2 * parent + 1 + 1) n); [|by eexists; split; [reflexivity|lia]].
    destruct (lookup_in l1 (first + (2 * parent + 1))) as [x Hx]; [lia|]. destruct (lookup_in l1 (first + (2 * parent + 1 + 1))) as [y Hy]; [lia|].
    rewrite bind_run, (karr_load_run _ _ x), bind_run, (karr_load_run _ _ y) by (done || lia). mstep. eexists. split; [reflexivity|]. case_match; lia. }
  rewrite bind_run, E. destruct (lookup_in l1 (first + child)) as [x Hx]; [lia|].
  rewrite bind_run, (karr_load_run _ _ x) by (done || lia). destruct (comp val x); cbn [negb]; [|by exists parent, l1].
  rewrite bind_run, karr_store_run by lia. apply IH; [lia..| |].
  - rewrite hole_moves; (done || lia).
  - intros k Hk. rewrite list_lookup_insert_ne by lia. by apply HE.
Qed.

(** A pass over a list of indices, each step a rearrangement. *)
Lemma passes_ok first last (f : Z -> M (list A) unit) idx l :
  (forall i l, i ∈ idx -> last <= zlen l -> exists l', f i l = Done tt l' /\ shuffled first last l l') -> last <= zlen l ->
  exists l', for_each idx f l = Done tt l' /\ shuffled first last l l'.
Proof.
  revert l. induction idx as [|i idx IH]; intros l Hf Hl; [by exists l|]. cbn [for_each].
  destruct (Hf i l) as (l1 & E & Hs); [set_solver|done|]. rewrite bind_run, E.
  destruct (IH l1) as (l2 & E2 & Hs2); [intros; apply Hf; set_solver|by rewrite (shuffled_len _ _ _ _ Hs)|].
  exists l2. split; [done|]. by etransitivity.
Qed.

Lemma heapsort_ok first last l :
  0 <= first <= last -> last <= zlen l -> exists l', heapsort comp first last l = Done tt l' /\ shuffled first last l l'.
Proof.
  intros H0 Hl. unfold heapsort.
  destruct (passes_ok first last (fun i => sift comp first (last - first) i) (reverse (seqZ 0 ((last - first) / 2))) l) as (l1 & E1 & Hs1); [|done|].
  { intros i l1 Hi%elem_of_reverse%elem_of_seqZ Hl1. destruct (sift_ok first (last - first) i l1) as (l2 & ? & Hs); [lia|Z.div_mod_to_equations; lia|lia|].
    exists l2. split; [done|]. by replace last with (first + (last - first)) by lia. }
  rewrite bind_run, E1. edestruct passes_ok as (l2 & E2 & Hs2); [| |exists l2; split; [exact E2|by etransitivity]].
  2: by rewrite (shuffled_len _ _ _ _ Hs1).
  intros i l2 Hi%elem_of_reverse%elem_of_seqZ Hl2.
  destruct (swap_ok first last l2 (first + 0) (first + i)) as (x & y & _ & _ & E & Hs); [lia..|]. cbv zeta in *. rewrite bind_run, E.
  edestruct (sift_ok first i 0) as (l3 & E3 & Hs3); [| | |exists l3; split; [exact E3|]]; [lia|lia|rewrite !length_insert; lia|].
  etransitivity; [exact Hs|]. eapply shuffled_weaken; [| |exact Hs3]; lia.
Qed.

(** ** The recursion *)

Lemma introsort_ok depth first last l :
  0 <= first <= last -> last <= zlen l -> zlen l <= SIZE_MAX ->
  exists l', introsort_impl comp depth first last l = Done tt l' /\ shuffled first last l l'.
Proof.
  revert first last l. induction depth as [|depth IH]; intros first last l H0 Hl Hmax; cbn [introsort_impl];
    (destruct (Z.ltb_spec INSERTION_SORT_THRESHOLD (u64 (last - first))) as [Hn|]; [|by exists l]); rewrite u64_id in Hn by (unfold SIZE_MAX in *; lia);
    unfold INSERTION_SORT_THRESHOLD in Hn.
  { by apply heapsort_ok. }
  destruct (kpartition_ok first last l) as (cut & l1 & E1 & Hs1 & Hcut); [lia..|]. rewrite bind_run, E1.
  pose proof (shuffled_len _ _ _ _ Hs1) as Hl1.
  assert (forall f1 t1 f2 t2, first <= f1 <= t1 -> t1 <= last -> first <= f2 <= t2 -> t2 <= last ->
    exists l', (_ ← introsort_impl comp depth f1 t1; introsort_impl comp depth f2 t2) l1 = Done tt l' /\ shuffled first last l l') as Hboth.
  { intros f1 t1 f2 t2 ? ? ? ?. destruct (IH f1 t1 l1) as (l2 & E2 & Hs2); [lia..|]. pose proof (shuffled_len _ _ _ _ Hs2).
    destruct (IH f2 t2 l2) as (l3 & E3 & Hs3); [lia..|]. exists l3. rewrite bind_run, E2. split; [done|].
    etransitivity; [exact Hs1|]. etransitivity; (eapply shuffled_weaken; [| |eassumption]); lia. }
  destruct (cut - first <? last - cut); apply Hboth; lia.
Qed.

(** ** The insertion sort *)

Definition in_order (first last : Z) l : Prop :=
  forall p q x y, first <= p < q -> q < last -> l !! Z.to_nat p = Some x -> l !! Z.to_nat q = Some y -> comp y x = false.

(** The state of the inner loop: a hole at [j], the elements above it larger than
    the one taken out. *)
Record shifting (first i : Z) (val : A) (j : Z) l l1 : Prop := {
  sk_perm : <[Z.to_nat j := val]> l1 ≡ₚ l;
  sk_out k : ~ (first <= Z.of_nat k < i + 1) -> l1 !! k = l !! k;
  sk_le p q x y : first <= p < q -> q <= i -> p <> j -> q <> j -> l1 !! Z.to_nat p = Some x -> l1 !! Z.to_nat q = Some y -> comp y x = false;
  sk_above q y : j < q <= i -> l1 !! Z.to_nat q = Some y -> comp val y = true
}.

Lemma shifting_step first i val j l l1 x :
  0 <= first < j -> j <= i < zlen l -> shifting first i val j l l1 -> l1 !! Z.to_nat (j - 1) = Some x -> comp val x = true ->
  shifting first i val (j - 1) l (<[Z.to_nat j := x]> l1).
Proof.
  intros Hj Hi Hs Hx Hc. assert (length l1 = length l) as Hlen by (rewrite <- (sk_perm _ _ _ _ _ _ Hs); by rewrite length_insert).
  assert ((<[Z.to_nat j := x]> l1) !! Z.to_nat j = Some x) as Hat by (apply list_lookup_insert_eq; lia). split.
  - rewrite hole_moves; [apply Hs|lia|done|lia].
  - intros k Hk. rewrite list_lookup_insert_ne by lia. by apply Hs.
  - intros p q y z Hpq Hq Hp1 Hq1 Hy Hz. destruct (decide (p = j)) as [->|Hp]; [|destruct (decide (q = j)) as [->|Hqj]].
    + rewrite Hat in Hy. rewrite list_lookup_insert_ne in Hz by lia. injection Hy as ->. eapply (sk_le _ _ _ _ _ _ Hs (j - 1) q); (done || lia).
    + rewrite Hat in Hz. rewrite list_lookup_insert_ne in Hy by lia. injection Hz as ->. eapply (sk_le _ _ _ _ _ _ Hs p (j - 1)); (done || lia).
    + rewrite list_lookup_insert_ne in Hy, Hz by lia. eapply (sk_le _ _ _ _ _ _ Hs p q); (done || lia).
  - intros q y Hq Hy. destruct (decide (q = j)) as [->|Hqj]; [congruence|]. rewrite list_lookup_insert_ne in Hy by lia.
    eapply Hs; [|done]. lia.
Qed.

Lemma shifting_end first i val j l l1 :
  0 <= first <= j -> j <= i < zlen l -> shifting first i val j l l1 ->
  (j = first \/ exists x, l1 !! Z.to_nat (j - 1) = Some x /\ comp val x = false) ->
  in_order first (i + 1) (<[Z.to_nat j := val]> l1).
Proof.
  intros Hj Hi Hs Hend p q x y Hpq Hq Hx Hy.
  assert (length l1 = length l) as Hlen by (rewrite <- (sk_perm _ _ _ _ _ _ Hs); by rewrite length_insert).
  assert ((<[Z.to_nat j := val]> l1) !! Z.to_nat j = Some val) as Hat by (apply list_lookup_insert_eq; lia).
  destruct (decide (p = j)) as [->|Hp]; [|destruct (decide (q = j)) as [->|Hqj]].
  - rewrite Hat in Hx. injection Hx as <-. rewrite list_lookup_insert_ne in Hy by lia. apply (sw_asym _ Hsw). eapply Hs; [|done]. lia.
  - rewrite Hat in Hy. injection Hy as <-. rewrite list_lookup_insert_ne in Hx by lia. destruct Hend as [->|(z & Hz & Hc)]; [lia|].
    destruct (decide (p = j - 1)) as [->|Hne]; [congruence|]. apply (sw_trans _ Hsw x z val); [|done].
    eapply (sk_le _ _ _ _ _ _ Hs p (j - 1)); (done || lia).
  - rewrite list_lookup_insert_ne in Hx, Hy by lia. eapply (sk_le _ _ _ _ _ _ Hs p q); (done || lia).
Qed.

Lemma shift_back_ok first i val l :
  0 <= first <= i -> l !! Z.to_nat i = Some val -> in_order first i l ->
  exists j l1, shift_back comp first val i l = Done j l1 /\ first <= j <= i /\ length l1 = length l /\
    shuffled first (i + 1) l (<[Z.to_nat j := val]> l1) /\ in_order first (i + 1) (<[Z.to_nat j := val]> l1).
Proof.
  intros H0 Hv Ho. assert (i < zlen l) as Hi by (apply lookup_lt_Some in Hv; lia).
  unfold shift_back. match goal with |- context [while _ ?bd] => set (body := bd) end.
  enough (forall f j l1, shifting first i val j l l1 -> first <= j <= i -> j - first < Z.of_nat f ->
    exists j' l2, while f body j l1 = Done j' l2 /\ first <= j' <= i /\ shifting first i val j' l l2 /\
      (j' = first \/ exists x, l2 !! Z.to_nat (j' - 1) = Some x /\ comp val x = false)) as Hw.
  { destruct (Hw (S (Z.to_nat (i - first))) i l) as (j & l1 & -> & Hj & Hs & Hend); [|lia..|].
    { split; [by rewrite list_insert_id|done| |lia]. intros p q x y ? ? ? ?. apply Ho; lia. }
    exists j, l1. split_and!; try done; try lia.
    - rewrite <- (sk_perm _ _ _ _ _ _ Hs) at 1. by rewrite length_insert.
    - apply hole_filled; [apply Hs|apply Hs|lia..].
    - apply (shifting_end first i val j l l1); (done || lia). }
  induction f as [|f IH]; intros j l1 Hs Hj Hf; [lia|]. rewrite while_S. unfold body at 1.
  assert (length l1 = length l) as Hlen by (rewrite <- (sk_perm _ _ _ _ _ _ Hs); by rewrite length_insert).
  destruct (Z.eqb_spec j first) as [->|Hne]; [exists first, l1; eauto|].
  destruct (lookup_in l1 (j - 1)) as [x Hx]; [lia|]. rewrite bind_run, (karr_load_run _ _ x) by (done || lia).
  destruct (comp val x) eqn:Hc; [|exists j, l1; eauto 10].
  rewrite bind_run, karr_store_run by lia. apply IH; [|lia..]. apply shifting_step; (done || lia).
Qed.

Lemma insertion_sort_ok first last l :
  0 <= first < last -> last <= zlen l ->
  exists l', insertion_sort comp first last l = Done tt l' /\ shuffled first last l l' /\ in_order first last l'.
Proof.
  intros H0 Hl. unfold insertion_sort. rewrite (proj2 (Z.eqb_neq _ _)) by lia.
  match goal with |- context [for_each _ ?bd] => set (body := bd) end.
  enough (forall n i l1, n = Z.to_nat (last - i) -> first < i <= last -> shuffled first last l l1 -> in_order first i l1 ->
    exists l', for_each (seqZ i (last - i)) body l1 = Done tt l' /\ shuffled first last l l' /\ in_order first last l') as Hw.
  { apply (Hw _ (first + 1) l eq_refl); [lia|done|]. intros p q x y ? ?. lia. }
  induction n as [|n IH]; intros i l1 Hn Hi Hs Ho.
  { assert (i = last) as -> by lia. rewrite Z.sub_diag. by exists l1. }
  pose proof (shuffled_len _ _ _ _ Hs) as Hlen. rewrite seqZ_cons by lia. cbn [for_each].
  destruct (lookup_in l1 i) as [val Hv]; [lia|].
  destruct (shift_back_ok first i val l1) as (j & l2 & E & Hj & Hl2 & Hs2 & Ho2); try done; [lia|].
  assert (body i l1 = Done tt (<[Z.to_nat j := val]> l2)) as Eb.
  { unfold body. rewrite bind_run, (karr_load_run _ _ val), bind_run, E, karr_store_run by (done || lia). done. }
  rewrite bind_run, Eb.
  replace (Z.pred (last - i)) with (last - (i + 1)) by lia. rewrite <- Z.add_1_r. apply IH; [lia|lia| |done].
  etransitivity; [exact Hs|]. eapply shuffled_weaken; [| |exact Hs2]; lia.
Qed.

Lemma sort_ok first last l :
  0 <= first <= last -> last <= zlen l -> zlen l <= SIZE_MAX ->
  exists l', sort comp first last l = Done tt l' /\ shuffled first last l l' /\ in_order first last l'.
Proof.
  intros H0 Hl Hmax. unfold sort. destruct (Z.eqb_spec first last) as [->|Hne].
  { exists l. split_and!; try done. intros p q x y ? ?. lia. }
  edestruct introsort_ok as (l1 & E & Hs); [| | |rewrite bind_run, E]; try done.
  destruct (insertion_sort_ok first last l1) as (l2 & E2 & Hs2 & Ho); [lia|by rewrite (shuffled_len _ _ _ _ Hs)|].
  exists l2. split_and!; try done; by etransitivity.
Qed.

Lemma in_order_sorted l : in_order 0 (zlen l) l -> StronglySorted (fun x y => comp y x = false) l.
Proof.
  intros Ho. induction l as [|x l IH]; constructor.
  - apply IH. intros p q y z Hpq Hq Hy Hz. apply (Ho (p + 1) (q + 1) y z); [lia|cbn [length]; lia| |].
    + by replace (Z.to_nat (p + 1)) with (S (Z.to_nat p)) by lia.
    + by replace (Z.to_nat (q + 1)) with (S (Z.to_nat q)) by lia.
  - apply Forall_forall. intros y (k & Hk)%list_elem_of_lookup. apply (Ho 0 (Z.of_nat (S k)) x y); [lia|apply lookup_lt_Some in Hk; cbn [length]; lia|done|].
    by rewrite Nat2Z.id.
Qed.
End ksort_facts.

(** ** The claims *)

(** C30. [klib::sort] on a range of an array, under any strict weak order: it
    terminates without an access outside the range, what lies outside the range
    is unchanged, the elements are rearranged, and the range is in order. *)
Theorem ksort_sorts {A} (comp : A -> A -> bool) first last (l : list A) :
  strict_weak comp -> 0 <= first <= last -> last <= zlen l -> zlen l <= SIZE_MAX ->
  exists l', sort comp first last l = Done tt l' /\ l' ≡ₚ l /\
    (forall i, ~ (first <= Z.of_nat i < last) -> l' !! i = l !! i) /\ in_order comp first last l'.
Proof.
  intros Hsw H0 Hl Hmax. destruct (sort_ok comp Hsw first last l H0 Hl Hmax) as (l' & E & [HP HE] & Ho). by exists l'.
Qed.

Lemma ltb_weak : strict_weak Z.ltb.
Proof. split; intros *; rewrite ?Z.ltb_lt, ?Z.ltb_ge; lia. Qed.

(** [sort_lt] on a whole array. *)
Lemma sort_lt_ok l :
  zlen l <= SIZE_MAX -> exists l', sort_lt 0 (zlen l) l = Done tt l' /\ l' ≡ₚ l /\ StronglySorted Z.le l'.
Proof.
  intros Hl. destruct (sort_ok Z.ltb ltb_weak 0 (zlen l) l) as (l' & E & [HP _] & Ho); [lia..|]. exists l'. split_and!; try done.
  rewrite <- (Permutation_length HP) in Ho. apply in_order_sorted in Ho.
  clear -Ho. induction Ho as [|x l' _ IH HF]; constructor; [done|]. eapply Forall_impl; [exact HF|]. intros y. by rewrite Z.ltb_ge.
Qed.

Lemma ksort_sorts_witness :
  exists l', sort Z.ltb 1 21 (9 :: reverse (seqZ 0 20) ++ [3]) = Done tt l' /\ l' ≡ₚ 9 :: reverse (seqZ 0 20) ++ [3] /\
    (forall i, ~ (1 <= Z.of_nat i < 21) -> l' !! i = (9 :: reverse (seqZ 0 20) ++ [3]) !! i) /\ in_order Z.ltb 1 21 l'.
Proof.
  apply (ksort_sorts Z.ltb 1 21); [|lia|vm_compute; congruence|vm_compute; congruence].
  split; intros x y; [|intros z]; rewrite ?Z.ltb_lt, ?Z.ltb_ge; lia.
Defined.
