(* ===== verification/Fat.v ===== *)
(** * filesystem/fat32/fat32.cpp: the file allocation table

    Mounting, the sector cache, FAT entries in their copies, free clusters and
    cluster chains. The block device is an interface; the memory the code
    allocates is a parameter that may fail at any call. Sectors are lists of
    bytes, the little-endian words of a FAT are read and written in them. *)

From Stdlib Require Import ZArith Lia.
From stdpp Require Import base tactics gmap numbers list.
From S2P Require Import Prelude.
From S2P Require Import Memory.
From S2P Require Import KSort.

(** ** Words in a buffer *)

Definition word_at (buf : list Z) (off : Z) : Z := le_bytes (take 4 (drop (Z.to_nat off) buf)).
Definition half_at (buf : list Z) (off : Z) : Z := le_bytes (take 2 (drop (Z.to_nat off) buf)).
Definition byte_at (buf : list Z) (off : Z) : Z := nth (Z.to_nat off) buf 0.
Definition set_word (buf : list Z) (off v : Z) : list Z :=
  take (Z.to_nat off) buf ++ to_le 4 v ++ drop (Z.to_nat (off + 4)) buf.

(** ** The block device

    [BlockDevice]: the result of a call, the contents of the buffer after it, and
    the device. *)
Class BlockDevice (D : Type) := {
  dev_read : Z -> Z -> D -> Z * list Z * D;
  dev_write : Z -> Z -> list Z -> D -> Z * D
}.

(** ** Geometry *)

(** The fields of [BPB_FAT32] the code uses. *)
Record bpb := {
  bytes_per_sector : Z;
  sectors_per_cluster : Z;
  reserved_sector_count : Z;
  table_count : Z;
  root_entry_count : Z;
  total_sectors16 : Z;
  fat_size16 : Z;
  total_sectors32 : Z;
  fat_size32 : Z;
  root_cluster : Z;
  fs_info : Z
}.

(** [memcpy(&bpb, sector, sizeof(BPB_FAT32))] *)
Definition parse_bpb (sector : list Z) : bpb := {|
  bytes_per_sector := half_at sector 0x0B;
  sectors_per_cluster := byte_at sector 0x0D;
  reserved_sector_count := half_at sector 0x0E;
  table_count := byte_at sector 0x10;
  root_entry_count := half_at sector 0x11;
  total_sectors16 := half_at sector 0x13;
  fat_size16 := half_at sector 0x16;
  total_sectors32 := word_at sector 0x20;
  fat_size32 := word_at sector 0x24;
  root_cluster := word_at sector 0x2C;
  fs_info := half_at sector 0x30
|}.

Definition total_sectors (b : bpb) : Z := if total_sectors16 b =? 0 then total_sectors32 b else total_sectors16 b.
Definition data_start (b : bpb) : Z := u32 (reserved_sector_count b + u32 (table_count b * fat_size32 b)).
Definition cluster_count (b : bpb) : Z := u32 (total_sectors b - data_start b) / sectors_per_cluster b.

Definition probe_fs (b : bpb) : bool := (root_entry_count b =? 0) && (fat_size16 b =? 0) && (65525 <=? cluster_count b).
Definition bytes_per_cluster (b : bpb) : Z := bytes_per_sector b * sectors_per_cluster b.
Definition cluster_to_sector (b : bpb) (cluster : Z) : Z :=
  u32 (data_start b + u32 (u32 (cluster - 2) * sectors_per_cluster b)).

(** ** State *)

Record cache_entry := { ce_sector : Z; ce_data : list Z; ce_last_used : Z; ce_valid : bool }.

Definition FAT_CACHE_SIZE : nat := 10.
Definition U32_MAX : Z := 0xFFFFFFFF.

Section fat.
Context {D : Type} `{!BlockDevice D}.

(** [fs_allocs] numbers the requests for kernel memory. *)
Record fs := {
  fs_dev : D;
  fs_cache : list cache_entry;
  fs_counter : Z;
  fs_hits : Z;
  fs_misses : Z;
  fs_free : Z;
  fs_next : Z;
  fs_allocs : Z
}.

Definition set_dev d (s : fs) : fs :=
  {| fs_dev := d; fs_cache := fs_cache s; fs_counter := fs_counter s; fs_hits := fs_hits s; fs_misses := fs_misses s;
     fs_free := fs_free s; fs_next := fs_next s; fs_allocs := fs_allocs s |}.
Definition set_cache c (s : fs) : fs :=
  {| fs_dev := fs_dev s; fs_cache := c; fs_counter := fs_counter s; fs_hits := fs_hits s; fs_misses := fs_misses s;
     fs_free := fs_free s; fs_next := fs_next s; fs_allocs := fs_allocs s |}.
Definition set_stats counter hits misses (s : fs) : fs :=
  {| fs_dev := fs_dev s; fs_cache := fs_cache s; fs_counter := counter; fs_hits := hits; fs_misses := misses;
     fs_free := fs_free s; fs_next := fs_next s; fs_allocs := fs_allocs s |}.
Definition set_free n (s : fs) : fs :=
  {| fs_dev := fs_dev s; fs_cache := fs_cache s; fs_counter := fs_counter s; fs_hits := fs_hits s; fs_misses := fs_misses s;
     fs_free := n; fs_next := fs_next s; fs_allocs := fs_allocs s |}.
Definition set_next_free n (s : fs) : fs :=
  {| fs_dev := fs_dev s; fs_cache := fs_cache s; fs_counter := fs_counter s; fs_hits := fs_hits s; fs_misses := fs_misses s;
     fs_free := fs_free s; fs_next := n; fs_allocs := fs_allocs s |}.
Definition set_allocs n (s : fs) : fs :=
  {| fs_dev := fs_dev s; fs_cache := fs_cache s; fs_counter := fs_counter s; fs_hits := fs_hits s; fs_misses := fs_misses s;
     fs_free := fs_free s; fs_next := fs_next s; fs_allocs := n |}.

(** [device->read(lba, count, buffer, ...)]: [None] when it returns 0. *)
Definition device_read (lba count : Z) : M fs (option (list Z)) := fun s =>
  let '(r, buf, d) := dev_read lba count (fs_dev s) in Done (if r =? 0 then None else Some buf) (set_dev d s).
Definition device_write (lba count : Z) (buf : list Z) : M fs bool := fun s =>
  let '(r, d) := dev_write lba count buf (fs_dev s) in Done (negb (r =? 0)) (set_dev d s).

Context (b : bpb) (can_alloc : Z -> bool).

(** A request for pages or heap memory. *)
Definition alloc : M fs bool := fun s => Done (can_alloc (fs_allocs s)) (set_allocs (fs_allocs s + 1) s).

(** ** The cache of FAT sectors *)

Definition empty_cache : list cache_entry :=
  replicate FAT_CACHE_SIZE {| ce_sector := 0; ce_data := []; ce_last_used := 0; ce_valid := false |}.

(** The slot to replace: the first empty one, or the least recently used. *)
Fixpoint lru (l : list cache_entry) (i replace_idx : nat) (oldest : Z) : nat :=
  match l with
  | [] => replace_idx
  | e :: l' =>
      if negb (ce_valid e) then i
      else if ce_last_used e <? oldest then lru l' (S i) i (ce_last_used e)
      else lru l' (S i) replace_idx oldest
  end.

Definition replace_slot (l : list cache_entry) : nat :=
  lru l 0 0 (match l with e :: _ => if ce_valid e then ce_last_used e else 0 | [] => 0 end).

Definition is_cached (sector : Z) (e : cache_entry) : bool := ce_valid e && (ce_sector e =? sector).

(** The first entry for the sector, now used. *)
Fixpoint touch (sector counter : Z) (l : list cache_entry) : list cache_entry :=
  match l with
  | [] => []
  | e :: l' =>
      if is_cached sector e then
        {| ce_sector := ce_sector e; ce_data := ce_data e; ce_last_used := counter; ce_valid := ce_valid e |} :: l'
      else e :: touch sector counter l'
  end.

Definition read_fat_sector (fat_sector : Z) : M fs (option (list Z)) :=
  s ← get;
  let counter := u32 (fs_counter s + 1) in
  match List.find (is_cached fat_sector) (fs_cache s) with
  | Some e =>
      _ ← put (set_cache (touch fat_sector counter (fs_cache s)) (set_stats counter (u32 (fs_hits s + 1)) (fs_misses s) s));
      mret (Some (take (Z.to_nat (bytes_per_sector b)) (ce_data e)))
  | None =>
      _ ← put (set_stats counter (fs_hits s) (u32 (fs_misses s + 1)) s);
      r ← device_read fat_sector 1;
      match (r : option (list Z)) with
      | None => mret None
      | Some buffer =>
          if 512 <? bytes_per_sector b then undefined
          else
            let buffer := take (Z.to_nat (bytes_per_sector b)) buffer in
            _ ← modify (fun s => set_cache
                  (<[replace_slot (fs_cache s) :=
                     {| ce_sector := fat_sector; ce_data := buffer; ce_last_used := counter; ce_valid := true |}]> (fs_cache s)) s);
            mret (Some buffer)
      end
  end.

Definition drop_sector (p : Z -> bool) (l : list cache_entry) : list cache_entry :=
  (fun e => if ce_valid e && p (ce_sector e) then
     {| ce_sector := ce_sector e; ce_data := ce_data e; ce_last_used := ce_last_used e; ce_valid := false |} else e) <$> l.

Definition invalidate_fat_cache : M fs unit := modify (fun s => set_cache (drop_sector (fun _ => true) (fs_cache s)) s).
Definition invalidate_fat_cache_sector (sector : Z) : M fs unit :=
  modify (fun s => set_cache (drop_sector (Z.eqb sector) (fs_cache s)) s).

(** ** FAT entries *)

Definition is_valid_fat_entry (value : Z) : bool :=
  let value := Z.land value 0x0FFFFFFF in
  if value =? 0 then true
  else if 0x0FFFFFF8 <=? value then true
  else if value =? 0x0FFFFFF7 then false
  else if value <? 2 then false
  else if u32 (cluster_count b + 2) <=? value then false
  else true.

Definition read_fat_entry_raw (fat_sector offset : Z) : M fs Z :=
  if offset <=? u32 (bytes_per_sector b - 4) then
    r ← read_fat_sector fat_sector;
    mret (match (r : option (list Z)) with None => 0x0FFFFFFF | Some buf => word_at buf offset end)
  else
    r ← read_fat_sector fat_sector;
    match (r : option (list Z)) with
    | None => mret 0x0FFFFFFF
    | Some buf =>
        r ← read_fat_sector (u32 (fat_sector + 1));
        mret (match (r : option (list Z)) with None => 0x0FFFFFFF | Some buf' => word_at (buf ++ buf') offset end)
    end.

Definition write_fat_entry_raw (fat_sector offset value : Z) : M fs bool :=
  let n := if offset <=? u32 (bytes_per_sector b - 4) then 1 else 2 in
  r ← device_read fat_sector n;
  match (r : option (list Z)) with
  | None => mret false
  | Some buf =>
      ok ← device_write fat_sector n (set_word buf offset value);
      if negb ok then mret false
      else
        _ ← invalidate_fat_cache_sector fat_sector;
        _ ← when (n =? 2) (invalidate_fat_cache_sector (u32 (fat_sector + 1)));
        mret true
  end.

Definition fat_offset (cluster : Z) : Z := u32 (cluster * 4).
Definition sector_offset (cluster : Z) : Z := fat_offset cluster / bytes_per_sector b.
Definition offset_in_sector (cluster : Z) : Z := fat_offset cluster mod bytes_per_sector b.
Definition fat_base (fat : Z) : Z := u32 (reserved_sector_count b + u32 (fat * fat_size32 b)).

(** The copies of the table, one after the other, as long as the writes succeed. *)
Fixpoint write_copies (fats : list Z) (cluster value : Z) : M fs bool :=
  match fats with
  | [] => mret true
  | fat :: fats' =>
      ok ← write_fat_entry_raw (u32 (fat_base fat + sector_offset cluster)) (offset_in_sector cluster) value;
      if (ok : bool) then write_copies fats' cluster value else mret false
  end.

(** [write_fat_entry], with the [get_fat_entry] it looks at the old entry with. *)
Definition write_fat_entry_with (get_entry : Z -> M fs Z) (cluster value : Z) : M fs bool :=
  let value := Z.land value 0x0FFFFFFF in
  e ← get_entry cluster;
  let old := Z.land e 0x0FFFFFFF in
  ok ← write_copies (seqZ 0 (table_count b)) cluster value;
  if negb ok then mret false
  else
    _ ← modify (fun s =>
          if fs_free s =? U32_MAX then s
          else if (old =? 0) && negb (value =? 0) then set_free (u32 (fs_free s - 1)) s
          else if negb (old =? 0) && (value =? 0) then set_free (u32 (fs_free s + 1)) s
          else s);
    mret true.

(** [get_fat_entry] repairs the first copy from the second with
    [write_fat_entry], which calls it in turn. *)
Fixpoint get_fat_entry (fuel : nat) (cluster : Z) : M fs Z :=
  match fuel with
  | O => fun _ => NoFuel
  | S fuel' =>
      if (cluster <? 2) || (u32 (cluster_count b + 2) <=? cluster) then mret 0x0FFFFFFF
      else
        e ← read_fat_entry_raw (u32 (reserved_sector_count b + sector_offset cluster)) (offset_in_sector cluster);
        let entry0 := Z.land e 0x0FFFFFFF in
        if is_valid_fat_entry entry0 then mret entry0
        else if table_count b <? 2 then mret entry0
        else
          e ← read_fat_entry_raw (u32 (u32 (reserved_sector_count b + fat_size32 b) + sector_offset cluster)) (offset_in_sector cluster);
          let entry1 := Z.land e 0x0FFFFFFF in
          if is_valid_fat_entry entry1 then _ ← write_fat_entry_with (get_fat_entry fuel') cluster entry1; mret entry1
          else mret 0x0FFFFFFF
  end.

Definition write_fat_entry (fuel : nat) : Z -> Z -> M fs bool := write_fat_entry_with (get_fat_entry fuel).

(** ** FSInfo *)

(** The FSINFO sector: signatures, the count of free clusters and the hint. *)
Definition fsinfo_sector (free_count nxt_free : Z) : list Z :=
  to_le 4 0x41615252 ++ replicate 480 0 ++ to_le 4 0x61417272 ++ to_le 4 free_count ++ to_le 4 nxt_free ++
  replicate 12 0 ++ to_le 4 0xAA550000.

Definition load_fs_info : M fs bool :=
  _ ← modify (fun s => set_next_free 2 (set_free U32_MAX s));
  if fs_info b =? 0 then mret false
  else
    r ← device_read (fs_info b) 1;
    match (r : option (list Z)) with
    | None => mret false
    | Some sector =>
        if negb (word_at sector 0 =? 0x41615252) then mret false
        else if negb (word_at sector 484 =? 0x61417272) then mret false
        else if negb (word_at sector 508 =? 0xAA550000) then mret false
        else
          _ ← modify (fun s => set_next_free (word_at sector 492) (set_free (word_at sector 488) s));
          _ ← modify (fun s => if fs_next s <? 2 then set_next_free 2 s else s);
          mret true
    end.

Definition write_fs_info : M fs unit :=
  if fs_info b =? 0 then mret tt
  else
    s ← get;
    _ ← device_write (fs_info b) 1 (fsinfo_sector (fs_free s) (fs_next s));
    mret tt.

(** The scan of the first copy; [buf] holds the sector [last_sector]. A sector
    that cannot be read is tried again for each of its clusters. *)
Definition get_free_cluster_count : M fs Z :=
  s ← get;
  if negb (fs_free s =? U32_MAX) then mret (fs_free s)
  else
    count ← while (S (Z.to_nat (cluster_count b))) (fun '(c, count, buf, last_sector) =>
      if c <? u32 (cluster_count b + 2) then
        let fat_sector := u32 (reserved_sector_count b + sector_offset c) in
        let look buf last_sector :=
          let entry := Z.land (word_at buf (offset_in_sector c)) 0x0FFFFFFF in
          mret (inl (c + 1, if entry =? 0 then u32 (count + 1) else count, buf, last_sector)) in
        if negb (fat_sector =? last_sector) then
          r ← read_fat_sector fat_sector;
          match (r : option (list Z)) with
          | None => mret (inl (c + 1, count, buf, last_sector))
          | Some buf => look buf fat_sector
          end
        else look buf last_sector
      else mret (inr count)) (2, 0, [], U32_MAX);
    _ ← modify (set_free count);
    _ ← write_fs_info;
    s ← get;
    mret (fs_free s).

(** ** Clusters *)

Definition read_cluster (cluster : Z) : M fs (option (list Z)) :=
  device_read (cluster_to_sector b cluster) (sectors_per_cluster b).

(** [write_cluster(cluster, data, len, offset)] *)
Definition write_cluster (cluster : Z) (data : list Z) (offset : Z) : M fs bool :=
  let len := zlen data in
  if len =? 0 then mret false
  else if bytes_per_cluster b <? u64 (len + offset) then mret false
  else
    ok ← alloc;
    if negb ok then mret false
    else
      old ← (if (len <? bytes_per_cluster b) || (0 <? offset) then read_cluster cluster
             else mret (Some (replicate (Z.to_nat (bytes_per_cluster b)) 0)));
      match (old : option (list Z)) with
      | None => mret false
      | Some old =>
          device_write (cluster_to_sector b cluster) (sectors_per_cluster b)
            (take (Z.to_nat offset) old ++ data ++ drop (Z.to_nat (offset + len)) old)
      end.

(** ** Chains *)

Definition next_cluster (fuel : nat) (c : Z) : M fs Z :=
  if (c <? 2) || (u32 (cluster_count b + 2) <=? c) then mret 0
  else
    next ← get_fat_entry fuel c;
    mret (if 0x0FFFFFF8 <=? next then 0
          else if (next =? 0) || (next =? 1) then 0
          else if next =? 0x0FFFFFF7 then 0
          else next).

Definition has_fat_loop (fuel : nat) (start : Z) : M fs bool :=
  while fuel (fun '(tortoise, hare) =>
    tortoise ← next_cluster fuel tortoise;
    if tortoise =? 0 then mret (inr false)
    else
      hare ← next_cluster fuel hare;
      if hare =? 0 then mret (inr false)
      else
        hare ← next_cluster fuel hare;
        if hare =? 0 then mret (inr false)
        else if tortoise =? hare then mret (inr true)
        else mret (inl (tortoise, hare))) (start, start).

(** [for (c = from; c < to; ++c)]: the first free cluster. *)
Definition scan_free (fuel : nat) (from to : Z) : M fs (option Z) :=
  while fuel (fun c =>
    if c <? to then
      e ← get_fat_entry fuel c;
      if e =? 0 then _ ← modify (set_next_free (u32 (c + 1))); mret (inr (Some c))
      else mret (inl (c + 1))
    else mret (inr None)) from.

Definition find_free_cluster (fuel : nat) : M fs Z :=
  if cluster_count b <? 2 then mret 0
  else
    s ← get;
    let end_ := u32 (cluster_count b + 2) in
    let start := if (2 <=? fs_next s) && (fs_next s <? end_) then fs_next s else 2 in
    r ← scan_free fuel start end_;
    match (r : option Z) with
    | Some c => mret c
    | None => r ← scan_free fuel 2 start; mret (match (r : option Z) with Some c => c | None => 0 end)
    end.

(** ** Reading a chain in batches of sectors *)

Definition sectors_per_read : Z := 128.

Definition batch_of (sector : Z) : Z := sector / sectors_per_read * sectors_per_read.

Definition batch_sectors (batch_start end_ : Z) : Z :=
  let n := u32 (end_ - batch_start) in if n <? sectors_per_read then n else sectors_per_read.

(** The index of an entry in the batch, as bytes. *)
Definition batch_offset (fat_sector batch_start cluster : Z) : Z :=
  4 * u32 (u32 (fat_sector - batch_start) * (bytes_per_sector b / 4) + offset_in_sector cluster / 4).

(** The entry of a cluster through the batch buffer; [None] when the read fails. *)
Definition batch_entry (cluster : Z) (batch : Z * list Z) : M fs (option (Z * (Z * list Z))) :=
  let fat_sector := u32 (reserved_sector_count b + sector_offset cluster) in
  let start := batch_of fat_sector in
  batch ← (if start =? fst batch then mret (Some batch)
           else
             r ← device_read start (batch_sectors start (u32 (reserved_sector_count b + fat_size32 b)));
             mret (match (r : option (list Z)) with None => None | Some buf => Some (start, buf) end));
  mret (match (batch : option (Z * list Z)) with
        | None => None
        | Some batch => Some (Z.land (word_at (snd batch) (batch_offset fat_sector start cluster)) 0x0FFFFFFF, batch)
        end).

Definition ends_chain (entry : Z) : bool :=
  (0x0FFFFFF8 <=? entry) || (entry =? 0) || (entry =? 1) || (entry =? 0x0FFFFFF7).

Definition count_chain (fuel : nat) (start_cluster : Z) : M fs (option Z) :=
  while fuel (fun '(cluster, count, batch) =>
    if (2 <=? cluster) && (cluster <? u32 (cluster_count b + 2)) then
      r ← batch_entry cluster batch;
      match (r : option (Z * (Z * list Z))) with
      | None => mret (inr None)
      | Some (entry, batch) =>
          if ends_chain entry then mret (inr (Some (count + 1)))
          else mret (inl (entry, count + 1, batch))
      end
    else mret (inr (Some count))) (start_cluster, 0, (U32_MAX, [])).

(** The second pass does not look at the result of its reads: the buffer keeps
    what the call left in it. *)
Definition refill (start : Z) (batch : Z * list Z) : M fs (Z * list Z) :=
  if start =? fst batch then mret batch
  else fun s =>
    let '(_, buf, d) := dev_read start (batch_sectors start (u32 (reserved_sector_count b + fat_size32 b))) (fs_dev s) in
    Done (start, buf) (set_dev d s).

Definition fill_chain (start_cluster count : Z) : M fs (list Z) :=
  while (S (Z.to_nat count)) (fun '(i, cluster, batch, chain) =>
    if i <? count then
      let fat_sector := u32 (reserved_sector_count b + sector_offset cluster) in
      let start := batch_of fat_sector in
      batch ← refill start batch;
      mret (inl (i + 1, Z.land (word_at (snd batch) (batch_offset fat_sector start cluster)) 0x0FFFFFFF, batch, chain ++ [cluster]))
    else mret (inr chain)) (0, start_cluster, (U32_MAX, []), []).

Definition get_cluster_chain (fuel : nat) (start_cluster : Z) : M fs (option (list Z)) :=
  if (start_cluster <? 2) || (u32 (cluster_count b + 2) <=? start_cluster) then mret None
  else
    loop ← has_fat_loop fuel start_cluster;
    if (loop : bool) then mret None
    else
      ok ← alloc;
      if negb ok then mret None
      else
        count ← count_chain fuel start_cluster;
        match (count : option Z) with
        | None => mret None
        | Some count =>
            if count =? 0 then mret None
            else
              ok ← alloc;
              if negb ok then mret None
              else chain ← fill_chain start_cluster count; mret (Some chain)
        end.
(** ** Freeing a chain in batches *)

(** The batch in memory: its first sector, the end, its bytes, and whether it
    differs from the device. *)
Record batch := { bt_start : Z; bt_end : Z; bt_buf : list Z; bt_dirty : bool }.

Definition flush_batch (bt : batch) : M fs unit :=
  when (bt_dirty bt) (
    _ ← device_write (bt_start bt) (u32 (bt_end bt - bt_start bt)) (bt_buf bt);
    for_each (seqZ (bt_start bt) (bt_end bt - bt_start bt)) invalidate_fat_cache_sector).

(** The clusters of the chain in the copy whose first sector is [base]. *)
Fixpoint free_entries (base : Z) (chain : list Z) (bt : batch) : M fs bool :=
  match chain with
  | [] => _ ← flush_batch bt; mret true
  | cluster :: chain' =>
      let fat_sector := u32 (base + sector_offset cluster) in
      let start := batch_of fat_sector in
      let fat_end := u32 (base + fat_size32 b) in
      let zero bt :=
        free_entries base chain' {| bt_start := bt_start bt; bt_end := bt_end bt;
          bt_buf := set_word (bt_buf bt) (batch_offset fat_sector (bt_start bt) cluster) 0; bt_dirty := true |} in
      if start =? bt_start bt then zero bt
      else
        _ ← flush_batch bt;
        let end_ := if fat_end <? u32 (start + sectors_per_read) then fat_end else u32 (start + sectors_per_read) in
        r ← device_read start (u32 (end_ - start));
        match (r : option (list Z)) with
        | None => mret false
        | Some buf => zero {| bt_start := start; bt_end := end_; bt_buf := buf; bt_dirty := false |}
        end
  end.

Fixpoint free_copies (fats : list Z) (chain : list Z) : M fs bool :=
  match fats with
  | [] => mret true
  | fat :: fats' =>
      ok ← free_entries (fat_base fat) chain {| bt_start := U32_MAX; bt_end := 0; bt_buf := []; bt_dirty := false |};
      if (ok : bool) then free_copies fats' chain else mret false
  end.

(** [klib::sort(chain, chain + count)] *)
Definition sort_chain (chain : list Z) : M fs (list Z) := fun s =>
  match sort_lt 0 (zlen chain) chain with
  | Done _ chain => Done chain s
  | Undef => Undef
  | NoFuel => NoFuel
  end.

Definition free_cluster_chain (fuel : nat) (start_cluster : Z) : M fs bool :=
  if (start_cluster <? 2) || (u32 (cluster_count b + 2) <=? start_cluster) then mret false
  else
    chain ← get_cluster_chain fuel start_cluster;
    match (chain : option (list Z)) with
    | None => mret false
    | Some chain =>
        if zlen chain =? 0 then mret false
        else
          chain ← sort_chain chain;
          ok ← alloc;
          if negb ok then mret false
          else
            ok ← free_copies (seqZ 0 (table_count b)) chain;
            if negb ok then mret false
            else
              _ ← modify (fun s => if fs_free s =? U32_MAX then s else set_free (u32 (fs_free s + zlen chain)) s);
              mret true
    end.
End fat.

Arguments fs D : clear implicits.

(** ** Mounting *)

(** The constructor: the geometry and the state, when the file system is valid. *)
Definition mount {D} `{!BlockDevice D} (dev : D) : option (bpb * fs D) :=
  let '(r, sector, dev) := dev_read 0 1 dev in
  if r =? 0 then None
  else
    let b := parse_bpb sector in
    if (table_count b <? 1) || (sectors_per_cluster b =? 0) then None
    else if negb (probe_fs b) then None
    else
      let s := {| fs_dev := dev; fs_cache := empty_cache; fs_counter := 0; fs_hits := 0; fs_misses := 0;
                  fs_free := 0; fs_next := 2; fs_allocs := 0 |} in
      match load_fs_info b s with
      | Done _ s => Some (b, s)
      | _ => None
      end.
