(* ===== verification/FatFacts.v ===== *)
(** * The file allocation table: sectors, words and the cache

    A disk is an image of bytes; reading and writing sectors are slices of it.
    The cache agrees with the image, and an operation on an entry is an operation
    on one word of the image. *)

From Stdlib Require Import ZArith Lia.
From stdpp Require Import base tactics gmap numbers list.
From S2P Require Import Prelude.
From S2P Require Import Memory.
From S2P Require Import Slices.
From S2P Require Import Fat.

(** ** Words *)

Lemma set_word_splice buf off v : set_word buf off v = splice off (to_le 4 v) buf.
Proof. unfold set_word, splice. by rewrite length_to_le. Qed.

Lemma word_at_slice buf off : word_at buf off = le_bytes (slice off 4 buf).
Proof. done. Qed.

Lemma word_in_slice p n off l : 0 <= p -> 0 <= off -> off + 4 <= n -> word_at (slice p n l) off = word_at l (p + off).
Proof. intros. rewrite !word_at_slice, slice_slice by lia. done. Qed.

Lemma word_set_same l p v : 0 <= p -> p + 4 <= zlen l -> word_at (set_word l p v) p = v mod 2 ^ 32.
Proof.
  intros. rewrite word_at_slice, set_word_splice. change 4 with (zlen (to_le 4 v)) at 1.
  rewrite slice_splice_same by (rewrite ?length_to_le; lia). rewrite le_bytes_to_le. done.
Qed.

Lemma word_set_out l p q v : 0 <= p -> p + 4 <= zlen l -> 0 <= q -> (q + 4 <= p \/ p + 4 <= q) -> word_at (set_word l p v) q = word_at l q.
Proof. intros. rewrite !word_at_slice, set_word_splice, slice_splice_out by (rewrite ?length_to_le; lia). done. Qed.

Lemma set_word_length l p v : 0 <= p -> p + 4 <= zlen l -> length (set_word l p v) = length l.
Proof. intros. rewrite set_word_splice. apply splice_length; rewrite ?length_to_le; lia. Qed.

Lemma set_word_lookup l p v i :
  0 <= p -> p + 4 <= zlen l -> ~ (p <= Z.of_nat i < p + 4) -> set_word l p v !! i = l !! i.
Proof. intros. rewrite set_word_splice, splice_lookup by (rewrite ?length_to_le; lia). rewrite length_to_le, decide_False by lia. done. Qed.

(** ** Disks *)

(** A device that works: what a read returns and a write changes. *)
Class Disk (D : Type) `{!BlockDevice D} (ss : Z) := {
  img : D -> list Z;
  disk_read d lba n : 0 <= lba -> 0 < n -> (lba + n) * ss <= zlen (img d) ->
    exists r, 0 < r /\ dev_read lba n d = (r, slice (lba * ss) (n * ss) (img d), d);
  disk_write d lba n buf : 0 <= lba -> 0 < n -> (lba + n) * ss <= zlen (img d) -> zlen buf = n * ss ->
    exists r d', 0 < r /\ dev_write lba n buf d = (r, d') /\ img d' = splice (lba * ss) buf (img d)
}.

(** ** Geometry *)

(** What the boot sector of a FAT32 volume has to say for the arithmetic to stay
    in range: aligned sectors that fit the buffers, and tables that cover all
    clusters. *)
Record geo_ok (b : bpb) : Prop := {
  g_bps : 0 < bytes_per_sector b <= 512 /\ bytes_per_sector b mod 4 = 0;
  g_res : 0 < reserved_sector_count b;
  g_tables : 1 <= table_count b;
  g_size : 0 < fat_size32 b;
  g_count : 0 <= cluster_count b <= 0x0FFFFFF5;
  g_cover : 4 * (cluster_count b + 2) <= fat_size32 b * bytes_per_sector b;
  g_end : reserved_sector_count b + table_count b * fat_size32 b <= U32_MAX - 128
}.

Section geometry.
Context (b : bpb) (Hg : geo_ok b).
Local Abbreviation bps := (bytes_per_sector b).

Definition cluster_ok (c : Z) : Prop := 2 <= c < cluster_count b + 2.

(** The byte of the image at which the entry of a cluster starts in a copy. *)
Definition entry_pos (fat c : Z) : Z := (reserved_sector_count b + fat * fat_size32 b) * bps + 4 * c.

Lemma limit_ok : u32 (cluster_count b + 2) = cluster_count b + 2.
Proof. destruct Hg. apply u32_id. lia. Qed.

Lemma out_of_range c : (c <? 2) || (u32 (cluster_count b + 2) <=? c) = false <-> cluster_ok c.
Proof. rewrite limit_ok, orb_false_iff, Z.ltb_ge, Z.leb_gt. done. Qed.

Lemma fat_base_ok fat : 0 <= fat < table_count b -> fat_base b fat = reserved_sector_count b + fat * fat_size32 b.
Proof.
  intros Hf. destruct Hg. unfold U32_MAX in *. assert (0 <= fat * fat_size32 b) by nia.
  assert (fat * fat_size32 b + fat_size32 b <= table_count b * fat_size32 b) by nia.
  unfold fat_base. rewrite (u32_id (fat * _)) by lia. apply u32_id. lia.
Qed.

(** The entry of a cluster lies in one sector, inside its copy. *)
Lemma entry_place fat c :
  0 <= fat < table_count b -> cluster_ok c ->
  let base := reserved_sector_count b + fat * fat_size32 b in
  let s := u32 (base + sector_offset b c) in
  s = base + sector_offset b c /\ 0 <= sector_offset b c < fat_size32 b /\
  0 <= offset_in_sector b c <= bps - 4 /\ offset_in_sector b c mod 4 = 0 /\
  s * bps + offset_in_sector b c = entry_pos fat c /\
  (offset_in_sector b c <=? u32 (bps - 4)) = true /\ 0 < s /\ s + 1 <= base + fat_size32 b /\
  base + fat_size32 b <= reserved_sector_count b + table_count b * fat_size32 b.
Proof.
  intros Hf Hc. pose proof Hg as []. unfold cluster_ok, U32_MAX in *. unfold sector_offset, offset_in_sector, fat_offset, entry_pos.
  assert (4 <= bps) by (destruct g_bps0; Z.div_mod_to_equations; lia).
  rewrite (u32_id (c * 4)) by lia. rewrite (u32_id (bps - 4)) by lia.
  pose proof (Z.div_mod (c * 4) bps ltac:(lia)) as Hdm. pose proof (Z.mod_pos_bound (c * 4) bps ltac:(lia)) as Hm.
  assert (0 <= c * 4 / bps) by (apply Z.div_pos; lia). assert (c * 4 / bps < fat_size32 b) by (apply Z.div_lt_upper_bound; lia).
  assert (((c * 4) mod bps) mod 4 = 0) as Hm4.
  { destruct g_bps0 as [_ H4]. rewrite Z.mod_mod_divide; [apply Z.mod_mul; lia|]. apply Z.mod_divide; [lia|done]. }
  assert (bps mod 4 = 0) as Hb4 by apply g_bps0.
  assert (0 <= fat * fat_size32 b) by nia.
  assert (fat * fat_size32 b + fat_size32 b <= table_count b * fat_size32 b) by nia.
  rewrite u32_id by lia. split_and!; try lia.
  - Z.div_mod_to_equations. lia.
  - apply Z.leb_le. Z.div_mod_to_equations. lia.
Qed.
End geometry.

(** ** The cache *)

Section cached.
Context {D : Type} `{!BlockDevice D} (b : bpb) `{!Disk D (bytes_per_sector b)}.
Hypothesis (Hg : geo_ok b).
Local Abbreviation bps := (bytes_per_sector b).
Implicit Types (s : fs D).

Definition image s : list Z := img (fs_dev s).

(** The sectors of all copies are on the disk. *)
Definition fits s : Prop := (reserved_sector_count b + table_count b * fat_size32 b) * bps <= zlen (image s).

Definition fat_sector_ok (sector : Z) : Prop :=
  reserved_sector_count b <= sector < reserved_sector_count b + table_count b * fat_size32 b.

(** What is in the cache is what is on the disk, and belongs to a copy of the table. *)
Definition agrees (l : list Z) (e : cache_entry) : Prop :=
  ce_valid e = true -> fat_sector_ok (ce_sector e) /\ (ce_sector e + 1) * bps <= zlen l /\ ce_data e = slice (ce_sector e * bps) bps l.

Record fs_ok s : Prop := {
  ok_fits : fits s;
  ok_slots : length (fs_cache s) = FAT_CACHE_SIZE;
  ok_cache : Forall (agrees (image s)) (fs_cache s)
}.

(** Reading leaves everything but the cache and its statistics alone. *)
Definition only_cache s s' : Prop :=
  fs_dev s' = fs_dev s /\ fs_free s' = fs_free s /\ fs_next s' = fs_next s /\ fs_allocs s' = fs_allocs s.

Lemma only_cache_refl s : only_cache s s.
Proof. done. Qed.

Lemma only_cache_trans s1 s2 s3 : only_cache s1 s2 -> only_cache s2 s3 -> only_cache s1 s3.
Proof. unfold only_cache. intuition congruence. Qed.

#[local] Instance only_cache_preorder : PreOrder only_cache.
Proof. split; [exact only_cache_refl|exact only_cache_trans]. Qed.

Lemma bps_pos : 0 < bps.
Proof. by destruct Hg as [[[? ?] ?] _ _ _ _ _ _]. Qed.

Lemma touch_agrees l sector counter c : Forall (agrees l) c -> Forall (agrees l) (touch sector counter c).
Proof.
  induction 1 as [|e c He Hc IH]; cbn; [constructor|]. destruct (is_cached sector e); constructor; done.
Qed.

Lemma touch_length sector counter c : length (touch sector counter c) = length c.
Proof. induction c as [|e c IH]; cbn; [done|]. destruct (is_cached sector e); cbn; congruence. Qed.

Lemma drop_agrees l p c : Forall (agrees l) c -> Forall (agrees l) (drop_sector p c).
Proof.
  intros Hc. apply Forall_fmap. eapply Forall_impl; [exact Hc|]. intros e He. cbn. by destruct (ce_valid e && p (ce_sector e)) eqn:E.
Qed.

Lemma find_cached sector c e :
  List.find (is_cached sector) c = Some e -> e ∈ c /\ ce_valid e = true /\ ce_sector e = sector.
Proof.
  intros [He%list_elem_of_In Hc]%find_some. unfold is_cached in Hc. apply andb_true_iff in Hc as [Hv Hs%Z.eqb_eq]. done.
Qed.

(** Through the cache or from the disk, the same bytes. *)
Lemma read_fat_sector_ok s sector :
  fs_ok s -> fat_sector_ok sector -> (sector + 1) * bps <= zlen (image s) ->
  exists s', read_fat_sector b sector s = Done (Some (slice (sector * bps) bps (image s))) s' /\ only_cache s s' /\ fs_ok s'.
Proof.
  intros Hok Hs Hr. pose proof bps_pos as Hb. pose proof Hok as [Hf Hsl Hc].
  unfold read_fat_sector. mstep. destruct (List.find _ _) as [e|] eqn:Hfind.
  - apply find_cached in Hfind as (He & Hv & Hsec). mstep. unfold put. eexists. split; [|split].
    + rewrite Forall_forall in Hc. destruct (Hc e He Hv) as (_ & _ & Hd). subst sector. rewrite Hd.
      unfold slice. by rewrite take_take, Nat.min_id.
    + done.
    + split; cbn; [done|by rewrite touch_length|by apply touch_agrees].
  - unfold put, device_read. mstep. cbn [fs_dev set_stats].
    destruct (disk_read (fs_dev s) sector 1) as (r & Hr0 & ->); [destruct Hg; unfold fat_sector_ok in Hs; lia|lia|exact Hr|]. rewrite (proj2 (Z.eqb_neq _ _)) by lia. mstep.
    destruct Hg as [[[_ H512] _] _ _ _ _ _ _]. rewrite (proj2 (Z.ltb_ge _ _)) by done. unfold modify. mstep.
    rewrite Z.mul_1_l. fold (image s).
    assert (take (Z.to_nat bps) (slice (sector * bps) bps (image s)) = slice (sector * bps) bps (image s)) as ->.
    { unfold slice. by rewrite take_take, Nat.min_id. }
    eexists. split; [reflexivity|]. split; [done|]. split; cbn; [done|by rewrite length_insert|].
    apply Forall_insert; [done|]. intros _. cbn. done.
Qed.
(** ** Entries *)

Definition fat_ok (fat : Z) : Prop := 0 <= fat < table_count b.

Lemma entry_fits s fat c :
  fits s -> fat_ok fat -> cluster_ok b c ->
  0 < entry_pos b fat c /\ entry_pos b fat c + 4 <= zlen (image s) /\
  (u32 (reserved_sector_count b + fat * fat_size32 b + sector_offset b c) + 1) * bps <= zlen (image s).
Proof.
  intros Hf Hfat Hc. destruct (entry_place b Hg fat c Hfat Hc) as (E1 & E2 & E3 & E4 & E5 & E6 & E7 & E8 & E9).
  pose proof bps_pos. unfold fits in Hf. assert ((u32 (reserved_sector_count b + fat * fat_size32 b + sector_offset b c) + 1) * bps <=
    (reserved_sector_count b + table_count b * fat_size32 b) * bps) by (apply Z.mul_le_mono_nonneg_r; lia).
  rewrite <- E5. split_and!; lia.
Qed.

(** Different entries do not overlap. *)
Lemma entries_apart fat c fat' c' :
  fat_ok fat -> cluster_ok b c -> fat_ok fat' -> cluster_ok b c' -> (fat, c) <> (fat', c') ->
  entry_pos b fat c + 4 <= entry_pos b fat' c' \/ entry_pos b fat' c' + 4 <= entry_pos b fat c.
Proof.
  intros Hf Hc Hf' Hc' Hne. destruct Hg. unfold entry_pos, cluster_ok, fat_ok in *.
  destruct (Z.lt_trichotomy fat fat') as [Hlt|[->|Hlt]].
  - left. assert ((fat + 1) * fat_size32 b * bps <= fat' * fat_size32 b * bps) by (apply Z.mul_le_mono_nonneg_r; nia). nia.
  - assert (c <> c') by congruence. lia.
  - right. assert ((fat' + 1) * fat_size32 b * bps <= fat * fat_size32 b * bps) by (apply Z.mul_le_mono_nonneg_r; nia). nia.
Qed.

Lemma read_entry_ok s fat c :
  fs_ok s -> fat_ok fat -> cluster_ok b c ->
  exists s', read_fat_entry_raw b (u32 (reserved_sector_count b + fat * fat_size32 b + sector_offset b c)) (offset_in_sector b c) s =
      Done (word_at (image s) (entry_pos b fat c)) s' /\ only_cache s s' /\ fs_ok s'.
Proof.
  intros Hok Hf Hc. destruct (entry_place b Hg fat c Hf Hc) as (E1 & E2 & E3 & E4 & E5 & E6 & E7 & E8 & E9).
  destruct (entry_fits s fat c (ok_fits _ Hok) Hf Hc) as (F1 & F2 & F3).
  unfold read_fat_entry_raw. rewrite E6. mstep.
  assert (fat_sector_ok (u32 (reserved_sector_count b + fat * fat_size32 b + sector_offset b c))) as Hsec.
  { destruct Hg. unfold fat_sector_ok, fat_ok in *. assert (0 <= fat * fat_size32 b) by nia. lia. }
  destruct (read_fat_sector_ok s _ Hok Hsec F3) as (s' & -> & Hs & Hok'). exists s'. split; [|done].
  mstep. pose proof bps_pos. rewrite word_in_slice, E5 by lia. done.
Qed.

(** The entry of a cluster in a copy of the table. *)
Definition ent s (fat c : Z) : Z := Z.land (word_at (image s) (entry_pos b fat c)) 0x0FFFFFFF.

Lemma land_28 x : 0 <= Z.land x 0x0FFFFFFF < 2 ^ 28.
Proof. change 0x0FFFFFFF with (Z.ones 28). rewrite Z.land_ones by lia. apply Z.mod_pos_bound. lia. Qed.

Lemma land_28_idem x : Z.land (Z.land x 0x0FFFFFFF) 0x0FFFFFFF = Z.land x 0x0FFFFFFF.
Proof. by rewrite <- Z.land_assoc. Qed.

Definition valid_at s c : Prop := is_valid_fat_entry b (ent s 0 c) = true.

Lemma get_fat_entry_ok fuel s c :
  fs_ok s -> cluster_ok b c -> valid_at s c ->
  exists s', get_fat_entry b (S fuel) c s = Done (ent s 0 c) s' /\ only_cache s s' /\ fs_ok s'.
Proof.
  intros Hok Hc Hv. cbn [get_fat_entry]. rewrite (proj2 (out_of_range b Hg c) Hc).
  destruct (read_entry_ok s 0 c Hok) as (s' & E & Hs & Hok'); [destruct Hg; unfold fat_ok; lia|done|].
  rewrite Z.mul_0_l, Z.add_0_r in E. rewrite bind_run, E. fold (ent s 0 c). unfold valid_at in Hv. rewrite Hv. by exists s'.
Qed.
(** ** Device calls *)

Lemma device_read_ok s lba n :
  0 <= lba -> 0 < n -> (lba + n) * bps <= zlen (image s) ->
  device_read lba n s = Done (Some (slice (lba * bps) (n * bps) (image s))) s.
Proof.
  intros H1 H2 H3. unfold device_read. destruct (disk_read (fs_dev s) lba n) as (r & Hr & ->); [done..|].
  rewrite (proj2 (Z.eqb_neq _ _)) by lia. by destruct s.
Qed.

Lemma device_write_ok s lba n buf :
  0 <= lba -> 0 < n -> (lba + n) * bps <= zlen (image s) -> zlen buf = n * bps ->
  exists d', device_write lba n buf s = Done true (set_dev d' s) /\ img d' = splice (lba * bps) buf (image s).
Proof.
  intros H1 H2 H3 H4. unfold device_write. destruct (disk_write (fs_dev s) lba n buf) as (r & d' & Hr & -> & Hd); [done..|].
  rewrite (proj2 (Z.eqb_neq _ _)) by lia. by exists d'.
Qed.

(** ** Writing entries *)

(** After a write to the image, what a cache entry for another place says still
    holds. *)
Lemma agrees_splice l p x e :
  0 <= p -> p + zlen x <= zlen l -> agrees l e ->
  (ce_valid e = true -> (ce_sector e + 1) * bps <= p \/ p + zlen x <= ce_sector e * bps) -> agrees (splice p x l) e.
Proof.
  intros Hp Hx Ha Hout Hv. destruct (Ha Hv) as (H1 & H2 & H3). pose proof bps_pos. rewrite splice_length by lia.
  split_and!; [done..|]. destruct Hg. unfold fat_sector_ok in H1. rewrite slice_splice_out; [done|done|done|nia|]. destruct (Hout Hv); lia.
Qed.

(** A write of sectors, with the caches of these sectors dropped. *)
Lemma dropped_agree l p x c (drop : Z -> bool) :
  0 <= p -> p + zlen x <= zlen l -> Forall (agrees l) c ->
  (forall sec, drop sec = false -> 0 <= sec -> (sec + 1) * bps <= p \/ p + zlen x <= sec * bps) ->
  Forall (agrees (splice p x l)) (drop_sector drop c).
Proof.
  intros Hp Hx Hc Hd. apply Forall_fmap. eapply Forall_impl; [exact Hc|]. intros e He. cbn.
  destruct (ce_valid e && drop (ce_sector e)) eqn:E; [done|]. apply agrees_splice; try done.
  intros Hv. rewrite Hv in E. apply Hd; [done|]. destruct (He Hv) as [[? _] _], Hg. lia.
Qed.

Definition only_disk s s' : Prop := fs_free s' = fs_free s /\ fs_next s' = fs_next s /\ fs_allocs s' = fs_allocs s.

#[local] Instance only_disk_preorder : PreOrder only_disk.
Proof. split; [done|]. unfold only_disk. intros ???. intuition congruence. Qed.

Lemma cache_disk s s' : only_cache s s' -> only_disk s s'.
Proof. by intros (_ & ?). Qed.

Lemma write_entry_ok s fat c v :
  fs_ok s -> fat_ok fat -> cluster_ok b c ->
  exists s', write_fat_entry_raw b (u32 (reserved_sector_count b + fat * fat_size32 b + sector_offset b c)) (offset_in_sector b c) v s =
      Done true s' /\ image s' = set_word (image s) (entry_pos b fat c) v /\ only_disk s s' /\ fs_ok s'.
Proof.
  intros Hok Hf Hc. destruct (entry_place b Hg fat c Hf Hc) as (E1 & E2 & E3 & E4 & E5 & E6 & E7 & E8 & E9).
  destruct (entry_fits s fat c (ok_fits _ Hok) Hf Hc) as (F1 & F2 & F3). pose proof bps_pos as Hb.
  set (sector := u32 _) in *. unfold write_fat_entry_raw. rewrite E6. mstep.
  rewrite device_read_ok by (lia || exact F3). mstep. rewrite Z.mul_1_l.
  assert (zlen (slice (sector * bps) bps (image s)) = bps) as Hsl by (apply slice_length; lia).
  destruct (device_write_ok s sector 1 (set_word (slice (sector * bps) bps (image s)) (offset_in_sector b c) v))
    as (d' & -> & Hd'); [lia|lia|exact F3|rewrite set_word_length; lia|].
  change (1 =? 2) with false. unfold invalidate_fat_cache_sector, modify. mstep.
  assert (img d' = set_word (image s) (entry_pos b fat c) v) as Himg.
  { rewrite Hd', !set_word_splice, splice_slice, E5 by (rewrite ?length_to_le; lia). done. }
  eexists. split; [reflexivity|]. split; [exact Himg|]. split; [done|]. destruct Hok as [Hfit Hslots Hcache]. split.
  - unfold fits, image in *. cbn. rewrite Himg. fold (image s) in *. by rewrite set_word_length by lia.
  - cbn. unfold drop_sector. by rewrite length_fmap.
  - unfold image at 1. cbn [fs_dev set_cache set_dev fs_cache]. rewrite Himg, set_word_splice.
    apply dropped_agree; [lia|rewrite length_to_le; lia|done|]. intros sec Hne%Z.eqb_neq H0. rewrite length_to_le. destruct (decide (sec < sector)); [left|right]; nia.
Qed.

(** The copies in turn. *)
Lemma write_copies_ok c v fats : forall s,
  fs_ok s -> cluster_ok b c -> Forall fat_ok fats ->
  exists s', write_copies b fats c v s = Done true s' /\
    image s' = foldl (fun l fat => set_word l (entry_pos b fat c) v) (image s) fats /\ only_disk s s' /\ fs_ok s'.
Proof.
  induction fats as [|fat fats IH]; intros s Hok Hc Hfats; cbn [write_copies foldl]; [exists s; split_and!; done|].
  apply Forall_cons in Hfats as [Hf Hfats]. rewrite fat_base_ok by done.
  destruct (write_entry_ok s fat c v Hok Hf Hc) as (s1 & E & I1 & O1 & Hok1). rewrite bind_run, E.
  destruct (IH s1 Hok1 Hc Hfats) as (s' & E' & I' & O' & Hok'). exists s'. rewrite <- I1. split_and!; [done..| |done].
  by transitivity s1.
Qed.

(** ** Many entries at once *)

Definition set_entries (ps : list (Z * Z)) (v : Z) (l : list Z) : list Z :=
  foldl (fun l '(fat, c) => set_word l (entry_pos b fat c) v) l ps.

Definition pair_ok (p : Z * Z) : Prop := fat_ok (fst p) /\ cluster_ok b (snd p).

(** The bytes of the entries. *)
Definition in_entry (ps : list (Z * Z)) (i : nat) : Prop :=
  exists fat c, (fat, c) ∈ ps /\ entry_pos b fat c <= Z.of_nat i < entry_pos b fat c + 4.

Lemma set_entries_ok ps v l :
  Forall pair_ok ps -> (forall fat c, fat_ok fat -> cluster_ok b c -> entry_pos b fat c + 4 <= zlen l) -> 0 <= v < 2 ^ 32 ->
  length (set_entries ps v l) = length l /\
  (forall fat c, fat_ok fat -> cluster_ok b c ->
     word_at (set_entries ps v l) (entry_pos b fat c) = if decide ((fat, c) ∈ ps) then v else word_at l (entry_pos b fat c)) /\
  (forall i, ~ in_entry ps i -> set_entries ps v l !! i = l !! i).
Proof.
  intros Hps Hl Hv. induction ps as [|[fat c] ps IH] using rev_ind; [done|].
  apply Forall_app in Hps as [Hps [[Hf Hc] _]%Forall_cons]. cbn in Hf, Hc. destruct (IH Hps) as (L & W & R).
  unfold set_entries in *. rewrite foldl_app. cbn [foldl]. set (l1 := foldl _ l ps) in *.
  assert (0 <= entry_pos b fat c) as Hp by (destruct Hg; unfold entry_pos, fat_ok, cluster_ok in *; nia).
  pose proof (Hl fat c Hf Hc) as Hlen. split_and!.
  - rewrite set_word_length; lia.
  - intros fat' c' Hf' Hc'. assert (0 <= entry_pos b fat' c') as Hp' by (destruct Hg; unfold entry_pos, fat_ok, cluster_ok in *; nia).
    destruct (decide ((fat', c') = (fat, c))) as [[= -> ->]|Hne].
    + rewrite word_set_same by lia. rewrite Z.mod_small by done. rewrite decide_True; [done|set_solver].
    + pose proof (entries_apart fat' c' fat c Hf' Hc' Hf Hc Hne). rewrite word_set_out by lia. rewrite W by done.
      apply decide_ext. set_solver.
  - intros i Hi. rewrite set_word_lookup; [|lia|lia|].
    + apply R. intros (f & x & Hin & Hx). apply Hi. exists f, x. split; [set_solver|done].
    + intros Hx. apply Hi. exists fat, c. split; [set_solver|done].
Qed.

Lemma copies_entries (c v : Z) fats l :
  foldl (fun l fat => set_word l (entry_pos b fat c) v) l fats = set_entries ((fun fat => (fat, c)) <$> fats) v l.
Proof. revert l. induction fats as [|fat fats IH]; intros l; [done|]. cbn. apply IH. Qed.

Lemma all_fits s : fits s -> forall fat c, fat_ok fat -> cluster_ok b c -> entry_pos b fat c + 4 <= zlen (image s).
Proof. intros Hf fat c Hfat Hc. by destruct (entry_fits s fat c Hf Hfat Hc) as (_ & ? & _). Qed.

(** Every copy of the table. *)
Definition all_fats : list Z := seqZ 0 (table_count b).

Lemma all_fats_ok : Forall fat_ok all_fats.
Proof. apply Forall_forall. intros f Hf%elem_of_seqZ. unfold fat_ok. lia. Qed.

Lemma elem_all_fats (fat c c' : Z) : fat_ok fat -> (fat, c') ∈ ((fun f => (f, c)) <$> all_fats) <-> c' = c.
Proof.
  intros Hf. rewrite list_elem_of_fmap. split; [by intros (f & [= _ ->] & _)|]. intros ->. exists fat. split; [done|].
  apply elem_of_seqZ. unfold fat_ok in Hf. lia.
Qed.

(** [s'] differs from [s] in the entries of the clusters [cs], now [v] in every
    copy, and in no other byte of the disk. *)
Record entries_written (cs : Z -> Prop) (v : Z) s s' : Prop := {
  ew_length : length (image s') = length (image s);
  ew_in fat c : fat_ok fat -> cluster_ok b c -> cs c -> word_at (image s') (entry_pos b fat c) = v;
  ew_out fat c : fat_ok fat -> cluster_ok b c -> ~ cs c -> word_at (image s') (entry_pos b fat c) = word_at (image s) (entry_pos b fat c);
  ew_rest i : (forall fat c, fat_ok fat -> cluster_ok b c -> cs c -> ~ (entry_pos b fat c <= Z.of_nat i < entry_pos b fat c + 4)) ->
    image s' !! i = image s !! i
}.

Lemma ew_ent cs v s s' fat c :
  entries_written cs v s s' -> fat_ok fat -> cluster_ok b c ->
  (cs c -> ent s' fat c = Z.land v 0x0FFFFFFF) /\ (~ cs c -> ent s' fat c = ent s fat c).
Proof. intros Hw Hf Hc. unfold ent. split; intros H; [by rewrite (ew_in _ _ _ _ Hw)|by rewrite (ew_out _ _ _ _ Hw)]. Qed.

Lemma set_copies_written s s' c v :
  fits s -> cluster_ok b c -> 0 <= v < 2 ^ 32 -> image s' = set_entries ((fun fat => (fat, c)) <$> all_fats) v (image s) ->
  entries_written (fun c' => c' = c) v s s'.
Proof.
  intros Hfit Hc Hv Himg. destruct (set_entries_ok ((fun fat => (fat, c)) <$> all_fats) v (image s)) as (L & W & R);
    [|by apply all_fits|done|].
  { apply Forall_fmap. eapply Forall_impl; [apply all_fats_ok|]. intros f Hf. by split. }
  rewrite <- Himg in *. split; [done| | |].
  - intros fat c' Hf Hc' ->. rewrite W, decide_True by (done || by apply elem_all_fats). done.
  - intros fat c' Hf Hc' Hne. rewrite W, decide_False by (done || by rewrite elem_all_fats). done.
  - intros i Hi. apply R. intros (fat & c' & (f & [= <- <-] & Hf)%list_elem_of_fmap & Hx). apply (Hi fat c'); try done.
    pose proof all_fats_ok as Ha. rewrite Forall_forall in Ha. by apply Ha.
Qed.
End cached.
