(* ===== verification/FatTable.v ===== *)
(** * The file allocation table: entries, free clusters and loops

    Writing an entry, the count of free clusters, the search for a free one, and
    the detection of loops, over a healthy table. *)

From Stdlib Require Import ZArith Lia.
From stdpp Require Import base tactics gmap numbers list.
From S2P Require Import Prelude.
From S2P Require Import Memory.
From S2P Require Import Slices.
From S2P Require Import Fat.
From S2P Require Import FatFacts.

(** ** Loops

    A successor function on a range, 0 at the end: the tortoise and the hare. *)

Section floyd.
Context (f : Z -> Z) (lo n : Z) (start : Z).
Definition in_range (c : Z) : Prop := lo <= c < lo + n.
Hypothesis (Hlo : 0 < lo) (Hend : f 0 = 0) (Hrange : forall c, in_range c -> f c = 0 \/ in_range (f c)) (Hstart : in_range start).

(** The [k]-th cluster after [start]. *)
Definition after (k : nat) : Z := Nat.iter k f start.

Lemma after_range k : after k = 0 \/ in_range (after k).
Proof.
  induction k as [|k IH]; [by right|]. change (after (S k)) with (f (after k)). destruct IH as [->|H]; [by left|auto].
Qed.

Lemma after_end k j : after k = 0 -> after (k + j) = 0.
Proof.
  intros Hk. induction j as [|j IH]; [by rewrite Nat.add_0_r|].
  rewrite Nat.add_succ_r. change (after (S (k + j))) with (f (after (k + j))). by rewrite IH.
Qed.

Lemma after_repeat i p k : after i = after (i + p) -> (i <= k)%nat -> after (k + p) = after k.
Proof.
  intros Hi Hk. induction Hk as [|k Hk IH]; [done|]. change (f (after (k + p)) = f (after k)). by rewrite IH.
Qed.

(** Either the chain ends within [n] steps, or two of the first [n + 1] clusters agree. *)
Lemma end_or_repeat :
  (exists k, (k <= Z.to_nat n)%nat /\ after k = 0) \/ (exists i p, (0 < p)%nat /\ (i + p <= Z.to_nat n)%nat /\ after i = after (i + p)).
Proof.
  set (l := after <$> seq 0 (S (Z.to_nat n))). destruct (decide (0 ∈ l)) as [(k & Hk & Hin%elem_of_seq)%list_elem_of_fmap|H0].
  { left. exists k. split; [lia|done]. }
  right. assert (~ NoDup l) as Hnd.
  { intros Hnd. assert (length l <= length (seqZ lo n))%nat as Hlen.
    { apply submseteq_length, NoDup_submseteq; [done|]. intros x Hx. apply elem_of_seqZ.
      apply list_elem_of_fmap in Hx as (k & -> & Hk). destruct (after_range k) as [Hz|Hr]; [|done].
      exfalso. apply H0. apply list_elem_of_fmap. by exists k. }
    unfold l in Hlen. rewrite length_fmap, length_seq, length_seqZ in Hlen. lia. }
  assert (exists i j x, l !! i = Some x /\ l !! j = Some x /\ (i < j)%nat) as (i & j & x & Hi & Hj & Hlt).
  { destruct (decide (Exists (fun i => Exists (fun j => (i < j)%nat /\ l !! i = l !! j) (seq 0 (length l))) (seq 0 (length l)))) as [He|Hne].
    - apply Exists_exists in He as (i & Hi%elem_of_seq & He). apply Exists_exists in He as (j & Hj%elem_of_seq & Hlt & Heq).
      destruct (l !! i) as [x|] eqn:Hx; [|apply lookup_ge_None in Hx; lia]. by exists i, j, x.
    - exfalso. apply Hnd. apply NoDup_alt. intros i j x Hi Hj.
      pose proof (lookup_lt_Some _ _ _ Hi). pose proof (lookup_lt_Some _ _ _ Hj).
      destruct (Nat.lt_trichotomy i j) as [Hlt|[->|Hlt]]; [|done|]; exfalso; apply Hne; apply Exists_exists.
      + exists i. split; [apply elem_of_seq; lia|]. apply Exists_exists. exists j. split; [apply elem_of_seq; lia|]. split; [done|congruence].
      + exists j. split; [apply elem_of_seq; lia|]. apply Exists_exists. exists i. split; [apply elem_of_seq; lia|]. split; [done|congruence]. }
  apply list_lookup_fmap_Some in Hi as (i' & -> & Hi%lookup_seq). apply list_lookup_fmap_Some in Hj as (j' & Hx & Hj%lookup_seq).
  exists i, (j - i)%nat. split_and!; [lia|lia|]. replace (i + (j - i))%nat with j by lia. destruct Hi as [-> ?], Hj as [-> ?]. done.
Qed.

(** On a loop the hare meets the tortoise within [n] steps. *)
Lemma meet i p :
  (0 < p)%nat -> (i + p <= Z.to_nat n)%nat -> after i = after (i + p) ->
  exists m, (0 < m <= Z.to_nat n)%nat /\ after m = after (m + m).
Proof.
  intros Hp Hn Hrep. assert (forall q k, (i <= k)%nat -> after (k + q * p) = after k) as Hq.
  { induction q as [|q IH]; intros k Hk; [f_equal; lia|]. replace (k + S q * p)%nat with ((k + q * p) + p)%nat by lia.
    rewrite (after_repeat i p) by (done || lia). by apply IH. }
  set (q := (i / p + 1)%nat). assert (i < q * p <= i + p)%nat as Hqp.
  { unfold q. pose proof (Nat.div_mod i p ltac:(lia)). pose proof (Nat.mod_upper_bound i p ltac:(lia)). lia. }
  exists (q * p)%nat. split; [lia|]. symmetry. apply Hq. lia.
Qed.

(** A chain that repeats a cluster does not end. *)
Lemma repeats_forever i p : (0 < p)%nat -> after i <> 0 -> after i = after (i + p) -> forall k, after k <> 0.
Proof.
  intros Hp Hi Hrep k Hk. assert (forall q, after (i + q * p) = after i) as Hq.
  { induction q as [|q IH]; [f_equal; lia|]. replace (i + S q * p)%nat with ((i + q * p) + p)%nat by lia.
    rewrite (after_repeat i p) by (done || lia). done. }
  apply Hi. rewrite <- (Hq k). replace (i + k * p)%nat with (k + (i + k * p - k))%nat by nia. by apply after_end.
Qed.

Lemma ends_soon k : after k = 0 -> exists j, (j <= Z.to_nat n)%nat /\ after j = 0.
Proof.
  intros Hk. destruct end_or_repeat as [?|(i & p & Hp & Hi & He)]; [done|].
  destruct (decide (after i = 0)) as [H0|H0]; [exists i; split; [lia|done]|]. by destruct (repeats_forever i p Hp H0 He k).
Qed.
End floyd.

(** ** Counting with a predicate *)

Lemma filter_ext_in (P Q : Z -> Prop) `{!forall c, Decision (P c), !forall c, Decision (Q c)} (l : list Z) :
  (forall c, c ∈ l -> P c <-> Q c) -> filter P l = filter Q l.
Proof.
  induction l as [|x l IH]; intros Heq; [done|]. rewrite !filter_cons, IH by set_solver.
  rewrite (decide_ext (P x) (Q x)) by (apply Heq; set_solver). done.
Qed.

(** Changing a predicate at one place. *)
Lemma count_change (P Q : Z -> Prop) `{!forall c, Decision (P c), !forall c, Decision (Q c)} (c : Z) (l : list Z) :
  NoDup l -> c ∈ l -> (forall c', c' ∈ l -> c' <> c -> P c' <-> Q c') ->
  zlen (filter Q l) = zlen (filter P l) + (if decide (Q c) then 1 else 0) - (if decide (P c) then 1 else 0).
Proof.
  intros Hnd Hc Hpq. induction Hnd as [|x l Hx Hnd IH]; [by apply not_elem_of_nil in Hc|].
  rewrite !filter_cons. destruct (decide (x = c)) as [->|Hne].
  - assert (filter Q l = filter P l) as ->.
    { apply filter_ext_in. intros y Hy. symmetry. apply Hpq; [set_solver|by intros ->]. }
    repeat case_decide; cbn; lia.
  - apply elem_of_cons in Hc as [->|Hc]; [done|]. rewrite (decide_ext (Q x) (P x)) by (symmetry; apply Hpq; [set_solver|done]).
    specialize (IH Hc ltac:(intros; apply Hpq; set_solver)).
    destruct (decide (P x)); cbn [length]; lia.
Qed.

Section table.
Context {D : Type} `{!BlockDevice D} (b : bpb) `{!Disk D (bytes_per_sector b)}.
Hypothesis (Hg : geo_ok b).
Implicit Types (s : fs D).

(** ** The count of free clusters *)

Definition clusters : list Z := seqZ 2 (cluster_count b).

Lemma elem_clusters c : c ∈ clusters <-> cluster_ok b c.
Proof. unfold clusters, cluster_ok. rewrite elem_of_seqZ. lia. Qed.

Definition free_count s : Z := zlen (filter (fun c => ent b s 0 c = 0) clusters).

(** [free_cluster_count] is unknown, or right. *)
Definition counted s : Prop := fs_free s = U32_MAX \/ fs_free s = free_count s.

Lemma count_bound (P : Z -> Prop) `{!forall c, Decision (P c)} : 0 <= zlen (filter P clusters) <= cluster_count b.
Proof.
  pose proof (length_filter P clusters). unfold clusters in *. rewrite length_seqZ in *. destruct Hg. lia.
Qed.

(** ** Writing an entry *)

Lemma mask_range v : 0 <= Z.land v 0x0FFFFFFF < 2 ^ 32.
Proof. pose proof (land_28 v). lia. Qed.

Lemma ok_same s s' : fs_dev s' = fs_dev s -> fs_cache s' = fs_cache s -> fs_ok b s -> fs_ok b s'.
Proof. intros Hd Hc []. split; unfold fits, image in *; rewrite ?Hd, ?Hc; done. Qed.

Lemma ent_same s s' fat c : fs_dev s' = fs_dev s -> ent b s' fat c = ent b s fat c.
Proof. unfold ent, image. by intros ->. Qed.

Lemma written_same cs v s s1 s2 : fs_dev s2 = fs_dev s1 -> entries_written b cs v s s1 -> entries_written b cs v s s2.
Proof. intros Hd []. split; unfold image in *; by rewrite ?Hd. Qed.

Definition new_free (old value n : Z) : Z :=
  if n =? U32_MAX then n
  else if (old =? 0) && negb (value =? 0) then u32 (n - 1)
  else if negb (old =? 0) && (value =? 0) then u32 (n + 1)
  else n.

Lemma write_fat_entry_ok fuel s c v :
  fs_ok b s -> cluster_ok b c -> valid_at b s c ->
  exists s', write_fat_entry b (S fuel) c v s = Done true s' /\
    entries_written b (fun c' => c' = c) (Z.land v 0x0FFFFFFF) s s' /\
    fs_free s' = new_free (ent b s 0 c) (Z.land v 0x0FFFFFFF) (fs_free s) /\
    fs_next s' = fs_next s /\ fs_allocs s' = fs_allocs s /\ fs_ok b s'.
Proof.
  intros Hok Hc Hv. unfold write_fat_entry, write_fat_entry_with. cbv zeta.
  destruct (get_fat_entry_ok b Hg fuel s c Hok Hc Hv) as (s1 & E1 & O1 & Hok1). rewrite bind_run, E1. cbv zeta.
  destruct (write_copies_ok b Hg c (Z.land v 0x0FFFFFFF) (all_fats b) s1 Hok1 Hc (all_fats_ok b)) as (s2 & E2 & I2 & O2 & Hok2).
  unfold all_fats in E2. rewrite bind_run, E2. cbn [negb]. rewrite copies_entries in I2.
  assert (entries_written b (fun c' => c' = c) (Z.land v 0x0FFFFFFF) s s2) as Hw.
  { eapply set_copies_written; try done; [apply Hok|apply mask_range|]. rewrite I2. unfold image. by destruct O1 as (-> & _). }
  unfold ent in *. rewrite land_28_idem. fold (ent b s 0 c). unfold modify. mstep. eexists. split; [reflexivity|].
  destruct O1 as (D1 & F1 & N1 & A1), O2 as (F2 & N2 & A2). unfold new_free. rewrite <- F1, <- F2. match goal with |- entries_written _ _ _ _ ?x /\ _ => set (s3 := x) end.
  assert (fs_dev s3 = fs_dev s2 /\ fs_cache s3 = fs_cache s2 /\ fs_next s3 = fs_next s2 /\ fs_allocs s3 = fs_allocs s2) as (D3 & C3 & N3 & A3).
  { unfold s3. by destruct (fs_free s2 =? U32_MAX), (ent b s 0 c =? 0), (Z.land v 0x0FFFFFFF =? 0). }
  split_and!; [by eapply written_same| |congruence|congruence|by eapply ok_same].
  unfold s3. by destruct (fs_free s2 =? U32_MAX), (ent b s 0 c =? 0), (Z.land v 0x0FFFFFFF =? 0).
Qed.

(** The count stays right. *)
Lemma write_counted s s' c v :
  cluster_ok b c -> counted s -> entries_written b (fun c' => c' = c) (Z.land v 0x0FFFFFFF) s s' ->
  fs_free s' = new_free (ent b s 0 c) (Z.land v 0x0FFFFFFF) (fs_free s) -> counted s'.
Proof.
  intros Hc Hcnt Hw Hf. assert (fat_ok b 0) as H0 by (destruct Hg; unfold fat_ok; lia).
  pose proof (ew_ent b _ _ _ _ 0 c Hw H0 Hc) as [Hin _]. rewrite land_28_idem in Hin. specialize (Hin eq_refl).
  assert (free_count s' = free_count s + (if decide (ent b s' 0 c = 0) then 1 else 0) - (if decide (ent b s 0 c = 0) then 1 else 0)) as Hcount.
  { unfold free_count. refine (count_change (fun x => ent b s 0 x = 0) (fun x => ent b s' 0 x = 0) c clusters (NoDup_seqZ _ _) (proj2 (elem_clusters c) Hc) _).
    intros c' Hc'%elem_clusters Hne. by rewrite (proj2 (ew_ent b _ _ _ _ 0 c' Hw H0 Hc')). }
  rewrite Hin in Hcount.
  pose proof (count_bound (fun x => ent b s 0 x = 0)) as B1. pose proof (count_bound (fun x => ent b s' 0 x = 0)) as B2.
  fold (free_count s) in B1. fold (free_count s') in B2. destruct Hg. unfold counted, new_free, U32_MAX in *.
  rewrite Hf. zcase; [by left|right]. destruct Hcnt as [|Hcnt]; [done|]. rewrite Hcnt in *.
  destruct (Z.eqb_spec (ent b s 0 c) 0), (Z.eqb_spec (Z.land v 0x0FFFFFFF) 0); cbn [andb negb]; repeat case_decide; try done;
    rewrite ?u32_id; lia.
Qed.

(** ** Following a chain *)

(** Every entry of the first copy is one the code accepts. *)
Definition healthy s : Prop := forall c, cluster_ok b c -> valid_at b s c.

(** The cluster after [c]; 0 at the end of a chain. *)
Definition nxt s (c : Z) : Z :=
  if decide (2 <= c < cluster_count b + 2) then
    if ends_chain (ent b s 0 c) then 0 else ent b s 0 c
  else 0.

Lemma nxt_same s s' c : fs_dev s' = fs_dev s -> nxt s' c = nxt s c.
Proof. intros Hd. unfold nxt. by rewrite (ent_same s s'). Qed.

Lemma nxt_0 s : nxt s 0 = 0.
Proof. done. Qed.

Lemma nxt_range s c : healthy s -> nxt s c = 0 \/ in_range 2 (cluster_count b) (nxt s c).
Proof.
  intros Hh. unfold nxt. case_decide as Hc; [|by left]. specialize (Hh c Hc). unfold valid_at, is_valid_fat_entry in Hh.
  unfold ent in *. rewrite land_28_idem in Hh. fold (ent b s 0 c) in *. rewrite limit_ok in Hh by done.
  destruct (ends_chain (ent b s 0 c)) eqn:He; [by left|right]. unfold ends_chain in He.
  repeat (apply orb_false_iff in He as [He ?]). unfold in_range.
  destruct (Z.eqb_spec (ent b s 0 c) 0); [done|]. destruct (Z.leb_spec 0x0FFFFFF8 (ent b s 0 c)); [done|].
  destruct (Z.eqb_spec (ent b s 0 c) 0x0FFFFFF7); [done|]. destruct (Z.ltb_spec (ent b s 0 c) 2); [done|].
  destruct (Z.leb_spec (cluster_count b + 2) (ent b s 0 c)); [done|]. lia.
Qed.

Lemma healthy_same s s' : fs_dev s' = fs_dev s -> healthy s -> healthy s'.
Proof. intros Hd Hh c Hc. unfold valid_at. rewrite (ent_same s s') by done. by apply Hh. Qed.

Lemma next_cluster_ok fuel s c :
  fs_ok b s -> healthy s -> exists s', next_cluster b (S fuel) c s = Done (nxt s c) s' /\ only_cache s s' /\ fs_ok b s'.
Proof.
  intros Hok Hh. unfold next_cluster. destruct (orb _ _) eqn:Hc.
  - exists s. split_and!; [|done..]. unfold nxt. rewrite decide_False; [done|].
    apply orb_true_iff in Hc. rewrite limit_ok, Z.ltb_lt, Z.leb_le in Hc by done. lia.
  - apply out_of_range in Hc; [|done]. mstep. destruct (get_fat_entry_ok b Hg fuel s c Hok Hc (Hh c Hc)) as (s' & -> & O & Hok').
    exists s'. split_and!; [|done..]. mstep. f_equal. unfold nxt. rewrite decide_True by done. unfold ends_chain.
    by destruct (0x0FFFFFF8 <=? _), (_ =? 0), (_ =? 1), (_ =? 0x0FFFFFF7).
Qed.

(** The tortoise and the hare decide, within as many rounds as there are
    clusters, whether the chain ends. *)
Lemma has_fat_loop_ok fuel s start :
  fs_ok b s -> healthy s -> cluster_ok b start -> cluster_count b < Z.of_nat fuel ->
  exists lp s', has_fat_loop b fuel start s = Done lp s' /\ only_cache s s' /\ fs_ok b s' /\
    if lp then forall k, after (nxt s) start k <> 0
    else exists k, (k <= Z.to_nat (cluster_count b))%nat /\ after (nxt s) start k = 0.
Proof.
  intros Hok Hh Hstart Hfuel. set (x := after (nxt s) start). set (N := Z.to_nat (cluster_count b)).
  assert (forall c, in_range 2 (cluster_count b) c -> nxt s c = 0 \/ in_range 2 (cluster_count b) (nxt s c)) as Hr.
  { intros c _. by apply nxt_range. }
  assert (in_range 2 (cluster_count b) start) as Hin by (unfold in_range, cluster_ok in *; lia).
  destruct fuel as [|fuel']; [destruct Hg; lia|]. unfold has_fat_loop. match goal with |- context [while _ ?bd] => set (body := bd) end.
  enough (forall f k s1, (N < k + f)%nat -> only_cache s s1 -> fs_ok b s1 ->
    (forall j, (0 < j <= k)%nat -> x j <> 0 /\ x j <> x (j + j)%nat) -> x (k + k)%nat <> 0 ->
    exists lp s', while f body (x k, x (k + k)%nat) s1 = Done lp s' /\ only_cache s s' /\ fs_ok b s' /\
      if lp then forall k, x k <> 0 else exists k, (k <= N)%nat /\ x k = 0) as H.
  { apply (H (S fuel') 0%nat s); try done; [lia|intros j ?; lia|]. unfold x, after. cbn. unfold cluster_ok in Hstart. lia. }
  induction f as [|f IH]; intros k s1 Hk O1 Hok1 Hbefore Hhare.
  - exfalso. destruct (end_or_repeat (nxt s) 2 (cluster_count b) start) as [(j & Hj & Hz)|(i & p & Hp & Hi & He)]; try done.
    + destruct j as [|j]; [unfold x, after in Hz; cbn in Hz; unfold cluster_ok in Hstart; lia|]. destruct (Hbefore (S j)) as [Hnz _]; [lia|done].
    + destruct (meet (nxt s) (cluster_count b) start i p) as (m & Hm & Heq); try done. destruct (Hbefore m) as [_ Hne]; [lia|done].
  - rewrite while_S. unfold body at 1. mstep.
    destruct (next_cluster_ok fuel' s1 (x k) Hok1) as (s2 & -> & O2 & Hok2); [eapply healthy_same; [|done]; apply O1|].
    rewrite (nxt_same s s1) by apply O1. fold (x (S k)). change (nxt s (x k)) with (x (S k)). mstep.
    assert (only_cache s s2) as O2' by (by eapply only_cache_trans).
    assert (forall j, x j = 0 -> exists k, (k <= N)%nat /\ x k = 0) as Hends.
    { intros j Hj. by apply (ends_soon (nxt s) 2 (cluster_count b) start) with j. }
    destruct (Z.eqb_spec (x (S k)) 0) as [Hz|Ht]; mstep; [exists false, s2; eauto|].
    destruct (next_cluster_ok fuel' s2 (x (k + k)%nat) Hok2) as (s3 & -> & O3 & Hok3); [eapply healthy_same; [|done]; apply O2'|].
    rewrite (nxt_same s s2) by apply O2'. change (nxt s (x (k + k)%nat)) with (x (S (k + k))). mstep.
    assert (only_cache s s3) as O3' by (by eapply only_cache_trans).
    destruct (Z.eqb_spec (x (S (k + k))) 0) as [Hz|Hh1]; mstep; [exists false, s3; eauto|].
    destruct (next_cluster_ok fuel' s3 (x (S (k + k))) Hok3) as (s4 & -> & O4 & Hok4); [eapply healthy_same; [|done]; apply O3'|].
    rewrite (nxt_same s s3) by apply O3'. change (nxt s (x (S (k + k)))) with (x (S (S (k + k)))). mstep.
    assert (only_cache s s4) as O4' by (by eapply only_cache_trans).
    replace (S (S (k + k))) with (S k + S k)%nat by lia.
    destruct (Z.eqb_spec (x (S k + S k)%nat) 0) as [Hz|Hh2]; mstep; [exists false, s4; eauto|].
    destruct (Z.eqb_spec (x (S k)) (x (S k + S k)%nat)) as [Heq|Hne]; mstep.
    + exists true, s4. split_and!; try done. apply (repeats_forever (nxt s) start (nxt_0 s) (S k) (S k)); [lia|done|done].
    + apply IH; try done; [lia|]. intros j Hj. destruct (decide (j = S k)) as [->|]; [done|]. apply Hbefore. lia.
Qed.

(** ** Free clusters *)

(** Everything but the cache and the hint stays. *)
Definition only_hint s s' : Prop := fs_dev s' = fs_dev s /\ fs_free s' = fs_free s /\ fs_allocs s' = fs_allocs s.

(** What a search of a range has found. *)
Definition found s from to (r : option Z) (next : Z) : Prop :=
  match r with
  | Some c => from <= c < to /\ ent b s 0 c = 0 /\ next = c + 1
  | None => next = fs_next s /\ forall c, from <= c < to -> ent b s 0 c <> 0
  end.

Lemma scan_free_ok fuel s from to :
  fs_ok b s -> healthy s -> 2 <= from -> to <= cluster_count b + 2 -> Z.max 0 (to - from) < Z.of_nat fuel ->
  exists r s', scan_free b fuel from to s = Done r s' /\ only_hint s s' /\ fs_ok b s' /\ found s from to r (fs_next s').
Proof.
  intros Hok Hh Hfrom Hto Hf. destruct fuel as [|fuel]; [lia|]. unfold scan_free.
  match goal with |- context [while _ ?bd] => set (body := bd) end.
  enough (forall f c s1, from <= c -> Z.max 0 (to - c) < Z.of_nat f -> only_cache s s1 -> fs_ok b s1 ->
    (forall c', from <= c' < c -> ent b s 0 c' <> 0) ->
    exists r s', while f body c s1 = Done r s' /\ only_hint s s' /\ fs_ok b s' /\ found s from to r (fs_next s')) as Hw.
  { apply Hw; try done; intros; lia. }
  induction f as [|f IH]; intros c s1 Hc Hlt O1 Hok1 Hbefore; [lia|].
  rewrite while_S. unfold body at 1. destruct (Z.ltb_spec c to) as [Hct|Hct].
  - assert (cluster_ok b c) as Hcl by (unfold cluster_ok; lia).
    assert (ent b s1 0 c = ent b s 0 c) as Hent by (apply ent_same, O1).
    destruct (get_fat_entry_ok b Hg fuel s1 c Hok1 Hcl) as (s2 & E & O2 & Hok2).
    { unfold valid_at. rewrite Hent. by apply Hh. }
    rewrite bind_run, E, Hent. assert (only_cache s s2) as O2' by (by eapply only_cache_trans).
    destruct (Z.eqb_spec (ent b s 0 c) 0) as [Hz|Hnz]; mstep.
    + exists (Some c). eexists. split; [reflexivity|]. split_and!.
      * by destruct O2' as (? & ? & ? & ?).
      * by eapply ok_same; [..|exact Hok2].
      * unfold found. split_and!; try done. cbn. destruct Hg. apply u32_id. unfold cluster_ok in Hcl. lia.
    + apply IH; try done; [lia..|]. intros c' Hc'. destruct (decide (c' = c)) as [->|]; [done|]. apply Hbefore. lia.
  - mstep. exists None, s1. split; [done|]. destruct O1 as (? & ? & ? & ?). split_and!; try done. unfold found.
    split; [done|]. intros c' Hc'. apply Hbefore. lia.
Qed.

(** The search wraps around: it finds a free cluster if there is one. *)
Lemma find_free_cluster_ok fuel s :
  fs_ok b s -> healthy s -> 2 <= cluster_count b < Z.of_nat fuel ->
  exists c s', find_free_cluster b fuel s = Done c s' /\ only_hint s s' /\ fs_ok b s' /\
    (c = 0 /\ (forall c', cluster_ok b c' -> ent b s 0 c' <> 0) \/ cluster_ok b c /\ ent b s 0 c = 0 /\ fs_next s' = c + 1).
Proof.
  intros Hok Hh Hcc. unfold find_free_cluster. rewrite (proj2 (Z.ltb_ge _ _)) by lia. mstep. rewrite limit_ok by done.
  set (start := if (2 <=? fs_next s) && _ then fs_next s else 2). assert (2 <= start < cluster_count b + 2) as Hst.
  { unfold start. destruct (Z.leb_spec 2 (fs_next s)), (Z.ltb_spec (fs_next s) (cluster_count b + 2)); cbn; lia. }
  destruct (scan_free_ok fuel s start (cluster_count b + 2)) as (r & s1 & -> & O1 & Hok1 & F1); try done; try lia. mstep.
  destruct r as [c|].
  - destruct F1 as (Hc & He & Hn). exists c, s1. split_and!; try done. right. unfold cluster_ok. split_and!; try done; lia.
  - destruct F1 as [Hn1 Hno1]. assert (fs_dev s1 = fs_dev s) as Hd by apply O1. mstep.
    destruct (scan_free_ok fuel s1 2 start) as (r & s2 & -> & O2 & Hok2 & F2); try done; try lia.
    { by eapply healthy_same. }
    mstep. assert (only_hint s s2) as O2' by (unfold only_hint in *; intuition congruence).
    destruct r as [c|]; cbn in F2.
    + exists c, s2. rewrite (ent_same s s1) in F2 by done. split_and!; try done. right. unfold cluster_ok. split_and!; try tauto; lia.
    + exists 0, s2. split_and!; try done. left. split; [done|]. intros c' Hc'. unfold cluster_ok in Hc'.
      destruct (decide (c' < start)); [|apply Hno1; lia]. rewrite <- (ent_same s s1) by done. apply F2. lia.
Qed.
End table.

(** ** The file allocation table: counting the free clusters, and FSINFO

    The scan of the first copy finds the number of free entries; the FSINFO
    sector keeps it together with the hint, and loading reads both back. *)

(** ** The FSINFO sector *)

Lemma word_at_app l1 v l2 : word_at (l1 ++ to_le 4 v ++ l2) (zlen l1) = v mod 2 ^ 32.
Proof.
  unfold word_at. rewrite Nat2Z.id, drop_app_length. rewrite (take_app_length' _ _ 4) by (by rewrite length_to_le).
  by rewrite le_bytes_to_le.
Qed.

Lemma fsinfo_length free nxt : length (fsinfo_sector free nxt) = 512%nat.
Proof. unfold fsinfo_sector. rewrite !length_app, !length_to_le, !length_replicate. done. Qed.

(** The five words that [load_fs_info] looks at. *)
Lemma fsinfo_words free nxt :
  word_at (fsinfo_sector free nxt) 0 = 0x41615252 /\ word_at (fsinfo_sector free nxt) 484 = 0x61417272 /\
  word_at (fsinfo_sector free nxt) 488 = free mod 2 ^ 32 /\ word_at (fsinfo_sector free nxt) 492 = nxt mod 2 ^ 32 /\
  word_at (fsinfo_sector free nxt) 508 = 0xAA550000.
Proof.
  set (a := to_le 4 0x41615252 ++ replicate 480 0). set (c := to_le 4 0x61417272).
  assert (fsinfo_sector free nxt = a ++ c ++ to_le 4 free ++ to_le 4 nxt ++ replicate 12 0 ++ to_le 4 0xAA550000) as ->.
  { unfold fsinfo_sector, a. by rewrite <- app_assoc. }
  assert (zlen a = 484) as Ha by done. assert (zlen c = 4) as Hc by done. split_and!.
  - unfold a. rewrite <- app_assoc. apply (word_at_app []).
  - rewrite <- Ha. apply word_at_app.
  - rewrite app_assoc. replace 488 with (zlen (a ++ c)) by (rewrite length_app; lia). apply word_at_app.
  - rewrite app_assoc, app_assoc. replace 492 with (zlen ((a ++ c) ++ to_le 4 free)) by (rewrite !length_app, length_to_le; lia). apply word_at_app.
  - rewrite !app_assoc. set (p := (((a ++ c) ++ to_le 4 free) ++ to_le 4 nxt) ++ replicate 12 0).
    replace 508 with (zlen p) by (unfold p; rewrite !length_app, !length_to_le, length_replicate; lia).
    rewrite <- (app_nil_r (p ++ _)), <- app_assoc. by rewrite word_at_app.
Qed.

Section info.
Context {D : Type} `{!BlockDevice D} (b : bpb) `{!Disk D (bytes_per_sector b)}.
Hypothesis (Hg : geo_ok b).
Local Abbreviation bps := (bytes_per_sector b).
Implicit Types (s : fs D).

(** The FSINFO sector is missing, or one of the reserved sectors. *)
Definition info_ok : Prop := fs_info b = 0 \/ bps = 512 /\ 0 < fs_info b < reserved_sector_count b.

(** [s'] differs from [s] at most in the FSINFO sector. *)
Definition only_info s s' : Prop :=
  fs_free s' = fs_free s /\ fs_next s' = fs_next s /\ forall fat c, fat_ok b fat -> cluster_ok b c -> ent b s' fat c = ent b s fat c.

Lemma write_fs_info_ok s :
  info_ok -> fs_ok b s ->
  exists s', write_fs_info b s = Done tt s' /\ fs_ok b s' /\ only_info s s' /\
    (fs_info b <> 0 -> image b s' = splice (fs_info b * bps) (fsinfo_sector (fs_free s) (fs_next s)) (image b s)).
Proof.
  intros Hi Hok. unfold write_fs_info. destruct (Z.eqb_spec (fs_info b) 0) as [H0|H0]; [by exists s|].
  destruct Hi as [?|[Hbps Hi]]; [done|]. mstep. pose proof Hok as [Hf Hsl Hc]. pose proof Hf as Hfit. unfold fits in Hfit.
  assert (0 < table_count b * fat_size32 b) as Hp by (destruct Hg; nia).
  assert ((fs_info b + 1) * bps <= reserved_sector_count b * bps) by (apply Z.mul_le_mono_nonneg_r; lia).
  assert (reserved_sector_count b * bps <= zlen (image b s)) by nia. pose proof (fsinfo_length (fs_free s) (fs_next s)) as Hlen.
  destruct (device_write_ok b s (fs_info b) 1 (fsinfo_sector (fs_free s) (fs_next s))) as (d' & -> & Hd); [lia|lia|lia|lia|].
  mstep. eexists. split; [reflexivity|]. split; [|split; [|intros _; exact Hd]].
  - split; [unfold fits, image in *; cbn; rewrite Hd, splice_length by (rewrite ?Hlen; unfold image in *; lia); done|done|].
    unfold image at 1. cbn [fs_dev set_dev fs_cache]. rewrite Hd. eapply Forall_impl; [exact Hc|]. intros e He. apply agrees_splice; try done; [lia|rewrite Hlen; lia|].
    intros Hv. right. destruct (He Hv) as [[Hs _] _]. rewrite Hlen. nia.
  - split; [done|]. split; [done|]. intros fat c Hfat Hcl. unfold ent, image. cbn [fs_dev set_dev]. rewrite Hd. f_equal.
    destruct (entry_fits b Hg s fat c Hf Hfat Hcl) as (E1 & E2 & _). rewrite !word_at_slice, slice_splice_out; [done|lia|rewrite Hlen; lia|lia|].
    right. rewrite Hlen. unfold entry_pos, fat_ok, cluster_ok in *. destruct Hg. assert (0 <= fat * fat_size32 b * bps) by nia. nia.
Qed.

(** Loading reads back what was written. *)
Lemma load_fs_info_ok s free nxt :
  info_ok -> fs_info b <> 0 -> fs_ok b s -> slice (fs_info b * bps) bps (image b s) = fsinfo_sector free nxt ->
  0 <= free < 2 ^ 32 -> 0 <= nxt < 2 ^ 32 ->
  exists s', load_fs_info b s = Done true s' /\ fs_free s' = free /\ fs_next s' = Z.max 2 nxt /\ fs_dev s' = fs_dev s /\ fs_cache s' = fs_cache s.
Proof.
  intros [?|[Hbps Hi]] H0 Hok Hsec Hf Hn; [done|]. unfold load_fs_info. mstep. rewrite (proj2 (Z.eqb_neq _ _)) by done. mstep.
  pose proof (ok_fits _ _ Hok) as Hfit. unfold fits in Hfit. assert (0 < table_count b * fat_size32 b) as Hp by (destruct Hg; nia).
  rewrite (device_read_ok b); [|lia|lia|]. 2: { change (image b (set_next_free _ _)) with (image b s). nia. }
  change (image b (set_next_free _ _)) with (image b s). rewrite Z.mul_1_l, Hsec.
  destruct (fsinfo_words free nxt) as (-> & -> & -> & -> & ->). rewrite !Z.mod_small by lia. mstep.
  eexists. split; [reflexivity|]. cbn [fs_next set_next_free]. destruct (Z.ltb_spec nxt 2); cbn; split_and!; (done || lia).
Qed.

(** ** Counting *)

(** The free clusters below [c]. *)
Definition free_below s (c : Z) : Z := zlen (filter (fun c => ent b s 0 c = 0) (seqZ 2 (c - 2))).

Lemma free_below_S s c : 2 <= c -> free_below s (c + 1) = free_below s c + (if decide (ent b s 0 c = 0) then 1 else 0).
Proof.
  intros Hc. unfold free_below. replace (c + 1 - 2) with (c - 2 + 1) by lia. rewrite seqZ_app by lia. rewrite filter_app, length_app.
  replace (2 + (c - 2)) with c by lia. change (seqZ c 1) with [c]. rewrite filter_cons, filter_nil. case_decide; cbn; lia.
Qed.

Lemma free_below_bound s c : 2 <= c -> 0 <= free_below s c <= c - 2.
Proof. intros Hc. unfold free_below. pose proof (length_filter (fun c => ent b s 0 c = 0) (seqZ 2 (c - 2))). rewrite length_seqZ in *. lia. Qed.

(** The buffer of the scan. *)
Definition scan_buf s (buf : list Z) (last : Z) : Prop := last = U32_MAX \/ buf = slice (last * bps) bps (image b s).

Lemma scan_word s c buf :
  cluster_ok b c -> scan_buf s buf (u32 (reserved_sector_count b + sector_offset b c)) ->
  Z.land (word_at buf (offset_in_sector b c)) 0x0FFFFFFF = ent b s 0 c.
Proof.
  intros Hc Hb. destruct (entry_place b Hg 0 c) as (E1 & E2 & E3 & _ & E5 & _ & E7 & E8 & E9); [destruct Hg; lia|done|].
  rewrite Z.mul_0_l, Z.add_0_r in *. destruct Hb as [Hu| ->]; [destruct Hg; unfold U32_MAX in *; lia|].
  unfold ent. f_equal. pose proof (bps_pos b Hg). rewrite word_in_slice by lia. by rewrite E5.
Qed.

Lemma get_free_cluster_count_ok s :
  info_ok -> fs_ok b s -> fs_free s = U32_MAX ->
  exists s', get_free_cluster_count b s = Done (free_count b s) s' /\ fs_ok b s' /\ fs_free s' = free_count b s /\ fs_next s' = fs_next s /\
    (forall fat c, fat_ok b fat -> cluster_ok b c -> ent b s' fat c = ent b s fat c) /\
    (fs_info b <> 0 -> slice (fs_info b * bps) bps (image b s') = fsinfo_sector (free_count b s) (fs_next s)).
Proof.
  intros Hi Hok HU. unfold get_free_cluster_count. mstep. rewrite HU. mstep.
  match goal with |- context [while _ ?bd] => set (body := bd) end.
  enough (forall f c buf last s1, cluster_count b + 2 - c < Z.of_nat f -> 2 <= c <= cluster_count b + 2 -> only_cache s s1 -> fs_ok b s1 -> scan_buf s buf last ->
    exists s', while f body (c, free_below s c, buf, last) s1 = Done (free_count b s) s' /\ only_cache s s' /\ fs_ok b s') as Hw.
  { destruct (Hw (S (Z.to_nat (cluster_count b))) 2 [] U32_MAX s) as (s1 & E1 & (D1 & F1 & N1 & A1) & Hok1); try done; [destruct Hg; lia..|by left|].
    change (free_below s 2) with 0 in E1. rewrite E1. mstep.
    destruct (write_fs_info_ok (set_free (free_count b s) s1) Hi) as (s2 & -> & Hok2 & (F2 & N2 & T2) & I2); [by eapply ok_same; [..|exact Hok1]|].
    mstep. exists s2. rewrite F2. split_and!; try done; [by rewrite N2| |].
    - intros fat c Hf Hc. rewrite T2 by done. apply ent_same. exact D1.
    - intros H0. rewrite (I2 H0). cbn [fs_free set_free fs_next]. rewrite N1.
      destruct Hi as [?|[Hbps Hin]]; [done|]. pose proof (fsinfo_length (free_count b s) (fs_next s)) as Hlen.
      pose proof (ok_fits _ _ Hok1) as Hfit. unfold fits in Hfit. change (image b (set_free _ s1)) with (image b s1).
      assert (0 < table_count b * fat_size32 b) as Hp by (destruct Hg; nia).
      replace bps with (zlen (fsinfo_sector (free_count b s) (fs_next s))) at 2 by lia. apply slice_splice_same; nia. }
  induction f as [|f IH]; intros c buf last s1 Hf Hc O1 Hok1 Hb; [lia|]. rewrite while_S. unfold body at 1. rewrite (limit_ok b Hg).
  destruct (Z.ltb_spec c (cluster_count b + 2)) as [Hlt|Hge].
  2: { assert (c = cluster_count b + 2) as -> by lia. exists s1. mstep. split_and!; try done. unfold free_below, free_count, clusters.
       replace (cluster_count b + 2 - 2) with (cluster_count b) by lia. done. }
  assert (cluster_ok b c) as Hcl by (unfold cluster_ok; lia). cbv zeta. set (sec := u32 (reserved_sector_count b + _)) in *.
  assert (forall buf', scan_buf s buf' sec -> (if Z.land (word_at buf' (offset_in_sector b c)) 0x0FFFFFFF =? 0 then u32 (free_below s c + 1) else free_below s c) = free_below s (c + 1)) as Hcnt.
  { intros buf' Hb'. rewrite (scan_word s c buf' Hcl Hb'), free_below_S by lia. pose proof (free_below_bound s c). destruct Hg.
    destruct (Z.eqb_spec (ent b s 0 c) 0); case_decide; try done; [rewrite u32_id; lia|lia]. }
  destruct (Z.eqb_spec sec last) as [<-|Hne]; cbn [negb].
  - rewrite ret_run, (Hcnt buf Hb). apply IH; try done; lia.
  - destruct (entry_place b Hg 0 c) as (E1 & E2 & _ & _ & _ & _ & _ & E8 & E9); [destruct Hg; lia|done|]. rewrite Z.mul_0_l, Z.add_0_r in *. fold sec in E1, E8.
    destruct (entry_fits b Hg s1 0 c (ok_fits _ _ Hok1)) as (_ & _ & F3); [destruct Hg; unfold fat_ok; lia|done|]. rewrite Z.mul_0_l, Z.add_0_r in F3.
    destruct (read_fat_sector_ok b Hg s1 sec Hok1) as (s2 & E & O2 & Hok2); [unfold fat_sector_ok; lia|done|]. rewrite bind_run, E, ret_run.
    assert (image b s1 = image b s) as Him by (unfold image; by destruct O1 as (-> & _)). rewrite Him in *.
    assert (scan_buf s (slice (sec * bps) bps (image b s)) sec) as Hb' by (by right). rewrite (Hcnt _ Hb').
    apply IH; try done; try lia. by eapply only_cache_trans.
Qed.
End info.
