(* ===== verification/FatChain.v ===== *)
(** * The file allocation table: chains

    Reading a chain through batches of sectors gives the clusters one reaches
    by following the entries; freeing it clears exactly their entries, in every
    copy of the table. *)

From Stdlib Require Import ZArith Lia.
From stdpp Require Import base tactics gmap numbers list.
From S2P Require Import Prelude.
From S2P Require Import Memory.
From S2P Require Import Slices.
From S2P Require Import KSort.
From S2P Require Import KSortFacts.
From S2P Require Import Fat.
From S2P Require Import FatFacts.
From S2P Require Import FatTable.

Section chains.
Context {D : Type} `{!BlockDevice D} (b : bpb) `{!Disk D (bytes_per_sector b)}.
Hypothesis (Hg : geo_ok b).
Local Abbreviation bps := (bytes_per_sector b).
Implicit Types (s : fs D).

(** ** The chain of a cluster *)

(** [l] starts at [c] and follows the table to its end. *)
Fixpoint chain_from s (c : Z) (l : list Z) : Prop :=
  match l with
  | [] => False
  | x :: l' => x = c /\ cluster_ok b c /\ (match l' with [] => nxt b s c = 0 | _ => chain_from s (nxt b s c) l' end)
  end.

Lemma chain_same s s' c l : fs_dev s' = fs_dev s -> chain_from s c l -> chain_from s' c l.
Proof.
  intros Hd. revert c. induction l as [|x l IH]; intros c; [done|]. cbn [chain_from]. rewrite (nxt_same b s s') by done.
  destruct l; [done|]. intros (-> & Hc & Hl). eauto.
Qed.

Lemma chain_ok s c l : chain_from s c l -> Forall (cluster_ok b) l.
Proof.
  revert c. induction l as [|x l IH]; intros c; [constructor|]. cbn [chain_from]. intros (-> & Hc & Hl).
  constructor; [done|]. destruct l; [constructor|eauto].
Qed.

(** The clusters of a chain are the iterates of the successor. *)
Lemma chain_after s c l i x : chain_from s c l -> l !! i = Some x -> x = after (nxt b s) c i.
Proof.
  revert c i. induction l as [|y l IH]; intros c i Hl Hx; [by destruct Hl|]. cbn [chain_from] in Hl. destruct Hl as (-> & Hc & Hl).
  destruct i as [|i]; [by simplify_eq/=|].
  destruct l as [|z l]; [done|]. rewrite (IH _ _ Hl Hx). unfold after. by rewrite Nat.iter_succ_r.
Qed.

Lemma chain_end s c l : chain_from s c l -> after (nxt b s) c (length l) = 0.
Proof.
  revert c. induction l as [|y l IH]; intros c; [done|]. cbn [chain_from]. intros (-> & Hc & Hl).
  unfold after. cbn [length]. rewrite Nat.iter_succ_r. destruct l as [|z l]; [done|]. by apply IH.
Qed.

Lemma chain_unique s c l l' : chain_from s c l -> chain_from s c l' -> l = l'.
Proof.
  revert c l'. induction l as [|x l IH]; intros c [|x' l'] Hl Hl'; try done. destruct Hl as (-> & Hc & Hl), Hl' as (-> & _ & Hl'). f_equal.
  destruct l as [|y l], l' as [|y' l']; [done| | |by eapply IH].
  - destruct Hl' as (_ & [? _] & _). lia.
  - destruct Hl as (_ & [? _] & _). lia.
Qed.

(** A chain that ends visits no cluster twice. *)
Lemma chain_NoDup s c l : healthy b s -> chain_from s c l -> NoDup l.
Proof.
  intros Hh Hl. apply NoDup_alt. intros i j x Hi Hj.
  enough (forall i j, (i < j)%nat -> l !! i = Some x -> l !! j = Some x -> False) as Hw.
  { destruct (Nat.lt_trichotomy i j) as [?|[?|?]]; [exfalso; eauto|done|exfalso; eauto]. }
  clear i j Hi Hj. intros i j Hlt Hi Hj. pose proof (chain_after _ _ _ _ _ Hl Hi) as Ei. pose proof (chain_after _ _ _ _ _ Hl Hj) as Ej.
  assert (cluster_ok b x) as Hx. { pose proof (chain_ok _ _ _ Hl) as HF. rewrite Forall_forall in HF. apply HF. by eapply list_elem_of_lookup_2. }
  apply (repeats_forever (nxt b s) c (nxt_0 b s) i (j - i)%nat) with (k := length l); [lia| | |by apply chain_end].
  - rewrite <- Ei. unfold cluster_ok in Hx. lia.
  - replace (i + (j - i))%nat with j by lia. congruence.
Qed.

(** Unless there is a loop, there is a chain, no longer than the table. *)
Lemma chain_exists s c :
  healthy b s -> cluster_ok b c -> (exists k, (k <= Z.to_nat (cluster_count b))%nat /\ after (nxt b s) c k = 0) ->
  exists l, chain_from s c l /\ zlen l <= cluster_count b.
Proof.
  intros Hh Hc (k & Hk & Hz). enough (exists l, chain_from s c l /\ (length l <= k)%nat) as (l & Hl & Hlen) by (exists l; split; [done|destruct Hg; lia]).
  clear Hk. revert c Hc Hz. induction k as [|k IH]; intros c Hc Hz.
  { unfold after in Hz. cbn in Hz. unfold cluster_ok in Hc. lia. }
  destruct (decide (nxt b s c = 0)) as [H0|H0]; [exists [c]; cbn; split_and!; try done; lia|].
  unfold after in Hz. rewrite Nat.iter_succ_r in Hz. destruct (nxt_range b Hg s c Hh) as [?|Hr]; [done|].
  destruct (IH (nxt b s c)) as (l & Hl & Hlen); [by unfold in_range, cluster_ok in *; lia|done|].
  exists (c :: l). cbn [chain_from length]. split; [|lia]. split_and!; try done. by destruct l.
Qed.

(** ** Batches *)

(** The sectors of a batch lie on the disk, and the entry lies in them. *)
Lemma batch_place fat c :
  fat_ok b fat -> cluster_ok b c ->
  let base := reserved_sector_count b + fat * fat_size32 b in
  let sec := u32 (base + sector_offset b c) in
  let start := batch_of sec in
  0 <= start <= sec /\ sec < start + 128 /\ sec < base + fat_size32 b /\ start + 128 <= U32_MAX /\
  base + fat_size32 b <= reserved_sector_count b + table_count b * fat_size32 b /\
  batch_offset b sec start c = (sec - start) * bps + offset_in_sector b c /\
  start * bps + batch_offset b sec start c = entry_pos b fat c /\ 0 <= offset_in_sector b c <= bps - 4.
Proof.
  intros Hf Hc. cbv zeta. destruct (entry_place b Hg fat c Hf Hc) as (E1 & E2 & E3 & E4 & E5 & E6 & E7 & E8 & E9).
  set (sec := u32 _) in *. unfold batch_of, sectors_per_read. pose proof Hg as []. unfold U32_MAX in *.
  assert (sec / 128 * 128 <= sec < sec / 128 * 128 + 128 /\ 0 <= sec / 128 * 128) as (H1 & H2) by (Z.div_mod_to_equations; lia).
  set (start := sec / 128 * 128) in *.
  assert (batch_offset b sec start c = (sec - start) * bps + offset_in_sector b c) as Hoff.
  { unfold batch_offset. rewrite (u32_id (sec - start)) by lia. destruct g_bps as [Hb Hb4].
    assert (bps = 4 * (bps / 4)) as Hq by (Z.div_mod_to_equations; lia). assert (offset_in_sector b c = 4 * (offset_in_sector b c / 4)) as Ho by (Z.div_mod_to_equations; lia).
    rewrite u32_id; [nia|]. split; [nia|]. assert ((sec - start) * (bps / 4) <= 127 * 128) by nia. lia. }
  split_and!; try lia; rewrite Hoff; nia.
Qed.

(** What the batch buffer holds. *)
Definition batch_good s (bt : Z * list Z) : Prop :=
  fst bt = U32_MAX \/
  exists n, bt = (fst bt, slice (fst bt * bps) (n * bps) (image b s)) /\ 0 <= fst bt /\
    (fst bt + n = reserved_sector_count b + fat_size32 b \/ n = 128).

Lemma batch_load s c :
  fs_ok b s -> cluster_ok b c ->
  let start := batch_of (u32 (reserved_sector_count b + sector_offset b c)) in
  let n := batch_sectors start (u32 (reserved_sector_count b + fat_size32 b)) in
  device_read start n s = Done (Some (slice (start * bps) (n * bps) (image b s))) s /\
  batch_good s (start, slice (start * bps) (n * bps) (image b s)).
Proof.
  intros Hok Hc. cbv zeta. destruct (batch_place 0 c) as (B1 & B2 & B3 & B4 & B5 & B6 & B7 & B8); [destruct Hg; unfold fat_ok; lia|done|].
  rewrite Z.mul_0_l, Z.add_0_r in *. set (sec := u32 _) in *. set (start := batch_of sec) in *. pose proof Hg as []. unfold U32_MAX in *.
  assert (0 <= table_count b * fat_size32 b) by nia.
  unfold batch_sectors, sectors_per_read. rewrite (u32_id (_ + fat_size32 b)) by lia. rewrite u32_id by lia. set (n := if _ <? 128 then _ else 128).
  assert (0 < n /\ start + n <= reserved_sector_count b + fat_size32 b /\ (start + n = reserved_sector_count b + fat_size32 b \/ n = 128)) as (N1 & N2 & N3).
  { unfold n. zcase; lia. }
  split.
  - apply device_read_ok; [lia|done|]. pose proof (ok_fits _ _ Hok) as Hfit. unfold fits in Hfit.
    pose proof (bps_pos b Hg). assert ((start + n) * bps <= (reserved_sector_count b + table_count b * fat_size32 b) * bps) by (apply Z.mul_le_mono_nonneg_r; lia). lia.
  - right. exists n. split_and!; try done. cbn. lia.
Qed.

Lemma batch_word s c buf :
  cluster_ok b c ->
  let sec := u32 (reserved_sector_count b + sector_offset b c) in
  batch_good s (batch_of sec, buf) -> Z.land (word_at buf (batch_offset b sec (batch_of sec) c)) 0x0FFFFFFF = ent b s 0 c.
Proof.
  intros Hc. cbv zeta. destruct (batch_place 0 c) as (B1 & B2 & B3 & B4 & B5 & B6 & B7 & B8); [destruct Hg; unfold fat_ok; lia|done|].
  rewrite Z.mul_0_l, Z.add_0_r in *. set (sec := u32 _) in *. set (start := batch_of sec) in *. pose proof (bps_pos b Hg).
  intros [Hu|(n & Heq & H0 & Hn)]; cbn in *; [unfold U32_MAX in *; lia|]. injection Heq as ->. unfold ent. f_equal.
  rewrite word_in_slice; [by rewrite B7|nia|rewrite B6; nia|]. rewrite B6. destruct Hn; nia.
Qed.

Lemma batch_entry_ok s c bt :
  fs_ok b s -> cluster_ok b c -> batch_good s bt ->
  exists bt', batch_entry b c bt s = Done (Some (ent b s 0 c, bt')) s /\ batch_good s bt'.
Proof.
  intros Hok Hc Hb. unfold batch_entry. destruct (batch_load s c Hok Hc) as [E Hnew]. set (sec := u32 (reserved_sector_count b + _)) in *.
  destruct (Z.eqb_spec (batch_of sec) (fst bt)) as [He|He]; mstep.
  - exists bt. split; [|done]. do 3 f_equal. destruct bt as [st buf]. cbn in *. subst st. by apply batch_word.
  - rewrite E. mstep. eexists. split; [|exact Hnew]. do 3 f_equal. by apply batch_word.
Qed.

(** ** Reading a chain *)

Lemma in_range_true c : cluster_ok b c -> (2 <=? c) && (c <? u32 (cluster_count b + 2)) = true.
Proof. intros [H1 H2]. rewrite (limit_ok b Hg), (proj2 (Z.leb_le _ _)), (proj2 (Z.ltb_lt _ _)) by done. done. Qed.

Lemma count_chain_ok fuel s c l :
  fs_ok b s -> chain_from s c l -> (length l <= fuel)%nat -> count_chain b fuel c s = Done (Some (zlen l)) s.
Proof.
  intros Hok Hl Hf. unfold count_chain. match goal with |- context [while _ ?bd] => set (body := bd) end.
  enough (forall l c cnt bt f, chain_from s c l -> batch_good s bt -> (length l <= f)%nat ->
    while f body (c, cnt, bt) s = Done (Some (cnt + zlen l)) s) as Hw.
  { rewrite (Hw l c 0); try done. by left. }
  clear l c Hl Hf fuel. induction l as [|x l IH]; intros c cnt bt f Hl Hb Hf; [done|]. destruct Hl as (-> & Hc & Hl).
  destruct f as [|f]; cbn [length] in Hf; [lia|]. rewrite while_S. unfold body at 1. rewrite in_range_true by done.
  destruct (batch_entry_ok s c bt Hok Hc Hb) as (bt' & E & Hb'). rewrite bind_run, E.
  unfold nxt in Hl. rewrite decide_True in Hl by done. destruct (ends_chain (ent b s 0 c)) eqn:He.
  - destruct l as [|y l]; [by rewrite ret_run|]. destruct Hl as (_ & [? _] & _). lia.
  - destruct l as [|y l]; [unfold ends_chain in He; by rewrite Hl in He|].
    rewrite ret_run, (IH _ _ _ _ Hl Hb') by lia. do 2 f_equal. cbn [length]. lia.
Qed.

Lemma fill_chain_ok s c l :
  fs_ok b s -> chain_from s c l -> fill_chain b c (zlen l) s = Done l s.
Proof.
  intros Hok Hl. unfold fill_chain. match goal with |- context [while _ ?bd] => set (body := bd) end.
  enough (forall l' c i bt acc f, chain_from s c l' -> batch_good s bt -> i + zlen l' = zlen l -> (length l' < f)%nat ->
    while f body (i, c, bt, acc) s = Done (acc ++ l') s) as Hw.
  { rewrite (Hw l c 0); try done; [by left|lia]. }
  induction l' as [|x l' IH]; intros c' i bt acc f Hl' Hb Hi Hf; [done|]. destruct Hl' as (-> & Hc & Hl').
  destruct f as [|f]; cbn [length] in *; [lia|]. rewrite while_S. unfold body at 1. rewrite (proj2 (Z.ltb_lt _ _)) by lia.
  cbv zeta. set (sec := u32 (reserved_sector_count b + sector_offset b c')) in *.
  assert (exists buf, refill b (batch_of sec) bt s = Done (batch_of sec, buf) s /\ batch_good s (batch_of sec, buf)) as (buf & E & Hb').
  { unfold refill. destruct (Z.eqb_spec (batch_of sec) (fst bt)) as [He|He].
    - exists (snd bt). rewrite He. by destruct bt.
    - destruct (batch_load s c' Hok Hc) as [E Hnew]. fold sec in E, Hnew. unfold device_read in E.
      destruct (dev_read _ _ _) as [[r buf] d]. injection E as Hbuf Hst. destruct (r =? 0); [done|]. injection Hbuf as ->.
      eexists. rewrite Hst. split; [reflexivity|done]. }
  rewrite bind_run, E, ret_run. cbn [snd]. pose proof (batch_word s c' buf Hc Hb') as Hw. fold sec in Hw. rewrite Hw.
  unfold nxt in Hl'. rewrite decide_True in Hl' by done. destruct l' as [|y l'].
  - destruct f as [|f]; cbn [length] in *; [lia|]. rewrite while_S. unfold body. rewrite (proj2 (Z.ltb_ge _ _)) by lia. done.
  - destruct (ends_chain (ent b s 0 c')); [destruct Hl' as (_ & [? _] & _); lia|].
    rewrite (IH _ _ _ _ _ Hl' Hb') by (cbn [length] in *; lia). by rewrite <- app_assoc.
Qed.

Context (can_alloc : Z -> bool).

Lemma alloc_run s : alloc can_alloc s = Done (can_alloc (fs_allocs s)) (set_allocs (fs_allocs s + 1) s).
Proof. done. Qed.

(** Reading a chain changes the cache and asks for memory. *)
Definition only_reads s s' : Prop := fs_dev s' = fs_dev s /\ fs_free s' = fs_free s /\ fs_next s' = fs_next s.

(** A chain that ends is read, when there is memory; one that does not is refused. *)
Lemma get_cluster_chain_ok fuel s c :
  fs_ok b s -> healthy b s -> cluster_ok b c -> cluster_count b < Z.of_nat fuel ->
  exists r s', get_cluster_chain b can_alloc fuel c s = Done r s' /\ only_reads s s' /\ fs_ok b s' /\
    (r = None /\ (forall k, after (nxt b s) c k <> 0) \/
     exists l, chain_from s c l /\ zlen l <= cluster_count b /\
       let ok := can_alloc (fs_allocs s) && can_alloc (fs_allocs s + 1) in
       r = (if ok then Some l else None) /\ (ok = true -> fs_allocs s' = fs_allocs s + 2)).
Proof.
  intros Hok Hh Hc Hf. unfold get_cluster_chain. rewrite (proj2 (out_of_range b Hg c) Hc).
  destruct (has_fat_loop_ok b Hg fuel s c Hok Hh Hc Hf) as (lp & s1 & E1 & (D1 & F1 & N1 & A1) & Hok1 & Hlp). rewrite bind_run, E1.
  destruct lp; [exists None, s1; split_and!; [done..|by left]|].
  destruct (chain_exists s c Hh Hc Hlp) as (l & Hl & Hlen).
  assert (l <> []) as Hne by (by destruct l). rewrite bind_run, alloc_run, A1.
  destruct (can_alloc (fs_allocs s)); mstep; [|eexists None, _; split_and!; [reflexivity|done..|by eapply ok_same; [..|exact Hok1]|right; by exists l]].
  set (s2 := set_allocs _ s1). assert (fs_ok b s2) as Hok2 by (by eapply ok_same; [..|exact Hok1]).
  assert (chain_from s2 c l) as Hl2 by (by eapply chain_same; [|exact Hl]). rewrite (count_chain_ok fuel s2 c l Hok2 Hl2) by lia. mstep.
  rewrite (proj2 (Z.eqb_neq _ _)) by (destruct l; [done|cbn [length]; lia]). rewrite bind_run, alloc_run. change (fs_allocs s2) with (fs_allocs s + 1).
  destruct (can_alloc (fs_allocs s + 1)); mstep; [|eexists None, _; split_and!; [reflexivity|done..|by eapply ok_same; [..|exact Hok1]|right; by exists l]].
  set (s3 := set_allocs _ s2). assert (fs_ok b s3) as Hok3 by (by eapply ok_same; [..|exact Hok1]).
  assert (chain_from s3 c l) as Hl3 by (by eapply chain_same; [|exact Hl]). rewrite (fill_chain_ok s3 c l Hok3 Hl3).
  exists (Some l), s3. split_and!; try done. right. exists l. split_and!; try done. intros _. cbn. lia.
Qed.
End chains.

(** ** The file allocation table: freeing a chain

    The batch in memory stands for the image with some entries cleared; writing
    it back makes the image so, and drops what the cache knew of these sectors. *)

Section freeing.
Context {D : Type} `{!BlockDevice D} (b : bpb) `{!Disk D (bytes_per_sector b)}.
Hypothesis (Hg : geo_ok b).
Local Abbreviation bps := (bytes_per_sector b).
Implicit Types (s : fs D).

(** ** Dropping sectors from the cache *)

Lemma invalidate_all secs s :
  for_each secs invalidate_fat_cache_sector s = Done tt (set_cache (drop_sector (fun z => bool_decide (z ∈ secs)) (fs_cache s)) s).
Proof.
  revert s. induction secs as [|x secs IH]; intros s.
  - cbn [for_each]. rewrite ret_run. f_equal. destruct s as [d cache ? ? ? ? ? ?]. unfold set_cache. cbn. f_equal.
    induction cache as [|e cache IHc]; [done|]. cbn. rewrite andb_false_r. by f_equal.
  - cbn [for_each]. rewrite bind_run.
    change (invalidate_fat_cache_sector x s) with (Done tt (set_cache (drop_sector (Z.eqb x) (fs_cache s)) s)). cbv beta iota. rewrite IH. unfold set_cache. cbn. do 2 f_equal.
    unfold drop_sector. rewrite <- list_fmap_compose. apply list_fmap_ext. intros i e _. cbn. destruct (ce_valid e) eqn:Hv; cbn; [|by rewrite Hv].
    destruct (Z.eqb_spec x (ce_sector e)) as [->|Hne]; cbn.
    + by rewrite bool_decide_eq_true_2 by set_solver.
    + rewrite Hv. cbn. rewrite (bool_decide_ext (ce_sector e ∈ secs) (ce_sector e ∈ x :: secs)) by set_solver. done.
Qed.

(** ** The batch *)

(** [bt] stands for the image [V]: nothing is loaded, or the sectors from
    [bt_start] to [bt_end] of [V] are in the buffer. *)
Definition batch_at (base : Z) s (bt : batch) (V : list Z) : Prop :=
  length V = length (image b s) /\ (bt_dirty bt = false -> V = image b s) /\
  (bt_start bt = U32_MAX /\ bt_dirty bt = false \/
   0 <= bt_start bt < bt_end bt /\ bt_end bt <= U32_MAX /\ bt_end bt * bps <= zlen (image b s) /\
   bt_end bt = Z.min (bt_start bt + 128) (base + fat_size32 b) /\
   zlen (bt_buf bt) = (bt_end bt - bt_start bt) * bps /\ V = splice (bt_start bt * bps) (bt_buf bt) (image b s)).

Lemma flush_batch_ok base s bt V :
  fs_ok b s -> batch_at base s bt V ->
  exists s', flush_batch bt s = Done tt s' /\ image b s' = V /\ only_disk s s' /\ fs_ok b s'.
Proof.
  intros Hok (HlV & Hclean & Hb). unfold flush_batch. destruct (bt_dirty bt).
  2: { exists s. cbn. split_and!; try done. by rewrite Hclean. }
  destruct Hb as [[_ ?]|(H1 & H2 & H3 & H4 & H5 & H6)]; [done|]. unfold U32_MAX in *. pose proof (bps_pos b Hg) as Hb.
  unfold when. rewrite bind_run, u32_id by lia.
  destruct (device_write_ok b s (bt_start bt) (bt_end bt - bt_start bt) (bt_buf bt)) as (d' & -> & Hd); [lia|lia|lia|done|].
  rewrite <- H6 in Hd. rewrite invalidate_all. eexists. split; [reflexivity|]. split; [exact Hd|]. split; [done|]. destruct Hok as [Hf Hsl Hc]. split.
  - unfold fits, image in *. cbn. rewrite Hd, HlV. done.
  - cbn. unfold drop_sector. by rewrite length_fmap.
  - unfold image at 1. cbn [fs_dev set_cache set_dev fs_cache]. rewrite Hd, H6. apply dropped_agree; [done|nia|nia|done|].
    intros sec Hsec%bool_decide_eq_false H0. rewrite elem_of_seqZ in Hsec. destruct (decide (sec < bt_start bt)); [left|right]; nia.
Qed.

(** Clearing an entry in the batch. *)
Lemma batch_zero fat s bt V c :
  fat_ok b fat -> cluster_ok b c -> fits b s ->
  let base := reserved_sector_count b + fat * fat_size32 b in
  let sec := u32 (base + sector_offset b c) in
  batch_at base s bt V -> batch_of sec = bt_start bt ->
  batch_at base s {| bt_start := bt_start bt; bt_end := bt_end bt;
    bt_buf := set_word (bt_buf bt) (batch_offset b sec (bt_start bt) c) 0; bt_dirty := true |} (set_word V (entry_pos b fat c) 0).
Proof.
  intros Hf Hc Hfit. cbv zeta. destruct (batch_place b Hg fat c Hf Hc) as (B1 & B2 & B3 & B4 & B5 & B6 & B7 & B8).
  set (sec := u32 _) in *. intros (HlV & _ & Hb) Hst. rewrite Hst in *. destruct (entry_fits b Hg s fat c Hfit Hf Hc) as (F1 & F2 & _).
  destruct Hb as [[Hu _]|(H1 & H2 & H3 & H4 & H5 & H6)]; [unfold U32_MAX in *; lia|]. pose proof (bps_pos b Hg).
  assert (0 <= batch_offset b sec (bt_start bt) c /\ batch_offset b sec (bt_start bt) c + 4 <= zlen (bt_buf bt)) as [O1 O2].
  { rewrite B6, H5. split; [nia|]. assert (sec + 1 <= bt_end bt) by lia. nia. }
  split_and!.
  - rewrite set_word_length; lia.
  - done.
  - right. cbn. split_and!; try lia; try done; [by rewrite set_word_length|].
    rewrite !set_word_splice, H6, <- B7. symmetry. apply splice_splice; rewrite ?length_to_le; (lia || nia).
Qed.

(** Loading a batch. *)
Lemma batch_fetch fat s c :
  fs_ok b s -> fat_ok b fat -> cluster_ok b c ->
  let base := reserved_sector_count b + fat * fat_size32 b in
  let start := batch_of (u32 (base + sector_offset b c)) in
  let fat_end := u32 (base + fat_size32 b) in
  let end_ := if fat_end <? u32 (start + sectors_per_read) then fat_end else u32 (start + sectors_per_read) in
  exists buf, device_read start (u32 (end_ - start)) s = Done (Some buf) s /\
    batch_at base s {| bt_start := start; bt_end := end_; bt_buf := buf; bt_dirty := false |} (image b s).
Proof.
  intros Hok Hf Hc. cbv zeta. destruct (batch_place b Hg fat c Hf Hc) as (B1 & B2 & B3 & B4 & B5 & B6 & B7 & B8).
  set (sec := u32 (_ + sector_offset b c)) in *. set (start := batch_of sec) in *. set (base := reserved_sector_count b + _) in *.
  unfold sectors_per_read. pose proof Hg as []. unfold U32_MAX, fat_ok in *. rewrite (u32_id (base + _)), (u32_id (start + _)) by lia.
  set (end_ := if _ <? start + 128 then _ else _). assert (end_ = Z.min (start + 128) (base + fat_size32 b)) as Hend by (unfold end_; zcase; lia).
  rewrite u32_id by lia. pose proof (ok_fits _ _ Hok) as Hfit. unfold fits in Hfit. pose proof (bps_pos b Hg) as Hbp.
  assert (end_ * bps <= zlen (image b s)) as Hin.
  { assert (end_ * bps <= (reserved_sector_count b + table_count b * fat_size32 b) * bps) by (apply Z.mul_le_mono_nonneg_r; lia). lia. }
  assert (end_ * bps = start * bps + (end_ - start) * bps) as Hsum by lia. assert (0 <= (end_ - start) * bps) by nia.
  eexists. split; [apply device_read_ok; [lia|lia|]; by replace (start + (end_ - start)) with end_ by lia|].
  split; [done|]. split; [done|]. right. cbn. unfold U32_MAX. split_and!; try lia; try done.
  - apply slice_length; nia.
  - symmetry. apply splice_slice_id; nia.
Qed.

(** ** Clearing the entries of a list of clusters *)

Lemma fits_same_len s s' : length (image b s') = length (image b s) -> fits b s -> fits b s'.
Proof. unfold fits. by intros ->. Qed.

Lemma free_entries_ok fat l : forall s bt V,
  fs_ok b s -> fat_ok b fat -> Forall (cluster_ok b) l -> batch_at (reserved_sector_count b + fat * fat_size32 b) s bt V ->
  exists s', free_entries b (reserved_sector_count b + fat * fat_size32 b) l bt s = Done true s' /\
    image b s' = set_entries b ((fun c => (fat, c)) <$> l) 0 V /\ only_disk s s' /\ fs_ok b s'.
Proof.
  induction l as [|c l IH]; intros s bt V Hok Hf Hl Hb; cbn [free_entries].
  { destruct (flush_batch_ok _ s bt V Hok Hb) as (s' & E & I & O & Hok'). rewrite bind_run, E. by exists s'. }
  apply Forall_cons in Hl as [Hc Hl]. cbv zeta. set (sec := u32 (_ + sector_offset b c)).
  assert (forall s1 bt1, fs_ok b s1 -> only_disk s s1 -> batch_at (reserved_sector_count b + fat * fat_size32 b) s1 bt1 V -> batch_of sec = bt_start bt1 ->
    exists s', free_entries b (reserved_sector_count b + fat * fat_size32 b) l
        {| bt_start := bt_start bt1; bt_end := bt_end bt1; bt_buf := set_word (bt_buf bt1) (batch_offset b sec (bt_start bt1) c) 0; bt_dirty := true |} s1 = Done true s' /\
      image b s' = set_entries b ((fun c => (fat, c)) <$> c :: l) 0 V /\ only_disk s s' /\ fs_ok b s') as Hzero.
  { intros s1 bt1 Hok1 O1 Hb1 Hst. destruct (IH s1 _ (set_word V (entry_pos b fat c) 0) Hok1 Hf Hl (batch_zero fat s1 bt1 V c Hf Hc (ok_fits _ _ Hok1) Hb1 Hst))
      as (s' & E & I & O & Hok'). exists s'. split_and!; try done. unfold only_disk in *. intuition congruence. }
  destruct (Z.eqb_spec (batch_of sec) (bt_start bt)) as [Hst|Hst]; [by apply Hzero|].
  destruct (flush_batch_ok _ s bt V Hok Hb) as (s1 & E1 & I1 & O1 & Hok1). rewrite bind_run, E1.
  destruct (batch_fetch fat s1 c Hok1 Hf Hc) as (buf & E2 & Hb2). cbv zeta in *. fold sec in E2, Hb2. rewrite bind_run, E2.
  rewrite I1 in Hb2. apply (Hzero s1 _ Hok1 O1 Hb2). done.
Qed.

Lemma set_entries_app ps qs v l : set_entries b (ps ++ qs) v l = set_entries b qs v (set_entries b ps v l).
Proof. unfold set_entries. by rewrite foldl_app. Qed.

Lemma free_copies_ok l fats : forall s,
  fs_ok b s -> Forall (fat_ok b) fats -> Forall (cluster_ok b) l ->
  exists s', free_copies b fats l s = Done true s' /\
    image b s' = set_entries b (fats ≫= fun fat => (fun c => (fat, c)) <$> l) 0 (image b s) /\ only_disk s s' /\ fs_ok b s'.
Proof.
  induction fats as [|fat fats IH]; intros s Hok Hfs Hl; cbn [free_copies]; [by exists s|].
  apply Forall_cons in Hfs as [Hf Hfs]. rewrite (fat_base_ok b Hg) by done.
  destruct (free_entries_ok fat l s {| bt_start := U32_MAX; bt_end := 0; bt_buf := []; bt_dirty := false |} (image b s) Hok Hf Hl)
    as (s1 & E1 & I1 & O1 & Hok1); [split_and!; try done; by left|].
  rewrite bind_run, E1. destruct (IH s1 Hok1 Hfs Hl) as (s' & E & I & O & Hok'). exists s'. split_and!; try done.
  - rewrite bind_cons, set_entries_app, <- I1. done.
  - unfold only_disk in *. intuition congruence.
Qed.

(** All the copies of the entries of [l], and no other byte. *)
Lemma all_copies_written s s' l v :
  fits b s -> Forall (cluster_ok b) l -> 0 <= v < 2 ^ 32 ->
  image b s' = set_entries b (all_fats b ≫= fun fat => (fun c => (fat, c)) <$> l) v (image b s) ->
  entries_written b (fun c => c ∈ l) v s s'.
Proof.
  intros Hfit Hl Hv Himg. set (ps := _ ≫= _) in Himg. assert (forall fat c, (fat, c) ∈ ps <-> fat ∈ all_fats b /\ c ∈ l) as Hps.
  { intros fat c. unfold ps. rewrite list_elem_of_bind. setoid_rewrite list_elem_of_fmap. naive_solver. }
  pose proof (all_fats_ok b) as Hfats. rewrite Forall_forall in Hfats, Hl.
  assert (forall fat, fat_ok b fat -> fat ∈ all_fats b) as Hin by (intros fat Hf; apply elem_of_seqZ; unfold fat_ok in Hf; lia).
  destruct (set_entries_ok b Hg ps v (image b s)) as (L & W & R); [|by apply all_fits|done|].
  { apply Forall_forall. intros [fat c] [? ?]%Hps. split; cbn; auto. }
  rewrite <- Himg in *. split; [done| | |].
  - intros fat c Hf Hc Hcl. rewrite W, decide_True; [done|apply Hps; auto|done..].
  - intros fat c Hf Hc Hcl. rewrite W, decide_False; [done|rewrite Hps; tauto|done..].
  - intros i Hi. apply R. intros (fat & c & [? ?]%Hps & Hx). apply (Hi fat c); auto.
Qed.

(** ** The count of free clusters *)

Lemma filter_add (P Q : Z -> Prop) `{!forall c, Decision (P c), !forall c, Decision (Q c)} (l cs : list Z) :
  NoDup l -> NoDup cs -> (forall c, c ∈ cs -> c ∈ l /\ ~ P c) -> (forall c, c ∈ l -> Q c <-> P c \/ c ∈ cs) ->
  zlen (filter Q l) = zlen (filter P l) + zlen cs.
Proof.
  intros Hl Hcs Hin HQ. enough (filter Q l ≡ₚ filter P l ++ cs) as -> by (rewrite length_app; lia).
  apply NoDup_Permutation; [by apply NoDup_filter|apply NoDup_app; split_and!; [by apply NoDup_filter| |done]|].
  - intros x [Hx _]%list_elem_of_filter Hc. by destruct (Hin x Hc).
  - intros x. rewrite elem_of_app, !list_elem_of_filter. specialize (Hin x). specialize (HQ x). naive_solver.
Qed.

Lemma freed_count s s' l :
  NoDup l -> Forall (cluster_ok b) l -> (forall c, c ∈ l -> ent b s 0 c <> 0) -> entries_written b (fun c => c ∈ l) 0 s s' ->
  free_count b s' = free_count b s + zlen l.
Proof.
  intros Hnd Hl Hne Hw. assert (fat_ok b 0) as H0 by (destruct Hg; unfold fat_ok; lia). rewrite Forall_forall in Hl.
  unfold free_count. apply filter_add; [apply NoDup_seqZ|done| |].
  - intros c Hc. split; [by apply elem_clusters, Hl|]. by apply Hne.
  - intros c Hc%elem_clusters. destruct (ew_ent b _ _ _ _ 0 c Hw H0 Hc) as [Hin Hout]. destruct (decide (c ∈ l)) as [Hcl|Hcl].
    + rewrite (Hin Hcl). naive_solver.
    + rewrite (Hout Hcl). naive_solver.
Qed.

(** ** Freeing *)

Context (can_alloc : Z -> bool).

Lemma sort_chain_ok s l :
  zlen l <= SIZE_MAX -> exists l', sort_chain l s = Done l' s /\ l' ≡ₚ l.
Proof. intros Hl. destruct (sort_lt_ok l Hl) as (l' & E & HP & _). exists l'. unfold sort_chain. by rewrite E. Qed.

Lemma free_cluster_chain_ok fuel s c l :
  fs_ok b s -> healthy b s -> chain_from b s c l -> (forall c', c' ∈ l -> ent b s 0 c' <> 0) ->
  cluster_count b < Z.of_nat fuel -> (forall i, fs_allocs s <= i -> can_alloc i = true) -> counted b s ->
  exists s', free_cluster_chain b can_alloc fuel c s = Done true s' /\
    entries_written b (fun c' => c' ∈ l) 0 s s' /\ fs_ok b s' /\ counted b s' /\ fs_next s' = fs_next s.
Proof.
  intros Hok Hh Hl Hne Hf Hal Hcnt. assert (cluster_ok b c) as Hc by (destruct l; [done|]; by destruct Hl as (_ & ? & _)).
  unfold free_cluster_chain. rewrite (proj2 (out_of_range b Hg c) Hc).
  destruct (get_cluster_chain_ok b Hg can_alloc fuel s c Hok Hh Hc Hf) as (r & s1 & E1 & (D1 & F1 & N1) & Hok1 & Hr).
  rewrite bind_run, E1. destruct Hr as [[_ Hloop]|(l1 & Hl1 & Hlen & Hr & Hal1)].
  { by destruct (Hloop (length l)); apply chain_end. }
  rewrite (chain_unique b s c l1 l Hl1 Hl) in *. rewrite !Hal in Hr, Hal1 by lia. cbn in Hr. subst r. specialize (Hal1 eq_refl).
  rewrite (proj2 (Z.eqb_neq _ _)) by (destruct l; [done|cbn [length]; lia]).
  destruct (sort_chain_ok s1 l) as (l2 & E2 & HP); [destruct Hg; unfold SIZE_MAX, UINT64_MAX; lia|]. rewrite bind_run, E2, bind_run, alloc_run, Hal by lia.
  cbn [negb]. set (s2 := set_allocs _ s1). assert (Forall (cluster_ok b) l2) as Hl2 by (rewrite HP; by eapply chain_ok).
  destruct (free_copies_ok l2 (all_fats b) s2) as (s3 & E3 & I3 & (F3 & N3 & A3) & Hok3); [by eapply ok_same; [..|exact Hok1]|apply all_fats_ok|done|].
  unfold all_fats in E3. rewrite bind_run, E3. cbn [negb]. mstep. eexists. split; [reflexivity|].
  assert (entries_written b (fun c' => c' ∈ l) 0 s s3) as Hw.
  { rewrite HP in Hl2. assert (entries_written b (fun c' => c' ∈ l2) 0 s s3) as [W1 W2 W3 W4].
    { apply all_copies_written; [apply Hok|by rewrite HP|lia|]. rewrite I3. unfold image. cbn. by rewrite D1. }
    split; [done| | |]; setoid_rewrite <- HP; done. }
  pose proof (freed_count s s3 l (chain_NoDup b s c l Hh Hl) (chain_ok b s c l Hl) Hne Hw) as Hcount.
  pose proof (count_bound b Hg (fun x => ent b s3 0 x = 0)) as Hbound. fold (free_count b s3) in Hbound. destruct Hg.
  assert (fs_free s3 = fs_free s) as HF by (rewrite F3; exact F1). assert (fs_next s3 = fs_next s) as HN by (rewrite N3; exact N1).
  rewrite (Permutation_length HP), HF. destruct (Z.eqb_spec (fs_free s) U32_MAX) as [HU|HU].
  - split_and!; try done. left. congruence.
  - destruct Hcnt as [|Hcnt]; [done|]. unfold U32_MAX in *. split_and!; [by eapply written_same; [|exact Hw]|by eapply ok_same; [..|exact Hok3]| |done].
    right. cbn. rewrite Hcnt, u32_id by lia. rewrite <- Hcount. done.
Qed.
End freeing.
