(* ===== verification/FatFile.v ===== *)
(** * filesystem/fat32/fat32.cpp, fat32_time.cpp: files

    Directory entries and their times, reading a file in runs of neighbouring
    clusters, and writing it, which extends the chain when it has to. *)

From Stdlib Require Import ZArith Lia.
From stdpp Require Import base tactics gmap numbers list.
From S2P Require Import Prelude.
From S2P Require Import Memory.
From S2P Require Import Fat.

(** ** Directory entries *)

Record dirent := {
  de_name : list Z;
  de_attr : Z;
  de_nt_res : Z;
  de_creation_tenths : Z;
  de_creation_time : Z;
  de_creation_date : Z;
  de_access_date : Z;
  de_cluster_high : Z;
  de_write_time : Z;
  de_write_date : Z;
  de_cluster_low : Z;
  de_size : Z
}.

(** The 32 bytes of the packed structure. *)
Definition dirent_bytes (e : dirent) : list Z :=
  de_name e ++ to_le 1 (de_attr e) ++ to_le 1 (de_nt_res e) ++ to_le 1 (de_creation_tenths e) ++
  to_le 2 (de_creation_time e) ++ to_le 2 (de_creation_date e) ++ to_le 2 (de_access_date e) ++ to_le 2 (de_cluster_high e) ++
  to_le 2 (de_write_time e) ++ to_le 2 (de_write_date e) ++ to_le 2 (de_cluster_low e) ++ to_le 4 (de_size e).

Definition ATTR_READ_ONLY : Z := 0x01.
Definition ATTR_SYSTEM : Z := 0x04.

Definition is_protected (e : dirent) : bool := negb (Z.land (de_attr e) (Z.lor ATTR_READ_ONLY ATTR_SYSTEM) =? 0).

(** ** Times *)

(** What [read_rtc] stores: the parts of the time, the year since 2000. *)
Record rtc_time := { rtc_sec : Z; rtc_min : Z; rtc_hour : Z; rtc_day : Z; rtc_month : Z; rtc_year : Z }.

Definition encode_fat_date (day month year : Z) : Z :=
  let year := if year <? 1980 then 1980 else year in
  let year := if 2107 <? year then 2107 else year in
  u16 (Z.lor (Z.lor (Z.shiftl (year - 1980) 9) (Z.shiftl month 5)) day).

Definition encode_fat_time (hour minute second : Z) : Z :=
  u16 (Z.lor (Z.lor (Z.shiftl hour 11) (Z.shiftl minute 5)) (second / 2)).

(** Date, time and tenths. *)
Definition get_current_fat_time (t : rtc_time) : Z * Z * Z :=
  let full_year := u16 (2000 + rtc_year t) in
  (encode_fat_date (rtc_day t) (rtc_month t) full_year, encode_fat_time (rtc_hour t) (rtc_min t) (rtc_sec t),
   u8 (rtc_sec t mod 2 * 100)).

Definition update_write_time (t : rtc_time) (e : dirent) : dirent :=
  let '(date, time, _) := get_current_fat_time t in
  {| de_name := de_name e; de_attr := de_attr e; de_nt_res := de_nt_res e; de_creation_tenths := de_creation_tenths e;
     de_creation_time := de_creation_time e; de_creation_date := de_creation_date e; de_access_date := date;
     de_cluster_high := de_cluster_high e; de_write_time := time; de_write_date := date; de_cluster_low := de_cluster_low e;
     de_size := de_size e |}.

Definition update_access_time (t : rtc_time) (e : dirent) : dirent :=
  let '(date, _, _) := get_current_fat_time t in
  {| de_name := de_name e; de_attr := de_attr e; de_nt_res := de_nt_res e; de_creation_tenths := de_creation_tenths e;
     de_creation_time := de_creation_time e; de_creation_date := de_creation_date e; de_access_date := date;
     de_cluster_high := de_cluster_high e; de_write_time := de_write_time e; de_write_date := de_write_date e;
     de_cluster_low := de_cluster_low e; de_size := de_size e |}.

(** [file_size], [first_cluster_low] and [first_cluster_high] after a write. *)
Definition set_extent (size start_cluster : Z) (e : dirent) : dirent :=
  {| de_name := de_name e; de_attr := de_attr e; de_nt_res := de_nt_res e; de_creation_tenths := de_creation_tenths e;
     de_creation_time := de_creation_time e; de_creation_date := de_creation_date e; de_access_date := de_access_date e;
     de_cluster_high := u16 (Z.land (Z.shiftr start_cluster 16) 0xFFFF); de_write_time := de_write_time e;
     de_write_date := de_write_date e; de_cluster_low := u16 (Z.land start_cluster 0xFFFF); de_size := u32 size |}.

(** ** Nodes *)

(** The fields of [Fat32Node] that reading and writing use. *)
Record node := { n_parent : Z; n_cluster : Z; n_size : Z; n_index : Z; n_entry : dirent }.

Definition set_cluster (c : Z) (n : node) : node :=
  {| n_parent := n_parent n; n_cluster := c; n_size := n_size n; n_index := n_index n; n_entry := n_entry n |}.
Definition set_entry (e : dirent) (n : node) : node :=
  {| n_parent := n_parent n; n_cluster := n_cluster n; n_size := n_size n; n_index := n_index n; n_entry := e |}.
Definition set_size (z : Z) (n : node) : node :=
  {| n_parent := n_parent n; n_cluster := n_cluster n; n_size := z; n_index := n_index n; n_entry := n_entry n |}.

Inductive error := Inval | Acces | Io | NoMem | NoSpc | NoEnt | Exist | NotEmpty.

Section files.
Context {D : Type} `{!BlockDevice D} (b : bpb) (can_alloc : Z -> bool) (now : rtc_time).
Local Abbreviation fs := (fs D).

(** ** Directory entries on the disk *)

Definition DIRENT_SIZE : Z := 32.

Definition overwrite_directory_entry (fuel : nat) (parent_cluster entry_index : Z) (new_entry : dirent) : M fs bool :=
  clusters ← get_cluster_chain b can_alloc fuel parent_cluster;
  match (clusters : option (list Z)) with
  | None => mret false
  | Some clusters =>
      let cluster_bytes := bytes_per_cluster b in
      let entries_per_cluster := cluster_bytes / DIRENT_SIZE in
      let cluster_idx := entry_index / entries_per_cluster in
      let offset_in_cluster := entry_index mod entries_per_cluster in
      if zlen clusters <=? cluster_idx then mret false
      else
        let target_cluster := nth (Z.to_nat cluster_idx) clusters 0 in
        ok ← alloc can_alloc;
        if negb ok then mret false
        else
          r ← read_cluster b target_cluster;
          match (r : option (list Z)) with
          | None => mret false
          | Some buffer =>
              let off := offset_in_cluster * DIRENT_SIZE in
              device_write (cluster_to_sector b target_cluster) (sectors_per_cluster b)
                (take (Z.to_nat off) buffer ++ dirent_bytes new_entry ++ drop (Z.to_nat (off + DIRENT_SIZE)) buffer)
          end
  end.

(** ** Reading *)

Definition MAX_USB_TRANSFER : Z := 64 * 1024.

(** The clusters at the head of [l] that follow each other on the disk. *)
Fixpoint run_length (l : list Z) : nat :=
  match l with
  | c :: ((c' :: _) as l') => if u32 (c + 1) =? c' then S (run_length l') else 1
  | [_] => 1
  | [] => 0
  end.

(** [while (rem > 0)]: a run in pieces of at most 64 KiB; [None] when a read fails. *)
Definition read_chunks (run_lba run_bytes : Z) : M fs (option (list Z)) :=
  while (S (Z.to_nat run_bytes)) (fun '(rem, cur_lba, data) =>
    if 0 <? rem then
      let chunk_bytes := if MAX_USB_TRANSFER <? rem then MAX_USB_TRANSFER else rem in
      let chunk_sectors := u32 (chunk_bytes / bytes_per_sector b) in
      r ← device_read cur_lba chunk_sectors;
      match (r : option (list Z)) with
      | None => mret (inr None)
      | Some buf => mret (inl (rem - chunk_bytes, u32 (cur_lba + chunk_sectors), data ++ take (Z.to_nat chunk_bytes) buf))
      end
    else mret (inr (Some data))) (run_bytes, run_lba, []).

(** The runs of the chain from the cluster of the offset on, as far as needed.
    The loop variables are the rest of the chain, the place in its first cluster
    and the bytes read so far. *)
Definition read_runs (to_read offset_in_cluster : Z) (chain : list Z) : M fs (error + list Z) :=
  while (S (length chain)) (fun '(rest, start_pos, data) =>
    match (rest : list Z) with
    | [] => mret (inr (inr data))
    | cluster :: _ =>
        if zlen data <? to_read then
          let run_clusters := run_length rest in
          let run_bytes := Z.of_nat run_clusters * bytes_per_cluster b in
          let run_lba := cluster_to_sector b cluster in
          let available := run_bytes - start_pos in
          let to_copy := if to_read - zlen data <? available then to_read - zlen data else available in
          let next data := mret (inl (drop run_clusters rest, 0, data)) in
          if (start_pos =? 0) && (to_copy =? run_bytes) then
            r ← read_chunks run_lba run_bytes;
            match (r : option (list Z)) with None => mret (inr (inl Io)) | Some bytes => next (data ++ bytes) end
          else
            ok ← alloc can_alloc;
            if negb ok then mret (inr (inl NoMem))
            else
              r ← read_chunks run_lba run_bytes;
              match (r : option (list Z)) with
              | None => mret (inr (inl Io))
              | Some tmp => next (data ++ take (Z.to_nat to_copy) (drop (Z.to_nat start_pos) tmp))
              end
        else mret (inr (inr data))
    end) (chain, offset_in_cluster, []).

Definition read_file (fuel : nat) (n : node) (len offset : Z) (update_atime : bool) : M fs ((error + list Z) * node) :=
  if len =? 0 then mret (inl Inval, n)
  else if n_size n <=? offset then mret (inr [], n)
  else if n_cluster n =? 0 then mret (inr [], n)
  else
    let cluster_bytes := bytes_per_cluster b in
    let remaining := n_size n - offset in
    let to_read := if len <? remaining then len else remaining in
    let cluster_index := offset / cluster_bytes in
    chain ← get_cluster_chain b can_alloc fuel (n_cluster n);
    match (chain : option (list Z)) with
    | None => mret (inl Io, n)
    | Some chain =>
        if zlen chain <=? cluster_index then mret (inr [], n)
        else
          r ← read_runs to_read (offset mod cluster_bytes) (drop (Z.to_nat cluster_index) chain);
          match (r : error + list Z) with
          | inl e => mret (inl e, n)
          | inr data =>
              if update_atime then
                let n := set_entry (update_access_time now (n_entry n)) n in
                _ ← overwrite_directory_entry fuel (n_parent n) (n_index n) (n_entry n);
                mret (inr data, n)
              else mret (inr data, n)
          end
    end.

(** ** Writing *)

(** [additional] clusters more behind [last_cluster]; [false] when the disk is full. *)
Fixpoint extend_chain (fuel additional : nat) (last_cluster : Z) : M fs bool :=
  match additional with
  | O => mret true
  | S additional' =>
      free_cluster ← find_free_cluster b fuel;
      if free_cluster =? 0 then mret false
      else
        _ ← write_fat_entry b fuel last_cluster free_cluster;
        _ ← write_fat_entry b fuel free_cluster 0x0FFFFFFF;
        extend_chain fuel additional' free_cluster
  end.

(** The clusters a write needs: the first cluster of a file that has none, then
    the rest. The result is the error, or the chain, and the first cluster. *)
Definition grow_chain (fuel : nat) (start_cluster needed_clusters : Z) (chain : option (list Z)) : M fs ((error + list Z) * Z) :=
  let existing := match chain with Some l => zlen l | None => 0 end in
  if existing <? needed_clusters then
    let additional := Z.to_nat (needed_clusters - existing) in
    first ← (if start_cluster =? 0 then
               start_cluster ← find_free_cluster b fuel;
               if start_cluster =? 0 then mret (inl NoSpc, start_cluster)
               else
                 _ ← write_fat_entry b fuel start_cluster 0x0FFFFFFF;
                 chain ← get_cluster_chain b can_alloc fuel start_cluster;
                 mret (match (chain : option (list Z)) with None => inl Io | Some l => inr l end, start_cluster)
             else mret (match chain with None => inl Io | Some l => inr l end, start_cluster));
    match (first : (error + list Z) * Z) with
    | (inl e, start_cluster) => mret (inl e, start_cluster)
    | (inr chain, start_cluster) =>
        ok ← extend_chain fuel additional (List.last chain 0);
        if negb ok then mret (inl NoSpc, start_cluster)
        else
          chain ← get_cluster_chain b can_alloc fuel start_cluster;
          mret (match (chain : option (list Z)) with
                | None => inl Io
                | Some chain => if zlen chain <? needed_clusters then inl Io else inr chain
                end, start_cluster)
    end
  else mret (match chain with None => inl Io | Some l => inr l end, start_cluster).

(** [read_cluster] with its result, and the buffer after the call. *)
Definition read_cluster_result (cluster : Z) : M fs (Z * list Z) := fun s =>
  let '(r, buf, d) := dev_read (cluster_to_sector b cluster) (sectors_per_cluster b) (fs_dev s) in Done (r, buf) (set_dev d s).

(** A piece of at most a cluster; what it does not cover is read first. *)
Definition write_piece (cluster offset_in_cluster : Z) (piece : list Z) : M fs bool :=
  let to_write := zlen piece in
  if negb (offset_in_cluster =? 0) || (to_write <? bytes_per_cluster b) then
    r ← read_cluster_result cluster;
    if fst (r : Z * list Z) <? 0 then mret false
    else write_cluster b can_alloc cluster
           (take (Z.to_nat offset_in_cluster) (snd r) ++ piece ++ drop (Z.to_nat (offset_in_cluster + to_write)) (snd r)) 0
  else write_cluster b can_alloc cluster piece 0.

(** The bytes, cluster by cluster; [true] when all of them could be written. *)
Definition write_clusters (src : list Z) (offset : Z) (chain : list Z) : M fs bool :=
  let cluster_bytes := bytes_per_cluster b in
  while (S (length chain)) (fun '(src, current_offset, rest) =>
    match (rest : list Z) with
    | [] => mret (inr true)
    | cluster :: rest' =>
        if 0 <? zlen src then
          let offset_in_cluster := current_offset mod cluster_bytes in
          let space_in_cluster := cluster_bytes - offset_in_cluster in
          let to_write := if zlen src <? space_in_cluster then zlen src else space_in_cluster in
          ok ← write_piece cluster offset_in_cluster (take (Z.to_nat to_write) src);
          if negb ok then mret (inr false)
          else mret (inl (drop (Z.to_nat to_write) src, current_offset + to_write, rest'))
        else mret (inr true)
    end) (src, offset, chain).

Definition write_file (fuel : nat) (n : node) (buffer : list Z) (offset : Z) : M fs (option error * node) :=
  let len := zlen buffer in
  if len =? 0 then mret (Some Inval, n)
  else if is_protected (n_entry n) then mret (Some Acces, n)
  else if n_size n <? offset then mret (Some Inval, n)
  else
    let cluster_bytes := bytes_per_cluster b in
    let new_size := if n_size n <? u64 (offset + len) then u64 (offset + len) else n_size n in
    let needed_clusters := u64 (new_size + cluster_bytes - 1) / cluster_bytes in
    let start_cluster := n_cluster n in
    chain ← (if negb (start_cluster =? 0) then
               chain ← get_cluster_chain b can_alloc fuel start_cluster;
               mret (match (chain : option (list Z)) with None => None | Some l => Some (Some l) end)
             else mret (Some None));
    match (chain : option (option (list Z))) with
    | None => mret (Some Io, n)
    | Some chain =>
        r ← grow_chain fuel start_cluster needed_clusters chain;
        let '(r, start_cluster) := (r : (error + list Z) * Z) in
        let n := if n_cluster n =? 0 then set_cluster start_cluster n else n in
        match r with
        | inl e => mret (Some e, n)
        | inr chain =>
            ok ← write_clusters buffer offset (drop (Z.to_nat (offset / cluster_bytes)) chain);
            if negb ok then mret (Some Io, n)
            else
              let n := set_size new_size n in
              let n := set_entry (update_write_time now (set_extent new_size start_cluster (n_entry n))) n in
              ok ← overwrite_directory_entry fuel (n_parent n) (n_index n) (n_entry n);
              mret (if (ok : bool) then None else Some Io, n)
        end
    end.
End files.
