(* ===== verification/FatWrite.v ===== *)
(** * Files on FAT32: clusters, reading in runs, writing and extending chains

    The data region of a disk as clusters. Reading the runs of a chain in pieces
    gives the bytes of its clusters one after the other; writing changes the
    clusters it is given, and a chain is extended by clusters that were free. *)

From Stdlib Require Import ZArith Lia.
From stdpp Require Import base tactics gmap numbers list.
From S2P Require Import Prelude.
From S2P Require Import Memory.
From S2P Require Import Slices.
From S2P Require Import Fat.
From S2P Require Import FatFacts.
From S2P Require Import FatTable.
From S2P Require Import FatChain.
From S2P Require Import FatFile.

Section files.
Context {D : Type} `{!BlockDevice D} (b : bpb) `{!Disk D (bytes_per_sector b)}.
Hypothesis (Hg : geo_ok b).
Local Abbreviation bps := (bytes_per_sector b).
Local Abbreviation cb := (bytes_per_cluster b).
Implicit Types (s : fs D).

(** ** The data region *)

(** Clusters are not empty and hold whole directory entries; pieces of 64 KiB hold
    whole sectors; sector numbers do not overflow. *)
Record data_ok : Prop := {
  do_spc : 0 < sectors_per_cluster b <= 255;
  do_chunk : MAX_USB_TRANSFER mod bps = 0;
  do_dirent : cb mod DIRENT_SIZE = 0;
  do_end : reserved_sector_count b + table_count b * fat_size32 b + cluster_count b * sectors_per_cluster b <= U32_MAX
}.
Hypothesis (Hd : data_ok).

(** Where a cluster starts. *)
Definition cpos (c : Z) : Z := (reserved_sector_count b + table_count b * fat_size32 b) * bps + (c - 2) * cb.

(** All clusters are on the disk. *)
Definition holds_data s : Prop := cpos (cluster_count b + 2) <= zlen (image b s).

Definition cluster_data s (c : Z) : list Z := slice (cpos c) cb (image b s).
Definition content s (l : list Z) : list Z := concat (cluster_data s <$> l).

Lemma cb_pos : 0 < cb.
Proof. destruct Hd, Hg. unfold bytes_per_cluster. nia. Qed.

Lemma sector_ok c :
  cluster_ok b c -> cluster_to_sector b c * bps = cpos c /\ 0 <= cluster_to_sector b c /\
    cluster_to_sector b c + sectors_per_cluster b <= U32_MAX.
Proof.
  intros Hc. destruct Hg, Hd. unfold cluster_ok, U32_MAX in *. unfold cluster_to_sector, data_start.
  assert (0 <= table_count b * fat_size32 b) by nia. assert (0 <= (c - 2) * sectors_per_cluster b) by nia.
  assert ((c - 2) * sectors_per_cluster b + sectors_per_cluster b <= cluster_count b * sectors_per_cluster b) by nia.
  rewrite (u32_id (table_count b * _)), (u32_id (reserved_sector_count b + _)), (u32_id (c - 2)) by lia.
  rewrite (u32_id ((c - 2) * _)) by lia. rewrite u32_id by lia. unfold cpos, bytes_per_cluster. split_and!; lia.
Qed.

Lemma cpos_in s c : holds_data s -> cluster_ok b c -> 0 <= cpos c /\ cpos c + cb <= zlen (image b s).
Proof.
  intros Hs Hc. pose proof cb_pos. destruct Hg. unfold holds_data, cpos, cluster_ok in *.
  assert (0 <= (reserved_sector_count b + table_count b * fat_size32 b) * bps) by nia. split; [nia|].
  assert ((c - 2) * cb + cb <= (cluster_count b + 2 - 2) * cb) by nia. lia.
Qed.

Lemma cpos_apart c c' : c <> c' -> cpos c + cb <= cpos c' \/ cpos c' + cb <= cpos c.
Proof. intros Hne. pose proof cb_pos. unfold cpos. destruct (Z.lt_trichotomy c c') as [?|[?|?]]; [left|done|right]; nia. Qed.

(** The tables lie before the clusters. *)
Lemma entry_before fat c : fat_ok b fat -> cluster_ok b c -> entry_pos b fat c + 4 <= cpos 2.
Proof.
  intros Hf Hc. destruct (entry_place b Hg fat c Hf Hc) as (E1 & E2 & E3 & _ & E5 & _ & _ & E8 & E9). unfold cpos.
  assert (reserved_sector_count b + fat * fat_size32 b + sector_offset b c + 1 <= reserved_sector_count b + table_count b * fat_size32 b) as Hle by lia.
  rewrite E1 in E5. pose proof (bps_pos b Hg). nia.
Qed.

Lemma data_length s c : holds_data s -> cluster_ok b c -> zlen (cluster_data s c) = cb.
Proof. intros Hs Hc. destruct (cpos_in s c Hs Hc). pose proof cb_pos. apply slice_length; lia. Qed.

Lemma content_length s l : holds_data s -> Forall (cluster_ok b) l -> zlen (content s l) = zlen l * cb.
Proof.
  intros Hs Hl. induction Hl as [|c l Hc Hl IH]; [done|]. unfold content in *. cbn [fmap list_fmap concat length]. rewrite length_app.
  pose proof (data_length s c Hs Hc). lia.
Qed.

Lemma content_app s l l' : content s (l ++ l') = content s l ++ content s l'.
Proof. unfold content. by rewrite fmap_app, concat_app. Qed.

Lemma content_drop s l n : holds_data s -> Forall (cluster_ok b) l -> content s (drop n l) = drop (n * Z.to_nat cb) (content s l).
Proof.
  intros Hs Hl. destruct (decide (n <= length l)%nat) as [Hn|Hn].
  - rewrite <- (take_drop n l) at 2. rewrite content_app, drop_app_length'; [done|].
    pose proof (content_length s (take n l) Hs (Forall_take _ _ _ Hl)) as Hlen. rewrite length_take in Hlen. pose proof cb_pos. nia.
  - rewrite !drop_ge; [done| |lia]. pose proof (content_length s l Hs Hl). pose proof cb_pos. nia.
Qed.

(** ** Reading *)

Lemma read_cluster_ok s c : holds_data s -> cluster_ok b c -> read_cluster b c s = Done (Some (cluster_data s c)) s.
Proof.
  intros Hs Hc. destruct (sector_ok c Hc) as (E & H0 & _), (cpos_in s c Hs Hc) as [_ Hin]. unfold read_cluster, cluster_data.
  destruct Hd. rewrite (device_read_ok b); [|done|lia|]; rewrite ?Z.mul_add_distr_r, ?E, (Z.mul_comm (sectors_per_cluster b) bps); done.
Qed.

Lemma read_chunks_ok s lba bytes :
  0 <= lba -> 0 <= bytes -> bytes mod bps = 0 -> lba * bps + bytes <= zlen (image b s) -> lba + bytes / bps <= U32_MAX ->
  read_chunks b lba bytes s = Done (Some (slice (lba * bps) bytes (image b s))) s.
Proof.
  intros Hl Hb Hm Hin Hmax. pose proof (bps_pos b Hg) as Hbp. unfold read_chunks. match goal with |- context [while _ ?bd] => set (body := bd) end.
  enough (forall f done_, 0 <= done_ <= bytes / bps -> bytes - done_ * bps < Z.of_nat f ->
    while f body (bytes - done_ * bps, lba + done_, slice (lba * bps) (done_ * bps) (image b s)) s = Done (Some (slice (lba * bps) bytes (image b s))) s) as Hw.
  { specialize (Hw (S (Z.to_nat bytes)) 0). rewrite Z.mul_0_l, Z.sub_0_r, Z.add_0_r in Hw. apply Hw; [|lia]. split; [done|]. apply Z.div_pos; lia. }
  assert (bytes = bytes / bps * bps) as Hq by (Z.div_mod_to_equations; lia). set (n := bytes / bps) in *. clearbody n. subst bytes.
  induction f as [|f IH]; intros k Hk Hf; [nia|]. rewrite while_S. unfold body at 1. rewrite <- Z.mul_sub_distr_r.
  destruct (Z.ltb_spec 0 ((n - k) * bps)) as [Hr|Hr].
  2: { assert (k = n) as -> by nia. by rewrite ret_run. }
  set (chunk := if _ <? _ then MAX_USB_TRANSFER else _). assert (exists m, chunk = m * bps /\ 0 < m <= n - k /\ m <= 65536) as (m & -> & Hm1 & Hm2).
  { unfold chunk. destruct Hd. destruct (Z.ltb_spec MAX_USB_TRANSFER ((n - k) * bps)) as [Hlt|Hge].
    - assert (MAX_USB_TRANSFER = MAX_USB_TRANSFER / bps * bps) as Hx by (Z.div_mod_to_equations; lia). unfold MAX_USB_TRANSFER in *.
      exists (64 * 1024 / bps). split; [done|]. nia.
    - exists (n - k). unfold MAX_USB_TRANSFER in *. split; [done|]. nia. }
  unfold U32_MAX in *. cbv zeta. rewrite Z.div_mul, (u32_id m) by lia.
  rewrite bind_run, (device_read_ok b) by nia. rewrite (u32_id (lba + k + m)) by lia.
  rewrite ret_run. rewrite take_ge. 2: { pose proof (slice_length ((lba + k) * bps) (m * bps) (image b s)). nia. }
  replace ((lba + k) * bps) with (lba * bps + k * bps) by lia. rewrite slice_app by nia.
  replace ((n - k) * bps - m * bps) with (n * bps - (k + m) * bps) by lia. replace (k * bps + m * bps) with ((k + m) * bps) by lia.
  replace (lba + k + m) with (lba + (k + m)) by lia. apply IH; [lia|nia].
Qed.

(** The clusters of a run lie one behind the other. *)
Lemma run_ok s l :
  holds_data s -> Forall (cluster_ok b) l -> l <> [] ->
  (0 < run_length l <= length l)%nat /\
  slice (cpos (hd 0 l)) (Z.of_nat (run_length l) * cb) (image b s) = content s (take (run_length l) l) /\
  hd 0 l + Z.of_nat (run_length l) <= cluster_count b + 2.
Proof.
  intros Hs Hl Hne. induction Hl as [|c l Hc Hl IH]; [done|]. destruct l as [|c' l].
  { cbn [run_length hd take length]. rewrite Z.mul_1_l. unfold content. cbn. rewrite app_nil_r. unfold cluster_ok in Hc. split_and!; (done || lia). }
  destruct IH as (H1 & H2 & H3); [done|].
  change (run_length (c :: c' :: l)) with (if u32 (c + 1) =? c' then S (run_length (c' :: l)) else 1%nat). pose proof cb_pos. unfold cluster_ok in Hc. destruct Hg. rewrite u32_id by lia.
  destruct (Z.eqb_spec (c + 1) c') as [<-|].
  - cbn [hd] in *. set (k := run_length (c + 1 :: l)) in *. split; [cbn [length] in *; lia|]. split; [|lia]. cbn [take]. unfold content in *. cbn [fmap list_fmap concat]. rewrite <- H2.
    replace (Z.of_nat (S k) * cb) with (cb + Z.of_nat k * cb) by lia.
    rewrite <- slice_app by (unfold cpos; nia). f_equal. f_equal. unfold cpos. lia.
  - cbn [hd take length]. rewrite Z.mul_1_l. unfold content. cbn. rewrite app_nil_r. split_and!; (done || lia).
Qed.

Lemma read_run_ok s c rest :
  holds_data s -> Forall (cluster_ok b) (c :: rest) -> let k := run_length (c :: rest) in
  read_chunks b (cluster_to_sector b c) (Z.of_nat k * cb) s = Done (Some (content s (take k (c :: rest)))) s.
Proof.
  intros Hs Hrest. cbv zeta. destruct (run_ok s (c :: rest) Hs Hrest) as (H1 & H2 & H3); [done|]. cbn [hd] in H2, H3. set (k := run_length (c :: rest)) in *.
  pose proof cb_pos as Hcb. pose proof (Forall_inv Hrest) as Hc. destruct (sector_ok c Hc) as (E & S0 & _). pose proof (bps_pos b Hg) as Hbp.
  assert (cpos c + Z.of_nat k * cb <= zlen (image b s)).
  { unfold holds_data in Hs. unfold cpos in *. assert (Z.of_nat k * cb <= (cluster_count b + 2 - c) * cb) by nia. lia. }
  assert ((Z.of_nat k * cb) mod bps = 0 /\ Z.of_nat k * cb / bps = Z.of_nat k * sectors_per_cluster b) as [M1 M2].
  { unfold bytes_per_cluster. replace (Z.of_nat k * (bps * sectors_per_cluster b)) with (Z.of_nat k * sectors_per_cluster b * bps) by lia. by rewrite Z.mod_mul, Z.div_mul by lia. }
  assert (cluster_to_sector b c + Z.of_nat k * sectors_per_cluster b <= U32_MAX) as Hmax.
  { apply (Z.mul_le_mono_pos_r _ _ bps Hbp). rewrite Z.mul_add_distr_r, E. destruct Hd. unfold cpos, bytes_per_cluster in *.
    assert ((c - 2 + Z.of_nat k) * sectors_per_cluster b <= cluster_count b * sectors_per_cluster b) by nia. nia. }
  rewrite <- H2, <- E. apply read_chunks_ok; rewrite ?M2, ?E; (done || nia).
Qed.

Context (can_alloc : Z -> bool) (Hal : forall i, can_alloc i = true).

(** Only the count of requests for memory may change. *)
Definition only_allocs s s' : Prop := exists n, s' = set_allocs n s.

Lemma read_runs_ok s l o to_read :
  holds_data s -> Forall (cluster_ok b) l -> 0 <= o < cb -> 0 <= to_read -> o + to_read <= zlen l * cb ->
  exists s', read_runs b can_alloc to_read o l s = Done (inr (slice o to_read (content s l))) s' /\ only_allocs s s'.
Proof.
  intros Hs Hl Ho Ht Hin. unfold read_runs. match goal with |- context [while _ ?bd] => set (body := bd) end. set (target := slice o to_read (content s l)).
  enough (forall f rest start data s1, only_allocs s s1 -> Forall (cluster_ok b) rest -> 0 <= start < cb -> zlen data <= to_read ->
    start + (to_read - zlen data) <= Z.max start (zlen rest * cb) -> data ++ slice start (to_read - zlen data) (content s rest) = target -> (length rest < f)%nat ->
    exists s', while f body (rest, start, data) s1 = Done (inr target) s' /\ only_allocs s s') as Hw.
  { apply Hw; cbn [length]; rewrite ?Z.sub_0_r; [by exists (fs_allocs s); destruct s|done|done|lia|lia|done|lia]. }
  clear Ho Ht Hin. induction f as [|f IH]; intros rest start data s1 [n1 ->] Hrest Hst Hdl Hin Heq Hf; [lia|].
  rewrite while_S. unfold body at 1. destruct rest as [|c rest].
  { rewrite ret_run. cbn in Hin. assert (to_read - zlen data = 0) as Hz by lia. rewrite Hz, slice_nil, app_nil_r in Heq. subst data. eexists. split; [done|by eexists]. }
  destruct (Z.ltb_spec (zlen data) to_read) as [Hlt|Hge].
  2: { assert (to_read - zlen data = 0) as Hz by lia. rewrite Hz, slice_nil, app_nil_r in Heq. subst data. rewrite ret_run. eexists. split; [done|by eexists]. }
  destruct (run_ok s (c :: rest) Hs Hrest) as (H1 & _ & _); [done|]. pose proof (fun n => read_run_ok (set_allocs n s) c rest Hs Hrest) as Hread. cbv zeta in Hread.
  change (forall n, read_chunks b (cluster_to_sector b c) (Z.of_nat (run_length (c :: rest)) * cb) (set_allocs n s) =
    Done (Some (content s (take (run_length (c :: rest)) (c :: rest)))) (set_allocs n s)) in Hread.
  set (k := run_length (c :: rest)) in *. cbv zeta. pose proof cb_pos as Hcb.
  assert (content s (c :: rest) = content s (take k (c :: rest)) ++ content s (drop k (c :: rest))) as Hsplit by (rewrite <- content_app, take_drop; done).
  assert (zlen (content s (take k (c :: rest))) = Z.of_nat k * cb) as HR.
  { rewrite content_length by (done || by apply Forall_take). rewrite length_take, Nat.min_l by lia. done. }
  set (R := content s (take k (c :: rest))) in *. set (t := to_read - zlen data) in *. set (to_copy := if t <? _ then t else _).
  assert (to_copy = Z.min t (Z.of_nat k * cb - start)) as Htc by (unfold to_copy; zcase; lia).
  assert (forall n, exists s', while f body (drop k (c :: rest), 0, data ++ slice start to_copy R) (set_allocs n s) = Done (inr target) s' /\ only_allocs s s') as Hnext.
  { intros n. assert (zlen (slice start to_copy R) = to_copy) as Hsl by (apply slice_length; nia).
    apply IH; [by eexists|by apply Forall_drop|lia|rewrite length_app; lia| | |rewrite length_drop; cbn [length] in *; lia];
      rewrite length_app, ?length_drop, Nat2Z.inj_add, Hsl; replace (to_read - (zlen data + to_copy)) with (t - to_copy) by lia; [cbn [length] in *; nia|].
    rewrite <- Heq, Hsplit, <- app_assoc. f_equal. destruct (Z.le_gt_cases t (Z.of_nat k * cb - start)).
    - rewrite Htc, Z.min_l, Z.sub_diag, slice_nil, app_nil_r, slice_left by lia. done.
    - rewrite Htc, Z.min_r, slice_across, HR by lia. done. }
  destruct ((start =? 0) && (to_copy =? Z.of_nat k * cb)) eqn:Hfast.
  - apply andb_true_iff in Hfast as [->%Z.eqb_eq Hall%Z.eqb_eq]. rewrite bind_run, Hread, ret_run.
    rewrite Hall, <- HR, slice_all in Hnext. apply Hnext.
  - rewrite bind_run, alloc_run, Hal. cbn [negb fs_allocs set_allocs]. rewrite bind_run. change (set_allocs (n1 + 1) (set_allocs n1 s)) with (set_allocs (n1 + 1) s).
    rewrite Hread, ret_run. apply Hnext.
Qed.
End files.

Section writing.
Context {D : Type} `{!BlockDevice D} (b : bpb) `{!Disk D (bytes_per_sector b)}.
Hypothesis (Hg : geo_ok b) (Hd : data_ok b).
Local Abbreviation bps := (bytes_per_sector b).
Local Abbreviation cb := (bytes_per_cluster b).
Implicit Types (s : fs D).

(** ** What a step may change *)

(** [s'] has the tables of [s], and the data of all clusters but those of [cs]. *)
Record only_data (cs : list Z) s s' : Prop := {
  od_ok : fs_ok b s';
  od_len : length (image b s') = length (image b s);
  od_free : fs_free s' = fs_free s;
  od_ent fat c : fat_ok b fat -> cluster_ok b c -> ent b s' fat c = ent b s fat c;
  od_data c : cluster_ok b c -> c ∉ cs -> cluster_data b s' c = cluster_data b s c
}.

Lemma only_data_trans cs cs' s1 s2 s3 : cs ⊆ cs' -> only_data cs s1 s2 -> only_data cs' s2 s3 -> only_data cs' s1 s3.
Proof. clear Hg Hd.
  intros Hsub [] []. split; [done|congruence|congruence| |].
  - intros. rewrite od_ent1, od_ent0; done.
  - intros c Hc Hin. rewrite od_data1, od_data0; (done || set_solver).
Qed.

Lemma only_data_weaken cs cs' s1 s2 : cs ⊆ cs' -> only_data cs s1 s2 -> only_data cs' s1 s2.
Proof. clear Hg Hd. intros Hsub []. split; try done. intros c Hc Hin. apply od_data0; set_solver. Qed.

Lemma only_data_reads s s' cs : fs_dev s' = fs_dev s -> fs_free s' = fs_free s -> fs_ok b s' -> only_data cs s s'.
Proof. clear Hg Hd. intros Hdev Hf Hok. split; unfold ent, cluster_data, image; by rewrite ?Hdev. Qed.

Lemma od_holds cs s s' : only_data cs s s' -> holds_data b s -> holds_data b s'.
Proof. clear Hg Hd. intros []. unfold holds_data. by rewrite od_len0. Qed.

Lemma fat0_ok : fat_ok b 0.
Proof. destruct Hg. unfold fat_ok. lia. Qed.

Lemma nxt_ent s s' c : (cluster_ok b c -> ent b s' 0 c = ent b s 0 c) -> nxt b s' c = nxt b s c.
Proof. clear Hg Hd. intros He. unfold nxt. case_decide as Hc; [|done]. by rewrite He. Qed.

Lemma chain_keep s s' c l : (forall x, x ∈ l -> ent b s' 0 x = ent b s 0 x) -> chain_from b s c l -> chain_from b s' c l.
Proof. clear Hg Hd.
  revert c. induction l as [|x l IH]; intros c He; [done|]. cbn [chain_from]. intros (-> & Hc & Hl).
  rewrite (nxt_ent s s') by (intros _; apply He; set_solver). split_and!; try done. destruct l; [done|]. apply IH; [|done]. intros. apply He. set_solver.
Qed.

Lemma healthy_keep cs s s' : only_data cs s s' -> healthy b s -> healthy b s'.
Proof. intros [] Hh c Hc. unfold valid_at. rewrite od_ent0 by (done || apply fat0_ok). by apply Hh. Qed.

Lemma counted_keep s s' : (forall c, cluster_ok b c -> ent b s' 0 c = ent b s 0 c) -> fs_free s' = fs_free s -> counted b s -> counted b s'.
Proof. clear Hg Hd.
  intros He Hf Hc. unfold counted. rewrite Hf. destruct Hc as [?|Hc]; [by left|right]. rewrite Hc. unfold free_count. do 2 f_equal.
  apply filter_ext_in. intros c Hin%elem_clusters. by rewrite He.
Qed.

Lemma content_keep s s' l : (forall c, c ∈ l -> cluster_data b s' c = cluster_data b s c) -> content b s' l = content b s l.
Proof. clear Hg Hd. intros He. unfold content. f_equal. apply list_fmap_ext. intros i c Hc. apply He. by eapply list_elem_of_lookup_2. Qed.

(** Writing entries does not touch the data. *)
Lemma entries_data cs v s s' c : holds_data b s -> cluster_ok b c -> entries_written b cs v s s' -> cluster_data b s' c = cluster_data b s c.
Proof.
  intros Hs Hc Hw. unfold cluster_data. apply list_eq. intros i. destruct (cpos_in b Hg Hd s c Hs Hc) as [H0 _]. rewrite !slice_lookup by lia.
  case_decide; [|done]. apply (ew_rest _ _ _ _ _ Hw). intros fat x Hf Hx _ Hin. pose proof (entry_before b Hg fat x Hf Hx) as Hbef.
  assert (cpos b 2 <= cpos b c) by (pose proof (cb_pos b Hg Hd); unfold cpos, cluster_ok in *; nia). lia.
Qed.

(** ** Writing a cluster *)

Lemma cluster_write_ok s c buf :
  fs_ok b s -> holds_data b s -> cluster_ok b c -> zlen buf = cb ->
  exists s', device_write (cluster_to_sector b c) (sectors_per_cluster b) buf s = Done true s' /\
    only_data [c] s s' /\ cluster_data b s' c = buf /\ fs_next s' = fs_next s.
Proof.
  intros Hok Hs Hc Hlen. destruct (sector_ok b Hg Hd c Hc) as (E & H0 & _), (cpos_in b Hg Hd s c Hs Hc) as [Hp Hin]. pose proof (do_spc b Hd) as Hspc.
  assert (sectors_per_cluster b * bps = cb) as Hcb by (unfold bytes_per_cluster; lia).
  destruct (device_write_ok b s (cluster_to_sector b c) (sectors_per_cluster b) buf) as (d & Ed & Hdev); [done|lia|lia|lia|].
  rewrite E in Hdev. exists (set_dev d s). split; [done|]. split; [|split; [|done]].
  - destruct Hok as [Hf Hsl Hcache]. assert (length (splice (cpos b c) buf (image b s)) = length (image b s)) as Hl by (apply splice_length; lia). split; [| | done | |].
    + split; [unfold fits, image in *; cbn; rewrite Hdev; unfold image in *; by rewrite Hl|done|].
      unfold image at 1. cbn [fs_dev set_dev fs_cache]. rewrite Hdev. eapply Forall_impl; [exact Hcache|]. intros e He. apply agrees_splice; try done; [lia|].
      intros Hv. left. destruct (He Hv) as [[_ Hsec] _]. pose proof (bps_pos b Hg). pose proof (cb_pos b Hg Hd). unfold cpos, cluster_ok in *. nia.
    + unfold image at 1. cbn. by rewrite Hdev.
    + intros fat x Hfat Hx. unfold ent, image. cbn [fs_dev set_dev]. rewrite Hdev. f_equal. rewrite !word_at_slice.
      pose proof (entry_before b Hg fat x Hfat Hx) as Hbef. destruct (entry_fits b Hg s fat x Hf Hfat Hx) as (F1 & _ & _).
      rewrite slice_splice_out; [done|done|lia|lia|]. left. pose proof (cb_pos b Hg Hd). unfold cpos, cluster_ok in *. nia.
    + intros x Hx Hne. unfold cluster_data, image. cbn [fs_dev set_dev]. rewrite Hdev. destruct (cpos_in b Hg Hd s x Hs Hx).
      rewrite slice_splice_out; [done|done|lia|done|]. rewrite Hlen. destruct (cpos_apart b Hg Hd x c); [set_solver|by left|by right].
  - unfold cluster_data, image. cbn [fs_dev set_dev]. rewrite Hdev, <- Hlen. apply slice_splice_same; lia.
Qed.

Context (can_alloc : Z -> bool) (Hal : forall i, can_alloc i = true).

Lemma od_allocs cs s s' n : only_data cs (set_allocs n s) s' -> only_data cs s s'.
Proof. by intros []. Qed.

(** A whole cluster through [write_cluster]. *)
Lemma write_cluster_ok s c buf :
  fs_ok b s -> holds_data b s -> cluster_ok b c -> zlen buf = cb ->
  exists s', write_cluster b can_alloc c buf 0 s = Done true s' /\ only_data [c] s s' /\ cluster_data b s' c = buf.
Proof.
  intros Hok Hs Hc Hlen. pose proof (cb_pos b Hg Hd) as Hcb. unfold write_cluster. rewrite Hlen, Z.add_0_r, (proj2 (Z.eqb_neq _ _)) by lia.
  assert (cb <= 512 * 255) by (destruct Hg, Hd; unfold bytes_per_cluster; nia). rewrite u64_id by (unfold UINT64_MAX; lia).
  rewrite Z.ltb_irrefl, bind_run, alloc_run, Hal. cbn [negb]. change (0 <? 0) with false. cbn [orb]. mstep.
  cbn [Z.to_nat take app]. rewrite Z.add_0_l, drop_ge, app_nil_r by (rewrite length_replicate; lia).
  set (s1 := set_allocs _ s). destruct (cluster_write_ok s1 c buf) as (s' & E & Ho & Hdat & _); try done; [by eapply ok_same; [..|exact Hok]|].
  exists s'. split_and!; try done. by eapply od_allocs.
Qed.

(** ** Writing the bytes *)

Lemma read_cluster_result_ok s c :
  holds_data b s -> cluster_ok b c -> exists r, 0 < r /\ read_cluster_result b c s = Done (r, cluster_data b s c) s.
Proof.
  intros Hs Hc. destruct (sector_ok b Hg Hd c Hc) as (E & H0 & _), (cpos_in b Hg Hd s c Hs Hc) as [Hp Hin]. pose proof (do_spc b Hd).
  assert (sectors_per_cluster b * bps = cb) as Hcb by (unfold bytes_per_cluster; lia). unfold image in *.
  destruct (disk_read (fs_dev s) (cluster_to_sector b c) (sectors_per_cluster b)) as (r & Hr & Er); [done|lia|lia|].
  exists r. split; [done|]. unfold read_cluster_result, cluster_data. rewrite Er, E, Hcb. by destruct s.
Qed.

Lemma write_piece_ok s c o piece :
  fs_ok b s -> holds_data b s -> cluster_ok b c -> 0 <= o -> o + zlen piece <= cb ->
  exists s', write_piece b can_alloc c o piece s = Done true s' /\ only_data [c] s s' /\
    cluster_data b s' c = splice o piece (cluster_data b s c).
Proof.
  intros Hok Hs Hc Ho Hin. pose proof (data_length b Hg Hd s c Hs Hc) as Hdl.
  destruct (write_cluster_ok s c (splice o piece (cluster_data b s c)) Hok Hs Hc) as (s1 & E1 & O1 & D1); [rewrite splice_length; lia|].
  exists s1. split; [|done]. unfold write_piece. cbv zeta. destruct (negb (o =? 0) || (zlen piece <? cb)) eqn:Hpart.
  - destruct (read_cluster_result_ok s c Hs Hc) as (r & Hr & Er). rewrite bind_run, Er. cbn [fst snd]. rewrite (proj2 (Z.ltb_ge _ _)) by lia. exact E1.
  - apply orb_false_iff in Hpart as [Ho0 Htw]. apply negb_false_iff, Z.eqb_eq in Ho0. apply Z.ltb_ge in Htw.
    assert (splice o piece (cluster_data b s c) = piece) as Hall; [|by rewrite Hall in E1].
    rewrite Ho0. unfold splice. cbn. rewrite drop_ge by lia. by rewrite app_nil_r.
Qed.

(** How much goes into the cluster at [cur], and what is left. *)
Lemma piece_cases (src : list Z) cur :
  0 <= cur -> let o := cur mod cb in let tw := if zlen src <? cb - o then zlen src else cb - o in
  0 <= o < cb /\ tw = Z.min (zlen src) (cb - o) /\
  (o + zlen src <= cb /\ drop (Z.to_nat tw) src = [] \/ o + tw = cb /\ (cur + tw) mod cb = 0 /\ cb < o + zlen src).
Proof.
  intros Hcur o tw. pose proof (cb_pos b Hg Hd) as Hcb. assert (0 <= o < cb) as Ho by (apply Z.mod_pos_bound; lia).
  assert (tw = Z.min (zlen src) (cb - o)) as Htw by (unfold tw; zcase; lia). split_and!; try lia.
  destruct (Z.le_gt_cases (zlen src) (cb - o)); [left; split; [lia|apply drop_ge; lia]|right]. split; [lia|]. split; [|lia].
  assert (cur + tw = (cur / cb + 1) * cb) as -> by (unfold o in *; Z.div_mod_to_equations; lia). apply Z.mod_mul. lia.
Qed.

Lemma write_clusters_ok src cur s rest :
  fs_ok b s -> holds_data b s -> Forall (cluster_ok b) rest -> NoDup rest -> 0 <= cur -> (src = [] \/ cur mod cb + zlen src <= zlen rest * cb) ->
  exists s', write_clusters b can_alloc src cur rest s = Done true s' /\ only_data rest s s' /\
    content b s' rest = splice (cur mod cb) src (content b s rest).
Proof.
  intros Hok Hs Hr Hnd Hcur Hin. unfold write_clusters. match goal with |- context [while _ ?bd] => set (body := bd) end.
  enough (forall f rest src cur s, (length rest < f)%nat -> fs_ok b s -> holds_data b s -> Forall (cluster_ok b) rest -> NoDup rest -> 0 <= cur ->
    (src = [] \/ cur mod cb + zlen src <= zlen rest * cb) ->
    exists s', while f body (src, cur, rest) s = Done true s' /\ only_data rest s s' /\ content b s' rest = splice (cur mod cb) src (content b s rest)) as Hw.
  { apply Hw; (done || lia). }
  clear src cur s rest Hok Hs Hr Hnd Hcur Hin. intros f. induction f as [|f IH]; intros rest src cur s Hf Hok Hs Hr Hnd Hcur Hin; [lia|]. rewrite while_S. unfold body at 1.
  destruct (decide (src = [])) as [->|Hne].
  { exists s. rewrite splice_none. split; [by destruct rest|]. split; [by apply only_data_reads|done]. }
  destruct (piece_cases src cur Hcur) as (Ho & Htw & Hcases). cbv zeta. set (o := cur mod cb) in *. set (tw := if zlen src <? cb - o then _ else _) in *.
  destruct Hin as [|Hin]; [done|]. destruct rest as [|c rest]; [cbn in Hin; destruct src; [done|cbn in Hin; lia]|].
  apply Forall_cons in Hr as [Hc Hr]. apply NoDup_cons in Hnd as [Hnin Hnd]. assert (0 < zlen src) as Hsrc by (destruct src; [done|cbn [length]; lia]).
  rewrite (proj2 (Z.ltb_lt _ _)) by done. set (piece := take (Z.to_nat tw) src).
  assert (zlen piece = tw) as Hpl by (unfold piece; rewrite length_take; lia). pose proof (data_length b Hg Hd s c Hs Hc) as Hdl.
  destruct (write_piece_ok s c o piece Hok Hs Hc) as (s1 & E1 & O1 & D1); [lia|lia|]. rewrite bind_run, E1. cbn [negb]. rewrite ret_run.
  destruct (IH rest (drop (Z.to_nat tw) src) (cur + tw) s1) as (s2 & E2 & O2 & C2); try done; try lia;
    [cbn [length] in *; lia|by destruct O1|by eapply od_holds| |].
  { destruct Hcases as [[_ Hz]|(Htc & Hz & _)]; [by left|right]. rewrite Hz, length_drop. cbn [length] in *. lia. }
  exists s2. split; [done|]. split; [eapply only_data_trans; [|exact O1|eapply only_data_weaken; [|exact O2]]; set_solver|].
  change (content b s2 (c :: rest)) with (cluster_data b s2 c ++ content b s2 rest). change (content b s (c :: rest)) with (cluster_data b s c ++ content b s rest).
  rewrite C2, (od_data _ _ _ O2), D1 by done. rewrite (content_keep s s1).
  2: { intros x Hx. apply (od_data _ _ _ O1); [rewrite Forall_forall in Hr; by apply Hr|]. intros ->%list_elem_of_singleton. done. }
  destruct Hcases as [[Hle Hz]|(Htc & Hz & _)].
  - rewrite Hz, splice_none, splice_left by lia. unfold piece. rewrite take_ge by lia. done.
  - rewrite Hz. transitivity (splice o (piece ++ drop (Z.to_nat tw) src) (cluster_data b s c ++ content b s rest));
      [by rewrite splice_across by lia|unfold piece; by rewrite take_drop].
Qed.
End writing.

(** ** Files on FAT32: extending a chain and updating its directory entry *)

Section growing.
Context {D : Type} `{!BlockDevice D} (b : bpb) `{!Disk D (bytes_per_sector b)}.
Hypothesis (Hg : geo_ok b) (Hd : data_ok b).
Local Abbreviation cb := (bytes_per_cluster b).
Implicit Types (s : fs D).

(** ** What a change of the table keeps *)

(** [s'] has the data of [s] and its table outside [cs]. *)
Record only_entries (cs : list Z) s s' : Prop := {
  oe_ok : fs_ok b s';
  oe_healthy : healthy b s';
  oe_counted : counted b s -> counted b s';
  oe_len : length (image b s') = length (image b s);
  oe_ent c : cluster_ok b c -> c ∉ cs -> ent b s' 0 c = ent b s 0 c;
  oe_data c : cluster_ok b c -> cluster_data b s' c = cluster_data b s c
}.

Lemma only_entries_trans cs1 cs2 cs s1 s2 s3 :
  cs1 ⊆ cs -> cs2 ⊆ cs -> only_entries cs1 s1 s2 -> only_entries cs2 s2 s3 -> only_entries cs s1 s3.
Proof. clear Hg Hd.
  intros H1 H2 [] []. split; [done|done|auto|congruence| |].
  - intros c Hc Hin. rewrite oe_ent1, oe_ent0; (done || set_solver).
  - intros c Hc. rewrite oe_data1, oe_data0; done.
Qed.

Lemma only_entries_weaken cs1 cs s1 s2 : cs1 ⊆ cs -> only_entries cs1 s1 s2 -> only_entries cs s1 s2.
Proof. clear Hg Hd. intros Hsub []. split; try done. intros c Hc Hin. apply oe_ent0; [done|set_solver]. Qed.

Lemma reads_entries s s' : fs_dev s' = fs_dev s -> fs_free s' = fs_free s -> fs_ok b s' -> healthy b s -> only_entries [] s s'.
Proof. clear Hg Hd.
  intros Hdev Hf Hok Hh. split; [done|by eapply healthy_same| | | |].
  - apply counted_keep; [|done]. intros c _. by apply ent_same.
  - unfold image. by rewrite Hdev.
  - intros. by apply ent_same.
  - intros. unfold cluster_data, image. by rewrite Hdev.
Qed.

Lemma oe_holds cs s s' : only_entries cs s s' -> holds_data b s -> holds_data b s'.
Proof. clear Hg Hd. intros []. unfold holds_data. by rewrite oe_len0. Qed.

(** Writing one entry. *)
Lemma entry_write_ok fuel s c v :
  fs_ok b s -> healthy b s -> holds_data b s -> cluster_ok b c -> is_valid_fat_entry b v = true -> (0 < fuel)%nat ->
  exists s', write_fat_entry b fuel c v s = Done true s' /\ only_entries [c] s s' /\ ent b s' 0 c = Z.land v 0x0FFFFFFF.
Proof.
  intros Hok Hh Hs Hc Hv Hf. destruct fuel as [|fuel]; [lia|]. pose proof (fat0_ok b Hg) as H0.
  destruct (write_fat_entry_ok b Hg fuel s c v Hok Hc (Hh c Hc)) as (s' & E & Hw & F1 & _ & _ & Hok').
  destruct (ew_ent b _ _ _ _ 0 c Hw H0 Hc) as [Hin _]. specialize (Hin eq_refl). rewrite land_28_idem in Hin.
  exists s'. split_and!; try done. split; [done| | | | |].
  - intros x Hx. unfold valid_at. destruct (decide (x = c)) as [->|Hne].
    + rewrite Hin. unfold is_valid_fat_entry in *. by rewrite land_28_idem.
    + destruct (ew_ent b _ _ _ _ 0 x Hw H0 Hx) as [_ Hout]. rewrite (Hout Hne). by apply Hh.
  - intros Hcnt. by eapply write_counted.
  - apply Hw.
  - intros x Hx Hne. destruct (ew_ent b _ _ _ _ 0 x Hw H0 Hx) as [_ Hout]. apply Hout. set_solver.
  - intros x Hx. by eapply entries_data.
Qed.

(** ** One cluster more *)

Lemma next_value_ok f : cluster_ok b f -> ends_chain f = false /\ Z.land f 0x0FFFFFFF = f /\ is_valid_fat_entry b f = true.
Proof.
  intros Hf. unfold cluster_ok in Hf. destruct Hg.
  assert (Z.land f 0x0FFFFFFF = f) as Hl by (change 0x0FFFFFFF with (Z.ones 28); rewrite Z.land_ones, Z.mod_small by lia; done).
  unfold is_valid_fat_entry, ends_chain. rewrite Hl, u32_id by lia. cbv zeta.
  split_and!; [|done|]; destruct (Z.leb_spec 0x0FFFFFF8 f), (Z.eqb_spec f 0), (Z.eqb_spec f 1), (Z.eqb_spec f 0x0FFFFFF7), (Z.ltb_spec f 2),
    (Z.leb_spec (cluster_count b + 2) f); (done || lia).
Qed.

Lemma nxt_set s c v : cluster_ok b c -> ent b s 0 c = v -> nxt b s c = if ends_chain v then 0 else v.
Proof. intros Hc <-. unfold nxt. by rewrite decide_True. Qed.

Lemma last_app {A} (l : list A) x d : List.last (l ++ [x]) d = x.
Proof. by rewrite List.last_last. Qed.

Lemma chain_last s c l : chain_from b s c l -> List.last l 0 ∈ l.
Proof.
  revert c. induction l as [|x l IH]; intros c Hl; [done|]. destruct Hl as (-> & _ & Hl). destruct l as [|y l]; [set_solver|].
  change (List.last (c :: y :: l) 0) with (List.last (y :: l) 0). apply IH in Hl. set_solver.
Qed.

Lemma chain_snoc s s' c l f :
  chain_from b s c l -> NoDup l -> cluster_ok b f -> f ∉ l ->
  (forall x, x ∈ l -> x <> List.last l 0 -> ent b s' 0 x = ent b s 0 x) -> ent b s' 0 (List.last l 0) = f -> ent b s' 0 f = 0x0FFFFFFF ->
  chain_from b s' c (l ++ [f]).
Proof.
  revert c. induction l as [|x l IH]; intros c Hl Hnd Hf Hnin Hkeep Hlast Hend; [done|]. destruct Hl as (-> & Hc & Hl).
  destruct l as [|y l].
  - cbn in Hlast. cbn [app chain_from]. rewrite (nxt_set s' c f Hc Hlast). destruct (next_value_ok f Hf) as (-> & _ & _).
    split_and!; try done. rewrite (nxt_set s' f 0x0FFFFFFF Hf Hend). done.
  - change (List.last (c :: y :: l) 0) with (List.last (y :: l) 0) in *. apply NoDup_cons in Hnd as [Hcn Hnd].
    assert (c <> List.last (y :: l) 0) as Hne by (intros ->; apply Hcn; by eapply chain_last).
    change ((c :: y :: l) ++ [f]) with (c :: ((y :: l) ++ [f])). cbn [chain_from].
    rewrite (nxt_ent b s s') by (intros _; apply Hkeep; [set_solver|done]). split_and!; try done.
    assert (chain_from b s' (nxt b s c) ((y :: l) ++ [f])) as Hgoal by (apply IH; try done; [set_solver|intros; apply Hkeep; [set_solver|done]]).
    exact Hgoal.
Qed.

(** A free cluster is found when there is one. *)
Lemma find_free_ok fuel s :
  fs_ok b s -> healthy b s -> 2 <= cluster_count b < Z.of_nat fuel -> 0 < free_count b s ->
  exists f s', find_free_cluster b fuel s = Done f s' /\ fs_dev s' = fs_dev s /\ fs_free s' = fs_free s /\ fs_ok b s' /\
    cluster_ok b f /\ ent b s 0 f = 0 /\ (f =? 0) = false.
Proof.
  intros Hok Hh Hf Hfree. destruct (find_free_cluster_ok b Hg fuel s Hok Hh Hf) as (f & s' & E & (D1 & F1 & _) & Hok' & [[_ Hno]|(Hc & Hz & _)]).
  - exfalso. unfold free_count in Hfree. assert (filter (fun c => ent b s 0 c = 0) (clusters b) = []) as Hn; [|rewrite Hn in Hfree; cbn in Hfree; lia].
    destruct (filter _ _) as [|x l] eqn:Hx; [done|]. assert (x ∈ filter (fun c => ent b s 0 c = 0) (clusters b)) as [H1 H2%elem_clusters]%list_elem_of_filter by (rewrite Hx; set_solver).
    by destruct (Hno x H2).
  - exists f, s'. split_and!; try done. apply Z.eqb_neq. unfold cluster_ok in Hc. lia.
Qed.

(** The table after a free cluster [f] has been hung behind [l]. *)
Record grown_by (l l2 : list Z) c s s' : Prop := {
  gb_chain : chain_from b s' c (l ++ l2);
  gb_used x : x ∈ l ++ l2 -> ent b s' 0 x <> 0;
  gb_new x : x ∈ l2 -> cluster_ok b x /\ ent b s 0 x = 0;
  gb_only : only_entries (l ++ l2) s s'
}.

Lemma grown_refl s c l :
  fs_ok b s -> healthy b s -> chain_from b s c l -> (forall x, x ∈ l -> ent b s 0 x <> 0) -> grown_by l [] c s s.
Proof.
  intros Hok Hh Hl Hne. split; rewrite ?app_nil_r; [done|done| |].
  - intros x Hx. by apply not_elem_of_nil in Hx.
  - eapply only_entries_weaken; [|by apply reads_entries]. set_solver.
Qed.

Lemma append_cluster_ok fuel s c l :
  fs_ok b s -> healthy b s -> holds_data b s -> chain_from b s c l -> (forall x, x ∈ l -> ent b s 0 x <> 0) ->
  2 <= cluster_count b < Z.of_nat fuel -> 0 < free_count b s ->
  exists f s1 s2 s3, find_free_cluster b fuel s = Done f s1 /\ (f =? 0) = false /\ write_fat_entry b fuel (List.last l 0) f s1 = Done true s2 /\
    write_fat_entry b fuel f 0x0FFFFFFF s2 = Done true s3 /\ grown_by l [f] c s s3 /\ free_count b s3 = free_count b s - 1.
Proof.
  intros Hok Hh Hs Hl Hne Hf Hfree. destruct (find_free_ok fuel s Hok Hh Hf Hfree) as (f & s1 & E1 & D1 & F1 & Hok1 & Hcf & Hzf & Hf0).
  pose proof (reads_entries s s1 D1 F1 Hok1 Hh) as O1. pose proof (chain_last s c l Hl) as Hlin. pose proof (chain_ok b s c l Hl) as Hlok. rewrite Forall_forall in Hlok.
  pose proof (Hlok _ Hlin) as Hcl. set (x := List.last l 0) in *. assert (f ∉ l) as Hnin by (intros Hin; by apply (Hne f)).
  destruct (next_value_ok f Hcf) as (_ & Hland & Hval).
  destruct (entry_write_ok fuel s1 x f) as (s2 & E2 & O2 & V2); try done; [apply O1|by eapply oe_holds|lia|]. rewrite Hland in V2.
  destruct (entry_write_ok fuel s2 f 0x0FFFFFFF) as (s3 & E3 & O3 & V3); try done; [apply O2|apply O2|by eapply oe_holds; [|eapply oe_holds]|lia|].
  assert (x <> f) as Hxf by (intros Heq; apply Hnin; rewrite <- Heq; done).
  assert (ent b s3 0 x = f) as Vx by (rewrite (oe_ent _ _ _ O3); [done|done|set_solver]).
  assert (forall y, cluster_ok b y -> y <> x -> y <> f -> ent b s3 0 y = ent b s 0 y) as Hkeep.
  { intros y Hy H1 H2. rewrite (oe_ent _ _ _ O3), (oe_ent _ _ _ O2), (oe_ent _ _ _ O1); try done; set_solver. }
  exists f, s1, s2, s3. split_and!; try done.
  - split.
    + apply (chain_snoc s s3); try done; [by eapply chain_NoDup|]. intros y Hy Hyx. apply Hkeep; [by apply Hlok|done|]. intros ->. done.
    + intros y [Hy| ->%list_elem_of_singleton]%elem_of_app; [|by rewrite V3]. destruct (decide (y = x)) as [->|]; [rewrite Vx; unfold cluster_ok in Hcf; lia|].
      rewrite Hkeep; [by apply Hne|by apply Hlok|done|by intros ->].
    + intros y ->%list_elem_of_singleton. done.
    + eapply only_entries_trans; [| |exact O1|eapply only_entries_trans; [| |exact O2|exact O3]]; [set_solver|reflexivity|set_solver|set_solver].
  - unfold free_count. rewrite (count_change (fun y => ent b s 0 y = 0) (fun y => ent b s3 0 y = 0) f (clusters b)); [|apply NoDup_seqZ|by apply elem_clusters|].
    + rewrite V3, Hzf. rewrite decide_False by done. rewrite decide_True by done. lia.
    + intros y Hy%elem_clusters Hyf. destruct (decide (y = x)) as [->|]; [|by rewrite Hkeep]. rewrite Vx. specialize (Hne x Hlin). unfold cluster_ok in Hcf. lia.
Qed.

Lemma extend_chain_ok fuel n : forall s c l,
  fs_ok b s -> healthy b s -> holds_data b s -> chain_from b s c l -> (forall x, x ∈ l -> ent b s 0 x <> 0) ->
  2 <= cluster_count b < Z.of_nat fuel -> Z.of_nat n <= free_count b s ->
  exists l2 s', extend_chain b fuel n (List.last l 0) s = Done true s' /\ length l2 = n /\ grown_by l l2 c s s'.
Proof.
  induction n as [|n IH]; intros s c l Hok Hh Hs Hl Hne Hf Hfree; cbn [extend_chain].
  { exists [], s. split_and!; try done. by apply grown_refl. }
  destruct (append_cluster_ok fuel s c l Hok Hh Hs Hl Hne Hf) as (f & s1 & s2 & s3 & E1 & Hf0 & E2 & E3 & [C3 U3 N3 O3] & Hfc); [lia|].
  rewrite bind_run, E1, Hf0, bind_run, E2, bind_run, E3.
  destruct (IH s3 c (l ++ [f])) as (l2 & s' & E & Hlen & [C U N O]); try done; [apply O3|apply O3|by eapply oe_holds|lia|].
  rewrite last_app in E. exists (f :: l2), s'. split; [exact E|]. split; [cbn; lia|].
  split; rewrite <- ?app_assoc in *; cbn [app] in *; try done.
  - intros x [->|Hx]%elem_of_cons; [apply N3; set_solver|]. destruct (N x Hx) as [Hcx Hzx]. split; [done|].
    transitivity (ent b s3 0 x); [symmetry; apply (oe_ent _ _ _ O3); [done|]|done]. intros Hin. by apply (U3 x).
  - eapply only_entries_trans; [| |exact O3|exact O]; set_solver.
Qed.

Context (can_alloc : Z -> bool) (Hal : forall i, can_alloc i = true).

(** Reading a chain that is known. *)
Lemma get_chain_run fuel s c l :
  fs_ok b s -> healthy b s -> chain_from b s c l -> cluster_count b < Z.of_nat fuel ->
  exists s', get_cluster_chain b can_alloc fuel c s = Done (Some l) s' /\ fs_dev s' = fs_dev s /\ fs_free s' = fs_free s /\ fs_ok b s'.
Proof.
  intros Hok Hh Hl Hf. assert (cluster_ok b c) as Hc by (destruct l; [done|]; by destruct Hl as (_ & ? & _)).
  destruct (get_cluster_chain_ok b Hg can_alloc fuel s c Hok Hh Hc Hf) as (r & s' & E & (D1 & F1 & _) & Hok' & [[_ Hno]|(l' & Hl' & _ & Hr & _)]).
  - by destruct (Hno (length l)); apply chain_end.
  - rewrite !Hal in Hr. cbn in Hr. rewrite (chain_unique b s c l l' Hl Hl'), <- Hr. by exists s'.
Qed.

(** ** The clusters of a write *)

(** A file has no cluster yet, or the chain [l]. *)
Definition file_chain s (start : Z) (l : list Z) : Prop :=
  (start = 0 /\ l = []) \/ (chain_from b s start l /\ forall x, x ∈ l -> ent b s 0 x <> 0).

Lemma grow_chain_ok fuel s start needed l :
  fs_ok b s -> healthy b s -> holds_data b s -> file_chain s start l -> 0 < needed -> 2 <= cluster_count b < Z.of_nat fuel ->
  (if start =? 0 then 1 else 0) + Z.max 0 (needed - zlen l) <= free_count b s ->
  exists l2 start' s', grow_chain b can_alloc fuel start needed (if start =? 0 then None else Some l) s = Done (inr (l ++ l2), start') s' /\
    needed <= zlen (l ++ l2) /\ (start <> 0 -> start' = start) /\ grown_by l l2 start' s s'.
Proof.
  intros Hok Hh Hs Hfile Hn Hf Hfree. destruct Hf as [H2 Hf]. pose proof (reads_entries s s eq_refl eq_refl Hok Hh) as Orefl.
  assert (forall s1 start' l1 k, only_entries l1 s s1 -> chain_from b s1 start' l1 -> (forall x, x ∈ l1 -> ent b s1 0 x <> 0) -> Z.of_nat k <= free_count b s1 ->
    exists l2 s2 s3, extend_chain b fuel k (List.last l1 0) s1 = Done true s2 /\ get_cluster_chain b can_alloc fuel start' s2 = Done (Some (l1 ++ l2)) s3 /\
      length l2 = k /\ grown_by l1 l2 start' s1 s3) as Hext.
  { intros s1 start' l1 k O1 Hl1 Hne1 Hk. destruct (extend_chain_ok fuel k s1 start' l1) as (l2 & s2 & E2 & Hlen & [C2 U2 N2 O2]); try done; [apply O1|apply O1|by eapply oe_holds|].
    destruct (get_chain_run fuel s2 start' (l1 ++ l2)) as (s3 & E3 & D3 & F3 & Hok3); try done; [apply O2|apply O2|].
    exists l2, s2, s3. split_and!; try done. split; [by eapply chain_same| |done|].
    - intros x Hx. rewrite (ent_same b s2 s3) by done. by apply U2.
    - eapply only_entries_trans; [| |exact O2|apply reads_entries; try done; apply O2]; set_solver. }
  unfold grow_chain. destruct Hfile as [[-> ->]|[Hl Hne]]; cbn [Z.eqb].
  - rewrite (proj2 (Z.ltb_lt _ _)) by (cbn; lia). cbn [length Z.of_nat Z.eqb] in Hfree.
    destruct (find_free_ok fuel s Hok Hh) as (f & s1 & E1 & D1 & F1 & Hok1 & Hcf & Hzf & Hf0); [lia|lia|]. mstep. rewrite E1. mstep. rewrite Hf0.
    pose proof (reads_entries s s1 D1 F1 Hok1 Hh) as O1.
    destruct (entry_write_ok fuel s1 f 0x0FFFFFFF) as (s2 & E2 & O2 & V2); try done; [apply O1|by eapply oe_holds|lia|]. mstep. rewrite E2. mstep.
    assert (chain_from b s2 f [f]) as Hl2 by (cbn; split_and!; try done; by rewrite (nxt_set s2 f 0x0FFFFFFF Hcf V2)).
    assert (only_entries [f] s s2) as O2' by (eapply only_entries_trans; [| |exact O1|exact O2]; set_solver).
    destruct (get_chain_run fuel s2 f [f]) as (s3 & E3 & D3 & F3 & Hok3); try done; [apply O2|apply O2|]. mstep. rewrite E3. mstep.
    assert (only_entries [f] s s3) as O3 by (eapply only_entries_trans; [| |exact O2'|apply reads_entries; try done; apply O2]; set_solver).
    assert (free_count b s3 = free_count b s - 1) as Hfc.
    { unfold free_count. rewrite (count_change (fun y => ent b s 0 y = 0) (fun y => ent b s3 0 y = 0) f (clusters b)); [|apply NoDup_seqZ|by apply elem_clusters|].
      - rewrite (ent_same b s2 s3), V2, Hzf by done. rewrite decide_False by done. rewrite decide_True by done. lia.
      - intros y Hy%elem_clusters Hyf. rewrite (oe_ent _ _ _ O3); (done || set_solver). }
    destruct (Hext s3 f [f] (Z.to_nat (needed - 0)) O3) as (l2 & s4 & s5 & E4 & E5 & Hlen & [C5 U5 N5 O5]); [by eapply chain_same| |lia|].
    { intros x ->%list_elem_of_singleton. by rewrite (ent_same b s2 s3), V2. }
    change (zlen (@nil Z)) with 0. rewrite E4. mstep. rewrite E5. mstep. cbn [length app]. rewrite (proj2 (Z.ltb_ge _ _)) by lia.
    exists (f :: l2), f, s5. split; [done|]. split; [cbn [app length]; lia|]. split; [done|]. split; cbn [app] in *; try done.
    + intros x [->|Hx]%elem_of_cons; [done|]. destruct (N5 x Hx) as [Hcx Hzx]. split; [done|]. transitivity (ent b s3 0 x); [symmetry; apply (oe_ent _ _ _ O3); [done|]|done].
      intros ->%list_elem_of_singleton. rewrite (ent_same b s2 s3), V2 in Hzx by done. done.
    + eapply only_entries_trans; [| |exact O3|exact O5]; set_solver.
  - assert ((start =? 0) = false) as Hst by (apply Z.eqb_neq; destruct l; [done|]; destruct Hl as (_ & [? _] & _); lia). rewrite Hst in *.
    destruct (Z.ltb_spec (zlen l) needed) as [Hlt|Hge]; mstep.
    + destruct (Hext s start l (Z.to_nat (needed - zlen l))) as (l2 & s2 & s3 & E2 & E3 & Hlen & G3); [| |done|lia|].
      { eapply only_entries_weaken; [|exact Orefl]; set_solver. }
      { done. }
      rewrite E2. mstep. rewrite E3. mstep. rewrite length_app, (proj2 (Z.ltb_ge _ _)) by lia. exists l2, start, s3. rewrite length_app.
      split; [done|]. split; [lia|]. by split.
    + exists [], start, s. rewrite app_nil_r. split_and!; try done. by apply grown_refl.
Qed.
End growing.
