(* ===== verification/FatProps.v ===== *)
(** * The file allocation table: what it promises

    The claims on FAT entries, free clusters and chains, over any block device
    that works, and a disk in memory that shows their hypotheses can be met. *)

From Stdlib Require Import ZArith Lia.
From stdpp Require Import base tactics gmap numbers list.
From S2P Require Import Prelude.
From S2P Require Import Memory.
From S2P Require Import Slices.
From S2P Require Import Fat.
From S2P Require Import FatFacts.
From S2P Require Import FatTable.
From S2P Require Import FatChain.

(** ** A disk in memory *)

Definition ram_ok (lba n : Z) (d : list Z) : bool := (0 <=? lba) && (0 <? n) && ((lba + n) * 512 <=? zlen d).

#[local] Instance ram_device : BlockDevice (list Z) := {|
  dev_read lba n d := if ram_ok lba n d then (n, slice (lba * 512) (n * 512) d, d) else (0, [], d);
  dev_write lba n buf d := if ram_ok lba n d then (n, splice (lba * 512) buf d) else (0, d)
|}.

Lemma ram_in lba n d : 0 <= lba -> 0 < n -> (lba + n) * 512 <= zlen d -> ram_ok lba n d = true.
Proof. intros. unfold ram_ok. rewrite !andb_true_iff, Z.leb_le, Z.ltb_lt, Z.leb_le. lia. Qed.

#[local] Instance ram_disk : Disk (list Z) 512.
Proof.
  refine {| img d := d |}.
  - intros d lba n H1 H2 H3. exists n. cbn. rewrite ram_in by done. split; [lia|done].
  - intros d lba n buf H1 H2 H3 _. exists n, (splice (lba * 512) buf d). cbn. rewrite ram_in by done. split; [lia|done].
Defined.

(** Five clusters; the chain 2, 3, 5; the clusters 4 and 6 free. *)
Definition demo_bpb : bpb := {|
  bytes_per_sector := 512; sectors_per_cluster := 1; reserved_sector_count := 2; table_count := 2; root_entry_count := 0;
  total_sectors16 := 0; fat_size16 := 0; total_sectors32 := 9; fat_size32 := 1; root_cluster := 2; fs_info := 1
|}.

Definition demo_table (entries : list Z) : list Z :=
  let t := concat (to_le 4 <$> entries) in t ++ replicate (512 - length t) 0.

Definition demo_image (fat0 fat1 : list Z) : list Z := replicate 1024 0 ++ demo_table fat0 ++ demo_table fat1 ++ replicate 2560 0.

Definition demo_fs (d : list Z) : fs (list Z) := {|
  fs_dev := d; fs_cache := empty_cache; fs_counter := 0; fs_hits := 0; fs_misses := 0; fs_free := U32_MAX; fs_next := 2; fs_allocs := 0
|}.

Definition demo_fat : list Z := [0x0FFFFFF8; 0x0FFFFFFF; 3; 5; 0; 0x0FFFFFFF; 0].
Definition demo : fs (list Z) := demo_fs (demo_image demo_fat demo_fat).

Lemma demo_geo : geo_ok demo_bpb.
Proof. split; try done; vm_compute; intuition congruence. Qed.

Lemma demo_ok fat0 fat1 : (zlen (demo_image fat0 fat1) =? 4608) = true -> fs_ok demo_bpb (demo_fs (demo_image fat0 fat1)).
Proof.
  intros H%Z.eqb_eq. split; [|done|].
  - unfold fits. change (image demo_bpb _) with (demo_image fat0 fat1). rewrite H. done.
  - cbn [fs_cache demo_fs]. unfold empty_cache. by apply Forall_replicate.
Qed.

Lemma demo_cluster (P : Z -> Prop) : P 2 -> P 3 -> P 4 -> P 5 -> P 6 -> forall c, cluster_ok demo_bpb c -> P c.
Proof.
  intros H2 H3 H4 H5 H6 c Hc. unfold cluster_ok in Hc. change (cluster_count demo_bpb) with 5 in Hc.
  assert (c = 2 \/ c = 3 \/ c = 4 \/ c = 5 \/ c = 6) as Hcs by lia. naive_solver.
Qed.

Lemma demo_healthy : healthy demo_bpb demo.
Proof. intros c. revert c. apply demo_cluster; vm_compute; reflexivity. Qed.

(** ** Entries *)

Section claims.
Context {D : Type} `{!BlockDevice D} (b : bpb) `{!Disk D (bytes_per_sector b)}.
Implicit Types (s : fs D).

(** C19. Writing a FAT entry puts the value, without its four reserved bits, into
    every copy of the table and changes no other byte of the disk; reading any
    entry afterwards, through the cache, gives the new value at that cluster and
    the old values elsewhere; the count of free clusters stays right. *)
Theorem fat_entry_roundtrip fuel fuel' s c c' v :
  geo_ok b -> fs_ok b s -> healthy b s -> counted b s -> cluster_ok b c -> cluster_ok b c' ->
  is_valid_fat_entry b v = true -> (1 <= fuel)%nat -> (1 <= fuel')%nat ->
  exists s1 s2, write_fat_entry b fuel c v s = Done true s1 /\
    get_fat_entry b fuel' c' s1 = Done (if decide (c' = c) then Z.land v 0x0FFFFFFF else ent b s 0 c') s2 /\
    entries_written b (fun x => x = c) (Z.land v 0x0FFFFFFF) s s1 /\ fs_ok b s2 /\ healthy b s2 /\ counted b s2.
Proof.
  intros Hg Hok Hh Hcnt Hc Hc' Hv Hf Hf'. destruct fuel as [|fuel], fuel' as [|fuel']; try lia.
  destruct (write_fat_entry_ok b Hg fuel s c v Hok Hc (Hh c Hc)) as (s1 & E1 & Hw & F1 & _ & _ & Hok1).
  assert (fat_ok b 0) as H0 by (destruct Hg; unfold fat_ok; lia).
  assert (forall x, cluster_ok b x -> ent b s1 0 x = if decide (x = c) then Z.land v 0x0FFFFFFF else ent b s 0 x) as He.
  { intros x Hx. destruct (ew_ent b _ _ _ _ 0 x Hw H0 Hx) as [Hin Hout]. case_decide as Hd; [by rewrite (Hin Hd), land_28_idem|by apply Hout]. }
  assert (healthy b s1) as Hh1.
  { intros x Hx. unfold valid_at. rewrite He by done. case_decide; [|by apply Hh]. unfold is_valid_fat_entry in *. by rewrite land_28_idem. }
  destruct (get_fat_entry_ok b Hg fuel' s1 c' Hok1 Hc' (Hh1 c' Hc')) as (s2 & E2 & O2 & Hok2).
  pose proof (write_counted b Hg s s1 c v Hc Hcnt Hw F1) as Hcnt1. destruct O2 as (D2 & F2 & _ & _).
  exists s1, s2. rewrite E2, He by done. split_and!; try done; [by eapply healthy_same|].
  unfold counted, free_count, ent, image in *. by rewrite D2, F2.
Qed.

(** C34. [get_fat_entry] does not return when the entry in the first copy of the
    table is damaged and the one in the second copy is good: to repair the first
    copy it calls [write_fat_entry], which asks [get_fat_entry] for the old entry
    before it has written anything. *)
Theorem fat_repair_never_returns fuel s c :
  geo_ok b -> fs_ok b s -> cluster_ok b c -> 2 <= table_count b ->
  is_valid_fat_entry b (ent b s 0 c) = false -> is_valid_fat_entry b (ent b s 1 c) = true ->
  get_fat_entry b fuel c s = NoFuel.
Proof.
  intros Hg Hok Hc Ht Hbad Hgood. revert s Hok Hbad Hgood. induction (lt_wf fuel) as [fuel _ IH]. intros s Hok Hbad Hgood.
  destruct fuel as [|fuel]; [done|]. cbn [get_fat_entry]. rewrite (proj2 (out_of_range b Hg c) Hc).
  destruct (read_entry_ok b Hg s 0 c Hok) as (s1 & E1 & O1 & Hok1); [unfold fat_ok; lia|done|]. rewrite Z.mul_0_l, Z.add_0_r in E1.
  rewrite bind_run, E1. cbv zeta. fold (ent b s 0 c). rewrite Hbad, (proj2 (Z.ltb_ge _ _)) by done.
  destruct (read_entry_ok b Hg s1 1 c Hok1) as (s2 & E2 & O2 & Hok2); [unfold fat_ok; lia|done|]. rewrite Z.mul_1_l in E2.
  assert (u32 (reserved_sector_count b + fat_size32 b) = reserved_sector_count b + fat_size32 b) as Hu.
  { destruct Hg. unfold U32_MAX in *. assert (1 * fat_size32 b <= table_count b * fat_size32 b) by (apply Z.mul_le_mono_nonneg_r; lia). apply u32_id. lia. }
  rewrite bind_run, Hu, E2. cbv zeta. fold (ent b s1 1 c).
  rewrite (ent_same b s s1) by apply O1. rewrite Hgood. rewrite bind_run. unfold write_fat_entry_with. cbv zeta. rewrite bind_run, IH; try done; [lia| |].
  - by rewrite (ent_same b s1 s2), (ent_same b s s1) by (apply O1 || apply O2).
  - by rewrite (ent_same b s1 s2), (ent_same b s s1) by (apply O1 || apply O2).
Qed.

(** ** Free clusters *)

(** The count of free clusters, when it is not known, is found by a scan
    that ends with the number of clusters whose entry is 0; the table is
    unchanged, and a later load of FSINFO gives the same count and hint. *)
Theorem fsinfo_roundtrip s :
  geo_ok b -> info_ok b -> fs_info b <> 0 -> fs_ok b s -> fs_free s = U32_MAX -> 2 <= fs_next s < 2 ^ 32 ->
  exists s1 s2, get_free_cluster_count b s = Done (free_count b s) s1 /\ load_fs_info b s1 = Done true s2 /\
    fs_free s2 = free_count b s /\ fs_next s2 = fs_next s /\ fs_ok b s2 /\ counted b s2 /\
    (forall fat c, fat_ok b fat -> cluster_ok b c -> ent b s2 fat c = ent b s fat c).
Proof.
  intros Hg Hi H0 Hok HU Hn. destruct (get_free_cluster_count_ok b Hg s Hi Hok HU) as (s1 & E1 & Hok1 & F1 & N1 & T1 & I1).
  pose proof (count_bound b Hg (fun x => ent b s 0 x = 0)) as Hb. fold (free_count b s) in Hb.
  destruct (load_fs_info_ok b Hg s1 (free_count b s) (fs_next s) Hi H0 Hok1 (I1 H0)) as (s2 & E2 & F2 & N2 & D2 & C2); [destruct Hg; lia|lia|].
  exists s1, s2. split_and!; try done; [lia|by eapply ok_same| |].
  - right. rewrite F2. unfold free_count. f_equal. f_equal. apply filter_ext_in. intros c Hc%elem_clusters. rewrite (ent_same b s1 s2), T1 by (done || destruct Hg; unfold fat_ok; lia). done.
  - intros fat c Hf Hc. by rewrite (ent_same b s1 s2), T1.
Qed.

(** [find_free_cluster] returns, within one round over the table from the
    hint, a cluster whose entry is 0 if there is one, and 0 only if there is
    none; it changes nothing on the disk and moves the hint past the cluster. *)
Theorem free_cluster_found fuel s :
  geo_ok b -> fs_ok b s -> healthy b s -> 2 <= cluster_count b < Z.of_nat fuel ->
  exists c s', find_free_cluster b fuel s = Done c s' /\ fs_dev s' = fs_dev s /\ fs_free s' = fs_free s /\ fs_ok b s' /\
    if decide (c = 0) then forall c', cluster_ok b c' -> ent b s 0 c' <> 0
    else cluster_ok b c /\ ent b s 0 c = 0 /\ fs_next s' = c + 1.
Proof.
  intros Hg Hok Hh Hf. destruct (find_free_cluster_ok b Hg fuel s Hok Hh Hf) as (c & s' & E & (D1 & F1 & _) & Hok' & Hc).
  exists c, s'. split_and!; try done. destruct Hc as [[-> Hno]|(Hc & Hz & Hn)]; [by rewrite decide_True|].
  rewrite decide_False; [done|]. unfold cluster_ok in Hc. lia.
Qed.

(** ** Chains *)

(** C24. The tortoise and the hare stop within as many rounds as there are
    clusters, and report a loop exactly when following the entries never ends. *)
Theorem fat_loop_decided fuel s c :
  geo_ok b -> fs_ok b s -> healthy b s -> cluster_ok b c -> cluster_count b < Z.of_nat fuel ->
  exists r s', has_fat_loop b fuel c s = Done r s' /\ fs_dev s' = fs_dev s /\ fs_ok b s' /\
    (r = true <-> forall k, Nat.iter k (nxt b s) c <> 0).
Proof.
  intros Hg Hok Hh Hc Hf. destruct (has_fat_loop_ok b Hg fuel s c Hok Hh Hc Hf) as (r & s' & E & (D1 & _) & Hok' & Hr).
  exists r, s'. split_and!; try done. destruct r; [done|]. split; [done|]. destruct Hr as (k & _ & Hk). intros Hno. by destruct (Hno k).
Qed.

(** C18. Reading a chain in batches of 128 sectors gives exactly the clusters
    reached by following the entries one by one to the end of the chain, each
    once, when there is memory for it; a chain with a loop is refused; nothing on
    the disk changes. *)
Theorem chain_read can_alloc fuel s c :
  geo_ok b -> fs_ok b s -> healthy b s -> cluster_ok b c -> cluster_count b < Z.of_nat fuel -> (forall i, can_alloc i = true) ->
  exists r s', get_cluster_chain b can_alloc fuel c s = Done r s' /\ fs_dev s' = fs_dev s /\ fs_ok b s' /\
    match r with
    | Some l => NoDup l /\ Forall (cluster_ok b) l /\ (forall i x, l !! i = Some x -> x = Nat.iter i (nxt b s) c) /\ Nat.iter (length l) (nxt b s) c = 0
    | None => forall k, Nat.iter k (nxt b s) c <> 0
    end.
Proof.
  intros Hg Hok Hh Hc Hf Hal. destruct (get_cluster_chain_ok b Hg can_alloc fuel s c Hok Hh Hc Hf) as (r & s' & E & (D1 & _) & Hok' & Hr).
  exists r, s'. split_and!; try done. destruct Hr as [[-> Hno]|(l & Hl & Hlen & -> & _)]; [done|]. rewrite !Hal. cbn.
  split_and!; [by eapply chain_NoDup|by eapply chain_ok|intros i x; by apply chain_after|by apply chain_end].
Qed.

(** Freeing a chain clears the entries of its clusters in every copy of the
    table and no other byte of the disk, adds their number to the count of free
    clusters, and leaves the cache in agreement with the disk. *)
Theorem chain_freed can_alloc fuel s c l :
  geo_ok b -> fs_ok b s -> healthy b s -> counted b s -> chain_from b s c l -> (forall c', c' ∈ l -> ent b s 0 c' <> 0) ->
  cluster_count b < Z.of_nat fuel -> (forall i, can_alloc i = true) ->
  exists s', free_cluster_chain b can_alloc fuel c s = Done true s' /\ entries_written b (fun c' => c' ∈ l) 0 s s' /\
    fs_ok b s' /\ healthy b s' /\ counted b s' /\ free_count b s' = free_count b s + zlen l.
Proof.
  intros Hg Hok Hh Hcnt Hl Hne Hf Hal. destruct (free_cluster_chain_ok b Hg can_alloc fuel s c l) as (s' & E & Hw & Hok' & Hcnt' & _); try done.
  exists s'. split_and!; try done.
  - intros x Hx. unfold valid_at. destruct (ew_ent b _ _ _ _ 0 x Hw) as [Hin Hout]; [destruct Hg; unfold fat_ok; lia|done|].
    destruct (decide (x ∈ l)) as [Hxl|Hxl]; [by rewrite (Hin Hxl)|rewrite (Hout Hxl); by apply Hh].
  - eapply freed_count; try done; [by eapply chain_NoDup|by eapply chain_ok].
Qed.
End claims.

(** ** The hypotheses can be met *)

Lemma demo_counted : counted demo_bpb demo.
Proof. by left. Qed.

Lemma fat_entry_roundtrip_witness :
  exists s1 s2, write_fat_entry demo_bpb 2 4 0x0FFFFFFF demo = Done true s1 /\
    get_fat_entry demo_bpb 1 5 s1 = Done (if decide (5 = 4) then Z.land 0x0FFFFFFF 0x0FFFFFFF else ent demo_bpb demo 0 5) s2 /\
    entries_written demo_bpb (fun x => x = 4) (Z.land 0x0FFFFFFF 0x0FFFFFFF) demo s1 /\ fs_ok demo_bpb s2 /\ healthy demo_bpb s2 /\ counted demo_bpb s2.
Proof.
  apply (fat_entry_roundtrip demo_bpb 2 1 demo 4 5 0x0FFFFFFF);
    [apply demo_geo|by apply demo_ok|apply demo_healthy|apply demo_counted|vm_compute; intuition congruence|vm_compute; intuition congruence|reflexivity|lia|lia].
Defined.

Lemma fat_repair_never_returns_witness :
  get_fat_entry demo_bpb 1000 4 (demo_fs (demo_image [0x0FFFFFF8; 0x0FFFFFFF; 3; 5; 1; 0x0FFFFFFF; 0] demo_fat)) = NoFuel.
Proof.
  apply (fat_repair_never_returns demo_bpb 1000); [apply demo_geo|by apply demo_ok|vm_compute; intuition congruence|done|reflexivity|reflexivity].
Defined.

Lemma fsinfo_roundtrip_witness :
  exists s1 s2, get_free_cluster_count demo_bpb demo = Done (free_count demo_bpb demo) s1 /\ load_fs_info demo_bpb s1 = Done true s2 /\
    fs_free s2 = free_count demo_bpb demo /\ fs_next s2 = fs_next demo /\ fs_ok demo_bpb s2 /\ counted demo_bpb s2 /\
    (forall fat c, fat_ok demo_bpb fat -> cluster_ok demo_bpb c -> ent demo_bpb s2 fat c = ent demo_bpb demo fat c).
Proof. apply (fsinfo_roundtrip demo_bpb demo); [apply demo_geo|right; done|done|by apply demo_ok|done|done]. Defined.

Lemma free_cluster_found_witness :
  exists c s', find_free_cluster demo_bpb 6 demo = Done c s' /\ fs_dev s' = fs_dev demo /\ fs_free s' = fs_free demo /\ fs_ok demo_bpb s' /\
    if decide (c = 0) then forall c', cluster_ok demo_bpb c' -> ent demo_bpb demo 0 c' <> 0
    else cluster_ok demo_bpb c /\ ent demo_bpb demo 0 c = 0 /\ fs_next s' = c + 1.
Proof. apply (free_cluster_found demo_bpb 6); [apply demo_geo|by apply demo_ok|apply demo_healthy|done]. Defined.

Lemma fat_loop_decided_witness :
  exists r s', has_fat_loop demo_bpb 6 2 demo = Done r s' /\ fs_dev s' = fs_dev demo /\ fs_ok demo_bpb s' /\
    (r = true <-> forall k, Nat.iter k (nxt demo_bpb demo) 2 <> 0).
Proof. apply (fat_loop_decided demo_bpb 6); [apply demo_geo|by apply demo_ok|apply demo_healthy|vm_compute; intuition congruence|done]. Defined.

Lemma chain_read_witness :
  exists r s', get_cluster_chain demo_bpb (fun _ => true) 6 2 demo = Done r s' /\ fs_dev s' = fs_dev demo /\ fs_ok demo_bpb s' /\
    match r with
    | Some l => NoDup l /\ Forall (cluster_ok demo_bpb) l /\ (forall i x, l !! i = Some x -> x = Nat.iter i (nxt demo_bpb demo) 2) /\ Nat.iter (length l) (nxt demo_bpb demo) 2 = 0
    | None => forall k, Nat.iter k (nxt demo_bpb demo) 2 <> 0
    end.
Proof. apply (chain_read demo_bpb (fun _ => true) 6); [apply demo_geo|by apply demo_ok|apply demo_healthy|vm_compute; intuition congruence|done|done]. Defined.

Lemma demo_chain : chain_from demo_bpb demo 2 [2; 3; 5].
Proof. vm_compute. intuition congruence. Qed.

Lemma chain_freed_witness :
  exists s', free_cluster_chain demo_bpb (fun _ => true) 6 2 demo = Done true s' /\ entries_written demo_bpb (fun c' => c' ∈ [2; 3; 5]) 0 demo s' /\
    fs_ok demo_bpb s' /\ healthy demo_bpb s' /\ counted demo_bpb s' /\ free_count demo_bpb s' = free_count demo_bpb demo + zlen [2; 3; 5].
Proof.
  apply (chain_freed demo_bpb (fun _ => true) 6 demo 2 [2; 3; 5]);
    [apply demo_geo|by apply demo_ok|apply demo_healthy|apply demo_counted|apply demo_chain| |done|done].
  intros c' Hc'. repeat (apply elem_of_cons in Hc' as [->|Hc']; [vm_compute; congruence|]). by apply not_elem_of_nil in Hc'.
Defined.
