(* ===== verification/FatFileProps.v ===== *)
(** * Files on FAT32: what reading and writing promise

    A file is the bytes of its chain up to its size. Reading returns them, and
    writing replaces them, whatever runs, pieces and new clusters it takes. *)

From Stdlib Require Import ZArith Lia.
From stdpp Require Import base tactics gmap numbers list.
From S2P Require Import Prelude.
From S2P Require Import Memory.
From S2P Require Import Slices.
From S2P Require Import Fat.
From S2P Require Import FatFacts.
From S2P Require Import FatTable.
From S2P Require Import FatChain.
From S2P Require Import FatFile.
From S2P Require Import FatWrite.
From S2P Require Import FatProps.

(** Rounding up to whole clusters. *)
Lemma ceil_div (x d : Z) : 0 < x -> 0 < d -> 0 < (x + d - 1) / d /\ x <= (x + d - 1) / d * d.
Proof. intros Hx Hd. Z.div_mod_to_equations; nia. Qed.

Section props.
Context {D : Type} `{!BlockDevice D} (b : bpb) `{!Disk D (bytes_per_sector b)} (can_alloc : Z -> bool) (now : rtc_time).
Hypothesis (Hg : geo_ok b) (Hd : data_ok b) (Hal : forall i, can_alloc i = true).
Local Abbreviation cb := (bytes_per_cluster b).
Implicit Types (s : fs D).

(** The bytes of a file. *)
Definition file_bytes s (n : node) (l : list Z) : list Z := slice 0 (n_size n) (content b s l).

(** A file with its clusters. *)
Definition file_ok s (n : node) (l : list Z) : Prop := file_chain b s (n_cluster n) l /\ 0 <= n_size n <= zlen l * cb.

Lemma file_clusters s c l : file_chain b s c l -> Forall (cluster_ok b) l.
Proof. intros [[_ ->]|[Hl _]]; [constructor|by eapply chain_ok]. Qed.

Lemma file_NoDup s c l : healthy b s -> file_chain b s c l -> NoDup l.
Proof. intros Hh [[_ ->]|[Hl _]]; [constructor|by eapply chain_NoDup]. Qed.

(** A file on a mounted disk, with the directory [pl] that holds its entry. *)
Record file_here s (n : node) (l pl : list Z) : Prop := {
  fh_ok : fs_ok b s;
  fh_healthy : healthy b s;
  fh_data : holds_data b s;
  fh_file : file_ok s n l;
  fh_dir : chain_from b s (n_parent n) pl;
  fh_used x : x ∈ pl -> ent b s 0 x <> 0;
  fh_apart : l ## pl;
  fh_slot : 0 <= n_index n /\ (n_index n + 1) * DIRENT_SIZE <= zlen pl * cb;
  fh_name : length (de_name (n_entry n)) = 11%nat
}.

(** ** Reading *)

(** The bytes are read before the access date is written. *)
Lemma read_data_ok fuel s n l len offset atime :
  fs_ok b s -> healthy b s -> holds_data b s -> file_ok s n l -> 0 < len -> 0 <= offset < n_size n -> cluster_count b < Z.of_nat fuel ->
  let data := slice offset (Z.min len (n_size n - offset)) (file_bytes s n l) in
  let n' := set_entry (update_access_time now (n_entry n)) n in
  exists s', only_data b [] s s' /\ read_file b can_alloc now fuel n len offset atime s =
    (if atime then _ ← overwrite_directory_entry b can_alloc fuel (n_parent n') (n_index n') (n_entry n'); mret (inr data, n') else mret (inr data, n)) s'.
Proof.
  intros Hok Hh Hs [Hfile Hsize] Hlen [Ho Hlt] Hf data n'. unfold read_file. rewrite (proj2 (Z.eqb_neq _ _)), (proj2 (Z.leb_gt _ _)) by lia.
  destruct Hfile as [[_ ->]|[Hl Hne]]; [cbn in Hsize; lia|]. pose proof (cb_pos b Hg Hd) as Hcb. pose proof (chain_ok b s _ l Hl) as Hlok.
  rewrite (proj2 (Z.eqb_neq (n_cluster n) 0)) by (destruct l; [done|]; destruct Hl as (_ & [? _] & _); lia). cbv zeta.
  destruct (get_chain_run b Hg can_alloc Hal fuel s (n_cluster n) l Hok Hh Hl Hf) as (s1 & E1 & D1 & F1 & Hok1). rewrite bind_run, E1.
  set (q := offset / cb). assert (0 <= q /\ offset = q * cb + offset mod cb /\ 0 <= offset mod cb < cb) as (Hq & Hsplit & Hm) by (unfold q; Z.div_mod_to_equations; nia).
  assert (q < zlen l) as Hql by nia. rewrite (proj2 (Z.leb_gt _ _)) by done.
  set (t := if len <? n_size n - offset then len else n_size n - offset). assert (t = Z.min len (n_size n - offset)) as Ht by (unfold t; zcase; lia).
  assert (holds_data b s1) as Hs1 by (unfold holds_data, image in *; by rewrite D1).
  destruct (read_runs_ok b Hg Hd can_alloc Hal s1 (drop (Z.to_nat q) l) (offset mod cb) t) as (s2 & E2 & [k ->]); try done; [by apply Forall_drop|lia|rewrite length_drop; nia|].
  rewrite bind_run, E2. exists (set_allocs k s1). split; [apply only_data_reads; [done|done|by eapply ok_same; [..|exact Hok1]]|].
  assert (slice (offset mod cb) t (content b s1 (drop (Z.to_nat q) l)) = data) as ->; [|by destruct atime].
  assert (content b s1 (drop (Z.to_nat q) l) = content b s (drop (Z.to_nat q) l)) as -> by (apply content_keep; intros; unfold cluster_data, image; by rewrite D1).
  unfold data, file_bytes. rewrite <- Ht, slice_slice by lia. rewrite (content_drop b Hg Hd s l) by done. unfold slice. rewrite drop_drop. do 2 f_equal. lia.
Qed.

(** ** The directory entry *)

Lemma dirent_length e : length (de_name e) = 11%nat -> zlen (dirent_bytes e) = 32.
Proof. intros Hn. unfold dirent_bytes. rewrite !length_app, !length_to_le, Hn. done. Qed.

(** The bytes of one cluster of a list, seen in the whole. *)
Lemma content_update s s' l k x o y :
  holds_data b s -> Forall (cluster_ok b) l -> NoDup l -> l !! k = Some x -> 0 <= o -> o + zlen y <= cb -> only_data b [x] s s' ->
  cluster_data b s' x = splice o y (cluster_data b s x) -> content b s' l = splice (Z.of_nat k * cb + o) y (content b s l).
Proof.
  intros Hs Hl Hnd Hk Ho Hy Hod Hx. apply list_elem_of_split_length in Hk as (l1 & l2 & -> & ->). apply NoDup_app in Hnd as (_ & Hd1 & Hnd2).
  apply NoDup_cons in Hnd2 as [Hd2 _]. apply Forall_app in Hl as [Hl1 [Hcx Hl2]%Forall_cons]. rewrite Forall_forall in Hl1, Hl2.
  rewrite !content_app. change (content b s' (x :: l2)) with (cluster_data b s' x ++ content b s' l2). change (content b s (x :: l2)) with (cluster_data b s x ++ content b s l2).
  rewrite (content_keep b s s' l1), (content_keep b s s' l2), Hx.
  - pose proof (content_length b Hg Hd s l1 Hs ltac:(by apply Forall_forall)). pose proof (data_length b Hg Hd s x Hs Hcx).
    rewrite splice_right by lia. f_equal. rewrite splice_left by lia. do 2 f_equal. lia.
  - intros c Hc. apply Hod; [by apply Hl2|]. intros ->%list_elem_of_singleton. done.
  - intros c Hc. apply Hod; [by apply Hl1|]. intros ->%list_elem_of_singleton. apply (Hd1 x); [done|]. set_solver.
Qed.

Lemma overwrite_ok fuel s parent pl index e :
  fs_ok b s -> healthy b s -> holds_data b s -> chain_from b s parent pl -> cluster_count b < Z.of_nat fuel ->
  0 <= index -> (index + 1) * DIRENT_SIZE <= zlen pl * cb -> length (de_name e) = 11%nat ->
  exists s', overwrite_directory_entry b can_alloc fuel parent index e s = Done true s' /\ only_data b pl s s' /\
    content b s' pl = splice (index * DIRENT_SIZE) (dirent_bytes e) (content b s pl).
Proof.
  intros Hok Hh Hs Hpl Hf Hi Hin Hn. unfold overwrite_directory_entry. pose proof (cb_pos b Hg Hd) as Hcb. pose proof (do_dirent b Hd) as Hdir.
  destruct (get_chain_run b Hg can_alloc Hal fuel s parent pl Hok Hh Hpl Hf) as (s1 & E1 & D1 & F1 & Hok1). rewrite bind_run, E1. cbv zeta.
  unfold DIRENT_SIZE in *. set (epc := cb / 32). assert (cb = epc * 32 /\ 0 < epc) as [Hepc Hep] by (unfold epc; Z.div_mod_to_equations; lia).
  set (k := index / epc). set (o := index mod epc). assert (index = k * epc + o /\ 0 <= k /\ 0 <= o < epc) as (Hsplit & Hk & Ho) by (unfold k, o; Z.div_mod_to_equations; nia).
  assert (k < zlen pl) as Hkl by nia. rewrite (proj2 (Z.leb_gt _ _)) by done.
  destruct (lookup_lt_is_Some_2 pl (Z.to_nat k)) as [x Hx]; [lia|]. rewrite (nth_lookup_Some _ _ _ _ Hx), bind_run, alloc_run, Hal. cbn [negb].
  pose proof (chain_ok b s parent pl Hpl) as Hplok. assert (cluster_ok b x) as Hcx by (by eapply Forall_lookup_1).
  set (s2 := set_allocs _ s1). assert (only_data b [] s s2) as O2 by (apply only_data_reads; [exact D1|exact F1|by eapply ok_same; [..|exact Hok1]]).
  assert (holds_data b s2) as Hs2 by (by eapply od_holds). rewrite bind_run, (read_cluster_ok b Hg Hd s2 x Hs2 Hcx).
  pose proof (dirent_length e Hn) as Hlen. pose proof (data_length b Hg Hd s2 x Hs2 Hcx) as Hdl.
  destruct (cluster_write_ok b Hg Hd s2 x (splice (o * 32) (dirent_bytes e) (cluster_data b s2 x))) as (s3 & E3 & O3 & D3 & _); [apply O2|done|done|rewrite splice_length; nia|].
  exists s3. split; [unfold splice in E3; rewrite Hlen in E3; exact E3|]. split.
  - eapply only_data_trans; [|exact O2|eapply only_data_weaken; [|exact O3]]; [set_solver|]. intros y ->%list_elem_of_singleton. by eapply list_elem_of_lookup_2.
  - rewrite (content_update s2 s3 pl (Z.to_nat k) x (o * 32) (dirent_bytes e)); try done; [|by eapply chain_NoDup|nia|nia].
    rewrite (content_keep b s s2). 2: { intros c _. unfold cluster_data, image. cbn. by rewrite D1. } f_equal. rewrite Z2Nat.id by done. nia.
Qed.

(** What reading leaves: the file, and perhaps a new date in its directory entry. *)
Record file_was_read (n n' : node) (l pl : list Z) (dated : bool) s s' : Prop := {
  fr_here : file_here s' n' l pl;
  fr_node : n' = if dated then set_entry (update_access_time now (n_entry n)) n else n;
  fr_bytes : file_bytes s' n' l = file_bytes s n l;
  fr_dir : content b s' pl = if dated then splice (n_index n * DIRENT_SIZE) (dirent_bytes (n_entry n')) (content b s pl) else content b s pl;
  fr_only : only_data b (if dated then pl else []) s s'
}.

Lemma file_keep_data s s' n l pl :
  only_data b pl s s' -> file_here s n l pl -> file_here s' n l pl /\ file_bytes s' n l = file_bytes s n l.
Proof.
  intros Hod [Hok Hh Hs [Hfc Hsz] Hdir Hu Hap Hsl Hn]. pose proof (fat0_ok b Hg) as H0.
  pose proof (file_clusters _ _ _ Hfc) as Hl. pose proof (chain_ok b s _ pl Hdir) as Hpl. rewrite Forall_forall in Hl, Hpl.
  assert (forall x, cluster_ok b x -> ent b s' 0 x = ent b s 0 x) as He by (intros; by apply Hod).
  split.
  - split; try done; [apply Hod|by eapply healthy_keep|by eapply od_holds| | |].
    + split; [|done]. destruct Hfc as [?|[Hc Hne]]; [by left|right]. split; [by eapply chain_keep; [|exact Hc]; intros x Hx; apply He, Hl|].
      intros x Hx. rewrite He by (by apply Hl). by apply Hne.
    + eapply chain_keep; [|exact Hdir]. intros x Hx. by apply He, Hpl.
    + intros x Hx. rewrite He by (by apply Hpl). by apply Hu.
  - unfold file_bytes. f_equal. apply content_keep. intros x Hx. apply Hod; [by apply Hl|]. set_solver.
Qed.

Lemma read_file_ok fuel s n l pl len offset atime :
  file_here s n l pl -> 0 < len -> 0 <= offset -> cluster_count b < Z.of_nat fuel ->
  exists n' s', read_file b can_alloc now fuel n len offset atime s = Done (inr (slice offset (Z.min len (n_size n - offset)) (file_bytes s n l)), n') s' /\
    file_was_read n n' l pl (atime && (offset <? n_size n)) s s'.
Proof.
  intros Hh Hlen Ho Hf. destruct (Z.ltb_spec offset (n_size n)) as [Hlt|Hge]; rewrite ?andb_true_r, ?andb_false_r.
  2: { exists n, s. split; [|split; try done; apply only_data_reads; (done || apply Hh)]. unfold read_file. rewrite (proj2 (Z.eqb_neq _ _)), (proj2 (Z.leb_le _ _)) by lia.
    rewrite ret_run. do 3 f_equal. unfold slice at 1. by replace (Z.to_nat (Z.min len (n_size n - offset))) with 0%nat by lia. }
  destruct (read_data_ok fuel s n l len offset atime) as (s1 & O1 & ->); [apply Hh..|done|lia|done|].
  destruct (file_keep_data s s1 n l pl) as [Hh1 Hb1]; [eapply only_data_weaken; [|exact O1]; set_solver|done|].
  assert (content b s1 pl = content b s pl) as Hc1.
  { apply content_keep. intros x Hx. apply O1; [|set_solver]. pose proof (chain_ok b s _ pl (fh_dir _ _ _ _ Hh)) as Hpl. rewrite Forall_forall in Hpl. by apply Hpl. }
  destruct atime; [|exists n, s1; split; [done|by split]]. set (n' := set_entry _ n).
  destruct (overwrite_ok fuel s1 (n_parent n) pl (n_index n) (n_entry n')) as (s2 & E2 & O2 & C2); [apply Hh1..|done|apply Hh|apply Hh|apply Hh|].
  destruct (file_keep_data s1 s2 n l pl O2 Hh1) as [Hh2 Hb2]. exists n', s2. rewrite bind_run. change (n_parent n') with (n_parent n). change (n_index n') with (n_index n). rewrite E2, ret_run. split; [done|].
  split; [|done|by rewrite <- Hb1, <- Hb2|by rewrite <- Hc1|eapply only_data_trans; [|exact O1|exact O2]; set_solver]. destruct Hh2. by split.
Qed.

(** ** Writing *)

(** What a write leaves: the file, its directory [pl], and everything else. *)
Record file_written (n n' : node) (buffer : list Z) (offset : Z) (l l' pl : list Z) s s' : Prop := {
  fw_here : file_here s' n' l' pl;
  fw_counted : counted b s -> counted b s';
  fw_size : n_size n' = Z.max (n_size n) (offset + zlen buffer);
  fw_bytes : file_bytes s' n' l' =
    take (Z.to_nat offset) (file_bytes s n l) ++ buffer ++ drop (Z.to_nat (offset + zlen buffer)) (file_bytes s n l);
  fw_entry : de_size (n_entry n') = u32 (n_size n') /\ de_cluster_low (n_entry n') + 65536 * de_cluster_high (n_entry n') = n_cluster n';
  fw_dir : content b s' pl = splice (n_index n * DIRENT_SIZE) (dirent_bytes (n_entry n')) (content b s pl);
  fw_other c q : chain_from b s c q -> (forall x, x ∈ q -> ent b s 0 x <> 0) -> q ## l -> q ## pl ->
    chain_from b s' c q /\ content b s' q = content b s q
}.

(** The clusters a write of [len] bytes at [offset] needs. *)
Definition clusters_needed (n : node) (len offset : Z) : Z := (Z.max (n_size n) (offset + len) + cb - 1) / cb.

Lemma cluster_halves c : 0 <= c < 2 ^ 32 -> u16 (Z.land c 0xFFFF) + 65536 * u16 (Z.land (Z.shiftr c 16) 0xFFFF) = c.
Proof.
  intros Hc. change 0xFFFF with (Z.ones 16). rewrite !Z.land_ones, Z.shiftr_div_pow2 by lia. change (2 ^ 16) with 65536.
  unfold u16, wrapu. rewrite !Zmod_mod. rewrite (Z.mod_small (c / 65536)); [Z.div_mod_to_equations; lia|]. change (2 ^ 32) with (65536 * 65536) in Hc. Z.div_mod_to_equations; lia.
Qed.

Lemma write_at_ok s l buffer offset :
  fs_ok b s -> holds_data b s -> Forall (cluster_ok b) l -> NoDup l -> 0 <= offset -> offset + zlen buffer <= zlen l * cb ->
  exists s', write_clusters b can_alloc buffer offset (drop (Z.to_nat (offset / cb)) l) s = Done true s' /\ only_data b l s s' /\
    content b s' l = splice offset buffer (content b s l).
Proof.
  intros Hok Hs Hl Hnd Ho Hin. pose proof (cb_pos b Hg Hd) as Hcb. set (q := offset / cb).
  assert (0 <= q /\ offset = q * cb + offset mod cb /\ 0 <= offset mod cb < cb) as (Hq & Hsplit & Hm) by (unfold q; Z.div_mod_to_equations; nia).
  set (k := Z.to_nat q). assert (NoDup (take k l) /\ (forall x, x ∈ take k l -> x ∉ drop k l) /\ NoDup (drop k l)) as (_ & Hd12 & Hnd2).
  { rewrite <- (take_drop k l) in Hnd. by apply NoDup_app in Hnd. }
  destruct (write_clusters_ok b Hg Hd can_alloc Hal buffer offset s (drop k l)) as (s' & E & Hod & Hc); try done; [by apply Forall_drop| |].
  { destruct (decide (buffer = [])) as [->|Hne]; [by left|right]. rewrite length_drop. assert (0 < zlen buffer) by (destruct buffer; [done|cbn [length]; lia]). nia. }
  exists s'. split; [done|]. split; [eapply only_data_weaken; [|exact Hod]; intros x Hx; rewrite <- (take_drop k l); apply elem_of_app; by right|].
  rewrite <- (take_drop k l), !content_app, Hc, (content_keep b s s' (take k l)).
  2: { intros x Hx. apply Hod; [|by apply Hd12]. rewrite Forall_forall in Hl. apply Hl. rewrite <- (take_drop k l). apply elem_of_app. by left. }
  destruct (decide (buffer = [])) as [->|Hne]; [by rewrite !splice_none|]. assert (0 < zlen buffer) by (destruct buffer; [done|cbn [length]; lia]).
  pose proof (content_length b Hg Hd s (take k l) Hs (Forall_take _ _ _ Hl)) as Hlen. rewrite length_take in Hlen. assert (q < zlen l) by nia.
  rewrite splice_right by nia. do 2 f_equal. nia.
Qed.

(** Chains that a step does not touch. *)
Lemma keep_data cs s s' c q :
  only_data b cs s s' -> chain_from b s c q -> q ## cs ->
  chain_from b s' c q /\ content b s' q = content b s q /\ (forall x, x ∈ q -> ent b s' 0 x = ent b s 0 x).
Proof.
  intros Hod Hq Hdis. pose proof (chain_ok b s c q Hq) as Hok. rewrite Forall_forall in Hok.
  assert (forall x, x ∈ q -> ent b s' 0 x = ent b s 0 x) as He by (intros x Hx; apply Hod; [apply (fat0_ok b Hg)|by apply Hok]).
  split; [by eapply chain_keep|]. split; [|done]. apply content_keep. intros x Hx. apply Hod; [by apply Hok|]. set_solver.
Qed.

(** The data of a chain may change; its clusters stay. *)
Lemma keep_chain cs s s' c q : only_data b cs s s' -> chain_from b s c q -> chain_from b s' c q.
Proof.
  intros Hod Hq. pose proof (chain_ok b s c q Hq) as Hok. rewrite Forall_forall in Hok. eapply chain_keep; [|exact Hq].
  intros x Hx. apply Hod; [apply (fat0_ok b Hg)|by apply Hok].
Qed.

Lemma keep_entries cs s s' c q :
  only_entries b cs s s' -> chain_from b s c q -> q ## cs ->
  chain_from b s' c q /\ content b s' q = content b s q /\ (forall x, x ∈ q -> ent b s' 0 x = ent b s 0 x).
Proof.
  intros Hoe Hq Hdis. pose proof (chain_ok b s c q Hq) as Hok. rewrite Forall_forall in Hok.
  assert (forall x, x ∈ q -> ent b s' 0 x = ent b s 0 x) as He by (intros x Hx; apply Hoe; [by apply Hok|set_solver]).
  split; [by eapply chain_keep|]. split; [|done]. apply content_keep. intros x Hx. apply Hoe. by apply Hok.
Qed.

(** The node after a write. *)
Definition written_node (n : node) (size start : Z) : node :=
  let n1 := if n_cluster n =? 0 then set_cluster start n else n in
  set_entry (update_write_time now (set_extent size start (n_entry n1))) (set_size size n1).

Section steps.
Context (n : node) (l pl buffer : list Z) (offset : Z) (s : fs D).
Hypothesis (Hhere : file_here s n l pl) (Hoff : 0 <= offset <= n_size n).
Local Abbreviation size := (Z.max (n_size n) (offset + zlen buffer)).

(** Chains of other files are not in the way. *)
Lemma others_apart l2 c s2 q :
  grown_by b l l2 c s s2 -> (forall x, x ∈ q -> ent b s 0 x <> 0) -> q ## l -> q ## l ++ l2.
Proof.
  intros Hgb Hne Hql x Hx [?|Hx2]%elem_of_app; [by apply (Hql x)|]. destruct (gb_new _ _ _ _ _ _ Hgb x Hx2) as [_ Hz]. by apply (Hne x).
Qed.

Lemma others_kept l2 start s2 s3 c q :
  grown_by b l l2 start s s2 -> only_data b (l ++ l2) s2 s3 -> chain_from b s c q -> (forall x, x ∈ q -> ent b s 0 x <> 0) -> q ## l ->
  chain_from b s3 c q /\ content b s3 q = content b s q.
Proof.
  intros Hgb O3 Hq Hne Hql. pose proof (others_apart l2 start s2 q Hgb Hne Hql) as Hql'.
  destruct (keep_entries (l ++ l2) s s2 c q (gb_only _ _ _ _ _ _ Hgb) Hq Hql') as (Q2 & K2 & _).
  destruct (keep_data (l ++ l2) s2 s3 c q O3 Q2 Hql') as (Q3 & K3 & _). split; [done|congruence].
Qed.

(** After the table, the bytes and the directory entry have been written. *)
Lemma written_ok l2 start s2 s3 s4 :
  grown_by b l l2 start s s2 -> only_data b (l ++ l2) s2 s3 -> content b s3 (l ++ l2) = splice offset buffer (content b s2 (l ++ l2)) ->
  only_data b pl s3 s4 -> (n_cluster n <> 0 -> start = n_cluster n) -> size <= zlen (l ++ l2) * cb ->
  content b s4 pl = splice (n_index n * DIRENT_SIZE) (dirent_bytes (n_entry (written_node n size start))) (content b s3 pl) ->
  file_written n (written_node n size start) buffer offset l (l ++ l2) pl s s4.
Proof.
  intros Hgb O3 C3 O4 Hstart Hsz C4. pose proof Hgb as [C2 U2 N2 O2]. destruct Hhere as [Hok Hh Hs [Hfc Hsize] Hpl Hplne Hdisj Hslot Hname]. set (l' := l ++ l2) in *. set (n3 := written_node n size start) in *.
  assert (l' ## pl) as Hlpl by (pose proof (others_apart l2 start s2 pl Hgb Hplne) as Hap; set_solver).
  assert (2 <= start < 2 ^ 32) as Hst by (destruct l'; [done|]; destruct C2 as (_ & Hc & _); unfold cluster_ok in Hc; destruct Hg; lia).
  assert (n_cluster n3 = start) as Hnc by (unfold n3, written_node; destruct (Z.eqb_spec (n_cluster n) 0); [done|symmetry; by apply Hstart]).
  assert (n_size n3 = size) as Hns by done. pose proof (chain_ok b s2 start l' C2) as Hl'ok. rewrite Forall_forall in Hl'ok.
  destruct (keep_data pl s3 s4 start l') as (C4' & K4 & V4); [done|by eapply keep_chain|done|].
  destruct (others_kept l2 start s2 s3 (n_parent n) pl Hgb O3 Hpl Hplne) as [P3 K3]; [set_solver|]. split.
  - assert (n_parent n3 = n_parent n /\ n_index n3 = n_index n) as [Hp3 Hi3] by (unfold n3, written_node; by destruct (n_cluster n =? 0)).
    assert (forall x, cluster_ok b x -> ent b s4 0 x = ent b s2 0 x) as V42.
    { intros x Hx. rewrite (od_ent b _ _ _ O4), (od_ent b _ _ _ O3); (done || apply (fat0_ok b Hg)). }
    split; rewrite ?Hp3, ?Hi3; try done.
    + apply O4.
    + eapply healthy_keep; [done|exact O4|]. eapply healthy_keep; [done|exact O3|apply O2].
    + eapply od_holds; [exact O4|]. eapply od_holds; [exact O3|]. by eapply oe_holds.
    + split; [|rewrite Hns; lia]. right. rewrite Hnc. split; [done|]. intros x Hx. rewrite V42 by (by apply Hl'ok). by apply U2.
    + by eapply keep_chain.
    + intros x Hx. pose proof (chain_ok b s _ pl Hpl) as Hplok. rewrite Forall_forall in Hplok. rewrite V42 by (by apply Hplok).
      destruct (keep_entries l' s s2 (n_parent n) pl O2 Hpl) as (_ & _ & Hk); [set_solver|]. rewrite Hk by done. by apply Hplne.
    + unfold n3, written_node. by destruct (n_cluster n =? 0).
  - intros Hcnt. eapply (counted_keep b s2 s4); [| |by apply (oe_counted b _ _ _ O2)].
    + intros c Hc. rewrite (od_ent b _ _ _ O4), (od_ent b _ _ _ O3); (done || apply (fat0_ok b Hg)).
    + rewrite (od_free b _ _ _ O4). apply O3.
  - done.
  - unfold file_bytes. rewrite Hns, K4, C3.
    assert (content b s2 l' = content b s l ++ content b s l2) as -> by (unfold l'; rewrite <- content_app; apply content_keep; intros x Hx; apply O2; by apply Hl'ok).
    pose proof (content_length b Hg Hd s l Hs (file_clusters _ _ _ Hfc)) as L1. pose proof (content_length b Hg Hd s l2 Hs) as L2.
    apply splice_prefix; [lia|lia|]. rewrite length_app, Nat2Z.inj_add, L1, L2; [unfold l' in Hsz; rewrite length_app in Hsz; lia|].
    apply Forall_forall. intros x Hx. by apply N2.
  - split; [unfold n3, written_node; by destruct (n_cluster n =? 0)|]. rewrite Hnc. unfold n3, written_node. destruct (n_cluster n =? 0); cbn; apply cluster_halves; lia.
  - by rewrite C4, K3.
  - intros c q Hq Hqne Hql Hqpl. destruct (others_kept l2 start s2 s3 c q Hgb O3 Hq Hqne Hql) as [Q3 Kq3].
    destruct (keep_data pl s3 s4 c q O4 Q3 Hqpl) as (Q4 & Kq4 & _). split; [done|congruence].
Qed.
End steps.

Lemma write_file_ok fuel s n l pl buffer offset :
  file_here s n l pl -> is_protected (n_entry n) = false ->
  buffer <> [] -> 0 <= offset <= n_size n -> offset + zlen buffer <= U32_MAX -> n_size n <= U32_MAX -> 2 <= cluster_count b < Z.of_nat fuel ->
  (if n_cluster n =? 0 then 1 else 0) + Z.max 0 (clusters_needed n (zlen buffer) offset - zlen l) <= free_count b s ->
  exists n' s' l', write_file b can_alloc now fuel n buffer offset s = Done (None, n') s' /\ file_written n n' buffer offset l l' pl s s'.
Proof.
  intros Hhere Hprot Hbuf Hoff Hmax1 Hmax2 Hf Hfree. pose proof Hhere as [Hok Hh Hs [Hfc Hsize] Hpl Hplne Hdisj [Hi Hin] Hname].
  pose proof (cb_pos b Hg Hd) as Hcb. assert (cb <= 512 * 255) as Hcbm by (destruct Hg, Hd; unfold bytes_per_cluster; nia).
  assert (0 < zlen buffer) as Hlen by (destruct buffer; [done|cbn [length]; lia]). unfold U32_MAX in *.
  unfold write_file. rewrite (proj2 (Z.eqb_neq _ _)), Hprot, (proj2 (Z.ltb_ge _ _)) by lia. cbv zeta.
  rewrite (u64_id (offset + zlen buffer)) by (unfold UINT64_MAX; lia).
  assert ((if n_size n <? offset + zlen buffer then offset + zlen buffer else n_size n) = Z.max (n_size n) (offset + zlen buffer)) as -> by (zcase; lia).
  rewrite (u64_id (Z.max (n_size n) (offset + zlen buffer) + cb - 1)) by (unfold UINT64_MAX; lia). unfold clusters_needed in Hfree. set (ns := Z.max (n_size n) (offset + zlen buffer)) in *. set (needed := (ns + cb - 1) / cb) in *.
  assert (0 < needed /\ ns <= needed * cb) as [Hneed Hneedcb] by (apply ceil_div; lia).
  assert (exists s1, (if negb (n_cluster n =? 0) then chain ← get_cluster_chain b can_alloc fuel (n_cluster n); mret match chain with Some l => Some (Some l) | None => None end
      else mret (Some None)) s = Done (Some (if n_cluster n =? 0 then None else Some l)) s1 /\ fs_dev s1 = fs_dev s /\ fs_free s1 = fs_free s /\ fs_ok b s1) as (s1 & E1 & D1 & F1 & Hok1).
  { destruct Hfc as [[-> ->]|[Hl Hne]]; [by exists s|].
    assert ((n_cluster n =? 0) = false) as -> by (apply Z.eqb_neq; destruct l; [done|]; destruct Hl as (_ & [? _] & _); lia). cbn [negb].
    destruct (get_chain_run b Hg can_alloc Hal fuel s (n_cluster n) l Hok Hh Hl) as (s1 & E1 & D1 & F1 & Hok1); [lia|]. exists s1. by rewrite bind_run, E1. }
  rewrite bind_run, E1. pose proof (reads_entries b s s1 D1 F1 Hok1 Hh) as O1.
  assert (file_chain b s1 (n_cluster n) l) as Hfile1.
  { destruct Hfc as [?|[Hl Hne]]; [by left|right]. split; [by eapply chain_same|]. intros x Hx. rewrite (ent_same b s s1) by done. by apply Hne. }
  assert (free_count b s1 = free_count b s) as Hfree1 by (unfold free_count, ent, image; by rewrite D1).
  destruct (grow_chain_ok b Hg Hd can_alloc Hal fuel s1 (n_cluster n) needed l) as (l2 & start & s2 & E2 & Hnl & Hstart & [C2 U2 N2 O2]); try done;
    [apply O1|by eapply oe_holds|by rewrite Hfree1|]. rewrite bind_run, E2.
  assert (grown_by b l l2 start s s2) as Hgb.
  { split; [done|done| |eapply only_entries_trans; [| |exact O1|exact O2]; set_solver]. intros x Hx. rewrite <- (ent_same b s s1) by done. by apply N2. }
  destruct (write_at_ok s2 (l ++ l2) buffer offset) as (s3 & E3 & O3 & C3); [apply O2|by eapply oe_holds; [|eapply oe_holds]|by eapply chain_ok|by eapply chain_NoDup; [apply O2|]|lia|nia|].
  rewrite bind_run, E3. cbn [negb]. destruct (others_kept l s l2 start s2 s3 (n_parent n) pl Hgb O3 Hpl Hplne) as [P3 _]; [set_solver|].
  set (n3 := set_entry _ _). change n3 with (written_node n ns start). clear n3.
  assert (n_parent (written_node n ns start) = n_parent n /\ n_index (written_node n ns start) = n_index n) as [-> ->] by (unfold written_node; by destruct (n_cluster n =? 0)).
  destruct (overwrite_ok fuel s3 (n_parent n) pl (n_index n) (n_entry (written_node n ns start))) as (s4 & E4 & O4 & C4); try done;
    [apply O3|eapply healthy_keep; [done|exact O3|apply O2]|eapply od_holds; [exact O3|by eapply oe_holds; [|eapply oe_holds]]|lia|unfold written_node; by destruct (n_cluster n =? 0)|].
  rewrite bind_run, E4, ret_run. exists (written_node n ns start), s4, (l ++ l2). split; [done|]. eapply written_ok; try done. nia.
Qed.

(** Reading what was written. *)
Lemma written_back (n n' : node) buffer offset l l' pl s s' :
  file_written n n' buffer offset l l' pl s s' -> buffer <> [] -> 0 <= offset <= n_size n -> file_here s n l pl ->
  slice offset (Z.min (zlen buffer) (n_size n' - offset)) (file_bytes s' n' l') = buffer.
Proof.
  intros Hw Hb Ho Hh. destruct (fh_file _ _ _ _ Hh) as [Hfc Hsz]. rewrite (fw_bytes _ _ _ _ _ _ _ _ _ Hw), (fw_size _ _ _ _ _ _ _ _ _ Hw), Z.min_l by lia.
  assert (zlen (file_bytes s n l) = n_size n) as Hlen.
  { unfold file_bytes. apply slice_length; [lia|lia|]. rewrite (content_length b Hg Hd s l); [lia|apply Hh|by eapply file_clusters]. }
  unfold slice. rewrite drop_app_ge, length_take by (rewrite length_take; lia). replace (Z.to_nat offset - _)%nat with 0%nat by lia.
  rewrite drop_0, take_app_le, take_ge by lia. done.
Qed.
End props.

(** ** The claims *)

Section claims.
Context {D : Type} `{!BlockDevice D} (b : bpb) `{!Disk D (bytes_per_sector b)}.
Implicit Types (s : fs D).

(** Reading [len] bytes of a file at an offset gives exactly the bytes of
    its chain between the offset and the end of the file or of the request,
    however the chain is scattered and however the runs are cut into transfers;
    past the end it gives nothing. The disk keeps everything but the access date
    in the file's own directory entry, which changes when it should. *)
Theorem file_read can_alloc now fuel s n l pl len offset atime :
  geo_ok b -> data_ok b -> (forall i, can_alloc i = true) -> cluster_count b < Z.of_nat fuel ->
  file_here b s n l pl -> 0 < len -> 0 <= offset ->
  exists n' s', read_file b can_alloc now fuel n len offset atime s = Done (inr (slice offset (Z.min len (n_size n - offset)) (file_bytes b s n l)), n') s' /\
    file_was_read b now n n' l pl (atime && (offset <? n_size n)) s s'.
Proof. intros Hg Hd Hal Hf Hh Hlen Ho. by apply (read_file_ok b can_alloc now Hg Hd Hal). Qed.

(** C20. Writing a buffer into a file at an offset up to its end, with enough
    free clusters, succeeds: the file's bytes are the old ones with the buffer in
    their place, its size and directory entry say so, the chain grows by clusters
    that were free, every other chain keeps its clusters and its bytes, the count
    of free clusters stays right, and reading the place gives the buffer back. *)
Theorem file_write_read can_alloc now fuel s n l pl buffer offset :
  geo_ok b -> data_ok b -> (forall i, can_alloc i = true) -> 2 <= cluster_count b < Z.of_nat fuel ->
  file_here b s n l pl -> is_protected (n_entry n) = false -> buffer <> [] -> 0 <= offset <= n_size n ->
  offset + zlen buffer <= U32_MAX -> n_size n <= U32_MAX ->
  (if n_cluster n =? 0 then 1 else 0) + Z.max 0 (clusters_needed b n (zlen buffer) offset - zlen l) <= free_count b s ->
  exists n' s' l' s'', write_file b can_alloc now fuel n buffer offset s = Done (None, n') s' /\ file_written b n n' buffer offset l l' pl s s' /\
    read_file b can_alloc now fuel n' (zlen buffer) offset false s' = Done (inr buffer, n') s''.
Proof.
  intros Hg Hd Hal Hf Hh Hp Hb Ho H1 H2 Hfree. destruct (write_file_ok b can_alloc now Hg Hd Hal fuel s n l pl buffer offset) as (n' & s' & l' & E & Hw); try done.
  assert (0 < zlen buffer) by (destruct buffer; [done|cbn [length]; lia]).
  destruct (read_file_ok b can_alloc now Hg Hd Hal fuel s' n' l' pl (zlen buffer) offset false) as (n'' & s'' & E' & Hr); [apply Hw|lia..|].
  exists n', s', l', s''. split_and!; [done|done|]. pose proof (fr_node _ _ _ _ _ _ _ _ _ Hr) as ->.
  by rewrite (written_back b Hg Hd n n' buffer offset l l' pl s s') in E'.
Qed.
End claims.

(** ** The hypotheses can be met *)

#[local] Existing Instance ram_device.
#[local] Existing Instance ram_disk.

(** A disk with a directory in cluster 2 and a file in the clusters 5 and 3. *)
Definition small_fat : list Z := [0x0FFFFFF8; 0x0FFFFFFF; 0x0FFFFFFF; 0x0FFFFFFF; 0; 3; 0].
Definition small : fs (list Z) := demo_fs (demo_image small_fat small_fat).
Definition small_dirent : dirent := {|
  de_name := replicate 11 65; de_attr := 0x20; de_nt_res := 0; de_creation_tenths := 0; de_creation_time := 0; de_creation_date := 0;
  de_access_date := 0; de_cluster_high := 0; de_write_time := 0; de_write_date := 0; de_cluster_low := 5; de_size := 700 |}.
Definition small_node : node := {| n_parent := 2; n_cluster := 5; n_size := 700; n_index := 1; n_entry := small_dirent |}.
Definition small_now : rtc_time := {| rtc_sec := 0; rtc_min := 0; rtc_hour := 0; rtc_day := 1; rtc_month := 1; rtc_year := 25 |}.

Lemma demo_data : data_ok demo_bpb.
Proof. split; vm_compute; intuition congruence. Qed.

Lemma small_here : file_here demo_bpb small small_node [5; 3] [2].
Proof.
  split.
  - by apply demo_ok.
  - intros c. revert c. apply demo_cluster; vm_compute; reflexivity.
  - vm_compute. congruence.
  - split; [right; split; [vm_compute; intuition congruence|]|vm_compute; intuition congruence].
    intros x Hx. repeat (apply elem_of_cons in Hx as [->|Hx]; [vm_compute; congruence|]). by apply not_elem_of_nil in Hx.
  - vm_compute. intuition congruence.
  - intros x Hx. apply list_elem_of_singleton in Hx as ->. vm_compute. congruence.
  - set_solver.
  - vm_compute. intuition congruence.
  - done.
Qed.

Lemma file_read_witness :
  exists n' s', read_file demo_bpb (fun _ => true) small_now 6 small_node 100 650 true small =
      Done (inr (slice 650 (Z.min 100 (n_size small_node - 650)) (file_bytes demo_bpb small small_node [5; 3])), n') s' /\
    file_was_read demo_bpb small_now small_node n' [5; 3] [2] (true && (650 <? n_size small_node)) small s'.
Proof. apply (file_read demo_bpb (fun _ => true) small_now 6); [apply demo_geo|apply demo_data|done|done|apply small_here|done|done]. Defined.

Lemma file_write_read_witness :
  exists n' s' l' s'', write_file demo_bpb (fun _ => true) small_now 6 small_node (replicate 800 7) 650 small = Done (None, n') s' /\
    file_written demo_bpb small_node n' (replicate 800 7) 650 [5; 3] l' [2] small s' /\
    read_file demo_bpb (fun _ => true) small_now 6 n' (zlen (replicate 800 7)) 650 false s' = Done (inr (replicate 800 7), n') s''.
Proof.
  apply (file_write_read demo_bpb (fun _ => true) small_now 6 small small_node [5; 3] [2] (replicate 800 7) 650);
    [apply demo_geo|apply demo_data|done|done|apply small_here|done|done|done|done|done|vm_compute; congruence].
Defined.
