(* ===== verification/Dentry.v ===== *)
(** * filesystem/vfs/dentry_cache.cpp: the cache of path components

    The entries live in a slab of [N] slots (DENTRY_MAX_ENTRIES). The same slots
    are linked in three ways: a tree (first child, next sibling, parent), a doubly
    linked list in order of use, and a list of free slots. A pointer to an entry
    is the number of its slot, the null pointer [None]; [None] as a parent is the
    root, as in the source. Paths and names are lists of bytes without the
    terminator. Operations are
    run one after the other. *)

From Stdlib Require Import ZArith Lia.
From stdpp Require Import base tactics gmap numbers list.
From S2P Require Import Prelude.
From S2P Require Import Memory.

Definition DENTRY_MAX_NAME : Z := 64.
Definition SLASH : Z := 47.

Record dentry := {
  d_name : list Z;
  d_node : option Z;
  d_hash : Z;
  lru_prev : option Z;
  lru_next : option Z;
  d_parent : option Z;
  children : option Z;
  sibling_next : option Z;
  slab_next : option Z
}.

(** The cache, and the reference counts of the nodes that exist. *)
Record dcache := {
  slab_ : gmap Z dentry;
  root_children : option Z;
  lru_head_ : option Z;
  lru_tail_ : option Z;
  free_list_ : option Z;
  entry_count_ : Z;
  hit_count_ : Z;
  miss_count_ : Z;
  nodes : gmap Z Z
}.

Definition set_slab (m : gmap Z dentry) (c : dcache) : dcache :=
  {| slab_ := m; root_children := root_children c; lru_head_ := lru_head_ c; lru_tail_ := lru_tail_ c; free_list_ := free_list_ c;
     entry_count_ := entry_count_ c; hit_count_ := hit_count_ c; miss_count_ := miss_count_ c; nodes := nodes c |}.
Definition set_root (h : option Z) (c : dcache) : dcache :=
  {| slab_ := slab_ c; root_children := h; lru_head_ := lru_head_ c; lru_tail_ := lru_tail_ c; free_list_ := free_list_ c;
     entry_count_ := entry_count_ c; hit_count_ := hit_count_ c; miss_count_ := miss_count_ c; nodes := nodes c |}.
Definition set_lru (h t : option Z) (c : dcache) : dcache :=
  {| slab_ := slab_ c; root_children := root_children c; lru_head_ := h; lru_tail_ := t; free_list_ := free_list_ c;
     entry_count_ := entry_count_ c; hit_count_ := hit_count_ c; miss_count_ := miss_count_ c; nodes := nodes c |}.
Definition set_free (h : option Z) (c : dcache) : dcache :=
  {| slab_ := slab_ c; root_children := root_children c; lru_head_ := lru_head_ c; lru_tail_ := lru_tail_ c; free_list_ := h;
     entry_count_ := entry_count_ c; hit_count_ := hit_count_ c; miss_count_ := miss_count_ c; nodes := nodes c |}.
Definition set_counts (n hit miss : Z) (c : dcache) : dcache :=
  {| slab_ := slab_ c; root_children := root_children c; lru_head_ := lru_head_ c; lru_tail_ := lru_tail_ c; free_list_ := free_list_ c;
     entry_count_ := n; hit_count_ := hit; miss_count_ := miss; nodes := nodes c |}.
Definition set_nodes (m : gmap Z Z) (c : dcache) : dcache :=
  {| slab_ := slab_ c; root_children := root_children c; lru_head_ := lru_head_ c; lru_tail_ := lru_tail_ c; free_list_ := free_list_ c;
     entry_count_ := entry_count_ c; hit_count_ := hit_count_ c; miss_count_ := miss_count_ c; nodes := m |}.

(** Assignments to the fields of an entry. *)
Definition with_lru (p n : option Z) (e : dentry) : dentry :=
  {| d_name := d_name e; d_node := d_node e; d_hash := d_hash e; lru_prev := p; lru_next := n; d_parent := d_parent e; children := children e; sibling_next := sibling_next e; slab_next := slab_next e |}.
Definition with_children (h : option Z) (e : dentry) : dentry :=
  {| d_name := d_name e; d_node := d_node e; d_hash := d_hash e; lru_prev := lru_prev e; lru_next := lru_next e; d_parent := d_parent e; children := h; sibling_next := sibling_next e; slab_next := slab_next e |}.
Definition with_sibling (h : option Z) (e : dentry) : dentry :=
  {| d_name := d_name e; d_node := d_node e; d_hash := d_hash e; lru_prev := lru_prev e; lru_next := lru_next e; d_parent := d_parent e; children := children e; sibling_next := h; slab_next := slab_next e |}.
Definition with_slab (h : option Z) (e : dentry) : dentry :=
  {| d_name := d_name e; d_node := d_node e; d_hash := d_hash e; lru_prev := lru_prev e; lru_next := lru_next e; d_parent := d_parent e; children := children e; sibling_next := sibling_next e; slab_next := h |}.
Definition with_node (n : option Z) (e : dentry) : dentry :=
  {| d_name := d_name e; d_node := n; d_hash := d_hash e; lru_prev := lru_prev e; lru_next := lru_next e; d_parent := d_parent e; children := children e; sibling_next := sibling_next e; slab_next := slab_next e |}.

Definition get_d (d : Z) : M dcache dentry := fun c => match slab_ c !! d with Some e => Done e c | None => Undef end.
Definition upd_d (d : Z) (f : dentry -> dentry) : M dcache unit := fun c =>
  match slab_ c !! d with Some e => Done tt (set_slab (<[d := f e]> (slab_ c)) c) | None => Undef end.

(** ** Names *)

Definition FNV_OFFSET_BASIS : Z := 0x811c9dc5.
Definition FNV_PRIME : Z := 0x01000193.

Definition hash_name (name : list Z) : Z := foldl (fun h b => u32 (Z.lxor h b * FNV_PRIME)) FNV_OFFSET_BASIS name.

(** [while (p[len] && p[len] != '/') ++len]: the component in front of [p], and
    the rest of the path behind it. *)
Fixpoint component (p : list Z) : list Z * list Z :=
  match p with
  | [] => ([], [])
  | b :: p' => if b =? SLASH then ([], p) else let '(c, r) := component p' in (b :: c, r)
  end.

(** [if ( *p == '/') ++p] *)
Definition skip_slash (p : list Z) : list Z := match p with b :: p' => if b =? SLASH then p' else p | [] => [] end.

Definition bad_length (name : list Z) : bool := (zlen name =? 0) || (DENTRY_MAX_NAME <=? zlen name).

Section cache.
(** The number of slots, and the nodes that [VFS::close] leaves alone: permanent
    ones, and those without a close operation. *)
Context (N : Z) (kept : Z -> bool).

Definition fuel : nat := S (Z.to_nat N).

(** ** References to nodes *)

(** [__atomic_fetch_add(&node->ref_count, 1)] and [__atomic_fetch_sub] on a node
    that exists. *)
Definition add_ref (k n : Z) : M dcache unit := fun c =>
  match nodes c !! n with Some r => Done tt (set_nodes (<[n := u64 (r + k)]> (nodes c)) c) | None => Undef end.

(** [VFS::close]: with the last reference the file system deletes the node. *)
Definition vfs_close (n : Z) : M dcache unit := fun c =>
  match nodes c !! n with
  | None => Undef
  | Some r =>
      if kept n then Done tt c
      else
        let r' := u64 (r - 1) in
        if r' =? 0 then Done tt (set_nodes (base.delete n (nodes c)) c) else Done tt (set_nodes (<[n := r']> (nodes c)) c)
  end.

Definition cache_unref (n : option Z) : M dcache unit := match n with Some n => vfs_close n | None => mret tt end.

(** ** The three structures *)

Definition free_entry (i : Z) : dentry :=
  {| d_name := []; d_node := None; d_hash := 0; lru_prev := None; lru_next := None; d_parent := None; children := None; sibling_next := None;
     slab_next := if i + 1 <? N then Some (i + 1) else None |}.

Definition init (m : gmap Z Z) : dcache :=
  {| slab_ := list_to_map ((fun i => (i, free_entry i)) <$> seqZ 0 N); root_children := None; lru_head_ := None; lru_tail_ := None;
     free_list_ := if 0 <? N then Some 0 else None; entry_count_ := 0; hit_count_ := 0; miss_count_ := 0; nodes := m |}.

(** The head of the children of a parent. *)
Definition kids_of (parent : option Z) : M dcache (option Z) :=
  match parent with None => gets root_children | Some p => e ← get_d p; mret (children e) end.
Definition set_kids (parent : option Z) (h : option Z) : M dcache unit :=
  match parent with None => modify (set_root h) | Some p => upd_d p (with_children h) end.

Definition find_child (parent : option Z) (name : list Z) (hash : Z) : M dcache (option Z) :=
  head ← kids_of parent;
  while fuel (fun d : option Z =>
    match d with
    | None => mret (inr None)
    | Some i => e ← get_d i; if (d_hash e =? hash) && bool_decide (d_name e = name) then mret (inr (Some i)) else mret (inl (sibling_next e))
    end) head.

(** The place a link is stored in: [dentry **pp]. *)
Inductive link := Kids (parent : option Z) | Sibling (d : Z).
Definition load (pp : link) : M dcache (option Z) := match pp with Kids p => kids_of p | Sibling d => e ← get_d d; mret (sibling_next e) end.
Definition store (pp : link) (h : option Z) : M dcache unit := match pp with Kids p => set_kids p h | Sibling d => upd_d d (with_sibling h) end.

Definition unlink_from_parent (d : Z) : M dcache unit :=
  e ← get_d d;
  pp ← while fuel (fun pp =>
    v ← load pp;
    match v with
    | Some x => if x =? d then mret (inr pp) else mret (inl (Sibling x))
    | None => mret (inr pp)
    end) (Kids (d_parent e));
  v ← load pp;
  _ ← (match v with Some _ => e ← get_d d; store pp (sibling_next e) | None => mret tt end);
  upd_d d (with_sibling None).

Definition set_lru_head (h : option Z) : M dcache unit := modify (fun c => set_lru h (lru_tail_ c) c).
Definition set_lru_tail (t : option Z) : M dcache unit := modify (fun c => set_lru (lru_head_ c) t c).
Definition set_next (n : option Z) (e : dentry) : dentry := with_lru (lru_prev e) n e.
Definition set_prev (p : option Z) (e : dentry) : dentry := with_lru p (lru_next e) e.

Definition lru_remove (d : Z) : M dcache unit :=
  e ← get_d d;
  _ ← (match lru_prev e with Some p => upd_d p (set_next (lru_next e)) | None => set_lru_head (lru_next e) end);
  e ← get_d d;
  _ ← (match lru_next e with Some n => upd_d n (set_prev (lru_prev e)) | None => set_lru_tail (lru_prev e) end);
  upd_d d (with_lru None None).

(** Appending at the most recently used end. *)
Definition lru_append (d : Z) : M dcache unit :=
  t ← gets lru_tail_;
  _ ← upd_d d (with_lru t None);
  _ ← (match t with Some t => upd_d t (set_next (Some d)) | None => set_lru_head (Some d) end);
  set_lru_tail (Some d).

(** [promote] of an entry of the slab; the root is not one. *)
Definition promote (d : Z) : M dcache unit :=
  t ← gets lru_tail_;
  if bool_decide (Some d = t) then mret tt else _ ← lru_remove d; lru_append d.

Definition free_slot (d : Z) : M dcache unit :=
  f ← gets free_list_;
  _ ← upd_d d (with_slab f);
  modify (set_free (Some d)).

(** The children of an entry, one after the other; the result is the nodes
    collected so far, at most [out_cap]. *)
Fixpoint each_child (rec : Z -> Z -> M dcache (list (option Z))) (k : nat) (child : option Z) (out_cap : Z) (acc : list (option Z)) : M dcache (list (option Z)) :=
  match child with
  | None => mret acc
  | Some c =>
      match k with
      | O => fun _ => NoFuel
      | S k' =>
          e ← get_d c;
          l ← (if zlen acc <? out_cap then rec c (out_cap - zlen acc) else mret []);
          each_child rec k' (sibling_next e) out_cap (acc ++ l)
      end
  end.

Fixpoint collect_and_free_subtree (k : nat) (d out_cap : Z) : M dcache (list (option Z)) :=
  match k with
  | O => fun _ => NoFuel
  | S k' =>
      e ← get_d d;
      out ← each_child (collect_and_free_subtree k') k' (children e) out_cap [];
      _ ← upd_d d (with_children None);
      _ ← lru_remove d;
      e ← get_d d;
      let out := if zlen out <? out_cap then out ++ [d_node e] else out in
      _ ← upd_d d (with_node None);
      _ ← modify (fun c => set_counts (u64 (entry_count_ c - 1)) (hit_count_ c) (miss_count_ c) c);
      _ ← free_slot d;
      mret out
  end.

(** A free slot is taken off the list. *)
Definition take_slot : M dcache (option Z) :=
  f ← gets free_list_;
  match f with
  | None => mret None
  | Some d => e ← get_d d; _ ← modify (set_free (slab_next e)); _ ← upd_d d (with_slab None); mret (Some d)
  end.

Definition evict_lru : M dcache (option Z) :=
  victim ← gets lru_head_;
  match victim with
  | None => mret None
  | Some v =>
      _ ← unlink_from_parent v;
      evicted_nodes ← collect_and_free_subtree fuel v N;
      _ ← for_each evicted_nodes cache_unref;
      slot ← take_slot;
      match slot with None => undefined | Some d => mret (Some d) end
  end.

(** ** Operations *)

(** The node, with a reference for the caller, and the entry. *)
Definition lookup_component (parent : option Z) (name : list Z) : M dcache (option Z * option Z) :=
  if zlen name =? 0 then mret (None, None)
  else
    d ← find_child parent name (hash_name name);
    match d with
    | None => _ ← modify (fun c => set_counts (entry_count_ c) (hit_count_ c) (u64 (miss_count_ c + 1)) c); mret (None, None)
    | Some d =>
        _ ← modify (fun c => set_counts (entry_count_ c) (u64 (hit_count_ c + 1)) (miss_count_ c) c);
        _ ← promote d;
        e ← get_d d;
        match d_node e with
        | None => undefined
        | Some n => _ ← add_ref 1 n; mret (Some n, Some d)
        end
    end.

Definition is_root_path (path : list Z) : bool := bool_decide (path = [SLASH]).

(** The loop of [lookup]: the parent, the node found for it, and the rest of the path. *)
Definition lookup (path : list Z) : M dcache (option Z) :=
  if (zlen path =? 0) || is_root_path path then mret None
  else
    while (S (length path)) (fun '(parent, result, p) =>
      match (p : list Z) with
      | [] => mret (inr result)
      | _ =>
          let '(name, rest) := component p in
          if bad_length name then
            _ ← modify (fun c => set_counts (entry_count_ c) (hit_count_ c) (u64 (miss_count_ c + 1)) c); mret (inr None)
          else
            x ← lookup_component parent name;
            let '(result', matched) := (x : option Z * option Z) in
            _ ← (match (result : option Z) with
                 | Some n => if bool_decide (result' = Some n) then mret tt else add_ref (-1) n
                 | None => mret tt
                 end);
            match matched with
            | None => mret (inr None)
            | Some _ => mret (inl (matched, result', skip_slash rest))
            end
      end) (None, None, skip_slash path).

(** [node] is not null. *)
Definition insert_component (parent : option Z) (name : list Z) (node : Z) : M dcache (option Z) :=
  if (zlen name =? 0) || (DENTRY_MAX_NAME <=? zlen name) then mret None
  else
    existing ← find_child parent name (hash_name name);
    match existing with
    | Some d =>
        e ← get_d d;
        let old_node := d_node e in
        _ ← upd_d d (with_node (Some node));
        _ ← add_ref 1 node;
        _ ← promote d;
        _ ← cache_unref old_node;
        mret (Some d)
    | None =>
        f ← gets free_list_;
        slot ← (match f with Some _ => take_slot | None => evict_lru end);
        match slot with
        | None => mret None
        | Some d =>
            _ ← upd_d d (fun e => {| d_name := name; d_node := Some node; d_hash := hash_name name; lru_prev := lru_prev e; lru_next := lru_next e;
                                     d_parent := parent; children := None; sibling_next := sibling_next e; slab_next := slab_next e |});
            _ ← add_ref 1 node;
            h ← kids_of parent;
            _ ← upd_d d (with_sibling h);
            _ ← set_kids parent (Some d);
            _ ← lru_append d;
            _ ← modify (fun c => set_counts (u64 (entry_count_ c + 1)) (hit_count_ c) (miss_count_ c) c);
            mret (Some d)
        end
    end.

Definition insert (path : list Z) (node : Z) : M dcache unit :=
  if (zlen path =? 0) || is_root_path path then mret tt
  else
    while (S (length path)) (fun '(parent, p) =>
      match (p : list Z) with
      | [] => mret (inr tt)
      | _ =>
          let '(name, rest) := component p in
          if bad_length name then mret (inr tt)
          else
            if bool_decide (rest = []) then _ ← insert_component parent name node; mret (inr tt)
            else
              x ← lookup_component parent name;
              match snd (x : option Z * option Z) with
              | None => mret (inr tt)
              | Some d => mret (inl (Some d, skip_slash rest))
              end
      end) (None, skip_slash path).

(** The entry of a path, or nothing as soon as a component is missing. *)
Definition find_path (path : list Z) : M dcache (option Z) :=
  while (S (length path)) (fun '(target, p) =>
    match (p : list Z) with
    | [] => mret (inr target)
    | _ =>
        let '(name, rest) := component p in
        if bad_length name then mret (inr None)
        else
          d ← find_child target name (hash_name name);
          match d with
          | None => mret (inr None)
          | Some _ => mret (inl (d, skip_slash rest))
          end
    end) (None, skip_slash path).

Definition invalidate (path : list Z) : M dcache unit :=
  if (zlen path =? 0) || is_root_path path then mret tt
  else
    target ← find_path path;
    match target with
    | None => mret tt
    | Some t =>
        _ ← unlink_from_parent t;
        evicted_nodes ← collect_and_free_subtree fuel t N;
        for_each evicted_nodes cache_unref
    end.

Definition invalidate_prefix (prefix : list Z) : M dcache unit := invalidate prefix.

Definition reset_entry (i : Z) (e : dentry) : dentry :=
  {| d_name := d_name e; d_node := None; d_hash := d_hash e; lru_prev := None; lru_next := None; d_parent := None; children := None; sibling_next := None;
     slab_next := if i + 1 <? N then Some (i + 1) else None |}.

Definition flush : M dcache unit :=
  c ← get;
  let to_unref := omap (fun i => e ← slab_ c !! i; d_node e) (seqZ 0 N) in
  _ ← modify (set_root None);
  _ ← for_each (seqZ 0 N) (fun i => upd_d i (reset_entry i));
  _ ← modify (fun c => set_counts 0 (hit_count_ c) (miss_count_ c) (set_lru None None (set_free (if 0 <? N then Some 0 else None) c)));
  for_each to_unref vfs_close.

Definition entry_count : M dcache Z := gets entry_count_.
Definition hit_count : M dcache Z := gets hit_count_.
Definition miss_count : M dcache Z := gets miss_count_.
End cache.
