(* ===== verification/DentryFacts.v ===== *)
(** * The structures of the dentry cache

    The tree is a forest in its first-child, next-sibling form, which is how the
    entries are linked; the order of use and the free slots are lists. Each
    structure reads its own fields of the entries, so that an operation on one
    keeps the others. *)

From Stdlib Require Import ZArith Lia.
From stdpp Require Import base tactics gmap numbers list sorting.
From S2P Require Import Prelude.
From S2P Require Import Memory.
From S2P Require Import Dentry.

(** ** The fields each structure reads *)

Definition lru_of (m : gmap Z dentry) (x : Z) : option (option Z * option Z) := (fun e => (lru_prev e, lru_next e)) <$> m !! x.
Definition free_of (m : gmap Z dentry) (x : Z) : option (option Z) := slab_next <$> m !! x.
Definition tree_of (m : gmap Z dentry) (x : Z) : option (list Z * option Z * Z * option Z * option Z * option Z) :=
  (fun e => (d_name e, d_node e, d_hash e, d_parent e, children e, sibling_next e)) <$> m !! x.

Lemma of_some m x : is_Some (m !! x) -> is_Some (lru_of m x) /\ is_Some (free_of m x) /\ is_Some (tree_of m x).
Proof. intros [e He]. unfold lru_of, free_of, tree_of. rewrite He. cbn. eauto. Qed.

Lemma lru_entry m x p n : lru_of m x = Some (p, n) -> exists e, m !! x = Some e /\ lru_prev e = p /\ lru_next e = n.
Proof. unfold lru_of. intros (e & He & Hm)%fmap_Some. exists e. by injection Hm as -> ->. Qed.

Lemma free_entry_of m x n : free_of m x = Some n -> exists e, m !! x = Some e /\ slab_next e = n.
Proof. unfold free_of. intros (e & He & Hm)%fmap_Some. by exists e. Qed.

Lemma tree_entry m x t : tree_of m x = Some t -> exists e, m !! x = Some e /\ t = (d_name e, d_node e, d_hash e, d_parent e, children e, sibling_next e).
Proof. unfold tree_of. intros (e & He & Hm)%fmap_Some. by exists e. Qed.

Lemma lru_insert m d e x : lru_of (<[d := e]> m) x = if decide (x = d) then Some (lru_prev e, lru_next e) else lru_of m x.
Proof. unfold lru_of. case_decide; [subst; by rewrite lookup_insert_eq|by rewrite lookup_insert_ne]. Qed.

Lemma free_insert m d e x : free_of (<[d := e]> m) x = if decide (x = d) then Some (slab_next e) else free_of m x.
Proof. unfold free_of. case_decide; [subst; by rewrite lookup_insert_eq|by rewrite lookup_insert_ne]. Qed.

Lemma tree_insert m d e x :
  tree_of (<[d := e]> m) x = if decide (x = d) then Some (d_name e, d_node e, d_hash e, d_parent e, children e, sibling_next e) else tree_of m x.
Proof. unfold tree_of. case_decide; [subst; by rewrite lookup_insert_eq|by rewrite lookup_insert_ne]. Qed.

(** The node an entry refers to; a free one refers to none. *)
Definition node_of (m : gmap Z dentry) (x : Z) : option Z := e ← m !! x; d_node e.
Definition idle (m : gmap Z dentry) (fl : list Z) : Prop := forall x, x ∈ fl -> node_of m x = None.

Lemma tree_node m m' x : tree_of m' x = tree_of m x -> node_of m' x = node_of m x.
Proof. unfold tree_of, node_of. destruct (m' !! x), (m !! x); cbn; congruence. Qed.

Lemma idle_frame m m' fl : (forall x, x ∈ fl -> tree_of m' x = tree_of m x) -> idle m fl -> idle m' fl.
Proof. intros Hf Hi x Hx. rewrite (tree_node m); auto. Qed.

(** What an operation leaves alone. *)
Definition same_tree (c c' : dcache) : Prop := (forall x, tree_of (slab_ c') x = tree_of (slab_ c) x) /\ root_children c' = root_children c.
Definition same_lru (c c' : dcache) : Prop := (forall x, lru_of (slab_ c') x = lru_of (slab_ c) x) /\ lru_head_ c' = lru_head_ c /\ lru_tail_ c' = lru_tail_ c.
Definition same_free (c c' : dcache) : Prop := (forall x, free_of (slab_ c') x = free_of (slab_ c) x) /\ free_list_ c' = free_list_ c.
Definition same_rest (c c' : dcache) : Prop := nodes c' = nodes c /\ entry_count_ c' = entry_count_ c /\ hit_count_ c' = hit_count_ c /\ miss_count_ c' = miss_count_ c.

Lemma same_tree_trans c1 c2 c3 : same_tree c1 c2 -> same_tree c2 c3 -> same_tree c1 c3.
Proof. intros [H1 E1] [H2 E2]. split; [|congruence]. intros x. by rewrite H2, H1. Qed.
Lemma same_lru_trans c1 c2 c3 : same_lru c1 c2 -> same_lru c2 c3 -> same_lru c1 c3.
Proof. intros (H1 & E1 & F1) (H2 & E2 & F2). split; [|split; congruence]. intros x. by rewrite H2, H1. Qed.
Lemma same_free_trans c1 c2 c3 : same_free c1 c2 -> same_free c2 c3 -> same_free c1 c3.
Proof. intros [H1 E1] [H2 E2]. split; [|congruence]. intros x. by rewrite H2, H1. Qed.

Lemma same_rest_trans c1 c2 c3 : same_rest c1 c2 -> same_rest c2 c3 -> same_rest c1 c3.
Proof. unfold same_rest. intuition congruence. Qed.

(** Only the order of use changes. *)
Definition only_lru (c c' : dcache) : Prop := same_tree c c' /\ same_free c c' /\ same_rest c c'.

Lemma only_lru_trans c1 c2 c3 : only_lru c1 c2 -> only_lru c2 c3 -> only_lru c1 c3.
Proof. intros (? & ? & ?) (? & ? & ?). split_and!; eauto using same_tree_trans, same_free_trans, same_rest_trans. Qed.

(** An update that keeps the fields of a structure. *)
Lemma upd_d_run d f c e : slab_ c !! d = Some e -> upd_d d f c = Done tt (set_slab (<[d := f e]> (slab_ c)) c).
Proof. intros E. unfold upd_d. by rewrite E. Qed.

Lemma get_d_run d c e : slab_ c !! d = Some e -> get_d d c = Done e c.
Proof. intros E. unfold get_d. by rewrite E. Qed.

Lemma upd_same_tree c d e f : slab_ c !! d = Some e -> (d_name (f e), d_node (f e), d_hash (f e), d_parent (f e), children (f e), sibling_next (f e)) = (d_name e, d_node e, d_hash e, d_parent e, children e, sibling_next e) -> same_tree c (set_slab (<[d := f e]> (slab_ c)) c).
Proof.
  intros E Hf. split; [|done]. intros x. cbn. rewrite tree_insert. case_decide; [subst|done]. unfold tree_of. rewrite E, Hf. done.
Qed.
Lemma upd_same_lru c d e f : slab_ c !! d = Some e -> (lru_prev (f e), lru_next (f e)) = (lru_prev e, lru_next e) -> same_lru c (set_slab (<[d := f e]> (slab_ c)) c).
Proof.
  intros E Hf. split; [|done]. intros x. cbn. rewrite lru_insert. case_decide; [subst|done]. unfold lru_of. rewrite E, Hf. done.
Qed.
Lemma upd_same_free c d e f : slab_ c !! d = Some e -> slab_next (f e) = slab_next e -> same_free c (set_slab (<[d := f e]> (slab_ c)) c).
Proof.
  intros E Hf. split; [|done]. intros x. cbn. rewrite free_insert. case_decide; [subst|done]. unfold free_of. rewrite E, Hf. done.
Qed.

(** ** The order of use: a doubly linked list *)

(** The first of [l], or [n] behind it; the last of [l], or [p] in front of it. *)
Definition first (l : list Z) (n : option Z) : option Z := match l with x :: _ => Some x | [] => n end.
Definition final (p : option Z) (l : list Z) : option Z := match last l with Some x => Some x | None => p end.

Fixpoint dseg (m : gmap Z dentry) (p : option Z) (l : list Z) (n : option Z) : Prop :=
  match l with
  | [] => True
  | x :: r => lru_of m x = Some (p, first r n) /\ dseg m (Some x) r n
  end.

Lemma final_cons p x l : final p (x :: l) = final (Some x) l.
Proof. unfold final. rewrite last_cons. by destruct (last l). Qed.

Lemma final_app p l1 l2 : final p (l1 ++ l2) = final (final p l1) l2.
Proof. unfold final. rewrite last_app. by destruct (last l2). Qed.

Lemma first_app l1 l2 n : first (l1 ++ l2) n = first l1 (first l2 n).
Proof. by destruct l1. Qed.

Lemma dseg_app m p l1 l2 n : dseg m p (l1 ++ l2) n <-> dseg m p l1 (first l2 n) /\ dseg m (final p l1) l2 n.
Proof.
  revert p. induction l1 as [|x l1 IH]; intros p; cbn [app dseg]; [tauto|]. rewrite IH, first_app, final_cons. tauto.
Qed.

Lemma dseg_frame m m' p l n : (forall x, x ∈ l -> lru_of m' x = lru_of m x) -> dseg m p l n -> dseg m' p l n.
Proof.
  revert p. induction l as [|x l IH]; intros p Hf; cbn [dseg]; [done|]. intros [H1 H2]. split; [rewrite Hf by set_solver; done|]. apply IH; [|done]. intros y Hy. apply Hf. set_solver.
Qed.

Definition lru_list (c : dcache) (l : list Z) : Prop := dseg (slab_ c) None l None /\ lru_head_ c = first l None /\ lru_tail_ c = final None l.

Lemma lru_list_same c c' l : same_lru c c' -> lru_list c l -> lru_list c' l.
Proof. intros (H1 & H2 & H3) (D & Hh & Ht). split_and!; [|congruence..]. by eapply dseg_frame; [|exact D]. Qed.

Lemma lru_elem c l x : lru_list c l -> x ∈ l -> exists e, slab_ c !! x = Some e.
Proof.
  intros (D & _ & _) (l1 & l2 & ->)%list_elem_of_split. apply dseg_app in D as [_ D]. cbn in D. destruct D as [D _]. apply lru_entry in D as (e & ? & _). eauto.
Qed.

Lemma set_lru_only c d e p n : slab_ c !! d = Some e -> only_lru c (set_slab (<[d := with_lru p n e]> (slab_ c)) c).
Proof. intros E. split_and!; [by apply (upd_same_tree c d e (with_lru p n))|by apply (upd_same_free c d e (with_lru p n))|done]. Qed.

(** The link to what follows [l]: in its last entry, or the head of the list. *)
Lemma link_next c l n n' :
  dseg (slab_ c) None l n -> NoDup l -> lru_head_ c = first l n ->
  exists c', (match final None l with Some p => upd_d p (set_next n') | None => set_lru_head n' end) c = Done tt c' /\ dseg (slab_ c') None l n' /\
    (forall x, x ∉ l -> lru_of (slab_ c') x = lru_of (slab_ c) x) /\ lru_head_ c' = first l n' /\ lru_tail_ c' = lru_tail_ c /\ only_lru c c'.
Proof.
  intros D Hnd Hh. destruct l as [|y l _] using rev_ind; [eexists; split; [done|]; by split_and!|]. rewrite final_app. cbn [final last]. apply dseg_app in D as [D1 [D2 _]].
  apply NoDup_app in Hnd as (Hnd & Hy & _). assert (y ∉ l) as Hyl by (intros H; by apply (Hy y H), list_elem_of_singleton).
  apply lru_entry in D2 as (e & He & Hp & _). eexists. split; [by apply upd_d_run|]. cbn [slab_ set_slab]. split_and!.
  - apply dseg_app. split; [eapply dseg_frame; [|exact D1]; intros x Hx; rewrite lru_insert, decide_False by congruence; done|]. cbn. rewrite lru_insert, decide_True by done. cbn. by rewrite Hp.
  - intros x Hx. rewrite lru_insert, decide_False; [done|]. set_solver.
  - cbn. rewrite Hh, !first_app. by destruct l.
  - done.
  - by apply set_lru_only.
Qed.

Lemma link_prev c l p p' :
  dseg (slab_ c) p l None -> NoDup l -> lru_tail_ c = final p l ->
  exists c', (match first l None with Some n => upd_d n (set_prev p') | None => set_lru_tail p' end) c = Done tt c' /\ dseg (slab_ c') p' l None /\
    (forall x, x ∉ l -> lru_of (slab_ c') x = lru_of (slab_ c) x) /\ lru_tail_ c' = final p' l /\ lru_head_ c' = lru_head_ c /\ only_lru c c'.
Proof.
  intros D Hnd Ht. destruct l as [|y l]; [eexists; split; [done|]; by split_and!|]. cbn [first dseg] in *. destruct D as [D1 D2]. apply NoDup_cons in Hnd as [Hy Hnd].
  apply lru_entry in D1 as (e & He & _ & Hn). eexists. split; [by apply upd_d_run|]. cbn [slab_ set_slab]. split_and!.
  - rewrite lru_insert, decide_True by done. cbn. by rewrite Hn.
  - eapply dseg_frame; [|exact D2]. intros x Hx. rewrite lru_insert, decide_False by congruence. done.
  - intros x Hx. rewrite lru_insert, decide_False; [done|]. set_solver.
  - cbn. rewrite Ht, !final_cons. done.
  - done.
  - by apply set_lru_only.
Qed.

Lemma lru_remove_ok c l1 d l2 :
  lru_list c (l1 ++ d :: l2) -> NoDup (l1 ++ d :: l2) -> exists c', lru_remove d c = Done tt c' /\ lru_list c' (l1 ++ l2) /\ only_lru c c'.
Proof.
  intros (D & Hh & Ht) Hnd. apply dseg_app in D as [D1 [Dd D2]]. cbn [first] in D1. apply NoDup_app in Hnd as (N1 & N12 & [Nd N2]%NoDup_cons).
  assert (d ∉ l1) as Hd1 by (intros H; apply (N12 d H); set_solver). pose proof Dd as Dd0. apply lru_entry in Dd as (e & He & Hp & Hn).
  rewrite first_app in Hh. rewrite final_app, final_cons in Ht. unfold lru_remove. rewrite bind_run, (get_d_run _ _ _ He), bind_run, Hp.
  destruct (link_next c l1 (Some d) (lru_next e) D1 N1 Hh) as (c1 & -> & D1' & F1 & Hh1 & Ht1 & O1).
  assert (lru_of (slab_ c1) d = Some (lru_prev e, lru_next e)) as Dd1 by (rewrite F1 by done; rewrite Dd0, Hp, Hn; done).
  apply lru_entry in Dd1 as (e1 & He1 & Hp1 & Hn1). rewrite bind_run, (get_d_run _ _ _ He1), bind_run, Hn1, Hn.
  assert (dseg (slab_ c1) (Some d) l2 None) as D2' by (eapply dseg_frame; [|exact D2]; intros x Hx; apply F1; intros Hx1; apply (N12 x Hx1); set_solver).
  destruct (link_prev c1 l2 (Some d) (lru_prev e1) D2' N2) as (c2 & -> & D2'' & F2 & Ht2 & Hh2 & O2); [by rewrite Ht1|].
  assert (lru_of (slab_ c2) d = Some (lru_prev e1, lru_next e1)) as (e2 & He2 & _)%lru_entry by (rewrite F2 by done; unfold lru_of; by rewrite He1).
  eexists. split; [by apply upd_d_run|]. split; [|eapply only_lru_trans; [exact O1|]; eapply only_lru_trans; [exact O2|]; by apply set_lru_only].
  assert (forall x, x <> d -> lru_of (<[d := with_lru None None e2]> (slab_ c2)) x = lru_of (slab_ c2) x) as F3 by (intros x Hx; by rewrite lru_insert, decide_False).
  split_and!; cbn [slab_ set_slab lru_head_ lru_tail_].
  - apply dseg_app. split.
    + eapply dseg_frame; [|eapply dseg_frame; [|rewrite <- Hn; exact D1']]; intros x Hx; [apply F3; congruence|apply F2; intros Hx2; apply (N12 x Hx); set_solver].
    + rewrite <- Hp, <- Hp1. eapply dseg_frame; [|exact D2'']. intros x Hx. apply F3. congruence.
  - rewrite Hh2, Hh1, first_app, Hn. done.
  - rewrite Ht2, Hp1, final_app, Hp. done.
Qed.

(** An entry that is not in the list goes to its end. *)
Lemma lru_append_ok c l d e :
  lru_list c l -> NoDup l -> d ∉ l -> slab_ c !! d = Some e -> exists c', lru_append d c = Done tt c' /\ lru_list c' (l ++ [d]) /\ only_lru c c'.
Proof.
  intros (D & Hh & Ht) Hnd Hd He. unfold lru_append. rewrite bind_run. unfold gets. rewrite bind_run, (upd_d_run _ _ _ _ He).
  set (c1 := set_slab _ c). assert (dseg (slab_ c1) None l None) as D1 by (eapply dseg_frame; [|exact D]; intros x Hx; cbn; rewrite lru_insert, decide_False by congruence; done).
  rewrite bind_run, Ht. destruct (link_next c1 l None (Some d) D1 Hnd Hh) as (c2 & -> & D2 & F2 & Hh2 & Ht2 & O2).
  eexists. split; [done|]. split; [|eapply only_lru_trans; [by apply (set_lru_only c d e (lru_tail_ c) None)|done]]. split_and!; cbn.
  - apply dseg_app. split; [done|]. cbn. rewrite F2 by done. cbn. rewrite lru_insert, decide_True by done. cbn. by rewrite Ht.
  - by rewrite Hh2, first_app.
  - by rewrite final_app.
Qed.

(** [promote]: to the end of the list. *)
Lemma promote_ok c l1 d l2 :
  lru_list c (l1 ++ d :: l2) -> NoDup (l1 ++ d :: l2) -> exists c', promote d c = Done tt c' /\ lru_list c' (l1 ++ l2 ++ [d]) /\ only_lru c c'.
Proof.
  intros Hl Hnd. unfold promote. rewrite bind_run. unfold gets. case_bool_decide as Ht.
  - exists c. split; [done|]. split; [|by split_and!]. destruct l2 as [|y l2 _] using rev_ind; [done|]. exfalso. destruct Hl as (_ & _ & Hl). rewrite Hl, final_app, final_cons, final_app in Ht.
    cbn in Ht. injection Ht as ->. apply NoDup_app in Hnd as (_ & _ & [Hnd _]%NoDup_cons). set_solver.
  - destruct (lru_remove_ok c l1 d l2 Hl Hnd) as (c1 & E1 & Hl1 & O1). rewrite bind_run, E1.
    apply NoDup_app in Hnd as (N1 & N12 & [Nd N2]%NoDup_cons). destruct (lru_elem c (l1 ++ d :: l2) d Hl) as [e He]; [set_solver|].
    assert (exists e1, slab_ c1 !! d = Some e1) as [e1 He1].
    { destruct O1 as ((Ht1 & _) & _). specialize (Ht1 d). unfold tree_of in Ht1. rewrite He in Ht1. cbn in Ht1. destruct (slab_ c1 !! d); [eauto|done]. }
    destruct (lru_append_ok c1 (l1 ++ l2) d e1 Hl1) as (c2 & E2 & Hl2 & O2); [|set_solver|done|].
    { apply NoDup_app. split_and!; [done| |done]. intros x Hx Hx2. apply (N12 x Hx). set_solver. }
    exists c2. rewrite <- app_assoc in Hl2. split_and!; [done|done|]. by eapply only_lru_trans.
Qed.

(** ** Free slots *)

Fixpoint fchain (m : gmap Z dentry) (h : option Z) (l : list Z) : Prop :=
  match l with [] => h = None | x :: r => h = Some x /\ exists h', free_of m x = Some h' /\ fchain m h' r end.

Definition free_slots (c : dcache) (l : list Z) : Prop := fchain (slab_ c) (free_list_ c) l.

Lemma fchain_frame m m' h l : (forall x, x ∈ l -> free_of m' x = free_of m x) -> fchain m h l -> fchain m' h l.
Proof.
  revert h. induction l as [|x l IH]; intros h Hf; cbn [fchain]; [done|]. intros (-> & h' & H1 & H2). split; [done|]. exists h'. split; [by rewrite Hf by set_solver|]. apply IH; [set_solver|done].
Qed.

Lemma free_slots_same c c' l : same_free c c' -> free_slots c l -> free_slots c' l.
Proof. intros [H1 H2] Hl. unfold free_slots. rewrite H2. by eapply fchain_frame; [|exact Hl]. Qed.

Lemma free_slots_elem c l x : free_slots c l -> x ∈ l -> exists e, slab_ c !! x = Some e.
Proof.
  unfold free_slots. generalize (free_list_ c). induction l as [|y l IH]; intros h; cbn [fchain]; [set_solver|]. intros (-> & h' & H1 & H2) [->|Hx]%elem_of_cons; [|by eapply IH].
  apply free_entry_of in H1 as (e & ? & _). eauto.
Qed.

Lemma free_slot_ok c l d e :
  free_slots c l -> d ∉ l -> slab_ c !! d = Some e -> exists c', free_slot d c = Done tt c' /\ free_slots c' (d :: l) /\ same_tree c c' /\ same_lru c c' /\ same_rest c c'.
Proof.
  intros Hl Hd He. unfold free_slot. rewrite bind_run. unfold gets. rewrite bind_run, (upd_d_run _ _ _ _ He). eexists. split; [done|]. split_and!; try done.
  - split; [done|]. exists (free_list_ c). cbn. rewrite free_insert, decide_True by done. split; [done|]. eapply fchain_frame; [|exact Hl]. intros x Hx. rewrite free_insert, decide_False by congruence. done.
  - by apply (upd_same_tree c d e (with_slab (free_list_ c))).
  - by apply (upd_same_lru c d e (with_slab (free_list_ c))).
Qed.

Lemma take_slot_ok c d l :
  free_slots c (d :: l) -> d ∉ l -> exists c' e, slab_ c !! d = Some e /\ take_slot c = Done (Some d) c' /\ free_slots c' l /\ slab_ c' !! d = Some (with_slab None e) /\
    same_tree c c' /\ same_lru c c' /\ same_rest c c'.
Proof.
  intros (Hh & h' & H1 & H2) Hd. apply free_entry_of in H1 as (e & He & Hn). unfold take_slot. rewrite bind_run. unfold gets. rewrite Hh, bind_run, (get_d_run _ _ _ He), bind_run. cbn [modify].
  eexists _, e. split; [done|]. split; [rewrite bind_run; unfold upd_d; cbn [slab_ set_free]; rewrite He; done|]. split_and!; try done.
  - unfold free_slots. cbn. rewrite Hn. eapply fchain_frame; [|exact H2]. intros x Hx. rewrite free_insert, decide_False by congruence. done.
  - cbn. apply lookup_insert_eq.
  - by apply (upd_same_tree c d e (with_slab None)).
  - by apply (upd_same_lru c d e (with_slab None)).
Qed.

(** ** The tree *)

(** A list of siblings, each with its subtree: an entry with its name and node,
    its children, and the siblings behind it. *)
Inductive forest := Nil | Node (d : Z) (nm : list Z) (nd : Z) (kids rest : forest).

Fixpoint ids (f : forest) : list Z := match f with Nil => [] | Node d _ _ k r => d :: ids k ++ ids r end.
Fixpoint names (f : forest) : list (list Z) := match f with Nil => [] | Node _ nm _ _ r => nm :: names r end.

(** Siblings have different names that can be stored. *)
Fixpoint uniq (f : forest) : Prop :=
  match f with Nil => True | Node _ nm _ k r => bad_length nm = false /\ nm ∉ names r /\ uniq k /\ uniq r end.

Fixpoint rep (m : gmap Z dentry) (p h : option Z) (f : forest) : Prop :=
  match f with
  | Nil => h = None
  | Node d nm nd k r => h = Some d /\ exists hk hr, tree_of m d = Some (nm, Some nd, hash_name nm, p, hk, hr) /\ rep m (Some d) hk k /\ rep m p hr r
  end.

Lemma rep_frame m m' p h f : (forall x, x ∈ ids f -> tree_of m' x = tree_of m x) -> rep m p h f -> rep m' p h f.
Proof.
  revert p h. induction f as [|d nm nd k IHk r IHr]; intros p h Hf; cbn [rep]; [done|]. intros (-> & hk & hr & H1 & H2 & H3). split; [done|]. exists hk, hr.
  cbn [ids] in Hf. split_and!; [rewrite Hf by set_solver; done|apply IHk; [set_solver|done]|apply IHr; [set_solver|done]].
Qed.

Lemma rep_same c c' f : same_tree c c' -> rep (slab_ c) None (root_children c) f -> rep (slab_ c') None (root_children c') f.
Proof. intros [H1 H2]. rewrite H2. apply rep_frame. intros x _. apply H1. Qed.

(** The entry of a path: its slot and its node. *)
Fixpoint fget (path : list (list Z)) (f : forest) : option (Z * Z) :=
  match f with
  | Nil => None
  | Node d nm nd k r =>
      match path with
      | [] => None
      | c :: cs => if decide (c = nm) then match cs with [] => Some (d, nd) | _ => fget cs k end else fget path r
      end
  end.

(** A sibling by name, and the subtree of an entry. *)
Fixpoint fchild (nm : list Z) (f : forest) : option (Z * Z * forest) :=
  match f with Nil => None | Node d nm' nd k r => if decide (nm = nm') then Some (d, nd, k) else fchild nm r end.

Fixpoint fsub (d : Z) (f : forest) : option forest :=
  match f with
  | Nil => None
  | Node x _ _ k r => if decide (x = d) then Some k else match fsub d k with Some g => Some g | None => fsub d r end
  end.

Definition fkids (p : option Z) (f : forest) : option forest := match p with None => Some f | Some d => fsub d f end.
