(* ===== verification/DentryTree.v ===== *)
(** * The tree of the dentry cache

    Finding, inserting and unlinking entries, seen on the forest, and what that
    means for the entries of paths. *)

From Stdlib Require Import ZArith Lia.
From stdpp Require Import base tactics gmap numbers list sorting.
From S2P Require Import Prelude.
From S2P Require Import Memory.
From S2P Require Import Dentry.
From S2P Require Import DentryFacts.

(** ** Subtrees *)

Lemma fsub_elem d f g : fsub d f = Some g -> d ∈ ids f /\ forall x, x ∈ ids g -> x ∈ ids f.
Proof.
  induction f as [|x nm nd k IHk r IHr]; cbn [fsub ids]; [done|]. case_decide; [intros [= <-]; subst; set_solver|].
  destruct (fsub d k) as [g'|]; [intros [= <-]; destruct (IHk eq_refl); set_solver|]. intros Hr. destruct (IHr Hr). set_solver.
Qed.

Lemma fsub_none d f : d ∉ ids f -> fsub d f = None.
Proof. intros Hd. destruct (fsub d f) as [g|] eqn:E; [|done]. by destruct (fsub_elem d f g E). Qed.

Lemma fsub_some d f : d ∈ ids f -> is_Some (fsub d f).
Proof.
  induction f as [|x nm nd k IHk r IHr]; cbn [fsub ids]; [set_solver|]. intros Hd. case_decide; [eauto|]. destruct (fsub d k) as [g|] eqn:E; [eauto|].
  apply IHr. rewrite elem_of_cons, elem_of_app in Hd. destruct Hd as [->|[Hd|Hd]]; [done| |done]. destruct (IHk Hd). done.
Qed.

Lemma fsub_length d f g : fsub d f = Some g -> (length (ids g) < length (ids f))%nat.
Proof.
  induction f as [|x nm nd k IHk r IHr]; cbn [fsub ids length]; [done|]. rewrite length_app. case_decide; [intros [= <-]; lia|].
  destruct (fsub d k) as [g'|]; [intros [= <-]; specialize (IHk eq_refl); lia|]. intros Hr. specialize (IHr Hr). lia.
Qed.

Lemma fsub_uniq d f g : uniq f -> fsub d f = Some g -> uniq g.
Proof.
  induction f as [|x nm nd k IHk r IHr]; cbn [fsub uniq]; [done|]. intros (_ & _ & Uk & Ur). case_decide; [intros [= <-]; done|]. destruct (fsub d k) as [g'|]; [intros [= <-]; auto|auto].
Qed.

Lemma nodup_node d nm nd k r : NoDup (ids (Node d nm nd k r)) -> d ∉ ids k /\ d ∉ ids r /\ NoDup (ids k) /\ NoDup (ids r) /\ forall x, x ∈ ids k -> x ∉ ids r.
Proof. cbn [ids]. rewrite NoDup_cons, NoDup_app. set_solver. Qed.

Lemma fsub_nodup d f g : NoDup (ids f) -> fsub d f = Some g -> NoDup (ids g) /\ d ∉ ids g.
Proof.
  induction f as [|x nm nd k IHk r IHr]; cbn [fsub]; [done|]. intros (H1 & H2 & H3 & H4 & H5)%nodup_node. case_decide; [intros [= <-]; by subst|].
  destruct (fsub d k) as [g'|]; [intros [= <-]; auto|auto].
Qed.

(** The subtree of an entry of a subtree. *)
Lemma fsub_trans p d f g k : NoDup (ids f) -> fsub p f = Some g -> fsub d g = Some k -> fsub d f = Some k.
Proof.
  induction f as [|x nm nd k0 IHk r IHr]; cbn [fsub]; [done|]. intros (H1 & H2 & H3 & H4 & H5)%nodup_node. case_decide as Hx.
  - intros [= <-] Hd. destruct (fsub_elem d k0 k Hd). rewrite decide_False by congruence. by rewrite Hd.
  - destruct (fsub p k0) as [g'|] eqn:E.
    + intros [= <-] Hd. destruct (fsub_elem _ _ _ Hd) as [Hd1 _]. destruct (fsub_elem _ _ _ E) as [_ Hin]. rewrite decide_False by (intros ->; by apply H1, Hin). by rewrite (IHk H3 eq_refl Hd).
    + intros Hr Hd. destruct (fsub_elem _ _ _ Hd) as [Hd1 _]. destruct (fsub_elem _ _ _ Hr) as [_ Hin]. apply Hin in Hd1. rewrite decide_False by (intros ->; done).
      rewrite fsub_none by (intros Hdk; by apply (H5 d)). auto.
Qed.

Lemma fchild_elem nm f d nd k : fchild nm f = Some (d, nd, k) -> d ∈ ids f /\ nm ∈ names f /\ forall x, x ∈ ids k -> x ∈ ids f.
Proof.
  induction f as [|x nm' nd' k' _ r IH]; cbn [fchild ids names]; [done|]. case_decide; [intros [= -> -> ->]; set_solver|]. intros Hc. destruct (IH Hc) as (? & ? & ?). set_solver.
Qed.

Lemma fchild_sub nm f d nd k : NoDup (ids f) -> fchild nm f = Some (d, nd, k) -> fsub d f = Some k.
Proof.
  induction f as [|x nm' nd' k' _ r IH]; cbn [fchild fsub]; [done|]. intros (H1 & H2 & H3 & H4 & H5)%nodup_node. case_decide; [intros [= -> -> ->]; by rewrite decide_True|].
  intros Hr. destruct (fchild_elem _ _ _ _ _ Hr) as (Hd & _ & _). rewrite decide_False by congruence. rewrite fsub_none by (intros Hdk; by apply (H5 d)). auto.
Qed.

Lemma fchild_none nm f : fchild nm f = None -> nm ∉ names f.
Proof. induction f as [|x nm' nd' k' _ r IH]; cbn [fchild names]; [set_solver|]. case_decide; [done|]. set_solver. Qed.

Lemma fget_child c cs f : fget (c :: cs) f = match fchild c f with None => None | Some (d, nd, k) => match cs with [] => Some (d, nd) | _ => fget cs k end end.
Proof. induction f as [|x nm nd k _ r IH]; cbn [fget fchild]; [done|]. by case_decide. Qed.

Lemma fget_nil f : fget [] f = None.
Proof. by destruct f. Qed.

(** ** Finding a child *)

Lemma rep_sub m p h f d g :
  rep m p h f -> fsub d f = Some g -> exists nm nd q hk hr, tree_of m d = Some (nm, Some nd, hash_name nm, q, hk, hr) /\ rep m (Some d) hk g.
Proof.
  revert p h. induction f as [|x nm nd k IHk r IHr]; intros p h; cbn [rep fsub]; [done|]. intros (-> & hk & hr & H1 & H2 & H3). case_decide; [intros [= <-]; subst; eauto 10|].
  destruct (fsub d k) as [g'|]; [intros [= <-]; by eapply IHk|by eapply IHr].
Qed.

Lemma kids_of_ok c f p g : rep (slab_ c) None (root_children c) f -> fkids p f = Some g -> exists h, kids_of p c = Done h c /\ rep (slab_ c) p h g.
Proof.
  intros Hr. destruct p as [d|]; cbn [fkids kids_of]; [|intros [= <-]; by eexists]. intros Hs. destruct (rep_sub _ _ _ _ _ _ Hr Hs) as (nm & nd & q & hk & hr & Ht & Hg).
  apply tree_entry in Ht as (e & He & [= -> Hnd Hh Hq -> ->]). exists (children e). by rewrite bind_run, (get_d_run _ _ _ He).
Qed.

Section find.
Context (N : Z).

Lemma find_child_ok c f p g nm :
  rep (slab_ c) None (root_children c) f -> fkids p f = Some g -> (length (ids f) <= Z.to_nat N)%nat ->
  find_child N p nm (hash_name nm) c = Done ((fun x => fst (fst x)) <$> fchild nm g) c.
Proof.
  intros Hr Hk Hl. destruct (kids_of_ok c f p g Hr Hk) as (h & E & Hg). unfold find_child. rewrite bind_run, E.
  assert (length (ids g) <= Z.to_nat N)%nat as Hlg by (destruct p; cbn in Hk; [pose proof (fsub_length _ _ _ Hk); lia|by injection Hk as ->]).
  assert (length (ids g) < fuel N)%nat as Hf by (unfold fuel; lia). clear Hlg Hk Hl E Hr. revert h Hg Hf. generalize (fuel N).
  induction g as [|x nm' nd k _ r IH]; intros n h Hg Hn; (destruct n as [|n]; [lia|]); rewrite while_S; cbn [rep] in Hg; [by subst h|].
  destruct Hg as (-> & hk & hr & Ht & _ & Hrest). apply tree_entry in Ht as (e & He & [= -> _ Hh _ _ ->]). rewrite bind_run, (get_d_run _ _ _ He). cbn [fchild].
  destruct (decide (nm = d_name e)) as [->|Hne].
  - by rewrite <- Hh, Z.eqb_refl, bool_decide_true.
  - rewrite bool_decide_false, andb_false_r by congruence. rewrite ret_run. apply IH; [done|]. cbn [ids length] in Hn. rewrite length_app in Hn. lia.
Qed.
End find.

(** ** Replacing the children of an entry *)

Fixpoint fputd (d : Z) (g f : forest) : forest :=
  match f with Nil => Nil | Node x nm nd k r => if decide (x = d) then Node x nm nd g r else Node x nm nd (fputd d g k) (fputd d g r) end.

Definition fput (p : option Z) (g f : forest) : forest := match p with None => g | Some d => fputd d g f end.

Lemma fputd_none d g f : d ∉ ids f -> fputd d g f = f.
Proof. induction f as [|x nm nd k IHk r IHr]; cbn [fputd ids]; [done|]. intros Hd. rewrite decide_False by set_solver. rewrite IHk, IHr by set_solver. done. Qed.

Lemma names_putd d g f : names (fputd d g f) = names f.
Proof. induction f as [|x nm nd k IHk r IHr]; cbn [fputd names]; [done|]. case_decide; cbn [names]; congruence. Qed.

Lemma uniq_putd d g f : uniq f -> uniq g -> uniq (fputd d g f).
Proof.
  intros Hf Hg. induction f as [|x nm nd k IHk r IHr]; cbn [fputd uniq] in *; [done|]. destruct Hf as (H1 & H2 & H3 & H4).
  case_decide; cbn [uniq]; [done|]. rewrite names_putd. auto.
Qed.

(** The entries of the forest with the children replaced. *)
Lemma ids_putd d g f k : NoDup (ids f) -> fsub d f = Some k -> exists xs, ids f ≡ₚ xs ++ ids k /\ ids (fputd d g f) ≡ₚ xs ++ ids g.
Proof.
  induction f as [|x nm nd k0 IHk r IHr]; cbn [fsub fputd]; [done|]. intros (H1 & H2 & H3 & H4 & H5)%nodup_node. case_decide.
  - intros [= <-]. exists (x :: ids r). cbn [ids]. split; by rewrite (comm app (ids _) (ids r)).
  - destruct (fsub d k0) as [k'|] eqn:E.
    + intros [= <-]. destruct (IHk H3 eq_refl) as (xs & P1 & P2). destruct (fsub_elem _ _ _ E) as [Hd _]. rewrite (fputd_none d g r) by (by apply H5).
      exists (x :: ids r ++ xs). cbn [ids]. rewrite P1, P2. split; rewrite (comm app (_ ++ _) (ids r)), (assoc app); done.
    + intros Hs. destruct (IHr H4 Hs) as (xs & P1 & P2). destruct (fsub_elem _ _ _ Hs) as [Hd _]. rewrite (fputd_none d g k0) by (intros Hdk; by apply (H5 d)).
      exists (x :: ids k0 ++ xs). cbn [ids]. rewrite P1, P2. split; by rewrite (assoc app).
Qed.

Lemma rep_putd m m' p h f d g k hk' :
  rep m p h f -> NoDup (ids f) -> fsub d f = Some k ->
  (forall x, x ∈ ids f -> x <> d -> x ∉ ids k -> tree_of m' x = tree_of m x) ->
  (forall nm nd hs q hk hr, tree_of m d = Some (nm, nd, hs, q, hk, hr) -> tree_of m' d = Some (nm, nd, hs, q, hk', hr)) ->
  rep m' (Some d) hk' g -> rep m' p h (fputd d g f).
Proof.
  revert p h. induction f as [|x nm nd k0 IHk r IHr]; intros p h; cbn [rep fsub fputd]; [done|]. intros (-> & hk & hr & H1 & H2 & H3) Hnd Hs Hfr Hd Hg.
  apply nodup_node in Hnd as (N1 & N2 & N3 & N4 & N5). cbn [ids] in Hfr. case_decide as Hx.
  - injection Hs as ->. subst x. cbn [rep]. split; [done|]. exists hk', hr. split; [by eapply Hd|]. split; [done|]. eapply rep_frame; [|exact H3]. intros y Hy. apply Hfr; [set_solver|congruence|]. intros Hyk. by apply (N5 y).
  - cbn [rep]. split; [done|]. exists hk, hr. destruct (fsub d k0) as [k'|] eqn:E.
    + injection Hs as ->. destruct (fsub_elem _ _ _ E) as [Hdk Hin]. rewrite (fputd_none d g r) by (by apply N5). split; [rewrite Hfr; [done|set_solver|done|]; intros Hxk; by apply N1, Hin|].
      split; [apply IHk; try done; set_solver|]. eapply rep_frame; [|exact H3]. intros y Hy. apply Hfr; [set_solver|intros ->; by apply (N5 d)|]. intros Hyk. by apply (N5 y); [apply Hin|].
    + destruct (fsub_elem _ _ _ Hs) as [Hdr Hin]. rewrite (fputd_none d g k0) by (intros Hdk; by apply (N5 d)). split; [rewrite Hfr; [done|set_solver|done|]; intros Hxk; by apply N2, Hin|].
      split; [|apply IHr; try done; set_solver]. eapply rep_frame; [|exact H2]. intros y Hy. apply Hfr; [set_solver|intros ->; by apply (N5 d)|]. intros Hyk. apply (N5 y Hy). by apply Hin.
Qed.

(** ** Entries of paths *)

Lemma fchild_nodup nm f d nd k : NoDup (ids f) -> fchild nm f = Some (d, nd, k) -> NoDup (ids k) /\ d ∉ ids k.
Proof. intros Hnd Hc. by eapply fsub_nodup, fchild_sub. Qed.

Lemma fchild_apart c1 c2 f d1 n1 k1 d2 n2 k2 :
  NoDup (ids f) -> c1 <> c2 -> fchild c1 f = Some (d1, n1, k1) -> fchild c2 f = Some (d2, n2, k2) -> forall x, x = d1 \/ x ∈ ids k1 -> ~ (x = d2 \/ x ∈ ids k2).
Proof.
  intros Hnd Hne. induction f as [|x nm nd k _ r IH]; cbn [fchild]; [done|]. apply nodup_node in Hnd as (N1 & N2 & N3 & N4 & N5). repeat case_decide; subst; try done.
  - intros [= -> -> ->] (H1 & _ & H2)%fchild_elem y. set_solver.
  - intros (H1 & _ & H2)%fchild_elem [= -> -> ->] y. set_solver.
  - auto.
Qed.

Lemma fget_elem q f d nd : fget q f = Some (d, nd) -> d ∈ ids f.
Proof.
  revert f. induction q as [|c cs IH]; intros f; [by rewrite fget_nil|]. rewrite fget_child. destruct (fchild c f) as [[[x nx] kx]|] eqn:E; [|done].
  destruct (fchild_elem _ _ _ _ _ E) as (H1 & _ & H2). destruct cs; [intros [= -> ->]; done|]. intros Hg. by apply H2, IH.
Qed.

Lemma fget_inj q1 q2 f d n1 n2 : NoDup (ids f) -> fget q1 f = Some (d, n1) -> fget q2 f = Some (d, n2) -> q1 = q2.
Proof.
  revert q2 f. induction q1 as [|c1 cs1 IH]; intros [|c2 cs2] f Hnd; rewrite ?fget_nil; try done. rewrite !fget_child.
  destruct (fchild c1 f) as [[[x1 m1] k1]|] eqn:E1; [|done]. destruct (fchild c2 f) as [[[x2 m2] k2]|] eqn:E2; [|done]. intros H1 H2.
  assert (d = x1 \/ d ∈ ids k1) as Hd1 by (destruct cs1; [injection H1 as -> ->; by left|right; by eapply fget_elem]).
  assert (d = x2 \/ d ∈ ids k2) as Hd2 by (destruct cs2; [injection H2 as -> ->; by left|right; by eapply fget_elem]).
  destruct (decide (c1 = c2)) as [<-|Hne]; [|by destruct (fchild_apart _ _ _ _ _ _ _ _ _ Hnd Hne E1 E2 d Hd1)].
  rewrite E1 in E2. injection E2 as <- <- <-. destruct (fchild_nodup _ _ _ _ _ Hnd E1) as [Nk Nx]. f_equal.
  destruct cs1 as [|a1 cs1], cs2 as [|a2 cs2]; [done|injection H1 as -> ->; by apply fget_elem in H2|injection H2 as -> ->; by apply fget_elem in H1|by eapply IH].
Qed.

(** Every entry has a path. *)
Lemma fget_path d f : uniq f -> d ∈ ids f -> exists q nd, fget q f = Some (d, nd).
Proof.
  induction f as [|x nm nd k IHk r IHr]; cbn [ids uniq]; [set_solver|]. intros (_ & Hn & Uk & Ur) [->|[Hk|Hr]%elem_of_app]%elem_of_cons.
  - exists [nm], nd. cbn. by rewrite decide_True.
  - destruct (IHk Uk Hk) as (q & n & Hq). destruct q as [|c cs]; [by rewrite fget_nil in Hq|]. exists (nm :: c :: cs), n. cbn [fget]. by rewrite decide_True.
  - destruct (IHr Ur Hr) as (q & n & Hq). destruct q as [|c cs]; [by rewrite fget_nil in Hq|]. exists (c :: cs), n. cbn [fget]. rewrite decide_False; [done|].
    intros ->. rewrite fget_child in Hq. destruct (fchild nm r) as [[[y ny] ky]|] eqn:E; [|done]. by apply fchild_elem in E as (_ & ? & _).
Qed.

(** Below an entry. *)
Lemma fget_below q d nd f g q' : NoDup (ids f) -> fget q f = Some (d, nd) -> fsub d f = Some g -> q' <> [] -> fget (q ++ q') f = fget q' g.
Proof.
  revert f. induction q as [|c cs IH]; intros f Hnd; rewrite ?fget_nil; [done|]. cbn [app]. rewrite !fget_child. destruct (fchild c f) as [[[x nx] kx]|] eqn:E; [|done].
  pose proof (fchild_sub _ _ _ _ _ Hnd E) as Hx. destruct (fchild_nodup _ _ _ _ _ Hnd E) as [Nk _]. destruct cs as [|a cs].
  - intros [= -> ->] Hs Hq. rewrite Hx in Hs. injection Hs as ->. by destruct q'.
  - intros Hg Hs Hq. cbn [app]. destruct (fsub_some d kx) as [g' Hg']; [by eapply fget_elem|]. assert (g' = g) as -> by (pose proof (fsub_trans _ _ _ _ _ Hnd Hx Hg'); congruence). by apply (IH kx).
Qed.

Lemma fchild_putd c d g f : NoDup (ids f) -> fchild c (fputd d g f) = match fchild c f with Some (x, nx, k) => Some (x, nx, if decide (x = d) then g else fputd d g k) | None => None end.
Proof.
  intros Hnd. induction f as [|x nm nd k _ r IH]; cbn [fputd fchild]; [done|]. apply nodup_node in Hnd as (N1 & N2 & N3 & N4 & N5). case_decide as Hx; cbn [fchild].
  - destruct (decide (c = nm)); [by rewrite decide_True|]. destruct (fchild c r) as [[[y ny] ky]|] eqn:E; [|done]. apply fchild_elem in E as (Hy & _ & Hky). subst x. rewrite decide_False by congruence.
    rewrite fputd_none; [done|]. intros Hd. by apply N2, Hky.
  - destruct (decide (c = nm)); [by rewrite decide_False|auto].
Qed.

Lemma fget_put q d nd f g q' : NoDup (ids f) -> fget q f = Some (d, nd) -> q' <> [] -> fget (q ++ q') (fputd d g f) = fget q' g.
Proof.
  revert f. induction q as [|c cs IH]; intros f Hnd; rewrite ?fget_nil; [done|]. cbn [app]. rewrite !fget_child, fchild_putd by done. destruct (fchild c f) as [[[x nx] kx]|] eqn:E; [|done].
  destruct (fchild_nodup _ _ _ _ _ Hnd E) as [Nk Nx]. destruct cs as [|a cs].
  - intros [= -> ->] Hq. rewrite decide_True by done. by destruct q'.
  - intros Hg Hq. cbn [app]. rewrite decide_False by (intros ->; by apply fget_elem in Hg). by apply (IH kx).
Qed.

Lemma fget_put_other q d f g : NoDup (ids f) -> (forall q1 q2 n, q = q1 ++ q2 -> q2 <> [] -> fget q1 f <> Some (d, n)) -> fget q (fputd d g f) = fget q f.
Proof.
  revert f. induction q as [|c cs IH]; intros f Hnd Hq; [by rewrite !fget_nil|]. rewrite !fget_child, fchild_putd by done. destruct (fchild c f) as [[[x nx] kx]|] eqn:E; [|done].
  destruct cs as [|a cs]; [done|]. destruct (fchild_nodup _ _ _ _ _ Hnd E) as [Nk Nx]. case_decide as Hx.
  - subst x. exfalso. apply (Hq [c] (a :: cs) nx); [done|done|]. rewrite fget_child. by rewrite E.
  - apply IH; [done|]. intros q1 q2 n Heq Hne Hg. apply (Hq (c :: q1) q2 n); [by rewrite Heq|done|]. rewrite fget_child, E. destruct q1; [by rewrite fget_nil in Hg|done].
Qed.

(** ** Changes among siblings *)

Fixpoint tdel (d : Z) (g : forest) : forest :=
  match g with Nil => Nil | Node x nm nd k r => if decide (x = d) then r else Node x nm nd k (tdel d r) end.
Fixpoint tset (d n : Z) (g : forest) : forest :=
  match g with Nil => Nil | Node x nm nd k r => if decide (x = d) then Node x nm n k r else Node x nm nd k (tset d n r) end.

Lemma tdel_names d g nm : nm ∈ names (tdel d g) -> nm ∈ names g.
Proof. induction g as [|x nm' nd k _ r IH]; cbn [tdel names]; [done|]. case_decide; cbn [names]; set_solver. Qed.

Lemma tset_names d n g : names (tset d n g) = names g.
Proof. induction g as [|x nm' nd k _ r IH]; cbn [tset names]; [done|]. case_decide; cbn [names]; congruence. Qed.

Lemma tset_ids d n g : ids (tset d n g) = ids g.
Proof. induction g as [|x nm' nd k _ r IH]; cbn [tset ids]; [done|]. case_decide; cbn [ids]; congruence. Qed.

Lemma tdel_uniq d g : uniq g -> uniq (tdel d g).
Proof.
  induction g as [|x nm' nd k _ r IH]; cbn [tdel uniq]; [done|]. intros (H1 & H2 & H3 & H4). case_decide; [done|]. cbn [uniq]. split_and!; auto. intros Hin%tdel_names. done.
Qed.

Lemma tset_uniq d n g : uniq g -> uniq (tset d n g).
Proof.
  induction g as [|x nm' nd k _ r IH]; cbn [tset uniq]; [done|]. intros (H1 & H2 & H3 & H4). case_decide; [done|]. cbn [uniq]. rewrite tset_names. auto.
Qed.

Section sibling.
Context (nm : list Z) (g : forest) (d nd : Z) (k : forest).
Hypothesis (Hnd : NoDup (ids g)) (Hu : uniq g) (Hc : fchild nm g = Some (d, nd, k)).

Lemma tdel_ids : ids g ≡ₚ ids (tdel d g) ++ d :: ids k.
Proof using Hnd Hc.
  clear Hu. induction g as [|x nm' nd' k' _ r IH]; cbn [fchild tdel] in *; [done|]. apply nodup_node in Hnd as (N1 & N2 & N3 & N4 & N5). case_decide.
  - injection Hc as -> -> ->. rewrite decide_True by done. cbn [ids]. rewrite (comm app (ids k)), Permutation_middle. done.
  - pose proof (fchild_elem _ _ _ _ _ Hc) as (Hd & _ & _). rewrite decide_False by congruence. cbn [ids]. rewrite (IH N4 Hc) at 1. rewrite !(assoc app). done.
Qed.

Lemma tdel_child c : fchild c (tdel d g) = if decide (c = nm) then None else fchild c g.
Proof.
  induction g as [|x nm' nd' k' _ r IH]; cbn [fchild tdel uniq] in *; [done|]. apply nodup_node in Hnd as (N1 & N2 & N3 & N4 & N5). destruct Hu as (_ & U1 & _ & U2). destruct (decide (nm = nm')) as [<-|Hne].
  - injection Hc as -> -> ->. rewrite decide_True by done. case_decide; [|done]. subst c. destruct (fchild nm r) as [[[? ?] ?]|] eqn:E; [|done]. by apply fchild_elem in E as (_ & ? & _).
  - pose proof (fchild_elem _ _ _ _ _ Hc) as (Hd & _ & _). rewrite decide_False by congruence. cbn [fchild]. rewrite (IH N4 U2 Hc). repeat case_decide; congruence.
Qed.

Lemma tset_child n c : fchild c (tset d n g) = if decide (c = nm) then Some (d, n, k) else fchild c g.
Proof using Hnd Hc.
  clear Hu. induction g as [|x nm' nd' k' _ r IH]; cbn [fchild tset] in *; [done|]. apply nodup_node in Hnd as (N1 & N2 & N3 & N4 & N5). destruct (decide (nm = nm')) as [<-|Hne].
  - injection Hc as -> -> ->. rewrite decide_True by done. cbn [fchild]. by case_decide.
  - pose proof (fchild_elem _ _ _ _ _ Hc) as (Hd & _ & _). rewrite decide_False by congruence. cbn [fchild]. rewrite (IH N4 Hc). repeat case_decide; congruence.
Qed.

(** The entries of paths below the siblings. *)
Lemma tdel_get q : fget q (tdel d g) = if decide ([nm] `prefix_of` q) then None else fget q g.
Proof.
  destruct q as [|c cs]; [rewrite !fget_nil; by case_decide|]. rewrite !fget_child, tdel_child. destruct (decide (c = nm)) as [->|Hne].
  - rewrite decide_True; [done|]. by exists cs.
  - rewrite decide_False; [done|]. by intros [? [= ? _]].
Qed.

Lemma tset_get n q : fget q (tset d n g) = if decide (q = [nm]) then Some (d, n) else fget q g.
Proof using Hnd Hc.
  clear Hu. destruct q as [|c cs]; [by rewrite !fget_nil|]. rewrite !fget_child, tset_child. destruct (decide (c = nm)) as [->|Hne].
  - rewrite Hc. destruct cs; [by rewrite decide_True|by rewrite decide_False].
  - rewrite decide_False by congruence. done.
Qed.
End sibling.

Lemma tadd_get nm g d n q : nm ∉ names g -> fget q (Node d nm n Nil g) = if decide (q = [nm]) then Some (d, n) else fget q g.
Proof.
  intros Hn. destruct q as [|c cs]; [by rewrite !fget_nil|]. rewrite !fget_child. cbn [fchild]. destruct (decide (c = nm)) as [->|Hne]; [|by rewrite decide_False by congruence].
  destruct (fchild nm g) as [[[? ?] ?]|] eqn:E; [by apply fchild_elem in E as (_ & ? & _)|]. destruct cs; [by rewrite decide_True|]. by rewrite decide_False.
Qed.

(** The path of a parent, and paths through it. *)
Definition path_to (p : option Z) (pp : list (list Z)) (f : forest) : Prop := match p with None => pp = [] | Some d => exists nd, fget pp f = Some (d, nd) end.

Section parent.
Context (f g g' : forest) (p : option Z) (pp : list (list Z)).
Hypothesis (Hnd : NoDup (ids f)) (Hp : path_to p pp f) (Hk : fkids p f = Some g).

Lemma kids_get q : q <> [] -> fget (pp ++ q) f = fget q g.
Proof. intros Hq. destruct p as [d|]; cbn in *; [destruct Hp as [nd Hd]; by eapply fget_below|]. subst pp. by injection Hk as ->. Qed.

Lemma put_get q : q <> [] -> fget (pp ++ q) (fput p g' f) = fget q g'.
Proof using Hnd Hp. clear Hk. intros Hq. destruct p as [d|]; cbn in *; [destruct Hp as [nd Hd]; by eapply fget_put|]. by subst pp. Qed.

Lemma put_get_other q : (forall q', q' <> [] -> q <> pp ++ q') -> fget q (fput p g' f) = fget q f.
Proof using Hnd Hp.
  clear Hk. intros Hq. destruct p as [d|]; cbn in *.
  - destruct Hp as [nd Hd]. apply fget_put_other; [done|]. intros q1 q2 n -> Hne Hg. rewrite (fget_inj _ _ _ _ _ _ Hnd Hg Hd) in Hq. by apply (Hq q2).
  - subst pp. destruct q as [|c cs]; [by rewrite !fget_nil|]. exfalso. by apply (Hq (c :: cs)).
Qed.

Lemma through_dec q : (exists q', q' <> [] /\ q = pp ++ q') \/ (forall q', q' <> [] -> q <> pp ++ q').
Proof.
  destruct (decide (pp `prefix_of` q)) as [[q' ->]|Hn]; [destruct (decide (q' = [])) as [->|]; [right|left; eauto]|right].
  - intros q' Hne Heq. rewrite app_nil_r in Heq. apply (f_equal length) in Heq. rewrite length_app in Heq. destruct q'; [done|cbn in Heq; lia].
  - intros q' _ ->. apply Hn. by exists q'.
Qed.
End parent.

Lemma view_del f p pp g nm d nd k q :
  NoDup (ids f) -> uniq g -> NoDup (ids g) -> path_to p pp f -> fkids p f = Some g -> fchild nm g = Some (d, nd, k) ->
  fget q (fput p (tdel d g) f) = if decide (pp ++ [nm] `prefix_of` q) then None else fget q f.
Proof.
  intros Hnd Hu Hng Hp Hk Hc. destruct (through_dec pp q) as [(q' & Hne & ->)|Ho].
  - rewrite (put_get f _ p pp Hnd Hp q' Hne), (kids_get f g p pp Hnd Hp Hk q' Hne), (tdel_get nm g d nd k Hng Hu Hc).
    destruct (decide ([nm] `prefix_of` q')) as [H|H]; [rewrite decide_True by (by apply prefix_app); done|rewrite decide_False; [done|]]. intros H1. by apply H, (prefix_app_inv pp).
  - rewrite (put_get_other f _ p pp Hnd Hp q Ho). rewrite decide_False; [done|]. intros [q' ->]. apply (Ho ([nm] ++ q')); [done|]. by rewrite (assoc app).
Qed.

Lemma view_put f p pp g g' nm d n q :
  NoDup (ids f) -> path_to p pp f -> fkids p f = Some g -> (forall q, fget q g' = if decide (q = [nm]) then Some (d, n) else fget q g) ->
  fget q (fput p g' f) = if decide (q = pp ++ [nm]) then Some (d, n) else fget q f.
Proof.
  intros Hnd Hp Hk Hg. destruct (through_dec pp q) as [(q' & Hne & ->)|Ho].
  - rewrite (put_get f _ p pp Hnd Hp q' Hne), (kids_get f g p pp Hnd Hp Hk q' Hne), Hg. destruct (decide (q' = [nm])) as [->|H]; [by rewrite decide_True|]. rewrite decide_False; [done|]. intros Heq. by apply (inj (app pp)) in Heq.
  - rewrite (put_get_other f _ p pp Hnd Hp q Ho), decide_False; [done|]. intros ->. by apply (Ho [nm]).
Qed.
