(* ===== verification/DentryOps.v ===== *)
(** * The dentry cache: its invariant and its operations

    The invariant ties the three structures together: every slot is either in use,
    and then in the tree and in the order of use, or free. *)

From Stdlib Require Import ZArith Lia.
From stdpp Require Import base tactics gmap numbers list sorting.
From S2P Require Import Prelude.
From S2P Require Import Memory.
From S2P Require Import Dentry.
From S2P Require Import DentryFacts.
From S2P Require Import DentryTree.

Record dc_ok (N : Z) (c : dcache) (f : forest) (l fl : list Z) : Prop := {
  ok_tree : rep (slab_ c) None (root_children c) f;
  ok_uniq : uniq f;
  ok_lru : lru_list c l;
  ok_free : free_slots c fl;
  ok_ids : l ≡ₚ ids f;
  ok_all : l ++ fl ≡ₚ seqZ 0 N;
  ok_count : entry_count_ c = zlen l;
  ok_idle : idle (slab_ c) fl
}.

Section facts.
Context (N : Z) (c : dcache) (f : forest) (l fl : list Z).
Hypothesis (Hok : dc_ok N c f l fl).

Lemma ok_nodup : NoDup (l ++ fl).
Proof. rewrite (ok_all _ _ _ _ _ Hok). apply NoDup_seqZ. Qed.

Lemma ok_nodup_lru : NoDup l.
Proof. pose proof ok_nodup as H. by apply NoDup_app in H as (? & _ & _). Qed.

Lemma ok_nodup_ids : NoDup (ids f).
Proof. rewrite <- (ok_ids _ _ _ _ _ Hok). apply ok_nodup_lru. Qed.

Lemma ok_length : (length (ids f) <= Z.to_nat N)%nat.
Proof.
  rewrite <- (Permutation_length (ok_ids _ _ _ _ _ Hok)). pose proof (Permutation_length (ok_all _ _ _ _ _ Hok)) as H. rewrite length_app, length_seqZ in H. lia.
Qed.

Lemma ok_free_apart x : x ∈ ids f -> x ∉ fl.
Proof. rewrite <- (ok_ids _ _ _ _ _ Hok). pose proof ok_nodup as H. apply NoDup_app in H as (_ & H & _). auto. Qed.

Lemma kids_facts p g : fkids p f = Some g -> uniq g /\ NoDup (ids g) /\ (length (ids g) <= Z.to_nat N)%nat /\ (forall x, x ∈ ids g -> x ∈ ids f).
Proof.
  destruct p as [d|]; cbn.
  - intros Hs. split; [eapply fsub_uniq; [apply Hok|done]|]. split; [by eapply fsub_nodup; [apply ok_nodup_ids|]|]. split; [pose proof (fsub_length _ _ _ Hs); pose proof ok_length; lia|]. by eapply fsub_elem.
  - intros [= <-]. split_and!; [apply Hok|apply ok_nodup_ids|apply ok_length|done].
Qed.
End facts.

(** Promotion changes the order of use only. *)
Lemma promote_keeps N c f l1 d l2 fl : dc_ok N c f (l1 ++ d :: l2) fl -> exists c', promote d c = Done tt c' /\ dc_ok N c' f (l1 ++ l2 ++ [d]) fl /\ only_lru c c'.
Proof.
  intros Hok. destruct (promote_ok c l1 d l2 (ok_lru _ _ _ _ _ Hok) (ok_nodup_lru _ _ _ _ _ Hok)) as (c' & E & Hl & Ho). exists c'. split; [done|]. split; [|done]. destruct Ho as (Ht & Hf & Hn & Hc & _).
  assert (l1 ++ d :: l2 ≡ₚ l1 ++ l2 ++ [d]) as HP by (apply Permutation_app_head, Permutation_cons_append). destruct Hok as [H1 H2 H3 H4 H5 H6 H7 H8]. split.
  - by eapply rep_same.
  - done.
  - done.
  - by eapply free_slots_same.
  - by rewrite <- HP.
  - by rewrite <- HP.
  - rewrite Hc, H7. by rewrite HP.
  - eapply idle_frame; [|done]. intros x _. apply Ht.
Qed.

(** ** The children of a parent *)

Lemma chain_entry m p h g nm d nd k : rep m p h g -> fchild nm g = Some (d, nd, k) -> exists hk hr, tree_of m d = Some (nm, Some nd, hash_name nm, p, hk, hr) /\ rep m (Some d) hk k.
Proof.
  revert h. induction g as [|x nm' nd' k' _ r IH]; intros h; cbn [rep fchild]; [done|]. intros (-> & hk & hr & H1 & H2 & H3). case_decide; [intros [= -> -> ->]; subst; eauto|by eapply IH].
Qed.

Definition with_kids (h : option Z) (t : list Z * option Z * Z * option Z * option Z * option Z) := let '(a, b, s, q, _, r) := t in (a, b, s, q, h, r).
Definition with_sib (h : option Z) (t : list Z * option Z * Z * option Z * option Z * option Z) := let '(a, b, s, q, k, _) := t in (a, b, s, q, k, h).

(** The head of the children of [p], in a cache in which only the children of [p] differ. *)
Definition kids_are (p : option Z) (h : option Z) (c c' : dcache) : Prop :=
  match p with None => root_children c' = h | Some d => root_children c' = root_children c /\ tree_of (slab_ c') d = with_kids h <$> tree_of (slab_ c) d end.

Lemma put_rep c c' f p g g' h :
  rep (slab_ c) None (root_children c) f -> NoDup (ids f) -> fkids p f = Some g ->
  (forall x, x ∈ ids f -> x ∉ ids g -> p <> Some x -> tree_of (slab_ c') x = tree_of (slab_ c) x) -> kids_are p h c c' -> rep (slab_ c') p h g' ->
  rep (slab_ c') None (root_children c') (fput p g' f).
Proof.
  intros Hr Hnd Hk Hf Hh Hg. destruct p as [d|]; cbn in *; [|by rewrite Hh]. destruct Hh as [-> Hd]. eapply (rep_putd (slab_ c)); try done.
  - intros x Hx Hne Hxk. apply Hf; [done|done|congruence].
  - intros nm nd hs q hk hr Ht. by rewrite Hd, Ht.
Qed.

Lemma set_kids_ok c f p g h :
  rep (slab_ c) None (root_children c) f -> fkids p f = Some g ->
  exists c', set_kids p h c = Done tt c' /\ kids_are p h c c' /\ (forall x, p <> Some x -> tree_of (slab_ c') x = tree_of (slab_ c) x) /\ same_lru c c' /\ same_free c c' /\ same_rest c c'.
Proof.
  intros Hr Hk. destruct p as [d|]; cbn in *; [|eexists; split; [done|]; by split_and!]. destruct (rep_sub _ _ _ _ _ _ Hr Hk) as (nm & nd & q & hk & hr & Ht & _).
  pose proof Ht as Ht0. apply tree_entry in Ht as (e & He & Heq). eexists. split; [by apply upd_d_run|]. split_and!; try done.
  - cbn. rewrite tree_insert, decide_True by done. rewrite Ht0. cbn. by injection Heq as -> -> -> -> -> ->.
  - intros x Hx. cbn. by rewrite tree_insert, decide_False by congruence.
  - by apply (upd_same_lru c d e (with_children h)).
  - by apply (upd_same_free c d e (with_children h)).
Qed.

(** ** Unlinking *)

(** The loop stops at the link to [d]: the one it started from, or the one of the
    sibling in front of [d], whose change takes [d] out. *)
Lemma unlink_loop c p g nm d nd k : forall h pp0 n,
  rep (slab_ c) p h g -> load pp0 c = Done h c -> fchild nm g = Some (d, nd, k) -> NoDup (ids g) -> (length (ids g) < n)%nat ->
  exists pp, while n (fun pp => v ← load pp; match v with Some x => if x =? d then mret (inr pp) else mret (inl (Sibling x)) | None => mret (inr pp) end) pp0 c = Done pp c /\
    load pp c = Done (Some d) c /\
    (pp = pp0 /\ h = Some d /\ (forall hk hr, tree_of (slab_ c) d = Some (nm, Some nd, hash_name nm, p, hk, hr) -> rep (slab_ c) p hr (tdel d g)) \/
     exists x, pp = Sibling x /\ x ∈ ids g /\ x <> d /\ x ∉ ids k /\ forall m' hk hr, tree_of (slab_ c) d = Some (nm, Some nd, hash_name nm, p, hk, hr) ->
       tree_of m' x = with_sib hr <$> tree_of (slab_ c) x -> (forall y, y <> x -> tree_of m' y = tree_of (slab_ c) y) -> rep m' p h (tdel d g)).
Proof.
  induction g as [|x nmx ndx kx _ r IH]; intros h pp0 n; cbn [rep fchild tdel]; [done|]. intros (-> & hkx & hrx & Hx & Hkx & Hr) Hl Hc Hnd Hn. cbn [ids length] in Hn. rewrite length_app in Hn.
  apply nodup_node in Hnd as (N1 & N2 & N3 & N4 & N5). destruct n as [|n]; [lia|]. rewrite while_S, bind_run, Hl. destruct (decide (nm = nmx)) as [->|Hne].
  - injection Hc as -> -> ->. rewrite Z.eqb_refl. exists pp0. split; [done|]. split; [done|]. left. rewrite decide_True by done. split_and!; try done. intros hk hr Hd. rewrite Hx in Hd. by injection Hd as _ <-.
  - destruct (fchild_elem _ _ _ _ _ Hc) as (Hdr & _ & Hkr). rewrite (proj2 (Z.eqb_neq _ _)) by congruence. rewrite ret_run. rewrite decide_False by congruence. pose proof Hx as Hx0.
    apply tree_entry in Hx as (e & He & Heq). assert (load (Sibling x) c = Done hrx c) as Hl2 by (cbn; rewrite bind_run, (get_d_run _ _ _ He); by injection Heq as _ _ _ _ _ ->).
    destruct (IH hrx (Sibling x) n Hr Hl2 Hc N4) as (pp & E & Hpp & Hcase); [lia|]. exists pp. split; [done|]. split; [done|]. right. destruct Hcase as [(-> & -> & Hdel)|(y & -> & Hy & Hyd & Hyk & Hdel)].
    + exists x. split_and!; [done|cbn [ids]; set_solver|congruence|auto|]. intros m' hk hr Hd Hm Ho. cbn [rep]. split; [done|]. exists hkx, hr. rewrite Hm, Hx0. split; [done|].
      split; [eapply rep_frame; [|exact Hkx]; intros z Hz; apply Ho; congruence|]. eapply rep_frame; [|by eapply Hdel]. intros z Hz. apply Ho. intros ->. apply N2.
      pose proof (tdel_ids nm r d nd k N4 Hc) as HP. rewrite HP. set_solver.
    + exists y. split_and!; [done|cbn [ids]; set_solver|done|done|]. intros m' hk hr Hd Hm Ho. cbn [rep]. split; [done|]. exists hkx, hrx. rewrite Ho by congruence. split; [done|].
      split; [eapply rep_frame; [|exact Hkx]; intros z Hz; apply Ho; intros ->; by apply (N5 y)|by eapply Hdel].
Qed.

(** The entries without one of them and its subtree. *)
Lemma ids_del f p g nm d nd k :
  NoDup (ids f) -> fkids p f = Some g -> NoDup (ids g) -> fchild nm g = Some (d, nd, k) -> ids f ≡ₚ ids (fput p (tdel d g) f) ++ d :: ids k.
Proof.
  intros Hnd Hk Hng Hc. pose proof (tdel_ids nm g d nd k Hng Hc) as HP. destruct p as [pd|]; cbn in *; [|by injection Hk as <-].
  destruct (ids_putd pd (tdel d g) f g Hnd Hk) as (xs & P1 & P2). rewrite P1, P2, HP. by rewrite (assoc app).
Qed.

Lemma uniq_put p g f : uniq f -> uniq g -> uniq (fput p g f).
Proof. destruct p; [apply uniq_putd|done]. Qed.

Lemma unlink_ok N c f l fl p g nm d nd k :
  dc_ok N c f l fl -> fkids p f = Some g -> fchild nm g = Some (d, nd, k) ->
  exists c' hk, unlink_from_parent N d c = Done tt c' /\ rep (slab_ c') None (root_children c') (fput p (tdel d g) f) /\
    tree_of (slab_ c') d = Some (nm, Some nd, hash_name nm, p, hk, None) /\ rep (slab_ c') (Some d) hk k /\ same_lru c c' /\ same_free c c' /\ same_rest c c' /\ (forall x, x ∉ ids f -> tree_of (slab_ c') x = tree_of (slab_ c) x).
Proof.
  intros Hok Hk Hc. pose proof (ok_tree _ _ _ _ _ Hok) as Hr. pose proof (ok_nodup_ids _ _ _ _ _ Hok) as Hnd. destruct (kids_facts _ _ _ _ _ Hok p g Hk) as (Hu & Hng & Hlen & Hin).
  destruct (kids_of_ok c f p g Hr Hk) as (h & Eh & Hg). destruct (chain_entry _ _ _ _ _ _ _ _ Hg Hc) as (hk & hr & Hd & Hkk). pose proof (fchild_nodup _ _ _ _ _ Hng Hc) as [Nk Ndk].
  destruct (fchild_elem _ _ _ _ _ Hc) as (Hdg & _ & Hkg). pose proof Hd as Hd0. apply tree_entry in Hd0 as (e & He & Heq). injection Heq as En Ed Es Ep Ek Er.
  unfold unlink_from_parent. rewrite bind_run, (get_d_run _ _ _ He), <- Ep, bind_run. destruct (unlink_loop c p g nm d nd k h (Kids p) (fuel N) Hg Eh Hc Hng) as (pp & -> & El & Hcase); [unfold fuel; lia|].
  rewrite bind_run, El, bind_run, bind_run, (get_d_run _ _ _ He), <- Er.
  assert (exists c1 h1, store pp hr c = Done tt c1 /\ rep (slab_ c1) p h1 (tdel d g) /\ kids_are p h1 c c1 /\ (forall x, x ∉ ids g -> p <> Some x -> tree_of (slab_ c1) x = tree_of (slab_ c) x) /\
    tree_of (slab_ c1) d = tree_of (slab_ c) d /\ (forall x, x ∈ ids k -> tree_of (slab_ c1) x = tree_of (slab_ c) x) /\ same_lru c c1 /\ same_free c c1 /\ same_rest c c1) as
    (c1 & h1 & E1 & Hdel & Hh1 & Ho & Hd1 & Hk1 & L1 & F1 & R1).
  { assert (forall x, p = Some x -> x ∉ ids g) as Hpg by (intros x Hpx; rewrite Hpx in Hk; exact (proj2 (fsub_nodup _ _ _ Hnd Hk))).
    destruct Hcase as [(-> & -> & Hdel)|(x & -> & Hx & Hxd & Hxk & Hdel)].
    - destruct (set_kids_ok c f p g hr Hr Hk) as (c1 & E1 & Hh1 & Ho & L1 & F1 & R1). exists c1, hr. split; [done|].
      assert (forall x, x ∈ ids g -> tree_of (slab_ c1) x = tree_of (slab_ c) x) as Hog by (intros x Hx; apply Ho; intros ->; by apply (Hpg x)). split_and!; try done; eauto.
      eapply rep_frame; [|by eapply Hdel]. intros x Hx. apply Hog. rewrite (tdel_ids nm g d nd k Hng Hc). set_solver.
    - destruct (rep_sub _ _ _ _ x (default Nil (fsub x f)) Hr) as (nmx & ndx & q & hkx & hrx & Hx1 & _). { destruct (fsub_some x f) as [gx ->]; [by apply Hin|done]. }
      apply tree_entry in Hx1 as (ex & Hex & _). eexists _, h. split; [by apply upd_d_run|].
      assert (forall y, y <> x -> tree_of (<[x := with_sibling hr ex]> (slab_ c)) y = tree_of (slab_ c) y) as Ho by (intros y Hy; by rewrite tree_insert, decide_False).
      split_and!; cbn [slab_ set_slab].
      + eapply (Hdel _ hk hr Hd); [|done]. rewrite tree_insert, decide_True by done. unfold tree_of. by rewrite Hex.
      + destruct p as [pd|]; cbn in *; [|by injection Eh]. split; [done|]. rewrite Ho by (intros ->; by apply (Hpg x)). rewrite bind_run in Eh. unfold get_d in Eh.
        unfold tree_of. destruct (slab_ c !! pd); [|done]. by injection Eh as <-.
      + intros y Hy _. apply Ho. congruence.
      + by apply Ho.
      + intros y Hy. apply Ho. congruence.
      + by apply (upd_same_lru c x ex (with_sibling hr)).
      + by apply (upd_same_free c x ex (with_sibling hr)).
      + done. }
  rewrite E1. assert (rep (slab_ c1) None (root_children c1) (fput p (tdel d g) f)) as Hr1 by (eapply (put_rep c); try done; eauto).
  rewrite Hd in Hd1. pose proof Hd1 as Hd2. apply tree_entry in Hd2 as (e1 & He1 & Heq1). eexists _, hk. split; [by apply upd_d_run|]. cbn [slab_ set_slab root_children].
  assert (forall x, x <> d -> tree_of (<[d := with_sibling None e1]> (slab_ c1)) x = tree_of (slab_ c1) x) as Ho2 by (intros x Hx; by rewrite tree_insert, decide_False).
  split_and!.
  - eapply rep_frame; [|exact Hr1]. intros x Hx. apply Ho2. intros ->. pose proof (ids_del f p g nm d nd k Hnd Hk Hng Hc) as HP. rewrite HP in Hnd. apply NoDup_app in Hnd as (_ & Hnd & _). apply (Hnd d Hx). set_solver.
  - rewrite tree_insert, decide_True by done. cbn. by injection Heq1 as <- <- <- <- <- _.
  - eapply rep_frame; [|exact Hkk]. intros x Hx. rewrite Ho2 by congruence. auto.
  - eapply same_lru_trans; [exact L1|]. by apply (upd_same_lru c1 d e1 (with_sibling None)).
  - eapply same_free_trans; [exact F1|]. by apply (upd_same_free c1 d e1 (with_sibling None)).
  - done.
  - intros x Hx. rewrite Ho2 by (intros ->; auto). apply Ho; [auto|]. intros ->. cbn in Hk. destruct (fsub_elem _ _ _ Hk). done.
Qed.

(** ** Freeing a subtree *)

(** The order in which the entries are freed, and their nodes. *)
Fixpoint porder (f : forest) : list Z := match f with Nil => [] | Node d _ _ k r => porder k ++ d :: porder r end.
Fixpoint pnodes (f : forest) : list (option Z) := match f with Nil => [] | Node _ _ nd k r => pnodes k ++ Some nd :: pnodes r end.

Lemma porder_ids f : porder f ≡ₚ ids f.
Proof. induction f as [|x nm nd k IHk r IHr]; cbn; [done|]. by rewrite IHk, IHr, Permutation_middle. Qed.

Lemma pnodes_length f : length (pnodes f) = length (ids f).
Proof. induction f as [|x nm nd k IHk r IHr]; cbn; [done|]. rewrite !length_app. cbn. lia. Qed.

Definition minus (xs l : list Z) : list Z := filter (fun x => x ∉ xs) l.

Lemma minus_none xs l : (forall x, x ∈ l -> x ∉ xs) -> minus xs l = l.
Proof. induction l as [|x l IH]; intros H; [done|]. unfold minus in *. rewrite filter_cons_True by set_solver. by rewrite IH by set_solver. Qed.

Lemma filter_same (P Q : Z -> Prop) `{!forall x, Decision (P x), !forall x, Decision (Q x)} (l : list Z) : (forall x, x ∈ l -> P x <-> Q x) -> filter P l = filter Q l.
Proof.
  induction l as [|x l IH]; intros HPQ; [done|]. rewrite !filter_cons. assert (filter P l = filter Q l) as -> by (apply IH; intros y Hy; apply HPQ; set_solver). specialize (HPQ x ltac:(set_solver)). repeat case_decide; tauto.
Qed.

Lemma minus_split l1 d l2 : NoDup (l1 ++ d :: l2) -> minus [d] (l1 ++ d :: l2) = l1 ++ l2.
Proof.
  intros (N1 & N12 & [Nd N2]%NoDup_cons)%NoDup_app. unfold minus. rewrite filter_app, filter_cons_False by set_solver. f_equal; apply minus_none; set_solver.
Qed.

Lemma minus_app xs ys l : minus ys (minus xs l) = minus (xs ++ ys) l.
Proof. unfold minus. rewrite list_filter_filter. apply list_filter_iff. intros x. set_solver. Qed.

Lemma elem_minus x xs l : x ∈ minus xs l <-> x ∈ l /\ x ∉ xs.
Proof. unfold minus. rewrite list_elem_of_filter. tauto. Qed.

Lemma minus_nodup xs l : NoDup l -> NoDup (minus xs l).
Proof. apply NoDup_filter. Qed.

Lemma minus_perm xs l : NoDup l -> NoDup xs -> (forall x, x ∈ xs -> x ∈ l) -> l ≡ₚ minus xs l ++ xs.
Proof. intros Hl Hx Hin. apply NoDup_Permutation; [done| |]. { apply NoDup_app. split_and!; [by apply minus_nodup| |done]. intros y Hy. by apply elem_minus in Hy as [_ ?]. }
  intros y. rewrite elem_of_app, elem_minus. destruct (decide (y ∈ xs)); naive_solver.
Qed.

Lemma minus_length xs l : NoDup l -> NoDup xs -> (forall x, x ∈ xs -> x ∈ l) -> zlen (minus xs l) = zlen l - zlen xs.
Proof. intros Hl Hx Hin. rewrite (minus_perm xs l Hl Hx Hin) at 2. rewrite length_app. lia. Qed.

(** What freeing entries of [xs] does, with the nodes left to the caller. *)
Record freed (xs : list Z) (c c' : dcache) (l fl fl' : list Z) : Prop := {
  fr_lru : lru_list c' (minus xs l);
  fr_free : free_slots c' (fl' ++ fl);
  fr_count : entry_count_ c' = zlen (minus xs l);
  fr_tree x : x ∉ xs -> tree_of (slab_ c') x = tree_of (slab_ c) x;
  fr_root : root_children c' = root_children c;
  fr_nodes : nodes c' = nodes c;
  fr_idle x : x ∈ xs -> node_of (slab_ c') x = None
}.

Lemma free_one {A} (F : option Z -> A) c l fl d t :
  lru_list c l -> NoDup l -> d ∈ l -> free_slots c fl -> d ∉ fl -> entry_count_ c = zlen l -> zlen l <= UINT64_MAX -> tree_of (slab_ c) d = Some t ->
  exists c', (_ ← upd_d d (with_children None); _ ← lru_remove d; e ← get_d d;
              _ ← upd_d d (with_node None); _ ← modify (fun c => set_counts (u64 (entry_count_ c - 1)) (hit_count_ c) (miss_count_ c) c); _ ← free_slot d; mret (F (d_node e))) c =
    Done (let '(_, nd, _, _, _, _) := t in F nd) c' /\ freed [d] c c' l fl [d].
Proof.
  intros Hl Hnd Hd Hf Hdf Hc Hmax Ht. pose proof Ht as Ht0. apply tree_entry in Ht as (e & He & ->). rewrite bind_run, (upd_d_run _ _ _ _ He). set (c1 := set_slab _ c).
  apply list_elem_of_split in Hd as (l1 & l2 & ->). assert (lru_list c1 (l1 ++ d :: l2)) as Hl1 by (eapply lru_list_same; [by apply (upd_same_lru c d e (with_children None))|done]).
  destruct (lru_remove_ok c1 l1 d l2 Hl1 Hnd) as (c2 & E2 & Hl2 & ((T2 & T2r) & F2 & R2)). rewrite bind_run, E2.
  assert (tree_of (slab_ c2) d = Some (d_name e, d_node e, d_hash e, d_parent e, None, sibling_next e)) as Hd2 by (rewrite T2; cbn; by rewrite tree_insert, decide_True).
  apply tree_entry in Hd2 as (e2 & He2 & Heq2). injection Heq2 as _ En2 _ _ _ _. rewrite bind_run, (get_d_run _ _ _ He2), bind_run, (upd_d_run _ _ _ _ He2), bind_run. cbn [modify]. set (c3 := set_counts _ _ _ _).
  assert (free_slots c3 fl) as Hf3. { eapply free_slots_same; [|eapply free_slots_same; [exact F2|eapply free_slots_same; [by apply (upd_same_free c d e (with_children None))|exact Hf]]]. by apply (upd_same_free c2 d e2 (with_node None)). }
  destruct (free_slot_ok c3 fl d (with_node None e2) Hf3 Hdf) as (c4 & E4 & Hf4 & [T4 T4r] & L4 & (R4n & R4c & _)); [apply lookup_insert_eq|]. rewrite bind_run, E4, ret_run.
  exists c4. split; [by rewrite En2|]. destruct R2 as (R2n & R2c & _). split; rewrite ?(minus_split _ _ _ Hnd).
  - eapply lru_list_same; [exact L4|]. eapply lru_list_same; [|exact Hl2]. by apply (upd_same_lru c2 d e2 (with_node None)).
  - done.
  - rewrite R4c. cbn. rewrite R2c. cbn. rewrite Hc. rewrite !length_app in *. cbn [length] in *. rewrite u64_id by lia. lia.
  - intros x Hx. rewrite T4. cbn. rewrite tree_insert, decide_False, T2 by set_solver. cbn. by rewrite tree_insert, decide_False by set_solver.
  - rewrite T4r. cbn. by rewrite T2r.
  - rewrite R4n. cbn. by rewrite R2n.
  - intros x ->%list_elem_of_singleton. rewrite (tree_node (slab_ c3)) by apply T4. unfold node_of. cbn. by rewrite lookup_insert_eq.
Qed.

Lemma freed_perm xs ys c c' l fl fl' : xs ≡ₚ ys -> freed xs c c' l fl fl' -> freed ys c c' l fl fl'.
Proof.
  intros HP [H1 H2 H3 H4 H5 H6 H7]. assert (minus xs l = minus ys l) as Hm by (unfold minus; apply list_filter_iff; intros x; by rewrite HP). split; rewrite <- ?Hm; try done; intros x; rewrite <- HP; auto.
Qed.

Lemma freed_trans xs ys c c1 c2 l fl fl1 fl2 :
  freed xs c c1 l fl fl1 -> freed ys c1 c2 (minus xs l) (fl1 ++ fl) fl2 -> freed (xs ++ ys) c c2 l fl (fl2 ++ fl1).
Proof.
  intros [H1 H2 H3 H4 H5 H6 H7] [I1 I2 I3 I4 I5 I6 I7]. rewrite minus_app in *. split; try done; try congruence; [by rewrite <- (assoc app)| |]; intros x Hx; [rewrite I4, H4 by set_solver; done|].
  destruct (decide (x ∈ ys)); [auto|]. rewrite (tree_node (slab_ c1)) by auto. apply H7. set_solver.
Qed.

(** The freed slots move from the entries in use to the free ones. *)
Lemma minus_move xs fl' l fl : NoDup l -> NoDup xs -> (forall x, x ∈ xs -> x ∈ l) -> fl' ≡ₚ xs -> minus xs l ++ fl' ++ fl ≡ₚ l ++ fl.
Proof. intros Hl Hx Hin ->. rewrite (minus_perm xs l Hl Hx Hin) at 2. by rewrite (assoc app). Qed.

(** Entries in use, free ones, and room in the counter. *)
Definition in_order (c : dcache) (l fl : list Z) : Prop :=
  NoDup (l ++ fl) /\ lru_list c l /\ free_slots c fl /\ entry_count_ c = zlen l /\ zlen l <= UINT64_MAX.

Lemma freed_order xs c c' l fl fl' :
  in_order c l fl -> NoDup xs -> (forall x, x ∈ xs -> x ∈ l) -> fl' ≡ₚ xs -> freed xs c c' l fl fl' -> in_order c' (minus xs l) (fl' ++ fl).
Proof.
  intros (Hnl & Hl & Hf & Hc & Hmax) Hx Hin HP [H1 H2 H3 _ _ _ _]. pose proof Hnl as (Nl & _ & _)%NoDup_app. split_and!; try done.
  - by rewrite (minus_move xs fl' l fl).
  - rewrite minus_length by done. lia.
Qed.

Definition collects (f : forest) : Prop := forall p h k1 k2 cap acc c l fl,
  rep (slab_ c) p h f -> NoDup (ids f) -> (forall x, x ∈ ids f -> x ∈ l) -> in_order c l fl ->
  (length (ids f) <= k1)%nat -> (length (ids f) <= k2)%nat -> zlen acc + zlen (ids f) <= cap ->
  exists c', each_child (collect_and_free_subtree k1) k2 h cap acc c = Done (acc ++ pnodes f) c' /\ freed (ids f) c c' l fl (reverse (porder f)).

(** One entry with its children. *)
Lemma collect_one k : collects k -> forall d t hk k1 cap c l fl,
  tree_of (slab_ c) d = Some t -> (let '(_, _, _, _, h, _) := t in h) = hk -> rep (slab_ c) (Some d) hk k -> NoDup (d :: ids k) -> (forall x, x ∈ d :: ids k -> x ∈ l) -> in_order c l fl ->
  (length (ids k) < k1)%nat -> 1 + zlen (ids k) <= cap ->
  exists c', collect_and_free_subtree k1 d cap c = Done (pnodes k ++ [let '(_, nd, _, _, _, _) := t in nd]) c' /\ freed (ids k ++ [d]) c c' l fl (d :: reverse (porder k)).
Proof.
  intros IHk d t hk k1 cap c l fl Ht Hhk Hk Hnd Hin Hio H1 Hcap. apply NoDup_cons in Hnd as [N1 N3]. pose proof Hio as (Hnl & Hl & Hf & Hc & Hmax). pose proof Hnl as (Nl & Nlf & Nf)%NoDup_app.
  destruct k1 as [|k1]; [lia|]. pose proof Ht as Ht0. apply tree_entry in Ht as (e & He & ->). subst hk. cbn [collect_and_free_subtree]. rewrite bind_run, (get_d_run _ _ _ He), bind_run.
  destruct (IHk (Some d) (children e) k1 k1 cap [] c l fl) as (c1 & E1 & F1); try done; try lia; [set_solver|cbn; lia|]. rewrite E1. cbn [app]. pose proof F1 as [L1 S1 C1 T1 R1 M1 I1].
  destruct (free_one (fun x => if zlen (pnodes k) <? cap then pnodes k ++ [x] else pnodes k) c1 (minus (ids k) l) (reverse (porder k) ++ fl) d
    (d_name e, d_node e, d_hash e, d_parent e, children e, sibling_next e)) as (c2 & E2 & F2); try done.
  { by apply minus_nodup. }
  { apply elem_minus. set_solver. }
  { rewrite elem_of_app, elem_of_reverse, porder_ids. intros [?|?]; [done|]. apply (Nlf d); set_solver. }
  { rewrite minus_length by set_solver. lia. }
  { by rewrite T1. }
  exists c2. split; [|exact (freed_trans _ _ _ _ _ _ _ _ _ F1 F2)]. cbn zeta in *. etrans; [exact E2|]. by rewrite pnodes_length, (proj2 (Z.ltb_lt _ _)) by lia.
Qed.

Lemma collect_ok f : collects f.
Proof.
  induction f as [|d nm nd k IHk r IHr]; intros p h k1 k2 cap acc c l fl Hrep Hnd Hin Hio H1 H2 Hcap.
  { cbn in Hrep. subst h. exists c. split; [destruct k2; cbn; by rewrite app_nil_r|]. cbn. assert (minus [] l = l) as Hm by (apply minus_none; set_solver). destruct Hio as (? & ? & ? & ? & ?). split; rewrite ?Hm; try done. set_solver. }
  pose proof (nodup_node _ _ _ _ _ Hnd) as (N1 & N2 & N3 & N4 & N5). cbn [rep ids length] in *. rewrite length_app in *. destruct Hrep as (-> & hk & hr & Ht & Hk & Hr).
  destruct k2 as [|k2]; [lia|]. pose proof Ht as Ht0. apply tree_entry in Ht as (e & He & Heq). injection Heq as _ _ _ _ _ Er. assert (NoDup (ids k ++ [d])) as Nx by (rewrite (comm app); by constructor).
  cbn [each_child]. rewrite bind_run, (get_d_run _ _ _ He), bind_run, (proj2 (Z.ltb_lt _ _)) by lia.
  destruct (collect_one k IHk d _ hk k1 (cap - zlen acc) c l fl Ht0 eq_refl Hk) as (c2 & E2 & F2); try done; try lia; [by constructor|set_solver|]. rewrite E2. pose proof F2 as [L2 S2 C2 T2 R2 M2 I2].
  destruct (IHr p hr k1 k2 cap (acc ++ pnodes k ++ [Some nd]) c2 (minus (ids k ++ [d]) l) ((d :: reverse (porder k)) ++ fl)) as (c3 & E3 & F3); try done; try lia.
  { eapply rep_frame; [|exact Hr]. intros x Hx. apply T2. set_solver. }
  { intros x Hx. apply elem_minus. set_solver. }
  { eapply freed_order; try done; [set_solver|]. rewrite reverse_Permutation, porder_ids. by rewrite (comm app). }
  { rewrite !length_app, pnodes_length. cbn. lia. }
  exists c3. split; [rewrite <- Er; etrans; [exact E3|]; f_equal; cbn; by rewrite <- !(assoc app)|]. pose proof (freed_trans _ _ _ _ _ _ _ _ _ F2 F3) as F. cbn [porder]. rewrite reverse_app, reverse_cons, <- (assoc app).
  eapply freed_perm; [|exact F]. rewrite (comm app (ids k)). cbn. done.
Qed.

(** ** The dentry cache: references to nodes, and dropping entries

    Every entry holds one reference to its node. [held w] says that each node with
    references exists and counts them: those of the entries and those of others. *)

(** How often a node occurs. *)
Fixpoint occ (n : Z) (l : list (option Z)) : Z :=
  match l with [] => 0 | x :: l' => (if bool_decide (x = Some n) then 1 else 0) + occ n l' end.

Lemma occ_nonneg n l : 0 <= occ n l <= zlen l.
Proof. induction l as [|x l IH]; cbn [occ length]; [lia|]. case_bool_decide; lia. Qed.

Lemma occ_app n l1 l2 : occ n (l1 ++ l2) = occ n l1 + occ n l2.
Proof. induction l1 as [|x l IH]; cbn [occ app]; [lia|]. lia. Qed.

#[global] Instance occ_perm n : Proper ((≡ₚ) ==> eq) (occ n).
Proof. induction 1; cbn [occ]; lia. Qed.

Section refs.
Context (kept : Z -> bool).

Definition held (w : Z -> Z) (m : gmap Z Z) : Prop :=
  forall n, 0 <= w n <= UINT64_MAX /\ (0 < w n -> exists r, m !! n = Some r /\ (kept n = false -> r = w n)).

Definition more (k n : Z) (w : Z -> Z) : Z -> Z := fun x => if decide (x = n) then w x + k else w x.

Lemma held_ext w w' m : (forall n, w n = w' n) -> held w m -> held w' m.
Proof. intros He H n. rewrite <- He. apply H. Qed.

(** Only the counts of nodes change. *)
Definition only_nodes (c c' : dcache) : Prop := exists m, c' = set_nodes m c.

Lemma only_nodes_trans c1 c2 c3 : only_nodes c1 c2 -> only_nodes c2 c3 -> only_nodes c1 c3.
Proof. intros [m1 ->] [m2 ->]. by exists m2. Qed.

Lemma only_nodes_ok N c c' f l fl : only_nodes c c' -> dc_ok N c f l fl -> dc_ok N c' f l fl.
Proof. intros [m ->] [H1 H2 H3 H4 H5 H6 H7 H8]. by split. Qed.

Lemma add_ref_ok k n w c :
  held w (nodes c) -> 0 < w n -> 0 <= w n + k <= UINT64_MAX -> exists c', add_ref k n c = Done tt c' /\ held (more k n w) (nodes c') /\ only_nodes c c'.
Proof.
  intros Hh Hw Hr. destruct (Hh n) as (_ & (r & Er & Hrw)); [done|]. unfold add_ref. rewrite Er. eexists. split; [done|]. split; [|by eexists]. cbn. intros x. unfold more. case_decide as Hx.
  - subst x. split; [done|]. intros _. rewrite lookup_insert_eq. eexists. split; [done|]. intros Hkn. rewrite (Hrw Hkn). apply u64_id. done.
  - rewrite lookup_insert_ne by done. apply Hh.
Qed.

Lemma close_ok n w c : held w (nodes c) -> 0 < w n -> exists c', vfs_close kept n c = Done tt c' /\ held (more (-1) n w) (nodes c') /\ only_nodes c c'.
Proof.
  intros Hh Hw. destruct (Hh n) as (Hb & (r & Er & Hrw)); [done|]. unfold vfs_close. rewrite Er. destruct (kept n) eqn:Ek.
  - exists c. split; [done|]. split; [|exists (nodes c); by destruct c]. intros x. unfold more. case_decide as Hx; [|apply Hh]. subst x. split; [lia|]. intros _. exists r. split; [done|congruence].
  - rewrite (Hrw eq_refl), u64_id by lia. destruct (Z.eqb_spec (w n - 1) 0); (eexists; split; [done|]; split; [|by eexists]); cbn; intros x; unfold more; case_decide as Hx; subst.
    + split; lia.
    + rewrite lookup_delete_ne by done. apply Hh.
    + split; [lia|]. intros _. rewrite lookup_insert_eq. eexists. split; [done|]. lia.
    + rewrite lookup_insert_ne by done. apply Hh.
Qed.

(** Closing a list of nodes. *)
Lemma close_all ns w c :
  held (fun n => w n + occ n ns) (nodes c) -> (forall n, 0 <= w n) -> exists c', for_each ns (cache_unref kept) c = Done tt c' /\ held w (nodes c') /\ only_nodes c c'.
Proof.
  revert c. induction ns as [|[n|] ns IH]; intros c Hh Hw; cbn [for_each occ] in *.
  - exists c. split; [done|]. split; [eapply held_ext; [|exact Hh]; intros n; cbn; lia|]. exists (nodes c). by destruct c.
  - destruct (close_ok n _ c Hh) as (c1 & E1 & Hh1 & O1). { rewrite bool_decide_true by done. pose proof (occ_nonneg n ns). specialize (Hw n). lia. }
    destruct (IH c1) as (c2 & E2 & Hh2 & O2); [|done|exists c2; split; [rewrite bind_run; cbn [cache_unref]; by rewrite E1|]; split; [done|by eapply only_nodes_trans]].
    eapply held_ext; [|exact Hh1]. intros x. unfold more. cbn. case_decide; [subst; rewrite bool_decide_true by done; lia|]. rewrite bool_decide_false by congruence. lia.
  - destruct (IH c) as (c2 & E2 & Hh2 & O2); [|done|by exists c2; rewrite bind_run]. eapply held_ext; [|exact Hh]. intros n. cbn. rewrite bool_decide_false by done. lia.
Qed.
End refs.

(** ** The nodes of the forest *)

Lemma nodes_putd d g f k : NoDup (ids f) -> fsub d f = Some k -> exists xs, pnodes f ≡ₚ xs ++ pnodes k /\ pnodes (fputd d g f) ≡ₚ xs ++ pnodes g.
Proof.
  induction f as [|x nm nd k0 IHk r IHr]; cbn [fsub fputd]; [done|]. intros (H1 & H2 & H3 & H4 & H5)%nodup_node. case_decide.
  - intros [= <-]. exists (Some nd :: pnodes r). cbn [pnodes]. split; by rewrite (comm app (pnodes _)).
  - destruct (fsub d k0) as [k'|] eqn:E.
    + intros [= <-]. destruct (IHk H3 eq_refl) as (xs & P1 & P2). destruct (fsub_elem _ _ _ E) as [Hd _]. rewrite (fputd_none d g r) by (by apply H5).
      exists (Some nd :: pnodes r ++ xs). cbn [pnodes]. rewrite P1, P2. split; rewrite (comm app (_ ++ _)); cbn; by rewrite (assoc app).
    + intros Hs. destruct (IHr H4 Hs) as (xs & P1 & P2). destruct (fsub_elem _ _ _ Hs) as [Hd _]. rewrite (fputd_none d g k0) by (intros Hdk; by apply (H5 d)).
      exists (pnodes k0 ++ Some nd :: xs). cbn [pnodes]. rewrite P1, P2. split; by rewrite <- (assoc app).
Qed.

Lemma nodes_put p g f k : NoDup (ids f) -> fkids p f = Some k -> exists xs, pnodes f ≡ₚ xs ++ pnodes k /\ pnodes (fput p g f) ≡ₚ xs ++ pnodes g.
Proof. intros Hnd Hk. destruct p as [d|]; cbn in *; [by apply nodes_putd|]. injection Hk as ->. by exists []. Qed.

Lemma nodes_tdel nm g d nd k : NoDup (ids g) -> fchild nm g = Some (d, nd, k) -> pnodes g ≡ₚ pnodes (tdel d g) ++ pnodes k ++ [Some nd].
Proof.
  induction g as [|x nm' nd' k' _ r IH]; cbn [fchild tdel]; [done|]. intros (N1 & N2 & N3 & N4 & N5)%nodup_node. case_decide.
  - intros [= -> -> ->]. rewrite decide_True by done. cbn [pnodes]. rewrite (comm app (pnodes r)), <- (assoc app). done.
  - intros Hc. pose proof (fchild_elem _ _ _ _ _ Hc) as (Hd & _ & _). rewrite decide_False by congruence. cbn [pnodes]. rewrite (IH N4 Hc) at 1. by rewrite <- (assoc app).
Qed.

Lemma nodes_tset nm g d nd k n : NoDup (ids g) -> fchild nm g = Some (d, nd, k) -> exists xs, pnodes g ≡ₚ Some nd :: xs /\ pnodes (tset d n g) ≡ₚ Some n :: xs.
Proof.
  induction g as [|x nm' nd' k' _ r IH]; cbn [fchild tset]; [done|]. intros (N1 & N2 & N3 & N4 & N5)%nodup_node. case_decide.
  - intros [= -> -> ->]. rewrite decide_True by done. cbn [pnodes]. exists (pnodes k ++ pnodes r). by rewrite !Permutation_middle.
  - intros Hc. pose proof (fchild_elem _ _ _ _ _ Hc) as (Hd & _ & _). rewrite decide_False by congruence. cbn [pnodes]. destruct (IH N4 Hc) as (xs & P1 & P2).
    exists (pnodes k' ++ Some nd' :: xs). rewrite P1, P2. split; rewrite perm_swap; symmetry; apply Permutation_middle.
Qed.

(** The references of the forest and of others. *)
Definition refs (f : forest) (ext : Z -> Z) (n : Z) : Z := occ n (pnodes f) + ext n.

(** ** Dropping an entry with its subtree *)

Section drop.
Context (N : Z) (kept : Z -> bool).
Hypothesis (HN : 0 <= N <= UINT64_MAX).

Lemma ok_in_order c f l fl : dc_ok N c f l fl -> in_order c l fl.
Proof.
  intros Hok. pose proof (ok_nodup _ _ _ _ _ Hok). destruct Hok as [_ _ H3 H4 _ H6 H7 _]. split_and!; try done. apply Permutation_length in H6. rewrite length_app, length_seqZ in H6. lia.
Qed.

Lemma drop_ok c f l fl p g nm d nd k :
  dc_ok N c f l fl -> fkids p f = Some g -> fchild nm g = Some (d, nd, k) ->
  exists c', (_ ← unlink_from_parent N d; collect_and_free_subtree (fuel N) d N) c = Done (pnodes k ++ [Some nd]) c' /\
    dc_ok N c' (fput p (tdel d g) f) (minus (ids k ++ [d]) l) ((d :: reverse (porder k)) ++ fl) /\ nodes c' = nodes c.
Proof.
  intros Hok Hk Hc. destruct (unlink_ok N c f l fl p g nm d nd k Hok Hk Hc) as (c1 & hk & E1 & Hr1 & Ht1 & Hk1 & L1 & F1 & (R1n & R1c & _) & U1). rewrite bind_run, E1.
  pose proof (ok_nodup_ids _ _ _ _ _ Hok) as Hnd. destruct (kids_facts _ _ _ _ _ Hok p g Hk) as (Hu & Hng & Hlen & Hin). pose proof (ids_del f p g nm d nd k Hnd Hk Hng Hc) as HP.
  destruct (fchild_nodup _ _ _ _ _ Hng Hc) as [Nk Ndk]. destruct (fchild_elem _ _ _ _ _ Hc) as (Hdg & _ & Hkg).
  assert (in_order c1 l fl) as Hio. { destruct (ok_in_order c f l fl Hok) as (A1 & A2 & A3 & A4 & A5). split_and!; try done; [by eapply lru_list_same|by eapply free_slots_same|congruence]. }
  assert (forall x, x ∈ d :: ids k -> x ∈ l) as Hsub. { intros x Hx. rewrite (ok_ids _ _ _ _ _ Hok). apply Hin. set_solver. }
  pose proof (ok_length _ _ _ _ _ Hok) as Hl. assert (length (d :: ids k) <= Z.to_nat N)%nat as Hl2 by (rewrite HP, length_app in Hl; lia). cbn [length] in Hl2.
  destruct (collect_one k (collect_ok k) d _ hk (fuel N) N c1 l fl Ht1 eq_refl Hk1) as (c2 & E2 & F2); [by constructor|done|done|unfold fuel; lia|lia|].
  exists c2. split; [done|]. assert (NoDup (ids k ++ [d])) as Nx by (rewrite (comm app); by constructor). assert (forall x, x ∈ ids k ++ [d] -> x ∈ l) as Hsub2 by set_solver.
  pose proof (ok_nodup_lru _ _ _ _ _ Hok) as Nl. pose proof F2 as [G1 G2 G3 G4 G5 G6 G7]. split; [|congruence]. split; try done.
  - rewrite G5. eapply rep_frame; [|exact Hr1]. intros x Hx. apply G4. intros Hxk. rewrite HP in Hnd. apply NoDup_app in Hnd as (_ & Hnd & _). apply (Hnd x Hx). set_solver.
  - apply uniq_put; [apply Hok|by apply tdel_uniq].
  - apply (Permutation_app_inv_r (ids k ++ [d])). rewrite <- minus_perm by done. rewrite (ok_ids _ _ _ _ _ Hok), HP. by rewrite (comm app (ids k)).
  - rewrite minus_move; [apply Hok|done|done|done|]. rewrite reverse_Permutation, porder_ids. by rewrite (comm app).
  - intros x Hx. destruct (decide (x ∈ ids k ++ [d])) as [Hxk|Hxk]; [by apply G7|]. assert (x ∈ fl) as Hfl. { apply elem_of_app in Hx as [Hx|]; [|done]. destruct Hxk. rewrite elem_of_cons, elem_of_reverse, porder_ids in Hx. set_solver. }
    rewrite (tree_node (slab_ c1)) by (by apply G4). rewrite (tree_node (slab_ c)); [by apply Hok|]. apply U1. intros Hxf. by apply (ok_free_apart _ _ _ _ _ Hok x).
Qed.

(** The nodes are closed afterwards. *)
Lemma drop_refs c f l fl p g nm d nd k ext :
  dc_ok N c f l fl -> fkids p f = Some g -> fchild nm g = Some (d, nd, k) -> held kept (refs f ext) (nodes c) -> (forall n, 0 <= ext n) ->
  exists c', (_ ← unlink_from_parent N d; ns ← collect_and_free_subtree (fuel N) d N; for_each ns (cache_unref kept)) c = Done tt c' /\
    dc_ok N c' (fput p (tdel d g) f) (minus (ids k ++ [d]) l) ((d :: reverse (porder k)) ++ fl) /\ held kept (refs (fput p (tdel d g) f) ext) (nodes c').
Proof.
  intros Hok Hk Hc Hh He. destruct (drop_ok c f l fl p g nm d nd k Hok Hk Hc) as (c1 & E1 & Hok1 & Hn1). destruct (kids_facts _ _ _ _ _ Hok p g Hk) as (_ & Hng & _ & _).
  destruct (nodes_put p (tdel d g) f g (ok_nodup_ids _ _ _ _ _ Hok) Hk) as (xs & P1 & P2). destruct (close_all kept (pnodes k ++ [Some nd]) (refs (fput p (tdel d g) f) ext) c1) as (c2 & E2 & Hh2 & O2).
  - rewrite Hn1. eapply held_ext; [|exact Hh]. intros n. unfold refs. rewrite P1, P2, (nodes_tdel nm g d nd k Hng Hc), !occ_app. lia.
  - intros n. unfold refs. pose proof (occ_nonneg n (pnodes (fput p (tdel d g) f))). specialize (He n). lia.
  - exists c2. split; [|split; [by eapply only_nodes_ok|done]]. rewrite bind_run in E1. rewrite bind_run. destruct (unlink_from_parent N d c) as [[] c0| |]; try done. by rewrite bind_run, E1.
Qed.
End drop.
