(* ===== verification/DentryPaths.v ===== *)
(** * The dentry cache: paths

    What [lookup], [insert], [invalidate] and [flush] do to the entries of paths,
    to the order of use and to the references. *)

From Stdlib Require Import ZArith Lia.
From stdpp Require Import base tactics gmap numbers list sorting.
From S2P Require Import Prelude.
From S2P Require Import Memory.
From S2P Require Import Dentry.
From S2P Require Import DentryFacts.
From S2P Require Import DentryTree.
From S2P Require Import DentryOps.

(** ** The dentry cache: one component

    Looking up, inserting and evicting a single component below a parent. *)

(** ** Where an entry is *)

Lemma fget_parent pp nm f d nd : fget (pp ++ [nm]) f = Some (d, nd) -> exists p, path_to p pp f.
Proof.
  destruct pp as [|c0 cs0] eqn:Ep; [by exists None|]. rewrite <- Ep. assert (pp <> []) as Hne by (by rewrite Ep). clear c0 cs0 Ep. intros H.
  enough (exists dp np, fget pp f = Some (dp, np)) as (dp & np & Hp) by (exists (Some dp); by exists np). revert f Hne H.
  induction pp as [|c cs IH]; intros f Hne; [done|]. cbn [app]. rewrite !fget_child. destruct (fchild c f) as [[[x nx] kx]|]; [|done]. destruct cs as [|a cs]; [eauto|]. cbn [app]. by apply IH.
Qed.

Lemma path_kids p pp f : path_to p pp f -> exists g, fkids p f = Some g.
Proof. destruct p as [d|]; cbn; [|eauto]. intros [nd Hd]. by apply fsub_some, (fget_elem pp _ _ nd). Qed.

Lemma locate f d : uniq f -> NoDup (ids f) -> d ∈ ids f -> exists pp p g nm nd k, path_to p pp f /\ fkids p f = Some g /\ fchild nm g = Some (d, nd, k) /\ fget (pp ++ [nm]) f = Some (d, nd).
Proof.
  intros Hu Hnd Hd. destruct (fget_path d f Hu Hd) as (q & nd & Hq). destruct q as [|nm pp _] using rev_ind; [by rewrite fget_nil in Hq|].
  destruct (fget_parent _ _ _ _ _ Hq) as [p Hp]. destruct (path_kids _ _ _ Hp) as [g Hg]. rewrite (kids_get f g p pp Hnd Hp Hg), fget_child in Hq by done.
  destruct (fchild nm g) as [[[x nx] k]|] eqn:Ec; [|done]. injection Hq as -> ->. exists pp, p, g, nm, nd, k. split_and!; try done. rewrite (kids_get f g p pp Hnd Hp Hg), fget_child by done. by rewrite Ec.
Qed.

Section component.
Context (N : Z) (kept : Z -> bool).
Hypothesis (HN : 0 <= N <= UINT64_MAX).

(** ** A slot between the free list and the tree *)

Record dc_spare (c : dcache) (f : forest) (l fl : list Z) (s : Z) : Prop := {
  sp_tree : rep (slab_ c) None (root_children c) f;
  sp_uniq : uniq f;
  sp_lru : lru_list c l;
  sp_free : free_slots c fl;
  sp_ids : l ≡ₚ ids f;
  sp_all : l ++ s :: fl ≡ₚ seqZ 0 N;
  sp_count : entry_count_ c = zlen l;
  sp_entry : is_Some (slab_ c !! s);
  sp_idle : idle (slab_ c) fl
}.

Lemma take_spare c f l s fl : dc_ok N c f l (s :: fl) -> exists c', take_slot c = Done (Some s) c' /\ dc_spare c' f l fl s /\ nodes c' = nodes c.
Proof.
  intros Hok. pose proof (ok_nodup _ _ _ _ _ Hok) as (_ & _ & [Hs _]%NoDup_cons)%NoDup_app. destruct Hok as [H1 H2 H3 H4 H5 H6 H7 H8].
  destruct (take_slot_ok c s fl H4 Hs) as (c' & e & He & E & Hf & He' & T & L & (Rn & Rc & _)). exists c'. split; [done|]. split; [|done].
  split; try done; [by eapply rep_same|by eapply lru_list_same|congruence|]. eapply idle_frame; [intros x _; apply T|]. intros x Hx. apply H8. set_solver.
Qed.

(** The least recently used entry makes room, with everything below it. *)
Lemma evict_ok c f v l fl ext :
  dc_ok N c f (v :: l) fl -> held kept (refs f ext) (nodes c) -> (forall n, 0 <= ext n) ->
  exists c' f' l' fl' vp, evict_lru N kept c = Done (Some v) c' /\ dc_spare c' f' l' fl' v /\ held kept (refs f' ext) (nodes c') /\
    (exists nd, fget vp f = Some (v, nd)) /\ (forall q, fget q f' = if decide (vp `prefix_of` q) then None else fget q f) /\ (exists xs, l' = minus xs l).
Proof.
  intros Hok Hh He. pose proof (ok_nodup_ids _ _ _ _ _ Hok) as Hnd. assert (v ∈ ids f) as Hv by (rewrite <- (ok_ids _ _ _ _ _ Hok); set_solver).
  destruct (locate f v (ok_uniq _ _ _ _ _ Hok) Hnd Hv) as (pp & p & g & nm & nd & k & Hp & Hg & Hc & Hq). destruct (drop_refs N kept HN c f (v :: l) fl p g nm v nd k ext Hok Hg Hc Hh He) as (c1 & E1 & Hok1 & Hh1).
  destruct (take_spare c1 _ _ v (reverse (porder k) ++ fl) Hok1) as (c2 & E2 & Hsp & Hn2). unfold evict_lru. rewrite bind_run. unfold gets. destruct (ok_lru _ _ _ _ _ Hok) as (_ & -> & _). cbn [first].
  exists c2. eexists _, _, _, (pp ++ [nm]). split.
  { rewrite bind_run in E1. rewrite bind_run. destruct (unlink_from_parent N v c) as [[] c0| |]; try done. rewrite bind_run in E1. rewrite bind_run. destruct (collect_and_free_subtree (fuel N) v N c0) as [ns c3| |]; try done.
    rewrite bind_run, E1, bind_run, E2. done. }
  split; [exact Hsp|]. split; [by rewrite Hn2|]. split; [eauto|]. destruct (kids_facts _ _ _ _ _ Hok p g Hg) as (Hu & Hng & _ & _). split; [intros q; by eapply view_del|].
  exists (ids k ++ [v]). unfold minus. rewrite filter_cons_False by set_solver. done.
Qed.

(** The slot becomes a child. *)
Lemma attach_ok c f l fl s p g nm n ext :
  dc_spare c f l fl s -> fkids p f = Some g -> nm ∉ names g -> bad_length nm = false -> held kept (refs f ext) (nodes c) -> 0 < refs f ext n < UINT64_MAX ->
  exists c', (_ ← upd_d s (fun e => {| d_name := nm; d_node := Some n; d_hash := hash_name nm; lru_prev := lru_prev e; lru_next := lru_next e;
                                      d_parent := p; children := None; sibling_next := sibling_next e; slab_next := slab_next e |});
              _ ← add_ref 1 n; h ← kids_of p; _ ← upd_d s (with_sibling h); _ ← set_kids p (Some s); _ ← lru_append s;
              _ ← modify (fun c => set_counts (u64 (entry_count_ c + 1)) (hit_count_ c) (miss_count_ c) c); mret (Some s)) c = Done (Some s) c' /\
    dc_ok N c' (fput p (Node s nm n Nil g) f) (l ++ [s]) fl /\ held kept (refs (fput p (Node s nm n Nil g) f) ext) (nodes c').
Proof.
  intros [S1 S2 S3 S4 S5 S6 S7 [e He] S8] Hk Hnm Hbad Hh Hw. assert (NoDup (l ++ s :: fl)) as Hnd by (rewrite S6; apply NoDup_seqZ). pose proof Hnd as (Nl & Nlf & [Nsf Nf]%NoDup_cons)%NoDup_app.
  assert (s ∉ l) as Hsl by (intros H; apply (Nlf s H); set_solver). assert (s ∉ ids f) as Hsf by (by rewrite <- S5). assert (NoDup (ids f)) as Nids by (by rewrite <- S5).
  assert (forall x, p = Some x -> x ∈ ids f /\ x ∉ ids g) as Hpf. { intros x Hpx. rewrite Hpx in Hk. cbn in Hk. split; [exact (proj1 (fsub_elem _ _ _ Hk))|exact (proj2 (fsub_nodup _ _ _ Nids Hk))]. }
  assert (forall x, x ∈ ids g -> x ∈ ids f) as Hgf by (intros x; destruct p; cbn in Hk; [by apply (fsub_elem _ _ _ Hk)|by injection Hk as ->]).
  rewrite bind_run, (upd_d_run _ _ _ _ He). set (c1 := set_slab _ c). destruct (add_ref_ok kept 1 n (refs f ext) c1) as (c2 & E2 & Hh2 & [m2 ->]); [done|lia|lia|]. rewrite bind_run, E2. set (c2 := set_nodes m2 c1).
  assert (forall x, x <> s -> tree_of (slab_ c2) x = tree_of (slab_ c) x) as T2 by (intros x Hx; cbn; by rewrite tree_insert, decide_False).
  assert (rep (slab_ c2) None (root_children c2) f) as R2 by (eapply rep_frame; [|exact S1]; intros x Hx; apply T2; congruence). destruct (kids_of_ok c2 f p g R2 Hk) as (h & Eh & Hg). rewrite bind_run, Eh.
  rewrite bind_run, (upd_d_run s _ c2 _ (lookup_insert_eq _ _ _)). set (c3 := set_slab _ c2). assert (rep (slab_ c3) None (root_children c3) f) as R3 by (eapply rep_frame; [|exact R2]; intros x Hx; cbn; rewrite tree_insert, decide_False by congruence; done).
  destruct (set_kids_ok c3 f p g (Some s) R3 Hk) as (c4 & E4 & K4 & T4 & L4 & F4 & (R4n & R4c & _)). rewrite bind_run, E4.
  assert (same_lru c c3 /\ same_free c c3) as [L3 F3].
  { split; split_and!; try done; intros x; cbn; [rewrite !lru_insert|rewrite !free_insert]; case_decide; try done; subst; [unfold lru_of|unfold free_of]; by rewrite He. }
  assert (p <> Some s) as Hps by (intros Hp; by apply Hsf, Hpf).
  assert (tree_of (slab_ c4) s = Some (nm, Some n, hash_name nm, p, None, h)) as Ts by (rewrite T4 by done; cbn; by rewrite tree_insert, decide_True). destruct (tree_entry _ _ _ Ts) as (e4 & He4 & _).
  destruct (lru_append_ok c4 l s e4) as (c5 & E5 & L5 & ((T5 & T5r) & F5 & (R5n & R5c & _))); [by eapply lru_list_same; [exact L4|]; eapply lru_list_same|done|done|done|].
  rewrite bind_run, E5, bind_run. cbn [modify]. eexists. split; [done|]. set (c6 := set_counts _ _ _ c5).
  assert (forall x, x <> s -> p <> Some x -> tree_of (slab_ c6) x = tree_of (slab_ c) x) as T6 by (intros x Hx Hxp; cbn; rewrite T5, T4 by done; cbn; rewrite tree_insert, decide_False by done; apply T2; done).
  split; [split|].
  - eapply (put_rep c c6 f p g _ (Some s)); try done; [intros x Hx Hxg Hxp; apply T6; congruence| |].
    + destruct p as [pd|]; cbn in *; [|by rewrite T5r]. destruct K4 as [K4r K4t]. split; [by rewrite T5r, K4r|]. rewrite T5, K4t, tree_insert, decide_False by congruence. by rewrite tree_insert, decide_False by congruence.
    + cbn [rep]. split; [done|]. exists None, h. split; [cbn; by rewrite T5|]. split; [done|]. eapply rep_frame; [|exact Hg]. intros x Hx.
      assert (x <> s) by (intros ->; by apply Hsf, Hgf). assert (p <> Some x) by (intros Hpx; by apply (Hpf x)). by rewrite T6, T2.
  - apply uniq_put; [done|]. cbn. split_and!; try done. destruct p; cbn in Hk; [by eapply fsub_uniq|by injection Hk as <-].
  - done.
  - eapply (free_slots_same c5); [done|]. eapply free_slots_same; [exact F5|]. eapply free_slots_same; [exact F4|]. by eapply free_slots_same.
  - destruct p as [pd|]; cbn in *; [|injection Hk as <-; rewrite <- S5; by rewrite (comm app)]. destruct (ids_putd pd (Node s nm n Nil g) f g Nids Hk) as (xs & P1 & P2). rewrite P2, S5, P1. cbn. rewrite <- (assoc app). f_equiv. by rewrite (comm app).
  - rewrite <- (assoc app). done.
  - cbn. rewrite R5c, R4c. cbn. rewrite S7, length_app. cbn. apply Permutation_length in S6. rewrite length_app, length_seqZ in S6. cbn in S6. rewrite u64_id by lia. lia.
  - eapply idle_frame; [|exact S8]. intros x Hx. apply T6; [intros ->; auto|]. intros Hpx. destruct (Hpf x Hpx) as [Hxf _]. rewrite <- S5 in Hxf. by apply (Nlf x Hxf), elem_of_cons; right.
  - cbn. rewrite R5n, R4n. cbn. eapply held_ext; [|exact Hh2]. intros x. unfold more, refs. destruct (nodes_put p (Node s nm n Nil g) f g Nids Hk) as (xs & P1 & P2). rewrite (occ_perm x _ _ P1), (occ_perm x _ _ P2). cbn [pnodes app]. rewrite !occ_app. cbn [occ].
    case_decide; [subst; rewrite bool_decide_true by done; lia|rewrite bool_decide_false by congruence; lia].
Qed.
(** ** A new node for an entry *)

Lemma rep_tset m m' p h g nm d nd k n hk hr :
  rep m p h g -> NoDup (ids g) -> fchild nm g = Some (d, nd, k) -> tree_of m d = Some (nm, Some nd, hash_name nm, p, hk, hr) ->
  tree_of m' d = Some (nm, Some n, hash_name nm, p, hk, hr) -> (forall x, x <> d -> tree_of m' x = tree_of m x) -> rep m' p h (tset d n g).
Proof.
  intros Hr Hnd Hc Hd Hd' Ho. revert h Hr Hnd Hc. induction g as [|x nm' nd' k' _ r IH]; intros h; cbn [rep fchild tset]; [done|].
  intros (-> & hk' & hr' & H1 & H2 & H3) (N1 & N2 & N3 & N4 & N5)%nodup_node. case_decide as Hn.
  - intros [= -> -> ->]. subst nm'. rewrite decide_True by done. cbn [rep]. rewrite Hd in H1. injection H1 as <- <-. split; [done|]. exists hk, hr. split; [done|].
    split; (eapply rep_frame; [|done]); intros y Hy; apply Ho; congruence.
  - intros Hc. pose proof (fchild_elem _ _ _ _ _ Hc) as (Hdr & _ & _). rewrite decide_False by congruence. cbn [rep]. split; [done|]. exists hk', hr'. rewrite Ho by congruence. split; [done|].
    split; [eapply rep_frame; [|done]; intros y Hy; apply Ho; intros ->; by apply (N5 d)|by apply IH].
Qed.

Lemma renew_ok c f l fl p g nm d nd k n ext :
  dc_ok N c f l fl -> fkids p f = Some g -> fchild nm g = Some (d, nd, k) -> held kept (refs f ext) (nodes c) -> (forall x, 0 <= ext x) -> 0 < refs f ext n < UINT64_MAX ->
  exists c' l', (e ← get_d d; let old_node := d_node e in _ ← upd_d d (with_node (Some n)); _ ← add_ref 1 n; _ ← promote d; _ ← cache_unref kept old_node; mret (Some d)) c = Done (Some d) c' /\
    dc_ok N c' (fput p (tset d n g) f) l' fl /\ held kept (refs (fput p (tset d n g) f) ext) (nodes c').
Proof.
  intros Hok Hk Hc Hh He Hw. destruct (kids_facts _ _ _ _ _ Hok p g Hk) as (Hu & Hng & _ & Hin). pose proof (ok_nodup_ids _ _ _ _ _ Hok) as Nids. destruct (kids_of_ok c f p g (ok_tree _ _ _ _ _ Hok) Hk) as (h & Eh & Hg).
  destruct (chain_entry _ _ _ _ _ _ _ _ Hg Hc) as (hk & hr & Hd & _). pose proof Hd as Hd0. apply tree_entry in Hd0 as (e & Hde & Heq). injection Heq as En Ed Es Ep Ek Er.
  rewrite bind_run, (get_d_run _ _ _ Hde). cbv zeta. rewrite bind_run, (upd_d_run _ _ _ _ Hde). set (c1 := set_slab _ c). set (f' := fput p (tset d n g) f). destruct (fchild_elem _ _ _ _ _ Hc) as (Hdg & _ & _).
  assert (forall x, x <> d -> tree_of (slab_ c1) x = tree_of (slab_ c) x) as T1 by (intros x Hx; cbn; by rewrite tree_insert, decide_False).
  assert (tree_of (slab_ c1) d = Some (nm, Some n, hash_name nm, p, hk, hr)) as Td by (cbn; rewrite tree_insert, decide_True by done; cbn; congruence).
  assert (p <> Some d) as Hpd by (intros Hp; rewrite Hp in Hk; by destruct (fsub_nodup _ _ _ Nids Hk)).
  assert (ids f' ≡ₚ ids f) as HP. { unfold f'. destruct p as [pd|]; cbn in *; [|injection Hk as <-; by rewrite tset_ids]. destruct (ids_putd pd (tset d n g) f g Nids Hk) as (xs & P1 & P2). by rewrite P1, P2, tset_ids. }
  assert (dc_ok N c1 f' l fl) as Hok1.
  { pose proof Hok as [H1 H2 H3 H4 H5 H6 H7 H8]. split; try done.
    - eapply (put_rep c c1 f p g _ h); try done; [intros x Hx Hxg _; apply T1; congruence| |by eapply rep_tset].
      destruct p as [pd|]; cbn in *; [|by injection Eh]. split; [done|]. rewrite T1 by congruence. rewrite bind_run in Eh. unfold get_d in Eh. unfold tree_of. destruct (slab_ c !! pd); [|done]. by injection Eh as <-.
    - apply uniq_put; [done|by apply tset_uniq].
    - eapply lru_list_same; [|done]. by apply (upd_same_lru c d e (with_node (Some n))).
    - eapply free_slots_same; [|done]. by apply (upd_same_free c d e (with_node (Some n))).
    - by rewrite HP.
    - eapply idle_frame; [|exact H8]. intros x Hx. apply T1. intros ->. by apply (ok_free_apart _ _ _ _ _ Hok d (Hin d Hdg)). }
  destruct (add_ref_ok kept 1 n (refs f ext) c1 Hh) as (c2 & E2 & Hh2 & O2); [lia|lia|]. rewrite bind_run, E2. pose proof (only_nodes_ok N c1 c2 f' l fl O2 Hok1) as Hok2.
  assert (d ∈ l) as Hdl by (rewrite (ok_ids _ _ _ _ _ Hok); auto). apply list_elem_of_split in Hdl as (l1 & l2 & ->).
  destruct (promote_keeps N c2 f' l1 d l2 fl Hok2) as (c3 & E3 & Hok3 & (_ & _ & (Rn & _))). rewrite bind_run, E3, <- Ed. cbn [cache_unref].
  destruct (nodes_put p (tset d n g) f g Nids Hk) as (xs & P1 & P2). destruct (nodes_tset nm g d nd k n Hng Hc) as (ys & Q1 & Q2).
  assert (forall x, refs f' ext x = more (-1) nd (more 1 n (refs f ext)) x) as Hrefs.
  { intros x. unfold more, refs, f'. rewrite (occ_perm x _ _ P1), (occ_perm x _ _ P2), !occ_app, (occ_perm x _ _ Q1), (occ_perm x _ _ Q2). cbn [occ]. repeat case_decide; repeat case_bool_decide; simplify_eq; lia. }
  destruct (close_ok kept nd (more 1 n (refs f ext)) c3) as (c4 & E4 & Hh4 & O4).
  { by rewrite Rn. }
  { unfold more, refs. rewrite (occ_perm nd _ _ P1), occ_app, (occ_perm nd _ _ Q1). cbn [occ]. rewrite bool_decide_true by done. pose proof (occ_nonneg nd xs). pose proof (occ_nonneg nd ys). specialize (He nd). case_decide; lia. }
  rewrite bind_run, E4. eexists _, _. split; [done|]. split; [by eapply only_nodes_ok|]. eapply held_ext; [|exact Hh4]. intros x. by rewrite Hrefs.
Qed.
(** ** Looking a component up *)

Lemma dentry_counts_ok c f l fl n hit miss : dc_ok N c f l fl -> n = entry_count_ c -> dc_ok N (set_counts n hit miss c) f l fl.
Proof. intros [H1 H2 H3 H4 H5 H6 H7 H8] ->. by split. Qed.

Lemma lookup_component_ok c f l fl p g nm ext :
  dc_ok N c f l fl -> fkids p f = Some g -> bad_length nm = false -> held kept (refs f ext) (nodes c) -> (forall n, 0 <= ext n <= UINT64_MAX - N - 1) ->
  exists c', match fchild nm g with
    | None => lookup_component N p nm c = Done (None, None) c' /\ dc_ok N c' f l fl /\ held kept (refs f ext) (nodes c')
    | Some (d, nd, k) => lookup_component N p nm c = Done (Some nd, Some d) c' /\ dc_ok N c' f (minus [d] l ++ [d]) fl /\ held kept (refs f (more 1 nd ext)) (nodes c')
    end.
Proof.
  intros Hok Hk Hb Hh He. unfold lookup_component, bad_length in *. apply orb_false_iff in Hb as [-> _]. rewrite bind_run, (find_child_ok N c f p g nm (ok_tree _ _ _ _ _ Hok) Hk (ok_length _ _ _ _ _ Hok)).
  destruct (fchild nm g) as [[[d nd] k]|] eqn:Hc; cbn [fmap option_fmap option_map fst].
  2: { eexists. split; [done|]. split; [by apply dentry_counts_ok|done]. }
  destruct (kids_facts _ _ _ _ _ Hok p g Hk) as (_ & Hng & _ & Hin). destruct (fchild_elem _ _ _ _ _ Hc) as (Hdg & _ & _). assert (d ∈ l) as Hdl by (rewrite (ok_ids _ _ _ _ _ Hok); auto).
  apply list_elem_of_split in Hdl as (l1 & l2 & ->). rewrite bind_run. cbn [modify]. set (c1 := set_counts _ _ _ c). assert (dc_ok N c1 f (l1 ++ d :: l2) fl) as Hok1 by (by apply dentry_counts_ok).
  destruct (promote_keeps N c1 f l1 d l2 fl Hok1) as (c2 & E2 & Hok2 & ((T2 & _) & _ & (Rn & _))). rewrite bind_run, E2.
  destruct (kids_of_ok c f p g (ok_tree _ _ _ _ _ Hok) Hk) as (h & _ & Hg). destruct (chain_entry _ _ _ _ _ _ _ _ Hg Hc) as (hk & hr & Hd & _).
  assert (tree_of (slab_ c2) d = Some (nm, Some nd, hash_name nm, p, hk, hr)) as (e & Hde & Heq)%tree_entry by (by rewrite T2). injection Heq as _ Hnd _ _ _ _. rewrite bind_run, (get_d_run _ _ _ Hde), <- Hnd.
  assert (0 < occ nd (pnodes f) <= N) as Hocc.
  { destruct (nodes_put p g f g (ok_nodup_ids _ _ _ _ _ Hok) Hk) as (xs & P1 & _). pose proof (nodes_tdel nm g d nd k Hng Hc) as P2. rewrite (occ_perm nd _ _ P1), occ_app, (occ_perm nd _ _ P2), !occ_app. cbn [occ]. rewrite bool_decide_true by done.
    pose proof (occ_nonneg nd xs). pose proof (occ_nonneg nd (pnodes (tdel d g))). pose proof (occ_nonneg nd (pnodes k)). pose proof (occ_nonneg nd (pnodes f)) as Ho. rewrite (occ_perm nd _ _ P1), occ_app, (occ_perm nd _ _ P2), !occ_app in Ho. cbn [occ] in Ho.
    rewrite bool_decide_true in Ho by done. rewrite pnodes_length in Ho. pose proof (ok_length _ _ _ _ _ Hok). lia. }
  destruct (add_ref_ok kept 1 nd (refs f ext) c2) as (c3 & E3 & Hh3 & O3); [by rewrite Rn|specialize (He nd); unfold refs; lia|specialize (He nd); unfold refs; lia|]. rewrite bind_run, E3.
  exists c3. split; [done|]. rewrite minus_split by (by eapply ok_nodup_lru). rewrite <- (assoc app). split; [by eapply only_nodes_ok|]. eapply held_ext; [|exact Hh3]. intros x. unfold more, refs. case_decide; lia.
Qed.
(** ** Inserting a component *)

(** The entries of paths after an insertion at [q0], with the entry of [gone] and
    everything below it evicted. *)
Definition inserted (f f' : forest) (q0 : list (list Z)) (n : Z) (gone : option (list (list Z))) : Prop :=
  exists d, forall q, fget q f' = if decide (q = q0) then Some (d, n) else match gone with Some vp => if decide (vp `prefix_of` q) then None else fget q f | None => fget q f end.

(** Evicting [l]'s first entry is safe for the parent [pp]. *)
Definition spares (f : forest) (l fl : list Z) (pp : list (list Z)) : Prop :=
  fl = [] -> match l with [] => False | v :: _ => forall vp nd, fget vp f = Some (v, nd) -> ~ vp `prefix_of` pp end.

Lemma fresh_child c f l fl p pp g nm : dc_ok N c f l fl -> path_to p pp f -> fkids p f = Some g -> fchild nm g = None -> fget (pp ++ [nm]) f = None.
Proof. intros Hok Hp Hk Hc. rewrite (kids_get f g p pp (ok_nodup_ids _ _ _ _ _ Hok) Hp Hk), fget_child by done. by rewrite Hc. Qed.

Lemma insert_component_ok c f l fl p pp nm n ext :
  dc_ok N c f l fl -> path_to p pp f -> bad_length nm = false -> held kept (refs f ext) (nodes c) -> (forall x, 0 <= ext x <= UINT64_MAX - N - 1) -> 0 < ext n -> spares f l fl pp ->
  exists d c' f' l' fl' gone, insert_component N kept p nm n c = Done (Some d) c' /\ dc_ok N c' f' l' fl' /\ held kept (refs f' ext) (nodes c') /\ inserted f f' (pp ++ [nm]) n gone /\
    (forall vp, gone = Some vp -> fl = [] /\ fget (pp ++ [nm]) f = None /\ exists v l0 nd, l = v :: l0 /\ fget vp f = Some (v, nd)) /\
    fget (pp ++ [nm]) f' = Some (d, n) /\ (fget (pp ++ [nm]) f = None -> exists xs, l' = minus xs l ++ [d]).
Proof.
  intros Hok Hp Hb Hh He Hn Hsp. destruct (path_kids _ _ _ Hp) as [g Hk]. pose proof Hb as Hb0. unfold insert_component, bad_length in *. rewrite Hb0. pose proof (ok_nodup_ids _ _ _ _ _ Hok) as Nids.
  destruct (kids_facts _ _ _ _ _ Hok p g Hk) as (Hu & Hng & _ & _). assert (forall f0, (length (ids f0) <= Z.to_nat N)%nat -> 0 < refs f0 ext n < UINT64_MAX) as Hrefs.
  { intros f0 Hf0. unfold refs. pose proof (occ_nonneg n (pnodes f0)) as Ho. rewrite pnodes_length in Ho. specialize (He n). lia. }
  rewrite bind_run, (find_child_ok N c f p g nm (ok_tree _ _ _ _ _ Hok) Hk (ok_length _ _ _ _ _ Hok)). destruct (fchild nm g) as [[[d nd] k]|] eqn:Hc; cbn [fmap option_fmap option_map fst].
  { destruct (renew_ok c f l fl p g nm d nd k n ext Hok Hk Hc Hh) as (c' & l' & E & Hok' & Hh'); [intros x; apply He|by apply Hrefs, (ok_length _ _ _ _ _ Hok)|].
    exists d, c', (fput p (tset d n g) f), l', fl, None. assert (forall q, fget q (fput p (tset d n g) f) = if decide (q = pp ++ [nm]) then Some (d, n) else fget q f) as Hview by (intros q; eapply view_put; try done; intros q'; by eapply tset_get).
    split; [done|]. split; [done|]. split; [done|]. split; [by exists d|]. split; [done|]. split; [by rewrite Hview, decide_True|]. rewrite (kids_get f g p pp Nids Hp Hk), fget_child, Hc by done. done. }
  pose proof (fresh_child c f l fl p pp g nm Hok Hp Hk Hc) as Hfresh. rewrite bind_run. unfold gets. pose proof (ok_free _ _ _ _ _ Hok) as Hfl. destruct fl as [|s fl].
  - cbn in Hfl. rewrite Hfl. specialize (Hsp eq_refl). destruct l as [|v l]; [done|]. destruct (evict_ok c f v l [] ext Hok Hh) as (c1 & f1 & l1 & fl1 & vp & E1 & Hs1 & Hh1 & [ndv Hvp] & Hview & [xs Hxs]); [intros x; apply He|].
    rewrite bind_run, E1. assert (path_to p pp f1) as Hp1. { destruct p as [pd|]; [|done]. destruct Hp as [ndp Hp]. exists ndp. rewrite Hview, decide_False; [done|]. by apply (Hsp vp ndv). }
    destruct (path_kids _ _ _ Hp1) as [g1 Hk1]. assert (NoDup (ids f1)) as N1. { destruct Hs1 as [_ _ _ _ P1 P2 _ _ _]. rewrite <- P1. assert (NoDup (l1 ++ v :: fl1)) as Hnd by (rewrite P2; apply NoDup_seqZ). by apply NoDup_app in Hnd as (? & _). }
    assert (fget (pp ++ [nm]) f1 = None) as Hfresh1 by (rewrite Hview; by case_decide). rewrite (kids_get f1 g1 p pp N1 Hp1 Hk1), fget_child in Hfresh1 by done.
    assert (nm ∉ names g1) as Hnm. { apply fchild_none. by destruct (fchild nm g1) as [[[? ?] ?]|]. }
    assert (length (ids f1) <= Z.to_nat N)%nat as Hl1. { destruct Hs1 as [_ _ _ _ P1 P2 _ _ _]. rewrite <- (Permutation_length P1). apply Permutation_length in P2. rewrite length_app, length_seqZ in P2. lia. }
    destruct (attach_ok c1 f1 l1 fl1 v p g1 nm n ext Hs1 Hk1 Hnm Hb Hh1 (Hrefs _ Hl1)) as (c2 & E2 & Hok2 & Hh2). exists v, c2. eexists _, _, _, (Some vp). split; [exact E2|]. split; [done|]. split; [done|]. split.
    + exists v. intros q. rewrite (view_put f1 p pp g1 _ nm v n q N1 Hp1 Hk1) by (intros q'; by apply tadd_get). by rewrite Hview.
    + split; [intros vp' [= <-]; split; [done|]; split; [done|]; by exists v, l, ndv|]. split; [by rewrite (view_put f1 p pp g1 _ nm v n _ N1 Hp1 Hk1), decide_True by (done || (intros q'; by apply tadd_get))|]. intros _. exists (v :: xs). rewrite Hxs. f_equal.
      pose proof (ok_nodup_lru _ _ _ _ _ Hok) as [Hvl _]%NoDup_cons. unfold minus. rewrite filter_cons_False by set_solver. apply filter_same. intros x Hx. rewrite not_elem_of_cons. split; [|tauto]. intros Hnx. split; [congruence|done].
  - pose proof Hfl as [-> _]. destruct (take_spare c f l s fl Hok) as (c1 & E1 & Hs1 & Hn1). rewrite bind_run, E1. assert (nm ∉ names g) as Hnm by (by apply fchild_none).
    destruct (attach_ok c1 f l fl s p g nm n ext Hs1 Hk Hnm Hb) as (c2 & E2 & Hok2 & Hh2); [by rewrite Hn1|by apply Hrefs, (ok_length _ _ _ _ _ Hok)|]. exists s, c2. eexists _, _, _, None. split; [exact E2|].
    assert (forall q, fget q (fput p (Node s nm n Nil g) f) = if decide (q = pp ++ [nm]) then Some (s, n) else fget q f) as Hview by (intros q; eapply view_put; try done; intros q'; by apply tadd_get).
    split; [done|]. split; [done|]. split; [by exists s|]. split; [done|]. split; [by rewrite Hview, decide_True|]. intros _. exists []. by rewrite minus_none by set_solver.
Qed.
End component.

(** ** The components of a path *)

(** The names in front of the first one that is empty or too long, and whether
    there is none such. *)
Fixpoint comps (n : nat) (p : list Z) : list (list Z) * bool :=
  match n, p with
  | S n, _ :: _ =>
      let '(name, rest) := component p in
      if bad_length name then ([], false) else let '(cs, b) := comps n (skip_slash rest) in (name :: cs, b)
  | _, _ => ([], true)
  end.

Lemma comps_step m p : p <> [] -> comps (S m) p = let '(name, rest) := component p in if bad_length name then ([], false) else let '(cs, b) := comps m (skip_slash rest) in (name :: cs, b).
Proof. by destruct p. Qed.

Definition path_names (path : list Z) : list (list Z) * bool := comps (length path) (skip_slash path).

Lemma component_length p : (length (fst (component p)) + length (snd (component p)) = length p)%nat.
Proof. induction p as [|b p IH]; cbn [component]; [done|]. case_match; [done|]. destruct (component p) as [c r]. cbn in *. lia. Qed.

Lemma skip_slash_length p : (length (skip_slash p) <= length p)%nat.
Proof. destruct p as [|b p]; cbn; [done|]. case_match; cbn; lia. Qed.

Lemma component_rest p name rest : component p = (name, rest) -> bad_length name = false -> (length (skip_slash rest) < length p)%nat.
Proof.
  intros E Hb. pose proof (component_length p) as Hl. rewrite E in Hl. cbn in Hl. pose proof (skip_slash_length rest). apply orb_false_iff in Hb as [Hb _]. apply Z.eqb_neq in Hb. lia.
Qed.

(** ** Walking down *)

(** The entries and nodes on the way of a path, as far as they are cached. *)
Fixpoint fids (cs : list (list Z)) (g : forest) : list Z :=
  match cs with [] => [] | c :: cs => match fchild c g with None => [] | Some (d, _, k) => d :: fids cs k end end.
Fixpoint fnds (cs : list (list Z)) (g : forest) : list Z :=
  match cs with [] => [] | c :: cs => match fchild c g with None => [] | Some (_, nd, k) => nd :: fnds cs k end end.

(** Entries move to the end of the order of use, one after the other. *)
Definition touch (xs l : list Z) : list Z := foldl (fun l x => minus [x] l ++ [x]) l xs.

(** The node at the end of a path. *)
Definition fnode (cs : list (list Z)) (f : forest) : option Z := snd <$> fget cs f.

Definition one (r : option Z) (x : Z) : Z := if bool_decide (r = Some x) then 1 else 0.

Lemma one_none x : one None x = 0.
Proof. done. Qed.

Lemma one_bounds r x : 0 <= one r x <= 1.
Proof. unfold one. case_bool_decide; lia. Qed.

(** No node follows itself on the way. *)
Fixpoint apart (r : option Z) (ns : list Z) : Prop := match ns with [] => True | n :: ns => r <> Some n /\ apart (Some n) ns end.

Section paths.
Context (N : Z) (kept : Z -> bool).
Hypothesis (HN : 0 <= N <= UINT64_MAX).

Definition lookup_body := (fun '(parent, result, p) =>
      match (p : list Z) with
      | [] => mret (inr result)
      | _ =>
          let '(name, rest) := component p in
          if bad_length name then
            _ ← modify (fun c => set_counts (entry_count_ c) (hit_count_ c) (u64 (miss_count_ c + 1)) c); mret (inr None)
          else
            x ← lookup_component N parent name;
            let '(result', matched) := (x : option Z * option Z) in
            _ ← (match (result : option Z) with
                 | Some n => if bool_decide (result' = Some n) then mret tt else add_ref (-1) n
                 | None => mret tt
                 end);
            match matched with
            | None => mret (inr None)
            | Some _ => mret (inl (matched, result', skip_slash rest))
            end
      end) : option Z * option Z * list Z -> M dcache (option Z * option Z * list Z + option Z).

Lemma lookup_step parent result p name rest :
  p <> [] -> component p = (name, rest) -> lookup_body (parent, result, p) =
    (if bad_length name then _ ← modify (fun c => set_counts (entry_count_ c) (hit_count_ c) (u64 (miss_count_ c + 1)) c); mret (inr None)
     else
       x ← lookup_component N parent name;
       let '(result', matched) := (x : option Z * option Z) in
       _ ← (match (result : option Z) with Some n => if bool_decide (result' = Some n) then mret tt else add_ref (-1) n | None => mret tt end);
       match matched with None => mret (inr None) | Some _ => mret (inl (matched, result', skip_slash rest)) end).
Proof. intros Hp Hc. destruct p; [done|]. unfold lookup_body. by rewrite Hc. Qed.

(** The reference to the last result is dropped, unless the node is the same. *)
Lemma dentry_drop_result r r' f c l fl ext :
  dc_ok N c f l fl -> held kept (refs f ext) (nodes c) -> (forall n, r = Some n -> 0 < ext n) -> (forall n, 0 <= ext n) ->
  exists c' ext', (match (r : option Z) with Some n => if bool_decide (r' = Some n) then mret tt else add_ref (-1) n | None => mret tt end) c = Done tt c' /\
    dc_ok N c' f l fl /\ held kept (refs f ext') (nodes c') /\ (forall x, ext x - one r x <= ext' x <= ext x) /\ (r <> r' \/ r = None -> forall x, ext' x = ext x - one r x).
Proof.
  intros Hok Hh Hr He. destruct r as [n|].
  - case_bool_decide as Hn.
    + exists c, ext. split_and!; try done; [|naive_solver]. intros x. unfold one. case_bool_decide; lia.
    + specialize (Hr n eq_refl). pose proof (occ_nonneg n (pnodes f)). destruct (Hh n) as [Hb _]. destruct (add_ref_ok kept (-1) n (refs f ext) c Hh) as (c' & E & Hh' & O); [unfold refs in *; lia..|].
      exists c', (more (-1) n ext). split; [done|]. split; [by eapply only_nodes_ok|]. split; [eapply held_ext; [|exact Hh']; intros x; unfold more, refs; case_decide; lia|].
      assert (forall x, more (-1) n ext x = ext x - one (Some n) x) as Hm by (intros x; unfold more, one; case_decide; case_bool_decide; simplify_eq; lia). split; [|auto]. intros x. rewrite Hm. unfold one. case_bool_decide; lia.
  - exists c, ext. split_and!; try done; [intros x|intros _ x]; rewrite one_none; lia.
Qed.

Lemma lookup_loop n : forall m p parent result g c f l fl ext,
  (length p < n)%nat -> (length p <= m)%nat -> dc_ok N c f l fl -> fkids parent f = Some g -> held kept (refs f ext) (nodes c) ->
  (forall x, 0 <= ext x <= UINT64_MAX - N - 1 - zlen p) -> (forall x, result = Some x -> 0 < ext x) ->
  let '(cs, b) := comps m p in let r := if b then match cs with [] => result | _ => fnode cs g end else None in
  exists c' ext', while n lookup_body (parent, result, p) c = Done r c' /\ dc_ok N c' f (touch (fids cs g) l) fl /\ held kept (refs f ext') (nodes c') /\
    (forall x, ext x - one result x + one r x <= ext' x <= ext x + zlen p) /\ (b = true -> apart result (fnds cs g) -> forall x, ext' x = ext x - one result x + one r x).
Proof.
  induction n as [|n IH]; intros m p parent result g c f l fl ext Hn Hm Hok Hk Hh He Hr; [lia|]. destruct (decide (p = [])) as [->|Hp].
  { destruct m; cbn; exists c, ext; (split; [done|]); (split; [done|]); (split; [done|]); (split; [intros x; lia|intros _ _ x; lia]). }
  destruct m as [|m]; [destruct p; [done|cbn in Hm; lia]|]. rewrite comps_step by done. destruct (component p) as [name rest] eqn:Ec. pose proof (lookup_step parent result p name rest Hp Ec) as Estep. destruct (bad_length name) eqn:Eb.
  { eexists _, ext. split; [by rewrite while_S, Estep|]. split; [by apply dentry_counts_ok|]. split; [done|]. split; [|done]. intros x. rewrite one_none. pose proof (one_bounds result x). lia. }
  pose proof (component_rest p name rest Ec Eb) as Hlen. destruct (comps m (skip_slash rest)) as [cs b] eqn:Ecs.
  destruct (lookup_component_ok N kept HN c f l fl parent g name ext Hok Hk Eb Hh) as (c1 & Hc1); [intros x; specialize (He x); lia|]. rewrite while_S, Estep, bind_run.
  destruct (fchild name g) as [[[d nd] k]|] eqn:Hc; destruct Hc1 as (E1 & Hok1 & Hh1); rewrite E1.
  - destruct (dentry_drop_result result (Some nd) f c1 _ fl (more 1 nd ext) Hok1 Hh1) as (c2 & ext2 & E2 & Hok2 & Hh2 & B2 & X2).
    { intros x Hx. specialize (Hr x Hx). unfold more. case_decide; lia. }
    { intros x. specialize (He x). unfold more. case_decide; lia. }
    assert (forall x, more 1 nd ext x = ext x + one (Some nd) x) as Hm1 by (intros x; unfold more, one; case_decide; case_bool_decide; simplify_eq; lia). setoid_rewrite Hm1 in B2. setoid_rewrite Hm1 in X2.
    rewrite bind_run, E2, ret_run. destruct (kids_facts _ _ _ _ _ Hok parent g Hk) as (_ & Hng & _ & _).
    specialize (IH m (skip_slash rest) (Some d) (Some nd) k c2 f (minus [d] l ++ [d]) fl ext2). rewrite Ecs in IH. destruct IH as (c3 & ext3 & E3 & Hok3 & Hh3 & B3 & X3); [lia|lia|exact Hok2| |done| | |].
    + cbn. destruct parent as [pd|]; cbn in Hk; [eapply fsub_trans; [by eapply ok_nodup_ids|done|by eapply fchild_sub]|injection Hk as ->; by eapply fchild_sub].
    + intros x. specialize (B2 x). specialize (He x). pose proof (one_bounds (Some nd) x). pose proof (one_bounds result x). destruct (decide (result = Some x)) as [Hx|Hx]; [specialize (Hr x Hx); lia|].
      assert (one result x = 0) by (unfold one; by rewrite bool_decide_false). lia.
    + intros x [= <-]. specialize (B2 nd). specialize (He nd). assert (one (Some nd) nd = 1) by (unfold one; by rewrite bool_decide_true). pose proof (one_bounds result nd). destruct (decide (result = Some nd)) as [Hx|Hx]; [specialize (Hr nd Hx); lia|].
      assert (one result nd = 0) by (unfold one; by rewrite bool_decide_false). lia.
    + assert ((if b then match cs with [] => Some nd | _ => fnode cs k end else None) = if b then fnode (name :: cs) g else None) as Hres by (unfold fnode; rewrite fget_child, Hc; by destruct cs).
      rewrite Hres in *. exists c3, ext3. cbn [fids fnds]. rewrite Hc. split; [done|]. split; [done|]. split; [done|]. split.
      * intros x. specialize (B3 x). specialize (B2 x). pose proof (one_bounds (Some nd) x). pose proof (one_bounds result x). lia.
      * intros Hb [Ha1 Ha2] x. rewrite (X3 Hb Ha2 x), X2 by auto. lia.
  - destruct (dentry_drop_result result None f c1 l fl ext Hok1 Hh1 Hr) as (c2 & ext2 & E2 & Hok2 & Hh2 & B2 & X2); [intros x; specialize (He x); lia|]. rewrite bind_run, E2, ret_run.
    assert ((if b then fnode (name :: cs) g else None) = None) as -> by (unfold fnode; rewrite fget_child, Hc; by destruct b). exists c2, ext2. cbn [fids]. rewrite Hc. split; [done|]. split; [done|]. split; [done|].
    assert (forall x, ext2 x = ext x - one result x) as Hx by (apply X2; destruct result; auto). split; intros; rewrite one_none, Hx; pose proof (one_bounds result x); lia.
Qed.
Definition looked_up (path : list Z) (f : forest) : option Z := let '(cs, b) := path_names path in if b then fnode cs f else None.

Lemma trivial_path path : (zlen path =? 0) || is_root_path path = true -> path_names path = ([], true).
Proof. intros [H|H]%orb_true_iff; [apply Z.eqb_eq in H; by destruct path|]. apply bool_decide_eq_true in H. by subst. Qed.

(** The node of the path, with a reference for the caller. *)
Lemma dentry_lookup_ok path c f l fl ext :
  dc_ok N c f l fl -> held kept (refs f ext) (nodes c) -> (forall x, 0 <= ext x <= UINT64_MAX - N - 1 - zlen path) ->
  let '(cs, b) := path_names path in
  exists c' ext', lookup N path c = Done (looked_up path f) c' /\ dc_ok N c' f (touch (fids cs f) l) fl /\ held kept (refs f ext') (nodes c') /\
    (forall x, ext x + one (looked_up path f) x <= ext' x <= ext x + zlen path) /\ (b = true -> apart None (fnds cs f) -> forall x, ext' x = ext x + one (looked_up path f) x).
Proof.
  intros Hok Hh He. unfold looked_up, lookup. destruct ((zlen path =? 0) || is_root_path path) eqn:Ht.
  { rewrite trivial_path by done. exists c, ext. unfold fnode. rewrite fget_nil. split_and!; try done; intros; cbn; rewrite one_none; lia. }
  pose proof (skip_slash_length path) as Hs. pose proof (lookup_loop (S (length path)) (length path) (skip_slash path) None None f c f l fl ext) as H. unfold path_names. destruct (comps (length path) (skip_slash path)) as [cs b] eqn:Ec.
  destruct H as (c' & ext' & E & Hok' & Hh' & B & X); try done; try lia; [intros x; specialize (He x); lia|].
  assert ((if b then match cs with [] => None | _ => fnode cs f end else None) = if b then fnode cs f else None) as Hr by (destruct b, cs; try done; unfold fnode; by rewrite fget_nil).
  rewrite Hr in *. exists c', ext'. split; [exact E|]. split; [done|]. split; [done|]. split.
  - intros x. specialize (B x). rewrite one_none in B. lia.
  - intros Hb Ha x. rewrite (X Hb Ha x), one_none. lia.
Qed.

(** ** Invalidation *)

Lemma dentry_find_loop n : forall m p target g c f l fl,
  (length p < n)%nat -> (length p <= m)%nat -> dc_ok N c f l fl -> fkids target f = Some g ->
  while n (fun '(target, p) =>
    match (p : list Z) with
    | [] => mret (inr target)
    | _ =>
        let '(name, rest) := component p in
        if bad_length name then mret (inr None)
        else
          d ← find_child N target name (hash_name name);
          match d with None => mret (inr None) | Some _ => mret (inl (d, skip_slash rest)) end
    end) (target, p) c = Done (let '(cs, b) := comps m p in if b then match cs with [] => target | _ => fst <$> fget cs g end else None) c.
Proof.
  induction n as [|n IH]; intros m p target g c f l fl Hn Hm Hok Hk; [lia|]. destruct (decide (p = [])) as [->|Hp]; [by destruct m|].
  destruct m as [|m]; [destruct p; [done|cbn in Hm; lia]|]. rewrite comps_step by done. rewrite while_S. destruct (component p) as [name rest] eqn:Ec. destruct p as [|b0 p0]; [done|]. cbn beta iota. rewrite ?Ec. destruct (bad_length name) eqn:Eb; [done|].
  pose proof (component_rest (b0 :: p0) name rest Ec Eb) as Hlen. rewrite bind_run, (find_child_ok N c f target g name (ok_tree _ _ _ _ _ Hok) Hk (ok_length _ _ _ _ _ Hok)). destruct (comps m (skip_slash rest)) as [cs b] eqn:Ecs.
  rewrite fget_child. destruct (fchild name g) as [[[d nd] k]|] eqn:Hc; cbn [fmap option_fmap option_map fst]; [|rewrite ret_run; by destruct b]. rewrite ret_run.
  destruct (kids_facts _ _ _ _ _ Hok target g Hk) as (_ & Hng & _ & _). rewrite (IH m (skip_slash rest) (Some d) k c f l fl); [rewrite Ecs; destruct b; [by destruct cs|done]|lia|lia|done|].
  cbn. destruct target as [pd|]; cbn in Hk; [eapply fsub_trans; [by eapply ok_nodup_ids|done|by eapply fchild_sub]|injection Hk as ->; by eapply fchild_sub].
Qed.

Lemma fget_prefix q1 q2 f : fget q1 f = None -> q1 <> [] -> fget (q1 ++ q2) f = None.
Proof.
  revert f. induction q1 as [|c cs IH]; intros f H Hne; [done|]. cbn [app]. rewrite fget_child in *. destruct (fchild c f) as [[[d nd] k]|]; [|done]. destruct cs as [|a cs]; [done|]. cbn [app]. by apply IH.
Qed.

(** The entries of paths once [cs] is gone. *)
Definition without (f f' : forest) (cs : list (list Z)) : Prop := forall q, fget q f' = if decide (cs `prefix_of` q) then None else fget q f.

Lemma invalidate_ok path c f l fl ext :
  dc_ok N c f l fl -> held kept (refs f ext) (nodes c) -> (forall x, 0 <= ext x) ->
  let '(cs, b) := path_names path in
  exists c' f' l' fl', invalidate N kept path c = Done tt c' /\ dc_ok N c' f' l' fl' /\ held kept (refs f' ext) (nodes c') /\ if b && negb (bool_decide (cs = [])) then without f f' cs else f' = f.
Proof.
  intros Hok Hh He. unfold invalidate. destruct ((zlen path =? 0) || is_root_path path) eqn:Ht.
  { rewrite trivial_path by done. by exists c, f, l, fl. }
  unfold find_path. pose proof (skip_slash_length path) as Hs. rewrite bind_run, (dentry_find_loop (S (length path)) (length path) (skip_slash path) None f c f l fl) by (done || lia). fold (path_names path). destruct (path_names path) as [cs b].
  destruct b; cbn [andb]; [|by exists c, f, l, fl]. destruct (decide (cs = [])) as [->|Hcs]; [by exists c, f, l, fl|]. rewrite bool_decide_false by done. cbn [negb]. replace (match cs with [] => None | _ :: _ => fst <$> fget cs f end) with (fst <$> fget cs f) by (by destruct cs).
  destruct (fget cs f) as [[t nd]|] eqn:Eg; cbn [fmap option_fmap option_map fst].
  2: { exists c, f, l, fl. split_and!; try done. intros q. case_decide as Hq; [|done]. destruct Hq as [q2 ->]. by apply fget_prefix. }
  pose proof (ok_nodup_ids _ _ _ _ _ Hok) as Nids. destruct cs as [|nm pp _] using rev_ind; [done|]. destruct (fget_parent _ _ _ _ _ Eg) as [p Hp]. destruct (path_kids _ _ _ Hp) as [g Hg]. rewrite (kids_get f g p pp Nids Hp Hg), fget_child in Eg by done.
  destruct (fchild nm g) as [[[x nx] k]|] eqn:Hc; [|done]. injection Eg as -> ->. destruct (drop_refs N kept HN c f l fl p g nm t nd k ext Hok Hg Hc Hh He) as (c' & E & Hok' & Hh'). destruct (kids_facts _ _ _ _ _ Hok p g Hg) as (Hu & Hng & _ & _).
  exists c'. eexists _, _, _. split; [exact E|]. split; [done|]. split; [done|]. intros q. by eapply view_del.
Qed.
(** ** Insertion *)

(** The names that are looked up, and the last one, which is inserted. *)
Fixpoint icomps (n : nat) (p : list Z) : list (list Z) * option (list Z) :=
  match n, p with
  | S n, _ :: _ =>
      let '(name, rest) := component p in
      if bad_length name then ([], None)
      else if bool_decide (rest = []) then ([], Some name) else let '(ws, o) := icomps n (skip_slash rest) in (name :: ws, o)
  | _, _ => ([], None)
  end.

Definition insert_names (path : list Z) : list (list Z) * option (list Z) := icomps (length path) (skip_slash path).

Lemma icomps_step m p : p <> [] -> icomps (S m) p = let '(name, rest) := component p in
  if bad_length name then ([], None) else if bool_decide (rest = []) then ([], Some name) else let '(ws, o) := icomps m (skip_slash rest) in (name :: ws, o).
Proof. by destruct p. Qed.

Lemma icomps_length n p : zlen (fst (icomps n p)) <= zlen p.
Proof.
  revert p. induction n as [|n IH]; intros p; [cbn; lia|]. destruct (decide (p = [])) as [->|Hp]; [done|]. rewrite icomps_step by done. destruct (component p) as [name rest] eqn:Ec. destruct (bad_length name) eqn:Eb; [cbn; lia|].
  case_bool_decide; [cbn; lia|]. pose proof (component_rest p name rest Ec Eb). specialize (IH (skip_slash rest)). destruct (icomps n (skip_slash rest)) as [ws o]. cbn [fst length] in *. lia.
Qed.

(** Whether all names on the way are cached. *)
Definition cached (ws : list (list Z)) (f : forest) : bool := bool_decide (ws = []) || bool_decide (is_Some (fget ws f)).

(** References that a walk takes. *)
Definition taken (ns : list Z) (ext : Z -> Z) (x : Z) : Z := ext x + occ x (Some <$> ns).

Lemma fids_elem cs g x : x ∈ fids cs g -> x ∈ ids g.
Proof.
  revert g. induction cs as [|c cs IH]; intros g; cbn [fids]; [set_solver|]. destruct (fchild c g) as [[[d nd] k]|] eqn:Hc; [|set_solver]. destruct (fchild_elem _ _ _ _ _ Hc) as (Hd & _ & Hk). rewrite elem_of_cons. intros [->|Hx]; [done|auto].
Qed.

Lemma fids_nodup cs g : NoDup (ids g) -> NoDup (fids cs g).
Proof.
  revert g. induction cs as [|c cs IH]; intros g Hnd; cbn [fids]; [constructor|]. destruct (fchild c g) as [[[d nd] k]|] eqn:Hc; [|constructor]. destruct (fchild_nodup _ _ _ _ _ Hnd Hc) as [Nk Nd].
  constructor; [intros Hx; by apply Nd, (fids_elem cs)|auto].
Qed.

Lemma fids_length cs g : (length (fids cs g) <= length cs)%nat.
Proof. revert g. induction cs as [|c cs IH]; intros g; cbn; [lia|]. destruct (fchild c g) as [[[d nd] k]|]; cbn; [|lia]. specialize (IH k). lia. Qed.

Lemma fids_snoc pp nm f p g d nd k : NoDup (ids f) -> path_to p pp f -> fkids p f = Some g -> fchild nm g = Some (d, nd, k) -> fids (pp ++ [nm]) f = fids pp f ++ [d].
Proof.
  intros Hnd Hp Hk Hc. destruct p as [pd|]; cbn in *; [|subst pp; injection Hk as ->; cbn; by rewrite Hc]. destruct Hp as [ndp Hp]. revert f Hnd Hp Hk. induction pp as [|c cs IH]; intros f Hnd Hp Hk; [by rewrite fget_nil in Hp|].
  rewrite fget_child in Hp. cbn [app fids]. destruct (fchild c f) as [[[x nx] kx]|] eqn:E; [|done]. destruct (fchild_nodup _ _ _ _ _ Hnd E) as [Nk Nx]. pose proof (fchild_sub _ _ _ _ _ Hnd E) as Hx. destruct cs as [|a cs].
  - injection Hp as -> ->. rewrite Hk in Hx. injection Hx as ->. cbn. by rewrite Hc.
  - cbn [app]. f_equal. apply IH; [done|done|]. destruct (fsub_some pd kx) as [g' Hg']; [by eapply fget_elem|]. assert (g' = g) as -> by (pose proof (fsub_trans _ _ _ _ _ Hnd Hx Hg'); congruence). done.
Qed.

(** An entry on the way is an ancestor. *)
Lemma prefix_fids vp pp f v nd : fget vp f = Some (v, nd) -> vp `prefix_of` pp -> v ∈ fids pp f.
Proof.
  intros Hv [q ->]. revert f Hv. induction vp as [|c cs IH]; intros f Hv; [by rewrite fget_nil in Hv|]. rewrite fget_child in Hv. cbn [app fids]. destruct (fchild c f) as [[[x nx] kx]|]; [|done].
  destruct cs as [|a cs]; [injection Hv as -> ->; set_solver|]. apply elem_of_cons. right. by apply IH.
Qed.

Lemma minus_snoc xs d l : NoDup l -> d ∉ xs -> minus [d] (minus xs l ++ xs) ++ [d] = minus (xs ++ [d]) l ++ xs ++ [d].
Proof. intros Hl Hd. rewrite <- minus_app. unfold minus at 1. rewrite filter_app. fold (minus [d] (minus xs l)). fold (minus [d] xs). rewrite (minus_none [d] xs) by set_solver. by rewrite (assoc app). Qed.

(** After a walk, the entries on the way are the last to go. *)
Lemma walk_head c f l0 pp : dc_ok N c f (minus (fids pp f) l0 ++ fids pp f) [] -> zlen pp < N -> exists v l, minus (fids pp f) l0 = v :: l /\ v ∉ fids pp f.
Proof.
  intros Hok Hl. pose proof (fids_length pp f) as Hf. destruct (minus (fids pp f) l0) as [|v l] eqn:E.
  - pose proof (Permutation_length (ok_all _ _ _ _ _ Hok)) as HP. rewrite app_nil_r, app_nil_l, length_seqZ in HP. lia.
  - exists v, l. split; [done|]. assert (v ∈ minus (fids pp f) l0) as [_ H]%elem_minus by (rewrite E; set_solver). done.
Qed.

Lemma walk_spares c f l0 fl pp : dc_ok N c f (minus (fids pp f) l0 ++ fids pp f) fl -> zlen pp < N -> spares f (minus (fids pp f) l0 ++ fids pp f) fl pp.
Proof.
  intros Hok Hl ->. destruct (walk_head c f l0 pp Hok Hl) as (v & l & -> & Hv). cbn. intros vp nd Hg Hpre. by apply Hv, (prefix_fids vp pp f v nd).
Qed.

(** The entries of paths after [insert]: the last name is inserted when all before
    it are cached; in a full cache the least recently used of the other entries is
    evicted. *)
Definition insert_effect (f f' : forest) (ws : list (list Z)) (o : option (list Z)) (n : Z) (l fl : list Z) : Prop :=
  match o with
  | Some nm =>
      if cached ws f then
        exists gone, inserted f f' (ws ++ [nm]) n gone /\
          forall vp, gone = Some vp -> fl = [] /\ fget (ws ++ [nm]) f = None /\ exists v l1 nd, minus (fids ws f) l = v :: l1 /\ fget vp f = Some (v, nd)
      else f' = f
  | None => f' = f
  end.

Lemma path_cached p pp f : path_to p pp f -> cached pp f = true.
Proof. unfold cached. destruct p as [d|]; cbn; [|intros ->; done]. intros [nd Hd]. apply orb_true_iff. right. apply bool_decide_eq_true. by rewrite Hd. Qed.

Lemma path_snoc p pp f g nm d nd k : NoDup (ids f) -> path_to p pp f -> fkids p f = Some g -> fchild nm g = Some (d, nd, k) -> path_to (Some d) (pp ++ [nm]) f.
Proof. intros Hnd Hp Hk Hc. exists nd. rewrite (kids_get f g p pp Hnd Hp Hk), fget_child by done. by rewrite Hc. Qed.

Definition insert_body (node : Z) := (fun '(parent, p) =>
      match (p : list Z) with
      | [] => mret (inr tt)
      | _ =>
          let '(name, rest) := component p in
          if bad_length name then mret (inr tt)
          else
            if bool_decide (rest = []) then _ ← insert_component N kept parent name node; mret (inr tt)
            else
              x ← lookup_component N parent name;
              match snd (x : option Z * option Z) with
              | None => mret (inr tt)
              | Some d => mret (inl (Some d, skip_slash rest))
              end
      end) : option Z * list Z -> M dcache (option Z * list Z + unit).

Lemma insert_loop node n : forall m p parent pp g c f l0 fl ext,
  (length p < n)%nat -> (length p <= m)%nat -> NoDup l0 -> dc_ok N c f (minus (fids pp f) l0 ++ fids pp f) fl -> path_to parent pp f -> fkids parent f = Some g -> held kept (refs f ext) (nodes c) ->
  (forall x, 0 <= ext x <= UINT64_MAX - N - 1 - zlen p) -> 0 < ext node -> zlen pp + zlen p <= N ->
  let '(ws, o) := icomps m p in
  exists c' f' l' fl', while n (insert_body node) (parent, p) c = Done tt c' /\ dc_ok N c' f' l' fl' /\ held kept (refs f' (taken (fnds ws g) ext)) (nodes c') /\ insert_effect f f' (pp ++ ws) o node l0 fl.
Proof.
  induction n as [|n IH]; intros m p parent pp g c f l0 fl ext Hn Hm Nl0 Hok Hp Hk Hh He Hnode Hlen; [lia|].
  assert (forall x, taken [] ext x = ext x) as Ht0 by (intros x; unfold taken; cbn; lia). assert (held kept (refs f (taken [] ext)) (nodes c)) as Hh0 by (eapply held_ext; [|exact Hh]; intros x; unfold refs; by rewrite Ht0).
  destruct (decide (p = [])) as [->|Hpe]; [destruct m; (exists c, f, (minus (fids pp f) l0 ++ fids pp f), fl; split; [done|split; [exact Hok|split; [exact Hh0|done]]])|]. destruct m as [|m]; [destruct p; [done|cbn in Hm; lia]|]. rewrite icomps_step by done. rewrite while_S.
  destruct (component p) as [name rest] eqn:Ec. assert (insert_body node (parent, p) = if bad_length name then mret (inr tt) else if bool_decide (rest = []) then _ ← insert_component N kept parent name node; mret (inr tt)
    else x ← lookup_component N parent name; match snd (x : option Z * option Z) with None => mret (inr tt) | Some d => mret (inl (Some d, skip_slash rest)) end) as -> by (destruct p; [done|]; unfold insert_body; by rewrite Ec).
  destruct (bad_length name) eqn:Eb; [exists c, f, (minus (fids pp f) l0 ++ fids pp f), fl; split; [done|split; [exact Hok|split; [exact Hh0|done]]]|]. pose proof (component_rest p name rest Ec Eb) as Hrest. pose proof (ok_nodup_ids _ _ _ _ _ Hok) as Nids. case_bool_decide as Hlast.
  - destruct (insert_component_ok N kept HN c f _ fl parent pp name node ext Hok Hp Eb Hh) as (d & c' & f' & l' & fl' & gone & E & Hok' & Hh' & Hins & Hgone & _); [intros x; specialize (He x); lia|done|eapply walk_spares; [done|lia]|].
    exists c', f', l', fl'. rewrite bind_run, E. split; [done|]. split; [done|]. split; [eapply held_ext; [|exact Hh']; intros x; unfold refs; by rewrite Ht0|].
    rewrite app_nil_r. cbn. rewrite (path_cached parent pp f Hp). exists gone. split; [done|]. intros vp Hvp. destruct (Hgone vp Hvp) as (-> & Hnew & v & lx & nd & Hl & Hv). split; [done|]. split; [done|].
    destruct (walk_head c f l0 pp Hok) as (v' & l1 & Hm' & _); [lia|]. rewrite Hm' in Hl. injection Hl as -> _. eauto.
  - destruct (lookup_component_ok N kept HN c f _ fl parent g name ext Hok Hk Eb Hh) as (c1 & Hc1); [intros x; specialize (He x); lia|]. rewrite bind_run. destruct (icomps m (skip_slash rest)) as [ws o] eqn:Ew.
    destruct (fchild name g) as [[[d nd] k]|] eqn:Hc; destruct Hc1 as (E1 & Hok1 & Hh1); rewrite E1; cbn [snd]; rewrite ret_run.
    + pose proof (path_snoc parent pp f g name d nd k Nids Hp Hk Hc) as Hp1. pose proof (fids_snoc pp name f parent g d nd k Nids Hp Hk Hc) as Hf1. assert (d ∉ fids pp f) as Hd. { pose proof (fids_nodup (pp ++ [name]) f Nids) as Hnd. rewrite Hf1 in Hnd. apply NoDup_app in Hnd as (_ & Hnd & _). intros Hx. apply (Hnd d Hx). set_solver. }
      rewrite minus_snoc, <- Hf1 in Hok1 by done. assert (fkids (Some d) f = Some k) as Hk1. { destruct (kids_facts _ _ _ _ _ Hok parent g Hk) as (_ & Hng & _ & _). cbn. destruct parent as [pd|]; cbn in Hk; [eapply fsub_trans; [done|done|by eapply fchild_sub]|injection Hk as ->; by eapply fchild_sub]. }
      specialize (IH m (skip_slash rest) (Some d) (pp ++ [name]) k c1 f l0 fl (more 1 nd ext)). rewrite Ew in IH. destruct IH as (c' & f' & l' & fl' & E & Hok' & Hh' & Hins); try done; try lia.
      { intros x. specialize (He x). unfold more. case_decide; lia. }
      { unfold more. case_decide; lia. }
      { rewrite length_app. cbn [length]. lia. }
      exists c', f', l', fl'. split; [done|]. split; [done|]. split; [|by rewrite <- (assoc app) in Hins]. eapply held_ext; [|exact Hh']. intros x. unfold refs, taken. cbn [fnds]. rewrite Hc. cbn [fmap list_fmap occ]. unfold more.
      case_decide; case_bool_decide; simplify_eq; lia.
    + eexists _, f, _, fl. split; [done|]. split; [done|]. split; [eapply held_ext; [|exact Hh1]; intros x; unfold refs, taken; cbn [fnds]; rewrite Hc; cbn; lia|].
      unfold insert_effect. destruct o; [|done]. assert (cached (pp ++ name :: ws) f = false) as ->; [|done]. unfold cached. rewrite bool_decide_false by (by destruct pp). cbn. apply bool_decide_eq_false.
      rewrite (kids_get f g parent pp Nids Hp Hk), fget_child by done. rewrite Hc. by intros [? ?].
Qed.

Lemma insert_ok path node c f l fl ext :
  dc_ok N c f l fl -> held kept (refs f ext) (nodes c) -> (forall x, 0 <= ext x <= UINT64_MAX - N - 1 - zlen path) -> 0 < ext node -> zlen path <= N ->
  let '(ws, o) := insert_names path in
  exists c' f' l' fl', insert N kept path node c = Done tt c' /\ dc_ok N c' f' l' fl' /\ held kept (refs f' (taken (fnds ws f) ext)) (nodes c') /\ insert_effect f f' ws o node l fl.
Proof.
  intros Hok Hh He Hnode Hlen. unfold insert. pose proof (skip_slash_length path) as Hs. destruct ((zlen path =? 0) || is_root_path path) eqn:Ht.
  { assert (insert_names path = ([], None)) as ->. { apply orb_true_iff in Ht as [H|H]; [apply Z.eqb_eq in H; by destruct path|]. apply bool_decide_eq_true in H. by subst. }
    exists c, f, l, fl. split_and!; try done. eapply held_ext; [|exact Hh]. intros x. unfold refs, taken. cbn. lia. }
  pose proof (insert_loop node (S (length path)) (length path) (skip_slash path) None [] f c f l fl ext) as H. fold (insert_names path) in H. destruct (insert_names path) as [ws o]. cbn [fids app] in H.
  assert (minus [] l = l) as Hm by (apply minus_none; set_solver). rewrite Hm, app_nil_r in H. apply H; try done; try lia; [by eapply ok_nodup_lru|intros x; specialize (He x); lia|cbn; lia].
Qed.
End paths.

(** ** The dentry cache: the empty cache

    [init] links all slots into the free list; [flush] does so again, and gives
    back the references of all entries. *)

Section reset.
Context (N : Z) (kept : Z -> bool).
Hypothesis (HN : 0 <= N <= UINT64_MAX).

Definition slot_behind (i : Z) : option Z := if i + 1 <? N then Some (i + 1) else None.

(** All slots, each linked to the one behind it and without a node. *)
Definition blank (m : gmap Z dentry) : Prop := forall i, i ∈ seqZ 0 N -> free_of m i = Some (slot_behind i) /\ node_of m i = None.

Lemma fchain_seq m n : forall i, 0 <= i -> i + Z.of_nat n = N -> blank m -> fchain m (if i <? N then Some i else None) (seqZ i (Z.of_nat n)).
Proof.
  induction n as [|n IH]; intros i Hi Hn Hb.
  - rewrite seqZ_nil by lia. cbn. by rewrite (proj2 (Z.ltb_ge _ _)) by lia.
  - rewrite seqZ_cons by lia. rewrite (proj2 (Z.ltb_lt _ _)) by lia. cbn [fchain]. split; [done|]. destruct (Hb i) as [-> _]; [apply elem_of_seqZ; lia|]. eexists. split; [done|].
    replace (Z.pred (Z.of_nat (S n))) with (Z.of_nat n) by lia. apply (IH (Z.succ i)); [lia|lia|done].
Qed.

(** The empty cache. *)
Lemma blank_ok c :
  blank (slab_ c) -> root_children c = None -> lru_head_ c = None -> lru_tail_ c = None -> free_list_ c = (if 0 <? N then Some 0 else None) -> entry_count_ c = 0 -> dc_ok N c Nil [] (seqZ 0 N).
Proof.
  intros Hb Hr Hh Ht Hf Hc. split; try done.
  - unfold free_slots. rewrite Hf. replace N with (Z.of_nat (Z.to_nat N)) at 2 by lia. apply fchain_seq; [lia|lia|done].
  - intros x Hx. by apply Hb.
Qed.

Lemma dentry_init_ok m : dc_ok N (init N m) Nil [] (seqZ 0 N).
Proof.
  apply blank_ok; try done. intros i Hi. cbn [init slab_]. assert (list_to_map (M := gmap Z dentry) ((fun i => (i, free_entry N i)) <$> seqZ 0 N) !! i = Some (free_entry N i)) as Hs.
  { apply elem_of_list_to_map; [rewrite <- list_fmap_compose; rewrite (list_fmap_ext _ id), list_fmap_id; [apply NoDup_seqZ|done]|]. apply list_elem_of_fmap. eauto. }
  unfold free_of, node_of. by rewrite Hs.
Qed.

Lemma reset_loop xs : forall c, (forall i, i ∈ xs -> is_Some (slab_ c !! i)) ->
  exists m, for_each xs (fun i => upd_d i (reset_entry N i)) c = Done tt (set_slab m c) /\ (forall i, i ∉ xs -> m !! i = slab_ c !! i) /\ (forall i, i ∈ xs -> free_of m i = Some (slot_behind i) /\ node_of m i = None).
Proof.
  induction xs as [|x xs IH]; intros c Hin; cbn [for_each].
  { exists (slab_ c). split; [by destruct c|]. split; [done|]. set_solver. }
  destruct (Hin x) as [e He]; [set_solver|]. rewrite bind_run, (upd_d_run _ _ _ _ He). set (c1 := set_slab _ c). destruct (IH c1) as (m & E & Ho & Hx).
  { intros i Hi. cbn. destruct (decide (i = x)) as [->|]; [rewrite lookup_insert_eq; eauto|rewrite lookup_insert_ne by done; apply Hin; set_solver]. }
  exists m. split; [done|]. split; [intros i [Hix Hi]%not_elem_of_cons; rewrite Ho by done; cbn; by rewrite lookup_insert_ne|]. intros i Hi. destruct (decide (i ∈ xs)) as [Hxs|Hxs]; [auto|].
  assert (i = x) as -> by set_solver. unfold free_of, node_of. rewrite (Ho x Hxs). cbn. rewrite lookup_insert_eq. done.
Qed.

(** The nodes of the slots are those of the entries. *)
Lemma rep_nodes m p h f : rep m p h f -> Some <$> omap (node_of m) (ids f) ≡ₚ pnodes f.
Proof.
  revert p h. induction f as [|d nm nd k IHk r IHr]; intros p h; cbn [rep]; [done|]. intros (-> & hk & hr & Hd & Hk & Hr). apply tree_entry in Hd as (e & He & Heq). injection Heq as _ Hn _ _ _ _.
  cbn [ids pnodes omap list_omap]. assert (node_of m d = Some nd) as -> by (unfold node_of; by rewrite He). rewrite omap_app, fmap_cons, fmap_app, (IHk _ _ Hk), (IHr _ _ Hr). apply Permutation_middle.
Qed.

Lemma slots_nodes c f l fl : dc_ok N c f l fl -> Some <$> omap (node_of (slab_ c)) (seqZ 0 N) ≡ₚ pnodes f.
Proof.
  intros Hok. rewrite <- (ok_all _ _ _ _ _ Hok), (ok_ids _ _ _ _ _ Hok), omap_app, fmap_app, (rep_nodes _ _ _ _ (ok_tree _ _ _ _ _ Hok)).
  assert (omap (node_of (slab_ c)) fl = []) as ->; [|by rewrite app_nil_r]. pose proof (ok_idle _ _ _ _ _ Hok) as Hi. induction fl as [|x fl IH] in Hi |- *; [done|]. cbn. rewrite Hi by set_solver. apply IH. intros y Hy. apply Hi. set_solver.
Qed.

Lemma close_nodes ns c : for_each ns (vfs_close kept) c = for_each (Some <$> ns) (cache_unref kept) c.
Proof. revert c. induction ns as [|n ns IH]; intros c; cbn [for_each fmap list_fmap]; [done|]. rewrite !bind_run. cbn [cache_unref]. by destruct (vfs_close kept n c). Qed.

Lemma slot_entry c f l fl i : dc_ok N c f l fl -> i ∈ seqZ 0 N -> is_Some (slab_ c !! i).
Proof.
  intros Hok. rewrite <- (ok_all _ _ _ _ _ Hok), elem_of_app. intros [Hi|Hi]; [destruct (lru_elem c l i (ok_lru _ _ _ _ _ Hok) Hi)|destruct (free_slots_elem c fl i (ok_free _ _ _ _ _ Hok) Hi)]; eauto.
Qed.

(** The cache is empty, and only the references of others are left. *)
Lemma dentry_flush_ok c f l fl ext :
  dc_ok N c f l fl -> held kept (refs f ext) (nodes c) -> (forall x, 0 <= ext x) -> exists c', flush N kept c = Done tt c' /\ dc_ok N c' Nil [] (seqZ 0 N) /\ held kept (refs Nil ext) (nodes c').
Proof.
  intros Hok Hh He. unfold flush. rewrite bind_run. cbn [get]. rewrite bind_run. cbn [modify]. rewrite bind_run. destruct (reset_loop (seqZ 0 N) (set_root None c)) as (m & -> & _ & Hb); [intros i Hi; exact (slot_entry c f l fl i Hok Hi)|].
  rewrite bind_run. cbn [modify]. set (c1 := set_counts _ _ _ _). rewrite close_nodes. assert (dc_ok N c1 Nil [] (seqZ 0 N)) as Hok1 by (by apply blank_ok).
  destruct (close_all kept (Some <$> omap (node_of (slab_ c)) (seqZ 0 N)) (refs Nil ext) c1) as (c2 & E2 & Hh2 & O2).
  - cbn. eapply held_ext; [|exact Hh]. intros n. unfold refs. rewrite (occ_perm n _ _ (slots_nodes c f l fl Hok)). cbn. lia.
  - intros n. unfold refs. cbn. apply He.
  - exists c2. split; [exact E2|]. split; [by eapply only_nodes_ok|done].
Qed.
End reset.
