(* ===== verification/DentryProps.v ===== *)
(** * The dentry cache: what it promises

    Programs of operations on a cache that starts empty, with the references
    their callers own, against a plain table of paths. *)

From Stdlib Require Import ZArith Lia.
From stdpp Require Import base tactics gmap numbers list sorting.
From S2P Require Import Prelude.
From S2P Require Import Memory.
From S2P Require Import Dentry.
From S2P Require Import DentryFacts.
From S2P Require Import DentryTree.
From S2P Require Import DentryOps.
From S2P Require Import DentryPaths.

(** ** Programs *)

Inductive cache_op := Insert (path : list Z) (node : Z) | Lookup (path : list Z) | Invalidate (path : list Z) | Invalidate_prefix (path : list Z) | Flush | Close (node : Z).

Definition event : Type := cache_op * option Z.

(** The table of paths that the cache stands for: the last node inserted, until
    the path or one above it is invalidated. *)
Definition forget (path : list Z) (A : gmap (list (list Z)) Z) : gmap (list (list Z)) Z :=
  let '(cs, b) := path_names path in if b && negb (bool_decide (cs = [])) then filter (fun x => ~ cs `prefix_of` fst x) A else A.

Definition record (A : gmap (list (list Z)) Z) (e : event) : gmap (list (list Z)) Z :=
  match fst e with
  | Insert p n => match insert_names p with (ws, Some nm) => <[ws ++ [nm] := n]> A | _ => A end
  | Invalidate p | Invalidate_prefix p => forget p A
  | Flush => ∅
  | _ => A
  end.

Definition recorded (tr : list event) : gmap (list (list Z)) Z := foldl record ∅ tr.

(** References the callers own: a lookup gives one, [Close] gives one back. *)
Definition owns (w : Z -> Z) (e : event) : Z -> Z :=
  match fst e with Lookup _ => fun x => w x + one (snd e) x | Close n => more (-1) n w | _ => w end.

Definition owned (w : Z -> Z) (tr : list event) : Z -> Z := foldl owns w tr.

Definition cost (o : cache_op) : Z := match o with Insert p _ | Lookup p => zlen p + 1 | _ => 0 end.
Definition spent (tr : list event) : Z := foldl (fun s e => s + cost (fst e)) 0 tr.

Lemma cost_nonneg o : 0 <= cost o.
Proof. destruct o; cbn; lia. Qed.

Lemma spent_snoc tr o r : spent (tr ++ [(o, r)]) = spent tr + cost o.
Proof. unfold spent. by rewrite foldl_app. Qed.

Lemma fnode_get q f n : fnode q f = Some n <-> exists d, fget q f = Some (d, n).
Proof. unfold fnode. destruct (fget q f) as [[d m]|]; cbn; naive_solver. Qed.

Section programs.
Context (N : Z) (kept : Z -> bool).

Definition do_op (o : cache_op) : M dcache (option Z) :=
  match o with
  | Insert p n => _ ← insert N kept p n; mret None
  | Lookup p => lookup N p
  | Invalidate p => _ ← invalidate N kept p; mret None
  | Invalidate_prefix p => _ ← invalidate_prefix N kept p; mret None
  | Flush => _ ← flush N kept; mret None
  | Close n => _ ← vfs_close kept n; mret None
  end.

(** A caller inserts and closes nodes it has a reference to. *)
Definition permitted (w : Z -> Z) (o : cache_op) : Prop :=
  match o with Insert p n => 0 < w n /\ zlen p <= N | Close n => 0 < w n | _ => True end.

Inductive played (w : Z -> Z) (c0 : dcache) : list event -> dcache -> Prop :=
| played_nil : played w c0 [] c0
| played_snoc tr c o r c' : played w c0 tr c -> permitted (owned w tr) o -> do_op o c = Done r c' -> played w c0 (tr ++ [(o, r)]) c'.

(** What a lookup would find. *)
Definition probe (c : dcache) (path : list Z) : option Z := match lookup N path c with Done r _ => r | _ => None end.

(** The tree, the order of use, the free slots, and the references that are not
    the cache's own. *)
Record stands_for (c : dcache) (f : forest) (l fl : list Z) (ext : Z -> Z) : Prop := {
  sf_ok : dc_ok N c f l fl;
  sf_held : held kept (refs f ext) (nodes c)
}.

Definition room (ext : Z -> Z) (k : Z) : Prop := forall x, 0 <= ext x <= UINT64_MAX - N - 1 - k.

Hypothesis (HN : 0 <= N <= UINT64_MAX).

Lemma probe_ok c f l fl ext path : stands_for c f l fl ext -> room ext (zlen path) -> probe c path = looked_up path f.
Proof.
  intros [Hok Hh] Hr. pose proof (dentry_lookup_ok N kept HN path c f l fl ext Hok Hh Hr) as H. destruct (path_names path) as [cs b]. destruct H as (c' & ext' & E & _). unfold probe. by rewrite E.
Qed.

(** ** The invariant of programs *)

Definition tracks (f : forest) (A : gmap (list (list Z)) Z) : Prop := forall q n, fnode q f = Some n -> A !! q = Some n.

Lemma uncached_none ws nm f : cached ws f = false -> fget (ws ++ [nm]) f = None.
Proof.
  unfold cached. intros [H1%bool_decide_eq_false H2%bool_decide_eq_false]%orb_false_iff. apply fget_prefix; [|done]. destruct (fget ws f); [|done]. destruct H2. eauto.
Qed.

Lemma tracks_insert f f' ws o n l fl A :
  insert_effect f f' ws o n l fl -> tracks f A -> tracks f' (match o with Some nm => <[ws ++ [nm] := n]> A | None => A end).
Proof.
  intros He Ht q m [d Hq]%fnode_get. destruct o as [nm|]; cbn in He; [|subst f'; apply Ht, fnode_get; eauto]. destruct (cached ws f) eqn:Ec.
  - destruct He as (gone & [d0 Hins] & _). rewrite Hins in Hq. case_decide as Hq0; [injection Hq as -> ->; subst q; by rewrite lookup_insert_eq|]. rewrite lookup_insert_ne by done. apply Ht, fnode_get. exists d.
    destruct gone as [vp|]; [by case_decide|done].
  - subst f'. destruct (decide (q = ws ++ [nm])) as [->|]; [by rewrite uncached_none in Hq|]. rewrite lookup_insert_ne by done. apply Ht, fnode_get. eauto.
Qed.

Lemma tracks_forget f f' path A :
  (let '(cs, b) := path_names path in if b && negb (bool_decide (cs = [])) then without f f' cs else f' = f) -> tracks f A -> tracks f' (forget path A).
Proof.
  intros He Ht q m [d Hq]%fnode_get. unfold forget. destruct (path_names path) as [cs b]. destruct (b && negb (bool_decide (cs = []))); [|subst f'; apply Ht, fnode_get; eauto].
  rewrite He in Hq. case_decide; [done|]. apply map_lookup_filter_Some. split; [|done]. apply Ht, fnode_get. eauto.
Qed.

Lemma occ_room ns x (ext : Z -> Z) : taken ns ext x <= ext x + zlen ns /\ ext x <= taken ns ext x.
Proof. unfold taken. pose proof (occ_nonneg x (Some <$> ns)) as H. rewrite length_fmap in H. lia. Qed.

Lemma fnds_length cs g : (length (fnds cs g) <= length cs)%nat.
Proof. revert g. induction cs as [|c cs IH]; intros g; cbn; [lia|]. destruct (fchild c g) as [[[d nd] k]|]; cbn; [|lia]. specialize (IH k). lia. Qed.

Lemma insert_names_length path : zlen (fst (insert_names path)) <= zlen path.
Proof. unfold insert_names. pose proof (icomps_length (length path) (skip_slash path)). pose proof (skip_slash_length path). lia. Qed.

Definition tracked (c : dcache) (w : Z -> Z) (A : gmap (list (list Z)) Z) (k : Z) : Prop :=
  exists f l fl ext, stands_for c f l fl ext /\ tracks f A /\ forall x, 0 <= w x <= ext x /\ ext x <= k.

(** Every permitted operation returns and keeps the invariant. *)
Lemma op_tracked c w A k o :
  tracked c w A k -> permitted w o -> k + cost o <= UINT64_MAX - N - 1 ->
  exists r c', do_op o c = Done r c' /\ tracked c' (owns w (o, r)) (record A (o, r)) (k + cost o).
Proof.
  intros (f & l & fl & ext & [Hok Hh] & Ht & Hw) Hp Hk. pose proof (cost_nonneg o) as Hcost. assert (forall j, j <= cost o -> room ext j) as Hroom by (intros j Hj x; specialize (Hw x); lia). assert (forall x, 0 <= ext x) as He by (intros x; specialize (Hw x); lia).
  destruct o as [p n|p|p|p| |n]; unfold owns, record; cbn [do_op fst snd permitted cost] in *.
  - pose proof (insert_ok N kept HN p n c f l fl ext Hok Hh) as H. pose proof (insert_names_length p) as Hlen. destruct (insert_names p) as [ws o]. destruct Hp as [Hn Hpl]. destruct H as (c' & f' & l' & fl' & E & Hok' & Hh' & Hi); [apply Hroom; lia|specialize (Hw n); lia|done|].
    rewrite bind_run, E. eexists _, c'. split; [done|]. exists f', l', fl', (taken (fnds ws f) ext). split; [by split|]. split; [eapply tracks_insert in Hi; [|done]; by destruct o|]. intros x. specialize (Hw x). pose proof (occ_room (fnds ws f) x ext). pose proof (fnds_length ws f). cbn [fst] in Hlen. lia.
  - pose proof (dentry_lookup_ok N kept HN p c f l fl ext Hok Hh) as H. destruct (path_names p) as [cs b]. destruct H as (c' & ext' & E & Hok' & Hh' & B & _); [apply Hroom; lia|]. eexists _, c'. split; [done|].
    exists f, (touch (fids cs f) l), fl, ext'. split; [by split|]. split; [done|]. intros x. specialize (Hw x). specialize (B x). pose proof (one_bounds (looked_up p f) x). lia.
  - pose proof (invalidate_ok N kept HN p c f l fl ext Hok Hh He) as H. pose proof (tracks_forget f) as Hf. specialize (fun f' => Hf f' p A). destruct (path_names p) as [cs b]. destruct H as (c' & f' & l' & fl' & E & Hok' & Hh' & Hi). rewrite bind_run, E. eexists _, c'. split; [done|].
    exists f', l', fl', ext. split; [by split|]. split; [by apply Hf|]. intros x. specialize (Hw x). lia.
  - unfold invalidate_prefix. pose proof (invalidate_ok N kept HN p c f l fl ext Hok Hh He) as H. pose proof (tracks_forget f) as Hf. specialize (fun f' => Hf f' p A). destruct (path_names p) as [cs b]. destruct H as (c' & f' & l' & fl' & E & Hok' & Hh' & Hi). rewrite bind_run, E. eexists _, c'. split; [done|].
    exists f', l', fl', ext. split; [by split|]. split; [by apply Hf|]. intros x. specialize (Hw x). lia.
  - destruct (dentry_flush_ok N kept HN c f l fl ext Hok Hh He) as (c' & E & Hok' & Hh'). rewrite bind_run, E. eexists _, c'. split; [done|]. exists Nil, [], (seqZ 0 N), ext. split; [by split|]. split; [|intros x; specialize (Hw x); lia]. intros q m [d Hq]%fnode_get. by destruct q.
  - pose proof (Hw n) as Hwn. pose proof (occ_nonneg n (pnodes f)) as Ho. destruct (close_ok kept n (refs f ext) c Hh) as (c' & E & Hh' & O); [unfold refs; lia|]. rewrite bind_run, E. eexists _, c'. split; [done|].
    exists f, l, fl, (more (-1) n ext). split; [split; [by eapply only_nodes_ok|]; eapply held_ext; [|exact Hh']; intros x; unfold more, refs; case_decide; lia|]. split; [done|]. intros x. specialize (Hw x). unfold more. case_decide; [subst|]; lia.
Qed.

Lemma played_tracked w m tr c k :
  held kept w m -> (forall x, w x <= k) -> played w (init N m) tr c -> k + spent tr <= UINT64_MAX - N - 1 -> tracked c (owned w tr) (recorded tr) (k + spent tr).
Proof.
  intros Hm Hk. induction 1 as [|tr c o r c' Hp IH Hperm E]; intros Hs.
  - cbn. exists Nil, [], (seqZ 0 N), w. split; [split; [by apply dentry_init_ok|eapply held_ext; [|exact Hm]; intros x; unfold refs; cbn; lia]|]. split; [intros q n [d Hq]%fnode_get; by destruct q|]. intros x. specialize (Hk x). destruct (Hm x). lia.
  - rewrite spent_snoc in *. pose proof (cost_nonneg o). destruct (op_tracked c (owned w tr) (recorded tr) (k + spent tr) o) as (r' & c'' & E' & T); [apply IH; lia|done|lia|]. rewrite E in E'. injection E' as <- <-.
    unfold owned, recorded. rewrite !foldl_app. cbn [foldl]. by rewrite Z.add_assoc.
Qed.
End programs.

(** ** Names of a path *)

Lemma comps_icomps n p ws nm : (length p <= n)%nat -> icomps n p = (ws, Some nm) -> comps n p = (ws ++ [nm], true).
Proof.
  revert p ws. induction n as [|n IH]; intros p ws Hn; [done|]. destruct (decide (p = [])) as [->|Hp]; [done|]. rewrite icomps_step, comps_step by done. destruct (component p) as [name rest] eqn:Ec. destruct (bad_length name) eqn:Eb; [done|]. case_bool_decide as Hr.
  - intros [= <- <-]. subst rest. by destruct n.
  - pose proof (component_rest p name rest Ec Eb). destruct (icomps n (skip_slash rest)) as [ws' o] eqn:Ei. intros [= <- ->]. assert (length (skip_slash rest) <= n)%nat as Hl by lia. by rewrite (IH _ _ Hl Ei).
Qed.

Lemma insert_path_names p ws nm : insert_names p = (ws, Some nm) -> path_names p = (ws ++ [nm], true).
Proof. intros H. apply comps_icomps; [apply skip_slash_length|done]. Qed.

Lemma looked_up_view f f' q cs n (gone : option (list (list Z))) :
  cs <> [] -> inserted f f' cs n gone ->
  looked_up q f' = if decide (path_names q = (cs, true)) then Some n else if gone then (if decide (default [] gone `prefix_of` fst (path_names q)) then None else looked_up q f) else looked_up q f.
Proof.
  intros Hne [d Hins]. unfold looked_up, fnode. destruct (path_names q) as [qs b]. cbn [fst]. destruct b.
  - rewrite Hins. destruct (decide (qs = cs)) as [->|Hq]; [by rewrite decide_True|]. rewrite (decide_False (P := (qs, true) = (cs, true))) by congruence. destruct gone as [vp|]; cbn; [|done]. by case_decide.
  - rewrite decide_False by congruence. destruct gone; [|done]. by case_decide.
Qed.

(** ** The claims *)

(** C10. The dentry cache never answers with anything but what was last inserted.
    For every program of insertions, lookups, invalidations, flushes and closes
    that starts with an empty cache, in which callers only use nodes they own a
    reference to: the next operation returns, a lookup that finds a node finds
    the one last inserted at exactly that path with no invalidation of the path
    or of one above it and no flush since, and every node that a caller owns
    references to still exists and counts at least these. *)
Theorem dentry_coherent N kept w m tr c k o :
  0 <= N <= UINT64_MAX -> held kept w m -> (forall x, w x <= k) -> played N kept w (init N m) tr c ->
  permitted N (owned w tr) o -> k + spent tr + cost o <= UINT64_MAX - N - 1 ->
  exists r c', do_op N kept o c = Done r c' /\
    (forall p n, o = Lookup p -> r = Some n -> recorded tr !! fst (path_names p) = Some n /\ snd (path_names p) = true) /\
    (forall x, 0 < owned w (tr ++ [(o, r)]) x -> exists n, nodes c' !! x = Some n /\ (kept x = false -> owned w (tr ++ [(o, r)]) x <= n)).
Proof.
  intros HN Hm Hk Hp Hperm Hs. pose proof (cost_nonneg o). pose proof (played_tracked N kept HN w m tr c k Hm Hk Hp ltac:(lia)) as T. destruct (op_tracked N kept HN _ _ _ _ _ T Hperm Hs) as (r & c' & E & T').
  exists r, c'. split; [done|]. split.
  - intros p n -> ->. destruct T as (f & l & fl & ext & Hsf & Ht & Hw). cbn [do_op cost] in *. pose proof (probe_ok N kept HN c f l fl ext p Hsf) as Hpr. unfold probe in Hpr. rewrite E in Hpr.
    specialize (Hpr ltac:(intros x; specialize (Hw x); lia)). unfold looked_up in Hpr. destruct (path_names p) as [cs []]; [|done]. split; [by apply Ht|done].
  - destruct T' as (f & l & fl & ext & [_ Hh] & _ & Hw). unfold owned in *. rewrite foldl_app. cbn [foldl]. intros x Hx. specialize (Hw x). pose proof (occ_nonneg x (pnodes f)). destruct (Hh x) as [_ (r0 & Hr0 & Hc)]; [unfold refs; lia|].
    exists r0. split; [done|]. intros Hkx. rewrite (Hc Hkx). unfold refs. lia.
Qed.

(** An insertion below cached directories is found. Afterwards the path
    leads to the node, and every other path to what it led to before, except
    that in a full cache one entry is evicted with everything below it: the least
    recently used one of those that are not on the way to the new entry. *)
Theorem dentry_insert_found N kept c f l fl ext p ws nm n :
  0 <= N <= UINT64_MAX -> stands_for N kept c f l fl ext -> room N ext (2 * zlen p) -> 0 < ext n -> zlen p <= N -> insert_names p = (ws, Some nm) -> cached ws f = true ->
  exists c' f' l' fl' ext' gone, insert N kept p n c = Done tt c' /\ stands_for N kept c' f' l' fl' ext' /\ probe N c' p = Some n /\
    (forall q, room N ext (zlen p + zlen q) -> path_names q <> path_names p ->
       probe N c' q = match gone with Some vp => if decide (vp `prefix_of` fst (path_names q)) then None else probe N c q | None => probe N c q end) /\
    (forall vp, gone = Some vp -> fl = [] /\ probe N c p = None /\ exists v l1 nd, minus (fids ws f) l = v :: l1 /\ fget vp f = Some (v, nd)).
Proof.
  intros HN [Hok Hh] Hr Hn Hp Hi Hc. assert (room N ext (zlen p)) as Hr1 by (intros x; specialize (Hr x); lia).
  pose proof (insert_path_names p ws nm Hi) as Hpn. pose proof (insert_ok N kept HN p n c f l fl ext Hok Hh Hr1 Hn Hp) as H. rewrite Hi in H. destruct H as (c' & f' & l' & fl' & E & Hok' & Hh' & Heff). cbn in Heff. rewrite Hc in Heff. destruct Heff as (gone & Hins & Hg).
  assert (stands_for N kept c' f' l' fl' (taken (fnds ws f) ext)) as Hsf' by (by split). assert (stands_for N kept c f l fl ext) as Hsf by (by split).
  assert (forall j, room N ext (zlen p + j) -> room N (taken (fnds ws f) ext) j) as Hrt. { intros j Hj x. specialize (Hj x). pose proof (occ_room (fnds ws f) x ext). pose proof (fnds_length ws f). pose proof (insert_names_length p) as Hl. rewrite Hi in Hl. cbn [fst] in Hl. lia. }
  assert (ws ++ [nm] <> []) as Hne by (by destruct ws). exists c', f', l', fl', (taken (fnds ws f) ext), gone. split; [done|]. split; [done|]. split; [|split].
  - rewrite (probe_ok N kept HN c' _ _ _ _ p Hsf'), (looked_up_view f f' p _ n gone Hne Hins), decide_True; [done..|]. apply Hrt. intros x. specialize (Hr x). lia.
  - intros q Hq Hqp. rewrite (probe_ok N kept HN c' _ _ _ _ q Hsf'), (probe_ok N kept HN c _ _ _ _ q Hsf), (looked_up_view f f' q _ n gone Hne Hins), decide_False; [by destruct gone|congruence|intros x; specialize (Hq x); lia|by apply Hrt].
  - intros vp Hvp. destruct (Hg vp Hvp) as (Hfl & Hnew & Hv). split; [done|]. split; [|done]. rewrite (probe_ok N kept HN c _ _ _ _ p Hsf Hr1). unfold looked_up, fnode. by rewrite Hpn, Hnew.
Qed.

(** Invalidating a path makes exactly that path and the paths below it
    unknown; every other path leads where it led. The references that the dropped
    entries held are given back, and no others. *)
Theorem dentry_invalidate_exact N kept c f l fl ext p :
  0 <= N <= UINT64_MAX -> stands_for N kept c f l fl ext -> (forall x, 0 <= ext x) -> snd (path_names p) = true -> fst (path_names p) <> [] ->
  exists c' f' l' fl', invalidate N kept p c = Done tt c' /\ stands_for N kept c' f' l' fl' ext /\
    forall q, room N ext (zlen q) -> probe N c' q = if decide (fst (path_names p) `prefix_of` fst (path_names q)) then None else probe N c q.
Proof.
  intros HN [Hok Hh] He Hb Hne. pose proof (invalidate_ok N kept HN p c f l fl ext Hok Hh He) as H. destruct (path_names p) as [cs b]. cbn in *. subst b. destruct H as (c' & f' & l' & fl' & E & Hok' & Hh' & Hw). rewrite bool_decide_false in Hw by done. cbn in Hw.
  exists c', f', l', fl'. split; [done|]. split; [by split|]. intros q Hq. rewrite (probe_ok N kept HN c' f' l' fl' ext q), (probe_ok N kept HN c f l fl ext q) by (done || by split). unfold looked_up, fnode. destruct (path_names q) as [qs []]; cbn; [|by case_decide]. rewrite Hw. by case_decide.
Qed.

(** [insert] of a path with directories keeps the reference that the lookup
    of each directory took: after a flush, which gives all references of the cache
    back, the node of every directory on the way still counts one reference that
    nobody owns, so the node is never deleted. *)
Theorem insert_leaks_reference N kept c f l fl ext p ws nm n x :
  0 <= N <= UINT64_MAX -> stands_for N kept c f l fl ext -> room N ext (zlen p) -> 0 < ext n -> zlen p <= N -> insert_names p = (ws, Some nm) -> x ∈ fnds ws f -> kept x = false ->
  exists c', (_ ← insert N kept p n; flush N kept) c = Done tt c' /\ nodes c' !! x = Some (ext x + occ x (Some <$> fnds ws f)) /\ 0 < occ x (Some <$> fnds ws f).
Proof.
  intros HN [Hok Hh] Hr Hn Hp Hi Hx Hkx. pose proof (insert_ok N kept HN p n c f l fl ext Hok Hh Hr Hn Hp) as H. rewrite Hi in H. destruct H as (c1 & f1 & l1 & fl1 & E1 & Hok1 & Hh1 & _).
  assert (forall y, 0 <= taken (fnds ws f) ext y) as He by (intros y; specialize (Hr y); pose proof (occ_room (fnds ws f) y ext); lia). destruct (dentry_flush_ok N kept HN c1 f1 l1 fl1 _ Hok1 Hh1 He) as (c2 & E2 & _ & Hh2).
  assert (0 < occ x (Some <$> fnds ws f)) as Ho. { clear -Hx. induction (fnds ws f) as [|y ys IH]; [set_solver|]. cbn. pose proof (occ_nonneg x (Some <$> ys)). apply elem_of_cons in Hx as [->|Hx]; [rewrite bool_decide_true by done; lia|]. specialize (IH Hx). unfold fmap in *. case_bool_decide; lia. }
  exists c2. split; [by rewrite bind_run, E1|]. split; [|done]. specialize (Hr x). destruct (Hh2 x) as [_ (r & Er & Hc)]; [unfold refs, taken; cbn; lia|]. rewrite Er, (Hc Hkx). done.
Qed.

(** ** Concrete runs *)

(** Four slots; "/a", "/c", "/e" and "/g" fill them, in this order. *)
Definition demo_nodes : gmap Z Z := {[1 := 1; 2 := 1; 3 := 1; 4 := 1; 5 := 1]}.
Definition demo_w (x : Z) : Z := if decide (1 <= x <= 5) then 1 else 0.
Definition slash (b : Z) : list Z := [SLASH; b].
Definition demo_ops : M dcache unit := for_each [(97, 1); (99, 2); (101, 3); (103, 4)] (fun x => insert 4 (fun _ => false) (slash (fst x)) (snd x)).
Definition demo_cache : dcache := match demo_ops (init 4 demo_nodes) with Done _ c => c | _ => init 4 ∅ end.
Definition demo_tree : forest := Node 3 [103] 4 Nil (Node 2 [101] 3 Nil (Node 1 [99] 2 Nil (Node 0 [97] 1 Nil Nil))).

(** After the first insertion, and a lookup of it. *)
Definition demo_first : dcache := match insert 4 (fun _ => false) (slash 97) 1 (init 4 demo_nodes) with Done _ c => c | _ => init 4 ∅ end.

Lemma demo_looked_up : probe 4 demo_first (slash 97) = Some 1.
Proof. vm_compute. reflexivity. Qed.

Lemma demo_first_run : do_op 4 (fun _ => false) (Insert (slash 97) 1) (init 4 demo_nodes) = Done None demo_first.
Proof. vm_compute. reflexivity. Qed.

Lemma demo_second :
  let c := match insert 4 (fun _ => false) [SLASH; 97; SLASH; 98] 5 demo_cache with Done _ c => c | _ => init 4 ∅ end in probe 4 c (slash 99) = None /\ probe 4 c (slash 97) = Some 1.
Proof. vm_compute. split; reflexivity. Qed.

Lemma demo_w_held : held (fun _ => false) demo_w demo_nodes.
Proof. intros n. unfold demo_w. case_decide as H; [|split; [unfold UINT64_MAX; lia|lia]]. split; [unfold UINT64_MAX; lia|]. intros _. assert (n = 1 \/ n = 2 \/ n = 3 \/ n = 4 \/ n = 5) as [->|[->|[->|[->| ->]]]] by lia; by exists 1. Qed.

Lemma demo_stands : stands_for 4 (fun _ => false) demo_cache demo_tree [0; 1; 2; 3] [] demo_w.
Proof.
  split.
  - split; try (vm_compute; done).
    + vm_compute. repeat (split; [done|]; eexists _, _; split; [done|]; split; [done|]). done.
    + cbn. unfold bad_length. split_and!; try done; set_solver.
    + change (ids demo_tree) with (reverse [0; 1; 2; 3]). by rewrite reverse_Permutation.
    + intros x Hx. set_solver.
  - intros n. unfold refs. destruct (decide (1 <= n <= 5)) as [H|H].
    + assert (n = 1 \/ n = 2 \/ n = 3 \/ n = 4 \/ n = 5) as [->|[->|[->|[->| ->]]]] by lia; (split; [vm_compute; split; discriminate|]); intros _; (eexists; split; [vm_compute; reflexivity|done]).
    + unfold demo_w. rewrite decide_False by done. cbn. rewrite !bool_decide_false by (intros [= ?]; lia). split; [unfold UINT64_MAX; lia|]. cbn. lia.
Qed.

Lemma demo_room k : k <= 100 -> room 4 demo_w k.
Proof. intros Hk x. unfold demo_w, UINT64_MAX. case_decide; lia. Qed.

Lemma dentry_coherent_witness :
  exists tr c r c', played 4 (fun _ => false) demo_w (init 4 demo_nodes) tr c /\ do_op 4 (fun _ => false) (Lookup (slash 97)) c = Done r c' /\ r = Some 1 /\ recorded tr !! fst (path_names (slash 97)) = Some 1.
Proof.
  assert (played 4 (fun _ => false) demo_w (init 4 demo_nodes) ([] ++ [(Insert (slash 97) 1, None)]) demo_first) as Hp.
  { eapply played_snoc; [apply played_nil|split; [done|by vm_compute]|exact demo_first_run]. }
  destruct (dentry_coherent 4 (fun _ => false) demo_w demo_nodes _ _ 1 (Lookup (slash 97)) ltac:(unfold UINT64_MAX; lia) demo_w_held ltac:(intros x; unfold demo_w; case_decide; lia) Hp I ltac:(vm_compute; discriminate)) as (r & c' & E & Hr & _).
  assert (r = Some 1) as -> by (pose proof demo_looked_up as Hl; unfold probe in Hl; cbn [do_op] in E; by rewrite E in Hl). destruct (Hr (slash 97) 1 eq_refl eq_refl) as [Hrec _]. eexists _, demo_first, (Some 1), c'. split; [exact Hp|]. split; [exact E|]. split; [reflexivity|exact Hrec].
Defined.

Lemma dentry_insert_found_witness :
  exists c', insert 4 (fun _ => false) [SLASH; 97; SLASH; 98] 5 demo_cache = Done tt c' /\ probe 4 c' [SLASH; 97; SLASH; 98] = Some 5 /\ probe 4 c' (slash 99) = None /\ probe 4 c' (slash 97) = Some 1.
Proof.
  destruct (dentry_insert_found 4 (fun _ => false) demo_cache demo_tree [0; 1; 2; 3] [] demo_w [SLASH; 97; SLASH; 98] [[97]] [98] 5 ltac:(unfold UINT64_MAX; lia) demo_stands (demo_room 8 ltac:(lia)) ltac:(by vm_compute) ltac:(by vm_compute) ltac:(by vm_compute) ltac:(by vm_compute)) as
    (c' & f' & l' & fl' & ext' & gone & E & _ & Hp & _).
  pose proof demo_second as (H1 & H2). rewrite E in H1, H2. exists c'. split; [exact E|]. split; [exact Hp|]. split; [exact H1|exact H2].
Defined.

Lemma dentry_invalidate_exact_witness :
  exists c', invalidate 4 (fun _ => false) (slash 99) demo_cache = Done tt c' /\ probe 4 c' (slash 99) = None /\ probe 4 c' (slash 101) = Some 3.
Proof.
  destruct (dentry_invalidate_exact 4 (fun _ => false) demo_cache demo_tree [0; 1; 2; 3] [] demo_w (slash 99) ltac:(unfold UINT64_MAX; lia) demo_stands ltac:(intros x; unfold demo_w; case_decide; lia) ltac:(by vm_compute) ltac:(by vm_compute)) as (c' & f' & l' & fl' & E & _ & Hq).
  exists c'. split; [exact E|]. split; [rewrite (Hq (slash 99) (demo_room 2 ltac:(lia)))|rewrite (Hq (slash 101) (demo_room 2 ltac:(lia)))]; vm_compute; reflexivity.
Defined.

Lemma insert_leaks_reference_witness :
  exists c', (_ ← insert 4 (fun _ => false) [SLASH; 97; SLASH; 98] 5; flush 4 (fun _ => false)) demo_cache = Done tt c' /\ nodes c' !! 1 = Some 2.
Proof.
  destruct (insert_leaks_reference 4 (fun _ => false) demo_cache demo_tree [0; 1; 2; 3] [] demo_w [SLASH; 97; SLASH; 98] [[97]] [98] 5 1 ltac:(unfold UINT64_MAX; lia) demo_stands (demo_room 4 ltac:(lia)) ltac:(by vm_compute) ltac:(by vm_compute) ltac:(by vm_compute) ltac:(apply list_elem_of_singleton; by vm_compute) eq_refl) as (c' & E & Hn & _).
  exists c'. split; [exact E|]. etrans; [exact Hn|]. vm_compute. reflexivity.
Defined.
