(* ===== verification/KPath.v ===== *)
(** * lib/path.cpp and the strings of the kernel library it is used with

    Arrays of characters are lists of bytes of a fixed length; a string in one
    ends in front of the first zero. A string that is only read is the list of its
    bytes, without the terminator. Writing outside an array is undefined. *)

From Stdlib Require Import ZArith Lia.
From stdpp Require Import base tactics gmap numbers list.
From S2P Require Import Prelude.
From S2P Require Import Memory.
From S2P Require Import Slices.
From S2P Require Import Dentry.

Definition DOT : Z := 46.

(** ** Arrays of characters *)

(** The string that an array holds. *)
Fixpoint cstr (r : list Z) : option (list Z) :=
  match r with
  | [] => None
  | b :: r' => if b =? 0 then Some [] else s ← cstr r'; Some (b :: s)
  end.

(** [b[i] = x] and [memcpy(b + i, s, n)]. *)
Definition put_at (b : list Z) (i x : Z) : option (list Z) := if (0 <=? i) && (i <? zlen b) then Some (<[Z.to_nat i := x]> b) else None.
Definition copy_at (b : list Z) (i : Z) (s : list Z) : option (list Z) := if (0 <=? i) && (i + zlen s <=? zlen b) then Some (splice i s b) else None.

(** ** lib/cstr.cpp *)

Fixpoint strcmp (a b : list Z) : Z :=
  match a, b with
  | [], [] => 0
  | [], y :: _ => - y
  | x :: _, [] => x
  | x :: a', y :: b' => if x =? y then strcmp a' b' else x - y
  end.

Fixpoint strncmp (a b : list Z) (n : nat) : Z :=
  match n with
  | O => 0
  | S n' =>
      match a, b with
      | [], [] => 0
      | [], y :: _ => - y
      | x :: _, [] => x
      | x :: a', y :: b' => if x =? y then strncmp a' b' n' else x - y
      end
  end.

(** [strncpy]: up to [n] bytes, and zeros behind a shorter string. *)
Definition strncpy (dest src : list Z) (n : Z) : option (list Z) :=
  let s := take (Z.to_nat n) src in copy_at dest 0 (s ++ replicate (Z.to_nat n - length s) 0).

(** [strncat] of this library: [max] is the room of the whole destination, and
    not, as in C, the number of bytes that are appended. *)
Definition strncat (dest src : list Z) (max : Z) : list Z :=
  if max =? 0 then dest
  else if max <=? zlen dest then dest
  else dest ++ take (Z.to_nat (max - 1 - zlen dest)) src.

(** [buf_ctx] and [buf_write]: characters beyond the room are dropped. *)
Definition buf_write (max : Z) (ctx : option (list Z * Z)) (c : Z) : option (list Z * Z) :=
  x ← ctx;
  let '(b, pos) := (x : list Z * Z) in
  if pos <? max then b' ← put_at b pos c; Some (b', pos + 1) else Some (b, pos).

(** [snprintf] with a format of [%s] directives and plain characters: the pieces
    are written one after the other. *)
Definition snprintf (buffer : list Z) (size : Z) (pieces : list (list Z)) : option (list Z) :=
  if size =? 0 then Some buffer
  else
    x ← foldl (foldl (buf_write (size - 1))) (Some (buffer, 0)) pieces;
    let '(b, pos) := (x : list Z * Z) in put_at b pos 0.

(** ** split_path *)

(** [char components[][32]] *)
Notation rows := (list (list Z)).

Definition row_update (f : list Z -> option (list Z)) (i : Z) : M rows unit := fun c =>
  if i <? 0 then Undef
  else match c !! Z.to_nat i with
       | Some r => match f r with Some r' => Done tt (<[Z.to_nat i := r']> c) | None => Undef end
       | None => Undef
       end.
Definition row_put (i j x : Z) : M rows unit := row_update (fun r => put_at r j x) i.
Definition row_str (i : Z) : M rows (list Z) := fun c =>
  if i <? 0 then Undef
  else match c !! Z.to_nat i with Some r => match cstr r with Some s => Done s c | None => Undef end | None => Undef end.

(** [while ( *p == '/') p++] *)
Fixpoint skip_slashes (p : list Z) : list Z := match p with b :: p' => if b =? SLASH then skip_slashes p' else p | [] => [] end.

(** A component ends: it is dropped, takes the one before it away, or stays. *)
Definition end_component (count comp_pos : Z) : M rows Z :=
  _ ← row_put count comp_pos 0;
  s ← row_str count;
  if strcmp s [DOT] =? 0 then mret count
  else if strcmp s [DOT; DOT] =? 0 then mret (if 0 <? count then count - 1 else count)
  else mret (count + 1).

Definition split_path (path : list Z) (max_components : Z) : M rows Z :=
  x ← while (S (length path)) (fun '(p, count, comp_pos) =>
    match (p : list Z) with
    | [] => mret (inr (count, comp_pos))
    | c :: p' =>
        if max_components <=? count then mret (inr (count, comp_pos))
        else if c =? SLASH then
          count ← (if 0 <? comp_pos then end_component count comp_pos else mret count);
          mret (inl (skip_slashes p, count, 0))
        else
          comp_pos ← (if comp_pos <? 31 then _ ← row_put count comp_pos c; mret (comp_pos + 1) else mret comp_pos);
          mret (inl (p', count, comp_pos))
    end) (skip_slashes path, 0, 0);
  let '(count, comp_pos) := (x : Z * Z) in
  if (0 <? comp_pos) && (count <? max_components) then end_component count comp_pos else mret count.

(** ** normalize_path *)

(** [char segments[16][64]] and the output. *)
Record nbuf := { segments : rows; out : list Z }.

Definition seg {A} (m : M rows A) : M nbuf A := zoom segments (fun r n => {| segments := r; out := out n |}) m.
Definition out_update (f : list Z -> option (list Z)) : M nbuf unit := fun n =>
  match f (out n) with Some o => Done tt {| segments := segments n; out := o |} | None => Undef end.

Definition collect_segments (path : list Z) : M nbuf Z :=
  while (S (length path)) (fun '(p, depth) =>
    match skip_slashes p with
    | [] => mret (inr depth)
    | p =>
        let '(name, rest) := component p in
        if bool_decide (name = [DOT]) then mret (inl (rest, depth))
        else if bool_decide (name = [DOT; DOT]) then mret (inl (rest, if 0 <? depth then depth - 1 else depth))
        else if (depth <? 16) && (zlen name <? 64) then
          _ ← seg (row_update (fun r => copy_at r 0 name) depth);
          _ ← seg (row_put depth (zlen name) 0);
          mret (inl (rest, depth + 1))
        else mret (inl (rest, depth))
    end) (path, 0).

Definition write_segments (depth out_size : Z) : M nbuf Z :=
  while (S (Z.to_nat depth)) (fun '(i, pos) =>
    if i <? depth then
      pos ← (if 0 <? i then _ ← out_update (fun o => put_at o pos SLASH); mret (pos + 1) else mret pos);
      s ← seg (row_str i);
      if out_size <=? pos + zlen s + 2 then mret (inr pos)
      else _ ← out_update (fun o => copy_at o pos s); mret (inl (i + 1, pos + zlen s))
    else mret (inr pos)) (0, 1).

Definition normalize_path (path : list Z) (out_size : Z) : M nbuf unit :=
  depth ← collect_segments path;
  _ ← out_update (fun o => put_at o 0 SLASH);
  pos ← write_segments depth out_size;
  out_update (fun o => put_at o pos 0).

(** ** strip_trailing_slash *)

Fixpoint strip_loop (n : nat) (path : list Z) : list Z :=
  match n with
  | O => path
  | S n' => if (1 <? zlen path) && bool_decide (last path = Some SLASH) then strip_loop n' (take (length path - 1) path) else path
  end.
Definition strip_trailing_slash (path : list Z) : list Z := strip_loop (length path) path.
