(* ===== verification/KPathFacts.v ===== *)
(** * Paths of the kernel: what splitting and normalizing do

    [names] splits a path at its slashes. [split_path] and [normalize_path] both
    keep a stack of names; the references here keep it as a list. *)

From Stdlib Require Import ZArith Lia.
From stdpp Require Import base tactics gmap numbers list.
From S2P Require Import Prelude.
From S2P Require Import Memory.
From S2P Require Import Slices.
From S2P Require Import Dentry.
From S2P Require Import KPath.

(** ** Strings in arrays *)

Lemma cstr_app s tl : 0 ∉ s -> cstr (s ++ 0 :: tl) = Some s.
Proof. induction s as [|b s IH]; cbn; [done|]. intros [Hb Hs]%not_elem_of_cons. rewrite (proj2 (Z.eqb_neq _ _)) by congruence. by rewrite IH. Qed.

Lemma cstr_inv r s : cstr r = Some s -> 0 ∉ s /\ exists tl, r = s ++ 0 :: tl.
Proof.
  revert s. induction r as [|b r IH]; cbn; [done|]. intros s. destruct (Z.eqb_spec b 0) as [->|Hb]; [intros [= <-]; split; [set_solver|by exists r]|].
  destruct (cstr r) as [s'|]; cbn; [|done]. intros [= <-]. destruct (IH s' eq_refl) as (H & tl & ->). split; [set_solver|by exists tl].
Qed.

Lemma strcmp_zero a b : 0 ∉ a -> 0 ∉ b -> strcmp a b = 0 <-> a = b.
Proof.
  revert b. induction a as [|x a IH]; intros [|y b] Ha Hb; cbn; [done| | |].
  - apply not_elem_of_cons in Hb as [Hb _]. split; [lia|done].
  - apply not_elem_of_cons in Ha as [Ha _]. split; [lia|done].
  - apply not_elem_of_cons in Ha as [_ Ha]. apply not_elem_of_cons in Hb as [_ Hb]. destruct (Z.eqb_spec x y) as [->|Hxy]; [rewrite IH by done; split; [by intros ->|by intros [= ->]]|]. split; [lia|congruence].
Qed.

Lemma strncmp_zero a b n : 0 ∉ a -> 0 ∉ b -> strncmp a b n = 0 <-> take n a = take n b.
Proof.
  revert a b. induction n as [|n IH]; intros [|x a] [|y b] Ha Hb; cbn; try done.
  - apply not_elem_of_cons in Hb as [Hb _]. split; [lia|done].
  - apply not_elem_of_cons in Ha as [Ha _]. split; [lia|done].
  - apply not_elem_of_cons in Ha as [_ Ha]. apply not_elem_of_cons in Hb as [_ Hb]. destruct (Z.eqb_spec x y) as [->|Hxy]; [rewrite IH by done; split; [by intros ->|by intros [= ->]]|]. split; [lia|congruence].
Qed.

(** Writing at the end of what has been written. *)
Lemma put_next s x y tl : put_at (s ++ y :: tl) (zlen s) x = Some (s ++ x :: tl).
Proof.
  unfold put_at. rewrite length_app. cbn [length]. rewrite (proj2 (Z.leb_le _ _)), (proj2 (Z.ltb_lt _ _)) by lia. cbn [andb]. rewrite Nat2Z.id. f_equal. by rewrite insert_app_r_alt, Nat.sub_diag by lia.
Qed.

Lemma copy_next w s tl : zlen s <= zlen tl -> copy_at (w ++ tl) (zlen w) s = Some (w ++ s ++ drop (length s) tl).
Proof.
  intros H. unfold copy_at. rewrite length_app. rewrite (proj2 (Z.leb_le _ _)), (proj2 (Z.leb_le _ _)) by lia. cbn [andb]. f_equal. unfold splice. rewrite Nat2Z.id, take_app_length. do 2 f_equal.
  rewrite drop_app_ge by lia. f_equal. lia.
Qed.

(** ** Rows *)

(** [k] rows of [w] bytes that hold the strings [st], and anything behind them. *)
Record rows_ok (w k : nat) (c : rows) (st : list (list Z)) : Prop := {
  ro_count : length c = k;
  ro_width i r : c !! i = Some r -> length r = w;
  ro_str i s : st !! i = Some s -> exists r, c !! i = Some r /\ cstr r = Some s
}.

Lemma row_update_ok w k c st i f r r' :
  rows_ok w k c st -> i = zlen st -> c !! length st = Some r -> f r = Some r' -> length r' = w ->
  row_update f i c = Done tt (<[length st := r']> c) /\ rows_ok w k (<[length st := r']> c) st /\ <[length st := r']> c !! length st = Some r'.
Proof.
  intros [H1 H2 H3] -> Hr Hf Hw. unfold row_update. rewrite (proj2 (Z.ltb_ge _ _)) by lia. rewrite Nat2Z.id, Hr, Hf. split; [done|]. pose proof (lookup_lt_Some _ _ _ Hr) as Hlt. split; [|by apply list_lookup_insert_eq].
  split; [by rewrite length_insert|intros j x; destruct (decide (j = length st)) as [->|Hj]; [rewrite list_lookup_insert_eq by done; congruence|rewrite list_lookup_insert_ne by done; apply H2]|]. intros j s Hj. pose proof (lookup_lt_Some _ _ _ Hj). destruct (H3 j s Hj) as (rj & Hrj & Hs). exists rj. by rewrite list_lookup_insert_ne by lia.
Qed.

(** ** Names *)

Fixpoint words (cur p : list Z) : list (list Z) :=
  match p with
  | [] => if bool_decide (cur = []) then [] else [cur]
  | b :: p' => if b =? SLASH then (if bool_decide (cur = []) then words [] p' else cur :: words [] p') else words (cur ++ [b]) p'
  end.
Definition names (p : list Z) : list (list Z) := words [] p.

Lemma words_slashes p : words [] (skip_slashes p) = words [] p.
Proof. induction p as [|b p IH]; [done|]. cbn [skip_slashes]. destruct (b =? SLASH) eqn:E; [|done]. rewrite IH. cbn [words]. by rewrite E. Qed.

Lemma words_component cur p name rest :
  component p = (name, rest) -> words cur p = match cur ++ name with [] => words [] rest | nm => nm :: words [] rest end.
Proof.
  revert cur name rest. induction p as [|b p IH]; intros cur name rest; cbn [component].
  - intros [= <- <-]. rewrite app_nil_r. cbn. by destruct cur.
  - destruct (b =? SLASH) eqn:E; [intros [= <- <-]; rewrite app_nil_r; cbn [words]; rewrite E; by destruct cur|]. destruct (component p) as [c r] eqn:Ec. intros [= <- <-]. cbn [words]. rewrite E, (IH (cur ++ [b]) c r eq_refl), <- (assoc app). done.
Qed.

Lemma component_slash p : SLASH ∉ (component p).1.
Proof. induction p as [|b p IH]; cbn [component]; [set_solver|]. destruct (Z.eqb_spec b SLASH); [set_solver|]. destruct (component p). cbn in *. set_solver. Qed.

Lemma component_nonempty p name rest : skip_slashes p = p -> p <> [] -> component p = (name, rest) -> name <> [] /\ (length rest < length p)%nat.
Proof.
  destruct p as [|b p]; [done|]. cbn [skip_slashes component]. destruct (b =? SLASH) eqn:E.
  - intros Hs. exfalso. assert (forall q, (length (skip_slashes q) <= length q)%nat) as Hl by (induction q as [|x q IH]; cbn; [done|]; case_match; cbn; lia). specialize (Hl p). rewrite Hs in Hl. cbn in Hl. lia.
  - intros _ _. destruct (component p) as [c r] eqn:Ec. intros [= <- <-]. split; [done|]. assert (forall q, (length (component q).2 <= length q)%nat) as Hl by (induction q as [|x q IH]; cbn; [done|]; case_match; cbn; [lia|]; destruct (component q); cbn in *; lia).
    specialize (Hl p). rewrite Ec in Hl. cbn in *. lia.
Qed.

Lemma skip_slashes_idem p : skip_slashes (skip_slashes p) = skip_slashes p.
Proof. induction p as [|b p IH]; cbn; [done|]. destruct (b =? SLASH) eqn:E; [done|]. cbn. by rewrite E. Qed.

Lemma skip_slashes_length p : (length (skip_slashes p) <= length p)%nat.
Proof. induction p as [|b p IH]; cbn; [done|]. case_match; cbn; lia. Qed.

Lemma skip_slashes_zero p : 0 ∉ p -> 0 ∉ skip_slashes p.
Proof. induction p as [|x p IH]; cbn; [done|]. intros [? ?]%not_elem_of_cons. case_match; [auto|set_solver]. Qed.

(** The bytes of a path are those of its names and slashes. *)
Lemma words_elem cur p nm x : nm ∈ words cur p -> x ∈ nm -> x ∈ cur \/ x ∈ p.
Proof.
  revert cur. induction p as [|b p IH]; intros cur; cbn [words].
  - case_bool_decide; [set_solver|]. intros ->%list_elem_of_singleton. auto.
  - case_match; [case_bool_decide|].
    + intros H1 H2. destruct (IH [] H1 H2); set_solver.
    + intros [->|H1]%elem_of_cons H2; [auto|]. destruct (IH [] H1 H2); set_solver.
    + intros H1 H2. destruct (IH _ H1 H2); set_solver.
Qed.

Lemma words_plain cur p nm : SLASH ∉ cur -> nm ∈ words cur p -> nm <> [] /\ SLASH ∉ nm.
Proof.
  revert cur. induction p as [|b p IH]; intros cur Hc; cbn [words].
  - case_bool_decide; [set_solver|]. intros ->%list_elem_of_singleton. done.
  - destruct (Z.eqb_spec b SLASH); [case_bool_decide|].
    + apply IH. set_solver.
    + intros [->|H1]%elem_of_cons; [done|]. apply (IH []); set_solver.
    + apply IH. set_solver.
Qed.

(** A name in front of a slash. *)
Lemma words_app cur nm p : SLASH ∉ nm -> words cur (nm ++ SLASH :: p) = if bool_decide (cur ++ nm = []) then words [] p else (cur ++ nm) :: words [] p.
Proof.
  revert cur. induction nm as [|b nm IH]; intros cur Hs; cbn [app words].
  - rewrite app_nil_r, Z.eqb_refl. done.
  - apply not_elem_of_cons in Hs as [Hb Hs]. rewrite (proj2 (Z.eqb_neq _ _)) by congruence. rewrite IH by done. by rewrite <- app_assoc.
Qed.

Lemma words_last cur nm : SLASH ∉ nm -> words cur nm = if bool_decide (cur ++ nm = []) then [] else [cur ++ nm].
Proof.
  revert cur. induction nm as [|b nm IH]; intros cur Hs; cbn [words]; [by rewrite app_nil_r|]. apply not_elem_of_cons in Hs as [Hb Hs]. rewrite (proj2 (Z.eqb_neq _ _)) by congruence. rewrite IH by done. by rewrite <- app_assoc.
Qed.

(** ** The stack of names *)

Definition pop (st : list (list Z)) : list (list Z) := take (length st - 1) st.

Definition push_name (st : list (list Z)) (nm : list Z) : list (list Z) :=
  if bool_decide (nm = [DOT]) then st else if bool_decide (nm = [DOT; DOT]) then pop st else st ++ [nm].

(** [split_path] cuts names at 31 bytes and stops with the last row. *)
Fixpoint split_ref (max : nat) (st ns : list (list Z)) : list (list Z) :=
  match ns with
  | [] => st
  | nm :: ns' => if (max <=? length st)%nat then st else split_ref max (push_name st (take 31 nm)) ns'
  end.

Lemma pop_length st : zlen (pop st) = if 0 <? zlen st then zlen st - 1 else zlen st.
Proof. unfold pop. rewrite length_take. destruct (Z.ltb_spec 0 (zlen st)); lia. Qed.

Lemma split_ref_full max st ns : (max <= length st)%nat -> split_ref max st ns = st.
Proof. intros H. destruct ns; cbn; [done|]. by rewrite (proj2 (Nat.leb_le _ _)). Qed.

Lemma rows_prefix w k c st n : rows_ok w k c st -> rows_ok w k c (take n st).
Proof. intros [H1 H2 H3]. split; [done|done|]. intros i s [Hi _]%lookup_take_Some. by apply H3. Qed.

Lemma rows_snoc w k c st r s : rows_ok w k c st -> c !! length st = Some r -> cstr r = Some s -> rows_ok w k c (st ++ [s]).
Proof.
  intros [H1 H2 H3] Hr Hs. split; [done|done|]. intros i x [Hi|[Hi Hx]]%lookup_app_Some; [by apply H3|]. apply list_lookup_singleton_Some in Hx as [Hx ->]. replace i with (length st) by lia. eauto.
Qed.

Lemma row_get w k c st : rows_ok w k c st -> (length st < k)%nat -> exists r, c !! length st = Some r /\ length r = w.
Proof. intros [H1 H2 H3] Hk. destruct (lookup_lt_is_Some_2 c (length st)) as [r Hr]; [lia|]. eauto. Qed.

(** The row behind the stack holds the beginning of a name. *)
Definition open_row (c : rows) (st : list (list Z)) (cur : list Z) : Prop := exists y tl, c !! length st = Some (cur ++ y :: tl).

Lemma end_component_ok k c st cur :
  rows_ok 32 k c st -> open_row c st cur -> 0 ∉ cur -> exists c', end_component (zlen st) (zlen cur) c = Done (zlen (push_name st cur)) c' /\ rows_ok 32 k c' (push_name st cur).
Proof.
  intros Hok (y & tl & Hr) H0. pose proof (ro_width _ _ _ _ Hok _ _ Hr) as Hw. unfold end_component, row_put. rewrite bind_run.
  destruct (row_update_ok 32 k c st (zlen st) (fun r => put_at r (zlen cur) 0) _ (cur ++ 0 :: tl) Hok eq_refl Hr (put_next cur 0 y tl)) as (-> & Hok1 & Hr1); [rewrite length_app in *; done|]. set (c1 := <[_ := _]> c) in *. rewrite bind_run.
  unfold row_str at 1. rewrite (proj2 (Z.ltb_ge _ _)) by lia. rewrite Nat2Z.id, Hr1, cstr_app by done. exists c1. unfold push_name.
  assert (0 ∉ [DOT] /\ 0 ∉ [DOT; DOT]) as [D1 D2] by (unfold DOT; set_solver). destruct (Z.eqb_spec (strcmp cur [DOT]) 0) as [E1|E1]; rewrite strcmp_zero in E1 by done; [by rewrite bool_decide_true|]. rewrite bool_decide_false by done.
  destruct (Z.eqb_spec (strcmp cur [DOT; DOT]) 0) as [E2|E2]; rewrite strcmp_zero in E2 by done; [rewrite bool_decide_true by done|rewrite bool_decide_false by done].
  - split; [by rewrite pop_length|by apply rows_prefix].
  - split; [rewrite length_app; cbn; by rewrite Nat2Z.inj_add|]. by eapply rows_snoc, cstr_app.
Qed.

Definition split_body (max : Z) := (fun '(p, count, comp_pos) =>
    match (p : list Z) with
    | [] => mret (inr (count, comp_pos))
    | c :: p' =>
        if max <=? count then mret (inr (count, comp_pos))
        else if c =? SLASH then
          count ← (if 0 <? comp_pos then end_component count comp_pos else mret count);
          mret (inl (skip_slashes p, count, 0))
        else
          comp_pos ← (if comp_pos <? 31 then _ ← row_put count comp_pos c; mret (comp_pos + 1) else mret comp_pos);
          mret (inl (p', count, comp_pos))
    end) : list Z * Z * Z -> M rows (list Z * Z * Z + Z * Z).

Definition split_end (max : Z) (x : Z * Z) : M rows Z := let '(count, comp_pos) := x in if (0 <? comp_pos) && (count <? max) then end_component count comp_pos else mret count.

(** The row behind the stack, with nothing written yet. *)
Lemma open_empty k c st : rows_ok 32 k c st -> (length st < k)%nat -> open_row c st [].
Proof. intros Hok Hk. destruct (row_get _ _ _ _ Hok Hk) as ([|y tl] & Hr & Hw); [done|]. by exists y, tl. Qed.

Lemma take_snoc n (w : list Z) b : take n (w ++ [b]) = if (length w <? n)%nat then take n w ++ [b] else take n w.
Proof. destruct (Nat.ltb_spec (length w) n); [|by rewrite take_app_le]. rewrite (take_ge w), take_ge by (rewrite ?length_app; cbn; lia). done. Qed.

Lemma take_zero n (s : list Z) : 0 ∉ s -> 0 ∉ take n s.
Proof. intros Hs H. apply Hs. rewrite <- (take_drop n s). set_solver. Qed.

Lemma split_loop k n : forall p w c st,
  (length p < n)%nat -> 0 ∉ w -> 0 ∉ p -> rows_ok 32 k c st -> (w <> [] -> (length st < k)%nat) -> ((length st < k)%nat -> open_row c st (take 31 w)) ->
  exists c', (x ← while n (split_body (Z.of_nat k)) (p, zlen st, zlen (take 31 w)); split_end (Z.of_nat k) x) c = Done (zlen (split_ref k st (words w p))) c' /\ rows_ok 32 k c' (split_ref k st (words w p)).
Proof.
  induction n as [|n IH]; intros p w c st Hn Hw Hp Hok Hk Hop; [lia|]. rewrite bind_run, while_S. pose proof (take_zero 31 w Hw) as Hw31. destruct p as [|b p]; cbn [split_body].
  - rewrite ret_run. cbn [split_end words]. case_bool_decide as He.
    + subst w. cbn. by exists c.
    + specialize (Hk He). rewrite (proj2 (Z.ltb_lt 0 _)) by (destruct w; [done|cbn; lia]). rewrite (proj2 (Z.ltb_lt _ _)) by lia. cbn [andb split_ref]. rewrite (proj2 (Nat.leb_gt _ _)) by done. by apply end_component_ok; [|apply Hop|].
  - destruct (Z.leb_spec (Z.of_nat k) (zlen st)) as [Hfull|Hfull].
    { rewrite ret_run. assert (w = []) as -> by (destruct w; [done|]; specialize (Hk ltac:(done)); lia). cbn [split_end]. rewrite split_ref_full by lia. by exists c. }
    apply not_elem_of_cons in Hp as [Hb Hp]. destruct (Z.eqb_spec b SLASH) as [->|Hbs].
    + assert (exists c1, (if 0 <? zlen (take 31 w) then end_component (zlen st) (zlen (take 31 w)) else mret (zlen st)) c = Done (zlen (if bool_decide (w = []) then st else push_name st (take 31 w))) c1 /\ rows_ok 32 k c1 (if bool_decide (w = []) then st else push_name st (take 31 w))) as (c1 & E1 & Hok1).
      { case_bool_decide as He; [subst w; by exists c|]. rewrite (proj2 (Z.ltb_lt 0 _)) by (destruct w; [done|cbn; lia]). apply end_component_ok; [done|apply Hop; lia|done]. }
      rewrite bind_run, E1, ret_run. set (st1 := if bool_decide (w = []) then _ else _) in *. specialize (IH (skip_slashes (SLASH :: p)) [] c1 st1). cbn [take length Z.of_nat] in IH. rewrite bind_run in IH.
      assert (split_ref k st1 (words [] (skip_slashes (SLASH :: p))) = split_ref k st (words w (SLASH :: p))) as Hst.
      { rewrite words_slashes. cbn [words]. rewrite Z.eqb_refl. unfold st1. cbn [bool_decide]. case_bool_decide; [done|]. cbn [split_ref]. by rewrite (proj2 (Nat.leb_gt _ _)) by lia. }
      rewrite Hst in IH. apply IH; [cbn [skip_slashes]; rewrite Z.eqb_refl; pose proof (skip_slashes_length p); cbn in Hn; lia|set_solver| |done|done|by apply open_empty].
      cbn [skip_slashes]. rewrite Z.eqb_refl. by apply skip_slashes_zero.
    + assert (exists c1, (if zlen (take 31 w) <? 31 then _ ← row_put (zlen st) (zlen (take 31 w)) b; mret (zlen (take 31 w) + 1) else mret (zlen (take 31 w))) c = Done (zlen (take 31 (w ++ [b]))) c1 /\ rows_ok 32 k c1 st /\ open_row c1 st (take 31 (w ++ [b]))) as (c1 & E1 & Hok1 & Hop1).
      { destruct (Hop ltac:(lia)) as (y & tl & Hr). pose proof (ro_width _ _ _ _ Hok _ _ Hr) as Hlen. rewrite length_app in Hlen. cbn [length] in Hlen. rewrite take_snoc. rewrite length_take. destruct (Nat.ltb_spec (length w) 31) as [Hlw|Hlw].
        - rewrite (proj2 (Z.ltb_lt _ _)) by lia. rewrite bind_run. unfold row_put. rewrite <- (length_take w 31).
          destruct (row_update_ok 32 k c st (zlen st) (fun r => put_at r (zlen (take 31 w)) b) _ (take 31 w ++ b :: tl) Hok eq_refl Hr (put_next _ b y tl)) as (-> & Hok1 & Hr1); [rewrite length_app; done|]. rewrite ret_run.
          eexists. split; [rewrite length_app, Nat2Z.inj_add; done|]. split; [done|]. rewrite length_take in Hlen. destruct tl as [|z tl]; [cbn [length] in Hlen; lia|]. exists z, tl. rewrite Hr1. by rewrite <- app_assoc.
        - rewrite (proj2 (Z.ltb_ge _ _)) by lia. exists c. split; [by rewrite length_take|]. split; [done|]. by exists y, tl. }
      rewrite bind_run, E1, ret_run. specialize (IH p (w ++ [b]) c1 st). rewrite bind_run in IH. cbn [words]. rewrite (proj2 (Z.eqb_neq _ _)) by done. apply IH; [cbn in Hn; lia| |done|done|intros _; lia|done]. rewrite elem_of_app, list_elem_of_singleton. intros [?|?]; [done|congruence].
Qed.

(** What [split_path] returns, and the strings in the rows. *)
Lemma split_path_ok path k c st0 :
  0 ∉ path -> rows_ok 32 k c st0 -> exists c', split_path path (Z.of_nat k) c = Done (zlen (split_ref k [] (names path))) c' /\ rows_ok 32 k c' (split_ref k [] (names path)).
Proof.
  intros Hp Hok. assert (rows_ok 32 k c []) as Hok0 by (apply (rows_prefix _ _ _ _ 0) in Hok; by rewrite take_0 in Hok). pose proof (split_loop k (S (length path)) (skip_slashes path) [] c []) as H. unfold names. rewrite <- words_slashes.
  apply H; [pose proof (skip_slashes_length path); lia|set_solver| |done|done|by apply open_empty]. by apply skip_slashes_zero.
Qed.

(** ** Normalizing *)

(** Names that are too long, or that do not fit, are left out. *)
Definition normal_push (st : list (list Z)) (nm : list Z) : list (list Z) :=
  if bool_decide (nm = [DOT]) then st else if bool_decide (nm = [DOT; DOT]) then pop st else if (zlen st <? 16) && (zlen nm <? 64) then st ++ [nm] else st.
Definition normal_names (path : list Z) : list (list Z) := foldl normal_push [] (names path).

Definition collect_body := (fun '(p, depth) =>
    match skip_slashes p with
    | [] => mret (inr depth)
    | p =>
        let '(name, rest) := component p in
        if bool_decide (name = [DOT]) then mret (inl (rest, depth))
        else if bool_decide (name = [DOT; DOT]) then mret (inl (rest, if 0 <? depth then depth - 1 else depth))
        else if (depth <? 16) && (zlen name <? 64) then
          _ ← seg (row_update (fun r => copy_at r 0 name) depth);
          _ ← seg (row_put depth (zlen name) 0);
          mret (inl (rest, depth + 1))
        else mret (inl (rest, depth))
    end) : list Z * Z -> M nbuf (list Z * Z + Z).

Lemma collect_step p depth name rest : skip_slashes p <> [] -> component (skip_slashes p) = (name, rest) -> collect_body (p, depth) =
    (if bool_decide (name = [DOT]) then mret (inl (rest, depth))
     else if bool_decide (name = [DOT; DOT]) then mret (inl (rest, if 0 <? depth then depth - 1 else depth))
     else if (depth <? 16) && (zlen name <? 64) then
       _ ← seg (row_update (fun r => copy_at r 0 name) depth);
       _ ← seg (row_put depth (zlen name) 0);
       mret (inl (rest, depth + 1))
     else mret (inl (rest, depth))).
Proof. intros Hp Hc. unfold collect_body. destruct (skip_slashes p); [done|]. by rewrite Hc. Qed.

Lemma seg_run {A} (m : M rows A) n a c : m (segments n) = Done a c -> seg m n = Done a {| segments := c; out := out n |}.
Proof. intros E. unfold seg, zoom. by rewrite E. Qed.

(** A name is written to the row behind the stack. *)
Lemma push_row w k n st name :
  rows_ok w k (segments n) st -> (length st < k)%nat -> (length name < w)%nat -> 0 ∉ name ->
  exists c, (_ ← seg (row_update (fun r => copy_at r 0 name) (zlen st)); seg (row_put (zlen st) (zlen name) 0)) n = Done tt {| segments := c; out := out n |} /\ rows_ok w k c (st ++ [name]).
Proof.
  intros Hok Hk Hn H0. destruct (row_get _ _ _ _ Hok Hk) as (r & Hr & Hw). assert (copy_at r 0 name = Some (name ++ drop (length name) r)) as Hc by (apply (copy_next [] name r); lia).
  destruct (row_update_ok w k _ st (zlen st) (fun r => copy_at r 0 name) r _ Hok eq_refl Hr Hc) as (E1 & Hok1 & Hr1); [rewrite length_app, length_drop; lia|]. rewrite bind_run, (seg_run _ _ _ _ E1). set (c1 := <[_ := _]> _) in *.
  destruct (drop (length name) r) as [|y tl] eqn:Ed; [apply (f_equal length) in Ed; rewrite length_drop in Ed; cbn in Ed; lia|].
  destruct (row_update_ok w k c1 st (zlen st) (fun r => put_at r (zlen name) 0) _ _ Hok1 eq_refl Hr1 (put_next name 0 y tl)) as (E2 & Hok2 & Hr2); [pose proof (ro_width _ _ _ _ Hok1 _ _ Hr1) as H; rewrite length_app in *; done|].
  eexists. unfold row_put. split; [by apply (seg_run _ {| segments := c1; out := out n |})|]. by eapply rows_snoc, cstr_app.
Qed.

Lemma collect_loop f : forall p n st,
  (length p < f)%nat -> 0 ∉ p -> rows_ok 64 16 (segments n) st -> (length st <= 16)%nat ->
  exists c, while f collect_body (p, zlen st) n = Done (zlen (foldl normal_push st (names p))) {| segments := c; out := out n |} /\ rows_ok 64 16 c (foldl normal_push st (names p)) /\ (length (foldl normal_push st (names p)) <= 16)%nat.
Proof.
  induction f as [|f IH]; intros p n st Hf Hp Hok Hst; [lia|]. rewrite while_S. unfold names. rewrite <- words_slashes. destruct (decide (skip_slashes p = [])) as [Hs|Hs].
  { unfold collect_body. rewrite Hs. cbn. exists (segments n). by destruct n. }
  destruct (component (skip_slashes p)) as [name rest] eqn:Ec. rewrite (collect_step _ _ _ _ Hs Ec). destruct (component_nonempty _ _ _ (skip_slashes_idem p) Hs Ec) as [Hne Hlen]. pose proof (skip_slashes_length p).
  rewrite (words_component [] _ _ _ Ec). cbn [app]. destruct name as [|b0 nm0] eqn:En; [done|]. rewrite <- En in *. clear En. assert (0 ∉ name /\ 0 ∉ rest) as [Hz Hr]. { assert (forall q, (component q).1 ++ (component q).2 = q) as Ha by (induction q as [|x q IHq]; cbn; [done|]; case_match; [done|]; destruct (component q); cbn in *; by rewrite IHq). specialize (Ha (skip_slashes p)). rewrite Ec in Ha. cbn in Ha. pose proof (skip_slashes_zero p Hp) as H0. rewrite <- Ha in H0. set_solver. }
  cbn [foldl]. fold (names rest). unfold normal_push at 2 4 6. case_bool_decide; [|case_bool_decide].
  - rewrite ret_run. apply IH; [lia|done..].
  - rewrite ret_run, <- pop_length. apply IH; [lia|done|by apply rows_prefix|]. unfold pop. rewrite length_take. lia.
  - destruct ((zlen st <? 16) && (zlen name <? 64)) eqn:Eb; [|rewrite ret_run; apply IH; [lia|done..]]. apply andb_true_iff in Eb as [H16%Z.ltb_lt H64%Z.ltb_lt].
    destruct (push_row 64 16 n st name Hok) as (c & E & Hok1); [lia|lia|done|]. rewrite bind_run in E. rewrite bind_run. destruct (seg _ n) as [[] n1| |]; try done. rewrite bind_run, E, ret_run.
    specialize (IH rest {| segments := c; out := out n |} (st ++ [name])). rewrite length_app, Nat2Z.inj_add in IH. apply IH; [lia|done|done|cbn; lia].
Qed.

(** The text of the segments from position [pos] on; a segment that does not fit
    ends it. *)
Fixpoint render (size pos : Z) (first : bool) (segs : list (list Z)) : list Z :=
  match segs with
  | [] => []
  | s :: r =>
      let sl := if first then [] else [SLASH] in
      if size <=? pos + zlen sl + zlen s + 2 then sl else sl ++ s ++ render size (pos + zlen sl + zlen s) false r
  end.

Definition normal (size : Z) (path : list Z) : list Z := SLASH :: render size 1 true (normal_names path).

Definition write_body (depth out_size : Z) := (fun '(i, pos) =>
    if i <? depth then
      pos ← (if 0 <? i then _ ← out_update (fun o => put_at o pos SLASH); mret (pos + 1) else mret pos);
      s ← seg (row_str i);
      if out_size <=? pos + zlen s + 2 then mret (inr pos)
      else _ ← out_update (fun o => copy_at o pos s); mret (inl (i + 1, pos + zlen s))
    else mret (inr pos)) : Z * Z -> M nbuf (Z * Z + Z).

Lemma seg_str_run w k c st i s o : rows_ok w k c st -> st !! i = Some s -> seg (row_str (Z.of_nat i)) {| segments := c; out := o |} = Done s {| segments := c; out := o |}.
Proof. intros Hok Hi. destruct (ro_str _ _ _ _ Hok _ _ Hi) as (r & Hr & Hs). apply seg_run. unfold row_str. cbn. rewrite (proj2 (Z.ltb_ge _ _)) by lia. by rewrite Nat2Z.id, Hr, Hs. Qed.

Lemma write_loop k c st size : rows_ok 64 k c st -> forall rest done w tl f,
  st = done ++ rest -> (length rest < f)%nat -> zlen (w ++ tl) = size -> (done = [] /\ zlen w = 1 /\ 2 <= size \/ done <> [] /\ zlen w + 2 < size) ->
  let t := render size (zlen w) (bool_decide (done = [])) rest in
  exists tl', while f (write_body (zlen st) size) (zlen done, zlen w) {| segments := c; out := w ++ tl |} = Done (zlen w + zlen t) {| segments := c; out := w ++ t ++ tl' |} /\ zlen (w ++ t ++ tl') = size /\ tl' <> [].
Proof.
  intros Hok. induction rest as [|s rest IH]; intros done w tl f Hst Hf Hsz Hpos; (destruct f as [|f]; [cbn in Hf; lia|]); rewrite while_S; cbn [write_body render].
  - rewrite app_nil_r in Hst. subst done. rewrite Z.ltb_irrefl, ret_run. exists tl. cbn. rewrite Z.add_0_r. split; [done|]. split; [done|]. intros ->. rewrite app_nil_r in Hsz. lia.
  - assert (zlen done <? zlen st = true) as -> by (apply Z.ltb_lt; rewrite Hst, length_app; cbn; lia). rewrite bind_run. rewrite length_app in Hsz.
    assert (exists tl1, (if 0 <? zlen done then _ ← out_update (fun o => put_at o (zlen w) SLASH); mret (zlen w + 1) else mret (zlen w)) {| segments := c; out := w ++ tl |} =
      Done (zlen (w ++ if bool_decide (done = []) then [] else [SLASH])) {| segments := c; out := (w ++ if bool_decide (done = []) then [] else [SLASH]) ++ tl1 |} /\ zlen ((w ++ if bool_decide (done = []) then [] else [SLASH]) ++ tl1) = size) as (tl1 & -> & Hsz1).
    { case_bool_decide as Hd.
      - subst done. rewrite app_nil_r. exists tl. split; [done|]. rewrite length_app. lia.
      - destruct Hpos as [[? _]|[_ Hpos]]; [done|]. rewrite (proj2 (Z.ltb_lt 0 _)) by (destruct done; [done|cbn; lia]). destruct tl as [|y tl]; [cbn in Hsz; lia|]. exists tl. rewrite bind_run. unfold out_update at 1. cbn [out]. rewrite put_next, ret_run. cbn [segments].
        rewrite length_app, <- app_assoc, length_app. cbn [length app] in *. split; [f_equal; lia|lia]. }
    set (w1 := w ++ _) in *. rewrite bind_run. assert (st !! length done = Some s) as Hs by (rewrite Hst; by apply list_lookup_middle). rewrite (seg_str_run _ _ _ _ _ _ _ Hok Hs).
    assert (zlen w1 = zlen w + zlen (if bool_decide (done = []) then [] else [SLASH])) as Hw1 by (unfold w1; rewrite length_app; lia). rewrite length_app in Hsz1. rewrite <- Hw1.
    assert (zlen w1 <= size - 1) as Hw1b by (rewrite Hw1; case_bool_decide as Hd; cbn; destruct Hpos as [(? & ? & ?)|(? & ?)]; try done; lia).
    destruct (Z.leb_spec size (zlen w1 + zlen s + 2)) as [Hbig|Hfit].
    + rewrite ret_run. exists tl1. unfold w1. rewrite <- app_assoc. split; [f_equal; rewrite length_app; lia|]. split; [rewrite !length_app in *; unfold w1 in *; rewrite !length_app in *; lia|]. intros ->. cbn in Hsz1. lia.
    + rewrite bind_run. unfold out_update at 1. cbn [out]. rewrite copy_next by lia. rewrite ret_run. cbn [segments]. specialize (IH (done ++ [s]) (w1 ++ s) (drop (length s) tl1) f).
      rewrite bool_decide_false in IH by (by destruct done). rewrite !length_app, !Nat2Z.inj_add in IH. cbn [length] in IH. destruct IH as (tl' & E & Hl & Hne).
      { rewrite Hst, <- app_assoc. done. }
      { cbn in Hf. lia. }
      { rewrite <- !Nat2Z.inj_add, length_drop. lia. }
      { right. split; [by destruct done|]. lia. }
      rewrite <- app_assoc in E. exists tl'. replace (zlen done + 1) with (zlen done + Z.of_nat 1) by lia. split; [|split; [|done]].
      * rewrite E. f_equal; [rewrite !length_app; lia|]. f_equal. unfold w1. by rewrite <- !app_assoc.
      * rewrite !length_app in *. unfold w1 in *. rewrite !length_app in *. lia.
Qed.

Lemma collect_segments_ok path n st0 :
  0 ∉ path -> rows_ok 64 16 (segments n) st0 -> exists c, collect_segments path n = Done (zlen (normal_names path)) {| segments := c; out := out n |} /\ rows_ok 64 16 c (normal_names path).
Proof.
  intros Hp Hok. assert (rows_ok 64 16 (segments n) []) as Hok0 by (apply (rows_prefix _ _ _ _ 0) in Hok; by rewrite take_0 in Hok).
  destruct (collect_loop (S (length path)) path n [] ltac:(lia) Hp Hok0 ltac:(cbn; lia)) as (c & E & Hok1 & _). exists c. split; [exact E|done].
Qed.

Lemma write_segments_ok c st size o :
  rows_ok 64 16 c st -> zlen (SLASH :: o) = size -> 2 <= size -> let t := SLASH :: render size 1 true st in
  exists tl', write_segments (zlen st) size {| segments := c; out := SLASH :: o |} = Done (zlen t) {| segments := c; out := t ++ tl' |} /\ zlen (t ++ tl') = size /\ tl' <> [].
Proof.
  intros Hok Hsz H2. destruct (write_loop 16 c st size Hok st [] [SLASH] o (S (Z.to_nat (zlen st))) eq_refl) as (tl' & E & Hl & Hne); [lia|done|left; done|]. exists tl'. rewrite bool_decide_true in E, Hl by done. split; [|split; [exact Hl|done]].
  etrans; [exact E|]. f_equal. cbn [length]. change (Z.of_nat 1) with 1. lia.
Qed.

(** The bytes of a normalized path are those of the path. *)
Lemma normal_names_sub path nm : nm ∈ normal_names path -> nm ∈ names path.
Proof.
  unfold normal_names. enough (forall ns st, nm ∈ foldl normal_push st ns -> nm ∈ st \/ nm ∈ ns) as H by (intros H0; destruct (H _ _ H0); [set_solver|done]).
  induction ns as [|x ns IH]; intros st; cbn [foldl]; [auto|]. intros [H|H]%IH; [|set_solver]. unfold normal_push, pop in H. repeat case_bool_decide; [auto| |].
  - left. rewrite <- (take_drop (length st - 1) st). set_solver.
  - case_match; [apply elem_of_app in H as [?|?]; set_solver|auto].
Qed.

Lemma render_elem size pos b segs x : x ∈ render size pos b segs -> x = SLASH \/ exists nm, nm ∈ segs /\ x ∈ nm.
Proof.
  revert pos b. induction segs as [|s segs IH]; intros pos b; cbn [render]; [set_solver|]. assert (x ∈ (if b then [] else [SLASH]) -> x = SLASH) as Hs by (destruct b; set_solver). destruct (_ <=? _); [auto|]. rewrite !elem_of_app. intros [H1|[H1|H1]]; [auto|right; exists s; set_solver|].
  destruct (IH _ _ H1) as [?|(nm & ? & ?)]; [auto|right; exists nm; set_solver].
Qed.

Lemma normal_zero size path : 0 ∉ path -> 0 ∉ normal size path.
Proof.
  intros Hp. unfold normal. rewrite elem_of_cons. intros [H|[H|(nm & H1%normal_names_sub & H2)]%render_elem]; [done|done|]. destruct (words_elem [] path nm 0 H1 H2); [set_solver|done].
Qed.

(** The output buffer holds the normalized path. *)
Lemma normalize_path_ok path n st0 size :
  0 ∉ path -> rows_ok 64 16 (segments n) st0 -> zlen (out n) = size -> 2 <= size ->
  exists n', normalize_path path size n = Done tt n' /\ cstr (out n') = Some (normal size path) /\ zlen (out n') = size /\ rows_ok 64 16 (segments n') (normal_names path).
Proof.
  intros Hp Hok Hsz H2. unfold normalize_path. destruct (collect_segments_ok path n st0 Hp Hok) as (c & E & Hok1). rewrite bind_run, E, bind_run. unfold out_update at 1. cbn [out]. destruct (out n) as [|y o] eqn:Eo; [cbn in Hsz; lia|].
  pose proof (put_next [] SLASH y o) as Hput. cbn [app length] in Hput. change (Z.of_nat 0) with 0 in Hput. rewrite Hput. cbn [segments]. destruct (write_segments_ok c (normal_names path) size o Hok1 Hsz H2) as (tl' & E2 & Hl & Hne). rewrite bind_run, E2. fold (normal size path) in *. unfold out_update. cbn [out]. destruct tl' as [|z tl']; [done|].
  rewrite put_next. eexists. split; [done|]. cbn [out segments]. split; [by apply cstr_app, normal_zero|]. split; [|done]. rewrite length_app in *. done.
Qed.

(** ** Normalized paths

    A normalized path is a slash in front of every name, none of them "." or "..";
    splitting it gives the names back. *)

Definition plain (nm : list Z) : Prop := nm <> [] /\ SLASH ∉ nm.
Definition valid_name (nm : list Z) : Prop := plain nm /\ nm <> [DOT] /\ nm <> [DOT; DOT].

(** "/a/b" *)
Fixpoint slashed (segs : list (list Z)) : list Z := match segs with [] => [] | s :: r => SLASH :: s ++ slashed r end.

(** The text of a path; one that was cut short ends with a slash. *)
Definition canonical (p : list Z) (segs : list (list Z)) : Prop := segs = [] /\ p = [SLASH] \/ segs <> [] /\ exists b : bool, p = slashed segs ++ (if b then [SLASH] else []).

Lemma slashed_app a b : slashed (a ++ b) = slashed a ++ slashed b.
Proof. induction a as [|s a IH]; cbn; [done|]. by rewrite IH, <- app_assoc. Qed.

Lemma names_slash p : names (SLASH :: p) = names p.
Proof. unfold names. cbn [words]. by rewrite Z.eqb_refl. Qed.

Lemma names_plain s p : plain s -> names (s ++ SLASH :: p) = s :: names p.
Proof. intros [H1 H2]. unfold names. rewrite words_app by done. cbn [app]. by rewrite bool_decide_false. Qed.

Lemma names_one s : plain s -> names s = [s].
Proof. intros [H1 H2]. unfold names. rewrite words_last by done. cbn [app]. by rewrite bool_decide_false. Qed.

(** Names in front of anything that starts with a slash. *)
Lemma names_slashed_app segs p : Forall plain segs -> names (slashed segs ++ SLASH :: p) = segs ++ names p.
Proof.
  induction segs as [|s segs IH]; intros Hs; cbn [slashed app]; [apply names_slash|]. apply Forall_cons in Hs as [Hs Hr]. rewrite names_slash, <- app_assoc. destruct segs as [|s' segs]; [cbn; by apply names_plain|].
  specialize (IH Hr). cbn [slashed app] in *. rewrite names_plain by done. by rewrite names_slash in IH; rewrite IH.
Qed.

Lemma names_slashed segs : Forall plain segs -> names (slashed segs) = segs.
Proof.
  destruct segs as [|s segs _] using rev_ind; [done|]. intros [Hs [Hl _]%Forall_cons]%Forall_app. rewrite slashed_app. cbn [slashed]. rewrite app_nil_r. rewrite names_slashed_app, names_one by done. done.
Qed.

Lemma names_canonical p segs : canonical p segs -> Forall plain segs -> names p = segs.
Proof.
  intros [[-> ->]|[Hne [b ->]]] Hs; [done|]. destruct b; [|rewrite app_nil_r; by apply names_slashed]. rewrite names_slashed_app by done. by rewrite app_nil_r.
Qed.

(** ** What [normalize_path] leaves *)

Lemma normal_names_valid path : Forall valid_name (normal_names path) /\ (length (normal_names path) <= 16)%nat /\ Forall (fun nm => zlen nm < 64) (normal_names path).
Proof.
  assert (forall nm, nm ∈ names path -> plain nm) as Hp by (intros nm Hn; apply (words_plain [] path); [set_solver|done]). unfold normal_names. revert Hp.
  assert (Forall valid_name ([] : list (list Z)) /\ (length ([] : list (list Z)) <= 16)%nat /\ Forall (fun nm => zlen nm < 64) ([] : list (list Z))) as H by (split_and!; [constructor|cbn; lia|constructor]).
  revert H. generalize ([] : list (list Z)). induction (names path) as [|nm ns IH]; intros st (H1 & H2 & H3) Hp; cbn [foldl]; [done|]. apply IH; [|intros x Hx; apply Hp; set_solver]. unfold normal_push, pop. case_bool_decide; [done|]. case_bool_decide.
  - split_and!; [by apply Forall_take|rewrite length_take; lia|by apply Forall_take].
  - destruct ((zlen st <? 16) && (zlen nm <? 64)) eqn:E; [|done]. apply andb_true_iff in E as [E1%Z.ltb_lt E2%Z.ltb_lt]. split_and!; [|rewrite length_app; cbn; lia|].
    + apply Forall_app. split; [done|]. constructor; [|constructor]. split; [|done]. apply Hp. set_solver.
    + apply Forall_app. split; [done|]. by constructor.
Qed.

Lemma valid_plain segs : Forall valid_name segs -> Forall plain segs.
Proof. intros H. eapply Forall_impl; [exact H|]. by intros x [? _]. Qed.

Lemma render_prefix size pos segs : exists k (b : bool), render size pos false segs = slashed (take k segs) ++ (if b then [SLASH] else []).
Proof.
  revert pos. induction segs as [|s segs IH]; intros pos; cbn [render]; [by exists 0%nat, false|]. destruct (_ <=? _); [by exists 0%nat, true|]. destruct (IH (pos + zlen [SLASH] + zlen s)) as (k & b & ->). exists (S k), b. cbn. by rewrite <- app_assoc.
Qed.

Lemma normal_canonical size path : exists k, canonical (normal size path) (take k (normal_names path)).
Proof.
  unfold normal. destruct (normal_names path) as [|s segs]; [exists 0%nat; by left|]. cbn [render]. destruct (_ <=? _); [exists 0%nat; by left|]. destruct (render_prefix size (1 + zlen ([] : list Z) + zlen s) segs) as (k & b & ->). exists (S k). right. split; [done|]. exists b. cbn. by rewrite <- app_assoc.
Qed.

Lemma render_full size pos segs : pos + zlen (slashed segs) + 2 < size -> render size pos false segs = slashed segs.
Proof.
  revert pos. induction segs as [|s segs IH]; intros pos H; cbn [render slashed] in *; [done|]. cbn [length] in *. rewrite length_app in H. rewrite (proj2 (Z.leb_gt _ _)) by lia. rewrite IH by lia. done.
Qed.

(** A path that fits is kept whole. *)
Lemma normal_full size path : zlen (slashed (normal_names path)) + 2 < size -> normal size path = match normal_names path with [] => [SLASH] | segs => slashed segs end.
Proof.
  unfold normal. destruct (normal_names path) as [|s segs]; [done|]. cbn [slashed render length]. rewrite length_app. intros H. rewrite (proj2 (Z.leb_gt _ _)) by (cbn; lia). rewrite render_full by (cbn [length]; lia). done.
Qed.

Lemma names_normal size path : exists k, names (normal size path) = take k (normal_names path).
Proof. destruct (normal_canonical size path) as [k Hk]. exists k. apply names_canonical; [done|]. apply Forall_take, valid_plain, normal_names_valid. Qed.

(** Names that are short and few enough are only resolved. *)
Lemma normal_push_all st ns : (length st + length ns <= 16)%nat -> Forall (fun nm => zlen nm < 64) ns -> foldl normal_push st ns = foldl push_name st ns.
Proof.
  revert st. induction ns as [|nm ns IH]; intros st Hl Hs; cbn [foldl length] in *; [done|]. apply Forall_cons in Hs as [Hs Hr]. assert (normal_push st nm = push_name st nm) as ->.
  { unfold normal_push, push_name. repeat case_bool_decide; [done..|]. by rewrite (proj2 (Z.ltb_lt _ _)), (proj2 (Z.ltb_lt _ _)) by lia. }
  apply IH; [|done]. unfold push_name, pop. repeat case_bool_decide; rewrite ?length_take, ?length_app; cbn; lia.
Qed.

Lemma push_valid st ns : Forall valid_name ns -> foldl push_name st ns = st ++ ns.
Proof.
  revert st. induction ns as [|nm ns IH]; intros st Hv; cbn [foldl]; [by rewrite app_nil_r|]. apply Forall_cons in Hv as [(_ & H1 & H2) Hr]. unfold push_name at 2. rewrite !bool_decide_false by done. by rewrite IH, <- app_assoc.
Qed.

(** The names of a normalized path stay as they are. *)
Lemma normal_names_id p segs : canonical p segs -> Forall valid_name segs -> (length segs <= 16)%nat -> Forall (fun nm => zlen nm < 64) segs -> normal_names p = segs.
Proof.
  intros Hc Hv Hl Hs. unfold normal_names. rewrite (names_canonical p segs Hc (valid_plain _ Hv)), normal_push_all, push_valid by done. done.
Qed.
