(* ===== verification/FatDir.v ===== *)
(** * filesystem/fat32/fat32_lfn.cpp, fat32.cpp: directories

    Long and short names, and the operations that read a directory, enter, remove
    and rename files and directories in it. The cluster of a directory is an array
    of entries of 32 bytes; names are lists of bytes without the terminator. *)

From Stdlib Require Import ZArith Lia.
From stdpp Require Import base tactics gmap numbers list.
From S2P Require Import Prelude.
From S2P Require Import Memory.
From S2P Require Import Slices.
From S2P Require Import Fat.
From S2P Require Import FatFile.
From S2P Require Import Dentry.
From S2P Require Import KPath.

Definition ATTR_HIDDEN : Z := 0x02.
Definition ATTR_VOLUME_ID : Z := 0x08.
Definition ATTR_DIRECTORY : Z := 0x10.
Definition ATTR_ARCHIVE : Z := 0x20.
Definition ATTR_LONG_NAME : Z := Z.lor (Z.lor (Z.lor ATTR_READ_ONLY ATTR_HIDDEN) ATTR_SYSTEM) ATTR_VOLUME_ID.
Definition READ_DIR_MAX_ENTRIES : Z := 256.
Definition DELETED : Z := 0xE5.
Definition SPACE : Z := 32.

(** ** Entries as bytes *)

(** [reinterpret_cast<DirectoryEntry*>(buffer)] *)
Fixpoint as_entries (n : nat) (buf : list Z) : list (list Z) :=
  match n with O => [] | S n' => take 32 buf :: as_entries n' (drop 32 buf) end.

Definition e_first (e : list Z) : Z := byte_at e 0.
Definition e_attr (e : list Z) : Z := byte_at e 11.
Definition e_name (e : list Z) : list Z := take 11 e.

(** The fields of an entry. *)
Definition dirent_of (e : list Z) : dirent :=
  {| de_name := e_name e; de_attr := e_attr e; de_nt_res := byte_at e 12; de_creation_tenths := byte_at e 13;
     de_creation_time := half_at e 14; de_creation_date := half_at e 16; de_access_date := half_at e 18; de_cluster_high := half_at e 20;
     de_write_time := half_at e 22; de_write_date := half_at e 24; de_cluster_low := half_at e 26; de_size := word_at e 28 |}.

Definition get_first_cluster (e : dirent) : Z := Z.lor (Z.shiftl (de_cluster_high e) 16) (de_cluster_low e).

(** [entries[i] = e] and [entries[i].name[0] = 0xE5]. *)
Definition put_entry (i : Z) (e : list Z) (es : list (list Z)) : option (list (list Z)) := if (0 <=? i) && (i <? zlen es) then Some (<[Z.to_nat i := e]> es) else None.
Definition erase (i : Z) (es : list (list Z)) : option (list (list Z)) := e ← es !! Z.to_nat i; put_entry i (DELETED :: drop 1 e) es.

(** ** Names *)

Definition chk_sum (short_name : list Z) : Z := foldl (fun sum c => u8 ((if Z.odd sum then 0x80 else 0) + Z.shiftr sum 1 + schar c)) 0 (take 11 short_name).

Definition to_upper (c : Z) : Z := if (97 <=? c) && (c <=? 122) then c - 32 else c.

Fixpoint strcasecmp (s1 s2 : list Z) : Z :=
  match s1, s2 with
  | c1 :: s1', c2 :: s2' => if to_upper c1 =? to_upper c2 then strcasecmp s1' s2' else schar (to_upper c1) - schar (to_upper c2)
  | c1 :: _, [] => schar c1
  | [], c2 :: _ => - schar c2
  | [], [] => 0
  end.

(** The thirteen characters of a long name entry: [name1], [name2], [name3]. *)
Definition lfn_name1 (e : list Z) : list Z := half_at e <$> [1; 3; 5; 7; 9].
Definition lfn_name2 (e : list Z) : list Z := half_at e <$> [14; 16; 18; 20; 22; 24].
Definition lfn_name3 (e : list Z) : list Z := half_at e <$> [28; 30].
Definition lfn_order (e : list Z) : Z := byte_at e 0.

(** The buffer is what has been written to it so far: [pos] is its length. *)
Fixpoint copy_chars (src : list Z) (max_len : Z) (buffer : list Z) : bool * list Z :=
  match src with
  | [] => (true, buffer)
  | c :: src' =>
      if (c =? 0) || (c =? 0xFFFF) then (false, buffer)
      else if max_len - 1 <=? zlen buffer then (false, buffer)
      else copy_chars src' max_len (buffer ++ [Z.land c 0xFF])
  end.

Definition copy_lfn_part (lfn : list Z) (max_len : Z) (buffer : list Z) : bool * list Z :=
  let '(ok, buffer) := copy_chars (lfn_name1 lfn) max_len buffer in
  if negb ok then (false, buffer)
  else
    let '(ok, buffer) := copy_chars (lfn_name2 lfn) max_len buffer in
    if negb ok then (false, buffer) else copy_chars (lfn_name3 lfn) max_len buffer.

(** The parts one after the other, into [char[256]]. *)
Definition copy_parts (lfns : list (list Z)) : list Z := foldl (fun buffer lfn => snd (copy_lfn_part lfn 256 buffer)) [] lfns.

(** The string that an array holds whose rest is zero. *)
Fixpoint until_zero (l : list Z) : list Z := match l with [] => [] | c :: l' => if c =? 0 then [] else c :: until_zero l' end.

Definition DOT : Z := 46.
Definition skipped (c : Z) : bool := (c =? 32) || (c =? 46) || (c =? 43) || (c =? 44) || (c =? 59).

(** [strrchr(input, '.')]: the part in front of the last dot, and the one behind it. *)
Fixpoint last_dot (s : list Z) : option (list Z * list Z) :=
  match s with
  | [] => None
  | c :: s' =>
      match last_dot s' with
      | Some (n, e) => Some (c :: n, e)
      | None => if c =? DOT then Some ([], s') else None
      end
  end.

(** The characters that are kept, in capitals. *)
Definition kept_chars (s : list Z) : list Z := to_upper <$> filter (fun c => skipped c = false) s.

Definition pad (n : nat) (s : list Z) : list Z := s ++ replicate (n - length s) SPACE.

Definition make_short_name (input : list Z) : option (list Z) :=
  let '(name, ext) := default (input, []) (last_dot input) in
  if zlen name =? 0 then None
  else
    let n8 := pad 8 (take 8 (kept_chars name)) in
    let n8 := if zlen name <=? 8 then take 6 n8 ++ [126; 49] else n8 in
    Some (n8 ++ pad 3 (kept_chars (take 3 ext))).

Definition extract_short_name (raw_name : list Z) : list Z :=
  let name := filter (fun c => c <> SPACE) (take 8 raw_name) in
  let ext := filter (fun c => c <> SPACE) (take 3 (drop 8 raw_name)) in
  if bool_decide (ext = []) then name else name ++ [DOT] ++ ext.

(** [for (i = 7; i >= 0 && name[i] == ' '; i--) name[i] = 0] *)
Fixpoint strip_spaces (l : list Z) : list Z :=
  match l with [] => [] | c :: l' => match strip_spaces l' with [] => if c =? SPACE then [] else [c] | r => c :: r end end.

(** [FileEntry::format_short_name], with the array that [set_short_name] filled. *)
Definition format_short_name (short_name : list Z) : list Z :=
  let short := take 12 short_name ++ replicate (13 - length (take 12 short_name)) 0 in
  let name := until_zero (strip_spaces (take 8 short)) in
  let ext := until_zero (strip_spaces (take 3 (drop 8 short))) in
  if bool_decide (ext = []) then name
  else if zlen name + 1 <? 12 then name ++ [DOT] ++ (if 13 <=? zlen name + 1 + zlen ext then take (Z.to_nat (13 - zlen name - 2)) ext else ext)
  else name.

(** ** FileEntry *)

Record file_entry := { fe_long : list Z; fe_short : list Z; fe_entry : dirent; fe_dir : bool; fe_index : Z }.

Definition get_name (f : file_entry) : list Z := if bool_decide (fe_long f = []) then fe_short f else fe_long f.

(** The entry that [read_directory] stores for [e] behind the parts [lfns] of its name. *)
Definition make_file_entry (lfns : list (list Z)) (e : list Z) (index : Z) : file_entry :=
  {| fe_long := if bool_decide (lfns = []) then [] else take 255 (until_zero (copy_parts (reverse lfns)));
     fe_short := format_short_name (until_zero (extract_short_name (e_name e)));
     fe_entry := dirent_of e; fe_dir := negb (Z.land (e_attr e) ATTR_DIRECTORY =? 0); fe_index := index |}.

(** The loop over the entries of a cluster: whether it ended the search, the
    parts of the next name, and the entries so far. *)
Fixpoint scan_entries (es : list (list Z)) (index : Z) (lfns : list (list Z)) (out : list file_entry) : bool * list (list Z) * list file_entry :=
  match es with
  | [] => (false, lfns, out)
  | e :: es' =>
      if e_first e =? 0 then (true, lfns, out)
      else if (e_first e =? DELETED) || (e_attr e =? ATTR_VOLUME_ID) then scan_entries es' (index + 1) lfns out
      else if e_attr e =? ATTR_LONG_NAME then scan_entries es' (index + 1) (if zlen lfns <? 20 then lfns ++ [e] else lfns) out
      else
        let out := out ++ [make_file_entry lfns e index] in
        if READ_DIR_MAX_ENTRIES <=? zlen out then (true, [], out) else scan_entries es' (index + 1) [] out
  end.

(** The clusters of a run, until one ends the search. *)
Fixpoint scan_clusters (clusters : list (list (list Z))) (index : Z) (lfns : list (list Z)) (out : list file_entry) : bool * list (list Z) * list file_entry :=
  match clusters with
  | [] => (false, lfns, out)
  | es :: clusters' =>
      let '(stop, lfns, out) := scan_entries es index lfns out in
      if stop then (true, lfns, out) else scan_clusters clusters' (index + zlen es) lfns out
  end.

(** ** Writing names *)

(** [copy_from_name]: [count] characters from [name_pos] on, and the new position. *)
Fixpoint copy_from_name (name : list Z) (name_pos : Z) (count : nat) : list Z * Z :=
  match count with
  | O => ([], name_pos)
  | S count' =>
      let '(c, pos) := if name_pos <? zlen name then (nth (Z.to_nat name_pos) name 0, name_pos + 1) else if name_pos =? zlen name then (0, name_pos + 1) else (0xFFFF, name_pos) in
      let '(cs, pos) := copy_from_name name pos count' in (c :: cs, pos)
  end.

Definition halves (l : list Z) : list Z := concat (to_le 2 <$> l).

(** The 32 bytes of a [LongFileName]. *)
Definition lfn_bytes (order checksum : Z) (name1 name2 name3 : list Z) : list Z :=
  [order] ++ halves name1 ++ [ATTR_LONG_NAME; 0; checksum] ++ halves name2 ++ [0; 0] ++ halves name3.

Definition lfn_entry (long_name : list Z) (checksum entries_needed lfn_index : Z) : list Z :=
  let order := u8 (lfn_index + 1) in
  let order := if lfn_index =? entries_needed - 1 then Z.lor order 0x40 else order in
  let '(name1, pos) := copy_from_name long_name (lfn_index * 13) 5 in
  let '(name2, pos) := copy_from_name long_name pos 6 in
  let '(name3, _) := copy_from_name long_name pos 2 in
  lfn_bytes order checksum name1 name2 name3.

Definition lfn_needed (long_name : list Z) : Z := (zlen long_name + 12) / 13.

(** [u16 name_buffer[256]] has no room for more. *)
Definition write_lfn_entries (es : list (list Z)) (start_index : Z) (long_name short_name : list Z) : option (list (list Z)) :=
  let entries_needed := lfn_needed long_name in
  if 256 <? zlen long_name then None
  else
    foldl (fun es lfn_index => es ← es; put_entry (start_index + (entries_needed - 1 - lfn_index)) (lfn_entry long_name (chk_sum short_name) entries_needed lfn_index) es)
      (Some es) (reverse (seqZ 0 entries_needed)).

(** The first place with [total_needed] free entries. *)
Fixpoint find_run (es : list (list Z)) (i free_count start_index total_needed : Z) : option Z :=
  match es with
  | [] => None
  | e :: es' =>
      if (e_first e =? 0) || (e_first e =? DELETED) then
        if e_attr e =? ATTR_VOLUME_ID then find_run es' (i + 1) 0 start_index total_needed
        else
          let start_index := if free_count =? 0 then i else start_index in
          if total_needed <=? free_count + 1 then Some start_index else find_run es' (i + 1) (free_count + 1) start_index total_needed
      else find_run es' (i + 1) 0 start_index total_needed
  end.

(** Where a name was found: the entry, and the parts of its long name. *)
Record found_entry := { fo_entry : Z; fo_lfn_start : Z; fo_lfn_count : Z }.

(** One pass of the bubble sort by the order of the parts. *)
Fixpoint bubble (m : nat) (l : list (list Z)) : list (list Z) :=
  match m, l with
  | S m', x :: y :: l' => if Z.land (lfn_order y) 0x3F <? Z.land (lfn_order x) 0x3F then y :: bubble m' (x :: l') else x :: bubble m' (y :: l')
  | _, _ => l
  end.
Definition sort_parts (l : list (list Z)) : list (list Z) := let n := (length l - 1)%nat in foldl (fun l a => bubble (n - a) l) l (seq 0 n).

Definition full_name (es : list (list Z)) (lfn_start lfn_count : Z) (e : list Z) : list Z :=
  if 0 <? lfn_count then until_zero (copy_parts (sort_parts (take (Z.to_nat (Z.min lfn_count 20)) (drop (Z.to_nat lfn_start) es))))
  else until_zero (extract_short_name (e_name e)).

Fixpoint find_name (all es : list (list Z)) (j lfn_start lfn_count : Z) (name : list Z) : option found_entry :=
  match es with
  | [] => None
  | e :: es' =>
      if e_first e =? 0 then None
      else if e_first e =? DELETED then find_name all es' (j + 1) lfn_start 0 name
      else if e_attr e =? ATTR_VOLUME_ID then find_name all es' (j + 1) lfn_start 0 name
      else if e_attr e =? ATTR_LONG_NAME then find_name all es' (j + 1) (if lfn_count =? 0 then j else lfn_start) (lfn_count + 1) name
      else if strcasecmp (full_name all lfn_start lfn_count e) name =? 0 then Some {| fo_entry := j; fo_lfn_start := lfn_start; fo_lfn_count := lfn_count |}
      else find_name all es' (j + 1) lfn_start 0 name
  end.

(** ** Times and fields of new entries *)

Definition update_create_time (t : rtc_time) (e : dirent) : dirent :=
  let '(date, time, tenths) := get_current_fat_time t in
  {| de_name := de_name e; de_attr := de_attr e; de_nt_res := de_nt_res e; de_creation_tenths := tenths; de_creation_time := time; de_creation_date := date;
     de_access_date := date; de_cluster_high := de_cluster_high e; de_write_time := time; de_write_date := date; de_cluster_low := de_cluster_low e; de_size := de_size e |}.

(** An entry with a name, attributes and a cluster, and zeros. *)
Definition blank_entry (name : list Z) (attr cluster : Z) : dirent :=
  {| de_name := name; de_attr := attr; de_nt_res := 0; de_creation_tenths := 0; de_creation_time := 0; de_creation_date := 0; de_access_date := 0;
     de_cluster_high := Z.land (Z.shiftr cluster 16) 0xFFFF; de_write_time := 0; de_write_date := 0; de_cluster_low := Z.land cluster 0xFFFF; de_size := 0 |}.

Definition set_name (name : list Z) (e : dirent) : dirent :=
  {| de_name := name; de_attr := de_attr e; de_nt_res := de_nt_res e; de_creation_tenths := de_creation_tenths e; de_creation_time := de_creation_time e; de_creation_date := de_creation_date e;
     de_access_date := de_access_date e; de_cluster_high := de_cluster_high e; de_write_time := de_write_time e; de_write_date := de_write_date e; de_cluster_low := de_cluster_low e; de_size := de_size e |}.

Definition S_IWUSR : Z := 128.

Definition find_by_name (p : file_entry -> bool) (name : list Z) (l : list file_entry) : option file_entry := list_find (fun f => p f && (strcmp (get_name f) name =? 0) = true) l ≫= fun x => Some (snd x).

Section dirs.
Context {D : Type} `{!BlockDevice D} (b : bpb) (can_alloc : Z -> bool) (now : rtc_time).
(** [device->trim], when the device supports it. *)
Context (trim : option (list (Z * Z) -> D -> D)).
Local Abbreviation fs := (fs D).

Definition or_undef {A} (o : option A) : M fs A := match o with Some a => mret a | None => undefined end.

Definition entries_per_cluster : Z := bytes_per_cluster b / DIRENT_SIZE.
Definition cluster_entries (buf : list Z) : list (list Z) := as_entries (Z.to_nat entries_per_cluster) buf.

(** The buffer with its entries replaced. *)
Definition store_entries (es : list (list Z)) (buf : list Z) : list Z := concat es ++ drop (Z.to_nat (entries_per_cluster * DIRENT_SIZE)) buf.

(** ** Reading a directory *)

(** The clusters in the buffer of a run. *)
Definition run_entries (k : nat) (buf : list Z) : list (list (list Z)) := (fun r => cluster_entries (drop (r * Z.to_nat (bytes_per_cluster b)) buf)) <$> seq 0 k.

Definition read_directory (fuel : nat) (cluster : Z) : M fs (error + list file_entry) :=
  ok ← alloc can_alloc;
  if negb ok then mret (inl NoMem)
  else
    chain ← get_cluster_chain b can_alloc fuel cluster;
    match (chain : option (list Z)) with
    | None => mret (inl Io)
    | Some chain =>
        out ← while (S (length chain)) (fun '(rest, index, lfns, out) =>
          match (rest : list Z) with
          | [] => mret (inr out)
          | c :: _ =>
              let k := run_length rest in
              let skip := mret (inl (drop k rest, index + Z.of_nat k * entries_per_cluster, lfns, out)) in
              ok ← alloc can_alloc;
              if negb ok then skip
              else
                r ← device_read (cluster_to_sector b c) (u32 (u32 (Z.of_nat k) * sectors_per_cluster b));
                match (r : option (list Z)) with
                | None => skip
                | Some buf =>
                    let '(_, lfns, out) := scan_clusters (run_entries k buf) index lfns out in
                    if READ_DIR_MAX_ENTRIES <=? zlen out then mret (inr out) else mret (inl (drop k rest, index + Z.of_nat k * entries_per_cluster, lfns, out))
                end
          end) (chain, 0, [], []);
        mret (inr out)
    end.

(** ** Entering a name *)

(** The first cluster with room for the entries; [None] when there is none. *)
Fixpoint enter_in_clusters (chain : list Z) (long_name short_name : list Z) (short_entry : dirent) : M fs (option bool) :=
  match chain with
  | [] => mret None
  | cluster :: chain' =>
      ok ← alloc can_alloc;
      if negb ok then enter_in_clusters chain' long_name short_name short_entry
      else
        r ← read_cluster b cluster;
        match (r : option (list Z)) with
        | None => enter_in_clusters chain' long_name short_name short_entry
        | Some buffer =>
            let es := cluster_entries buffer in
            match find_run es 0 0 0 (lfn_needed long_name + 1) with
            | None => enter_in_clusters chain' long_name short_name short_entry
            | Some start_index =>
                es ← or_undef (write_lfn_entries es start_index long_name short_name);
                es ← or_undef (put_entry (start_index + lfn_needed long_name) (dirent_bytes short_entry) es);
                ok ← device_write (cluster_to_sector b cluster) (sectors_per_cluster b) (store_entries es buffer);
                mret (Some ok)
            end
        end
  end.

(** [n] bounds the number of clusters that are added. *)
Fixpoint write_directory_entry_with_lfn (fuel n : nat) (dir_cluster : Z) (long_name short_name : list Z) (short_entry : dirent) : M fs bool :=
  match n with
  | O => fun _ => NoFuel
  | S n' =>
      chain ← get_cluster_chain b can_alloc fuel dir_cluster;
      match (chain : option (list Z)) with
      | None => mret false
      | Some chain =>
          r ← enter_in_clusters chain long_name short_name short_entry;
          match (r : option bool) with
          | Some ok => mret ok
          | None =>
              new_cluster ← find_free_cluster b fuel;
              if new_cluster =? 0 then mret false
              else
                ok ← write_fat_entry b fuel (List.last chain 0) new_cluster;
                if negb ok then mret false
                else
                  ok ← write_fat_entry b fuel new_cluster 0x0FFFFFFF;
                  if negb ok then mret false
                  else
                    ok ← alloc can_alloc;
                    if negb ok then undefined
                    else
                      _ ← device_write (cluster_to_sector b new_cluster) (sectors_per_cluster b) (replicate (Z.to_nat (bytes_per_cluster b)) 0);
                      write_directory_entry_with_lfn fuel n' dir_cluster long_name short_name short_entry
          end
      end
  end.

Definition find_entry_cluster (fuel : nat) (dir_cluster : Z) (given_name : list Z) : M fs Z :=
  r ← read_directory fuel dir_cluster;
  match (r : error + list file_entry) with
  | inl _ => mret 0
  | inr l => mret (match find_by_name (fun _ => true) given_name l with Some f => get_first_cluster (fe_entry f) | None => 0 end)
  end.

(** [char components[16][32]] is [c0]. *)
Definition resolve_path_to_cluster (fuel : nat) (path : list Z) (c0 : rows) : M fs Z :=
  if negb (bool_decide (head path = Some SLASH)) then mret 0
  else
    match split_path path 16 c0 with
    | Done count c =>
        comps ← or_undef (mapM cstr (take (Z.to_nat count) c));
        foldl (fun m name => current ← m; if current =? 0 then mret 0 else find_entry_cluster fuel current name) (mret (root_cluster b)) comps
    | Undef => undefined
    | NoFuel => fun _ => NoFuel
    end.

(** ** Creating *)

Definition create_file (fuel n : nat) (parent_cluster : Z) (name : list Z) (mode : Z) : M fs (option error) :=
  if bool_decide (name = []) then mret (Some Inval)
  else
    new_cluster ← find_free_cluster b fuel;
    if new_cluster =? 0 then mret (Some NoSpc)
    else
      ok ← alloc can_alloc;
      if negb ok then mret (Some NoMem)
      else
        ok ← device_write (cluster_to_sector b new_cluster) (sectors_per_cluster b) (replicate (Z.to_nat (bytes_per_cluster b)) 0);
        if negb ok then mret (Some Io)
        else
          match make_short_name name with
          | None => mret (Some Inval)
          | Some short_name =>
              let attr := if Z.land mode S_IWUSR =? 0 then Z.lor ATTR_ARCHIVE ATTR_READ_ONLY else ATTR_ARCHIVE in
              let new_entry := update_create_time now (blank_entry short_name attr new_cluster) in
              ok ← write_directory_entry_with_lfn fuel n parent_cluster name short_name new_entry;
              if negb ok then mret (Some Io)
              else
                ok ← write_fat_entry b fuel new_cluster 0x0FFFFFFF;
                if negb ok then mret (Some Io) else _ ← write_fs_info b; mret None
          end.

Definition dot_name : list Z := pad 11 [DOT].
Definition dotdot_name : list Z := pad 11 [DOT; DOT].

(** The first cluster of a new directory. *)
Definition new_directory (cluster parent_cluster : Z) : list Z :=
  let dots := dirent_bytes (update_create_time now (blank_entry dot_name ATTR_DIRECTORY cluster)) ++ dirent_bytes (update_create_time now (blank_entry dotdot_name ATTR_DIRECTORY parent_cluster)) in
  dots ++ replicate (Z.to_nat (bytes_per_cluster b) - 64) 0.

Definition create_directory (fuel n : nat) (parent_cluster : Z) (name : list Z) (mode : Z) : M fs (option error) :=
  if bool_decide (name = []) then mret (Some Inval)
  else
    existing ← find_entry_cluster fuel parent_cluster name;
    if negb (existing =? 0) then mret (Some Exist)
    else
      new_cluster ← find_free_cluster b fuel;
      if new_cluster =? 0 then mret (Some NoSpc)
      else
        ok ← write_fat_entry b fuel new_cluster 0x0FFFFFFF;
        if negb ok then mret (Some Io)
        else
          ok ← alloc can_alloc;
          if negb ok then mret (Some NoMem)
          else
            ok ← device_write (cluster_to_sector b new_cluster) (sectors_per_cluster b) (new_directory new_cluster parent_cluster);
            if negb ok then mret (Some Io)
            else
              match make_short_name name with
              | None => mret (Some Inval)
              | Some short_name =>
                  let attr := if Z.land mode S_IWUSR =? 0 then Z.lor ATTR_DIRECTORY ATTR_READ_ONLY else ATTR_DIRECTORY in
                  let new_entry := update_create_time now (blank_entry short_name attr new_cluster) in
                  _ ← write_fs_info b;
                  ok ← write_directory_entry_with_lfn fuel n parent_cluster name short_name new_entry;
                  mret (if (ok : bool) then None else Some Io)
              end.

(** ** Removing *)

(** The clusters of the chain, until the name is found. *)
Fixpoint find_in_clusters (chain : list Z) (name : list Z) : M fs (option (Z * found_entry)) :=
  match chain with
  | [] => mret None
  | cluster :: chain' =>
      ok ← alloc can_alloc;
      if negb ok then find_in_clusters chain' name
      else
        r ← read_cluster b cluster;
        match (r : option (list Z)) with
        | None => find_in_clusters chain' name
        | Some buffer =>
            let es := cluster_entries buffer in
            match find_name es es 0 0 0 name with
            | Some f => mret (Some (cluster, f))
            | None => find_in_clusters chain' name
            end
        end
  end.

(** Entries [i], ..., [i + n - 1] are marked as deleted. *)
Fixpoint erase_all (i : Z) (n : nat) (es : list (list Z)) : option (list (list Z)) :=
  match n with O => Some es | S n' => es ← erase i es; erase_all (i + 1) n' es end.

Definition delete_directory_entry_in_directory (fuel : nat) (dir_cluster : Z) (name : list Z) : M fs bool :=
  chain ← get_cluster_chain b can_alloc fuel dir_cluster;
  match (chain : option (list Z)) with
  | None => mret false
  | Some chain =>
      r ← find_in_clusters chain name;
      match (r : option (Z * found_entry)) with
      | None => mret false
      | Some (cluster, f) =>
          ok ← alloc can_alloc;
          if negb ok then mret false
          else
            r ← read_cluster b cluster;
            match (r : option (list Z)) with
            | None => mret false
            | Some buffer =>
                es ← or_undef (erase (fo_entry f) (cluster_entries buffer));
                es ← or_undef (erase_all (fo_lfn_start f) (Z.to_nat (fo_lfn_count f)) es);
                device_write (cluster_to_sector b cluster) (sectors_per_cluster b) (store_entries es buffer)
            end
      end
  end.

(** Neighbouring clusters are one range. *)
Fixpoint trim_ranges (chain : list Z) (ranges : list (Z * Z)) : list (Z * Z) :=
  match chain with
  | [] => reverse ranges
  | c :: chain' =>
      let lba := cluster_to_sector b c in
      trim_ranges chain' (match ranges with
        | (l, n) :: r => if u64 (l + n) =? lba then (l, u32 (n + sectors_per_cluster b)) :: r else (lba, sectors_per_cluster b) :: ranges
        | [] => [(lba, sectors_per_cluster b)]
        end)
  end.

Definition trim_cluster_chain (fuel : nat) (start_cluster : Z) : M fs unit :=
  match trim with
  | None => mret tt
  | Some dev_trim =>
      chain ← get_cluster_chain b can_alloc fuel start_cluster;
      match (chain : option (list Z)) with
      | None => mret tt
      | Some chain =>
          if zlen chain =? 0 then mret tt
          else
            chain ← sort_chain chain;
            ok ← alloc can_alloc;
            if negb ok then mret tt else modify (fun s => set_dev (dev_trim (trim_ranges chain []) (fs_dev s)) s)
      end
  end.

Definition delete_file (fuel : nat) (parent_cluster : Z) (name : list Z) : M fs (option error) :=
  r ← read_directory fuel parent_cluster;
  match (r : error + list file_entry) with
  | inl e => mret (Some e)
  | inr l =>
      match find_by_name (fun f => negb (fe_dir f)) name l with
      | None => mret (Some NoEnt)
      | Some f =>
          if is_protected (fe_entry f) then mret (Some Acces)
          else
            let start_cluster := get_first_cluster (fe_entry f) in
            _ ← (if negb (start_cluster =? 0) then _ ← trim_cluster_chain fuel start_cluster; _ ← free_cluster_chain b can_alloc fuel start_cluster; mret tt else mret tt);
            _ ← write_fs_info b;
            ok ← delete_directory_entry_in_directory fuel parent_cluster name;
            mret (if (ok : bool) then None else Some Io)
      end
  end.

Definition remove_directory (fuel : nat) (parent_cluster : Z) (name : list Z) : M fs (option error) :=
  r ← read_directory fuel parent_cluster;
  match (r : error + list file_entry) with
  | inl e => mret (Some e)
  | inr l =>
      match find_by_name fe_dir name l with
      | None => mret (Some NoEnt)
      | Some f =>
          let target_cluster := get_first_cluster (fe_entry f) in
          r ← read_directory fuel target_cluster;
          match (r : error + list file_entry) with
          | inl e => mret (Some e)
          | inr sub =>
              if 2 <? zlen sub then mret (Some NotEmpty)
              else
                _ ← trim_cluster_chain fuel target_cluster;
                _ ← free_cluster_chain b can_alloc fuel target_cluster;
                _ ← write_fs_info b;
                ok ← delete_directory_entry_in_directory fuel parent_cluster name;
                mret (if (ok : bool) then None else Some Io)
          end
      end
  end.

(** ** Renaming *)

(** The first entry with the size and the first cluster of [old]. *)
Fixpoint find_same (es : list (list Z)) (i : Z) (old : dirent) : option Z :=
  match es with
  | [] => None
  | e :: es' =>
      if e_first e =? 0 then None
      else if e_first e =? DELETED then find_same es' (i + 1) old
      else if e_attr e =? ATTR_VOLUME_ID then find_same es' (i + 1) old
      else
        let d := dirent_of e in
        if (de_size d =? de_size old) && (de_cluster_low d =? de_cluster_low old) && (de_cluster_high d =? de_cluster_high old) then Some i else find_same es' (i + 1) old
  end.

Fixpoint find_target (chain : list Z) (old : dirent) : M fs (option (Z * Z)) :=
  match chain with
  | [] => mret None
  | cluster :: chain' =>
      ok ← alloc can_alloc;
      if negb ok then find_target chain' old
      else
        r ← read_cluster b cluster;
        match (r : option (list Z)) with
        | None => find_target chain' old
        | Some buffer => match find_same (cluster_entries buffer) 0 old with Some i => mret (Some (cluster, i)) | None => find_target chain' old end
        end
  end.

(** The parts of a name in front of entry [i], counted backwards. *)
Fixpoint count_parts (before : list (list Z)) : Z :=
  match before with
  | [] => 0
  | e :: before' => if negb (Z.land (e_attr e) ATTR_LONG_NAME =? ATTR_LONG_NAME) then 0 else 1 + count_parts before'
  end.

(** Whether the [extra] entries in front of [start] exist and are free. *)
Definition room_before (es : list (list Z)) (start extra : Z) : bool :=
  forallb (fun i => (0 <=? i) && match es !! Z.to_nat i with Some e => (e_first e =? 0) || (e_first e =? DELETED) | None => false end) (seqZ (start - extra) extra).

Definition rename (fuel n : nat) (dir_cluster : Z) (old_name new_name : list Z) : M fs (option error) :=
  if bool_decide (old_name = []) || bool_decide (new_name = []) then mret (Some Inval)
  else
    r ← read_directory fuel dir_cluster;
    match (r : error + list file_entry) with
    | inl _ | inr [] => mret (Some NoEnt)
    | inr l =>
        match find_by_name (fun _ => true) old_name l with
        | None => mret (Some NoEnt)
        | Some f =>
            let old_entry := fe_entry f in
            if is_protected old_entry then mret (Some Acces)
            else
              chain ← get_cluster_chain b can_alloc fuel dir_cluster;
              match (chain : option (list Z)) with
              | None => mret (Some Io)
              | Some chain =>
                  r ← find_target chain old_entry;
                  match (r : option (Z * Z)) with
                  | None => mret (Some NoEnt)
                  | Some (target_cluster, target_entry_index) =>
                      ok ← alloc can_alloc;
                      if negb ok then mret (Some NoMem)
                      else
                        r ← read_cluster b target_cluster;
                        match (r : option (list Z)) with
                        | None => mret (Some Io)
                        | Some buffer =>
                            let es := cluster_entries buffer in
                            let old_lfn_count := count_parts (reverse (take (Z.to_nat target_entry_index) es)) in
                            let old_total_count := old_lfn_count + 1 in
                            let old_start_index := target_entry_index - old_lfn_count in
                            let new_lfn_count := lfn_needed new_name in
                            let new_total_count := new_lfn_count + 1 in
                            match make_short_name new_name with
                            | None => mret (Some Inval)
                            | Some new_short_name =>
                                let extra := new_total_count - old_total_count in
                                let can_overwrite := if old_total_count <? new_total_count then room_before es old_start_index extra else true in
                                es ← or_undef (erase_all old_start_index (Z.to_nat old_total_count) es);
                                let new_entry := set_name new_short_name old_entry in
                                if can_overwrite then
                                  es ← or_undef (write_lfn_entries es old_start_index new_name new_short_name);
                                  es ← or_undef (put_entry (old_start_index + new_lfn_count) (dirent_bytes new_entry) es);
                                  ok ← device_write (cluster_to_sector b target_cluster) (sectors_per_cluster b) (store_entries es buffer);
                                  mret (if (ok : bool) then None else Some Io)
                                else
                                  _ ← device_write (cluster_to_sector b target_cluster) (sectors_per_cluster b) (store_entries es buffer);
                                  ok ← write_directory_entry_with_lfn fuel n dir_cluster new_name new_short_name new_entry;
                                  mret (if (ok : bool) then None else Some Io)
                            end
                        end
                  end
              end
        end
    end.

(** ** Truncating *)

Definition truncate (fuel : nat) (n : node) (new_size : Z) : M fs (option error * node) :=
  n ← (if new_size =? 0 then
         if negb (n_cluster n =? 0) then _ ← trim_cluster_chain fuel (n_cluster n); _ ← free_cluster_chain b can_alloc fuel (n_cluster n); mret (set_cluster 0 n)
         else mret n
       else
         let needed := u64 (new_size + bytes_per_cluster b - 1) / bytes_per_cluster b in
         chain ← get_cluster_chain b can_alloc fuel (n_cluster n);
         _ ← (match (chain : option (list Z)) with
              | None => mret tt
              | Some chain =>
                  when (needed <? zlen chain) (
                    last ← or_undef (if 0 <? needed then chain !! Z.to_nat (needed - 1) else None);
                    _ ← write_fat_entry b fuel last 0x0FFFFFFF;
                    for_each (drop (Z.to_nat needed) chain) (fun c => _ ← write_fat_entry b fuel c 0; mret tt))
              end);
         mret n);
  let n := set_entry (update_write_time now (set_extent new_size (n_cluster n) (n_entry n))) (set_size new_size n) in
  ok ← overwrite_directory_entry b can_alloc fuel (n_parent n) (n_index n) (n_entry n);
  mret (if (ok : bool) then None else Some Io, n).
End dirs.
