(* ===== verification/FatDirFacts.v ===== *)
(** * Directories on FAT32: names and entries

    The parts of a long name give the name back, the entries of a cluster are its
    bytes in pieces of 32, and what a listing shows of a sequence of entries. *)

From Stdlib Require Import ZArith Lia.
From stdpp Require Import base tactics gmap numbers list.
From S2P Require Import Prelude.
From S2P Require Import Memory.
From S2P Require Import Slices.
From S2P Require Import Fat.
From S2P Require Import FatFile.
From S2P Require Import FatDir.

(** ** The parts of a long name *)

Definition short_int (v : Z) : Prop := 0 <= v < 65536.

Lemma half_to_le v : short_int v -> le_bytes (to_le 2 v) = v.
Proof. intros Hv. rewrite le_bytes_to_le. apply Z.mod_small. exact Hv. Qed.

Lemma lfn_chars order ck n1 n2 n3 :
  length n1 = 5%nat -> length n2 = 6%nat -> length n3 = 2%nat -> Forall short_int (n1 ++ n2 ++ n3) ->
  let e := lfn_bytes order ck n1 n2 n3 in lfn_name1 e = n1 /\ lfn_name2 e = n2 /\ lfn_name3 e = n3 /\ e_first e = order /\ e_attr e = ATTR_LONG_NAME /\ length e = 32%nat.
Proof.
  intros H1 H2 H3. do 6 (destruct n1 as [|? n1]; try discriminate H1). do 7 (destruct n2 as [|? n2]; try discriminate H2). do 3 (destruct n3 as [|? n3]; try discriminate H3).
  rewrite !Forall_app, !Forall_cons. intros ((?&?&?&?&?&_) & (?&?&?&?&?&?&_) & ?&?&_). split_and!; try reflexivity.
  - change ([le_bytes (to_le 2 z); le_bytes (to_le 2 z0); le_bytes (to_le 2 z1); le_bytes (to_le 2 z2); le_bytes (to_le 2 z3)] = [z; z0; z1; z2; z3]). by rewrite !half_to_le.
  - change ([le_bytes (to_le 2 z4); le_bytes (to_le 2 z5); le_bytes (to_le 2 z6); le_bytes (to_le 2 z7); le_bytes (to_le 2 z8); le_bytes (to_le 2 z9)] = [z4; z5; z6; z7; z8; z9]). by rewrite !half_to_le.
  - change ([le_bytes (to_le 2 z10); le_bytes (to_le 2 z11)] = [z10; z11]). by rewrite !half_to_le.
Qed.

(** The characters of a name, its end and the filling. *)
Definition char_at (name : list Z) (j : Z) : Z := if j <? zlen name then nth (Z.to_nat j) name 0 else if j =? zlen name then 0 else 0xFFFF.

Lemma copy_from_name_ok name n : forall q,
  0 <= q -> copy_from_name name (Z.min q (zlen name + 1)) n = (char_at name <$> seqZ q (Z.of_nat n), Z.min (q + Z.of_nat n) (zlen name + 1)).
Proof.
  induction n as [|n IH]; intros q Hq; cbn [copy_from_name].
  { by rewrite Z.add_0_r. }
  rewrite seqZ_cons by lia. replace (Z.pred (Z.of_nat (S n))) with (Z.of_nat n) by lia. cbn [fmap list_fmap].
  specialize (IH (q + 1) ltac:(lia)). replace (q + Z.of_nat (S n)) with (q + 1 + Z.of_nat n) by lia. unfold char_at at 1.
  destruct (Z.lt_trichotomy q (zlen name)) as [Hlt|[->|Hgt]].
  - rewrite !(proj2 (Z.ltb_lt _ _)) by lia. rewrite (Z.min_l q) by lia. rewrite Z.min_l in IH by lia. by rewrite IH.
  - rewrite Z.min_l by lia. rewrite Z.ltb_irrefl, Z.eqb_refl. rewrite Z.min_l in IH by lia. by rewrite IH.
  - rewrite (Z.min_r q) by lia. rewrite Z.min_r in IH by lia.
    rewrite !(proj2 (Z.ltb_ge _ _)), !(proj2 (Z.eqb_neq _ _)) by lia. by rewrite IH.
Qed.

(** The bytes of a name. *)
Definition name_ok (name : list Z) : Prop := Forall (fun c => 0 < c < 256) name /\ 0 < zlen name <= 255.

Lemma char_short name j : name_ok name -> 0 <= j -> short_int (char_at name j).
Proof.
  intros [Hn _] Hj. unfold char_at, short_int. destruct (Z.ltb_spec j (zlen name)); [|destruct (Z.eqb_spec j (zlen name)); lia].
  rewrite Forall_forall in Hn. assert (nth (Z.to_nat j) name 0 ∈ name) as Hin by (apply list_elem_of_In, nth_In; lia). apply Hn in Hin. lia.
Qed.

Definition part_chars (name : list Z) (i : Z) : list Z := char_at name <$> seqZ (i * 13) 13.

Lemma lfn_entry_ok name ck needed i :
  name_ok name -> 0 <= i < 20 -> i * 13 <= zlen name -> let e := lfn_entry name ck needed i in
  lfn_name1 e ++ lfn_name2 e ++ lfn_name3 e = part_chars name i /\ e_attr e = ATTR_LONG_NAME /\ length e = 32%nat /\ 0 < e_first e < DELETED.
Proof.
  intros Hn Hi Hle. unfold lfn_entry. replace (i * 13) with (Z.min (i * 13) (zlen name + 1)) by lia.
  rewrite !copy_from_name_ok by lia. set (n1 := _ <$> seqZ (i * 13) _). set (n2 := _ <$> seqZ (i * 13 + _) _). set (n3 := _ <$> seqZ (i * 13 + _ + _) _).
  match goal with |- context [lfn_bytes ?o] => set (order := o) end.
  assert (n1 ++ n2 ++ n3 = part_chars name i) as Hparts.
  { unfold n1, n2, n3, part_chars. rewrite <- !fmap_app. f_equal. change (Z.of_nat 5) with 5. change (Z.of_nat 6) with 6. change (Z.of_nat 2) with 2.
    rewrite <- (seqZ_app _ 6 2) by lia. by rewrite <- (seqZ_app _ 5 (6 + 2)) by lia. }
  destruct (lfn_chars order ck n1 n2 n3) as (-> & -> & -> & -> & -> & ->); [done..| |].
  { rewrite Hparts. apply Forall_fmap, Forall_forall. intros j Hj%elem_of_seqZ. apply char_short; [done|lia]. }
  split_and!; try done; unfold order, DELETED; rewrite u8_id by lia; destruct (i =? needed - 1); try lia.
  - assert (0 <= Z.lor (i + 1) 0x40) by (apply Z.lor_nonneg; lia). assert (Z.lor (i + 1) 0x40 <> 0); [|lia]. intros E%Z.lor_eq_0_iff. lia.
  - assert (Z.lor (i + 1) 0x40 < 2 ^ 7); [|lia]. apply Z.log2_lt_cancel. rewrite Z.log2_lor by lia. rewrite Z.log2_pow2 by lia.
    apply Z.max_lub_lt; [|done]. apply Z.log2_lt_pow2; lia.
Qed.

(** ** Reading the parts *)

Lemma copy_chars_app l1 l2 max buf :
  copy_chars (l1 ++ l2) max buf = let '(ok, buf') := copy_chars l1 max buf in if negb ok then (false, buf') else copy_chars l2 max buf'.
Proof. revert buf. induction l1 as [|c l1 IH]; intros buf; [done|]. cbn [app copy_chars]. destruct (_ || _); [done|]. destruct (_ <=? _); [done|]. apply IH. Qed.

Lemma copy_lfn_chars e max buf : copy_lfn_part e max buf = copy_chars (lfn_name1 e ++ lfn_name2 e ++ lfn_name3 e) max buf.
Proof.
  unfold copy_lfn_part. rewrite copy_chars_app. destruct (copy_chars (lfn_name1 e) max buf) as [[] buf1]; [|done]. cbn [negb]. by rewrite copy_chars_app.
Qed.

Lemma copy_chars_ok name n : forall j,
  name_ok name -> 0 <= j <= zlen name ->
  snd (copy_chars (char_at name <$> seqZ j (Z.of_nat n)) 256 (take (Z.to_nat j) name)) = take (Z.to_nat j + n) name.
Proof.
  induction n as [|n IH]; intros j Hn Hj; [by rewrite Nat.add_0_r|]. rewrite seqZ_cons by lia. replace (Z.pred (Z.of_nat (S n))) with (Z.of_nat n) by lia. cbn [fmap list_fmap copy_chars].
  pose proof Hn as [Hc Hl]. unfold char_at at 1 2 4. destruct (Z.ltb_spec j (zlen name)) as [Hlt|Hge].
  - destruct (nth_lookup_or_length name (Z.to_nat j) 0) as [Hx|]; [|lia]. set (c := nth _ _ _) in *. pose proof (Forall_lookup_1 _ _ _ _ Hc Hx) as Hr. cbn beta in Hr.
    rewrite !(proj2 (Z.eqb_neq _ _)) by lia. cbn [orb]. rewrite length_take, (proj2 (Z.leb_gt _ _)) by lia.
    assert (Z.land c 0xFF = c) as -> by (change 0xFF with (Z.ones 8); rewrite Z.land_ones, Z.mod_small by lia; done).
    rewrite <- (take_S_r _ _ _ Hx). replace (S (Z.to_nat j)) with (Z.to_nat (j + 1)) by lia. replace (Z.succ j) with (j + 1) by lia.
    rewrite IH by (done || lia). f_equal. lia.
  - assert (j = zlen name) as -> by lia. rewrite Z.eqb_refl. cbn [Z.eqb orb snd]. rewrite !take_ge by lia. done.
Qed.

(** The parts in their order give the name back. *)
Lemma copy_parts_ok name ck needed (k : nat) :
  name_ok name -> (Z.of_nat k <= 20) -> (Z.of_nat k - 1) * 13 <= zlen name ->
  copy_parts (lfn_entry name ck needed <$> seqZ 0 (Z.of_nat k)) = take (k * 13) name.
Proof.
  intros Hn. induction k as [|k IH]; intros Hk Hle; [done|]. unfold copy_parts in *. replace (Z.of_nat (S k)) with (Z.of_nat k + 1) by lia.
  rewrite seqZ_app by lia. rewrite fmap_app, foldl_app, IH by lia. rewrite Z.add_0_l, seqZ_cons by lia. cbn [fmap list_fmap foldl].
  rewrite copy_lfn_chars. destruct (lfn_entry_ok name ck needed (Z.of_nat k)) as (-> & _); [done|lia|lia|]. unfold part_chars.
  pose proof (copy_chars_ok name 13 (Z.of_nat k * 13) Hn ltac:(lia)) as E. replace (Z.to_nat (Z.of_nat k * 13)) with (k * 13)%nat in E by lia.
  rewrite (seqZ_nil _ (Z.pred 1)) by lia. cbn [fmap list_fmap foldl]. change 13 with (Z.of_nat 13) at 2. rewrite E. f_equal. lia.
Qed.

(** ** Writing the parts *)

(** What is written for a name: its parts, the last one first, and the entry. *)
Definition name_parts (name short_name : list Z) : list (list Z) :=
  lfn_entry name (chk_sum short_name) (lfn_needed name) <$> reverse (seqZ 0 (lfn_needed name)).
Definition name_group (name short_name : list Z) (e : dirent) : list (list Z) := name_parts name short_name ++ [dirent_bytes e].

Lemma needed_bounds name : name_ok name -> 0 < lfn_needed name <= 20 /\ (lfn_needed name - 1) * 13 < zlen name <= lfn_needed name * 13.
Proof. intros [_ Hl]. unfold lfn_needed. Z.div_mod_to_equations. lia. Qed.

Lemma parts_length name sn : zlen (name_parts name sn) = Z.max 0 (lfn_needed name).
Proof. unfold name_parts. rewrite length_fmap, length_reverse, length_seqZ. lia. Qed.

Lemma put_dirent_ok i e es : 0 <= i < zlen es -> put_entry i e es = Some (<[Z.to_nat i := e]> es).
Proof. intros. unfold put_entry. by rewrite (proj2 (Z.leb_le _ _)), (proj2 (Z.ltb_lt _ _)) by lia. Qed.

Lemma put_all_ok (g : Z -> list Z) (place : Z -> Z) top (m : nat) : forall es,
  (forall x, place x = top - 1 - x) -> Z.of_nat m <= top -> top <= zlen es ->
  foldl (fun es x => es ← es; put_entry (place x) (g x) es) (Some es) (reverse (seqZ 0 (Z.of_nat m))) =
    Some (take (Z.to_nat (top - Z.of_nat m)) es ++ (g <$> reverse (seqZ 0 (Z.of_nat m))) ++ drop (Z.to_nat top) es).
Proof.
  induction m as [|m IH]; intros es Hp Hm Ht.
  { cbn [Z.of_nat]. rewrite seqZ_nil by lia. cbn [reverse foldl fmap list_fmap app rev_append]. rewrite Z.sub_0_r. cbn. by rewrite take_drop. }
  replace (Z.of_nat (S m)) with (Z.of_nat m + 1) by lia. rewrite seqZ_app by lia. rewrite (seqZ_cons _ 1), (seqZ_nil _ (Z.pred 1)) by lia. rewrite reverse_snoc. cbn [foldl mbind option_bind fmap list_fmap].
  rewrite Hp. set (q := top - 1 - (0 + Z.of_nat m)). rewrite put_dirent_ok by lia. rewrite IH by (rewrite ?length_insert; done || lia). f_equal.
  replace (Z.to_nat (top - Z.of_nat m)) with (S (Z.to_nat q)) by lia. replace (Z.to_nat (top - (Z.of_nat m + 1))) with (Z.to_nat q) by lia.
  rewrite (take_S_r _ _ (g (0 + Z.of_nat m))) by (apply list_lookup_insert_eq; lia). rewrite take_insert_ge by lia. rewrite drop_insert_lt by lia.
  by rewrite <- app_assoc.
Qed.

Lemma write_parts_ok name sn es start :
  name_ok name -> 0 <= start -> start + lfn_needed name <= zlen es ->
  write_lfn_entries es start name sn = Some (take (Z.to_nat start) es ++ name_parts name sn ++ drop (Z.to_nat (start + lfn_needed name)) es).
Proof.
  intros Hn Hs Hin. pose proof (needed_bounds name Hn) as [Hb _]. pose proof Hn as [_ Hl]. unfold write_lfn_entries. rewrite (proj2 (Z.ltb_ge _ _)) by lia.
  pose proof (put_all_ok (lfn_entry name (chk_sum sn) (lfn_needed name)) (fun x => start + (lfn_needed name - 1 - x)) (start + lfn_needed name) (Z.to_nat (lfn_needed name)) es) as E.
  rewrite Z2Nat.id in E by lia. rewrite E by lia. by replace (start + lfn_needed name - lfn_needed name) with start by lia.
Qed.

(** The long name and the entry together. *)
Lemma enter_group_ok name sn e es start :
  name_ok name -> 0 <= start -> start + lfn_needed name + 1 <= zlen es ->
  (es' ← write_lfn_entries es start name sn; put_entry (start + lfn_needed name) (dirent_bytes e) es') =
    Some (take (Z.to_nat start) es ++ name_group name sn e ++ drop (Z.to_nat (start + lfn_needed name + 1)) es).
Proof.
  intros Hn Hs Hin. pose proof (needed_bounds name Hn) as [Hb _]. rewrite write_parts_ok by (done || lia). cbn [mbind option_bind].
  pose proof (parts_length name sn) as Hpl. rewrite put_dirent_ok by (rewrite !length_app, length_take, length_drop; lia). f_equal. unfold name_group.
  rewrite insert_app_r_alt by (rewrite length_take; lia). rewrite insert_app_r_alt by (rewrite length_take; lia). rewrite length_take.
  destruct (lookup_lt_is_Some_2 es (Z.to_nat (start + lfn_needed name))) as [x Hx]; [lia|]. rewrite (drop_S _ _ _ Hx).
  replace (_ - _ - _)%nat with 0%nat by lia. rewrite <- app_assoc. cbn [insert list_insert app].
  by replace (S (Z.to_nat (start + lfn_needed name))) with (Z.to_nat (start + lfn_needed name + 1)) by lia.
Qed.

(** ** Entries as bytes *)

Definition whole (e : list Z) : Prop := length e = 32%nat.

Lemma as_entries_length n buf : length (as_entries n buf) = n.
Proof. revert buf. induction n as [|n IH]; intros buf; [done|]. cbn. by rewrite IH. Qed.

Lemma as_entries_whole n buf : (n * 32 <= length buf)%nat -> Forall whole (as_entries n buf).
Proof.
  revert buf. induction n as [|n IH]; intros buf Hl; [constructor|]. cbn [as_entries]. constructor; [unfold whole; rewrite length_take; lia|]. apply IH. rewrite length_drop. lia.
Qed.

Lemma concat_as_entries n buf : (length buf = n * 32)%nat -> concat (as_entries n buf) = buf.
Proof.
  revert buf. induction n as [|n IH]; intros buf Hl; [by destruct buf|]. cbn [as_entries concat]. rewrite IH by (rewrite length_drop; lia). apply take_drop.
Qed.

Lemma as_entries_concat es rest : Forall whole es -> as_entries (length es) (concat es ++ rest) = es.
Proof.
  induction 1 as [|e es He Hes IH]; [done|]. cbn [length as_entries concat]. unfold whole in He. rewrite <- app_assoc, take_app_length', drop_app_length' by done. by rewrite IH.
Qed.

Lemma concat_length es : Forall whole es -> length (concat es) = (length es * 32)%nat.
Proof. induction 1 as [|e es He Hes IH]; [done|]. cbn [concat length]. rewrite length_app, IH, He. lia. Qed.

Lemma as_entries_app n m buf : as_entries (n + m) buf = as_entries n buf ++ as_entries m (drop (n * 32) buf).
Proof.
  revert buf. induction n as [|n IH]; intros buf; [done|]. cbn [Nat.add as_entries app]. rewrite IH, drop_drop. reflexivity.
Qed.

(** ** Free places *)

Definition is_free (e : list Z) : bool := ((e_first e =? 0) || (e_first e =? DELETED)) && negb (e_attr e =? ATTR_VOLUME_ID).

Lemma find_run_ok es need : forall i fc st p,
  0 < need -> 0 <= fc < need -> (0 < fc -> st = i - fc) -> find_run es i fc st need = Some p ->
  (p = i - fc \/ i <= p) /\ p + need <= i + zlen es /\ forall j, Z.max i p <= j < p + need -> exists e, es !! Z.to_nat (j - i) = Some e /\ is_free e = true.
Proof.
  induction es as [|e es IH]; intros i fc st p Hn Hfc Hst; cbn [find_run]; [done|].
  assert (forall fc' st', 0 <= fc' < need -> (0 < fc' -> st' = i + 1 - fc') -> (0 < fc' -> is_free e = true /\ fc' = fc + 1) -> find_run es (i + 1) fc' st' need = Some p ->
    (p = i - fc \/ i <= p) /\ p + need <= i + zlen (e :: es) /\ forall j, Z.max i p <= j < p + need -> exists x, (e :: es) !! Z.to_nat (j - i) = Some x /\ is_free x = true) as Hrec.
  { intros fc' st' H1 H2 H3 E. apply IH in E as (Hp & Hle & Hj); [|done..]. cbn [length]. split; [|split; [lia|]].
    - destruct Hp as [->|]; [|lia]. destruct (decide (fc' = 0)) as [->|]; [lia|]. destruct H3 as [_ ->]; lia.
    - intros j Hr. destruct (decide (j = i)) as [->|].
      + rewrite Z.sub_diag. exists e. split; [done|]. destruct Hp as [->|]; [|lia]. destruct (decide (fc' = 0)) as [->|]; [lia|]. apply H3. lia.
      + destruct (Hj j) as (x & Hx & Hfx); [lia|]. exists x. split; [|done]. replace (Z.to_nat (j - i)) with (S (Z.to_nat (j - (i + 1)))) by lia. exact Hx. }
  destruct ((e_first e =? 0) || (e_first e =? DELETED)) eqn:Hfree; [|apply Hrec; lia].
  destruct (e_attr e =? ATTR_VOLUME_ID) eqn:Hv; [apply Hrec; lia|]. assert (is_free e = true) as He by (unfold is_free; by rewrite Hfree, Hv).
  assert ((if fc =? 0 then i else st) = i - fc) as -> by (destruct (Z.eqb_spec fc 0); lia).
  destruct (Z.leb_spec need (fc + 1)); [|intros E; eapply Hrec; [| | |exact E]; [lia|lia|done]].
  intros [= <-]. assert (fc + 1 = need) by lia. split; [lia|]. split; [cbn [length]; lia|]. intros j Hj. assert (j = i) as -> by lia. rewrite Z.sub_diag. by exists e.
Qed.

(** ** Listings *)

Definition ended (e : list Z) : bool := e_first e =? 0.
Definition skipped_slot (e : list Z) : bool := (e_first e =? DELETED) || (e_attr e =? ATTR_VOLUME_ID).
Definition is_part (e : list Z) : bool := e_attr e =? ATTR_LONG_NAME.
Definition add_part (lfns : list (list Z)) (e : list Z) : list (list Z) := if zlen lfns <? 20 then lfns ++ [e] else lfns.

(** The files of a sequence of entries, up to the end marker. *)
Fixpoint listed (es : list (list Z)) (index : Z) (lfns : list (list Z)) : list file_entry :=
  match es with
  | [] => []
  | e :: es' =>
      if ended e then []
      else if skipped_slot e then listed es' (index + 1) lfns
      else if is_part e then listed es' (index + 1) (add_part lfns e)
      else make_file_entry lfns e index :: listed es' (index + 1) []
  end.

(** The parts that wait for their entry behind [es]. *)
Fixpoint waiting (es : list (list Z)) (lfns : list (list Z)) : list (list Z) :=
  match es with
  | [] => lfns
  | e :: es' => waiting es' (if skipped_slot e then lfns else if is_part e then add_part lfns e else [])
  end.

Lemma listed_app a b index lfns :
  forallb (fun e => negb (ended e)) a = true -> listed (a ++ b) index lfns = listed a index lfns ++ listed b (index + zlen a) (waiting a lfns).
Proof.
  revert index lfns. induction a as [|e a IH]; intros index lfns; cbn [app listed waiting forallb length]; [by rewrite Z.add_0_r|].
  intros [He Ha]%andb_true_iff. apply negb_true_iff in He. rewrite He. rewrite Nat2Z.inj_succ. replace (index + Z.succ (zlen a)) with (index + 1 + zlen a) by lia.
  destruct (skipped_slot e); [by apply IH|]. destruct (is_part e); [by apply IH|]. cbn [app]. f_equal. by apply IH.
Qed.

Lemma listed_stop a b index lfns : existsb ended a = true -> listed (a ++ b) index lfns = listed a index lfns.
Proof.
  revert index lfns. induction a as [|e a IH]; intros index lfns; [done|]. cbn [app listed existsb]. destruct (ended e); [done|]. cbn [orb]. intros Ha.
  destruct (skipped_slot e); [by apply IH|]. destruct (is_part e); [by apply IH|]. f_equal. by apply IH.
Qed.

Lemma listed_ended es index lfns : forallb ended es = true -> listed es index lfns = [].
Proof. destruct es as [|e es]; [done|]. cbn. by intros [-> _]%andb_true_iff. Qed.

(** The loop lists at most 256 files. *)
Definition LIMIT : nat := 256.

Lemma scan_entries_ok es : forall index lfns out,
  zlen out < READ_DIR_MAX_ENTRIES -> let all := out ++ listed es index lfns in let r := scan_entries es index lfns out in
  snd r = take LIMIT all /\ (zlen all < READ_DIR_MAX_ENTRIES -> fst (fst r) = existsb ended es /\ (existsb ended es = false -> snd (fst r) = waiting es lfns)).
Proof.
  change READ_DIR_MAX_ENTRIES with 256. unfold LIMIT. induction es as [|e es IH]; intros index lfns out Ho; cbv zeta; cbn [scan_entries listed waiting existsb]; change READ_DIR_MAX_ENTRIES with 256.
  { rewrite app_nil_r. split; [by rewrite take_ge by lia|done]. }
  change (e_first e =? 0) with (ended e). destruct (ended e); [rewrite app_nil_r; split; [by rewrite take_ge by lia|done]|].
  change ((e_first e =? DELETED) || (e_attr e =? ATTR_VOLUME_ID)) with (skipped_slot e). cbn [orb]. destruct (skipped_slot e); [by apply IH|]. change (e_attr e =? ATTR_LONG_NAME) with (is_part e). destruct (is_part e); [by apply IH|].
  set (f := make_file_entry lfns e index). rewrite (cons_middle f out (listed es (index + 1) [])), (app_assoc out [f] (listed es (index + 1) [])). destruct (Z.leb_spec 256 (zlen (out ++ [f]))) as [Hfull|Hroom]; [|by apply IH].
  cbn [fst snd]. rewrite length_app in Hfull. cbn [length] in Hfull. split; [rewrite take_app_le, take_ge by (rewrite length_app; cbn [length]; lia); done|].
  intros Hlt. rewrite !length_app in Hlt. cbn [length] in Hlt. lia.
Qed.

Lemma scan_entries_app a b : forall index lfns out,
  scan_entries (a ++ b) index lfns out =
    let '(stop, lfns', out') := scan_entries a index lfns out in if (stop : bool) then (true, lfns', out') else scan_entries b (index + zlen a) lfns' out'.
Proof.
  induction a as [|e a IH]; intros index lfns out; cbn [app scan_entries length]; [by rewrite Z.add_0_r|].
  replace (index + Z.of_nat (S (length a))) with (index + 1 + zlen a) by lia. destruct (e_first e =? 0); [done|]. destruct (_ || _); [apply IH|]. destruct (e_attr e =? _); [apply IH|].
  destruct (_ <=? _); [done|apply IH].
Qed.

Lemma scan_clusters_concat ess : forall index lfns out, scan_clusters ess index lfns out = scan_entries (concat ess) index lfns out.
Proof.
  induction ess as [|es ess IH]; intros index lfns out; [done|]. cbn [scan_clusters concat]. rewrite scan_entries_app.
  destruct (scan_entries es index lfns out) as [[[] lfns'] out']; [done|apply IH].
Qed.

(** ** Tidy directories *)

(** Nothing is behind the end marker, and no part of a name without its entry. *)
Inductive dir_state := Closed | Open | Ended.

Definition dir_step (st : option dir_state) (e : list Z) : option dir_state :=
  match st with
  | None => None
  | Some Ended => if ended e then Some Ended else None
  | Some Closed => if ended e then Some Ended else if skipped_slot e then Some Closed else if is_part e then Some Open else Some Closed
  | Some Open => if ended e then None else if skipped_slot e then None else if is_part e then Some Open else Some Closed
  end.

Definition dir_run (st : option dir_state) (es : list (list Z)) : option dir_state := foldl dir_step st es.
Definition tidy (es : list (list Z)) : bool := match dir_run (Some Closed) es with Some Closed | Some Ended => true | _ => false end.

Lemma dir_run_app st a b : dir_run st (a ++ b) = dir_run (dir_run st a) b.
Proof. apply foldl_app. Qed.

Lemma dir_run_none es : dir_run None es = None.
Proof. by induction es. Qed.

Lemma dir_run_ended es : is_Some (dir_run (Some Ended) es) -> dir_run (Some Ended) es = Some Ended /\ forallb ended es = true.
Proof.
  induction es as [|e es IH]; [done|]. unfold dir_run in *. cbn [foldl dir_step forallb]. destruct (ended e); [done|]. fold (dir_run None es). rewrite dir_run_none. by intros [? ?].
Qed.

Lemma dir_run_zeros es : forallb ended es = true -> dir_run (Some Ended) es = Some Ended /\ dir_run (Some Closed) es <> Some Open /\ is_Some (dir_run (Some Closed) es).
Proof.
  intros Hz. assert (dir_run (Some Ended) es = Some Ended) as He.
  { induction es as [|e es IH]; [done|]. cbn in Hz. apply andb_true_iff in Hz as [Hz1 Hz2]. unfold dir_run in *. cbn [foldl dir_step]. rewrite Hz1. by apply IH. }
  split; [done|]. destruct es as [|e es]; [done|]. cbn in Hz. apply andb_true_iff in Hz as [Hz1 Hz2]. unfold dir_run in *. cbn [foldl dir_step] in *. rewrite Hz1 in *. by rewrite He.
Qed.

(** Without an end marker the end is not reached. *)
Lemma dir_run_live st es : st <> Some Ended -> forallb (fun e => negb (ended e)) es = true -> dir_run st es <> Some Ended.
Proof.
  revert st. induction es as [|e es IH]; intros st Hst; [done|]. cbn [forallb]. intros [He%negb_true_iff Hes]%andb_true_iff. apply IH; [|done].
  destruct st as [[]|]; cbn; try done; rewrite He; destruct (skipped_slot e), (is_part e); done.
Qed.

(** Nothing waits where a directory is closed. *)
Lemma waiting_closed es : forall st lfns,
  (st = Closed -> lfns = []) -> st <> Ended -> forallb (fun e => negb (ended e)) es = true -> dir_run (Some st) es = Some Closed -> waiting es lfns = [].
Proof.
  induction es as [|e es IH]; intros st lfns Hl Hst; [intros _ [= ->]; by apply Hl|]. cbn [forallb]. intros [He%negb_true_iff Hes]%andb_true_iff.
  unfold dir_run in *. cbn [foldl dir_step waiting]. fold (dir_run None es). destruct st; rewrite ?He; try done; destruct (skipped_slot e), (is_part e); rewrite ?dir_run_none; try done; intros Hr;
    (eapply IH; [| |done|exact Hr]; (done || by rewrite ?Hl)).
Qed.

(** ** Entering a name *)

Local Abbreviation live := (forallb (fun e => negb (ended e))).

(** An entry of 32 bytes that stands for a file or a directory. *)
Definition plain_entry (e : list Z) : Prop := ended e = false /\ skipped_slot e = false /\ is_part e = false.

Section group.
Context (name sn : list Z) (e : dirent).
Hypothesis (Hn : name_ok name) (He : plain_entry (dirent_bytes e)).
Local Abbreviation parts := (name_parts name sn).
Local Abbreviation group := (name_group name sn e).

Lemma parts_ok : Forall (fun p => ended p = false /\ skipped_slot p = false /\ is_part p = true /\ whole p) parts.
Proof.
  pose proof (needed_bounds name Hn). apply Forall_fmap, Forall_reverse, Forall_forall. intros i Hi%elem_of_seqZ. cbn.
  destruct (lfn_entry_ok name (chk_sum sn) (lfn_needed name) i) as (_ & Ha & Hl & Hf); [done|lia|lia|]. unfold ended, skipped_slot, is_part, DELETED in *. rewrite Ha.
  set (x := e_first _) in *. rewrite !(proj2 (Z.eqb_neq x _)) by lia. done.
Qed.

Lemma group_length : zlen group = lfn_needed name + 1.
Proof. pose proof (needed_bounds name Hn). unfold name_group. rewrite length_app. pose proof (parts_length name sn). cbn [length]. lia. Qed.

Lemma parts_wait (l : list (list Z)) : Forall (fun p => skipped_slot p = false /\ is_part p = true) l -> forall lfns, zlen (lfns ++ l) <= 20 -> waiting l lfns = lfns ++ l.
Proof.
  induction 1 as [|p l [H1 H2] Hl IH]; intros lfns Hle; [by rewrite app_nil_r|]. rewrite length_app in Hle. cbn [waiting length] in *. rewrite H1, H2. unfold add_part.
  rewrite (proj2 (Z.ltb_lt _ _)) by lia. rewrite IH by (rewrite !length_app; cbn [length]; lia). by rewrite <- app_assoc.
Qed.

Lemma parts_live : live parts = true /\ waiting parts [] = parts /\ forall i, listed parts i [] = [].
Proof.
  pose proof parts_ok as Hp. split; [|split].
  - apply Is_true_eq_true, forallb_True. eapply Forall_impl; [exact Hp|]. intros p (-> & _). done.
  - rewrite parts_wait; [done| |]; [by eapply Forall_impl; [exact Hp|]; intros p (_ & ? & ? & _)|]. cbn [app]. rewrite parts_length. pose proof (needed_bounds name Hn). lia.
  - generalize (@nil (list Z)). induction Hp as [|p l (H1 & H2 & H3 & _) Hl IH]; intros lfns i; [done|]. cbn [listed]. rewrite H1, H2, H3. apply IH.
Qed.

Lemma group_listed i post :
  listed (group ++ post) i [] = make_file_entry parts (dirent_bytes e) (i + lfn_needed name) :: listed post (i + lfn_needed name + 1) [].
Proof.
  destruct parts_live as (H1 & H2 & H3). destruct He as (E1 & E2 & E3). unfold name_group. rewrite <- app_assoc, listed_app by done. rewrite H2, H3. cbn [app listed]. rewrite E1, E2, E3.
  pose proof (parts_length name sn). pose proof (needed_bounds name Hn). by replace (zlen parts) with (lfn_needed name) by lia.
Qed.

Lemma group_closed : dir_run (Some Closed) group = Some Closed.
Proof.
  destruct He as (E1 & E2 & E3). unfold name_group. rewrite dir_run_app. pose proof parts_ok as Hp.
  assert (forall st, st = Closed \/ st = Open -> dir_run (Some st) parts = Some Closed \/ dir_run (Some st) parts = Some Open) as Hr.
  { induction Hp as [|p l (H1 & H2 & H3 & _) Hl IH]; intros st Hst; [by destruct Hst as [->| ->]; [left|right]|].
    unfold dir_run in *. cbn [foldl]. destruct Hst as [->| ->]; cbn [dir_step]; rewrite H1, H2, H3; apply IH; by right. }
  destruct (Hr Closed) as [->| ->]; [by left| |]; unfold dir_run; cbn; by rewrite E1, E2, E3.
Qed.

Lemma group_whole : length (de_name e) = 11%nat -> Forall whole group.
Proof.
  intros Hl. unfold name_group. apply Forall_app. split; [by eapply Forall_impl; [apply parts_ok|]; intros p (_ & _ & _ & ?)|]. constructor; [|constructor].
  unfold whole, dirent_bytes. rewrite !length_app, !length_to_le, Hl. done.
Qed.

Lemma until_zero_id l : Forall (fun c => 0 < c < 256) l -> until_zero l = l.
Proof. induction 1 as [|c l Hc Hl IH]; [done|]. cbn. rewrite (proj2 (Z.eqb_neq _ _)) by lia. by rewrite IH. Qed.

(** The new file has the name. *)
Lemma group_name i : get_name (make_file_entry parts (dirent_bytes e) i) = name.
Proof.
  pose proof (needed_bounds name Hn) as [Hb1 Hb2]. pose proof Hn as [Hc Hl]. unfold make_file_entry, get_name. cbn [fe_long fe_short].
  rewrite (bool_decide_eq_false_2 (parts = [])) by (intros E; pose proof (parts_length name sn); rewrite E in *; cbn in *; lia).
  assert (copy_parts (reverse parts) = name) as ->.
  { unfold name_parts. rewrite <- fmap_reverse, reverse_involutive. rewrite <- (Z2Nat.id (lfn_needed name)) at 2 by lia. rewrite copy_parts_ok by (done || lia). apply take_ge. lia. }
  rewrite until_zero_id, take_ge by (done || lia). rewrite bool_decide_eq_false_2; [done|]. intros ->. cbn in Hl. lia.
Qed.
End group.

Lemma free_slots slots :
  forallb is_free slots = true -> slots <> [] ->
  dir_run (Some Open) slots = None /\
  ((live slots = true /\ dir_run (Some Closed) slots = Some Closed /\ waiting slots [] = [] /\ forall i, listed slots i [] = []) \/
   (existsb ended slots = true /\ (forall post, is_Some (dir_run (Some Closed) (slots ++ post)) -> forallb ended post = true) /\ forall i, listed slots i [] = [])).
Proof.
  intros Hf Hne. split.
  { destruct slots as [|s slots]; [done|]. cbn in Hf. apply andb_true_iff in Hf as [Hf _]. unfold is_free in Hf. apply andb_true_iff in Hf as [Hf _].
    unfold dir_run. cbn [foldl dir_step]. unfold ended, skipped_slot. destruct (e_first s =? 0); [apply dir_run_none|]. cbn in Hf. rewrite Hf. apply dir_run_none. }
  clear Hne. induction slots as [|s slots IH]; [by left|]. cbn [forallb] in Hf. apply andb_true_iff in Hf as [Hs Hf]. unfold is_free in Hs. apply andb_true_iff in Hs as [Hs _].
  change (e_first s =? 0) with (ended s) in Hs. cbn [forallb existsb listed waiting]. destruct (ended s) eqn:He.
  - right. split; [done|]. split; [|done]. intros post. unfold dir_run. cbn [app foldl dir_step]. rewrite He. fold (dir_run (Some Ended) (slots ++ post)).
    intros [_ Hz]%dir_run_ended. rewrite forallb_app in Hz. by apply andb_true_iff in Hz as [_ ?].
  - cbn in Hs. assert (skipped_slot s = true) as Hsk by (unfold skipped_slot; by rewrite Hs). rewrite Hsk. cbn [negb andb orb]. unfold dir_run in *. cbn [app foldl dir_step]. rewrite He, Hsk.
    destruct (IH Hf) as [(H1 & H2 & H3 & H4)|(H1 & H2 & H3)]; [left|right]; by split_and!.
Qed.

(** Free entries in front of the end marker become a file; the listing gets it,
    and nothing else changes. *)
Lemma enter_listed name sn e pre slots post :
  name_ok name -> plain_entry (dirent_bytes e) -> tidy (pre ++ slots ++ post) = true -> live pre = true -> forallb is_free slots = true -> zlen slots = lfn_needed name + 1 ->
  let group := name_group name sn e in let new := make_file_entry (name_parts name sn) (dirent_bytes e) (zlen pre + lfn_needed name) in
  tidy (pre ++ group ++ post) = true /\
  exists f1 f2, listed (pre ++ slots ++ post) 0 [] = f1 ++ f2 /\ listed (pre ++ group ++ post) 0 [] = f1 ++ new :: f2.
Proof.
  intros Hn He Ht Hpre Hsl Hlen group new. pose proof (needed_bounds name Hn) as [Hb _]. assert (slots <> []) as Hne by (intros ->; cbn in Hlen; lia).
  destruct (free_slots slots Hsl Hne) as [Hopen Hcase]. unfold tidy in *. rewrite !dir_run_app in *.
  assert (dir_run (Some Closed) pre = Some Closed) as Hcl.
  { destruct (dir_run (Some Closed) pre) as [[]|] eqn:E; [done| | |]; [by rewrite Hopen, dir_run_none in Ht| |by rewrite !dir_run_none in Ht].
    by destruct (dir_run_live (Some Closed) pre). }
  rewrite Hcl in *. unfold group. rewrite (group_closed name sn e Hn He). rewrite !(listed_app pre) by done.
  rewrite (waiting_closed pre Closed []) by done. rewrite Z.add_0_l, (group_listed name sn e Hn He).
  destruct Hcase as [(H1 & H2 & H3 & H4)|(H1 & H2 & H3)].
  - rewrite H2 in Ht. split; [done|]. eexists _, _. split; [reflexivity|]. rewrite listed_app by done. rewrite H3, H4. cbn [app]. unfold new. do 2 f_equal.
    f_equal. lia.
  - rewrite <- dir_run_app in Ht. assert (forallb ended post = true) as Hz.
    { apply H2. destruct (dir_run _ _); [by eexists|done]. }
    destruct (dir_run_zeros post Hz) as (_ & Hno & [x Hx]). rewrite Hx in *. split; [by destruct x|]. eexists _, []. rewrite app_nil_r.
    rewrite listed_stop, H3, app_nil_r by done. rewrite (listed_ended post) by done. done.
Qed.

(** ** Cutting a directory into runs *)

Lemma listed_prefix a b index lfns : exists x, listed (a ++ b) index lfns = listed a index lfns ++ x.
Proof.
  destruct (live a) eqn:Hl; [rewrite listed_app by done; by eexists|]. exists []. rewrite app_nil_r. apply listed_stop.
  induction a as [|e a IH]; [done|]. cbn in *. destruct (ended e); [done|]. by apply IH.
Qed.

Lemma live_ended a : live a = negb (existsb ended a).
Proof. induction a as [|e a IH]; [done|]. cbn. rewrite IH. by destruct (ended e). Qed.

Lemma dir_run_stop a : forall st, existsb ended a = true -> is_Some (dir_run st a) -> dir_run st a = Some Ended.
Proof.
  induction a as [|e a IH]; intros st; [done|]. cbn [existsb]. destruct (ended e) eqn:He; [intros _|by apply IH].
  unfold dir_run. cbn [foldl]. destruct st as [[]|]; cbn [dir_step]; rewrite ?He; [apply dir_run_ended| |apply dir_run_ended|]; fold (dir_run None a); rewrite dir_run_none; by intros [? ?].
Qed.

(** Behind an end marker in a tidy directory there is nothing to list. *)
Lemma tidy_stop st a b index lfns : existsb ended a = true -> is_Some (dir_run st (a ++ b)) -> listed b index lfns = [].
Proof.
  intros He Hr. rewrite dir_run_app in Hr. assert (is_Some (dir_run st a)) as Ha by (destruct (dir_run st a); [by eexists|by rewrite dir_run_none in Hr]).
  rewrite (dir_run_stop a st He Ha) in Hr. apply dir_run_ended in Hr as [_ Hz]. by apply listed_ended.
Qed.

Lemma as_entries_left n a b : (n * 32 <= length a)%nat -> as_entries n (a ++ b) = as_entries n a.
Proof.
  revert a. induction n as [|n IH]; intros a Hl; [done|]. cbn [as_entries]. rewrite take_app_le, drop_app_le by lia. rewrite IH by (rewrite length_drop; lia). done.
Qed.

(** ** The entry of a new file *)

(** An entry whose fields fit their places. *)
Record dirent_ok (e : dirent) : Prop := {
  dk_name : length (de_name e) = 11%nat;
  dk_bytes : 0 <= de_attr e < 256 /\ 0 <= de_nt_res e < 256 /\ 0 <= de_creation_tenths e < 256;
  dk_times : short_int (de_creation_time e) /\ short_int (de_creation_date e) /\ short_int (de_access_date e) /\ short_int (de_write_time e) /\ short_int (de_write_date e);
  dk_cluster : short_int (de_cluster_high e) /\ short_int (de_cluster_low e);
  dk_size : 0 <= de_size e < 2 ^ 32
}.

Lemma dirent_roundtrip e : dirent_ok e -> dirent_of (dirent_bytes e) = e.
Proof.
  destruct e as [name at_ nt ct cti cd ad ch wt wd cl sz]. intros [Hl (B1 & B2 & B3) (T1 & T2 & T3 & T4 & T5) (C1 & C2) Hs]. cbn [de_name de_attr de_nt_res de_creation_tenths de_creation_time de_creation_date de_access_date de_cluster_high de_write_time de_write_date de_cluster_low de_size] in *.
  do 12 (destruct name as [|? name]; try discriminate Hl).
  assert (forall v, 0 <= v < 256 -> u8 v = v) as H8 by (intros; by apply u8_id).
  assert (le_bytes (to_le 4 sz) = sz) as H4 by (rewrite le_bytes_to_le; by apply Z.mod_small).
  rewrite <- (H8 at_), <- (H8 nt), <- (H8 ct) at 2 by done. rewrite <- H4 at 2.
  rewrite <- (half_to_le cti), <- (half_to_le cd), <- (half_to_le ad), <- (half_to_le ch), <- (half_to_le wt), <- (half_to_le wd), <- (half_to_le cl) at 2 by done. reflexivity.
Qed.

Lemma last_dot_split s n e : last_dot s = Some (n, e) -> s = n ++ DOT :: e.
Proof.
  revert n. induction s as [|c s IH]; intros n; [done|]. cbn [last_dot]. destruct (last_dot s) as [[n' e']|] eqn:E.
  - intros [= <- <-]. cbn. f_equal. by apply IH.
  - destruct (Z.eqb_spec c DOT) as [->|]; [|done]. by intros [= <- <-].
Qed.

Local Abbreviation byte := (fun c => 0 < c < 256).

Lemma kept_bytes s : Forall byte s -> Forall byte (kept_chars s).
Proof.
  intros Hs. apply Forall_fmap, Forall_forall. intros c [_ Hc]%list_elem_of_filter. rewrite Forall_forall in Hs. apply Hs in Hc. cbn. unfold to_upper.
  destruct (Z.leb_spec 97 c), (Z.leb_spec c 122); cbn; lia.
Qed.

Lemma kept_length s : (length (kept_chars s) <= length s)%nat.
Proof. unfold kept_chars. rewrite length_fmap. apply length_filter. Qed.

Lemma pad_bytes n s : Forall byte s -> Forall byte (pad n s).
Proof. intros Hs. apply Forall_app. split; [done|]. by apply Forall_replicate. Qed.

Lemma pad_length n s : (length s <= n)%nat -> length (pad n s) = n.
Proof. intros. unfold pad. rewrite length_app, length_replicate. lia. Qed.

Lemma short_name_ok name sn : Forall byte name -> make_short_name name = Some sn -> length sn = 11%nat /\ Forall byte sn.
Proof.
  intros Hn. unfold make_short_name. set (p := default (name, []) (last_dot name)).
  assert (Forall byte p.1 /\ Forall byte p.2) as [H1 H2].
  { unfold p. destruct (last_dot name) as [[n e]|] eqn:E; [|done]. apply last_dot_split in E as ->. apply Forall_app in Hn as [? [_ ?]%Forall_cons]. done. }
  destruct p as [n e]. cbn [fst snd] in *. destruct (zlen n =? 0); [done|]. intros [= <-].
  assert (length (pad 8 (take 8 (kept_chars n))) = 8%nat) as L8 by (apply pad_length; rewrite length_take; lia).
  assert (length (pad 3 (kept_chars (take 3 e))) = 3%nat) as L3 by (apply pad_length; pose proof (kept_length (take 3 e)) as Hk; rewrite length_take in Hk; lia).
  assert (Forall byte (pad 8 (take 8 (kept_chars n)))) as F8 by (by apply pad_bytes, Forall_take, kept_bytes).
  assert (Forall byte (pad 3 (kept_chars (take 3 e)))) as F3 by (by apply pad_bytes, kept_bytes, Forall_take).
  rewrite length_app, L3, Forall_app. destruct (zlen n <=? 8); [|split; [lia|done]].
  rewrite length_app, length_take, L8. split; [done|]. split; [|done]. apply Forall_app. split; [by apply Forall_take|]. by repeat constructor.
Qed.

Lemma halves_join f : 0 <= f < 2 ^ 32 -> Z.lor (Z.shiftl (Z.land (Z.shiftr f 16) 0xFFFF) 16) (Z.land f 0xFFFF) = f.
Proof.
  intros Hf. apply Z.bits_inj'. intros n Hn. change 0xFFFF with (Z.ones 16). rewrite Z.lor_spec, Z.shiftl_spec by done.
  destruct (Z.lt_ge_cases n 16).
  - rewrite Z.testbit_neg_r by lia. cbn [orb]. rewrite Z.land_spec. by rewrite Z.ones_spec_low, andb_true_r by lia.
  - rewrite (Z.land_spec f), (Z.ones_spec_high 16 n), andb_false_r, orb_false_r by lia. rewrite Z.land_spec, Z.shiftr_spec by lia. replace (n - 16 + 16) with n by lia.
    destruct (Z.lt_ge_cases n 32); [by rewrite Z.ones_spec_low, andb_true_r by lia|]. rewrite Z.ones_spec_high, andb_false_r by lia.
    symmetry. destruct (decide (f = 0)) as [->|]; [apply Z.testbit_0_l|]. apply Z.bits_above_log2; [lia|]. assert (Z.log2 f < 32) by (apply Z.log2_lt_pow2; lia). lia.
Qed.

(** The attributes of new files and directories. *)
Definition new_attr (attr : Z) : Prop := attr = 0x20 \/ attr = 0x21 \/ attr = 0x10 \/ attr = 0x11.

Lemma new_entry_ok now sn attr f :
  length sn = 11%nat -> Forall byte sn -> new_attr attr -> 0 <= f < 2 ^ 32 -> let e := update_create_time now (blank_entry sn attr f) in
  dirent_ok e /\ get_first_cluster e = f /\ de_size e = 0 /\ de_attr e = attr /\ de_name e = sn /\ (hd 0 sn <> DELETED -> plain_entry (dirent_bytes e)).
Proof.
  intros Hl Hb Ha Hf e. assert (dirent_ok e) as Hk.
  { assert (forall x, short_int (u16 x)) as H16 by (intros x; unfold short_int, u16, wrapu; Z.div_mod_to_equations; lia).
    assert (forall x, short_int (Z.land x 0xFFFF)) as Hl16 by (intros x; unfold short_int; change 0xFFFF with (Z.ones 16); rewrite Z.land_ones by lia; Z.div_mod_to_equations; lia).
    split; [exact Hl| |split_and!; apply H16|split; apply Hl16|done]. split; [destruct Ha as [->|[->|[->| ->]]]; done|]. split; [done|].
    apply (wrapu_range 8). done. }
  split; [done|]. split; [exact (halves_join f Hf)|]. split; [reflexivity|]. split; [reflexivity|]. split; [reflexivity|]. intros Hne.
  assert (e_attr (dirent_bytes e) = attr /\ e_first (dirent_bytes e) = hd 0 sn) as [Ea Ef].
  { do 12 (destruct sn as [|? sn]; try discriminate Hl). split; [|done]. change (e_attr (dirent_bytes e)) with (u8 attr). apply u8_id. destruct Ha as [->|[->|[->| ->]]]; lia. }
  assert (0 < hd 0 sn < 256) by (destruct sn as [|c sn]; [done|]; by apply Forall_cons in Hb as [? _]).
  unfold plain_entry, ended, skipped_slot, is_part. rewrite Ea, Ef, !(proj2 (Z.eqb_neq (hd 0 sn) _)) by (done || lia). destruct Ha as [->|[->|[->| ->]]]; done.
Qed.

(** ** An empty cluster has room *)

Lemma find_run_all es need : forall i fc st,
  forallb is_free es = true -> 0 <= fc < need -> need <= fc + zlen es -> find_run es i fc st need = Some (if fc =? 0 then i else st).
Proof.
  induction es as [|e es IH]; intros i fc st; cbn [forallb length find_run]; [lia|]. intros [He Hes]%andb_true_iff Hfc Hn. unfold is_free in He. apply andb_true_iff in He as [-> Hv].
  apply negb_true_iff in Hv. rewrite Hv. destruct (Z.leb_spec need (fc + 1)); [done|]. rewrite IH by (done || lia). rewrite (proj2 (Z.eqb_neq (fc + 1) 0)) by lia. done.
Qed.

Lemma zero_entries n : as_entries n (replicate (n * 32) 0) = replicate n (replicate 32 0).
Proof.
  induction n as [|n IH]; [done|]. cbn [as_entries]. rewrite take_replicate, drop_replicate. rewrite Nat.min_l by lia. replace (S n * 32 - 32)%nat with (n * 32)%nat by lia. by rewrite IH.
Qed.

(** ** Finding and removing a name *)

Definition part_entry (e : list Z) : Prop := ended e = false /\ skipped_slot e = false /\ is_part e = true.

(** The entry and the parts in front of it. *)
Record found_here (es : list (list Z)) (fo : found_entry) (pre parts : list (list Z)) (e : list Z) (post : list (list Z)) : Prop := {
  fh_split : es = pre ++ parts ++ e :: post;
  fh_live : live pre = true;
  fh_closed : dir_run (Some Closed) pre = Some Closed;
  fh_parts : Forall part_entry parts;
  fh_entry : plain_entry e;
  fh_index : fo_entry fo = zlen pre + zlen parts;
  fh_count : fo_lfn_count fo = zlen parts;
  fh_start : parts <> [] -> fo_lfn_start fo = zlen pre
}.

Lemma open_parts st parts : Forall part_entry parts -> st = Closed \/ st = Open -> parts <> [] -> dir_run (Some st) parts = Some Open.
Proof.
  intros Hp. revert st. induction Hp as [|p l (H1 & H2 & H3) Hl IH]; intros st Hst Hne; [done|]. unfold dir_run in *. cbn [foldl].
  assert (dir_step (Some st) p = Some Open) as -> by (destruct Hst as [->| ->]; cbn; by rewrite H1, H2, H3).
  destruct l as [|q l]; [done|]. apply IH; [by right|done].
Qed.

Lemma entries_live_app a b : live (a ++ b) = live a && live b.
Proof. apply forallb_app. Qed.

Lemma parts_alive l : Forall part_entry l -> live l = true.
Proof. intros H. apply Is_true_eq_true, forallb_True. eapply Forall_impl; [exact H|]. intros p (-> & _). done. Qed.

Lemma find_name_ok all name : forall es pre pend j ls lc fo,
  all = pre ++ pend ++ es -> is_Some (dir_run (Some Closed) all) -> live pre = true -> dir_run (Some Closed) pre = Some Closed -> Forall part_entry pend ->
  j = zlen pre + zlen pend -> lc = zlen pend -> (pend <> [] -> ls = zlen pre) -> find_name all es j ls lc name = Some fo ->
  exists pre' parts e post, found_here all fo pre' parts e post.
Proof.
  induction es as [|e es IH]; intros pre pend j ls lc fo Hall Htidy Hlive Hcl Hpend Hj Hlc Hls; [done|]. cbn [find_name].
  change (e_first e =? 0) with (ended e). destruct (ended e) eqn:He; [done|].
  assert (forall ls', skipped_slot e = true -> find_name all es (j + 1) ls' 0 name = Some fo -> exists pre' parts e' post, found_here all fo pre' parts e' post) as Hskip.
  { intros ls' Hs Hf. assert (pend = []) as ->.
    { destruct pend as [|p pend]; [done|]. exfalso. rewrite Hall, !dir_run_app, Hcl, (open_parts Closed) in Htidy by (done || by left).
      unfold dir_run in Htidy. cbn [foldl dir_step] in Htidy. rewrite He, Hs in Htidy. fold (dir_run None es) in Htidy. rewrite dir_run_none in Htidy. by destruct Htidy. }
    apply (IH (pre ++ [e]) [] (j + 1) ls' 0); try done; [by rewrite Hall, <- app_assoc|by rewrite entries_live_app, Hlive; cbn; rewrite He| |rewrite length_app; cbn [length] in *; lia].
    rewrite dir_run_app, Hcl. unfold dir_run. cbn. by rewrite He, Hs. }
  destruct (e_first e =? DELETED) eqn:Hd; [apply Hskip; unfold skipped_slot; by rewrite Hd|].
  destruct (e_attr e =? ATTR_VOLUME_ID) eqn:Hv; [apply Hskip; unfold skipped_slot; by rewrite Hd, Hv|]. assert (skipped_slot e = false) as Hs by (unfold skipped_slot; by rewrite Hd, Hv).
  change (e_attr e =? ATTR_LONG_NAME) with (is_part e). destruct (is_part e) eqn:Hp.
  { intros Hf. apply (IH pre (pend ++ [e]) (j + 1) (if lc =? 0 then j else ls) (lc + 1)); try done; [by rewrite Hall, <- app_assoc|apply Forall_app; split; [done|by constructor]|rewrite length_app; cbn [length]; lia|rewrite length_app; cbn [length]; lia|].
    intros _. destruct (Z.eqb_spec lc 0); [destruct pend; cbn [length] in *; lia|]. apply Hls. intros ->. cbn in Hlc. lia. }
  destruct (strcasecmp _ _ =? 0).
  - intros [= <-]. by exists pre, pend, e, es.
  - intros Hf. apply (IH (pre ++ pend ++ [e]) [] (j + 1) ls 0); try done; [by rewrite Hall, <- !app_assoc|rewrite !entries_live_app, Hlive, parts_alive by done; cbn; by rewrite He| |rewrite !length_app; cbn [length] in *; lia].
    rewrite !dir_run_app, Hcl. destruct (decide (pend = [])) as [->|Hne]; [|rewrite open_parts by (done || by left)]; unfold dir_run; cbn; by rewrite He, Hs, Hp.
Qed.

(** The name of an entry is erased. *)
Definition erased (e : list Z) : list Z := DELETED :: drop 1 e.

Lemma erase_at pre e post : erase (zlen pre) (pre ++ e :: post) = Some (pre ++ erased e :: post).
Proof.
  unfold erase. rewrite Nat2Z.id, lookup_app_r, Nat.sub_diag by lia. cbn [lookup list_lookup mbind option_bind]. rewrite put_dirent_ok by (rewrite length_app; cbn [length]; lia).
  rewrite Nat2Z.id, insert_app_r_alt, Nat.sub_diag by lia. done.
Qed.

Lemma erase_all_at parts : forall pre post, erase_all (zlen pre) (length parts) (pre ++ parts ++ post) = Some (pre ++ (erased <$> parts) ++ post).
Proof.
  induction parts as [|p parts IH]; intros pre post; [done|]. cbn [length erase_all fmap list_fmap app]. rewrite erase_at. cbn [mbind option_bind].
  rewrite !(cons_middle (erased p)), !(app_assoc pre). replace (zlen pre + 1) with (zlen (pre ++ [erased p])) by (rewrite length_app; cbn [length]; lia). by rewrite IH.
Qed.

Lemma erase_found es fo pre parts e post :
  found_here es fo pre parts e post ->
  (es' ← erase (fo_entry fo) es; erase_all (fo_lfn_start fo) (Z.to_nat (fo_lfn_count fo)) es') = Some (pre ++ (erased <$> parts) ++ erased e :: post).
Proof.
  intros [-> _ _ _ _ Hi Hc Hs]. rewrite Hi, Hc, Nat2Z.id. rewrite (app_assoc pre). replace (zlen pre + zlen parts) with (zlen (pre ++ parts)) by (rewrite length_app; lia).
  rewrite erase_at. cbn [mbind option_bind]. rewrite <- app_assoc. destruct parts as [|p parts]; [done|]. rewrite Hs by done. apply erase_all_at.
Qed.

Lemma erased_slots l : live (erased <$> l) = true /\ dir_run (Some Closed) (erased <$> l) = Some Closed /\ waiting (erased <$> l) [] = [] /\ forall i, listed (erased <$> l) i [] = [].
Proof.
  induction l as [|e l (H1 & H2 & H3 & H4)]; [done|]. cbn [fmap list_fmap forallb waiting listed]. change (ended (erased e)) with false. change (skipped_slot (erased e)) with true. cbn [negb andb].
  split_and!; [done|exact H2|done|]. intros i. apply H4.
Qed.

(** One file is not listed any more, and all others are. *)
Lemma erased_listed P parts e post :
  live P = true -> dir_run (Some Closed) P = Some Closed -> Forall part_entry parts -> plain_entry e ->
  let rest := listed post (zlen P + zlen parts + 1) [] in
  listed (P ++ parts ++ e :: post) 0 [] = listed P 0 [] ++ make_file_entry (waiting parts []) e (zlen P + zlen parts) :: rest /\
  listed (P ++ (erased <$> parts) ++ erased e :: post) 0 [] = listed P 0 [] ++ rest /\
  dir_run (Some Closed) (P ++ parts ++ e :: post) = dir_run (Some Closed) post /\
  dir_run (Some Closed) (P ++ (erased <$> parts) ++ erased e :: post) = dir_run (Some Closed) post.
Proof.
  intros HP Hcl Hparts (E1 & E2 & E3) rest. pose proof (parts_alive parts Hparts) as Hpl. destruct (erased_slots parts) as (R1 & R2 & R3 & R4).
  rewrite !(listed_app P), !dir_run_app, !Hcl, (waiting_closed P Closed []) by done. rewrite !listed_app by done. rewrite !Z.add_0_l, R2, R3, R4, !length_fmap.
  assert (forall i lfns, listed parts i lfns = []) as Hnone.
  { clear -Hparts. induction Hparts as [|p l (H1 & H2 & H3) Hl IH]; intros i lfns; [done|]. cbn [listed]. rewrite H1, H2, H3. apply IH. }
  rewrite Hnone. cbn [app listed]. rewrite E1, E2, E3. change (ended (erased e)) with false. change (skipped_slot (erased e)) with true. cbn iota. split_and!; try done.
  unfold dir_run. cbn [foldl]. destruct (decide (parts = [])) as [->|Hne]; [|fold (dir_run (Some Closed) parts); rewrite open_parts by (done || by left)]; cbn [foldl dir_step]; by rewrite E1, E2, E3.
Qed.

(** Entries have different places. *)
Lemma listed_index es : forall i lfns x, x ∈ listed es i lfns -> i <= fe_index x.
Proof.
  induction es as [|e es IH]; intros i lfns x; cbn [listed]; [by intros ?%not_elem_of_nil|]. destruct (ended e); [by intros ?%not_elem_of_nil|].
  destruct (skipped_slot e); [intros H%IH; lia|]. destruct (is_part e); [intros H%IH; lia|]. intros [->|H%IH]%elem_of_cons; [cbn; lia|lia].
Qed.

Lemma listed_unique es : forall i lfns x y, x ∈ listed es i lfns -> y ∈ listed es i lfns -> fe_index x = fe_index y -> x = y.
Proof.
  induction es as [|e es IH]; intros i lfns x y; cbn [listed]; [by intros ?%not_elem_of_nil|]. destruct (ended e); [by intros ?%not_elem_of_nil|].
  destruct (skipped_slot e); [apply IH|]. destruct (is_part e); [apply IH|].
  intros [->|Hx]%elem_of_cons [->|Hy]%elem_of_cons; [done| | |by apply (IH (i + 1) [])]; [apply listed_index in Hy|apply listed_index in Hx]; cbn; lia.
Qed.

Lemma erased_whole l : Forall whole l -> Forall whole (erased <$> l).
Proof. intros Hl. apply Forall_fmap. eapply Forall_impl; [exact Hl|]. intros e He. unfold whole in *. cbn. rewrite length_drop. lia. Qed.
