(* ===== verification/FatDirOps.v ===== *)
(** * Directories on FAT32: reading, and entering names

    A listing is what the entries of a directory's clusters say, however the
    clusters are read in runs; entering a name changes one cluster of them. *)

From Stdlib Require Import ZArith Lia.
From stdpp Require Import base tactics gmap numbers list.
From S2P Require Import Prelude.
From S2P Require Import Memory.
From S2P Require Import Slices.
From S2P Require Import Fat.
From S2P Require Import FatFacts.
From S2P Require Import FatTable.
From S2P Require Import FatChain.
From S2P Require Import FatFile.
From S2P Require Import FatWrite.
From S2P Require Import FatFileProps.
From S2P Require Import FatDir.
From S2P Require Import FatDirFacts.

Section dirs.
Context {D : Type} `{!BlockDevice D} (b : bpb) `{!Disk D (bytes_per_sector b)}.
Context (can_alloc : Z -> bool) (now : rtc_time) (trim : option (list (Z * Z) -> D -> D)).
Hypothesis (Hg : geo_ok b) (Hd : data_ok b) (Hal : forall i, can_alloc i = true).
Local Abbreviation bps := (bytes_per_sector b).
Local Abbreviation cb := (bytes_per_cluster b).
Local Abbreviation epc := (entries_per_cluster b).
Local Abbreviation live := (forallb (fun e => negb (ended e))).
Implicit Types (s : fs D).

(** The entries of a cluster, and of the clusters [l]. *)
Definition entries_at s (c : Z) : list (list Z) := cluster_entries b (cluster_data b s c).
Definition dir_entries s (l : list Z) : list (list Z) := concat (entries_at s <$> l).

(** A directory with its clusters on a mounted disk. *)
Record dir_here s (c : Z) (l : list Z) : Prop := {
  dh_ok : fs_ok b s;
  dh_healthy : healthy b s;
  dh_data : holds_data b s;
  dh_chain : chain_from b s c l;
  dh_used x : x ∈ l -> ent b s 0 x <> 0
}.

(** Tidy as a whole, and no name goes over the end of a cluster. *)
Definition dir_tidy s (l : list Z) : Prop := tidy (dir_entries s l) = true /\ forall c, c ∈ l -> tidy (entries_at s c) = true.

Lemma epc_ok : epc * 32 = cb /\ 0 < epc.
Proof. pose proof (cb_pos b Hg Hd). pose proof (do_dirent b Hd) as Hm. unfold entries_per_cluster, DIRENT_SIZE in *. Z.div_mod_to_equations. lia. Qed.

Lemma entries_length s c : length (entries_at s c) = Z.to_nat epc.
Proof. apply as_entries_length. Qed.

Lemma entries_whole s c : holds_data b s -> cluster_ok b c -> Forall whole (entries_at s c).
Proof. intros Hs Hc. apply as_entries_whole. pose proof (data_length b Hg Hd s c Hs Hc). pose proof epc_ok. lia. Qed.

Lemma dir_entries_app s l1 l2 : dir_entries s (l1 ++ l2) = dir_entries s l1 ++ dir_entries s l2.
Proof. unfold dir_entries. by rewrite fmap_app, concat_app. Qed.

Lemma dir_entries_length s l : zlen (dir_entries s l) = zlen l * epc.
Proof.
  pose proof epc_ok. induction l as [|c l IH]; [done|]. unfold dir_entries in *. cbn [fmap list_fmap concat length]. rewrite length_app, entries_length. lia.
Qed.

Lemma dir_entries_keep s s' l : (forall c, c ∈ l -> cluster_data b s' c = cluster_data b s c) -> dir_entries s' l = dir_entries s l.
Proof. intros He. unfold dir_entries. f_equal. apply list_fmap_ext. intros i c Hc. unfold entries_at. rewrite He; [done|]. by eapply list_elem_of_lookup_2. Qed.

(** The entries of a run, from its bytes. *)
Lemma run_entries_ok s l : holds_data b s -> Forall (cluster_ok b) l -> concat (run_entries b (length l) (content b s l)) = dir_entries s l.
Proof.
  intros Hs Hl. unfold run_entries, dir_entries. f_equal. pose proof epc_ok. pose proof (cb_pos b Hg Hd). apply list_eq. intros i. rewrite !list_lookup_fmap.
  destruct (decide (i < length l)%nat) as [Hi|Hi].
  2: { rewrite !(lookup_ge_None_2) by (rewrite ?length_seq; lia). done. }
  rewrite lookup_seq_lt by lia. destruct (lookup_lt_is_Some_2 l i Hi) as [c Hc]. rewrite Hc. cbn. f_equal.
  rewrite <- (content_drop b Hg Hd s l i Hs Hl), (drop_S _ _ _ Hc). change (content b s (c :: drop (S i) l)) with (cluster_data b s c ++ content b s (drop (S i) l)).
  apply as_entries_left. pose proof (data_length b Hg Hd s c Hs (Forall_lookup_1 _ _ _ _ Hl Hc)). lia.
Qed.

(** A run in one read. *)
Lemma read_run_whole s c rest :
  holds_data b s -> Forall (cluster_ok b) (c :: rest) -> let k := run_length (c :: rest) in
  device_read (cluster_to_sector b c) (u32 (u32 (Z.of_nat k) * sectors_per_cluster b)) s = Done (Some (content b s (take k (c :: rest)))) s /\ (0 < k <= length (c :: rest))%nat.
Proof.
  intros Hs Hrest k. destruct (run_ok b Hg Hd s (c :: rest) Hs Hrest) as (H1 & H2 & H3); [done|]. cbn [hd] in H2, H3. fold k in H1, H2, H3.
  pose proof (cb_pos b Hg Hd) as Hcb. pose proof (Forall_inv Hrest) as Hc. destruct (sector_ok b Hg Hd c Hc) as (E & S0 & _). pose proof (bps_pos b Hg) as Hbp. pose proof Hd as [Hspc _ _ Hend].
  unfold cluster_ok in Hc. assert (0 < Z.of_nat k * sectors_per_cluster b <= cluster_count b * sectors_per_cluster b) as Hks by nia.
  destruct Hg. unfold U32_MAX in *. assert (0 <= table_count b * fat_size32 b) by nia. rewrite (u32_id (Z.of_nat k)), (u32_id (Z.of_nat k * _)) by lia. split; [|done].
  assert (cpos b c + Z.of_nat k * cb <= zlen (image b s)).
  { unfold holds_data in Hs. unfold cpos in *. assert (Z.of_nat k * cb <= (cluster_count b + 2 - c) * cb) by nia. lia. }
  rewrite <- H2. assert (Z.of_nat k * sectors_per_cluster b * bps = Z.of_nat k * cb) as Hm by (unfold bytes_per_cluster; lia).
  rewrite (device_read_ok b) by nia. by rewrite E, Hm.
Qed.

(** ** Reading *)

(** One run is read, or the runs of a tidy directory. *)
Definition readable s (l : list Z) : Prop := drop (run_length l) l = [] \/ exists st, is_Some (dir_run st (dir_entries s l)).

Lemma take_limit (l x : list file_entry) : READ_DIR_MAX_ENTRIES <= zlen l -> take LIMIT (l ++ x) = take LIMIT l.
Proof. unfold READ_DIR_MAX_ENTRIES, LIMIT. intros. by rewrite take_app_le by lia. Qed.

Lemma read_directory_ok fuel s c l :
  dir_here s c l -> readable s l -> cluster_count b < Z.of_nat fuel ->
  exists s', read_directory b can_alloc fuel c s = Done (inr (take LIMIT (listed (dir_entries s l) 0 []))) s' /\ fs_dev s' = fs_dev s /\ fs_free s' = fs_free s /\ fs_ok b s'.
Proof.
  intros [Hok Hh Hs Hl _] Hread Hf. unfold read_directory. rewrite bind_run, alloc_run, Hal. cbn [negb]. set (s1 := set_allocs _ s).
  destruct (get_chain_run b Hg can_alloc Hal fuel s1 c l) as (s2 & E2 & D2 & F2 & Hok2); [by eapply ok_same; [..|exact Hok]|by eapply healthy_same; [|exact Hh]|by eapply chain_same; [|exact Hl]|done|].
  rewrite bind_run, E2. rewrite bind_run. pose proof (chain_ok b s c l Hl) as Hlok.
  match goal with |- context [while _ ?bd] => set (body := bd) end.
  enough (forall f rest index lfns out s3, only_allocs s2 s3 -> Forall (cluster_ok b) rest -> readable s rest -> zlen out < READ_DIR_MAX_ENTRIES -> (length rest < f)%nat ->
    exists s', while f body (rest, index, lfns, out) s3 = Done (take LIMIT (out ++ listed (dir_entries s rest) index lfns)) s' /\ only_allocs s2 s') as Hw.
  { destruct (Hw (S (length l)) l 0 [] [] s2) as (s' & E & [n ->]); [by exists (fs_allocs s2); destruct s2|done|done|done|lia|].
    rewrite E. eexists. split; [reflexivity|]. split_and!; [exact D2|exact F2|by eapply ok_same; [..|exact Hok2]]. }
  clear Hread. assert (holds_data b s2) as Hs2 by (unfold holds_data, image in *; by rewrite D2).
  induction f as [|f IH]; intros rest index lfns out s3 [n3 ->] Hrest Hread Hout Hlt; [lia|]. rewrite while_S. unfold body at 1. destruct rest as [|x rest].
  { rewrite ret_run. unfold dir_entries. cbn [fmap list_fmap concat listed]. rewrite app_nil_r, take_ge by (unfold READ_DIR_MAX_ENTRIES, LIMIT in *; lia). eexists. split; [done|by eexists]. }
  cbv zeta. rewrite bind_run, alloc_run, Hal. cbn [negb fs_allocs set_allocs]. set (s4 := set_allocs (n3 + 1) _).
  destruct (read_run_whole s4 x rest Hs2 Hrest) as [Er Hk]. cbv zeta in Er. rewrite bind_run, Er. set (k := run_length (x :: rest)) in *.
  assert (content b s4 (take k (x :: rest)) = content b s (take k (x :: rest))) as -> by (apply content_keep; intros; unfold cluster_data, image; cbn; by rewrite D2).
  assert (Forall (cluster_ok b) (take k (x :: rest))) as Htk by (by apply Forall_take).
  assert (length (take k (x :: rest)) = k) as Htl by (rewrite length_take; lia).
  assert (concat (run_entries b k (content b s (take k (x :: rest)))) = dir_entries s (take k (x :: rest))) as HA by (rewrite <- Htl at 1; by apply run_entries_ok).
  rewrite scan_clusters_concat, HA. set (A := dir_entries s (take k (x :: rest))) in *. set (B := dir_entries s (drop k (x :: rest))).
  assert (dir_entries s (x :: rest) = A ++ B) as HAB by (unfold A, B; by rewrite <- dir_entries_app, take_drop). rewrite HAB.
  destruct (scan_entries_ok A index lfns out Hout) as [S1 S2]. cbv zeta in S1, S2. set (all := out ++ listed A index lfns) in *.
  destruct (scan_entries A index lfns out) as [[stop lfns'] out']. cbn [fst snd] in *. subst out'. destruct (listed_prefix A B index lfns) as [X HX].
  destruct (Z.leb_spec READ_DIR_MAX_ENTRIES (zlen (take LIMIT all))) as [Hfull|Hroom].
  { rewrite ret_run, HX, app_assoc. fold all. rewrite take_limit by (rewrite length_take in Hfull; lia). eexists. split; [done|by eexists]. }
  assert (zlen all < READ_DIR_MAX_ENTRIES) as Hall by (rewrite length_take in Hroom; unfold READ_DIR_MAX_ENTRIES, LIMIT in *; lia).
  rewrite (take_ge all) by (unfold READ_DIR_MAX_ENTRIES, LIMIT in *; lia). rewrite ret_run. destruct (S2 Hall) as [-> S3].
  assert (zlen A = Z.of_nat k * epc) as HlenA by (unfold A; rewrite dir_entries_length, Htl; done).
  assert (readable s (drop k (x :: rest))) as Hread'.
  { destruct Hread as [E|[st [y Hy]]]; [fold k in E; rewrite E; by left|]. right. rewrite HAB, dir_run_app in Hy. by eexists _, y. }
  destruct (IH (drop k (x :: rest)) (index + Z.of_nat k * epc) lfns' all s4) as (s' & E & O); [by eexists|by apply Forall_drop|done|done|rewrite length_drop; cbn [length] in *; lia|].
  exists s'. split; [|done]. rewrite E. fold B. f_equal. f_equal.
  destruct (existsb ended A) eqn:Hst.
  - rewrite listed_stop by done. assert (listed B (index + Z.of_nat k * epc) lfns' = []) as ->; [|by rewrite app_nil_r].
    destruct Hread as [E0|[st Hst']]; [fold k in E0; unfold B; by rewrite E0|]. rewrite HAB in Hst'. by eapply tidy_stop.
  - rewrite listed_app by (rewrite live_ended, Hst; done). rewrite app_assoc, HlenA, S3 by done. done.
Qed.

(** ** Entering a name *)

(** Where the first cluster with room has it, in the whole directory. *)
Fixpoint first_place (ess : list (list (list Z))) (need : Z) : option Z :=
  match ess with
  | [] => None
  | es :: ess' => match find_run es 0 0 0 need with Some q => Some q | None => Z.add (zlen es) <$> first_place ess' need end
  end.

Lemma entries_allocs s n c : entries_at (set_allocs n s) c = entries_at s c.
Proof. done. Qed.

(** One cluster. *)
Lemma enter_cluster_ok s c l name sn e q :
  fs_ok b s -> holds_data b s -> cluster_ok b c -> name_ok name -> plain_entry (dirent_bytes e) -> length (de_name e) = 11%nat ->
  find_run (entries_at s c) 0 0 0 (lfn_needed name + 1) = Some q ->
  0 <= q /\ q + lfn_needed name + 1 <= epc /\ forallb is_free (take (Z.to_nat (lfn_needed name + 1)) (drop (Z.to_nat q) (entries_at s c))) = true /\
  exists s', enter_in_clusters b can_alloc (c :: l) name sn e s = Done (Some true) s' /\ only_data b [c] s s' /\
    entries_at s' c = take (Z.to_nat q) (entries_at s c) ++ name_group name sn e ++ drop (Z.to_nat (q + lfn_needed name + 1)) (entries_at s c).
Proof.
  intros Hok Hs Hc Hn He Hnl Hq. pose proof (needed_bounds name Hn) as [Hb _]. pose proof epc_ok as [Hepc Hep]. pose proof (entries_length s c) as Hel.
  destruct (find_run_ok (entries_at s c) (lfn_needed name + 1) 0 0 0 q) as (Hq0 & Hqe & Hfree); [lia|lia|lia|done|]. assert (0 <= q) as Hq1 by lia.
  split; [done|]. split; [lia|]. split.
  { apply Is_true_eq_true, forallb_True, Forall_lookup. intros i x Hx. apply lookup_take_Some in Hx as [Hx Hi]. rewrite lookup_drop in Hx.
    destruct (Hfree (q + Z.of_nat i)) as (y & Hy & Hfy); [lia|]. replace (Z.to_nat (q + Z.of_nat i - 0)) with (Z.to_nat q + i)%nat in Hy by lia. rewrite Hx in Hy. injection Hy as ->. by rewrite Hfy. }
  cbn [enter_in_clusters]. rewrite bind_run, alloc_run, Hal. cbn [negb]. set (s1 := set_allocs _ s).
  rewrite bind_run, (read_cluster_ok b Hg Hd s1 c Hs Hc). cbv zeta. change (cluster_data b s1 c) with (cluster_data b s c). fold (entries_at s c). rewrite Hq.
  set (es := entries_at s c) in *. pose proof (enter_group_ok name sn e es q Hn Hq1 ltac:(lia)) as Hgr.
  destruct (write_lfn_entries es q name sn) as [es1|]; [|done]. cbn [mbind option_bind] in Hgr. cbn [or_undef]. rewrite bind_run, ret_run. rewrite Hgr. cbn [or_undef]. rewrite bind_run, ret_run, bind_run.
  set (es2 := take (Z.to_nat q) es ++ _) in *. pose proof (data_length b Hg Hd s c Hs Hc) as Hdl.
  assert (Forall whole es2) as Hw.
  { pose proof (entries_whole s c Hs Hc) as Hew. unfold es2. apply Forall_app; split; [by apply Forall_take|]. apply Forall_app; split; [by apply group_whole|by apply Forall_drop]. }
  assert (length es2 = Z.to_nat epc) as Hl2.
  { unfold es2. rewrite !length_app, length_take, length_drop. pose proof (group_length name sn e Hn). lia. }
  assert (store_entries b es2 (cluster_data b s c) = concat es2) as Hst.
  { unfold store_entries, DIRENT_SIZE. rewrite drop_ge by lia. apply app_nil_r. }
  rewrite Hst. pose proof (concat_length es2 Hw) as Hcl.
  destruct (cluster_write_ok b Hg Hd s1 c (concat es2)) as (s' & E & O & Hdat & _); [by eapply ok_same; [..|exact Hok]|done|done|lia|].
  rewrite E, ret_run. exists s'. split; [done|]. split; [by eapply od_allocs|]. unfold entries_at at 1. rewrite Hdat. unfold cluster_entries. rewrite <- Hl2, <- (app_nil_r (concat es2)). by apply as_entries_concat.
Qed.

(** The entries around a place. *)
Lemma place_split (E : list (list Z)) p need :
  0 <= p -> 0 <= need -> E = take (Z.to_nat p) E ++ take (Z.to_nat need) (drop (Z.to_nat p) E) ++ drop (Z.to_nat (p + need)) E.
Proof.
  intros Hp Hn. rewrite <- (take_drop (Z.to_nat p) E) at 1. f_equal. rewrite <- (take_drop (Z.to_nat need) (drop (Z.to_nat p) E)) at 1. f_equal. rewrite drop_drop. f_equal. lia.
Qed.

Lemma enter_tidy name sn e E p :
  name_ok name -> plain_entry (dirent_bytes e) -> 0 <= p -> p + (lfn_needed name + 1) <= zlen E ->
  forallb is_free (take (Z.to_nat (lfn_needed name + 1)) (drop (Z.to_nat p) E)) = true -> tidy E = true -> existsb ended (take (Z.to_nat p) E) = false ->
  let E' := take (Z.to_nat p) E ++ name_group name sn e ++ drop (Z.to_nat (p + (lfn_needed name + 1))) E in
  tidy E' = true /\ exists f1 f2, listed E 0 [] = f1 ++ f2 /\ listed E' 0 [] = f1 ++ make_file_entry (name_parts name sn) (dirent_bytes e) (p + lfn_needed name) :: f2.
Proof.
  intros Hn He Hp Hin Hfree Ht Hpre E'. pose proof (needed_bounds name Hn) as [Hb _]. pose proof (place_split E p (lfn_needed name + 1) Hp ltac:(lia)) as Hsplit. rewrite Hsplit in Ht.
  destruct (enter_listed name sn e _ _ _ Hn He Ht) as (Ht' & f1 & f2 & L1 & L2); [by rewrite live_ended, Hpre|done|rewrite length_take, length_drop; lia|].
  rewrite <- Hsplit in L1. split; [exact Ht'|]. exists f1, f2. split; [done|]. unfold E'. rewrite L2, length_take. do 3 f_equal. lia.
Qed.

(** The clusters in front have no room. *)
Lemma enter_skip c l name sn e s : 
  holds_data b s -> cluster_ok b c -> find_run (entries_at s c) 0 0 0 (lfn_needed name + 1) = None ->
  enter_in_clusters b can_alloc (c :: l) name sn e s = enter_in_clusters b can_alloc l name sn e (set_allocs (fs_allocs s + 1) s).
Proof.
  intros Hs Hc Hq. cbn [enter_in_clusters]. rewrite bind_run, alloc_run, Hal. cbn [negb]. set (s1 := set_allocs _ s).
  rewrite bind_run, (read_cluster_ok b Hg Hd s1 c Hs Hc). cbv zeta. change (cluster_data b s1 c) with (cluster_data b s c). fold (entries_at s c). by rewrite Hq.
Qed.

Lemma enter_all_ok l name sn e : forall s p,
  fs_ok b s -> holds_data b s -> Forall (cluster_ok b) l -> NoDup l -> name_ok name -> plain_entry (dirent_bytes e) -> length (de_name e) = 11%nat ->
  first_place (entries_at s <$> l) (lfn_needed name + 1) = Some p ->
  let E := dir_entries s l in
  0 <= p /\ p + lfn_needed name + 1 <= zlen E /\ forallb is_free (take (Z.to_nat (lfn_needed name + 1)) (drop (Z.to_nat p) E)) = true /\
  exists s', enter_in_clusters b can_alloc l name sn e s = Done (Some true) s' /\ only_data b l s s' /\
    dir_entries s' l = take (Z.to_nat p) E ++ name_group name sn e ++ drop (Z.to_nat (p + lfn_needed name + 1)) E /\
    (existsb ended (take (Z.to_nat p) E) = false -> (forall c, c ∈ l -> tidy (entries_at s c) = true) -> forall c, c ∈ l -> tidy (entries_at s' c) = true).
Proof.
  induction l as [|c l IH]; intros s p Hok Hs Hl Hnd Hn He Hnl; [done|]. apply Forall_cons in Hl as [Hc Hl]. apply NoDup_cons in Hnd as [Hcl Hnd].
  cbn [fmap list_fmap first_place]. pose proof (entries_length s c) as Hel. pose proof epc_ok as [_ Hep]. pose proof (needed_bounds name Hn) as [Hb _].
  assert (forall s0, dir_entries s0 (c :: l) = entries_at s0 c ++ dir_entries s0 l) as Hcons by done.
  destruct (find_run (entries_at s c) 0 0 0 (lfn_needed name + 1)) as [q|] eqn:Hq.
  - intros [= <-]. destruct (enter_cluster_ok s c l name sn e q Hok Hs Hc Hn He Hnl Hq) as (H1 & H2 & H3 & s' & E & O & Hd').
    cbv zeta. rewrite !Hcons. rewrite length_app. split; [done|]. split; [lia|]. split; [rewrite drop_app_le, take_app_le by (rewrite ?length_drop; lia); done|].
    exists s'. split; [done|]. split; [eapply only_data_weaken; [|exact O]; set_solver|].
    assert (forall x, x ∈ l -> cluster_data b s' x = cluster_data b s x) as Hrest by (intros x Hx; apply O; [by eapply Forall_forall in Hl|]; intros ->%list_elem_of_singleton; done).
    rewrite take_app_le, drop_app_le by lia. rewrite Hcons, Hd', (dir_entries_keep s s' l) by done. split; [by rewrite <- !app_assoc|].
    intros Hpre Ht x [->|Hx]%elem_of_cons; [|unfold entries_at; rewrite Hrest by done; apply Ht; set_solver]. rewrite Hd'. rewrite <- Z.add_assoc. apply enter_tidy; try done; [lia|apply Ht; set_solver].
  - rewrite fmap_Some. intros (p' & Hp & ->). rewrite enter_skip by done. set (s1 := set_allocs _ s).
    destruct (IH s1 p') as (H1 & H2 & H3 & s' & E & O & Hd' & Ht'); try done; [by eapply ok_same; [..|exact Hok]|]. cbv zeta in *. change (dir_entries s1 l) with (dir_entries s l) in *.
    rewrite !Hcons. rewrite length_app, Hel. split; [lia|]. split; [lia|].
    assert (forall x, 0 <= x -> drop (Z.to_nat (Z.of_nat (Z.to_nat epc) + x)) (entries_at s c ++ dir_entries s l) = drop (Z.to_nat x) (dir_entries s l)) as Hdrop.
    { intros x Hx. rewrite drop_app_ge by (rewrite Hel; lia). f_equal. rewrite Hel. lia. }
    replace (Z.of_nat (Z.to_nat epc) + p' + lfn_needed name + 1) with (Z.of_nat (Z.to_nat epc) + (p' + lfn_needed name + 1)) by lia. rewrite !Hdrop by lia. split; [done|].
    exists s'. split; [done|]. split; [eapply od_allocs, only_data_weaken; [|exact O]; set_solver|].
    rewrite take_app_ge by (rewrite Hel; lia). rewrite Hcons, Hel, <- app_assoc, Hd'. replace (Z.to_nat (Z.of_nat (Z.to_nat epc) + p') - Z.to_nat epc)%nat with (Z.to_nat p') by lia.
    assert (cluster_data b s' c = cluster_data b s c) as Hcd by (change (cluster_data b s c) with (cluster_data b s1 c); by apply O). unfold entries_at at 1. rewrite Hcd. split; [done|].
    rewrite existsb_app. intros [_ Hpre]%orb_false_iff Ht x [->|Hx]%elem_of_cons; [unfold entries_at; rewrite Hcd; apply Ht; set_solver|]. apply Ht'; [done| |done].
    intros y Hy. apply Ht. set_solver.
Qed.

(** ** What steps keep of a directory *)

Lemma dir_data cs s s' c l : only_data b cs s s' -> dir_here s c l -> dir_here s' c l.
Proof.
  intros O [Hok Hh Hs Hl Hu]. pose proof (chain_ok b s c l Hl) as Hlok. rewrite Forall_forall in Hlok. split.
  - apply O.
  - by eapply healthy_keep.
  - by eapply od_holds.
  - by eapply keep_chain.
  - intros x Hx. rewrite (od_ent _ _ _ _ O) by (apply (fat0_ok b Hg) || by apply Hlok). by apply Hu.
Qed.

Lemma dir_entry cs s s' c l : only_entries b cs s s' -> l ## cs -> dir_here s c l -> dir_here s' c l.
Proof.
  intros O Hdis [Hok Hh Hs Hl Hu]. destruct (keep_entries b can_alloc Hg Hd Hal cs s s' c l O Hl Hdis) as (Hl' & _ & He). split; [apply O|apply O|by eapply oe_holds|done|].
  intros x Hx. rewrite He by done. by apply Hu.
Qed.

Lemma dir_reads s s' c l : fs_dev s' = fs_dev s -> fs_free s' = fs_free s -> fs_ok b s' -> dir_here s c l -> dir_here s' c l.
Proof. intros H1 H2 H3. apply (dir_data []). by apply only_data_reads. Qed.

Lemma dir_clusters s c l : dir_here s c l -> Forall (cluster_ok b) l /\ NoDup l.
Proof. intros [Hok Hh Hs Hl Hu]. split; [by eapply chain_ok|by eapply chain_NoDup]. Qed.

Lemma info_kept s : info_ok b -> fs_ok b s -> holds_data b s -> exists s', write_fs_info b s = Done tt s' /\ only_data b [] s s'.
Proof.
  intros Hi Hok Hs. destruct (write_fs_info_ok b Hg s Hi Hok) as (s' & E & Hok' & (F1 & F2 & He) & Himg). exists s'. split; [done|].
  destruct (decide (fs_info b = 0)) as [H0|H0].
  { unfold write_fs_info in E. rewrite H0 in E. cbn in E. injection E as <-. by apply only_data_reads. }
  specialize (Himg H0). destruct Hi as [?|[Hb Hi]]; [done|]. pose proof (ok_fits b s Hok) as Hfit. unfold fits in Hfit. pose proof (fsinfo_length (fs_free s) (fs_next s)) as Hfl.
  assert (0 <= table_count b * fat_size32 b) as Hp by (destruct Hg; nia).
  assert (fs_info b * bps + 512 <= reserved_sector_count b * bps) by nia. assert (0 <= fs_info b * bps) by nia.
  assert (reserved_sector_count b * bps <= (reserved_sector_count b + table_count b * fat_size32 b) * bps) by nia.
  split; [done| |done|done|].
  - rewrite Himg. apply splice_length; lia.
  - intros c Hc _. unfold cluster_data. rewrite Himg. destruct (cpos_in b Hg Hd s c Hs Hc). pose proof (cb_pos b Hg Hd). apply slice_splice_out; [lia|lia|lia|].
    right. unfold cpos, cluster_ok in *. nia.
Qed.

(** ** Writing the entries of a name *)

Lemma write_dirent_ok fuel n s c l name sn e p :
  dir_here s c l -> cluster_count b < Z.of_nat fuel -> name_ok name -> plain_entry (dirent_bytes e) -> length (de_name e) = 11%nat ->
  first_place (entries_at s <$> l) (lfn_needed name + 1) = Some p ->
  let E := dir_entries s l in
  0 <= p /\ p + lfn_needed name + 1 <= zlen E /\ forallb is_free (take (Z.to_nat (lfn_needed name + 1)) (drop (Z.to_nat p) E)) = true /\
  exists s', write_directory_entry_with_lfn b can_alloc fuel (S n) c name sn e s = Done true s' /\ only_data b l s s' /\
    dir_entries s' l = take (Z.to_nat p) E ++ name_group name sn e ++ drop (Z.to_nat (p + lfn_needed name + 1)) E /\
    (existsb ended (take (Z.to_nat p) E) = false -> (forall c, c ∈ l -> tidy (entries_at s c) = true) -> forall c, c ∈ l -> tidy (entries_at s' c) = true).
Proof.
  intros Hdir Hf Hn He Hnl Hp E. destruct (dir_clusters s c l Hdir) as [Hlok Hnd]. pose proof Hdir as [Hok Hh Hs Hl Hu].
  destruct (get_chain_run b Hg can_alloc Hal fuel s c l Hok Hh Hl Hf) as (s1 & E1 & D1 & F1 & Hok1). assert (only_data b l s s1) as O1 by (by apply only_data_reads).
  assert (forall x, cluster_data b s1 x = cluster_data b s x) as Hsame by (intros x; unfold cluster_data, image; by rewrite D1).
  assert (entries_at s1 <$> l = entries_at s <$> l) as He1 by (apply list_fmap_ext; intros i x _; unfold entries_at; by rewrite Hsame).
  destruct (enter_all_ok l name sn e s1 p) as (H1 & H2 & H3 & s2 & E2 & O2 & Hd2 & Ht2); try done; [by eapply od_holds|by rewrite He1|].
  assert (dir_entries s1 l = E) as HE by (apply dir_entries_keep; intros; apply Hsame). rewrite HE in *.
  split_and!; try done. exists s2. cbn [write_directory_entry_with_lfn]. rewrite bind_run, E1, bind_run, E2, ret_run. split; [done|]. split; [eapply only_data_trans; [|exact O1|exact O2]; done|]. split; [done|].
  intros Hpre Ht x Hx. apply Ht2; [done| |done]. intros y Hy. unfold entries_at. rewrite Hsame. by apply Ht.
Qed.

(** ** Creating a file *)

(** The cluster [f] was free and is a file of one empty cluster; the directory
    and all other chains are where they were. *)
Record file_created (c f : Z) (l : list Z) s s' : Prop := {
  cr_dir : dir_here s' c l;
  cr_was : cluster_ok b f /\ ent b s 0 f = 0;
  cr_chain : chain_from b s' f [f];
  cr_zero : cluster_data b s' f = replicate (Z.to_nat cb) 0;
  cr_counted : counted b s -> counted b s';
  cr_others c' q : chain_from b s c' q -> (forall x, x ∈ q -> ent b s 0 x <> 0) -> q ## l -> chain_from b s' c' q /\ content b s' q = content b s q
}.

Definition file_attr (mode : Z) : Z := if Z.land mode S_IWUSR =? 0 then Z.lor ATTR_ARCHIVE ATTR_READ_ONLY else ATTR_ARCHIVE.

Lemma file_attr_new mode : new_attr (file_attr mode).
Proof. unfold file_attr, new_attr. destruct (_ =? 0); cbn; auto. Qed.

(** The steps in front of and behind the entry. *)
Lemma created_ok c f l s s3 s5 s6 s7 :
  dir_here s c l -> cluster_ok b f -> ent b s 0 f = 0 -> f ∉ l -> only_data b [f] s s3 -> cluster_data b s3 f = replicate (Z.to_nat cb) 0 ->
  only_data b l s3 s5 -> only_entries b [f] s5 s6 -> ent b s6 0 f = 0x0FFFFFFF -> only_data b [] s6 s7 ->
  file_created c f l s s7 /\ dir_entries s7 l = dir_entries s5 l.
Proof.
  intros Hdir Hcf Hzf Hnin O3 Hz3 O5 O6 V6 O7. destruct (dir_clusters s c l Hdir) as [Hlok _]. rewrite Forall_forall in Hlok.
  assert (only_data b (f :: l) s s5) as O by (eapply only_data_trans; [|exact O3|eapply only_data_weaken; [|exact O5]]; set_solver).
  assert (l ## [f]) as Hlf by set_solver.
  assert (forall x, cluster_ok b x -> cluster_data b s7 x = cluster_data b s5 x) as H75.
  { intros x Hx. rewrite (od_data _ _ _ _ O7) by (done || set_solver). by apply O6. }
  pose proof (dir_entry [f] s5 s6 c l O6 Hlf (dir_data _ _ _ c l O Hdir)) as Hdir6. split; [|apply dir_entries_keep; intros x Hx; apply H75; by apply Hlok]. split.
  - by eapply dir_data.
  - done.
  - eapply chain_keep; [|cbn; split_and!; [done|done|by rewrite (nxt_set b s6 f 0x0FFFFFFF Hcf V6)]].
    intros x Hx%list_elem_of_singleton. subst x. apply O7; [apply (fat0_ok b Hg)|done].
  - rewrite H75 by done. rewrite (od_data _ _ _ _ O5) by done. done.
  - intros Hcnt. apply (counted_keep b s6); [intros; apply O7; [apply (fat0_ok b Hg)|done]|apply O7|]. apply O6.
    apply (counted_keep b s); [intros; apply O; [apply (fat0_ok b Hg)|done]|apply O|done].
  - intros c' q Hq Hne Hql. assert (q ## f :: l) as Hqf by (intros x Hx [->|Hxl]%elem_of_cons; [by apply (Hne f)|by apply (Hql x)]).
    destruct (keep_data b can_alloc Hg Hd Hal _ s s5 c' q O Hq Hqf) as (Q5 & K5 & _).
    destruct (keep_entries b can_alloc Hg Hd Hal _ s5 s6 c' q O6 Q5) as (Q6 & K6 & _); [set_solver|].
    destruct (keep_data b can_alloc Hg Hd Hal _ s6 s7 c' q O7 Q6) as (Q7 & K7 & _); [set_solver|]. split; [done|congruence].
Qed.

(** A free cluster is found and cleared before the entry is written. *)
Lemma create_start_ok fuel s c l name sn mode :
  dir_here s c l -> 2 <= cluster_count b < Z.of_nat fuel -> 0 < free_count b s -> name_ok name -> make_short_name name = Some sn ->
  exists f s3, let e := update_create_time now (blank_entry sn (file_attr mode) f) in
    cluster_ok b f /\ ent b s 0 f = 0 /\ f ∉ l /\ 0 <= f < 2 ^ 32 /\ only_data b [f] s s3 /\ cluster_data b s3 f = replicate (Z.to_nat cb) 0 /\
    dir_here s3 c l /\ (entries_at s3 <$> l) = (entries_at s <$> l) /\ length (de_name e) = 11%nat /\ (hd 0 sn <> DELETED -> plain_entry (dirent_bytes e)) /\
    forall n, create_file b can_alloc now fuel n c name mode s =
      (ok ← write_directory_entry_with_lfn b can_alloc fuel n c name sn e;
       if negb ok then mret (Some Io)
       else ok ← write_fat_entry b fuel f 0x0FFFFFFF; if negb ok then mret (Some Io) else _ ← write_fs_info b; mret None) s3.
Proof.
  intros Hdir Hf Hfree Hn Hsn. pose proof Hdir as [Hok Hh Hs Hl Hu].
  destruct (find_free_ok b Hg Hd fuel s Hok Hh Hf Hfree) as (f & s1 & E1 & D1 & F1 & Hok1 & Hcf & Hzf & Hf0).
  assert (f ∉ l) as Hnin by (intros Hin; by apply (Hu f)). set (s2 := set_allocs (fs_allocs s1 + 1) s1).
  assert (only_data b [f] s s2) as O2 by (apply only_data_reads; [exact D1|exact F1|by eapply ok_same; [..|exact Hok1]]). pose proof (cb_pos b Hg Hd) as Hcb.
  destruct (cluster_write_ok b Hg Hd s2 f (replicate (Z.to_nat cb) 0)) as (s3 & E3 & O3 & Hz3 & _); [apply O2|by eapply od_holds|done|rewrite length_replicate; lia|].
  assert (only_data b [f] s s3) as O23 by (eapply only_data_trans; [|exact O2|exact O3]; done). assert (0 <= f < 2 ^ 32) as Hfr by (unfold cluster_ok in Hcf; destruct Hg; lia).
  destruct (short_name_ok name sn (proj1 Hn) Hsn) as [Hsl Hsb].
  destruct (new_entry_ok now sn (file_attr mode) f Hsl Hsb (file_attr_new mode) Hfr) as (Hk & _ & _ & _ & Hen & Hplain).
  exists f, s3. cbv zeta. do 6 (split; [done|]). split; [by eapply dir_data|]. split; [|split; [done|split; [done|]]].
  - destruct (dir_clusters s c l Hdir) as [Hlok _]. rewrite Forall_forall in Hlok.
    apply list_fmap_ext. intros i x Hx. unfold entries_at. rewrite (od_data _ _ _ _ O23); [done| |]; apply list_elem_of_lookup_2 in Hx; [by apply Hlok|set_solver].
  - intros n. unfold create_file. rewrite bool_decide_eq_false_2 by (intros ->; destruct Hn as [_ Hn]; cbn in Hn; lia).
    rewrite bind_run, E1, Hf0, bind_run, alloc_run, Hal. cbn [negb]. fold s2. rewrite bind_run, E3. cbn [negb]. by rewrite Hsn.
Qed.

Lemma create_file_ok fuel n s c l name sn mode p :
  dir_here s c l -> info_ok b -> 2 <= cluster_count b < Z.of_nat fuel -> 0 < free_count b s -> name_ok name -> make_short_name name = Some sn -> hd 0 sn <> DELETED ->
  first_place (entries_at s <$> l) (lfn_needed name + 1) = Some p ->
  let E := dir_entries s l in
  0 <= p /\ p + lfn_needed name + 1 <= zlen E /\ forallb is_free (take (Z.to_nat (lfn_needed name + 1)) (drop (Z.to_nat p) E)) = true /\
  exists f s', let e := update_create_time now (blank_entry sn (file_attr mode) f) in
    create_file b can_alloc now fuel (S n) c name mode s = Done None s' /\ file_created c f l s s' /\
    dir_entries s' l = take (Z.to_nat p) E ++ name_group name sn e ++ drop (Z.to_nat (p + lfn_needed name + 1)) E /\
    (existsb ended (take (Z.to_nat p) E) = false -> (forall c, c ∈ l -> tidy (entries_at s c) = true) -> forall c, c ∈ l -> tidy (entries_at s' c) = true).
Proof.
  intros Hdir Hi Hf Hfree Hn Hsn Hdel Hp E.
  destruct (create_start_ok fuel s c l name sn mode) as (f & s3 & Hcf & Hzf & Hnin & Hfr & O3 & Hz3 & Hdir3 & He3 & Hen & Hplain & Hrun); try done. cbv zeta in Hen, Hplain, Hrun.
  set (e := update_create_time now (blank_entry sn (file_attr mode) f)) in *.
  destruct (write_dirent_ok fuel n s3 c l name sn e p Hdir3) as (H1 & H2 & H3 & s5 & E5 & O5 & Hd5 & Ht5); [lia|done|by apply Hplain|done|by rewrite He3|].
  assert (dir_entries s3 l = E) as HE by (unfold dir_entries, E, dir_entries; by rewrite He3). rewrite HE in *. split_and!; try done.
  pose proof (dir_data _ _ _ _ _ O5 Hdir3) as Hdir5.
  destruct (entry_write_ok b Hg Hd fuel s5 f 0x0FFFFFFF) as (s6 & E6 & O6 & V6); [apply Hdir5|apply Hdir5|apply Hdir5|done|done|lia|].
  destruct (info_kept s6 Hi) as (s7 & E7 & O7); [apply O6|by eapply oe_holds; [|apply Hdir5]|].
  destruct (created_ok c f l s s3 s5 s6 s7) as [Hcr Hd7]; try done. exists f, s7. split; [|split; [done|split; [by rewrite Hd7|]]].
  rewrite Hrun, bind_run, E5. cbn [negb]. rewrite bind_run, E6. cbn [negb]. by rewrite bind_run, E7.
  intros Hpre Ht x Hx. assert (forall y, y ∈ l -> cluster_data b s7 y = cluster_data b s5 y) as H75.
  { destruct (dir_clusters s c l Hdir) as [Hlok _]. intros y Hy. eapply Forall_forall in Hlok; [|exact Hy]. rewrite (od_data _ _ _ _ O7) by (done || set_solver). by apply O6. }
  unfold entries_at. rewrite H75 by done. apply Ht5; [done| |done]. intros y Hy. apply Ht in Hy as Hty. apply list_elem_of_lookup in Hy as [k Hk].
  pose proof (f_equal (fun m => m !! k) He3) as Hlk. cbn in Hlk. rewrite !list_lookup_fmap, Hk in Hlk. injection Hlk as ->. done.
Qed.

(** ** A cluster more *)

Lemma first_place_none ess need es : first_place ess need = None -> first_place (ess ++ [es]) need = Z.add (zlen (concat ess)) <$> find_run es 0 0 0 need.
Proof.
  induction ess as [|es0 ess IH]; cbn [app first_place concat]; [intros _; by destruct (find_run es 0 0 0 need)|].
  destruct (find_run es0 0 0 0 need); [done|]. intros Hn%fmap_None. rewrite IH by done. rewrite length_app. destruct (find_run es 0 0 0 need); [|done]. cbn. f_equal. lia.
Qed.

Lemma enter_none l name sn e : forall s,
  holds_data b s -> Forall (cluster_ok b) l -> first_place (entries_at s <$> l) (lfn_needed name + 1) = None ->
  exists s', enter_in_clusters b can_alloc l name sn e s = Done None s' /\ only_allocs s s'.
Proof.
  induction l as [|c l IH]; intros s Hs Hl; [intros _; exists s; split; [done|by exists (fs_allocs s); destruct s]|]. apply Forall_cons in Hl as [Hc Hl]. cbn [fmap list_fmap first_place].
  destruct (find_run (entries_at s c) 0 0 0 (lfn_needed name + 1)) as [q|] eqn:Hq; [done|]. intros Hn%fmap_None. rewrite enter_skip by done.
  destruct (IH (set_allocs (fs_allocs s + 1) s)) as (s' & E & [k ->]); try done. exists (set_allocs k s). split; [done|by eexists].
Qed.

(** The directory [l] and the cluster [g], which was free. *)
Record dir_grown (c g : Z) (l : list Z) s s' : Prop := {
  dg_dir : dir_here s' c (l ++ [g]);
  dg_was : cluster_ok b g /\ ent b s 0 g = 0;
  dg_data x : cluster_ok b x -> x ∉ l ++ [g] -> cluster_data b s' x = cluster_data b s x;
  dg_ent x : cluster_ok b x -> x ∉ l ++ [g] -> ent b s' 0 x = ent b s 0 x
}.

Lemma dir_grown_data c g l cs s1 s2 s3 : cs ⊆ l ++ [g] -> dir_grown c g l s1 s2 -> only_data b cs s2 s3 -> dir_grown c g l s1 s3.
Proof.
  intros Hsub [H1 H2 H3 H4] O. split; [by eapply dir_data|done| |].
  - intros x Hx Hnin. rewrite (od_data _ _ _ _ O) by (done || set_solver). by apply H3.
  - intros x Hx Hnin. rewrite (od_ent _ _ _ _ O) by (apply (fat0_ok b Hg) || done). by apply H4.
Qed.

Lemma write_entry_S fuel n c name sn e s :
  write_directory_entry_with_lfn b can_alloc fuel (S n) c name sn e s =
  (chain ← get_cluster_chain b can_alloc fuel c;
   match (chain : option (list Z)) with
   | None => mret false
   | Some chain =>
       r ← enter_in_clusters b can_alloc chain name sn e;
       match (r : option bool) with
       | Some ok => mret ok
       | None =>
           new_cluster ← find_free_cluster b fuel;
           if new_cluster =? 0 then mret false
           else
             ok ← write_fat_entry b fuel (List.last chain 0) new_cluster;
             if negb ok then mret false
             else
               ok ← write_fat_entry b fuel new_cluster 0x0FFFFFFF;
               if negb ok then mret false
               else
                 ok ← alloc can_alloc;
                 if negb ok then undefined
                 else
                   _ ← device_write (cluster_to_sector b new_cluster) (sectors_per_cluster b) (replicate (Z.to_nat cb) 0);
                   write_directory_entry_with_lfn b can_alloc fuel n c name sn e
       end
   end) s.
Proof. done. Qed.

(** What is on the disk when the call starts again. *)
Lemma grow_dir_ok fuel n s c l name sn e :
  dir_here s c l -> 2 <= cluster_count b < Z.of_nat fuel -> 0 < free_count b s -> first_place (entries_at s <$> l) (lfn_needed name + 1) = None ->
  exists g s', write_directory_entry_with_lfn b can_alloc fuel (S n) c name sn e s = write_directory_entry_with_lfn b can_alloc fuel n c name sn e s' /\ dir_grown c g l s s' /\
    (entries_at s' <$> l) = (entries_at s <$> l) /\ cluster_data b s' g = replicate (Z.to_nat cb) 0.
Proof.
  intros Hdir Hf Hfree Hp. destruct (dir_clusters s c l Hdir) as [Hlok Hnd]. pose proof Hdir as [Hok Hh Hs Hl Hu]. pose proof (cb_pos b Hg Hd) as Hcb.
  destruct (get_chain_run b Hg can_alloc Hal fuel s c l Hok Hh Hl) as (s1 & E1 & D1 & F1 & Hok1); [lia|]. pose proof (dir_reads s s1 c l D1 F1 Hok1 Hdir) as Hdir1.
  assert (forall x, cluster_data b s1 x = cluster_data b s x) as Hsame by (intros x; unfold cluster_data, image; by rewrite D1).
  assert (entries_at s1 <$> l = entries_at s <$> l) as He1 by (apply list_fmap_ext; intros i x _; unfold entries_at; by rewrite Hsame).
  destruct (enter_none l name sn e s1) as (s2 & E2 & [k ->]); [apply Hdir1|done|by rewrite He1|]. set (s2 := set_allocs k s1).
  assert (dir_here s2 c l) as Hdir2 by (eapply (dir_reads s1); [done|done|by eapply ok_same; [..|exact Hok1]|done]).
  assert (free_count b s2 = free_count b s) as Hfc.
  { unfold free_count. do 2 f_equal. apply filter_ext_in. intros x _. by rewrite (ent_same b s s2). }
  destruct (append_cluster_ok b Hg Hd fuel s2 c l) as (g & s3 & s4 & s5 & E3 & Hg0 & E4 & E5 & [C5 U5 N5 O5] & _); [apply Hdir2|apply Hdir2|apply Hdir2|apply Hdir2|apply Hdir2|lia|lia|].
  destruct (N5 g) as [Hcg Hzg]; [set_solver|]. rewrite (ent_same b s s2) in Hzg by done. assert (g ∉ l) as Hgl by (intros Hin; by apply (Hu g)).
  assert (dir_grown c g l s s5) as G5.
  { split; [split; [apply O5|apply O5|eapply oe_holds; [exact O5|apply Hdir2]|done|done]|done| |].
    - intros x Hx _. rewrite (oe_data _ _ _ _ O5) by done. apply Hsame.
    - intros x Hx Hnin. rewrite (oe_ent _ _ _ _ O5) by done. by apply ent_same. }
  set (s6 := set_allocs (fs_allocs s5 + 1) s5).
  assert (dir_grown c g l s s6) as G6 by (eapply (dir_grown_data c g l []); [set_solver|exact G5|]; apply only_data_reads; [done|done|by eapply ok_same; [..|apply G5]]).
  destruct (cluster_write_ok b Hg Hd s6 g (replicate (Z.to_nat cb) 0)) as (s7 & E7 & O7 & Hz7 & _); [apply G6|apply G6|done|rewrite length_replicate; lia|].
  exists g, s7. split; [|split; [eapply dir_grown_data; [|exact G6|exact O7]; set_solver|split; [|done]]].
  - rewrite write_entry_S, bind_run, E1, bind_run, E2. fold s2. rewrite bind_run, E3, Hg0, bind_run, E4. cbn [negb]. rewrite bind_run, E5. cbn [negb].
    rewrite bind_run, alloc_run, Hal. cbn [negb]. fold s6. by rewrite bind_run, E7.
  - apply list_fmap_ext. intros i x Hx%list_elem_of_lookup_2. unfold entries_at. assert (cluster_ok b x) as Hcx by (by eapply Forall_forall in Hlok).
    rewrite (od_data _ _ _ _ O7) by (done || set_solver). change (cluster_data b s6 x) with (cluster_data b s5 x). rewrite (oe_data _ _ _ _ O5) by done. f_equal. apply Hsame.
Qed.

Lemma append_entry_ok fuel n s c l name sn e :
  dir_here s c l -> 2 <= cluster_count b < Z.of_nat fuel -> 0 < free_count b s -> name_ok name -> plain_entry (dirent_bytes e) -> length (de_name e) = 11%nat ->
  lfn_needed name + 1 <= epc -> first_place (entries_at s <$> l) (lfn_needed name + 1) = None ->
  exists g s', write_directory_entry_with_lfn b can_alloc fuel (S (S n)) c name sn e s = Done true s' /\ dir_grown c g l s s' /\
    exists z, dir_entries s' (l ++ [g]) = dir_entries s l ++ name_group name sn e ++ z /\ forallb ended z = true.
Proof.
  intros Hdir Hf Hfree Hn He Hnl Hfit Hp. pose proof epc_ok as [Hepc Hep]. pose proof (needed_bounds name Hn) as [Hb _].
  destruct (grow_dir_ok fuel (S n) s c l name sn e Hdir Hf Hfree Hp) as (g & s7 & E7 & G7 & He7 & Hz7).
  assert (entries_at s7 g = replicate (Z.to_nat epc) (replicate 32 0)) as Hg7.
  { unfold entries_at, cluster_entries. rewrite Hz7, <- zero_entries. do 2 f_equal. lia. }
  assert (dir_entries s7 l = dir_entries s l) as HE7 by (unfold dir_entries; by rewrite He7).
  assert (forall k, forallb is_free (replicate k (replicate 32 0)) = true) as Hfz by (intros k; by apply Is_true_eq_true, forallb_True, Forall_replicate).
  destruct (write_dirent_ok fuel n s7 c (l ++ [g]) name sn e (zlen (dir_entries s l))) as (_ & _ & _ & s8 & E8 & O8 & Hd8 & _); [apply G7|lia|done|done|done| |].
  { rewrite fmap_app. cbn [fmap list_fmap]. rewrite He7, first_place_none by done. rewrite Hg7, find_run_all by (done || rewrite ?length_replicate; lia). cbn. f_equal. unfold dir_entries. lia. }
  exists g, s8. rewrite E7. split; [done|]. split; [by eapply dir_grown_data|].
  exists (drop (Z.to_nat (lfn_needed name + 1)) (replicate (Z.to_nat epc) (replicate 32 0))).
  assert (dir_entries s7 [g] = replicate (Z.to_nat epc) (replicate 32 0)) as Hg7' by (unfold dir_entries; cbn; by rewrite Hg7, app_nil_r).
  rewrite Hd8, dir_entries_app, HE7, Hg7'. split.
  - rewrite take_app_length', drop_app_ge by lia. do 3 f_equal. lia.
  - by rewrite drop_replicate; apply Is_true_eq_true, forallb_True, Forall_replicate.
Qed.
Lemma chain_nxt_keep s s' l : forall c, (forall x, x ∈ l -> nxt b s' x = nxt b s x) -> chain_from b s c l -> chain_from b s' c l.
Proof.
  induction l as [|x l IH]; intros c He; [done|]. cbn [chain_from]. intros (-> & Hc & Hl). rewrite He by set_solver. split_and!; try done.
  destruct l; [done|]. apply IH; [|done]. intros. apply He. set_solver.
Qed.

Lemma chain_last_nxt s c l g : chain_from b s c (l ++ [g]) -> nxt b s g = 0.
Proof.
  intros Hl. pose proof (chain_end b s c _ Hl) as He. rewrite length_app, Nat.add_1_r in He.
  pose proof (chain_after b s c _ (length l) g Hl) as Ha. rewrite lookup_app_r, Nat.sub_diag in Ha by lia. specialize (Ha eq_refl). rewrite Ha. exact He.
Qed.

(** The only free cluster of a disk. *)
Lemma free_unique s f g : free_count b s = 1 -> cluster_ok b f -> ent b s 0 f = 0 -> cluster_ok b g -> ent b s 0 g = 0 -> f = g.
Proof.
  unfold free_count. intros Hone Hf Hzf Hgc Hzg. assert (forall x, cluster_ok b x -> ent b s 0 x = 0 -> x ∈ filter (fun c => ent b s 0 c = 0) (clusters b)) as Hin.
  { intros x Hx Hz. apply list_elem_of_filter. split; [done|]. by apply elem_clusters. }
  pose proof (Hin f Hf Hzf) as Hif. pose proof (Hin g Hgc Hzg) as Hig. destruct (filter _ _) as [|x [|y r]]; [by apply not_elem_of_nil in Hif| |cbn [length] in Hone; lia].
  apply list_elem_of_singleton in Hif, Hig. congruence.
Qed.

(** The entry of the last cluster is written again. *)
Lemma dir_ends s s' c l f : dir_here s c (l ++ [f]) -> only_entries b [f] s s' -> ent b s' 0 f = 0x0FFFFFFF -> dir_here s' c (l ++ [f]).
Proof.
  intros Hdir O V. destruct (dir_clusters _ _ _ Hdir) as [Hlok Hnd]. rewrite Forall_forall in Hlok. pose proof (dh_chain _ _ _ Hdir) as C.
  assert (forall x, x ∈ l -> x ∉ [f]) as Hne by (apply NoDup_app in Hnd as (_ & Hdis & _); set_solver).
  split; [apply O|apply O|eapply oe_holds; [exact O|apply Hdir]| |].
  - eapply chain_nxt_keep; [|exact C]. intros x [Hx| ->%list_elem_of_singleton]%elem_of_app.
    + apply nxt_ent. intros Hcx. apply O; [done|by apply Hne].
    + rewrite (chain_last_nxt s c l f C), (nxt_set b s' f 0x0FFFFFFF) by (apply Hlok; set_solver) || done. done.
  - intros x Hin. assert (cluster_ok b x) as Hcx by (by apply Hlok). apply elem_of_app in Hin as [Hx| ->%list_elem_of_singleton]; [|by rewrite V].
    rewrite (oe_ent _ _ _ _ O) by (done || by apply Hne). apply Hdir. set_solver.
Qed.

(** The cluster of the new file is taken for the directory, too. *)
Lemma create_last_ok fuel n s c l name sn mode :
  dir_here s c l -> info_ok b -> 2 <= cluster_count b < Z.of_nat fuel -> free_count b s = 1 -> name_ok name -> make_short_name name = Some sn -> hd 0 sn <> DELETED ->
  lfn_needed name + 1 <= epc -> first_place (entries_at s <$> l) (lfn_needed name + 1) = None ->
  exists f s', let e := update_create_time now (blank_entry sn (file_attr mode) f) in
    create_file b can_alloc now fuel (S (S n)) c name mode s = Done None s' /\ 0 <= f < 2 ^ 32 /\ dir_here s' c (l ++ [f]) /\
    exists z, dir_entries s' (l ++ [f]) = dir_entries s l ++ name_group name sn e ++ z /\ forallb ended z = true.
Proof.
  intros Hdir Hi Hf Hone Hn Hsn Hdel Hfit Hp.
  destruct (create_start_ok fuel s c l name sn mode) as (f & s3 & Hcf & Hzf & Hnin & Hfr & O3 & _ & Hdir3 & He3 & Hen & Hplain & Hrun); [done|done|lia|done|done|]. cbv zeta in Hen, Hplain, Hrun.
  set (e := update_create_time now (blank_entry sn (file_attr mode) f)) in *. destruct (dir_clusters s c l Hdir) as [Hlok _]. rewrite Forall_forall in Hlok.
  assert (forall x, cluster_ok b x -> ent b s3 0 x = ent b s 0 x) as Hent by (intros; apply O3; [apply (fat0_ok b Hg)|done]).
  assert (free_count b s3 = 1) as Hone3.
  { rewrite <- Hone. unfold free_count. do 2 f_equal. apply filter_ext_in. intros x Hx%elem_clusters. by rewrite Hent. }
  destruct (append_entry_ok fuel n s3 c l name sn e) as (g & s5 & E5 & G5 & z & HE & Hz); [done|done|lia|done|by apply Hplain|done|done|by rewrite He3|].
  destruct (dg_was _ _ _ _ _ G5) as [Hcg Hzg]. assert (f = g) as <- by (eapply (free_unique s3); (done || by rewrite Hent)). pose proof (dg_dir _ _ _ _ _ G5) as Hdir5.
  destruct (entry_write_ok b Hg Hd fuel s5 f 0x0FFFFFFF) as (s6 & E6 & O6 & V6); [apply Hdir5|apply Hdir5|apply Hdir5|done|done|lia|].
  pose proof (dir_ends s5 s6 c l f Hdir5 O6 V6) as Hdir6.
  destruct (info_kept s6 Hi) as (s7 & E7 & O7); [apply Hdir6|apply Hdir6|]. exists f, s7. split; [|split; [lia|split; [by eapply dir_data|]]].
  - rewrite Hrun, bind_run, E5. cbn [negb]. rewrite bind_run, E6. cbn [negb]. by rewrite bind_run, E7.
  - exists z. split; [|done]. assert (dir_entries s3 l = dir_entries s l) as HE3 by (unfold dir_entries; by rewrite He3). fold e. rewrite <- HE3, <- HE.
    apply dir_entries_keep. intros x Hx. assert (cluster_ok b x) as Hcx by (apply elem_of_app in Hx as [Hx| ->%list_elem_of_singleton]; [by apply Hlok|done]).
    rewrite (od_data _ _ _ _ O7) by (done || set_solver). by apply O6.
Qed.

(** ** Removing an entry *)

(** Where the first entry with the name is, whatever its case. *)
Fixpoint found_at (ess : list (list (list Z))) (name : list Z) : option Z :=
  match ess with
  | [] => None
  | es :: ess' => match find_name es es 0 0 0 name with Some f => Some (fo_entry f) | None => Z.add (zlen es) <$> found_at ess' name end
  end.

Lemma tidy_some es : tidy es = true -> is_Some (dir_run (Some Closed) es).
Proof. unfold tidy. destruct (dir_run (Some Closed) es); [by eexists|done]. Qed.

Lemma tidy_live es : tidy es = true -> existsb ended es = false -> dir_run (Some Closed) es = Some Closed.
Proof.
  intros Ht Hl. unfold tidy in Ht. destruct (dir_run (Some Closed) es) as [[]|] eqn:Hr; try done. exfalso. apply (dir_run_live (Some Closed) es); [done|by rewrite live_ended, Hl|done].
Qed.

Lemma clusters_closed s l : (forall c, c ∈ l -> tidy (entries_at s c) = true) -> existsb ended (dir_entries s l) = false -> dir_run (Some Closed) (dir_entries s l) = Some Closed.
Proof.
  induction l as [|c l IH]; intros Ht Hl; [done|]. change (dir_entries s (c :: l)) with (entries_at s c ++ dir_entries s l) in *. rewrite existsb_app in Hl. apply orb_false_iff in Hl as [H1 H2].
  rewrite dir_run_app, tidy_live by (done || apply Ht; set_solver). apply IH; [|done]. intros x Hx. apply Ht. set_solver.
Qed.

(** In front of an entry of a tidy directory there is no end marker. *)
Lemma live_before a e post : tidy (a ++ e :: post) = true -> ended e = false -> existsb ended a = false.
Proof.
  intros Ht He. destruct (existsb ended a) eqn:Ha; [|done]. exfalso. apply tidy_some in Ht. rewrite dir_run_app in Ht.
  destruct (dir_run (Some Closed) a) eqn:Hr; [|rewrite dir_run_none in Ht; by destruct Ht]. rewrite <- Hr, (dir_run_stop a (Some Closed) Ha) in Ht by (rewrite Hr; by eexists).
  apply dir_run_ended in Ht as [_ Hz]. cbn in Hz. by rewrite He in Hz.
Qed.

Lemma find_all_ok l name : forall s p,
  holds_data b s -> Forall (cluster_ok b) l -> (forall c, c ∈ l -> tidy (entries_at s c) = true) -> found_at (entries_at s <$> l) name = Some p ->
  exists l1 c l2 fo pre parts e post s', find_in_clusters b can_alloc l name s = Done (Some (c, fo)) s' /\ only_allocs s s' /\ l = l1 ++ c :: l2 /\
    found_here (entries_at s c) fo pre parts e post /\ p = zlen (dir_entries s l1 ++ pre) + zlen parts.
Proof.
  induction l as [|c l IH]; intros s p Hs Hl Ht; [done|]. apply Forall_cons in Hl as [Hc Hl]. cbn [fmap list_fmap found_at find_in_clusters].
  rewrite bind_run, alloc_run, Hal. cbn [negb]. set (s1 := set_allocs _ s). rewrite bind_run, (read_cluster_ok b Hg Hd s1 c Hs Hc). cbv zeta.
  change (cluster_entries b (cluster_data b s1 c)) with (entries_at s c). destruct (find_name (entries_at s c) (entries_at s c) 0 0 0 name) as [fo|] eqn:Hf.
  - intros [= <-]. destruct (find_name_ok (entries_at s c) name (entries_at s c) [] [] 0 0 0 fo) as (pre & parts & e & post & Hh); try done; [apply tidy_some, Ht; set_solver|].
    exists [], c, l, fo, pre, parts, e, post, s1. split_and!; try done; [by eexists|]. apply Hh.
  - rewrite fmap_Some. intros (p' & Hp & ->). destruct (IH s1 p') as (l1 & c' & l2 & fo & pre & parts & e & post & s' & E & [k ->] & -> & Hh & ->); try done.
    { intros x Hx. apply Ht. set_solver. }
    exists (c :: l1), c', l2, fo, pre, parts, e, post, (set_allocs k s1). split_and!; try done; [by eexists|].
    change (dir_entries s1 l1) with (dir_entries s l1). change (dir_entries s (c :: l1)) with (entries_at s c ++ dir_entries s l1). rewrite !length_app. lia.
Qed.

(** The entries of a directory around the one that was found. *)
Record entry_found (E P parts : list (list Z)) (e : list Z) (post : list (list Z)) (p : Z) : Prop := {
  ef_split : E = P ++ parts ++ e :: post;
  ef_place : p = zlen P + zlen parts;
  ef_live : live P = true;
  ef_closed : dir_run (Some Closed) P = Some Closed;
  ef_parts : Forall part_entry parts;
  ef_entry : plain_entry e
}.

Lemma erase_whole s c fo pre parts e post :
  holds_data b s -> cluster_ok b c -> found_here (entries_at s c) fo pre parts e post ->
  Forall whole (pre ++ (erased <$> parts) ++ erased e :: post) /\ length (pre ++ (erased <$> parts) ++ erased e :: post) = Z.to_nat epc.
Proof.
  intros Hs Hc [Hes _ _ _ _ _ _ _]. pose proof (entries_whole s c Hs Hc) as Hw. pose proof (entries_length s c) as Hel. rewrite Hes in Hw, Hel. rewrite !Forall_app, Forall_cons in Hw. destruct Hw as (W1 & W2 & W3 & W4).
  rewrite !length_app in *. rewrite length_fmap. split; [|exact Hel]. rewrite !Forall_app, Forall_cons. split_and!; [done|by apply erased_whole| |done].
  pose proof (erased_whole [e] ltac:(by constructor)) as He. by apply Forall_cons in He as [? _].
Qed.

Lemma delete_entry_ok fuel s c l name p :
  dir_here s c l -> dir_tidy s l -> cluster_count b < Z.of_nat fuel -> found_at (entries_at s <$> l) name = Some p ->
  exists P parts e post s', entry_found (dir_entries s l) P parts e post p /\ delete_directory_entry_in_directory b can_alloc fuel c name s = Done true s' /\ only_data b l s s' /\
    dir_entries s' l = P ++ (erased <$> parts) ++ erased e :: post /\ dir_tidy s' l.
Proof.
  intros Hdir [Ht Htc] Hf Hp. destruct (dir_clusters s c l Hdir) as [Hlok Hnd]. pose proof Hdir as [Hok Hh Hs Hl Hu].
  destruct (get_chain_run b Hg can_alloc Hal fuel s c l Hok Hh Hl Hf) as (s1 & E1 & D1 & F1 & Hok1). pose proof (dir_reads s s1 c l D1 F1 Hok1 Hdir) as Hdir1.
  assert (forall x, entries_at s1 x = entries_at s x) as Hsame by (intros x; unfold entries_at, cluster_data, image; by rewrite D1).
  assert (forall l, dir_entries s1 l = dir_entries s l) as HsameE by (intros l'; apply dir_entries_keep; intros; unfold cluster_data, image; by rewrite D1).
  destruct (find_all_ok l name s1 p) as (l1 & c1 & l2 & fo & pre & parts & e & post & s2 & E2 & [k ->] & -> & Hh1 & Hp1); [apply Hdir1|done|intros x Hx; rewrite Hsame; by apply Htc| |].
  { rewrite <- Hp. f_equal. apply list_fmap_ext. intros i x _. apply Hsame. }
  rewrite Hsame in Hh1. rewrite HsameE in Hp1. pose proof Hh1 as [Hes Hpl Hpc Hpp Hpe _ _ _]. set (s3 := set_allocs (k + 1) (set_allocs k s1)).
  apply Forall_app in Hlok as [Hlok1 [Hc1 Hlok2]%Forall_cons]. apply NoDup_app in Hnd as (_ & Hd1 & Hnd2). apply NoDup_cons in Hnd2 as [Hd2 _]. rewrite Forall_forall in Hlok1, Hlok2.
  assert (forall s0, dir_entries s0 (l1 ++ c1 :: l2) = dir_entries s0 l1 ++ entries_at s0 c1 ++ dir_entries s0 l2) as Hcons by (intros; apply dir_entries_app).
  assert (dir_entries s (l1 ++ c1 :: l2) = (dir_entries s l1 ++ pre) ++ parts ++ e :: post ++ dir_entries s l2) as HE by (rewrite Hcons, Hes; by rewrite <- !app_assoc).
  assert (existsb ended (dir_entries s l1) = false) as Hll.
  { rewrite HE, app_assoc in Ht. apply live_before in Ht; [|apply Hpe]. rewrite !existsb_app in Ht. by destruct (existsb ended (dir_entries s l1)). }
  pose proof (clusters_closed s l1 ltac:(intros x Hx; apply Htc; set_solver) Hll) as Hcl1.
  set (es' := pre ++ (erased <$> parts) ++ erased e :: post). pose proof (erase_found _ _ _ _ _ _ Hh1) as Her. fold es' in Her.
  destruct (erase_whole s c1 fo pre parts e post Hs Hc1 Hh1) as [Hw Hlen]. fold es' in Hw, Hlen.
  pose proof epc_ok as [Hepc Hep]. assert (only_data b [] s s3) as O3 by (apply only_data_reads; [exact D1|exact F1|by eapply ok_same; [..|exact Hok1]]).
  assert (holds_data b s3) as Hs3 by (by eapply od_holds). pose proof (concat_length es' Hw) as Hcl.
  destruct (cluster_write_ok b Hg Hd s3 c1 (concat es')) as (s4 & E4 & O4 & Hdat & _); [apply O3|done|done|lia|].
  assert (only_data b [c1] s s4) as O by (eapply only_data_trans; [|exact O3|exact O4]; set_solver).
  assert (entries_at s4 c1 = es') as Hes4 by (unfold entries_at, cluster_entries; rewrite Hdat, <- Hlen, <- (app_nil_r (concat es')); by apply as_entries_concat).
  assert (forall x, x ∈ l1 \/ x ∈ l2 -> cluster_data b s4 x = cluster_data b s x) as Hrest.
  { intros x Hx. apply O; [destruct Hx; [by apply Hlok1|by apply Hlok2]|]. intros ->%list_elem_of_singleton. destruct Hx; [|done]. apply (Hd1 c1); set_solver. }
  assert (dir_entries s4 (l1 ++ c1 :: l2) = (dir_entries s l1 ++ pre) ++ (erased <$> parts) ++ erased e :: post ++ dir_entries s l2) as HE4.
  { rewrite Hcons, Hes4, (dir_entries_keep s s4 l1), (dir_entries_keep s s4 l2) by (intros; apply Hrest; auto). unfold es'. by rewrite <- !app_assoc. }
  assert (live (dir_entries s l1 ++ pre) = true) as HlP by (by rewrite entries_live_app, (live_ended (dir_entries s l1)), Hll).
  assert (dir_run (Some Closed) (dir_entries s l1 ++ pre) = Some Closed) as HcP by (by rewrite dir_run_app, Hcl1).
  exists (dir_entries s l1 ++ pre), parts, e, (post ++ dir_entries s l2), s4. split; [by split|]. split; [|split; [eapply only_data_weaken; [|exact O]; set_solver|split; [done|split]]].
  - unfold delete_directory_entry_in_directory. rewrite bind_run, E1, bind_run, E2, bind_run, alloc_run, Hal. cbn [negb fs_allocs set_allocs]. fold s3.
    rewrite bind_run, (read_cluster_ok b Hg Hd s3 c1 Hs3 Hc1). change (cluster_entries b (cluster_data b s3 c1)) with (entries_at s1 c1). rewrite Hsame.
    destruct (erase (fo_entry fo) (entries_at s c1)) as [es1|]; [|done]. cbn [mbind option_bind] in Her. cbn [or_undef]. rewrite bind_run, ret_run, Her. cbn [or_undef]. rewrite bind_run, ret_run.
    unfold store_entries, DIRENT_SIZE. rewrite drop_ge, app_nil_r; [exact E4|]. pose proof (data_length b Hg Hd s3 c1 Hs3 Hc1). lia.
  - destruct (erased_listed (dir_entries s l1 ++ pre) parts e (post ++ dir_entries s l2) HlP HcP Hpp Hpe) as (_ & _ & R1 & R2). unfold tidy in *. by rewrite HE4, R2, <- R1, <- HE.
  - intros x [Hx|[->|Hx]%elem_of_cons]%elem_of_app; [| |].
    + unfold entries_at. rewrite Hrest by auto. apply Htc. set_solver.
    + rewrite Hes4. unfold es'. destruct (erased_listed pre parts e post Hpl Hpc Hpp Hpe) as (_ & _ & R1 & R2). specialize (Htc c1 ltac:(set_solver)). unfold tidy in *. by rewrite R2, <- R1, <- Hes.
    + unfold entries_at. rewrite Hrest by auto. apply Htc. set_solver.
Qed.

(** ** Deleting a file *)

(** The clusters [q] are free, and the other chains are where they were. *)
Record file_deleted (c : Z) (l q : list Z) s s' : Prop := {
  fd_dir : dir_here s' c l;
  fd_tidy : dir_tidy s' l;
  fd_freed x : x ∈ q -> ent b s' 0 x = 0;
  fd_counted : counted b s';
  fd_others c' q' : chain_from b s c' q' -> q' ## q -> q' ## l -> chain_from b s' c' q' /\ content b s' q' = content b s q'
}.

Lemma free_file_ok fuel s c l fc q :
  dir_here s c l -> counted b s -> file_chain b s fc q -> q ## l -> cluster_count b < Z.of_nat fuel -> trim = None ->
  exists s', (if negb (fc =? 0) then _ ← trim_cluster_chain b can_alloc trim fuel fc; _ ← free_cluster_chain b can_alloc fuel fc; mret tt else mret tt) s = Done tt s' /\
    dir_here s' c l /\ counted b s' /\ (forall x, x ∈ q -> ent b s' 0 x = 0) /\ (forall x, cluster_ok b x -> x ∉ q -> ent b s' 0 x = ent b s 0 x) /\
    (forall x, cluster_ok b x -> cluster_data b s' x = cluster_data b s x).
Proof.
  intros Hdir Hcnt Hq Hql Hf ->. destruct Hq as [[-> ->]|[Hq Hqu]].
  { exists s. cbn [Z.eqb negb]. do 2 (split; [done|]). split; [done|]. split; [by intros x ?%not_elem_of_nil|done]. }
  assert ((fc =? 0) = false) as -> by (apply Z.eqb_neq; destruct q; [done|]; destruct Hq as (_ & [? _] & _); lia). cbn [negb].
  pose proof Hdir as [Hok Hh Hs Hl Hu]. destruct (free_cluster_chain_ok b Hg can_alloc fuel s fc q) as (s' & E & Hw & Hok' & Hcnt' & _); try done.
  pose proof (chain_ok b s c l Hl) as Hlok. rewrite Forall_forall in Hlok. pose proof (chain_ok b s fc q Hq) as Hqok. rewrite Forall_forall in Hqok.
  assert (forall x, cluster_ok b x -> (x ∈ q -> ent b s' 0 x = 0) /\ (x ∉ q -> ent b s' 0 x = ent b s 0 x)) as He.
  { intros x Hx. destruct (ew_ent b _ _ _ _ 0 x Hw (fat0_ok b Hg) Hx) as [Hi Ho]. split; [intros H; by rewrite (Hi H)|exact Ho]. }
  exists s'. split; [by rewrite bind_run; cbn [trim_cluster_chain]; rewrite ret_run, bind_run, E|]. split; [split|split; [done|split; [|split]]].
  - done.
  - intros x Hx. unfold valid_at. destruct (decide (x ∈ q)) as [Hi|Hi]; destruct (He x Hx) as [H1 H2]; [by rewrite H1|rewrite H2 by done; by apply Hh].
  - unfold holds_data in *. by rewrite (ew_length _ _ _ _ _ Hw).
  - eapply chain_keep; [|exact Hl]. intros x Hx. apply He; [by apply Hlok|]. set_solver.
  - intros x Hx. rewrite (proj2 (He x (Hlok x Hx))) by set_solver. by apply Hu.
  - intros x Hx. apply He; [by apply Hqok|done].
  - intros x Hx. by apply He.
  - intros x Hx. by eapply entries_data.
Qed.

Lemma delete_file_ok fuel s c l name x q p :
  dir_here s c l -> dir_tidy s l -> counted b s -> info_ok b -> cluster_count b < Z.of_nat fuel -> trim = None ->
  find_by_name (fun f => negb (fe_dir f)) name (take LIMIT (listed (dir_entries s l) 0 [])) = Some x -> is_protected (fe_entry x) = false ->
  file_chain b s (get_first_cluster (fe_entry x)) q -> q ## l -> found_at (entries_at s <$> l) name = Some p ->
  exists P parts e post s', entry_found (dir_entries s l) P parts e post p /\ delete_file b can_alloc trim fuel c name s = Done None s' /\
    dir_entries s' l = P ++ (erased <$> parts) ++ erased e :: post /\ file_deleted c l q s s'.
Proof.
  intros Hdir Hti Hcnt Hi Hf Htr Hx Hpr Hq Hql Hp. pose proof Hti as [Ht Htc].
  destruct (read_directory_ok fuel s c l Hdir) as (s1 & E1 & D1 & F1 & Hok1); [right; exists (Some Closed); by apply tidy_some|done|]. pose proof (dir_reads s s1 c l D1 F1 Hok1 Hdir) as Hdir1.
  assert (forall y, ent b s1 0 y = ent b s 0 y) as Hent1 by (intros y; by apply ent_same). assert (forall y, cluster_data b s1 y = cluster_data b s y) as Hdat1 by (intros y; unfold cluster_data, image; by rewrite D1).
  set (fc := get_first_cluster (fe_entry x)) in *. assert (file_chain b s1 fc q) as Hq1.
  { destruct Hq as [?|[Hq Hqu]]; [by left|right]. split; [by eapply chain_same|]. intros y Hy. rewrite Hent1. by apply Hqu. }
  destruct (free_file_ok fuel s1 c l fc q) as (s2 & E2 & Hdir2 & Hcnt2 & Hz2 & Hk2 & Hdat2); try done; [by eapply counted_keep; [| |exact Hcnt]|].
  destruct (info_kept s2 Hi) as (s3 & E3 & O3); [apply Hdir2|apply Hdir2|]. pose proof (dir_data _ _ _ _ _ O3 Hdir2) as Hdir3. destruct (dir_clusters s c l Hdir) as [Hlok _]. rewrite Forall_forall in Hlok.
  assert (forall y, cluster_ok b y -> cluster_data b s3 y = cluster_data b s y) as Hdat3 by (intros y Hy; rewrite (od_data _ _ _ _ O3) by (done || set_solver); by rewrite Hdat2, Hdat1).
  assert (forall y, y ∈ l -> entries_at s3 y = entries_at s y) as Hen3 by (intros y Hy; unfold entries_at; rewrite Hdat3; [done|by apply Hlok]).
  assert (dir_entries s3 l = dir_entries s l) as HE3 by (apply dir_entries_keep; intros y Hy; apply Hdat3; by apply Hlok).
  destruct (delete_entry_ok fuel s3 c l name p Hdir3) as (P & parts & e & post & s4 & Hef & E4 & O4 & HE4 & Ht4); [split; [by rewrite HE3|intros y Hy; rewrite Hen3 by done; by apply Htc]|done| |].
  { rewrite <- Hp. f_equal. apply list_fmap_ext. intros i y Hy. apply Hen3. by eapply list_elem_of_lookup_2. }
  rewrite HE3 in Hef. exists P, parts, e, post, s4. split; [done|]. assert (forall y, cluster_ok b y -> ent b s4 0 y = ent b s2 0 y) as Hent4.
  { intros y Hy. rewrite (od_ent _ _ _ _ O4), (od_ent _ _ _ _ O3) by (apply (fat0_ok b Hg) || done). done. }
  split; [|split; [done|split]].
  - unfold delete_file. rewrite bind_run, E1, Hx, Hpr. fold fc. rewrite bind_run, E2, bind_run, E3, bind_run, E4. done.
  - by eapply dir_data.
  - done.
  - intros y Hy. assert (cluster_ok b y) as Hcy by (destruct Hq as [[_ ->]|[Hq _]]; [by apply not_elem_of_nil in Hy|pose proof (chain_ok b s _ q Hq) as Hqok; by eapply Forall_forall in Hqok]).
    rewrite Hent4 by done. by apply Hz2.
  - apply (counted_keep b s2); [done| |done]. rewrite (od_free _ _ _ _ O4). apply O3.
  - intros c' q' Hq' Hqq Hq'l. pose proof (chain_ok b s c' q' Hq') as Hq'ok. rewrite Forall_forall in Hq'ok. split.
    + eapply chain_keep; [|exact Hq']. intros y Hy. rewrite Hent4, Hk2 by (by apply Hq'ok || set_solver). apply Hent1.
    + apply content_keep. intros y Hy. rewrite (od_data _ _ _ _ O4); [|by apply Hq'ok|set_solver]. by apply Hdat3, Hq'ok.
Qed.

(** ** Cutting a chain *)

Lemma zero_all_ok fuel l2 : forall s,
  fs_ok b s -> healthy b s -> holds_data b s -> Forall (cluster_ok b) l2 -> (0 < fuel)%nat ->
  exists s', for_each l2 (fun c => _ ← write_fat_entry b fuel c 0; mret tt) s = Done tt s' /\ only_entries b l2 s s' /\ forall x, x ∈ l2 -> ent b s' 0 x = 0.
Proof.
  induction l2 as [|c l2 IH]; intros s Hok Hh Hs Hl Hf; cbn [for_each].
  { exists s. split; [done|]. split; [by apply reads_entries|]. by intros x ?%not_elem_of_nil. }
  apply Forall_cons in Hl as [Hc Hl]. destruct (entry_write_ok b Hg Hd fuel s c 0) as (s1 & E1 & O1 & V1); try done.
  destruct (IH s1) as (s2 & E2 & O2 & V2); [apply O1|apply O1|by eapply oe_holds|done|done|].
  exists s2. split; [by rewrite bind_run, bind_run, E1, ret_run, E2|]. split; [eapply only_entries_trans; [| |exact O1|exact O2]; set_solver|].
  intros x [->|Hx]%elem_of_cons; [|by apply V2]. destruct (decide (c ∈ l2)); [by apply V2|]. rewrite (oe_ent _ _ _ _ O2) by done. exact V1.
Qed.

Lemma chain_cut s s' l1 x l2 : forall c,
  chain_from b s c (l1 ++ x :: l2) -> (forall y, y ∈ l1 -> ent b s' 0 y = ent b s 0 y) -> ent b s' 0 x = 0x0FFFFFFF -> chain_from b s' c (l1 ++ [x]).
Proof.
  induction l1 as [|y l1 IH]; intros c Hl Hk Hx.
  - destruct Hl as (-> & Hc & _). cbn. split_and!; [done|done|]. by rewrite (nxt_set b s' c 0x0FFFFFFF Hc Hx).
  - destruct Hl as (-> & Hc & Hl). cbn [app chain_from]. rewrite (nxt_ent b s s') by (intros _; apply Hk; set_solver). split_and!; [done|done|].
    assert (chain_from b s' (nxt b s c) (l1 ++ [x])) as Hgoal.
    { apply IH; [|intros; apply Hk; set_solver|done]. change ((c :: l1) ++ x :: l2) with (c :: (l1 ++ x :: l2)) in Hl. by destruct (l1 ++ x :: l2) eqn:E; [destruct l1|]. }
    by destruct (l1 ++ [x]) eqn:E; [destruct l1|].
Qed.

Lemma cut_ok fuel s c l (k : nat) :
  dir_here s c l -> (0 < k < length l)%nat -> (0 < fuel)%nat ->
  exists s1 s2 r, write_fat_entry b fuel (nth (k - 1) l 0) 0x0FFFFFFF s = Done r s1 /\
    for_each (drop k l) (fun c => _ ← write_fat_entry b fuel c 0; mret tt) s1 = Done tt s2 /\
    only_entries b l s s2 /\ chain_from b s2 c (take k l) /\ (forall x, x ∈ take k l -> ent b s2 0 x <> 0) /\ (forall x, x ∈ drop k l -> ent b s2 0 x = 0).
Proof.
  intros Hdir Hk Hf. destruct (dir_clusters s c l Hdir) as [Hlok Hnd]. pose proof Hdir as [Hok Hh Hs Hl Hu].
  destruct (lookup_lt_is_Some_2 l (k - 1)) as [x Hx]; [lia|]. rewrite (nth_lookup_Some _ _ _ _ Hx). pose proof (Forall_lookup_1 _ _ _ _ Hlok Hx) as Hcx.
  assert (take k l = take (k - 1) l ++ [x]) as Htk by (replace k with (S (k - 1)) at 1 by lia; by apply take_S_r).
  assert (l = take (k - 1) l ++ x :: drop k l) as Hsplit by (rewrite <- (take_drop k l) at 1; rewrite Htk, <- app_assoc; done).
  destruct (entry_write_ok b Hg Hd fuel s x 0x0FFFFFFF) as (s1 & E1 & O1 & V1); try done.
  destruct (zero_all_ok fuel (drop k l) s1) as (s2 & E2 & O2 & V2); [apply O1|apply O1|by eapply oe_holds|by apply Forall_drop|done|].
  rewrite Hsplit in Hnd. apply NoDup_app in Hnd as (_ & Hd1 & Hnd2). apply NoDup_cons in Hnd2 as [Hxd _]. rewrite Forall_forall in Hlok.
  assert (forall y, y ∈ take (k - 1) l -> ent b s2 0 y = ent b s 0 y) as Hkeep.
  { intros y Hy. assert (cluster_ok b y) as Hcy by (apply Hlok; by eapply subseteq_take). rewrite (oe_ent _ _ _ _ O2), (oe_ent _ _ _ _ O1); try done; specialize (Hd1 y Hy); set_solver. }
  assert (ent b s2 0 x = 0x0FFFFFFF) as Vx by (rewrite (oe_ent _ _ _ _ O2) by done; exact V1).
  exists s1, s2, true. split; [done|]. split; [done|]. split; [|split; [|split; [|done]]].
  - eapply only_entries_trans; [| |exact O1|exact O2]; [|apply subseteq_drop]. intros y ->%list_elem_of_singleton. by eapply list_elem_of_lookup_2.
  - rewrite Htk. eapply chain_cut; [rewrite <- Hsplit; exact Hl|done|done].
  - rewrite Htk. intros y [Hy| ->%list_elem_of_singleton]%elem_of_app; [|by rewrite Vx]. rewrite Hkeep by done. apply Hu. by eapply subseteq_take.
Qed.

(** ** Truncating a file *)

(** The file keeps its first bytes, and the clusters behind them are free. *)
Record file_cut (n n' : node) (new_size : Z) (l l' pl : list Z) s s' : Prop := {
  ct_here : file_here b s' n' l' pl;
  ct_size : n_size n' = new_size;
  ct_bytes : file_bytes b s' n' l' = take (Z.to_nat new_size) (file_bytes b s n l);
  ct_freed x : x ∈ l -> x ∉ l' -> ent b s' 0 x = 0;
  ct_counted : counted b s';
  ct_other c q : chain_from b s c q -> q ## l -> q ## pl -> chain_from b s' c q /\ content b s' q = content b s q
}.

Definition cut_node (n : node) (new_size cluster : Z) : node :=
  let n := set_size new_size (set_cluster cluster n) in set_entry (update_write_time now (set_extent new_size cluster (n_entry n))) n.

(** From the table to the directory entry. *)
Lemma cut_entry_ok fuel s s2 n new_size cluster l pl (k : nat) :
  file_here b s n l pl -> counted b s -> cluster_count b < Z.of_nat fuel -> 0 <= new_size <= n_size n -> new_size <= Z.of_nat k * cb -> (k <= length l)%nat ->
  only_entries b l s s2 -> file_chain b s2 cluster (take k l) -> (forall x, x ∈ drop k l -> ent b s2 0 x = 0) ->
  let n' := cut_node n new_size cluster in
  exists s', overwrite_directory_entry b can_alloc fuel (n_parent n') (n_index n') (n_entry n') s2 = Done true s' /\ file_cut n n' new_size l (take k l) pl s s'.
Proof.
  intros [Hok Hh Hs [Hfc Hsize] Hpl Hplu Hap [Hi Hin] Hname] Hcnt Hf Hns Hk Hkl O2 Hfc2 Hfree n'.
  destruct (keep_entries b can_alloc Hg Hd Hal l s s2 (n_parent n) pl O2 Hpl) as (P2 & K2 & V2); [set_solver|].
  destruct (overwrite_ok b can_alloc Hg Hd Hal fuel s2 (n_parent n) pl (n_index n) (n_entry n')) as (s3 & E3 & O3 & C3); try done; [apply O2|apply O2|by eapply oe_holds|].
  exists s3. split; [done|]. pose proof (file_clusters b s _ l Hfc) as Hlok. assert (Forall (cluster_ok b) (take k l)) as Htok by (by apply Forall_take). rewrite Forall_forall in Hlok, Htok.
  assert (forall x, x ∈ take k l -> x ∈ l) as Htl by (intros x; apply subseteq_take).
  assert (forall x, cluster_ok b x -> ent b s3 0 x = ent b s2 0 x) as V3 by (intros x Hx; apply O3; [apply (fat0_ok b Hg)|done]).
  assert (content b s3 (take k l) = content b s (take k l)) as Hcont.
  { apply content_keep. intros x Hx. rewrite (od_data _ _ _ _ O3) by (by apply Htok || set_solver). apply O2. by apply Htok. }
  assert (forall s0, content b s0 l = content b s0 (take k l) ++ content b s0 (drop k l)) as Happ by (intros; by rewrite <- content_app, take_drop).
  pose proof (content_length b Hg Hd s (take k l) Hs ltac:(by apply Forall_forall)) as Hlen. rewrite length_take, Nat.min_l in Hlen by lia. split.
  - split; try done; [apply O3|eapply healthy_keep; [done|exact O3|apply O2]|eapply od_holds; [exact O3|by eapply oe_holds]| |by eapply keep_chain| |set_solver].
    + split; [|change (n_size n') with new_size; rewrite length_take, Nat.min_l by lia; lia]. change (n_cluster n') with cluster.
      destruct Hfc2 as [?|[Hc Hne]]; [by left|right]. split; [by eapply keep_chain|]. intros x Hx. rewrite V3 by (by apply Htok). by apply Hne.
    + intros x Hx. pose proof (chain_ok b s _ pl Hpl) as Hplok. rewrite Forall_forall in Hplok. rewrite V3, V2 by (done || by apply Hplok). by apply Hplu.
  - done.
  - unfold file_bytes. change (n_size n') with new_size. rewrite Hcont, Happ. unfold slice. cbn [Z.to_nat]. rewrite !drop_0, take_take, Nat.min_l by lia. rewrite take_app_le by lia. done.
  - intros x Hx Hnx. rewrite V3 by (by apply Hlok). apply Hfree. rewrite <- (take_drop k l) in Hx. set_solver.
  - apply (counted_keep b s2); [done|apply O3|by apply O2].
  - intros c q Hq Hql Hqpl. destruct (keep_entries b can_alloc Hg Hd Hal l s s2 c q O2 Hq Hql) as (Q2 & L2 & _).
    destruct (keep_data b can_alloc Hg Hd Hal pl s2 s3 c q O3 Q2 Hqpl) as (Q3 & L3 & _). split; [done|congruence].
Qed.

Lemma freed_entries s s' l : healthy b s -> holds_data b s -> entries_written b (fun c => c ∈ l) 0 s s' -> fs_ok b s' -> counted b s' -> only_entries b l s s'.
Proof.
  intros Hh Hs Hw Hok Hcnt. pose proof (fat0_ok b Hg) as H0. split; [done| |done|apply Hw| |].
  - intros x Hx. unfold valid_at. destruct (ew_ent b _ _ _ _ 0 x Hw H0 Hx) as [Hi Ho]. destruct (decide (x ∈ l)) as [Hin|Hin]; [by rewrite (Hi Hin)|rewrite (Ho Hin); by apply Hh].
  - intros x Hx Hin. by apply (ew_ent b _ _ _ _ 0 x Hw H0 Hx).
  - intros x Hx. by eapply entries_data.
Qed.

Lemma truncate_ok fuel s n l pl new_size :
  file_here b s n l pl -> counted b s -> cluster_count b < Z.of_nat fuel -> 0 <= new_size <= n_size n -> n_size n <= U32_MAX -> trim = None ->
  exists n' s', truncate b can_alloc now trim fuel n new_size s = Done (None, n') s' /\ file_cut n n' new_size l (take (Z.to_nat ((new_size + cb - 1) / cb)) l) pl s s'.
Proof.
  intros Hhere Hcnt Hf Hns Hmax ->. pose proof Hhere as [Hok Hh Hs [Hfc Hsize] Hpl Hplu Hap _ _]. pose proof (cb_pos b Hg Hd) as Hcb.
  assert (cb <= 512 * 255) as Hcbm by (destruct Hg, Hd; unfold bytes_per_cluster; nia). unfold U32_MAX in *. set (needed := (new_size + cb - 1) / cb).
  assert (forall s1 s2 cluster (k : nat), only_entries b l s s2 -> new_size <= Z.of_nat k * cb -> (k <= length l)%nat -> file_chain b s2 cluster (take k l) -> (forall x, x ∈ drop k l -> ent b s2 0 x = 0) ->
    k = Z.to_nat needed \/ (length l <= Z.to_nat needed /\ k = length l)%nat -> s1 = s2 ->
    exists n' s', (let n' := cut_node n new_size cluster in ok ← overwrite_directory_entry b can_alloc fuel (n_parent n') (n_index n') (n_entry n'); mret (if (ok : bool) then None else Some Io, n')) s1 = Done (None, n') s' /\
      file_cut n n' new_size l (take (Z.to_nat needed) l) pl s s') as Hend.
  { intros s1 s2 cluster k O2 Hk1 Hk2 Hfc2 Hz Hkn ->. destruct (cut_entry_ok fuel s s2 n new_size cluster l pl k) as (s' & E & Hc); try done. exists (cut_node n new_size cluster), s'. cbv zeta.
    rewrite bind_run, E, ret_run. split; [done|]. assert (take (Z.to_nat needed) l = take k l) as ->; [|done]. destruct Hkn as [->|[Hge ->]]; [done|]. by rewrite !take_ge by lia. }
  assert (cut_node n new_size (n_cluster n) = set_entry (update_write_time now (set_extent new_size (n_cluster n) (n_entry n))) (set_size new_size n)) as Hcn by (by destruct n).
  unfold truncate. destruct (Z.eqb_spec new_size 0) as [->|Hnz].
  - assert (needed = 0) as Hn0 by (unfold needed; apply Z.div_small; lia). destruct Hfc as [[Hc0 ->]|[Hl Hne]].
    + rewrite (proj2 (Z.eqb_eq _ _) Hc0). cbn [negb]. rewrite bind_run, ret_run.
      destruct (Hend s s (n_cluster n) 0%nat) as (n' & s' & E & Hc); [by apply reads_entries|lia|done|by left|by intros x ?%not_elem_of_nil|left; lia|done|].
      exists n', s'. split; [|done]. rewrite <- E. cbv zeta. by rewrite Hcn.
    + assert ((n_cluster n =? 0) = false) as -> by (apply Z.eqb_neq; destruct l; [done|]; destruct Hl as (_ & [? _] & _); lia). cbn [negb].
      destruct (free_cluster_chain_ok b Hg can_alloc fuel s (n_cluster n) l) as (s2 & E2 & Hw & Hok2 & Hcnt2 & _); try done.
      rewrite bind_run, bind_run. cbn [trim_cluster_chain]. rewrite ret_run, bind_run, E2, ret_run.
      pose proof (freed_entries s s2 l Hh Hs Hw Hok2 Hcnt2) as O2. destruct (Hend s2 s2 0 0%nat O2) as (n' & s' & E & Hc); [lia|lia|by left| |left; lia|done|by exists n', s'].
      intros x Hx. rewrite drop_0 in Hx. pose proof (chain_ok b s _ l Hl) as Hlok. rewrite Forall_forall in Hlok. destruct (ew_ent b _ _ _ _ 0 x Hw (fat0_ok b Hg) (Hlok x Hx)) as [Hz _]. by rewrite (Hz Hx).
  - destruct Hfc as [[Hc0 ->]|[Hl Hne]]; [cbn in Hsize; lia|]. rewrite (u64_id (new_size + cb - 1)) by (unfold UINT64_MAX; lia). fold needed. cbv zeta.
    destruct (ceil_div new_size cb) as [Hn1 Hn2]; [lia|lia|]. fold needed in Hn1, Hn2.
    destruct (get_chain_run b Hg can_alloc Hal fuel s (n_cluster n) l Hok Hh Hl Hf) as (s1 & E1 & D1 & F1 & Hok1). rewrite bind_run, bind_run, E1. pose proof (reads_entries b s s1 D1 F1 Hok1 Hh) as O1.
    assert (dir_here s1 (n_cluster n) l) as Hd1 by (apply (dir_reads s); [done|done|done|by split]).
    destruct (Z.ltb_spec needed (zlen l)) as [Hlt|Hge]; unfold when.
    + destruct (cut_ok fuel s1 (n_cluster n) l (Z.to_nat needed) Hd1) as (s2 & s3 & r & E2 & E3 & O3 & C3 & U3 & Z3); [lia|destruct Hg; lia|].
      rewrite (proj2 (Z.ltb_lt 0 needed)) by lia. replace (Z.to_nat (needed - 1)) with (Z.to_nat needed - 1)%nat by lia.
      destruct (lookup_lt_is_Some_2 l (Z.to_nat needed - 1)) as [last Hlast]; [lia|]. rewrite Hlast. rewrite (nth_lookup_Some _ _ 0 _ Hlast) in E2. cbn [or_undef].
      rewrite bind_run, bind_run, ret_run, bind_run, E2, E3, ret_run.
      destruct (Hend s3 s3 (n_cluster n) (Z.to_nat needed)) as (n' & s' & E & Hc); try done; [eapply only_entries_trans; [| |exact O1|exact O3]; set_solver|lia|lia|by right|by left|].
      exists n', s'. split; [|done]. rewrite <- E. cbv zeta. by rewrite Hcn.
    + rewrite bind_run, ret_run, ret_run. destruct (Hend s1 s1 (n_cluster n) (length l)) as (n' & s' & E & Hc); try done; [eapply only_entries_weaken; [|exact O1]; set_solver|lia| | |right; lia|].
      * rewrite take_ge by lia. right. split; apply Hd1.
      * intros x Hx. rewrite drop_ge in Hx by lia. by apply not_elem_of_nil in Hx.
      * exists n', s'. split; [|done]. rewrite <- E. cbv zeta. by rewrite Hcn.
Qed.
End dirs.
