(* ===== verification/FatDirProps.v ===== *)
(** * Directories on FAT32: what creating, deleting and truncating promise

    A file that is created where the listing looks is listed under its name, with
    everything else as it was; behind an end marker it is not listed, and the last
    free cluster of a disk is given to the file and to its directory. A deleted
    file is not listed, and its clusters are free; with names that differ only in
    case the wrong one goes. A truncated file keeps its first bytes. *)

From Stdlib Require Import ZArith Lia.
From stdpp Require Import base tactics gmap numbers list.
From S2P Require Import Prelude.
From S2P Require Import Memory.
From S2P Require Import Slices.
From S2P Require Import Fat.
From S2P Require Import FatFacts.
From S2P Require Import FatTable.
From S2P Require Import FatChain.
From S2P Require Import FatFile.
From S2P Require Import FatWrite.
From S2P Require Import FatProps.
From S2P Require Import FatFileProps.
From S2P Require Import FatDir.
From S2P Require Import FatDirFacts.
From S2P Require Import FatDirOps.

(** What a listing shows of a new file. *)
Record listed_as (new : file_entry) (name : list Z) (f mode : Z) : Prop := {
  la_name : get_name new = name;
  la_cluster : get_first_cluster (fe_entry new) = f;
  la_size : de_size (fe_entry new) = 0;
  la_file : fe_dir new = false;
  la_mode : is_protected (fe_entry new) = (Z.land mode S_IWUSR =? 0)
}.

Lemma new_file_ok now name sn mode f i :
  name_ok name -> make_short_name name = Some sn -> 0 <= f < 2 ^ 32 ->
  listed_as (make_file_entry (name_parts name sn) (dirent_bytes (update_create_time now (blank_entry sn (file_attr mode) f))) i) name f mode.
Proof.
  intros Hn Hsn Hf. destruct (short_name_ok name sn (proj1 Hn) Hsn) as [Hsl Hsb]. set (e := update_create_time _ _).
  destruct (new_entry_ok now sn (file_attr mode) f Hsl Hsb (file_attr_new mode) Hf) as (Hk & Hc & Hz & Ha & _). fold e in Hk, Hc, Hz, Ha.
  pose proof (dirent_roundtrip e Hk) as Hr. split; cbn [make_file_entry fe_entry fe_dir]; rewrite ?Hr; try done.
  - by apply group_name.
  - change (e_attr (dirent_bytes e)) with (de_attr (dirent_of (dirent_bytes e))). rewrite Hr, Ha. unfold file_attr. by destruct (Z.land mode S_IWUSR =? 0).
  - unfold is_protected. rewrite Ha. unfold file_attr. by destruct (Z.land mode S_IWUSR =? 0).
Qed.

Section facts.
Context {D : Type} `{!BlockDevice D} (b : bpb) `{!Disk D (bytes_per_sector b)}.
Context (can_alloc : Z -> bool) (now : rtc_time).
Hypothesis (Hg : geo_ok b) (Hd : data_ok b) (Hal : forall i, can_alloc i = true).
Implicit Types (s : fs D).

(** A listing below the limit is all there is. *)
Lemma listing_is fuel s c l files s0 :
  dir_here b s c l -> readable b s l -> cluster_count b < Z.of_nat fuel -> read_directory b can_alloc fuel c s = Done (inr files) s0 -> zlen files < READ_DIR_MAX_ENTRIES ->
  files = listed (dir_entries b s l) 0 [].
Proof.
  intros Hdir Hr Hf Hrun Hlt. destruct (read_directory_ok b can_alloc Hg Hd Hal fuel s c l Hdir Hr Hf) as (s' & E & _). rewrite E in Hrun. injection Hrun as <- _.
  rewrite length_take in Hlt. unfold READ_DIR_MAX_ENTRIES, LIMIT in *. rewrite take_ge by lia. done.
Qed.

Lemma read_listing fuel s c l :
  dir_here b s c l -> readable b s l -> cluster_count b < Z.of_nat fuel -> zlen (listed (dir_entries b s l) 0 []) <= READ_DIR_MAX_ENTRIES ->
  exists s', read_directory b can_alloc fuel c s = Done (inr (listed (dir_entries b s l) 0 [])) s'.
Proof.
  intros Hdir Hr Hf Hle. destruct (read_directory_ok b can_alloc Hg Hd Hal fuel s c l Hdir Hr Hf) as (s' & E & _). exists s'. rewrite E. unfold READ_DIR_MAX_ENTRIES, LIMIT in *. by rewrite take_ge by lia.
Qed.

Lemma tidy_readable s l : tidy (dir_entries b s l) = true -> readable b s l.
Proof. intros Ht. right. exists (Some Closed). unfold tidy in Ht. destruct (dir_run (Some Closed) (dir_entries b s l)); [by eexists|done]. Qed.
End facts.

Lemma find_by_name_in p name l x : find_by_name p name l = Some x -> x ∈ l.
Proof.
  unfold find_by_name. destruct (list_find _ l) as [[i y]|] eqn:E; [|done]. intros [= <-]. apply list_find_Some in E as (E & _). by eapply list_elem_of_lookup_2.
Qed.

Section deletion.
Context {D : Type} `{!BlockDevice D} (b : bpb) `{!Disk D (bytes_per_sector b)}.
Context (can_alloc : Z -> bool).
Hypothesis (Hg : geo_ok b) (Hd : data_ok b) (Hal : forall i, can_alloc i = true).
Implicit Types (s : fs D).

(** The listing loses the file at the place that was found, the file that was
    asked for loses its clusters. *)
Lemma delete_found fuel s c l name x q p files s0 :
  info_ok b -> cluster_count b < Z.of_nat fuel -> counted b s -> dir_here b s c l -> dir_tidy b s l ->
  read_directory b can_alloc fuel c s = Done (inr files) s0 -> zlen files < READ_DIR_MAX_ENTRIES ->
  find_by_name (fun f => negb (fe_dir f)) name files = Some x -> is_protected (fe_entry x) = false ->
  file_chain b s (get_first_cluster (fe_entry x)) q -> q ## l -> found_at (entries_at b s <$> l) name = Some p ->
  exists y files1 files2 s' s'', delete_file b can_alloc None fuel c name s = Done None s' /\ read_directory b can_alloc fuel c s' = Done (inr (files1 ++ files2)) s'' /\
    files = files1 ++ y :: files2 /\ fe_index y = p /\ x ∈ files /\ (fe_index x = p -> x = y) /\ file_deleted b c l q s s'.
Proof.
  intros Hi Hf Hcnt Hdir [Ht Htc] Hrun Hlt Hx Hpr Hq Hql Hp. apply (listing_is b can_alloc Hg Hd Hal fuel s c l) in Hrun; [|done|by apply tidy_readable|done|done]. subst files.
  pose proof (find_by_name_in _ _ _ _ Hx) as Hxin.
  destruct (delete_file_ok b can_alloc None Hg Hd Hal fuel s c l name x q p) as (P & parts & e & post & s' & [Hsp Hpl Hlv Hcl Hpt Hen] & E & HE & Hdel); try done.
  { rewrite take_ge; [done|]. unfold LIMIT, READ_DIR_MAX_ENTRIES in *. lia. }
  destruct (erased_listed P parts e post Hlv Hcl Hpt Hen) as (L1 & L2 & _ & _). rewrite <- Hsp in L1. rewrite <- HE in L2.
  destruct (read_listing b can_alloc Hg Hd Hal fuel s' c l) as (s'' & E''); [apply Hdel|apply tidy_readable, Hdel|done|rewrite L2; rewrite L1, length_app in Hlt; cbn [length] in Hlt; rewrite length_app; lia|].
  rewrite L2 in E''. eexists _, _, _, s', s''. split; [done|]. split; [done|]. split; [exact L1|]. split; [cbn; lia|]. split; [done|]. split; [|done].
  intros Hix. eapply listed_unique; [exact Hxin|rewrite L1; set_solver|cbn; lia].
Qed.
End deletion.

(** Which names have a short name: all but those that begin with their last dot. *)
Lemma short_name_exists name : name <> [] -> make_short_name name = None <-> exists ext, name = DOT :: ext /\ DOT ∉ ext.
Proof.
  assert (forall s, match last_dot s with Some (n, e) => s = n ++ DOT :: e /\ DOT ∉ e | None => DOT ∉ s end) as K.
  { induction s as [|c s IH]; cbn; [by apply not_elem_of_nil|]. destruct (last_dot s) as [[n e]|]; [destruct IH as [-> H]; done|].
    destruct (Z.eqb_spec c DOT) as [->|Hc]; [done|]. rewrite not_elem_of_cons. done. }
  intros Hne. specialize (K name). unfold make_short_name. destruct (last_dot name) as [[n e]|]; cbn [default].
  - destruct K as [-> He]. destruct n as [|c n]; cbn; [split; [by exists e|done]|]. split; [done|]. intros (ext & [= -> <-] & Hx). set_solver.
  - destruct name as [|c name]; [done|]. cbn. split; [done|]. intros (ext & [= -> ->] & _). set_solver.
Qed.

(** ** The claims *)

Section claims.
Context {D : Type} `{!BlockDevice D} (b : bpb) `{!Disk D (bytes_per_sector b)}.
Implicit Types (s : fs D).

(** C21. Creating a file, when the device and the allocations of the kernel work, a
    cluster is free, the directory is tidy and lists fewer than 256 files, and the
    first free place for the new entries lies in front of the end marker. For a name
    of 1 to 255 bytes that has a short name - it does not begin with its last dot
    ([short_name_exists]) - which does not begin with the byte 0xE5
    ([create_dotfile] and [first_byte_unseen] show the other names), the call
    succeeds: reading the directory then lists the files it listed
    before, in their order, and one more with exactly the given name, size 0, the
    protection of the mode and as first cluster one that was free and is now an
    empty chain of its own. The directory stays tidy, every other chain keeps its
    clusters and bytes, and the count of free clusters stays right. *)
Theorem create_listed can_alloc now fuel n s c l name sn mode p files s0 :
  geo_ok b -> data_ok b -> (forall i, can_alloc i = true) -> info_ok b -> 2 <= cluster_count b < Z.of_nat fuel -> 0 < free_count b s ->
  dir_here b s c l -> dir_tidy b s l ->
  name_ok name -> make_short_name name = Some sn -> hd 0 sn <> DELETED ->
  first_place (entries_at b s <$> l) (lfn_needed name + 1) = Some p -> existsb ended (take (Z.to_nat p) (dir_entries b s l)) = false ->
  read_directory b can_alloc fuel c s = Done (inr files) s0 -> zlen files < READ_DIR_MAX_ENTRIES ->
  exists f new files1 files2 s' s'', create_file b can_alloc now fuel (S n) c name mode s = Done None s' /\
    read_directory b can_alloc fuel c s' = Done (inr (files1 ++ new :: files2)) s'' /\ files = files1 ++ files2 /\
    listed_as new name f mode /\ file_created b c f l s s' /\ dir_tidy b s' l.
Proof.
  intros Hg Hd Hal Hi Hf Hfree Hdir [Ht Htc] Hn Hsn Hdel Hp Hpre Hrun Hlt.
  apply (listing_is b can_alloc Hg Hd Hal fuel s c l) in Hrun; [|done|by apply tidy_readable|lia|done].
  destruct (create_file_ok b can_alloc now Hg Hd Hal fuel n s c l name sn mode p) as (H1 & H2 & H3 & f & s' & E & Hcr & HE & Htc'); try done. cbv zeta in *. set (E0 := dir_entries b s l) in *.
  assert (0 <= f < 2 ^ 32) as Hfr by (destruct (cr_was _ _ _ _ _ _ Hcr) as [Hcf _]; unfold cluster_ok in Hcf; destruct Hg; lia).
  destruct (short_name_ok name sn (proj1 Hn) Hsn) as [Hsl Hsb]. destruct (new_entry_ok now sn (file_attr mode) f Hsl Hsb (file_attr_new mode) Hfr) as (_ & _ & _ & _ & _ & Hplain). specialize (Hplain Hdel).
  rewrite <- Z.add_assoc in HE, H2. destruct (enter_tidy name sn _ E0 p Hn Hplain H1 H2 H3 Ht Hpre) as (Ht' & f1 & f2 & L1 & L2). rewrite <- HE in Ht', L2. rewrite <- Hrun in L1.
  destruct (read_listing b can_alloc Hg Hd Hal fuel s' c l) as (s'' & E''); [apply Hcr|by apply tidy_readable|lia|rewrite L2; rewrite L1, length_app in Hlt; rewrite length_app; cbn [length]; lia|].
  rewrite L2 in E''. eexists f, _, f1, f2, s', s''. split; [done|]. split; [done|]. split; [done|]. split; [by apply new_file_ok|]. split; [done|]. split; [done|]. by apply Htc'.
Qed.

(** C36. The code takes an entry behind the end marker for free, and the listing
    stops at the marker for a whole run of clusters. In a directory whose clusters
    follow each other on the disk, where an earlier cluster has a marker but too
    little room, creating a file reports success and the directory still lists
    exactly what it listed before: the file cannot be found. *)
Theorem entered_unseen can_alloc now fuel n s c l name sn mode p files s0 :
  geo_ok b -> data_ok b -> (forall i, can_alloc i = true) -> info_ok b -> 2 <= cluster_count b < Z.of_nat fuel -> 0 < free_count b s ->
  dir_here b s c l -> drop (run_length l) l = [] ->
  name_ok name -> make_short_name name = Some sn -> hd 0 sn <> DELETED ->
  first_place (entries_at b s <$> l) (lfn_needed name + 1) = Some p -> existsb ended (take (Z.to_nat p) (dir_entries b s l)) = true ->
  read_directory b can_alloc fuel c s = Done (inr files) s0 ->
  exists f s' s'', create_file b can_alloc now fuel (S n) c name mode s = Done None s' /\ read_directory b can_alloc fuel c s' = Done (inr files) s'' /\ file_created b c f l s s'.
Proof.
  intros Hg Hd Hal Hi Hf Hfree Hdir Hrl Hn Hsn Hdel Hp Hpre Hrun.
  destruct (create_file_ok b can_alloc now Hg Hd Hal fuel n s c l name sn mode p) as (H1 & H2 & H3 & f & s' & E & Hcr & HE & _); try done. cbv zeta in *.
  destruct (read_directory_ok b can_alloc Hg Hd Hal fuel s c l Hdir) as (s1 & E1 & _); [by left|lia|]. rewrite E1 in Hrun. injection Hrun as <- _.
  destruct (read_directory_ok b can_alloc Hg Hd Hal fuel s' c l) as (s'' & E'' & _); [apply Hcr|by left|lia|].
  exists f, s', s''. split_and!; try done. rewrite E''. do 3 f_equal. rewrite HE, listed_stop by done.
  rewrite <- (take_drop (Z.to_nat p) (dir_entries b s l)) at 2. by rewrite listed_stop.
Qed.

(** C35. Creating a file takes the free cluster it has found only after the
    entry has been written. When it is the last free one of the disk and the
    directory, full to its end, needs a cluster more, the same cluster is taken
    twice: the call reports success, and the listing has the file with the last
    cluster of the directory itself as its first cluster, so that what is written
    to the file overwrites the directory. *)
Theorem create_shares_cluster can_alloc now fuel n s c l name sn mode files s0 :
  geo_ok b -> data_ok b -> (forall i, can_alloc i = true) -> info_ok b -> 2 <= cluster_count b < Z.of_nat fuel -> free_count b s = 1 ->
  dir_here b s c l -> tidy (dir_entries b s l) = true -> existsb ended (dir_entries b s l) = false ->
  name_ok name -> make_short_name name = Some sn -> hd 0 sn <> DELETED -> lfn_needed name + 1 <= entries_per_cluster b ->
  first_place (entries_at b s <$> l) (lfn_needed name + 1) = None ->
  read_directory b can_alloc fuel c s = Done (inr files) s0 -> zlen files < READ_DIR_MAX_ENTRIES ->
  exists f new s' s'', create_file b can_alloc now fuel (S (S n)) c name mode s = Done None s' /\
    read_directory b can_alloc fuel c s' = Done (inr (files ++ [new])) s'' /\ listed_as new name f mode /\ chain_from b s' c (l ++ [f]).
Proof.
  intros Hg Hd Hal Hi Hf Hone Hdir Ht Hlive Hn Hsn Hdel Hfit Hp Hrun Hlt.
  apply (listing_is b can_alloc Hg Hd Hal fuel s c l) in Hrun; [|done|by apply tidy_readable|lia|done].
  destruct (create_last_ok b can_alloc now Hg Hd Hal fuel n s c l name sn mode) as (f & s' & E & Hfr & Hdir' & z & HE & Hz); try done. cbv zeta in *.
  destruct (short_name_ok name sn (proj1 Hn) Hsn) as [Hsl Hsb]. destruct (new_entry_ok now sn (file_attr mode) f Hsl Hsb (file_attr_new mode) Hfr) as (_ & _ & _ & _ & _ & Hplain). specialize (Hplain Hdel).
  set (E0 := dir_entries b s l) in *. assert (dir_run (Some Closed) E0 = Some Closed) as Hcl.
  { unfold tidy in Ht. destruct (dir_run (Some Closed) E0) as [[]|] eqn:Hr; try done. exfalso. apply (dir_run_live (Some Closed) E0); [done|by rewrite live_ended, Hlive|done]. }
  assert (listed (dir_entries b s' (l ++ [f])) 0 [] = files ++ [make_file_entry (name_parts name sn) (dirent_bytes (update_create_time now (blank_entry sn (file_attr mode) f))) (zlen E0 + lfn_needed name)]) as HL.
  { rewrite HE, Hrun, listed_app by (by rewrite live_ended, Hlive). rewrite (waiting_closed E0 Closed []) by (done || by rewrite live_ended, Hlive). by rewrite group_listed, (listed_ended z). }
  assert (readable b s' (l ++ [f])) as Hread.
  { right. exists (Some Closed). rewrite HE, !dir_run_app, Hcl, group_closed by done. by apply dir_run_zeros. }
  destruct (read_listing b can_alloc Hg Hd Hal fuel s' c (l ++ [f])) as (s'' & E''); [done|done|lia|rewrite HL, length_app; cbn [length]; lia|].
  rewrite HL in E''. eexists f, _, s', s''. split_and!; [done|done|by apply new_file_ok|apply Hdir'].
Qed.

(** C22. Deleting a file that is not protected, from a tidy directory that lists
    fewer than 256 files, on a device without trim, when the device and the
    allocations work; the name is one that the search for the entry, which ignores
    case, finds where the listing, which does not, has it. The call succeeds, the
    directory lists exactly the other files in their order, all clusters of the
    file are free and the count of free clusters says so, every other chain keeps
    its clusters and bytes, and the directory stays tidy. *)
Theorem delete_listed can_alloc fuel s c l name x q files s0 :
  geo_ok b -> data_ok b -> (forall i, can_alloc i = true) -> info_ok b -> cluster_count b < Z.of_nat fuel -> counted b s -> dir_here b s c l -> dir_tidy b s l ->
  read_directory b can_alloc fuel c s = Done (inr files) s0 -> zlen files < READ_DIR_MAX_ENTRIES ->
  find_by_name (fun f => negb (fe_dir f)) name files = Some x -> is_protected (fe_entry x) = false ->
  file_chain b s (get_first_cluster (fe_entry x)) q -> q ## l -> found_at (entries_at b s <$> l) name = Some (fe_index x) ->
  exists files1 files2 s' s'', delete_file b can_alloc None fuel c name s = Done None s' /\ read_directory b can_alloc fuel c s' = Done (inr (files1 ++ files2)) s'' /\
    files = files1 ++ x :: files2 /\ file_deleted b c l q s s'.
Proof.
  intros Hg Hd Hal Hi Hf Hcnt Hdir Ht Hrun Hlt Hx Hpr Hq Hql Hp.
  destruct (delete_found b can_alloc Hg Hd Hal fuel s c l name x q (fe_index x) files s0) as (y & f1 & f2 & s' & s'' & E & E'' & L & _ & _ & Hy & Hdel); try done.
  rewrite <- (Hy eq_refl) in L. by exists f1, f2, s', s''.
Qed.

(** The file to delete is looked up by its exact name, but its entry by its
    name without regard to case. When a file whose name differs only in case
    comes first, deleting reports success, frees the clusters of the file that
    was asked for, and removes the entry of the other one: the file that was
    deleted is still listed, on clusters that are free, and the other is gone. *)
Theorem delete_other can_alloc fuel s c l name x q p files s0 :
  geo_ok b -> data_ok b -> (forall i, can_alloc i = true) -> info_ok b -> cluster_count b < Z.of_nat fuel -> counted b s -> dir_here b s c l -> dir_tidy b s l ->
  read_directory b can_alloc fuel c s = Done (inr files) s0 -> zlen files < READ_DIR_MAX_ENTRIES ->
  find_by_name (fun f => negb (fe_dir f)) name files = Some x -> is_protected (fe_entry x) = false ->
  file_chain b s (get_first_cluster (fe_entry x)) q -> q ## l -> found_at (entries_at b s <$> l) name = Some p -> p <> fe_index x ->
  exists y files1 files2 s' s'', delete_file b can_alloc None fuel c name s = Done None s' /\ read_directory b can_alloc fuel c s' = Done (inr (files1 ++ files2)) s'' /\
    files = files1 ++ y :: files2 /\ fe_index y = p /\ x ∈ files1 ++ files2 /\ file_deleted b c l q s s'.
Proof.
  intros Hg Hd Hal Hi Hf Hcnt Hdir Ht Hrun Hlt Hx Hpr Hq Hql Hp Hne.
  destruct (delete_found b can_alloc Hg Hd Hal fuel s c l name x q p files s0) as (y & f1 & f2 & s' & s'' & E & E'' & L & Hy & Hin & _ & Hdel); try done.
  exists y, f1, f2, s', s''. do 4 (split; [done|]). split; [|done]. rewrite L in Hin. apply elem_of_app in Hin as [?|[->|?]%elem_of_cons]; [set_solver|congruence|set_solver].
Qed.

(** C23. Truncating a file to at most its size keeps exactly its first bytes in the
    clusters they need, frees all clusters behind them, writes size and first
    cluster to its directory entry, and leaves every other chain and the count of
    free clusters right. *)
Theorem truncate_exact can_alloc now fuel s n l pl new_size :
  geo_ok b -> data_ok b -> (forall i, can_alloc i = true) -> cluster_count b < Z.of_nat fuel -> counted b s -> file_here b s n l pl -> 0 <= new_size <= n_size n -> n_size n <= U32_MAX ->
  exists n' s', truncate b can_alloc now None fuel n new_size s = Done (None, n') s' /\
    file_cut b n n' new_size l (take (Z.to_nat ((new_size + bytes_per_cluster b - 1) / bytes_per_cluster b)) l) pl s s'.
Proof. intros Hg Hd Hal Hf Hcnt Hh Hns Hmax. by apply (truncate_ok b can_alloc now None Hg Hd Hal). Qed.
End claims.

(** ** Short names *)

Definition plain_char (c : Z) : Prop := 0 < c < 256 /\ c <> SPACE.

Lemma strip_none l : Forall (fun c => c <> SPACE) l -> strip_spaces l = l.
Proof. induction 1 as [|c l Hc Hl IH]; [done|]. cbn. rewrite IH. destruct l; [|done]. by rewrite (proj2 (Z.eqb_neq _ _)). Qed.

Lemma until_zeros l n : Forall plain_char l -> until_zero (l ++ replicate n 0) = l.
Proof. induction 1 as [|c l [Hc _] Hl IH]; cbn; [by destruct n|]. rewrite (proj2 (Z.eqb_neq _ _)) by lia. by rewrite IH. Qed.

Lemma filter_pad n l : Forall plain_char l -> filter (fun c => c <> SPACE) (pad n l) = l.
Proof.
  intros Hl. unfold pad. rewrite filter_app. assert (filter (fun c => c <> SPACE) (replicate (n - length l) SPACE) = []) as ->.
  { induction (n - length l)%nat as [|k IH]; [done|]. cbn [replicate]. by rewrite filter_cons_False by (by intros ?). }
  rewrite app_nil_r. induction Hl as [|c l [_ Hc] Hl IH]; [done|]. rewrite filter_cons_True by done. by rewrite IH.
Qed.

Lemma until_pad l n m : Forall plain_char l -> until_zero (strip_spaces (take m (l ++ replicate n 0))) = take m l.
Proof.
  intros Hl. rewrite take_app, take_replicate. rewrite strip_none.
  - apply until_zeros. by apply Forall_take.
  - apply Forall_app. split; [eapply Forall_impl; [by apply Forall_take|]; by intros c []|by apply Forall_replicate].
Qed.

(** A file that has only a short name of the form 8.3 is listed under another
    name when the two parts and the dot are longer than eight characters: the
    name is cut after its eighth character, a second dot is put there, and at most
    three more characters follow. *)
Theorem short_name_garbled base ext e index :
  Forall plain_char base -> Forall plain_char ext -> DOT ∉ ext -> zlen base <= 8 -> 0 < zlen ext <= 3 -> 8 < zlen base + 1 + zlen ext -> e_name e = pad 8 base ++ pad 3 ext ->
  let name := base ++ DOT :: ext in get_name (make_file_entry [] e index) = take 8 name ++ DOT :: take 3 (drop 8 name) /\ get_name (make_file_entry [] e index) <> name.
Proof.
  intros Hb Hx Hdot Hbl Hxl Hlen He name. assert (Forall plain_char name) as Hn by (apply Forall_app; split; [done|constructor; done]).
  assert (length name = (length base + 1 + length ext)%nat) as Hnl by (unfold name; rewrite length_app; cbn [length]; lia).
  assert (get_name (make_file_entry [] e index) = take 8 name ++ DOT :: take 3 (drop 8 name)) as Hget.
  { unfold get_name, make_file_entry. cbn [fe_long fe_short]. rewrite !bool_decide_eq_true_2 by done. rewrite He.
    assert (extract_short_name (pad 8 base ++ pad 3 ext) = name) as ->.
    { unfold extract_short_name. rewrite take_app_length', drop_app_length' by (rewrite pad_length; lia). rewrite (take_ge (pad 3 ext)) by (rewrite pad_length; lia). rewrite !filter_pad by done.
      rewrite bool_decide_eq_false_2; [done|]. intros ->. cbn in Hxl. lia. }
    rewrite until_zero_id by (eapply Forall_impl; [exact Hn|]; by intros c []). unfold format_short_name. rewrite (take_ge name) by lia. rewrite until_pad by done.
    rewrite drop_app_le by lia. rewrite until_pad by (by apply Forall_drop). rewrite bool_decide_eq_false_2.
    2: { intros E%(f_equal length). rewrite length_take, length_drop in E. change (length (@nil Z)) with 0%nat in E. lia. }
    rewrite !length_take, length_drop. rewrite (proj2 (Z.ltb_lt _ _)) by lia. rewrite (proj2 (Z.leb_gt _ _)) by lia. done. }
  split; [done|]. rewrite Hget. rewrite <- (take_drop 8 name) at 3. intros E%app_inv_head. pose proof (f_equal length E) as El. cbn [length] in El. rewrite length_take, length_drop in El.
  assert (length base = 8%nat) as H8 by lia. assert (drop 8 name = DOT :: ext) as Hd by (unfold name; rewrite <- H8; apply drop_app_length). rewrite Hd in E. injection E as E.
  destruct ext as [|x ext]; [done|]. injection E as E _. apply Hdot. rewrite <- E. set_solver.
Qed.

(** ** The hypotheses can be met *)

#[local] Existing Instance ram_device.
#[local] Existing Instance ram_disk.

(** Disks with the clusters of a directory first. *)
Definition cluster_of (es : list (list Z)) : list Z := take 512 (concat es ++ replicate 512 0).
Definition disk_with (fat : list Z) (data : list (list (list Z))) : fs (list Z) :=
  demo_fs (replicate 1024 0 ++ demo_table fat ++ demo_table fat ++ take 2560 (concat (cluster_of <$> data) ++ replicate 2560 0)).

Definition entry_for (sn : list Z) (cluster : Z) : dirent := update_create_time small_now (blank_entry sn 0x20 cluster).
(** A file with a long name, and one that has only a short name. *)
Definition with_name (name : list Z) (cluster : Z) : list (list Z) := let sn := default [] (make_short_name name) in name_group name sn (entry_for sn cluster).
Definition short_only (base ext : list Z) (cluster : Z) : list Z := dirent_bytes (entry_for (pad 8 base ++ pad 3 ext) cluster).

Definition listing (s : fs (list Z)) : list file_entry * fs (list Z) := match read_directory demo_bpb (fun _ => true) 6 2 s with Done (inr l) s' => (l, s') | _ => ([], s) end.
Local Abbreviation always := (fun _ : Z => true).

(** What the computation shows of a disk with the directory [l] at cluster 2. *)
Definition dir_check (s : fs (list Z)) (l : list Z) : bool :=
  (zlen (fs_dev s) =? 4608) && forallb (fun c => is_valid_fat_entry demo_bpb (ent demo_bpb s 0 c)) [2; 3; 4; 5; 6] && forallb (fun c => negb (ent demo_bpb s 0 c =? 0)) l.

Lemma disk_dir fat data l : dir_check (disk_with fat data) l = true -> chain_from demo_bpb (disk_with fat data) 2 l -> dir_here demo_bpb (disk_with fat data) 2 l.
Proof.
  unfold dir_check. rewrite !andb_true_iff, Z.eqb_eq, !forallb_forall. intros [[Hlen Hv] Hu] Hl. split; [split| | |done|].
  - unfold fits. change (image demo_bpb _) with (fs_dev (disk_with fat data)). rewrite Hlen. done.
  - done.
  - cbn [fs_cache disk_with demo_fs]. unfold empty_cache. by apply Forall_replicate.
  - intros c. revert c. apply demo_cluster; apply Hv; cbn; auto 6.
  - unfold holds_data. change (image demo_bpb _) with (fs_dev (disk_with fat data)). rewrite Hlen. done.
  - intros x Hx%list_elem_of_In%Hu. apply negb_true_iff, Z.eqb_neq in Hx. done.
Qed.

Definition hello : list Z := [72; 101; 108; 108; 111; 32; 87; 111; 114; 108; 100; 46; 116; 120; 116].
Definition low_a : list Z := [97].
Definition cap_a : list Z := [65].

(** One file in a directory of one cluster. *)
Definition one_file : fs (list Z) := disk_with [0x0FFFFFF8; 0x0FFFFFFF; 0x0FFFFFFF; 0; 0; 0x0FFFFFFF; 0] [with_name low_a 5].

Lemma hello_ok : name_ok hello.
Proof. split; [|done]. repeat constructor. Qed.

Lemma one_dir : dir_here demo_bpb one_file 2 [2].
Proof. apply disk_dir; [by vm_compute|]. vm_compute. intuition congruence. Qed.

Lemma one_tidy : dir_tidy demo_bpb one_file [2].
Proof. split; [by vm_compute|]. intros c ->%list_elem_of_singleton. by vm_compute. Qed.

Lemma create_listed_witness :
  exists f new files1 files2 s' s'', create_file demo_bpb always small_now 6 1 2 hello 0x1A4 one_file = Done None s' /\
    read_directory demo_bpb always 6 2 s' = Done (inr (files1 ++ new :: files2)) s'' /\ fst (listing one_file) = files1 ++ files2 /\
    listed_as new hello f 0x1A4 /\ file_created demo_bpb 2 f [2] one_file s' /\ dir_tidy demo_bpb s' [2].
Proof.
  apply (create_listed demo_bpb always small_now 6 0 one_file 2 [2] hello (default [] (make_short_name hello)) 0x1A4 2 (fst (listing one_file)) (snd (listing one_file)));
    [apply demo_geo|apply demo_data|done|right; done|done|by vm_compute|apply one_dir|apply one_tidy|apply hello_ok|done|done|by vm_compute|by vm_compute|by vm_compute|by vm_compute].
Defined.

(** Fifteen entries and the end marker in the first of two neighbouring clusters. *)
Definition fifteen : fs (list Z) :=
  disk_with [0x0FFFFFF8; 0x0FFFFFFF; 3; 0x0FFFFFFF; 0; 0x0FFFFFFF; 0] [replicate 15 (short_only [66] [67] 5); []].

Lemma fifteen_dir : dir_here demo_bpb fifteen 2 [2; 3].
Proof. apply disk_dir; [by vm_compute|]. vm_compute. intuition congruence. Qed.

Lemma entered_unseen_witness :
  exists f s' s'', create_file demo_bpb always small_now 6 1 2 low_a 0x1A4 fifteen = Done None s' /\ read_directory demo_bpb always 6 2 s' = Done (inr (fst (listing fifteen))) s'' /\
    file_created demo_bpb 2 f [2; 3] fifteen s'.
Proof.
  apply (entered_unseen demo_bpb always small_now 6 0 fifteen 2 [2; 3] low_a (default [] (make_short_name low_a)) 0x1A4 16 (fst (listing fifteen)) (snd (listing fifteen)));
    [apply demo_geo|apply demo_data|done|right; done|done|by vm_compute|apply fifteen_dir|by vm_compute|split; [by repeat constructor|done]|done|done|by vm_compute|by vm_compute|by vm_compute].
Defined.

(** A full directory, and one free cluster. *)
Definition full_dir : fs (list Z) :=
  disk_with [0x0FFFFFF8; 0x0FFFFFFF; 0x0FFFFFFF; 0x0FFFFFFF; 0x0FFFFFFF; 0x0FFFFFFF; 0] [replicate 16 (short_only [66] [67] 5)].

Lemma full_here : dir_here demo_bpb full_dir 2 [2].
Proof. apply disk_dir; [by vm_compute|]. vm_compute. intuition congruence. Qed.

Lemma create_shares_cluster_witness :
  exists f new s' s'', create_file demo_bpb always small_now 6 2 2 low_a 0x1A4 full_dir = Done None s' /\
    read_directory demo_bpb always 6 2 s' = Done (inr (fst (listing full_dir) ++ [new])) s'' /\ listed_as new low_a f 0x1A4 /\ chain_from demo_bpb s' 2 ([2] ++ [f]).
Proof.
  apply (create_shares_cluster demo_bpb always small_now 6 0 full_dir 2 [2] low_a (default [] (make_short_name low_a)) 0x1A4 (fst (listing full_dir)) (snd (listing full_dir)));
    [apply demo_geo|apply demo_data|done|right; done|done|by vm_compute|apply full_here|by vm_compute|by vm_compute|split; [by repeat constructor|done]|done|done|done|by vm_compute|by vm_compute|by vm_compute].
Defined.

(** The file that the listing shows under a name. *)
Definition nth_file (s : fs (list Z)) (i : nat) : file_entry := nth i (fst (listing s)) (make_file_entry [] [] 0).

Lemma one_chain : file_chain demo_bpb one_file (get_first_cluster (fe_entry (nth_file one_file 0))) [5].
Proof.
  assert (get_first_cluster (fe_entry (nth_file one_file 0)) = 5) as -> by by vm_compute. right. split; [vm_compute; intuition congruence|]. intros x ->%list_elem_of_singleton. vm_compute. congruence.
Qed.

Lemma delete_listed_witness :
  exists files1 files2 s' s'', delete_file demo_bpb always None 6 2 low_a one_file = Done None s' /\ read_directory demo_bpb always 6 2 s' = Done (inr (files1 ++ files2)) s'' /\
    fst (listing one_file) = files1 ++ nth_file one_file 0 :: files2 /\ file_deleted demo_bpb 2 [2] [5] one_file s'.
Proof.
  apply (delete_listed demo_bpb always 6 one_file 2 [2] low_a (nth_file one_file 0) [5] (fst (listing one_file)) (snd (listing one_file)));
    [apply demo_geo|apply demo_data|done|right; done|done|by left|apply one_dir|apply one_tidy|by vm_compute|by vm_compute|by vm_compute|by vm_compute|apply one_chain|set_solver|by vm_compute].
Defined.

(** Two files whose names differ in case. *)
Definition two_files : fs (list Z) := disk_with [0x0FFFFFF8; 0x0FFFFFFF; 0x0FFFFFFF; 0; 0x0FFFFFFF; 0x0FFFFFFF; 0] [with_name cap_a 4 ++ with_name low_a 5].

Lemma two_dir : dir_here demo_bpb two_files 2 [2].
Proof. apply disk_dir; [by vm_compute|]. vm_compute. intuition congruence. Qed.

Lemma two_tidy : dir_tidy demo_bpb two_files [2].
Proof. split; [by vm_compute|]. intros c ->%list_elem_of_singleton. by vm_compute. Qed.

Lemma two_chain : file_chain demo_bpb two_files (get_first_cluster (fe_entry (nth_file two_files 1))) [5].
Proof.
  assert (get_first_cluster (fe_entry (nth_file two_files 1)) = 5) as -> by by vm_compute. right. split; [vm_compute; intuition congruence|]. intros x ->%list_elem_of_singleton. vm_compute. congruence.
Qed.

Lemma delete_other_witness :
  exists y files1 files2 s' s'', delete_file demo_bpb always None 6 2 low_a two_files = Done None s' /\ read_directory demo_bpb always 6 2 s' = Done (inr (files1 ++ files2)) s'' /\
    fst (listing two_files) = files1 ++ y :: files2 /\ fe_index y = 1 /\ nth_file two_files 1 ∈ files1 ++ files2 /\ file_deleted demo_bpb 2 [2] [5] two_files s'.
Proof.
  apply (delete_other demo_bpb always 6 two_files 2 [2] low_a (nth_file two_files 1) [5] 1 (fst (listing two_files)) (snd (listing two_files)));
    [apply demo_geo|apply demo_data|done|right; done|done|by left|apply two_dir|apply two_tidy|by vm_compute|by vm_compute|by vm_compute|by vm_compute|apply two_chain|set_solver|by vm_compute|by vm_compute].
Defined.

(** README.TXT *)
Lemma short_name_garbled_witness :
  let name := [82; 69; 65; 68; 77; 69; 46; 84; 88; 84] in let e := short_only [82; 69; 65; 68; 77; 69] [84; 88; 84] 5 in
  get_name (make_file_entry [] e 0) = take 8 name ++ DOT :: take 3 (drop 8 name) /\ get_name (make_file_entry [] e 0) <> name.
Proof.
  apply (short_name_garbled [82; 69; 65; 68; 77; 69] [84; 88; 84]); [by repeat constructor|by repeat constructor| |done|done|done|done].
  intros Hin. repeat (apply elem_of_cons in Hin as [Hin|Hin]; [discriminate Hin|]). by apply not_elem_of_nil in Hin.
Defined.

(** ** Runs *)

Definition names (s : fs (list Z)) : list (list Z) := get_name <$> fst (listing s).

(** The result of an operation, what the directory lists after it, and how many
    clusters are free. *)
Definition outcome (m : M (fs (list Z)) (option error)) (s : fs (list Z)) : option (option error * list (list Z) * Z) :=
  match m s with Done r s' => Some (r, names s', free_count demo_bpb s') | _ => None end.

Definition low_b : list Z := [98].
Definition long_name : list Z := replicate 30 120.

(** Two free entries, the file a and the file b. *)
Definition spare_slots : fs (list Z) :=
  disk_with [0x0FFFFFF8; 0x0FFFFFFF; 0x0FFFFFFF; 0; 0x0FFFFFFF; 0x0FFFFFFF; 0] [[DELETED :: replicate 31 0; DELETED :: replicate 31 0] ++ with_name low_a 5 ++ with_name low_b 4].

(** Renaming a file to a longer name looks for room in front of its entries and
    writes behind them: the file that follows is lost. *)
Theorem rename_overwrites :
  names spare_slots = [low_a; low_b] /\ outcome (rename demo_bpb always 6 2 2 low_a long_name) spare_slots = Some (None, [long_name], 2).
Proof. by vm_compute. Qed.

(** A name that begins with its only dot is refused. *)
Theorem create_dotfile : outcome (create_file demo_bpb always small_now 6 2 2 (DOT :: low_b) 0x1A4) one_file = Some (Some Inval, names one_file, free_count demo_bpb one_file).
Proof. by vm_compute. Qed.

(** A name whose first byte is 0xE5 is entered as a deleted one. *)
Theorem first_byte_unseen : outcome (create_file demo_bpb always small_now 6 2 2 (0xE5 :: low_b) 0x1A4) one_file = Some (None, names one_file, 2).
Proof. by vm_compute. Qed.

(** A directory whose name starts with its only dot is refused after a cluster has
    been taken for it. *)
Theorem mkdir_leaks : outcome (create_directory demo_bpb always small_now 6 2 2 (DOT :: low_b) 0x1ED) one_file = Some (Some Inval, names one_file, free_count demo_bpb one_file - 1).
Proof. by vm_compute. Qed.

(** Files are created without a look at the names in use. *)
Theorem create_twice : outcome (create_file demo_bpb always small_now 6 2 2 low_a 0x1A4) one_file = Some (None, [low_a; low_a], 2).
Proof. by vm_compute. Qed.

(** A new directory, which is not removed before its file is. *)
Theorem mkdir_rmdir :
  match create_directory demo_bpb always small_now 6 2 2 low_b 0x1ED one_file with
  | Done None s1 =>
      names s1 = [low_a; low_b] /\ outcome (create_directory demo_bpb always small_now 6 2 2 low_b 0x1ED) s1 = Some (Some Exist, [low_a; low_b], 2) /\
      match create_file demo_bpb always small_now 6 2 3 hello 0x1A4 s1 with
      | Done None s2 =>
          outcome (remove_directory demo_bpb always None 6 2 low_b) s2 = Some (Some NotEmpty, [low_a; low_b], 1) /\
          match delete_file demo_bpb always None 6 3 hello s2 with Done None s3 => outcome (remove_directory demo_bpb always None 6 2 low_b) s3 = Some (None, [low_a], 3) | _ => False end
      | _ => False
      end
  | _ => False
  end.
Proof. vm_compute. auto. Qed.

Lemma truncate_exact_witness :
  exists n' s', truncate demo_bpb always small_now None 6 small_node 500 small = Done (None, n') s' /\
    file_cut demo_bpb small_node n' 500 [5; 3] (take (Z.to_nat ((500 + bytes_per_cluster demo_bpb - 1) / bytes_per_cluster demo_bpb)) [5; 3]) [2] small s'.
Proof. apply (truncate_exact demo_bpb always small_now 6 small small_node [5; 3] [2] 500); [apply demo_geo|apply demo_data|done|done|by left|apply small_here|done|done]. Defined.

(** A size above the clusters of a file is stored, and no cluster is added. *)
Theorem truncate_grows :
  match truncate demo_bpb always small_now None 6 small_node 5000 small with
  | Done (None, n') s' => n_size n' = 5000 /\ free_count demo_bpb s' = free_count demo_bpb small /\
      match get_cluster_chain demo_bpb always 6 (n_cluster n') s' with Done r _ => r = Some [5; 3] | _ => False end
  | _ => False
  end.
Proof. vm_compute. auto. Qed.
