(* ===== verification/Resolve.v ===== *)
(** * filesystem/vfs/vfs_helper.cpp: paths of realms

    A realm has a root and a current directory, as paths. A path that a program
    gives is joined with one of them, normalized, and must lie below the root.
    [VFS::open] is a parameter of the calls that change them. *)

From Stdlib Require Import ZArith Lia.
From stdpp Require Import base tactics gmap numbers list.
From S2P Require Import Prelude.
From S2P Require Import Memory.
From S2P Require Import Slices.
From S2P Require Import KErrno.
From S2P Require Import Dentry.
From S2P Require Import KPath.

(** The paths of a realm: arrays of 256 bytes that hold strings. *)
Record realm := { root_path : list Z; cwd_path : list Z }.

Definition ROOT : list Z := [SLASH].

(** [RealmManager::create] *)
Definition new_realm : realm := {| root_path := ROOT; cwd_path := ROOT |}.

(** ** resolve_path *)

(** The local arrays, and the output of the caller. *)
Record plocals := { abs : list Z; nb : nbuf; root_cmp : list Z; result : list Z }.

Definition on_abs (f : list Z -> option (list Z)) : M plocals unit := fun l =>
  match f (abs l) with Some b => Done tt {| abs := b; nb := nb l; root_cmp := root_cmp l; result := result l |} | None => Undef end.
Definition on_root_cmp (f : list Z -> option (list Z)) : M plocals unit := fun l =>
  match f (root_cmp l) with Some b => Done tt {| abs := abs l; nb := nb l; root_cmp := b; result := result l |} | None => Undef end.
Definition on_result (f : list Z -> option (list Z)) : M plocals unit := fun l =>
  match f (result l) with Some b => Done tt {| abs := abs l; nb := nb l; root_cmp := root_cmp l; result := b |} | None => Undef end.
Definition on_nb {A} (m : M nbuf A) : M plocals A := zoom nb (fun n l => {| abs := abs l; nb := n; root_cmp := root_cmp l; result := result l |}) m.

(** The string in an array, and a byte of it. *)
Definition str_of (f : plocals -> list Z) : M plocals (list Z) := fun l => match cstr (f l) with Some s => Done s l | None => Undef end.
Definition byte_of (f : plocals -> list Z) (i : Z) : M plocals Z := fun l =>
  if i <? 0 then Undef else match f l !! Z.to_nat i with Some b => Done b l | None => Undef end.

(** [strncpy(b, s, size - 1); b[size - 1] = 0] *)
Definition copy_string (s : list Z) (size : Z) (b : list Z) : option (list Z) := b' ← strncpy b s (size - 1); put_at b' (size - 1) 0.

Definition join_path (root base user_path : list Z) : M plocals unit :=
  if bool_decide (head user_path = Some SLASH) then
    if strcmp root ROOT =? 0 then on_abs (copy_string user_path 256)
    else on_abs (fun b => snprintf b 256 [root; user_path])
  else
    if strcmp base ROOT =? 0 then on_abs (fun b => snprintf b 256 [ROOT; user_path])
    else on_abs (fun b => snprintf b 256 [base; [SLASH]; user_path]).

(** The part that [resolve_path] and [resolve_path_at] share. *)
Definition resolve_from (root base user_path : list Z) (out_size : Z) : M plocals (error + unit) :=
  _ ← join_path root base user_path;
  a ← str_of abs;
  _ ← on_nb (normalize_path a 256);
  normalized ← str_of (fun l => out (nb l));
  let root_len := zlen root in
  _ ← on_root_cmp (copy_string root 256);
  c ← (if 1 <? root_len then byte_of root_cmp (root_len - 1) else mret 0);
  root_len ← (if (1 <? root_len) && (c =? SLASH) then _ ← on_root_cmp (fun b => put_at b (root_len - 1) 0); mret (root_len - 1) else mret root_len);
  rc ← str_of root_cmp;
  outside ← (if strcmp rc ROOT =? 0 then mret false
             else if negb (strncmp normalized rc (Z.to_nat root_len) =? 0) then mret true
             else c ← byte_of (fun l => out (nb l)) root_len; mret (negb (c =? SLASH) && negb (c =? 0)));
  if (outside : bool) then mret (inl Acces)
  else _ ← on_result (copy_string normalized out_size); mret (inr tt).

Definition or_default (s d : list Z) : list Z := if bool_decide (s = []) then d else s.

Definition resolve_path (r : realm) (user_path : list Z) (out_size : Z) : M plocals (error + unit) :=
  if bool_decide (user_path = []) || (out_size =? 0) then mret (inl Inval)
  else
    let root := or_default (root_path r) ROOT in
    let cwd := or_default (cwd_path r) root in
    resolve_from root cwd user_path out_size.

(** [base_path] is null when it is [None]. *)
Definition resolve_path_at (r : realm) (base_path : option (list Z)) (user_path : list Z) (out_size : Z) : M plocals (error + unit) :=
  if bool_decide (user_path = []) || (out_size =? 0) then mret (inl Inval)
  else
    let root := or_default (root_path r) ROOT in
    let base := or_default (default [] base_path) root in
    resolve_from root base user_path out_size.

(** A caller with [char norm[256]]. *)
Definition resolved (m : M plocals (error + unit)) : M plocals (error + list Z) :=
  x ← m; match (x : error + unit) with inl e => mret (inl e) | inr _ => s ← str_of result; mret (inr s) end.

(** ** sys_chdir, sys_chroot *)

Section calls.
(** [VFS::open] of a normalized path: an error, or whether it is a directory. *)
Context (open : list Z -> error + bool).

Definition enter (set : list Z -> realm -> realm) (r : realm) (user_path : list Z) : M plocals (Z * realm) :=
  if bool_decide (user_path = []) then mret (to_errno Inval, r)
  else
    x ← resolved (resolve_path r user_path 256);
    match (x : error + list Z) with
    | inl e => mret (to_errno e, r)
    | inr norm =>
        match open norm with
        | inl e => mret (to_errno e, r)
        | inr false => mret (to_errno NotDir, r)
        | inr true => mret (0, set norm r)
        end
    end.

(** The arrays of the realm have room for what fits into [norm]. *)
Definition sys_chdir : realm -> list Z -> M plocals (Z * realm) := enter (fun norm r => {| root_path := root_path r; cwd_path := norm |}).
Definition sys_chroot : realm -> list Z -> M plocals (Z * realm) := enter (fun norm r => {| root_path := norm; cwd_path := cwd_path r |}).
End calls.

(** ** The paths of a spawned realm *)

(** [spawn]: a new realm, whose current directory is [home], resolved for the
    parent, or that of the parent. *)
Definition spawn_paths (parent : realm) (home : option (list Z)) : M plocals realm :=
  match home with
  | Some h =>
      x ← resolved (resolve_path parent h 256);
      match (x : error + list Z) with
      | inl _ => mret new_realm
      | inr p => mret {| root_path := root_path new_realm; cwd_path := p |}
      end
  | None => mret {| root_path := root_path new_realm; cwd_path := cwd_path parent |}
  end.

(** ** resolve_parent *)

(** [char parent_path[256]], built from the components in front of the last one. *)
Fixpoint parent_loop (path : list Z) (comps : list (list Z)) : list Z :=
  match comps with
  | [] => path
  | c :: rest =>
      let path := strncat path c (256 - zlen path - 1) in
      let path := match rest with [] => path | _ => strncat path [SLASH] (256 - zlen path - 1) end in
      parent_loop path rest
  end.

(** The strings in the first [n] rows. *)
Definition row_strs (n : Z) : M rows (list (list Z)) := fun c => match mapM cstr (take (Z.to_nat n) c) with Some l => Done l c | None => Undef end.

(** The path of the parent, which is opened, and the name in it. *)
Definition resolve_parent (path : list Z) : M rows (option (list Z * list Z)) :=
  count ← split_path path 16;
  if (count : Z) =? 0 then mret None
  else
    name ← row_str (count - 1);
    if count =? 1 then mret (Some (ROOT, take 31 name))
    else
      comps ← row_strs (count - 1);
      mret (Some (parent_loop ROOT comps, take 31 name)).
