(* ===== verification/ResolveProps.v ===== *)
(** * Paths of realms: confinement and exactness

    Whatever a realm does with its paths, what it resolves lies below its root,
    and its root only moves down. *)

From Stdlib Require Import ZArith Lia.
From stdpp Require Import base tactics gmap numbers list.
From S2P Require Import Prelude.
From S2P Require Import Memory.
From S2P Require Import Slices.
From S2P Require Import KErrno.
From S2P Require Import Dentry.
From S2P Require Import KPath.
From S2P Require Import KPathFacts.
From S2P Require Import Resolve.

(** ** Paths of realms: resolution without arrays

    [resolve_ref] is what [resolve_path] computes on strings; the arrays are large
    enough for it. *)

(** ** Writing strings *)

Lemma put_last w x (tl : list Z) y : tl = [] -> put_at (w ++ y :: tl) (zlen w) x = Some (w ++ [x]).
Proof. intros ->. apply put_next. Qed.

Lemma copy_string_ok s size b :
  zlen b = size -> 1 <= size -> copy_string s size b = Some (take (Z.to_nat (size - 1)) s ++ replicate (Z.to_nat size - length (take (Z.to_nat (size - 1)) s)) 0).
Proof.
  intros Hb H1. unfold copy_string, strncpy. set (t := take _ s). assert (length t <= Z.to_nat (size - 1))%nat as Ht by (unfold t; rewrite length_take; lia). set (w := t ++ replicate _ 0). assert (length w = Z.to_nat (size - 1)) as Hw by (unfold w; rewrite length_app, length_replicate; lia).
  pose proof (copy_next [] w b) as Hc. cbn [app length] in Hc. change (Z.of_nat 0) with 0 in Hc. rewrite Hc by lia. cbn [mbind option_bind]. destruct (drop (length w) b) as [|y tl] eqn:Ed; [apply (f_equal length) in Ed; rewrite length_drop in Ed; cbn in Ed; lia|].
  assert (tl = []) as Htl by (apply (f_equal length) in Ed; rewrite length_drop in Ed; cbn in Ed; destruct tl; [done|cbn in Ed; lia]). replace (size - 1) with (zlen w) by lia. rewrite put_last by done. f_equal. unfold w. rewrite <- app_assoc. f_equal.
  replace (Z.to_nat size - length t)%nat with (S (Z.to_nat (size - 1) - length t)) by lia. rewrite <- (replicate_S_end). done.
Qed.

Lemma cstr_padded t k : 0 ∉ t -> (0 < k)%nat -> cstr (t ++ replicate k 0) = Some t.
Proof. intros Ht Hk. destruct k as [|k]; [lia|]. cbn [replicate]. by apply cstr_app. Qed.

Lemma foldl_pieces {A B} (f : A -> B -> A) a (ls : list (list B)) : foldl (foldl f) a ls = foldl f a (concat ls).
Proof. revert a. induction ls as [|l ls IH]; intros a; cbn [foldl concat]; [done|]. by rewrite IH, foldl_app. Qed.

Lemma buf_write_ok max s : forall w tl, 0 <= max -> zlen w <= max -> max < zlen (w ++ tl) ->
  exists tl', foldl (buf_write max) (Some (w ++ tl, zlen w)) s = Some (take (Z.to_nat max) (w ++ s) ++ tl', zlen (take (Z.to_nat max) (w ++ s))) /\ zlen (take (Z.to_nat max) (w ++ s) ++ tl') = zlen (w ++ tl) /\ tl' <> [].
Proof.
  induction s as [|c s IH]; intros w tl Hm Hw Hl; cbn [foldl].
  - rewrite app_nil_r, take_ge by lia. exists tl. split; [done|]. split; [done|]. intros ->. rewrite app_nil_r in Hl. lia.
  - unfold buf_write at 2. cbn [mbind option_bind]. destruct (Z.ltb_spec (zlen w) max) as [Hlt|Hge].
    + rewrite length_app in Hl. destruct tl as [|y tl]; [cbn in Hl; lia|]. rewrite put_next. cbn [mbind option_bind]. specialize (IH (w ++ [c]) tl). rewrite <- !app_assoc in IH. cbn [app] in IH. rewrite length_app in IH. cbn [length] in IH.
      replace (Z.of_nat (length w + 1)) with (zlen w + 1) in IH by lia. destruct IH as (tl' & E & Hz & Hne); [lia|lia|rewrite length_app; cbn [length] in *; lia|]. exists tl'. split; [exact E|]. split; [|done]. rewrite Hz, !length_app. done.
    + specialize (IH w tl Hm Hw Hl). destruct IH as (tl' & E & Hz & Hne). assert (take (Z.to_nat max) (w ++ c :: s) = take (Z.to_nat max) (w ++ s)) as -> by (rewrite !take_app_le by lia; done). exists tl'. done.
Qed.

Lemma snprintf_ok b size pieces :
  zlen b = size -> 1 <= size -> 0 ∉ concat pieces -> exists b', snprintf b size pieces = Some b' /\ cstr b' = Some (take (Z.to_nat (size - 1)) (concat pieces)) /\ zlen b' = size.
Proof.
  intros Hb H1 H0. unfold snprintf. rewrite (proj2 (Z.eqb_neq _ _)) by lia. rewrite foldl_pieces. destruct (buf_write_ok (size - 1) (concat pieces) [] b) as (tl & E & Hz & Hne); [lia|cbn; lia|cbn; lia|]. cbn [app length] in E. change (Z.of_nat 0) with 0 in E. cbn [app] in Hz.
  rewrite E. cbn [mbind option_bind]. destruct tl as [|y tl]; [done|]. rewrite put_next. eexists. split; [done|]. split; [apply cstr_app, take_zero; done|]. rewrite length_app in *. cbn [length] in *. lia.
Qed.

(** ** The reference *)

Definition joined (root base user : list Z) : list Z :=
  if bool_decide (head user = Some SLASH) then (if bool_decide (root = ROOT) then user else root ++ user)
  else if bool_decide (base = ROOT) then SLASH :: user else base ++ SLASH :: user.

Definition stripped (root : list Z) : list Z := if (1 <? zlen root) && bool_decide (last root = Some SLASH) then take (length root - 1) root else root.

(** [rt] itself, or something below it. *)
Definition inside (rt p : list Z) : bool :=
  bool_decide (rt = ROOT) || (bool_decide (rt `prefix_of` p) && match p !! length rt with None => true | Some c => c =? SLASH end).

Definition resolve_ref (root base user : list Z) (size : Z) : error + list Z :=
  let nz := normal 256 (take 255 (joined root base user)) in if inside (stripped root) nz then inr (take (Z.to_nat (size - 1)) nz) else inl Acces.

Record locals_ok (size : Z) (l : plocals) : Prop := {
  lo_abs : zlen (abs l) = 256;
  lo_segs : rows_ok 64 16 (segments (nb l)) [];
  lo_out : zlen (out (nb l)) = 256;
  lo_root : zlen (root_cmp l) = 256;
  lo_result : zlen (result l) = size
}.

Lemma root_zero : 0 ∉ ROOT.
Proof. unfold ROOT, SLASH. set_solver. Qed.

Lemma joined_zero root base user : 0 ∉ root -> 0 ∉ base -> 0 ∉ user -> 0 ∉ joined root base user.
Proof. intros. unfold joined, SLASH. repeat case_bool_decide; rewrite ?elem_of_app, ?elem_of_cons; naive_solver. Qed.

Lemma str_run f l s : cstr (f l) = Some s -> str_of f l = Done s l.
Proof. intros E. unfold str_of. by rewrite E. Qed.

Lemma join_path_ok root base user size l :
  0 ∉ root -> 0 ∉ base -> 0 ∉ user -> locals_ok size l ->
  exists b, join_path root base user l = Done tt {| abs := b; nb := nb l; root_cmp := root_cmp l; result := result l |} /\ cstr b = Some (take 255 (joined root base user)) /\ zlen b = 256.
Proof.
  intros Hr Hb Hu [Ha _ _ _ _]. unfold join_path, joined. pose proof root_zero as Hz. assert (forall s, 0 ∉ s -> (strcmp s ROOT =? 0) = bool_decide (s = ROOT)) as Hcmp.
  { intros s Hs. apply eq_true_iff_eq. rewrite Z.eqb_eq, bool_decide_eq_true. by apply strcmp_zero. }
  rewrite !Hcmp by done. case_bool_decide; [|]; case_bool_decide.
  - unfold on_abs. rewrite copy_string_ok by lia. change (Z.to_nat (256 - 1)) with 255%nat. assert (length (take 255 user) <= 255)%nat by (rewrite length_take; lia). eexists. split; [done|]. split; [apply cstr_padded; [by apply take_zero|lia]|]. rewrite length_app, length_replicate. lia.
  - destruct (snprintf_ok (abs l) 256 [root; user]) as (b & E & Hc & Hl); [done|lia|cbn; rewrite app_nil_r; set_solver|]. unfold on_abs. rewrite E. exists b. cbn [concat] in Hc. rewrite app_nil_r in Hc. done.
  - destruct (snprintf_ok (abs l) 256 [ROOT; user]) as (b & E & Hc & Hl); [done|lia|cbn; rewrite app_nil_r; set_solver|]. unfold on_abs. rewrite E. exists b. cbn [concat] in Hc. rewrite app_nil_r in Hc. done.
  - destruct (snprintf_ok (abs l) 256 [base; [SLASH]; user]) as (b & E & Hc & Hl); [done|lia|cbn; rewrite app_nil_r; unfold SLASH; set_solver|]. unfold on_abs. rewrite E. exists b. cbn [concat] in Hc. rewrite app_nil_r in Hc. done.
Qed.

Lemma stripped_zero root : 0 ∉ root -> 0 ∉ stripped root.
Proof. intros H. unfold stripped. case_match; [by apply take_zero|done]. Qed.

(** The root without a trailing slash, in its array. *)
Lemma strip_root_ok root l :
  zlen (root_cmp l) = 256 -> 0 ∉ root -> zlen root <= 255 ->
  exists b, (_ ← on_root_cmp (copy_string root 256); c ← (if 1 <? zlen root then byte_of root_cmp (zlen root - 1) else mret 0);
     (if (1 <? zlen root) && (c =? SLASH) then _ ← on_root_cmp (fun b => put_at b (zlen root - 1) 0); mret (zlen root - 1) else mret (zlen root))) l =
    Done (zlen (stripped root)) {| abs := abs l; nb := nb l; root_cmp := b; result := result l |} /\ cstr b = Some (stripped root) /\ zlen b = 256.
Proof.
  intros Hl H0 Hr. rewrite bind_run. unfold on_root_cmp at 1. rewrite copy_string_ok by lia. change (Z.to_nat (256 - 1)) with 255%nat. rewrite take_ge by lia. set (b0 := root ++ replicate _ 0). set (l1 := {| abs := _ |}). rewrite bind_run.
  assert (zlen b0 = 256) as Hb0 by (unfold b0; rewrite length_app, length_replicate; lia). assert (cstr b0 = Some root) as Hc0 by (apply cstr_padded; [done|lia]). unfold stripped. destruct (Z.ltb_spec 1 (zlen root)) as [H1|H1].
  2: { rewrite ret_run. cbn [andb]. exists b0. done. }
  destruct root as [|z root0 _] using rev_ind; [cbn in H1; lia|]. rewrite length_app in *. cbn [length] in *. rewrite last_snoc. replace (Z.of_nat (length root0 + 1) - 1) with (zlen root0) by lia.
  assert (b0 = root0 ++ z :: replicate (256 - (length root0 + 1)) 0) as Eb by (unfold b0; rewrite length_app, <- app_assoc; done). unfold byte_of. rewrite (proj2 (Z.ltb_ge _ _)) by lia. cbn [root_cmp l1]. rewrite Nat2Z.id, Eb, list_lookup_middle by done. cbn [andb].
  destruct (Z.eqb_spec z SLASH) as [->|Hz].
  - rewrite bool_decide_true by done. rewrite bind_run. unfold on_root_cmp. cbn [root_cmp l1]. rewrite Eb, put_next, ret_run. eexists. replace (length root0 + 1 - 1)%nat with (length root0) by lia. rewrite take_app_length. split; [done|]. split; [apply cstr_app; set_solver|]. rewrite length_app in *. cbn [length]. rewrite length_replicate. lia.
  - rewrite bool_decide_false by congruence. rewrite ret_run. rewrite length_app. cbn [length]. by exists b0.
Qed.

Lemma prefix_take (rt p : list Z) : rt `prefix_of` p <-> take (length rt) p = rt.
Proof. split; [intros [k ->]; apply take_app_length|]. intros <-. by exists (drop (length rt) p); rewrite take_drop. Qed.

(** The test against the root. *)
Lemma inside_ok l rt p :
  cstr (out (nb l)) = Some p -> 0 ∉ rt -> 0 ∉ p ->
  (if strcmp rt ROOT =? 0 then mret false
   else if negb (strncmp p rt (Z.to_nat (zlen rt)) =? 0) then mret true
   else c ← byte_of (fun l => out (nb l)) (zlen rt); mret (negb (c =? SLASH) && negb (c =? 0))) l = Done (negb (inside rt p)) l.
Proof.
  intros Hc H1 H2. unfold inside. rewrite Nat2Z.id. destruct (Z.eqb_spec (strcmp rt ROOT) 0) as [E|E]; rewrite strcmp_zero in E by (done || apply root_zero); [by rewrite bool_decide_true|]. rewrite bool_decide_false by done. cbn [orb].
  destruct (Z.eqb_spec (strncmp p rt (length rt)) 0) as [E2|E2]; rewrite strncmp_zero, (take_ge rt), <- prefix_take in E2 by done; cbn [negb]; [rewrite bool_decide_true by done|by rewrite bool_decide_false]. cbn [andb]. destruct E2 as [k ->].
  destruct (cstr_inv _ _ Hc) as (_ & tl & Eo). rewrite bind_run. unfold byte_of. rewrite (proj2 (Z.ltb_ge _ _)) by lia. rewrite Nat2Z.id, Eo. destruct k as [|c k].
  - rewrite app_nil_r, list_lookup_middle by done. rewrite ret_run. by rewrite lookup_ge_None_2.
  - rewrite <- app_assoc. cbn [app]. rewrite !list_lookup_middle by done. rewrite ret_run. assert (c <> 0) by set_solver. rewrite (proj2 (Z.eqb_neq c 0)) by done. by rewrite andb_true_r.
Qed.

(** ** [resolve_path] computes the reference *)

Lemma on_nb_run {A} (m : M nbuf A) l a n : m (nb l) = Done a n -> on_nb m l = Done a {| abs := abs l; nb := n; root_cmp := root_cmp l; result := result l |}.
Proof. intros E. unfold on_nb, zoom. by rewrite E. Qed.

Lemma resolve_from_ok root base user size l :
  0 ∉ root -> 0 ∉ base -> 0 ∉ user -> zlen root <= 255 -> 1 <= size -> locals_ok size l ->
  exists l', resolved (resolve_from root base user size) l = Done (resolve_ref root base user size) l' /\ locals_ok size l'.
Proof.
  intros Hr Hb Hu Hlen Hsize Hok. unfold resolved, resolve_from, resolve_ref. rewrite !bind_run. destruct (join_path_ok root base user size l Hr Hb Hu Hok) as (b & -> & Hcb & Hlb). destruct Hok as [_ Hsegs Hout Hroot Hres].
  set (l1 := {| abs := b |}). rewrite bind_run, (str_run abs l1 _ Hcb). set (a := take 255 (joined root base user)) in *. assert (0 ∉ a) as Ha by (by apply take_zero, joined_zero).
  destruct (normalize_path_ok a (nb l) [] 256 Ha Hsegs Hout ltac:(lia)) as (n & En & Hcn & Hln & Hsn). rewrite bind_run, (on_nb_run _ l1 _ _ En). set (l2 := {| abs := abs l1; nb := n; root_cmp := root_cmp l1; result := result l1 |}). rewrite bind_run, (str_run (fun l => out (nb l)) l2 _ Hcn). set (nz := normal 256 a) in *.
  destruct (strip_root_ok root l2 Hroot Hr Hlen) as (rc & Es & Hcr & Hlr). rewrite bind_run in Es. cbv zeta. rewrite bind_run. destruct (on_root_cmp (copy_string root 256) l2) as [[] l3| |]; try done. rewrite bind_run in Es. rewrite bind_run. match type of Es with match ?x with Done _ _ => _ | Undef => _ | NoFuel => _ end = _ => destruct x as [c l4| |] end; try done.
  rewrite bind_run, Es. set (l5 := {| abs := abs l2; nb := nb l2; root_cmp := rc; result := result l2 |}). rewrite bind_run, (str_run root_cmp l5 _ Hcr). assert (0 ∉ nz) as Hz by (by apply normal_zero). pose proof (stripped_zero root Hr) as Hs.
  rewrite bind_run, (inside_ok l5 (stripped root) nz Hcn Hs Hz). assert (rows_ok 64 16 (segments n) []) as Hsn0 by (apply (rows_prefix _ _ _ _ 0) in Hsn; by rewrite take_0 in Hsn). destruct (inside (stripped root) nz); cbn [negb].
  - rewrite bind_run. unfold on_result. cbn [result l5]. rewrite copy_string_ok by done. rewrite ret_run, bind_run. set (t := take (Z.to_nat (size - 1)) nz). assert (length t <= Z.to_nat (size - 1))%nat as Ht by (unfold t; rewrite length_take; lia).
    eexists. split; [rewrite (str_run result _ t); [done|apply cstr_padded; [by apply take_zero|lia]]|]. split; try done. cbn [result]. rewrite length_app, length_replicate. lia.
  - rewrite ret_run. eexists. split; [done|]. by split.
Qed.

(** ** Below the root *)

Lemma last_slashed segs : Forall plain segs -> last (slashed segs) <> Some SLASH.
Proof.
  destruct segs as [|s segs _] using rev_ind; [done|]. intros [_ [[Hne Hs] _]%Forall_cons]%Forall_app. rewrite slashed_app. cbn [slashed]. rewrite app_nil_r. destruct s as [|x s _] using rev_ind; [done|].
  rewrite app_comm_cons, app_assoc, last_snoc. intros [= ->]. set_solver.
Qed.

Lemma slashed_long segs : Forall plain segs -> segs <> [] -> 1 < zlen (slashed segs).
Proof. destruct segs as [|[|x s] segs]; intros Hp Hne; [done| |cbn [slashed length]; rewrite length_app; cbn [length]; lia]. apply Forall_cons in Hp as [[? _] _]. done. Qed.

Lemma stripped_root root segs : canonical root segs -> Forall plain segs -> stripped root = match segs with [] => ROOT | _ => slashed segs end.
Proof.
  intros [[-> ->]|[Hne [b ->]]] Hp; [done|]. pose proof (slashed_long segs Hp Hne) as Hl. replace (match segs with [] => ROOT | _ :: _ => slashed segs end) with (slashed segs) by (by destruct segs). unfold stripped. destruct b.
  - rewrite last_snoc, length_app. cbn [length]. rewrite (proj2 (Z.ltb_lt _ _)), bool_decide_true by (done || lia). cbn [andb]. replace (length (slashed segs) + 1 - 1)%nat with (length (slashed segs)) by lia. apply take_app_length.
  - rewrite app_nil_r, bool_decide_false by (by apply last_slashed). by rewrite andb_false_r.
Qed.

(** Being below the root is a matter of names. *)
Lemma inside_names root segs p : canonical root segs -> Forall plain segs -> inside (stripped root) p = true -> segs `prefix_of` names p.
Proof.
  intros Hc Hp. rewrite (stripped_root root segs Hc Hp). destruct segs as [|s segs]; [intros _; apply prefix_nil|]. set (ss := s :: segs) in *. unfold inside. pose proof (slashed_long ss Hp ltac:(done)) as Hl. rewrite bool_decide_false by (intros E; rewrite E in Hl; cbn in Hl; lia). cbn [orb].
  intros [[k ->]%bool_decide_eq_true Hn]%andb_true_iff. destruct k as [|c k]; [rewrite app_nil_r, names_slashed by done; done|]. rewrite list_lookup_middle in Hn by done. apply Z.eqb_eq in Hn as ->. rewrite names_slashed_app by done. by eexists.
Qed.

Definition path_text (segs : list (list Z)) : list Z := match segs with [] => ROOT | _ => slashed segs end.

Lemma inside_text root segs ts : canonical root segs -> Forall plain segs -> Forall plain ts -> inside (stripped root) (path_text ts) = bool_decide (segs `prefix_of` ts).
Proof.
  intros Hc Hp Ht. assert (canonical (path_text ts) ts) as Hct by (destruct ts; [by left|right; split; [done|]; exists false; by rewrite app_nil_r]). apply eq_true_iff_eq. rewrite bool_decide_eq_true. split.
  - intros H%(inside_names root segs); [|done..]. by rewrite (names_canonical _ ts) in H.
  - intros [k ->]. rewrite (stripped_root root segs Hc Hp). unfold inside. destruct segs as [|s segs]; [by rewrite bool_decide_true|]. apply orb_true_iff. right. change (path_text _) with (slashed ((s :: segs) ++ k)). rewrite slashed_app. apply andb_true_iff.
    split; [apply bool_decide_eq_true; by eexists|]. destruct k as [|x k]; [by rewrite app_nil_r, lookup_ge_None_2|]. cbn [slashed]. by rewrite list_lookup_middle.
Qed.

(** ** The paths of a realm *)

(** A normalized path in an array of 256 bytes. *)
Definition path_ok (p : list Z) : Prop := 0 ∉ p /\ zlen p <= 255 /\ canonical p (names p) /\ Forall valid_name (names p).
Definition realm_ok (r : realm) : Prop := path_ok (root_path r) /\ path_ok (cwd_path r).

Lemma root_ok : path_ok ROOT.
Proof. split; [apply root_zero|]. split; [done|]. split; [by left|constructor]. Qed.

Lemma new_realm_ok : realm_ok new_realm.
Proof. split; apply root_ok. Qed.

Lemma path_nonempty p : path_ok p -> or_default p ROOT = p /\ p <> [].
Proof.
  intros (_ & _ & Hc & _). assert (p <> []) as Hne. { destruct Hc as [[_ ->]|[Hne [b ->]]]; [done|]. destruct (names p); [done|]. done. }
  unfold or_default. by rewrite bool_decide_false.
Qed.

Lemma zero_rows : rows_ok 64 16 (replicate 16 (replicate 64 0)) [].
Proof. split; [done| |done]. intros i r [-> _]%lookup_replicate. done. Qed.

Lemma normal_ok a : 0 ∉ a -> path_ok (normal 256 a).
Proof.
  intros Ha. destruct (normalize_path_ok a {| segments := replicate 16 (replicate 64 0); out := replicate 256 0 |} [] 256 Ha zero_rows eq_refl ltac:(lia)) as (n & _ & Hc & Hl & _). destruct (cstr_inv _ _ Hc) as (Hz & tl & E).
  split; [done|]. split; [rewrite E, length_app in Hl; cbn [length] in Hl; lia|]. destruct (normal_canonical 256 a) as [k Hk]. pose proof (normal_names_valid a) as (Hv & _ & _). assert (Forall valid_name (take k (normal_names a))) as Hvk by (by apply Forall_take).
  rewrite (names_canonical _ _ Hk (valid_plain _ Hvk)). done.
Qed.

Lemma resolve_below root base user l :
  path_ok root -> 0 ∉ base -> 0 ∉ user -> locals_ok 256 l ->
  exists x l', resolved (resolve_from root base user 256) l = Done x l' /\ locals_ok 256 l' /\ forall p, x = inr p -> path_ok p /\ names root `prefix_of` names p.
Proof.
  intros (Hz & Hl & Hc & Hv) Hb Hu Hok. destruct (resolve_from_ok root base user 256 l Hz Hb Hu Hl ltac:(lia) Hok) as (l' & E & Hok'). eexists _, l'. split; [exact E|]. split; [done|]. intros p. unfold resolve_ref. set (a := take 255 _).
  assert (path_ok (normal 256 a)) as Hn by (by apply normal_ok, take_zero, joined_zero). change (Z.to_nat (256 - 1)) with 255%nat. rewrite take_ge by (destruct Hn as (_ & ? & _); lia). destruct (inside _ _) eqn:Hi; [|done]. intros [= <-]. split; [done|]. eapply inside_names; [exact Hc|by apply valid_plain|done].
Qed.

Lemma or_default_zero s d : 0 ∉ s -> 0 ∉ d -> 0 ∉ or_default s d.
Proof. intros. unfold or_default. by case_bool_decide. Qed.

Lemma resolve_path_below r user l :
  realm_ok r -> 0 ∉ user -> locals_ok 256 l ->
  exists x l', resolved (resolve_path r user 256) l = Done x l' /\ locals_ok 256 l' /\ forall p, x = inr p -> path_ok p /\ names (root_path r) `prefix_of` names p.
Proof.
  intros [Hr Hc] Hu Hok. unfold resolve_path. case_bool_decide; [eexists _, l; split; [done|]; done|]. cbn [orb Z.eqb]. rewrite (proj1 (path_nonempty _ Hr)). apply resolve_below; try done. apply or_default_zero; [apply Hc|apply Hr].
Qed.

Lemma resolve_path_at_below r base user l :
  realm_ok r -> 0 ∉ default [] base -> 0 ∉ user -> locals_ok 256 l ->
  exists x l', resolved (resolve_path_at r base user 256) l = Done x l' /\ locals_ok 256 l' /\ forall p, x = inr p -> path_ok p /\ names (root_path r) `prefix_of` names p.
Proof.
  intros [Hr Hc] Hb Hu Hok. unfold resolve_path_at. case_bool_decide; [eexists _, l; split; [done|]; done|]. cbn [orb Z.eqb]. rewrite (proj1 (path_nonempty _ Hr)). apply resolve_below; try done. apply or_default_zero; [done|apply Hr].
Qed.

(** ** Programs of calls *)

(** Calls of a realm, with the answer of [VFS::open] where it is asked. *)
Inductive realm_op := Chdir (p : list Z) (answer : error + bool) | Chroot (p : list Z) (answer : error + bool) | Resolve (p : list Z) | Resolve_at (base : option (list Z)) (p : list Z).

Definition op_strings (o : realm_op) : Prop := match o with Chdir p _ | Chroot p _ | Resolve p => 0 ∉ p | Resolve_at b p => 0 ∉ default [] b /\ 0 ∉ p end.

Definition realm_call (r : realm) (o : realm_op) : M plocals realm :=
  match o with
  | Chdir p a => x ← sys_chdir (fun _ => a) r p; mret (snd (x : Z * realm))
  | Chroot p a => x ← sys_chroot (fun _ => a) r p; mret (snd (x : Z * realm))
  | Resolve p => _ ← resolved (resolve_path r p 256); mret r
  | Resolve_at b p => _ ← resolved (resolve_path_at r b p 256); mret r
  end.

Fixpoint realm_calls (r : realm) (ops : list realm_op) : M plocals realm :=
  match ops with [] => mret r | o :: ops' => r' ← realm_call r o; realm_calls r' ops' end.

Lemma enter_ok open set r user l :
  realm_ok r -> 0 ∉ user -> locals_ok 256 l -> (forall p, path_ok p -> names (root_path r) `prefix_of` names p -> realm_ok (set p r) /\ names (root_path r) `prefix_of` names (root_path (set p r))) ->
  exists n r' l', enter open set r user l = Done (n, r') l' /\ locals_ok 256 l' /\ realm_ok r' /\ names (root_path r) `prefix_of` names (root_path r').
Proof.
  intros Hr Hu Hok Hset. unfold enter. case_bool_decide; [eexists _, r, l; split; [done|]; done|]. destruct (resolve_path_below r user l Hr Hu Hok) as (x & l' & E & Hok' & Hx). rewrite bind_run, E.
  destruct x as [e|p]; [eexists _, r, l'; split; [done|]; done|]. destruct (Hx p eq_refl) as [Hp Hpre]. destruct (open p) as [e|[]]; [eexists _, r, l'; split; [done|]; done| |eexists _, r, l'; split; [done|]; done].
  destruct (Hset p Hp Hpre). eexists _, _, l'. split; [done|]. done.
Qed.

Lemma realm_op_ok r o l :
  realm_ok r -> op_strings o -> locals_ok 256 l -> exists r' l', realm_call r o l = Done r' l' /\ locals_ok 256 l' /\ realm_ok r' /\ names (root_path r) `prefix_of` names (root_path r').
Proof.
  intros Hr Ho Hok. pose proof Hr as [Hr1 Hr2]. destruct o as [p a|p a|p|b p]; cbn [realm_call op_strings] in *.
  - destruct (enter_ok (fun _ => a) (fun norm r => {| root_path := root_path r; cwd_path := norm |}) r p l Hr Ho Hok) as (n & r' & l' & E & H); [intros q Hq _; by split|]. unfold sys_chdir. rewrite bind_run, E. eauto.
  - destruct (enter_ok (fun _ => a) (fun norm r => {| root_path := norm; cwd_path := cwd_path r |}) r p l Hr Ho Hok) as (n & r' & l' & E & H); [intros q Hq ?; by split|]. unfold sys_chroot. rewrite bind_run, E. eauto.
  - destruct (resolve_path_below r p l Hr Ho Hok) as (x & l' & E & Hok' & _). rewrite bind_run, E. exists r, l'. done.
  - destruct Ho as [Hb Hp]. destruct (resolve_path_at_below r b p l Hr Hb Hp Hok) as (x & l' & E & Hok' & _). rewrite bind_run, E. exists r, l'. done.
Qed.

Lemma realm_ops_ok ops : forall r l,
  realm_ok r -> Forall op_strings ops -> locals_ok 256 l -> exists r' l', realm_calls r ops l = Done r' l' /\ locals_ok 256 l' /\ realm_ok r' /\ names (root_path r) `prefix_of` names (root_path r').
Proof.
  induction ops as [|o ops IH]; intros r l Hr Ho Hok; cbn [realm_calls]; [by exists r, l|]. apply Forall_cons in Ho as [Ho Hos]. destruct (realm_op_ok r o l Hr Ho Hok) as (r1 & l1 & E1 & Hok1 & Hr1 & Hp1). rewrite bind_run, E1.
  destruct (IH r1 l1 Hr1 Hos Hok1) as (r2 & l2 & E2 & Hok2 & Hr2 & Hp2). exists r2, l2. split; [done|]. split; [done|]. split; [done|]. by etrans.
Qed.

(** ** Lengths and limits *)

Lemma slashed_length_app a b : zlen (slashed (a ++ b)) = zlen (slashed a) + zlen (slashed b).
Proof. rewrite slashed_app, length_app. lia. Qed.

Lemma push_length st nm : zlen (slashed (push_name st nm)) <= zlen (slashed st) + zlen (slashed [nm]).
Proof.
  unfold push_name, pop. repeat case_bool_decide; [lia| |rewrite slashed_length_app; lia]. pose proof (slashed_length_app (take (length st - 1) st) (drop (length st - 1) st)) as E. rewrite take_drop in E. lia.
Qed.

Lemma push_all_length st ns : zlen (slashed (foldl push_name st ns)) <= zlen (slashed st) + zlen (slashed ns).
Proof.
  revert st. induction ns as [|nm ns IH]; intros st; cbn [foldl]; [cbn; lia|]. specialize (IH (push_name st nm)). pose proof (push_length st nm). change (nm :: ns) with ([nm] ++ ns). rewrite (slashed_length_app [nm] ns). lia.
Qed.

Lemma words_length cur p : zlen (slashed (words cur p)) <= zlen cur + zlen p + 1.
Proof.
  revert cur. induction p as [|b p IH]; intros cur; cbn [words].
  - case_bool_decide; [subst; cbn; lia|]. cbn [slashed length]. rewrite app_nil_r. cbn. lia.
  - destruct (b =? SLASH); [case_bool_decide; [subst; specialize (IH []); cbn [length] in *; lia|cbn [slashed length]; rewrite length_app; specialize (IH []); cbn [length] in *; lia]|]. specialize (IH (cur ++ [b])). rewrite length_app in IH. cbn [length] in *. lia.
Qed.

Lemma names_length p : head p = Some SLASH -> zlen (slashed (names p)) <= zlen p.
Proof. destruct p as [|b p]; [done|]. intros [= ->]. rewrite names_slash. unfold names. pose proof (words_length [] p). cbn [length] in *. lia. Qed.

(** A path behind a canonical one. *)
Lemma names_behind base bs p : canonical base bs -> Forall plain bs -> names (base ++ SLASH :: p) = bs ++ names p.
Proof.
  intros [[-> ->]|[Hne [b ->]]] Hp; [by rewrite <- names_slash, names_slash|]. destruct b; rewrite <- app_assoc; cbn [app]; rewrite names_slashed_app by done; [by rewrite names_slash|done].
Qed.

Lemma canonical_head p segs : canonical p segs -> head p = Some SLASH.
Proof. intros [[-> ->]|[Hne [b ->]]]; [done|]. by destruct segs. Qed.

(** The names that a path means: those of the root or of the current directory,
    and its own. *)
Definition meant (r : realm) (user : list Z) : list (list Z) := (if bool_decide (head user = Some SLASH) then names (root_path r) else names (cwd_path r)) ++ names user.

Lemma joined_names r user : realm_ok r -> names (joined (root_path r) (cwd_path r) user) = meant r user /\ head (joined (root_path r) (cwd_path r) user) = Some SLASH.
Proof.
  intros [(_ & _ & Hc1 & Hv1) (_ & _ & Hc2 & Hv2)]. apply valid_plain in Hv1, Hv2. unfold joined, meant. destruct user as [|u user]; cbn [head].
  - rewrite bool_decide_false by done. case_bool_decide as Hr; [rewrite Hr; split; done|]. split; [by apply names_behind|]. pose proof (canonical_head _ _ Hc2). by destruct (cwd_path r).
  - case_bool_decide as Hu.
    + injection Hu as ->. case_bool_decide as Hr; [rewrite Hr; done|]. split; [rewrite names_slash; by apply names_behind|]. pose proof (canonical_head _ _ Hc1). by destruct (root_path r).
    + case_bool_decide as Hr; [rewrite Hr; split; [apply names_slash|done]|]. split; [by apply names_behind|]. pose proof (canonical_head _ _ Hc2). by destruct (cwd_path r).
Qed.

(** ** The parent of a path *)

Lemma split_ref_all st ns : Forall (fun nm => valid_name nm /\ (length nm <= 31)%nat) ns -> (length st + length ns <= 16)%nat -> split_ref 16 st ns = st ++ ns.
Proof.
  revert st. induction ns as [|nm ns IH]; intros st Hv Hl; cbn [split_ref length] in *; [by rewrite app_nil_r|]. apply Forall_cons in Hv as [((_ & H1 & H2) & H31) Hr]. rewrite (proj2 (Nat.leb_gt _ _)) by lia. rewrite take_ge by done.
  unfold push_name. rewrite !bool_decide_false by done. rewrite IH; [by rewrite <- app_assoc|done|rewrite length_app; cbn; lia].
Qed.

Lemma row_strs_ok w k c st n : rows_ok w k c st -> (n <= length st)%nat -> row_strs (Z.of_nat n) c = Done (take n st) c.
Proof.
  intros [H1 H2 H3] Hn. unfold row_strs. rewrite Nat2Z.id. assert (mapM cstr (take n c) = Some (take n st)) as ->; [|done]. apply mapM_Some_2, Forall2_same_length_lookup. assert (length st <= length c)%nat as Hl.
  { destruct (decide (length st = 0%nat)); [lia|]. destruct (lookup_lt_is_Some_2 st (length st - 1)) as [s Hs]; [lia|]. destruct (H3 _ _ Hs) as (r & Hr & _). apply lookup_lt_Some in Hr. lia. }
  split; [rewrite !length_take; lia|]. intros i r s [Hr Hi]%lookup_take_Some [Hs _]%lookup_take_Some. destruct (H3 _ _ Hs) as (r' & Hr' & E). congruence.
Qed.

Lemma row_str_run w k c st i s : rows_ok w k c st -> st !! i = Some s -> row_str (Z.of_nat i) c = Done s c.
Proof. intros [_ _ H3] Hi. destruct (H3 _ _ Hi) as (r & Hr & Hs). unfold row_str. rewrite (proj2 (Z.ltb_ge _ _)) by lia. by rewrite Nat2Z.id, Hr, Hs. Qed.

Lemma strncat_full dest src : 2 * zlen dest + zlen src <= 254 -> strncat dest src (256 - zlen dest - 1) = dest ++ src.
Proof. intros H. unfold strncat. rewrite (proj2 (Z.eqb_neq _ _)), (proj2 (Z.leb_gt _ _)) by lia. by rewrite take_ge by lia. Qed.

Lemma strncat_none dest src : 128 <= zlen dest -> zlen dest <= 254 -> strncat dest src (256 - zlen dest - 1) = dest.
Proof. intros H1 H2. unfold strncat. rewrite (proj2 (Z.eqb_neq _ _)), (proj2 (Z.leb_le _ _)) by lia. done. Qed.

Lemma parent_loop_full comps : forall path, zlen path + zlen (slashed comps) <= 128 -> parent_loop path comps = path ++ drop 1 (slashed comps).
Proof.
  induction comps as [|c rest IH]; intros path H; cbn [parent_loop slashed drop]; [by rewrite app_nil_r|]. cbn [slashed length] in H. rewrite length_app in H. rewrite strncat_full by lia. destruct rest as [|c' rest]; [cbn; by rewrite app_nil_r|].
  cbn [slashed length] in H. rewrite strncat_full by (rewrite length_app; cbn; lia). rewrite IH by (cbn [slashed length]; rewrite !length_app in *; cbn [length]; lia). cbn [slashed drop]. rewrite <- !app_assoc. done.
Qed.

(** Components that do not fit any more are left out. *)
Lemma parent_loop_stuck comps : forall path, 128 <= zlen path -> zlen path <= 254 -> parent_loop path comps = path.
Proof. induction comps as [|c rest IH]; intros path H1 H2; cbn [parent_loop]; [done|]. rewrite !strncat_none by done. destruct rest; by apply IH. Qed.

Lemma parent_loop_app a b path : a <> [] -> b <> [] -> parent_loop path (a ++ b) = (let q := parent_loop path a in parent_loop (strncat q [SLASH] (256 - zlen q - 1)) b).
Proof.
  intros Ha Hb. revert path Ha. induction a as [|x a IH]; intros path Ha; [done|]. destruct a as [|y a]; [cbn [app parent_loop]; by destruct b|]. cbn [app parent_loop] in *. by rewrite (IH _ ltac:(done)).
Qed.

Lemma resolve_parent_run ps x c :
  Forall (fun nm => valid_name nm /\ (length nm <= 31)%nat /\ 0 ∉ nm) (ps ++ [x]) -> (length ps < 16)%nat -> rows_ok 32 16 c [] ->
  exists c', resolve_parent (slashed (ps ++ [x])) c = Done (Some (if bool_decide (ps = []) then ROOT else parent_loop ROOT ps, x)) c' /\ rows_ok 32 16 c' (ps ++ [x]).
Proof.
  intros Hv Hl Hok. assert (Forall (fun nm => valid_name nm /\ (length nm <= 31)%nat) (ps ++ [x])) as Hv1 by (eapply Forall_impl; [exact Hv|naive_solver]). assert (0 ∉ slashed (ps ++ [x])) as Hz.
  { clear -Hv. induction (ps ++ [x]) as [|s l IH]; [set_solver|]. apply Forall_cons in Hv as [(_ & _ & H0) Hr]. specialize (IH Hr). cbn [slashed]. rewrite elem_of_cons, elem_of_app. unfold SLASH. naive_solver. }
  assert (names (slashed (ps ++ [x])) = ps ++ [x]) as Hn by (apply names_slashed; eapply Forall_impl; [exact Hv|]; intros nm ((? & _) & _); done). unfold resolve_parent. destruct (split_path_ok _ 16 c [] Hz Hok) as (c' & E & Hok'). rewrite Hn, split_ref_all in E, Hok' by (done || (rewrite length_app; cbn; lia)). cbn [app] in *.
  rewrite bind_run. change (Z.of_nat 16) with 16 in E. rewrite E. exists c'. rewrite length_app, Nat2Z.inj_add. cbn [length]. change (Z.of_nat 1) with 1. rewrite (proj2 (Z.eqb_neq _ _)) by lia. rewrite bind_run. replace (zlen ps + 1 - 1) with (zlen ps) by lia.
  rewrite (row_str_run _ _ _ _ _ x Hok') by (by apply list_lookup_middle). assert (take 31 x = x) as Hx by (apply take_ge; apply Forall_app in Hv1 as [_ Hx]; apply Forall_cons in Hx as [[_ ?] _]; done). rewrite Hx. case_bool_decide as Hps.
  - subst ps. done.
  - rewrite (proj2 (Z.eqb_neq _ _)) by (destruct ps; [done|cbn; lia]). rewrite bind_run, (row_strs_ok _ _ _ _ _ Hok') by (rewrite length_app; lia). by rewrite take_app_length.
Qed.

Lemma slashed_31 l : Forall (fun nm : list Z => length nm = 31%nat) l -> zlen (slashed l) = 32 * zlen l.
Proof. induction 1 as [|nm l Hn _ IH]; cbn [slashed length]; [done|]. rewrite length_app. lia. Qed.

(** ** The claims *)

(** C11. A realm cannot leave its root. Whatever sequence of chdir, chroot and
    path resolutions a realm makes, and whatever [VFS::open] answers, every call
    returns without touching memory outside its arrays; a path that is resolved
    afterwards is a normalized path below the root of the realm, and also below
    the root the realm had at any earlier time. *)
Theorem chroot_confines ops1 ops2 user l :
  Forall op_strings ops1 -> Forall op_strings ops2 -> 0 ∉ user -> locals_ok 256 l ->
  exists r1 l1 r2 l2 x l3, realm_calls new_realm ops1 l = Done r1 l1 /\ realm_calls r1 ops2 l1 = Done r2 l2 /\ resolved (resolve_path r2 user 256) l2 = Done x l3 /\
    forall p, x = inr p -> names (root_path r1) `prefix_of` names p /\ names (root_path r2) `prefix_of` names p /\ Forall valid_name (names p).
Proof.
  intros H1 H2 Hu Hok. destruct (realm_ops_ok ops1 new_realm l new_realm_ok H1 Hok) as (r1 & l1 & E1 & Hok1 & Hr1 & _). destruct (realm_ops_ok ops2 r1 l1 Hr1 H2 Hok1) as (r2 & l2 & E2 & Hok2 & Hr2 & Hp2).
  destruct (resolve_path_below r2 user l2 Hr2 Hu Hok2) as (x & l3 & E3 & _ & Hx). exists r1, l1, r2, l2, x, l3. split; [done|]. split; [done|]. split; [done|]. intros p ->. destruct (Hx p eq_refl) as [(_ & _ & _ & Hv) Hpre]. split; [by etrans|]. done.
Qed.

(** C12. Resolution is exact for paths within the limits (at most 16 names of less
    than 64 bytes, at most 253 bytes in all): an absolute path is taken from the
    root of the realm and a relative one from its current directory, "." is dropped and ".." takes
    the name before it away; the result is that path, or EACCES when it is not
    below the root. *)
Theorem resolve_exact r user l :
  realm_ok r -> user <> [] -> 0 ∉ user -> locals_ok 256 l -> (length (meant r user) <= 16)%nat -> Forall (fun nm => zlen nm < 64) (meant r user) ->
  zlen (joined (root_path r) (cwd_path r) user) <= 253 ->
  exists l', resolved (resolve_path r user 256) l =
    Done (let target := foldl push_name [] (meant r user) in if bool_decide (names (root_path r) `prefix_of` target) then inr (path_text target) else inl Acces) l'.
Proof.
  intros Hr Hne Hu Hok H16 H64 Hlen. pose proof Hr as [Hr1 Hr2]. unfold resolve_path. rewrite bool_decide_false by done. cbn [orb Z.eqb]. rewrite (proj1 (path_nonempty _ Hr1)). unfold or_default at 1. rewrite bool_decide_false by apply (path_nonempty _ Hr2).
  destruct Hr1 as (Hz1 & Hl1 & Hc1 & Hv1). destruct Hr2 as (Hz2 & _). destruct (resolve_from_ok (root_path r) (cwd_path r) user 256 l Hz1 Hz2 Hu Hl1 ltac:(lia) Hok) as (l' & E & _). exists l'. rewrite E. f_equal. unfold resolve_ref.
  rewrite take_ge by lia. destruct (joined_names r user Hr) as [Hn Hh]. set (j := joined _ _ _) in *. assert (normal_names j = foldl push_name [] (meant r user)) as Ht by (unfold normal_names; rewrite Hn; by apply normal_push_all).
  pose proof (normal_names_valid j) as (Hv & _ & _). rewrite Ht in Hv. set (target := foldl push_name [] (meant r user)) in *. assert (normal 256 j = path_text target) as Htxt.
  { rewrite normal_full, Ht; [generalize target; by intros []|]. rewrite Ht. unfold target. pose proof (push_all_length [] (meant r user)) as Hpl. rewrite <- Hn in Hpl. pose proof (names_length j Hh). rewrite <- Hn. cbn [slashed length] in Hpl. lia. }
  rewrite Htxt, (inside_text (root_path r) (names (root_path r)) target Hc1) by (by apply valid_plain). cbv zeta. case_bool_decide; [|done]. f_equal. change (Z.to_nat (256 - 1)) with 255%nat. apply take_ge. rewrite <- Htxt.
  pose proof (normal_ok j (joined_zero _ _ _ Hz1 Hz2 Hu)) as (_ & ? & _). lia.
Qed.

(** C27. normalize_path stays inside its arrays for every path and every size of
    the output from two bytes on, whatever the arrays held before; what it leaves
    is a terminated string, and a path of names none of which is "." or "..". *)
Theorem normalize_in_bounds path n st0 size :
  0 ∉ path -> rows_ok 64 16 (segments n) st0 -> zlen (out n) = size -> 2 <= size ->
  exists n' p, normalize_path path size n = Done tt n' /\ zlen (out n') = size /\ cstr (out n') = Some p /\ zlen p < size /\ canonical p (names p) /\ Forall valid_name (names p) /\
    names p `prefix_of` foldl normal_push [] (names path).
Proof.
  intros Hp Hok Hs H2. destruct (normalize_path_ok path n st0 size Hp Hok Hs H2) as (n' & E & Hc & Hl & _). exists n', (normal size path). split; [done|]. split; [done|]. split; [done|]. destruct (cstr_inv _ _ Hc) as (_ & tl & Eo).
  split; [rewrite Eo, length_app in Hl; cbn [length] in Hl; lia|]. destruct (normal_canonical size path) as [k Hk]. pose proof (normal_names_valid path) as (Hv & _ & _). assert (Forall valid_name (take k (normal_names path))) as Hvk by (by apply Forall_take).
  rewrite (names_canonical _ _ Hk (valid_plain _ Hvk)). split; [done|]. split; [done|]. apply prefix_take_l || (exists (drop k (normal_names path)); symmetry; apply take_drop).
Qed.

(** resolve_parent splits a path into the path of its parent and its last
    name, for names of at most 31 bytes and a parent of at most 127 bytes. *)
Lemma resolve_parent_splits ps x c :
  Forall (fun nm => valid_name nm /\ (length nm <= 31)%nat /\ 0 ∉ nm) (ps ++ [x]) -> (length ps < 16)%nat -> rows_ok 32 16 c [] -> zlen (slashed ps) <= 127 ->
  exists c', resolve_parent (slashed (ps ++ [x])) c = Done (Some (path_text ps, x)) c' /\ rows_ok 32 16 c' (ps ++ [x]).
Proof.
  intros Hv Hl Hok H127. destruct (resolve_parent_run ps x c Hv Hl Hok) as (c' & E & Hok'). exists c'. split; [|done]. rewrite E. do 3 f_equal. case_bool_decide as Hps; [by subst|]. rewrite parent_loop_full by (unfold ROOT; cbn [length]; lia). by destruct ps.
Qed.

(** A long parent is cut: strncat takes the room of the whole buffer and is
    given the room that is left, so nothing is appended to a path of 128 bytes. The
    parent of "/a/b/c/d/e/x" with names of 31 bytes is "/a/b/c/d", and a file of
    that name in the wrong directory is created, removed or renamed. *)
Theorem parent_path_cut a b d e g x c :
  Forall (fun nm => valid_name nm /\ length nm = 31%nat /\ 0 ∉ nm) [a; b; d; e; g] -> valid_name x -> (length x <= 31)%nat -> 0 ∉ x -> rows_ok 32 16 c [] ->
  exists c', resolve_parent (slashed [a; b; d; e; g; x]) c = Done (Some (slashed [a; b; d; e], x)) c'.
Proof.
  intros Hv Hx Hl Hz Hok. assert (Forall (fun nm => valid_name nm /\ (length nm <= 31)%nat /\ 0 ∉ nm) ([a; b; d; e; g] ++ [x])) as Hv1.
  { apply Forall_app. split; [eapply Forall_impl; [exact Hv|]; intros nm (? & -> & ?); split; [done|]; split; [lia|done]|by constructor]. }
  destruct (resolve_parent_run [a; b; d; e; g] x c Hv1 ltac:(cbn; lia) Hok) as (c' & E & _). exists c'. cbn [app] in E. rewrite E. do 3 f_equal. rewrite bool_decide_false by done.
  assert (forall n, zlen (slashed (take n [a; b; d; e; g])) = 32 * zlen (take n [a; b; d; e; g])) as Hlen. { intros n. apply slashed_31, Forall_take. eapply Forall_impl; [exact Hv|]. naive_solver. }
  pose proof (Hlen 4%nat : zlen (slashed [a; b; d; e]) = 128) as H128. pose proof (Hlen 3%nat : zlen (slashed [a; b; d]) = 96) as H96. assert (length e = 31%nat) as He by (rewrite !Forall_cons in Hv; naive_solver).
  assert (parent_loop ROOT [a; b; d; e] = slashed [a; b; d; e]) as Hq.
  { change (parent_loop ROOT [a; b; d; e]) with (parent_loop ROOT ([a; b; d] ++ [e])). rewrite parent_loop_app by done. rewrite (parent_loop_full [a; b; d] ROOT) by (rewrite H96; done). change (ROOT ++ drop 1 (slashed [a; b; d])) with (slashed [a; b; d]). cbv zeta.
    rewrite strncat_full by (rewrite H96; done). cbn [parent_loop]. rewrite strncat_full by (rewrite length_app, Nat2Z.inj_add, H96; cbn [length]; lia). change [a; b; d; e] with ([a; b; d] ++ [e]). rewrite slashed_app, <- app_assoc. cbn [slashed app]. by rewrite (app_nil_r e). }
  change [a; b; d; e; g] with ([a; b; d; e] ++ [g]). rewrite parent_loop_app, Hq by done. cbv zeta. rewrite strncat_none by (rewrite H128; done). apply parent_loop_stuck; rewrite H128; done.
Qed.

(** C40. The root is not inherited: a realm that is confined to a directory can
    start another one whose root is "/", and which resolves paths outside. *)
Theorem spawn_escapes_chroot r x l :
  realm_ok r -> valid_name x -> (length x < 64)%nat -> 0 ∉ x -> names (root_path r) <> [] -> head (names (root_path r)) <> Some x -> locals_ok 256 l ->
  exists child l1 l2, spawn_paths r None l = Done child l1 /\ resolved (resolve_path child (slashed [x]) 256) l1 = Done (inr (slashed [x])) l2 /\ ~ names (root_path r) `prefix_of` names (slashed [x]).
Proof.
  intros [Hr1 Hr2] Hx Hlx Hzx Hne Hhd Hok. set (child := {| root_path := ROOT; cwd_path := cwd_path r |}). assert (realm_ok child) as Hch by (split; [apply root_ok|done]). assert (names (slashed [x]) = [x]) as Hn by (apply names_slashed; constructor; [apply Hx|constructor]).
  assert (meant child (slashed [x]) = [x]) as Hm by (unfold meant; cbn [slashed head]; rewrite bool_decide_true by done; cbn [slashed] in Hn; rewrite Hn; done).
  destruct (resolve_exact child (slashed [x]) l Hch) as (l2 & E); try done; [cbn [slashed]; rewrite app_nil_r; unfold SLASH; set_solver|rewrite Hm; cbn; lia|rewrite Hm; constructor; [lia|constructor]|unfold joined; cbn [slashed head]; rewrite bool_decide_true, bool_decide_true by done; cbn [length]; rewrite app_nil_r; lia|].
  exists child, l, l2. split; [done|]. split.
  - rewrite E, Hm. rewrite (push_valid [] [x]) by (by constructor). cbv zeta. rewrite bool_decide_true by apply prefix_nil. done.
  - rewrite Hn. intros [k Hk]. destruct (names (root_path r)) as [|y ys]; [done|]. injection Hk as -> _. done.
Qed.

(** ** Concrete runs *)

Definition demo_locals : plocals := {| abs := replicate 256 7; nb := {| segments := replicate 16 (replicate 64 7); out := replicate 256 7 |}; root_cmp := replicate 256 7; result := replicate 256 7 |}.

Lemma demo_locals_ok : locals_ok 256 demo_locals.
Proof. split; try done. split; [done| |done]. intros i r [-> _]%lookup_replicate. done. Qed.

(** "/a" and "/a/../../b" *)
Definition path_a : list Z := [SLASH; 97].
Definition path_up : list Z := [SLASH; 97; SLASH; DOT; DOT; SLASH; DOT; DOT; SLASH; 98].

Lemma chroot_confines_witness :
  exists r1 l1 x l2, realm_calls new_realm [Chroot path_a (inr true)] demo_locals = Done r1 l1 /\ root_path r1 = path_a /\ resolved (resolve_path r1 path_a 256) l1 = Done x l2 /\
    forall p, x = inr p -> names path_a `prefix_of` names p.
Proof.
  destruct (chroot_confines [Chroot path_a (inr true)] [] path_a demo_locals ltac:(by repeat constructor; vm_compute; set_solver) ltac:(constructor) ltac:(unfold path_a, SLASH; set_solver) demo_locals_ok) as (r1 & l1 & r2 & l2 & x & l3 & E1 & E2 & E3 & H).
  injection E2 as <- <-. pose proof (eq_refl (match realm_calls new_realm [Chroot path_a (inr true)] demo_locals with Done r _ => root_path r | _ => [] end)) as Hr. rewrite E1 in Hr at 1. exists r1, l1, x, l3. split; [exact E1|].
  assert (root_path r1 = path_a) as Hp by (rewrite Hr; vm_compute; reflexivity). split; [exact Hp|]. split; [exact E3|]. intros p Hx. rewrite <- Hp. apply (H p Hx).
Defined.

Lemma resolve_exact_witness :
  exists l', resolved (resolve_path {| root_path := path_a; cwd_path := path_a |} path_up 256) demo_locals = Done (inl Acces) l'.
Proof.
  assert (path_ok path_a) as Ha. { split; [unfold path_a, SLASH; set_solver|]. split; [done|]. split; [right; split; [done|]; by exists false|]. repeat constructor; vm_compute; set_solver. }
  destruct (resolve_exact {| root_path := path_a; cwd_path := path_a |} path_up demo_locals) as (l' & E); [by split|done|unfold path_up, SLASH, DOT; set_solver|apply demo_locals_ok|vm_compute; lia|vm_compute; repeat constructor|vm_compute; discriminate|].
  exists l'. etrans; [exact E|]. vm_compute. reflexivity.
Defined.

Lemma normalize_in_bounds_witness :
  exists n', normalize_path path_up 8 {| segments := replicate 16 (replicate 64 0); out := replicate 8 7 |} = Done tt n' /\ cstr (out n') = Some [SLASH; 98].
Proof.
  destruct (normalize_in_bounds path_up {| segments := replicate 16 (replicate 64 0); out := replicate 8 7 |} [] 8 ltac:(unfold path_up, SLASH, DOT; set_solver) zero_rows eq_refl ltac:(lia)) as (n' & p & E & _ & Hc & _).
  exists n'. split; [exact E|]. pose proof (eq_refl (match normalize_path path_up 8 {| segments := replicate 16 (replicate 64 0); out := replicate 8 7 |} with Done _ n => cstr (out n) | _ => None end)) as H. rewrite E in H at 1. rewrite H. vm_compute. reflexivity.
Defined.

Lemma rows_32_ok : rows_ok 32 16 (replicate 16 (replicate 32 7)) [].
Proof. split; [done| |done]. intros i r [-> _]%lookup_replicate. done. Qed.

Definition name31 (b : Z) : list Z := replicate 31 b.

Lemma parent_path_cut_witness :
  exists c', resolve_parent (slashed [name31 97; name31 98; name31 99; name31 100; name31 101; [120]]) (replicate 16 (replicate 32 7)) = Done (Some (slashed [name31 97; name31 98; name31 99; name31 100], [120])) c'.
Proof.
  assert (forall z, z <> 47 -> z <> 0 -> valid_name (name31 z) /\ length (name31 z) = 31%nat /\ 0 ∉ name31 z) as Hz.
  { intros z H1 H2. split_and!; [|done|unfold name31; intros [? _]%elem_of_replicate; congruence]. split_and!; [|done|done]. split; [done|]. unfold name31, SLASH. intros [? _]%elem_of_replicate. congruence. }
  destruct (parent_path_cut (name31 97) (name31 98) (name31 99) (name31 100) (name31 101) [120] (replicate 16 (replicate 32 7))) as (c' & E); [repeat constructor; apply Hz; lia| |cbn; lia|set_solver|apply rows_32_ok|exists c'; exact E].
  unfold valid_name, plain, SLASH, DOT. split_and!; try done. set_solver.
Defined.

Lemma spawn_escapes_chroot_witness :
  exists child l1 l2, spawn_paths {| root_path := path_a; cwd_path := path_a |} None demo_locals = Done child l1 /\ resolved (resolve_path child (slashed [[98]]) 256) l1 = Done (inr (slashed [[98]])) l2 /\ ~ names path_a `prefix_of` names (slashed [[98]]).
Proof.
  assert (path_ok path_a) as Ha. { split; [unfold path_a, SLASH; set_solver|]. split; [done|]. split; [right; split; [done|]; by exists false|]. repeat constructor; vm_compute; set_solver. }
  destruct (spawn_escapes_chroot {| root_path := path_a; cwd_path := path_a |} [98] demo_locals) as (child & l1 & l2 & H); [by split|unfold valid_name, plain, SLASH, DOT; split_and!; try done; set_solver|cbn; lia|set_solver|done|by vm_compute|apply demo_locals_ok|]. exists child, l1, l2. exact H.
Defined.
