(* ===== verification/Vfs.v ===== *)
(** * filesystem/vfs/vfs.cpp: opening, creating, removing and renaming by path

    The file system is found by the longest mount point in front of a path, then
    the components are walked through the cache, and with the operations of the
    nodes where they are not cached. These operations are a class: a node is a
    table of callbacks in the source. The mount point that a node refers to is
    only asked for its flags ([read_only]). *)

From Stdlib Require Import ZArith Lia.
From stdpp Require Import base tactics gmap numbers list.
From S2P Require Import Prelude.
From S2P Require Import Memory.
From S2P Require Import Slices.
From S2P Require Import KErrno.
From S2P Require Import Dentry.
From S2P Require Import KPath.
From S2P Require Import Resolve.

(** The operations of [VfsNodeOps] that are used here, by name. *)
Inductive node_op := OpFind | OpCreate | OpMkdir | OpRmdir | OpUnlink | OpRename.

(** File systems of type [F]. [find] may allocate a node: it is given the counts
    of the nodes that exist and gives them back. [open] calls it on every node it
    comes to, but only asks the root whether there is such an operation. *)
Class FileSystem (F : Type) := {
  find : F -> Z -> list Z -> gmap Z Z -> error + Z * gmap Z Z;
  fs_create : F -> Z -> list Z -> Z -> error + F;
  fs_mkdir : F -> Z -> list Z -> Z -> error + F;
  fs_rmdir : F -> Z -> list Z -> error + F;
  fs_unlink : F -> Z -> list Z -> error + F;
  fs_rename : F -> Z -> list Z -> Z -> list Z -> error + F;
  supports : node_op -> Z -> bool;
  read_only : Z -> bool;
  is_fifo : Z -> bool;
  kept : Z -> bool
}.

(** The mount points in the order in which they were added, the nodes that have a
    channel, the array of components of the running call, and the file systems. *)
Record vfs (F : Type) := {
  cache : dcache;
  mounts : list (list Z * Z);
  fifos : gset Z;
  components : rows;
  fs : F
}.
Arguments cache {F}.
Arguments mounts {F}.
Arguments fifos {F}.
Arguments components {F}.
Arguments fs {F}.

Section vfs.
Context {F : Type} `{!FileSystem F} (N : Z).
(** Whether [Channel::create] finds memory. *)
Context (channel_room : gset Z -> bool).

Definition set_cache (c : dcache) (v : vfs F) : vfs F := {| cache := c; mounts := mounts v; fifos := fifos v; components := components v; fs := fs v |}.
Definition set_components (r : rows) (v : vfs F) : vfs F := {| cache := cache v; mounts := mounts v; fifos := fifos v; components := r; fs := fs v |}.
Definition set_fs (x : F) (v : vfs F) : vfs F := {| cache := cache v; mounts := mounts v; fifos := fifos v; components := components v; fs := x |}.
Definition set_fifos (x : gset Z) (v : vfs F) : vfs F := {| cache := cache v; mounts := mounts v; fifos := x; components := components v; fs := fs v |}.
Definition set_mounts (x : list (list Z * Z)) (v : vfs F) : vfs F := {| cache := cache v; mounts := x; fifos := fifos v; components := components v; fs := fs v |}.

Definition on_cache {A} (m : M dcache A) : M (vfs F) A := zoom cache set_cache m.
Definition on_components {A} (m : M rows A) : M (vfs F) A := zoom components set_components m.

(** ** Mount points *)

(** [char path[64]] *)
Definition mount_virtual (root : Z) (mount_path : list Z) : M (vfs F) unit := modify (fun v => set_mounts (mounts v ++ [(take 63 mount_path, root)]) v).

(** The test of one mount point, and the longest one that passes it. *)
Definition covers (mp path : list Z) : bool :=
  (strncmp path mp (length mp) =? 0) &&
  ((strcmp mp ROOT =? 0) || match path !! length mp with None => true | Some c => c =? SLASH end).

Definition best_mount (path : list Z) (ms : list (list Z * Z)) : option (list Z * Z) :=
  foldl (fun best m => if covers (fst m) path && (match best with None => 0 | Some b => zlen (fst b) end <? zlen (fst m)) then Some m else best) None ms.

(** ** open and close *)

(** A named pipe gets its channel with the first open. *)
Definition ensure_fifo (n : Z) : M (vfs F) (error + Z) :=
  v ← get;
  if is_fifo n && negb (bool_decide (n ∈ fifos v)) then
    if channel_room (fifos v) then _ ← modify (set_fifos ({[n]} ∪ fifos v)); mret (inr n) else mret (inl NoMem)
  else mret (inr n).

(** One turn of the loop of [open]: the node reached so far, and its entry. *)
Definition walk_step (current : Z) (current_dentry : option Z) (name : list Z) : M (vfs F) (error + Z * option Z) :=
  r ← on_cache (lookup_component N current_dentry name);
  match (r : option Z * option Z) with
  | (Some n, next_dentry) => mret (inr (n, next_dentry))
  | (None, _) =>
      if negb (supports OpFind current) then undefined else
      v ← get;
      match find (fs v) current name (nodes (cache v)) with
      | inl e => mret (inl e)
      | inr (n, m) =>
          _ ← on_cache (modify (set_nodes m));
          d ← on_cache (insert_component N kept current_dentry name n);
          mret (inr (n, d))
      end
  end.

Fixpoint walk_names (current : Z) (current_dentry : option Z) (names : list (list Z)) : M (vfs F) (error + Z) :=
  match names with
  | [] => mret (inr current)
  | name :: names' =>
      x ← walk_step current current_dentry name;
      match (x : error + Z * option Z) with
      | inl e => mret (inl e)
      | inr (n, d) => walk_names n d names'
      end
  end.

Definition vfs_open (path : list Z) : M (vfs F) (error + Z) :=
  if bool_decide (path = []) then mret (inl Inval)
  else
    cached ← on_cache (lookup N path);
    match (cached : option Z) with
    | Some n => ensure_fifo n
    | None =>
        v ← get;
        match best_mount path (mounts v) with
        | None => mret (inl NoEnt)
        | Some (mp, root) =>
            let sub_path := skip_slash (drop (length mp) path) in
            if negb (supports OpFind root) then mret (inl NoSys)
            else
              count ← on_components (split_path sub_path 16);
              names ← on_components (row_strs count);
              x ← walk_names root None names;
              match (x : error + Z) with
              | inl e => mret (inl e)
              | inr current => _ ← on_cache (insert N kept path current); ensure_fifo current
              end
        end
    end.

Definition vfs_close_node (n : Z) : M (vfs F) unit := on_cache (vfs_close kept n).

(** ** Changes *)

(** [VFS::resolve_parent]: the parent, opened, and the name in it. *)
Definition open_parent (path : list Z) : M (vfs F) (option (Z * list Z)) :=
  x ← on_components (resolve_parent path);
  match (x : option (list Z * list Z)) with
  | None => mret None
  | Some (parent_path, name) =>
      r ← vfs_open parent_path;
      match (r : error + Z) with inl _ => mret None | inr n => mret (Some (n, name)) end
  end.

(** [create], [mkdir], [rmdir] and [unlink] differ in the operation they call and
    in the invalidation. *)
Definition change (op : node_op) (act : F -> Z -> list Z -> error + F) (inval : list Z -> M dcache unit) (path : list Z) : M (vfs F) (error + unit) :=
  p ← open_parent path;
  match (p : option (Z * list Z)) with
  | None => mret (inl NoEnt)
  | Some (parent, name) =>
      if read_only parent then _ ← vfs_close_node parent; mret (inl RoFs)
      else if negb (supports op parent) then _ ← vfs_close_node parent; mret (inl NoSys)
      else
        v ← get;
        match act (fs v) parent name with
        | inl e => _ ← vfs_close_node parent; mret (inl e)
        | inr x => _ ← modify (set_fs x); _ ← vfs_close_node parent; _ ← on_cache (inval path); mret (inr tt)
        end
  end.

Definition vfs_create (path : list Z) (mode : Z) : M (vfs F) (error + unit) := change OpCreate (fun x n nm => fs_create x n nm mode) (invalidate N kept) path.
Definition vfs_mkdir (path : list Z) (mode : Z) : M (vfs F) (error + unit) := change OpMkdir (fun x n nm => fs_mkdir x n nm mode) (invalidate N kept) path.
Definition vfs_unlink (path : list Z) : M (vfs F) (error + unit) := change OpUnlink fs_unlink (invalidate N kept) path.

(** A directory that something is mounted on stays. *)
Definition vfs_rmdir (path : list Z) : M (vfs F) (error + unit) :=
  v ← get;
  if existsb (fun m => strcmp (fst m) path =? 0) (mounts v) then mret (inl Perm)
  else change OpRmdir fs_rmdir (invalidate_prefix N kept) path.

Definition vfs_rename (old_path new_path : list Z) : M (vfs F) (error + unit) :=
  po ← open_parent old_path;
  match (po : option (Z * list Z)) with
  | None => mret (inl NoEnt)
  | Some (old_parent, old_name) =>
      pn ← open_parent new_path;
      match (pn : option (Z * list Z)) with
      | None => _ ← vfs_close_node old_parent; mret (inl NoEnt)
      | Some (new_parent, new_name) =>
          let close_both := _ ← vfs_close_node old_parent; vfs_close_node new_parent in
          if read_only old_parent then _ ← close_both; mret (inl RoFs)
          else if negb (old_parent =? new_parent) then _ ← close_both; mret (inl XDev)
          else if negb (supports OpRename old_parent) then _ ← close_both; mret (inl NoSys)
          else
            v ← get;
            match fs_rename (fs v) old_parent old_name new_parent new_name with
            | inl e => _ ← close_both; mret (inl e)
            | inr x =>
                _ ← modify (set_fs x);
                _ ← close_both;
                _ ← on_cache (invalidate_prefix N kept old_path);
                _ ← on_cache (invalidate N kept new_path);
                mret (inr tt)
            end
      end
  end.
End vfs.
