(* ===== verification/VfsFacts.v ===== *)
(** * Walking paths through the cache

    What file systems promise ([FSLaws]), and that [open] follows the tree of the
    file system whatever part of it is cached. *)

From Stdlib Require Import ZArith Lia.
From stdpp Require Import base tactics gmap numbers list sorting.
From S2P Require Import Prelude.
From S2P Require Import Memory.
From S2P Require Import Slices.
From S2P Require Import KErrno.
From S2P Require Import Dentry.
From S2P Require Import DentryFacts.
From S2P Require Import DentryTree.
From S2P Require Import DentryOps.
From S2P Require Import DentryPaths.
From S2P Require Import DentryProps.
From S2P Require Import KPath.
From S2P Require Import KPathFacts.
From S2P Require Import Resolve.
From S2P Require Import ResolveProps.
From S2P Require Import Vfs.

(** ** Paths as the cache reads them *)

(** Names that fit into the arrays of [open]. *)
Definition name_ok (nm : list Z) : Prop := valid_name nm /\ (length nm <= 31)%nat /\ 0 ∉ nm.

Lemma name_ok_bad nm : name_ok nm -> bad_length nm = false.
Proof. intros (((Hne & _) & _) & Hl & _). unfold bad_length, DENTRY_MAX_NAME. apply orb_false_iff. split; [apply Z.eqb_neq; by destruct nm|apply Z.leb_gt; lia]. Qed.

Lemma names_plain_all segs : Forall name_ok segs -> Forall plain segs.
Proof. intros H. eapply Forall_impl; [exact H|]. by intros nm [[? _] _]. Qed.

Lemma component_slashed s rest : SLASH ∉ s -> component (s ++ slashed rest) = (s, slashed rest).
Proof.
  induction s as [|b s IH]; intros Hs; cbn [app component]; [by destruct rest|]. apply not_elem_of_cons in Hs as [Hb Hs]. rewrite (proj2 (Z.eqb_neq _ _)) by congruence. by rewrite IH.
Qed.

Lemma skip_slashed rest : skip_slash (slashed rest) = drop 1 (slashed rest).
Proof. by destruct rest. Qed.

Lemma comps_slashed segs : forall n, Forall name_ok segs -> (length (slashed segs) <= n)%nat -> comps n (drop 1 (slashed segs)) = (segs, true).
Proof.
  induction segs as [|s segs IH]; intros n Hs Hn; [by destruct n|]. apply Forall_cons in Hs as [Hs Hr]. change (drop 1 (slashed (s :: segs))) with (s ++ slashed segs). cbn [slashed length] in Hn. destruct n as [|n]; [lia|]. pose proof Hs as (((Hne & Hsl) & _) & _). rewrite comps_step by (by destruct s).
  rewrite component_slashed, (name_ok_bad s Hs), skip_slashed by done. rewrite length_app in Hn. by rewrite IH by (done || lia).
Qed.

Lemma icomps_slashed ws nm : forall n, Forall name_ok (ws ++ [nm]) -> (length (slashed (ws ++ [nm])) <= n)%nat -> icomps n (drop 1 (slashed (ws ++ [nm]))) = (ws, Some nm).
Proof.
  induction ws as [|s ws IH]; intros n Hs Hn; cbn [app] in *; apply Forall_cons in Hs as [Hs Hr]; pose proof Hs as (((Hne & Hsl) & _) & _); cbn [slashed length] in Hn; (destruct n as [|n]; [lia|]); change (drop 1 (slashed [nm])) with (nm ++ slashed []) || change (drop 1 (slashed (s :: ws ++ [nm]))) with (s ++ slashed (ws ++ [nm])); (rewrite icomps_step by (by destruct s + by destruct nm)).
  - rewrite (component_slashed nm []), (name_ok_bad nm Hs) by done. by rewrite bool_decide_true.
  - rewrite component_slashed, (name_ok_bad s Hs), bool_decide_false, skip_slashed by (done || by destruct ws). rewrite length_app in Hn. by rewrite IH by (done || lia).
Qed.

Lemma path_names_text segs : Forall name_ok segs -> path_names (path_text segs) = (segs, true).
Proof. intros Hs. unfold path_names. destruct segs as [|s segs]; [done|]. change (path_text (s :: segs)) with (slashed (s :: segs)). rewrite skip_slashed. by apply comps_slashed. Qed.

Lemma insert_names_text ws nm : Forall name_ok (ws ++ [nm]) -> insert_names (path_text (ws ++ [nm])) = (ws, Some nm).
Proof.
  intros Hs. unfold insert_names. assert (path_text (ws ++ [nm]) = slashed (ws ++ [nm])) as -> by (by destruct ws). rewrite skip_slashed. by apply icomps_slashed.
Qed.

Lemma text_zero segs : Forall name_ok segs -> 0 ∉ path_text segs.
Proof.
  intros Hs. destruct segs as [|s segs]; [unfold ROOT, path_text, SLASH; set_solver|]. change (path_text (s :: segs)) with (slashed (s :: segs)). revert Hs. generalize (s :: segs). clear. induction 1 as [|nm l (_ & _ & Hz) _ IH]; cbn [slashed]; [set_solver|]. rewrite elem_of_cons, elem_of_app. unfold SLASH. naive_solver.
Qed.

(** ** What file systems promise *)

(** Where a path leads, from child to child. *)
Fixpoint walk {I : Type} (child : I -> list Z -> option I) (i : I) (q : list (list Z)) : option I :=
  match q with [] => Some i | nm :: q' => j ← child i nm; walk child j q' end.

Lemma walk_app {I} (ch : I -> list Z -> option I) q1 q2 : forall i, walk ch i (q1 ++ q2) = j ← walk ch i q1; walk ch j q2.
Proof. induction q1 as [|nm q1 IH]; intros i; cbn; [done|]. destruct (ch i nm); cbn; auto. Qed.

(** The change of the entries [names] of one directory: only what lies at or below
    them can be found differently. There is one path to the directory. *)
Definition local_change {I : Type} (ch ch' : I -> list Z -> option I) (top dir : I) (names : list (list Z)) : Prop :=
  (forall p q, walk ch top p = Some dir -> walk ch top q = Some dir -> p = q) /\
  (forall q, (forall p nm, walk ch top p = Some dir -> nm ∈ names -> ~ p ++ [nm] `prefix_of` q) -> walk ch' top q = walk ch top q).

(** Every node stands for an inode; [find] gives the node of a child, with a
    reference. Only a file system that lacks memory or whose disk fails
    ([healthy] is false) hides a child. Changes are promised to be local for
    directories that are part of the tree. *)
Class FSLaws (F : Type) `{!FileSystem F} := {
  inode : Type;
  ino : Z -> inode;
  top : inode;
  child : F -> inode -> list Z -> option inode;
  tree_ok : F -> Prop;
  healthy : F -> Prop;
  find_yes t d nm m n m' : find t d nm m = inr (n, m') -> child t (ino d) nm = Some (ino n) /\ supports OpFind n = true;
  find_refs t d nm m n m' w : find t d nm m = inr (n, m') -> held kept w m -> w n < UINT64_MAX -> held kept (more 1 n w) m';
  find_no t d nm m e : find t d nm m = inl e -> healthy t -> child t (ino d) nm = None;
  create_local t d nm mode t' : tree_ok t -> (exists ps, walk (child t) top ps = Some (ino d)) -> fs_create t d nm mode = inr t' -> tree_ok t' /\ local_change (child t) (child t') top (ino d) [nm];
  mkdir_local t d nm mode t' : tree_ok t -> (exists ps, walk (child t) top ps = Some (ino d)) -> fs_mkdir t d nm mode = inr t' -> tree_ok t' /\ local_change (child t) (child t') top (ino d) [nm];
  rmdir_local t d nm t' : tree_ok t -> (exists ps, walk (child t) top ps = Some (ino d)) -> fs_rmdir t d nm = inr t' -> tree_ok t' /\ local_change (child t) (child t') top (ino d) [nm];
  unlink_local t d nm t' : tree_ok t -> (exists ps, walk (child t) top ps = Some (ino d)) -> fs_unlink t d nm = inr t' -> tree_ok t' /\ local_change (child t) (child t') top (ino d) [nm];
  rename_local t d nm nm' t' : tree_ok t -> (exists ps, walk (child t) top ps = Some (ino d)) -> fs_rename t d nm d nm' = inr t' -> tree_ok t' /\ local_change (child t) (child t') top (ino d) [nm; nm']
}.

(** The inode that a path leads to. *)
Definition reach {F} `{FSLaws F} (t : F) (q : list (list Z)) : option inode := walk (child t) top q.

(** ** The walk *)

Lemma fids_view pp : forall f f', (forall q, q <> [] -> q `prefix_of` pp -> fget q f' = fget q f) -> fids pp f' = fids pp f.
Proof.
  induction pp as [|c cs IH]; intros f f' Hv; [done|]. cbn [fids]. pose proof (Hv [c] ltac:(done) ltac:(by exists cs)) as H1. rewrite !fget_child in H1.
  destruct (fchild c f') as [[[d' nd'] k']|] eqn:E', (fchild c f) as [[[d nd] k]|] eqn:E; try done. injection H1 as -> _. f_equal. apply IH. intros q Hq [z ->]. specialize (Hv (c :: q) ltac:(done) ltac:(by exists z)). rewrite !fget_child, E, E' in Hv. by destruct q.
Qed.

Lemma minus_both xs l1 l2 : minus xs (l1 ++ l2) = minus xs l1 ++ minus xs l2.
Proof. apply filter_app. Qed.

Section walk.
Context {F : Type} `{FSLaws F} (N rt : Z).
Hypothesis (HN : 0 <= N <= UINT64_MAX).

(** What is cached is where the tree leads to. *)
Definition sound (f : forest) (t : F) : Prop := forall q n, fnode q f = Some n -> reach t q = Some (ino n) /\ supports OpFind n = true.

(** The same, but for the cache. *)
Definition only_cache (v v' : vfs F) : Prop := v' = set_cache (cache v') v.

Lemma vfs_cache_refl v : only_cache v v.
Proof. by destruct v. Qed.

Lemma vfs_cache_trans v1 v2 v3 : only_cache v1 v2 -> only_cache v2 v3 -> only_cache v1 v3.
Proof. unfold only_cache. intros -> H2. by rewrite H2. Qed.

Lemma on_cache_run {A} (m : M dcache A) (v : vfs F) a c' : m (cache v) = Done a c' -> on_cache m v = Done a (set_cache c' v).
Proof. intros E. unfold on_cache, zoom. by rewrite E. Qed.

(** The order of use behind a step: the entries on the way are the last ones. *)
Lemma order_snoc c f f' l0 fl' pp nm d n xs gone :
  dc_ok N c f' (minus xs (minus (fids pp f) l0 ++ fids pp f) ++ [d]) fl' -> inserted f f' (pp ++ [nm]) n gone -> fget (pp ++ [nm]) f' = Some (d, n) ->
  (forall vp, gone = Some vp -> ~ vp `prefix_of` pp) -> (exists p, path_to p pp f) ->
  exists l0', NoDup l0' /\ minus xs (minus (fids pp f) l0 ++ fids pp f) ++ [d] = minus (fids (pp ++ [nm]) f') l0' ++ fids (pp ++ [nm]) f'.
Proof.
  intros Hok [d0 Hins] Hnew Hgone [p Hp]. set (P := fids pp f) in *. assert (forall q, q <> [] -> q `prefix_of` pp -> fget q f' = fget q f) as Hsame.
  { intros q Hq Hpre. rewrite Hins, decide_False; [destruct gone as [vp|]; [|done]; rewrite decide_False; [done|]|].
    - intros Hvp. apply (Hgone vp eq_refl). by etrans.
    - intros ->. apply prefix_length in Hpre. rewrite length_app in Hpre. cbn in Hpre. lia. }
  assert (path_to p pp f') as Hp'. { destruct p as [pd|]; [|done]. destruct Hp as [nd Hp]. exists nd. rewrite Hsame; [done| |done]. intros ->. by rewrite fget_nil in Hp. }
  pose proof (ok_nodup_ids _ _ _ _ _ Hok) as Nids. pose proof (ok_nodup_lru _ _ _ _ _ Hok) as Nl. destruct (path_kids _ _ _ Hp') as [g' Hk']. pose proof Hnew as Hc. rewrite (kids_get f' g' p pp Nids Hp' Hk'), fget_child in Hc by done.
  destruct (fchild nm g') as [[[d1 n1] k1]|] eqn:Ec; [|done]. injection Hc as -> ->. rewrite (fids_snoc pp nm f' p g' d n k1 Nids Hp' Hk' Ec), (fids_view pp f f' Hsame). fold P.
  assert (forall x, x ∈ P -> x ∉ xs /\ x <> d) as HP. { intros x Hx. assert (NoDup (P ++ [d])) as Hnd. { unfold P. rewrite <- (fids_view pp f f' Hsame), <- (fids_snoc pp nm f' p g' d n k1 Nids Hp' Hk' Ec). by apply (fids_nodup N). }
    apply NoDup_app in Hnd as (_ & Hd & _). assert (x <> d) as Hxd by (intros ->; apply (Hd d Hx); set_solver). split; [|done].
    assert (x ∈ ids f') as Hxi. { unfold P in Hx. rewrite <- (fids_view pp f f' Hsame) in Hx. by eapply (fids_elem N). } rewrite <- (ok_ids _ _ _ _ _ Hok) in Hxi. apply elem_of_app in Hxi as [Hxi|Hxi]; [by apply elem_minus in Hxi as [_ ?]|set_solver]. }
  rewrite minus_both, (minus_none xs P) in Nl |- * by (intros x Hx; by apply HP). exists (minus xs (minus P l0)). rewrite <- (assoc app) in Nl |- *. apply NoDup_app in Nl as (N1 & Hd & _). split; [done|]. f_equal.
  symmetry. apply minus_none. intros x Hx. by apply Hd.
Qed.

(** The node at a path, from the cache or [rt] itself. *)
Definition at_node (pp : list (list Z)) (f : forest) (n : Z) : Prop := match pp with [] => n = rt | _ => fnode pp f = Some n end.

Lemma at_node_some pp nm f d n : fget (pp ++ [nm]) f = Some (d, n) -> at_node (pp ++ [nm]) f n.
Proof. intros Hg. assert (fnode (pp ++ [nm]) f = Some n) as Hn by (apply fnode_get; eauto). by destruct pp. Qed.

(** The walk stands at [cur], behind the names [pp]: the order of use ends with
    the entries on the way. *)
Record walking (v : vfs F) (f : forest) (l0 fl : list Z) (ext : Z -> Z) (pp : list (list Z)) (cur : Z) (dent : option Z) : Prop := {
  wk_stands : stands_for N kept (cache v) f (minus (fids pp f) l0 ++ fids pp f) fl ext;
  wk_nodup : NoDup l0;
  wk_path : path_to dent pp f;
  wk_node : at_node pp f cur;
  wk_sound : sound f (fs v);
  wk_reach : reach (fs v) pp = Some (ino cur);
  wk_find : supports OpFind cur = true
}.

Definition cached_tree (v : vfs F) (ext : Z -> Z) : Prop := exists f l fl, stands_for N kept (cache v) f l fl ext /\ sound f (fs v).
Definition cached_at (v : vfs F) (ext : Z -> Z) (segs : list (list Z)) (n : Z) : Prop := exists f l fl, stands_for N kept (cache v) f l fl ext /\ sound f (fs v) /\ at_node segs f n.

Lemma cached_at_tree v ext segs n : cached_at v ext segs n -> cached_tree v ext.
Proof. intros (f & l & fl & Hst & Hs & _). by exists f, l, fl. Qed.

Lemma more_one n ext x : more 1 n ext x = ext x + one (Some n) x.
Proof. unfold more, one. case_decide; case_bool_decide; simplify_eq; lia. Qed.

Lemma reach_snoc (t : F) pp nm cur : reach t pp = Some (ino cur) -> reach t (pp ++ [nm]) = child t (ino cur) nm.
Proof. intros E. unfold reach in *. rewrite walk_app, E. cbn. by destruct (child t (ino cur) nm). Qed.

Lemma sound_inserted f f' t q0 n gone : sound f t -> inserted f f' q0 n gone -> reach t q0 = Some (ino n) -> supports OpFind n = true -> sound f' t.
Proof.
  intros Hs [d Hins] Hr Hf q x [dx Hq]%fnode_get. rewrite Hins in Hq. case_decide as Hq0; [injection Hq as -> ->; by subst|]. apply Hs, fnode_get. exists dx. destruct gone as [vp|]; [by case_decide|done].
Qed.

(** A name that is cached. *)
Lemma step_cached v f l0 fl ext pp cur dent nm g d nd k c1 :
  walking v f l0 fl ext pp cur dent -> fkids dent f = Some g -> fchild nm g = Some (d, nd, k) ->
  dc_ok N c1 f (minus [d] (minus (fids pp f) l0 ++ fids pp f) ++ [d]) fl -> held kept (refs f (more 1 nd ext)) (nodes c1) ->
  walking (set_cache c1 v) f l0 fl (more 1 nd ext) (pp ++ [nm]) nd (Some d).
Proof.
  intros [[Hok _] Nl0 Hp Hat Hs Hr Hf] Hk Hc Hok1 Hh1. pose proof (ok_nodup_ids _ _ _ _ _ Hok) as Nids. pose proof (path_snoc dent pp f g nm d nd k Nids Hp Hk Hc) as Hp1. pose proof (fids_snoc pp nm f dent g d nd k Nids Hp Hk Hc) as Hf1.
  assert (d ∉ fids pp f) as Hd. { pose proof (fids_nodup N HN (pp ++ [nm]) f Nids) as Hnd. rewrite Hf1 in Hnd. apply NoDup_app in Hnd as (_ & Hnd & _). intros Hx. apply (Hnd d Hx). set_solver. }
  rewrite (minus_snoc N kept HN), <- Hf1 in Hok1 by done. assert (fget (pp ++ [nm]) f = Some (d, nd)) as Hg by (rewrite (kids_get f g dent pp Nids Hp Hk), fget_child by done; by rewrite Hc). destruct (Hs (pp ++ [nm]) nd) as [Hr1 Hf2]; [apply fnode_get; eauto|]. split; try done. by eapply at_node_some.
Qed.

(** One that is not: [find] gives the node, and it is cached. *)
Lemma step_found v f l0 fl ext pp cur dent nm n m :
  walking v f l0 fl ext pp cur dent -> name_ok nm -> fget (pp ++ [nm]) f = None -> zlen pp < N -> (forall x, 0 <= ext x <= UINT64_MAX - N - 2) -> find (fs v) cur nm (nodes (cache v)) = inr (n, m) ->
  exists d c' f' l0' fl', insert_component N kept dent nm n (set_nodes m (cache v)) = Done (Some d) c' /\ walking (set_cache c' v) f' l0' fl' (more 1 n ext) (pp ++ [nm]) n (Some d).
Proof.
  intros [[Hok Hh] Nl0 Hp Hat Hs Hr Hf] Hnm Hnew Hpp He Efind. destruct (find_yes _ _ _ _ _ _ Efind) as [Hc Hsup]. assert (held kept (refs f (more 1 n ext)) m) as Hh1.
  { eapply held_ext; [|eapply (find_refs _ _ _ _ _ _ _ Efind Hh)]; [intros x; unfold more, refs; case_decide; lia|]. unfold refs. specialize (He n). pose proof (occ_nonneg n (pnodes f)) as Ho. rewrite pnodes_length in Ho. pose proof (ok_length _ _ _ _ _ Hok). lia. }
  assert (forall x, 0 <= more 1 n ext x <= UINT64_MAX - N - 1) as He1 by (intros x; rewrite more_one; specialize (He x); pose proof (one_bounds (Some n) x); lia). assert (0 < more 1 n ext n) as Hn by (unfold more; rewrite decide_True by done; specialize (He n); lia).
  set (c1 := set_nodes m (cache v)). assert (dc_ok N c1 f (minus (fids pp f) l0 ++ fids pp f) fl) as Hok1 by (eapply only_nodes_ok; [|exact Hok]; by exists m). pose proof (walk_spares N kept HN c1 f l0 fl pp Hok1 Hpp) as Hsp.
  destruct (insert_component_ok N kept HN c1 f _ fl dent pp nm n (more 1 n ext) Hok1 Hp (name_ok_bad nm Hnm) Hh1 He1 Hn Hsp) as (d & c' & f' & l' & fl' & gone & E & Hok' & Hh' & Hins & Hgone & Hget & Hl'). destruct (Hl' Hnew) as [xs ->].
  destruct (order_snoc c' f f' l0 fl' pp nm d n xs gone Hok' Hins Hget) as (l0' & Nl0' & Hl0').
  { intros vp Hvp. destruct (Hgone vp Hvp) as (-> & _ & v0 & l1 & nd & Hl1 & Hv0). specialize (Hsp eq_refl). rewrite Hl1 in Hsp. by apply (Hsp vp nd). }
  { eauto. }
  rewrite Hl0' in Hok'. exists d, c', f', l0', fl'. split; [done|]. assert (reach (fs v) (pp ++ [nm]) = Some (ino n)) as Hr1 by (by rewrite (reach_snoc _ _ _ _ Hr)). split; try done; [by exists n|by eapply at_node_some|by eapply sound_inserted].
Qed.

Lemma walk_step_ok v f l0 fl ext pp cur dent nm :
  walking v f l0 fl ext pp cur dent -> name_ok nm -> zlen pp < N -> (forall x, 0 <= ext x <= UINT64_MAX - N - 2) ->
  exists r v', walk_step N cur dent nm v = Done r v' /\ only_cache v v' /\
    match r with
    | inl e => (healthy (fs v) -> reach (fs v) (pp ++ [nm]) = None) /\ cached_tree v' ext
    | inr (n, d) => exists f' l0' fl', walking v' f' l0' fl' (more 1 n ext) (pp ++ [nm]) n d
    end.
Proof.
  intros Hw Hnm Hpp He. pose proof Hw as [[Hok Hh] Nl0 Hp Hat Hs Hr Hf]. destruct (path_kids _ _ _ Hp) as [g Hk]. destruct (lookup_component_ok N kept HN (cache v) f _ fl dent g nm ext Hok Hk (name_ok_bad nm Hnm) Hh) as (c1 & Hc1); [intros x; specialize (He x); lia|].
  unfold walk_step. rewrite bind_run. destruct (fchild nm g) as [[[d nd] k]|] eqn:Hc; destruct Hc1 as (E1 & Hok1 & Hh1); rewrite (on_cache_run _ _ _ _ E1).
  { eexists _, _. split; [done|]. split; [done|]. exists f, l0, fl. by eapply step_cached. }
  rewrite Hf. cbn [negb]. rewrite bind_run. cbn [get]. set (v1 := set_cache c1 v). assert (walking v1 f l0 fl ext pp cur dent) as Hw1 by (by split).
  destruct (find (fs v1) cur nm (nodes (cache v1))) as [e|[n m]] eqn:Efind.
  { eexists _, _. split; [done|]. split; [done|]. split; [|by exists f, (minus (fids pp f) l0 ++ fids pp f), fl]. intros Hhl. rewrite (reach_snoc _ _ _ _ Hr). by eapply (find_no (fs v1)). }
  assert (fget (pp ++ [nm]) f = None) as Hnew by (by eapply (fresh_child N)). destruct (step_found v1 f l0 fl ext pp cur dent nm n m Hw1 Hnm Hnew Hpp He Efind) as (d & c' & f' & l0' & fl' & E & Hw').
  rewrite bind_run. cbn. rewrite bind_run, (on_cache_run _ (set_cache (set_nodes m c1) v1) _ _ E). eexists _, _. split; [done|]. split; [done|]. by exists f', l0', fl'.
Qed.

Lemma walk_names_ok names : forall v f l0 fl ext base pp cur dent,
  walking v f l0 fl ext pp cur dent -> Forall name_ok names -> zlen pp + zlen names <= N -> (forall x, 0 <= base x /\ base x + one (Some cur) x <= ext x <= UINT64_MAX - N - 2 - zlen names) ->
  exists r v' ext', walk_names N cur dent names v = Done r v' /\ only_cache v v' /\ (forall x, base x <= ext' x <= ext x + zlen names) /\
    match r with
    | inl e => cached_tree v' ext' /\ (healthy (fs v) -> reach (fs v) (pp ++ names) = None)
    | inr n => cached_at v' ext' (pp ++ names) n /\ reach (fs v) (pp ++ names) = Some (ino n) /\ supports OpFind n = true /\ forall x, base x + one (Some n) x <= ext' x
    end.
Proof.
  induction names as [|nm names IH]; intros v f l0 fl ext base pp cur dent Hw Hv Hlen He.
  - exists (inr cur), v, ext. split; [done|]. split; [apply vfs_cache_refl|]. pose proof Hw as [Hst _ _ Hat Hs Hr Hf]. rewrite app_nil_r. split_and!; try done; [..|by exists f, (minus (fids pp f) l0 ++ fids pp f), fl|]; intros x; specialize (He x); pose proof (one_bounds (Some cur) x); cbn [length] in *; lia.
  - apply Forall_cons in Hv as [Hnm Hv]. cbn [length] in *. destruct (walk_step_ok v f l0 fl ext pp cur dent nm Hw Hnm) as (r & v1 & E & Ho & Hr); [lia|intros x; specialize (He x); pose proof (one_bounds (Some cur) x); lia|]. cbn [walk_names]. rewrite bind_run, E.
    replace (pp ++ nm :: names) with ((pp ++ [nm]) ++ names) by (by rewrite <- (assoc app)). destruct r as [e|[n d]].
    + destruct Hr as [Hno Hct]. exists (inl e), v1, ext. split; [done|]. split; [done|]. split; [intros x; specialize (He x); pose proof (one_bounds (Some cur) x); lia|]. split; [done|]. intros Hh. unfold reach in *. by rewrite walk_app, (Hno Hh).
    + destruct Hr as (f' & l0' & fl' & Hw1). destruct (IH v1 f' l0' fl' (more 1 n ext) base (pp ++ [nm]) n d Hw1 Hv) as (r & v2 & ext2 & E2 & Ho2 & Hb & Hr).
      { rewrite length_app. cbn [length]. lia. }
      { intros x. rewrite more_one. specialize (He x). pose proof (one_bounds (Some cur) x). pose proof (one_bounds (Some n) x). lia. }
      exists r, v2, ext2. assert (fs v1 = fs v) as Hfs by (by rewrite Ho). rewrite Hfs in Hr. split; [done|]. split; [by eapply vfs_cache_trans|]. split; [|exact Hr]. intros x. specialize (Hb x). rewrite more_one in Hb. pose proof (one_bounds (Some n) x). lia.
Qed.
End walk.
