(* ===== verification/VfsOps.v ===== *)
(** * Opening and changing by path

    What [open], [create], [mkdir], [unlink], [rmdir] and [rename] do to the tree
    of the file system, to the cache and to the references, with one file system
    mounted at "/". *)

From Stdlib Require Import ZArith Lia.
From stdpp Require Import base tactics gmap numbers list sorting.
From S2P Require Import Prelude.
From S2P Require Import Memory.
From S2P Require Import Slices.
From S2P Require Import KErrno.
From S2P Require Import Dentry.
From S2P Require Import DentryFacts.
From S2P Require Import DentryTree.
From S2P Require Import DentryOps.
From S2P Require Import DentryPaths.
From S2P Require Import DentryProps.
From S2P Require Import KPath.
From S2P Require Import KPathFacts.
From S2P Require Import Resolve.
From S2P Require Import ResolveProps.
From S2P Require Import Vfs.
From S2P Require Import VfsFacts.

(** ** The text of a path *)

Lemma text_sub segs : Forall name_ok segs -> skip_slash (drop 1 (path_text segs)) = drop 1 (slashed segs).
Proof.
  intros Hs. destruct segs as [|s segs]; [done|]. change (drop 1 (path_text (s :: segs))) with (s ++ slashed segs). change (drop 1 (slashed (s :: segs))) with (s ++ slashed segs). apply Forall_cons in Hs as [(((Hne & Hsl) & _) & _) _].
  destruct s as [|b s]; [done|]. cbn [app skip_slash]. rewrite (proj2 (Z.eqb_neq _ _)); [done|]. intros ->. apply Hsl. set_solver.
Qed.

Lemma names_sub segs : Forall name_ok segs -> names (drop 1 (slashed segs)) = segs.
Proof.
  intros Hs. destruct segs as [|s segs]; [done|]. change (drop 1 (slashed (s :: segs))) with (s ++ slashed segs). rewrite <- names_slash. change (SLASH :: s ++ slashed segs) with (slashed (s :: segs)). by apply names_slashed, names_plain_all.
Qed.

Lemma text_length segs : Forall name_ok segs -> 1 <= zlen (path_text segs) /\ zlen segs <= zlen (path_text segs).
Proof.
  intros Hs. destruct segs as [|s segs]; [cbn; lia|]. change (path_text (s :: segs)) with (slashed (s :: segs)). assert (zlen (s :: segs) <= zlen (slashed (s :: segs))) by (clear; generalize (s :: segs); intros l; induction l as [|x l IH]; cbn [slashed length]; [lia|rewrite length_app; lia]). cbn [length] in *. lia.
Qed.

Lemma root_covers segs : covers ROOT (path_text segs) = true.
Proof. destruct segs as [|s segs]; [done|]. unfold covers. cbn. by destruct (s ++ slashed segs). Qed.

Lemma vfs_split_run {F} segs (v : vfs F) :
  Forall name_ok segs -> (length segs <= 16)%nat -> rows_ok 32 16 (components v) [] ->
  exists c, (count ← on_components (split_path (drop 1 (slashed segs)) 16); on_components (row_strs count)) v = Done segs (set_components c v) /\ rows_ok 32 16 c [].
Proof.
  intros Hs Hl Hok. assert (0 ∉ drop 1 (slashed segs)) as Hz. { pose proof (text_zero segs Hs) as Hz. destruct segs as [|s segs]; [set_solver|]. change (path_text (s :: segs)) with (SLASH :: drop 1 (slashed (s :: segs))) in Hz. set_solver. }
  destruct (split_path_ok _ 16 _ [] Hz Hok) as (c & E & Hok'). rewrite names_sub, split_ref_all in E, Hok' by (done || (eapply Forall_impl; [exact Hs|]; intros nm (? & ? & _); done)). exists c. change (Z.of_nat 16) with 16 in E. rewrite bind_run. unfold on_components, zoom. rewrite E. cbn [components set_components].
  rewrite (row_strs_ok _ _ _ _ _ Hok'), take_ge by lia. split; [done|]. apply (rows_prefix _ _ _ _ 0) in Hok'. by rewrite take_0 in Hok'.
Qed.

Section ops.
Context {F : Type} `{FSLaws F} (N : Z) (channel_room : gset Z -> bool) (rt : Z).
Hypothesis (HN : 0 <= N <= UINT64_MAX).
(** The cache has room for the names of a path. *)
Hypothesis (Hbig : 255 <= N).
(** The root of the file system is permanent. *)
Hypothesis (Hrt : ino rt = top) (Hrf : supports OpFind rt = true) (Hrk : kept rt = true).

Record vfs_ok (v : vfs F) (ext : Z -> Z) : Prop := {
  vo_cache : cached_tree N v ext;
  vo_mounts : mounts v = [(ROOT, rt)];
  vo_rows : rows_ok 32 16 (components v) [];
  vo_tree : tree_ok (fs v);
  vo_root : 0 < ext rt
}.

(** Paths that fit into the buffers of the system calls and of [open]. *)
Definition good_path (segs : list (list Z)) : Prop := Forall name_ok segs /\ (length segs <= 16)%nat /\ zlen (path_text segs) <= 255.

(** Bounds the references that an [open] takes. *)
Definition open_cost (segs : list (list Z)) : Z := 3 * zlen (path_text segs) + 1.

(** Counts of permanent nodes are free. *)
Lemma keep_more v ext : cached_tree N v ext -> 0 < ext rt -> ext rt <= UINT64_MAX - N - 1 -> cached_tree N v (more 1 rt ext).
Proof.
  intros (f & l & fl & [Hok Hh] & Hs) Hp Hb. exists f, l, fl. split; [|done]. split; [done|]. intros x. specialize (Hh x). unfold refs in *. rewrite more_one. unfold one. case_bool_decide as Hx; [injection Hx as <-|by rewrite Z.add_0_r].
  pose proof (occ_nonneg rt (pnodes f)) as Ho. rewrite pnodes_length in Ho. pose proof (ok_length _ _ _ _ _ Hok). split; [lia|]. intros _. destruct Hh as [_ (r & Hr & _)]; [lia|]. exists r. split; [done|congruence].
Qed.

Lemma best_root segs v : mounts v = [(ROOT, rt)] -> best_mount (path_text segs) (mounts (F := F) v) = Some (ROOT, rt).
Proof. intros ->. unfold best_mount. cbn [foldl fst]. by rewrite root_covers. Qed.

Lemma lookup_text segs v ext f l fl :
  good_path segs -> stands_for N kept (cache v) f l fl ext -> sound f (fs v) -> (forall x, 0 <= ext x <= UINT64_MAX - N - 1 - zlen (path_text segs)) ->
  exists c' ext', lookup N (path_text segs) (cache v) = Done (fnode segs f) c' /\ stands_for N kept c' f (touch (fids segs f) l) fl ext' /\ (forall x, ext x + one (fnode segs f) x <= ext' x <= ext x + zlen (path_text segs)).
Proof.
  intros (Hs & _) [Hok Hh] Hsd He. pose proof (dentry_lookup_ok N kept HN (path_text segs) (cache v) f l fl ext Hok Hh He) as Hl. unfold looked_up in Hl. rewrite path_names_text in Hl by done. destruct Hl as (c' & ext' & E & Hok' & Hh' & B & _).
  exists c', ext'. split; [done|]. split; [by split|done].
Qed.

Lemma insert_text segs n v ext :
  good_path segs -> cached_at N rt v ext segs n -> reach (fs v) segs = Some (ino n) -> supports OpFind n = true -> 0 < ext n -> (forall x, 0 <= ext x <= UINT64_MAX - N - 1 - zlen (path_text segs)) ->
  exists c' ext', insert N kept (path_text segs) n (cache v) = Done tt c' /\ cached_at N rt (set_cache c' v) ext' segs n /\ forall x, ext x <= ext' x <= ext x + zlen segs.
Proof.
  intros (Hs & _ & HlN) (f & l & fl & [Hok Hh] & Hsd & Hat) Hr Hf Hn He. pose proof (insert_ok N kept HN (path_text segs) n (cache v) f l fl ext Hok Hh He Hn ltac:(lia)) as Hi.
  destruct segs as [|nm ws _] using rev_ind.
  - cbn in Hi. destruct Hi as (c' & f' & l' & fl' & E & Hok' & Hh' & ->). exists c'. eexists. split; [exact E|]. split; [exists f, l', fl'; split; [by split|done]|]. intros x. unfold taken. cbn. lia.
  - rewrite insert_names_text in Hi by done. destruct Hi as (c' & f' & l' & fl' & E & Hok' & Hh' & Heff). exists c', (taken (fnds ws f) ext). split; [done|]. split; [exists f', l', fl'; split; [by split|]|].
    + cbn in Heff. destruct (cached ws f); [|by subst f']. destruct Heff as (gone & Hins & _). split; [by eapply sound_inserted|]. destruct Hins as [d Hins]. apply (at_node_some rt ws nm f' d). by rewrite Hins, decide_True.
    + intros x. pose proof (occ_room (fnds ws f) x ext). pose proof (fnds_length ws f). rewrite length_app. cbn [length]. lia.
Qed.

(** A channel for a named pipe. *)
Lemma ensure_fifo_ok n v ext :
  vfs_ok v ext -> exists r v', ensure_fifo channel_room n v = Done r v' /\ vfs_ok v' ext /\ fs v' = fs v /\ cache v' = cache v /\ (r = inr n \/ r = inl NoMem /\ is_fifo n = true).
Proof.
  intros Hv. unfold ensure_fifo. rewrite bind_run. cbn [get]. destruct (is_fifo n && negb (bool_decide (n ∈ fifos v))) eqn:E; [|eexists _, _; split; [done|]; by auto]. apply andb_true_iff in E as [E _]. destruct (channel_room (fifos v)); [|eexists _, _; split; [done|]; by auto 6].
  eexists _, _. split; [done|]. destruct Hv as [H1 H2 H3 H4 H5]. split; [by split|]. by auto.
Qed.

Lemma vfs_ok_cache v c ext ext' : vfs_ok v ext -> cached_tree N (set_cache c v) ext' -> (forall x, ext x <= ext' x) -> vfs_ok (set_cache c v) ext'.
Proof. intros [H1 H2 H3 H4 H5] Hc He. specialize (He rt). split; try done. lia. Qed.

(** The node of a path, with a reference for the caller. *)
Definition opened (t : F) (segs : list (list Z)) (ext ext' : Z -> Z) (r : error + Z) : Prop :=
  match r with
  | inl e => (healthy t -> reach t segs = None \/ e = NoMem /\ exists n, reach t segs = Some (ino n) /\ is_fifo n = true) /\ forall x, ext x <= ext' x
  | inr n => reach t segs = Some (ino n) /\ forall x, ext x + one (Some n) x <= ext' x
  end.

Lemma opened_fifo t segs n (r : error + Z) ext ext' :
  reach t segs = Some (ino n) -> (r = inr n \/ r = inl NoMem /\ is_fifo n = true) -> (forall x, ext x + one (Some n) x <= ext' x) -> opened t segs ext ext' r.
Proof.
  intros Hn [->|[-> Hf]] He; cbn; [done|]. split; [eauto 6|]. intros x. specialize (He x). pose proof (one_bounds (Some n) x). lia.
Qed.

(** The path is cached. *)
Lemma open_hit v ext segs f l fl n :
  vfs_ok v ext -> stands_for N kept (cache v) f l fl ext -> sound f (fs v) -> fnode segs f = Some n -> good_path segs -> (forall x, 0 <= ext x <= UINT64_MAX - N - 2 - open_cost segs) ->
  exists r v' ext', vfs_open N channel_room (path_text segs) v = Done r v' /\ vfs_ok v' ext' /\ fs v' = fs v /\ (forall x, ext' x <= ext x + open_cost segs) /\ opened (fs v) segs ext ext' r /\
    (r = inr n \/ r = inl NoMem) /\ cached_at N rt v' ext' segs n.
Proof.
  intros Hv Hst Hsd Hfn Hg He. pose proof Hg as (Hs & H16 & _). destruct (text_length segs Hs) as [Hl1 Hl2]. unfold open_cost in *. unfold vfs_open. rewrite bool_decide_false by (intros E; rewrite E in Hl1; cbn in Hl1; lia).
  destruct (lookup_text segs v ext f l fl Hg Hst Hsd) as (c1 & ext1 & E1 & Hst1 & B1); [intros x; specialize (He x); lia|]. rewrite bind_run, (on_cache_run _ _ _ _ E1). rewrite Hfn in *.
  assert (cached_tree N (set_cache c1 v) ext1) as Hc1 by (by exists f, (touch (fids segs f) l), fl). assert (vfs_ok (set_cache c1 v) ext1) as Hv1 by (eapply vfs_ok_cache; [exact Hv|done|]; intros x; specialize (B1 x); pose proof (one_bounds (Some n) x); lia).
  destruct (ensure_fifo_ok n _ _ Hv1) as (r & v' & E & Hv' & Hfs & Hca & Hrn). exists r, v', ext1. split; [done|]. split; [done|]. split; [by rewrite Hfs|]. split; [intros x; specialize (B1 x); lia|]. destruct (Hsd segs n Hfn) as [Hrn' _]. split; [apply (opened_fifo _ _ n); try done; intros x; specialize (B1 x); lia|].
  split; [naive_solver|]. exists f, (touch (fids segs f) l), fl. rewrite Hca, Hfs. split; [done|]. split; [done|]. destruct segs; [by unfold fnode in Hfn; rewrite fget_nil in Hfn|done].
Qed.

Lemma vfs_open_ok v ext segs :
  vfs_ok v ext -> good_path segs -> (forall x, 0 <= ext x <= UINT64_MAX - N - 2 - open_cost segs) ->
  exists r v' ext', vfs_open N channel_room (path_text segs) v = Done r v' /\ vfs_ok v' ext' /\ fs v' = fs v /\ (forall x, ext' x <= ext x + open_cost segs) /\ opened (fs v) segs ext ext' r /\ forall n, r = inr n -> cached_at N rt v' ext' segs n.
Proof.
  intros Hv Hg He. destruct (vo_cache _ _ Hv) as (f0 & l0 & fl0 & Hst0 & Hsd0). destruct (fnode segs f0) as [n|] eqn:Hfn.
  { destruct (open_hit v ext segs f0 l0 fl0 n Hv Hst0 Hsd0 Hfn Hg He) as (r & v' & ext' & E & Hv' & Hfs & B & Ho & Hr & Hat). exists r, v', ext'. split_and!; try done. intros n' ->. by destruct Hr as [[= ->]|]. }
  pose proof Hg as (Hs & H16 & _). destruct (text_length segs Hs) as [Hl1 Hl2]. unfold open_cost in *. unfold vfs_open. rewrite bool_decide_false by (intros E; rewrite E in Hl1; cbn in Hl1; lia).
  destruct (lookup_text segs v ext f0 l0 fl0 Hg Hst0 Hsd0) as (c1 & ext1 & E1 & Hst1 & B1); [intros x; specialize (He x); lia|]. rewrite bind_run, (on_cache_run _ _ _ _ E1). rewrite Hfn in *. assert (forall x, ext x <= ext1 x) as Hmono1 by (intros x; specialize (B1 x); rewrite one_none in B1; lia).
  assert (cached_tree N (set_cache c1 v) ext1) as Hc1 by (by exists f0, (touch (fids segs f0) l0), fl0). pose proof (vfs_ok_cache v c1 ext ext1 Hv Hc1 Hmono1) as Hv1.
  set (v1 := set_cache c1 v) in *. rewrite bind_run. cbn [get]. rewrite (best_root segs v1) by apply Hv1. cbn [length ROOT]. rewrite text_sub by done. rewrite Hrf. cbn [negb].
  destruct (vfs_split_run segs v1 Hs H16 (vo_rows _ _ Hv1)) as (c2 & E2 & Hok2). rewrite bind_run in E2. rewrite bind_run. destruct (on_components (split_path (drop 1 (slashed segs)) 16) v1) as [count vx| |]; try done. rewrite bind_run, E2. set (v2 := set_components c2 v1).
  assert (forall x, ext1 x <= UINT64_MAX - N - 2 - 2 * zlen (path_text segs) - 1) as B1' by (intros x; specialize (B1 x); specialize (He x); lia). assert (vfs_ok v2 ext1) as Hv2 by (destruct Hv1; by split).
  destruct (keep_more v2 ext1 (vo_cache _ _ Hv2) (vo_root _ _ Hv2)) as (f & l & fl & Hst & Hsd); [specialize (B1' rt); lia|].
  assert (walking N rt v2 f l fl (more 1 rt ext1) [] rt None) as Hw. { split; try done; [|eapply ok_nodup_lru, Hst|by cbn; rewrite Hrt]. cbn [fids]. rewrite minus_none, app_nil_r by set_solver. done. }
  destruct (walk_names_ok N rt HN segs v2 f l fl (more 1 rt ext1) ext1 [] rt None Hw Hs) as (r & v3 & ext3 & E3 & Ho3 & B3 & Hr3); [cbn [length]; destruct Hg; lia| |].
  { intros x. rewrite more_one. specialize (B1' x). specialize (B1 x). specialize (He x). rewrite one_none in B1. pose proof (one_bounds (Some rt) x). lia. }
  rewrite bind_run, E3. cbn [app] in Hr3. assert (cached_tree N v3 ext3) as Hct3 by (destruct r; [by destruct Hr3|destruct Hr3 as [Hat _]; by eapply cached_at_tree]). assert (vfs_ok v3 ext3) as Hv3. { rewrite Ho3. rewrite Ho3 in Hct3. eapply vfs_ok_cache; [exact Hv2|done|]. intros x. specialize (B3 x). lia. } assert (fs v3 = fs v) as Hfs3 by (by rewrite Ho3).
  assert (forall x, ext3 x <= ext1 x + 1 + zlen (path_text segs)) as B3'. { intros x. specialize (B3 x). rewrite more_one in B3. pose proof (one_bounds (Some rt) x). lia. } destruct r as [e|n].
  { exists (inl e), v3, ext3. split; [done|]. split; [done|]. split; [done|]. split; [intros x; specialize (B3' x); specialize (B1 x); lia|]. split; [|done]. split; [intros Hh; left; by apply Hr3|]. intros x. specialize (B3 x). specialize (Hmono1 x). lia. }
  destruct Hr3 as (Hat3 & Hrn & Hfn' & Bn). assert (0 < ext3 n) as Hn3. { specialize (Bn n). specialize (Hmono1 n). specialize (He n). unfold one in Bn. rewrite bool_decide_true in Bn by done. lia. }
  destruct (insert_text segs n v3 ext3 Hg Hat3) as (c4 & ext4 & E4 & Hat4 & B4); [by rewrite Hfs3|done|done| |].
  { intros x. specialize (B3 x). specialize (B3' x). specialize (B1' x). specialize (Hmono1 x). specialize (He x). lia. }
  rewrite bind_run, (on_cache_run _ _ _ _ E4). assert (vfs_ok (set_cache c4 v3) ext4) as Hv4 by (eapply vfs_ok_cache; [exact Hv3|by eapply cached_at_tree|]; intros x; specialize (B4 x); lia). destruct (ensure_fifo_ok n _ _ Hv4) as (r & v' & E & Hv' & Hfs & Hca & Hrr).
  exists r, v', ext4. split; [done|]. split; [done|]. split; [by rewrite Hfs|]. split; [intros x; specialize (B4 x); specialize (B3' x); specialize (B1 x); lia|]. split; [apply (opened_fifo _ _ n); try done; intros x; specialize (B4 x); specialize (Bn x); specialize (Hmono1 x); lia|].
  intros n' ->. assert (n' = n) as -> by (destruct Hrr as [|[? _]]; congruence). destruct Hat4 as (f4 & l4 & fl4 & Hst4 & Hsd4 & Ha4). exists f4, l4, fl4. by rewrite Hca, Hfs.
Qed.

(** A path that is cached is opened again as the same node. *)
Lemma vfs_reopen_ok v ext segs n :
  vfs_ok v ext -> cached_at N rt v ext segs n -> good_path segs -> (forall x, 0 <= ext x <= UINT64_MAX - N - 2 - open_cost segs) ->
  exists r v' ext', vfs_open N channel_room (path_text segs) v = Done r v' /\ vfs_ok v' ext' /\ fs v' = fs v /\ (forall x, ext' x <= ext x + open_cost segs) /\ opened (fs v) segs ext ext' r /\ (r = inr n \/ exists e, r = inl e).
Proof.
  intros Hv (f & l & fl & Hst & Hsd & Hat) Hg He. destruct (decide (segs = [])) as [->|Hne].
  - destruct (vfs_open_ok v ext [] Hv Hg He) as (r & v' & ext' & E & Hv' & Hfs & B & Ho & Hr). exists r, v', ext'. split_and!; try done. destruct r as [e|n']; [right; by exists e|]. destruct (Hr n' eq_refl) as (f' & l' & fl' & _ & _ & Hn'). left. cbn in Hat, Hn'. congruence.
  - destruct (open_hit v ext segs f l fl n Hv Hst Hsd) as (r & v' & ext' & E & Hv' & Hfs & B & Ho & Hr & _); [by destruct segs|done|done|]. exists r, v', ext'. split_and!; try done. destruct Hr as [|]; eauto.
Qed.

(** ** Closing *)

Lemma close_node_ok d v ext base :
  vfs_ok v ext -> (forall x, 0 <= base x /\ base x + one (Some d) x <= ext x) -> 0 < base rt ->
  exists c', vfs_close kept d (cache v) = Done tt c' /\ vfs_ok (set_cache c' v) (more (-1) d ext) /\ forall x, base x <= more (-1) d ext x <= ext x.
Proof.
  intros [(f & l & fl & [Hok Hh] & Hsd) H2 H3 H4 H5] Hb Hbr. pose proof (Hb d) as Hd. unfold one in Hd. rewrite bool_decide_true in Hd by done. pose proof (occ_nonneg d (pnodes f)). destruct (close_ok kept d (refs f ext) (cache v) Hh) as (c' & E & Hh' & O); [unfold refs; lia|].
  assert (forall x, base x <= more (-1) d ext x <= ext x) as Hx. { intros x. specialize (Hb x). unfold more, one in *. destruct (decide (x = d)) as [->|Hne]; [rewrite bool_decide_true in Hb by done|rewrite bool_decide_false in Hb by congruence]; lia. }
  exists c'. split; [done|]. split; [|done]. split; try done; [|specialize (Hx rt); lia]. exists f, l, fl. split; [|done]. split; [by eapply only_nodes_ok|]. eapply held_ext; [|exact Hh']. intros x. unfold more, refs. case_decide; lia.
Qed.

(** ** Changes *)

Definition good_entry (ps : list (list Z)) (nm : list Z) : Prop := Forall name_ok (ps ++ [nm]) /\ (length ps < 16)%nat /\ zlen (slashed ps) <= 127.

(** Nothing that [open] gives. *)
Definition no_dir (t : F) (ps : list (list Z)) : Prop := reach t ps = None \/ exists n, reach t ps = Some (ino n) /\ is_fifo n = true.

Lemma entry_parent ps nm : good_entry ps nm -> good_path ps.
Proof.
  intros (Hs & H16 & H127). apply Forall_app in Hs as [Hs _]. split; [done|]. split; [lia|]. destruct ps as [|p ps]; [cbn; lia|]. change (path_text (p :: ps)) with (slashed (p :: ps)). lia.
Qed.

(** The parent, with a reference, or nothing. *)
Definition parent_opened (t : F) (ps : list (list Z)) (nm : list Z) (ext ext' : Z -> Z) (r : option (Z * list Z)) : Prop :=
  match r with
  | None => (healthy t -> no_dir t ps) /\ forall x, ext x <= ext' x
  | Some (d, x) => x = nm /\ reach t ps = Some (ino d) /\ forall x, ext x + one (Some d) x <= ext' x
  end.

Lemma parent_grows t ps nm ext ext' r : parent_opened t ps nm ext ext' r -> forall x, ext x <= ext' x.
Proof. destruct r as [[d y]|]; [|by intros [_ ?]]. intros (_ & _ & He) x. specialize (He x). pose proof (one_bounds (Some d) x). lia. Qed.

Lemma open_parent_run (P : error + Z -> vfs F -> (Z -> Z) -> Prop) v ext ps nm :
  vfs_ok v ext -> good_entry ps nm ->
  (forall c, vfs_ok (set_components c v) ext -> exists r v' ext', vfs_open N channel_room (path_text ps) (set_components c v) = Done r v' /\ vfs_ok v' ext' /\ fs v' = fs v /\ (forall x, ext' x <= ext x + open_cost ps) /\ opened (fs v) ps ext ext' r /\ P r v' ext') ->
  exists r v' ext', open_parent N channel_room (path_text (ps ++ [nm])) v = Done r v' /\ vfs_ok v' ext' /\ fs v' = fs v /\ (forall x, ext' x <= ext x + open_cost ps) /\ parent_opened (fs v) ps nm ext ext' r /\ forall d x, r = Some (d, x) -> P (inr d) v' ext'.
Proof.
  intros Hv (Hs & H16 & H127) Hopen. assert (path_text (ps ++ [nm]) = slashed (ps ++ [nm])) as -> by (by destruct ps). destruct (resolve_parent_splits ps nm (components v) Hs H16 (vo_rows _ _ Hv) H127) as (c & E & Hok).
  unfold open_parent. rewrite bind_run. unfold on_components, zoom. rewrite E. apply (rows_prefix _ _ _ _ 0) in Hok. rewrite take_0 in Hok. destruct (Hopen c) as (r & v' & ext' & E' & Hv' & Hfs & B & Hr & HP); [destruct Hv; by split|]. rewrite bind_run, E'.
  destruct r as [e|d]; (eexists _, v', ext'; split; [done|]; split; [done|]; split; [done|]; split; [done|]); destruct Hr as [Hr Bn]; split; try done; [|by intros d' x [= <- _]]. split; [|done]. intros Hh. destruct (Hr Hh) as [Hr'|[_ Hr']]; [by left|by right].
Qed.

Lemma open_parent_ok v ext ps nm :
  vfs_ok v ext -> good_entry ps nm -> (forall x, 0 <= ext x <= UINT64_MAX - N - 2 - open_cost ps) ->
  exists r v' ext', open_parent N channel_room (path_text (ps ++ [nm])) v = Done r v' /\ vfs_ok v' ext' /\ fs v' = fs v /\ (forall x, ext' x <= ext x + open_cost ps) /\ parent_opened (fs v) ps nm ext ext' r /\ forall d x, r = Some (d, x) -> cached_at N rt v' ext' ps d.
Proof.
  intros Hv Hg He. destruct (open_parent_run (fun r v' ext' => forall n, r = inr n -> cached_at N rt v' ext' ps n) v ext ps nm Hv Hg) as (r & v' & ext' & E & Hv' & Hfs & B & Hr & Hat).
  - intros c Hc. apply (vfs_open_ok _ ext ps Hc (entry_parent ps nm Hg) He).
  - exists r, v', ext'. split_and!; try done. intros d x Hd. by eapply Hat.
Qed.

Lemma open_parent_again v ext ps nm n :
  vfs_ok v ext -> cached_at N rt v ext ps n -> good_entry ps nm -> (forall x, 0 <= ext x <= UINT64_MAX - N - 2 - open_cost ps) ->
  exists r v' ext', open_parent N channel_room (path_text (ps ++ [nm])) v = Done r v' /\ vfs_ok v' ext' /\ fs v' = fs v /\ (forall x, ext' x <= ext x + open_cost ps) /\ parent_opened (fs v) ps nm ext ext' r /\ forall d x, r = Some (d, x) -> d = n.
Proof.
  intros Hv Hat Hg He. destruct (open_parent_run (fun r v' ext' => r = inr n \/ exists e, r = inl e) v ext ps nm Hv Hg) as (r & v' & ext' & E & Hv' & Hfs & B & Hr & Hd).
  - intros c Hc. apply (vfs_reopen_ok _ ext ps n Hc Hat (entry_parent ps nm Hg) He).
  - exists r, v', ext'. split_and!; try done. intros d x Hx. destruct (Hd d x Hx) as [[= ->]|[e He']]; [done|done].
Qed.

Lemma invalidate_text segs c f l fl ext :
  Forall name_ok segs -> segs <> [] -> stands_for N kept c f l fl ext -> (forall x, 0 <= ext x) ->
  exists c' f' l' fl', invalidate N kept (path_text segs) c = Done tt c' /\ stands_for N kept c' f' l' fl' ext /\ without f f' segs.
Proof.
  intros Hs Hne [Hok Hh] He. pose proof (invalidate_ok N kept HN (path_text segs) c f l fl ext Hok Hh He) as Hi. rewrite path_names_text, bool_decide_false in Hi by done. destruct Hi as (c' & f' & l' & fl' & E & Hok' & Hh' & Hw). exists c', f', l', fl'. split; [done|]. split; [by split|done].
Qed.

(** What is cached is right again when the entries that changed are gone. *)
Lemma sound_change f f' t t' ps dir names :
  sound f t -> reach t ps = Some dir -> local_change (child t) (child t') top dir names ->
  (forall q y, fget q f' = Some y -> fget q f = Some y /\ forall nm, nm ∈ names -> ~ ps ++ [nm] `prefix_of` q) -> sound f' t'.
Proof.
  intros Hsd Hr [Hone Hsame] Hf q n [d [Hq Hno]%Hf]%fnode_get. destruct (Hsd q n) as [Hrq Hsup]; [apply fnode_get; eauto|]. split; [|done]. unfold reach in *. rewrite Hsame; [done|]. intros p nm Hp Hnm. rewrite (Hone p ps Hp Hr). by apply Hno.
Qed.

(** What a change does to the tree, and when it fails. *)
Definition changed (op : node_op) (act : F -> Z -> list Z -> error + F) (t : F) (ps : list (list Z)) (nm : list Z) (r : error + unit) (t' : F) : Prop :=
  match r with
  | inr _ => exists d, reach t ps = Some (ino d) /\ read_only d = false /\ supports op d = true /\ act t d nm = inr t'
  | inl e => t' = t /\ (e = NoEnt /\ (healthy t -> no_dir t ps) \/ exists d, reach t ps = Some (ino d) /\ (read_only d = true /\ e = RoFs \/ supports op d = false /\ e = NoSys \/ act t d nm = inl e))
  end.

Lemma change_ok op act v ext ps nm :
  vfs_ok v ext -> good_entry ps nm -> (forall x, 0 <= ext x <= UINT64_MAX - N - 2 - open_cost ps) ->
  (forall t d t', tree_ok t -> (exists q, reach t q = Some (ino d)) -> act t d nm = inr t' -> tree_ok t' /\ local_change (child t) (child t') top (ino d) [nm]) ->
  exists r v' ext', change N channel_room op act (invalidate N kept) (path_text (ps ++ [nm])) v = Done r v' /\ vfs_ok v' ext' /\ (forall x, ext x <= ext' x <= ext x + open_cost ps) /\ changed op act (fs v) ps nm r (fs v').
Proof.
  intros Hv Hg He Hact. destruct (open_parent_ok v ext ps nm Hv Hg He) as (r & v1 & ext1 & E1 & Hv1 & Hfs1 & B1 & Hr & _). pose proof (parent_grows _ _ _ _ _ _ Hr) as Hmono. unfold change. rewrite bind_run, E1. destruct r as [[d x]|].
  2: { exists (inl NoEnt), v1, ext1. split; [done|]. split; [done|]. split; [done|]. split; [done|]. left. by destruct Hr. }
  destruct Hr as (-> & Hr & Bd). destruct (close_node_ok d v1 ext1 ext Hv1) as (c2 & E2 & Hv2 & B2); [intros x; specialize (He x); specialize (Bd x); lia|apply Hv|]. assert (forall x, ext x <= more (-1) d ext1 x <= ext x + open_cost ps) as B by (intros x; specialize (B1 x); specialize (B2 x); lia).
  assert (forall e, changed op act (fs v) ps nm (inl e) (fs v) -> exists r v' ext', (_ ← vfs_close_node d; mret (inl e)) v1 = Done r v' /\ vfs_ok v' ext' /\ (forall x, ext x <= ext' x <= ext x + open_cost ps) /\ changed op act (fs v) ps nm r (fs v')) as Hfail.
  { intros e Hc. exists (inl e), (set_cache c2 v1), (more (-1) d ext1). unfold vfs_close_node. rewrite bind_run, (on_cache_run _ _ _ _ E2). cbn [fs set_cache]. by rewrite Hfs1. }
  destruct (read_only d) eqn:Ero; [apply Hfail; cbn; eauto 8|]. destruct (supports op d) eqn:Esup; cbn [negb]; [|apply Hfail; cbn; eauto 8]. rewrite bind_run. cbn [get]. rewrite Hfs1. destruct (act (fs v) d nm) as [e|t'] eqn:Eact; [apply Hfail; cbn; eauto 8|].
  destruct (Hact _ _ _ (vo_tree _ _ Hv) (ex_intro _ ps Hr) Eact) as [Ht' Hloc]. destruct (vo_cache _ _ Hv2) as (f & l & fl & Hst & Hsd). cbn [cache set_cache fs] in Hst, Hsd. rewrite Hfs1 in Hsd. pose proof Hg as (Hs & _ & _).
  destruct (invalidate_text (ps ++ [nm]) c2 f l fl _ Hs ltac:(by destruct ps) Hst) as (c3 & f3 & l3 & fl3 & E3 & Hst3 & Hw3); [intros x; specialize (B x); specialize (He x); lia|].
  rewrite bind_run. cbn [modify]. rewrite bind_run. unfold vfs_close_node. rewrite (on_cache_run _ (set_fs t' v1) _ _ E2), bind_run, (on_cache_run _ (set_cache c2 (set_fs t' v1)) _ _ E3). eexists _, _, (more (-1) d ext1). split; [done|]. split; [|split; [done|by exists d]].
  destruct Hv2 as [_ M2 M3 _ M5]. split; try done. exists f3, l3, fl3. split; [done|]. eapply (sound_change f f3 (fs v) t' ps (ino d) [nm]); [done..|]. intros q y Hq. rewrite Hw3 in Hq. case_decide as Hpre; [done|]. split; [done|]. intros x ->%list_elem_of_singleton. done.
Qed.

(** The same for [rename], which knows one directory only. *)
Definition renamed (t : F) (ps : list (list Z)) (nm : list Z) (ps' : list (list Z)) (nm' : list Z) (r : error + unit) (t' : F) : Prop :=
  match r with
  | inr _ => exists d, reach t ps = Some (ino d) /\ reach t ps' = Some (ino d) /\ read_only d = false /\ supports OpRename d = true /\ fs_rename t d nm d nm' = inr t'
  | inl e => t' = t /\ (e = NoEnt /\ (healthy t -> no_dir t ps \/ no_dir t ps') \/
      exists d d', reach t ps = Some (ino d) /\ reach t ps' = Some (ino d') /\
        (read_only d = true /\ e = RoFs \/ ps <> ps' /\ e = XDev \/ supports OpRename d = false /\ e = NoSys \/ d = d' /\ fs_rename t d nm d nm' = inl e))
  end.

(** Both parents are open. *)
Lemma open_both v ext ps nm ps' nm' :
  vfs_ok v ext -> good_entry ps nm -> good_entry ps' nm' -> (forall x, 0 <= ext x <= UINT64_MAX - N - 2 - (open_cost ps + open_cost ps')) ->
  exists r v1 ext1, open_parent N channel_room (path_text (ps ++ [nm])) v = Done r v1 /\ vfs_ok v1 ext1 /\ fs v1 = fs v /\ (forall x, ext1 x <= ext x + open_cost ps) /\ parent_opened (fs v) ps nm ext ext1 r /\
    forall d x, r = Some (d, x) -> exists r' v2 ext2, open_parent N channel_room (path_text (ps' ++ [nm'])) v1 = Done r' v2 /\ vfs_ok v2 ext2 /\ fs v2 = fs v /\
      (forall x, ext2 x <= ext x + (open_cost ps + open_cost ps')) /\ parent_opened (fs v) ps' nm' ext1 ext2 r' /\ forall d' x', r' = Some (d', x') -> ps = ps' -> d' = d.
Proof.
  intros Hv Hg Hg' He. assert (forall q, 0 <= open_cost q) as Hpos by (intros q; unfold open_cost; lia). pose proof (Hpos ps). pose proof (Hpos ps').
  destruct (open_parent_ok v ext ps nm Hv Hg) as (r & v1 & ext1 & E1 & Hv1 & Hfs1 & B1 & Hr & Hat); [intros x; specialize (He x); lia|]. exists r, v1, ext1. split_and!; try done. intros d x ->. pose proof (parent_grows _ _ _ _ _ _ Hr) as Hmono.
  assert (forall x, 0 <= ext1 x <= UINT64_MAX - N - 2 - open_cost ps') as He1 by (intros y; specialize (He y); specialize (B1 y); specialize (Hmono y); lia). rewrite <- Hfs1. destruct (decide (ps = ps')) as [<-|Hne].
  - destruct (open_parent_again v1 ext1 ps nm' d Hv1 (Hat d x eq_refl) Hg' He1) as (r' & v2 & ext2 & E2 & Hv2 & Hfs2 & B2 & Hr' & Hd). exists r', v2, ext2. split_and!; try done; [intros y; specialize (B1 y); specialize (B2 y); lia|]. intros d' x' Hx' _. by eapply Hd.
  - destruct (open_parent_ok v1 ext1 ps' nm' Hv1 Hg' He1) as (r' & v2 & ext2 & E2 & Hv2 & Hfs2 & B2 & Hr' & _). exists r', v2, ext2. split_and!; try done. intros y. specialize (B1 y). specialize (B2 y). lia.
Qed.

Lemma close_both_ok d d' v ext base :
  vfs_ok v ext -> (forall x, 0 <= base x /\ base x + one (Some d) x + one (Some d') x <= ext x) -> 0 < base rt ->
  exists c' ext', (forall t', (_ ← vfs_close_node d; vfs_close_node d') (set_fs t' v) = Done tt (set_cache c' (set_fs t' v))) /\ vfs_ok (set_cache c' v) ext' /\ forall x, base x <= ext' x <= ext x.
Proof.
  intros Hv Hb Hbr. destruct (close_node_ok d v ext (more 1 d' base) Hv) as (c1 & E1 & Hv1 & B1).
  { intros x. rewrite more_one. specialize (Hb x). pose proof (one_bounds (Some d') x). lia. }
  { rewrite more_one. pose proof (one_bounds (Some d') rt). lia. }
  destruct (close_node_ok d' (set_cache c1 v) _ base Hv1) as (c2 & E2 & Hv2 & B2); [intros x; specialize (B1 x); rewrite more_one in B1; specialize (Hb x); lia|done|].
  exists c2, (more (-1) d' (more (-1) d ext)). split; [|split; [done|intros x; specialize (B1 x); specialize (B2 x); lia]]. intros t'. unfold vfs_close_node. by rewrite bind_run, (on_cache_run _ (set_fs t' v) _ _ E1), (on_cache_run _ (set_cache c1 (set_fs t' v)) _ _ E2).
Qed.

Lemma set_fs_same (v : vfs F) : set_fs (fs v) v = v.
Proof. by destruct v. Qed.

Lemma rename_ok v ext ps nm ps' nm' :
  vfs_ok v ext -> good_entry ps nm -> good_entry ps' nm' -> (forall x, 0 <= ext x <= UINT64_MAX - N - 2 - (open_cost ps + open_cost ps')) ->
  exists r v' ext', vfs_rename N channel_room (path_text (ps ++ [nm])) (path_text (ps' ++ [nm'])) v = Done r v' /\ vfs_ok v' ext' /\ (forall x, ext x <= ext' x <= ext x + (open_cost ps + open_cost ps')) /\ renamed (fs v) ps nm ps' nm' r (fs v').
Proof.
  intros Hv Hg Hg' He. assert (forall q, 0 <= open_cost q) as Hpos by (intros q; unfold open_cost; lia). pose proof (Hpos ps). pose proof (Hpos ps'). destruct (open_both v ext ps nm ps' nm' Hv Hg Hg' He) as (r & v1 & ext1 & E1 & Hv1 & Hfs1 & B1 & Hr & Hnext). pose proof (parent_grows _ _ _ _ _ _ Hr) as Hmono1.
  unfold vfs_rename. rewrite bind_run, E1. destruct r as [[d x]|].
  2: { exists (inl NoEnt), v1, ext1. split_and!; try done; [intros x; specialize (B1 x); specialize (Hmono1 x); lia|]. split; [done|]. left. split; [done|]. destruct Hr as [Hr _]. auto. }
  destruct Hr as (-> & Hr & Bd). destruct (Hnext d nm eq_refl) as (r' & v2 & ext2 & E2 & Hv2 & Hfs2 & B2 & Hr' & Hsame). pose proof (parent_grows _ _ _ _ _ _ Hr') as Hmono2. rewrite bind_run, E2. destruct r' as [[d' x']|].
  2: { destruct (close_node_ok d v2 ext2 ext Hv2) as (c3 & E3 & Hv3 & B3); [intros x; specialize (He x); specialize (Bd x); specialize (Hmono2 x); lia|apply Hv|]. exists (inl NoEnt), (set_cache c3 v2), (more (-1) d ext2). unfold vfs_close_node. rewrite bind_run, (on_cache_run _ _ _ _ E3).
       split_and!; try done; [intros x; specialize (B2 x); specialize (B3 x); lia|]. split; [done|]. left. split; [done|]. destruct Hr' as [Hr' _]. auto. }
  destruct Hr' as (-> & Hr' & Bd'). destruct (close_both_ok d d' v2 ext2 ext Hv2) as (c3 & ext3 & E3 & Hv3 & B3); [intros x; specialize (He x); specialize (Bd x); specialize (Bd' x); lia|apply Hv|]. assert (forall x, ext x <= ext3 x <= ext x + (open_cost ps + open_cost ps')) as B by (intros x; specialize (B2 x); specialize (B3 x); lia).
  assert (forall e, renamed (fs v) ps nm ps' nm' (inl e) (fs v) -> exists r v' ext', (_ ← (_ ← vfs_close_node d; vfs_close_node d'); mret (inl e)) v2 = Done r v' /\ vfs_ok v' ext' /\ (forall x, ext x <= ext' x <= ext x + (open_cost ps + open_cost ps')) /\ renamed (fs v) ps nm ps' nm' r (fs v')) as Hfail.
  { intros e Hc. exists (inl e), (set_cache c3 v2), ext3. specialize (E3 (fs v2)). rewrite set_fs_same in E3. rewrite bind_run, E3. cbn [fs set_cache]. by rewrite Hfs2. }
  cbv zeta. destruct (read_only d) eqn:Ero; [apply Hfail; cbn; eauto 10|]. destruct (Z.eqb_spec d d') as [<-|Hdd]; cbn [negb].
  2: { apply Hfail. cbn. split; [done|]. right. exists d, d'. split; [done|]. split; [done|]. right. left. split; [|done]. intros Hps. destruct Hdd. symmetry. by eapply Hsame. }
  destruct (supports OpRename d) eqn:Esup; cbn [negb]; [|apply Hfail; cbn; eauto 12]. rewrite bind_run. cbn [get]. rewrite Hfs2. destruct (fs_rename (fs v) d nm d nm') as [e|t'] eqn:Eact; [apply Hfail; cbn; split; [done|]; right; exists d, d; eauto 12|].
  destruct (rename_local _ _ _ _ _ (vo_tree _ _ Hv) (ex_intro _ ps Hr) Eact) as [Ht' Hloc]. assert (ps' = ps) as -> by (by apply (proj1 Hloc)). destruct (vo_cache _ _ Hv3) as (f & l & fl & Hst & Hsd). cbn [cache set_cache fs] in Hst, Hsd. rewrite Hfs2 in Hsd. pose proof Hg as (Hs & _ & _). pose proof Hg' as (Hs' & _ & _).
  assert (forall x, 0 <= ext3 x) as He3 by (intros x; specialize (B x); specialize (He x); lia). destruct (invalidate_text (ps ++ [nm]) c3 f l fl ext3 Hs ltac:(by destruct ps) Hst He3) as (c4 & f4 & l4 & fl4 & E4 & Hst4 & Hw4).
  destruct (invalidate_text (ps ++ [nm']) c4 f4 l4 fl4 ext3 Hs' ltac:(by destruct ps) Hst4 He3) as (c5 & f5 & l5 & fl5 & E5 & Hst5 & Hw5).
  rewrite bind_run. cbn [modify]. rewrite bind_run, (E3 t'), bind_run. unfold invalidate_prefix. rewrite (on_cache_run _ (set_cache c3 (set_fs t' v2)) _ _ E4), bind_run, (on_cache_run _ (set_cache c4 (set_cache c3 (set_fs t' v2))) _ _ E5). eexists _, _, ext3. split; [done|]. split; [|split; [done|by exists d]].
  destruct Hv3 as [_ M2 M3 _ M5]. split; try done. exists f5, l5, fl5. split; [done|]. eapply (sound_change f f5 (fs v) t' ps (ino d) [nm; nm']); [done..|]. intros q y Hq. rewrite Hw5 in Hq. case_decide as Hp5; [done|]. rewrite Hw4 in Hq. case_decide as Hp4; [done|]. split; [done|]. set_solver.
Qed.
End ops.
