(* ===== verification/PathFs.v ===== *)
(** * A file system that keeps the laws

    Nodes are made by [find], one for each call, and hold their path, as those of
    filesystem/fat32/fat32_vfs_adapter.cpp do; directories and files are a table
    of paths. The laws of [FSLaws] can hold: this is a file system for which they
    are proved. *)

From Stdlib Require Import ZArith Lia.
From stdpp Require Import base tactics gmap numbers list countable infinite.
From S2P Require Import Prelude.
From S2P Require Import Memory.
From S2P Require Import KErrno.
From S2P Require Import Dentry.
From S2P Require Import DentryOps.
From S2P Require Import Vfs.
From S2P Require Import VfsFacts.

Notation segs := (list (list Z)).

(** Whether a path is a directory. *)
Record pathfs := PathFs { entries : gmap segs bool }.

(** The path of a node, and a number that tells its nodes apart. *)
Definition node_at (p : segs) (k : N) : Z := Z.pos (encode (p, k)).
Definition node_key (n : Z) : segs * N := default ([], 0%N) (decode (Z.to_pos n)).

Lemma node_key_at p k : node_key (node_at p k) = (p, k).
Proof. unfold node_key, node_at. by rewrite Pos2Z.id, decode_encode. Qed.

Definition fresh_key (m : gmap Z Z) : N := fresh ((fun x => snd (node_key (fst x))) <$> map_to_list m).

Lemma fresh_node p (m : gmap Z Z) : m !! node_at p (fresh_key m) = None.
Proof.
  apply eq_None_not_Some. intros [r Hr]. apply (infinite_is_fresh ((fun x => snd (node_key (fst x))) <$> map_to_list m)). apply list_elem_of_fmap. exists (node_at p (fresh_key m), r). split; [by cbn; rewrite node_key_at|by apply elem_of_map_to_list].
Qed.

Definition pf_root : Z := node_at [] 0.
Definition is_dir (t : pathfs) (p : segs) : bool := bool_decide (p = []) || bool_decide (entries t !! p = Some true).

Definition pf_find (t : pathfs) (d : Z) (nm : list Z) (m : gmap Z Z) : error + Z * gmap Z Z :=
  let p := fst (node_key d) ++ [nm] in
  if bool_decide (is_Some (entries t !! p)) then let n := node_at p (fresh_key m) in inr (n, <[n := 1]> m) else inl NoEnt.

Definition pf_add (b : bool) (t : pathfs) (d : Z) (nm : list Z) (mode : Z) : error + pathfs :=
  let p := fst (node_key d) in
  if negb (is_dir t p) then inl NotDir else if bool_decide (is_Some (entries t !! (p ++ [nm]))) then inl Exist else inr (PathFs (<[p ++ [nm] := b]> (entries t))).

Definition pf_unlink (t : pathfs) (d : Z) (nm : list Z) : error + pathfs :=
  let p := fst (node_key d) in
  match entries t !! (p ++ [nm]) with None => inl NoEnt | Some true => inl IsDir | Some false => inr (PathFs (base.delete (p ++ [nm]) (entries t))) end.

Definition below (p q : segs) : bool := bool_decide (p `prefix_of` q) && negb (bool_decide (p = q)).

Definition pf_rmdir (t : pathfs) (d : Z) (nm : list Z) : error + pathfs :=
  let p := fst (node_key d) ++ [nm] in
  match entries t !! p with
  | None => inl NoEnt
  | Some false => inl NotDir
  | Some true => if existsb (fun x => below p (fst x)) (map_to_list (entries t)) then inl NotEmpty else inr (PathFs (base.delete p (entries t)))
  end.

(** Files are renamed, directories not. *)
Definition pf_rename (t : pathfs) (d : Z) (nm : list Z) (d' : Z) (nm' : list Z) : error + pathfs :=
  let p := fst (node_key d) in
  match entries t !! (p ++ [nm]) with
  | None => inl NoEnt
  | Some true => inl IsDir
  | Some false => if bool_decide (is_Some (entries t !! (p ++ [nm']))) then inl Exist else inr (PathFs (<[p ++ [nm'] := false]> (base.delete (p ++ [nm]) (entries t))))
  end.

#[export] Instance pathfs_system : FileSystem pathfs := {
  find := pf_find; fs_create := pf_add false; fs_mkdir := pf_add true; fs_rmdir := pf_rmdir; fs_unlink := pf_unlink; fs_rename := pf_rename;
  supports := fun _ _ => true; read_only := fun _ => false; is_fifo := fun _ => false; kept := fun n => bool_decide (n = pf_root)
}.

(** The inode of a node is its path. *)
Definition pf_child (t : pathfs) (p : segs) (nm : list Z) : option segs := if bool_decide (is_Some (entries t !! (p ++ [nm]))) then Some (p ++ [nm]) else None.

Lemma pf_walk t q : forall p r, walk (pf_child t) p q = Some r -> r = p ++ q.
Proof.
  induction q as [|nm q IH]; intros p r; cbn [walk]; [by intros [= ->]; rewrite app_nil_r|]. destruct (pf_child t p nm) as [j|] eqn:E; [|done]. cbn. intros ->%IH. unfold pf_child in E. case_bool_decide; [|done]. injection E as <-. by rewrite <- (assoc app).
Qed.

(** Tables that differ at the names of one directory only. *)
Lemma pf_local t t' p names :
  (exists ps, walk (pf_child t) [] ps = Some p) -> (forall q, (forall nm, nm ∈ names -> q <> p ++ [nm]) -> entries t' !! q = entries t !! q) -> local_change (pf_child t) (pf_child t') [] p names.
Proof.
  intros [ps Hps] Hsame. pose proof (pf_walk _ _ _ _ Hps) as Hp. cbn in Hp. subst ps. split.
  { intros a b Ha Hb. apply pf_walk in Ha, Hb. cbn in *. congruence. }
  intros q Hno. assert (forall nm, nm ∈ names -> ~ p ++ [nm] `prefix_of` q) as Hp by (intros nm; by apply Hno). clear Hno. induction q as [|x q IH] using rev_ind; [done|].
  assert (walk (pf_child t') [] q = walk (pf_child t) [] q) as IHq by (apply IH; intros nm Hnm Hq; apply (Hp nm Hnm); etrans; [done|by exists [x]]). rewrite !walk_app, IHq. destruct (walk (pf_child t) [] q) as [r|] eqn:Eq; [|done]. apply pf_walk in Eq. cbn in Eq. subst r. cbn. unfold pf_child. rewrite Hsame; [done|].
  intros nm Hnm E. apply (Hp nm Hnm). by rewrite <- E.
Qed.

Lemma pf_add_local b t d nm mode t' :
  (exists ps, walk (pf_child t) [] ps = Some (fst (node_key d))) -> pf_add b t d nm mode = inr t' -> local_change (pf_child t) (pf_child t') [] (fst (node_key d)) [nm].
Proof.
  intros Ht E. unfold pf_add in E. destruct (is_dir t _); [|done]. case_bool_decide; [done|]. injection E as <-. apply pf_local; [done|]. intros q Hq. cbn. rewrite lookup_insert_ne; [done|]. intros <-. by apply (Hq nm); [set_solver|].
Qed.

#[export] Program Instance pathfs_laws : FSLaws pathfs := {
  inode := segs; ino := fun n => fst (node_key n); top := []; child := pf_child; tree_ok := fun _ => True; healthy := fun _ => True
}.
Next Obligation.
  intros t d nm m n m' E. cbn in E. unfold pf_find in E. case_bool_decide as Hb; [|done]. injection E as <- <-. split; [|done]. unfold pf_child. by rewrite bool_decide_true, node_key_at.
Qed.
Next Obligation.
  intros t d nm m n m' w E Hh Hw. cbn in E. unfold pf_find in E. case_bool_decide as Hb; [|done]. injection E as <- <-. set (n := node_at _ _) in *. pose proof (fresh_node (fst (node_key d) ++ [nm]) m) as Hn. fold n in Hn. intros x. unfold more. case_decide as Hx.
  - subst x. assert (w n = 0) as -> by (destruct (Hh n) as [H1 H2]; destruct (decide (0 < w n)) as [H0|]; [destruct (H2 H0) as (? & ? & _); congruence|lia]). split; [unfold UINT64_MAX; lia|]. intros _. exists 1. by rewrite lookup_insert_eq.
  - rewrite lookup_insert_ne by done. apply Hh.
Qed.
Next Obligation.
  intros t d nm m e E _. cbn in E. unfold pf_find in E. unfold pf_child. by case_bool_decide.
Qed.
Next Obligation.
  intros t d nm mode t' _ Ht E. split; [done|]. exact (pf_add_local false t d nm mode t' Ht E).
Qed.
Next Obligation.
  intros t d nm mode t' _ Ht E. split; [done|]. exact (pf_add_local true t d nm mode t' Ht E).
Qed.
Next Obligation.
  intros t d nm t' _ Ht E. cbn in E. unfold pf_rmdir in E. destruct (entries t !! _) as [[]|]; try done. destruct (existsb _ _); [done|]. injection E as <-. split; [done|]. apply pf_local; [done|]. intros q Hq. cbn. rewrite lookup_delete_ne; [done|]. intros <-. by apply (Hq nm); [set_solver|].
Qed.
Next Obligation.
  intros t d nm t' _ Ht E. cbn in E. unfold pf_unlink in E. destruct (entries t !! _) as [[]|]; try done. injection E as <-. split; [done|]. apply pf_local; [done|]. intros q Hq. cbn. rewrite lookup_delete_ne; [done|]. intros <-. by apply (Hq nm); [set_solver|].
Qed.
Next Obligation.
  intros t d nm nm' t' _ Ht E. cbn in E. unfold pf_rename in E. destruct (entries t !! _) as [[]|]; try done. case_bool_decide; [done|]. injection E as <-. split; [done|]. apply pf_local; [done|]. intros q Hq. cbn. rewrite lookup_insert_ne, lookup_delete_ne; [done|..]; intros <-; eapply Hq; try done; set_solver.
Qed.
