(* ===== verification/VfsProps.v ===== *)
(** * The virtual file system: what it promises

    Programs of calls on one file system mounted at "/", against the tree of that
    file system: whatever is cached, evicted or invalidated on the way, a path
    opens the node that the tree has at it when the call is made. *)

From Stdlib Require Import ZArith Lia.
From stdpp Require Import base tactics gmap numbers list sorting.
From S2P Require Import Prelude.
From S2P Require Import Memory.
From S2P Require Import Slices.
From S2P Require Import KErrno.
From S2P Require Import Dentry.
From S2P Require Import DentryFacts.
From S2P Require Import DentryTree.
From S2P Require Import DentryOps.
From S2P Require Import DentryPaths.
From S2P Require Import DentryProps.
From S2P Require Import KPath.
From S2P Require Import KPathFacts.
From S2P Require Import Resolve.
From S2P Require Import ResolveProps.
From S2P Require Import Vfs.
From S2P Require Import VfsFacts.
From S2P Require Import VfsOps.
From S2P Require Import PathFs.

(** ** Programs *)








Section programs.
Context {F : Type} `{FSLaws F} (N : Z) (channel_room : gset Z -> bool) (rt : Z).





(** Nothing is mounted or cached. *)
Definition new_vfs (m : gmap Z Z) (rows0 : rows) (t : F) : vfs F := {| cache := init N m; mounts := []; fifos := ∅; components := rows0; fs := t |}.

(** ** The invariant *)

Hypothesis (HN : 255 <= N <= UINT64_MAX).
Hypothesis (Hrt : ino rt = top) (Hrf : supports OpFind rt = true) (Hrk : kept rt = true).






End programs.

(** ** The claims *)


Section shared.
Context {F : Type} `{!FileSystem F} (N : Z) (channel_room : gset Z -> bool) (rt r2 : Z) (mp a : list Z).
Hypothesis (HN : 255 <= N <= UINT64_MAX) (Hmp : name_ok mp) (Ha : name_ok a) (Hne : mp <> a).

Lemma best_inner (v : vfs F) : mounts v = [(ROOT, rt); (path_text [mp], r2)] -> best_mount (path_text [mp; a]) (mounts v) = Some (path_text [mp], r2).
Proof.
  intros ->. unfold best_mount. cbn [foldl fst]. rewrite root_covers. cbn [andb length ROOT]. change (0 <? Z.of_nat 1) with true. cbn [fst].
  assert (covers (path_text [mp]) (path_text [mp; a]) = true) as ->.
  { unfold covers. change (path_text [mp; a]) with (slashed ([mp] ++ [a])). rewrite slashed_app. change (path_text [mp]) with (slashed [mp]). apply andb_true_iff. split.
    - apply Z.eqb_eq. generalize (slashed [mp]) (slashed [a]). intros l l'. induction l as [|b l IH]; cbn; [by destruct l'|]. by rewrite Z.eqb_refl.
    - apply orb_true_iff. right. change (slashed [a]) with (SLASH :: a ++ []). by rewrite list_lookup_middle. }
  destruct Hmp as (((H1 & _) & _) & _). rewrite (proj2 (Z.ltb_lt _ _)); [done|]. change (path_text [mp]) with (SLASH :: mp ++ []). cbn [length ROOT]. rewrite length_app. destruct mp; [done|]. cbn [length]. lia.
Qed.

(** An empty cache. *)
Definition missed (c : dcache) : dcache := set_counts (entry_count_ c) (hit_count_ c) (u64 (miss_count_ c + 1)) c.

Lemma lookup_component_empty nm c : root_children c = None -> name_ok nm -> lookup_component N None nm c = Done (None, None) (missed c).
Proof.
  intros Hc (((Hnm & _) & _) & _). unfold lookup_component. rewrite (proj2 (Z.eqb_neq _ _)) by (by destruct nm). unfold find_child. rewrite bind_run, bind_run. cbn [kids_of gets]. rewrite Hc. done.
Qed.

Lemma lookup_empty s segs c : root_children c = None -> Forall name_ok (s :: segs) -> lookup N (path_text (s :: segs)) c = Done None (missed c).
Proof.
  intros Hc [Hs _]%Forall_cons. pose proof Hs as (((Hne' & Hsl) & _) & _). unfold lookup. assert (((zlen (path_text (s :: segs)) =? 0) || is_root_path (path_text (s :: segs))) = false) as ->.
  { apply orb_false_iff. split; [done|]. apply bool_decide_eq_false. cbn. destruct s; [done|]. by intros [= ]. }
  change (skip_slash (path_text (s :: segs))) with (s ++ slashed segs). rewrite while_S. destruct (s ++ slashed segs) as [|b p] eqn:E; [by destruct s|]. cbn beta iota. rewrite <- E, component_slashed, (name_ok_bad s Hs) by done. rewrite bind_run, lookup_component_empty by done. done.
Qed.

(** The walk of "/mp/a" leaves "/a" in the cache. *)
Lemma inner_walk (v : vfs F) w n m1 fl :
  dc_ok N (cache v) Nil [] fl -> root_children (cache v) = None -> supports OpFind r2 = true -> find (fs v) r2 a (nodes (cache v)) = inr (n, m1) -> held kept w m1 -> 0 < w n -> (forall x, w x <= UINT64_MAX - N - 1) ->
  exists c' f' l' fl', walk_names N r2 None [a] v = Done (inr n) (set_cache c' v) /\ stands_for N kept c' f' l' fl' w /\ fnode [a] f' = Some n /\ cached [mp] f' = false.
Proof.
  intros Hok Hroot Hsup Efind Hw Hn Hb. cbn [walk_names]. rewrite bind_run. unfold walk_step. rewrite bind_run, (on_cache_run _ _ _ _ (lookup_component_empty a (cache v) Hroot Ha)), Hsup. cbn [negb]. rewrite bind_run. cbn [get fs set_cache cache missed set_counts nodes]. rewrite Efind, bind_run. cbn [on_cache zoom modify].
  set (c2 := set_nodes m1 (missed (cache v))). assert (dc_ok N c2 Nil [] fl) as Hok2 by (eapply only_nodes_ok; [by exists m1|by apply dentry_counts_ok]). assert (held kept (refs Nil w) (nodes c2)) as Hh2 by (eapply held_ext; [|exact Hw]; intros x; unfold refs; cbn; lia).
  destruct (insert_component_ok N kept ltac:(lia) c2 Nil [] fl None [] a n w Hok2 eq_refl (name_ok_bad a Ha) Hh2) as (d & c3 & f3 & l3 & fl3 & gone & E3 & Hok3 & Hh3 & [d0 Hins] & Hgone & Hget & _).
  { intros x. specialize (Hb x). destruct (Hw x). lia. }
  { done. }
  { intros ->. pose proof (Permutation_length (ok_all _ _ _ _ _ Hok2)) as HP. rewrite length_seqZ in HP. cbn in HP. lia. }
  change (set_nodes m1 (cache (set_cache (missed (cache v)) v))) with c2. rewrite bind_run, (on_cache_run _ (set_cache c2 (set_cache (missed (cache v)) v)) _ _ E3). exists c3, f3, l3, fl3. split; [done|]. split; [by split|]. split; [apply fnode_get; by exists d|]. unfold cached.
  assert (fget [mp] f3 = None) as ->; [|done]. rewrite Hins, decide_False by (cbn; congruence). destruct gone as [vp|]; [by case_decide|done].
Qed.
End shared.

(** C39. File systems share one cache by the part of a path behind the mount point:
    with two mounted, at "/" and "/mp", opening "/mp/a" makes "/a" lead to the
    same node, whatever the file system at "/" has under that name. *)
Theorem mounts_share_cache {F} `{!FileSystem F} N channel_room rt r2 mp a n (t : F) m0 m1 rows0 w v0 :
  255 <= N <= UINT64_MAX -> name_ok mp -> name_ok a -> mp <> a -> (_ ← mount_virtual rt ROOT; mount_virtual r2 (path_text [mp])) (new_vfs N m0 rows0 t) = Done tt v0 -> rows_ok 32 16 rows0 [] ->
  supports OpFind r2 = true -> find t r2 a m0 = inr (n, m1) -> is_fifo n = false -> held kept w m1 -> 0 < w n -> (forall x, w x <= UINT64_MAX - N - 512) ->
  exists v1 v2, vfs_open N channel_room (path_text [mp; a]) v0 = Done (inr n) v1 /\ vfs_open N channel_room (path_text [a]) v1 = Done (inr n) v2.
Proof.
  intros HN Hmp Ha Hne Hv0 Hrows Hsup Efind Hff Hw Hn Hb. assert (Forall name_ok [a]) as Hqa by (constructor; [done|by constructor]). assert (Forall name_ok [mp; a]) as Hq by (by constructor). assert (zlen (path_text [mp; a]) <= 64 /\ zlen (path_text [a]) <= 32) as [Hlen Hlena].
  { destruct Hmp as (_ & ? & _), Ha as (_ & ? & _). cbn. rewrite !length_app. cbn. rewrite !app_nil_r. lia. }
  assert (take 63 (path_text [mp]) = path_text [mp]) as Hcut. { apply take_ge. destruct Hmp as (_ & ? & _). cbn. rewrite app_nil_r. lia. }
  assert (v0 = set_mounts [(ROOT, rt); (path_text [mp], r2)] (new_vfs N m0 rows0 t)) as ->. { rewrite bind_run in Hv0. unfold mount_virtual, modify in Hv0. rewrite Hcut in Hv0. injection Hv0 as <-. done. } set (v := set_mounts _ _).
  assert (forall v r, is_fifo r = false -> ensure_fifo channel_room r v = Done (inr r) v) as Hfifo by (intros v' r Hr; unfold ensure_fifo; rewrite bind_run; cbn [get]; by rewrite Hr).
  unfold vfs_open at 1. rewrite bool_decide_false, bind_run, (on_cache_run _ v _ _ (lookup_empty N mp [a] (init N m0) eq_refl Hq)) by done. rewrite bind_run. cbn [get]. rewrite (best_inner rt r2 mp a Hmp) by done.
  assert (skip_slash (drop (length (path_text [mp])) (path_text [mp; a])) = drop 1 (slashed [a])) as ->. { change (path_text [mp; a]) with (slashed ([mp] ++ [a])). by rewrite slashed_app, drop_app_length. } rewrite Hsup. cbn [negb].
  destruct (vfs_split_run [a] (set_cache (missed (init N m0)) v) Hqa ltac:(cbn; lia) Hrows) as (c2 & E2 & Hok2). rewrite bind_run in E2. rewrite bind_run. destruct (on_components (split_path (drop 1 (slashed [a])) 16) (set_cache (missed (init N m0)) v)) as [count vx| |]; try done. rewrite bind_run, E2.
  set (v2 := set_components c2 (set_cache (missed (init N m0)) v)). assert (dc_ok N (cache v2) Nil [] (seqZ 0 N)) as Hok by (apply dentry_counts_ok; [apply dentry_init_ok; lia|done]).
  destruct (inner_walk N r2 mp a HN Ha Hne v2 w n m1 (seqZ 0 N) Hok eq_refl Hsup Efind Hw Hn) as (c3 & f3 & l3 & fl3 & E3 & [Hok3 Hh3] & Hfn & Hcm); [intros x; specialize (Hb x); lia|]. rewrite bind_run, E3.
  pose proof (insert_ok N kept ltac:(lia) (path_text [mp; a]) n c3 f3 l3 fl3 w Hok3 Hh3) as Hi. rewrite (insert_names_text [mp] a Hq : insert_names (path_text [mp; a]) = _) in Hi. destruct Hi as (c4 & f4 & l4 & fl4 & E4 & Hok4 & Hh4 & Heff); [intros x; specialize (Hb x); destruct (Hw x); lia|done|lia|]. unfold insert_effect in Heff. rewrite Hcm in Heff. subst f4.
  rewrite bind_run, (on_cache_run _ (set_cache c3 v2) _ _ E4), Hfifo by done. eexists. 
  pose proof (dentry_lookup_ok N kept ltac:(lia) (path_text [a]) c4 f3 l4 fl4 _ Hok4 Hh4) as Hl. unfold looked_up in Hl. rewrite path_names_text, Hfn in Hl by done. destruct Hl as (c5 & ext5 & E5 & _).
  { intros x. pose proof (occ_room (fnds [mp] f3) x w). pose proof (fnds_length [mp] f3) as Hfl. cbn [length] in Hfl. specialize (Hb x). destruct (Hw x). lia. }
  eexists. split; [done|]. unfold vfs_open. rewrite bool_decide_false, bind_run, (on_cache_run _ (set_cache c4 (set_cache c3 v2)) _ _ E5) by done. by apply Hfifo.
Qed.

(** ** Concrete runs *)

Definition pf_rows : rows := replicate 16 (replicate 32 7).




Lemma letter_ok z : z <> 47 -> z <> 46 -> z <> 0 -> name_ok [z].
Proof. intros H1 H2 H3. unfold name_ok, valid_name, plain, SLASH, DOT. split_and!; try done; [set_solver|congruence|cbn; lia|set_solver]. Qed.


Lemma pf_rows_ok : rows_ok 32 16 pf_rows [].
Proof. apply rows_32_ok. Qed.





(** The tree of the second mount has "a", that of the first has not. *)
Definition two_roots : Z := node_at [[109]] 0.
Definition two_trees : pathfs := PathFs {[ [[109]] := true; [[109]; [97]] := false ]}.
Definition two_found : Z := node_at [[109]; [97]] 1.
Definition two_nodes : gmap Z Z := {[pf_root := 1; two_roots := 1]}.

Lemma two_find : find two_trees two_roots [97] two_nodes = inr (two_found, <[two_found := 1]> two_nodes) /\ find two_trees pf_root [97] two_nodes = inl NoEnt.
Proof. vm_compute. split; reflexivity. Qed.

Lemma two_held : held kept (more 1 two_found (fun _ => 0)) (<[two_found := 1]> two_nodes).
Proof.
  intros x. unfold more. case_decide as Hx; [|split; [unfold UINT64_MAX; lia|lia]]. subst x. split; [unfold UINT64_MAX; lia|]. intros _. exists 1. by rewrite lookup_insert_eq.
Qed.

Lemma mounts_share_cache_witness :
  find two_trees pf_root [97] two_nodes = inl NoEnt /\
  exists v1 v2, vfs_open 255 (fun _ => true) (path_text [[109]; [97]]) (set_mounts [(ROOT, pf_root); (path_text [[109]], two_roots)] (new_vfs 255 two_nodes pf_rows two_trees)) = Done (inr two_found) v1 /\
    vfs_open 255 (fun _ => true) (path_text [[97]]) v1 = Done (inr two_found) v2.
Proof.
  split; [apply two_find|]. apply (mounts_share_cache 255 (fun _ => true) pf_root two_roots [109] [97] two_found two_trees two_nodes (<[two_found := 1]> two_nodes) pf_rows (more 1 two_found (fun _ => 0)));
    [unfold UINT64_MAX; lia|apply letter_ok; lia|apply letter_ok; lia|discriminate|reflexivity|exact pf_rows_ok|reflexivity|apply two_find|reflexivity|exact two_held|unfold more; rewrite decide_True; [lia|reflexivity]|].
  intros x. unfold more, UINT64_MAX. case_decide; lia.
Defined.
